(* ===== verification/_CoqProject ===== *)
-Q . S2P
Prelude.v
Bytes.v
Pystr.v
Dict.v
Pmm.v
Vmm.v
Packets.v
Net.v
NetWire.v
NetProps.v
Vfs.v
VfsProps.v
Tmpfs.v
Ext2.v
Ext2Inv.v
Ext2Props.v
Ext2Dir.v
Asyncio.v
AsyncioProps.v
Sync.v
SyncProps.v
Gather.v
Log.v
Scheduler.v
SchedProps.v
Interrupts.v
Hw.v
Virtio.v
VirtioSpec.v
VirtioMem.v
VirtioProps.v
VirtioProbe.v
Pci.v
VirtioPci.v
VirtioPciProps.v
Virtqueue.v
Vring.v
VirtioNet.v
VirtioNetProps.v
NetDriver.v
Sound.v
Snd.v
SndProps.v
SndPool.v
SoundProps.v
Input.v
InputProps.v
VirtioInput.v
VirtioInputProps.v
Json.v
Bridge.v
BridgeProps.v
Edwin.v
EdwinProps.v
EdwinGap.v
Dock.v
DockProps.v
KeyProps.v
Menubar.v
Compositor.v
CompositorProps.v
CompositorFocus.v
CompositorInput.v
Display.v
DisplayProps.v
ConsoleText.v
Chipset.v
Ed.v
EdProps.v
EdFiles.v
Commands.v
Shell.v
Inflate.v
InflateProps.v
InflateSpec.v
Png.v
Desk.v
DeskProps.v
DeskUi.v
DeskUiProps.v
