(* ===== verification/Prelude.v ===== *)
(** * PythonOS: a verification library

    PythonOS is an operating system whose kernel is written in Python and runs
    on the bare machine.  This library models the Python code under [src/] that
    keeps state others rely on, and proves what that code promises.

    ** The parts of the system and where they are modelled

    - Memory.  [Pmm] is [kernel/memory/pmm.py]: ranges of free physical pages.
      [Vmm] is [kernel/memory/vmm.py]: address spaces and regions over it.
    - The event loop.  [Asyncio] is [asyncio/futures.py], [tasks.py] and
      [events.py]: futures, tasks, handles and the turns of the loop, over a
      store of shared objects.  [Sync] is [asyncio/locks.py], [queues.py] and
      the combinators of [asyncio/__init__.py].  [AsyncioProps], [SyncProps]
      and [Gather] hold their theorems and runs.
    - Processes.  [Scheduler] is [kernel/scheduler.py] and
      [kernel/timekeeper.py], on the event loop; [SchedProps] its theorems.
      [Interrupts] is [kernel/interrupts/router.py] and [handlers.py], which
      call the scheduler.  [Log] is [kernel/log.py], which it writes to.
    - Files.  [Vfs] is [kernel/fs/vfs.py]: mounts, paths and descriptors, over
      any filesystem that implements the class [FSNode]; [VfsProps] states what
      the switch needs of a filesystem ([FileLaws]) and what it then gives.
      [Tmpfs] is [kernel/fs/tmpfs.py] and discharges those laws.  [Ext2] is
      [kernel/fs/ext2.py], over a block device given by an interface and its
      laws; [Ext2Inv], [Ext2Props] and [Ext2Dir] hold its theorems.
    - Network.  [Packets] is the formats of [kernel/net/ethernet.py], [ip.py]
      and [tcp.py]; [Net] is ARP, the TCP state machine and the stack glue
      ([arp.py], [tcp.py], [stack.py]); [NetWire] and [NetProps] the theorems,
      over a card given by the class [Nic] and its laws.  [VirtioNet] is the
      card's driver ([kernel/drivers/net/virtio_net_mmio.py]) on the queues of
      [Virtqueue]; [Vring] is what holds of any such queue, [VirtioNetProps]
      the theorem of the driver, [NetDriver] that of the stack over it.
    - Host bridge.  [Bridge] is the client of [kernel/bridge/__init__.py], its
      SDL senders ([kernel/gui/sdl2/dispatch.py]) and the translation of host
      events ([kernel/bridge/input.py]), over a byte stream given by a class;
      [Json] models [json.dumps] and [json.loads]; [BridgeProps] holds the
      theorems.
    - Shell.  [Commands] is [kernel/commands.py], the programs a prompt offers,
      over the laws of the filesystem; [Shell] is [kernel/shell.py]: the prompt
      with its line editor, completion, history and dispatch.  Both hold their
      theorems.
    - Programs.  [Ed] is the line editor [kernel/ed.py], a client of the
      switch; [EdProps] and [EdFiles] its theorems.  [Inflate] and [Png] are
      the decoders [kernel/gui/image/_deflate.py] and [png.py]; [InflateProps],
      [InflateSpec] and [Png] their theorems.  [Desk] and [DeskUi] are the
      sessions, windows and input of the desktop service
      ([tools/desktop_service/model.py] and the requests of [server.py]);
      [DeskProps] and [DeskUiProps] their theorems.
    - Drivers.  [Hw] is the machine: memory, device registers, the DMA
      allocator of [src/hal/hal.c], with the device as a class.  [Virtio],
      [VirtioPci] and [Pci] are the block drivers and the bus
      ([kernel/drivers/block/], [kernel/bus/pci.py]); [VirtioSpec] states what
      they rely on, [VirtioMem] what is in memory, and [VirtioProps],
      [VirtioProbe] and [VirtioPciProps] their theorems.  [Snd] is
      [kernel/drivers/sound/virtio_snd.py], [SndProps] the device and the
      reference queue, [SndPool] the refinement.  [Sound] is
      [kernel/sound/mixer.py], over a device given by the class [Backend];
      [SoundProps] its theorems, with the driver as an instance.  [Input] is
      the PS/2 keyboard and mouse and the event queue
      ([kernel/drivers/keyboard.py], [mouse.py], [kernel/gui/input.py]);
      [InputProps] their theorems.  [VirtioInput] is
      [kernel/drivers/input/virtio_input.py], on the queues of [Vring];
      [VirtioInputProps] its theorems.
    - Screen.  [Display] is [kernel/display/framebuffer.py], [font.py] and
      [console.py], with the fill and copy primitives as [hal.c] has them;
      [DisplayProps] gives every operation as what it paints, [ConsoleText]
      relates the console to a document.  [Chipset] is the software display of
      [kernel/chipset/]: playfields, sprites, display list, blitter and raster,
      with the raster's native routine from [hal.c].
    - Desktop of the kernel.  [Compositor] is [kernel/gui/compositor.py] (event
      routing, windows, focus, launches, frames) with [CompositorProps],
      [CompositorFocus] and [CompositorInput]; [Dock] is
      [dock.py], its menus and [keybindings.py], with [DockProps] and
      [KeyProps]; [Menubar] is [menubar.py].  [Edwin] is
      the editor [apps/editor/edwin.py]; [EdwinProps] and [EdwinGap] its
      theorems.
    - [Bytes], [Pystr] and [Dict] are the Python values all of them use:
      sequences with Python's indexing and slicing, [struct], strings and
      UTF-8, insertion-ordered dicts.

    ** How the code is rendered

    A routine that mutates state is a function of the monad [M] below: it takes
    the state and gives a value or an exception, with the state reached, also
    when it raises.  Objects that are shared are kept in stores and passed by
    reference (futures, tasks, handles, file nodes, connections, address
    spaces, sessions).  A coroutine is cut where it awaits: one definition per
    stretch of code between two suspensions, with what it keeps passed along;
    interleavings are then runs of a step relation ([steps]).  Integers are
    unbounded as in Python and are kept at their width where the code masks
    or packs them; bytes are integers below 256, strings lists of code points.
    Loops whose end is not evident carry fuel that is computed from the input
    (its length, the bits left, the number of tasks); the theorems on them are
    about the result, with that fuel, and not only about runs that return.

    Code that is not Python under [src/] is a parameter: devices and the
    network card (interfaces with laws), coroutines and callbacks run by the
    loop (code that acts through the loop's methods, [uses_loop] and
    [uses_sched]), the handlers of applications that the compositor calls, the
    producers of sound, the text of exceptions.  The few primitives of the C
    extension that pixels and memory go through are defined from [hal.c].

    ** What the theorems show

    - Memory: no page is handed out twice ([pmm_no_double_alloc]), no frame is
      mapped twice or while free and none is lost ([vmm_frames_isolated]).
    - Event loop: completed futures are final, callbacks run once and in order,
      timers fire in order, a semaphore never admits more than its count, a
      queue is first in first out, [gather] keeps the order of its arguments.
    - Processes: the table is sound in every reachable state, a process that
      ends is seen by the end of the next turn ([sched_exit_seen]), ticks keep
      time, the clock runs, log lines stay inside the margin.
    - Files: descriptors refine byte arrays with an offset, the longest mount
      prefix serves a path, tmpfs implements the laws; the ext2 driver writes
      through, its allocator takes the first free bit and keeps counters and
      bitmaps together, inodes and directory blocks read back what was written.
    - Network: codecs round-trip and checksums verify, sending puts the bytes
      on the wire in order, what [recv] returned and what is still buffered
      are the payloads that arrived while established, in order
      ([tcp_stream_integrity]), an ARP exchange resolves; the card's driver is
      a pair of queues of frames, whatever order the card works in.
    - Shell: [cp], [mv], [cat] and [ftp_get] move bytes unchanged, completion
      inserts the longest common continuation, the terminal shows the line that
      is edited, history reads back as written, a prompt runs its command.
    - Host bridge: queueing calls to send them together cannot be observed by
      the program; a reply that comes late is never skipped
      ([bridge_never_resynchronises]).
    - Programs: undo, addressing, moving, writing and reading back in the
      editor and its termination; decompression of fixed-code streams and
      totality of the decompressor; PNG filters as the specification defines
      them invert; commits to the desktop are atomic and typed, and no input
      event can break the desktop.
    - Drivers: the block drivers refine a disk, for any device that follows
      the standard, and enumeration finds the functions of the bus exactly; the
      sound driver is a queue of five periods whatever order the device
      finishes them in, and a stream of sound arrives complete and in order;
      scan codes and mouse packets decode to what was sent, from any history;
      what a VirtIO input device reports is translated once and in order, and
      its pointer stays on the screen.
    - Screen: the text console shows the last lines of a document, pixel by
      pixel; both paths of a blit leave the same picture; the native raster of
      the chipset is the raster in Python, outside a shortcut that the comment
      of [raster_native_agrees] describes.
    - Desktop: the dock follows the windows, what is seen is what is clicked, a
      press goes to the topmost window, focus moves on when a window goes,
      shortcuts stay reachable and reload as saved; the screen editor is a text
      with a point, for every key of its keymap.

    Where the code does not do what it means to, a theorem or an example shows
    the run (the lock with two holders, the lost wakeup of the queue, frames
    freed twice by [destroy_space], and others).

    ** Not modelled

    Widgets, icons, image formats other than PNG, turtle and demos (pixels and
    taste), the SDL2 layer, the PCI network driver, the display
    drivers and the HD Audio driver (register sequences without
    state of their own), the transports of the host bridge, the sound and the clock of the chipset,
    the boot sequence and the commands that only print tables or start other
    programs (glue over the modelled parts), the reduced standard library, build tools and
    the C extension. *)

From Stdlib Require Import ZArith Lia.
From stdpp Require Import base list gmap strings numbers.

(** ** Exceptions

    One constructor per Python exception class that the modelled code raises
    or catches.  Messages are dropped, except those of [EdError], which the
    line editor stores and prints; [BridgeError] keeps its code when that is an
    integer. *)

Inductive exn : Type :=
| ValueError | IndexError | KeyError | MemoryError | OSError | TypeError
| FileNotFoundError | FileExistsError | IsADirectoryError | NotADirectoryError
| NotImplementedError | RuntimeError | ZeroDivisionError | TimeoutError
| ConnectionRefusedError | CancelledError | InvalidStateError
| QueueEmpty | QueueFull | EOFError | StructError | UnicodeError
| AttributeError | UserError (n : Z) | OverflowError | BridgeError (code : option Z)
| EdError (msg : string).

#[global] Instance exn_eq_dec : EqDecision exn.
Proof. solve_decision. Defined.

(** ** Results and the exception-state monad *)

Inductive result (A : Type) : Type :=
| Ok (a : A)
| Err (e : exn).
Arguments Ok {A} a.
Arguments Err {A} e.

Definition is_ok {A} (r : result A) : bool :=
  match r with Ok _ => true | Err _ => false end.

Definition rbind {A B} (r : result A) (f : A -> result B) : result B :=
  match r with Ok a => f a | Err e => Err e end.

(** A stateful Python routine: the state reached is kept also when an
    exception is raised, as the mutations done before [raise] persist. *)
Definition M (S A : Type) : Type := S -> result A * S.

Definition ret {S A} (a : A) : M S A := fun s => (Ok a, s).
Definition raise {S A} (e : exn) : M S A := fun s => (Err e, s).
Definition bind {S A B} (m : M S A) (f : A -> M S B) : M S B :=
  fun s => match m s with
           | (Ok a, s') => f a s'
           | (Err e, s') => (Err e, s')
           end.
Definition lift {S A} (r : result A) : M S A := fun s => (r, s).
Definition get {S} : M S S := fun s => (Ok s, s).
Definition gets {S A} (f : S -> A) : M S A := fun s => (Ok (f s), s).
Definition modify {S} (f : S -> S) : M S unit := fun s => (Ok tt, f s).

(** [try m except e: h e]: the handler sees the exception and the mutated
    state. *)
Definition try_except {S A} (m : M S A) (h : exn -> M S A) : M S A :=
  fun s => match m s with
           | (Ok a, s') => (Ok a, s')
           | (Err e, s') => h e s'
           end.

(** [try m finally fin]. *)
Definition try_finally {S A} (m : M S A) (fin : M S unit) : M S A :=
  fun s => match m s with
           | (Ok a, s') => bind fin (fun _ => ret a) s'
           | (Err e, s') => bind fin (fun _ => raise e) s'
           end.

Declare Scope py_scope.
Delimit Scope py_scope with py.
Notation "'let!' x ':=' m 'in' k" := (bind m (fun x => k))
  (at level 10, x pattern, m at level 100, k at level 200) : py_scope.
Notation "'let?' x ':=' m 'in' k" := (rbind m (fun x => k))
  (at level 10, x pattern, m at level 100, k at level 200) : py_scope.
Notation "m ';;;' k" := (bind m (fun _ => k))
  (at level 199, right associativity) : py_scope.
#[global] Open Scope py_scope.

(** [for x in l: body x] *)
Fixpoint for_each {S A} (l : list A) (body : A -> M S unit) : M S unit :=
  match l with
  | [] => ret tt
  | x :: l' => body x ;;; for_each l' body
  end.

(** [[body x for x in l]] *)
Fixpoint map_m {S A B} (l : list A) (body : A -> M S B) : M S (list B) :=
  match l with
  | [] => ret []
  | x :: l' => let! b := body x in let! bs := map_m l' body in ret (b :: bs)
  end.

Fixpoint rmap {A B} (f : A -> result B) (l : list A) : result (list B) :=
  match l with
  | [] => Ok []
  | x :: l' => let? b := f x in let? bs := rmap f l' in Ok (b :: bs)
  end.

(** Running a computation on a part of a larger state. *)
Definition zoom {S T A} (getp : S -> T) (setp : T -> S -> S) (m : M T A) : M S A :=
  fun s => let (r, t) := m (getp s) in (r, setp t s).

(** ** Inversion of monadic equations *)

Lemma bind_Ok {S A B} (m : M S A) (f : A -> M S B) s b s' :
  bind m f s = (Ok b, s') -> exists a s1, m s = (Ok a, s1) /\ f a s1 = (Ok b, s').
Proof. unfold bind. destruct (m s) as [[a|e] s1]; naive_solver. Qed.

Lemma bind_step {S A B} (m : M S A) (f : A -> M S B) s a s1 :
  m s = (Ok a, s1) -> bind m f s = f a s1.
Proof. unfold bind. by intros ->. Qed.

Lemma bind_fail {S A B} (m : M S A) (f : A -> M S B) s e s1 :
  m s = (Err e, s1) -> bind m f s = (Err e, s1).
Proof. unfold bind. by intros ->. Qed.

Lemma rbind_Ok {A B} (r : result A) (f : A -> result B) b :
  rbind r f = Ok b -> exists a, r = Ok a /\ f a = Ok b.
Proof. destruct r; naive_solver. Qed.

Lemma bind_assoc {S A B C} (m : M S A) (f : A -> M S B) (g : B -> M S C) s :
  bind (bind m f) g s = bind m (fun a => bind (f a) g) s.
Proof. unfold bind. by destruct (m s) as [[a|e] s1]. Qed.

(** Take one monadic equation apart. *)
Ltac inv_bind :=
  match goal with
  | H : bind _ _ _ = (Ok _, _) |- _ =>
      apply bind_Ok in H as (? & ? & ? & H)
  | H : rbind _ _ = Ok _ |- _ =>
      apply rbind_Ok in H as (? & ? & H)
  | H : ret _ _ = (Ok _, _) |- _ => unfold ret in H; simplify_eq
  | H : gets _ _ = (Ok _, _) |- _ => unfold gets in H; simplify_eq
  | H : get _ = (Ok _, _) |- _ => unfold get in H; simplify_eq
  | H : modify _ _ = (Ok _, _) |- _ => unfold modify in H; simplify_eq
  | H : raise _ _ = (Ok _, _) |- _ => discriminate H
  | H : lift _ _ = (Ok _, _) |- _ => unfold lift in H; simplify_eq
  end.
Ltac inv_binds := repeat inv_bind.

(** ** Hoare-style reasoning

    [keeps P m]: [m] preserves [P], whether it returns or raises. *)
Definition keeps {S A} (P : S -> Prop) (m : M S A) : Prop :=
  forall s r s', P s -> m s = (r, s') -> P s'.

Create HintDb py discriminated.

Lemma keeps_ret {S A} (P : S -> Prop) (a : A) : keeps P (ret a).
Proof. intros s r s' HP H. unfold ret in H. by simplify_eq. Qed.
Lemma keeps_raise {S A} (P : S -> Prop) e : @keeps S A P (raise e).
Proof. intros s r s' HP H. unfold raise in H. by simplify_eq. Qed.
Lemma keeps_lift {S A} (P : S -> Prop) (r : result A) : keeps P (lift r).
Proof. intros s r' s' HP H. unfold lift in H. by simplify_eq. Qed.
Lemma keeps_get {S} (P : S -> Prop) : keeps P (@get S).
Proof. intros s r s' HP H. unfold get in H. by simplify_eq. Qed.
Lemma keeps_gets {S A} (P : S -> Prop) (f : S -> A) : keeps P (gets f).
Proof. intros s r s' HP H. unfold gets in H. by simplify_eq. Qed.
Lemma keeps_modify {S} (P : S -> Prop) (f : S -> S) :
  (forall s, P s -> P (f s)) -> keeps P (modify f).
Proof. intros Hf s r s' HP H. unfold modify in H. simplify_eq. auto. Qed.
Lemma keeps_bind {S A B} (P : S -> Prop) (m : M S A) (f : A -> M S B) :
  keeps P m -> (forall a, keeps P (f a)) -> keeps P (bind m f).
Proof.
  intros Hm Hf s r s' HP. unfold bind. destruct (m s) as [[a|e] s1] eqn:E; intros H.
  - eapply Hf; [|exact H]. by eapply Hm.
  - simplify_eq. by eapply Hm.
Qed.
Lemma keeps_try {S A} (P : S -> Prop) (m : M S A) h :
  keeps P m -> (forall e, keeps P (h e)) -> keeps P (try_except m h).
Proof.
  intros Hm Hh s r s' HP. unfold try_except. destruct (m s) as [[a|e] s1] eqn:E; intros H.
  - simplify_eq. by eapply Hm.
  - eapply Hh; [|exact H]. by eapply Hm.
Qed.
Lemma keeps_finally {S A} (P : S -> Prop) (m : M S A) fin :
  keeps P m -> keeps P fin -> keeps P (try_finally m fin).
Proof.
  intros Hm Hf s r s' HP. unfold try_finally. destruct (m s) as [[a|e] s1] eqn:E; intros H.
  - refine (keeps_bind P fin (fun _ => ret a) Hf _ _ _ _ (Hm _ _ _ HP E) H).
    auto using keeps_ret.
  - refine (keeps_bind P fin (fun _ => raise e) Hf _ _ _ _ (Hm _ _ _ HP E) H).
    auto using keeps_raise.
Qed.
Lemma keeps_for_each {S A} (P : S -> Prop) (l : list A) (body : A -> M S unit) :
  (forall x, keeps P (body x)) -> keeps P (for_each l body).
Proof. intros Hb. induction l; simpl; auto using keeps_ret, keeps_bind. Qed.
Lemma keeps_map_m {S A B} (P : S -> Prop) (l : list A) (body : A -> M S B) :
  (forall x, keeps P (body x)) -> keeps P (map_m l body).
Proof. intros Hb. induction l; simpl; auto using keeps_ret, keeps_bind. Qed.

#[export] Hint Resolve keeps_ret keeps_raise keeps_lift keeps_get keeps_gets
  keeps_modify keeps_bind keeps_try keeps_finally keeps_for_each keeps_map_m : py.

(** ** Finite runs of a step relation *)

Section steps.
Context {St : Type} (step : St -> St -> Prop).

Inductive steps : St -> St -> Prop :=
| steps_refl s : steps s s
| steps_cons s1 s2 s3 : step s1 s2 -> steps s2 s3 -> steps s1 s3.

Lemma steps_invariant (P : St -> Prop) :
  (forall s s', P s -> step s s' -> P s') ->
  forall s s', P s -> steps s s' -> P s'.
Proof. intros Hstep s s' HP Hs. induction Hs; eauto. Qed.

Lemma steps_trans s1 s2 s3 : steps s1 s2 -> steps s2 s3 -> steps s1 s3.
Proof. induction 1; eauto using steps. Qed.
End steps.
