(* ===== verification/Bytes.v ===== *)
(** * Python sequences and the [struct] module

    Python's [bytes] and [bytearray] are lists of integers in [0, 256).
    This file holds what the sources use of the language on them: indexing,
    slicing and slice assignment with Python's treatment of negative and
    out-of-range bounds, [struct.pack] / [unpack] in both byte orders, and the
    lemmas on them the components share. *)

From Stdlib Require Import ZArith Lia.
From stdpp Require Import base list numbers.
From S2P Require Import Prelude.

Local Open Scope Z_scope.

Abbreviation bytes := (list Z).

Definition byte_ok (b : Z) : Prop := 0 <= b < 256.
Definition bytes_ok (l : bytes) : Prop := Forall byte_ok l.

Definition len {A} (l : list A) : Z := Z.of_nat (length l).

(** [bytes(n)]: [n] zero bytes. *)
Definition zeros (n : Z) : bytes := replicate (Z.to_nat n) 0.

(** [range(n)] and [range(a, b)]. *)
Definition range2 (a b : Z) : list Z := map (fun i => a + Z.of_nat i) (seq 0 (Z.to_nat (b - a))).
Definition range (n : Z) : list Z := range2 0 n.

(** ** Indexing and slicing *)

(** A slice bound after Python's normalisation: a negative bound counts from
    the end, and the result is clamped to [0, n]. *)
Definition clamp (n i : Z) : Z :=
  let i := if i <? 0 then i + n else i in Z.max 0 (Z.min n i).

(** [l[i:j]] *)
Definition slice {A} (l : list A) (i j : Z) : list A :=
  let a := clamp (len l) i in
  let b := clamp (len l) j in
  take (Z.to_nat (b - a)) (drop (Z.to_nat a) l).

(** [l[i:]] and [l[:j]] *)
Definition slice_from {A} (l : list A) (i : Z) : list A := slice l i (len l).
Definition slice_to {A} (l : list A) (j : Z) : list A := slice l 0 j.

(** [l[i:j] = v]; [del l[i:j]] is the assignment of the empty list. *)
Definition slice_assign {A} (l : list A) (i j : Z) (v : list A) : list A :=
  let a := clamp (len l) i in
  let b := Z.max a (clamp (len l) j) in
  take (Z.to_nat a) l ++ v ++ drop (Z.to_nat b) l.

(** [l[i]] *)
Definition index {A} (l : list A) (i : Z) : result A :=
  let j := if i <? 0 then i + len l else i in
  if (j <? 0) then Err IndexError
  else match l !! Z.to_nat j with Some x => Ok x | None => Err IndexError end.

(** [l[i] = x] *)
Definition set_index {A} (l : list A) (i : Z) (x : A) : result (list A) :=
  let j := if i <? 0 then i + len l else i in
  if (j <? 0) || (len l <=? j) then Err IndexError
  else Ok (<[Z.to_nat j := x]> l).

(** [a ^ b] of byte strings: equality test. *)
Fixpoint beq (a b : list Z) : bool :=
  match a, b with
  | [], [] => true
  | x :: a', y :: b' => (x =? y) && beq a' b'
  | _, _ => false
  end.

(** ** [struct] *)

Fixpoint le_bytes (n : nat) (v : Z) : bytes :=
  match n with
  | O => []
  | S n' => v mod 256 :: le_bytes n' (v / 256)
  end.

Fixpoint le_val (l : bytes) : Z :=
  match l with
  | [] => 0
  | b :: l' => b + 256 * le_val l'
  end.

Definition be_bytes (n : nat) (v : Z) : bytes := rev (le_bytes n v).
Definition be_val (l : bytes) : Z := le_val (rev l).

(** [struct.pack] of one unsigned field of [n] bytes: out-of-range values
    raise [struct.error]. *)
Definition fits (n : nat) (v : Z) : bool := (0 <=? v) && (v <? 256 ^ Z.of_nat n).
Definition pack_le (n : nat) (v : Z) : result bytes :=
  if fits n v then Ok (le_bytes n v) else Err StructError.
Definition pack_be (n : nat) (v : Z) : result bytes :=
  if fits n v then Ok (be_bytes n v) else Err StructError.

(** The [Ns] format: pad with zeros or truncate to [n] bytes. *)
Definition pack_s (n : nat) (s : bytes) : bytes :=
  take n s ++ replicate (n - length s) 0.

(** [struct.unpack_from("<..", buf, off)] and [pack_into] for one field. *)
Definition unpack_le (n : nat) (buf : bytes) (off : Z) : result Z :=
  if (off <? 0) || (len buf <? off + Z.of_nat n) then Err StructError
  else Ok (le_val (take n (drop (Z.to_nat off) buf))).
Definition pack_into_le (n : nat) (buf : bytes) (off v : Z) : result bytes :=
  if negb (fits n v) || (off <? 0) || (len buf <? off + Z.of_nat n) then Err StructError
  else Ok (take (Z.to_nat off) buf ++ le_bytes n v ++ drop (Z.to_nat off + n) buf).

(** [struct.pack] with a format of several fields: unsigned integers of [n]
    bytes and the [Ns] byte-string fields. *)
Inductive field : Type :=
| FU (n : nat) (v : Z)
| FS (n : nat) (s : bytes).

Definition pack_field_be (f : field) : result bytes :=
  match f with FU n v => pack_be n v | FS n s => Ok (pack_s n s) end.

Definition pack_fields_be (fs : list field) : result bytes :=
  let? bs := rmap pack_field_be fs in Ok (concat bs).

(** [struct.unpack(">X", l)] of one field: the buffer must have its size. *)
Definition unpack_be (n : nat) (l : bytes) : result Z :=
  if (length l =? n)%nat then Ok (be_val l) else Err StructError.

(** ** Lemmas *)

Create Rewrite HintDb len.

Lemma len_nil {A} : len (@nil A) = 0.
Proof. done. Qed.
Lemma len_cons {A} (x : A) l : len (x :: l) = 1 + len l.
Proof. unfold len. simpl. lia. Qed.
Lemma len_app {A} (l1 l2 : list A) : len (l1 ++ l2) = len l1 + len l2.
Proof. unfold len. rewrite length_app. lia. Qed.
Lemma len_nonneg {A} (l : list A) : 0 <= len l.
Proof. unfold len. lia. Qed.
Lemma len_zeros n : 0 <= n -> len (zeros n) = n.
Proof. intros. unfold len, zeros. rewrite length_replicate. lia. Qed.
Lemma len_rev {A} (l : list A) : len (rev l) = len l.
Proof. unfold len. by rewrite length_rev. Qed.
Lemma len_0_nil {A} (l : list A) : len l = 0 -> l = [].
Proof. destruct l; [done|]. rewrite len_cons. pose proof (len_nonneg l). lia. Qed.
#[export] Hint Rewrite @len_nil @len_cons @len_app @len_rev : len.

Lemma length_range2 a b : length (range2 a b) = Z.to_nat (b - a).
Proof. unfold range2. by rewrite length_map, length_seq. Qed.

Lemma elem_of_range2 a b x : x ∈ range2 a b <-> a <= x < b.
Proof.
  unfold range2. rewrite list_elem_of_In, in_map_iff.
  setoid_rewrite in_seq. split.
  - intros (i & <- & Hi). lia.
  - intros Hx. exists (Z.to_nat (x - a)). lia.
Qed.

Lemma NoDup_range2 a b : base.NoDup (range2 a b).
Proof.
  unfold range2. change (map ?f ?l) with (f <$> l). apply NoDup_fmap_2; [intros ??; lia|apply NoDup_seq].
Qed.

Lemma range2_nil a b : b <= a -> range2 a b = [].
Proof. intros. unfold range2. by replace (Z.to_nat (b - a)) with 0%nat by lia. Qed.

Lemma range2_snoc a b : a <= b -> range2 a (b + 1) = range2 a b ++ [b].
Proof.
  intros. unfold range2. replace (Z.to_nat (b + 1 - a)) with (Z.to_nat (b - a) + 1)%nat by lia.
  rewrite seq_app, map_app. simpl. do 2 f_equal. lia.
Qed.

Lemma range2_cons a b : a < b -> range2 a b = a :: range2 (a + 1) b.
Proof.
  intros. unfold range2. replace (Z.to_nat (b - a)) with (S (Z.to_nat (b - (a + 1)))) by lia.
  simpl. f_equal; [lia|]. rewrite <- seq_shift, map_map. apply map_ext. lia.
Qed.

Lemma range2_app a b c : a <= b <= c -> range2 a c = range2 a b ++ range2 b c.
Proof.
  intros. unfold range2.
  replace (Z.to_nat (c - a)) with (Z.to_nat (b - a) + Z.to_nat (c - b))%nat by lia.
  rewrite seq_app, map_app. f_equal. simpl.
  rewrite <- (Nat.add_0_r (Z.to_nat (b - a))), <- fmap_add_seq.
  change (Nat.add (Z.to_nat (b - a)) <$> ?l) with (map (Nat.add (Z.to_nat (b - a))) l).
  rewrite map_map. apply map_ext. lia.
Qed.

Lemma clamp_id n i : 0 <= i <= n -> clamp n i = i.
Proof. intros. unfold clamp. destruct (Z.ltb_spec i 0); lia. Qed.
Lemma clamp_bounds n i : 0 <= n -> 0 <= clamp n i <= n.
Proof. intros. unfold clamp. destruct (Z.ltb_spec i 0); lia. Qed.
Lemma clamp_big n i : 0 <= n <= i -> clamp n i = n.
Proof. intros. unfold clamp. destruct (Z.ltb_spec i 0); lia. Qed.

Lemma slice_inside {A} (l : list A) i j :
  0 <= i -> i <= j -> j <= len l ->
  slice l i j = take (Z.to_nat (j - i)) (drop (Z.to_nat i) l).
Proof. intros. unfold slice. rewrite !clamp_id by lia. done. Qed.

Lemma len_slice {A} (l : list A) i j :
  0 <= i -> i <= j -> j <= len l -> len (slice l i j) = j - i.
Proof.
  intros. rewrite slice_inside by done. unfold len in *.
  rewrite length_take, length_drop. lia.
Qed.

Lemma len_slice_le {A} (l : list A) i j : len (slice l i j) <= Z.max 0 (clamp (len l) j - clamp (len l) i).
Proof. unfold slice, len. rewrite length_take. lia. Qed.

Lemma slice_full {A} (l : list A) : slice l 0 (len l) = l.
Proof.
  pose proof (len_nonneg l). rewrite slice_inside by lia. rewrite drop_0.
  apply take_ge. unfold len. lia.
Qed.

Lemma slice_app_l {A} (l1 l2 : list A) i j :
  0 <= i -> i <= j -> j <= len l1 -> slice (l1 ++ l2) i j = slice l1 i j.
Proof.
  intros. pose proof (len_nonneg l2).
  rewrite !slice_inside by (rewrite ?len_app; lia). unfold len in *.
  rewrite drop_app, take_app_le; [done|]. rewrite length_drop. lia.
Qed.

Lemma slice_app_r {A} (l1 l2 : list A) i j :
  len l1 <= i -> i <= j -> j <= len l1 + len l2 ->
  slice (l1 ++ l2) i j = slice l2 (i - len l1) (j - len l1).
Proof.
  intros. pose proof (len_nonneg l1).
  rewrite !slice_inside by (rewrite ?len_app; lia). unfold len in *.
  rewrite drop_app_ge by lia. f_equal; [lia|]. f_equal. lia.
Qed.

Lemma slice_from_app {A} (l1 l2 : list A) : slice_from (l1 ++ l2) (len l1) = l2.
Proof.
  unfold slice_from. rewrite len_app. pose proof (len_nonneg l2).
  rewrite slice_app_r by lia. rewrite Z.sub_diag.
  replace (len l1 + len l2 - len l1) with (len l2) by lia. apply slice_full.
Qed.

Lemma slice_to_app {A} (l1 l2 : list A) : slice_to (l1 ++ l2) (len l1) = l1.
Proof.
  unfold slice_to. pose proof (len_nonneg l1). rewrite slice_app_l by lia. apply slice_full.
Qed.

Lemma slice_assign_inside {A} (l : list A) i j v :
  0 <= i -> i <= j -> j <= len l ->
  slice_assign l i j v = take (Z.to_nat i) l ++ v ++ drop (Z.to_nat j) l.
Proof. intros. unfold slice_assign. rewrite !clamp_id by lia. by rewrite Z.max_r by lia. Qed.

Lemma len_slice_assign {A} (l : list A) i j v :
  0 <= i -> i <= j -> j <= len l -> len (slice_assign l i j v) = len l - (j - i) + len v.
Proof.
  intros. rewrite slice_assign_inside by done. unfold len in *.
  rewrite !length_app, length_take, length_drop. lia.
Qed.

Lemma slice_slice_assign {A} (l : list A) i j v :
  0 <= i -> i <= j -> j <= len l -> len v = j - i ->
  slice (slice_assign l i j v) i j = v.
Proof.
  intros Hi Hij Hj Hv. rewrite slice_inside; [|lia..|rewrite len_slice_assign; lia].
  rewrite slice_assign_inside by done.
  unfold len in *. rewrite drop_app_ge by (rewrite length_take; lia).
  rewrite length_take, Nat.min_l by lia. rewrite Nat.sub_diag, drop_0.
  rewrite take_app_le by lia. apply take_ge. lia.
Qed.

Lemma beq_eq a b : beq a b = true <-> a = b.
Proof.
  revert b. induction a as [|x a IH]; intros [|y b]; simpl; try naive_solver.
  rewrite andb_true_iff, Z.eqb_eq, IH. naive_solver.
Qed.
Lemma beq_refl a : beq a a = true.
Proof. by apply beq_eq. Qed.
Lemma beq_spec a b : reflect (a = b) (beq a b).
Proof. apply iff_reflect. symmetry. apply beq_eq. Qed.

Lemma index_Ok {A} (l : list A) i x : 0 <= i -> index l i = Ok x <-> l !! Z.to_nat i = Some x.
Proof.
  intros. unfold index. destruct (Z.ltb_spec i 0); [lia|].
  destruct (Z.ltb_spec i 0); [lia|]. destruct (l !! Z.to_nat i); naive_solver.
Qed.
Lemma index_total {A} (l : list A) i : 0 <= i < len l -> exists x, index l i = Ok x.
Proof.
  intros. destruct (lookup_lt_is_Some_2 l (Z.to_nat i)) as [x Hx]; [unfold len in *; lia|].
  exists x. by apply index_Ok; [lia|].
Qed.
Lemma index_fails {A} (l : list A) i : len l <= i -> index l i = Err IndexError.
Proof.
  intros. pose proof (len_nonneg l). unfold index.
  destruct (Z.ltb_spec i 0); [lia|]. destruct (Z.ltb_spec i 0); [lia|].
  rewrite lookup_ge_None_2; [done|unfold len in *; lia].
Qed.
Lemma set_index_Ok {A} (l : list A) i x :
  0 <= i < len l -> set_index l i x = Ok (<[Z.to_nat i := x]> l).
Proof.
  intros. unfold set_index. destruct (Z.ltb_spec i 0); [lia|].
  destruct (Z.ltb_spec i 0); [lia|]. by destruct (Z.leb_spec (len l) i); [lia|].
Qed.

Lemma length_le_bytes n v : length (le_bytes n v) = n.
Proof. revert v. induction n; intros; simpl; auto. Qed.
Lemma length_be_bytes n v : length (be_bytes n v) = n.
Proof. unfold be_bytes. by rewrite length_rev, length_le_bytes. Qed.
Lemma len_le_bytes n v : len (le_bytes n v) = Z.of_nat n.
Proof. unfold len. by rewrite length_le_bytes. Qed.
Lemma len_be_bytes n v : len (be_bytes n v) = Z.of_nat n.
Proof. unfold len. by rewrite length_be_bytes. Qed.
#[export] Hint Rewrite len_le_bytes len_be_bytes : len.

Lemma le_bytes_ok n v : bytes_ok (le_bytes n v).
Proof.
  revert v. induction n; intros; simpl; constructor; [|apply IHn].
  unfold byte_ok. apply Z.mod_pos_bound. lia.
Qed.
Lemma be_bytes_ok n v : bytes_ok (be_bytes n v).
Proof. apply Forall_rev, le_bytes_ok. Qed.

Lemma pow256_succ n : 256 ^ Z.of_nat (S n) = 256 * 256 ^ Z.of_nat n.
Proof. rewrite Nat2Z.inj_succ, Z.pow_succ_r by lia. lia. Qed.

Lemma le_val_le_bytes n v : 0 <= v < 256 ^ Z.of_nat n -> le_val (le_bytes n v) = v.
Proof.
  revert v. induction n as [|n IH]; intros v Hv; cbn [le_bytes le_val].
  - change (256 ^ Z.of_nat 0) with 1 in Hv. lia.
  - rewrite pow256_succ in Hv. rewrite IH; [pose proof (Z.div_mod v 256); lia|].
    split; [apply Z.div_pos; lia|]. apply Z.div_lt_upper_bound; lia.
Qed.

Lemma land_mask x k : 0 <= k -> Z.land x (2 ^ k - 1) = x mod 2 ^ k.
Proof. intros. rewrite <- Z.land_ones by done. f_equal. rewrite Z.ones_equiv. lia. Qed.

Lemma lor_shiftl v b i : 0 <= i -> 0 <= v < 2 ^ i -> Z.lor v (Z.shiftl b i) = v + 2 ^ i * b.
Proof.
  intros Hi Hv. assert (Hd : Z.land v (Z.shiftl b i) = 0).
  { apply Z.bits_inj'. intros n Hn. rewrite Z.land_spec, Z.bits_0. destruct (Z.lt_ge_cases n i).
    - rewrite Z.shiftl_spec_low by done. apply andb_false_r.
    - destruct (Z.eq_dec v 0) as [->|]; [by rewrite Z.bits_0|].
      rewrite (Z.bits_above_log2 v n); [done|lia|]. apply Z.log2_lt_pow2; [lia|].
      apply Z.lt_le_trans with (2 ^ i); [lia|]. apply Z.pow_le_mono_r; lia. }
  rewrite <- Z.lxor_lor, <- Z.add_nocarry_lxor by done. rewrite Z.shiftl_mul_pow2 by done. lia.
Qed.

Lemma le_val_bounds l : bytes_ok l -> 0 <= le_val l < 256 ^ len l.
Proof.
  unfold len. induction 1 as [|b l Hb Hl IH]; cbn [le_val length]; [simpl; lia|].
  rewrite pow256_succ. unfold byte_ok in Hb. lia.
Qed.

Lemma le_bytes_le_val l : bytes_ok l -> le_bytes (length l) (le_val l) = l.
Proof.
  induction 1 as [|b l Hb Hl IH]; cbn [le_val length le_bytes]; [done|].
  unfold byte_ok in Hb.
  replace ((b + 256 * le_val l) / 256) with (le_val l);
    [|rewrite Z.mul_comm, Z.div_add by lia; rewrite Z.div_small by lia; lia].
  rewrite IH. f_equal. rewrite Z.mul_comm, Z.mod_add by lia. by rewrite Z.mod_small by lia.
Qed.

Lemma be_val_be_bytes n v : 0 <= v < 256 ^ Z.of_nat n -> be_val (be_bytes n v) = v.
Proof. intros. unfold be_val, be_bytes. rewrite rev_involutive. by apply le_val_le_bytes. Qed.

Lemma be_val_bounds l : bytes_ok l -> 0 <= be_val l < 256 ^ len l.
Proof.
  intros. unfold be_val. rewrite <- (len_rev l). by apply le_val_bounds, Forall_rev.
Qed.

Lemma be_bytes_be_val l : bytes_ok l -> be_bytes (length l) (be_val l) = l.
Proof.
  intros. unfold be_val, be_bytes. rewrite <- (length_rev l), le_bytes_le_val;
    [apply rev_involutive|by apply Forall_rev].
Qed.

Lemma fits_spec n v : fits n v = true <-> 0 <= v < 256 ^ Z.of_nat n.
Proof. unfold fits. rewrite andb_true_iff, Z.leb_le, Z.ltb_lt. done. Qed.

Lemma pack_be_Ok n v : 0 <= v < 256 ^ Z.of_nat n -> pack_be n v = Ok (be_bytes n v).
Proof. intros. unfold pack_be. by rewrite (proj2 (fits_spec n v)). Qed.
Lemma pack_le_Ok n v : 0 <= v < 256 ^ Z.of_nat n -> pack_le n v = Ok (le_bytes n v).
Proof. intros. unfold pack_le. by rewrite (proj2 (fits_spec n v)). Qed.

Lemma pack_s_exact n s : length s = n -> pack_s n s = s.
Proof.
  intros <-. unfold pack_s. rewrite take_ge by lia. rewrite Nat.sub_diag. simpl.
  by rewrite app_nil_r.
Qed.

Lemma len_pack_into n buf off v buf' :
  pack_into_le n buf off v = Ok buf' -> len buf' = len buf.
Proof.
  unfold pack_into_le. destruct (negb _ || _ || _) eqn:E; [done|].
  rewrite !orb_false_iff, !Z.ltb_ge in E. intros [= <-].
  unfold len in *. rewrite !length_app, length_take, length_drop, length_le_bytes. lia.
Qed.

Lemma unpack_pack_into n buf off v buf' :
  pack_into_le n buf off v = Ok buf' -> unpack_le n buf' off = Ok v.
Proof.
  intros H. pose proof (len_pack_into _ _ _ _ _ H) as Hl. unfold unpack_le. rewrite Hl.
  unfold pack_into_le in H. destruct (negb _ || _ || _) eqn:E; [done|].
  rewrite !orb_false_iff, negb_false_iff in E. destruct E as [[Ef E1] E2].
  rewrite E1, E2. injection H as <-. simpl.
  rewrite Z.ltb_ge in E1, E2. apply fits_spec in Ef. unfold len in *.
  rewrite drop_app_ge by (rewrite length_take; lia).
  rewrite length_take, Nat.min_l, Nat.sub_diag, drop_0 by lia.
  rewrite take_app_le, take_ge by (rewrite length_le_bytes; lia).
  by rewrite le_val_le_bytes.
Qed.

Lemma unpack_pack_into_ne n buf off v buf' m off' :
  pack_into_le n buf off v = Ok buf' ->
  off' + Z.of_nat m <= off \/ off + Z.of_nat n <= off' ->
  unpack_le m buf' off' = unpack_le m buf off'.
Proof.
  intros H Hd. pose proof (len_pack_into _ _ _ _ _ H) as Hl. unfold unpack_le. rewrite Hl.
  destruct ((off' <? 0) || (len buf <? off' + Z.of_nat m)) eqn:Eb; [done|]. do 2 f_equal.
  unfold pack_into_le in H. destruct (negb _ || _ || _) eqn:E; [done|].
  rewrite !orb_false_iff, negb_false_iff in E. destruct E as [[_ E1] E2].
  rewrite orb_false_iff in Eb. destruct Eb as [E3 E4].
  rewrite Z.ltb_ge in E1, E2, E3, E4. injection H as <-. unfold len in *. destruct Hd.
  - rewrite drop_app_le by (rewrite length_take; lia).
    rewrite take_app_le by (rewrite length_drop, length_take; lia).
    rewrite !take_drop_commute, take_take. do 2 f_equal. lia.
  - rewrite drop_app_ge by (rewrite length_take; lia).
    rewrite drop_app_ge by (rewrite length_take, length_le_bytes; lia).
    rewrite drop_drop. rewrite length_take, length_le_bytes. do 2 f_equal. lia.
Qed.

Lemma bytes_ok_app l1 l2 : bytes_ok (l1 ++ l2) <-> bytes_ok l1 /\ bytes_ok l2.
Proof. apply Forall_app. Qed.
Lemma bytes_ok_take n l : bytes_ok l -> bytes_ok (take n l).
Proof. apply Forall_take. Qed.
Lemma bytes_ok_drop n l : bytes_ok l -> bytes_ok (drop n l).
Proof. apply Forall_drop. Qed.
Lemma bytes_ok_slice l i j : bytes_ok l -> bytes_ok (slice l i j).
Proof. intros. by apply bytes_ok_take, bytes_ok_drop. Qed.
Lemma bytes_ok_zeros n : bytes_ok (zeros n).
Proof. apply Forall_replicate. unfold byte_ok. lia. Qed.
Lemma bytes_ok_slice_assign l i j v : bytes_ok l -> bytes_ok v -> bytes_ok (slice_assign l i j v).
Proof.
  intros. unfold slice_assign. apply bytes_ok_app; split; [by apply bytes_ok_take|].
  apply bytes_ok_app; split; [done|by apply bytes_ok_drop].
Qed.
#[export] Hint Resolve bytes_ok_take bytes_ok_drop bytes_ok_slice bytes_ok_zeros
  bytes_ok_slice_assign le_bytes_ok be_bytes_ok : py.

Definition field_ok (f : field) : Prop :=
  match f with FU n v => 0 <= v < 256 ^ Z.of_nat n | FS n s => length s = n end.
Definition field_bytes (f : field) : bytes :=
  match f with FU n v => be_bytes n v | FS _ s => s end.

Lemma pack_fields_be_Ok fs :
  Forall field_ok fs -> pack_fields_be fs = Ok (concat (map field_bytes fs)).
Proof.
  intros H. unfold pack_fields_be.
  assert (rmap pack_field_be fs = Ok (map field_bytes fs)) as ->; [|done].
  induction H as [|f fs Hf Hfs IH]; simpl; [done|]. rewrite IH.
  destruct f as [n v|n s]; simpl in *; [by rewrite pack_be_Ok|by rewrite pack_s_exact].
Qed.

Lemma unpack_be_Ok n v :
  0 <= v < 256 ^ Z.of_nat n -> unpack_be n (be_bytes n v) = Ok v.
Proof.
  intros. unfold unpack_be. rewrite length_be_bytes, Nat.eqb_refl. by rewrite be_val_be_bytes.
Qed.

Lemma index_app_l {A} (l1 l2 : list A) i : 0 <= i < len l1 -> index (l1 ++ l2) i = index l1 i.
Proof.
  intros. unfold index. destruct (Z.ltb_spec i 0); [lia|]. destruct (Z.ltb_spec i 0); [lia|].
  rewrite lookup_app_l; [done|unfold len in *; lia].
Qed.

(** Slices of a concatenation. *)
Lemma slice_middle {A} (p b r : list A) : slice (p ++ b ++ r) (len p) (len p + len b) = b.
Proof.
  pose proof (len_nonneg p). pose proof (len_nonneg b). pose proof (len_nonneg r).
  rewrite slice_inside by (rewrite ?len_app; lia). unfold len.
  replace (Z.to_nat (Z.of_nat (length p))) with (length p) by lia. rewrite drop_app_length.
  replace (Z.to_nat _) with (length b) by lia. by rewrite take_app_length.
Qed.
Lemma slice_assign_mid {A} (p b r v : list A) : slice_assign (p ++ b ++ r) (len p) (len p + len b) v = p ++ v ++ r.
Proof.
  pose proof (len_nonneg p). pose proof (len_nonneg b). pose proof (len_nonneg r).
  rewrite slice_assign_inside by (rewrite ?len_app; lia). unfold len.
  replace (Z.to_nat (Z.of_nat (length p))) with (length p) by lia. rewrite take_app_length.
  replace (Z.to_nat _) with (length (p ++ b)) by (rewrite length_app; lia). rewrite (assoc_L (++) p b r), drop_app_length. done.
Qed.
Lemma slice_assign_at {A} (p r v : list A) : slice_assign (p ++ r) (len p) (len p) v = p ++ v ++ r.
Proof. pose proof (slice_assign_mid p [] r v) as E. rewrite Z.add_0_r in E. exact E. Qed.

(** ** Lists around an index *)

Section around.
Context {A : Type}.
Implicit Types (pre post : list A) (x y : A).

Lemma index_mid pre x post : index (pre ++ x :: post) (len pre) = Ok x.
Proof. apply index_Ok; [unfold len; lia|]. unfold len. rewrite Nat2Z.id. by apply list_lookup_middle. Qed.
Lemma set_index_mid pre x y post : set_index (pre ++ x :: post) (len pre) y = Ok (pre ++ y :: post).
Proof.
  rewrite set_index_Ok by (rewrite len_app, len_cons; pose proof (len_nonneg pre); pose proof (len_nonneg post); lia).
  unfold len. rewrite Nat2Z.id. by rewrite insert_app_r_alt, Nat.sub_diag by lia.
Qed.
Lemma slice_to_mid pre post : slice_to (pre ++ post) (len pre) = pre.
Proof. apply slice_to_app. Qed.
Lemma slice_from_mid pre post : slice_from (pre ++ post) (len pre) = post.
Proof. apply slice_from_app. Qed.
Lemma slice_from_next pre x post : slice_from (pre ++ x :: post) (len pre + 1) = post.
Proof.
  change (x :: post) with ([x] ++ post). rewrite app_assoc.
  replace (len pre + 1) with (len (pre ++ [x])) by (rewrite len_app; reflexivity). apply slice_from_app.
Qed.
Lemma slice_to_next pre x post : slice_to (pre ++ x :: post) (len pre + 1) = pre ++ [x].
Proof.
  change (x :: post) with ([x] ++ post). rewrite app_assoc.
  replace (len pre + 1) with (len (pre ++ [x])) by (rewrite len_app; reflexivity). apply slice_to_app.
Qed.
Lemma len_snoc pre x : len (pre ++ [x]) = len pre + 1.
Proof. rewrite len_app, len_cons. change (len (@nil A)) with 0. lia. Qed.
Lemma slice_to_last pre x : slice_to (pre ++ [x]) (-1) = pre.
Proof.
  transitivity (slice_to (pre ++ [x]) (len pre)); [|apply slice_to_app]. unfold slice_to, slice. rewrite len_snoc.
  pose proof (len_nonneg pre). rewrite (clamp_id _ (len pre)) by lia. unfold clamp. destruct (Z.ltb_spec (-1) 0); [|lia].
  do 2 f_equal; lia.
Qed.
End around.

(** A list of length at least [n] cut at [n]. *)
Lemma cut_at {A} (l : list A) (n : Z) : 0 <= n <= len l -> exists l1 l2, l = l1 ++ l2 /\ len l1 = n.
Proof.
  intros Hn. exists (take (Z.to_nat n) l), (drop (Z.to_nat n) l). rewrite take_drop. split; [done|].
  unfold len in *. rewrite length_take. lia.
Qed.
