(* ===== verification/Pystr.v ===== *)
(** * Python strings

    A Python [str] is the list of its code points.  This file holds what the
    sources use of [str]: literals, [split], [join], [strip], [startswith],
    [isdigit], [int(s)] and [str(n)].  [isdigit] and [int] know the ASCII digits
    only (the consoles deliver 7-bit characters). *)

From Stdlib Require Import ZArith Lia Ascii.
From stdpp Require Import base list numbers strings.
From S2P Require Import Prelude Bytes.

Local Open Scope Z_scope.

Abbreviation str := (list Z).

(** A literal. *)
Fixpoint lit (s : string) : str :=
  match s with
  | EmptyString => []
  | String c s' => Z.of_nat (nat_of_ascii c) :: lit s'
  end.

Definition slash : Z := 47.
Definition newline : Z := 10.
Definition space : Z := 32.

(** [s.split(sep)] for a one-character separator: never empty. *)
Fixpoint split (sep : Z) (s : str) : list str :=
  match s with
  | [] => [[]]
  | c :: s' =>
      if c =? sep then [] :: split sep s'
      else match split sep s' with
           | w :: ws => (c :: w) :: ws
           | [] => [[c]]
           end
  end.

(** [sep.join(l)] *)
Fixpoint join (sep : str) (l : list str) : str :=
  match l with
  | [] => []
  | [w] => w
  | w :: l' => w ++ sep ++ join sep l'
  end.

Definition startswith (s pre : str) : bool := beq (take (length pre) s) pre.

Fixpoint lstrip (p : Z -> bool) (s : str) : str :=
  match s with
  | c :: s' => if p c then lstrip p s' else s
  | [] => []
  end.
Definition rstrip (p : Z -> bool) (s : str) : str := rev (lstrip p (rev s)).
Definition strip (p : Z -> bool) (s : str) : str := rstrip p (lstrip p s).

(** [str.isspace], the characters [strip()] removes. *)
Definition is_space (c : Z) : bool :=
  ((9 <=? c) && (c <=? 13)) || ((28 <=? c) && (c <=? 32)) || (c =? 133) || (c =? 160)
  || (c =? 5760) || ((8192 <=? c) && (c <=? 8202)) || (c =? 8232) || (c =? 8233)
  || (c =? 8239) || (c =? 8287) || (c =? 12288).

Definition is_digit (c : Z) : bool := (48 <=? c) && (c <=? 57).
Definition is_alpha (c : Z) : bool := ((65 <=? c) && (c <=? 90)) || ((97 <=? c) && (c <=? 122)).

(** The digits of [int(s)]: at least one, single underscores between. *)
Fixpoint int_digits (acc : Z) (s : str) : result Z :=
  match s with
  | [] => Err ValueError
  | c :: s' =>
      if is_digit c then
        let acc := acc * 10 + (c - 48) in
        match s' with
        | [] => Ok acc
        | u :: s'' => if u =? 95 then int_digits acc s'' else int_digits acc s'
        end
      else Err ValueError
  end.

Definition py_int (s : str) : result Z :=
  match strip is_space s with
  | 43 :: s' => int_digits 0 s'
  | 45 :: s' => let? n := int_digits 0 s' in Ok (- n)
  | s' => int_digits 0 s'
  end.

(** [str(n)] *)
Fixpoint dec_digits (fuel : nat) (n : Z) : str :=
  match fuel with
  | O => []
  | S fuel' => if n <? 10 then [48 + n] else dec_digits fuel' (n / 10) ++ [48 + n mod 10]
  end.
Definition str_of_nat (n : Z) : str := dec_digits (S (Z.to_nat (Z.log2 n))) n.
Definition str_of_int (n : Z) : str := if n <? 0 then 45 :: str_of_nat (- n) else str_of_nat n.

(** ** UTF-8 *)

(** [s.encode()]: a surrogate raises. *)
Definition utf8_char (c : Z) : result bytes :=
  if c <? 0x80 then Ok [c]
  else if c <? 0x800 then Ok [0xC0 + c / 64; 0x80 + c mod 64]
  else if (0xD800 <=? c) && (c <? 0xE000) then Err UnicodeError
  else if c <? 0x10000 then Ok [0xE0 + c / 4096; 0x80 + (c / 64) mod 64; 0x80 + c mod 64]
  else Ok [0xF0 + c / 262144; 0x80 + (c / 4096) mod 64; 0x80 + (c / 64) mod 64; 0x80 + c mod 64].
Definition encode (s : str) : result bytes := let? bs := rmap utf8_char s in Ok (concat bs).

(** [b.decode("utf-8", errors="replace")]: the longest valid beginning of a
    bad sequence becomes one U+FFFD. *)
Definition in_range (lo hi b : Z) : bool := (lo <=? b) && (b <=? hi).
Definition is_cont (b : Z) : bool := in_range 0x80 0xBF b.
Definition second3 (b c : Z) : bool :=
  if b =? 0xE0 then in_range 0xA0 0xBF c else if b =? 0xED then in_range 0x80 0x9F c else is_cont c.
Definition second4 (b c : Z) : bool :=
  if b =? 0xF0 then in_range 0x90 0xBF c else if b =? 0xF4 then in_range 0x80 0x8F c else is_cont c.
Definition FFFD : Z := 0xFFFD.

Fixpoint decode (l : bytes) : str :=
  match l with
  | [] => []
  | b :: l1 =>
      if b <? 0x80 then b :: decode l1
      else match l1 with
      | [] => [FFFD]
      | c :: l2 =>
          if in_range 0xC2 0xDF b then
            if is_cont c then (b - 0xC0) * 64 + (c - 0x80) :: decode l2 else FFFD :: decode l1
          else if in_range 0xE0 0xEF b then
            if second3 b c then
              match l2 with
              | [] => [FFFD]
              | d :: l3 =>
                  if is_cont d then (b - 0xE0) * 4096 + (c - 0x80) * 64 + (d - 0x80) :: decode l3
                  else FFFD :: decode l2
              end
            else FFFD :: decode l1
          else if in_range 0xF0 0xF4 b then
            if second4 b c then
              match l2 with
              | [] => [FFFD]
              | d :: l3 =>
                  if is_cont d then
                    match l3 with
                    | [] => [FFFD]
                    | e :: l4 =>
                        if is_cont e then
                          (b - 0xF0) * 262144 + (c - 0x80) * 4096 + (d - 0x80) * 64 + (e - 0x80) :: decode l4
                        else FFFD :: decode l3
                    end
                  else FFFD :: decode l2
              end
            else FFFD :: decode l1
          else FFFD :: decode l1
      end
  end.

(** ** Lemmas *)

Lemma split_nonempty sep s : split sep s <> [].
Proof. destruct s; simpl; [done|]. repeat case_match; done. Qed.

Lemma join_cons sep w l : l <> [] -> join sep (w :: l) = w ++ sep ++ join sep l.
Proof. by destruct l. Qed.

Lemma join_split sep s : join [sep] (split sep s) = s.
Proof.
  induction s as [|c s IH]; [done|]. cbn [split]. destruct (Z.eqb_spec c sep) as [->|Hne].
  - rewrite join_cons by apply split_nonempty. simpl. by rewrite IH.
  - destruct (split sep s) as [|w ws] eqn:E; [by apply split_nonempty in E|].
    destruct ws as [|w' ws]; simpl in *; by rewrite <- IH.
Qed.

Definition no_char (sep : Z) (w : str) : Prop := sep ∉ w.

Lemma split_no_char sep s : Forall (no_char sep) (split sep s).
Proof.
  induction s as [|c s IH]; simpl; [constructor; [by intros ?%not_elem_of_nil|constructor]|].
  destruct (Z.eqb_spec c sep) as [->|Hne]; [constructor; [by intros ?%not_elem_of_nil|done]|].
  destruct (split sep s) as [|w ws]; inversion_clear IH as [|? ? Hw Hws]; constructor; auto.
  - unfold no_char in *. rewrite not_elem_of_cons. split; [congruence|apply not_elem_of_nil].
  - unfold no_char in *. rewrite not_elem_of_cons. by split; [congruence|].
Qed.

Lemma split_app_sep sep w s : no_char sep w -> split sep (w ++ sep :: s) = w :: split sep s.
Proof.
  induction w as [|c w IH]; intros Hw; simpl; [by rewrite Z.eqb_refl|].
  apply not_elem_of_cons in Hw as [Hc Hw]. destruct (Z.eqb_spec c sep) as [->|]; [done|].
  by rewrite IH.
Qed.

Lemma split_no_sep sep w : no_char sep w -> split sep w = [w].
Proof.
  induction w as [|c w IH]; intros Hw; simpl; [done|].
  apply not_elem_of_cons in Hw as [Hc Hw]. destruct (Z.eqb_spec c sep) as [->|]; [done|].
  by rewrite IH.
Qed.

Lemma split_join sep l : l <> [] -> Forall (no_char sep) l -> split sep (join [sep] l) = l.
Proof.
  intros Hne HF. induction HF as [|w l Hw HF IH]; [done|]. destruct l as [|w' l].
  - simpl. by apply split_no_sep.
  - rewrite join_cons by done. cbn [app]. rewrite split_app_sep by done. f_equal. by apply IH.
Qed.

Lemma startswith_app pre s : startswith (pre ++ s) pre = true.
Proof. unfold startswith. by rewrite take_app_length, beq_refl. Qed.

Lemma startswith_true s pre : startswith s pre = true -> exists s', s = pre ++ s'.
Proof.
  unfold startswith. rewrite beq_eq. intros E. exists (drop (length pre) s).
  rewrite <- E at 1. by rewrite take_drop.
Qed.

Lemma dec_digits_spec fuel n acc :
  0 <= n -> n < 10 ^ Z.of_nat fuel -> (0 < fuel)%nat ->
  Forall (fun c => is_digit c = true) (dec_digits fuel n) /\ dec_digits fuel n <> [] /\
  exists k, 0 <= k /\ (forall s, int_digits acc (dec_digits fuel n ++ s) =
     match s with
     | [] => Ok (acc * 10 ^ (k + 1) + n)
     | u :: s'' => if u =? 95 then int_digits (acc * 10 ^ (k + 1) + n) s''
                   else int_digits (acc * 10 ^ (k + 1) + n) s end).
Proof.
  revert n acc. induction fuel as [|fuel IH]; intros n acc Hn Hlt Hf; [lia|].
  cbn [dec_digits]. destruct (Z.ltb_spec n 10) as [Hs|Hb].
  - assert (is_digit (48 + n) = true) as Hd by (unfold is_digit; rewrite andb_true_iff, !Z.leb_le; lia).
    split_and!; [by constructor|done|]. exists 0. split; [lia|]. intros s. cbn [app int_digits].
    rewrite Hd. replace (48 + n - 48) with n by lia.
    change (10 ^ (0 + 1)) with 10. by destruct s.
  - rewrite Nat2Z.inj_succ, Z.pow_succ_r in Hlt by lia.
    assert (0 < fuel)%nat as Hf'.
    { destruct fuel; [|lia]. change (10 * 10 ^ Z.of_nat 0) with 10 in Hlt. lia. }
    assert (0 <= n / 10 < 10 ^ Z.of_nat fuel) as [Hd0 Hd1].
    { split; [apply Z.div_pos; lia|apply Z.div_lt_upper_bound; lia]. }
    pose proof (Z.mod_pos_bound n 10) as Hm. pose proof (Z.div_mod n 10) as Hdm.
    assert (is_digit (48 + n mod 10) = true) as Hd by (unfold is_digit; rewrite andb_true_iff, !Z.leb_le; lia).
    destruct (IH (n / 10) acc Hd0 Hd1 Hf') as (HF & Hne & k & Hk & Hval).
    split_and!.
    + apply Forall_app. split; [done|by constructor].
    + by destruct (dec_digits fuel (n / 10)).
    + exists (k + 1). split; [lia|]. intros s. rewrite <- (assoc_L (++)), Hval. cbn [app].
      destruct (Z.eqb_spec (48 + n mod 10) 95); [lia|]. cbn [int_digits]. rewrite Hd.
      replace ((acc * 10 ^ (k + 1) + n / 10) * 10 + (48 + n mod 10 - 48))
        with (acc * 10 ^ (k + 1 + 1) + n)
        by (rewrite (Z.pow_add_r 10 (k + 1) 1) by lia; rewrite Z.pow_1_r; lia).
      by destruct s.
Qed.

Lemma str_of_nat_fuel n : 0 <= n -> n < 10 ^ Z.of_nat (S (Z.to_nat (Z.log2 n))).
Proof.
  intros Hn. destruct (decide (n = 0)) as [->|]; [done|].
  rewrite Nat2Z.inj_succ, Z2Nat.id by apply Z.log2_nonneg.
  destruct (Z.log2_spec n) as [_ H]; [lia|]. eapply Z.lt_le_trans; [exact H|].
  apply Z.pow_le_mono_l. lia.
Qed.

Lemma lstrip_id p s : Forall (fun c => p c = false) s -> lstrip p s = s.
Proof. intros H. destruct H as [|c s Hc Hs]; simpl; [done|]. by rewrite Hc. Qed.
Lemma strip_id p s : Forall (fun c => p c = false) s -> strip p s = s.
Proof.
  intros H. unfold strip, rstrip. rewrite (lstrip_id p s) by done.
  rewrite lstrip_id by (by apply Forall_rev). apply rev_involutive.
Qed.

Lemma digit_not_space c : is_digit c = true -> is_space c = false.
Proof.
  unfold is_digit. rewrite andb_true_iff, !Z.leb_le. intros Hc. unfold is_space.
  repeat match goal with
  | |- context [?a <=? ?b] => destruct (Z.leb_spec a b); [|]; try lia
  | |- context [?a =? ?b] => destruct (Z.eqb_spec a b); [|]; try lia
  end; done.
Qed.

Lemma str_of_nat_spec n : 0 <= n ->
  Forall (fun c => is_digit c = true) (str_of_nat n) /\ str_of_nat n <> [] /\ int_digits 0 (str_of_nat n) = Ok n.
Proof.
  intros Hn. unfold str_of_nat.
  destruct (dec_digits_spec (S (Z.to_nat (Z.log2 n))) n 0) as (HF & Hne & k & Hk & Hval);
    [done|by apply str_of_nat_fuel|lia|].
  specialize (Hval []). rewrite app_nil_r in Hval. cbv iota in Hval. split_and!; [done..|]. by rewrite Hval.
Qed.

(** [int(str(n)) == n] *)
Lemma py_int_str_of_nat n : 0 <= n -> py_int (str_of_nat n) = Ok n.
Proof.
  intros Hn. destruct (str_of_nat_spec n Hn) as (HF & Hne & Hv). unfold py_int.
  rewrite strip_id by (eapply Forall_impl; [exact HF|intros c; apply digit_not_space]).
  revert HF Hne Hv. generalize (str_of_nat n). intros [|c s] HF Hne Hv; [done|].
  inversion_clear HF as [|? ? Hc _]. unfold is_digit in Hc. rewrite andb_true_iff, !Z.leb_le in Hc.
  repeat (case_match; try (exfalso; lia); try done).
Qed.
Lemma py_int_str_of_int n : py_int (str_of_int n) = Ok n.
Proof.
  unfold str_of_int. destruct (Z.ltb_spec n 0) as [Hn|Hn]; [|by apply py_int_str_of_nat].
  destruct (str_of_nat_spec (- n)) as (HF & _ & Hv); [lia|]. unfold py_int. rewrite strip_id.
  - rewrite Hv. simpl. f_equal. lia.
  - constructor; [done|]. eapply Forall_impl; [exact HF|intros c; apply digit_not_space].
Qed.
(** Its characters: digits and a sign. *)
Lemma str_of_int_chars n : Forall (fun c => is_digit c = true \/ c = 45) (str_of_int n).
Proof.
  unfold str_of_int. destruct (Z.ltb_spec n 0) as [Hn|Hn].
  - constructor; [by right|]. destruct (str_of_nat_spec (- n)) as (HF & _); [lia|]. eapply Forall_impl; [exact HF|by left].
  - destruct (str_of_nat_spec n Hn) as (HF & _). eapply Forall_impl; [exact HF|by left].
Qed.

Lemma int_digits_error acc s e : int_digits acc s = Err e -> e = ValueError.
Proof.
  remember (length s) as n eqn:Hn. revert acc s Hn. induction n as [n IH] using lt_wf_ind. intros acc [|c s] ->; simpl; [congruence|].
  case_match; [|congruence]. destruct s as [|u s]; [done|]. case_match; eapply IH; simpl; try reflexivity; lia.
Qed.
Lemma py_int_error s e : py_int s = Err e -> e = ValueError.
Proof.
  unfold py_int. repeat case_match; try apply int_digits_error.
  all: match goal with |- context [int_digits 0 ?x] => destruct (int_digits 0 x) as [n|e'] eqn:E end; simpl; [done|];
    intros [= <-]; by apply int_digits_error in E.
Qed.

(** *** UTF-8 round trip *)

Definition code_point (c : Z) : Prop := 0 <= c < 0x110000 /\ ~ (0xD800 <= c < 0xE000).

Lemma in_range_true lo hi b : lo <= b <= hi -> in_range lo hi b = true.
Proof. unfold in_range. lia. Qed.
Lemma in_range_false lo hi b : b < lo \/ hi < b -> in_range lo hi b = false.
Proof. unfold in_range. lia. Qed.

Lemma decode_char c l : code_point c -> exists bs, utf8_char c = Ok bs /\ decode (bs ++ l) = c :: decode l.
Proof.
  intros [Hc Hs]. unfold utf8_char.
  assert (H64 : 0 <= c mod 64 < 64) by (apply Z.mod_pos_bound; lia).
  assert (H64' : 0 <= (c / 64) mod 64 < 64) by (apply Z.mod_pos_bound; lia).
  assert (H64'' : 0 <= (c / 4096) mod 64 < 64) by (apply Z.mod_pos_bound; lia).
  pose proof (Z.div_mod c 64 ltac:(lia)) as D1. pose proof (Z.div_mod (c / 64) 64 ltac:(lia)) as D2.
  pose proof (Z.div_mod (c / 4096) 64 ltac:(lia)) as D3.
  rewrite Z.div_div in D2 by lia. rewrite Z.div_div in D3 by lia. change (64 * 64) with 4096 in D2. change (4096 * 64) with 262144 in D3.
  destruct (Z.ltb_spec c 0x80) as [H1|H1].
  { eexists. split; [done|]. simpl. by rewrite (proj2 (Z.ltb_lt c 128) H1). }
  destruct (Z.ltb_spec c 0x800) as [H2|H2].
  { eexists. split; [done|]. cbn [app decode]. rewrite (proj2 (Z.ltb_ge _ 128)) by lia.
    rewrite in_range_true by lia. unfold is_cont. rewrite in_range_true by lia. f_equal. lia. }
  replace ((0xD800 <=? c) && (c <? 0xE000)) with false by lia.
  destruct (Z.ltb_spec c 0x10000) as [H3|H3].
  - eexists. split; [done|]. cbn [app decode]. rewrite (proj2 (Z.ltb_ge _ 128)) by lia.
    rewrite in_range_false, in_range_true by lia.
    assert (second3 (224 + c / 4096) (128 + (c / 64) mod 64) = true) as ->.
    { unfold second3, is_cont. repeat case_match; apply in_range_true; lia. }
    unfold is_cont. rewrite in_range_true by lia. f_equal. lia.
  - eexists. split; [done|]. cbn [app decode]. rewrite (proj2 (Z.ltb_ge _ 128)) by lia.
    rewrite in_range_false, in_range_false, in_range_true by lia.
    assert (second4 (240 + c / 262144) (128 + (c / 4096) mod 64) = true) as ->.
    { unfold second4, is_cont. repeat case_match; apply in_range_true; lia. }
    unfold is_cont. rewrite !in_range_true by lia. f_equal. lia.
Qed.

Lemma decode_encode s : Forall code_point s -> exists b, encode s = Ok b /\ decode b = s.
Proof.
  unfold encode. induction 1 as [|c s Hc Hs IH]; [by eexists|].
  destruct IH as (b & Hb & Hd). apply rbind_Ok in Hb as (bs & Hbs & [= <-]).
  destruct (decode_char c (concat bs) Hc) as (bc & Hbc & Hdc).
  exists (bc ++ concat bs). simpl. rewrite Hbc, Hbs. simpl. split; [done|]. by rewrite Hdc, Hd.
Qed.
