(* ===== verification/Dict.v ===== *)
(** * Python dicts

    A dict as an association list in insertion order, for any key type with
    decidable equality: [d.get(k)], [d[k] = v], [d.pop(k, None)].  A dict built
    with these never has a key twice ([dict_ok]). *)

From Stdlib Require Import ZArith Lia.
From stdpp Require Import base list sets numbers.
From S2P Require Import Prelude.

Section dicts.
Context {K V : Type} `{EqDecision K}.
Implicit Types d : list (K * V).

Fixpoint dget (k : K) d : option V :=
  match d with
  | [] => None
  | (k', v) :: d' => if decide (k' = k) then Some v else dget k d'
  end.
Fixpoint dset (k : K) (v : V) d : list (K * V) :=
  match d with
  | [] => [(k, v)]
  | (k', v') :: d' => if decide (k' = k) then (k', v) :: d' else (k', v') :: dset k v d'
  end.
Fixpoint dpop (k : K) d : list (K * V) :=
  match d with
  | [] => []
  | (k', v') :: d' => if decide (k' = k) then d' else (k', v') :: dpop k d'
  end.
Definition dmem (k : K) d : bool := match dget k d with Some _ => true | None => false end.

Definition dict_ok d : Prop := NoDup d.*1.

Lemma dget_elem k v d : dget k d = Some v -> (k, v) ∈ d.
Proof.
  induction d as [|[k' v'] d IH]; simpl; [done|]. case_decide; intros Hg; [|set_solver].
  subst. injection Hg as ->. set_solver.
Qed.
Lemma dget_None k d : dget k d = None <-> k ∉ d.*1.
Proof.
  induction d as [|[k' v'] d IH]; simpl; [split; [intros _; apply not_elem_of_nil|done]|].
  rewrite not_elem_of_cons. case_decide; [split; [done|by intros [? _]]|].
  rewrite IH. split; [auto|by intros [_ ?]].
Qed.
Lemma elem_dget k v d : dict_ok d -> (k, v) ∈ d -> dget k d = Some v.
Proof.
  unfold dict_ok. induction d as [|[k' v'] d IH]; simpl; [set_solver|].
  intros [Hk Hd]%list.NoDup_cons [Heq|Hin]%elem_of_cons.
  - injection Heq as -> ->. by rewrite decide_True.
  - rewrite decide_False; [auto|]. intros ->. apply Hk. apply list_elem_of_fmap. by exists (k, v).
Qed.

Lemma dget_dset k v d : dget k (dset k v d) = Some v.
Proof.
  induction d as [|[k' v'] d IH]; simpl; [by rewrite decide_True|].
  case_decide; simpl; [by rewrite decide_True|by rewrite decide_False].
Qed.
Lemma dget_dset_ne k k' v d : k' <> k -> dget k' (dset k v d) = dget k' d.
Proof.
  intros Hne. induction d as [|[k2 v2] d IH]; simpl; [by rewrite decide_False|].
  case_decide; simpl; repeat case_decide; congruence.
Qed.
Lemma dget_dpop k d : dict_ok d -> dget k (dpop k d) = None.
Proof.
  unfold dict_ok. induction d as [|[k' v'] d IH]; simpl; [done|]. intros [Hk Hd]%list.NoDup_cons.
  case_decide; simpl; [subst; by apply dget_None|]. rewrite decide_False by done. auto.
Qed.
Lemma dget_dpop_ne k k' d : k' <> k -> dget k' (dpop k d) = dget k' d.
Proof.
  intros Hne. induction d as [|[k2 v2] d IH]; simpl; [done|].
  case_decide; simpl; repeat case_decide; congruence.
Qed.

Lemma dset_elem k v d x : x ∈ dset k v d -> x = (k, v) \/ x ∈ d.
Proof.
  induction d as [|[k' v'] d IH]; simpl.
  - intros ->%list_elem_of_singleton. by left.
  - case_decide; subst; intros [->|Hx]%elem_of_cons; rewrite ?elem_of_cons; naive_solver.
Qed.
Lemma dset_fresh k v d : dget k d = None -> dset k v d = d ++ [(k, v)].
Proof. induction d as [|[k' v'] d IH]; simpl; [done|]. case_decide; [done|]. intros Hg. by rewrite IH. Qed.
Lemma dset_same k v d : dget k d = Some v -> dset k v d = d.
Proof. induction d as [|[k' v'] d IH]; simpl; [done|]. case_decide; intros Hg; [by simplify_eq|by rewrite IH]. Qed.
Lemma dset_keys k v d : (dset k v d).*1 = if decide (k ∈ d.*1) then d.*1 else d.*1 ++ [k].
Proof.
  induction d as [|[k' v'] d IH]; [done|]. cbn [dset].
  destruct (decide (k' = k)) as [->|Hne]; csimpl.
  - by rewrite decide_True by (apply elem_of_cons; by left).
  - rewrite IH. destruct (decide (k ∈ d.*1)).
    + by rewrite decide_True by (apply elem_of_cons; by right).
    + by rewrite decide_False by (rewrite elem_of_cons; naive_solver).
Qed.
Lemma dset_ok k v d : dict_ok d -> dict_ok (dset k v d).
Proof.
  unfold dict_ok. rewrite dset_keys. case_decide; [done|]. intros Hd. apply list.NoDup_app.
  split_and!; [done| |apply NoDup_singleton]. set_solver.
Qed.
Lemma dpop_sublist k d : dpop k d `sublist_of` d.
Proof.
  induction d as [|[k' v'] d IH]; simpl; [done|]. case_decide; [by apply sublist_cons|by apply sublist_skip].
Qed.
Lemma dpop_elem k d x : x ∈ dpop k d -> x ∈ d.
Proof. intros Hx. eapply elem_of_submseteq; [exact Hx|]. apply sublist_submseteq, dpop_sublist. Qed.
Lemma dpop_ok k d : dict_ok d -> dict_ok (dpop k d).
Proof.
  unfold dict_ok. induction d as [|[k' v'] d IH]; simpl; [done|]. intros [Hk Hd]%list.NoDup_cons.
  case_decide; simpl; [done|]. apply list.NoDup_cons; split; [|auto].
  intros Hin. apply Hk. apply list_elem_of_fmap in Hin as (x & -> & Hx). apply list_elem_of_fmap.
  exists x. split; [done|]. by eapply dpop_elem.
Qed.
Lemma dpop_perm k v d : dget k d = Some v -> d ≡ₚ (k, v) :: dpop k d.
Proof.
  induction d as [|[k' v'] d IH]; simpl; [done|]. case_decide; intros Hg; [by simplify_eq|].
  rewrite (IH Hg) at 1. by rewrite Permutation_swap.
Qed.
Lemma dpop_none k d : dget k d = None -> dpop k d = d.
Proof. induction d as [|[k' v'] d IH]; simpl; [done|]. case_decide; [done|]. intros Hg. by rewrite IH. Qed.
End dicts.
