(* ===== verification/Pmm.v ===== *)
(** * Physical memory manager ([kernel/memory/pmm.py])

    The manager keeps a list of [[start, end)] ranges of free physical memory
    and a page counter.  The abstract view of its state is the multiset of free
    page addresses ([frames]); every operation refines the obvious operation on
    that multiset, and from a memory map without overlaps no page is ever
    handed out twice. *)

From Stdlib Require Import ZArith Lia.
From stdpp Require Import base list numbers.
From S2P Require Import Prelude Bytes.

Local Open Scope Z_scope.

Definition PAGE_SIZE : Z := 4096.
Definition RESERVED_MB : Z := 1.

Record PageFrame := { phys : Z }.

Record pmm := mk_pmm {
  ranges : list (Z * Z);      (* [_ranges], each [[start, end)] *)
  free_pages : Z              (* [_free_pages] *)
}.

Definition page_up (base : Z) : Z := Z.land (base + PAGE_SIZE - 1) (Z.lnot (PAGE_SIZE - 1)).
Definition page_down (e : Z) : Z := Z.land e (Z.lnot (PAGE_SIZE - 1)).

(** One iteration of the constructor's loop over the memory map. *)
Definition add_region (st : pmm) (r : Z * Z) : pmm :=
  let '(base, length) := r in
  let start := page_up base in
  let stop := page_down (base + length) in
  let start := if start <? RESERVED_MB * 1024 * 1024 then RESERVED_MB * 1024 * 1024 else start in
  if start <? stop
  then mk_pmm (ranges st ++ [(start, stop)]) (free_pages st + (stop - start) / PAGE_SIZE)
  else st.

Definition init (mmap : list (Z * Z)) : pmm := fold_left add_region mmap (mk_pmm [] 0).

(** The [while self._ranges] loop of [alloc], on the reversed range list (the
    code works at the end of [_ranges]): exhausted ranges are popped, else one
    page is cut from the end of the last range. *)
Fixpoint alloc_loop (rs : list (Z * Z)) : option (Z * list (Z * Z)) :=
  match rs with
  | [] => None
  | (start, stop) :: rs' =>
      if stop <=? start then alloc_loop rs'
      else Some (stop - PAGE_SIZE, (start, stop - PAGE_SIZE) :: rs')
  end.

Definition alloc : M pmm PageFrame := fun st =>
  match alloc_loop (rev (ranges st)) with
  | Some (p, rs) => (Ok {| phys := p |}, mk_pmm (rev rs) (free_pages st - 1))
  | None => (Err MemoryError, mk_pmm [] (free_pages st))
  end.

Definition alloc_n (n : Z) : M pmm (list PageFrame) :=
  let! fp := gets free_pages in
  if fp <? n then raise MemoryError else map_m (range n) (fun _ => alloc).

Definition free (f : PageFrame) : M pmm unit :=
  modify (fun st => mk_pmm (ranges st ++ [(phys f, phys f + PAGE_SIZE)]) (free_pages st + 1)).

Definition free_many (fs : list PageFrame) : M pmm unit := for_each fs free.

(** ** The abstract state: the free pages *)

Definition pages_of (r : Z * Z) : list Z :=
  map (fun i => fst r + PAGE_SIZE * i) (range ((snd r - fst r) / PAGE_SIZE)).

Definition frames (st : pmm) : list Z := concat (map pages_of (ranges st)).

Definition aligned (a : Z) : Prop := a mod PAGE_SIZE = 0.

Definition range_ok (r : Z * Z) : Prop := aligned (fst r) /\ aligned (snd r) /\ fst r <= snd r.

Record pmm_wf (st : pmm) : Prop := {
  wf_ranges : Forall range_ok (ranges st);
  wf_count : free_pages st = len (frames st)
}.

(** ** Alignment *)

Lemma page_down_spec x : page_down x = PAGE_SIZE * (x / PAGE_SIZE).
Proof.
  unfold page_down, PAGE_SIZE. change (Z.lnot (4096 - 1)) with (Z.lnot (Z.ones 12)).
  rewrite <- Z.ldiff_land, Z.ldiff_ones_r, Z.shiftl_mul_pow2, Z.shiftr_div_pow2 by lia.
  change (2 ^ 12) with 4096. lia.
Qed.

Lemma page_up_spec x : page_up x = PAGE_SIZE * ((x + PAGE_SIZE - 1) / PAGE_SIZE).
Proof. apply page_down_spec. Qed.

Lemma aligned_mul k : aligned (PAGE_SIZE * k).
Proof. unfold aligned. rewrite Z.mul_comm. apply Z.mod_mul. by unfold PAGE_SIZE. Qed.

Lemma aligned_div a : aligned a -> a = PAGE_SIZE * (a / PAGE_SIZE).
Proof. unfold aligned, PAGE_SIZE. intros. pose proof (Z.div_mod a 4096). lia. Qed.

(** ** Page lists *)

Lemma len_pages_of r : range_ok r -> len (pages_of r) = (snd r - fst r) / PAGE_SIZE.
Proof.
  intros (Ha & Hb & Hle). unfold pages_of, len, range. rewrite length_map, length_range2.
  rewrite Z.sub_0_r, Z2Nat.id; [done|]. apply Z.div_pos; unfold PAGE_SIZE; lia.
Qed.

Lemma pages_of_empty s e : e <= s -> pages_of (s, e) = [].
Proof.
  intros. unfold pages_of, range. simpl. rewrite range2_nil; [done|].
  unfold PAGE_SIZE. pose proof (Z.div_le_mono (e - s) 0 4096). rewrite Z.div_0_l in *; lia.
Qed.

Lemma pages_of_last s e :
  range_ok (s, e) -> s < e -> pages_of (s, e) = pages_of (s, e - PAGE_SIZE) ++ [e - PAGE_SIZE].
Proof.
  intros (Hs%aligned_div & He%aligned_div & _) Hlt. simpl in *. unfold pages_of, range.
  cbn [fst snd]. revert Hs He. generalize (s / PAGE_SIZE) (e / PAGE_SIZE). intros a b -> ->.
  unfold PAGE_SIZE in *.
  replace (4096 * b - 4096 * a) with ((b - a) * 4096) by lia.
  replace (4096 * b - 4096 - 4096 * a) with ((b - a - 1) * 4096) by lia.
  rewrite !Z.div_mul by lia. replace (b - a) with ((b - a - 1) + 1) at 1 by lia.
  rewrite range2_snoc by lia. rewrite map_app. simpl. do 2 f_equal. lia.
Qed.

Lemma range_ok_shrink s e : range_ok (s, e) -> s < e -> range_ok (s, e - PAGE_SIZE).
Proof.
  intros (Hs & He & _) Hlt. simpl in *. pose proof (aligned_div _ Hs). pose proof (aligned_div _ He).
  unfold PAGE_SIZE in *. split_and!; simpl; [done| |lia].
  unfold aligned, PAGE_SIZE in *.
  replace (e - 4096) with (e + (-1) * 4096) by lia. by rewrite Z.mod_add by lia.
Qed.

Lemma pages_of_single p : pages_of (p, p + PAGE_SIZE) = [p].
Proof.
  unfold pages_of, range. simpl. replace (p + PAGE_SIZE - p) with PAGE_SIZE by lia.
  change (PAGE_SIZE / PAGE_SIZE) with 1. simpl. f_equal. unfold PAGE_SIZE. lia.
Qed.

(** ** Refinement of the operations *)

Lemma alloc_loop_spec rs :
  Forall range_ok rs ->
  match alloc_loop rs with
  | Some (p, rs') => concat (map pages_of rs) ≡ₚ p :: concat (map pages_of rs')
                     /\ Forall range_ok rs' /\ aligned p
  | None => concat (map pages_of rs) = []
  end.
Proof.
  induction 1 as [|[s e] rs Hr Hrs IH]; simpl; [done|].
  destruct (Z.leb_spec e s).
  - rewrite (pages_of_empty s e) by done. simpl. done.
  - rewrite pages_of_last by done. cbn [map concat]. split_and!.
    + rewrite <- (assoc_L (++)). simpl. by rewrite <- Permutation_middle.
    + constructor; [by apply range_ok_shrink|done].
    + by apply range_ok_shrink in Hr as (_ & ? & _).
Qed.

Lemma frames_rev st : frames st ≡ₚ concat (map pages_of (rev (ranges st))).
Proof.
  unfold frames. induction (ranges st) as [|r rs IH]; simpl; [done|].
  rewrite map_app, concat_app. simpl. rewrite app_nil_r, IH. apply Permutation_app_comm.
Qed.

Lemma alloc_refines st :
  pmm_wf st ->
  match alloc st with
  | (Ok f, st') => frames st ≡ₚ phys f :: frames st' /\ pmm_wf st' /\ aligned (phys f)
  | (Err e, st') => e = MemoryError /\ frames st = [] /\ pmm_wf st'
  end.
Proof.
  intros [Hr Hc]. unfold alloc.
  pose proof (alloc_loop_spec (rev (ranges st)) (Forall_rev Hr)) as Hspec.
  destruct (alloc_loop _) as [[p rs']|] eqn:E.
  - destruct Hspec as (Hp & Hok & Ha).
    assert (frames st ≡ₚ p :: frames (mk_pmm (rev rs') (free_pages st - 1))) as HF.
    { rewrite frames_rev, Hp. f_equiv. rewrite (frames_rev (mk_pmm _ _)). simpl.
      by rewrite rev_involutive. }
    split_and!; [done| |done]. constructor; [by apply Forall_rev|].
    apply Permutation_length in HF. unfold len in *. cbn [free_pages length] in *. lia.
  - assert (frames st = []) as HF.
    { apply Permutation_nil_r. by rewrite frames_rev, Hspec. }
    split_and!; [done|done|]. constructor; [constructor|]. simpl. by rewrite Hc, HF.
Qed.

Lemma allocs_refine (l : list Z) st :
  pmm_wf st -> len l <= free_pages st ->
  exists fs st', map_m l (fun _ => alloc) st = (Ok fs, st') /\ length fs = length l /\
    frames st ≡ₚ map phys fs ++ frames st' /\ pmm_wf st' /\ Forall (fun f => aligned (phys f)) fs.
Proof.
  revert st. induction l as [|x l IH]; intros st Hwf Hlen.
  - by exists [], st.
  - pose proof (alloc_refines st Hwf) as Ha. rewrite len_cons in Hlen.
    destruct (alloc st) as [[f|e] st1] eqn:E.
    + destruct Ha as (HF & Hwf1 & Hal).
      destruct (IH st1 Hwf1) as (fs & st2 & E2 & Hl & HF2 & Hwf2 & Hal2).
      { rewrite (wf_count _ Hwf1). rewrite (wf_count _ Hwf) in Hlen. unfold len in *.
        rewrite HF in Hlen. simpl in Hlen. lia. }
      exists (f :: fs), st2. simpl. rewrite (bind_step _ _ _ _ _ E), (bind_step _ _ _ _ _ E2).
      split_and!; simpl; [done|lia|by rewrite HF, HF2|done|by constructor].
    + destruct Ha as (_ & HF & _). rewrite (wf_count _ Hwf), HF in Hlen.
      pose proof (len_nonneg l). rewrite len_nil in Hlen. lia.
Qed.

Lemma frames_free f st : frames (snd (free f st)) ≡ₚ phys f :: frames st.
Proof.
  unfold frames. simpl. rewrite map_app, concat_app. simpl.
  rewrite pages_of_single. simpl. symmetry. apply Permutation_cons_append.
Qed.

Lemma free_wf f st : pmm_wf st -> aligned (phys f) -> pmm_wf (snd (free f st)).
Proof.
  intros [Hr Hc] Ha. constructor.
  - apply Forall_app; split; [done|]. constructor; [|done]. split_and!; simpl; [done| |unfold PAGE_SIZE; lia].
    unfold aligned in *. by rewrite <- Z.add_mod_idemp_l, Ha.
  - change (free_pages (snd (free f st))) with (free_pages st + 1). unfold len.
    rewrite frames_free. simpl. rewrite Hc. unfold len. lia.
Qed.

Lemma free_many_refines fs st :
  pmm_wf st -> Forall (fun f => aligned (phys f)) fs ->
  exists st', free_many fs st = (Ok tt, st') /\
    frames st' ≡ₚ map phys fs ++ frames st /\ pmm_wf st'.
Proof.
  revert st. induction fs as [|f fs IH]; intros st Hwf Hal.
  - by exists st.
  - inversion_clear Hal as [|? ? Hf Hfs].
    destruct (IH (snd (free f st)) (free_wf _ _ Hwf Hf) Hfs) as (st' & E & HF & Hwf').
    exists st'. split_and!; [exact E| |done].
    simpl. rewrite HF, frames_free. by rewrite Permutation_middle.
Qed.

Lemma alloc_n_refines n st :
  pmm_wf st ->
  (free_pages st < n -> alloc_n n st = (Err MemoryError, st)) /\
  (n <= free_pages st ->
   exists fs st', alloc_n n st = (Ok fs, st') /\ len fs = Z.max 0 n /\
     frames st ≡ₚ map phys fs ++ frames st' /\ pmm_wf st' /\
     Forall (fun f => aligned (phys f)) fs).
Proof.
  intros Hwf. unfold alloc_n, bind, gets. split; intros Hn.
  - by rewrite (proj2 (Z.ltb_lt _ _)).
  - destruct (Z.ltb_spec (free_pages st) n); [lia|].
    destruct (allocs_refine (range n) st Hwf) as (fs & st' & -> & Hl & HF & Hwf' & Hal).
    { unfold len, range. rewrite length_range2, (wf_count _ Hwf). pose proof (len_nonneg (frames st)).
      rewrite (wf_count _ Hwf) in *. lia. }
    exists fs, st'. split_and!; [done| |done..]. unfold len. rewrite Hl.
    unfold range. rewrite length_range2. lia.
Qed.

(** ** The pool after boot *)

(** The range list entry a memory-map entry contributes, if any. *)
Definition region_range (r : Z * Z) : list (Z * Z) :=
  ranges (add_region (mk_pmm [] 0) r).

Lemma ranges_add_region st r : ranges (add_region st r) = ranges st ++ region_range r.
Proof.
  destruct r as [b l]. unfold region_range, add_region.
  repeat case_match; simpl; by rewrite ?app_nil_r.
Qed.

Lemma ranges_init_from mmap st :
  ranges (fold_left add_region mmap st) = ranges st ++ concat (map region_range mmap).
Proof.
  revert st. induction mmap as [|r mmap IH]; intros st; simpl; [by rewrite app_nil_r|].
  by rewrite IH, ranges_add_region, (assoc_L (++)).
Qed.

Lemma region_range_ok r : Forall range_ok (region_range r).
Proof.
  destruct r as [b l]. unfold region_range, add_region. rewrite page_up_spec, page_down_spec.
  set (start := if PAGE_SIZE * _ <? _ then _ else _).
  assert (aligned start) by (unfold start; case_match; [done|apply aligned_mul]).
  destruct (Z.ltb_spec start (PAGE_SIZE * ((b + l) / PAGE_SIZE))); simpl; [|constructor].
  apply Forall_singleton. split_and!; simpl; auto using aligned_mul. lia.
Qed.

Lemma add_region_wf st r : pmm_wf st -> pmm_wf (add_region st r).
Proof.
  intros [Hr Hc]. constructor.
  - rewrite ranges_add_region. apply Forall_app; split; [done|apply region_range_ok].
  - unfold frames. rewrite ranges_add_region, map_app, concat_app, len_app.
    fold (frames st). rewrite <- Hc. pose proof (region_range_ok r) as Hok.
    unfold region_range, add_region in *. destruct r as [b l].
    case_match; simpl in *; [|rewrite len_nil; lia].
    inversion_clear Hok. by rewrite app_nil_r, len_pages_of.
Qed.

Lemma init_wf mmap : pmm_wf (init mmap).
Proof.
  unfold init. assert (pmm_wf (mk_pmm [] 0)) as H by (by constructor; [constructor|]).
  revert H. generalize (mk_pmm [] 0). induction mmap; simpl; auto using add_region_wf.
Qed.

Lemma elem_of_pages_of r p :
  range_ok r -> p ∈ pages_of r <-> aligned p /\ fst r <= p < snd r.
Proof.
  destruct r as [s e]. intros (Hs%aligned_div & He%aligned_div & Hle). simpl in *.
  unfold pages_of, range. cbn [fst snd]. rewrite list_elem_of_In, in_map_iff.
  setoid_rewrite <- list_elem_of_In. setoid_rewrite elem_of_range2.
  revert Hs He Hle. generalize (s / PAGE_SIZE) (e / PAGE_SIZE). intros a b -> -> Hle.
  replace (PAGE_SIZE * b - PAGE_SIZE * a) with ((b - a) * PAGE_SIZE) by lia.
  rewrite Z.div_mul by (by unfold PAGE_SIZE). split.
  - intros (i & <- & Hi). split; [|unfold PAGE_SIZE; lia].
    replace (PAGE_SIZE * a + PAGE_SIZE * i) with (PAGE_SIZE * (a + i)) by lia. apply aligned_mul.
  - intros [Hp%aligned_div Hlt]. exists (p / PAGE_SIZE - a). unfold PAGE_SIZE in *. lia.
Qed.

Lemma NoDup_pages_of r : NoDup (pages_of r).
Proof.
  unfold pages_of, range, range2. rewrite map_map.
  apply (NoDup_fmap_2_strong (fun i => fst r + PAGE_SIZE * (0 + Z.of_nat i))); [|apply NoDup_seq].
  unfold PAGE_SIZE. intros x y _ _. lia.
Qed.

(** What a page of a map entry's range is: aligned, above the reserved first
    megabyte, and wholly inside the entry. *)
Lemma elem_of_region r p :
  p ∈ concat (map pages_of (region_range r)) ->
  aligned p /\ 1048576 <= p /\ fst r <= p /\ p + PAGE_SIZE <= fst r + snd r.
Proof.
  pose proof (region_range_ok r) as Hok. destruct r as [b l].
  unfold region_range, add_region in *.
  destruct (_ <? page_down (b + l)) eqn:E; simpl in *; [|by intros ?%not_elem_of_nil].
  inversion_clear Hok as [|? ? Hr _]. rewrite app_nil_r, elem_of_pages_of by done. simpl.
  intros (Ha & Hlo & Hhi). pose proof (aligned_div _ Ha). rewrite page_up_spec in *.
  rewrite page_down_spec in *.
  assert (b <= PAGE_SIZE * ((b + PAGE_SIZE - 1) / PAGE_SIZE)).
  { unfold PAGE_SIZE. pose proof (Z.div_mod (b + 4096 - 1) 4096).
    pose proof (Z.mod_pos_bound (b + 4096 - 1) 4096). lia. }
  assert (PAGE_SIZE * ((b + l) / PAGE_SIZE) <= b + l).
  { unfold PAGE_SIZE. apply Z.mul_div_le. lia. }
  unfold PAGE_SIZE, RESERVED_MB in *. split; [done|].
  clear E. case_match eqn:E2; [apply Z.ltb_lt in E2|apply Z.ltb_ge in E2]; lia.
Qed.

Lemma frames_init mmap :
  frames (init mmap) = concat (map (fun r => concat (map pages_of (region_range r))) mmap).
Proof.
  unfold frames, init. rewrite ranges_init_from. simpl.
  induction mmap as [|r mmap IH]; simpl; [done|]. by rewrite map_app, concat_app, IH.
Qed.

(** Two memory-map entries do not overlap. *)
Definition region_disjoint (r1 r2 : Z * Z) : Prop :=
  fst r1 + snd r1 <= fst r2 \/ fst r2 + snd r2 <= fst r1.

Lemma NoDup_frames_init mmap :
  ForallOrdPairs region_disjoint mmap -> NoDup (frames (init mmap)).
Proof.
  rewrite frames_init. induction 1 as [|r mmap Hr Hm IH]; simpl; [constructor|].
  apply list.NoDup_app. split_and!; [|intros p Hp Hin|done].
  - unfold region_range, add_region. destruct r. case_match; simpl; [|constructor].
    rewrite app_nil_r. apply NoDup_pages_of.
  - apply elem_of_region in Hp as (_ & _ & Hlo & Hhi).
    apply list_elem_of_In, in_concat in Hin as (l & (r' & <- & Hr')%in_map_iff & Hin).
    apply list_elem_of_In, elem_of_region in Hin as (_ & _ & Hlo' & Hhi').
    rewrite List.Forall_forall in Hr. specialize (Hr _ Hr').
    unfold region_disjoint, PAGE_SIZE in *. lia.
Qed.

(** ** Clients of the manager

    Any number of clients allocate pages and give back pages they hold; [held]
    is the list of pages currently handed out. *)

Inductive client_step : pmm * list Z -> pmm * list Z -> Prop :=
| cs_alloc st st' held f :
    alloc st = (Ok f, st') -> client_step (st, held) (st', phys f :: held)
| cs_alloc_n n st st' held fs :
    alloc_n n st = (Ok fs, st') -> client_step (st, held) (st', map phys fs ++ held)
| cs_fail n st st' held e :
    alloc st = (Err e, st') \/ alloc_n n st = (Err e, st') -> client_step (st, held) (st', held)
| cs_free st st' held held' f :
    held ≡ₚ phys f :: held' -> free f st = (Ok tt, st') -> client_step (st, held) (st', held')
| cs_free_many st st' held held' fs :
    held ≡ₚ map phys fs ++ held' -> free_many fs st = (Ok tt, st') ->
    client_step (st, held) (st', held').

Definition pool_inv (all : list Z) (c : pmm * list Z) : Prop :=
  pmm_wf (fst c) /\ Forall aligned (snd c) /\ snd c ++ frames (fst c) ≡ₚ all.

Lemma alloc_n_cases n st :
  pmm_wf st ->
  (exists st', alloc_n n st = (Err MemoryError, st') /\ frames st' = frames st /\ pmm_wf st') \/
  (exists fs st', alloc_n n st = (Ok fs, st') /\ frames st ≡ₚ map phys fs ++ frames st' /\
     pmm_wf st' /\ Forall (fun f => aligned (phys f)) fs).
Proof.
  intros Hwf. destruct (alloc_n_refines n st Hwf) as [H1 H2].
  destruct (Z.lt_ge_cases (free_pages st) n) as [Hlt|Hge]; [left; eauto|right].
  destruct (H2 Hge) as (fs & st' & ? & ? & ?). naive_solver.
Qed.

Lemma pool_inv_step all c c' : pool_inv all c -> client_step c c' -> pool_inv all c'.
Proof.
  intros (Hwf & Hal & Hall) Hs. destruct Hs as [st st' held f E|n st st' held fs E
    |n st st' held e E|st st' held held' f HP E|st st' held held' fs HP E]; simpl in *.
  - pose proof (alloc_refines st Hwf) as Ha. rewrite E in Ha. destruct Ha as (HF & Hwf' & Ha).
    split_and!; simpl; [done|by constructor|]. by rewrite <- Hall, HF, Permutation_middle.
  - destruct (alloc_n_cases n st Hwf) as [(? & E' & _)|(fs' & st2 & E' & HF & Hwf' & Ha)];
      rewrite E in E'; simplify_eq. split_and!; simpl; [done| |].
    + apply Forall_app; split; [|done]. by apply Forall_map.
    + rewrite <- Hall, HF. rewrite !(assoc_L (++)). f_equiv. apply Permutation_app_comm.
  - destruct E as [E|E].
    + pose proof (alloc_refines st Hwf) as Ha. rewrite E in Ha. destruct Ha as (-> & HF & Hwf').
      split_and!; simpl; [done..|]. rewrite <- Hall, HF. f_equiv.
      unfold alloc in E. case_match; [case_match; simplify_eq|]. injection E as <-. done.
    + destruct (alloc_n_cases n st Hwf) as [(st2 & E' & HF & Hwf')|(fs' & st2 & E' & _)];
        rewrite E in E'; simplify_eq. split_and!; simpl; [done..|]. by rewrite HF.
  - rewrite HP in Hal. inversion_clear Hal as [|? ? Hf Hrest].
    pose proof (free_wf f st Hwf Hf) as Hwf'. pose proof (frames_free f st) as HF.
    rewrite E in Hwf', HF. simpl in *. split_and!; simpl; [done..|].
    by rewrite HF, <- Hall, HP, <- Permutation_middle.
  - rewrite HP in Hal. apply Forall_app in Hal as [Hfs Hrest]. rewrite Forall_map in Hfs.
    destruct (free_many_refines fs st Hwf Hfs) as (st2 & E' & HF & Hwf').
    rewrite E in E'. simplify_eq. split_and!; simpl; [done..|].
    rewrite HF, <- Hall, HP, !(assoc_L (++)). f_equiv. apply Permutation_app_comm.
Qed.

(** ** Main properties *)

(** C1: from a memory map whose entries do not overlap, and whatever the clients
    of the manager do (allocate, allocate many, free what they hold, in any
    order, with any number of failing calls), no page is held twice, no held
    page is free, and every held page is page-aligned, above the reserved first
    megabyte and wholly inside one entry of the memory map. *)
Theorem pmm_no_double_alloc mmap st held :
  ForallOrdPairs region_disjoint mmap ->
  steps client_step (init mmap, []) (st, held) ->
  NoDup (held ++ frames st) /\
  forall p, p ∈ held ->
    aligned p /\ 1048576 <= p /\
    exists r, r ∈ mmap /\ fst r <= p /\ p + PAGE_SIZE <= fst r + snd r.
Proof.
  intros Hd Hs.
  assert (pool_inv (frames (init mmap)) (st, held)) as (_ & _ & HP).
  { refine (steps_invariant _ _ (pool_inv_step _) _ _ _ Hs).
    split_and!; simpl; [apply init_wf|constructor|done]. }
  simpl in HP. split; [rewrite HP; by apply NoDup_frames_init|].
  intros p Hp. assert (p ∈ frames (init mmap)) as Hin
    by (rewrite <- HP; apply elem_of_app; by left).
  rewrite frames_init in Hin.
  apply list_elem_of_In, in_concat in Hin as (l & (r & <- & Hr)%in_map_iff & Hin).
  apply list_elem_of_In, elem_of_region in Hin as (? & ? & ? & ?).
  split_and!; [done..|]. exists r. split_and!; [by apply list_elem_of_In|done..].
Qed.

Definition witness_map : list (Z * Z) := [(0, 654336); (1048576, 16384)].

Lemma pmm_no_double_alloc_witness :
  exists st, steps client_step (init witness_map, []) (st, [1060864; 1056768]) /\
  NoDup ([1060864; 1056768] ++ frames st).
Proof.
  set (st := snd (alloc (snd (alloc (init witness_map))))). exists st.
  assert (steps client_step (init witness_map, []) (st, [1060864; 1056768])) as Hs2.
  { eapply steps_cons; [apply (cs_alloc_n 2); reflexivity|]. apply steps_refl. }
  split; [exact Hs2|].
  refine (proj1 (pmm_no_double_alloc witness_map st [1060864; 1056768] _ Hs2)).
  repeat constructor. unfold region_disjoint. simpl. lia.
Defined.

(** [alloc_n] is all or nothing and exact: on a well-formed manager it
    returns [n] frames taken out of the free pages exactly when the page
    counter says there are [n], and otherwise raises [MemoryError] and leaves
    the manager as it was. *)
Theorem pmm_alloc_n_exact n st :
  pmm_wf st -> 0 <= n ->
  (n <= len (frames st) /\
   exists fs st', alloc_n n st = (Ok fs, st') /\ len fs = n /\
     frames st ≡ₚ map phys fs ++ frames st' /\ pmm_wf st') \/
  (len (frames st) < n /\ alloc_n n st = (Err MemoryError, st)).
Proof.
  intros Hwf Hn. destruct (alloc_n_refines n st Hwf) as [H1 H2].
  rewrite (wf_count _ Hwf) in H1, H2.
  destruct (Z.le_gt_cases n (len (frames st))) as [Hle|Hgt]; [left|right; auto].
  split; [done|]. destruct (H2 Hle) as (fs & st' & ? & Hl & ? & ? & _).
  exists fs, st'. split_and!; [done|lia|done..].
Qed.

Lemma pmm_alloc_n_exact_witness :
  exists fs st', alloc_n 3 (init witness_map) = (Ok fs, st') /\ len fs = 3.
Proof.
  destruct (pmm_alloc_n_exact 3 (init witness_map) (init_wf witness_map))
    as [(_ & fs & st' & E & Hl & _)|[Hlt _]].
  - lia.
  - exists fs, st'. exact (conj E Hl).
  - exfalso. revert Hlt. vm_compute. discriminate.
Defined.
