(* ===== verification/Vmm.v ===== *)
(** * Virtual memory manager ([kernel/memory/vmm.py])

    Address spaces are objects shared by the table of spaces and by whoever
    opened a region in them, so the state keeps a list of them and passes
    references.  The manager allocates its frames from the physical memory
    manager it holds ([Pmm]).  [region] is an asynchronous context manager: its
    part before [yield] and its [finally] part are two operations, and what its
    frame keeps between them is a [region_ctx].

    The main theorem: whatever the clients do, no frame is mapped twice, in one
    space or in two, and no mapped frame is free. *)

From Stdlib Require Import ZArith Lia.
From stdpp Require Import base list sets numbers.
From S2P Require Import Prelude Bytes Dict Pmm.

Local Open Scope Z_scope.

(** ** Data *)

(** [PageFlags], a [Flag] enumeration: the bits [auto()] gives. *)
Definition PRESENT : Z := 1.
Definition WRITE : Z := 2.
Definition USER : Z := 4.
Definition EXECUTABLE : Z := 8.
Definition RO : Z := PRESENT.
Definition RW : Z := Z.lor PRESENT WRITE.
Definition RWX : Z := Z.lor (Z.lor PRESENT WRITE) EXECUTABLE.
Definition USER_RW : Z := Z.lor (Z.lor PRESENT WRITE) USER.

Record Mapping : Type := mkMapping { m_vaddr : Z; m_frame : PageFrame; m_flags : Z }.

Record MemoryRegion : Type := mkRegion {
  r_vaddr : Z;
  r_size : Z;
  r_flags : Z;
  r_mappings : list Mapping;
}.
Definition region_len (r : MemoryRegion) : Z := r_size r.

Record space : Type := mkSpace {
  s_mappings : list (Z * Mapping);    (* [_mappings] *)
  s_next : Z;                         (* [_next_vaddr] *)
}.

Definition HEAP_START : Z := 0x100000000000.
Definition VirtualAddressSpace_init : space := mkSpace [] HEAP_START.

Record vmm : Type := mkVmm {
  v_pmm : pmm;
  v_objs : list space;                (* the address-space objects *)
  v_spaces : list (Z * nat);          (* [_spaces]: pid -> object *)
}.
Definition VirtualMemoryManager_init (p : pmm) : vmm := mkVmm p [] [].
Definition set_pmm p (v : vmm) : vmm := mkVmm p (v_objs v) (v_spaces v).
Definition set_objs o (v : vmm) : vmm := mkVmm (v_pmm v) o (v_spaces v).
Definition set_spaces x (v : vmm) : vmm := mkVmm (v_pmm v) (v_objs v) x.

(** Calls on the physical memory manager and on one address space. *)
Definition on_pmm {A} (m : M pmm A) : M vmm A := zoom v_pmm set_pmm m.
Definition on_space {A} (r : nat) (m : M space A) : M vmm A := fun v =>
  match v_objs v !! r with
  | None => (Err AttributeError, v)
  | Some sp => let (a, sp') := m sp in (a, set_objs (<[r := sp']> (v_objs v)) v)
  end.

(** ** [VirtualAddressSpace] *)

(** [_tlb_flush] has no effect yet: its body is [pass]. *)
Definition tlb_flush (vaddr : Z) : M space unit := ret tt.

Definition map_page (vaddr : Z) (frame : PageFrame) (flags : Z) : M space unit :=
  modify (fun sp => mkSpace (dset vaddr (mkMapping vaddr frame flags) (s_mappings sp)) (s_next sp)) ;;;
  tlb_flush vaddr.

Definition unmap (vaddr : Z) : M space (option PageFrame) :=
  let! m := gets (fun sp => dget vaddr (s_mappings sp)) in
  modify (fun sp => mkSpace (dpop vaddr (s_mappings sp)) (s_next sp)) ;;;
  match m with
  | Some m => tlb_flush vaddr ;;; ret (Some (m_frame m))
  | None => ret None
  end.

Definition getitem (vaddr : Z) : M space Mapping := fun sp =>
  match dget vaddr (s_mappings sp) with
  | None => (Err KeyError, sp)
  | Some m => (Ok m, sp)
  end.

Definition contains (vaddr : Z) (sp : space) : bool := dmem vaddr (s_mappings sp).

Definition alloc_vrange (n : Z) : M space Z :=
  let! vaddr := gets s_next in
  modify (fun sp => mkSpace (s_mappings sp) (s_next sp + n * PAGE_SIZE)) ;;;
  ret vaddr.

(** The loop of [region]: maps the frames one after another and collects the
    mappings. *)
Fixpoint map_frames (vaddr : Z) (i : Z) (frames : list PageFrame) (flags : Z) : M space (list Mapping) :=
  match frames with
  | [] => ret []
  | frame :: frames' =>
      let v := vaddr + i * PAGE_SIZE in
      map_page v frame flags ;;;
      let! m := getitem v in
      let! ms := map_frames vaddr (i + 1) frames' flags in
      ret (m :: ms)
  end.

(** What [region] keeps across its [yield]. *)
Record region_ctx : Type := mkCtx { c_space : nat; c_region : MemoryRegion; c_frames : list PageFrame }.

Definition region_enter (r : nat) (size flags : Z) : M vmm region_ctx :=
  let n := (size + PAGE_SIZE - 1) / PAGE_SIZE in
  let! frames := on_pmm (alloc_n n) in
  let! vaddr := on_space r (alloc_vrange n) in
  let! ms := on_space r (map_frames vaddr 0 frames flags) in
  ret (mkCtx r (mkRegion vaddr size flags ms) frames).

Definition region_exit (c : region_ctx) : M vmm unit :=
  for_each (r_mappings (c_region c))
    (fun m => let! _ := on_space (c_space c) (unmap (m_vaddr m)) in ret tt) ;;;
  on_pmm (free_many (c_frames c)).

(** ** [VirtualMemoryManager] *)

Definition create_space (pid : Z) : M vmm nat := fun v =>
  let r := length (v_objs v) in
  (Ok r, mkVmm (v_pmm v) (v_objs v ++ [VirtualAddressSpace_init]) (dset pid r (v_spaces v))).

Definition destroy_space (pid : Z) : M vmm unit :=
  let! sp := gets (fun v => dget pid (v_spaces v)) in
  modify (fun v => set_spaces (dpop pid (v_spaces v)) v) ;;;
  match sp with
  | None => ret tt
  | Some r =>
      let! ms := on_space r (gets (fun sp => (s_mappings sp).*2)) in
      for_each ms (fun m =>
        let! _ := on_space r (unmap (m_vaddr m)) in
        on_pmm (free (m_frame m)))
  end.

Definition handle_fault (vaddr : Z) (write user present : bool) : M vmm bool := ret false.

(** ** The frames a space holds *)

Definition mapped (sp : space) : list Z := map (fun e => phys (m_frame e.2)) (s_mappings sp).
Definition all_mapped (v : vmm) : list Z := concat (map mapped (v_objs v)).

(** Every mapping is filed under its own address. *)
Record space_ok (sp : space) : Prop := {
  so_dict : dict_ok (s_mappings sp);
  so_addr : forall a m, (a, m) ∈ s_mappings sp -> m_vaddr m = a;
  so_next : HEAP_START <= s_next sp;
  so_heap : forall a, a ∈ (s_mappings sp).*1 -> a < s_next sp;
}.

Lemma map_page_spec a f fl sp :
  dget a (s_mappings sp) = None ->
  map_page a f fl sp = (Ok tt, mkSpace (s_mappings sp ++ [(a, mkMapping a f fl)]) (s_next sp)).
Proof. intros H. unfold map_page, bind, modify, tlb_flush, ret. by rewrite dset_fresh. Qed.

Lemma map_page_ok a f fl sp :
  space_ok sp -> dget a (s_mappings sp) = None -> a < s_next sp -> space_ok (snd (map_page a f fl sp)).
Proof.
  intros [Hd Ha Hn Hh] Hf Hlt. rewrite map_page_spec by done. split; simpl; [|intros b m|done|intros b].
  - rewrite <- dset_fresh by done. by apply dset_ok.
  - intros [Hin|Hin]%elem_of_app; [eauto|]. apply list_elem_of_singleton in Hin. by simplify_eq.
  - rewrite fmap_app. intros [Hin|Hin]%elem_of_app; [eauto|]. by apply list_elem_of_singleton in Hin as ->.
Qed.

Lemma unmap_spec a sp :
  unmap a sp = (Ok (m_frame <$> dget a (s_mappings sp)), mkSpace (dpop a (s_mappings sp)) (s_next sp)).
Proof. unfold unmap, bind, gets, modify, tlb_flush, ret. by destruct (dget a (s_mappings sp)). Qed.

Lemma unmap_ok a sp : space_ok sp -> space_ok (snd (unmap a sp)).
Proof.
  intros [Hd Ha Hn Hh]. rewrite unmap_spec. split; simpl; [by apply dpop_ok| |done|].
  - intros b m Hin. apply Ha. by eapply dpop_elem.
  - intros b (x & -> & Hx)%list_elem_of_fmap. apply Hh, list_elem_of_fmap. exists x. split; [done|].
    by eapply dpop_elem.
Qed.

Lemma unmap_mapped a m sp :
  dget a (s_mappings sp) = Some m -> mapped sp ≡ₚ phys (m_frame m) :: mapped (snd (unmap a sp)).
Proof. intros H. rewrite unmap_spec. unfold mapped. simpl. by rewrite (dpop_perm _ _ _ H) at 1. Qed.

(** The mappings a region makes. *)
Fixpoint region_mappings (a : Z) (fs : list PageFrame) (fl : Z) : list Mapping :=
  match fs with
  | [] => []
  | f :: fs' => mkMapping a f fl :: region_mappings (a + PAGE_SIZE) fs' fl
  end.
Definition filed (m : Mapping) : Z * Mapping := (m_vaddr m, m).

Lemma region_mappings_addr a fs fl m :
  m ∈ region_mappings a fs fl -> a <= m_vaddr m < a + len fs * PAGE_SIZE.
Proof.
  revert a. induction fs as [|f fs IH]; intros a; simpl; [by intros ?%not_elem_of_nil|].
  rewrite len_cons. pose proof (len_nonneg fs). unfold PAGE_SIZE in *.
  intros [->|Hin]%elem_of_cons; simpl; [lia|]. specialize (IH _ Hin). lia.
Qed.

Lemma map_frames_spec fs : forall vaddr i fl sp,
  space_ok sp -> (forall a, a ∈ (s_mappings sp).*1 -> a < vaddr + i * PAGE_SIZE) ->
  vaddr + (i + len fs) * PAGE_SIZE <= s_next sp ->
  let ms := region_mappings (vaddr + i * PAGE_SIZE) fs fl in
  let sp' := mkSpace (s_mappings sp ++ map filed ms) (s_next sp) in
  map_frames vaddr i fs fl sp = (Ok ms, sp') /\ space_ok sp'.
Proof.
  induction fs as [|f fs IH]; intros vaddr i fl sp Hok Hlow Hnext ms sp'.
  - unfold ms, sp'. simpl. rewrite app_nil_r. by destruct sp.
  - rewrite len_cons in Hnext. pose proof (len_nonneg fs).
    set (a := vaddr + i * PAGE_SIZE) in *.
    assert (dget a (s_mappings sp) = None) as Hnone.
    { apply dget_None. intros Hin%Hlow. lia. }
    pose proof (map_page_ok a f fl sp Hok Hnone) as Hok1.
    rewrite map_page_spec in Hok1 by done. simpl in Hok1.
    assert (a < s_next sp) as Ha by (unfold a, PAGE_SIZE in *; lia).
    destruct (IH vaddr (i + 1) fl _ (Hok1 Ha)) as [E Hok2].
    { simpl. intros b. rewrite fmap_app. unfold a, PAGE_SIZE in *.
      intros [Hb%Hlow|Hb]%elem_of_app; [lia|]. apply list_elem_of_singleton in Hb. simpl in Hb. lia. }
    { simpl. unfold PAGE_SIZE in *. lia. }
    simpl in E, Hok2. replace (vaddr + (i + 1) * PAGE_SIZE) with (a + PAGE_SIZE) in E, Hok2
      by (unfold a, PAGE_SIZE; lia).
    rewrite <- (assoc_L (++)) in E, Hok2. simpl in E, Hok2.
    split; [|exact Hok2]. cbn [map_frames]. fold a.
    rewrite (bind_step _ _ _ _ _ (map_page_spec a f fl sp Hnone)).
    unfold getitem at 1. unfold bind at 1. cbn [s_mappings].
    rewrite <- dset_fresh, dget_dset by done. cbn. rewrite dset_fresh by done.
    by rewrite (bind_step _ _ _ _ _ E).
Qed.

(** ** Ownership of the frames *)

Lemma pool_inv_perm all p h h' : h ≡ₚ h' -> pool_inv all (p, h) -> pool_inv all (p, h').
Proof. intros Hp (Hw & Ha & Hall). split_and!; simpl in *; [done|by rewrite <- Hp|by rewrite <- Hp]. Qed.

(** Replacing one address space changes what is mapped by what that space maps. *)
Lemma mapped_update objs r sp :
  objs !! r = Some sp ->
  exists rest, concat (map mapped objs) ≡ₚ mapped sp ++ rest /\
    forall sp', concat (map mapped (<[r := sp']> objs)) ≡ₚ mapped sp' ++ rest.
Proof.
  intros Hr. exists (concat (map mapped (take r objs)) ++ concat (map mapped (drop (S r) objs))).
  assert (forall sp', concat (map mapped (take r objs ++ sp' :: drop (S r) objs)) ≡ₚ
    mapped sp' ++ concat (map mapped (take r objs)) ++ concat (map mapped (drop (S r) objs))) as H.
  { intros sp'. rewrite map_app, concat_app. simpl. by rewrite Permutation_app_swap_app. }
  split.
  - rewrite <- (take_drop_middle _ _ _ Hr) at 1. apply H.
  - intros sp'. rewrite insert_take_drop; [apply H|]. by eapply lookup_lt_Some.
Qed.

Record spaces_ok (v : vmm) (all held : list Z) : Prop := {
  sk_pool : pool_inv all (v_pmm v, held ++ all_mapped v);
  sk_spaces : Forall space_ok (v_objs v);
  sk_refs : forall e, e ∈ v_spaces v -> (e.2 < length (v_objs v))%nat;
}.

(** One address space changes, and the frames it gains or loses come from or go
    to [held]. *)
Lemma spaces_ok_update v all held held' r sp sp' :
  spaces_ok v all held -> v_objs v !! r = Some sp -> space_ok sp' ->
  held ++ mapped sp ≡ₚ held' ++ mapped sp' ->
  spaces_ok (set_objs (<[r := sp']> (v_objs v)) v) all held'.
Proof.
  intros [Hp Hs Hr] Hsp Hok Hperm. destruct (mapped_update _ _ _ Hsp) as (rest & E & E'). split; simpl.
  - eapply pool_inv_perm; [|exact Hp]. unfold all_mapped. simpl. rewrite E, E', !(assoc_L (++)).
    by f_equiv.
  - by apply Forall_insert.
  - intros e He. rewrite length_insert. eauto.
Qed.

(** A call on the physical memory manager by the holder of [held]. *)
Lemma spaces_ok_pmm v all held held' p :
  spaces_ok v all held -> client_step (v_pmm v, held ++ all_mapped v) (p, held' ++ all_mapped v) ->
  spaces_ok (set_pmm p v) all held'.
Proof. intros [Hp Hs Hr] Hc. split; simpl; [|done..]. by eapply pool_inv_step in Hc. Qed.

Lemma on_space_eq {A} r (m : M space A) v sp a sp' :
  v_objs v !! r = Some sp -> m sp = (a, sp') ->
  on_space r m v = (a, set_objs (<[r := sp']> (v_objs v)) v).
Proof. intros Hr Hm. unfold on_space. by rewrite Hr, Hm. Qed.

Lemma on_space_unmap r a v sp :
  v_objs v !! r = Some sp ->
  on_space r (unmap a) v =
    (Ok (m_frame <$> dget a (s_mappings sp)), set_objs (<[r := snd (unmap a sp)]> (v_objs v)) v).
Proof. intros Hr. rewrite unmap_spec. apply (on_space_eq _ _ _ _ _ _ Hr), unmap_spec. Qed.

(** Unmapping the pages of [ms] in one space gives their frames to [held]. *)
Definition present (ms : list Mapping) (sp : space) : Prop :=
  forall m, m ∈ ms -> dget (m_vaddr m) (s_mappings sp) = Some m.
Definition same_elsewhere (ms : list Mapping) (sp sp' : space) : Prop :=
  forall a, a ∉ map m_vaddr ms -> dget a (s_mappings sp') = dget a (s_mappings sp).

Lemma present_unmap m ms sp :
  NoDup (map m_vaddr (m :: ms)) -> present (m :: ms) sp -> present ms (snd (unmap (m_vaddr m) sp)).
Proof.
  intros [Hm Hms]%list.NoDup_cons Hp m' Hin. rewrite unmap_spec. simpl. rewrite dget_dpop_ne.
  - apply Hp. by apply elem_of_cons; right.
  - intros Heq. apply Hm. apply list_elem_of_fmap. exists m'. by rewrite Heq.
Qed.

Lemma unmap_all_spec r ms : forall v sp all held,
  spaces_ok v all held -> v_objs v !! r = Some sp -> NoDup (map m_vaddr ms) -> present ms sp ->
  exists sp', let v' := set_objs (<[r := sp']> (v_objs v)) v in
    for_each ms (fun m => let! _ := on_space r (unmap (m_vaddr m)) in ret tt) v = (Ok tt, v') /\
    spaces_ok v' all (map (fun m => phys (m_frame m)) ms ++ held) /\
    same_elsewhere ms sp sp' /\ s_next sp' = s_next sp.
Proof.
  induction ms as [|m ms IH]; intros v sp all held Hok Hr Hnd Hpr.
  - exists sp. simpl. rewrite (list_insert_id _ _ _ Hr). by destruct v.
  - set (sp1 := snd (unmap (m_vaddr m) sp)).
    assert (dget (m_vaddr m) (s_mappings sp) = Some m) as Hm by (apply Hpr, elem_of_cons; by left).
    pose proof (proj1 (Forall_lookup _ _) (sk_spaces _ _ _ Hok) _ _ Hr) as Hsp.
    assert (spaces_ok (set_objs (<[r := sp1]> (v_objs v)) v) all (phys (m_frame m) :: held)) as Hok1.
    { eapply spaces_ok_update; [done..|by apply unmap_ok|]. rewrite (unmap_mapped _ _ _ Hm).
      symmetry. apply Permutation_middle. }
    destruct (IH _ sp1 all _ Hok1) as (sp' & E & Hok' & Hsame & Hnext).
    { simpl. apply list_lookup_insert_eq. by eapply lookup_lt_Some. }
    { by apply list.NoDup_cons in Hnd as [_ ?]. }
    { by apply present_unmap. }
    assert (set_objs (<[r := sp']> (v_objs (set_objs (<[r := sp1]> (v_objs v)) v)))
      (set_objs (<[r := sp1]> (v_objs v)) v) = set_objs (<[r := sp']> (v_objs v)) v) as Hv.
    { unfold set_objs. simpl. by rewrite list_insert_insert_eq. }
    simpl in E, Hok', Hv. rewrite Hv in E, Hok'. exists sp'. split_and!.
    + cbn [for_each]. rewrite <- E. rewrite bind_assoc.
      by rewrite (bind_step _ _ _ _ _ (on_space_unmap r _ v sp Hr)).
    + destruct Hok' as [Hp ? ?]. split; [|done..].
      eapply pool_inv_perm; [|exact Hp]. f_equiv. symmetry. apply Permutation_middle.
    + intros a Ha. simpl in Ha. apply not_elem_of_cons in Ha as [Hne Ha]. rewrite Hsame by done.
      unfold sp1. rewrite unmap_spec. simpl. by apply dget_dpop_ne.
    + rewrite Hnext. unfold sp1. by rewrite unmap_spec.
Qed.

(** The loop of [destroy_space]. *)
Lemma destroy_loop_spec r ms : forall v sp all held,
  spaces_ok v all held -> v_objs v !! r = Some sp -> NoDup (map m_vaddr ms) -> present ms sp ->
  exists v', for_each ms (fun m => let! _ := on_space r (unmap (m_vaddr m)) in on_pmm (free (m_frame m))) v
    = (Ok tt, v') /\ spaces_ok v' all held /\ v_spaces v' = v_spaces v /\
    length (v_objs v') = length (v_objs v) /\ forall r', r' <> r -> v_objs v' !! r' = v_objs v !! r'.
Proof.
  induction ms as [|m ms IH]; intros v sp all held Hok Hr Hnd Hpr; [by exists v|].
  set (sp1 := snd (unmap (m_vaddr m) sp)).
  assert (dget (m_vaddr m) (s_mappings sp) = Some m) as Hm by (apply Hpr, elem_of_cons; by left).
  pose proof (proj1 (Forall_lookup _ _) (sk_spaces _ _ _ Hok) _ _ Hr) as Hsp.
  set (v1 := set_objs (<[r := sp1]> (v_objs v)) v).
  assert (spaces_ok v1 all (phys (m_frame m) :: held)) as Hok1.
  { eapply spaces_ok_update; [done..|by apply unmap_ok|]. rewrite (unmap_mapped _ _ _ Hm).
    symmetry. apply Permutation_middle. }
  set (v2 := set_pmm (snd (free (m_frame m) (v_pmm v1))) v1).
  assert (spaces_ok v2 all held) as Hok2.
  { eapply spaces_ok_pmm; [exact Hok1|]. by eapply (cs_free _ _ _ _ (m_frame m)). }
  destruct (IH v2 sp1 all held Hok2) as (v' & E & Hok' & Hs & Hl & Hother).
  { simpl. apply list_lookup_insert_eq. by eapply lookup_lt_Some. }
  { by apply list.NoDup_cons in Hnd as [_ ?]. }
  { by apply present_unmap. }
  exists v'. split_and!; [|done|done| |].
  - cbn [for_each]. rewrite <- E. rewrite bind_assoc.
    by rewrite (bind_step _ _ _ _ _ (on_space_unmap r _ v sp Hr)).
  - rewrite Hl. simpl. by rewrite length_insert.
  - intros r' Hne. rewrite Hother by done. simpl. by rewrite list_lookup_insert_ne.
Qed.

(** ** Clients of the manager

    The clients' state: the manager, the regions that are open, and the frames
    the clients hold themselves.  A client opens and closes regions in any
    order; maps a frame it holds at an address below the region area that is
    not mapped, and takes it back; creates spaces; destroys a space in which no
    region is open; and uses the physical memory manager on its own. *)

Definition vstate : Type := vmm * list region_ctx * list Z.

Inductive vmm_step : vstate -> vstate -> Prop :=
| vs_create pid r v v' o h :
    create_space pid v = (Ok r, v') -> vmm_step (v, o, h) (v', o, h)
| vs_destroy pid v v' o h :
    (forall r c, dget pid (v_spaces v) = Some r -> c ∈ o -> c_space c <> r) ->
    destroy_space pid v = (Ok tt, v') -> vmm_step (v, o, h) (v', o, h)
| vs_enter r size fl v v' o h c :
    0 <= size -> (r < length (v_objs v))%nat ->
    region_enter r size fl v = (Ok c, v') -> vmm_step (v, o, h) (v', c :: o, h)
| vs_enter_fails r size fl v v' o h e :
    0 <= size -> (r < length (v_objs v))%nat ->
    region_enter r size fl v = (Err e, v') -> vmm_step (v, o, h) (v', o, h)
| vs_exit c v v' o o' h :
    o ≡ₚ c :: o' -> region_exit c v = (Ok tt, v') -> vmm_step (v, o, h) (v', o', h)
| vs_map r sp a f fl v v' o h h' :
    v_objs v !! r = Some sp -> a < HEAP_START -> contains a sp = false -> h ≡ₚ phys f :: h' ->
    on_space r (map_page a f fl) v = (Ok tt, v') -> vmm_step (v, o, h) (v', o, h')
| vs_unmap r a f v v' o h :
    a < HEAP_START -> on_space r (unmap a) v = (Ok (Some f), v') -> vmm_step (v, o, h) (v', o, phys f :: h)
| vs_pmm p h' v o h :
    client_step (v_pmm v, h) (p, h') -> vmm_step (v, o, h) (set_pmm p v, o, h').

(** The pages a region claims, and what is true of an open region. *)
Definition pages (c : region_ctx) : list (nat * Z) :=
  map (fun m => (c_space c, m_vaddr m)) (r_mappings (c_region c)).

Record ctx_ok (v : vmm) (c : region_ctx) : Prop := {
  co_ms : r_mappings (c_region c) = region_mappings (r_vaddr (c_region c)) (c_frames c) (r_flags (c_region c));
  co_heap : HEAP_START <= r_vaddr (c_region c);
  co_present : exists sp, v_objs v !! c_space c = Some sp /\ present (r_mappings (c_region c)) sp;
}.

Record vmm_inv (all : list Z) (x : vstate) : Prop := {
  vi_ok : spaces_ok x.1.1 all x.2;
  vi_open : forall c, c ∈ x.1.2 -> ctx_ok x.1.1 c;
  vi_claims : NoDup (concat (map pages x.1.2));
}.

Lemma region_frames a fs fl : map (fun m => phys (m_frame m)) (region_mappings a fs fl) = map phys fs.
Proof. revert a. induction fs as [|f fs IH]; intros a; simpl; [done|]. by rewrite IH. Qed.

Lemma region_vaddrs_NoDup a fs fl : NoDup (map m_vaddr (region_mappings a fs fl)).
Proof.
  revert a. induction fs as [|f fs IH]; intros a; simpl; [constructor|].
  apply list.NoDup_cons; split; [|done].
  intros (m & Hm & Hin)%list_elem_of_fmap. apply region_mappings_addr in Hin. unfold PAGE_SIZE in *. lia.
Qed.

Lemma ctx_heap v c m : ctx_ok v c -> m ∈ r_mappings (c_region c) -> HEAP_START <= m_vaddr m.
Proof. intros [Hms Hh _] Hm. rewrite Hms in Hm. apply region_mappings_addr in Hm. lia. Qed.

(** An open region survives a change of a space that keeps its pages. *)
Lemma ctx_ok_update v c r sp sp' :
  ctx_ok v c -> v_objs v !! r = Some sp ->
  (c_space c = r -> forall m, m ∈ r_mappings (c_region c) ->
     dget (m_vaddr m) (s_mappings sp') = dget (m_vaddr m) (s_mappings sp)) ->
  ctx_ok (set_objs (<[r := sp']> (v_objs v)) v) c.
Proof.
  intros [Hms Hh (sp0 & Hsp0 & Hpr)] Hr Hsame. split; [done..|]. simpl.
  destruct (decide (c_space c = r)) as [Heq|Hne].
  - rewrite Heq in *. exists sp'. split; [apply list_lookup_insert_eq; by eapply lookup_lt_Some|].
    rewrite Hr in Hsp0. injection Hsp0 as <-. intros m Hm. rewrite Hsame by done. by apply Hpr.
  - exists sp0. by rewrite list_lookup_insert_ne.
Qed.

Lemma claims_cons c o : NoDup (concat (map pages (c :: o))) <->
  NoDup (pages c) /\ (forall x, x ∈ pages c -> x ∉ concat (map pages o)) /\ NoDup (concat (map pages o)).
Proof. simpl. apply list.NoDup_app. Qed.

Lemma elem_of_pages o x : x ∈ concat (map pages o) <-> exists c, c ∈ o /\ x ∈ pages c.
Proof.
  rewrite list_elem_of_In, in_concat. split.
  - intros (l & (c & <- & Hc)%in_map_iff & Hx). exists c. by rewrite !list_elem_of_In.
  - intros (c & Hc & Hx). exists (pages c). rewrite <- !list_elem_of_In. split; [|done].
    apply list_elem_of_fmap. by exists c.
Qed.

Lemma page_of c m : m ∈ r_mappings (c_region c) -> (c_space c, m_vaddr m) ∈ pages c.
Proof. intros Hm. apply list_elem_of_fmap. by exists m. Qed.

Lemma page_count_nonneg size : 0 <= size -> 0 <= (size + PAGE_SIZE - 1) / PAGE_SIZE.
Proof. intros. apply Z.div_pos; unfold PAGE_SIZE; lia. Qed.

Lemma dget_app_l {V} k (d d' : list (Z * V)) v : dget k d = Some v -> dget k (d ++ d') = Some v.
Proof. induction d as [|[k' v'] d IH]; simpl; [done|]. case_decide; auto. Qed.

Lemma mapped_filed sp ms n :
  mapped (mkSpace (s_mappings sp ++ map filed ms) n) = mapped sp ++ map (fun m => phys (m_frame m)) ms.
Proof. unfold mapped. simpl. rewrite map_app, map_map. done. Qed.

(** Opening a region: it fails without an effect on the spaces, or maps fresh
    frames at fresh addresses. *)
Lemma region_enter_spec v all held r sp size fl :
  spaces_ok v all held -> v_objs v !! r = Some sp -> 0 <= size ->
  (exists p, region_enter r size fl v = (Err MemoryError, set_pmm p v) /\ spaces_ok (set_pmm p v) all held) \/
  (exists fs p, let n := (size + PAGE_SIZE - 1) / PAGE_SIZE in
     let ms := region_mappings (s_next sp) fs fl in
     let sp' := mkSpace (s_mappings sp ++ map filed ms) (s_next sp + n * PAGE_SIZE) in
     let v' := set_objs (<[r := sp']> (v_objs v)) (set_pmm p v) in
     region_enter r size fl v = (Ok (mkCtx r (mkRegion (s_next sp) size fl ms) fs), v') /\
     len fs = n /\ spaces_ok v' all held /\ space_ok sp').
Proof.
  intros Hok Hr Hsize. pose proof (page_count_nonneg size Hsize) as Hn. set (n := (size + _ - 1) / _) in *.
  pose proof (proj1 (sk_pool _ _ _ Hok)) as Hwf. destruct (alloc_n_refines n (v_pmm v) Hwf) as [Hfail Hsucc].
  destruct (Z.lt_ge_cases (free_pages (v_pmm v)) n) as [Hlt|Hge].
  - left. exists (v_pmm v). specialize (Hfail Hlt). unfold region_enter. fold n. split.
    + apply (bind_fail _ _ _ MemoryError). unfold on_pmm, zoom. by rewrite Hfail.
    + eapply spaces_ok_pmm; [exact Hok|]. eapply cs_fail. right. exact Hfail.
  - right. destruct (Hsucc Hge) as (fs & p & E & Hl & _ & _ & _). exists fs, p. intros n' ms sp' v'.
    rewrite Z.max_r in Hl by done.
    assert (spaces_ok (set_pmm p v) all (map phys fs ++ held)) as Hok1.
    { eapply spaces_ok_pmm; [exact Hok|]. rewrite <- (assoc_L (++)). by eapply cs_alloc_n. }
    pose proof (proj1 (Forall_lookup _ _) (sk_spaces _ _ _ Hok) _ _ Hr) as Hsp.
    assert (space_ok (mkSpace (s_mappings sp) (s_next sp + n * PAGE_SIZE))) as Hsp1.
    { destruct Hsp as [? ? ? Hh]. split; simpl; [done..|unfold PAGE_SIZE; lia|].
      intros a Ha%Hh. unfold PAGE_SIZE. lia. }
    destruct (map_frames_spec fs (s_next sp) 0 fl _ Hsp1) as [Em Hsp2].
    { simpl. intros a Ha%(so_heap _ Hsp). lia. }
    { simpl. rewrite Hl. lia. }
    simpl in Em, Hsp2. rewrite Z.add_0_r in Em, Hsp2. split_and!; [| done | |exact Hsp2].
    + unfold region_enter. fold n.
      rewrite (bind_step (on_pmm (alloc_n n)) _ v fs (set_pmm p v)) by (unfold on_pmm, zoom; by rewrite E).
      rewrite (bind_step _ _ _ _ _ (on_space_eq r (alloc_vrange n) (set_pmm p v) sp _ _ Hr eq_refl)).
      rewrite (bind_step _ _ _ (region_mappings (s_next sp) fs fl) v'); [done|].
      unfold on_space. simpl. rewrite list_lookup_insert_eq by (by eapply lookup_lt_Some).
      rewrite Em. unfold v', set_objs. simpl. by rewrite list_insert_insert_eq.
    + apply (spaces_ok_update _ _ _ held _ _ _ Hok1 Hr Hsp2).
      rewrite mapped_filed, region_frames.
      rewrite (assoc_L (++) held). rewrite (Permutation_app_comm (map phys fs)), <- (assoc_L (++)).
      rewrite <- (assoc_L (++) held). f_equiv. apply Permutation_app_comm.
Qed.

Lemma free_many_total fs p : free_many fs p = (Ok tt, snd (free_many fs p)).
Proof.
  revert p. induction fs as [|f fs IH]; intros p; [done|].
  change (free_many (f :: fs) p) with (free_many fs (snd (free f p))). apply IH.
Qed.

(** Closing an open region. *)
Lemma region_exit_spec v all held c :
  spaces_ok v all held -> ctx_ok v c ->
  exists sp sp' p, v_objs v !! c_space c = Some sp /\
    let v' := set_pmm p (set_objs (<[c_space c := sp']> (v_objs v)) v) in
    region_exit c v = (Ok tt, v') /\ spaces_ok v' all held /\
    same_elsewhere (r_mappings (c_region c)) sp sp'.
Proof.
  intros Hok [Hms Hh (sp & Hsp & Hpr)].
  destruct (unmap_all_spec (c_space c) (r_mappings (c_region c)) v sp all held Hok Hsp) as (sp' & E & Hok' & Hsame & _);
    [rewrite Hms; apply region_vaddrs_NoDup|done|].
  rewrite Hms, region_frames in Hok' at 1. set (v1 := set_objs _ v) in *.
  exists sp, sp', (snd (free_many (c_frames c) (v_pmm v1))). split; [done|]. intros v'.
  pose proof (free_many_total (c_frames c) (v_pmm v1)) as Ef.
  split_and!; [| |done].
  - unfold region_exit. rewrite (bind_step _ _ _ _ _ E). unfold on_pmm, zoom. by rewrite Ef.
  - eapply spaces_ok_pmm; [exact Hok'|]. eapply cs_free_many; [|exact Ef]. by rewrite <- (assoc_L (++)).
Qed.

(** ** Every step keeps the invariant *)

(** A client step is a client step beside what others hold. *)
Lemma pool_inv_frame all p p' h h' x :
  pool_inv all (p, h ++ x) -> client_step (p, h) (p', h') -> pool_inv all (p', h' ++ x).
Proof.
  intros Hi Hs. eapply pool_inv_step; [exact Hi|]. clear Hi.
  inversion Hs as [? ? ? f E|n ? ? ? fs E|n ? ? ? e E|? ? ? ? f Hp E|? ? ? ? fs Hp E]; subst.
  - exact (cs_alloc _ _ (h ++ x) f E).
  - rewrite <- (assoc_L (++)). exact (cs_alloc_n n _ _ (h ++ x) fs E).
  - exact (cs_fail n _ _ (h' ++ x) e E).
  - eapply cs_free; [|exact E]. by rewrite Hp.
  - eapply cs_free_many; [|exact E]. by rewrite Hp, (assoc_L (++)).
Qed.

Lemma inv_create all pid r v v' o h :
  create_space pid v = (Ok r, v') -> vmm_inv all (v, o, h) -> vmm_inv all (v', o, h).
Proof.
  intros [= <- <-] [[Hp Hs Hrefs] Ho Hc]. simpl in *. split; simpl; [split; simpl| |done].
  - unfold all_mapped in *. simpl. rewrite map_app, concat_app. simpl. by rewrite !app_nil_r.
  - apply Forall_app. split; [done|]. apply Forall_singleton. split; simpl; [constructor|..|done|].
    + by intros a m ?%not_elem_of_nil.
    + by intros a ?%not_elem_of_nil.
  - intros e. rewrite length_app. simpl. intros [->|H%Hrefs]%dset_elem; simpl; lia.
  - intros c Hin. destruct (Ho c Hin) as [? ? (sp & Hsp & ?)]. split; [done..|].
    exists sp. simpl. by rewrite (lookup_app_l_Some _ _ _ _ Hsp).
Qed.

Lemma inv_destroy all pid v v' o h :
  (forall r c, dget pid (v_spaces v) = Some r -> c ∈ o -> c_space c <> r) ->
  destroy_space pid v = (Ok tt, v') -> vmm_inv all (v, o, h) -> vmm_inv all (v', o, h).
Proof.
  intros Hfree E [Hok Ho Hc]. simpl in *.
  assert (spaces_ok (set_spaces (dpop pid (v_spaces v)) v) all h) as Hok1.
  { destruct Hok as [Hp Hs Hrefs]. split; [done..|]. simpl. intros e He%dpop_elem. auto. }
  unfold destroy_space in E. unfold bind at 1 in E. cbn [gets] in E. unfold bind at 1, modify in E.
  cbv beta iota in E. set (v1 := set_spaces _ v) in *.
  destruct (dget pid (v_spaces v)) as [r|] eqn:Hpid.
  - pose proof (sk_refs _ _ _ Hok _ (dget_elem _ _ _ Hpid)) as Hlt.
    destruct (lookup_lt_is_Some_2 _ _ Hlt) as [sp Hsp]. simpl in Hsp.
    rewrite (bind_step _ _ v1 (s_mappings sp).*2 v1) in E.
    2:{ unfold on_space. simpl. rewrite Hsp. unfold v1, set_objs, set_spaces. simpl.
        by rewrite list_insert_id. }
    pose proof (proj1 (Forall_lookup _ _) (sk_spaces _ _ _ Hok) _ _ Hsp) as [Hd Ha _ _].
    assert (map m_vaddr (s_mappings sp).*2 = (s_mappings sp).*1) as Hkeys.
    { clear -Ha. induction (s_mappings sp) as [|[a m] l IH]; csimpl; [done|]. rewrite IH.
      - by rewrite (Ha a m) by (apply elem_of_cons; by left).
      - intros b m' Hin. apply Ha, elem_of_cons. by right. }
    destruct (destroy_loop_spec r (s_mappings sp).*2 v1 sp all h Hok1 Hsp) as (v2 & E2 & Hok2 & Hs2 & Hl2 & Hother).
    + rewrite Hkeys. exact Hd.
    + intros m ([a m'] & -> & Hin)%list_elem_of_fmap. simpl. rewrite (Ha _ _ Hin). by apply elem_dget.
    + rewrite E2 in E. injection E as <-. split; simpl; [done| |done].
      intros c Hin. destruct (Ho c Hin) as [? ? (sp0 & Hsp0 & ?)]. split; [done..|].
      exists sp0. rewrite Hother; [done|]. by apply Hfree.
  - injection E as <-. split; [done| |done]. intros c Hin. destruct (Ho c Hin) as [? ? ?]. by split.
Qed.

Lemma inv_enter all r size fl v v' o h res :
  0 <= size -> (r < length (v_objs v))%nat -> region_enter r size fl v = (res, v') ->
  vmm_inv all (v, o, h) ->
  match res with Ok c => vmm_inv all (v', c :: o, h) | Err _ => vmm_inv all (v', o, h) end.
Proof.
  intros Hsize Hlt E [Hok Ho Hc]. simpl in *. destruct (lookup_lt_is_Some_2 _ _ Hlt) as [sp Hsp].
  destruct (region_enter_spec v all h r sp size fl Hok Hsp Hsize)
    as [(p & E' & Hok')|(fs & p & E' & Hl & Hok' & Hsp')]; rewrite E in E'; injection E' as -> ->.
  - split; [done| |done]. intros c Hin. destruct (Ho c Hin) as [? ? ?]. by split.
  - set (ms := region_mappings (s_next sp) fs fl) in *.
    pose proof (proj1 (Forall_lookup _ _) (sk_spaces _ _ _ Hok) _ _ Hsp) as Hspok.
    split; [done| |apply claims_cons; split_and!; [| |done]]; cbn [fst snd].
    + intros c [->|Hin]%elem_of_cons.
      * split; simpl; [done|apply (so_next _ Hspok)|]. eexists.
        split; [apply list_lookup_insert_eq; by eapply lookup_lt_Some|]. intros m Hm. simpl.
        apply elem_dget; [apply (so_dict _ Hsp')|]. apply elem_of_app. right.
        apply list_elem_of_fmap. by exists m.
      * destruct (Ho c Hin) as [Hms Hh Hpr]. apply (ctx_ok_update (set_pmm p v) c r sp); [by split|done|].
        intros Heq m Hm. destruct Hpr as (sp0 & Hsp0 & Hpr). rewrite Heq, Hsp in Hsp0. injection Hsp0 as <-.
        rewrite (Hpr m Hm). by apply dget_app_l, Hpr.
    + unfold pages. simpl. rewrite <- (map_map m_vaddr (pair r)).
      apply NoDup_fmap_2; [by intros ? ? [=]|apply region_vaddrs_NoDup].
    + intros x (m & -> & Hm)%list_elem_of_fmap (c & Hin & Hx)%elem_of_pages. simpl in Hm.
      apply list_elem_of_fmap in Hx as (m' & [= Hr Ha] & Hm').
      destruct (Ho c Hin) as [_ _ (sp0 & Hsp0 & Hpr)]. rewrite <- Hr, Hsp in Hsp0. injection Hsp0 as <-.
      apply Hpr, dget_elem in Hm'. apply region_mappings_addr in Hm.
      assert (m_vaddr m' < s_next sp); [|lia]. apply (so_heap _ Hspok).
      apply list_elem_of_fmap. by exists (m_vaddr m', m').
Qed.

Lemma inv_exit all c v v' o o' h :
  o ≡ₚ c :: o' -> region_exit c v = (Ok tt, v') -> vmm_inv all (v, o, h) -> vmm_inv all (v', o', h).
Proof.
  intros Hperm E [Hok Ho Hc]. simpl in *.
  destruct (region_exit_spec v all h c Hok) as (sp & sp' & p & Hsp & E' & Hok' & Hsame).
  { apply Ho. rewrite Hperm. apply elem_of_cons. by left. }
  rewrite E in E'. injection E' as ->.
  assert (NoDup (concat (map pages (c :: o')))) as Hcl by (by rewrite <- Hperm).
  apply claims_cons in Hcl as (_ & Hdisj & Hcl). split; [done| |done]. simpl.
  intros c' Hin. assert (ctx_ok v c') as Hc'. { apply Ho. rewrite Hperm. apply elem_of_cons. by right. }
  destruct (ctx_ok_update v c' (c_space c) sp sp' Hc' Hsp) as [? ? ?]; [|by split].
  intros Heq m Hm. apply Hsame. intros (m' & Ha & Hm')%list_elem_of_fmap.
  apply (Hdisj _ (page_of c m' Hm')), elem_of_pages. exists c'. split; [done|].
  rewrite <- Heq, <- Ha. by apply page_of.
Qed.

(** A client's own page, outside the region area, changes in one space. *)
Lemma inv_own_page all v o h h' r sp sp' a :
  vmm_inv all (v, o, h) -> v_objs v !! r = Some sp -> space_ok sp' -> a < HEAP_START ->
  (forall b, b <> a -> dget b (s_mappings sp') = dget b (s_mappings sp)) ->
  h ++ mapped sp ≡ₚ h' ++ mapped sp' ->
  vmm_inv all (set_objs (<[r := sp']> (v_objs v)) v, o, h').
Proof.
  intros [Hok Ho Hc] Hsp Hok' Ha Hsame Hperm. simpl in *. split; [by eapply spaces_ok_update| |done].
  simpl. intros c Hin. eapply ctx_ok_update; [by apply Ho|done|]. intros _ m Hm. apply Hsame.
  pose proof (ctx_heap _ _ _ (Ho c Hin) Hm). lia.
Qed.

Lemma vmm_inv_step all x x' : vmm_inv all x -> vmm_step x x' -> vmm_inv all x'.
Proof.
  intros Hi Hs. destruct Hs as [pid r v v' o h E|pid v v' o h Hf E|r size fl v v' o h c Hz Hl E
    |r size fl v v' o h e Hz Hl E|c v v' o o' h Hp E|r sp a f fl v v' o h h' Hsp Ha Hno Hp E
    |r a f v v' o h Ha E|p h' v o h Hc].
  - by eapply inv_create.
  - by eapply inv_destroy.
  - exact (inv_enter all r size fl v v' o h (Ok c) Hz Hl E Hi).
  - exact (inv_enter all r size fl v v' o h (Err e) Hz Hl E Hi).
  - by eapply inv_exit.
  - pose proof (proj1 (Forall_lookup _ _) (sk_spaces _ _ _ (vi_ok _ _ Hi)) _ _ Hsp) as Hspok.
    assert (dget a (s_mappings sp) = None) as Hg.
    { unfold contains, dmem in Hno. by destruct (dget a _). }
    rewrite (on_space_eq _ _ _ _ _ _ Hsp (map_page_spec a f fl sp Hg)) in E. injection E as <-.
    pose proof (map_page_ok a f fl sp Hspok Hg) as Hok'. rewrite map_page_spec in Hok' by done.
    apply (inv_own_page all v o h h' r sp _ a Hi Hsp).
    + apply Hok'. pose proof (so_next _ Hspok). lia.
    + exact Ha.
    + intros b Hb. simpl. rewrite <- dset_fresh by done. by apply dget_dset_ne.
    + rewrite Hp. unfold mapped. simpl. rewrite map_app. simpl.
      by rewrite (assoc_L (++)), <- Permutation_cons_append.
  - unfold on_space in E. destruct (v_objs v !! r) as [sp|] eqn:Hsp; [|done].
    pose proof (proj1 (Forall_lookup _ _) (sk_spaces _ _ _ (vi_ok _ _ Hi)) _ _ Hsp) as Hspok.
    pose proof (unmap_ok a sp Hspok) as Hok'.
    destruct (dget a (s_mappings sp)) as [m|] eqn:Hg; rewrite unmap_spec, Hg in E; [|done].
    injection E as <- <-. rewrite unmap_spec in Hok'. apply (inv_own_page all v o h _ r sp _ a Hi Hsp Hok' Ha).
    + intros b Hb. by apply dget_dpop_ne.
    + rewrite (unmap_mapped _ _ _ Hg), unmap_spec. symmetry. apply Permutation_middle.
  - destruct Hi as [[Hp Hs Hr] Ho Hcl]. simpl in *. split; simpl; [|intros c Hin|done].
    + split; [|done..]. simpl. by apply (pool_inv_frame _ _ _ _ _ _ Hp).
    + destruct (Ho c Hin) as [? ? ?]. by split.
Qed.

(** ** Main property *)

(** C13: from a memory map without overlaps, and whatever the clients of the
    manager do (open and close regions in any order, map pages of their own
    below the region area to frames they hold, where none is mapped, and unmap
    them, create spaces, destroy spaces in which no region is open, allocate
    and free the frames they hold), no frame is mapped at two addresses, in one
    space or in two, no mapped frame is free or held by a client, and no frame
    is lost; every page of every open region is mapped, to the frame the region
    got. *)
Theorem vmm_frames_isolated mmap v o h :
  ForallOrdPairs region_disjoint mmap ->
  steps vmm_step (VirtualMemoryManager_init (init mmap), [], []) (v, o, h) ->
  NoDup (h ++ all_mapped v ++ frames (v_pmm v)) /\
  h ++ all_mapped v ++ frames (v_pmm v) ≡ₚ frames (init mmap) /\
  forall c m, c ∈ o -> m ∈ r_mappings (c_region c) ->
    on_space (c_space c) (getitem (m_vaddr m)) v = (Ok m, v).
Proof.
  intros Hd Hs.
  assert (vmm_inv (frames (init mmap)) (v, o, h)) as [[(_ & _ & Hp) _ _] Ho _].
  { refine (steps_invariant _ _ (vmm_inv_step _) _ _ _ Hs). split; simpl; [split|by intros ? ?%not_elem_of_nil|constructor].
    - split_and!; simpl; [apply init_wf|constructor|done].
    - constructor.
    - by intros ? ?%not_elem_of_nil. }
  simpl in Hp, Ho. rewrite <- (assoc_L (++)) in Hp. split_and!; [|done|].
  - rewrite Hp. by apply NoDup_frames_init.
  - intros c m Hc Hm. destruct (Ho c Hc) as [_ _ (sp & Hsp & Hpr)].
    rewrite (on_space_eq _ _ _ sp (Ok m) sp Hsp) by (unfold getitem; by rewrite (Hpr m Hm)).
    rewrite list_insert_id by done. by destruct v.
Qed.

Definition vm0 : vmm := VirtualMemoryManager_init (init witness_map).
Definition vm1 : vmm := snd (create_space 7 vm0).
Definition vm2 : vmm := snd (region_enter 0 5000 RW vm1).

Lemma vmm_frames_isolated_witness :
  all_mapped vm2 = [1060864; 1056768] /\ NoDup ([] ++ all_mapped vm2 ++ frames (v_pmm vm2)).
Proof.
  split; [by vm_compute|].
  refine (proj1 (vmm_frames_isolated witness_map vm2
    [mkCtx 0 (mkRegion HEAP_START 5000 RW
       (region_mappings HEAP_START [Build_PageFrame 1060864; Build_PageFrame 1056768] RW))
       [Build_PageFrame 1060864; Build_PageFrame 1056768]] [] _ _)).
  - repeat constructor. unfold region_disjoint. simpl. lia.
  - eapply steps_cons; [by apply (vs_create 7 0%nat _ vm1)|].
    eapply steps_cons; [apply (vs_enter 0%nat 5000 RW _ vm2); [done|by apply Nat.ltb_lt|by vm_compute]|].
    apply steps_refl.
Defined.

(** Destroying a space while one of its regions is open, and then leaving the
    region, frees the region's frames twice: the manager then hands the same
    frame to two owners. *)
Lemma vmm_destroy_open_region :
  match region_enter 0 4096 RW vm1 with
  | (Ok c, v) =>
      let '(r1, v1) := destroy_space 7 v in
      let '(r2, v2) := region_exit c v1 in
      r1 = Ok tt /\ r2 = Ok tt /\ frames (v_pmm v2) = [1048576; 1052672; 1056768; 1060864; 1060864] /\
      fst (alloc (v_pmm v2)) = fst (alloc (snd (alloc (v_pmm v2))))
  | (Err _, _) => False
  end.
Proof. by vm_compute. Qed.
