(* ===== verification/Packets.v ===== *)
(** * Packet formats ([kernel/net/ethernet.py], [ip.py] and the segment part of [tcp.py])

    Ethernet frames, IPv4 packets, TCP segments and the Internet checksum, with
    the round-trip theorems of the codecs and the validity of the checksums the
    encoders write. *)

From Stdlib Require Import ZArith Lia.
From stdpp Require Import base list numbers.
From S2P Require Import Prelude Bytes Pystr.

Local Open Scope Z_scope.

(** ** Ethernet ([ethernet.py]) *)

Definition ETHERTYPE_IPv4 : Z := 0x0800.
Definition ETHERTYPE_ARP : Z := 0x0806.
Definition ETHERTYPE_IPv6 : Z := 0x86DD.
Definition BROADCAST_MAC : bytes := [0xFF; 0xFF; 0xFF; 0xFF; 0xFF; 0xFF].
Definition ZERO_MAC : bytes := zeros 6.

Record EtherFrame := {
  ef_dst : bytes;
  ef_src : bytes;
  ef_ethertype : Z;
  ef_payload : bytes
}.

Definition ether_decode (raw : bytes) : result EtherFrame :=
  if len raw <? 14 then Err ValueError else
  let? ethertype := unpack_be 2 (slice raw 12 14) in
  Ok {| ef_dst := slice raw 0 6; ef_src := slice raw 6 12;
        ef_ethertype := ethertype; ef_payload := slice_from raw 14 |}.

Definition ether_encode (f : EtherFrame) : result bytes :=
  let? t := pack_be 2 (ef_ethertype f) in
  Ok (ef_dst f ++ ef_src f ++ t ++ ef_payload f).

(** ** The Internet checksum ([inet_cksum]) *)

(** [struct.unpack(f">{len(data)//2}H", data)] of an even-length buffer. *)
Fixpoint words16 (l : bytes) : list Z :=
  match l with
  | a :: b :: l' => (256 * a + b) :: words16 l'
  | _ => []
  end.

Definition sumZ (l : list Z) : Z := fold_right Z.add 0 l.

(** [while s >> 16: s = (s & 0xFFFF) + (s >> 16)].  The fuel is the bit length
    of [s] plus two, which [fold_carry_done] proves enough. *)
Fixpoint fold_carry (fuel : nat) (s : Z) : Z :=
  match fuel with
  | O => s
  | S fuel' =>
      if Z.shiftr s 16 =? 0 then s
      else fold_carry fuel' (Z.land s 0xFFFF + Z.shiftr s 16)
  end.

Definition carry_fuel (s : Z) : nat := (Z.to_nat (Z.log2 s) + 3)%nat.

Definition inet_cksum (data : bytes) : Z :=
  let data := if len data mod 2 =? 0 then data else data ++ [0] in
  let s := sumZ (words16 data) in
  let s := fold_carry (carry_fuel s) s in
  Z.land (Z.lnot s) 0xFFFF.

(** ** IPv4 ([ip.py]) *)

Definition PROTO_ICMP : Z := 1.
Definition PROTO_TCP : Z := 6.
Definition PROTO_UDP : Z := 17.

Record IPv4Packet := {
  ip_src : bytes;
  ip_dst : bytes;
  ip_proto : Z;
  ip_ttl : Z;
  ip_payload : bytes;
  ip_tos : Z;
  ip_flags : Z
}.

Definition ip_decode (raw : bytes) : result IPv4Packet :=
  if len raw <? 20 then Err ValueError else
  let? b0 := index raw 0 in
  let ihl := Z.land b0 0x0F * 4 in
  let? tos := index raw 1 in
  let? total_len := unpack_be 2 (slice raw 2 4) in
  let? flags_frag := unpack_be 2 (slice raw 6 8) in
  let? ttl := index raw 8 in
  let? proto := index raw 9 in
  Ok {| ip_src := slice raw 12 16; ip_dst := slice raw 16 20;
        ip_proto := proto; ip_ttl := ttl;
        ip_payload := slice raw ihl total_len;
        ip_tos := tos; ip_flags := flags_frag |}.

(** The state is the module-level counter [_ip_id]. *)
Definition ip_encode (p : IPv4Packet) : M Z bytes :=
  modify (fun ip_id => Z.land (ip_id + 1) 0xFFFF) ;;;
  let! ip_id := get in
  let! header := lift (pack_fields_be
    [FU 1 0x45; FU 1 (ip_tos p); FU 2 (20 + len (ip_payload p)); FU 2 ip_id;
     FU 2 (ip_flags p); FU 1 (ip_ttl p); FU 1 (ip_proto p); FU 2 0;
     FS 4 (ip_src p); FS 4 (ip_dst p)]) in
  let cksum := inet_cksum header in
  let! c := lift (pack_be 2 cksum) in
  ret (slice_to header 10 ++ c ++ slice_from header 12 ++ ip_payload p).

(** [ip_str], [ip_from_str] and [mac_str] *)
Definition dot_sep : Z := 46.

Definition ip_str (addr : bytes) : str := join [dot_sep] (map str_of_int addr).

(** [bytes(iterable)]: every element must be in [0, 256). *)
Definition bytes_of (l : list Z) : result bytes :=
  if forallb (fun b => (0 <=? b) && (b <? 256)) l then Ok l else Err ValueError.

Definition ip_from_str (s : str) : result bytes :=
  let? ns := rmap py_int (split dot_sep s) in bytes_of ns.

Definition hex_digit (d : Z) : Z := if d <? 10 then 48 + d else 87 + d.
Definition mac_str (mac : bytes) : str :=
  join [58] (map (fun b => [hex_digit (b / 16); hex_digit (b mod 16)]) mac).

(** ** TCP segments ([tcp.py]) *)

Definition F_FIN : Z := 0x01.
Definition F_SYN : Z := 0x02.
Definition F_RST : Z := 0x04.
Definition F_PSH : Z := 0x08.
Definition F_ACK : Z := 0x10.
Definition F_URG : Z := 0x20.

Record TCPSegment := {
  src_port : Z;
  dst_port : Z;
  seq_no : Z;
  ack_no : Z;
  flags : Z;
  window : Z;
  payload : bytes
}.

Definition tcp_decode (raw : bytes) : result (option TCPSegment) :=
  if len raw <? 20 then Ok None else
  let? src_p := unpack_be 2 (slice (slice raw 0 4) 0 2) in
  let? dst_p := unpack_be 2 (slice (slice raw 0 4) 2 4) in
  let? sq := unpack_be 4 (slice (slice raw 4 12) 0 4) in
  let? ak := unpack_be 4 (slice (slice raw 4 12) 4 8) in
  let? off_flags := unpack_be 2 (slice raw 12 14) in
  let fl := Z.land off_flags 0x1FF in
  let offset := Z.shiftr off_flags 12 * 4 in
  let? win := unpack_be 2 (slice raw 14 16) in
  Ok (Some {| src_port := src_p; dst_port := dst_p; seq_no := sq; ack_no := ak;
              flags := fl; window := win; payload := slice_from raw offset |}).

Definition tcp_pseudo (src_ip dst_ip : bytes) (seg : TCPSegment) : result bytes :=
  let? p := pack_fields_be [FU 1 0; FU 1 PROTO_TCP; FU 4 (20 + len (payload seg))] in
  Ok (src_ip ++ dst_ip ++ p).

Definition tcp_encode (seg : TCPSegment) (src_ip dst_ip : bytes) : result bytes :=
  let? pseudo := tcp_pseudo src_ip dst_ip seg in
  let? h := pack_fields_be
    [FU 2 (src_port seg); FU 2 (dst_port seg); FU 4 (seq_no seg); FU 4 (ack_no seg);
     FU 2 (Z.lor (Z.shiftl 5 12) (flags seg)); FU 2 (window seg);
     FU 2 0; FU 2 0; FU 2 0] in
  let header := slice_to h 20 in
  let cksum := inet_cksum (pseudo ++ header ++ payload seg) in
  let? c := pack_be 2 cksum in
  Ok (slice_to header 16 ++ c ++ slice_from header 18 ++ payload seg).

(** ** Well-formed values *)

Definition u8 (v : Z) : Prop := 0 <= v < 256.
Definition u16 (v : Z) : Prop := 0 <= v < 65536.
Definition u32 (v : Z) : Prop := 0 <= v < 4294967296.

Record ether_ok (f : EtherFrame) : Prop := {
  eok_dst : length (ef_dst f) = 6%nat;
  eok_src : length (ef_src f) = 6%nat;
  eok_type : u16 (ef_ethertype f)
}.

Record ip_ok (p : IPv4Packet) : Prop := {
  iok_src : length (ip_src p) = 4%nat;
  iok_dst : length (ip_dst p) = 4%nat;
  iok_proto : u8 (ip_proto p);
  iok_ttl : u8 (ip_ttl p);
  iok_tos : u8 (ip_tos p);
  iok_flags : u16 (ip_flags p);
  iok_len : 20 + len (ip_payload p) < 65536
}.

Record seg_ok (s : TCPSegment) : Prop := {
  sok_sport : u16 (src_port s);
  sok_dport : u16 (dst_port s);
  sok_seq : u32 (seq_no s);
  sok_ack : u32 (ack_no s);
  sok_flags : 0 <= flags s < 512;
  sok_win : u16 (window s);
  sok_len : 20 + len (payload s) < 65536
}.

(** ** The checksum *)

Lemma shiftr16 s : Z.shiftr s 16 = s / 65536.
Proof. by rewrite Z.shiftr_div_pow2 by lia. Qed.
Lemma land16 s : Z.land s 0xFFFF = s mod 65536.
Proof. change 0xFFFF with (Z.ones 16). by rewrite Z.land_ones by lia. Qed.

(** One carry fold keeps the sum modulo 65535 and its sign. *)
Lemma fold_step s :
  0 <= s -> let s' := Z.land s 0xFFFF + Z.shiftr s 16 in
  0 <= s' /\ (0 < s -> 0 < s') /\ s' mod 65535 = s mod 65535.
Proof.
  intros Hs. rewrite shiftr16, land16. cbv zeta.
  pose proof (Z.div_mod s 65536). pose proof (Z.mod_pos_bound s 65536).
  pose proof (Z.div_pos s 65536). split_and!; [lia|lia|].
  replace s with ((s mod 65536 + s / 65536) + (s / 65536) * 65535) at 3 by lia.
  by rewrite Z.mod_add by lia.
Qed.

Lemma fold_carry_mod fuel s :
  0 <= s -> 0 <= fold_carry fuel s /\ (0 < s -> 0 < fold_carry fuel s) /\
  fold_carry fuel s mod 65535 = s mod 65535.
Proof.
  revert s. induction fuel as [|fuel IH]; intros s Hs; cbn [fold_carry]; [done|].
  case_match; [done|]. destruct (fold_step s Hs) as (H1 & H2 & H3).
  destruct (IH _ H1) as (? & ? & ->). naive_solver.
Qed.

Lemma fold_carry_small s fuel : 0 <= s < 65536 -> fold_carry fuel s = s.
Proof.
  intros. destruct fuel; cbn [fold_carry]; [done|].
  by rewrite shiftr16, Z.div_small.
Qed.

(** Enough fuel for the loop to reach its exit test. *)
Lemma fold_carry_bound (n : nat) s :
  0 <= s < 65536 * 2 ^ Z.of_nat n -> fold_carry (n + 2) s < 65536.
Proof.
  revert s. induction n as [|n IH]; intros s Hs.
  - rewrite fold_carry_small by lia. lia.
  - change (S n + 2)%nat with (S (n + 2)). cbn [fold_carry]. rewrite shiftr16, land16.
    destruct (Z.eqb_spec (s / 65536) 0) as [E|E].
    { pose proof (Z.div_mod s 65536). pose proof (Z.mod_pos_bound s 65536). lia. }
    rewrite Nat2Z.inj_succ, Z.pow_succ_r in Hs by lia.
    pose proof (Z.mod_pos_bound s 65536). assert (0 <= s / 65536) by (apply Z.div_pos; lia).
    assert (s / 65536 < 2 * 2 ^ Z.of_nat n) by (apply Z.div_lt_upper_bound; lia).
    destruct n as [|n].
    + change (2 * 2 ^ Z.of_nat 0) with 2 in *.
      assert (s mod 65536 + s / 65536 <= 65536) as Hle by lia.
      destruct (decide (s mod 65536 + s / 65536 = 65536)) as [->|Hne]; [vm_compute; done|].
      rewrite fold_carry_small; lia.
    + apply IH. rewrite Nat2Z.inj_succ, Z.pow_succ_r in * by lia.
      pose proof (Z.pow_pos_nonneg 2 (Z.of_nat n)). lia.
Qed.

Lemma fold_carry_done s : 0 <= s -> 0 <= fold_carry (carry_fuel s) s < 65536.
Proof.
  intros Hs. split; [by apply fold_carry_mod|]. unfold carry_fuel.
  replace (Z.to_nat (Z.log2 s) + 3)%nat with (S (Z.to_nat (Z.log2 s)) + 2)%nat by lia.
  apply fold_carry_bound. split; [done|].
  rewrite Nat2Z.inj_succ, Z2Nat.id by apply Z.log2_nonneg.
  destruct (decide (s = 0)) as [->|]; [done|].
  destruct (Z.log2_spec s) as [_ Hlt]; [lia|]. revert Hlt. generalize (2 ^ Z.succ (Z.log2 s)). lia.
Qed.

Lemma sumZ_app l1 l2 : sumZ (l1 ++ l2) = sumZ l1 + sumZ l2.
Proof. induction l1; simpl; lia. Qed.

Lemma words16_app (l1 l2 : bytes) :
  len l1 mod 2 = 0 -> words16 (l1 ++ l2) = words16 l1 ++ words16 l2.
Proof.
  assert (forall n (l1 : bytes), (length l1 <= n)%nat -> len l1 mod 2 = 0 ->
    words16 (l1 ++ l2) = words16 l1 ++ words16 l2) as H; [|by eapply H].
  induction n as [|n IH]; intros [|a [|b l]]; simpl; try done; try lia.
  intros Hn Hm. f_equal. apply IH; [lia|]. rewrite !len_cons in Hm.
  replace (1 + (1 + len l)) with (len l + 1 * 2) in Hm by lia. by rewrite Z.mod_add in Hm by lia.
Qed.

Lemma sum_words_nonneg l : bytes_ok l -> 0 <= sumZ (words16 l).
Proof.
  assert (forall n l, (length l <= n)%nat -> bytes_ok l -> 0 <= sumZ (words16 l)) as H;
    [|intros; by eapply H].
  induction n as [|n IH]; intros [|a [|b l']]; simpl; try lia.
  intros Hn Hok. inversion_clear Hok as [|? ? Ha Hok']. inversion_clear Hok' as [|? ? Hb Hl].
  assert (0 <= sumZ (words16 l')) by (apply IH; [lia|done]). unfold byte_ok in *. lia.
Qed.

(** The padded buffer and its ones'-complement sum. *)
Definition padded (data : bytes) : bytes :=
  if len data mod 2 =? 0 then data else data ++ [0].

Lemma inet_cksum_alt data :
  bytes_ok data ->
  exists f, 0 <= f < 65536 /\ inet_cksum data = 65535 - f /\
    (0 < sumZ (words16 (padded data)) -> 0 < f) /\
    f mod 65535 = sumZ (words16 (padded data)) mod 65535.
Proof.
  intros Hok. unfold inet_cksum. fold (padded data).
  assert (bytes_ok (padded data)) as Hok'.
  { unfold padded. case_match; [done|]. apply bytes_ok_app. split; [done|].
    repeat constructor. done. }
  pose proof (sum_words_nonneg _ Hok') as Hs. set (s := sumZ _) in *.
  exists (fold_carry (carry_fuel s) s). pose proof (fold_carry_done s Hs) as Hb.
  destruct (fold_carry_mod (carry_fuel s) s Hs) as (_ & Hpos & Hmod).
  split_and!; [lia|lia| |done|done].
  rewrite land16. unfold Z.lnot.
  replace (Z.pred (- fold_carry (carry_fuel s) s))
    with ((65535 - fold_carry (carry_fuel s) s) + (-1) * 65536) by lia.
  rewrite Z.mod_add by lia. apply Z.mod_small. lia.
Qed.

Lemma inet_cksum_u16 data : bytes_ok data -> u16 (inet_cksum data).
Proof. intros (f & ? & -> & _)%inet_cksum_alt. unfold u16. lia. Qed.

(** The check a receiver makes: with the checksum in the zeroed word, the whole
    buffer's checksum is zero. *)
Lemma cksum_verifies (d1 d2 : bytes) :
  bytes_ok d1 -> bytes_ok d2 -> len d1 mod 2 = 0 ->
  0 < sumZ (words16 (padded (d1 ++ [0; 0] ++ d2))) ->
  inet_cksum (d1 ++ be_bytes 2 (inet_cksum (d1 ++ [0; 0] ++ d2)) ++ d2) = 0.
Proof.
  intros H1 H2 Hev Hpos.
  assert (bytes_ok (d1 ++ [0; 0] ++ d2)) as Hok0.
  { rewrite !bytes_ok_app. split_and!; auto. repeat constructor; done. }
  destruct (inet_cksum_alt _ Hok0) as (f & Hf & HC & Hfpos & Hfmod).
  pose proof (inet_cksum_u16 _ Hok0) as Hu. set (C := inet_cksum (d1 ++ [0; 0] ++ d2)) in *.
  assert (bytes_ok (d1 ++ be_bytes 2 C ++ d2)) as Hok1.
  { rewrite !bytes_ok_app. split_and!; auto using be_bytes_ok. }
  destruct (inet_cksum_alt _ Hok1) as (g & Hg & HD & Hgpos & Hgmod). rewrite HD.
  assert (sumZ (words16 (padded (d1 ++ be_bytes 2 C ++ d2)))
          = sumZ (words16 (padded (d1 ++ [0; 0] ++ d2))) + C) as Hsum.
  { assert (forall w : bytes, length w = 2%nat -> sumZ (words16 (padded (d1 ++ w ++ d2)))
      = sumZ (words16 d1) + sumZ (words16 w) + sumZ (words16 (padded d2))) as Hw.
    { intros w Hw. assert (padded (d1 ++ w ++ d2) = d1 ++ w ++ padded d2) as ->.
      { unfold padded. rewrite !len_app. replace (len w) with (1 * 2) by (unfold len; lia).
        rewrite <- Z.add_mod_idemp_l, Hev by lia. rewrite Z.add_0_l, (Z.add_comm (1 * 2)), Z.mod_add by lia.
        case_match; by rewrite ?(assoc_L (++)). }
      rewrite !words16_app, !sumZ_app; [lia| |done].
      by replace (len w) with 2 by (unfold len; lia). }
    rewrite !Hw by (done || apply length_be_bytes).
    assert (sumZ (words16 (be_bytes 2 C)) = C) as ->; [|simpl; lia].
    cbn -[Z.mul Z.div Z.modulo]. pose proof (Z.div_mod C 256). unfold u16 in Hu.
    rewrite (Z.mod_small (C / 256)); [lia|].
    split; [apply Z.div_pos; lia|apply Z.div_lt_upper_bound; lia]. }
  rewrite Hsum in Hgmod, Hgpos.
  rewrite HC in Hgmod. rewrite <- Z.add_mod_idemp_l, <- Hfmod, Z.add_mod_idemp_l in Hgmod by lia.
  replace (f + (65535 - f)) with 65535 in Hgmod by lia. change (65535 mod 65535) with 0 in Hgmod.
  assert (0 < g) by (apply Hgpos; lia).
  apply Z.mod_divide in Hgmod as [k Hk]; [|lia]. lia.
Qed.

(** ** Codec lemmas *)

(** A byte string of known length, as the list of its bytes. *)
Ltac explode l H :=
  repeat (let a := fresh "b" in destruct l as [|a l]; [discriminate H|]; injection H as H);
  destruct l; [clear H|discriminate H].

Lemma ether_decode_encode f :
  ether_ok f -> exists raw, ether_encode f = Ok raw /\ ether_decode raw = Ok f.
Proof.
  intros [Hd Hs Ht]. destruct f as [dst src ty pl]. simpl in *.
  exists ((dst ++ src ++ be_bytes 2 ty) ++ pl). unfold ether_encode. simpl.
  rewrite pack_be_Ok by done. split; [by rewrite <- !(assoc_L (++))|].
  unfold ether_decode. assert (len (dst ++ src ++ be_bytes 2 ty) = 14) as Hl.
  { autorewrite with len. unfold len. lia. }
  pose proof (len_nonneg pl). set (h := dst ++ _) in *. rewrite len_app, Hl.
  destruct (Z.ltb_spec (14 + len pl) 14); [lia|]. rewrite !slice_app_l by lia.
  replace (slice h 12 14) with (be_bytes 2 ty);
    [|explode dst Hd; explode src Hs; reflexivity].
  rewrite unpack_be_Ok by done. simpl. do 2 f_equal.
  - explode dst Hd; explode src Hs; reflexivity.
  - explode dst Hd; explode src Hs; reflexivity.
  - rewrite <- Hl. apply slice_from_app.
Qed.

Lemma ether_encode_decode raw f :
  bytes_ok raw -> ether_decode raw = Ok f -> ether_encode f = Ok raw.
Proof.
  intros Hok H. unfold ether_decode in H.
  destruct (Z.ltb_spec (len raw) 14) as [|Hge]; [done|]. inv_binds. simplify_eq.
  unfold unpack_be in *. case_match eqn:E; simplify_eq. apply Nat.eqb_eq in E.
  assert (bytes_ok (slice raw 12 14)) as Hok' by auto with py.
  pose proof (be_val_bounds _ Hok') as Hb. rewrite len_slice in Hb by lia.
  unfold ether_encode. cbn [ef_ethertype ef_dst ef_src ef_payload].
  rewrite pack_be_Ok by done. cbn [rbind]. rewrite <- E, be_bytes_be_val by done. unfold slice_from.
  rewrite !slice_inside by lia. f_equal.
  change (Z.to_nat 0) with 0%nat. rewrite drop_0.
  rewrite (take_ge (drop (Z.to_nat 14) raw)) by (rewrite length_drop; unfold len in *; lia).
  change (Z.to_nat (6 - 0)) with 6%nat. change (Z.to_nat (12 - 6)) with 6%nat.
  change (Z.to_nat (14 - 12)) with 2%nat. change (Z.to_nat 6) with 6%nat.
  change (Z.to_nat 12) with (6 + 6)%nat. change (Z.to_nat 14) with (6 + 6 + 2)%nat.
  rewrite <- !drop_drop. by rewrite !take_drop.
Qed.

(** The 20 header bytes [ip_encode] writes, with [c] in the checksum field. *)
Definition ip_header (p : IPv4Packet) (ip_id c : Z) : bytes :=
  concat (map field_bytes
    [FU 1 0x45; FU 1 (ip_tos p); FU 2 (20 + len (ip_payload p)); FU 2 ip_id;
     FU 2 (ip_flags p); FU 1 (ip_ttl p); FU 1 (ip_proto p); FU 2 c;
     FS 4 (ip_src p); FS 4 (ip_dst p)]).

Lemma len_ip_header p ip_id c : ip_ok p -> len (ip_header p ip_id c) = 20.
Proof.
  intros [Hs Hd _ _ _ _ _]. unfold ip_header. simpl map. unfold concat.
  autorewrite with len. unfold len. lia.
Qed.

Lemma ip_header_bytes_ok p ip_id c :
  bytes_ok (ip_src p) -> bytes_ok (ip_dst p) -> bytes_ok (ip_header p ip_id c).
Proof.
  intros. unfold ip_header. simpl map. unfold concat. rewrite !bytes_ok_app.
  split_and!; auto using be_bytes_ok. constructor.
Qed.

Lemma ip_encode_eq p ip_id :
  ip_ok p -> bytes_ok (ip_src p) -> bytes_ok (ip_dst p) -> 0 <= ip_id ->
  let id' := Z.land (ip_id + 1) 0xFFFF in
  ip_encode p ip_id =
    (Ok (ip_header p id' (inet_cksum (ip_header p id' 0)) ++ ip_payload p), id').
Proof.
  intros Hok Hs Hd Hid id'. assert (0 <= id' < 65536) as Hid'
    by (unfold id'; rewrite land16; apply Z.mod_pos_bound; lia).
  pose proof (ip_header_bytes_ok p id' 0 Hs Hd) as Hb. pose proof (inet_cksum_u16 _ Hb) as Hu.
  destruct Hok as [H1 H2 H3 H4 H5 H6 H7]. pose proof (len_nonneg (ip_payload p)) as Hp.
  unfold ip_encode, bind, modify, get, lift. fold id'.
  rewrite pack_fields_be_Ok; [|repeat (constructor; [simpl; unfold u8, u16 in *; lia || done|]); constructor].
  fold (ip_header p id' 0). rewrite pack_be_Ok by done. unfold ret. do 2 f_equal.
  generalize (inet_cksum (ip_header p id' 0)). intros C. unfold ip_header.
  destruct p as [src dst pr ttl pl tos fl]. simpl in *.
  explode src H1; explode dst H2; reflexivity.
Qed.

Lemma ip_decode_header p ip_id c pad :
  ip_ok p -> ip_decode (ip_header p ip_id c ++ ip_payload p ++ pad) = Ok p.
Proof.
  intros Hok. pose proof (len_ip_header p ip_id c Hok) as Hl.
  pose proof (len_nonneg (ip_payload p)) as Hp. pose proof (len_nonneg pad) as Hq.
  destruct Hok as [H1 H2 H3 H4 H5 H6 H7]. unfold ip_decode.
  set (h := ip_header p ip_id c) in *. rewrite len_app, Hl.
  destruct (Z.ltb_spec (20 + len (ip_payload p ++ pad)) 20).
  { pose proof (len_nonneg (ip_payload p ++ pad)). lia. }
  rewrite !index_app_l by lia. rewrite !(slice_app_l h _) by lia.
  destruct p as [src dst pr ttl pl tos fl].
  cbn [ip_src ip_dst ip_proto ip_ttl ip_payload ip_tos ip_flags] in *.
  explode src H1; explode dst H2.
  assert (index h 0 = Ok 69) as -> by reflexivity.
  assert (index h 1 = Ok (tos mod 256)) as -> by reflexivity.
  assert (slice h 2 4 = be_bytes 2 (20 + len pl)) as -> by reflexivity.
  assert (slice h 6 8 = be_bytes 2 fl) as -> by reflexivity.
  assert (index h 8 = Ok (ttl mod 256)) as -> by reflexivity.
  assert (index h 9 = Ok (pr mod 256)) as -> by reflexivity.
  assert (slice h 12 16 = [b; b0; b1; b2]) as -> by reflexivity.
  assert (slice h 16 20 = [b3; b4; b5; b6]) as -> by reflexivity.
  clearbody h. rewrite !unpack_be_Ok by (unfold u16 in *; simpl; lia).
  unfold rbind, u8 in *. rewrite !Z.mod_small by lia.
  change (Z.land 69 0x0F * 4) with 20. do 2 f_equal.
  rewrite slice_app_r by (rewrite ?len_app; lia). rewrite Hl, Z.sub_diag.
  replace (20 + len pl - 20) with (len pl) by lia.
  rewrite slice_app_l by lia. apply slice_full.
Qed.

(** TCP: the header with [c] in the checksum field. *)
Definition tcp_header (s : TCPSegment) (c : Z) : bytes :=
  concat (map field_bytes
    [FU 2 (src_port s); FU 2 (dst_port s); FU 4 (seq_no s); FU 4 (ack_no s);
     FU 2 (Z.lor (Z.shiftl 5 12) (flags s)); FU 2 (window s); FU 2 c; FU 2 0]).

Lemma len_tcp_header s c : len (tcp_header s c) = 20.
Proof. unfold tcp_header. simpl map. unfold concat. by autorewrite with len. Qed.

Lemma tcp_header_bytes_ok s c : bytes_ok (tcp_header s c).
Proof.
  unfold tcp_header. simpl map. unfold concat. rewrite !bytes_ok_app.
  split_and!; auto using be_bytes_ok. constructor.
Qed.

Lemma off_flags_val f : 0 <= f < 512 -> Z.lor (Z.shiftl 5 12) f = 20480 + f.
Proof.
  intros. rewrite <- Z.lxor_lor; [rewrite <- Z.add_nocarry_lxor; [done|]|];
    (change (Z.shiftl 5 12) with (Z.shiftl 40 9); rewrite <- (Z.mod_small f (2 ^ 9)) by lia;
     rewrite <- Z.land_ones by lia; apply Z.bits_inj'; intros n Hn;
     rewrite !Z.land_spec, Z.testbit_0_l;
     destruct (Z.lt_ge_cases n 9);
     [by rewrite Z.shiftl_spec_low|rewrite Z.ones_spec_high by lia; by rewrite !andb_false_r]).
Qed.

(** The pseudo header the code sums has a 32-bit length; RFC 793's has a zero
    byte, the protocol and a 16-bit length. *)
Definition rfc_pseudo (src_ip dst_ip : bytes) (tcp_len : Z) : bytes :=
  src_ip ++ dst_ip ++ [0; PROTO_TCP] ++ be_bytes 2 tcp_len.

Definition code_pseudo (src_ip dst_ip : bytes) (s : TCPSegment) : bytes :=
  src_ip ++ dst_ip ++ [0; PROTO_TCP] ++ be_bytes 4 (20 + len (payload s)).

Lemma tcp_encode_eq s src_ip dst_ip :
  seg_ok s -> bytes_ok src_ip -> bytes_ok dst_ip -> bytes_ok (payload s) ->
  tcp_encode s src_ip dst_ip =
    Ok (tcp_header s (inet_cksum (code_pseudo src_ip dst_ip s ++ tcp_header s 0 ++ payload s))
        ++ payload s).
Proof.
  intros [H1 H2 H3 H4 H5 H6 H7] Hs Hd Hp. pose proof (len_nonneg (payload s)).
  unfold u16, u32 in *. unfold tcp_encode, tcp_pseudo.
  rewrite pack_fields_be_Ok
    by (repeat (constructor; [simpl; unfold PROTO_TCP; lia|]); constructor).
  cbn [rbind]. pose proof (off_flags_val _ H5) as Ho.
  rewrite pack_fields_be_Ok
    by (repeat (constructor; [cbn [field_ok]; rewrite ?Ho; simpl; lia|]); constructor).
  cbn [rbind].
  change (slice_to (concat (map field_bytes [FU 2 (src_port s); FU 2 (dst_port s); FU 4 (seq_no s);
     FU 4 (ack_no s); FU 2 (Z.lor (Z.shiftl 5 12) (flags s)); FU 2 (window s);
     FU 2 0; FU 2 0; FU 2 0])) 20) with (tcp_header s 0).
  change (src_ip ++ dst_ip ++ concat (map field_bytes [FU 1 0; FU 1 PROTO_TCP;
     FU 4 (20 + len (payload s))])) with (code_pseudo src_ip dst_ip s).
  rewrite pack_be_Ok.
  - reflexivity.
  - apply inet_cksum_u16. unfold code_pseudo. rewrite !bytes_ok_app.
    split_and!; auto using be_bytes_ok, tcp_header_bytes_ok. repeat constructor; done.
Qed.

Lemma tcp_decode_header s c :
  seg_ok s -> tcp_decode (tcp_header s c ++ payload s) = Ok (Some s).
Proof.
  intros [H1 H2 H3 H4 H5 H6 H7]. unfold u16, u32 in *.
  pose proof (len_tcp_header s c) as Hl. pose proof (len_nonneg (payload s)).
  unfold tcp_decode. set (h := tcp_header s c) in *. rewrite len_app, Hl.
  destruct (Z.ltb_spec (20 + len (payload s)) 20); [lia|].
  rewrite !(slice_app_l h _) by lia.
  change (slice (slice h 0 4) 0 2) with (be_bytes 2 (src_port s)).
  change (slice (slice h 0 4) 2 4) with (be_bytes 2 (dst_port s)).
  change (slice (slice h 4 12) 0 4) with (be_bytes 4 (seq_no s)).
  change (slice (slice h 4 12) 4 8) with (be_bytes 4 (ack_no s)).
  change (slice h 12 14) with (be_bytes 2 (Z.lor (Z.shiftl 5 12) (flags s))).
  change (slice h 14 16) with (be_bytes 2 (window s)).
  rewrite off_flags_val by done. rewrite !unpack_be_Ok by (simpl; lia). cbn [rbind].
  replace (Z.shiftr (20480 + flags s) 12 * 4) with (len h).
  2:{ rewrite Hl, Z.shiftr_div_pow2 by lia. change (2 ^ 12) with 4096.
      replace (20480 + flags s) with (flags s + 5 * 4096) by lia.
      by rewrite Z.div_add, Z.div_small by lia. }
  rewrite slice_from_app. change 0x1FF with (Z.ones 9). rewrite Z.land_ones by lia.
  replace (20480 + flags s) with (flags s + 40 * 2 ^ 9) by lia.
  rewrite Z.mod_add, Z.mod_small by lia. by destruct s.
Qed.

(** The checksum only depends on the sum of the padded buffer. *)
Lemma inet_cksum_ext d1 d2 :
  sumZ (words16 (padded d1)) = sumZ (words16 (padded d2)) -> inet_cksum d1 = inet_cksum d2.
Proof. unfold inet_cksum, padded. by intros ->. Qed.

Lemma padded_app_even (d1 d2 : bytes) :
  len d1 mod 2 = 0 -> padded (d1 ++ d2) = d1 ++ padded d2.
Proof.
  intros H. unfold padded. rewrite len_app, <- Z.add_mod_idemp_l, H, Z.add_0_l by lia.
  case_match; by rewrite ?(assoc_L (++)).
Qed.

Lemma sum_padded_app (d1 d2 : bytes) :
  len d1 mod 2 = 0 ->
  sumZ (words16 (padded (d1 ++ d2))) = sumZ (words16 d1) + sumZ (words16 (padded d2)).
Proof. intros H. by rewrite padded_app_even, words16_app, sumZ_app. Qed.

Lemma sum_code_pseudo src_ip dst_ip s :
  length src_ip = 4%nat -> length dst_ip = 4%nat -> 20 + len (payload s) < 65536 ->
  sumZ (words16 (code_pseudo src_ip dst_ip s))
  = sumZ (words16 (rfc_pseudo src_ip dst_ip (20 + len (payload s)))).
Proof.
  intros Hs Hd Hl. pose proof (len_nonneg (payload s)). set (L := 20 + len (payload s)) in *.
  unfold code_pseudo, rfc_pseudo. fold L. explode src_ip Hs. explode dst_ip Hd.
  cbn -[Z.add Z.mul Z.div Z.modulo]. rewrite !Z.div_div by lia.
  rewrite (Z.div_small L (256 * 256)), (Z.div_small L (256 * (256 * 256))) by lia.
  change (0 mod 256) with 0. lia.
Qed.

Lemma sum_padded_nonneg d : bytes_ok d -> 0 <= sumZ (words16 (padded d)).
Proof.
  intros. apply sum_words_nonneg. unfold padded. case_match; [done|].
  apply bytes_ok_app; split; [done|repeat constructor; done].
Qed.

(** What the TCP encoder's checksum gives a receiver that follows RFC 793. *)
Lemma tcp_cksum_verifies s src_ip dst_ip :
  seg_ok s -> bytes_ok src_ip -> bytes_ok dst_ip -> bytes_ok (payload s) ->
  length src_ip = 4%nat -> length dst_ip = 4%nat ->
  inet_cksum (rfc_pseudo src_ip dst_ip (20 + len (payload s)) ++
    tcp_header s (inet_cksum (code_pseudo src_ip dst_ip s ++ tcp_header s 0 ++ payload s))
    ++ payload s) = 0.
Proof.
  intros Hok Hs Hd Hp Ls Ld. assert (len (code_pseudo src_ip dst_ip s) = 14) as Lc.
  { unfold code_pseudo. autorewrite with len. unfold len. lia. }
  assert (len (rfc_pseudo src_ip dst_ip (20 + len (payload s))) = 12) as Lr.
  { unfold rfc_pseudo. autorewrite with len. unfold len. lia. }
  assert (bytes_ok (code_pseudo src_ip dst_ip s)) as Hc.
  { unfold code_pseudo. rewrite !bytes_ok_app. split_and!; auto using be_bytes_ok.
    repeat constructor; done. }
  set (C := inet_cksum (code_pseudo src_ip dst_ip s ++ _)).
  set (h1 := concat (map field_bytes [FU 2 (src_port s); FU 2 (dst_port s); FU 4 (seq_no s);
    FU 4 (ack_no s); FU 2 (Z.lor (Z.shiftl 5 12) (flags s)); FU 2 (window s)])).
  assert (forall c, code_pseudo src_ip dst_ip s ++ tcp_header s c ++ payload s =
    (code_pseudo src_ip dst_ip s ++ h1) ++ be_bytes 2 c ++ [0; 0] ++ payload s) as Hsplit.
  { intros c. rewrite <- (assoc_L (++)). f_equal. }
  rewrite (inet_cksum_ext _ (code_pseudo src_ip dst_ip s ++ tcp_header s C ++ payload s)).
  2:{ rewrite !sum_padded_app by (by rewrite ?Lc, ?Lr). rewrite sum_code_pseudo; [done..|apply Hok]. }
  rewrite Hsplit. subst C. rewrite Hsplit. apply (cksum_verifies _ ([0; 0] ++ payload s)).
  - rewrite bytes_ok_app. split; [done|]. unfold h1. simpl map. unfold concat.
    rewrite !bytes_ok_app. split_and!; auto using be_bytes_ok. constructor.
  - rewrite bytes_ok_app. split; [repeat constructor; done|done].
  - rewrite len_app, Lc. by unfold h1; simpl map; unfold concat; autorewrite with len.
  - rewrite <- (assoc_L (++)), sum_padded_app by (by rewrite Lc).
    assert (0 < sumZ (words16 (code_pseudo src_ip dst_ip s))).
    { unfold code_pseudo. rewrite (assoc_L (++)), words16_app, sumZ_app
        by (rewrite len_app; unfold len; by rewrite Ls, Ld).
      assert (0 <= sumZ (words16 (src_ip ++ dst_ip))) by
        (apply sum_words_nonneg, bytes_ok_app; done).
      assert (0 <= sumZ (words16 (be_bytes 4 (20 + len (payload s)))))
        by apply sum_words_nonneg, be_bytes_ok.
      cbn [app words16 sumZ fold_right]. unfold PROTO_TCP. fold (sumZ (words16 (be_bytes 4 (20 + len (payload s))))). lia. }
    match goal with |- 0 < _ + sumZ (words16 (padded ?d)) =>
      assert (0 <= sumZ (words16 (padded d))); [|lia] end.
    apply sum_padded_nonneg. rewrite !bytes_ok_app. unfold h1. simpl map. unfold concat.
    rewrite !bytes_ok_app. split_and!; auto using be_bytes_ok; repeat constructor; done.
Qed.

Lemma ip_cksum_verifies p ip_id :
  ip_ok p -> bytes_ok (ip_src p) -> bytes_ok (ip_dst p) ->
  inet_cksum (ip_header p ip_id (inet_cksum (ip_header p ip_id 0))) = 0.
Proof.
  intros Hok Hs Hd.
  set (h1 := concat (map field_bytes [FU 1 0x45; FU 1 (ip_tos p); FU 2 (20 + len (ip_payload p));
    FU 2 ip_id; FU 2 (ip_flags p); FU 1 (ip_ttl p); FU 1 (ip_proto p)])).
  assert (bytes_ok h1) as Hh1.
  { unfold h1. simpl map. unfold concat. rewrite !bytes_ok_app.
    split_and!; auto using be_bytes_ok. constructor. }
  assert (forall c, ip_header p ip_id c = h1 ++ be_bytes 2 c ++ (ip_src p ++ ip_dst p)) as Hsplit.
  { intros c. unfold ip_header, h1. simpl map. unfold concat. by rewrite app_nil_r. }
  assert (len h1 mod 2 = 0) as Hl by
    (unfold h1; simpl map; unfold concat; by autorewrite with len).
  rewrite (Hsplit (inet_cksum _)), (Hsplit 0).
  apply (cksum_verifies h1 (ip_src p ++ ip_dst p)); auto.
  - by apply bytes_ok_app.
  - rewrite sum_padded_app by done.
    assert (0 <= sumZ (words16 (padded ([0; 0] ++ ip_src p ++ ip_dst p)))).
    { apply sum_padded_nonneg. rewrite !bytes_ok_app. split_and!; auto. repeat constructor; done. }
    assert (0 < sumZ (words16 h1)); [|lia].
    unfold h1. cbn -[Z.mul Z.add Z.div Z.modulo].
    pose proof (Z.mod_pos_bound (ip_tos p) 256). change (69 mod 256) with 69.
    repeat match goal with |- context [?a mod 256] =>
      lazymatch goal with H : 0 <= a mod 256 < 256 |- _ => fail
      | _ => pose proof (Z.mod_pos_bound a 256 ltac:(lia)) end end. lia.
Qed.

(** ** Addresses as text *)

Lemma str_of_nat_no_dot n : 0 <= n -> no_char dot_sep (str_of_nat n).
Proof.
  intros Hn Hin. destruct (dec_digits_spec (S (Z.to_nat (Z.log2 n))) n 0) as (HF & _);
    [done|by apply str_of_nat_fuel|lia|].
  rewrite list.Forall_forall in HF. by specialize (HF _ Hin).
Qed.

Lemma ip_from_str_ip_str addr :
  bytes_ok addr -> addr <> [] -> ip_from_str (ip_str addr) = Ok addr.
Proof.
  intros Hok Hne. assert (Forall (no_char dot_sep) (map str_of_int addr)) as Hnd.
  { apply Forall_map. eapply list.Forall_impl; [exact Hok|]. intros b [Hb _]. unfold str_of_int. simpl.
    destruct (Z.ltb_spec b 0); [lia|by apply str_of_nat_no_dot]. }
  unfold ip_from_str, ip_str. rewrite split_join; [|by destruct addr|done].
  assert (rmap py_int (map str_of_int addr) = Ok addr) as ->.
  { clear Hne Hnd. induction Hok as [|b l [Hb _] Hl IH]; cbn [map rmap]; [done|].
    rewrite IH. unfold str_of_int. destruct (Z.ltb_spec b 0); [lia|].
    by rewrite py_int_str_of_nat. }
  cbn [rbind]. unfold bytes_of. rewrite (proj2 (forallb_forall _ addr)); [done|].
  intros b Hb%list_elem_of_In. unfold bytes_ok in Hok. rewrite list.Forall_forall in Hok. specialize (Hok b Hb).
  unfold byte_ok in Hok. rewrite andb_true_iff, Z.leb_le, Z.ltb_lt. lia.
Qed.

(** ** Main properties *)

(** Ethernet framing is a bijection: an encoded frame decodes to itself,
    a decoded buffer re-encodes to the same bytes, and a buffer is rejected
    (with [ValueError]) exactly when it is shorter than a header. *)
Theorem ether_codec f raw :
  ether_ok f -> bytes_ok raw ->
  (exists enc, ether_encode f = Ok enc /\ ether_decode enc = Ok f) /\
  (if len raw <? 14 then ether_decode raw = Err ValueError
   else exists g, ether_decode raw = Ok g /\ ether_encode g = Ok raw).
Proof.
  intros Hf Hraw. split; [by apply ether_decode_encode|].
  destruct (Z.ltb_spec (len raw) 14) as [Hlt|Hge].
  - unfold ether_decode. by rewrite (proj2 (Z.ltb_lt _ _) Hlt).
  - assert (exists g, ether_decode raw = Ok g) as [g Hg].
    { unfold ether_decode. rewrite (proj2 (Z.ltb_ge _ _) Hge). unfold unpack_be.
      pose proof (len_slice raw 12 14) as Hl. unfold len in Hl, Hge.
      rewrite (proj2 (Nat.eqb_eq (length (slice raw 12 14)) 2)); [simpl; eauto|].
      lia. }
    exists g. split; [done|by apply ether_encode_decode].
Qed.

Lemma ether_codec_witness :
  exists g, ether_decode (BROADCAST_MAC ++ ZERO_MAC ++ [8; 6; 1; 2; 3]) = Ok g.
Proof.
  destruct (ether_codec {| ef_dst := BROADCAST_MAC; ef_src := ZERO_MAC;
    ef_ethertype := ETHERTYPE_ARP; ef_payload := [1; 2; 3] |}
    (BROADCAST_MAC ++ ZERO_MAC ++ [8; 6; 1; 2; 3])) as [_ H].
  - constructor; vm_compute; (reflexivity || (split; [discriminate|reflexivity])).
  - repeat (constructor; [unfold byte_ok; lia|]). constructor.
  - destruct H as (g & Hg & _). exists g. exact Hg.
Defined.

(** IPv4: whatever the packet counter, a packet whose fields fit their
    header fields encodes; the encoding decodes back to the packet even with
    link-layer padding behind it; and its header checksum verifies. *)
Theorem ip_codec p ip_id pad :
  ip_ok p -> bytes_ok (ip_src p) -> bytes_ok (ip_dst p) -> 0 <= ip_id ->
  exists raw, ip_encode p ip_id = (Ok raw, Z.land (ip_id + 1) 0xFFFF) /\
    ip_decode (raw ++ pad) = Ok p /\ inet_cksum (slice_to raw 20) = 0.
Proof.
  intros Hok Hs Hd Hid. pose proof (ip_encode_eq p ip_id Hok Hs Hd Hid) as He. cbv zeta in He.
  set (id' := Z.land _ _) in *. eexists. split; [exact He|]. split.
  - rewrite <- (assoc_L (++)). by apply ip_decode_header.
  - rewrite <- (len_ip_header p id' (inet_cksum (ip_header p id' 0)) Hok).
    rewrite slice_to_app. by apply ip_cksum_verifies.
Qed.

Definition witness_packet : IPv4Packet :=
  {| ip_src := [10; 0; 2; 15]; ip_dst := [10; 0; 2; 2]; ip_proto := PROTO_TCP; ip_ttl := 64;
     ip_payload := [1; 2; 3]; ip_tos := 0; ip_flags := 0x4000 |}.

Lemma ip_codec_witness :
  exists raw, ip_decode (raw ++ [0; 0; 0]) = Ok witness_packet.
Proof.
  destruct (ip_codec witness_packet 7 [0; 0; 0]) as (raw & _ & H & _).
  - constructor; vm_compute; (reflexivity || (split; [discriminate|reflexivity])).
  - repeat (constructor; [unfold byte_ok; lia|]). constructor.
  - repeat (constructor; [unfold byte_ok; lia|]). constructor.
  - lia.
  - exists raw. exact H.
Defined.

(** C7: TCP: a segment whose fields fit encodes, the encoding decodes back to
    the segment, and the checksum the encoder writes verifies under RFC 793's
    pseudo header although the code sums a pseudo header with a 32-bit length. *)
Theorem tcp_codec s src_ip dst_ip :
  seg_ok s -> bytes_ok src_ip -> bytes_ok dst_ip -> bytes_ok (payload s) ->
  length src_ip = 4%nat -> length dst_ip = 4%nat ->
  exists raw, tcp_encode s src_ip dst_ip = Ok raw /\ tcp_decode raw = Ok (Some s) /\
    len raw = 20 + len (payload s) /\
    inet_cksum (rfc_pseudo src_ip dst_ip (len raw) ++ raw) = 0.
Proof.
  intros Hok Hs Hd Hp Ls Ld. eexists. split; [by apply tcp_encode_eq|].
  split; [by apply tcp_decode_header|].
  assert (forall c, len (tcp_header s c ++ payload s) = 20 + len (payload s)) as Hl
    by (intros c; by rewrite len_app, len_tcp_header).
  rewrite Hl. split; [done|]. by apply tcp_cksum_verifies.
Qed.

Definition witness_segment : TCPSegment :=
  {| src_port := 5000; dst_port := 49152; seq_no := 4294967295; ack_no := 17;
     flags := 0x12; window := 65535; payload := [104; 105; 33] |}.

Lemma tcp_codec_witness :
  exists raw, tcp_encode witness_segment [10; 0; 2; 15] [10; 0; 2; 2] = Ok raw /\
    tcp_decode raw = Ok (Some witness_segment).
Proof.
  destruct (tcp_codec witness_segment [10; 0; 2; 15] [10; 0; 2; 2])
    as (raw & H1 & H2 & _);
    [constructor; vm_compute; (reflexivity || (split; [discriminate|reflexivity]))
    |repeat (constructor; [unfold byte_ok; lia|]); constructor..
    |reflexivity|reflexivity|].
  exists raw. exact (conj H1 H2).
Defined.
