(* ===== verification/Net.v ===== *)
(** * The network stack ([kernel/net/arp.py], [tcp.py], [stack.py])

    The state of the three modules is one record [world]: the interface
    configuration of [stack.py], the ARP table and its pending futures, and the
    connection table, listeners and port counter of [TCPStack].  Connection
    objects are shared by reference between the table and the coroutines that
    use them, so they live in a store indexed by object identity.  Coroutines
    that a handler starts with [asyncio.ensure_future] are appended to
    [w_tasks]; [send_run] advances one [send_segment] coroutine from one
    [await] to the next.  The NIC driver is the interface class [Nic]. *)

From Stdlib Require Import ZArith Lia.
From stdpp Require Import base list gmap numbers.
From S2P Require Import Prelude Bytes Pystr Packets.

Local Open Scope Z_scope.

(** ** The NIC interface *)

(** What [stack.py] uses of a driver object: its [mac] attribute, whether it
    has the two non-blocking methods, and what they do to the device. *)
Class Nic (N : Type) := {
  nic_mac : N -> bytes;
  nic_has_send_nowait : bool;
  nic_has_recv_nowait : bool;
  nic_send_nowait : bytes -> M N bool;
  nic_recv_nowait : M N (option bytes)
}.

(** ** Data *)

Inductive TCPState : Type :=
| CLOSED | LISTEN | SYN_SENT | SYN_RCVD | ESTABLISHED | FIN_WAIT_1 | FIN_WAIT_2
| CLOSE_WAIT | CLOSING | LAST_ACK | TIME_WAIT.

#[global] Instance TCPState_eq_dec : EqDecision TCPState.
Proof. solve_decision. Defined.

Definition TCP_MAX_PAYLOAD : Z := 1200.
Definition TCP_TX_POLL_BURST : Z := 32.

(** An [asyncio.Future] as far as this code observes it. *)
Inductive fut (A : Type) : Type := FPending | FResult (a : A) | FExc (e : exn).
Arguments FPending {A}. Arguments FResult {A} a. Arguments FExc {A} e.

Record TCPConnection := mkConn {
  local_ip : bytes; remote_ip : bytes; local_port : Z; remote_port : Z;
  state : TCPState;
  snd_seq : Z; snd_ack : Z; snd_wnd : Z;
  rcv_buf : bytes;
  rx_event : bool;           (* [_rx_event] *)
  accept_event : bool;       (* [_accept_event] *)
  connected : option (fut unit)  (* [_connected]; its result is the connection *)
}.

Definition set_state (s : TCPState) (c : TCPConnection) : TCPConnection :=
  mkConn (local_ip c) (remote_ip c) (local_port c) (remote_port c) s
    (snd_seq c) (snd_ack c) (snd_wnd c) (rcv_buf c) (rx_event c) (accept_event c) (connected c).
Definition set_snd_seq (v : Z) (c : TCPConnection) : TCPConnection :=
  mkConn (local_ip c) (remote_ip c) (local_port c) (remote_port c) (state c)
    v (snd_ack c) (snd_wnd c) (rcv_buf c) (rx_event c) (accept_event c) (connected c).
Definition set_snd_ack (v : Z) (c : TCPConnection) : TCPConnection :=
  mkConn (local_ip c) (remote_ip c) (local_port c) (remote_port c) (state c)
    (snd_seq c) v (snd_wnd c) (rcv_buf c) (rx_event c) (accept_event c) (connected c).
Definition set_rcv_buf (v : bytes) (c : TCPConnection) : TCPConnection :=
  mkConn (local_ip c) (remote_ip c) (local_port c) (remote_port c) (state c)
    (snd_seq c) (snd_ack c) (snd_wnd c) v (rx_event c) (accept_event c) (connected c).
Definition set_rx_event (v : bool) (c : TCPConnection) : TCPConnection :=
  mkConn (local_ip c) (remote_ip c) (local_port c) (remote_port c) (state c)
    (snd_seq c) (snd_ack c) (snd_wnd c) (rcv_buf c) v (accept_event c) (connected c).
Definition set_accept_event (v : bool) (c : TCPConnection) : TCPConnection :=
  mkConn (local_ip c) (remote_ip c) (local_port c) (remote_port c) (state c)
    (snd_seq c) (snd_ack c) (snd_wnd c) (rcv_buf c) (rx_event c) v (connected c).
Definition set_connected (v : option (fut unit)) (c : TCPConnection) : TCPConnection :=
  mkConn (local_ip c) (remote_ip c) (local_port c) (remote_port c) (state c)
    (snd_seq c) (snd_ack c) (snd_wnd c) (rcv_buf c) (rx_event c) (accept_event c) v.

(** [key = (local_ip, local_port, remote_ip, remote_port)] *)
Abbreviation conn_key := (bytes * Z * bytes * Z)%type.

(** Coroutines started with [asyncio.ensure_future]. *)
Inductive task : Type :=
| TSend (cid : nat) (fl : Z) (pl : bytes)     (* [conn.send_segment(fl, pl)] *)
| TOnSyn (lid cid : nat).                     (* [listener._on_syn(conn)] *)

Section Net.
Context {N : Type} `{Nic N}.

Record world := mkWorld {
  w_nic : option N;                 (* [stack._nic] *)
  w_local_ip : bytes; w_local_mac : bytes; w_gateway : bytes; w_netmask : bytes;
  w_ip_id : Z;                      (* [ip._ip_id] *)
  w_table : gmap bytes bytes;       (* [arp_table._table] *)
  w_pending : gmap bytes nat;       (* [arp_table._pending], to future ids *)
  w_futs : list (fut bytes);        (* the ARP futures *)
  w_objs : gmap nat TCPConnection;  (* connection objects *)
  w_connections : gmap conn_key nat; (* [tcp._connections] *)
  w_listeners : gmap Z nat;         (* [tcp._listeners] *)
  w_queues : gmap nat (list nat);   (* each listener's accept queue *)
  w_next_port : Z;                  (* [tcp._next_port] *)
  w_tasks : list task
}.

Definition set_nic (v : option N) (w : world) : world :=
  mkWorld v (w_local_ip w) (w_local_mac w) (w_gateway w) (w_netmask w) (w_ip_id w) (w_table w)
    (w_pending w) (w_futs w) (w_objs w) (w_connections w) (w_listeners w) (w_queues w) (w_next_port w) (w_tasks w).
Definition set_config (ip mac gw mask : bytes) (w : world) : world :=
  mkWorld (w_nic w) ip mac gw mask (w_ip_id w) (w_table w)
    (w_pending w) (w_futs w) (w_objs w) (w_connections w) (w_listeners w) (w_queues w) (w_next_port w) (w_tasks w).
Definition set_ip_id (v : Z) (w : world) : world :=
  mkWorld (w_nic w) (w_local_ip w) (w_local_mac w) (w_gateway w) (w_netmask w) v (w_table w)
    (w_pending w) (w_futs w) (w_objs w) (w_connections w) (w_listeners w) (w_queues w) (w_next_port w) (w_tasks w).
Definition set_arp (t : gmap bytes bytes) (p : gmap bytes nat) (f : list (fut bytes)) (w : world) : world :=
  mkWorld (w_nic w) (w_local_ip w) (w_local_mac w) (w_gateway w) (w_netmask w) (w_ip_id w) t
    p f (w_objs w) (w_connections w) (w_listeners w) (w_queues w) (w_next_port w) (w_tasks w).
Definition set_objs (v : gmap nat TCPConnection) (w : world) : world :=
  mkWorld (w_nic w) (w_local_ip w) (w_local_mac w) (w_gateway w) (w_netmask w) (w_ip_id w) (w_table w)
    (w_pending w) (w_futs w) v (w_connections w) (w_listeners w) (w_queues w) (w_next_port w) (w_tasks w).
Definition set_connections (v : gmap conn_key nat) (w : world) : world :=
  mkWorld (w_nic w) (w_local_ip w) (w_local_mac w) (w_gateway w) (w_netmask w) (w_ip_id w) (w_table w)
    (w_pending w) (w_futs w) (w_objs w) v (w_listeners w) (w_queues w) (w_next_port w) (w_tasks w).
Definition set_listeners (v : gmap Z nat) (q : gmap nat (list nat)) (w : world) : world :=
  mkWorld (w_nic w) (w_local_ip w) (w_local_mac w) (w_gateway w) (w_netmask w) (w_ip_id w) (w_table w)
    (w_pending w) (w_futs w) (w_objs w) (w_connections w) v q (w_next_port w) (w_tasks w).
Definition set_next_port (v : Z) (w : world) : world :=
  mkWorld (w_nic w) (w_local_ip w) (w_local_mac w) (w_gateway w) (w_netmask w) (w_ip_id w) (w_table w)
    (w_pending w) (w_futs w) (w_objs w) (w_connections w) (w_listeners w) (w_queues w) v (w_tasks w).
Definition add_task (t : task) (w : world) : world :=
  mkWorld (w_nic w) (w_local_ip w) (w_local_mac w) (w_gateway w) (w_netmask w) (w_ip_id w) (w_table w)
    (w_pending w) (w_futs w) (w_objs w) (w_connections w) (w_listeners w) (w_queues w) (w_next_port w) (w_tasks w ++ [t]).

(** Reading and mutating a connection object. *)
Definition conn_get (cid : nat) : M world TCPConnection := fun w =>
  match w_objs w !! cid with Some c => (Ok c, w) | None => (Err AttributeError, w) end.
Definition conn_upd (cid : nat) (f : TCPConnection -> TCPConnection) : M world unit :=
  modify (fun w => set_objs (alter f cid (w_objs w)) w).
Definition ensure_future (t : task) : M world unit := modify (add_task t).

(** ** ARP ([arp.py]) *)

Definition ARP_REQUEST : Z := 1.
Definition ARP_REPLY : Z := 2.

(** [ARPTable.learn] *)
Definition arp_learn (ip mac : bytes) : M world unit := modify (fun w =>
  let table := <[ip := mac]> (w_table w) in
  let futs := match w_pending w !! ip with
              | Some f => match w_futs w !! f with
                          | Some FPending => <[f := FResult mac]> (w_futs w)
                          | _ => w_futs w
                          end
              | None => w_futs w
              end in
  set_arp table (delete ip (w_pending w)) futs w).

(** [ARPTable.lookup] *)
Definition arp_lookup (ip : bytes) : M world (option bytes) := gets (fun w => w_table w !! ip).

(** [ARPTable.resolve] up to its [await]: either the table has the address
    ([if mac:], so an empty byte string does not count), or a future is created
    and stored in [_pending]. *)
Definition arp_resolve_start (ip : bytes) : M world (bytes + nat) := fun w =>
  match w_table w !! ip with
  | Some (b :: mac) => (Ok (inl (b :: mac)), w)
  | _ =>
      let f := length (w_futs w) in
      (Ok (inr f), set_arp (w_table w) (<[ip := f]> (w_pending w)) (w_futs w ++ [FPending]) w)
  end.

(** ... and after it: the future's result, or [_pending.pop] on a timeout. *)
Definition arp_resolve_end (ip : bytes) (f : nat) (timed_out : bool) : M world (option bytes) := fun w =>
  if timed_out then (Ok None, set_arp (w_table w) (delete ip (w_pending w)) (w_futs w) w)
  else match w_futs w !! f with
       | Some (FResult mac) => (Ok (Some mac), w)
       | _ => (Err InvalidStateError, w)
       end.

Definition arp_packet (op : Z) (sender_mac sender_ip target_mac target_ip : bytes) : list field :=
  [FU 2 1; FU 2 0x0800; FU 1 6; FU 1 4; FU 2 op;
   FS 6 sender_mac; FS 4 sender_ip; FS 6 target_mac; FS 4 target_ip].

(** [ARPTable.build_request] *)
Definition build_request (sender_mac sender_ip target_ip : bytes) : result bytes :=
  let? arp := pack_fields_be (arp_packet ARP_REQUEST sender_mac sender_ip (zeros 6) target_ip) in
  ether_encode {| ef_dst := BROADCAST_MAC; ef_src := sender_mac;
                  ef_ethertype := ETHERTYPE_ARP; ef_payload := arp |}.

(** [ARPTable.handle_frame] *)
Definition arp_handle_frame (pl : bytes) : M world unit :=
  if len pl <? 28 then ret tt else
  let! _op := lift (unpack_be 2 (slice pl 6 8)) in
  arp_learn (slice pl 14 18) (slice pl 8 14).

(** ** Sending ([stack.py]) *)

(** [_send_frame_nowait] *)
Definition send_frame_nowait (frame : bytes) : M world bool := fun w =>
  match w_nic w with
  | None => (Ok false, w)
  | Some n =>
      if nic_has_send_nowait then
        let (r, n') := nic_send_nowait frame n in (r, set_nic (Some n') w)
      else (Ok false, w)
  end.

(** [IPv4Packet.encode] on the module counter of this world. *)
Definition encode_ip (p : IPv4Packet) : M world bytes := zoom w_ip_id set_ip_id (ip_encode p).

(** [src_ip or local_ip]: an empty byte string is false. *)
Definition or_ip (a b : bytes) : bytes := match a with [] => b | _ => a end.

(** The next hop: the destination itself in the same /24, else the gateway. *)
Definition next_hop (dst_ip : bytes) (w : world) : bytes :=
  if beq (slice_to dst_ip 3) (slice_to (w_local_ip w) 3) then dst_ip else w_gateway w.

(** The frame both send paths build once the MAC is known. *)
Definition build_frame (seg : TCPSegment) (src_ip dst_ip mac : bytes) : M world bytes :=
  let! lip := gets w_local_ip in
  let! lmac := gets w_local_mac in
  let! raw := lift (tcp_encode seg (or_ip src_ip lip) dst_ip) in
  let! pkt := encode_ip {| ip_src := or_ip src_ip lip; ip_dst := dst_ip; ip_proto := 6;
                           ip_ttl := 64; ip_payload := raw; ip_tos := 0; ip_flags := 0x4000 |} in
  lift (ether_encode {| ef_dst := mac; ef_src := lmac;
                        ef_ethertype := ETHERTYPE_IPv4; ef_payload := pkt |}).

(** [send_tcp_segment_nowait] *)
Definition send_tcp_segment_nowait (seg : TCPSegment) (src_ip dst_ip : bytes) : M world bool :=
  let! nic := gets w_nic in
  match nic with
  | None => ret false
  | Some _ =>
      let! nh := gets (next_hop dst_ip) in
      let! mac := arp_lookup nh in
      match mac with
      | None =>
          let! w := get in
          let! arp_req := lift (build_request (w_local_mac w) (w_local_ip w) nh) in
          send_frame_nowait arp_req ;;; ret false
      | Some mac =>
          let! frame := build_frame seg src_ip dst_ip mac in
          send_frame_nowait frame
      end
  end.

(** ** [TCPConnection]: the synchronous path *)

Definition mk_segment (c : TCPConnection) (fl : Z) (pl : bytes) : TCPSegment :=
  {| src_port := local_port c; dst_port := remote_port c; seq_no := snd_seq c;
     ack_no := snd_ack c; flags := fl; window := snd_wnd c; payload := pl |}.

(** [payload or (flags & (F_SYN | F_FIN))] *)
Definition consumes_seq (fl : Z) (pl : bytes) : bool :=
  match pl with [] => negb (Z.land fl (Z.lor F_SYN F_FIN) =? 0) | _ => true end.

Definition advance_seq (pl : bytes) (c : TCPConnection) : TCPConnection :=
  set_snd_seq (Z.land (snd_seq c + Z.max (len pl) 1) 0xFFFFFFFF) c.

(** [send_segment_nowait] *)
Definition send_segment_nowait (cid : nat) (fl : Z) (pl : bytes) : M world bool :=
  let! c := conn_get cid in
  let! ok := send_tcp_segment_nowait (mk_segment c fl pl) (local_ip c) (remote_ip c) in
  (if ok && consumes_seq fl pl then conn_upd cid (advance_seq pl) else ret tt) ;;;
  ret ok.

(** One pass of [recv]'s loop: [Some data] when it returns, [None] when it
    awaits [_rx_event]. *)
Definition recv (cid : nat) (n : Z) : M world (option bytes) :=
  let! c := conn_get cid in
  let closed := bool_decide (state c = CLOSE_WAIT) || bool_decide (state c = CLOSED) in
  match rcv_buf c with
  | _ :: _ =>
      conn_upd cid (set_rcv_buf (slice_assign (rcv_buf c) 0 n [])) ;;;
      ret (Some (slice_to (rcv_buf c) n))
  | [] => if closed then ret (Some [])
          else conn_upd cid (set_rx_event false) ;;; ret None
  end.

(** [close] *)
Definition conn_close (cid : nat) : M world unit :=
  let! c := conn_get cid in
  match state c with
  | ESTABLISHED => ensure_future (TSend cid (Z.lor F_FIN F_ACK) []) ;;; conn_upd cid (set_state FIN_WAIT_1)
  | CLOSE_WAIT => ensure_future (TSend cid (Z.lor F_FIN F_ACK) []) ;;; conn_upd cid (set_state LAST_ACK)
  | _ => ret tt
  end.

Definition has_flag (fl bit : Z) : bool := negb (Z.land fl bit =? 0).

(** [self._connected.set_result(self)] / [set_exception] when pending. *)
Definition settle_connected (r : fut unit) (c : TCPConnection) : TCPConnection :=
  match connected c with Some FPending => set_connected (Some r) c | _ => c end.

(** The ACK of [handle_segment]: [send_segment_nowait] on the synchronous path,
    a new coroutine otherwise. *)
Definition send_ack (cid : nat) (sync : bool) : M world unit :=
  if sync then send_segment_nowait cid F_ACK [] ;;; ret tt
  else ensure_future (TSend cid F_ACK []).

(** [handle_segment] *)
Definition handle_segment (cid : nat) (seg : TCPSegment) (sync : bool) : M world unit :=
  let! c := conn_get cid in
  match state c with
  | SYN_RCVD =>
      if has_flag (flags seg) F_ACK
      then conn_upd cid (set_state ESTABLISHED) ;;; conn_upd cid (set_accept_event true)
      else ret tt
  | SYN_SENT =>
      if has_flag (flags seg) F_SYN && has_flag (flags seg) F_ACK then
        conn_upd cid (set_snd_ack (Z.land (seq_no seg + 1) 0xFFFFFFFF)) ;;;
        ensure_future (TSend cid F_ACK []) ;;;
        conn_upd cid (set_state ESTABLISHED) ;;;
        conn_upd cid (settle_connected (FResult tt))
      else if has_flag (flags seg) F_RST then
        conn_upd cid (set_state CLOSED) ;;;
        conn_upd cid (settle_connected (FExc ConnectionRefusedError))
      else ret tt
  | ESTABLISHED =>
      (match payload seg with
       | [] => ret tt
       | _ =>
           conn_upd cid (set_snd_ack (Z.land (seq_no seg + len (payload seg)) 0xFFFFFFFF)) ;;;
           conn_upd cid (fun c => set_rcv_buf (rcv_buf c ++ payload seg) c) ;;;
           conn_upd cid (set_rx_event true) ;;;
           send_ack cid sync
       end) ;;;
      if has_flag (flags seg) F_FIN then
        conn_upd cid (set_snd_ack (Z.land (seq_no seg + 1) 0xFFFFFFFF)) ;;;
        send_ack cid sync ;;;
        conn_upd cid (set_state CLOSE_WAIT) ;;;
        conn_upd cid (set_rx_event true)
      else ret tt
  | _ => ret tt
  end.

(** ** [TCPStack] *)

(** [_alloc_port] *)
Definition alloc_port : M world Z := fun w =>
  (Ok (w_next_port w), set_next_port ((w_next_port w + 1 - 49152) mod 16384 + 49152) w).

(** A new connection object; [isn] is the value of [random.randint]. *)
Definition new_conn (lip rip : bytes) (lport rport : Z) (st : TCPState) (isn ack : Z)
    (fu : option (fut unit)) : M world nat := fun w =>
  let cid := fresh (dom (w_objs w)) in
  (Ok cid, set_objs (<[cid := mkConn lip rip lport rport st isn ack 65535 [] false false fu]> (w_objs w)) w).

(** [connect] up to its first [await]: the SYN's coroutine is then run. *)
Definition connect_start (remote_ip_str : str) (rport : Z) (lip : bytes) (isn : Z) : M world nat :=
  let! rip := lift (ip_from_str remote_ip_str) in
  let! lport := alloc_port in
  let! cid := new_conn lip rip lport rport SYN_SENT isn 0 (Some FPending) in
  modify (fun w => set_connections (<[(lip, lport, rip, rport) := cid]> (w_connections w)) w) ;;;
  ret cid.

(** [connect]'s [except Exception] clause. *)
Definition connect_failed (cid : nat) : M world unit :=
  let! c := conn_get cid in
  modify (fun w => set_connections
    (delete (local_ip c, local_port c, remote_ip c, remote_port c) (w_connections w)) w).

(** [listen] *)
Definition listen (port : Z) : M world nat := fun w =>
  match w_listeners w !! port with
  | Some _ => (Err OSError, w)
  | None =>
      let lid := fresh (dom (w_queues w)) in
      (Ok lid, set_listeners (<[port := lid]> (w_listeners w)) (<[lid := []]> (w_queues w)) w)
  end.

(** [unlisten] *)
Definition unlisten (port : Z) (listener : option nat) : M world unit := modify (fun w =>
  match w_listeners w !! port with
  | Some current =>
      if match listener with None => true | Some l => (l =? current)%nat end
      then set_listeners (delete port (w_listeners w)) (w_queues w) w
      else w
  | None => w
  end).

(** [remove_connection] *)
Definition remove_connection (cid : nat) : M world unit := connect_failed cid.

(** [_on_syn] after the handshake event or the timeout fired. *)
Definition on_syn_end (lid cid : nat) (timed_out : bool) : M world unit :=
  if timed_out then conn_upd cid (set_state CLOSED) ;;; remove_connection cid
  else
    let! c := conn_get cid in
    match state c with
    | ESTABLISHED | CLOSE_WAIT =>
        modify (fun w => set_listeners (w_listeners w) (alter (fun q => q ++ [cid]) lid (w_queues w)) w)
    | _ => ret tt
    end.

(** [handle_ip_packet] *)
Definition handle_ip_packet (pkt : IPv4Packet) (sync : bool) (isn : Z) : M world unit :=
  if negb (ip_proto pkt =? PROTO_TCP) then ret tt else
  let! oseg := lift (tcp_decode (ip_payload pkt)) in
  match oseg with
  | None => ret tt
  | Some seg =>
      let key := (ip_dst pkt, dst_port seg, ip_src pkt, src_port seg) in
      let! conns := gets w_connections in
      match conns !! key with
      | Some cid => handle_segment cid seg sync
      | None =>
          if has_flag (flags seg) F_SYN && negb (has_flag (flags seg) F_ACK) then
            let! ls := gets w_listeners in
            match ls !! dst_port seg with
            | Some lid =>
                let! cid := new_conn (ip_dst pkt) (ip_src pkt) (dst_port seg) (src_port seg)
                              SYN_RCVD isn (Z.land (seq_no seg + 1) 0xFFFFFFFF) None in
                modify (fun w => set_connections (<[key := cid]> (w_connections w)) w) ;;;
                ensure_future (TOnSyn lid cid)
            | None => ret tt
            end
          else ret tt
      end
  end.

(** ** Receiving ([stack.py]) *)

(** [_maybe_send_arp_reply_sync] *)
Definition maybe_send_arp_reply_sync (pl : bytes) : M world unit :=
  let! w := get in
  if (len pl <? 28) || match w_nic w with None => true | Some _ => false end then ret tt else
  let! op := lift (unpack_be 2 (slice pl 6 8)) in
  let sender_mac := slice pl 8 14 in
  let sender_ip := slice pl 14 18 in
  let target_ip := slice pl 24 28 in
  if negb (op =? 1) || negb (beq target_ip (w_local_ip w)) then ret tt else
  let! reply_arp := lift (pack_fields_be
    (arp_packet 2 (w_local_mac w) (w_local_ip w) sender_mac sender_ip)) in
  let! reply_frame := lift (ether_encode
    {| ef_dst := sender_mac; ef_src := w_local_mac w;
       ef_ethertype := ETHERTYPE_ARP; ef_payload := reply_arp |}) in
  send_frame_nowait reply_frame ;;; ret tt.

(** [_dispatch_sync]; [isn] as in [handle_ip_packet]. *)
Definition dispatch_sync (frame : EtherFrame) (isn : Z) : M world unit :=
  if ef_ethertype frame =? ETHERTYPE_ARP then
    arp_handle_frame (ef_payload frame) ;;; maybe_send_arp_reply_sync (ef_payload frame)
  else if ef_ethertype frame =? ETHERTYPE_IPv4 then
    let! pkt := lift (ip_decode (ef_payload frame)) in
    arp_learn (ip_src pkt) (ef_src frame) ;;;
    handle_ip_packet pkt true isn
  else ret tt.

(** [poll_once]: exceptions of the dispatch are logged and dropped. *)
Definition poll_once (isn : Z) : M world bool := fun w =>
  match w_nic w with
  | None => (Ok false, w)
  | Some n =>
      if negb nic_has_recv_nowait then (Ok false, w) else
      let (r, n') := nic_recv_nowait n in
      let w' := set_nic (Some n') w in
      match r with
      | Err e => (Err e, w')
      | Ok None => (Ok false, w')
      | Ok (Some raw) =>
          if len raw <? 14 then (Ok true, w')
          else (let! _ := try_except (let! f := lift (ether_decode raw) in dispatch_sync f isn)
                            (fun _ => ret tt) in ret true) w'
      end
  end.

(** [while stack.poll_once(): pass], with [fuel] polls at most: [None] is out
    of fuel.  [isns] are the random numbers the polls may draw. *)
Fixpoint poll_all (fuel : nat) (isn : nat -> Z) : M world (option unit) :=
  match fuel with
  | O => ret None
  | S fuel' =>
      let! more := poll_once (isn fuel) in
      if more then poll_all fuel' isn else ret (Some tt)
  end.

(** [net_init]; the receive loop it starts is a coroutine of its own. *)
Definition net_init (nic : N) (ip gw mask : str) : M world unit :=
  modify (set_nic (Some nic)) ;;;
  modify (fun w => set_config (w_local_ip w) (nic_mac nic) (w_gateway w) (w_netmask w) w) ;;;
  let! ip := lift (ip_from_str ip) in
  modify (fun w => set_config ip (w_local_mac w) (w_gateway w) (w_netmask w) w) ;;;
  let! gw := lift (ip_from_str gw) in
  modify (fun w => set_config (w_local_ip w) (w_local_mac w) gw (w_netmask w) w) ;;;
  let! mask := lift (ip_from_str mask) in
  modify (fun w => set_config (w_local_ip w) (w_local_mac w) (w_gateway w) mask w).

(** [send_nowait]: the segments of [data], with the receive path drained after
    every burst and at the end.  [Some b] is the method's result, [None] means
    a drain ran out of [fuel]. *)
Fixpoint send_chunks (cid : nat) (fuel : nat) (isn : nat -> Z) (offs : list Z) (data : bytes)
    (segment_count : Z) : M world (option bool) :=
  match offs with
  | [] => ret (Some true)
  | off :: offs' =>
      let! ok := send_segment_nowait cid (Z.lor F_ACK F_PSH)
                   (slice data off (off + TCP_MAX_PAYLOAD)) in
      if negb ok then ret (Some false) else
      let segment_count := segment_count + 1 in
      let! d := (if segment_count mod TCP_TX_POLL_BURST =? 0 then poll_all fuel isn
                 else ret (Some tt)) in
      match d with
      | None => ret None
      | Some _ => send_chunks cid fuel isn offs' data segment_count
      end
  end.

(** [range(0, n, step)] *)
Definition range_step (n step : Z) : list Z :=
  map (fun i => i * step) (range ((n + step - 1) / step)).

Definition send_nowait (cid : nat) (data : bytes) (fuel : nat) (isn : nat -> Z) : M world (option bool) :=
  let! r := send_chunks cid fuel isn (range_step (len data) TCP_MAX_PAYLOAD) data 0 in
  match r with
  | Some true =>
      let! d := poll_all fuel isn in
      ret (match d with Some _ => Some true | None => None end)
  | _ => ret r
  end.

(** ** The asynchronous path: [send_tcp_segment] and [send_segment]

    The coroutine's suspension points: not started; in [await _nic.send(..)]
    (the driver's [send] retries [send_nowait] until it is accepted); in
    [await arp_table.resolve(..)]; finished. *)
Inductive send_state : Type :=
| SStart
| STxArp (seg : TCPSegment) (nh arp_req : bytes)
| SResolve (seg : TCPSegment) (nh : bytes) (f : nat)
| STx (frame : bytes)
| SDone.

(** [send_segment] after [send_tcp_segment] returned. *)
Definition send_finish (cid : nat) (fl : Z) (pl : bytes) : M world send_state :=
  (if consumes_seq fl pl then conn_upd cid (advance_seq pl) else ret tt) ;;; ret SDone.

(** One [_nic.send(frame)] attempt. *)
Definition nic_try (frame : bytes) : M world bool := fun w =>
  match w_nic w with
  | None => (Err AttributeError, w)
  | Some n => let (r, n') := nic_send_nowait frame n in (r, set_nic (Some n') w)
  end.

Definition send_tx (cid : nat) (fl : Z) (pl frame : bytes) : M world send_state :=
  let! ok := nic_try frame in
  if ok then send_finish cid fl pl else ret (STx frame).

Definition send_with_mac (cid : nat) (fl : Z) (pl : bytes) (seg : TCPSegment) (mac : bytes) : M world send_state :=
  let! c := conn_get cid in
  let! frame := build_frame seg (local_ip c) (remote_ip c) mac in
  send_tx cid fl pl frame.

Definition send_resolve (cid : nat) (fl : Z) (pl : bytes) (seg : TCPSegment) (nh : bytes) : M world send_state :=
  let! r := arp_resolve_start nh in
  match r with
  | inl mac => send_with_mac cid fl pl seg mac
  | inr f => ret (SResolve seg nh f)
  end.

(** Advance the coroutine from where it is suspended to its next suspension;
    [timed_out] says whether [wait_for] expired (only read in [SResolve]). *)
Definition send_run (cid : nat) (fl : Z) (pl : bytes) (timed_out : bool) (s : send_state) : M world send_state :=
  match s with
  | SStart =>
      let! c := conn_get cid in
      let seg := mk_segment c fl pl in
      let! w := get in
      match w_nic w with
      | None => send_finish cid fl pl
      | Some _ =>
          let nh := next_hop (remote_ip c) w in
          match w_table w !! nh with
          | Some mac => send_with_mac cid fl pl seg mac
          | None =>
              let! arp_req := lift (build_request (w_local_mac w) (w_local_ip w) nh) in
              let! ok := nic_try arp_req in
              if ok then send_resolve cid fl pl seg nh else ret (STxArp seg nh arp_req)
          end
      end
  | STxArp seg nh arp_req =>
      let! ok := nic_try arp_req in
      if ok then send_resolve cid fl pl seg nh else ret (STxArp seg nh arp_req)
  | SResolve seg nh f =>
      let! mac := arp_resolve_end nh f timed_out in
      match mac with
      | None => send_finish cid fl pl
      | Some mac => send_with_mac cid fl pl seg mac
      end
  | STx frame => send_tx cid fl pl frame
  | SDone => ret SDone
  end.

(** [_on_syn]: sending the SYN-ACK, waiting for the handshake event (or its
    timeout), finished.  An exception of [send_segment] drops the connection. *)
Inductive onsyn_state : Type := OsSend (s : send_state) | OsWait | OsDone.

Definition on_syn_run (lid cid : nat) (timed_out : bool) (st : onsyn_state) : M world onsyn_state :=
  match st with
  | OsSend s =>
      try_except
        (let! s' := send_run cid (Z.lor F_SYN F_ACK) [] timed_out s in
         ret (match s' with SDone => OsWait | _ => OsSend s' end))
        (fun _ => remove_connection cid ;;; ret OsDone)
  | OsWait => on_syn_end lid cid timed_out ;;; ret OsDone
  | OsDone => ret OsDone
  end.

(** [_maybe_send_arp_reply]: the frame it hands to [await _nic.send]. *)
Definition maybe_send_arp_reply (pl : bytes) : M world (option bytes) :=
  if len pl <? 28 then ret None else
  let! op := lift (unpack_be 2 (slice pl 6 8)) in
  let sender_mac := slice pl 8 14 in
  let sender_ip := slice pl 14 18 in
  let target_ip := slice pl 24 28 in
  let! w := get in
  if negb (op =? 1) || negb (beq target_ip (w_local_ip w))
     || match w_nic w with None => true | Some _ => false end then ret None else
  let! reply_arp := lift (pack_fields_be
    (arp_packet 2 (w_local_mac w) (w_local_ip w) sender_mac sender_ip)) in
  let! reply_frame := lift (ether_encode
    {| ef_dst := sender_mac; ef_src := w_local_mac w;
       ef_ethertype := ETHERTYPE_ARP; ef_payload := reply_arp |}) in
  ret (Some reply_frame).

(** [_dispatch]: the asynchronous twin of [dispatch_sync]; the result is the
    ARP reply it awaits sending, if any. *)
Definition dispatch (frame : EtherFrame) (isn : Z) : M world (option bytes) :=
  if ef_ethertype frame =? ETHERTYPE_ARP then
    arp_handle_frame (ef_payload frame) ;;; maybe_send_arp_reply (ef_payload frame)
  else if ef_ethertype frame =? ETHERTYPE_IPv4 then
    let! pkt := lift (ip_decode (ef_payload frame)) in
    arp_learn (ip_src pkt) (ef_src frame) ;;;
    handle_ip_packet pkt false isn ;;; ret None
  else ret None.

(** One turn of [_rx_loop] for a received frame: short frames are skipped and
    exceptions are logged. *)
Definition rx_turn (raw : bytes) (isn : Z) : M world (option bytes) :=
  if len raw <? 14 then ret None
  else try_except (let! f := lift (ether_decode raw) in dispatch f isn) (fun _ => ret None).

End Net.
Arguments world N : clear implicits.
