(* ===== verification/NetWire.v ===== *)
(** * Sending: what reaches the wire

    The synchronous send path of [Net.v] against the packet formats of
    [Packets.v]: the frames the NIC gets decode to the intended segments, and
    [send_nowait] cuts a byte string into consecutive segments. *)

From Stdlib Require Import ZArith Lia.
From stdpp Require Import base list gmap numbers.
From S2P Require Import Prelude Bytes Packets Net.

Local Open Scope Z_scope.

(** ** A NIC that keeps what it is given

    [nic_sent] is the sequence of frames the device accepted.  [nic_good]
    states have an idle receive side and accept every frame of Ethernet's
    size. *)
Definition MAX_FRAME : Z := 1514.
Class NicLaws (N : Type) `{Nic N} := {
  nic_sent : N -> list bytes;
  nic_good : N -> Prop;
  nic_has : nic_has_send_nowait = true;
  nic_send_good f n : nic_good n -> bytes_ok f -> len f <= MAX_FRAME ->
    exists n', nic_send_nowait f n = (Ok true, n') /\ nic_good n' /\ nic_sent n' = nic_sent n ++ [f];
  nic_recv_good n : nic_good n -> nic_recv_nowait n = (Ok None, n)
}.

(** A tape: frames sent and frames waiting to be received.  It implements the
    interface and its laws. *)
Record tape := { tp_mac : bytes; tp_sent : list bytes; tp_rx : list bytes }.

#[export] Instance tape_nic : Nic tape := {|
  nic_mac := tp_mac;
  nic_has_send_nowait := true;
  nic_has_recv_nowait := true;
  nic_send_nowait f t := (Ok true, {| tp_mac := tp_mac t; tp_sent := tp_sent t ++ [f]; tp_rx := tp_rx t |});
  nic_recv_nowait t :=
    match tp_rx t with
    | [] => (Ok None, t)
    | r :: rs => (Ok (Some r), {| tp_mac := tp_mac t; tp_sent := tp_sent t; tp_rx := rs |})
    end
|}.

#[export] Instance tape_laws : NicLaws tape.
Proof.
  refine {| nic_sent := tp_sent; nic_good t := tp_rx t = [] |}.
  - done.
  - intros f n Hn _ _. eexists. split_and!; [done|done|done].
  - intros n Hn. simpl. by rewrite Hn.
Defined.

(** ** Decoding a frame down to its segment *)

Definition frame_segment (raw : bytes) : result (EtherFrame * IPv4Packet * option TCPSegment) :=
  let? f := ether_decode raw in
  let? p := ip_decode (ef_payload f) in
  let? s := tcp_decode (ip_payload p) in
  Ok (f, p, s).

Section Wire.
Context {N : Type} `{NicLaws N}.
Implicit Types w : world N.

Lemma build_frame_decodes seg sip dip mac w :
  seg_ok seg -> 40 + len (payload seg) < 65536 -> bytes_ok (payload seg) ->
  bytes_ok sip -> bytes_ok dip -> length sip = 4%nat -> length dip = 4%nat ->
  length mac = 6%nat -> length (w_local_mac w) = 6%nat -> bytes_ok mac -> bytes_ok (w_local_mac w) -> 0 <= w_ip_id w ->
  exists frame, build_frame seg sip dip mac w
      = (Ok frame, set_ip_id (Z.land (w_ip_id w + 1) 0xFFFF) w) /\
    (bytes_ok frame /\ len frame = 54 + len (payload seg)) /\
    exists f p, frame_segment frame = Ok (f, p, Some seg) /\
      ef_dst f = mac /\ ef_src f = w_local_mac w /\ ef_ethertype f = ETHERTYPE_IPv4 /\
      ip_src p = sip /\ ip_dst p = dip /\ ip_proto p = PROTO_TCP.
Proof.
  intros Hseg Hlen Hpl Hs Hd Ls Ld Lm Llm Om Olm Hid.
  assert (or_ip sip (w_local_ip w) = sip) as Hor by (by destruct sip).
  pose proof (tcp_encode_eq seg sip dip Hseg Hs Hd Hpl) as Henc.
  pose proof (tcp_decode_header seg
    (inet_cksum (code_pseudo sip dip seg ++ tcp_header seg 0 ++ payload seg)) Hseg) as Hdec.
  set (raw := tcp_header seg _ ++ payload seg) in *.
  assert (len raw = 20 + len (payload seg)) as Hlraw by (unfold raw; by rewrite len_app, len_tcp_header).
  set (p := {| ip_src := sip; ip_dst := dip; ip_proto := 6; ip_ttl := 64; ip_payload := raw;
               ip_tos := 0; ip_flags := 0x4000 |}).
  assert (ip_ok p) as Hp by (constructor; simpl; unfold u8, u16; lia).
  pose proof (ip_encode_eq p (w_ip_id w) Hp Hs Hd Hid) as Hip. cbv zeta in Hip.
  set (id' := Z.land _ _) in *. set (pkt := ip_header p id' _ ++ ip_payload p) in Hip.
  set (f := {| ef_dst := mac; ef_src := w_local_mac w; ef_ethertype := ETHERTYPE_IPv4; ef_payload := pkt |}).
  destruct (ether_decode_encode f) as (frame & Ef & Df); [constructor; simpl; done|].
  exists frame. split; [|split].
  - unfold build_frame, bind, gets, lift, encode_ip, zoom. rewrite Hor, Henc. fold p. rewrite Hip.
    fold f. change (w_local_mac (set_ip_id id' w)) with (w_local_mac w). by rewrite Ef.
  - assert (E : frame = mac ++ w_local_mac w ++ be_bytes 2 ETHERTYPE_IPv4 ++ pkt) by (by injection Ef as <-).
    split.
    + rewrite E. unfold pkt. cbn [p ip_payload]. rewrite !bytes_ok_app. split_and!; auto using be_bytes_ok, tcp_header_bytes_ok; try by apply ip_header_bytes_ok. unfold raw. rewrite bytes_ok_app. split; [apply tcp_header_bytes_ok|done].
    + rewrite E. unfold pkt. rewrite !len_app, (len_ip_header p) by done. cbn [p ip_payload]. rewrite Hlraw, len_be_bytes. unfold len. lia.
  - exists f, p. split; [|done]. unfold frame_segment. rewrite Df. cbn [rbind f ef_payload].
    unfold pkt. rewrite <- (app_nil_r (ip_payload p)), ip_decode_header by done.
    cbn [rbind p ip_payload]. by rewrite Hdec.
Qed.

(** The conditions under which a connection can transmit at once: the NIC is
    up, the next hop's MAC is known, and every field fits its header. *)
Record can_send (cid : nat) (c : TCPConnection) (mac : bytes) (w : world N) : Prop := {
  cs_obj : w_objs w !! cid = Some c;
  cs_mac : w_table w !! next_hop (remote_ip c) w = Some mac;
  cs_lip : length (local_ip c) = 4%nat;
  cs_rip : length (remote_ip c) = 4%nat;
  cs_lip_ok : bytes_ok (local_ip c);
  cs_rip_ok : bytes_ok (remote_ip c);
  cs_lmac : length (w_local_mac w) = 6%nat;
  cs_rmac : length mac = 6%nat;
  cs_mac_ok : bytes_ok mac /\ bytes_ok (w_local_mac w);
  cs_ports : u16 (local_port c) /\ u16 (remote_port c);
  cs_seqs : u32 (snd_seq c) /\ u32 (snd_ack c) /\ u16 (snd_wnd c);
  cs_id : 0 <= w_ip_id w
}.

(** The world after one transmitted segment. *)
Definition after_send (cid : nat) (fl : Z) (pl : bytes) (n' : N) (w : world N) : world N :=
  let w1 := set_nic (Some n') (set_ip_id (Z.land (w_ip_id w + 1) 0xFFFF) w) in
  if consumes_seq fl pl then set_objs (alter (advance_seq pl) cid (w_objs w)) w1 else w1.

Lemma send_segment_nowait_wire cid c mac fl pl n w :
  can_send cid c mac w -> w_nic w = Some n -> nic_good n ->
  0 <= fl < 512 -> bytes_ok pl -> len pl <= TCP_MAX_PAYLOAD ->
  exists frame n',
    send_segment_nowait cid fl pl w = (Ok true, after_send cid fl pl n' w) /\
    nic_good n' /\ nic_sent n' = nic_sent n ++ [frame] /\
    exists f p, frame_segment frame = Ok (f, p, Some (mk_segment c fl pl)) /\
      ef_dst f = mac /\ ip_src p = local_ip c /\ ip_dst p = remote_ip c.
Proof.
  intros Hc Hnic Hgood Hfl Hpl Hlen. destruct Hc.
  pose proof (len_nonneg pl). unfold TCP_MAX_PAYLOAD in Hlen.
  destruct (build_frame_decodes (mk_segment c fl pl) (local_ip c) (remote_ip c) mac w)
    as (frame & Hb & (Hbok & Hblen) & f & p & Hdec & ? & ? & ? & ? & ? & ?); auto; [| |naive_solver|naive_solver|].
  { constructor; simpl; naive_solver lia. }
  { simpl. lia. }
  destruct (nic_send_good frame n Hgood Hbok) as (n' & Hs & Hg' & Hsent).
  { rewrite Hblen. unfold MAX_FRAME. cbn [payload mk_segment]. lia. }
  exists frame, n'. split_and!; [|done|done|exists f, p; done].
  unfold send_segment_nowait. unfold bind at 1, conn_get. rewrite cs_obj0.
  unfold send_tcp_segment_nowait, arp_lookup, gets, bind, ret. rewrite Hnic, cs_mac0, Hb.
  unfold send_frame_nowait. change (w_nic (set_ip_id _ w)) with (w_nic w). rewrite Hnic, nic_has, Hs.
  unfold after_send. cbn [andb]. by destruct (consumes_seq fl pl).
Qed.

(** [cid]'s object with another sequence number; everything else the send path
    reads is unchanged. *)
Lemma can_send_after cid c mac fl pl n' w :
  can_send cid c mac w -> consumes_seq fl pl = true ->
  can_send cid (advance_seq pl c) mac (after_send cid fl pl n' w).
Proof.
  intros Hc E. destruct Hc. unfold after_send. rewrite E. constructor; simpl; auto.
  - rewrite lookup_alter, cs_obj0. by rewrite decide_True.
  - destruct cs_seqs0 as (? & ? & ?). split_and!; [|done..].
    change 0xFFFFFFFF with (Z.ones 32). rewrite Z.land_ones by lia.
    unfold u32. apply Z.mod_pos_bound. done.
  - rewrite land16. apply Z.mod_pos_bound. lia.
Qed.

(** ** The chunks of [send_nowait] *)

Definition chunk (data : bytes) (i : Z) : bytes :=
  slice data (i * TCP_MAX_PAYLOAD) (i * TCP_MAX_PAYLOAD + TCP_MAX_PAYLOAD).

Definition n_chunks (data : bytes) : Z := (len data + TCP_MAX_PAYLOAD - 1) / TCP_MAX_PAYLOAD.

Lemma n_chunks_bounds data i :
  0 <= i < n_chunks data -> 0 <= i * TCP_MAX_PAYLOAD < len data.
Proof.
  unfold n_chunks, TCP_MAX_PAYLOAD. intros Hi.
  pose proof (Z.mul_div_le (len data + 1200 - 1) 1200). lia.
Qed.

Lemma chunk_take data i :
  0 <= i < n_chunks data ->
  chunk data i = take 1200 (drop (Z.to_nat (i * 1200)) data).
Proof.
  intros Hi. pose proof (n_chunks_bounds _ _ Hi) as Hb. unfold TCP_MAX_PAYLOAD in Hb.
  unfold chunk, slice, TCP_MAX_PAYLOAD.
  rewrite (clamp_id (len data) (i * 1200)) by lia.
  destruct (Z.le_gt_cases (i * 1200 + 1200) (len data)).
  - rewrite clamp_id by lia. f_equal. lia.
  - rewrite clamp_big by lia. rewrite !take_ge; [done|rewrite length_drop; unfold len in *; lia..].
Qed.

Lemma len_chunk data i :
  0 <= i < n_chunks data -> len (chunk data i) = Z.min 1200 (len data - i * 1200).
Proof.
  intros Hi. pose proof (n_chunks_bounds _ _ Hi) as Hb. unfold TCP_MAX_PAYLOAD in Hb.
  rewrite chunk_take by done. unfold len in *. rewrite length_take, length_drop. lia.
Qed.

Lemma chunks_concat data k :
  0 <= k <= n_chunks data ->
  concat (map (chunk data) (range k)) = take (Z.to_nat (k * 1200)) data.
Proof.
  unfold range. intros Hk. assert (0 <= k) as Hpos by lia. revert Hk. pattern k.
  apply natlike_ind; [done| |exact Hpos]. clear k Hpos. intros k Hk0 IH Hk. unfold Z.succ in *. rewrite range2_snoc, map_app, concat_app by lia.
  simpl. rewrite IH, app_nil_r, chunk_take by lia.
  replace (Z.to_nat ((k + 1) * 1200)) with (Z.to_nat (k * 1200) + 1200)%nat by lia.
  by rewrite take_take_drop.
Qed.

Lemma chunks_concat_all data : concat (map (chunk data) (range (n_chunks data))) = data.
Proof.
  assert (0 <= n_chunks data /\ len data <= n_chunks data * 1200) as [Hn0 Hn1].
  { unfold n_chunks, TCP_MAX_PAYLOAD. pose proof (len_nonneg data).
    pose proof (Z.div_mod (len data + 1200 - 1) 1200).
    pose proof (Z.mod_pos_bound (len data + 1200 - 1) 1200).
    split; [apply Z.div_pos; lia|lia]. }
  rewrite chunks_concat by lia. apply take_ge. unfold len in *. lia.
Qed.

Lemma poll_all_idle fuel isn n w :
  w_nic w = Some n -> nic_good n -> (0 < fuel)%nat -> poll_all fuel isn w = (Ok (Some tt), w).
Proof.
  intros Hn Hg Hf. destruct fuel as [|fuel]; [lia|].
  assert (poll_once (isn (S fuel)) w = (Ok false, w)) as E.
  { unfold poll_once. rewrite Hn. case_match; [done|]. rewrite nic_recv_good by done.
    destruct w. simpl in *. by subst. }
  cbn [poll_all]. by rewrite (bind_step _ _ _ _ _ E).
Qed.

Definition psh_ack : Z := Z.lor F_ACK F_PSH.

(** What the chunks [k, n) of [data] put on the wire, from sequence number
    [s0] of chunk 0. *)
Definition frame_ok (c : TCPConnection) (mac : bytes) (s0 : Z) (data : bytes) (i : Z) (frame : bytes) : Prop :=
  exists f p s, frame_segment frame = Ok (f, p, Some s) /\
    ef_dst f = mac /\ ip_src p = local_ip c /\ ip_dst p = remote_ip c /\
    src_port s = local_port c /\ dst_port s = remote_port c /\ flags s = psh_ack /\
    ack_no s = snd_ack c /\
    seq_no s = (s0 + i * 1200) mod 4294967296 /\ payload s = chunk data i.

Lemma send_chunks_wire cid mac fuel isn data s0 (m : nat) : forall k n w c cnt,
  Z.of_nat m = n_chunks data - k -> 0 <= k ->
  can_send cid c mac w -> w_nic w = Some n -> nic_good n -> bytes_ok data -> (0 < fuel)%nat ->
  snd_seq c = (s0 + k * 1200) mod 4294967296 ->
  exists frames w' n' c',
    send_chunks cid fuel isn (map (fun i => i * TCP_MAX_PAYLOAD) (range2 k (n_chunks data))) data cnt w
      = (Ok (Some true), w') /\
    w_nic w' = Some n' /\ nic_good n' /\ nic_sent n' = nic_sent n ++ frames /\
    Forall2 (frame_ok c mac s0 data) (range2 k (n_chunks data)) frames /\
    can_send cid c' mac w' /\
    (0 < Z.of_nat m -> snd_seq c' = (s0 + len data) mod 4294967296).
Proof.
  induction m as [|m IH]; intros k n w c cnt Hm Hk Hc Hn Hg Hd Hf Hseq.
  - rewrite range2_nil by lia. simpl. exists [], w, n, c.
    split_and!; auto; [by rewrite app_nil_r|lia].
  - rewrite range2_cons by lia. cbn [map send_chunks].
    assert (0 <= k < n_chunks data) as Hkr by lia.
    pose proof (len_chunk data k Hkr) as Hlc. pose proof (n_chunks_bounds _ _ Hkr) as Hb.
    unfold TCP_MAX_PAYLOAD in Hb.
    assert (consumes_seq psh_ack (chunk data k) = true) as Hcons
      by (unfold consumes_seq; destruct (chunk data k); [rewrite len_nil in Hlc; lia|done]).
    destruct (send_segment_nowait_wire cid c mac psh_ack (chunk data k) n w)
      as (frame & n1 & E & Hg1 & Hs1 & f & p & Hfs & Hdst & Hsrc & Hdip); auto.
    { by vm_compute. } { unfold chunk. auto with py. } { unfold TCP_MAX_PAYLOAD. lia. }
    fold (chunk data k). fold psh_ack. rewrite (bind_step _ _ _ _ _ E).
    pose proof (can_send_after cid c mac psh_ack (chunk data k) n1 w Hc Hcons) as Hc1.
    set (w1 := after_send cid psh_ack (chunk data k) n1 w) in *.
    assert (w_nic w1 = Some n1) as Hn1 by (unfold w1, after_send; by rewrite Hcons).
    assert (forall b : bool, (if b then poll_all fuel isn else ret (Some tt)) w1 = (Ok (Some tt), w1)) as Hp
      by (intros []; [by eapply poll_all_idle|done]).
    cbn [negb]. rewrite (bind_step _ _ _ _ _ (Hp _)).
    assert (snd_seq (advance_seq (chunk data k) c) = (s0 + (k * 1200 + len (chunk data k))) mod 4294967296) as Hadv.
    { unfold advance_seq. cbn [set_snd_seq snd_seq]. change 0xFFFFFFFF with (Z.ones 32).
      rewrite Z.land_ones, Hseq by lia. change (2 ^ 32) with 4294967296.
      rewrite Z.add_mod_idemp_l by lia. f_equal. lia. }
    destruct m as [|m].
    + rewrite range2_nil by lia. cbn [map send_chunks]. exists [frame], w1, n1, (advance_seq (chunk data k) c).
      split_and!; auto.
      * constructor; [|constructor]. exists f, p, (mk_segment c psh_ack (chunk data k)). naive_solver.
      * intros _. rewrite Hadv. f_equal. unfold n_chunks, TCP_MAX_PAYLOAD in Hm. rewrite Hlc.
        pose proof (Z.div_mod (len data + 1200 - 1) 1200). pose proof (Z.mod_pos_bound (len data + 1200 - 1) 1200). lia.
    + assert (len (chunk data k) = 1200) as Hfull.
      { rewrite Hlc. assert (0 <= k + 1 < n_chunks data) as Hk1 by lia.
        pose proof (n_chunks_bounds _ _ Hk1) as Hb1. unfold TCP_MAX_PAYLOAD in Hb1. lia. }
      destruct (IH (k + 1) n1 w1 (advance_seq (chunk data k) c) (cnt + 1))
        as (frames & w' & n' & c' & E' & Hn' & Hg' & Hs' & HF & Hc' & Hfin); auto; try lia.
      { rewrite Hadv, Hfull. f_equal. lia. }
      exists (frame :: frames), w', n', c'. split_and!; auto.
      * by rewrite Hs', Hs1, <- (assoc_L (++)).
      * constructor; [|exact HF]. exists f, p, (mk_segment c psh_ack (chunk data k)). naive_solver.
Qed.

(** ** Main property *)

(** The whole transmission, and what it leaves. *)
Lemma send_nowait_frames cid c mac n w data fuel isn :
  can_send cid c mac w -> w_nic w = Some n -> nic_good n -> bytes_ok data -> data <> [] ->
  (0 < fuel)%nat ->
  exists frames w' n' c',
    send_nowait cid data fuel isn w = (Ok (Some true), w') /\
    w_nic w' = Some n' /\ nic_good n' /\ nic_sent n' = nic_sent n ++ frames /\
    Forall2 (frame_ok c mac (snd_seq c) data) (range (n_chunks data)) frames /\
    concat (map (chunk data) (range (n_chunks data))) = data /\
    w_objs w' !! cid = Some c' /\
    snd_seq c' = (snd_seq c + len data) mod 4294967296.
Proof.
  intros Hc Hn Hg Hd Hne Hf.
  assert (0 < n_chunks data) as Hpos.
  { unfold n_chunks, TCP_MAX_PAYLOAD. apply Z.div_str_pos. destruct data; [done|].
    rewrite len_cons. pose proof (len_nonneg data). lia. }
  assert (snd_seq c = (snd_seq c + 0 * 1200) mod 4294967296) as Hseq.
  { rewrite Z.add_0_r. destruct (cs_seqs _ _ _ _ Hc) as [Hu _]. unfold u32 in Hu. by rewrite Z.mod_small. }
  destruct (send_chunks_wire cid mac fuel isn data (snd_seq c) (Z.to_nat (n_chunks data)) 0 n w c 0)
    as (frames & w' & n' & c' & E & Hn' & Hg' & Hs & HF & Hc' & Hfin); auto; try lia.
  exists frames, w', n', c'. split_and!; auto.
  - unfold send_nowait, range_step. fold (n_chunks data). rewrite (bind_step _ _ _ _ _ E).
    by rewrite (bind_step _ _ _ _ _ (poll_all_idle fuel isn n' w' Hn' Hg' Hf)).
  - apply chunks_concat_all.
  - apply Hc'.
  - apply Hfin. lia.
Qed.

(** C4: [send_nowait] transmits the data, all of it, in order: on a connection
    that can transmit (NIC up and accepting, next hop resolved) it returns
    [True], and the frames the NIC got decode (Ethernet, IPv4, TCP) to one
    segment per 1200-byte chunk, in order, from the connection's addresses and
    ports, whose sequence numbers are consecutive modulo 2^32, whose payloads
    concatenate to the data, and the connection's next sequence number has
    advanced by the length of the data. *)
Theorem send_nowait_wire cid c mac n w data fuel isn :
  can_send cid c mac w -> w_nic w = Some n -> nic_good n -> bytes_ok data -> data <> [] ->
  (0 < fuel)%nat ->
  exists frames w' n' c',
    send_nowait cid data fuel isn w = (Ok (Some true), w') /\
    w_nic w' = Some n' /\ nic_sent n' = nic_sent n ++ frames /\
    Forall2 (frame_ok c mac (snd_seq c) data) (range (n_chunks data)) frames /\
    concat (map (chunk data) (range (n_chunks data))) = data /\
    w_objs w' !! cid = Some c' /\
    snd_seq c' = (snd_seq c + len data) mod 4294967296.
Proof.
  intros Hc Hn Hg Hd Hne Hf.
  destruct (send_nowait_frames cid c mac n w data fuel isn Hc Hn Hg Hd Hne Hf) as (frames & w' & n' & c' & E1 & E2 & _ & E3 & E4).
  by exists frames, w', n', c'.
Qed.
End Wire.

Definition witness_conn : TCPConnection :=
  mkConn [10; 0; 2; 15] [10; 0; 2; 2] 49152 80 ESTABLISHED 4294967290 7 65535 [] false false None.

Definition witness_world : world tape :=
  mkWorld (Some {| tp_mac := [2; 0; 0; 0; 0; 1]; tp_sent := []; tp_rx := [] |})
    [10; 0; 2; 15] [2; 0; 0; 0; 0; 1] [10; 0; 2; 2] [255; 255; 255; 0] 0
    {[ [10; 0; 2; 2] := [2; 0; 0; 0; 0; 2] ]} ∅ [] {[ 0%nat := witness_conn ]}
    {[ ([10; 0; 2; 15], 49152, [10; 0; 2; 2], 80) := 0%nat ]} ∅ ∅ 49153 [].

Lemma send_nowait_wire_witness :
  exists w', send_nowait 0 [104; 101; 108; 108; 111; 32; 119; 111] 1 (fun _ => 0) witness_world
    = (Ok (Some true), w').
Proof.
  destruct (send_nowait_wire 0 witness_conn [2; 0; 0; 0; 0; 2]
    {| tp_mac := [2; 0; 0; 0; 0; 1]; tp_sent := []; tp_rx := [] |} witness_world
    [104; 101; 108; 108; 111; 32; 119; 111] 1 (fun _ => 0)) as (frames & w' & n' & c' & E & _).
  - constructor; try reflexivity; unfold u16, u32; simpl; try lia;
      try (split; repeat (constructor; [unfold byte_ok; lia|]); constructor);
      repeat (constructor; [unfold byte_ok; lia|]); constructor.
  - reflexivity.
  - reflexivity.
  - repeat (constructor; [unfold byte_ok; lia|]). constructor.
  - discriminate.
  - lia.
  - exists w'. exact E.
Defined.
