(* ===== verification/NetProps.v ===== *)
(** * The TCP state machine, ports and ARP

    Properties of the handlers of [Net.v] that hold for every NIC: which state
    changes a connection can make, that received bytes are delivered once and in
    arrival order, how ephemeral ports are drawn, and what ARP learns and
    answers. *)

From Stdlib Require Import ZArith Lia.
From stdpp Require Import base list gmap numbers.
From S2P Require Import Prelude Bytes Packets Net NetWire.

Local Open Scope Z_scope.

Section NetProps.
Context {N : Type} `{Nic N}.
Implicit Types w : world N.

(** ** Frame lemmas: what the send path does not touch *)

(** The part of the world that sending a frame leaves alone. *)
Definition same_but_nic (w0 w : world N) : Prop :=
  w_objs w = w_objs w0 /\ w_connections w = w_connections w0 /\
  w_listeners w = w_listeners w0 /\ w_queues w = w_queues w0 /\
  w_table w = w_table w0 /\ w_pending w = w_pending w0 /\ w_futs w = w_futs w0 /\
  w_local_ip w = w_local_ip w0 /\ w_local_mac w = w_local_mac w0 /\ w_gateway w = w_gateway w0 /\
  w_next_port w = w_next_port w0 /\ w_tasks w = w_tasks w0.

Lemma keeps_send_frame w0 frame : keeps (same_but_nic w0) (send_frame_nowait frame).
Proof.
  intros w r w' Hw E. unfold send_frame_nowait in E. repeat case_match; simplify_eq; done.
Qed.

Lemma keeps_build_frame w0 seg sip dip mac : keeps (same_but_nic w0) (build_frame seg sip dip mac).
Proof.
  unfold build_frame. do 3 (apply keeps_bind; [auto with py|intros ?]).
  apply keeps_bind; [|auto with py].
  intros w r w' Hw E. unfold encode_ip, zoom in E. case_match. by simplify_eq.
Qed.

#[local] Hint Resolve keeps_send_frame keeps_build_frame : py.

Lemma keeps_send_tcp w0 seg sip dip : keeps (same_but_nic w0) (send_tcp_segment_nowait seg sip dip).
Proof.
  unfold send_tcp_segment_nowait, arp_lookup.
  apply keeps_bind; [auto with py|intros [n|]]; [|auto with py].
  apply keeps_bind; [auto with py|intros nh]. apply keeps_bind; [auto with py|intros [mac|]].
  - apply keeps_bind; auto with py.
  - apply keeps_bind; [auto with py|intros w]. apply keeps_bind; [auto with py|intros req].
    apply keeps_bind; auto with py.
Qed.

(** ** Connection objects *)

Lemma conn_get_eq cid c w : w_objs w !! cid = Some c -> conn_get cid w = (Ok c, w).
Proof. intros E. unfold conn_get. by rewrite E. Qed.

Definition put_conn (cid : nat) (c : TCPConnection) (w : world N) : world N :=
  set_objs (<[cid := c]> (w_objs w)) w.

Lemma put_conn_get cid c w : w_objs (put_conn cid c w) !! cid = Some c.
Proof. simpl. apply lookup_insert_eq. Qed.

Lemma put_put cid c1 c2 w : put_conn cid c2 (put_conn cid c1 w) = put_conn cid c2 w.
Proof. unfold put_conn. destruct w. cbn. by rewrite insert_insert_eq. Qed.

(** A mutation of a connection object, then the rest of the handler. *)
Lemma upd_then {A} cid f c (k : M (world N) A) w :
  w_objs w !! cid = Some c -> (conn_upd cid f ;;; k) w = k (put_conn cid (f c) w).
Proof.
  intros E. unfold bind, conn_upd, modify, put_conn. do 2 f_equal.
  apply map_eq. intros i. rewrite lookup_alter, lookup_insert.
  case_decide; [subst; by rewrite E|done].
Qed.

Lemma upd_last cid f c w :
  w_objs w !! cid = Some c -> conn_upd cid f w = (Ok tt, put_conn cid (f c) w).
Proof.
  intros E. pose proof (upd_then cid f c (ret tt) w E) as Hk. unfold bind, ret in Hk.
  destruct (conn_upd cid f w) as [[[]|e] w1] eqn:E1; by simplify_eq.
Qed.

Lemma consumes_ack : consumes_seq F_ACK [] = false.
Proof. done. Qed.

(** Acknowledging never changes a connection object. *)
Lemma send_ack_objs cid sync w r w' : send_ack cid sync w = (r, w') -> w_objs w' = w_objs w.
Proof.
  unfold send_ack. destruct sync; [|unfold ensure_future, modify; intros; by simplify_eq].
  unfold send_segment_nowait. rewrite bind_assoc. unfold bind at 1, conn_get.
  destruct (w_objs w !! cid) as [c|] eqn:Ec; [|intros; by simplify_eq].
  unfold bind. destruct (send_tcp_segment_nowait _ _ _ w) as [r1 w1] eqn:E1.
  assert (same_but_nic w w1) as (Hobjs & _) by (by eapply (keeps_send_tcp w)).
  destruct r1 as [ok|e]; [|intros; by simplify_eq].
  rewrite consumes_ack, andb_false_r. unfold ret. intros. by simplify_eq.
Qed.

(** ** The connection state machine *)

(** The edges the handlers use. *)
Inductive tcp_edge : TCPState -> TCPState -> Prop :=
| e_stay s : tcp_edge s s
| e_accept : tcp_edge SYN_RCVD ESTABLISHED
| e_connect : tcp_edge SYN_SENT ESTABLISHED
| e_refuse : tcp_edge SYN_SENT CLOSED
| e_peer_close : tcp_edge ESTABLISHED CLOSE_WAIT
| e_close : tcp_edge ESTABLISHED FIN_WAIT_1
| e_last_ack : tcp_edge CLOSE_WAIT LAST_ACK.
#[local] Hint Constructors tcp_edge : core.

(** The payload a segment delivers in a given state. *)
Definition delivered (s : TCPState) (seg : TCPSegment) : bytes :=
  match s with ESTABLISHED => payload seg | _ => [] end.

(** What handling [seg] may make of connection [c]. *)
Definition seg_rel (seg : TCPSegment) (c c' : TCPConnection) : Prop :=
  rcv_buf c' = rcv_buf c ++ delivered (state c) seg /\
  tcp_edge (state c) (state c') /\
  snd_seq c' = snd_seq c /\ local_port c' = local_port c /\ remote_port c' = remote_port c /\
  local_ip c' = local_ip c /\ remote_ip c' = remote_ip c.

(** [w'] is [w] with connection [cid] related by [R] and no other object
    changed. *)
Definition on_conn (R : TCPConnection -> TCPConnection -> Prop) (cid : nat) (c : TCPConnection)
    (w w' : world N) : Prop :=
  exists c', R c c' /\ w_objs w' = <[cid := c']> (w_objs w).

Lemma settle_fields r c :
  state (settle_connected r c) = state c /\ rcv_buf (settle_connected r c) = rcv_buf c /\
  snd_seq (settle_connected r c) = snd_seq c /\ snd_ack (settle_connected r c) = snd_ack c /\
  local_port (settle_connected r c) = local_port c /\ remote_port (settle_connected r c) = remote_port c /\
  local_ip (settle_connected r c) = local_ip c /\ remote_ip (settle_connected r c) = remote_ip c.
Proof. unfold settle_connected. by repeat case_match. Qed.

Lemma on_conn_id (R : TCPConnection -> TCPConnection -> Prop) cid c w :
  w_objs w !! cid = Some c -> R c c -> on_conn R cid c w w.
Proof. intros E HR. exists c. split; [done|]. by rewrite insert_id. Qed.

(** The two acknowledged parts of the ESTABLISHED branch. *)
Definition take_data (seg : TCPSegment) (c : TCPConnection) : TCPConnection :=
  set_rx_event true (set_rcv_buf (rcv_buf c ++ payload seg)
    (set_snd_ack (Z.land (seq_no seg + len (payload seg)) 0xFFFFFFFF) c)).
Definition take_fin_ack (seg : TCPSegment) (c : TCPConnection) : TCPConnection :=
  set_snd_ack (Z.land (seq_no seg + 1) 0xFFFFFFFF) c.
Definition take_fin (seg : TCPSegment) (c : TCPConnection) : TCPConnection :=
  set_rx_event true (set_state CLOSE_WAIT (take_fin_ack seg c)).

(** An acknowledgement between two updates. *)
Lemma ack_then {A} cid sync (k : M (world N) A) w r w' :
  (send_ack cid sync ;;; k) w = (r, w') ->
  exists w1, w_objs w1 = w_objs w /\ ((exists e, r = Err e /\ w' = w1) \/ k w1 = (r, w')).
Proof.
  unfold bind. destruct (send_ack cid sync w) as [[u|e] w1] eqn:E; intros Hk;
    exists w1; (split; [by eapply send_ack_objs|]); naive_solver.
Qed.

(** The FIN part of the ESTABLISHED branch, from any state of the object. *)
Lemma fin_part cid c seg sync w r w' :
  w_objs w !! cid = Some c ->
  (if has_flag (flags seg) F_FIN then
     conn_upd cid (set_snd_ack (Z.land (seq_no seg + 1) 0xFFFFFFFF)) ;;;
     send_ack cid sync ;;;
     conn_upd cid (set_state CLOSE_WAIT) ;;;
     conn_upd cid (set_rx_event true)
   else ret tt) w = (r, w') ->
  on_conn (fun a b => b = a \/ b = take_fin_ack seg a \/ b = take_fin seg a) cid c w w' /\
  (r = Ok tt -> w_objs w' = <[cid := if has_flag (flags seg) F_FIN then take_fin seg c else c]> (w_objs w)).
Proof.
  intros Ec E. destruct (has_flag (flags seg) F_FIN).
  - rewrite (upd_then _ _ c) in E by done. apply ack_then in E as (w1 & Ho & [(e & -> & ->)|E]).
    + split; [|done]. exists (take_fin_ack seg c). by rewrite Ho; auto.
    + rewrite (upd_then _ _ (take_fin_ack seg c)) in E by (rewrite Ho; apply put_conn_get).
      rewrite (upd_last _ _ (set_state CLOSE_WAIT (take_fin_ack seg c))) in E by apply put_conn_get.
      rewrite put_put in E. simplify_eq.
      assert (w_objs (put_conn cid (take_fin seg c) w1) = <[cid := take_fin seg c]> (w_objs w)) as Hw.
      { cbn. rewrite Ho. cbn. by rewrite insert_insert_eq. }
      split; [|done]. exists (take_fin seg c). auto.
  - unfold ret in E. simplify_eq. split; [apply on_conn_id; auto|by rewrite insert_id].
Qed.

Lemma handle_segment_est cid c seg sync w r w' :
  w_objs w !! cid = Some c -> state c = ESTABLISHED ->
  handle_segment cid seg sync w = (r, w') ->
  on_conn (seg_rel seg) cid c w w' /\
  (r = Ok tt -> w_objs w' =
     <[cid := (if has_flag (flags seg) F_FIN then take_fin seg else id)
              (match payload seg with [] => c | _ => take_data seg c end)]> (w_objs w)).
Proof.
  intros Ec Es E. unfold handle_segment in E. rewrite (bind_step _ _ _ _ _ (conn_get_eq _ _ _ Ec)), Es in E.
  destruct (payload seg) as [|b pl] eqn:Epl.
  - unfold bind at 1, ret at 1 in E. apply fin_part with (c := c) in E as [(c' & Hc & Ho) Hok]; [|done].
    split; [|intros Hr; rewrite (Hok Hr); by destruct (has_flag _ _)].
    exists c'. split; [|done]. unfold seg_rel, delivered. rewrite Es, Epl, app_nil_r.
    destruct Hc as [->|[->| ->]]; simpl; rewrite ?Es; auto 10.
  - rewrite bind_assoc, (upd_then _ _ c) in E by done.
    rewrite bind_assoc, (upd_then _ _ _ _ _ (put_conn_get _ _ _)) in E.
    rewrite bind_assoc, (upd_then _ _ _ _ _ (put_conn_get _ _ _)), !put_put in E.
    match type of E with context [put_conn cid ?x w] =>
      replace x with (take_data seg c) in E by (unfold take_data; by rewrite Epl) end.
    apply ack_then in E as (w1 & Ho & [(e & -> & ->)|E]).
    + split; [|done]. exists (take_data seg c). split; [|by rewrite Ho].
      unfold seg_rel, delivered. rewrite Es. simpl. rewrite Es. auto 10.
    + apply fin_part with (c := take_data seg c) in E as [(c' & Hc & Ho') Hok];
        [|rewrite Ho; apply put_conn_get].
      rewrite Ho in Ho', Hok. cbn [put_conn set_objs w_objs] in Ho', Hok.
      rewrite insert_insert_eq in Ho', Hok. split; [|intros Hr; rewrite (Hok Hr); by destruct (has_flag _ _)].
      exists c'. split; [|done]. unfold seg_rel, delivered. rewrite Es.
      destruct Hc as [->|[->| ->]]; simpl; rewrite ?Es; auto 10.
Qed.

Lemma handle_segment_rel cid c seg sync w r w' :
  w_objs w !! cid = Some c -> handle_segment cid seg sync w = (r, w') ->
  on_conn (seg_rel seg) cid c w w'.
Proof.
  intros Ec E. destruct (decide (state c = ESTABLISHED)) as [Es|Hne];
    [by eapply handle_segment_est|].
  unfold handle_segment in E. rewrite (bind_step _ _ _ _ _ (conn_get_eq _ _ _ Ec)) in E.
  assert (on_conn (seg_rel seg) cid c w w) as Hid.
  { apply on_conn_id; [done|]. unfold seg_rel, delivered. destruct (state c); try done;
      rewrite app_nil_r; auto 10. }
  destruct (state c) eqn:Es; try done; try (unfold ret in E; by simplify_eq).
  - destruct (has_flag (flags seg) F_SYN && has_flag (flags seg) F_ACK).
    + rewrite (upd_then _ _ c) in E by done. unfold bind at 1, ensure_future, modify in E.
      rewrite (upd_then _ _ (set_snd_ack (Z.land (seq_no seg + 1) 0xFFFFFFFF) c)) in E
        by apply put_conn_get.
      rewrite (upd_last _ _ _ _ (put_conn_get _ _ _)), put_put in E. simplify_eq.
      eexists. split; [|cbn [put_conn set_objs w_objs add_task]; by rewrite insert_insert_eq].
      unfold seg_rel. rewrite Es. destruct (settle_fields (FResult tt) (set_state ESTABLISHED
        (set_snd_ack (Z.land (seq_no seg + 1) 0xFFFFFFFF) c))) as (-> & -> & -> & _ & -> & -> & -> & ->).
      simpl. rewrite app_nil_r. auto 10.
    + destruct (has_flag (flags seg) F_RST); [|unfold ret in E; by simplify_eq].
      rewrite (upd_then _ _ c) in E by done.
      rewrite (upd_last _ _ _ _ (put_conn_get _ _ _)), put_put in E. simplify_eq.
      eexists. split; [|done]. unfold seg_rel. rewrite Es.
      destruct (settle_fields (FExc ConnectionRefusedError) (set_state CLOSED c))
        as (-> & -> & -> & _ & -> & -> & -> & ->). simpl. rewrite app_nil_r. auto 10.
  - destruct (has_flag (flags seg) F_ACK); [|unfold ret in E; by simplify_eq].
    rewrite (upd_then _ _ c) in E by done.
    rewrite (upd_last _ _ _ _ (put_conn_get _ _ _)), put_put in E. simplify_eq.
    eexists. split; [|done]. unfold seg_rel. rewrite Es. simpl. rewrite app_nil_r. auto 10.
Qed.

(** ** A connection's byte stream *)

Lemma send_segment_nowait_objs cid c fl pl w r w' :
  w_objs w !! cid = Some c -> send_segment_nowait cid fl pl w = (r, w') ->
  w_objs w' = w_objs w \/ w_objs w' = <[cid := advance_seq pl c]> (w_objs w).
Proof.
  intros Ec. unfold send_segment_nowait.
  rewrite (bind_step _ _ _ _ _ (conn_get_eq _ _ _ Ec)). unfold bind at 1.
  destruct (send_tcp_segment_nowait _ _ _ w) as [r1 w1] eqn:E1.
  assert (same_but_nic w w1) as (Hobjs & _) by (by eapply (keeps_send_tcp w)).
  destruct r1 as [ok|e]; [|intros; simplify_eq; by left].
  destruct (ok && consumes_seq fl pl).
  - rewrite (upd_then _ _ c) by (by rewrite Hobjs). unfold ret. intros. simplify_eq. right.
    simpl. by rewrite Hobjs.
  - unfold bind, ret. intros. simplify_eq. by left.
Qed.

Lemma recv_split (buf : bytes) n : slice_to buf n ++ slice_assign buf 0 n [] = buf.
Proof.
  unfold slice_to, slice, slice_assign. pose proof (len_nonneg buf).
  pose proof (clamp_bounds (len buf) n). rewrite (clamp_id (len buf) 0) by lia.
  rewrite Z.sub_0_r, Z.max_r by lia. change (Z.to_nat 0) with 0%nat. rewrite drop_0. simpl.
  apply take_drop.
Qed.

Lemma conn_close_rel cid c w r w' :
  w_objs w !! cid = Some c -> conn_close cid w = (r, w') ->
  on_conn (fun a b => rcv_buf b = rcv_buf a /\ tcp_edge (state a) (state b)) cid c w w'.
Proof.
  intros Ec E. unfold conn_close in E. rewrite (bind_step _ _ _ _ _ (conn_get_eq _ _ _ Ec)) in E.
  destruct (state c) eqn:Es; try (unfold ret in E; simplify_eq; by apply on_conn_id; auto);
    unfold bind at 1, ensure_future, modify in E;
    rewrite (upd_last _ _ c) in E by done; simplify_eq; eexists; (split; [|done]); simpl; by rewrite Es.
Qed.

(** What the peer, the application and the stack do to connection [cid]; [got]
    is what the application's [recv] calls returned, [fed] the payload bytes of
    the segments that arrived while the connection was established. *)
Inductive io_step (cid : nat) : world N * bytes * bytes -> world N * bytes * bytes -> Prop :=
| io_segment seg sync r c w w' got fed :
    w_objs w !! cid = Some c -> handle_segment cid seg sync w = (r, w') ->
    io_step cid (w, got, fed) (w', got, fed ++ delivered (state c) seg)
| io_recv n d w w' got fed :
    recv cid n w = (Ok (Some d), w') -> io_step cid (w, got, fed) (w', got ++ d, fed)
| io_block n w w' got fed :
    recv cid n w = (Ok None, w') -> io_step cid (w, got, fed) (w', got, fed)
| io_close r w w' got fed :
    conn_close cid w = (r, w') -> io_step cid (w, got, fed) (w', got, fed)
| io_send fl pl r w w' got fed :
    send_segment_nowait cid fl pl w = (r, w') -> io_step cid (w, got, fed) (w', got, fed).

Definition io_inv (cid : nat) (buf0 : bytes) (s0 : TCPState) (x : world N * bytes * bytes) : Prop :=
  let '(w, got, fed) := x in
  exists c, w_objs w !! cid = Some c /\ got ++ rcv_buf c = buf0 ++ fed /\ steps tcp_edge s0 (state c).

Lemma steps_snoc {St} (R : St -> St -> Prop) a b c : steps R a b -> R b c -> steps R a c.
Proof. intros H1 H2. eapply steps_trans; [done|]. eapply steps_cons; [done|apply steps_refl]. Qed.

Lemma recv_effect cid c n r w w' :
  w_objs w !! cid = Some c -> recv cid n w = (Ok r, w') ->
  exists c', w_objs w' !! cid = Some c' /\ state c' = state c /\
    match r with Some d => d ++ rcv_buf c' = rcv_buf c | None => rcv_buf c' = rcv_buf c end.
Proof.
  intros Ec E. unfold recv in E. rewrite (bind_step _ _ _ _ _ (conn_get_eq _ _ _ Ec)) in E.
  destruct (rcv_buf c) as [|b l] eqn:Eb.
  - case_match; [unfold ret in E; simplify_eq; by exists c|].
    rewrite (upd_then _ _ c) in E by done. unfold ret in E. simplify_eq.
    eexists. split; [apply put_conn_get|]. done.
  - rewrite (upd_then _ _ c) in E by done. unfold ret in E. simplify_eq.
    eexists. split; [apply put_conn_get|]. simpl. split; [done|apply recv_split].
Qed.

Lemma io_inv_step cid buf0 s0 x y : io_inv cid buf0 s0 x -> io_step cid x y -> io_inv cid buf0 s0 y.
Proof.
  intros Hx Hs. destruct Hs as [seg sync r c w w' got fed Ec E|n d w w' got fed E|n w w' got fed E
    |r w w' got fed E|fl pl r w w' got fed E]; destruct Hx as (c0 & Ec0 & Hb & Hst).
  - rewrite Ec in Ec0. simplify_eq. apply handle_segment_rel with (c := c0) in E as (c' & (Hr & He & _) & Ho); [|done].
    exists c'. rewrite Ho, lookup_insert_eq. split_and!; [done| |by eapply steps_snoc].
    by rewrite Hr, !(assoc_L (++)), Hb.
  - destruct (recv_effect _ _ _ _ _ _ Ec0 E) as (c' & Ho & Hst' & Hd). exists c'.
    rewrite Hst', <- (assoc_L (++)), Hd. done.
  - destruct (recv_effect _ _ _ _ _ _ Ec0 E) as (c' & Ho & Hst' & Hd). exists c'.
    rewrite Hst', Hd. done.
  - apply conn_close_rel with (c := c0) in E as (c' & [Hr He] & Ho); [|done].
    exists c'. rewrite Ho, lookup_insert_eq, Hr. split_and!; [done..|by eapply steps_snoc].
  - apply send_segment_nowait_objs with (c := c0) in E as [Ho|Ho]; [| |done].
    + exists c0. by rewrite Ho.
    + exists (advance_seq pl c0). rewrite Ho, lookup_insert_eq. done.
Qed.

(** ** ARP *)

Lemma arp_learn_spec ip mac w w' :
  arp_learn ip mac w = (Ok tt, w') ->
  w_table w' = <[ip := mac]> (w_table w) /\ w_pending w' = delete ip (w_pending w) /\
  w_nic w' = w_nic w /\ w_local_ip w' = w_local_ip w /\ w_local_mac w' = w_local_mac w /\
  w_futs w' = match w_pending w !! ip with
              | Some f => match w_futs w !! f with
                          | Some FPending => <[f := FResult mac]> (w_futs w)
                          | _ => w_futs w end
              | None => w_futs w end.
Proof. unfold arp_learn, modify. intros. simplify_eq. done. Qed.

(** The 28 bytes of an ARP packet and its fields. *)
Definition arp_bytes (op : Z) (smac sip tmac tip : bytes) : bytes :=
  concat (map field_bytes (arp_packet op smac sip tmac tip)).

Record arp_addrs (smac sip tmac tip : bytes) : Prop := {
  aa_smac : length smac = 6%nat; aa_sip : length sip = 4%nat;
  aa_tmac : length tmac = 6%nat; aa_tip : length tip = 4%nat
}.

Lemma arp_fields op smac sip tmac tip :
  arp_addrs smac sip tmac tip -> u16 op ->
  let p := arp_bytes op smac sip tmac tip in
  pack_fields_be (arp_packet op smac sip tmac tip) = Ok p /\ len p = 28 /\
  unpack_be 2 (slice p 6 8) = Ok op /\
  slice p 8 14 = smac /\ slice p 14 18 = sip /\ slice p 24 28 = tip.
Proof.
  intros [H1 H2 H3 H4] Hop. split.
  { apply pack_fields_be_Ok. unfold u16 in *.
    repeat (constructor; [simpl; lia || done|]). constructor. }
  cbv zeta. unfold arp_bytes. explode smac H1. explode sip H2. explode tmac H3. explode tip H4.
  split_and!; try reflexivity. exact (unpack_be_Ok 2 op Hop).
Qed.

Lemma rx_arp raw f op smac sip tmac tip isn w :
  arp_addrs smac sip tmac tip -> u16 op ->
  ether_decode raw = Ok f -> 14 <= len raw -> ef_ethertype f = ETHERTYPE_ARP ->
  ef_payload f = arp_bytes op smac sip tmac tip ->
  exists w1, arp_learn sip smac w = (Ok tt, w1) /\
    rx_turn raw isn w =
      try_except (maybe_send_arp_reply (arp_bytes op smac sip tmac tip)) (fun _ => ret None) w1.
Proof.
  intros Ha Hop Hd Hl Ht Hp. destruct (arp_fields _ _ _ _ _ Ha Hop) as (_ & Hl28 & Hu & Hs1 & Hs2 & _).
  eexists. split; [reflexivity|]. unfold rx_turn. destruct (Z.ltb_spec (len raw) 14); [lia|].
  unfold try_except, bind at 1, lift. rewrite Hd. unfold dispatch. rewrite Ht, Z.eqb_refl, Hp.
  unfold arp_handle_frame. rewrite Hl28. cbn [Z.ltb Z.compare Pos.compare Pos.compare_cont].
  unfold bind, lift. rewrite Hu, Hs1, Hs2. reflexivity.
Qed.

(** A frame around an ARP packet, as both builders make it. *)
Lemma arp_frame_decodes dst src pl :
  length dst = 6%nat -> length src = 6%nat -> len pl = 28 ->
  exists raw, ether_encode {| ef_dst := dst; ef_src := src; ef_ethertype := ETHERTYPE_ARP; ef_payload := pl |} = Ok raw /\
    ether_decode raw = Ok {| ef_dst := dst; ef_src := src; ef_ethertype := ETHERTYPE_ARP; ef_payload := pl |} /\
    14 <= len raw.
Proof.
  intros Hd Hs Hl. set (f := {| ef_dst := dst |}).
  destruct (ether_decode_encode f) as (raw & E & D); [constructor; simpl; done|].
  exists raw. split_and!; [done|done|]. unfold ether_decode in D.
  destruct (Z.ltb_spec (len raw) 14); [done|lia].
Qed.

(** ** Main properties *)

(** C5: the byte stream of a connection: whatever segments arrive (in any
    order and on either receive path), however the application interleaves
    [recv], [close] and sends, and even when an acknowledgement cannot be sent,
    the bytes [recv] returned followed by those still buffered are the initial
    buffer followed by the payloads of the segments that arrived in
    ESTABLISHED, in order, none lost, duplicated or reordered by this code; and
    the connection's state moves along the edges of the state machine. *)
Theorem tcp_stream_integrity cid c w w' got fed :
  w_objs w !! cid = Some c ->
  steps (io_step cid) (w, [], []) (w', got, fed) ->
  exists c', w_objs w' !! cid = Some c' /\ got ++ rcv_buf c' = rcv_buf c ++ fed /\
    steps tcp_edge (state c) (state c').
Proof.
  intros Ec Hs.
  refine (steps_invariant _ (io_inv cid (rcv_buf c) (state c)) (io_inv_step cid _ _) _ _ _ Hs).
  exists c. split_and!; [done|by rewrite app_nil_r|apply steps_refl].
Qed.

(** A FIN segment that also carries data is acknowledged one byte past its
    start: after the handler returns, the connection is in CLOSE_WAIT with the
    data in its buffer, but its acknowledgement number is [seq + 1] modulo
    2^32, short of the [seq + len + 1] that acknowledges the data and the
    FIN. *)
Theorem tcp_fin_with_data_ack cid c seg sync w w' :
  w_objs w !! cid = Some c -> state c = ESTABLISHED ->
  has_flag (flags seg) F_FIN = true -> 0 < len (payload seg) < 65536 -> u32 (seq_no seg) ->
  handle_segment cid seg sync w = (Ok tt, w') ->
  exists c', w_objs w' !! cid = Some c' /\ state c' = CLOSE_WAIT /\
    rcv_buf c' = rcv_buf c ++ payload seg /\
    snd_ack c' = (seq_no seg + 1) mod 4294967296 /\
    snd_ack c' <> (seq_no seg + len (payload seg) + 1) mod 4294967296.
Proof.
  intros Ec Es Hfin Hlen Hu E. apply handle_segment_est with (c := c) in E as [_ Ho]; [|done..].
  specialize (Ho eq_refl). rewrite Hfin in Ho.
  eexists. rewrite Ho, lookup_insert_eq. split; [done|].
  assert (Z.land (seq_no seg + 1) 0xFFFFFFFF = (seq_no seg + 1) mod 4294967296) as Hl
    by (change 0xFFFFFFFF with (Z.ones 32); by rewrite Z.land_ones by lia).
  destruct (payload seg) as [|b pl] eqn:Epl; [exfalso; revert Hlen; unfold len; simpl; lia|].
  unfold take_fin, take_fin_ack, take_data. cbn -[Z.land Z.modulo]. rewrite Hl, Epl.
  split_and!; [done..|]. intros Hbad. unfold u32 in Hu.
  assert ((seq_no seg + 1 - (seq_no seg + len (b :: pl) + 1)) mod 4294967296 = 0) as Hz
    by (rewrite Zminus_mod, Hbad, Z.sub_diag; done).
  apply Z.mod_divide in Hz as [k Hk]; [|done]. lia.
Qed.

(** Ephemeral ports: the [k]-th port drawn from a stack whose counter is in
    range is the counter advanced cyclically through 49152..65535, the counter
    stays in range, and any 16384 consecutive draws are distinct. *)
Theorem tcp_alloc_port_cycle w n :
  49152 <= w_next_port w < 65536 -> 0 <= n ->
  exists ports w', map_m (range n) (fun _ => alloc_port) w = (Ok ports, w') /\
    ports = map (fun k => 49152 + (w_next_port w - 49152 + k) mod 16384) (range n) /\
    49152 <= w_next_port w' < 65536 /\ (n <= 16384 -> NoDup ports).
Proof.
  intros Hp Hn. set (p0 := w_next_port w) in *.
  assert (forall (l : list Z) w1 k, w_next_port w1 = 49152 + (p0 - 49152 + k) mod 16384 ->
    exists w', map_m l (fun _ => alloc_port) w1
      = (Ok (map (fun i => 49152 + (p0 - 49152 + i) mod 16384) (range2 k (k + Z.of_nat (length l)))), w') /\
      w_next_port w' = 49152 + (p0 - 49152 + (k + Z.of_nat (length l))) mod 16384) as Hgen.
  { induction l as [|x l IH]; intros w1 k Hk.
    - exists w1. rewrite range2_nil by (simpl; lia). split; [done|]. simpl. rewrite Hk. f_equal. f_equal. lia.
    - destruct (IH (set_next_port ((w_next_port w1 + 1 - 49152) mod 16384 + 49152) w1) (k + 1)) as (w' & E & Hw').
      { simpl. rewrite Hk. rewrite Z.add_comm. f_equal.
        replace (49152 + (p0 - 49152 + k) mod 16384 + 1 - 49152) with ((p0 - 49152 + k) mod 16384 + 1) by lia.
        rewrite Z.add_mod_idemp_l by lia. f_equal. lia. }
      exists w'. cbn [map_m]. unfold bind at 1, alloc_port. rewrite (bind_step _ _ _ _ _ E).
      unfold ret. cbn [length]. rewrite (range2_cons k) by lia. cbn [map].
      replace (k + 1 + Z.of_nat (length l)) with (k + Z.of_nat (S (length l))) by lia.
      rewrite Hk. split; [do 3 f_equal; f_equal; f_equal; lia|]. rewrite Hw'. do 3 f_equal. lia. }
  destruct (Hgen (range n) w 0) as (w' & E & Hw').
  { rewrite Z.add_0_r. rewrite Z.mod_small by lia. unfold p0. lia. }
  assert (0 + Z.of_nat (length (range n)) = n) as Hlen by (unfold range; rewrite length_range2; lia).
  rewrite Hlen in *. eexists _, w'. split_and!; [exact E|done| | |].
  - rewrite Hw'. pose proof (Z.mod_pos_bound (p0 - 49152 + n) 16384). lia.
  - rewrite Hw'. pose proof (Z.mod_pos_bound (p0 - 49152 + n) 16384). lia.
  - intros Hle. unfold range, range2. rewrite map_map.
    apply (NoDup_fmap_2_strong (fun i => 49152 + (p0 - 49152 + (0 + Z.of_nat i)) mod 16384)); [|apply NoDup_seq].
    intros i j Hi Hj Hij. rewrite list_elem_of_In, in_seq in Hi, Hj.
    assert ((p0 - 49152 + (0 + Z.of_nat i) - (p0 - 49152 + (0 + Z.of_nat j))) mod 16384 = 0) as Hz.
    { rewrite Zminus_mod. replace ((p0 - 49152 + (0 + Z.of_nat i)) mod 16384)
        with ((p0 - 49152 + (0 + Z.of_nat j)) mod 16384) by lia. by rewrite Z.sub_diag. }
    apply Z.mod_divide in Hz as [q Hq]; [|done]. lia.
Qed.

(** The ARP exchange: when a host broadcasts a request for this machine's
    address, this machine learns the sender's address and answers with a frame
    that teaches the requester this machine's MAC and completes the requester's
    pending resolution, and that itself gets no answer; a request for another
    address teaches but gets no answer. *)
Theorem arp_exchange w_a w_b isn :
  length (w_local_mac w_a) = 6%nat -> length (w_local_ip w_a) = 4%nat ->
  length (w_local_mac w_b) = 6%nat -> length (w_local_ip w_b) = 4%nat -> is_Some (w_nic w_b) ->
  forall target, length target = 4%nat ->
  exists req, build_request (w_local_mac w_a) (w_local_ip w_a) target = Ok req /\
  exists reply w_b', rx_turn req isn w_b = (Ok reply, w_b') /\
    w_table w_b' !! w_local_ip w_a = Some (w_local_mac w_a) /\
    (target <> w_local_ip w_b -> reply = None) /\
    (target = w_local_ip w_b -> exists raw, reply = Some raw /\
       exists w_a', rx_turn raw isn w_a = (Ok None, w_a') /\
         w_table w_a' !! target = Some (w_local_mac w_b) /\
         forall f, w_pending w_a !! target = Some f -> w_futs w_a !! f = Some FPending ->
           w_futs w_a' !! f = Some (FResult (w_local_mac w_b))).
Proof.
  intros Ha1 Ha2 Hb1 Hb2 [nb Hnb] target Ht.
  set (ma := w_local_mac w_a) in *. set (ia := w_local_ip w_a) in *.
  set (mb := w_local_mac w_b) in *. set (ib := w_local_ip w_b) in *.
  assert (arp_addrs ma ia (zeros 6) target) as Aq by (by constructor).
  destruct (arp_fields ARP_REQUEST _ _ _ _ Aq) as (Hpk & Hl28 & Hop & Hsm & Hsi & Hti); [done|].
  destruct (arp_frame_decodes BROADCAST_MAC ma (arp_bytes ARP_REQUEST ma ia (zeros 6) target))
    as (req & Ereq & Dreq & Lreq); [done..|].
  exists req. unfold build_request. rewrite Hpk. cbn [rbind]. split; [done|].
  destruct (rx_arp req _ ARP_REQUEST ma ia (zeros 6) target isn w_b Aq ltac:(done) Dreq Lreq eq_refl eq_refl)
    as (w1 & Hlearn & ->).
  apply arp_learn_spec in Hlearn as (Htab & _ & Hnic & Hlip & Hlmac & _).
  unfold maybe_send_arp_reply. rewrite Hl28. cbn [Z.ltb Z.compare Pos.compare Pos.compare_cont].
  unfold try_except, bind, lift, get. rewrite Hop, Hti, Hlip, Hnic, Hnb. fold ib.
  change (ARP_REQUEST =? 1) with true. cbn [negb orb]. rewrite orb_false_r.
  destruct (beq_spec target ib) as [->|Hne]; cbn [negb].
  - assert (arp_addrs mb ib ma ia) as Ar by (by constructor).
    destruct (arp_fields 2 _ _ _ _ Ar) as (Hpk2 & Hl282 & Hop2 & Hsm2 & Hsi2 & Hti2); [done|].
    rewrite Hlmac, Hsm, Hsi. fold mb. rewrite Hpk2.
    destruct (arp_frame_decodes ma mb (arp_bytes 2 mb ib ma ia)) as (raw & Eraw & Draw & Lraw); [done..|].
    rewrite Eraw. eexists _, w1. split_and!; [done|by rewrite Htab, lookup_insert_eq|done|].
    intros _. exists raw. split; [done|].
    destruct (rx_arp raw _ 2 mb ib ma ia isn w_a Ar ltac:(done) Draw Lraw eq_refl eq_refl)
      as (w2 & Hlearn & Hrx).
    apply arp_learn_spec in Hlearn as (Htab2 & _ & _ & _ & _ & Hfuts). exists w2. split_and!.
    + rewrite Hrx. unfold maybe_send_arp_reply. rewrite Hl282.
      cbn [Z.ltb Z.compare Pos.compare Pos.compare_cont]. unfold try_except, bind, lift, get.
      by rewrite Hop2.
    + by rewrite Htab2, lookup_insert_eq.
    + intros f Hp Hf. rewrite Hfuts, Hp, Hf. apply list_lookup_insert_eq. by eapply lookup_lt_Some.
  - unfold ret. eexists _, w1. split_and!; [done|by rewrite Htab, lookup_insert_eq|done|done].
Qed.

(** Two coroutines that resolve the same address concurrently: the second
    replaces the first one's entry in [_pending], so the reply completes only
    the second; the first future stays pending, unknown to the table, and can
    only time out. *)
Theorem arp_concurrent_resolve ip mac w w1 w2 w3 f1 f2 :
  w_table w !! ip = None ->
  arp_resolve_start ip w = (Ok (inr f1), w1) ->
  arp_resolve_start ip w1 = (Ok (inr f2), w2) ->
  arp_learn ip mac w2 = (Ok tt, w3) ->
  w_futs w3 !! f2 = Some (FResult mac) /\ w_futs w3 !! f1 = Some FPending /\
  w_pending w3 !! ip = None.
Proof.
  intros Ht E1 E2 E3. unfold arp_resolve_start in E1. rewrite Ht in E1. simplify_eq.
  unfold arp_resolve_start in E2. cbn [set_arp w_table w_futs] in E2. rewrite Ht in E2. simplify_eq.
  apply arp_learn_spec in E3 as (_ & Hp & _ & _ & _ & Hf). rewrite Hp, lookup_delete_eq.
  cbn [set_arp w_pending w_futs] in Hf. rewrite lookup_insert_eq in Hf.
  assert ((w_futs w ++ [FPending]) ++ [FPending] = w_futs w ++ FPending :: FPending :: []) as Ea
    by (by rewrite <- (assoc_L (++))).
  rewrite length_app in Hf. cbn [length] in Hf.
  assert (((w_futs w ++ [FPending]) ++ [FPending]) !! (length (w_futs w) + 1)%nat = Some FPending) as E1.
  { rewrite Ea, lookup_app_r by lia. by replace (length (w_futs w) + 1 - length (w_futs w))%nat with 1%nat by lia. }
  rewrite E1 in Hf. rewrite Hf, length_app. cbn [length]. split_and!; [| |done].
  - apply list_lookup_insert_eq. rewrite !length_app. simpl. lia.
  - rewrite list_lookup_insert_ne by lia. rewrite Ea, lookup_app_r by lia. by rewrite Nat.sub_diag.
Qed.

(** [send_run] of a data segment when the next hop is known but the NIC has no
    room: it suspends in [_nic.send] with the sequence number not yet
    advanced. *)
Lemma send_run_busy cid c mac n w pl :
  can_send cid c mac w -> w_nic w = Some n -> (forall f, nic_send_nowait f n = (Ok false, n)) ->
  bytes_ok pl -> len pl <= TCP_MAX_PAYLOAD ->
  exists frame w', send_run cid psh_ack pl false SStart w = (Ok (STx frame), w') /\
    can_send cid c mac w' /\ w_nic w' = Some n /\
    exists f p, frame_segment frame = Ok (f, p, Some (mk_segment c psh_ack pl)).
Proof.
  intros Hc Hn Hbusy Hpl Hlen. pose proof Hc as []. destruct cs_mac_ok as [Om Olm]. pose proof (len_nonneg pl). unfold TCP_MAX_PAYLOAD in Hlen.
  destruct (build_frame_decodes (mk_segment c psh_ack pl) (local_ip c) (remote_ip c) mac w)
    as (frame & Hb & _ & f & p & Hdec & _); auto.
  { constructor; simpl; try naive_solver lia. by vm_compute. }
  { simpl. lia. }
  exists frame, (set_nic (Some n) (set_ip_id (Z.land (w_ip_id w + 1) 0xFFFF) w)). split_and!; [| |done|eauto].
  - unfold send_run. rewrite (bind_step _ _ _ _ _ (conn_get_eq _ _ _ cs_obj)). unfold bind at 1, get.
    rewrite Hn, cs_mac. unfold send_with_mac. rewrite (bind_step _ _ _ _ _ (conn_get_eq _ _ _ cs_obj)).
    rewrite (bind_step _ _ _ _ _ Hb). unfold send_tx, bind, nic_try.
    cbn [set_ip_id w_nic]. by rewrite Hn, Hbusy.
  - constructor; auto. simpl. rewrite land16. apply Z.mod_pos_bound. lia.
Qed.

(** Two [send] coroutines of one connection that run while the NIC's
    transmit ring is full both build their segment before either advances
    [snd_seq], so both segments carry the same sequence number for different
    data. *)
Theorem tcp_concurrent_send_same_seq cid c mac n w p1 p2 :
  can_send cid c mac w -> w_nic w = Some n -> (forall f, nic_send_nowait f n = (Ok false, n)) ->
  bytes_ok p1 -> bytes_ok p2 -> len p1 <= TCP_MAX_PAYLOAD -> len p2 <= TCP_MAX_PAYLOAD ->
  exists f1 f2 w1 w2,
    send_run cid psh_ack p1 false SStart w = (Ok (STx f1), w1) /\
    send_run cid psh_ack p2 false SStart w1 = (Ok (STx f2), w2) /\
    (exists e1 i1 s1, frame_segment f1 = Ok (e1, i1, Some s1) /\ payload s1 = p1 /\ seq_no s1 = snd_seq c) /\
    (exists e2 i2 s2, frame_segment f2 = Ok (e2, i2, Some s2) /\ payload s2 = p2 /\ seq_no s2 = snd_seq c).
Proof.
  intros Hc Hn Hbusy H1 H2 L1 L2.
  destruct (send_run_busy cid c mac n w p1) as (f1 & w1 & E1 & Hc1 & Hn1 & e1 & i1 & D1); auto.
  destruct (send_run_busy cid c mac n w1 p2) as (f2 & w2 & E2 & _ & _ & e2 & i2 & D2); auto.
  exists f1, f2, w1, w2. split_and!; [done|done|eauto 7|eauto 7].
Qed.
End NetProps.

(** ** Witnesses *)

Definition fin_data_segment : TCPSegment :=
  {| src_port := 80; dst_port := 49152; seq_no := 100; ack_no := 1; flags := 0x11; window := 1000;
     payload := [1; 2; 3] |}.

Lemma tcp_stream_integrity_witness :
  exists w' c', steps (io_step 0) (witness_world, [], []) (w', [1; 2], [1; 2; 3]) /\
    w_objs w' !! 0%nat = Some c' /\ [1; 2] ++ rcv_buf c' = [1; 2; 3].
Proof.
  set (w1 := snd (handle_segment 0 fin_data_segment true witness_world)).
  set (w2 := snd (recv 0 2 w1)). exists w2.
  assert (steps (io_step 0) (witness_world, [], []) (w2, [1; 2], [1; 2; 3])) as Hs.
  { eapply steps_cons; [eapply (io_segment 0 fin_data_segment true (Ok tt) witness_conn _ w1);
      vm_compute; reflexivity|].
    eapply steps_cons; [eapply (io_recv 0 2 [1; 2] w1 w2); vm_compute; reflexivity|]. apply steps_refl. }
  destruct (tcp_stream_integrity 0 witness_conn witness_world w2 [1; 2] [1; 2; 3] eq_refl Hs)
    as (c' & E & Hb & _).
  exists c'. exact (conj Hs (conj E Hb)).
Defined.

Lemma tcp_fin_with_data_ack_witness :
  exists c', w_objs (snd (handle_segment 0 fin_data_segment false witness_world)) !! 0%nat = Some c' /\
    snd_ack c' = 101.
Proof.
  destruct (tcp_fin_with_data_ack 0 witness_conn fin_data_segment false witness_world
    (snd (handle_segment 0 fin_data_segment false witness_world))) as (c' & E & _ & _ & Ha & _);
    [reflexivity|reflexivity|reflexivity|vm_compute; split; reflexivity
    |vm_compute; split; [discriminate|reflexivity]|vm_compute; reflexivity|].
  exists c'. exact (conj E Ha).
Defined.

Lemma tcp_alloc_port_cycle_witness :
  exists ports w', map_m (range 3) (fun _ => alloc_port) witness_world = (Ok ports, w') /\
    ports = [49153; 49154; 49155].
Proof.
  destruct (tcp_alloc_port_cycle witness_world 3) as (ports & w' & E & Hp & _);
    [vm_compute; split; [discriminate|reflexivity]|lia|].
  exists ports, w'. split; [exact E|]. rewrite Hp. vm_compute. reflexivity.
Defined.

Lemma arp_exchange_witness :
  exists req, build_request [2; 0; 0; 0; 0; 1] [10; 0; 2; 15] [10; 0; 2; 15] = Ok req.
Proof.
  destruct (arp_exchange witness_world witness_world 0 eq_refl eq_refl eq_refl eq_refl
    (ex_intro _ _ eq_refl) [10; 0; 2; 15] eq_refl) as (req & E & _).
  exists req. exact E.
Defined.

Lemma arp_concurrent_resolve_witness :
  exists w3 : world tape, w_futs w3 !! 1%nat = Some (FResult [9; 9; 9; 9; 9; 9]) /\ w_futs w3 !! 0%nat = Some FPending.
Proof.
  set (w1 := snd (arp_resolve_start [10; 0; 2; 9] witness_world)).
  set (w2 := snd (arp_resolve_start [10; 0; 2; 9] w1)).
  set (w3 := snd (arp_learn [10; 0; 2; 9] [9; 9; 9; 9; 9; 9] w2)). exists w3.
  destruct (arp_concurrent_resolve [10; 0; 2; 9] [9; 9; 9; 9; 9; 9] witness_world w1 w2 w3 0 1)
    as (H1 & H2 & _); [reflexivity..|]. exact (conj H1 H2).
Defined.

(** A NIC whose transmit ring is full. *)
Record full_ring := { fr_mac : bytes }.
Definition full_nic : Nic full_ring := {|
  nic_mac := fr_mac; nic_has_send_nowait := true; nic_has_recv_nowait := true;
  nic_send_nowait _ n := (Ok false, n); nic_recv_nowait n := (Ok None, n)
|}.

Definition full_world : world full_ring :=
  mkWorld (Some {| fr_mac := [2; 0; 0; 0; 0; 1] |})
    [10; 0; 2; 15] [2; 0; 0; 0; 0; 1] [10; 0; 2; 2] [255; 255; 255; 0] 0
    {[ [10; 0; 2; 2] := [2; 0; 0; 0; 0; 2] ]} ∅ [] {[ 0%nat := witness_conn ]} ∅ ∅ ∅ 49153 [].

Lemma tcp_concurrent_send_same_seq_witness :
  exists f1 w1, @send_run _ full_nic 0 psh_ack [1] false SStart full_world = (Ok (STx f1), w1).
Proof.
  destruct (@tcp_concurrent_send_same_seq _ full_nic 0 witness_conn [2; 0; 0; 0; 0; 2]
    {| fr_mac := [2; 0; 0; 0; 0; 1] |} full_world [1] [2]) as (f1 & f2 & w1 & w2 & E & _);
    [constructor; try reflexivity; unfold u16, u32; simpl; try lia;
       try (split; repeat (constructor; [unfold byte_ok; lia|]); constructor);
       repeat (constructor; [unfold byte_ok; lia|]); constructor
    |reflexivity|reflexivity
    |repeat (constructor; [unfold byte_ok; lia|]); constructor
    |repeat (constructor; [unfold byte_ok; lia|]); constructor
    |vm_compute; discriminate|vm_compute; discriminate|].
  exists f1, w1. exact E.
Defined.
