(* ===== verification/Vfs.v ===== *)
(** * The virtual filesystem switch ([kernel/fs/vfs.py])

    The mount table, path resolution, and the file-descriptor table, over an
    interface [FSNode] that each filesystem implements.  A node is a reference
    (the sources share node objects); [W] is the store the nodes live in.

    The paths of [mkdir] and [unlink] go through [PurePosixPath], which in the
    kernel is [tools/stdlib_stubs/pathlib.py].

    An operation is modelled from its call to its return; what other tasks do
    to the same descriptor while it awaits its node is not interleaved. *)

From Stdlib Require Import ZArith Lia Sorting.Sorted.
From stdpp Require Import base list gmap numbers strings.
From S2P Require Import Prelude Bytes Pystr.

Local Open Scope Z_scope.

(** ** Constants and types *)

Definition O_CREAT : Z := 0x040.
Definition O_TRUNC : Z := 0x200.
Definition O_APPEND : Z := 0x400.

(** [flags & bit] as a condition. *)
Definition has_flag (flags bit : Z) : bool := negb (Z.land flags bit =? 0).

Inductive SeekWhence : Type := SET | CUR | END.
Inductive InodeType : Type := FILE | DIR | SYMLINK | DEVICE | PIPE.
#[global] Instance InodeType_eq_dec : EqDecision InodeType.
Proof. solve_decision. Defined.

Record Stat : Type := mkStat {
  st_type : InodeType;
  st_size : Z;
  st_mode : Z;
  st_nlink : Z;
}.

(** The protocol of a node. *)
Class FSNode (W Node : Type) : Type := {
  n_stat : Node -> M W Stat;
  n_read : Node -> Z -> Z -> M W bytes;
  n_write : Node -> Z -> bytes -> M W Z;
  n_truncate : Node -> Z -> M W unit;
  n_readdir : Node -> M W (list str);
  n_lookup : Node -> str -> M W Node;
  n_create : Node -> str -> InodeType -> M W Node;
  n_unlink : Node -> str -> M W unit;
}.

(** The protocol of a filesystem: a root, and the optional methods the switch
    looks up with [getattr]. *)
Record Filesystem (W Node : Type) : Type := mkFS {
  fs_root : Node;
  fs_flush : option (M W unit);
  fs_read_sync : option (str -> M W (option bytes));
  fs_isdir_sync : option (str -> M W bool);
}.
Arguments mkFS {W Node}.
Arguments fs_root {W Node}.
Arguments fs_flush {W Node}.
Arguments fs_read_sync {W Node}.
Arguments fs_isdir_sync {W Node}.

(** [NodeFS(node)]: a sub-directory as a filesystem of its own. *)
Definition NodeFS {W Node} (node : Node) : Filesystem W Node := mkFS node None None None.

(** ** [PurePosixPath] of the kernel's [pathlib] *)

Definition is_slash (c : Z) : bool := c =? slash.

(** ['//' in s] and [s.replace('//', '/')] (left to right, not overlapping). *)
Fixpoint has_dslash (s : str) : bool :=
  match s with
  | a :: (b :: _) as s' => (is_slash a && is_slash b) || has_dslash s'
  | _ => false
  end.
Fixpoint replace_dslash (s : str) : str :=
  match s with
  | a :: s' =>
      match s' with
      | b :: s'' => if is_slash a && is_slash b then slash :: replace_dslash s''
                    else a :: replace_dslash s'
      | [] => [a]
      end
  | [] => []
  end.

(** The [while '//' in s] loop; each turn shortens the string. *)
Fixpoint collapse (fuel : nat) (s : str) : str :=
  match fuel with
  | O => s
  | S fuel' => if has_dslash s then collapse fuel' (replace_dslash s) else s
  end.

Definition PurePosixPath (s : str) : str :=
  let s := collapse (length s) s in
  match s with [] => lit "." | _ => s end.

(** [s.rfind('/')]: -1 when there is none. *)
Definition rfind_slash (s : str) : Z :=
  let fix go (i last : Z) (s : str) : Z :=
    match s with
    | [] => last
    | c :: s' => go (i + 1) (if is_slash c then i else last) s'
    end in
  go 0 (-1) s.

(** [str(PurePosixPath(path).parent)] *)
Definition path_parent (path : str) : str :=
  let s := PurePosixPath path in
  if negb (existsb is_slash s) || beq s (lit "/") then lit "."
  else
    let idx := rfind_slash s in
    if idx =? 0 then lit "/" else PurePosixPath (slice_to s idx).

(** [PurePosixPath(path).name]: [rsplit('/', 1)[-1]]. *)
Definition path_name (path : str) : str :=
  List.last (split slash (PurePosixPath path)) [].

(** ** The switch *)

Section vfs.
Context {W Node : Type} `{FSNode W Node}.

Record FileDescription : Type := mkFD {
  fd_node : Node;
  fd_flags : Z;
  fd_offset : Z;
}.

Record VFS : Type := mkVFS {
  v_mounts : list (str * Filesystem W Node);
  v_fds : gmap Z FileDescription;
  v_next_fd : Z;
  v_world : W;
}.

Definition VFS_init (w : W) : VFS := mkVFS [] ∅ 3 w.

Definition set_mounts ms (v : VFS) : VFS := mkVFS ms (v_fds v) (v_next_fd v) (v_world v).
Definition set_fds fds (v : VFS) : VFS := mkVFS (v_mounts v) fds (v_next_fd v) (v_world v).
Definition set_next_fd n (v : VFS) : VFS := mkVFS (v_mounts v) (v_fds v) n (v_world v).
Definition set_world w (v : VFS) : VFS := mkVFS (v_mounts v) (v_fds v) (v_next_fd v) w.

(** A call of a node's or filesystem's method. *)
Definition node {A} (m : M W A) : M VFS A := zoom v_world set_world m.

(** *** Mount and unmount *)

(** [path.rstrip("/") or "/"] *)
Definition mount_norm (path : str) : str :=
  match rstrip is_slash path with [] => lit "/" | s => s end.

(** [list.sort(key=len, reverse=True)]: stable, longest first. *)
Fixpoint insert_mount (m : str * Filesystem W Node) (l : list (str * Filesystem W Node)) :=
  match l with
  | [] => [m]
  | x :: l' => if len (fst m) <=? len (fst x) then x :: insert_mount m l' else m :: l
  end.
Definition sort_mounts (l : list (str * Filesystem W Node)) : list (str * Filesystem W Node) :=
  fold_left (fun acc m => insert_mount m acc) l [].

Definition mount (path : str) (fs : Filesystem W Node) (v : VFS) : VFS :=
  let norm := mount_norm path in
  let ms := List.filter (fun m => negb (beq (fst m) norm)) (v_mounts v) in
  set_mounts (sort_mounts (ms ++ [(norm, fs)])) v.

(** The first entry at [norm], with its index. *)
Fixpoint find_at (norm : str) (l : list (str * Filesystem W Node)) : option (nat * Filesystem W Node) :=
  match l with
  | [] => None
  | (p, fs) :: l' =>
      if beq p norm then Some (O, fs)
      else match find_at norm l' with
           | Some (i, f) => Some (S i, f)
           | None => None
           end
  end.

Definition unmount (path : str) : M VFS unit :=
  let norm := mount_norm path in
  let! ms := gets v_mounts in
  match find_at norm ms with
  | Some (i, fs) =>
      match fs_flush fs with
      | Some flush => node flush
      | None => ret tt
      end ;;;
      modify (fun v => set_mounts (delete i (v_mounts v)) v)
  | None => raise KeyError
  end.

(** *** Resolution *)

(** ["/" + path.strip("/")] *)
Definition abs_path (path : str) : str := slash :: strip is_slash path.

(** [[p for p in s.split("/") if p]] *)
Definition parts_of (s : str) : list str :=
  List.filter (fun p => negb (beq p [])) (split slash s).

(** The part of [s] below the mount point [mp], or [None] ([continue]). *)
Definition mount_rel (mp s : str) : option str :=
  if beq mp (lit "/") then Some (slice_from s 1)
  else if beq s mp then Some []
  else if startswith s (mp ++ [slash]) then Some (slice_from s (len mp + 1))
  else None.

(** The loop over the mounts: the first that matches, and the rest of the path. *)
Fixpoint find_mount (s : str) (ms : list (str * Filesystem W Node))
  : option (Filesystem W Node * str) :=
  match ms with
  | [] => None
  | (mp, fs) :: ms' =>
      match mount_rel mp s with
      | Some rel => Some (fs, rel)
      | None => find_mount s ms'
      end
  end.

(** [for part in rel_parts: node = await node.lookup(part)] *)
Fixpoint walk (n : Node) (parts : list str) : M W Node :=
  match parts with
  | [] => ret n
  | p :: ps => let! n' := n_lookup n p in walk n' ps
  end.

Definition resolve (path : str) : M VFS Node :=
  let s := abs_path path in
  let! ms := gets v_mounts in
  match find_mount s ms with
  | Some (fs, rel) => node (walk (fs_root fs) (parts_of rel))
  | None => raise FileNotFoundError
  end.

(** [read_sync] and [isdir_sync]: the path below the mount starts with "/". *)
Definition read_sync (path : str) : M VFS (option bytes) :=
  let s := abs_path path in
  let! ms := gets v_mounts in
  match find_mount s ms with
  | Some (fs, rel) =>
      match fs_read_sync fs with
      | Some reader => node (reader (slash :: rel))
      | None => ret None
      end
  | None => ret None
  end.

Definition isdir_sync (path : str) : M VFS bool :=
  let s := abs_path path in
  let! ms := gets v_mounts in
  match find_mount s ms with
  | Some (fs, rel) =>
      match fs_isdir_sync fs with
      | Some checker => node (checker (slash :: rel))
      | None => ret false
      end
  | None => ret false
  end.

(** *** File descriptors *)

Definition get_fd (fd : Z) : M VFS FileDescription :=
  let! fds := gets v_fds in
  match fds !! fd with Some d => ret d | None => raise KeyError end.

(** [desc.offset = off]: the description is reached through the table only. *)
Definition set_offset (fd off : Z) : M VFS unit :=
  modify (fun v => set_fds (alter (fun d => mkFD (fd_node d) (fd_flags d) off) fd (v_fds v)) v).

Definition open_node (path : str) (flags : Z) : M VFS Node :=
  if has_flag flags O_CREAT then
    try_except (resolve path) (fun e =>
      match e with
      | FileNotFoundError =>
          let s := abs_path path in
          let parts := parts_of s in
          match parts with
          | [] => raise IsADirectoryError
          | _ =>
              let parent_s :=
                if (1 <? len parts) then slash :: join [slash] (slice_to parts (-1)) else lit "/" in
              let! parent := resolve parent_s in
              node (n_create parent (List.last parts []) FILE)
          end
      | _ => raise e
      end)
  else resolve path.

Definition open (path : str) (flags : Z) : M VFS Z :=
  let! n := open_node path flags in
  (if has_flag flags O_TRUNC then node (n_truncate n 0) else ret tt) ;;;
  let! fd := gets v_next_fd in
  modify (set_next_fd (fd + 1)) ;;;
  modify (fun v => set_fds (<[fd := mkFD n flags 0]> (v_fds v)) v) ;;;
  ret fd.

Definition read (fd n : Z) : M VFS bytes :=
  let! desc := get_fd fd in
  let! data := node (n_read (fd_node desc) (fd_offset desc) n) in
  set_offset fd (fd_offset desc + len data) ;;;
  ret data.

Definition write (fd : Z) (data : bytes) : M VFS Z :=
  let! desc := get_fd fd in
  let! off :=
    (if has_flag (fd_flags desc) O_APPEND then
       let! st := node (n_stat (fd_node desc)) in
       set_offset fd (st_size st) ;;; ret (st_size st)
     else ret (fd_offset desc)) in
  let! written := node (n_write (fd_node desc) off data) in
  set_offset fd (off + written) ;;;
  ret written.

Definition seek (fd offset : Z) (whence : SeekWhence) : M VFS Z :=
  let! desc := get_fd fd in
  match whence with
  | SET => set_offset fd offset ;;; ret offset
  | CUR => set_offset fd (fd_offset desc + offset) ;;; ret (fd_offset desc + offset)
  | END => ret (fd_offset desc)
  end.

Definition close (fd : Z) : M VFS unit :=
  modify (fun v => set_fds (delete fd (v_fds v)) v).

Definition stat (path : str) : M VFS Stat :=
  let! n := resolve path in node (n_stat n).

Definition mkdir (path : str) : M VFS unit :=
  let parent_path := path_parent path in
  let name := path_name path in
  let! parent := resolve parent_path in
  let! _ := node (n_create parent name DIR) in
  ret tt.

Definition unlink (path : str) : M VFS unit :=
  let parent_path := path_parent path in
  let name := path_name path in
  let! parent := resolve parent_path in
  node (n_unlink parent name).

(** The mount points that are immediate children of [norm], in table order,
    each appended once. *)
Fixpoint add_child_mounts (norm prefix : str) (ms : list (str * Filesystem W Node))
  (entries : list str) : list str :=
  match ms with
  | [] => entries
  | (mp, _) :: ms' =>
      let entries' :=
        if beq mp (lit "/") || beq mp norm then entries
        else if negb (startswith mp prefix) then entries
        else
          let child := slice_from mp (len prefix) in
          if existsb is_slash child then entries
          else if existsb (beq child) entries then entries
          else entries ++ [child] in
      add_child_mounts norm prefix ms' entries'
  end.

Definition readdir (path : str) : M VFS (list str) :=
  let! n := resolve path in
  let! entries := node (n_readdir n) in
  let! ms := gets v_mounts in
  let norm := abs_path path in
  let prefix := if beq norm (lit "/") then lit "/" else norm ++ [slash] in
  ret (add_child_mounts norm prefix ms entries).

(** [async with vfs.opened(path, flags) as fd: body]: the descriptor is closed
    also when the body raises. *)
Definition opened {A} (path : str) (flags : Z) (body : Z -> M VFS A) : M VFS A :=
  let! fd := open path flags in
  try_finally (body fd) (close fd).

End vfs.
Arguments FileDescription : clear implicits.
Arguments VFS : clear implicits.
