(* ===== verification/VfsProps.v ===== *)
(** * Properties of the virtual filesystem switch

    The mount table and resolution; the descriptor table; the switch over
    lawful nodes against an abstract file model; creation of files.  The laws
    a filesystem owes the switch are the classes [FileLaws] and [DirLaws];
    [Tmpfs] discharges them. *)

From Stdlib Require Import ZArith Lia Sorting.Sorted.
From stdpp Require Import base list gmap numbers strings.
From S2P Require Import Prelude Bytes Pystr Vfs.

Local Open Scope Z_scope.

(** ** The mount table *)

Section mounts.
Context {W Node : Type} `{FSNode W Node}.
Implicit Types (ms : list (str * Filesystem W Node)) (v : VFS W Node).

Definition longer (a b : str * Filesystem W Node) : Prop := len b.1 <= len a.1.

Record mounts_wf ms : Prop := {
  mw_sorted : StronglySorted longer ms;
  mw_nodup : base.NoDup ms.*1;
}.

Lemma insert_mount_Permutation m ms : insert_mount m ms ≡ₚ m :: ms.
Proof.
  induction ms as [|x ms IH]; [done|]. simpl. case_match; [|done].
  rewrite IH. apply Permutation_swap.
Qed.

Lemma insert_mount_sorted m ms : StronglySorted longer ms -> StronglySorted longer (insert_mount m ms).
Proof.
  induction 1 as [|x ms Hs IH Hx]; simpl; [repeat constructor|].
  destruct (Z.leb_spec (len m.1) (len x.1)) as [Hle|Hgt].
  - constructor; [done|]. rewrite insert_mount_Permutation. constructor; [done|exact Hx].
  - constructor; [by constructor|]. constructor; [unfold longer; lia|].
    eapply list.Forall_impl; [exact Hx|]. unfold longer. simpl. lia.
Qed.

Lemma sort_mounts_Permutation ms : sort_mounts ms ≡ₚ ms.
Proof.
  unfold sort_mounts. enough (forall acc, fold_left (fun acc m => insert_mount m acc) ms acc ≡ₚ acc ++ ms) as E.
  { by rewrite E. }
  induction ms as [|m ms IH]; intros acc; simpl; [by rewrite app_nil_r|].
  rewrite IH, insert_mount_Permutation. simpl. apply Permutation_middle.
Qed.

Lemma sort_mounts_snoc ms m : sort_mounts (ms ++ [m]) = insert_mount m (sort_mounts ms).
Proof. unfold sort_mounts. by rewrite fold_left_app. Qed.

Lemma sort_mounts_sorted ms : StronglySorted longer (sort_mounts ms).
Proof.
  induction ms as [|m ms IH] using rev_ind; [constructor|].
  rewrite sort_mounts_snoc. by apply insert_mount_sorted.
Qed.

Lemma insert_mount_last m ms : Forall (fun x => len m.1 <= len x.1) ms -> insert_mount m ms = ms ++ [m].
Proof.
  induction 1 as [|x ms Hx Hms IH]; simpl; [done|]. by rewrite (proj2 (Z.leb_le _ _) Hx), IH.
Qed.

(** Sorting a sorted table changes nothing: the sort is stable. *)
Lemma sort_mounts_id ms : StronglySorted longer ms -> sort_mounts ms = ms.
Proof.
  induction ms as [|m ms IH] using rev_ind; intros Hs; [done|].
  rewrite sort_mounts_snoc, IH.
  - apply insert_mount_last. clear IH. induction ms as [|x ms IHm]; [done|].
    inversion Hs as [|?? Hs' Hx]; subst. constructor; [|by apply IHm].
    rewrite Forall_app in Hx. destruct Hx as [_ Hx]. by inversion Hx.
  - clear IH. induction ms as [|x ms IHm]; [constructor|].
    inversion Hs as [|?? Hs' Hx]; subst. constructor; [by apply IHm|].
    by apply Forall_app in Hx as [? _].
Qed.

Lemma NoDup_fst_filter (f : str * Filesystem W Node -> bool) ms :
  base.NoDup ms.*1 -> base.NoDup (List.filter f ms).*1.
Proof.
  induction ms as [|m ms IH]; simpl; [done|]. rewrite !list.NoDup_cons. intros [Hm Hms].
  destruct (f m); [|by apply IH]. csimpl. rewrite list.NoDup_cons. split; [|by apply IH].
  intros Hin. apply Hm. apply list_elem_of_fmap in Hin as (y & -> & Hy).
  apply list_elem_of_fmap. exists y. split; [done|].
  rewrite list_elem_of_In in *. by apply filter_In in Hy as [? _].
Qed.

Lemma not_elem_filtered norm ms :
  norm ∉ (List.filter (fun m => negb (beq m.1 norm)) ms).*1.
Proof.
  intros Hin. apply list_elem_of_fmap in Hin as (y & -> & Hy).
  rewrite list_elem_of_In, filter_In in Hy. destruct Hy as [_ Hy]. by rewrite beq_refl in Hy.
Qed.

Lemma mount_wf path fs v : mounts_wf (v_mounts v) -> mounts_wf (v_mounts (mount path fs v)).
Proof.
  intros [Hs Hn]. unfold mount. simpl. split; [apply sort_mounts_sorted|].
  rewrite sort_mounts_Permutation, fmap_app. apply list.NoDup_app. split; [by apply NoDup_fst_filter|].
  split; [|apply NoDup_singleton]. intros x Hx ->%list_elem_of_singleton. by eapply not_elem_filtered.
Qed.

Lemma sorted_delete i ms : StronglySorted longer ms -> StronglySorted longer (delete i ms).
Proof.
  intros Hs. revert i. induction Hs as [|x ms Hs IH Hx]; intros [|i]; simpl; try constructor; auto.
  eapply Forall_delete. exact Hx.
Qed.

Lemma fmap_fst_delete i ms : (delete i ms).*1 = delete i (ms.*1).
Proof. revert i. induction ms as [|m ms IH]; intros [|i]; simpl; [done..|]. csimpl. by f_equal. Qed.

Lemma delete_mounts_wf i ms : mounts_wf ms -> mounts_wf (delete i ms).
Proof.
  intros [Hs Hn]. split; [by apply sorted_delete|].
  rewrite fmap_fst_delete. eapply sublist_NoDup; [done|]. apply sublist_delete.
Qed.

(** *** Which mount serves a path *)

(** [mp] covers [s]: it is the root, [s] itself, or a proper ancestor. *)
Definition covers (mp s : str) : Prop := mp = lit "/" \/ s = mp \/ exists t, s = mp ++ slash :: t.

Lemma mount_rel_covers mp s : covers mp s <-> is_Some (mount_rel mp s).
Proof.
  unfold covers, mount_rel. destruct (beq_spec mp (lit "/")); [by split; [eauto|auto]|].
  destruct (beq_spec s mp); [by split; [eauto|auto]|].
  destruct (startswith s (mp ++ [slash])) eqn:E.
  - split; [eauto|]. intros _. apply startswith_true in E as [t ->]. right. right.
    exists t. by rewrite <- (assoc_L (++)).
  - split; [|by intros [? ?]]. intros [?|[?|[t ->]]]; [done..|].
    by rewrite cons_middle, (assoc_L (++)), startswith_app in E.
Qed.

(** Two mount points of the same length that cover a path are the same. *)
Lemma covers_same_length mp mp' t :
  covers mp (slash :: t) -> covers mp' (slash :: t) -> len mp = len mp' -> mp = mp'.
Proof.
  assert (Hpre : forall m, covers m (slash :: t) -> exists u, slash :: t = m ++ u).
  { intros m [->|[->|[u ->]]]; [by exists t|exists []; by rewrite app_nil_r|by eexists]. }
  intros [u E]%Hpre [u' E']%Hpre Hlen. rewrite E in E'.
  apply app_inj_1 in E' as [? _]; [done|]. unfold len in Hlen. lia.
Qed.

Lemma find_mount_Some s ms fs rel :
  mounts_wf ms -> find_mount (slash :: s) ms = Some (fs, rel) ->
  exists mp, (mp, fs) ∈ ms /\ mount_rel mp (slash :: s) = Some rel /\
  forall mp' fs', (mp', fs') ∈ ms -> covers mp' (slash :: s) ->
                  (mp' = mp /\ fs' = fs) \/ len mp' < len mp.
Proof.
  intros [Hs Hn]. revert Hn. induction Hs as [|[mp0 fs0] ms Hs IH Hx]; intros Hn; simpl; [done|].
  apply list.NoDup_cons in Hn as [Hm Hn]. simpl in Hm.
  destruct (mount_rel mp0 (slash :: s)) as [r|] eqn:E.
  - intros [= -> ->]. exists mp0. split; [left|]. split; [done|].
    intros mp' fs' Hin Hc. apply elem_of_cons in Hin as [[= -> ->]|Hin]; [by left|right].
    rewrite list.Forall_forall in Hx. apply Hx in Hin as Hle. unfold longer in Hle. simpl in Hle.
    destruct (Z.eq_dec (len mp') (len mp0)) as [Heq|]; [|lia]. exfalso. apply Hm.
    rewrite <- (covers_same_length mp' mp0 s); [|done| |done].
    + apply list_elem_of_fmap. by exists (mp', fs').
    + apply mount_rel_covers. eauto.
  - intros Hf. destruct (IH Hn Hf) as (mp & Hin & Hr & Hall). exists mp.
    split; [by right|]. split; [done|]. intros mp' fs' Hin' Hc.
    apply elem_of_cons in Hin' as [[= -> ->]|Hin']; [|by apply Hall].
    apply mount_rel_covers in Hc as [? ?]. congruence.
Qed.

Lemma find_mount_None s ms :
  find_mount s ms = None <-> forall mp fs, (mp, fs) ∈ ms -> ~ covers mp s.
Proof.
  induction ms as [|[mp0 fs0] ms IH]; simpl.
  { split; [|done]. intros _ mp fs Hin. by apply not_elem_of_nil in Hin. }
  destruct (mount_rel mp0 s) as [r|] eqn:E.
  - split; [done|]. intros Hall. exfalso. apply (Hall mp0 fs0); [left|].
    apply mount_rel_covers. eauto.
  - rewrite IH. split; intros Hall mp fs.
    + intros [[= -> ->]|Hin]%elem_of_cons; [|by eapply Hall].
      rewrite mount_rel_covers. intros [? ?]. congruence.
    + intros Hin. eapply Hall. by right.
Qed.
End mounts.

(** ** The state of the switch

    One step is any public operation, returning or raising. *)

Section state.
Context {W Node : Type} `{FSNode W Node}.
Implicit Types v : VFS W Node.

Inductive vfs_step : VFS W Node -> VFS W Node -> Prop :=
| step_mount path fs v : vfs_step v (mount path fs v)
| step_unmount path v : vfs_step v (snd (unmount path v))
| step_open path flags v : vfs_step v (snd (open path flags v))
| step_read fd n v : vfs_step v (snd (read fd n v))
| step_write fd data v : vfs_step v (snd (write fd data v))
| step_seek fd off whence v : vfs_step v (snd (seek fd off whence v))
| step_close fd v : vfs_step v (snd (close fd v))
| step_stat path v : vfs_step v (snd (stat path v))
| step_mkdir path v : vfs_step v (snd (mkdir path v))
| step_unlink path v : vfs_step v (snd (unlink path v))
| step_readdir path v : vfs_step v (snd (readdir path v))
| step_read_sync path v : vfs_step v (snd (read_sync path v))
| step_isdir_sync path v : vfs_step v (snd (isdir_sync path v)).

Record vfs_inv v : Prop := {
  vi_mounts : mounts_wf (v_mounts v);
  vi_fds : forall fd, is_Some (v_fds v !! fd) -> 3 <= fd < v_next_fd v;
  vi_next : 3 <= v_next_fd v;
}.

Lemma vfs_inv_init w : vfs_inv (VFS_init w).
Proof.
  split; simpl; [|by intros fd [? Hx]; rewrite lookup_empty in Hx|lia].
  split; simpl; constructor.
Qed.

Lemma keeps_node {A} (m : M W A) : keeps vfs_inv (node m).
Proof.
  intros v r v' [Hm Hf Hn]. unfold node, zoom. destruct (m (v_world v)) as [r' w'].
  intros E. simplify_eq. by split.
Qed.

Lemma keeps_fds (f : gmap Z (FileDescription Node) -> gmap Z (FileDescription Node)) :
  (forall fds fd, is_Some (f fds !! fd) -> is_Some (fds !! fd)) ->
  keeps vfs_inv (modify (fun v => set_fds (f (v_fds v)) v)).
Proof. intros Hf. apply keeps_modify. intros v [? ? ?]. split; simpl; auto. Qed.

Lemma keeps_set_offset fd off : keeps vfs_inv (set_offset fd off).
Proof.
  unfold set_offset. apply keeps_fds. intros fds fd'. rewrite lookup_alter. case_match; [|done].
  subst. by rewrite fmap_is_Some.
Qed.

Lemma keeps_resolve path : keeps vfs_inv (resolve path).
Proof.
  apply keeps_bind; [apply keeps_gets|]. intros ms. repeat case_match; auto using keeps_node with py.
Qed.

Lemma keeps_get_fd fd : keeps vfs_inv (get_fd fd).
Proof. apply keeps_bind; [apply keeps_gets|]. intros fds. case_match; auto with py. Qed.

Lemma keeps_open path flags : keeps vfs_inv (open path flags).
Proof.
  unfold open, open_node. apply keeps_bind.
  { case_match; [|apply keeps_resolve]. apply keeps_try; [apply keeps_resolve|].
    intros []; auto with py. case_match; auto with py.
    apply keeps_bind; auto using keeps_resolve, keeps_node. }
  intros n. apply keeps_bind; [case_match; auto using keeps_node with py|]. intros _.
  intros v r v' [Hm Hf Hn] E. unfold gets, bind, modify, ret in E. simplify_eq. split; simpl; [done| |lia].
  intros fd [d Hd]. apply lookup_insert_Some in Hd as [[<- _]|[_ Hd]]; [lia|].
  specialize (Hf fd (mk_is_Some _ _ Hd)). lia.
Qed.

Hint Resolve keeps_node keeps_set_offset keeps_resolve keeps_get_fd keeps_open : py.

Lemma vfs_inv_step v v' : vfs_inv v -> vfs_step v v' -> vfs_inv v'.
Proof.
  assert (Hk : forall A (m : M (VFS W Node) A) v, keeps vfs_inv m -> vfs_inv v -> vfs_inv (snd (m v))).
  { intros A m v0 Hm Hi. destruct (m v0) as [r v1] eqn:E. by eapply Hm. }
  intros Hi Hs. revert Hi.
  destruct Hs as [path fs v|path v|path flags v|fd n v|fd data v|fd off whence v|fd v|path v|path v
                 |path v|path v|path v|path v]; intros Hi; try (apply Hk; [|done]).
  - destruct Hi. split; [by apply mount_wf|done..].
  - apply keeps_bind; [auto with py|]. intros ms. destruct (find_at _ ms) as [[i fs]|]; [|auto with py].
    apply keeps_bind; [case_match; auto with py|]. intros _. apply keeps_modify.
    intros v1 [? ? ?]. split; [by apply delete_mounts_wf|done..].
  - auto with py.
  - repeat (apply keeps_bind; [by auto with py|intros ?]). auto with py.
  - apply keeps_bind; [by auto with py|intros d]. apply keeps_bind.
    { case_match; auto 6 with py. }
    auto 6 with py.
  - apply keeps_bind; [by auto with py|intros d]. destruct whence; auto with py.
  - apply keeps_fds. intros fds fd' [d Hd]. apply lookup_delete_Some in Hd as [_ Hd]. eauto.
  - apply keeps_bind; auto with py.
  - apply keeps_bind; auto with py.
  - apply keeps_bind; auto with py.
  - apply keeps_bind; auto 6 with py.
  - apply keeps_bind; [auto with py|]. intros ms. repeat case_match; auto with py.
  - apply keeps_bind; [auto with py|]. intros ms. repeat case_match; auto with py.
Qed.

Lemma vfs_inv_reachable w v : steps vfs_step (VFS_init w) v -> vfs_inv v.
Proof. apply steps_invariant; [apply vfs_inv_step|apply vfs_inv_init]. Qed.

(** C28: whatever was mounted and unmounted before, a path is served by
    the most specific mount: either no mount point covers the path and
    [_resolve] raises FileNotFoundError, or there is a mount [mp] that covers
    it such that every other covering mount point is strictly shorter, and the
    result is the walk from the root of [mp]'s filesystem along the parts of
    the rest of the path. *)
Theorem vfs_longest_prefix w v path :
  steps vfs_step (VFS_init w) v ->
  (resolve path v = (Err FileNotFoundError, v) /\
   forall mp fs, (mp, fs) ∈ v_mounts v -> ~ covers mp (abs_path path)) \/
  exists mp fs rel,
    (mp, fs) ∈ v_mounts v /\
    (forall mp' fs', (mp', fs') ∈ v_mounts v -> covers mp' (abs_path path) ->
       (mp' = mp /\ fs' = fs) \/ len mp' < len mp) /\
    (mp = lit "/" /\ abs_path path = slash :: rel \/
     abs_path path = mp /\ rel = [] \/
     abs_path path = mp ++ slash :: rel) /\
    resolve path v = node (walk (fs_root fs) (parts_of rel)) v.
Proof.
  intros Hr. destruct (vfs_inv_reachable _ _ Hr) as [Hm _ _].
  unfold resolve, gets, bind.
  destruct (find_mount (abs_path path) (v_mounts v)) as [[fs rel]|] eqn:E.
  - right. unfold abs_path in *. apply find_mount_Some in E as (mp & Hin & Hrel & Hall); [|done].
    exists mp, fs, rel. split; [done|]. split; [done|]. split; [|done].
    unfold mount_rel in Hrel. destruct (beq_spec mp (lit "/")) as [->|].
    + left. split; [done|]. injection Hrel as <-. f_equal.
      change (slash :: ?t) with ([slash] ++ t). symmetry. apply slice_from_app.
    + right. destruct (beq_spec (slash :: strip is_slash path) mp) as [->|]; [left; by simplify_eq|].
      right. destruct (startswith _ _) eqn:Es; [|done]. apply startswith_true in Es as [t Et].
      injection Hrel as <-. rewrite Et. replace (len mp + 1) with (len (mp ++ [slash])) by (by rewrite len_app).
      by rewrite slice_from_app, <- (assoc_L (++)).
  - left. split; [done|]. by apply find_mount_None.
Qed.

(** *** Mounting and unmounting *)

Lemma filter_absent norm (ms : list (str * Filesystem W Node)) :
  norm ∉ ms.*1 -> List.filter (fun m => negb (beq m.1 norm)) ms = ms.
Proof.
  induction ms as [|m ms IH]; [done|]. csimpl. rewrite not_elem_of_cons. intros [Hne Hni].
  destruct (beq_spec m.1 norm) as [Heq|_]; [congruence|]. simpl. by rewrite IH.
Qed.

Lemma find_at_insert norm fs (ms : list (str * Filesystem W Node)) :
  norm ∉ ms.*1 ->
  exists i, find_at norm (insert_mount (norm, fs) ms) = Some (i, fs) /\
            delete i (insert_mount (norm, fs) ms) = ms.
Proof.
  induction ms as [|[p f] ms IH]; csimpl; [intros _; exists O; simpl; by rewrite beq_refl|].
  rewrite not_elem_of_cons. intros [Hne Hni]. destruct (IH Hni) as (i & Hf & Hd).
  destruct (_ <=? _); simpl.
  - destruct (beq_spec p norm) as [Heq|_]; [congruence|]. rewrite Hf. exists (S i). by rewrite <- Hd at 2.
  - rewrite beq_refl. by exists O.
Qed.

Lemma mount_fresh path fs v :
  vfs_inv v -> mount_norm path ∉ (v_mounts v).*1 ->
  v_mounts (mount path fs v) = insert_mount (mount_norm path, fs) (v_mounts v).
Proof.
  intros [[Hs _] _ _] Hni. unfold mount. simpl.
  by rewrite filter_absent, sort_mounts_snoc, sort_mounts_id by done.
Qed.

(** Mounting a filesystem on a free mount point and unmounting it
    flushes it once and gives back the switch as it was; when its [flush]
    raises, the exception reaches the caller and the filesystem stays
    mounted. *)
Theorem vfs_mount_unmount w0 v path fs :
  steps vfs_step (VFS_init w0) v ->
  mount_norm path ∉ (v_mounts v).*1 ->
  unmount path (mount path fs v) =
    match fs_flush fs with
    | None => (Ok tt, v)
    | Some flush =>
        match flush (v_world v) with
        | (Ok _, w) => (Ok tt, set_world w v)
        | (Err e, w) => (Err e, set_world w (mount path fs v))
        end
    end.
Proof.
  intros Hr Hni. pose proof (vfs_inv_reachable _ _ Hr) as Hi.
  unfold unmount, bind, gets. rewrite (mount_fresh _ fs) by done.
  destruct (find_at_insert (mount_norm path) fs (v_mounts v)) as (i & -> & Hd); [done|].
  pose proof (mount_fresh path fs v Hi Hni) as Hm.
  assert (Hback : forall w, set_mounts (delete i (v_mounts (mount path fs v)))
                    (set_world w (mount path fs v)) = set_world w v).
  { intros w. rewrite Hm, Hd. by destruct v. }
  destruct (fs_flush fs) as [flush|]; unfold node, zoom, ret, modify; simpl.
  - destruct (flush (v_world v)) as [[[]|e] w]; [|done]. f_equal. apply Hback.
  - f_equal. etrans; [apply (Hback (v_world v))|]. by destruct v.
Qed.

(** *** Descriptors *)

(** [open] hands out a descriptor number that is not in use, is above
    the standard streams and was never handed out before; it points at the
    resolved node with offset 0, and every other descriptor is untouched; a
    failed [open] leaves the descriptor table as it was. *)
Theorem vfs_open_fresh w0 v path flags r v' :
  steps vfs_step (VFS_init w0) v ->
  open path flags v = (r, v') ->
  match r with
  | Ok fd =>
      fd = v_next_fd v /\ 3 <= fd /\ v_fds v !! fd = None /\ v_next_fd v' = fd + 1 /\
      exists n, v_fds v' = <[fd := mkFD n flags 0]> (v_fds v)
  | Err _ => v_fds v' = v_fds v /\ v_next_fd v' = v_next_fd v
  end.
Proof.
  intros Hr. destruct (vfs_inv_reachable _ _ Hr) as [_ Hf Hn].
  assert (Hnode : keeps (fun x => v_fds x = v_fds v /\ v_next_fd x = v_next_fd v)
                    (let! n := open_node path flags in
                     (if has_flag flags O_TRUNC then node (n_truncate n 0) else ret tt) ;;; ret n)).
  { assert (Hno : forall A (m : M W A), keeps (fun x => v_fds x = v_fds v /\ v_next_fd x = v_next_fd v) (node m)).
    { intros A m x r' x' HP. unfold node, zoom. destruct (m (v_world x)). intros. by simplify_eq. }
    assert (Hre : forall p, keeps (fun x => v_fds x = v_fds v /\ v_next_fd x = v_next_fd v) (resolve p)).
    { intros p. apply keeps_bind; [auto with py|]. intros ms. repeat case_match; auto with py. }
    apply keeps_bind.
    - unfold open_node. case_match; [|done]. apply keeps_try; [done|]. intros []; auto with py.
      case_match; auto with py.
    - intros n. apply keeps_bind; [case_match; auto with py|auto with py]. }
  unfold open. intros E.
  destruct ((let! n := open_node path flags in
             (if has_flag flags O_TRUNC then node (n_truncate n 0) else ret tt) ;;; ret n) v)
    as [[n|e] v1] eqn:E1; destruct (Hnode _ _ _ (conj eq_refl eq_refl) E1) as [Hfds Hnext].
  - apply bind_Ok in E1 as (n0 & v2 & E2 & E1). rewrite (bind_step _ _ _ _ _ E2) in E.
    apply bind_Ok in E1 as (u & v3 & E3 & E1). rewrite (bind_step _ _ _ _ _ E3) in E.
    unfold ret in E1. simplify_eq. unfold bind, gets, modify, ret in E. simplify_eq. simpl.
    rewrite Hnext, Hfds. split_and!; [done..| |done|by eexists].
    destruct (v_fds v !! v_next_fd v) eqn:El; [|done]. specialize (Hf _ (mk_is_Some _ _ El)). lia.
  - unfold bind in E, E1.
    destruct (open_node path flags v) as [[n0|e0] v2]; [|by simplify_eq].
    destruct ((if has_flag flags O_TRUNC then node (n_truncate n0 0) else ret tt) v2) as [[u|e1] v3];
      unfold ret in E1; by simplify_eq.
Qed.
End state.

(** ** What the switch needs of a filesystem *)

(** Overwriting [d] from [off] on, with zeros in a gap. *)
Definition splice (d : bytes) (off : Z) (data : bytes) : bytes :=
  slice_to (d ++ zeros (off - len d)) off ++ data ++ slice_from d (off + len data).

(** The laws of regular files. [content w n] is the data of node [n] when it
    is a regular file. *)
Class FileLaws (W Node : Type) `{FSNode W Node} : Type := {
  content : W -> Node -> option bytes;
  read_law w n d off k : content w n = Some d -> 0 <= off -> 0 <= k ->
    n_read n off k w = (Ok (slice d off (off + k)), w);
  write_law w n d off data : content w n = Some d -> 0 <= off ->
    exists w', n_write n off data w = (Ok (len data), w') /\
      content w' n = Some (splice d off data) /\
      forall n', n' <> n -> content w' n' = content w n';
  stat_law w n d : content w n = Some d ->
    exists st, n_stat n w = (Ok st, w) /\ st_size st = len d;
}.

(** The laws of directories: looking up an entry has no effect, and a created
    entry is found under its name, is an empty file when a file was asked for,
    and leaves the other entries alone. *)
Class DirLaws (W Node : Type) `{FileLaws W Node} : Type := {
  is_dir : W -> Node -> Prop;
  dir_name_ok : str -> Prop;
  lookup_law w n name r w' : n_lookup n name w = (r, w') -> w' = w;
  create_law w n name ty : is_dir w n -> dir_name_ok name -> ty = FILE \/ ty = DIR ->
    exists n' w', n_create n name ty w = (Ok n', w') /\
      n_lookup n name w' = (Ok n', w') /\
      (ty = FILE -> content w' n' = Some []) /\
      (ty = DIR -> is_dir w' n') /\
      forall m nm k, n_lookup m nm w = (Ok k, w) -> (m, nm) <> (n, name) ->
        n_lookup m nm w' = (Ok k, w');
}.

(** ** Descriptors over lawful files refine byte arrays with an offset *)

Section refinement.
Context {W Node : Type} `{FileLaws W Node} `{EqDecision Node}.

(** The operations of a program that holds descriptors, and their results. *)
Inductive fop : Type :=
| FRead (fd n : Z) | FWrite (fd : Z) (data : bytes)
| FSeek (fd off : Z) (whence : SeekWhence) | FClose (fd : Z).
Inductive fres : Type := RBytes (b : bytes) | RInt (n : Z) | RNone.

Definition run_fop (op : fop) : M (VFS W Node) fres :=
  match op with
  | FRead fd n => let! b := read fd n in ret (RBytes b)
  | FWrite fd data => let! n := write fd data in ret (RInt n)
  | FSeek fd off whence => let! n := seek fd off whence in ret (RInt n)
  | FClose fd => close fd ;;; ret RNone
  end.

(** The abstract machine: open descriptions and byte arrays, no filesystem. *)
Record files : Type := mkFiles {
  f_open : gmap Z (FileDescription Node);
  f_data : Node -> bytes;
}.
Definition fset (f : Node -> bytes) (n : Node) (d : bytes) : Node -> bytes :=
  fun m => if decide (m = n) then d else f m.
Definition at_offset (d : FileDescription Node) (off : Z) : FileDescription Node :=
  mkFD (fd_node d) (fd_flags d) off.

(** Counts, and the offsets that are read and written, are not negative in the
    abstract machine; seeking from the end is not an operation of it, as the
    code does not have it. *)
Definition spec_fop (op : fop) (s : files) : option (fres * files) :=
  match op with
  | FRead fd n =>
      d ← f_open s !! fd;
      if (n <? 0) || (fd_offset d <? 0) then None else
      let data := slice (f_data s (fd_node d)) (fd_offset d) (fd_offset d + n) in
      Some (RBytes data,
            mkFiles (<[fd := at_offset d (fd_offset d + len data)]> (f_open s)) (f_data s))
  | FWrite fd data =>
      d ← f_open s !! fd;
      let old := f_data s (fd_node d) in
      let off := if has_flag (fd_flags d) O_APPEND then len old else fd_offset d in
      if off <? 0 then None else
      Some (RInt (len data),
            mkFiles (<[fd := at_offset d (off + len data)]> (f_open s))
                    (fset (f_data s) (fd_node d) (splice old off data)))
  | FSeek fd off whence =>
      d ← f_open s !! fd;
      off' ← match whence with SET => Some off | CUR => Some (fd_offset d + off) | END => None end;
      Some (RInt off', mkFiles (<[fd := at_offset d off']> (f_open s)) (f_data s))
  | FClose fd => Some (RNone, mkFiles (delete fd (f_open s)) (f_data s))
  end.

Fixpoint spec_run (ops : list fop) (s : files) : option (list fres * files) :=
  match ops with
  | [] => Some ([], s)
  | op :: ops' =>
      '(r, s1) ← spec_fop op s; '(rs, s2) ← spec_run ops' s1; Some (r :: rs, s2)
  end.

(** The simulation: same descriptions, each on a regular file with the
    abstract data. *)
Definition sim (v : VFS W Node) (s : files) : Prop :=
  v_fds v = f_open s /\
  map_Forall (fun _ d => content (v_world v) (fd_node d) = Some (f_data s (fd_node d))) (v_fds v).

Lemma get_fd_Some fd d (v : VFS W Node) : v_fds v !! fd = Some d -> get_fd fd v = (Ok d, v).
Proof. intros E. unfold get_fd, bind, gets. by rewrite E. Qed.

Lemma alter_insert_offset fd d off (fds : gmap Z (FileDescription Node)) :
  fds !! fd = Some d ->
  alter (fun d => mkFD (fd_node d) (fd_flags d) off) fd fds = <[fd := at_offset d off]> fds.
Proof. intros E. by rewrite (alter_alt_Some _ _ _ d). Qed.

Lemma set_offset_Some fd d off (v : VFS W Node) :
  v_fds v !! fd = Some d ->
  set_offset fd off v = (Ok tt, set_fds (<[fd := at_offset d off]> (v_fds v)) v).
Proof. intros E. unfold set_offset, modify. by rewrite (alter_insert_offset _ d). Qed.

Lemma sim_offset v s fd d off :
  sim v s -> v_fds v !! fd = Some d ->
  sim (set_fds (<[fd := at_offset d off]> (v_fds v)) v)
      (mkFiles (<[fd := at_offset d off]> (f_open s)) (f_data s)).
Proof.
  intros [Hf Hall] Hd. split; simpl; [by rewrite Hf|].
  apply map_Forall_insert_2; [|done]. simpl. by apply (Hall _ _ Hd).
Qed.

Lemma sim_world v s n w' data :
  sim v s -> content w' n = Some data ->
  (forall n', n' <> n -> content w' n' = content (v_world v) n') ->
  sim (set_world w' v) (mkFiles (f_open s) (fset (f_data s) n data)).
Proof.
  intros [Hf Hall] Hc Ho. split; [done|]. simpl. intros fd d Hd. specialize (Hall fd d Hd) as Hcd. cbn in Hcd |- *.
  unfold fset. destruct (decide (fd_node d = n)) as [->|Hne]; [done|].
  by rewrite Ho.
Qed.

Lemma run_write_at v s fd d off data :
  sim v s -> v_fds v !! fd = Some d -> 0 <= off ->
  exists v',
    (let! written := node (n_write (fd_node d) off data) in
     set_offset fd (off + written) ;;; ret written) v = (Ok (len data), v') /\
    sim v' (mkFiles (<[fd := at_offset d (off + len data)]> (f_open s))
              (fset (f_data s) (fd_node d) (splice (f_data s (fd_node d)) off data))).
Proof.
  intros Hs Hd Hoff. pose proof (proj2 Hs _ _ Hd) as Hc. cbn in Hc.
  destruct (write_law _ _ _ off data Hc Hoff) as (w' & Hw & Hc' & Ho).
  exists (set_fds (<[fd := at_offset d (off + len data)]> (v_fds v)) (set_world w' v)). split.
  - unfold node, zoom, bind. rewrite Hw. by rewrite (set_offset_Some _ d).
  - pose proof (sim_world _ _ _ _ _ Hs Hc' Ho) as Hs'.
    by apply (sim_offset _ _ fd d _ Hs').
Qed.

Lemma run_fop_sim op v s r s' :
  sim v s -> spec_fop op s = Some (r, s') ->
  exists v', run_fop op v = (Ok r, v') /\ sim v' s'.
Proof.
  intros Hs E. destruct op as [fd n|fd data|fd off whence|fd]; simpl in E |- *.
  - apply bind_Some in E as (d & Hd & E). rewrite <- (proj1 Hs) in Hd. case_match eqn:Hlt; [done|]. apply orb_false_iff in Hlt as [Hlt%Z.ltb_ge Hoff%Z.ltb_ge]. simplify_eq.
    pose proof (proj2 Hs _ _ Hd) as Hc. cbn in Hc. eexists. split.
    + unfold read, node, zoom. unfold bind at 1 2 3 4. rewrite (get_fd_Some _ d), (read_law _ _ _ _ _ Hc) by done.
      unfold bind. by rewrite (set_offset_Some _ d).
    + replace (set_world (v_world v) v) with v by (by destruct v).
      by apply sim_offset.
  - apply bind_Some in E as (d & Hd & E). rewrite <- (proj1 Hs) in Hd. cbv zeta in E. case_match eqn:Hlt; [done|]. apply Z.ltb_ge in Hlt. simplify_eq.
    pose proof (proj2 Hs _ _ Hd) as Hc. cbn in Hc. unfold write. unfold bind at 1 2. rewrite (get_fd_Some _ d) by done.
    destruct (has_flag (fd_flags d) O_APPEND).
    + destruct (stat_law _ _ _ Hc) as (st & Hst & Hsz).
      set (v1 := set_fds (<[fd := at_offset d (st_size st)]> (v_fds v)) v).
      assert (Hs1 : sim v1 (mkFiles (<[fd := at_offset d (st_size st)]> (f_open s)) (f_data s))).
      { by apply sim_offset. }
      destruct (run_write_at v1 _ fd (at_offset d (st_size st)) (st_size st) data Hs1) as (v' & Hr & Hs').
      { unfold v1. simpl. by rewrite lookup_insert_eq. }
      { rewrite Hsz. apply len_nonneg. }
      exists v'. unfold bind at 1 2 3, node at 1, zoom at 1. rewrite Hst.
      replace (set_world (v_world v) v) with v by (by destruct v).
      rewrite (set_offset_Some _ d) by done. fold v1. unfold ret at 1. simpl fd_node in Hr. rewrite Hr.
      split; [done|]. rewrite <- Hsz. simpl in Hs'. by rewrite insert_insert_eq in Hs'.
    + destruct (run_write_at v s fd d (fd_offset d) data) as (v' & Hr & Hs'); [done..|].
      exists v'. unfold bind at 1, ret at 1. by rewrite Hr.
  - apply bind_Some in E as (d & Hd & E). rewrite <- (proj1 Hs) in Hd. apply bind_Some in E as (off' & Hw & E). simplify_eq.
    unfold seek. unfold bind at 1 2. rewrite (get_fd_Some _ d) by done.
    destruct whence; simplify_eq; unfold bind; rewrite (set_offset_Some _ d) by done; eexists; (split; [done|]); by apply sim_offset.
  - simplify_eq. eexists. split; [done|]. destruct Hs as [Hf Hall]. split; simpl; [by rewrite Hf|].
    by apply map_Forall_delete.
Qed.

(** C3: over any filesystem that keeps the laws of regular files, a sequence
    of reads, writes (also in append mode), closes and seeks, from the start or
    from the current offset and to any offset, on any number of descriptors,
    several of which may share a file, returns what a plain byte array with one
    offset per descriptor returns, and ends with the files holding the same
    bytes.  Reads and writes are at offsets that are not negative; seeking from
    the end, which the code leaves out, is not among the operations. *)
Theorem vfs_files_refine ops v s rs s' :
  sim v s -> spec_run ops s = Some (rs, s') ->
  exists v', map_m ops run_fop v = (Ok rs, v') /\ sim v' s'.
Proof.
  revert v s rs. induction ops as [|op ops IH]; intros v s rs Hs E; simpl in E |- *.
  { simplify_eq. by exists v. }
  apply bind_Some in E as ([r s1] & E1 & E). apply bind_Some in E as ([rs' s2] & E2 & E). simplify_eq.
  destruct (run_fop_sim _ _ _ _ _ Hs E1) as (v1 & H1 & Hs1).
  destruct (IH _ _ _ Hs1 E2) as (v2 & H2 & Hs2).
  exists v2. split; [|done]. unfold bind. by rewrite H1, H2.
Qed.
End refinement.

(** ** Normal paths: ["/" + "/".join(parts)] *)

Definition good_part (p : str) : Prop := p <> [] /\ no_char slash p.
Definition npath (ps : list str) : str := slash :: join [slash] ps.

Lemma split_app sep a b : split sep (a ++ sep :: b) = split sep a ++ split sep b.
Proof.
  induction a as [|c a IH]; simpl.
  - by rewrite Z.eqb_refl.
  - destruct (c =? sep); [by rewrite IH|]. rewrite IH.
    destruct (split sep a) as [|w ws] eqn:E; [by apply split_nonempty in E|done].
Qed.

Lemma parts_of_app a b : parts_of (a ++ slash :: b) = parts_of a ++ parts_of b.
Proof. unfold parts_of. by rewrite split_app, List.filter_app. Qed.

Lemma parts_of_good x : good_part x -> parts_of x = [x].
Proof. intros [Hne Hno]. unfold parts_of. rewrite split_no_sep by done. simpl. by destruct x. Qed.

Lemma parts_of_join ps : Forall good_part ps -> parts_of (join [slash] ps) = ps.
Proof.
  induction 1 as [|x ps Hx Hps IH]; [done|]. destruct ps as [|y ps]; [by apply parts_of_good|].
  rewrite join_cons by done. change ([slash] ++ ?t) with (slash :: t). rewrite parts_of_app, IH. by rewrite parts_of_good.
Qed.

Lemma npath_snoc ps x : ps <> [] -> npath (ps ++ [x]) = npath ps ++ slash :: x.
Proof.
  intros Hne. unfold npath. simpl. f_equal. induction ps as [|p ps IH]; [done|].
  destruct ps as [|q ps]; [done|]. rewrite <- app_comm_cons.
  rewrite !join_cons by (try by destruct ps). rewrite IH by done. by rewrite <- !(assoc_L (++)).
Qed.

(** A normal path starts and, but for the root, ends with a character that is
    not a slash. *)
Lemma npath_ends ps x : Forall good_part ps -> good_part x ->
  exists a t, join [slash] (ps ++ [x]) = a ++ [t] /\ t <> slash.
Proof.
  intros Hps [Hne Hno]. destruct x as [|t x _] using rev_ind; [done|].
  assert (t <> slash) as Ht by (unfold no_char in Hno; set_solver).
  destruct (decide (ps = [])) as [->|Hp]; [by exists x, t|].
  pose proof (npath_snoc ps (x ++ [t]) Hp) as E. unfold npath in E. injection E as E.
  eexists _, t. split; [|done]. rewrite E. by rewrite app_comm_cons, (assoc_L (++)).
Qed.

Lemma lstrip_head p c s : p c = false -> lstrip p (c :: s) = c :: s.
Proof. simpl. by intros ->. Qed.

Lemma abs_path_npath ps : Forall good_part ps -> abs_path (npath ps) = npath ps.
Proof.
  intros Hps. unfold abs_path, npath, strip. f_equal.
  destruct ps as [|x ps _] using rev_ind; [done|].
  apply Forall_app in Hps as [Hps Hx]. rewrite Forall_singleton in Hx.
  assert (Hl : lstrip is_slash (slash :: join [slash] (ps ++ [x])) = join [slash] (ps ++ [x])).
  { cbn [lstrip]. replace (is_slash slash) with true by done.
    destruct (ps ++ [x]) as [|y l] eqn:E; [done|].
    assert (Forall good_part (y :: l)) as [[Hy Hny] _]%Forall_cons.
    { rewrite <- E. apply Forall_app. split; [done|]. by constructor. }
    destruct y as [|c y]; [done|].
    assert (is_slash c = false) as Hsl by (apply Z.eqb_neq; unfold no_char in Hny; set_solver).
    destruct l as [|z l]; simpl; by rewrite Hsl. }
  rewrite Hl. destruct (npath_ends ps x Hps Hx) as (a & t & -> & Ht).
  unfold rstrip. rewrite rev_app_distr. simpl rev at 2. rewrite <- app_comm_cons.
  rewrite lstrip_head by (by apply Z.eqb_neq). cbn [rev app]. by rewrite rev_involutive.
Qed.

(** Two ways of cutting a path before a last part. *)
Lemma last_part_cut mp t P x :
  mp ++ slash :: t = P ++ slash :: x -> no_char slash x ->
  (mp = P /\ t = x) \/ exists u, P = mp ++ slash :: u /\ t = u ++ slash :: x.
Proof.
  unfold no_char. intros E Hx. apply app_eq_app in E as (l & [[-> E]|[-> E]]).
  - left. destruct l as [|c l]; simplify_eq/=; [by rewrite app_nil_r|]. set_solver.
  - destruct l as [|c l]; simplify_eq/=; [left; by rewrite app_nil_r|]. right. by exists l.
Qed.

(** *** [PurePosixPath] *)

Lemma replace_dslash_length s : (length (replace_dslash s) <= length s)%nat /\
  (has_dslash s = true -> length (replace_dslash s) < length s)%nat.
Proof.
  enough (forall k s, (length s <= k)%nat -> (length (replace_dslash s) <= length s)%nat /\
            (has_dslash s = true -> length (replace_dslash s) < length s)%nat) as Hk.
  { specialize (Hk _ s (le_n _)). split; [lia|tauto]. }
  clear s. induction k as [|k IH]; intros s Hs; [by destruct s; simpl in Hs; [split; [simpl; lia|]|lia]|].
  destruct s as [|a [|b s]]; [split; [simpl; lia|done]..|].
  change (replace_dslash (a :: b :: s)) with
    (if is_slash a && is_slash b then slash :: replace_dslash s else a :: replace_dslash (b :: s)).
  change (has_dslash (a :: b :: s)) with ((is_slash a && is_slash b) || has_dslash (b :: s)).
  destruct (is_slash a && is_slash b).
  - destruct (IH s) as [Hle _]; [simpl in Hs; lia|]. cbn [length] in *. split; intros; lia.
  - destruct (IH (b :: s)) as [Hle Hlt]; [simpl in *; lia|]. cbn [orb length] in *.
    split; [lia|]. intros Hd. specialize (Hlt Hd). lia.
Qed.

(** The normalising loop ends with no double slash, within the fuel given. *)
Lemma collapse_spec fuel s : (length s <= fuel)%nat -> has_dslash (collapse fuel s) = false.
Proof.
  revert s. induction fuel as [|fuel IH]; intros s Hs; [by destruct s; simpl in Hs; [|lia]|].
  simpl. destruct (has_dslash s) eqn:E; [|done].
  apply IH. pose proof (proj2 (replace_dslash_length s) E). lia.
Qed.

Lemma has_dslash_app x t : no_char slash x -> has_dslash (x ++ slash :: t) = has_dslash (slash :: t).
Proof.
  unfold no_char. induction x as [|c x IH]; intros Hx; [done|].
  assert (is_slash c = false) as Hc by (apply Z.eqb_neq; set_solver).
  rewrite <- IH by set_solver. simpl app. destruct (x ++ slash :: t) eqn:E; [by destruct x|].
  cbn [has_dslash]. by rewrite Hc.
Qed.

Lemma has_dslash_none x : no_char slash x -> has_dslash x = false.
Proof.
  unfold no_char. induction x as [|c [|d x] IH]; intros Hx; [done..|].
  assert (is_slash c = false) as Hc by (apply Z.eqb_neq; set_solver).
  cbn [has_dslash]. rewrite Hc. apply IH. set_solver.
Qed.

Lemma npath_no_dslash ps : Forall good_part ps -> has_dslash (npath ps) = false.
Proof.
  induction 1 as [|x ps [Hne Hno] Hps IH]; [done|]. destruct x as [|c x]; [done|].
  assert (is_slash c = false) as Hc by (apply Z.eqb_neq; unfold no_char in Hno; set_solver).
  assert (Hhd : forall t, has_dslash (slash :: (c :: x) ++ t) = has_dslash ((c :: x) ++ t)).
  { intros t. change (has_dslash (slash :: (c :: x) ++ t)) with
      ((is_slash slash && is_slash c) || has_dslash ((c :: x) ++ t)). by rewrite Hc. }
  unfold npath in *. destruct ps as [|y ps].
  - specialize (Hhd []). rewrite app_nil_r in Hhd. cbn [join]. rewrite Hhd. by apply has_dslash_none.
  - rewrite join_cons by done. change ([slash] ++ ?t) with (slash :: t).
    by rewrite Hhd, has_dslash_app, IH.
Qed.

Lemma PurePosixPath_npath ps : Forall good_part ps -> PurePosixPath (npath ps) = npath ps.
Proof.
  intros Hps. unfold PurePosixPath.
  assert (collapse (length (npath ps)) (npath ps) = npath ps) as ->; [|done].
  destruct (length (npath ps)); [done|]. cbn [collapse]. by rewrite npath_no_dslash.
Qed.

Lemma rfind_slash_last a x : no_char slash x -> rfind_slash (a ++ slash :: x) = len a.
Proof.
  intros Hx. unfold rfind_slash.
  set (go := fix go (i last : Z) (s : str) {struct s} : Z :=
         match s with [] => last | c :: s' => go (i + 1) (if is_slash c then i else last) s' end).
  assert (Hn : forall x i l, no_char slash x -> go i l x = l).
  { unfold no_char. induction x0 as [|c x0 IH]; intros i l Hx0; [done|]. cbn [go].
    assert (is_slash c = false) as -> by (apply Z.eqb_neq; set_solver). apply IH. set_solver. }
  assert (forall i l, go i l (a ++ slash :: x) = i + len a) as ->; [|lia].
  induction a as [|c a IH]; intros i l; simpl app; cbn [go].
  - replace (is_slash slash) with true by done. rewrite Hn by done. rewrite len_nil. lia.
  - rewrite IH, len_cons. lia.
Qed.

Lemma path_parent_npath ps x : Forall good_part ps -> good_part x -> path_parent (npath (ps ++ [x])) = npath ps.
Proof.
  intros Hps Hx. unfold path_parent.
  rewrite PurePosixPath_npath by (apply Forall_app; split; [done|by constructor]).
  assert (existsb is_slash (npath (ps ++ [x])) = true) as -> by done.
  destruct (decide (ps = [])) as [->|Hp].
  - destruct Hx as [Hne Hno]. change (npath ([] ++ [x])) with ([] ++ slash :: x).
    rewrite rfind_slash_last by done. destruct (beq_spec ([] ++ slash :: x) (lit "/")) as [E|_]; [|done].
    injection E as E. done.
  - rewrite npath_snoc, rfind_slash_last by (done || apply Hx).
    destruct (beq_spec (npath ps ++ slash :: x) (lit "/")) as [E|_].
    { apply (f_equal length) in E. rewrite length_app in E. simpl in E. lia. }
    simpl negb. cbn [orb]. destruct (Z.eqb_spec (len (npath ps)) 0) as [E|_]; [by apply len_0_nil in E|].
    rewrite slice_to_app. by apply PurePosixPath_npath.
Qed.

Lemma path_name_npath ps x : Forall good_part ps -> good_part x -> path_name (npath (ps ++ [x])) = x.
Proof.
  intros Hps Hx. unfold path_name.
  rewrite PurePosixPath_npath by (apply Forall_app; split; [done|by constructor]).
  assert (exists a, npath (ps ++ [x]) = a ++ slash :: x) as [a ->].
  { destruct (decide (ps = [])) as [->|Hp]; [by exists []|]. exists (npath ps). by apply npath_snoc. }
  rewrite split_app, (split_no_sep _ x) by apply Hx. apply last_last.
Qed.

Section creation.
Context {W Node : Type} `{DirLaws W Node}.
Implicit Types (ms : list (str * Filesystem W Node)) (v : VFS W Node).

Lemma slice_from_head c (s : str) : slice_from (c :: s) 1 = s.
Proof. change (c :: s) with ([c] ++ s). apply (slice_from_app [c] s). Qed.

(** The parent of a path is served by the same mount. *)
Lemma mount_rel_parent mp ps x rel :
  Forall good_part ps -> good_part x -> mp <> npath (ps ++ [x]) ->
  mount_rel mp (npath (ps ++ [x])) = Some rel ->
  exists rel', mount_rel mp (npath ps) = Some rel' /\ parts_of rel = parts_of rel' ++ [x].
Proof.
  intros Hps Hx Hne. unfold mount_rel. destruct (beq_spec mp (lit "/")) as [->|Hroot].
  - intros [= <-]. eexists. split; [done|]. unfold npath. rewrite !slice_from_head.
    rewrite !parts_of_join; [done|done|]. apply Forall_app. split; [done|by constructor].
  - destruct (beq_spec (npath (ps ++ [x])) mp) as [|_]; [congruence|].
    destruct (startswith (npath (ps ++ [x])) _) eqn:Es; [|done]. apply startswith_true in Es as [t Et].
    intros [= <-]. rewrite Et. replace (len mp + 1) with (len (mp ++ [slash])) by (by rewrite len_app).
    rewrite slice_from_app. rewrite <- (assoc_L (++)) in Et. simpl in Et.
    destruct (decide (ps = [])) as [->|Hp].
    + change (npath ([] ++ [x])) with ([] ++ slash :: x) in Et. symmetry in Et.
      destruct (last_part_cut _ _ _ _ Et (proj2 Hx)) as [[-> ->]|(u & Hu & _)]; [|by destruct mp].
      exists []. split; [done|]. by rewrite parts_of_good.
    + rewrite npath_snoc in Et by done. symmetry in Et.
      destruct (last_part_cut _ _ _ _ Et (proj2 Hx)) as [[-> ->]|(u & Hu & ->)].
      * exists []. rewrite beq_refl. split; [done|]. by rewrite parts_of_good.
      * exists u. rewrite parts_of_app, (parts_of_good x) by done. split; [|done].
        destruct (beq_spec (npath ps) mp) as [E|_].
        { exfalso. rewrite Hu in E. apply (f_equal length) in E. rewrite length_app in E. simpl in E. lia. }
        rewrite Hu. replace (mp ++ slash :: u) with ((mp ++ [slash]) ++ u) by (by rewrite <- (assoc_L (++))).
        rewrite startswith_app.
        replace (len mp + 1) with (len (mp ++ [slash])) by (by rewrite len_app). by rewrite slice_from_app.
Qed.

Lemma covers_child mp ps x : covers mp (npath ps) -> covers mp (npath (ps ++ [x])).
Proof.
  intros [?|Hc]; [by left|]. destruct (decide (ps = [])) as [->|Hp].
  - destruct Hc as [<-|[t Et]]; [by left|]. right. right. exists x. destruct mp as [|c mp]; [done|].
    by destruct mp.
  - right. right. rewrite npath_snoc by done. destruct Hc as [->|[t ->]]; [by eexists|].
    exists (t ++ slash :: x). by rewrite <- (assoc_L (++)).
Qed.

Lemma find_mount_parent ms ps x fs rel :
  Forall good_part ps -> good_part x -> npath (ps ++ [x]) ∉ ms.*1 ->
  find_mount (npath (ps ++ [x])) ms = Some (fs, rel) ->
  exists rel', find_mount (npath ps) ms = Some (fs, rel') /\ parts_of rel = parts_of rel' ++ [x].
Proof.
  intros Hps Hx. induction ms as [|[mp f] ms IH]; csimpl; [done|].
  rewrite not_elem_of_cons. intros [Hne Hni].
  destruct (mount_rel mp (npath (ps ++ [x]))) as [r|] eqn:E.
  - intros [= -> ->]. apply mount_rel_parent in E as (rel' & -> & Hp); [|done..]. eauto.
  - intros Hf. destruct (mount_rel mp (npath ps)) eqn:E'; [|by apply IH]. exfalso.
    assert (covers mp (npath (ps ++ [x]))) as Hc%mount_rel_covers.
    { apply covers_child, mount_rel_covers. eauto. }
    rewrite E in Hc. by destruct Hc.
Qed.

Lemma walk_app n ps qs w : walk n (ps ++ qs) w = bind (walk n ps) (fun m => walk m qs) w.
Proof.
  revert n w. induction ps as [|p ps IH]; intros n w; [done|]. simpl. rewrite bind_assoc.
  unfold bind at 1 2. destruct (n_lookup n p w) as [[m|e] w1]; [|done]. apply IH.
Qed.

Lemma walk_pure n ps w r w' : walk n ps w = (r, w') -> w' = w.
Proof.
  revert n w. induction ps as [|p ps IH]; intros n w; simpl; [by intros [= _ ->]|].
  unfold bind. destruct (n_lookup n p w) as [[m|e] w1] eqn:E; apply lookup_law in E as ->.
  - apply IH.
  - by intros [= _ ->].
Qed.

(** A walk that does not use the entry [(d, x)] survives its creation. *)
Lemma walk_survives d x w w' n ps m :
  (forall a nm k, n_lookup a nm w = (Ok k, w) -> (a, nm) <> (d, x) -> n_lookup a nm w' = (Ok k, w')) ->
  (forall k, n_lookup d x w <> (Ok k, w)) ->
  walk n ps w = (Ok m, w) -> walk n ps w' = (Ok m, w').
Proof.
  intros Hkeep Hno. revert n. induction ps as [|p ps IH]; intros n; simpl; [by intros [= ->]|].
  unfold bind. destruct (n_lookup n p w) as [[k|e] w1] eqn:E; apply lookup_law in E as E1; subst w1; [|done].
  intros Hw. rewrite (Hkeep _ _ _ E); [by apply IH|]. intros [= -> ->]. by apply Hno in E.
Qed.

Lemma set_world_id v : set_world (v_world v) v = v.
Proof. by destruct v. Qed.

Lemma resolve_npath ps v : Forall good_part ps ->
  resolve (npath ps) v =
  match find_mount (npath ps) (v_mounts v) with
  | Some (fs, rel) => node (walk (fs_root fs) (parts_of rel)) v
  | None => (Err FileNotFoundError, v)
  end.
Proof. intros Hps. unfold resolve, bind, gets. rewrite abs_path_npath by done. by destruct (find_mount _ _) as [[??]|]. Qed.

(** A missing entry of a resolved directory, before and after its creation. *)
Lemma resolve_child ps x v d e n w' :
  Forall good_part ps -> good_part x -> npath (ps ++ [x]) ∉ (v_mounts v).*1 ->
  resolve (npath ps) v = (Ok d, v) ->
  n_lookup d x (v_world v) = (Err e, v_world v) ->
  n_lookup d x w' = (Ok n, w') ->
  (forall m nm k, n_lookup m nm (v_world v) = (Ok k, v_world v) -> (m, nm) <> (d, x) ->
     n_lookup m nm w' = (Ok k, w')) ->
  resolve (npath (ps ++ [x])) v = (Err e, v) /\
  forall fds next, let v' := mkVFS (v_mounts v) fds next w' in resolve (npath (ps ++ [x])) v' = (Ok n, v').
Proof.
  intros Hps Hx Hni Hpar Hmiss Hfound Hkeep.
  assert (Hpsx : Forall good_part (ps ++ [x])) by (apply Forall_app; split; [done|by constructor]).
  rewrite resolve_npath in Hpar by done.
  destruct (find_mount (npath ps) (v_mounts v)) as [[fs rel']|] eqn:Ep; [|done].
  destruct (find_mount (npath (ps ++ [x])) (v_mounts v)) as [[fs1 rel]|] eqn:Ec.
  2:{ exfalso. pose proof (proj1 (find_mount_None _ _) Ec) as Hno.
      assert (find_mount (npath ps) (v_mounts v) = None) as E'; [|congruence].
      apply find_mount_None. intros mp f Hin Hc. by apply (Hno mp f Hin), covers_child. }
  destruct (find_mount_parent _ _ _ _ _ Hps Hx Hni Ec) as (rel'' & Ep' & Hparts).
  rewrite Ep in Ep'. injection Ep' as <- <-.
  unfold node, zoom in Hpar. destruct (walk (fs_root fs) (parts_of rel') (v_world v)) as [r w1] eqn:Ew.
  apply walk_pure in Ew as Hw1. subst w1. injection Hpar as -> _.
  split.
  - rewrite resolve_npath, Ec, Hparts by done. unfold node, zoom. rewrite walk_app.
    rewrite (bind_step _ _ _ _ _ Ew). simpl. rewrite (bind_fail _ _ _ _ _ Hmiss). by rewrite set_world_id.
  - intros fds next v'. rewrite resolve_npath by done. simpl. rewrite Ec, Hparts. unfold node, zoom. rewrite walk_app.
    assert (Ew' : walk (fs_root fs) (parts_of rel') w' = (Ok d, w')).
    { eapply walk_survives; [exact Hkeep| |exact Ew]. intros k. by rewrite Hmiss. }
    unfold v'. simpl. rewrite (bind_step _ _ _ _ _ Ew'). simpl. by rewrite (bind_step _ _ _ _ _ Hfound).
Qed.

Lemma parts_of_npath ps : Forall good_part ps -> parts_of (npath ps) = ps.
Proof. intros Hps. etrans; [apply (parts_of_app [] (join [slash] ps))|]. by rewrite parts_of_join. Qed.

(** The parent path [open] computes. *)
Lemma open_parent ps x :
  (if 1 <? len (ps ++ [x]) then slash :: join [slash] (slice_to (ps ++ [x]) (-1)) else lit "/") = npath ps.
Proof.
  assert (E : slice_to (ps ++ [x]) (-1) = ps).
  { pose proof (len_nonneg ps). assert (len (ps ++ [x]) = len ps + 1) as Hl by (by rewrite len_app).
    assert (clamp (len (ps ++ [x])) (-1) = clamp (len (ps ++ [x])) (len ps)) as Hc.
    { rewrite Hl, (clamp_id _ (len ps)) by lia. unfold clamp. simpl. lia. }
    etrans; [|apply (slice_to_app ps [x])]. unfold slice_to, slice. by rewrite Hc. }
  rewrite E, len_app. destruct ps; [done|]. rewrite len_cons. pose proof (len_nonneg ps).
  destruct (Z.ltb_spec 1 (1 + len ps + len [x])); [done|]. unfold len in *; simpl in *. lia.
Qed.

(** Opening with CREAT a path whose directory exists and whose last
    part does not, makes an empty file: the call returns a descriptor at
    offset 0 on a node with no data, and the path resolves to that node
    afterwards. *)
Theorem vfs_open_creat ps x v d flags :
  Forall good_part ps -> good_part x -> dir_name_ok x ->
  npath (ps ++ [x]) ∉ (v_mounts v).*1 ->
  has_flag flags O_CREAT = true -> has_flag flags O_TRUNC = false ->
  resolve (npath ps) v = (Ok d, v) -> is_dir (v_world v) d ->
  n_lookup d x (v_world v) = (Err FileNotFoundError, v_world v) ->
  exists n v',
    open (npath (ps ++ [x])) flags v = (Ok (v_next_fd v), v') /\
    v_fds v' !! v_next_fd v = Some (mkFD n flags 0) /\
    content (v_world v') n = Some [] /\
    resolve (npath (ps ++ [x])) v' = (Ok n, v').
Proof.
  intros Hps Hx Hok Hni Hcreat Htrunc Hpar Hdir Hmiss.
  destruct (create_law _ _ x FILE Hdir Hok (or_introl eq_refl)) as (n & w' & Hc & Hf & Hempty & _ & Hkeep).
  destruct (resolve_child _ _ _ _ _ _ _ Hps Hx Hni Hpar Hmiss Hf Hkeep) as [Hbefore Hafter].
  exists n, (mkVFS (v_mounts v) (<[v_next_fd v := mkFD n flags 0]> (v_fds v)) (v_next_fd v + 1) w').
  split; [|split; [apply lookup_insert_eq|split; [by apply Hempty|apply Hafter]]].
  unfold open, open_node. rewrite Hcreat, Htrunc. unfold bind at 1, try_except at 1. rewrite Hbefore.
  rewrite abs_path_npath, parts_of_npath by (apply Forall_app; split; [done|by constructor]).
  rewrite open_parent, last_last. destruct (ps ++ [x]) eqn:E; [by destruct ps|].
  unfold bind at 1. rewrite Hpar. unfold node, zoom. by rewrite Hc.
Qed.

(** [mkdir] of a path whose directory exists and whose last part does
    not makes a directory the path resolves to afterwards. *)
Theorem vfs_mkdir ps x v d :
  Forall good_part ps -> good_part x -> dir_name_ok x ->
  npath (ps ++ [x]) ∉ (v_mounts v).*1 ->
  resolve (npath ps) v = (Ok d, v) -> is_dir (v_world v) d ->
  n_lookup d x (v_world v) = (Err FileNotFoundError, v_world v) ->
  resolve (npath (ps ++ [x])) v = (Err FileNotFoundError, v) /\
  exists n v',
    mkdir (npath (ps ++ [x])) v = (Ok tt, v') /\
    v_mounts v' = v_mounts v /\ v_fds v' = v_fds v /\
    is_dir (v_world v') n /\
    resolve (npath (ps ++ [x])) v' = (Ok n, v').
Proof.
  intros Hps Hx Hok Hni Hpar Hdir Hmiss.
  destruct (create_law _ _ x DIR Hdir Hok (or_intror eq_refl)) as (n & w' & Hc & Hf & _ & Hd & Hkeep).
  destruct (resolve_child _ _ _ _ _ _ _ Hps Hx Hni Hpar Hmiss Hf Hkeep) as [Hbefore Hafter].
  split; [done|]. exists n, (set_world w' v). split; [|split_and!; [done..|by apply Hd|apply Hafter]].
  unfold mkdir. rewrite path_parent_npath, path_name_npath by done.
  rewrite (bind_step _ _ _ _ _ Hpar). unfold bind, node, zoom. by rewrite Hc.
Qed.
End creation.
