(* ===== verification/Tmpfs.v ===== *)
(** * The in-memory filesystem ([kernel/fs/tmpfs.py])

    Node objects are shared (by their parent, by open descriptions, by mounts),
    so the model keeps a heap of nodes and passes references.  A dict is an
    association list in insertion order.  The filesystem implements [FSNode]
    and discharges the laws the switch relies on. *)

From Stdlib Require Import ZArith Lia.
From stdpp Require Import base list gmap numbers strings.
From S2P Require Import Prelude Bytes Pystr Vfs VfsProps.

Local Open Scope Z_scope.

(** ** Dicts with string keys, in insertion order *)

Section dict.
Context {V : Type}.
Abbreviation dict := (list (str * V)).

Fixpoint dict_get (k : str) (d : dict) : option V :=
  match d with
  | [] => None
  | (k', v) :: d' => if beq k' k then Some v else dict_get k d'
  end.
Fixpoint dict_set (k : str) (v : V) (d : dict) : dict :=
  match d with
  | [] => [(k, v)]
  | (k', v') :: d' => if beq k' k then (k', v) :: d' else (k', v') :: dict_set k v d'
  end.
Fixpoint dict_del (k : str) (d : dict) : dict :=
  match d with
  | [] => []
  | (k', v') :: d' => if beq k' k then d' else (k', v') :: dict_del k d'
  end.
End dict.

(** ** Nodes *)

Record TmpfsNode : Type := mkNode {
  inode_type : InodeType;
  mode : Z;
  t_data : bytes;
  t_children : list (str * Z);
}.
Definition set_data d (n : TmpfsNode) : TmpfsNode := mkNode (inode_type n) (mode n) d (t_children n).
Definition set_children c (n : TmpfsNode) : TmpfsNode := mkNode (inode_type n) (mode n) (t_data n) c.

(** The objects: references are allocated in increasing order. *)
Record heap : Type := mkHeap {
  h_nodes : gmap Z TmpfsNode;
  h_next : Z;
}.

Definition TmpfsNode_new (ty : InodeType) (md : Z) : M heap Z :=
  fun h => (Ok (h_next h), mkHeap (<[h_next h := mkNode ty md [] []]> (h_nodes h)) (h_next h + 1)).

Definition deref (n : Z) : M heap TmpfsNode :=
  fun h => match h_nodes h !! n with Some x => (Ok x, h) | None => (Err AttributeError, h) end.
Definition update (n : Z) (f : TmpfsNode -> TmpfsNode) : M heap unit :=
  modify (fun h => mkHeap (alter f n (h_nodes h)) (h_next h)).

Definition is_FILE (ty : InodeType) : bool := match ty with FILE => true | _ => false end.
Definition is_DIR (ty : InodeType) : bool := match ty with DIR => true | _ => false end.

Definition tmpfs_stat (n : Z) : M heap Stat :=
  let! self := deref n in
  ret (mkStat (inode_type self) (len (t_data self)) (mode self)
         (if is_DIR (inode_type self) then 1 + len (t_children self) else 1)).

Definition tmpfs_read (n : Z) (offset k : Z) : M heap bytes :=
  let! self := deref n in
  if negb (is_FILE (inode_type self)) then raise IsADirectoryError
  else ret (slice (t_data self) offset (offset + k)).

Definition tmpfs_write (n : Z) (offset : Z) (data : bytes) : M heap Z :=
  let! self := deref n in
  if negb (is_FILE (inode_type self)) then raise IsADirectoryError
  else
    let fin := offset + len data in
    (if len (t_data self) <? fin then
       update n (fun x => set_data (t_data x ++ zeros (fin - len (t_data x))) x)
     else ret tt) ;;;
    update n (fun x => set_data (slice_assign (t_data x) offset fin data) x) ;;;
    ret (len data).

Definition tmpfs_truncate (n : Z) (size : Z) : M heap unit :=
  let! self := deref n in
  if negb (is_FILE (inode_type self)) then raise IsADirectoryError
  else update n (fun x => set_data (slice_to (t_data x) size) x).

Definition tmpfs_readdir (n : Z) : M heap (list str) :=
  let! self := deref n in
  if negb (is_DIR (inode_type self)) then raise NotADirectoryError
  else ret ([lit "."; lit ".."] ++ map fst (t_children self)).

Definition tmpfs_lookup (n : Z) (name : str) : M heap Z :=
  let! self := deref n in
  if beq name (lit ".") || beq name [] then ret n
  else match dict_get name (t_children self) with
       | None => raise FileNotFoundError
       | Some c => ret c
       end.

Definition tmpfs_create (n : Z) (name : str) (ty : InodeType) : M heap Z :=
  let! self := deref n in
  if negb (is_DIR (inode_type self)) then raise NotADirectoryError
  else
    let! c := TmpfsNode_new ty 0x1A4 in
    update n (fun x => set_children (dict_set name c (t_children x)) x) ;;;
    ret c.

Definition tmpfs_unlink (n : Z) (name : str) : M heap unit :=
  let! self := deref n in
  match dict_get name (t_children self) with
  | None => raise FileNotFoundError
  | Some _ => update n (fun x => set_children (dict_del name (t_children x)) x)
  end.

#[global] Instance tmpfs_node : FSNode heap Z := {
  n_stat := tmpfs_stat;
  n_read := tmpfs_read;
  n_write := tmpfs_write;
  n_truncate := tmpfs_truncate;
  n_readdir := tmpfs_readdir;
  n_lookup := tmpfs_lookup;
  n_create := tmpfs_create;
  n_unlink := tmpfs_unlink;
}.

(** ** The filesystem *)

(** The loop of [read_sync] and [isdir_sync]: [None] is an early return. *)
Fixpoint sync_walk (n : Z) (parts : list str) : M heap (option Z) :=
  match parts with
  | [] => ret (Some n)
  | part :: ps =>
      let! x := deref n in
      if negb (is_DIR (inode_type x)) then ret None
      else match dict_get part (t_children x) with
           | None => ret None
           | Some kid => sync_walk kid ps
           end
  end.

Definition tmpfs_read_sync (root : Z) (path : str) : M heap (option bytes) :=
  let! o := sync_walk root (parts_of (abs_path path)) in
  match o with
  | None => ret None
  | Some n =>
      let! x := deref n in
      if negb (is_FILE (inode_type x)) then ret None else ret (Some (t_data x))
  end.

Definition tmpfs_isdir_sync (root : Z) (path : str) : M heap bool :=
  let! o := sync_walk root (parts_of (abs_path path)) in
  match o with
  | None => ret false
  | Some n => let! x := deref n in ret (is_DIR (inode_type x))
  end.

(** [TmpFS()]: a fresh root; no [flush]. *)
Definition TmpFS_new : M heap (Filesystem heap Z) :=
  let! root := TmpfsNode_new DIR 0x1ED in
  ret (mkFS root None (Some (tmpfs_read_sync root)) (Some (tmpfs_isdir_sync root))).

(** ** Seeding from a dict tree *)

Inductive tree : Type :=
| TDict (kids : list (str * tree))
| TBytes (data : bytes)
| TStr (s : str).

Definition attach (n : Z) (name : str) (c : Z) : M heap unit :=
  update n (fun x => set_children (dict_set name c (t_children x)) x).

(** The body of the loop of [_seed_node] for one item, with the recursion. *)
Fixpoint seed_item (t : tree) (n : Z) (name : str) {struct t} : M heap unit :=
  match t with
  | TDict kids =>
      let! child := TmpfsNode_new DIR 0x1ED in
      attach n name child ;;;
      (fix loop (l : list (str * tree)) : M heap unit :=
         match l with
         | [] => ret tt
         | (k, v) :: l' => seed_item v child k ;;; loop l'
         end) kids
  | TBytes data =>
      let! child := TmpfsNode_new FILE 0x1A4 in
      update child (set_data data) ;;;
      attach n name child
  | TStr s =>
      let! child := TmpfsNode_new FILE 0x1A4 in
      let! data := lift (encode s) in
      update child (set_data data) ;;;
      attach n name child
  end.

Definition seed (root : Z) (kids : list (str * tree)) : M heap unit :=
  for_each kids (fun '(name, v) => seed_item v root name).

(** ** Lemmas on dicts *)

Section dict_lemmas.
Context {V : Type}.
Implicit Types d : list (str * V).

Lemma dict_get_set k v d : dict_get k (dict_set k v d) = Some v.
Proof. induction d as [|[k' v'] d IH]; simpl; [by rewrite beq_refl|]. destruct (beq k' k) eqn:E; simpl; by rewrite E. Qed.

Lemma dict_get_set_ne k k' v d : k' <> k -> dict_get k' (dict_set k v d) = dict_get k' d.
Proof.
  intros Hne. induction d as [|[k0 v0] d IH]; simpl.
  - destruct (beq_spec k k'); congruence.
  - destruct (beq_spec k0 k) as [->|]; simpl; [|by rewrite IH].
    by destruct (beq_spec k k'); [congruence|].
Qed.

Lemma dict_set_values k v d c : c ∈ (dict_set k v d).*2 -> c = v \/ c ∈ d.*2.
Proof. induction d as [|[k' v'] d IH]; simpl; [|case_match]; csimpl; rewrite ?elem_of_cons, ?elem_of_nil; naive_solver. Qed.

Lemma dict_del_values k d c : c ∈ (dict_del k d).*2 -> c ∈ d.*2.
Proof. induction d as [|[k' v'] d IH]; simpl; [|case_match]; csimpl; rewrite ?elem_of_cons, ?elem_of_nil; naive_solver. Qed.

Lemma dict_get_values k d c : dict_get k d = Some c -> c ∈ d.*2.
Proof. induction d as [|[k' v'] d IH]; simpl; [done|]. case_match; csimpl; rewrite elem_of_cons; naive_solver. Qed.
End dict_lemmas.

(** ** The heap invariant

    References in use are below [h_next]; only directories have children; a
    child is an object of the heap, allocated after its parent.  So the
    directory graph has no cycle and no dangling edge. *)

Record heap_wf (h : heap) : Prop := {
  hw_fresh : forall n, is_Some (h_nodes h !! n) -> n < h_next h;
  hw_leaf : forall n x, h_nodes h !! n = Some x -> inode_type x <> DIR -> t_children x = [];
  hw_kids : forall n x c, h_nodes h !! n = Some x -> c ∈ (t_children x).*2 ->
              is_Some (h_nodes h !! c) /\ n < c;
}.

Lemma alter_is_Some (f : TmpfsNode -> TmpfsNode) n (m : gmap Z TmpfsNode) k :
  is_Some (alter f n m !! k) <-> is_Some (m !! k).
Proof. rewrite lookup_alter. case_match; [|done]. subst. by rewrite fmap_is_Some. Qed.

(** An update that keeps the type of a node and gives it no new child. *)
Lemma heap_wf_update h n f :
  (forall x, inode_type (f x) = inode_type x) ->
  (forall x c, c ∈ (t_children (f x)).*2 -> c ∈ (t_children x).*2) ->
  heap_wf h -> heap_wf (mkHeap (alter f n (h_nodes h)) (h_next h)).
Proof.
  intros Hty Hch [Hf Hl Hk]. split; simpl.
  - intros m. rewrite alter_is_Some. auto.
  - intros m x. rewrite lookup_alter. case_match; [|eauto]. subst.
    intros (y & Hy & ->)%fmap_Some. rewrite Hty. intros Hne. specialize (Hl _ _ Hy Hne).
    destruct (t_children (f y)) as [|[k c] l] eqn:E; [done|]. exfalso.
    assert (c ∈ (t_children y).*2) as Hc by (apply Hch; rewrite E; apply list_elem_of_here).
    rewrite Hl in Hc. by apply not_elem_of_nil in Hc.
  - intros m x c. rewrite lookup_alter, alter_is_Some. intros Hx Hc.
    assert (exists y, h_nodes h !! m = Some y /\ c ∈ (t_children y).*2) as (y & Hy & Hc').
    { case_match; [|eauto]. subst. apply fmap_Some in Hx as (y & Hy & ->). eauto. }
    by apply (Hk _ _ _ Hy Hc').
Qed.

Lemma heap_wf_new h ty md : heap_wf h ->
  heap_wf (mkHeap (<[h_next h := mkNode ty md [] []]> (h_nodes h)) (h_next h + 1)).
Proof.
  intros [Hf Hl Hk]. split; simpl.
  - intros n [x Hx]. apply lookup_insert_Some in Hx as [[<- _]|[_ Hx]]; [lia|].
    specialize (Hf n (mk_is_Some _ _ Hx)). lia.
  - intros n x Hx. apply lookup_insert_Some in Hx as [[_ <-]|[_ Hx]]; [done|eauto].
  - intros n x c Hx Hc. apply lookup_insert_Some in Hx as [[_ <-]|[_ Hx]]; [by apply not_elem_of_nil in Hc|].
    destruct (Hk _ _ _ Hx Hc) as [Hs Hlt]. split; [|done].
    destruct (decide (c = h_next h)) as [->|]; [by rewrite lookup_insert_eq|by rewrite lookup_insert_ne].
Qed.

(** Attaching an object to an older directory. *)
Lemma heap_wf_attach h n name c :
  heap_wf h -> is_Some (h_nodes h !! c) -> n < c ->
  (forall x, h_nodes h !! n = Some x -> inode_type x = DIR) ->
  heap_wf (snd (attach n name c h)).
Proof.
  intros [Hf Hl Hk] Hc Hlt Hdir. unfold attach, update, modify. simpl.
  set (f := fun x => set_children (dict_set name c (t_children x)) x).
  split; simpl.
  - intros m Hm. apply Hf. by rewrite alter_is_Some in Hm.
  - intros m x Hx Hne. rewrite lookup_alter in Hx. case_match; [|eauto]. subst.
    apply fmap_Some in Hx as (y & Hy & ->). by apply Hdir in Hy.
  - intros m x k Hx Hin. rewrite alter_is_Some. rewrite lookup_alter in Hx. case_match; [|eauto]. subst.
    apply fmap_Some in Hx as (y & Hy & ->). simpl in Hin. apply dict_set_values in Hin as [->|Hin]; eauto.
Qed.

Lemma heap_wf_init : heap_wf (mkHeap ∅ 0).
Proof. split; simpl; intros n; [intros [x Hx]|intros x Hx|intros x c Hx]; by rewrite lookup_empty in Hx. Qed.

(** [h'] comes from [h] by allocation and mutation that keeps types. *)
Definition types_kept (h h' : heap) : Prop :=
  forall n x, h_nodes h !! n = Some x -> exists x', h_nodes h' !! n = Some x' /\ inode_type x' = inode_type x.

#[global] Instance types_kept_preorder : PreOrder types_kept.
Proof.
  split; [intros h n x; eauto|]. intros h1 h2 h3 H12 H23 n x Hx.
  destruct (H12 _ _ Hx) as (y & Hy & Ey). destruct (H23 _ _ Hy) as (z & Hz & Ez).
  exists z. split; [done|]. congruence.
Qed.

Lemma types_kept_update f n h : (forall x, inode_type (f x) = inode_type x) ->
  types_kept h (mkHeap (alter f n (h_nodes h)) (h_next h)).
Proof.
  intros Hf m x Hx. simpl. rewrite lookup_alter. case_match; [|eauto]. subst.
  rewrite Hx. simpl. eauto.
Qed.

Lemma types_kept_new ty md h : heap_wf h ->
  types_kept h (mkHeap (<[h_next h := mkNode ty md [] []]> (h_nodes h)) (h_next h + 1)).
Proof.
  intros Hw m x Hx. simpl. exists x. split; [|done]. rewrite lookup_insert_ne; [done|].
  intros <-. pose proof (hw_fresh _ Hw _ (mk_is_Some _ _ Hx)). lia.
Qed.

(** Attaching a freshly allocated object. *)
Lemma attach_new h n x name ty md data :
  heap_wf h -> h_nodes h !! n = Some x -> inode_type x = DIR ->
  let h1 := mkHeap (<[h_next h := mkNode ty md [] []]> (h_nodes h)) (h_next h + 1) in
  let h2 := mkHeap (alter (set_data data) (h_next h) (h_nodes h1)) (h_next h1) in
  (heap_wf (snd (attach n name (h_next h) h1)) /\ types_kept h (snd (attach n name (h_next h) h1))) /\
  (heap_wf (snd (attach n name (h_next h) h2)) /\ types_kept h (snd (attach n name (h_next h) h2))).
Proof.
  intros Hw Hx Hd h1 h2. pose proof (hw_fresh _ Hw _ (mk_is_Some _ _ Hx)) as Hlt.
  pose proof (heap_wf_new h ty md Hw) as Hw1. fold h1 in Hw1.
  assert (Hw2 : heap_wf h2) by (by apply heap_wf_update).
  assert (Hk1 : types_kept h h1) by (by apply types_kept_new).
  assert (Hk2 : types_kept h h2) by (etrans; [exact Hk1|]; by apply types_kept_update).
  assert (Hat : forall h', heap_wf h' -> types_kept h h' -> is_Some (h_nodes h' !! h_next h) ->
            heap_wf (snd (attach n name (h_next h) h')) /\ types_kept h (snd (attach n name (h_next h) h'))).
  { intros h' Hw' Hk' Hs. split.
    - apply heap_wf_attach; [done..|]. intros y Hy. destruct (Hk' _ _ Hx) as (y' & Hy' & E). congruence.
    - etrans; [exact Hk'|]. by apply types_kept_update. }
  split; apply Hat; try done; unfold h2; simpl; [by rewrite lookup_insert_eq|].
  rewrite alter_is_Some. by rewrite lookup_insert_eq.
Qed.

Lemma seed_item_wf t n name h r h' x :
  heap_wf h -> h_nodes h !! n = Some x -> inode_type x = DIR ->
  seed_item t n name h = (r, h') -> heap_wf h' /\ types_kept h h'.
Proof.
  revert t n name h r h' x. fix IH 1. intros t n name h r h' x Hw Hx Hd.
  destruct t as [kids|data|s]; cbn [seed_item].
  - destruct (attach_new h n x name DIR 0x1ED [] Hw Hx Hd) as [[Hw1 Hk1] _].
    unfold bind at 1, TmpfsNode_new. unfold bind at 1.
    destruct (attach n name (h_next h) _) as [[u|e] h1] eqn:Ea; [|by unfold attach, update, modify in Ea].
    simpl in Hw1, Hk1.
    assert (exists y, h_nodes h1 !! h_next h = Some y /\ inode_type y = DIR) as (y & Hy & Hyd).
    { unfold attach, update, modify in Ea. simplify_eq. simpl. rewrite lookup_alter_ne.
      - rewrite lookup_insert_eq. eauto.
      - intros ->. pose proof (hw_fresh _ Hw _ (mk_is_Some _ _ Hx)). lia. }
    clear Ea Hx. revert r h' h1 y Hw1 Hk1 Hy Hyd.
    induction kids as [|[k v] kids IHk]; intros r h' h1 y Hw1 Hk1 Hy Hyd; [by intros [= _ <-]|].
    unfold bind at 1. destruct (seed_item v (h_next h) k h1) as [[u'|e] h2] eqn:Ev.
    + destruct (IH v _ _ _ _ _ _ Hw1 Hy Hyd Ev) as [Hw2 Hk2].
      destruct (Hk2 _ _ Hy) as (y2 & Hy2 & Ey2).
      apply (IHk r h' h2 y2); [done|by etrans|done|congruence].
    + intros [= _ <-]. destruct (IH v _ _ _ _ _ _ Hw1 Hy Hyd Ev) as [Hw2 Hk2]. split; [done|by etrans].
  - destruct (attach_new h n x name FILE 0x1A4 data Hw Hx Hd) as [_ H2]. intros E.
    cbv [bind TmpfsNode_new update modify attach] in E. injection E as _ <-. exact H2.
  - unfold bind at 1, TmpfsNode_new. unfold bind at 1, lift. destruct (encode s) as [data|e].
    + destruct (attach_new h n x name FILE 0x1A4 data Hw Hx Hd) as [_ H2]. intros E.
      cbv [bind TmpfsNode_new update modify attach] in E. injection E as _ <-. exact H2.
    + intros [= _ <-]. split; [by apply heap_wf_new|by apply types_kept_new].
Qed.

(** ** Every operation keeps the invariant *)

Inductive tmpfs_step : heap -> heap -> Prop :=
| ts_new h : tmpfs_step h (snd (TmpFS_new h))
| ts_write n off data h : tmpfs_step h (snd (tmpfs_write n off data h))
| ts_truncate n size h : tmpfs_step h (snd (tmpfs_truncate n size h))
| ts_create n name ty h : tmpfs_step h (snd (tmpfs_create n name ty h))
| ts_unlink n name h : tmpfs_step h (snd (tmpfs_unlink n name h))
| ts_seed n x kids h : h_nodes h !! n = Some x -> inode_type x = DIR -> tmpfs_step h (snd (seed n kids h)).

Lemma keeps_update n f :
  (forall x, inode_type (f x) = inode_type x) ->
  (forall x c, c ∈ (t_children (f x)).*2 -> c ∈ (t_children x).*2) ->
  keeps heap_wf (update n f).
Proof. intros Hty Hch. apply keeps_modify. intros h. by apply heap_wf_update. Qed.

Lemma keeps_deref n : keeps heap_wf (deref n).
Proof. intros h r h' Hw. unfold deref. case_match; intros; by simplify_eq. Qed.

Hint Resolve keeps_update keeps_deref : py.

Lemma create_wf n name ty h : heap_wf h -> heap_wf (snd (tmpfs_create n name ty h)).
Proof.
  intros Hw. unfold tmpfs_create, bind, deref.
  destruct (h_nodes h !! n) as [x|] eqn:Hx; [|done]. destruct (inode_type x) eqn:Ht; simpl; try done.
  by destruct (attach_new h n x name ty 0x1A4 [] Hw Hx Ht) as [[? _] _].
Qed.

Lemma seed_wf n x kids h : heap_wf h -> h_nodes h !! n = Some x -> inode_type x = DIR ->
  heap_wf (snd (seed n kids h)).
Proof.
  unfold seed. revert h x. induction kids as [|[k t] kids IH]; intros h x Hw Hx Hd; [done|].
  simpl. unfold bind. destruct (seed_item t n k h) as [[u|e] h1] eqn:E;
    destruct (seed_item_wf _ _ _ _ _ _ _ Hw Hx Hd E) as [Hw1 Hk]; [|done].
  destruct (Hk _ _ Hx) as (x1 & Hx1 & E1). apply (IH h1 x1); [done..|congruence].
Qed.

Lemma tmpfs_step_wf h h' : heap_wf h -> tmpfs_step h h' -> heap_wf h'.
Proof.
  assert (Hk : forall A (m : M heap A) h, keeps heap_wf m -> heap_wf h -> heap_wf (snd (m h))).
  { intros A m h0 Hm Hi. destruct (m h0) as [r h1] eqn:E. by eapply Hm. }
  intros Hw Hs. revert Hw. destruct Hs; intros Hw.
  - by apply heap_wf_new.
  - apply Hk; [|done]. unfold tmpfs_write. apply keeps_bind; [auto with py|]. intros x.
    case_match; [auto with py|]. apply keeps_bind; [case_match; auto with py|].
    intros _. apply keeps_bind; [apply keeps_update|]; auto with py.
  - apply Hk; [|done]. unfold tmpfs_truncate. apply keeps_bind; [auto with py|]. intros x.
    case_match; auto with py.
  - by apply create_wf.
  - apply Hk; [|done]. unfold tmpfs_unlink. apply keeps_bind; [auto with py|]. intros x.
    case_match; [|auto with py]. apply keeps_update; [done|]. intros y c. simpl. apply dict_del_values.
  - by eapply seed_wf.
Qed.

(** ** The laws *)

Definition tmpfs_content (h : heap) (n : Z) : option bytes :=
  match h_nodes h !! n with
  | Some x => if is_FILE (inode_type x) then Some (t_data x) else None
  | None => None
  end.

Lemma tmpfs_content_Some h n d : tmpfs_content h n = Some d ->
  exists x, h_nodes h !! n = Some x /\ inode_type x = FILE /\ t_data x = d.
Proof.
  unfold tmpfs_content. destruct (h_nodes h !! n) as [x|]; [|done].
  destruct (inode_type x) eqn:E; simpl; intros; simplify_eq; eauto.
Qed.

Lemma slice_all {A} (l : list A) n : len l = n -> slice l 0 n = l.
Proof. intros <-. apply slice_full. Qed.

Lemma write_splice d off data :
  0 <= off ->
  slice_assign (if len d <? off + len data then d ++ zeros (off + len data - len d) else d)
    off (off + len data) data = splice d off data.
Proof.
  intros Hoff. pose proof (len_nonneg data) as Hld. pose proof (len_nonneg d) as Hd. unfold splice.
  assert (Hgen : forall d', off + len data <= len d' ->
            slice_to d' off = slice_to (d ++ zeros (off - len d)) off ->
            slice_from d' (off + len data) = slice_from d (off + len data) ->
            slice_assign d' off (off + len data) data =
            slice_to (d ++ zeros (off - len d)) off ++ data ++ slice_from d (off + len data)).
  { intros d' Hl <- <-. rewrite slice_assign_inside by lia. unfold slice_to, slice_from.
    rewrite !slice_inside by lia. rewrite Z.sub_0_r. f_equal. f_equal.
    rewrite take_ge; [done|]. rewrite length_drop. unfold len in *. lia. }
  destruct (Z.ltb_spec (len d) (off + len data)) as [Hlt|Hge].
  - assert (Hz : len (d ++ zeros (off + len data - len d)) = off + len data).
    { rewrite len_app, len_zeros by lia. lia. }
    apply Hgen; [lia| |].
    + unfold slice_to. destruct (Z.le_gt_cases off (len d)) as [Hle|Hgt].
      * assert (zeros (off - len d) = []) as -> by (unfold zeros; by replace (Z.to_nat _) with O by lia).
        rewrite app_nil_r, slice_app_l by lia. done.
      * assert (Hl2 : len (d ++ zeros (off - len d)) = off) by (rewrite len_app, len_zeros; lia).
        rewrite (slice_all (d ++ zeros (off - len d)) off) by done.
        replace (off + len data - len d) with ((off - len d) + len data) by lia.
        unfold zeros. rewrite Z2Nat.inj_add, replicate_add, (assoc_L (++)) by lia.
        unfold zeros in Hl2. rewrite slice_app_l by lia. by apply slice_all.
    + unfold slice_from, slice. rewrite Hz. rewrite !(clamp_big (len d)), !clamp_id by lia.
      by rewrite !Z.sub_diag.
  - apply Hgen; [lia| |done]. assert (zeros (off - len d) = []) as ->; [|by rewrite app_nil_r].
    unfold zeros. by replace (Z.to_nat _) with O by lia.
Qed.

Lemma tmpfs_write_run h n x off data :
  h_nodes h !! n = Some x -> inode_type x = FILE -> 0 <= off ->
  tmpfs_write n off data h =
    (Ok (len data), mkHeap (<[n := set_data (splice (t_data x) off data) x]> (h_nodes h)) (h_next h)).
Proof.
  intros Hx Hty Hoff. unfold tmpfs_write, bind, deref. rewrite Hx, Hty. simpl.
  rewrite <- (write_splice (t_data x) off data) by done.
  destruct (len (t_data x) <? off + len data); unfold update, modify, ret; simpl; do 2 f_equal.
  - rewrite alter_alter_eq. by rewrite (alter_alt_Some _ _ _ x).
  - by rewrite (alter_alt_Some _ _ _ x).
Qed.

#[global] Instance tmpfs_file_laws : FileLaws heap Z.
Proof.
  refine {| content := tmpfs_content |}.
  - intros h n d off k (x & Hx & Hty & <-)%tmpfs_content_Some _ _. simpl.
    unfold tmpfs_read, bind, deref. by rewrite Hx, Hty.
  - intros h n d off data (x & Hx & Hty & <-)%tmpfs_content_Some Hoff. simpl.
    rewrite (tmpfs_write_run _ _ x) by done. eexists. split; [done|]. unfold tmpfs_content. simpl. split.
    + rewrite lookup_insert_eq. simpl. by rewrite Hty.
    + intros m Hm. by rewrite lookup_insert_ne.
  - intros h n d (x & Hx & Hty & <-)%tmpfs_content_Some. simpl.
    unfold tmpfs_stat, bind, deref. rewrite Hx. by eexists.
Defined.

Definition tmpfs_is_dir (h : heap) (n : Z) : Prop :=
  heap_wf h /\ exists x, h_nodes h !! n = Some x /\ inode_type x = DIR.

Lemma tmpfs_lookup_pure h n name r h' : tmpfs_lookup n name h = (r, h') -> h' = h.
Proof.
  unfold tmpfs_lookup, bind, deref. destruct (h_nodes h !! n); [|by intros [= _ <-]].
  case_match; [by intros [= _ <-]|]. case_match; by intros [= _ <-].
Qed.

Lemma tmpfs_create_run h n x name ty :
  h_nodes h !! n = Some x -> inode_type x = DIR -> h_next h <> n ->
  tmpfs_create n name ty h =
    (Ok (h_next h),
     mkHeap (<[n := set_children (dict_set name (h_next h) (t_children x)) x]>
               (<[h_next h := mkNode ty 0x1A4 [] []]> (h_nodes h))) (h_next h + 1)).
Proof.
  intros Hx Hty Hne. unfold tmpfs_create, bind, deref. rewrite Hx, Hty. simpl.
  unfold update, modify, ret. simpl. do 2 f_equal. erewrite alter_alt_Some; [done|].
  by rewrite lookup_insert_ne.
Qed.

#[global] Instance tmpfs_dir_laws : DirLaws heap Z.
Proof.
  refine {| is_dir := tmpfs_is_dir; dir_name_ok := fun name => name <> lit "." /\ name <> [] |}.
  - apply tmpfs_lookup_pure.
  - intros h n name ty [Hw (x & Hx & Hty)] [Hdot Hnil] Hft.
    assert (Hne : h_next h <> n) by (pose proof (hw_fresh _ Hw _ (mk_is_Some _ _ Hx)); lia).
    pose proof (create_wf n name ty h Hw) as Hw'. simpl n_create. rewrite (tmpfs_create_run _ _ x) in Hw' |- * by done.
    eexists _, _. split; [done|]. simpl in Hw'. simpl n_lookup.
    split; [|split; [|split]].
    + unfold tmpfs_lookup, bind, deref. simpl h_nodes. rewrite lookup_insert_eq.
      destruct (beq_spec name (lit ".")); [done|]. destruct (beq_spec name []); [done|]. simpl.
      by rewrite dict_get_set.
    + intros ->. simpl. unfold tmpfs_content. simpl. by rewrite lookup_insert_ne, lookup_insert_eq.
    + intros ->. split; [done|]. simpl. rewrite lookup_insert_ne, lookup_insert_eq by done. eauto.
    + intros m nm k Hl Hmn. revert Hl. unfold tmpfs_lookup, bind, deref, ret. cbn [h_nodes].
      destruct (h_nodes h !! m) as [y|] eqn:Hy; [|done].
      destruct (decide (m = n)) as [->|Hm].
      * rewrite lookup_insert_eq. cbn [set_children t_children]. rewrite Hx in Hy. injection Hy as ->.
        destruct (beq nm (lit ".") || beq nm []); [intros E; by simplify_eq|].
        rewrite dict_get_set_ne by congruence. destruct (dict_get nm (t_children y)); intros E; by simplify_eq.
      * rewrite lookup_insert_ne by done. rewrite lookup_insert_ne.
        2:{ intros <-. pose proof (hw_fresh _ Hw _ (mk_is_Some _ _ Hy)). lia. }
        rewrite Hy. destruct (beq nm (lit ".") || beq nm []); [intros E; by simplify_eq|].
        destruct (dict_get nm (t_children y)); intros E; by simplify_eq.
Defined.

(** ** The synchronous walk and the asynchronous one *)

Lemma sync_walk_walk h n parts :
  heap_wf h -> is_Some (h_nodes h !! n) -> Forall (fun p => p <> lit "." /\ p <> []) parts ->
  (exists m, walk n parts h = (Ok m, h) /\ sync_walk n parts h = (Ok (Some m), h) /\ is_Some (h_nodes h !! m)) \/
  (walk n parts h = (Err FileNotFoundError, h) /\ sync_walk n parts h = (Ok None, h)).
Proof.
  intros Hw [x Hx] Hp. revert n x Hx. induction Hp as [|p parts [Hdot Hnil] Hp IH]; intros n x Hx.
  - left. exists n. by rewrite Hx.
  - cbn [walk sync_walk]. simpl n_lookup. unfold tmpfs_lookup. unfold bind, deref. rewrite Hx.
    destruct (beq_spec p (lit ".")); [done|]. destruct (beq_spec p []); [done|]. simpl.
    destruct (decide (inode_type x = DIR)) as [->|Hnd]; simpl.
    + destruct (dict_get p (t_children x)) as [c|] eqn:Hc; [|by right].
      destruct (hw_kids _ Hw _ _ _ Hx (dict_get_values _ _ _ Hc)) as [[y Hy] _]. exact (IH c y Hy).
    + rewrite (hw_leaf _ Hw _ _ Hx Hnd). simpl. right. split; [done|]. by destruct (inode_type x).
Qed.

(** On any tmpfs the operations can build, the synchronous reader used by
    the importer and the asynchronous lookup agree: [read_sync] of a normal
    path returns the data of the regular file that looking up its parts
    reaches, and None exactly when the lookup raises FileNotFoundError or
    reaches a node that is not a regular file; [isdir_sync] is true exactly
    when the lookup reaches a directory. *)
Theorem tmpfs_sync_agrees h root parts :
  steps tmpfs_step (mkHeap ∅ 0) h ->
  is_Some (h_nodes h !! root) ->
  Forall (fun p => good_part p /\ p <> lit ".") parts ->
  exists r, walk root parts h = (r, h) /\
  tmpfs_read_sync root (npath parts) h =
    (Ok (match r with Ok n => content h n | Err _ => None end), h) /\
  tmpfs_isdir_sync root (npath parts) h =
    (Ok (match r with Ok n => match h_nodes h !! n with Some x => is_DIR (inode_type x) | None => false end
         | Err _ => false end), h).
Proof.
  intros Hr Hroot Hp.
  assert (Hw : heap_wf h).
  { eapply (steps_invariant tmpfs_step heap_wf tmpfs_step_wf); [|exact Hr]. apply heap_wf_init. }
  assert (Hg : Forall good_part parts) by (eapply list.Forall_impl; [exact Hp|naive_solver]).
  unfold tmpfs_read_sync, tmpfs_isdir_sync, bind. rewrite abs_path_npath, parts_of_npath by done.
  destruct (sync_walk_walk h root parts Hw Hroot) as [(m & -> & -> & [x Hx])|[-> ->]].
  { eapply list.Forall_impl; [exact Hp|]. unfold good_part. naive_solver. }
  - eexists. split; [done|]. unfold deref. rewrite Hx. simpl. unfold tmpfs_content. rewrite Hx.
    split; [|done]. by destruct (inode_type x).
  - by eexists.
Qed.

(** ** Concrete systems *)

(** Two filesystems, at "/" and "/home"; "/etc" holds a file. *)
Definition wit_fs0 : Filesystem heap Z :=
  mkFS 0 None (Some (tmpfs_read_sync 0)) (Some (tmpfs_isdir_sync 0)).
Definition wit_fs1 : Filesystem heap Z :=
  mkFS 1 None (Some (tmpfs_read_sync 1)) (Some (tmpfs_isdir_sync 1)).
Definition wit_heap : heap :=
  snd ((TmpFS_new ;;; TmpFS_new ;;;
        seed 0 [(lit "etc", TDict [(lit "motd", TStr (lit "hello")); (lit "raw", TBytes [1; 2; 3])])])
         (mkHeap ∅ 0)).
Definition wit_vfs : VFS heap Z := mount (lit "/home/") wit_fs1 (mount (lit "/") wit_fs0 (VFS_init wit_heap)).

Lemma wit_vfs_reachable : steps vfs_step (VFS_init wit_heap) wit_vfs.
Proof. eapply steps_cons; [apply step_mount|]. eapply steps_cons; [apply step_mount|]. apply steps_refl. Qed.

Lemma wit_heap_reachable : steps tmpfs_step (mkHeap ∅ 0) wit_heap.
Proof.
  eapply steps_cons; [apply ts_new|]. eapply steps_cons; [apply ts_new|].
  eapply steps_cons; [apply (ts_seed 0 (mkNode DIR 0x1ED [] [])); reflexivity|]. apply steps_refl.
Qed.

Lemma good_part_dec p : negb (beq p []) && forallb (fun c => negb (is_slash c)) p = true -> good_part p.
Proof.
  rewrite andb_true_iff, forallb_forall. intros [H1 H2]. split; [by destruct p|].
  unfold no_char. intros Hin. apply list_elem_of_In, H2 in Hin. done.
Qed.

Lemma vfs_longest_prefix_witness :
  steps vfs_step (VFS_init wit_heap) wit_vfs /\
  exists mp fs, (mp, fs) ∈ v_mounts wit_vfs /\
    forall mp' fs', (mp', fs') ∈ v_mounts wit_vfs -> covers mp' (abs_path (lit "/home")) ->
      (mp' = mp /\ fs' = fs) \/ len mp' < len mp.
Proof.
  split; [exact wit_vfs_reachable|].
  destruct (vfs_longest_prefix wit_heap wit_vfs (lit "/home") wit_vfs_reachable)
    as [[E _]|(mp & fs & rel & Hin & Hall & _)].
  - apply (f_equal fst) in E. vm_compute in E. discriminate E.
  - exists mp, fs. split; [exact Hin|exact Hall].
Defined.

Lemma vfs_mount_unmount_witness :
  (lit "/tmp") ∉ (v_mounts wit_vfs).*1 /\
  unmount (lit "/tmp") (mount (lit "/tmp") (NodeFS 1) wit_vfs) = (Ok tt, wit_vfs).
Proof.
  assert (Hni : (lit "/tmp") ∉ (v_mounts wit_vfs).*1) by (vm_compute; set_solver).
  split; [exact Hni|]. apply (vfs_mount_unmount wit_heap wit_vfs (lit "/tmp") (NodeFS 1)).
  - exact wit_vfs_reachable.
  - exact Hni.
Defined.

Lemma vfs_open_fresh_witness :
  exists v', open (lit "/etc/motd") 0 wit_vfs = (Ok 3, v') /\ v_fds wit_vfs !! 3 = None /\
    exists n, v_fds v' = <[3 := mkFD n 0 0]> (v_fds wit_vfs).
Proof.
  destruct (open (lit "/etc/motd") 0 wit_vfs) as [r v'] eqn:E. exists v'.
  assert (r = Ok 3) as -> by (apply (f_equal fst) in E; vm_compute in E; by symmetry).
  destruct (vfs_open_fresh wit_heap wit_vfs (lit "/etc/motd") 0 (Ok 3) v' wit_vfs_reachable E)
    as (_ & _ & Hnone & _ & Hn).
  split; [reflexivity|]. split; [exact Hnone|exact Hn].
Defined.

(** Two descriptors on one file, one of them in append mode. *)
Definition wit_open : VFS heap Z :=
  snd ((open (lit "/etc/raw") 0 ;;; open (lit "/etc/raw") O_APPEND) wit_vfs).
Definition wit_files : files (Node := Z) := mkFiles (v_fds wit_open) (fun n => default [] (tmpfs_content wit_heap n)).
Definition wit_ops : list fop :=
  [FRead 3 2; FWrite 4 [9]; FRead 3 5; FSeek 3 1 SET; FWrite 3 [7]; FSeek 3 (-3) CUR; FSeek 3 1 CUR; FRead 3 9; FClose 4].

Lemma vfs_files_refine_witness :
  exists v', map_m wit_ops run_fop wit_open =
    (Ok [RBytes [1; 2]; RInt 1; RBytes [3; 9]; RInt 1; RInt 1; RInt (-1); RInt 0; RBytes [1; 7; 3; 9]; RNone], v').
Proof.
  assert (Hsim : sim wit_open wit_files).
  { split; [reflexivity|]. apply map_Forall_to_list. vm_compute. repeat constructor. }
  destruct (spec_run wit_ops wit_files) as [[rs s']|] eqn:E.
  - destruct (vfs_files_refine wit_ops wit_open wit_files rs s' Hsim E) as (v' & Hr & _).
    exists v'. rewrite Hr. apply (f_equal (option_map fst)) in E. vm_compute in E. injection E as <-. reflexivity.
  - apply (f_equal (option_map fst)) in E. vm_compute in E. discriminate E.
Defined.

Lemma wit_dir n x : h_nodes wit_heap !! n = Some x -> inode_type x = DIR -> tmpfs_is_dir wit_heap n.
Proof.
  intros Hx Hd. split; [|eauto].
  eapply (steps_invariant tmpfs_step heap_wf tmpfs_step_wf); [apply heap_wf_init|apply wit_heap_reachable].
Qed.

Lemma vfs_open_creat_witness :
  exists n v', open (lit "/etc/new") O_CREAT wit_vfs = (Ok 3, v') /\
    content (v_world v') n = Some [] /\ resolve (lit "/etc/new") v' = (Ok n, v').
Proof.
  destruct (vfs_open_creat [lit "etc"] (lit "new") wit_vfs 2 O_CREAT) as (n & v' & H1 & _ & H2 & H3).
  - repeat constructor; apply good_part_dec; reflexivity.
  - apply good_part_dec; reflexivity.
  - split; discriminate.
  - vm_compute; set_solver.
  - reflexivity.
  - reflexivity.
  - reflexivity.
  - eapply wit_dir; reflexivity.
  - reflexivity.
  - exists n, v'. split; [exact H1|]. split; [exact H2|exact H3].
Defined.

Lemma vfs_mkdir_witness :
  resolve (lit "/home/ada") wit_vfs = (Err FileNotFoundError, wit_vfs) /\
  exists n v', mkdir (lit "/home/ada") wit_vfs = (Ok tt, v') /\ resolve (lit "/home/ada") v' = (Ok n, v').
Proof.
  destruct (vfs_mkdir [lit "home"] (lit "ada") wit_vfs 1) as (H0 & n & v' & H1 & _ & _ & _ & H2).
  - repeat constructor; apply good_part_dec; reflexivity.
  - apply good_part_dec; reflexivity.
  - split; discriminate.
  - vm_compute; set_solver.
  - reflexivity.
  - eapply wit_dir; reflexivity.
  - reflexivity.
  - split; [exact H0|]. exists n, v'. split; [exact H1|exact H2].
Defined.

Lemma tmpfs_sync_agrees_witness :
  tmpfs_read_sync 0 (lit "/etc/motd") wit_heap = (Ok (Some (lit "hello")), wit_heap).
Proof.
  destruct (tmpfs_sync_agrees wit_heap 0 [lit "etc"; lit "motd"] wit_heap_reachable) as (r & Hw & Hr & _).
  - eexists. reflexivity.
  - repeat constructor; try (apply good_part_dec; reflexivity); discriminate.
  - assert (r = Ok 3) as -> by (apply (f_equal fst) in Hw; vm_compute in Hw; by symmetry).
    etransitivity; [exact Hr|]. reflexivity.
Defined.

(** ** Behaviours that differ from what the names suggest *)

(** Seeking from the end does nothing: the offset stays where it was. *)
Example seek_from_end_stays : fst ((seek 3 1 SET ;;; seek 3 0 END) wit_open) = Ok 1.
Proof. reflexivity. Qed.

(** A trailing slash makes [mkdir] look for the directory itself as the
    parent of an entry with an empty name. *)
Example mkdir_trailing_slash : fst (mkdir (lit "/etc/new/") wit_vfs) = Err FileNotFoundError.
Proof. reflexivity. Qed.

(** [mkdir] of a directory that exists succeeds and replaces it by an empty
    one: the files below it are no longer reachable. *)
Example mkdir_replaces :
  fst ((mkdir (lit "/etc") ;;; stat (lit "/etc/motd")) wit_vfs) = Err FileNotFoundError.
Proof. reflexivity. Qed.

(** [readdir] lists "..", which [lookup] does not know. *)
Example dotdot_listed_not_found :
  fst (readdir (lit "/etc") wit_vfs) = Ok [lit "."; lit ".."; lit "motd"; lit "raw"] /\
  fst (stat (lit "/etc/..") wit_vfs) = Err FileNotFoundError.
Proof. split; reflexivity. Qed.
