(* ===== verification/Ext2.v ===== *)
(** * The ext2 driver ([kernel/fs/ext2.py])

    The driver is modelled function by function over a block-device interface
    ([BlockDev]: the [read_sector] / [write_sector] adapter).

    The block cache maps a block number to a shared buffer: [_read_block]
    returns the cached [bytearray] itself, which callers mutate before they
    hand it to [_write_block], while [_write_block] caches a fresh copy.  So the
    model keeps a heap of buffers; a reference is the block number it was
    created for and a serial number.  A raw inode is a private copy in the
    source and is passed by value here, the setters returning the new value.

    Methods that hold [_lock] run one after the other and are modelled from
    call to return.  When [struct] raises, the buffer keeps its old contents.
    File offsets are not negative (a negative one makes [unpack_from] raise in
    the model). *)

From Stdlib Require Import ZArith Lia.
From stdpp Require Import base list gmap numbers strings.
From S2P Require Import Prelude Bytes Pystr Vfs Tmpfs.

Local Open Scope Z_scope.

(** ** On-disk constants *)

Definition EXT2_SUPER_MAGIC : Z := 0xEF53.
Definition EXT2_ROOT_INO : Z := 2.
Definition EXT2_S_IFLNK : Z := 0xA000.
Definition EXT2_S_IFREG : Z := 0x8000.
Definition EXT2_S_IFBLK : Z := 0x6000.
Definition EXT2_S_IFDIR : Z := 0x4000.
Definition EXT2_S_IFCHR : Z := 0x2000.
Definition EXT2_S_IFIFO : Z := 0x1000.
Definition EXT2_S_IFMT : Z := 0xF000.
Definition EXT2_FT_REG_FILE : Z := 1.
Definition EXT2_FT_DIR : Z := 2.
Definition EXT2_FT_SYMLINK : Z := 7.
Definition EXT2_FEATURE_INCOMPAT_SUPPORTED : Z := 0x0002.
Definition EXT2_FEATURE_RO_COMPAT_SUPPORTED : Z := 0x0007.
Definition EXT2_NDIR_BLOCKS : Z := 12.
Definition EXT2_IND_BLOCK : Z := 12.
Definition EXT2_DIND_BLOCK : Z := 13.
Definition SECTOR_SIZE : Z := 512.
Definition BGD_SIZE : Z := 32.

(** ** Block devices *)

Class BlockDev (D : Type) : Type := {
  read_sector : Z -> M D bytes;
  write_sector : Z -> bytes -> M D unit;
}.

(** [FileBlockDevice]: the file is its bytes. *)
Record FileBlockDevice : Type := mkFile { f_image : bytes; f_num_sectors : Z }.

Definition FileBlockDevice_open (image : bytes) : result FileBlockDevice :=
  if negb (len image mod SECTOR_SIZE =? 0) then Err ValueError
  else Ok (mkFile image (len image / SECTOR_SIZE)).

Definition file_read_sector (lba : Z) : M FileBlockDevice bytes :=
  let! d := get in
  if (lba <? 0) || (f_num_sectors d <=? lba) then raise IndexError
  else ret (slice (f_image d) (lba * SECTOR_SIZE) (lba * SECTOR_SIZE + SECTOR_SIZE)).

Definition file_write_sector (lba : Z) (data : bytes) : M FileBlockDevice unit :=
  let! d := get in
  if negb (len data =? SECTOR_SIZE) then raise ValueError
  else if (lba <? 0) || (f_num_sectors d <=? lba) then raise IndexError
  else modify (fun d => mkFile (slice_assign (f_image d) (lba * SECTOR_SIZE)
                                  (lba * SECTOR_SIZE + SECTOR_SIZE) data) (f_num_sectors d)).

#[global] Instance file_dev : BlockDev FileBlockDevice := {
  read_sector := file_read_sector;
  write_sector := file_write_sector;
}.

(** ** Superblock *)

Record Superblock : Type := mkSB {
  inodes_count : Z; blocks_count : Z;
  free_blocks_count : Z; free_inodes_count : Z;
  first_data_block : Z; log_block_size : Z;
  blocks_per_group : Z; inodes_per_group : Z;
  rev_level : Z; first_ino : Z; inode_size : Z;
  feature_compat : Z; feature_incompat : Z; feature_ro_compat : Z;
  sb_raw : bytes;
}.

Definition set_free_counts (fb fi : Z) (raw : bytes) (sb : Superblock) : Superblock :=
  mkSB (inodes_count sb) (blocks_count sb) fb fi (first_data_block sb) (log_block_size sb)
    (blocks_per_group sb) (inodes_per_group sb) (rev_level sb) (first_ino sb) (inode_size sb)
    (feature_compat sb) (feature_incompat sb) (feature_ro_compat sb) raw.
Definition set_free_blocks (n : Z) (sb : Superblock) : Superblock :=
  set_free_counts n (free_inodes_count sb) (sb_raw sb) sb.
Definition set_free_inodes (n : Z) (sb : Superblock) : Superblock :=
  set_free_counts (free_blocks_count sb) n (sb_raw sb) sb.

Definition Superblock_parse (blob : bytes) : result Superblock :=
  let u off n := unpack_le n blob off in
  let? ic := u 0 4%nat in
  let? bc := u 4 4%nat in
  let? fbc := u 12 4%nat in
  let? fic := u 16 4%nat in
  let? fdb := u 20 4%nat in
  let? lbs := u 24 4%nat in
  let? bpg := u 32 4%nat in
  let? ipg := u 40 4%nat in
  let? magic := u 56 2%nat in
  if negb (magic =? EXT2_SUPER_MAGIC) then Err ValueError else
  let? rev := u 76 4%nat in
  let? fino := (if 1 <=? rev then u 84 4%nat else Ok 11) in
  let? isz := (if 1 <=? rev then u 88 2%nat else Ok 128) in
  let? fc := (if 1 <=? rev then u 92 4%nat else Ok 0) in
  let? fi := (if 1 <=? rev then u 96 4%nat else Ok 0) in
  let? fro := (if 1 <=? rev then u 100 4%nat else Ok 0) in
  Ok (mkSB ic bc fbc fic fdb lbs bpg ipg rev fino isz fc fi fro blob).

Definition sb_block_size (sb : Superblock) : Z := Z.shiftl 1024 (log_block_size sb).

Definition num_groups (sb : Superblock) : result Z :=
  if blocks_per_group sb =? 0 then Err ZeroDivisionError
  else Ok ((blocks_count sb - first_data_block sb + blocks_per_group sb - 1) / blocks_per_group sb).

Definition serialize_counters (sb : Superblock) : result Superblock :=
  let? r1 := pack_into_le 4 (sb_raw sb) 12 (free_blocks_count sb) in
  let? r2 := pack_into_le 4 r1 16 (free_inodes_count sb) in
  Ok (set_free_counts (free_blocks_count sb) (free_inodes_count sb) r2 sb).

(** ** Mutations of one buffer *)

Definition b_unpack (n : nat) (off : Z) : M bytes Z := fun b => (unpack_le n b off, b).
Definition b_pack (n : nat) (off v : Z) : M bytes unit :=
  fun b => match pack_into_le n b off v with Ok b' => (Ok tt, b') | Err e => (Err e, b) end.
Definition b_get (i : Z) : M bytes Z := fun b => (index b i, b).
Definition b_set (i v : Z) : M bytes unit :=
  fun b => match set_index b i v with Ok b' => (Ok tt, b') | Err e => (Err e, b) end.
Definition b_slice (i j : Z) : M bytes bytes := fun b => (Ok (slice b i j), b).
Definition b_assign (i j : Z) (v : bytes) : M bytes unit := fun b => (Ok tt, slice_assign b i j v).

(** [for i in range(a, b): blk[i] = 0] *)
Definition b_zero (a b : Z) : M bytes unit := for_each (range2 a b) (fun i => b_set i 0).

(** ** One directory block

    The loops over the entries of a block, on the block's buffer.  An entry is
    [inode u32, rec_len u16, name_len u8, file_type u8, name]; each turn
    advances by [rec_len], which is positive. *)

Definition dirent_size (name_len : Z) : Z := Z.land ((8 + name_len) + 3) (Z.lnot 3).

(** [struct.unpack_from("<IHBB", blk, off)] *)
Definition unpack_dirent (blk : bytes) (off : Z) : result (Z * Z * Z * Z) :=
  if len blk <? off + 8 then Err StructError
  else
    let? ino := unpack_le 4 blk off in
    let? rec_len := unpack_le 2 blk (off + 4) in
    let? nlen := unpack_le 1 blk (off + 6) in
    let? ft := unpack_le 1 blk (off + 7) in
    Ok (ino, rec_len, nlen, ft).

(** [struct.pack_into("<IHBB", blk, off, ino, rec_len, name_len, file_type)] *)
Definition pack_dirent (off ino rec_len nlen ft : Z) : M bytes unit :=
  fun b =>
    match (let? b1 := pack_into_le 4 b off ino in
           let? b2 := pack_into_le 2 b1 (off + 4) rec_len in
           let? b3 := pack_into_le 1 b2 (off + 6) nlen in
           pack_into_le 1 b3 (off + 7) ft) with
    | Ok b' => (Ok tt, b')
    | Err e => (Err e, b)
    end.

(** The entries of a block, from offset [off]. *)
Fixpoint scan_entries (fuel : nat) (bs off : Z) (blk : bytes) : result (list (str * Z * Z)) :=
  match fuel with
  | O => if off <? bs then Err RuntimeError else Ok []
  | S fuel' =>
      if off <? bs then
        let? (ino_e, rec_len, name_len, file_type) := unpack_dirent blk off in
        if rec_len =? 0 then Ok []
        else
          let? rest := scan_entries fuel' bs (off + rec_len) blk in
          if ino_e =? 0 then Ok rest
          else Ok ((decode (slice blk (off + 8) (off + 8 + name_len)), ino_e, file_type) :: rest)
      else Ok []
  end.

(** Looking for room in a block: [true] when the entry was put in. *)
Fixpoint add_scan (fuel : nat) (bs off need child_ino file_type : Z) (name_b : bytes) : M bytes bool :=
  match fuel with
  | O => if off <? bs then raise RuntimeError else ret false
  | S fuel' =>
      if off <? bs then
        let! (ino_e, rec_len, nlen, ftyp) := (fun b => (unpack_dirent b off, b)) in
        if rec_len =? 0 then ret false
        else
          let actual := if ino_e =? 0 then 0 else dirent_size nlen in
          let slack := rec_len - actual in
          if need <=? slack then
            (if ino_e =? 0 then ret tt else b_pack 2 (off + 4) actual) ;;;
            let new_off := off + actual in
            pack_dirent new_off child_ino (rec_len - actual) (len name_b) file_type ;;;
            b_assign (new_off + 8) (new_off + 8 + len name_b) name_b ;;;
            b_zero (new_off + 8 + len name_b) (new_off + (rec_len - actual)) ;;;
            ret true
          else add_scan fuel' bs (off + rec_len) need child_ino file_type name_b
      else ret false
  end.

(** Looking for a name in a block; the entry found is merged into the previous
    one, or loses its inode number when it is the first. *)
Fixpoint remove_scan (fuel : nat) (bs prev_off off : Z) (name_b : bytes) : M bytes (option (Z * Z)) :=
  match fuel with
  | O => if off <? bs then raise RuntimeError else ret None
  | S fuel' =>
      if off <? bs then
        let! (ino_e, rec_len, nlen, ftyp) := (fun b => (unpack_dirent b off, b)) in
        if rec_len =? 0 then ret None
        else
          let! nm := b_slice (off + 8) (off + 8 + nlen) in
          if negb (ino_e =? 0) && (nlen =? len name_b) && beq nm name_b then
            (if 0 <=? prev_off then
               let! (_, prev_rl, _, _) := (fun b => (unpack_dirent b prev_off, b)) in
               b_pack 2 (prev_off + 4) (prev_rl + rec_len)
             else b_pack 4 off 0) ;;;
            ret (Some (ino_e, ftyp))
          else remove_scan fuel' bs off (off + rec_len) name_b
      else ret None
  end.

(** ** The driver's state *)

Abbreviation bref := (Z * Z)%type.

Record Ext2FS (D : Type) : Type := mkExt2 {
  e_dev : D;
  e_sb : Superblock;
  e_block_size : Z;
  e_sectors_per_block : Z;
  e_bgdt : list bytes;
  e_bgdt_block : Z;
  e_block_cache : gmap Z bref;
  e_bufs : gmap bref bytes;
  e_serial : Z;
}.
Arguments mkExt2 {D}.
Arguments e_dev {D}.
Arguments e_sb {D}.
Arguments e_block_size {D}.
Arguments e_sectors_per_block {D}.
Arguments e_bgdt {D}.
Arguments e_bgdt_block {D}.
Arguments e_block_cache {D}.
Arguments e_bufs {D}.
Arguments e_serial {D}.

Section ext2.
Context {D : Type} `{BlockDev D}.
Abbreviation fs := (Ext2FS D).

Definition set_dev d (s : fs) : fs :=
  mkExt2 d (e_sb s) (e_block_size s) (e_sectors_per_block s) (e_bgdt s) (e_bgdt_block s)
    (e_block_cache s) (e_bufs s) (e_serial s).
Definition set_sb sb (s : fs) : fs :=
  mkExt2 (e_dev s) sb (e_block_size s) (e_sectors_per_block s) (e_bgdt s) (e_bgdt_block s)
    (e_block_cache s) (e_bufs s) (e_serial s).
Definition set_sizes bs spb (s : fs) : fs :=
  mkExt2 (e_dev s) (e_sb s) bs spb (e_bgdt s) (e_bgdt_block s)
    (e_block_cache s) (e_bufs s) (e_serial s).
Definition set_bgdt t b (s : fs) : fs :=
  mkExt2 (e_dev s) (e_sb s) (e_block_size s) (e_sectors_per_block s) t b
    (e_block_cache s) (e_bufs s) (e_serial s).
Definition set_bufs bufs (s : fs) : fs :=
  mkExt2 (e_dev s) (e_sb s) (e_block_size s) (e_sectors_per_block s) (e_bgdt s) (e_bgdt_block s)
    (e_block_cache s) bufs (e_serial s).

(** [self._block_cache[block_no] = bytearray(data)] *)
Definition cache_put (block_no : Z) (data : bytes) (s : fs) : fs :=
  mkExt2 (e_dev s) (e_sb s) (e_block_size s) (e_sectors_per_block s) (e_bgdt s) (e_bgdt_block s)
    (<[block_no := (block_no, e_serial s)]> (e_block_cache s))
    (<[(block_no, e_serial s) := data]> (e_bufs s)) (e_serial s + 1).

Definition dev {A} (m : M D A) : M fs A := zoom e_dev set_dev m.

(** An operation on a buffer the caller holds. *)
Definition on_buf {A} (r : bref) (m : M bytes A) : M fs A :=
  fun s => match e_bufs s !! r with
           | Some b => let (x, b') := m b in (x, set_bufs (<[r := b']> (e_bufs s)) s)
           | None => (Err RuntimeError, s)
           end.
Definition contents (r : bref) : M fs bytes := on_buf r (fun b => (Ok b, b)).

(** *** Block I/O *)

Definition read_block (block_no : Z) : M fs bref :=
  let! cache := gets e_block_cache in
  match cache !! block_no with
  | Some r => ret r
  | None =>
      let! spb := gets e_sectors_per_block in
      let! sectors := map_m (range spb) (fun s => dev (read_sector (block_no * spb + s))) in
      let! k := gets e_serial in
      modify (cache_put block_no (concat sectors)) ;;;
      ret (block_no, k)
  end.

Definition write_block (block_no : Z) (data : bytes) : M fs unit :=
  let! bs := gets e_block_size in
  if negb (len data =? bs) then raise ValueError
  else
    let! spb := gets e_sectors_per_block in
    for_each (range spb) (fun s =>
      dev (write_sector (block_no * spb + s) (slice data (s * SECTOR_SIZE) ((s + 1) * SECTOR_SIZE)))) ;;;
    modify (cache_put block_no data).

(** [await self._write_block(block_no, buf)] of a buffer the caller holds. *)
Definition write_back (block_no : Z) (r : bref) : M fs unit :=
  let! data := contents r in write_block block_no data.

Definition zero_block : M fs bytes := let! bs := gets e_block_size in ret (zeros bs).

(** *** Mount *)

Definition read_superblock : M fs unit :=
  let! sec0 := dev (read_sector 2) in
  let! sec1 := dev (read_sector 3) in
  let! sb := lift (Superblock_parse (sec0 ++ sec1)) in
  modify (set_sb sb) ;;;
  if negb (Z.land (feature_incompat sb) (Z.lnot EXT2_FEATURE_INCOMPAT_SUPPORTED) =? 0)
  then raise NotImplementedError
  else if negb (Z.land (feature_ro_compat sb) (Z.lnot EXT2_FEATURE_RO_COMPAT_SUPPORTED) =? 0)
  then raise NotImplementedError
  else
    let bs := sb_block_size sb in
    modify (set_sizes bs 0) ;;;
    if (bs <? SECTOR_SIZE) || negb (bs mod SECTOR_SIZE =? 0) then raise ValueError
    else modify (set_sizes bs (bs / SECTOR_SIZE)).

(** The [while cursor < total_bytes] loop; a turn adds a block, of at least
    1024 bytes, to the cursor. *)
Fixpoint read_bgdt_loop (fuel : nat) (bgdt_block total cursor : Z) (extra : bytes) : M fs bytes :=
  match fuel with
  | O => raise RuntimeError
  | S fuel' =>
      if total <=? cursor then ret extra
      else
        let! bs := gets e_block_size in
        let! r := read_block (bgdt_block + len extra / bs + 1) in
        let! b := contents r in
        read_bgdt_loop fuel' bgdt_block total (cursor + bs) (extra ++ b)
  end.

Definition read_bgdt : M fs unit :=
  let! sb := gets e_sb in
  let! bs := gets e_block_size in
  let bgdt_block := if bs =? 1024 then first_data_block sb + 1 else 1 in
  let! ngroups := lift (num_groups sb) in
  let! r := read_block bgdt_block in
  let total := ngroups * BGD_SIZE in
  let! extra := read_bgdt_loop (S (Z.to_nat total)) bgdt_block total bs [] in
  let! bgdt_bytes := contents r in
  let full := bgdt_bytes ++ extra in
  modify (set_bgdt (map (fun i => slice full (i * BGD_SIZE) ((i + 1) * BGD_SIZE)) (range ngroups)) bgdt_block).

(** [Ext2FS(dev)]: the superblock is unset until [_read_superblock]. *)
Definition Ext2FS_init (d : D) : fs :=
  mkExt2 d (mkSB 0 0 0 0 0 0 0 0 0 0 0 0 0 0 []) 0 0 [] 0 ∅ ∅ 0.

Definition mount_ext2 (d : D) : result unit * fs :=
  (read_superblock ;;; read_bgdt) (Ext2FS_init d).

(** *** Block group descriptors *)

Record bgd : Type := mkBGD { g_bb : Z; g_ib : Z; g_it : Z; g_fb : Z; g_fi : Z; g_ud : Z }.

Definition bgd_parse (d : bytes) : result bgd :=
  let? bb := unpack_le 4 d 0 in
  let? ib := unpack_le 4 d 4 in
  let? it := unpack_le 4 d 8 in
  let? fb := unpack_le 2 d 12 in
  let? fi := unpack_le 2 d 14 in
  let? ud := unpack_le 2 d 16 in
  Ok (mkBGD bb ib it fb fi ud).

Definition bgd_get (group : Z) : M fs bgd :=
  let! t := gets e_bgdt in
  let! d := lift (index t group) in
  lift (bgd_parse d).

Definition pack_counters (d : bytes) (free_blocks free_inodes used_dirs : Z) : result bytes :=
  let? d1 := pack_into_le 2 d 12 free_blocks in
  let? d2 := pack_into_le 2 d1 14 free_inodes in
  pack_into_le 2 d2 16 used_dirs.

Definition bgd_set_counters (group free_blocks free_inodes used_dirs : Z) : M fs unit :=
  let! t := gets e_bgdt in
  let! d := lift (index t group) in
  let! d' := lift (pack_counters d free_blocks free_inodes used_dirs) in
  let! t' := lift (set_index t group d') in
  modify (fun s => set_bgdt t' (e_bgdt_block s) s).

Definition flush_bgdt : M fs unit :=
  let! t := gets e_bgdt in
  let! bs := gets e_block_size in
  let! base := gets e_bgdt_block in
  let full := concat t in
  let nblocks := (len full + bs - 1) / bs in
  for_each (range nblocks) (fun bi =>
    let chunk := slice full (bi * bs) ((bi + 1) * bs) in
    let chunk := if len chunk <? bs then chunk ++ zeros (bs - len chunk) else chunk in
    write_block (base + bi) chunk).

Definition flush_superblock : M fs unit :=
  let! sb := gets e_sb in
  let! sb' := lift (serialize_counters sb) in
  modify (set_sb sb') ;;;
  dev (write_sector 2 (slice (sb_raw sb') 0 512)) ;;;
  dev (write_sector 3 (slice (sb_raw sb') 512 1024)).

(** *** Bitmaps *)

(** The inner loop: the first clear bit of one byte, unless [count] comes
    first. *)
Fixpoint find_bit (byte byte_i count : Z) (bits : list Z) : option Z :=
  match bits with
  | [] => None
  | bit :: bits' =>
      if count <=? byte_i * 8 + bit then None
      else if Z.land byte (Z.shiftl 1 bit) =? 0 then Some bit
      else find_bit byte byte_i count bits'
  end.

(** The outer loop, on the buffer; sets the bit it finds. *)
Fixpoint find_and_set (count : Z) (byte_is : list Z) : M bytes (option Z) :=
  match byte_is with
  | [] => ret None
  | byte_i :: rest =>
      let! byte := b_get byte_i in
      if byte =? 0xFF then find_and_set count rest
      else match find_bit byte byte_i count (range 8) with
           | Some bit =>
               b_set byte_i (Z.lor byte (Z.shiftl 1 bit)) ;;;
               ret (Some (byte_i * 8 + bit))
           | None => find_and_set count rest
           end
  end.

Definition alloc_in_bitmap (bitmap_block count : Z) : M fs Z :=
  let! bm := read_block bitmap_block in
  let! found := on_buf bm (find_and_set count (range ((count + 7) / 8))) in
  match found with
  | Some idx => write_back bitmap_block bm ;;; ret idx
  | None => raise OSError
  end.

(** True when the bit was set (and is now clear). *)
Definition clear_bit (idx : Z) : M bytes bool :=
  let byte_i := idx / 8 in
  let bit := idx mod 8 in
  let! byte := b_get byte_i in
  if Z.land byte (Z.shiftl 1 bit) =? 0 then ret false
  else
    b_set byte_i (Z.land byte (Z.land (Z.lnot (Z.shiftl 1 bit)) 0xFF)) ;;;
    ret true.

Definition free_in_bitmap (bitmap_block idx : Z) : M fs unit :=
  let! bm := read_block bitmap_block in
  let! was_set := on_buf bm (clear_bit idx) in
  if was_set then write_back bitmap_block bm else ret tt.

(** *** Blocks and inodes *)

Definition group_blocks (sb : Superblock) (ngroups g : Z) : Z :=
  if g =? ngroups - 1 then blocks_count sb - (first_data_block sb + g * blocks_per_group sb)
  else blocks_per_group sb.

Fixpoint alloc_block_loop (ngroups : Z) (gs : list Z) : M fs Z :=
  match gs with
  | [] => raise OSError
  | g :: gs' =>
      let! d := bgd_get g in
      if g_fb d =? 0 then alloc_block_loop ngroups gs'
      else
        let! sb := gets e_sb in
        let! local := alloc_in_bitmap (g_bb d) (group_blocks sb ngroups g) in
        bgd_set_counters g (g_fb d - 1) (g_fi d) (g_ud d) ;;;
        modify (fun s => set_sb (set_free_blocks (free_blocks_count (e_sb s) - 1) (e_sb s)) s) ;;;
        flush_bgdt ;;;
        flush_superblock ;;;
        ret (first_data_block sb + g * blocks_per_group sb + local)
  end.

Definition alloc_block : M fs Z :=
  let! sb := gets e_sb in
  let! n := lift (num_groups sb) in
  alloc_block_loop n (range n).

Definition divmod (a b : Z) : result (Z * Z) :=
  if b =? 0 then Err ZeroDivisionError else Ok (a / b, a mod b).

Definition free_block (block_no : Z) : M fs unit :=
  let! sb := gets e_sb in
  let rel := block_no - first_data_block sb in
  let! (g, local) := lift (divmod rel (blocks_per_group sb)) in
  let! d := bgd_get g in
  free_in_bitmap (g_bb d) local ;;;
  bgd_set_counters g (g_fb d + 1) (g_fi d) (g_ud d) ;;;
  modify (fun s => set_sb (set_free_blocks (free_blocks_count (e_sb s) + 1) (e_sb s)) s) ;;;
  flush_bgdt ;;;
  flush_superblock.

Fixpoint alloc_inode_loop (is_dir : bool) (gs : list Z) : M fs Z :=
  match gs with
  | [] => raise OSError
  | g :: gs' =>
      let! d := bgd_get g in
      if g_fi d =? 0 then alloc_inode_loop is_dir gs'
      else
        let! sb := gets e_sb in
        let! local := alloc_in_bitmap (g_ib d) (inodes_per_group sb) in
        bgd_set_counters g (g_fb d) (g_fi d - 1) (if is_dir then g_ud d + 1 else g_ud d) ;;;
        modify (fun s => set_sb (set_free_inodes (free_inodes_count (e_sb s) - 1) (e_sb s)) s) ;;;
        flush_bgdt ;;;
        flush_superblock ;;;
        ret (g * inodes_per_group sb + local + 1)
  end.

Definition alloc_inode (is_dir : bool) : M fs Z :=
  let! sb := gets e_sb in
  let! n := lift (num_groups sb) in
  alloc_inode_loop is_dir (range n).

Definition free_inode (ino : Z) (was_dir : bool) : M fs unit :=
  let! sb := gets e_sb in
  let! (g, local) := lift (divmod (ino - 1) (inodes_per_group sb)) in
  let! d := bgd_get g in
  free_in_bitmap (g_ib d) local ;;;
  bgd_set_counters g (g_fb d) (g_fi d + 1) (if was_dir then g_ud d - 1 else g_ud d) ;;;
  modify (fun s => set_sb (set_free_inodes (free_inodes_count (e_sb s) + 1) (e_sb s)) s) ;;;
  flush_bgdt ;;;
  flush_superblock.

Definition inode_location (ino : Z) : M fs (Z * Z) :=
  let! sb := gets e_sb in
  let! bs := gets e_block_size in
  let! (g, local) := lift (divmod (ino - 1) (inodes_per_group sb)) in
  let! d := bgd_get g in
  let byte_off := local * inode_size sb in
  ret (g_it d + byte_off / bs, byte_off mod bs).

Definition read_inode (ino : Z) : M fs bytes :=
  let! (block, off) := inode_location ino in
  let! r := read_block block in
  let! isz := gets (fun s => inode_size (e_sb s)) in
  on_buf r (b_slice off (off + isz)).

Definition write_inode (ino : Z) (raw : bytes) : M fs unit :=
  let! isz := gets (fun s => inode_size (e_sb s)) in
  if negb (len raw =? isz) then raise ValueError
  else
    let! (block, off) := inode_location ino in
    let! r := read_block block in
    on_buf r (b_assign off (off + isz) raw) ;;;
    write_back block r.

(** *** Inode fields *)

Definition i_mode (raw : bytes) : result Z := unpack_le 2 raw 0.
Definition i_size (raw : bytes) : result Z := unpack_le 4 raw 4.
Definition i_links (raw : bytes) : result Z := unpack_le 2 raw 26.
Definition i_blocks (raw : bytes) : result Z := unpack_le 4 raw 28.
Definition i_block_n (raw : bytes) (n : Z) : result Z := unpack_le 4 raw (40 + n * 4).
Definition set_i_block_n (raw : bytes) (n v : Z) : result bytes := pack_into_le 4 raw (40 + n * 4) v.
Definition set_i_mode (raw : bytes) (mode : Z) : result bytes := pack_into_le 2 raw 0 mode.
Definition set_i_size (raw : bytes) (size : Z) : result bytes := pack_into_le 4 raw 4 (Z.land size 0xFFFFFFFF).
Definition set_i_links (raw : bytes) (n : Z) : result bytes := pack_into_le 2 raw 26 n.
Definition set_i_blocks (raw : bytes) (n : Z) : result bytes := pack_into_le 4 raw 28 n.
Definition set_i_mtime (raw : bytes) (t : Z) : result bytes := pack_into_le 4 raw 16 t.
Definition set_i_ctime (raw : bytes) (t : Z) : result bytes := pack_into_le 4 raw 12 t.
Definition set_i_atime (raw : bytes) (t : Z) : result bytes := pack_into_le 4 raw 8 t.

Definition is_kind (mode kind : Z) : bool := Z.land mode EXT2_S_IFMT =? kind.

Definition file_size (raw : bytes) : result Z :=
  let? size := i_size raw in
  let? mode := i_mode raw in
  if is_kind mode EXT2_S_IFREG then
    let? high := unpack_le 4 raw 108 in
    Ok (Z.lor size (Z.shiftl high 32))
  else Ok size.

Definition set_file_size (raw : bytes) (size : Z) : result bytes :=
  let? raw := pack_into_le 4 raw 4 (Z.land size 0xFFFFFFFF) in
  let? mode := i_mode raw in
  if is_kind mode EXT2_S_IFREG then pack_into_le 4 raw 108 (Z.land (Z.shiftr size 32) 0xFFFFFFFF)
  else Ok raw.

(** *** Logical to physical blocks *)

Definition ptrs_per_block : M fs Z := let! bs := gets e_block_size in ret (bs / 4).

Definition resolve_block (raw : bytes) (file_block : Z) : M fs Z :=
  let! ppb := ptrs_per_block in
  if file_block <? EXT2_NDIR_BLOCKS then lift (i_block_n raw file_block)
  else
    let rel := file_block - EXT2_NDIR_BLOCKS in
    if rel <? ppb then
      let! ind := lift (i_block_n raw EXT2_IND_BLOCK) in
      if ind =? 0 then ret 0
      else
        let! blk := read_block ind in
        on_buf blk (b_unpack 4 (rel * 4))
    else
      let rel := rel - ppb in
      if rel <? ppb * ppb then
        let! dind := lift (i_block_n raw EXT2_DIND_BLOCK) in
        if dind =? 0 then ret 0
        else
          let! blk := read_block dind in
          let! (l1, l2) := lift (divmod rel ppb) in
          let! ind := on_buf blk (b_unpack 4 (l1 * 4)) in
          if ind =? 0 then ret 0
          else
            let! blk2 := read_block ind in
            on_buf blk2 (b_unpack 4 (l2 * 4))
      else raise NotImplementedError.

(** [self._set_i_blocks(raw, self._i_blocks(raw) + self._sectors_per_block)] *)
Definition charge_block (raw : bytes) : M fs bytes :=
  let! spb := gets e_sectors_per_block in
  let! n := lift (i_blocks raw) in
  lift (set_i_blocks raw (n + spb)).

(** A new, zeroed block. *)
Definition new_block : M fs Z :=
  let! phys := alloc_block in
  let! z := zero_block in
  write_block phys z ;;;
  ret phys.

(** The inode's pointer [n], allocated when it is 0. *)
Definition ensure_inode_ptr (raw : bytes) (n : Z) : M fs (Z * bytes) :=
  let! p := lift (i_block_n raw n) in
  if p =? 0 then
    let! p := new_block in
    let! raw := lift (set_i_block_n raw n p) in
    let! raw := charge_block raw in
    ret (p, raw)
  else ret (p, raw).

(** The pointer at index [i] of the pointer block [block], allocated when it
    is 0: the pointer block's buffer is read before the allocation, changed
    and written back after it. *)
Definition ensure_block_ptr (raw : bytes) (block i : Z) : M fs (Z * bytes) :=
  let! blk := read_block block in
  let! p := on_buf blk (b_unpack 4 (i * 4)) in
  if p =? 0 then
    let! p := new_block in
    on_buf blk (b_pack 4 (i * 4) p) ;;;
    write_back block blk ;;;
    let! raw := charge_block raw in
    ret (p, raw)
  else ret (p, raw).

Definition allocate_block_for (raw : bytes) (file_block : Z) : M fs (Z * bytes) :=
  let! ppb := ptrs_per_block in
  if file_block <? EXT2_NDIR_BLOCKS then ensure_inode_ptr raw file_block
  else
    let rel := file_block - EXT2_NDIR_BLOCKS in
    if rel <? ppb then
      let! (ind, raw) := ensure_inode_ptr raw EXT2_IND_BLOCK in
      ensure_block_ptr raw ind rel
    else
      let rel := rel - ppb in
      if rel <? ppb * ppb then
        let! (dind, raw) := ensure_inode_ptr raw EXT2_DIND_BLOCK in
        let! (l1, l2) := lift (divmod rel ppb) in
        let! (ind, raw) := ensure_block_ptr raw dind l1 in
        ensure_block_ptr raw ind l2
      else raise NotImplementedError.

(** [for i in range(ppb): p = ...; if p: await self._free_block(p)] *)
Definition free_pointers (blk : bref) (ppb : Z) : M fs unit :=
  for_each (range ppb) (fun i =>
    let! p := on_buf blk (b_unpack 4 (i * 4)) in
    if p =? 0 then ret tt else free_block p).

Fixpoint free_direct (ns : list Z) (raw : bytes) : M fs bytes :=
  match ns with
  | [] => ret raw
  | n :: ns' =>
      let! b := lift (i_block_n raw n) in
      if b =? 0 then free_direct ns' raw
      else
        free_block b ;;;
        let! raw := lift (set_i_block_n raw n 0) in
        free_direct ns' raw
  end.

Definition free_all_blocks (raw : bytes) : M fs bytes :=
  let! ppb := ptrs_per_block in
  let! raw := free_direct (range EXT2_NDIR_BLOCKS) raw in
  let! ind := lift (i_block_n raw EXT2_IND_BLOCK) in
  let! raw :=
    (if ind =? 0 then ret raw
     else
       let! blk := read_block ind in
       free_pointers blk ppb ;;;
       free_block ind ;;;
       lift (set_i_block_n raw EXT2_IND_BLOCK 0)) in
  let! dind := lift (i_block_n raw EXT2_DIND_BLOCK) in
  let! raw :=
    (if dind =? 0 then ret raw
     else
       let! dblk := read_block dind in
       for_each (range ppb) (fun i =>
         let! ind2 := on_buf dblk (b_unpack 4 (i * 4)) in
         if ind2 =? 0 then ret tt
         else
           let! blk2 := read_block ind2 in
           free_pointers blk2 ppb ;;;
           free_block ind2) ;;;
       free_block dind ;;;
       lift (set_i_block_n raw EXT2_DIND_BLOCK 0)) in
  lift (set_i_blocks raw 0).

(** *** File data

    Each turn of the loops advances [cur] by at least one byte. *)

Fixpoint read_loop (fuel : nat) (raw : bytes) (cur fin : Z) (out : bytes) : M fs bytes :=
  match fuel with
  | O => if cur <? fin then raise RuntimeError else ret out
  | S fuel' =>
      if cur <? fin then
        let! bs := gets e_block_size in
        let fb := cur / bs in
        let in_blk := cur mod bs in
        let chunk := Z.min (bs - in_blk) (fin - cur) in
        let! phys := resolve_block raw fb in
        let! data :=
          (if phys =? 0 then ret (zeros chunk)
           else
             let! blk := read_block phys in
             on_buf blk (b_slice in_blk (in_blk + chunk))) in
        read_loop fuel' raw (cur + chunk) fin (out ++ data)
      else ret out
  end.

Definition read_file_data (ino offset n : Z) : M fs bytes :=
  let! raw := read_inode ino in
  let! size := lift (file_size raw) in
  if size <=? offset then ret []
  else
    let fin := Z.min (offset + n) size in
    read_loop (Z.to_nat (fin - offset)) raw offset fin [].

Fixpoint write_loop (fuel : nat) (raw : bytes) (cur fin : Z) (data : bytes) (di : Z) : M fs bytes :=
  match fuel with
  | O => if cur <? fin then raise RuntimeError else ret raw
  | S fuel' =>
      if cur <? fin then
        let! bs := gets e_block_size in
        let fb := cur / bs in
        let in_blk := cur mod bs in
        let chunk := Z.min (bs - in_blk) (fin - cur) in
        let! (phys, raw) := allocate_block_for raw fb in
        let! blk := read_block phys in
        on_buf blk (b_assign in_blk (in_blk + chunk) (slice data di (di + chunk))) ;;;
        write_back phys blk ;;;
        write_loop fuel' raw (cur + chunk) fin data (di + chunk)
      else ret raw
  end.

Definition write_file_data (ino offset : Z) (data : bytes) : M fs Z :=
  let! raw := read_inode ino in
  let fin := offset + len data in
  let! raw := write_loop (Z.to_nat (len data)) raw offset fin data 0 in
  let! size := lift (file_size raw) in
  let! raw := lift (if size <? fin then set_file_size raw fin else Ok raw) in
  write_inode ino raw ;;;
  ret (len data).

(** The body of the loop of [_truncate_file]: free one logical block and clear
    the pointer to it. *)
Definition drop_block (raw : bytes) (fb : Z) : M fs bytes :=
  let! ppb := ptrs_per_block in
  let! phys := resolve_block raw fb in
  if phys =? 0 then ret raw
  else
    free_block phys ;;;
    let! raw :=
      (if fb <? EXT2_NDIR_BLOCKS then lift (set_i_block_n raw fb 0)
       else if fb - EXT2_NDIR_BLOCKS <? ppb then
         let! ind := lift (i_block_n raw EXT2_IND_BLOCK) in
         let! blk := read_block ind in
         on_buf blk (b_pack 4 ((fb - EXT2_NDIR_BLOCKS) * 4) 0) ;;;
         write_back ind blk ;;;
         ret raw
       else
         let rel := fb - EXT2_NDIR_BLOCKS - ppb in
         let! dind := lift (i_block_n raw EXT2_DIND_BLOCK) in
         let! dblk := read_block dind in
         let! (l1, l2) := lift (divmod rel ppb) in
         let! ind := on_buf dblk (b_unpack 4 (l1 * 4)) in
         let! iblk := read_block ind in
         on_buf iblk (b_pack 4 (l2 * 4) 0) ;;;
         write_back ind iblk ;;;
         ret raw) in
    let! spb := gets e_sectors_per_block in
    let! n := lift (i_blocks raw) in
    lift (set_i_blocks raw (Z.max 0 (n - spb))).

Fixpoint drop_blocks (fbs : list Z) (raw : bytes) : M fs bytes :=
  match fbs with
  | [] => ret raw
  | fb :: fbs' => let! raw := drop_block raw fb in drop_blocks fbs' raw
  end.

Definition truncate_file (ino size : Z) : M fs unit :=
  let! raw := read_inode ino in
  let! cur_size := lift (file_size raw) in
  if cur_size <=? size then
    let! raw := lift (set_file_size raw size) in
    write_inode ino raw
  else
    let! bs := gets e_block_size in
    let last_kept := (size + bs - 1) / bs in
    let max_blocks := (cur_size + bs - 1) / bs in
    let! raw := drop_blocks (range2 last_kept max_blocks) raw in
    (if (0 <? size) && negb (size mod bs =? 0) then
       let fb := size / bs in
       let! phys := resolve_block raw fb in
       if phys =? 0 then ret tt
       else
         let! blk := read_block phys in
         on_buf blk (b_zero (size mod bs) bs) ;;;
         write_back phys blk
     else ret tt) ;;;
    let! raw := lift (set_file_size raw size) in
    write_inode ino raw.

(** *** Directories *)

Fixpoint dir_blocks_entries (fbs : list Z) (raw : bytes) : M fs (list (str * Z * Z)) :=
  match fbs with
  | [] => ret []
  | fb :: fbs' =>
      let! bs := gets e_block_size in
      let! phys := resolve_block raw fb in
      let! here :=
        (if phys =? 0 then ret []
         else
           let! blk := read_block phys in
           on_buf blk (fun b => (scan_entries (Z.to_nat bs) bs 0 b, b))) in
      let! rest := dir_blocks_entries fbs' raw in
      ret (here ++ rest)
  end.

Definition read_dir_entries (ino : Z) : M fs (list (str * Z * Z)) :=
  let! raw := read_inode ino in
  let! size := lift (file_size raw) in
  let! bs := gets e_block_size in
  dir_blocks_entries (range ((size + bs - 1) / bs)) raw.

Fixpoint add_in_blocks (fbs : list Z) (raw : bytes) (need child_ino file_type : Z) (name_b : bytes) : M fs bool :=
  match fbs with
  | [] => ret false
  | fb :: fbs' =>
      let! bs := gets e_block_size in
      let! phys := resolve_block raw fb in
      if phys =? 0 then add_in_blocks fbs' raw need child_ino file_type name_b
      else
        let! blk := read_block phys in
        let! done := on_buf blk (add_scan (Z.to_nat bs) bs 0 need child_ino file_type name_b) in
        if done : bool then write_back phys blk ;;; ret true
        else add_in_blocks fbs' raw need child_ino file_type name_b
  end.

Definition add_dir_entry (dir_ino : Z) (name : str) (child_ino file_type : Z) : M fs unit :=
  let! name_b := lift (encode name) in
  if (len name_b =? 0) || (255 <? len name_b) then raise ValueError
  else
    let need := dirent_size (len name_b) in
    let! raw := read_inode dir_ino in
    let! size := lift (file_size raw) in
    let! bs := gets e_block_size in
    let! done := add_in_blocks (range ((size + bs - 1) / bs)) raw need child_ino file_type name_b in
    if done : bool then ret tt
    else
      let new_fb := size / bs in
      let! (phys, raw) := allocate_block_for raw new_fb in
      let! blk := read_block phys in
      on_buf blk (pack_dirent 0 child_ino bs (len name_b) file_type ;;;
                  b_assign 8 (8 + len name_b) name_b ;;;
                  b_zero (8 + len name_b) bs) ;;;
      write_back phys blk ;;;
      let! raw := lift (set_file_size raw ((new_fb + 1) * bs)) in
      write_inode dir_ino raw.

Fixpoint remove_in_blocks (fbs : list Z) (raw : bytes) (name_b : bytes) : M fs (Z * Z) :=
  match fbs with
  | [] => raise FileNotFoundError
  | fb :: fbs' =>
      let! bs := gets e_block_size in
      let! phys := resolve_block raw fb in
      if phys =? 0 then remove_in_blocks fbs' raw name_b
      else
        let! blk := read_block phys in
        let! found := on_buf blk (remove_scan (Z.to_nat bs) bs (-1) 0 name_b) in
        match found with
        | Some e => write_back phys blk ;;; ret e
        | None => remove_in_blocks fbs' raw name_b
        end
  end.

Definition remove_dir_entry (dir_ino : Z) (name : str) : M fs (Z * Z) :=
  let! name_b := lift (encode name) in
  let! raw := read_inode dir_ino in
  let! size := lift (file_size raw) in
  let! bs := gets e_block_size in
  remove_in_blocks (range ((size + bs - 1) / bs)) raw name_b.

Definition dir_is_empty (dir_ino : Z) : M fs bool :=
  let! es := read_dir_entries dir_ino in
  ret (forallb (fun '(name, _, _) => beq name (lit ".") || beq name (lit "..")) es).

(** ** Nodes: an [Ext2Node] is its inode number *)

Definition mode_to_inode_type (mode : Z) : InodeType :=
  if is_kind mode EXT2_S_IFREG then FILE
  else if is_kind mode EXT2_S_IFDIR then DIR
  else if is_kind mode EXT2_S_IFLNK then SYMLINK
  else if is_kind mode EXT2_S_IFCHR || is_kind mode EXT2_S_IFBLK then DEVICE
  else if is_kind mode EXT2_S_IFIFO then PIPE
  else FILE.

Definition inode_type_to_mode (t : InodeType) (perm : Z) : Z :=
  match t with
  | DIR => Z.lor EXT2_S_IFDIR (Z.land perm 0xFFF)
  | SYMLINK => Z.lor EXT2_S_IFLNK (Z.land perm 0xFFF)
  | _ => Z.lor EXT2_S_IFREG (Z.land perm 0xFFF)
  end.

Definition inode_type_to_filetype (t : InodeType) : Z :=
  match t with DIR => EXT2_FT_DIR | SYMLINK => EXT2_FT_SYMLINK | _ => EXT2_FT_REG_FILE end.

Definition ext2_stat (ino : Z) : M fs Stat :=
  let! raw := read_inode ino in
  let! mode := lift (i_mode raw) in
  let! size := lift (file_size raw) in
  let! nlink := lift (i_links raw) in
  ret (mkStat (mode_to_inode_type mode) size (Z.land mode 0xFFF) nlink).

Definition ext2_read (ino offset n : Z) : M fs bytes :=
  let! raw := read_inode ino in
  let! mode := lift (i_mode raw) in
  if is_kind mode EXT2_S_IFDIR then raise IsADirectoryError
  else if is_kind mode EXT2_S_IFLNK then
    let! size := lift (file_size raw) in
    if size <=? 60 then ret (slice (slice raw 40 (40 + size)) offset (offset + n))
    else read_file_data ino offset n
  else read_file_data ino offset n.

Definition ext2_write (ino offset : Z) (data : bytes) : M fs Z :=
  let! raw := read_inode ino in
  let! mode := lift (i_mode raw) in
  if negb (is_kind mode EXT2_S_IFREG) then raise IsADirectoryError
  else write_file_data ino offset data.

Definition ext2_truncate (ino size : Z) : M fs unit :=
  let! raw := read_inode ino in
  let! mode := lift (i_mode raw) in
  if negb (is_kind mode EXT2_S_IFREG) then raise IsADirectoryError
  else truncate_file ino size.

(** [if (i_mode & S_IFMT) != S_IFDIR: raise NotADirectoryError] *)
Definition check_dir (ino : Z) : M fs unit :=
  let! raw := read_inode ino in
  let! mode := lift (i_mode raw) in
  if is_kind mode EXT2_S_IFDIR then ret tt else raise NotADirectoryError.

Definition ext2_readdir (ino : Z) : M fs (list str) :=
  check_dir ino ;;;
  let! es := read_dir_entries ino in
  ret (map (fun '(name, _, _) => name) es).

Fixpoint find_entry (name : str) (es : list (str * Z * Z)) : option (Z * Z) :=
  match es with
  | [] => None
  | (n, ino, ft) :: es' => if beq n name then Some (ino, ft) else find_entry name es'
  end.

Definition ext2_lookup (ino : Z) (name : str) : M fs Z :=
  if beq name [] || beq name (lit ".") then ret ino
  else
    check_dir ino ;;;
    let! es := read_dir_entries ino in
    match find_entry name es with
    | Some (i, _) => ret i
    | None => raise FileNotFoundError
    end.

(** The raw inode [create] writes. *)
Definition new_inode_raw (isz mode : Z) : result bytes :=
  let? r := set_i_mode (zeros isz) mode in
  let? r := set_i_size r 0 in
  let? r := set_i_links r 1 in
  let? r := set_i_blocks r 0 in
  let? r := set_i_atime r 0 in
  let? r := set_i_ctime r 0 in
  set_i_mtime r 0.

(** [raw = read_inode(ino); set_i_links(raw, f(i_links(raw))); write_inode(ino, raw)] *)
Definition update_links (ino : Z) (f : Z -> Z) : M fs unit :=
  let! raw := read_inode ino in
  let! n := lift (i_links raw) in
  let! raw := lift (set_i_links raw (f n)) in
  write_inode ino raw.

Definition ext2_create (ino : Z) (name : str) (t : InodeType) : M fs Z :=
  check_dir ino ;;;
  let! es := read_dir_entries ino in
  match find_entry name es with
  | Some _ => raise FileExistsError
  | None =>
      let is_dir := match t with DIR => true | _ => false end in
      let! new_ino := alloc_inode is_dir in
      let! isz := gets (fun s => inode_size (e_sb s)) in
      let perm := if is_dir then 0x1ED else 0x1A4 in
      let! new_raw := lift (new_inode_raw isz (inode_type_to_mode t perm)) in
      write_inode new_ino new_raw ;;;
      (if is_dir then
         add_dir_entry new_ino (lit ".") new_ino EXT2_FT_DIR ;;;
         add_dir_entry new_ino (lit "..") ino EXT2_FT_DIR ;;;
         update_links new_ino (fun _ => 2) ;;;
         update_links ino (fun n => n + 1)
       else ret tt) ;;;
      add_dir_entry ino name new_ino (inode_type_to_filetype t) ;;;
      ret new_ino
  end.

(** Freeing an inode whose raw copy is [child_raw]: its blocks, then the inode,
    zeroed, then its bit. *)
Definition release_inode (target_ino : Z) (child_raw : bytes) (was_dir : bool) : M fs unit :=
  let! _ := free_all_blocks child_raw in
  let! isz := gets (fun s => inode_size (e_sb s)) in
  write_inode target_ino (zeros isz) ;;;
  free_inode target_ino was_dir.

Definition ext2_unlink (ino : Z) (name : str) : M fs unit :=
  check_dir ino ;;;
  let! es := read_dir_entries ino in
  match find_entry name es with
  | None => raise FileNotFoundError
  | Some (target_ino, _) =>
      let! child_raw := read_inode target_ino in
      let! child_mode := lift (i_mode child_raw) in
      let is_dir := is_kind child_mode EXT2_S_IFDIR in
      (if is_dir then
         let! empty := dir_is_empty target_ino in
         if empty : bool then ret tt else raise OSError
       else ret tt) ;;;
      let! _ := remove_dir_entry ino name in
      if is_dir then
        update_links ino (fun n => Z.max 0 (n - 1)) ;;;
        release_inode target_ino child_raw true
      else
        let! nlink := lift (i_links child_raw) in
        let new_nlink := nlink - 1 in
        let! child_raw := lift (set_i_links child_raw (Z.max 0 new_nlink)) in
        if new_nlink <=? 0 then release_inode target_ino child_raw false
        else write_inode target_ino child_raw
  end.

#[global] Instance ext2_node : FSNode fs Z := {
  n_stat := ext2_stat;
  n_read := ext2_read;
  n_write := ext2_write;
  n_truncate := ext2_truncate;
  n_readdir := ext2_readdir;
  n_lookup := ext2_lookup;
  n_create := ext2_create;
  n_unlink := ext2_unlink;
}.

(** [root()]; the driver has no [flush], [read_sync] or [isdir_sync]. *)
Definition ext2_fs : Filesystem fs Z := mkFS EXT2_ROOT_INO None None None.
End ext2.
