(* ===== verification/Ext2Inv.v ===== *)
(** * The invariant of the ext2 driver

    [fs_inv]: the block cache is write-through (every cached block, but for
    one that holds the superblock, which is written past the cache, is what
    the device holds), and the free counts of the superblock are the sums of
    the free counts of the group descriptors.  Every operation keeps it, when
    it returns and when it raises one of the errors a path can cause. *)

From Stdlib Require Import ZArith Lia.
From stdpp Require Import base list gmap numbers strings.
From S2P Require Import Prelude Bytes Pystr Vfs Tmpfs Ext2.

Local Open Scope Z_scope.

(** The errors a caller provokes by a path, and recovers from. *)
Definition benign (e : exn) : Prop :=
  e = FileNotFoundError \/ e = NotADirectoryError \/ e = IsADirectoryError \/ e = FileExistsError.

(** ** What the driver needs of a device *)

Class DevLaws (D : Type) `{BlockDev D} : Type := {
  dev_wf : D -> Prop;
  sector : D -> Z -> bytes;
  read_sector_law l d r d' : dev_wf d -> read_sector l d = (r, d') ->
    match r with
    | Ok b => dev_wf d' /\ b = sector d l /\ len b = SECTOR_SIZE /\ forall l', sector d' l' = sector d l'
    | Err e => ~ benign e
    end;
  write_sector_law l b d r d' : dev_wf d -> write_sector l b d = (r, d') ->
    match r with
    | Ok _ => dev_wf d' /\ len b = SECTOR_SIZE /\ sector d' l = b /\
              forall l', l' <> l -> sector d' l' = sector d l'
    | Err e => ~ benign e
    end;
}.

Lemma not_benign_cases : ~ benign IndexError /\ ~ benign ValueError /\ ~ benign StructError /\
  ~ benign RuntimeError /\ ~ benign ZeroDivisionError /\ ~ benign OSError /\ ~ benign UnicodeError /\
  ~ benign NotImplementedError.
Proof. unfold benign. split_and!; intros [?|[?|[?|?]]]; discriminate. Qed.

(** The file-backed device. *)
Definition file_wf (d : FileBlockDevice) : Prop := len (f_image d) = f_num_sectors d * SECTOR_SIZE.
Definition file_sector (d : FileBlockDevice) (l : Z) : bytes :=
  if (l <? 0) || (f_num_sectors d <=? l) then []
  else slice (f_image d) (l * SECTOR_SIZE) (l * SECTOR_SIZE + SECTOR_SIZE).

Lemma slice_assign_other (img v : bytes) i j a b :
  0 <= i -> i <= j -> j <= len img -> len v = j - i -> 0 <= a -> a <= b -> b <= len img -> b <= i \/ j <= a ->
  slice (slice_assign img i j v) a b = slice img a b.
Proof.
  intros Hi Hij Hj Hv Ha Hab Hb Hd.
  assert (Hl : len (slice_assign img i j v) = len img) by (rewrite len_slice_assign by lia; lia).
  rewrite !slice_inside by lia. rewrite slice_assign_inside by lia.
  apply list_eq. intros k. unfold len in *.
  destruct (decide (k < Z.to_nat (b - a))%nat) as [Hk|Hk].
  2:{ rewrite !lookup_take_ge by lia. done. }
  rewrite !lookup_take_lt, !lookup_drop by lia. destruct Hd as [Hd|Hd].
  - rewrite lookup_app_l by (rewrite length_take; lia). by rewrite lookup_take_lt by lia.
  - rewrite lookup_app_r by (rewrite length_take; lia).
    rewrite lookup_app_r by (rewrite length_take; lia).
    rewrite lookup_drop. f_equal. rewrite length_take. lia.
Qed.

#[global] Instance file_dev_laws : DevLaws FileBlockDevice.
Proof.
  refine {| dev_wf := file_wf; sector := file_sector |}.
  - intros l d r d' Hw. simpl. unfold file_read_sector, bind, get, file_sector.
    destruct ((l <? 0) || (f_num_sectors d <=? l)) eqn:E.
    + intros [= <- <-]. apply not_benign_cases.
    + intros [= <- <-]. split_and!; [done..| |done]. unfold file_wf, SECTOR_SIZE in *.
      rewrite len_slice; lia.
  - intros l b d r d' Hw. simpl. unfold file_write_sector, bind, get, file_sector, modify.
    destruct (Z.eqb_spec (len b) SECTOR_SIZE) as [Hb|]; simpl; [|intros [= <- <-]; apply not_benign_cases].
    destruct ((l <? 0) || (f_num_sectors d <=? l)) eqn:E; [intros [= <- <-]; apply not_benign_cases|].
    intros [= <- <-]. unfold file_wf, SECTOR_SIZE in *. simpl.
    assert (Hl : len (slice_assign (f_image d) (l * 512) (l * 512 + 512) b) = len (f_image d)).
    { rewrite len_slice_assign by lia. lia. }
    split_and!; [lia|done| |].
    + rewrite E. apply slice_slice_assign; lia.
    + intros l' Hne. destruct ((l' <? 0) || (f_num_sectors d <=? l')) eqn:E'; [done|].
      apply slice_assign_other; lia.
Defined.

(** ** The invariant *)

Section inv.
Context {D : Type} `{DevLaws D}.
Abbreviation fs := (Ext2FS D).

(** The bytes the device holds for block [b]. *)
Definition disk_block (spb : Z) (d : D) (b : Z) : bytes :=
  concat (map (fun i => sector d (b * spb + i)) (range spb)).

(** Block [b] holds a sector of the superblock. *)
Definition holds_sb (spb b : Z) : Prop := exists i, 0 <= i < spb /\ (b * spb + i = 2 \/ b * spb + i = 3).

Definition group_fb (d : bytes) : Z := match bgd_parse d with Ok g => g_fb g | Err _ => 0 end.
Definition group_fi (d : bytes) : Z := match bgd_parse d with Ok g => g_fi g | Err _ => 0 end.
Definition sum (l : list Z) : Z := foldr Z.add 0 l.

(** [cached x s]: the cache is right for every block but [x]. *)
Record cached (x : option Z) (s : fs) : Prop := {
  ca_wf : dev_wf (e_dev s);
  ca_size : e_block_size s = e_sectors_per_block s * SECTOR_SIZE;
  ca_spb : 0 < e_sectors_per_block s;
  ca_key : forall b r, e_block_cache s !! b = Some r -> r.1 = b;
  ca_serial : forall r, is_Some (e_bufs s !! r) -> r.2 < e_serial s;
  ca_data : forall b r, e_block_cache s !! b = Some r -> Some b <> x -> ~ holds_sb (e_sectors_per_block s) b ->
    e_bufs s !! r = Some (disk_block (e_sectors_per_block s) (e_dev s) b);
  ca_len : forall b, is_Some (e_block_cache s !! b) -> Some b <> x -> ~ holds_sb (e_sectors_per_block s) b ->
    len (disk_block (e_sectors_per_block s) (e_dev s) b) = e_block_size s;
}.

Record counters (s : fs) : Prop := {
  co_blocks : free_blocks_count (e_sb s) = sum (map group_fb (e_bgdt s));
  co_inodes : free_inodes_count (e_sb s) = sum (map group_fi (e_bgdt s));
}.

(** [Q] is about what neither the cache nor the device changes. *)
Definition meta_inv (Q : fs -> Prop) (s : fs) : Prop := cached None s /\ Q s.
Definition fs_inv : fs -> Prop := meta_inv counters.

(** A run that ends well: it returns, or raises a benign error. *)
Definition ends_well {A} (r : result A) : Prop := match r with Ok _ => True | Err e => benign e end.

Definition bkeeps {A} (P : fs -> Prop) (m : M fs A) : Prop :=
  forall s r s', P s -> m s = (r, s') -> ends_well r -> P s'.

Create HintDb ext2 discriminated.

Lemma bkeeps_bind {A B} (P : fs -> Prop) (m : M fs A) (f : A -> M fs B) :
  bkeeps P m -> (forall a, bkeeps P (f a)) -> bkeeps P (bind m f).
Proof.
  intros Hm Hf s r s' HP. unfold bind. destruct (m s) as [[a|e] s1] eqn:E; intros E' Hr.
  - eapply Hf; [|exact E'|exact Hr]. by eapply Hm; [| |].
  - simplify_eq. by eapply Hm.
Qed.
Lemma bkeeps_pure {A} (P : fs -> Prop) (m : M fs A) : (forall s, snd (m s) = s) -> bkeeps P m.
Proof. intros Hm s r s' HP E _. specialize (Hm s). rewrite E in Hm. simpl in Hm. by subst. Qed.
Lemma bkeeps_ret {A} (P : fs -> Prop) (a : A) : bkeeps P (ret a).
Proof. by apply bkeeps_pure. Qed.
Lemma bkeeps_raise {A} (P : fs -> Prop) e : bkeeps P (raise (A := A) e).
Proof. by apply bkeeps_pure. Qed.
Lemma bkeeps_lift {A} (P : fs -> Prop) (r : result A) : bkeeps P (lift r).
Proof. by apply bkeeps_pure. Qed.
Lemma bkeeps_gets {A} (P : fs -> Prop) (f : fs -> A) : bkeeps P (gets f).
Proof. by apply bkeeps_pure. Qed.
Lemma bkeeps_for_each {A} (P : fs -> Prop) (l : list A) body :
  (forall x, bkeeps P (body x)) -> bkeeps P (for_each l body).
Proof. intros Hb. induction l; simpl; auto using bkeeps_ret, bkeeps_bind. Qed.

Hint Resolve bkeeps_bind bkeeps_ret bkeeps_raise bkeeps_lift bkeeps_gets bkeeps_for_each : ext2.

(** *** The device under the driver *)

Lemma dev_read_step x l s r s' :
  cached x s -> dev (read_sector l) s = (r, s') -> ends_well r ->
  exists b, r = Ok b /\ b = sector (e_dev s) l /\ len b = SECTOR_SIZE /\ exists d',
    s' = set_dev d' s /\ dev_wf d' /\ forall l', sector d' l' = sector (e_dev s) l'.
Proof.
  intros Hc. unfold dev, zoom. destruct (read_sector l (e_dev s)) as [q d'] eqn:E.
  intros [= <- <-] Hr. apply read_sector_law in E; [|apply Hc]. destruct q as [b|e]; [|done].
  destruct E as (? & ? & ? & ?). exists b. split_and!; [done..|]. by exists d'.
Qed.

Lemma dev_write_step x l b s r s' :
  cached x s -> dev (write_sector l b) s = (r, s') -> ends_well r ->
  r = Ok tt /\ len b = SECTOR_SIZE /\ exists d',
    s' = set_dev d' s /\ dev_wf d' /\ sector d' l = b /\ forall l', l' <> l -> sector d' l' = sector (e_dev s) l'.
Proof.
  intros Hc. unfold dev, zoom. destruct (write_sector l b (e_dev s)) as [q d'] eqn:E.
  intros [= <- <-] Hr. apply write_sector_law in E; [|apply Hc]. destruct q as [[]|e]; [|done].
  destruct E as (? & ? & ? & ?). split_and!; [done..|]. by exists d'.
Qed.

Lemma disk_block_ext spb d d' b :
  (forall i, 0 <= i < spb -> sector d' (b * spb + i) = sector d (b * spb + i)) ->
  disk_block spb d' b = disk_block spb d b.
Proof.
  intros Hs. unfold disk_block. f_equal. apply map_ext_in. intros i Hi.
  apply Hs. by apply list_elem_of_In, elem_of_range2 in Hi.
Qed.

(** A change of the device that only touches block [x]. *)
Lemma cached_dev x s d' :
  cached x s -> dev_wf d' ->
  (forall b i, Some b <> x -> ~ holds_sb (e_sectors_per_block s) b -> 0 <= i < e_sectors_per_block s ->
     sector d' (b * e_sectors_per_block s + i) = sector (e_dev s) (b * e_sectors_per_block s + i)) ->
  cached x (set_dev d' s).
Proof.
  intros [] Hd Hs.
  assert (He : forall b, Some b <> x -> ~ holds_sb (e_sectors_per_block s) b ->
    disk_block (e_sectors_per_block s) d' b = disk_block (e_sectors_per_block s) (e_dev s) b).
  { intros b Hx Hsb. apply disk_block_ext. intros i Hi. by apply Hs. }
  split; simpl; try done.
  - intros b r Hb Hx Hsb. rewrite (ca_data0 _ _ Hb Hx Hsb). by rewrite He.
  - intros b Hb Hx Hsb. rewrite He by done. by apply ca_len0.
Qed.

Lemma cached_weaken x s : cached None s -> cached x s.
Proof. intros []. split; auto. Qed.

(** *** Sector loops *)

Definition same_but_dev (s s' : fs) : Prop := exists d, s' = set_dev d s.

Lemma read_sectors_spec x b spb l s r s' :
  cached x s ->
  map_m l (fun i => dev (read_sector (b * spb + i))) s = (r, s') -> ends_well r ->
  exists d', s' = set_dev d' s /\ dev_wf d' /\ (forall l', sector d' l' = sector (e_dev s) l') /\
    r = Ok (map (fun i => sector (e_dev s) (b * spb + i)) l) /\
    Forall (fun q => len q = SECTOR_SIZE) (map (fun i => sector (e_dev s) (b * spb + i)) l).
Proof.
  revert s r s'. induction l as [|i l IH]; intros s r s' Hc; simpl.
  { intros [= <- <-] _. exists (e_dev s). split_and!; [by destruct s|apply Hc|done|done|constructor]. }
  unfold bind at 1. destruct (dev (read_sector (b * spb + i)) s) as [q s1] eqn:E1.
  destruct q as [q|e].
  2:{ intros [= <- <-] Hr. by destruct (dev_read_step _ _ _ _ _ Hc E1 Hr) as (? & ? & _). }
  destruct (dev_read_step _ _ _ _ _ Hc E1 I) as (q' & [= <-] & -> & Hq & d1 & -> & Hw1 & Hs1).
  assert (Hc1 : cached x (set_dev d1 s)) by (apply cached_dev; auto).
  unfold bind. destruct (map_m l _ (set_dev d1 s)) as [[qs|e] s2] eqn:E2.
  - destruct (IH _ _ _ Hc1 E2 I) as (d2 & -> & Hw2 & Hs2 & Hqs & Hall). injection Hqs as ->.
    intros [= <- <-] _. exists d2. simpl in *.
    assert (Hm : map (fun i0 => sector d1 (b * spb + i0)) l = map (fun i0 => sector (e_dev s) (b * spb + i0)) l).
    { apply map_ext. intros. apply Hs1. }
    rewrite Hm in *. split_and!; [done..| | |].
    + intros l'. by rewrite Hs2, Hs1.
    + done.
    + by constructor.
  - intros [= <- <-] Hr. by destruct (IH _ _ _ Hc1 E2 Hr) as (d2 & _ & _ & _ & ? & _).
Qed.

Lemma same_block spb b b' i j : 0 <= i < spb -> 0 <= j < spb -> b * spb + i = b' * spb + j -> b = b'.
Proof. intros. nia. Qed.

Lemma write_sectors_spec b f l s r s' :
  let spb := e_sectors_per_block s in
  cached (Some b) s -> base.NoDup l -> Forall (fun i => 0 <= i < spb) l ->
  for_each l (fun i => dev (write_sector (b * spb + i) (f i))) s = (r, s') -> ends_well r ->
  exists d', s' = set_dev d' s /\ r = Ok tt /\ cached (Some b) s' /\
    (forall i, i ∈ l -> sector d' (b * spb + i) = f i /\ len (f i) = SECTOR_SIZE) /\
    (forall l', (forall i, i ∈ l -> l' <> b * spb + i) -> sector d' l' = sector (e_dev s) l').
Proof.
  cbv zeta. revert s r s'.
  induction l as [|i l IH]; intros s r s' Hc Hnd Hin; simpl.
  { intros [= <- <-] _. exists (e_dev s). split_and!; [by destruct s|done|done| |done].
    intros i Hi. by apply not_elem_of_nil in Hi. }
  apply list.NoDup_cons in Hnd as [Hni Hnd]. apply list.Forall_cons in Hin as [Hi Hin].
  unfold bind at 1. destruct (dev (write_sector _ (f i)) s) as [q s1] eqn:E1.
  destruct q as [q|e].
  2:{ intros [= <- <-] Hr. by destruct (dev_write_step _ _ _ _ _ _ Hc E1 Hr) as (? & _). }
  destruct (dev_write_step _ _ _ _ _ _ Hc E1 I) as (_ & Hlen & d1 & -> & Hw1 & Hs1 & Ho1).
  assert (Hc1 : cached (Some b) (set_dev d1 s)).
  { apply cached_dev; [done..|]. intros b' j Hx _ Hj. apply Ho1. intros E.
    apply Hx. f_equal. exact (same_block _ _ _ _ _ Hj Hi E). }
  intros E2 Hr. change (e_sectors_per_block s) with (e_sectors_per_block (set_dev d1 s)) in E2, Hin |- *.
  destruct (IH _ _ _ Hc1 Hnd Hin E2 Hr) as (d2 & -> & -> & Hc2 & Hw2 & Ho2). exists d2. simpl in *.
  split_and!; [done..| |].
  - intros j [->|Hj]%elem_of_cons; [|auto]. split; [|done]. rewrite Ho2; [done|].
    intros k Hk E. apply Hni. replace i with k by lia. done.
  - intros l' Hl'. rewrite Ho2, Ho1; [done|apply Hl'; left|]. intros k Hk. apply Hl'. by right.
Qed.

Lemma concat_slices (data : bytes) k n : 0 <= k -> 0 <= n -> n * k <= len data ->
  concat (map (fun i => slice data (i * k) ((i + 1) * k)) (range n)) = slice data 0 (n * k).
Proof.
  intros Hk Hn. revert n Hn. apply (natlike_ind (fun n => n * k <= len data ->
    concat (map (fun i => slice data (i * k) ((i + 1) * k)) (range n)) = slice data 0 (n * k))).
  - intros _. unfold range. rewrite range2_nil by lia. simpl. rewrite slice_inside by (pose proof (len_nonneg data); lia). done.
  - intros n Hn IH Hle. unfold range in *. unfold Z.succ. rewrite range2_snoc, map_app, concat_app by lia. simpl.
    rewrite IH by nia. rewrite app_nil_r. rewrite !slice_inside by nia. rewrite !Z.sub_0_r.
    replace (Z.to_nat ((n + 1) * k)) with (Z.to_nat (n * k) + Z.to_nat ((n + 1) * k - n * k))%nat by nia.
    change (Z.to_nat 0) with 0%nat. rewrite !drop_0. by rewrite take_take_drop.
Qed.

Lemma len_concat (ls : list bytes) k : Forall (fun l => len l = k) ls -> len (concat ls) = len ls * k.
Proof. induction 1 as [|l ls Hl Hls IH]; [done|]. cbn [concat]. rewrite len_app, len_cons, Hl, IH. lia. Qed.
Lemma len_map {X Y} (f : X -> Y) l : len (map f l) = len l.
Proof. unfold len. by rewrite length_map. Qed.

Lemma disk_block_written spb d b data :
  0 < spb -> len data = spb * SECTOR_SIZE ->
  (forall i, 0 <= i < spb -> sector d (b * spb + i) = slice data (i * SECTOR_SIZE) ((i + 1) * SECTOR_SIZE)) ->
  disk_block spb d b = data.
Proof.
  intros Hspb Hlen Hs. unfold disk_block.
  rewrite (map_ext_in _ (fun i => slice data (i * SECTOR_SIZE) ((i + 1) * SECTOR_SIZE))).
  2:{ intros i Hi. apply Hs. by apply list_elem_of_In, elem_of_range2 in Hi. }
  unfold SECTOR_SIZE in *. rewrite concat_slices by lia. by apply slice_all.
Qed.

(** *** [_read_block] and [_write_block] *)

(** What stays when only the device and the cache change. *)
Definition same_meta (s s' : fs) : Prop :=
  e_sb s' = e_sb s /\ e_block_size s' = e_block_size s /\ e_sectors_per_block s' = e_sectors_per_block s /\
  e_bgdt s' = e_bgdt s /\ e_bgdt_block s' = e_bgdt_block s.

Lemma same_meta_refl (s : fs) : same_meta s s.
Proof. done. Qed.
Lemma same_meta_trans s1 s2 s3 : same_meta s1 s2 -> same_meta s2 s3 -> same_meta s1 s3.
Proof. unfold same_meta. intros (?&?&?&?&?) (?&?&?&?&?). split_and!; congruence. Qed.

Lemma counters_meta s s' : counters s -> same_meta s s' -> counters s'.
Proof. intros [] (E1 & _ & _ & E2 & _). split; by rewrite E1, E2. Qed.


(** Caching the contents of the device. *)
Lemma cached_put x b s data :
  cached x s ->
  (~ holds_sb (e_sectors_per_block s) b -> data = disk_block (e_sectors_per_block s) (e_dev s) b) ->
  len data = e_block_size s -> x = None \/ x = Some b ->
  cached None (cache_put b data s).
Proof.
  intros [Hw Hsz Hspb Hk Hser Hd Hl] Hdata Hlen Hx. split; simpl; [done..| | | |].
  - intros b' r Hr. apply lookup_insert_Some in Hr as [[<- <-]|[_ Hr]]; [done|]. by apply Hk.
  - intros r [c Hc]. apply lookup_insert_Some in Hc as [[<- _]|[_ Hc]]; simpl; [lia|].
    specialize (Hser r (mk_is_Some _ _ Hc)). lia.
  - intros b' r Hr _ Hsb. apply lookup_insert_Some in Hr as [[<- <-]|[Hne Hr]].
    + rewrite lookup_insert_eq. f_equal. by apply Hdata.
    + assert (Hb' : Some b' <> x) by (destruct Hx as [->| ->]; congruence).
      rewrite lookup_insert_ne; [by apply Hd|]. intros <-.
      specialize (Hk _ _ Hr). simpl in Hk. congruence.
  - intros b' [r Hr] _ Hsb. apply lookup_insert_Some in Hr as [[<- <-]|[Hne Hr]]; [by rewrite <- Hdata|].
    apply Hl; [eauto| |done]. destruct Hx as [->| ->]; congruence.
Qed.

Lemma read_block_spec b s r s' :
  cached None s -> read_block b s = (r, s') -> ends_well r ->
  cached None s' /\ same_meta s s' /\ (forall l, sector (e_dev s') l = sector (e_dev s) l) /\
  exists k, r = Ok k /\ k.1 = b /\ e_block_cache s' !! b = Some k /\
    (~ holds_sb (e_sectors_per_block s) b ->
     e_bufs s' !! k = Some (disk_block (e_sectors_per_block s) (e_dev s) b)).
Proof.
  intros Hc. unfold read_block, bind at 1, gets at 1.
  destruct (e_block_cache s !! b) as [k|] eqn:Ek.
  { intros [= <- <-] _. split_and!; [done..|]. exists k. split_and!; [done|by eapply ca_key|done|].
    intros Hsb. by eapply ca_data. }
  unfold bind at 1, gets at 1. unfold bind at 1.
  destruct (map_m _ _ s) as [q s1] eqn:E. intros E' Hr.
  destruct q as [qs|e].
  2:{ injection E' as <- <-. by destruct (read_sectors_spec _ _ _ _ _ _ _ Hc E Hr) as (?&_&_&_&?&_). }
  destruct (read_sectors_spec _ _ _ _ _ _ _ Hc E I) as (d' & -> & Hw & Hs & Hq & Hall). injection Hq as ->.
  unfold bind, gets, modify, ret in E'. injection E' as <- <-.
  assert (Hc' : cached None (set_dev d' s)) by (apply cached_dev; auto).
  assert (Hdb : disk_block (e_sectors_per_block s) d' b = disk_block (e_sectors_per_block s) (e_dev s) b).
  { apply disk_block_ext. auto. }
  split_and!.
  - eapply (cached_put None b); [exact Hc'| | |by left]; [intros _; simpl; by rewrite Hdb|].
    simpl. rewrite (len_concat _ SECTOR_SIZE Hall), len_map. unfold range, len. rewrite length_range2, Z.sub_0_r.
    pose proof (ca_spb _ _ Hc). rewrite (ca_size _ _ Hc). lia.
  - done.
  - done.
  - eexists. split_and!; [done|done|simpl; by rewrite lookup_insert_eq|]. intros _. simpl. by rewrite lookup_insert_eq.
Qed.

(** Writing a block: it is then on the device and in the cache, and nothing
    else changes. *)
Lemma write_block_spec b data s r s' :
  cached (Some b) s -> write_block b data s = (r, s') -> ends_well r ->
  r = Ok tt /\ len data = e_block_size s /\ cached None s' /\ same_meta s s' /\
  disk_block (e_sectors_per_block s) (e_dev s') b = data /\
  (forall b', b' <> b -> disk_block (e_sectors_per_block s) (e_dev s') b' = disk_block (e_sectors_per_block s) (e_dev s) b') /\
  exists k, e_block_cache s' = <[b := (b, k)]> (e_block_cache s) /\ e_bufs s' = <[(b, k) := data]> (e_bufs s) /\
    k = e_serial s.
Proof.
  intros Hc. unfold write_block, bind at 1, gets at 1.
  destruct (Z.eqb_spec (len data) (e_block_size s)) as [Hlen|]; simpl.
  2:{ intros [= <- <-] Hr. by apply not_benign_cases in Hr. }
  unfold bind at 1, gets at 1. unfold bind at 1. destruct (for_each _ _ s) as [q s1] eqn:E. intros E' Hr.
  assert (Hnd : base.NoDup (range (e_sectors_per_block s))) by apply NoDup_range2.
  assert (Hin : Forall (fun i => 0 <= i < e_sectors_per_block s) (range (e_sectors_per_block s))).
  { apply list.Forall_forall. intros i. unfold range. by rewrite elem_of_range2. }
  destruct q as [q|e].
  2:{ injection E' as <- <-.
      by destruct (write_sectors_spec b _ _ _ _ _ Hc Hnd Hin E Hr) as (?&_&?&_). }
  destruct (write_sectors_spec b _ _ _ _ _ Hc Hnd Hin E I) as (d' & -> & _ & Hc' & Hw & Ho).
  unfold modify in E'. injection E' as <- <-.
  assert (Hdb : disk_block (e_sectors_per_block s) d' b = data).
  { apply disk_block_written; [apply Hc|rewrite Hlen; apply Hc|]. intros i Hi. apply Hw.
    unfold range. by rewrite elem_of_range2. }
  split_and!; [done|done| |done|done| |by eexists].
  - eapply (cached_put (Some b) b); [exact Hc'|done|done|by right].
  - intros b' Hne. apply disk_block_ext. intros i Hi. apply Ho. intros j Hj.
    unfold range in Hj. rewrite elem_of_range2 in Hj. intros E0. apply Hne. exact (same_block _ _ _ _ _ Hi Hj E0).
Qed.

(** *** Buffers *)

(** An operation on a buffer that raises no benign error. *)
Definition hard {A} (m : M bytes A) : Prop := forall b e b', m b = (Err e, b') -> ~ benign e.

Lemma on_buf_spec {A} (m : M bytes A) k s r s' :
  cached None s -> on_buf k m s = (r, s') ->
  cached (Some k.1) s' /\ same_meta s s' /\ e_dev s' = e_dev s /\ e_block_cache s' = e_block_cache s /\
  ((e_bufs s !! k = None /\ r = Err RuntimeError) \/
   exists b b', e_bufs s !! k = Some b /\ m b = (r, b') /\ s' = set_bufs (<[k := b']> (e_bufs s)) s).
Proof.
  intros [Hw Hsz Hspb Hk Hser Hd Hl]. unfold on_buf. destruct (e_bufs s !! k) as [b|] eqn:Eb.
  2:{ intros [= <- <-]. split_and!; [|done..|by left]. by split; auto. }
  destruct (m b) as [x b'] eqn:Em. intros [= <- <-]. split_and!; [|done..|right; eauto]. split; simpl; [done..| | |].
  - intros r [c Hc]. apply lookup_insert_Some in Hc as [[<- _]|[_ Hc]]; eauto.
  - intros b0 r Hb0 Hne Hsb. rewrite lookup_insert_ne; [by apply Hd|]. intros <-.
    apply Hne. f_equal. symmetry. by apply Hk.
  - intros b0 Hb0 _ Hsb. by apply Hl.
Qed.

Lemma set_bufs_same (s : fs) k b : e_bufs s !! k = Some b -> set_bufs (<[k := b]> (e_bufs s)) s = s.
Proof. intros E. rewrite insert_id by done. by destruct s. Qed.

Lemma on_buf_pure_spec {A} (m : M bytes A) k (s : fs) r s' :
  (forall b, snd (m b) = b) -> on_buf k m s = (r, s') -> s' = s.
Proof.
  intros Hm. unfold on_buf. destruct (e_bufs s !! k) as [b|] eqn:Eb; [|by intros [= _ <-]].
  specialize (Hm b). destruct (m b) as [x b']. simpl in Hm. subst. intros [= _ <-]. by apply set_bufs_same.
Qed.

Lemma write_back_spec b k s r s' :
  cached (Some b) s -> write_back b k s = (r, s') -> ends_well r ->
  r = Ok tt /\ exists data, e_bufs s !! k = Some data /\ write_block b data s = (Ok tt, s').
Proof.
  intros Hc. unfold write_back, bind, contents, on_buf. destruct (e_bufs s !! k) as [data|] eqn:E.
  - rewrite set_bufs_same by done. intros Hw Hr. split; [|exists data; split; [done|]].
    + by destruct (write_block_spec _ _ _ _ _ Hc Hw Hr) as (-> & _).
    + by destruct (write_block_spec _ _ _ _ _ Hc Hw Hr) as (-> & _).
  - intros [= <- <-] Hr. by apply not_benign_cases in Hr.
Qed.

Definition stable (Q : fs -> Prop) : Prop := forall s s', Q s -> same_meta s s' -> Q s'.

Section meta.
Context (Q : fs -> Prop) (HQ : stable Q).

(** [m] puts the cache of block [b] right again. *)
Definition brestores {A} (b : Z) (m : M fs A) : Prop :=
  forall s r s', cached (Some b) s -> Q s -> m s = (r, s') -> ends_well r -> (meta_inv Q) s'.

Lemma brestores_write {A} b k (f : M fs A) : bkeeps (meta_inv Q) f -> brestores b (write_back b k ;;; f).
Proof.
  intros Hf s r s' Hc Hco. unfold bind. destruct (write_back b k s) as [[u|e] s1] eqn:E; intros E' Hr.
  - eapply Hf; [|exact E'|exact Hr]. destruct (write_back_spec _ _ _ _ _ Hc E I) as (_ & data & _ & Hw).
    destruct (write_block_spec _ _ _ _ _ Hc Hw I) as (_ & _ & Hc' & Hm & _).
    split; [done|by eapply HQ].
  - injection E' as <- <-. by destruct (write_back_spec _ _ _ _ _ Hc E Hr) as (? & _).
Qed.
Lemma brestores_write_end b k : brestores b (write_back b k).
Proof.
  intros s r s' Hc Hco E Hr. destruct (write_back_spec _ _ _ _ _ Hc E Hr) as (_ & data & _ & Hw).
  destruct (write_block_spec _ _ _ _ _ Hc Hw I) as (_ & _ & Hc' & Hm & _).
  split; [done|by eapply HQ].
Qed.
Lemma brestores_raise {A} b e : ~ benign e -> brestores b (raise (A := A) e).
Proof. intros He s r s' _ _ [= <- <-] Hr. by destruct He. Qed.

Lemma bkeeps_mut {A B} b k (m : M bytes A) (f : A -> M fs B) :
  k.1 = b -> hard m ->
  (forall a, brestores b (f a) \/ ((forall x x', m x = (Ok a, x') -> x' = x) /\ bkeeps (meta_inv Q) (f a))) ->
  bkeeps (meta_inv Q) (bind (on_buf k m) f).
Proof.
  intros <- Hm Hf s r s' [Hc Hco]. unfold bind. destruct (on_buf k m s) as [q s1] eqn:E.
  destruct (on_buf_spec _ _ _ _ _ Hc E) as (Hc1 & Hm1 & _ & _ & Hcase).
  destruct q as [a|e]; intros E' Hr.
  - destruct (Hf a) as [Hre|[Hsame Hk]].
    + eapply Hre; [exact Hc1|by eapply HQ|exact E'|exact Hr].
    + eapply Hk; [|exact E'|exact Hr]. destruct Hcase as [[_ ?]|(x & x' & Hx & Hma & ->)]; [done|].
      rewrite (Hsame _ _ Hma), set_bufs_same by done. by split.
  - injection E' as <- <-. destruct Hcase as [[_ [= ->]]|(x & x' & Hx & Hma & ->)].
    + by apply not_benign_cases in Hr.
    + by destruct (Hm _ _ _ Hma).
Qed.

Lemma bkeeps_mut_write {A} b k (m : M bytes A) :
  k.1 = b -> hard m -> bkeeps (meta_inv Q) (on_buf k m ;;; write_back b k).
Proof. intros Hk Hm. apply (bkeeps_mut b); [done..|]. intros a. left. apply brestores_write_end. Qed.

Lemma bkeeps_mut_write_then {A B} b k (m : M bytes A) (f : M fs B) :
  k.1 = b -> hard m -> bkeeps (meta_inv Q) f -> bkeeps (meta_inv Q) (on_buf k m ;;; write_back b k ;;; f).
Proof. intros Hk Hm Hf. apply (bkeeps_mut b); [done..|]. intros a. left. by apply brestores_write. Qed.

Lemma bkeeps_buf {A} k (m : M bytes A) : (forall b, snd (m b) = b) -> bkeeps (meta_inv Q) (on_buf k m).
Proof. intros Hm s r s' Hi E _. by apply on_buf_pure_spec in E as ->. Qed.

Lemma bkeeps_read {A} b (f : bref -> M fs A) :
  (forall k, k.1 = b -> bkeeps (meta_inv Q) (f k)) -> bkeeps (meta_inv Q) (bind (read_block b) f).
Proof.
  intros Hf s r s' [Hc Hco]. unfold bind. destruct (read_block b s) as [q s1] eqn:E. destruct q as [k|e].
  - destruct (read_block_spec _ _ _ _ Hc E I) as (Hc1 & Hm & _ & k' & [= <-] & Hk & _).
    apply (Hf k Hk). split; [done|by eapply HQ].
  - intros [= <- <-] Hr. by destruct (read_block_spec _ _ _ _ Hc E Hr) as (_ & _ & _ & ? & ? & _).
Qed.

Lemma bkeeps_write b data : bkeeps (meta_inv Q) (write_block b data).
Proof.
  intros s r s' [Hc Hco] E Hr. destruct (write_block_spec _ _ _ _ _ (cached_weaken _ _ Hc) E Hr) as (_ & _ & Hc' & Hm & _).
  split; [done|by eapply HQ].
Qed.
End meta.
Hint Resolve bkeeps_write bkeeps_buf bkeeps_read : ext2.

(** *** Group descriptors and counters *)

Lemma bgd_parse_pack d a b c d' : pack_counters d a b c = Ok d' ->
  forall g, bgd_parse d = Ok g -> bgd_parse d' = Ok (mkBGD (g_bb g) (g_ib g) (g_it g) a b c).
Proof.
  unfold pack_counters. intros E g Hg.
  apply rbind_Ok in E as (d1 & E1 & E). apply rbind_Ok in E as (d2 & E2 & E3).
  unfold bgd_parse in *.
  repeat (apply rbind_Ok in Hg as (? & ? & Hg)). injection Hg as <-. simpl.
  rewrite !(unpack_pack_into_ne _ _ _ _ _ _ _ E3) by lia.
  rewrite !(unpack_pack_into_ne _ _ _ _ _ _ _ E2) by lia.
  rewrite !(unpack_pack_into_ne _ _ _ _ _ _ _ E1) by lia.
  rewrite (unpack_pack_into _ _ _ _ _ E3), (unpack_pack_into _ _ _ _ _ E2), (unpack_pack_into _ _ _ _ _ E1).
  repeat match goal with Hx : unpack_le _ _ _ = Ok _ |- _ => rewrite Hx; clear Hx end. done.
Qed.

Lemma sum_set_index (f : bytes -> Z) t g d d' t' :
  index t g = Ok d -> set_index t g d' = Ok t' -> sum (map f t') = sum (map f t) - f d + f d'.
Proof.
  unfold index, set_index. set (j := if g <? 0 then g + len t else g).
  destruct (Z.ltb_spec j 0); [done|]. destruct (t !! Z.to_nat j) as [x|] eqn:Ex; [|done].
  intros [= ->]. destruct (_ || _); [done|]. intros [= <-]. clear -Ex. unfold sum.
  revert Ex. generalize (Z.to_nat j). clear j g. induction t as [|y t IH]; intros [|i] Hi; simpl in *; [done..| |].
  - injection Hi as ->. lia.
  - rewrite (IH i Hi). lia.
Qed.

Lemma bgd_get_spec g (s : fs) r s' : bgd_get g s = (r, s') ->
  s' = s /\ forall d, r = Ok d -> exists raw, index (e_bgdt s) g = Ok raw /\ bgd_parse raw = Ok d.
Proof.
  unfold bgd_get, bind, gets, lift. destruct (index (e_bgdt s) g) as [raw|e]; intros [= <- <-]; split; try done.
  intros d E. by exists raw.
Qed.

Lemma set_counters_spec g a b c (s : fs) r s' raw d :
  index (e_bgdt s) g = Ok raw -> bgd_parse raw = Ok d ->
  bgd_set_counters g a b c s = (r, s') -> ends_well r ->
  r = Ok tt /\ exists t', s' = set_bgdt t' (e_bgdt_block s) s /\
    sum (map group_fb t') = sum (map group_fb (e_bgdt s)) - g_fb d + a /\
    sum (map group_fi t') = sum (map group_fi (e_bgdt s)) - g_fi d + b.
Proof.
  intros Hraw Hd. unfold bgd_set_counters, bind, gets, lift, modify. rewrite Hraw.
  destruct (pack_counters raw a b c) as [d'|e] eqn:Ep.
  2:{ intros [= <- <-] Hr. exfalso. revert Ep Hr. unfold pack_counters, pack_into_le.
      repeat (case_match; simpl; try (intros [= <-] Hr; by apply not_benign_cases in Hr)); intros; by apply not_benign_cases. }
  destruct (set_index (e_bgdt s) g d') as [t'|e] eqn:Et.
  2:{ intros [= <- <-] Hr. exfalso. unfold set_index in Et. case_match; [|done]. injection Et as <-.
      by apply not_benign_cases in Hr. }
  intros [= <- <-] _. split; [done|]. exists t'. split; [done|].
  pose proof (bgd_parse_pack _ _ _ _ _ Ep _ Hd) as Hp.
  rewrite (sum_set_index group_fb _ _ _ _ _ Hraw Et), (sum_set_index group_fi _ _ _ _ _ Hraw Et).
  unfold group_fb at 2 3, group_fi at 2 3. by rewrite Hp, Hd.
Qed.

Lemma counters_stable : stable counters.
Proof. intros s s'. apply counters_meta. Qed.
Hint Resolve counters_stable : ext2.

(** The state keeps these group descriptors and this superblock. *)
Definition has_meta (t : list bytes) (sb : Superblock) (s : fs) : Prop := e_bgdt s = t /\ e_sb s = sb.
Lemma has_meta_stable t sb : stable (fun s => counters s /\ has_meta t sb s).
Proof.
  intros s s' [Hc [Ht Hs]] Hm. split; [by eapply counters_meta|]. destruct Hm as (E1 & _ & _ & E2 & _).
  split; congruence.
Qed.
Hint Resolve has_meta_stable : ext2.

(** *** Bitmaps *)

Lemma hard_bind {A B} (m : M bytes A) (f : A -> M bytes B) : hard m -> (forall a, hard (f a)) -> hard (bind m f).
Proof.
  intros Hm Hf b e b'. unfold bind. destruct (m b) as [[a|e'] b1] eqn:E; intros E'.
  - by eapply Hf.
  - simplify_eq. by eapply Hm.
Qed.
Lemma hard_ret {A} (a : A) : hard (ret a).
Proof. intros b e b'. done. Qed.
Lemma hard_raise {A} e : ~ benign e -> hard (raise (A := A) e).
Proof. intros He b e' b' [= <- <-]. done. Qed.
Lemma hard_result {A} (f : bytes -> result A) : (forall b e, f b = Err e -> ~ benign e) -> hard (fun b => (f b, b)).
Proof. intros Hf b e b' [= E _]. by eapply Hf. Qed.
Lemma hard_get i : hard (b_get i).
Proof.
  apply hard_result. intros b e. unfold index. repeat case_match; intros [= <-]; apply not_benign_cases.
Qed.
Lemma hard_set i v : hard (b_set i v).
Proof.
  intros b e b'. unfold b_set, set_index. repeat case_match; simplify_eq; intros [= <- <-]; apply not_benign_cases.
Qed.
Lemma pack_into_hard n b off v e : pack_into_le n b off v = Err e -> ~ benign e.
Proof. unfold pack_into_le. case_match; intros [= <-]. apply not_benign_cases. Qed.
Lemma unpack_hard n b off e : unpack_le n b off = Err e -> ~ benign e.
Proof. unfold unpack_le. case_match; intros [= <-]. apply not_benign_cases. Qed.
Lemma hard_pack n off v : hard (b_pack n off v).
Proof.
  intros b e b'. unfold b_pack. destruct (pack_into_le n b off v) eqn:E; intros [= <- <-]. by eapply pack_into_hard.
Qed.
Lemma hard_unpack n off : hard (b_unpack n off).
Proof. apply hard_result. intros b e. apply unpack_hard. Qed.
Lemma hard_assign i j v : hard (b_assign i j v).
Proof. intros b e b'. done. Qed.
Lemma hard_slice i j : hard (b_slice i j).
Proof. intros b e b'. done. Qed.
Lemma hard_for_each {A} (l : list A) body : (forall x, hard (body x)) -> hard (for_each l body).
Proof. intros Hb. induction l; simpl; auto using hard_ret, hard_bind. Qed.
Lemma hard_zero a b : hard (b_zero a b).
Proof. apply hard_for_each. intros. apply hard_set. Qed.
Hint Resolve hard_bind hard_ret hard_get hard_set hard_pack hard_unpack hard_assign hard_slice
  hard_for_each hard_zero : ext2.

Lemma hard_find_and_set count l : hard (find_and_set count l).
Proof.
  induction l as [|i l IH]; simpl; [apply hard_ret|]. apply hard_bind; [apply hard_get|]. intros byte.
  repeat case_match; auto with ext2.
Qed.
Lemma hard_clear_bit i : hard (clear_bit i).
Proof. apply hard_bind; [apply hard_get|]. intros byte. case_match; auto with ext2. Qed.
Hint Resolve hard_find_and_set hard_clear_bit : ext2.

Section bitmaps.
Context (Q : fs -> Prop) (HQ : stable Q).

Lemma bkeeps_alloc_in_bitmap b count : bkeeps (meta_inv Q) (alloc_in_bitmap b count).
Proof.
  apply bkeeps_read; [done|]. intros k Hk. apply (bkeeps_mut Q HQ b); [done|auto with ext2|].
  intros [idx|]; left; [by apply brestores_write, bkeeps_ret|]. apply brestores_raise. apply not_benign_cases.
Qed.

Lemma clear_bit_false i x x' : clear_bit i x = (Ok false, x') -> x' = x.
Proof.
  unfold clear_bit, bind, b_get. destruct (index x (i / 8)) as [byte|]; [|done].
  destruct (_ =? 0); [by intros [= <-]|].
  unfold b_set. destruct (set_index _ _ _); intros E; by simplify_eq/=.
Qed.

Lemma bkeeps_free_in_bitmap b idx : bkeeps (meta_inv Q) (free_in_bitmap b idx).
Proof.
  apply bkeeps_read; [done|]. intros k Hk. apply (bkeeps_mut Q HQ b); [done|auto with ext2|].
  intros [|]; [left; by apply brestores_write_end|right]. split; [apply clear_bit_false|apply bkeeps_ret].
Qed.
End bitmaps.

(** *** Flushing *)

Lemma bkeeps_flush_bgdt : bkeeps fs_inv flush_bgdt.
Proof.
  unfold flush_bgdt. repeat (apply bkeeps_bind; [auto with ext2|intros ?]).
  apply bkeeps_for_each. intros bi. apply bkeeps_write, counters_stable.
Qed.

(** A direct write of a superblock sector. *)
Lemma bkeeps_sb_sector l b : l = 2 \/ l = 3 -> bkeeps fs_inv (dev (write_sector l b)).
Proof.
  intros Hl s r s' [Hc Hco] E Hr.
  destruct (dev_write_step _ _ _ _ _ _ Hc E Hr) as (_ & _ & d' & -> & Hw & _ & Ho).
  split; [|destruct Hco; by split]. apply cached_dev; [done..|]. intros b' i _ Hsb Hi. apply Ho.
  intros El. apply Hsb. exists i. split; [done|]. lia.
Qed.

Lemma bkeeps_flush_superblock : bkeeps fs_inv flush_superblock.
Proof.
  unfold flush_superblock. intros s r s' Hi. unfold bind at 1, gets at 1. unfold bind at 1, lift at 1.
  destruct (serialize_counters (e_sb s)) as [sb'|e] eqn:E.
  - unfold bind at 1, modify at 1.
    assert (Hi' : fs_inv (set_sb sb' s)).
    { destruct Hi as [Hc [Hb Hin]]. split; [destruct Hc; by split|].
      unfold serialize_counters in E. apply rbind_Ok in E as (r1 & _ & E). apply rbind_Ok in E as (r2 & _ & E).
      injection E as <-. by split. }
    intros E2 Hr. eapply (bkeeps_bind fs_inv); [| |exact Hi'|exact E2|exact Hr];
      intros; apply bkeeps_sb_sector; auto.
  - intros [= <- <-] Hr. done.
Qed.
Hint Resolve bkeeps_flush_bgdt bkeeps_flush_superblock : ext2.

Lemma num_groups_hard sb e : num_groups sb = Err e -> ~ benign e.
Proof. unfold num_groups. case_match; intros [= <-]. apply not_benign_cases. Qed.

(** *** Accounting: a group's counter and the superblock's move together *)

Lemma account {A B} g (alloc : M fs A) (f : A -> M fs B) (fb fi ud : bgd -> Z) (upd : Superblock -> Superblock) db di :
  (forall Q, stable Q -> bkeeps (meta_inv Q) alloc) ->
  (forall d, fb d = g_fb d + db) -> (forall d, fi d = g_fi d + di) ->
  (forall sb, free_blocks_count (upd sb) = free_blocks_count sb + db) ->
  (forall sb, free_inodes_count (upd sb) = free_inodes_count sb + di) ->
  (forall a, bkeeps fs_inv (f a)) ->
  forall d s r s' raw, fs_inv s -> index (e_bgdt s) g = Ok raw -> bgd_parse raw = Ok d ->
  (let! a := alloc in
   bgd_set_counters g (fb d) (fi d) (ud d) ;;;
   modify (fun s => set_sb (upd (e_sb s)) s) ;;;
   f a) s = (r, s') -> ends_well r -> fs_inv s'.
Proof.
  intros Ha Hfb Hfi Hub Hui Hf d s r s' raw [Hc Hco] Hraw Hd. unfold bind at 1.
  destruct (alloc s) as [q s1] eqn:E.
  assert (Hq : ends_well q -> meta_inv (fun s' => counters s' /\ has_meta (e_bgdt s) (e_sb s) s') s1).
  { intros Hq. eapply (Ha _ (has_meta_stable _ _)); [|exact E|exact Hq]. by split. }
  destruct q as [a|e].
  2:{ intros [= <- <-] Hr. destruct (Hq Hr) as (? & ? & _). by split. }
  destruct (Hq I) as (Hc1 & Hco1 & Ht & Hs). rewrite <- Ht in Hraw. unfold bind at 1.
  destruct (bgd_set_counters g (fb d) (fi d) (ud d) s1) as [q s2] eqn:E2.
  destruct q as [[]|e].
  2:{ intros [= <- <-] Hr. by destruct (set_counters_spec _ _ _ _ _ _ _ _ _ Hraw Hd E2 Hr) as (? & _). }
  destruct (set_counters_spec _ _ _ _ _ _ _ _ _ Hraw Hd E2 I) as (_ & t' & -> & Hsb & Hsi).
  unfold bind at 1, modify at 1. intros E3 Hr. eapply Hf; [|exact E3|exact Hr].
  split; [destruct Hc1; by split|]. destruct Hco1 as [Hb1 Hi1]. split; simpl.
  - rewrite Hub, Hsb, Hfb, Hb1. lia.
  - rewrite Hui, Hsi, Hfi, Hi1. lia.
Qed.

Lemma bkeeps_alloc_block : bkeeps fs_inv alloc_block.
Proof.
  unfold alloc_block. apply bkeeps_bind; [auto with ext2|]. intros sb0. apply bkeeps_bind; [auto with ext2|].
  intros n. generalize (range n). intros gs. induction gs as [|g gs IH]; [apply bkeeps_raise|].
  cbn [alloc_block_loop]. intros s r s' Hi. unfold bind at 1. destruct (bgd_get g s) as [q s1] eqn:E.
  destruct (bgd_get_spec _ _ _ _ E) as [-> Hg]. destruct q as [d|e]; [|by intros [= <- <-]].
  destruct (Hg d eq_refl) as (raw & Hraw & Hd). destruct (g_fb d =? 0); [by apply IH|].
  unfold bind at 1, gets at 1.
  refine (account g (alloc_in_bitmap (g_bb d) _) (fun a => flush_bgdt ;;; flush_superblock ;;; ret _)
           (fun d => g_fb d - 1) g_fi g_ud (fun sb => set_free_blocks (free_blocks_count sb - 1) sb) (-1) 0
           _ _ _ _ _ _ d s r s' raw Hi Hraw Hd).
  - intros Q HQ. by apply bkeeps_alloc_in_bitmap.
  - intros; lia.
  - intros; lia.
  - intros; simpl; lia.
  - intros; simpl; lia.
  - intros a. auto with ext2.
Qed.

Lemma bkeeps_alloc_inode is_dir : bkeeps fs_inv (alloc_inode is_dir).
Proof.
  unfold alloc_inode. apply bkeeps_bind; [auto with ext2|]. intros sb0. apply bkeeps_bind; [auto with ext2|].
  intros n. generalize (range n). intros gs. induction gs as [|g gs IH]; [apply bkeeps_raise|].
  cbn [alloc_inode_loop]. intros s r s' Hi. unfold bind at 1. destruct (bgd_get g s) as [q s1] eqn:E.
  destruct (bgd_get_spec _ _ _ _ E) as [-> Hg]. destruct q as [d|e]; [|by intros [= <- <-]].
  destruct (Hg d eq_refl) as (raw & Hraw & Hd). destruct (g_fi d =? 0); [by apply IH|].
  unfold bind at 1, gets at 1.
  refine (account g (alloc_in_bitmap (g_ib d) _) (fun a => flush_bgdt ;;; flush_superblock ;;; ret _)
           g_fb (fun d => g_fi d - 1) (fun d => if is_dir then g_ud d + 1 else g_ud d)
           (fun sb => set_free_inodes (free_inodes_count sb - 1) sb) 0 (-1)
           _ _ _ _ _ _ d s r s' raw Hi Hraw Hd).
  - intros Q HQ. by apply bkeeps_alloc_in_bitmap.
  - intros; lia.
  - intros; lia.
  - intros; simpl; lia.
  - intros; simpl; lia.
  - intros a. auto with ext2.
Qed.

Lemma bkeeps_free_block b : bkeeps fs_inv (free_block b).
Proof.
  unfold free_block. intros s r s' Hi. unfold bind at 1, gets at 1. unfold bind at 1, lift at 1.
  destruct (divmod _ _) as [[g local]|e]; [|by intros [= <- <-]].
  unfold bind at 1. destruct (bgd_get g s) as [q s1] eqn:E.
  destruct (bgd_get_spec _ _ _ _ E) as [-> Hg]. destruct q as [d|e]; [|by intros [= <- <-]].
  destruct (Hg d eq_refl) as (raw & Hraw & Hd).
  refine (account g (free_in_bitmap (g_bb d) local) (fun _ => flush_bgdt ;;; flush_superblock)
           (fun d => g_fb d + 1) g_fi g_ud (fun sb => set_free_blocks (free_blocks_count sb + 1) sb) 1 0
           _ _ _ _ _ _ d s r s' raw Hi Hraw Hd).
  - intros Q HQ. by apply bkeeps_free_in_bitmap.
  - intros; lia.
  - intros; lia.
  - intros; simpl; lia.
  - intros; simpl; lia.
  - intros a. auto with ext2.
Qed.

Lemma bkeeps_free_inode ino was_dir : bkeeps fs_inv (free_inode ino was_dir).
Proof.
  unfold free_inode. intros s r s' Hi. unfold bind at 1, gets at 1. unfold bind at 1, lift at 1.
  destruct (divmod _ _) as [[g local]|e]; [|by intros [= <- <-]].
  unfold bind at 1. destruct (bgd_get g s) as [q s1] eqn:E.
  destruct (bgd_get_spec _ _ _ _ E) as [-> Hg]. destruct q as [d|e]; [|by intros [= <- <-]].
  destruct (Hg d eq_refl) as (raw & Hraw & Hd).
  refine (account g (free_in_bitmap (g_ib d) local) (fun _ => flush_bgdt ;;; flush_superblock)
           g_fb (fun d => g_fi d + 1) (fun d => if was_dir then g_ud d - 1 else g_ud d)
           (fun sb => set_free_inodes (free_inodes_count sb + 1) sb) 0 1
           _ _ _ _ _ _ d s r s' raw Hi Hraw Hd).
  - intros Q HQ. by apply bkeeps_free_in_bitmap.
  - intros; lia.
  - intros; lia.
  - intros; simpl; lia.
  - intros; simpl; lia.
  - intros a. auto with ext2.
Qed.
Hint Resolve bkeeps_alloc_block bkeeps_alloc_inode bkeeps_free_block bkeeps_free_inode : ext2.

(** *** The rest of the driver *)

(** One step of a proof that an operation keeps the invariant. *)
Ltac keep1 :=
  match goal with
  | |- bkeeps _ (bind (read_block ?b) _) => apply bkeeps_read; [apply counters_stable|intros ? ?]
  | |- bkeeps _ (bind (on_buf _ _) (fun _ => bind (write_back _ _) _)) =>
      apply bkeeps_mut_write_then; [apply counters_stable|done|by auto 8 with ext2|]
  | |- bkeeps _ (bind (on_buf _ _) (fun _ => write_back _ _)) =>
      apply bkeeps_mut_write; [apply counters_stable|done|by auto 8 with ext2]
  | |- bkeeps _ (on_buf _ _) => apply bkeeps_buf; done
  | |- bkeeps _ (bind _ _) => apply bkeeps_bind; [|intros ?]
  | |- bkeeps _ (for_each _ _) => apply bkeeps_for_each; intros ?
  | |- bkeeps _ (write_block _ _) => apply bkeeps_write, counters_stable
  | |- bkeeps _ (let '(_, _) := ?p in _) => destruct p
  | |- bkeeps _ (if ?c then _ else _) => destruct c
  | |- bkeeps _ (match ?o with Some _ => _ | None => _ end) => destruct o
  | |- bkeeps _ _ => by auto 2 with ext2
  end.
Ltac keep := unfold fs_inv in *; repeat keep1; fold fs_inv.

Lemma bkeeps_read_end b : bkeeps fs_inv (read_block b).
Proof.
  intros s r s' [Hc Hco] E Hr. destruct (read_block_spec _ _ _ _ Hc E Hr) as (? & ? & _).
  split; [done|by eapply counters_meta].
Qed.

Lemma bkeeps_inode_location ino : bkeeps fs_inv (inode_location ino).
Proof.
  unfold inode_location. keep. intros s r s' Hi E _. by destruct (bgd_get_spec _ _ _ _ E) as [-> _].
Qed.
Hint Resolve bkeeps_inode_location : ext2.

Lemma bkeeps_read_inode ino : bkeeps fs_inv (read_inode ino).
Proof. unfold read_inode. keep. Qed.
Lemma bkeeps_write_inode ino raw : bkeeps fs_inv (write_inode ino raw).
Proof. unfold write_inode. keep. Qed.
Lemma bkeeps_resolve_block raw fb : bkeeps fs_inv (resolve_block raw fb).
Proof. unfold resolve_block, ptrs_per_block. keep. Qed.
Lemma bkeeps_new_block : bkeeps fs_inv new_block.
Proof. unfold new_block, zero_block. keep. Qed.
Lemma bkeeps_charge raw : bkeeps fs_inv (charge_block raw).
Proof. unfold charge_block. keep. Qed.
Hint Resolve bkeeps_read_inode bkeeps_write_inode bkeeps_resolve_block bkeeps_new_block bkeeps_charge : ext2.

Lemma bkeeps_ensure_inode_ptr raw n : bkeeps fs_inv (ensure_inode_ptr raw n).
Proof. unfold ensure_inode_ptr. keep. Qed.
Lemma bkeeps_ensure_block_ptr raw b i : bkeeps fs_inv (ensure_block_ptr raw b i).
Proof. unfold ensure_block_ptr. keep. Qed.
Hint Resolve bkeeps_ensure_inode_ptr bkeeps_ensure_block_ptr : ext2.
Lemma bkeeps_allocate raw fb : bkeeps fs_inv (allocate_block_for raw fb).
Proof. unfold allocate_block_for, ptrs_per_block. keep. Qed.
Lemma bkeeps_free_pointers k ppb : bkeeps fs_inv (free_pointers k ppb).
Proof. unfold free_pointers. keep. Qed.
Lemma bkeeps_free_direct ns raw : bkeeps fs_inv (free_direct ns raw).
Proof. revert raw. induction ns as [|n ns IH]; intros raw; cbn [free_direct]; keep. Qed.
Hint Resolve bkeeps_allocate bkeeps_free_pointers bkeeps_free_direct : ext2.
Lemma bkeeps_free_all raw : bkeeps fs_inv (free_all_blocks raw).
Proof. unfold free_all_blocks, ptrs_per_block. keep. Qed.
Hint Resolve bkeeps_free_all : ext2.

Lemma bkeeps_read_loop fuel raw cur fin out : bkeeps fs_inv (read_loop fuel raw cur fin out).
Proof. revert cur out. induction fuel as [|fuel IH]; intros cur out; cbn [read_loop]; keep. Qed.
Lemma bkeeps_write_loop fuel raw cur fin data di : bkeeps fs_inv (write_loop fuel raw cur fin data di).
Proof. revert raw cur di. induction fuel as [|fuel IH]; intros raw cur di; cbn [write_loop]; keep. Qed.
Lemma bkeeps_drop_block raw fb : bkeeps fs_inv (drop_block raw fb).
Proof. unfold drop_block, ptrs_per_block. keep. Qed.
Hint Resolve bkeeps_read_loop bkeeps_write_loop bkeeps_drop_block : ext2.
Lemma bkeeps_drop_blocks fbs raw : bkeeps fs_inv (drop_blocks fbs raw).
Proof. revert raw. induction fbs as [|fb fbs IH]; intros raw; cbn [drop_blocks]; keep. Qed.
Hint Resolve bkeeps_drop_blocks : ext2.
Lemma bkeeps_read_file_data ino off n : bkeeps fs_inv (read_file_data ino off n).
Proof. unfold read_file_data. keep. Qed.
Lemma bkeeps_write_file_data ino off data : bkeeps fs_inv (write_file_data ino off data).
Proof. unfold write_file_data. keep. Qed.
Lemma bkeeps_truncate_file ino size : bkeeps fs_inv (truncate_file ino size).
Proof. unfold truncate_file. keep. Qed.
Hint Resolve bkeeps_read_file_data bkeeps_write_file_data bkeeps_truncate_file : ext2.

(** *** Directories *)

Lemma unpack_dirent_hard b off e : unpack_dirent b off = Err e -> ~ benign e.
Proof.
  unfold unpack_dirent. case_match; [intros [= <-]; apply not_benign_cases|].
  repeat match goal with
  | |- rbind (unpack_le ?n ?b ?o) _ = _ -> _ =>
      destruct (unpack_le n b o) eqn:?; simpl; [|intros [= <-]; by eapply unpack_hard]
  end. done.
Qed.
Lemma hard_dirent off : hard (fun b => (unpack_dirent b off, b)).
Proof. apply hard_result. intros b e. apply unpack_dirent_hard. Qed.
Lemma hard_pack_dirent off a b c d : hard (pack_dirent off a b c d).
Proof.
  intros x e x'. unfold pack_dirent.
  destruct (pack_into_le 4 x off a) as [x1|] eqn:E1; simpl; [|intros [= <- <-]; by eapply pack_into_hard].
  destruct (pack_into_le 2 x1 (off + 4) b) as [x2|] eqn:E2; simpl; [|intros [= <- <-]; by eapply pack_into_hard].
  destruct (pack_into_le 1 x2 (off + 6) c) as [x3|] eqn:E3; simpl; [|intros [= <- <-]; by eapply pack_into_hard].
  destruct (pack_into_le 1 x3 (off + 7) d) as [x4|] eqn:E4; [done|intros [= <- <-]; by eapply pack_into_hard].
Qed.
Hint Resolve hard_dirent hard_pack_dirent : ext2.

Lemma hard_add_scan fuel bs off need c ft nm : hard (add_scan fuel bs off need c ft nm).
Proof.
  revert off. induction fuel as [|fuel IH]; intros off; cbn [add_scan].
  - case_match; [apply hard_raise, not_benign_cases|auto with ext2].
  - case_match; [|auto with ext2]. apply hard_bind; [auto with ext2|]. intros [[[ino rl] nl] fty].
    repeat case_match; auto 8 with ext2.
Qed.
Lemma hard_remove_scan fuel bs prev off nm : hard (remove_scan fuel bs prev off nm).
Proof.
  revert prev off. induction fuel as [|fuel IH]; intros prev off; cbn [remove_scan].
  - case_match; [apply hard_raise, not_benign_cases|auto with ext2].
  - case_match; [|auto with ext2]. apply hard_bind; [auto with ext2|]. intros [[[ino rl] nl] fty].
    case_match; [auto with ext2|]. apply hard_bind; [auto with ext2|]. intros nm'.
    case_match; [|auto with ext2]. apply hard_bind; [|auto with ext2].
    case_match; [|auto with ext2]. apply hard_bind; [auto with ext2|]. intros [[[? ?] ?] ?]. auto with ext2.
Qed.
Hint Resolve hard_add_scan hard_remove_scan : ext2.

(** A scan that finds nothing leaves the block as it was. *)
Lemma add_scan_false fuel bs off need c ft nm x x' :
  add_scan fuel bs off need c ft nm x = (Ok false, x') -> x' = x.
Proof.
  revert off. induction fuel as [|fuel IH]; intros off; cbn [add_scan].
  - case_match; intros E; unfold ret, raise in E; by simplify_eq.
  - case_match; [|intros E; unfold ret in E; by simplify_eq].
    unfold bind at 1. destruct (unpack_dirent x off) as [[[[ino rl] nl] fty]|e]; [|done].
    destruct (rl =? 0); [intros E; unfold ret in E; by simplify_eq|]. destruct (need <=? _); [|apply IH].
    intros E. repeat (apply bind_Ok in E as (? & ? & _ & E)). unfold ret in E. by simplify_eq.
Qed.
Lemma remove_scan_None fuel bs prev off nm x x' :
  remove_scan fuel bs prev off nm x = (Ok None, x') -> x' = x.
Proof.
  revert prev off. induction fuel as [|fuel IH]; intros prev off; cbn [remove_scan].
  - case_match; intros E; unfold ret, raise in E; by simplify_eq.
  - case_match; [|intros E; unfold ret in E; by simplify_eq].
    unfold bind at 1. destruct (unpack_dirent x off) as [[[[ino rl] nl] fty]|e]; [|done].
    destruct (rl =? 0); [intros E; unfold ret in E; by simplify_eq|]. unfold bind at 1, b_slice.
    destruct (_ && _); [|apply IH].
    intros E. apply bind_Ok in E as (? & ? & _ & E). unfold ret in E. by simplify_eq.
Qed.

Lemma bkeeps_dir_blocks fbs raw : bkeeps fs_inv (dir_blocks_entries fbs raw).
Proof. induction fbs as [|fb fbs IH]; cbn [dir_blocks_entries]; keep. Qed.
Hint Resolve bkeeps_dir_blocks : ext2.
Lemma bkeeps_read_dir_entries ino : bkeeps fs_inv (read_dir_entries ino).
Proof. unfold read_dir_entries. keep. Qed.
Lemma bkeeps_add_in_blocks fbs raw need c ft nm : bkeeps fs_inv (add_in_blocks fbs raw need c ft nm).
Proof.
  induction fbs as [|fb fbs IH]; cbn [add_in_blocks]; [apply bkeeps_ret|].
  apply bkeeps_bind; [auto with ext2|intros bs]. apply bkeeps_bind; [auto with ext2|intros phys].
  case_match; [done|]. apply bkeeps_read; [apply counters_stable|]. intros k Hk.
  apply (bkeeps_mut _ counters_stable phys); [done|auto with ext2|].
  intros [|]; [left; apply brestores_write; auto using counters_stable, bkeeps_ret|right].
  split; [apply add_scan_false|done].
Qed.
Lemma bkeeps_remove_in_blocks fbs raw nm : bkeeps fs_inv (remove_in_blocks fbs raw nm).
Proof.
  induction fbs as [|fb fbs IH]; cbn [remove_in_blocks]; [apply bkeeps_raise|].
  apply bkeeps_bind; [auto with ext2|intros bs]. apply bkeeps_bind; [auto with ext2|intros phys].
  case_match; [done|]. apply bkeeps_read; [apply counters_stable|]. intros k Hk.
  apply (bkeeps_mut _ counters_stable phys); [done|auto with ext2|].
  intros [e|]; [left; apply brestores_write; auto using counters_stable, bkeeps_ret|right].
  split; [apply remove_scan_None|done].
Qed.
Hint Resolve bkeeps_read_dir_entries bkeeps_add_in_blocks bkeeps_remove_in_blocks : ext2.
Lemma bkeeps_add_dir_entry d nm c ft : bkeeps fs_inv (add_dir_entry d nm c ft).
Proof. unfold add_dir_entry. keep. Qed.
Lemma bkeeps_remove_dir_entry d nm : bkeeps fs_inv (remove_dir_entry d nm).
Proof. unfold remove_dir_entry. keep. Qed.
Lemma bkeeps_check_dir ino : bkeeps fs_inv (check_dir ino).
Proof. unfold check_dir. keep. Qed.
Lemma bkeeps_update_links ino f : bkeeps fs_inv (update_links ino f).
Proof. unfold update_links. keep. Qed.
Lemma bkeeps_dir_is_empty ino : bkeeps fs_inv (dir_is_empty ino).
Proof. unfold dir_is_empty. keep. Qed.
Hint Resolve bkeeps_add_dir_entry bkeeps_remove_dir_entry bkeeps_check_dir bkeeps_update_links bkeeps_dir_is_empty : ext2.
Lemma bkeeps_release ino raw wd : bkeeps fs_inv (release_inode ino raw wd).
Proof. unfold release_inode. keep. Qed.
Hint Resolve bkeeps_release : ext2.

Lemma bkeeps_create ino nm t : bkeeps fs_inv (ext2_create ino nm t).
Proof. unfold ext2_create. keep. Qed.
Lemma bkeeps_unlink ino nm : bkeeps fs_inv (ext2_unlink ino nm).
Proof. unfold ext2_unlink. keep. Qed.
Lemma bkeeps_reads ino off n nm :
  bkeeps fs_inv (ext2_stat ino) /\ bkeeps fs_inv (ext2_read ino off n) /\
  bkeeps fs_inv (ext2_readdir ino) /\ bkeeps fs_inv (ext2_lookup ino nm).
Proof. unfold ext2_stat, ext2_read, ext2_readdir, ext2_lookup. split_and!; keep. Qed.
Lemma bkeeps_writes ino off data size :
  bkeeps fs_inv (ext2_write ino off data) /\ bkeeps fs_inv (ext2_truncate ino size).
Proof. unfold ext2_write, ext2_truncate. split; keep. Qed.

(** *** Mounting *)

Lemma read_bgdt_loop_meta Q fuel b total cur ex : stable Q -> bkeeps (meta_inv Q) (read_bgdt_loop fuel b total cur ex).
Proof.
  intros HQ. revert cur ex. induction fuel as [|fuel IH]; intros cur ex; cbn [read_bgdt_loop]; [apply bkeeps_raise|].
  case_match; [apply bkeeps_ret|]. apply bkeeps_bind; [apply bkeeps_gets|]. intros bs.
  apply bkeeps_read; [done|]. intros k _. apply bkeeps_bind; [by apply bkeeps_buf|]. intros x. apply IH.
Qed.

Lemma mount_cached d s : dev_wf d -> mount_ext2 d = (Ok tt, s) -> cached None s.
Proof.
  intros Hw. unfold mount_ext2. intros E. apply bind_Ok in E as ([] & s1 & E1 & E2).
  assert (Hc1 : cached None s1).
  { unfold read_superblock in E1. apply bind_Ok in E1 as (b0 & s2 & Er0 & E1).
    apply bind_Ok in E1 as (b1 & s3 & Er1 & E1).
    assert (Hdev : forall l s r s', dev (read_sector l) s = (Ok r, s') -> dev_wf (e_dev s) ->
              exists d', s' = set_dev d' s /\ dev_wf d').
    { intros l q r q'. unfold dev, zoom. destruct (read_sector l (e_dev q)) as [x d'] eqn:Ex.
      intros [= -> <-] Hwq. apply read_sector_law in Ex; [|done]. exists d'. split; [done|]. apply Ex. }
    destruct (Hdev _ _ _ _ Er0 Hw) as (d1 & -> & Hw1).
    destruct (Hdev _ _ _ _ Er1 Hw1) as (d2 & -> & Hw2).
    apply bind_Ok in E1 as (sb & s4 & Esb & E1). unfold lift in Esb. injection Esb as _ <-.
    unfold bind, modify in E1. repeat (case_match; [done|]). injection E1 as <-.
    match goal with Hb : _ || _ = false |- _ => rename Hb into Hbs end.
    apply orb_false_iff in Hbs as [Hge Hmod]. rewrite negb_false_iff in Hmod. unfold SECTOR_SIZE in *.
    apply Z.ltb_ge in Hge. apply Z.eqb_eq in Hmod.
    split; simpl.
    - done.
    - pose proof (Z.div_mod (sb_block_size sb) 512 ltac:(lia)). unfold SECTOR_SIZE. lia.
    - apply Z.div_str_pos. lia.
    - intros b r. by rewrite lookup_empty.
    - intros r [x Hx]. by rewrite lookup_empty in Hx.
    - intros b r. by rewrite lookup_empty.
    - intros b [x Hx]. by rewrite lookup_empty in Hx. }
  assert (Hk : bkeeps (meta_inv (fun _ => True)) read_bgdt); [|by destruct (Hk s1 (Ok tt) s (conj Hc1 I) E2 I)].
  assert (HQ : stable (fun _ => True)) by done.
  unfold read_bgdt. do 3 (apply bkeeps_bind; [auto with ext2|intros ?]). apply bkeeps_read; [done|]. intros k _.
  apply bkeeps_bind; [by apply read_bgdt_loop_meta|]. intros ex. apply bkeeps_bind; [by apply bkeeps_buf|]. intros x.
  intros s0 r s0' [Hc _] [= <- <-] _. split; [|done]. destruct Hc. by split.
Qed.

(** ** Runs of the driver *)

(** A public operation that returns, or raises an error of its path. *)
Inductive ext2_step : fs -> fs -> Prop :=
| es_stat ino s r s' : ext2_stat ino s = (r, s') -> ends_well r -> ext2_step s s'
| es_read ino off n s r s' : ext2_read ino off n s = (r, s') -> ends_well r -> ext2_step s s'
| es_write ino off data s r s' : ext2_write ino off data s = (r, s') -> ends_well r -> ext2_step s s'
| es_truncate ino size s r s' : ext2_truncate ino size s = (r, s') -> ends_well r -> ext2_step s s'
| es_readdir ino s r s' : ext2_readdir ino s = (r, s') -> ends_well r -> ext2_step s s'
| es_lookup ino name s r s' : ext2_lookup ino name s = (r, s') -> ends_well r -> ext2_step s s'
| es_create ino name t s r s' : ext2_create ino name t s = (r, s') -> ends_well r -> ext2_step s s'
| es_unlink ino name s r s' : ext2_unlink ino name s = (r, s') -> ends_well r -> ext2_step s s'.

Lemma fs_inv_step s s' : fs_inv s -> ext2_step s s' -> fs_inv s'.
Proof.
  intros Hi Hs. destruct Hs as [ino s r s' E Hr|ino off n s r s' E Hr|ino off data s r s' E Hr|ino size s r s' E Hr
    |ino s r s' E Hr|ino nm s r s' E Hr|ino nm t s r s' E Hr|ino nm s r s' E Hr]; revert E Hr; generalize Hi.
  - apply (bkeeps_reads ino 0 0 []).
  - apply (bkeeps_reads ino off n []).
  - apply (bkeeps_writes ino off data 0).
  - apply (bkeeps_writes ino 0 [] size).
  - apply (bkeeps_reads ino 0 0 []).
  - apply (bkeeps_reads ino 0 0 nm).
  - apply bkeeps_create.
  - apply bkeeps_unlink.
Qed.

(** C2: mounted on a device whose free counts agree, the driver keeps two
    promises through any sequence of its operations, errors of the path
    included: the cache is write-through, so that every cached block (but one
    holding the superblock, which is written past the cache) is what the
    device holds, and the free-block and free-inode counts of the superblock
    are the sums of those of the group descriptors. *)
Theorem ext2_write_through d s s' :
  dev_wf d -> mount_ext2 d = (Ok tt, s) -> counters s -> steps ext2_step s s' ->
  (forall b k, e_block_cache s' !! b = Some k -> ~ holds_sb (e_sectors_per_block s') b ->
     e_bufs s' !! k = Some (disk_block (e_sectors_per_block s') (e_dev s') b)) /\
  free_blocks_count (e_sb s') = sum (map group_fb (e_bgdt s')) /\
  free_inodes_count (e_sb s') = sum (map group_fi (e_bgdt s')).
Proof.
  intros Hd Hm Hco Hs.
  assert (fs_inv s') as [Hc [Hb Hi]].
  { eapply (steps_invariant ext2_step fs_inv fs_inv_step); [|exact Hs]. split; [by eapply mount_cached|done]. }
  split_and!; [|done..]. intros b k Hk Hsb. by apply (ca_data _ _ Hc).
Qed.
End inv.
