(* ===== verification/Ext2Props.v ===== *)
(** * Properties of the ext2 driver's parts

    Bitmap allocation, inode storage, and directory blocks. *)

From Stdlib Require Import ZArith Lia.
From stdpp Require Import base list gmap numbers strings.
From S2P Require Import Prelude Bytes Pystr Vfs Tmpfs Ext2 Ext2Inv.

Local Open Scope Z_scope.

(** ** Bitmaps *)

(** Bit [i] of a bitmap. *)
Definition bit (bm : bytes) (i : Z) : bool :=
  match bm !! Z.to_nat (i / 8) with Some b => Z.testbit b (i mod 8) | None => false end.

Lemma land_shift_testbit b i : 0 <= i -> (Z.land b (Z.shiftl 1 i) =? 0) = negb (Z.testbit b i).
Proof.
  intros Hi. destruct (Z.testbit b i) eqn:E; simpl.
  - apply Z.eqb_neq. intros H0. apply (f_equal (fun z => Z.testbit z i)) in H0.
    rewrite Z.land_spec, E, Z.shiftl_spec, Z.sub_diag, Z.bits_0 in H0 by done. done.
  - apply Z.eqb_eq. apply Z.bits_inj'. intros n Hn. rewrite Z.land_spec, Z.shiftl_spec, Z.bits_0 by done.
    destruct (Z.eq_dec n i) as [->|Hne]; [by rewrite E|].
    replace (Z.testbit 1 (n - i)) with false; [apply andb_false_r|].
    destruct (Z.lt_ge_cases (n - i) 0); [by rewrite Z.testbit_neg_r|].
    change 1 with (2 ^ 0). by rewrite Z.pow2_bits_false by lia.
Qed.

Lemma testbit_shift1 i n : 0 <= i -> 0 <= n -> Z.testbit (Z.shiftl 1 i) n = (n =? i).
Proof.
  intros Hi Hn. rewrite Z.shiftl_spec by done. destruct (Z.eqb_spec n i) as [->|Hne]; [by rewrite Z.sub_diag|].
  destruct (Z.lt_ge_cases (n - i) 0); [by rewrite Z.testbit_neg_r|].
  change 1 with (2 ^ 0). by rewrite Z.pow2_bits_false by lia.
Qed.

Lemma find_bit_spec byte i count a : 0 <= a <= 8 ->
  (forall j, 0 <= j < a -> Z.testbit byte j = true) ->
  match find_bit byte i count (range2 a 8) with
  | Some b => a <= b < 8 /\ i * 8 + b < count /\ Z.testbit byte b = false /\
              forall j, 0 <= j < b -> Z.testbit byte j = true
  | None => forall j, 0 <= j < 8 -> i * 8 + j < count -> Z.testbit byte j = true
  end.
Proof.
  intros Ha. remember (Z.to_nat (8 - a)) as n eqn:Hn. revert a Ha Hn. induction n as [|n IH]; intros a Ha Hn Hlow.
  - rewrite range2_nil by lia. simpl. intros j Hj _. apply Hlow. lia.
  - rewrite range2_cons by lia. cbn [find_bit]. destruct (Z.leb_spec count (i * 8 + a)) as [Hc|Hc].
    + intros j Hj Hjc. apply Hlow. lia.
    + rewrite land_shift_testbit by lia. destruct (Z.testbit byte a) eqn:Eb; simpl; [|split_and!; lia || done].
      specialize (IH (a + 1) ltac:(lia) ltac:(lia)).
      assert (Hlow' : forall j, 0 <= j < a + 1 -> Z.testbit byte j = true).
      { intros j Hj. destruct (Z.eq_dec j a) as [->|]; [done|]. apply Hlow. lia. }
      specialize (IH Hlow'). destruct (find_bit _ _ _ _); [|done]. destruct IH as ([??] & ?). split; [lia|done].
Qed.

Lemma byte_bits_above byte j : byte_ok byte -> 8 <= j -> Z.testbit byte j = false.
Proof.
  intros [H0 H1] Hj. destruct (Z.eq_dec byte 0) as [->|]; [apply Z.bits_0|].
  apply Z.bits_above_log2; [done|]. apply Z.log2_lt_pow2; [lia|].
  apply Z.lt_le_trans with (2 ^ 8); [lia|]. apply Z.pow_le_mono_r; lia.
Qed.

Lemma bit_at bm i j byte : 0 <= i -> 0 <= j < 8 -> bm !! Z.to_nat i = Some byte -> bit bm (i * 8 + j) = Z.testbit byte j.
Proof.
  intros Hi Hj E. unfold bit. replace ((i * 8 + j) / 8) with i by (apply Z.div_unique with j; lia).
  rewrite E. f_equal. symmetry. apply Z.mod_unique with i; lia.
Qed.

(** Setting one bit of a bitmap. *)
Lemma bit_insert bm i byte v k :
  0 <= i -> bm !! Z.to_nat i = Some byte -> 0 <= k ->
  bit (<[Z.to_nat i := v]> bm) k = if k / 8 =? i then Z.testbit v (k mod 8) else bit bm k.
Proof.
  intros Hi E Hk. unfold bit. pose proof (Z.div_pos k 8 Hk ltac:(lia)). destruct (Z.eqb_spec (k / 8) i) as [->|Hne].
  - rewrite list_lookup_insert_eq; [done|]. by eapply lookup_lt_Some.
  - by rewrite list_lookup_insert_ne by lia.
Qed.

Lemma find_and_set_spec count bm a :
  0 <= a -> a <= (count + 7) / 8 -> 0 <= count -> (count + 7) / 8 <= len bm ->
  (forall j, 0 <= j < a * 8 -> bit bm j = true) ->
  exists r bm', find_and_set count (range2 a ((count + 7) / 8)) bm = (Ok r, bm') /\
  match r with
  | Some idx => 0 <= idx < count /\ bit bm idx = false /\ (forall j, 0 <= j < idx -> bit bm j = true) /\
                len bm' = len bm /\ forall j, 0 <= j -> bit bm' j = (j =? idx) || bit bm j
  | None => bm' = bm /\ forall j, 0 <= j < count -> bit bm j = true
  end.
Proof.
  set (n := (count + 7) / 8). intros Ha Han Hc Hlen.
  assert (Hcn : count <= n * 8).
  { unfold n. pose proof (Z.mod_pos_bound (count + 7) 8 ltac:(lia)).
    pose proof (Z.div_mod (count + 7) 8 ltac:(lia)). lia. }
  remember (Z.to_nat (n - a)) as m eqn:Hm. revert a Ha Han Hm. induction m as [|m IH]; intros a Ha Han Hm Hlow.
  { rewrite range2_nil by lia. exists None, bm. split; [done|]. split; [done|]. intros j Hj. apply Hlow.
    lia. }
  rewrite range2_cons by lia. cbn [find_and_set]. unfold bind at 1, b_get.
  destruct (index_total bm a ltac:(lia)) as [byte Hb]. rewrite Hb. apply index_Ok in Hb; [|done].
  assert (Hnext : (forall j, 0 <= j < 8 -> a * 8 + j < count -> Z.testbit byte j = true) ->
            forall j, 0 <= j < (a + 1) * 8 -> j < count -> bit bm j = true).
  { intros Hall j Hj Hjc. destruct (Z.lt_ge_cases j (a * 8)); [apply Hlow; lia|].
    replace j with (a * 8 + (j - a * 8)) by lia. rewrite (bit_at _ _ _ byte) by (done || lia). apply Hall; lia. }
  assert (Hgo : (forall j, 0 <= j < 8 -> a * 8 + j < count -> Z.testbit byte j = true) ->
    exists r bm', find_and_set count (range2 (a + 1) n) bm = (Ok r, bm') /\
      match r with
      | Some idx => 0 <= idx < count /\ bit bm idx = false /\ (forall j, 0 <= j < idx -> bit bm j = true) /\
                    len bm' = len bm /\ forall j, 0 <= j -> bit bm' j = (j =? idx) || bit bm j
      | None => bm' = bm /\ forall j, 0 <= j < count -> bit bm j = true
      end).
  { intros Hall. destruct (Z.le_gt_cases ((a + 1) * 8) count) as [Hle|Hgt].
    - apply IH; [lia..|]. intros j Hj. apply Hnext; [done|lia..].
    - assert (n <= a + 1). { apply Z.lt_succ_r. unfold n. apply Z.div_lt_upper_bound; lia. }
      rewrite range2_nil by lia. exists None, bm. split; [done|]. split; [done|].
      intros j Hj. apply Hnext; [done|lia..]. }
  destruct (Z.eqb_spec byte 255) as [->|Hne].
  { apply Hgo. intros j Hj _. change 255 with (Z.ones 8). apply Z.ones_spec_low. lia. }
  pose proof (find_bit_spec byte a count 0 ltac:(lia) ltac:(lia)) as Hf. change (range 8) with (range2 0 8).
  destruct (find_bit byte a count (range2 0 8)) as [b|]; [|by apply Hgo].
  destruct Hf as (Hb8 & Hbc & Hfree & Hset). clear Hgo Hnext.
  unfold bind, b_set, ret. rewrite set_index_Ok by lia. eexists _, _. split; [done|]. split_and!; [lia..| | | |].
  - by rewrite (bit_at _ _ _ byte) by (done || lia).
  - intros j Hj. destruct (Z.lt_ge_cases j (a * 8)); [apply Hlow; lia|].
    replace j with (a * 8 + (j - a * 8)) by lia. rewrite (bit_at _ _ _ byte) by (done || lia). apply Hset. lia.
  - unfold len. by rewrite length_insert.
  - intros j Hj. rewrite (bit_insert _ _ byte) by (done || lia).
    destruct (Z.eqb_spec (j / 8) a) as [Hja|Hja].
    + pose proof (Z.mod_pos_bound j 8 ltac:(lia)). pose proof (Z.div_mod j 8 ltac:(lia)).
      rewrite Z.lor_spec, testbit_shift1 by lia. rewrite orb_comm.
      replace (j =? a * 8 + b) with (j mod 8 =? b) by lia. f_equal.
      replace j with (a * 8 + j mod 8) at 2 by lia. symmetry. apply bit_at; [done|lia|done].
    + replace (j =? a * 8 + b) with false; [done|]. symmetry. apply Z.eqb_neq. intros ->. apply Hja.
      symmetry. apply Z.div_unique with b; lia.
Qed.

(** Bitmaps with the same bits are the same. *)
Lemma bitmap_ext bm bm' : bytes_ok bm -> bytes_ok bm' -> len bm' = len bm ->
  (forall j, 0 <= j -> bit bm' j = bit bm j) -> bm' = bm.
Proof.
  intros Hok Hok' Hl Hb. apply list_eq. intros i.
  destruct (bm !! i) as [x|] eqn:Ex; destruct (bm' !! i) as [y|] eqn:Ey.
  2:{ apply lookup_ge_None in Ey. apply lookup_lt_Some in Ex. unfold len in Hl. lia. }
  2:{ apply lookup_ge_None in Ex. apply lookup_lt_Some in Ey. unfold len in Hl. lia. }
  2:{ done. }
  f_equal. assert (byte_ok x) by (by apply (Forall_lookup_1 _ _ _ _ Hok Ex)).
  assert (byte_ok y) by (by apply (Forall_lookup_1 _ _ _ _ Hok' Ey)).
  apply Z.bits_inj'. intros j Hj. destruct (Z.lt_ge_cases j 8) as [Hlt|Hge].
  - specialize (Hb (Z.of_nat i * 8 + j) ltac:(lia)).
    rewrite (bit_at bm' (Z.of_nat i) j y), (bit_at bm (Z.of_nat i) j x) in Hb by (rewrite ?Nat2Z.id; done || lia).
    done.
  - by rewrite !byte_bits_above.
Qed.

Lemma lor_shift_byte_ok byte b : byte_ok byte -> 0 <= b < 8 -> byte_ok (Z.lor byte (Z.shiftl 1 b)).
Proof.
  intros [H0 H1] Hb. unfold byte_ok. rewrite Z.shiftl_1_l. split; [apply Z.lor_nonneg; lia|].
  assert (2 ^ b < 2 ^ 8) by (apply Z.pow_lt_mono_r; lia).
  destruct (Z.eq_dec (Z.lor byte (2 ^ b)) 0) as [->|]; [lia|].
  change 256 with (2 ^ 8). apply Z.log2_lt_pow2; [pose proof (Z.lor_nonneg byte (2 ^ b)); lia|].
  rewrite Z.log2_lor by lia. rewrite Z.log2_pow2 by lia.
  destruct (Z.eq_dec byte 0) as [->|]; [simpl; lia|].
  assert (Z.log2 byte < 8) by (apply Z.log2_lt_pow2; lia). lia.
Qed.

Lemma find_and_set_ok count l bm : bytes_ok bm -> bytes_ok (snd (find_and_set count l bm)).
Proof.
  intros Hok. induction l as [|i l IH]; [done|]. cbn [find_and_set]. unfold bind at 1, b_get.
  destruct (index bm i) as [byte|e] eqn:Ei; [|done]. destruct (byte =? 255); [done|].
  destruct (find_bit byte i count (range 8)) as [b|] eqn:Eb; [|done].
  assert (Hb : 0 <= b < 8).
  { revert Eb. unfold range, range2. simpl. repeat case_match; intros; simplify_eq; lia. }
  unfold bind, b_set, ret. destruct (set_index bm i _) as [bm'|] eqn:Es; [|done]. simpl.
  unfold index, set_index in *. set (j := if i <? 0 then i + len bm else i) in *.
  destruct (j <? 0); [done|]. destruct (bm !! Z.to_nat j) as [x|] eqn:Ex; [|done]. injection Ei as ->.
  simpl in Es. destruct (len bm <=? j); [done|]. injection Es as <-.
  apply list.Forall_insert; [done|]. apply lor_shift_byte_ok; [|done].
  by apply (Forall_lookup_1 _ _ _ _ Hok Ex).
Qed.

(** Clearing the bit that was set. *)
Lemma clear_set_bit bm bm' idx :
  bytes_ok bm -> 0 <= idx -> bit bm idx = false -> len bm' = len bm ->
  (forall j, 0 <= j -> bit bm' j = (j =? idx) || bit bm j) -> bytes_ok bm' ->
  clear_bit idx bm' = (Ok true, bm).
Proof.
  intros Hok Hi Hfree Hl Hb Hok'.
  pose proof (Z.mod_pos_bound idx 8 ltac:(lia)) as Hm. pose proof (Z.div_mod idx 8 ltac:(lia)) as Hd.
  pose proof (Z.div_pos idx 8 Hi ltac:(lia)) as Hq.
  assert (Hset : bit bm' idx = true) by (rewrite Hb by done; by rewrite Z.eqb_refl).
  unfold bit in Hset. destruct (bm' !! Z.to_nat (idx / 8)) as [byte|] eqn:Ex; [|done].
  unfold clear_bit, bind, b_get. rewrite (proj2 (index_Ok bm' (idx / 8) byte Hq) Ex).
  rewrite land_shift_testbit, Hset by lia. simpl. unfold b_set.
  assert (Hlt : idx / 8 < len bm'). { apply lookup_lt_Some in Ex. unfold len. lia. }
  rewrite set_index_Ok by lia. unfold ret. f_equal.
  assert (Hbyte : byte_ok byte) by (by apply (Forall_lookup_1 _ _ _ _ Hok' Ex)).
  apply bitmap_ext; [done| | |].
  - apply list.Forall_insert; [done|]. unfold byte_ok. rewrite Z.land_assoc. change 255 with (Z.ones 8).
    rewrite Z.land_ones by lia. apply Z.mod_pos_bound. lia.
  - unfold len in *. rewrite length_insert. lia.
  - intros j Hj. rewrite (bit_insert _ _ byte) by done. pose proof (Z.mod_pos_bound j 8 ltac:(lia)).
    pose proof (Z.div_mod j 8 ltac:(lia)). destruct (Z.eqb_spec (j / 8) (idx / 8)) as [Hj8|Hj8].
    + rewrite !Z.land_spec, Z.lnot_spec, testbit_shift1 by lia.
      change 255 with (Z.ones 8). rewrite Z.ones_spec_low, andb_true_r by lia.
      assert (Hbj : Z.testbit byte (j mod 8) = bit bm' j).
      { unfold bit. by rewrite Hj8, Ex. }
      rewrite Hbj, Hb by done. destruct (Z.eqb_spec (j mod 8) (idx mod 8)) as [Hm8|Hm8]; simpl.
      * replace j with idx by lia. by rewrite Hfree, andb_false_r.
      * rewrite andb_true_r. destruct (Z.eqb_spec j idx) as [->|]; [done|done].
    + rewrite Hb by done. destruct (Z.eqb_spec j idx) as [->|]; [done|done].
Qed.

(** Bitmap allocation is first-fit and exact: the scan returns the
    lowest clear bit below [count] and sets that bit and no other, and finds
    nothing exactly when every bit below [count] is set; clearing that bit
    again gives back the bitmap. *)
Theorem ext2_bitmap_first_fit count bm :
  0 <= count -> (count + 7) / 8 <= len bm -> bytes_ok bm ->
  exists r bm', find_and_set count (range ((count + 7) / 8)) bm = (Ok r, bm') /\
  match r with
  | Some idx => 0 <= idx < count /\ bit bm idx = false /\ (forall j, 0 <= j < idx -> bit bm j = true) /\
                (forall j, 0 <= j -> bit bm' j = (j =? idx) || bit bm j) /\
                clear_bit idx bm' = (Ok true, bm)
  | None => bm' = bm /\ forall j, 0 <= j < count -> bit bm j = true
  end.
Proof.
  intros Hc Hlen Hok.
  destruct (find_and_set_spec count bm 0) as (r & bm' & E & Hr); [lia| |lia|lia|lia|].
  { apply Z.div_pos; lia. }
  exists r, bm'. split; [exact E|]. destruct r as [idx|]; [|exact Hr].
  destruct Hr as (Hidx & Hfree & Hlow & Hl & Hbits). split_and!; [lia..|done|done|done|].
  apply clear_set_bit; [done|lia|done|done|done|].
  change bm' with (snd (Ok (Some idx), bm')). rewrite <- E. apply find_and_set_ok. exact Hok.
Qed.

(** ** Inodes *)

Section inodes.
Context {D : Type} `{DevLaws D}.
Abbreviation fs := (Ext2FS D).

Lemma inode_location_meta ino (s s' : fs) r : same_meta s s' ->
  inode_location ino s = (r, s) -> inode_location ino s' = (r, s').
Proof.
  intros (Hsb & Hbs & _ & Ht & _). unfold inode_location, bind, gets, lift. rewrite Hsb, Hbs.
  destruct (divmod _ _) as [[g local]|]; [|by intros [= <-]].
  unfold bgd_get, bind, gets, lift. rewrite Ht.
  destruct (index (e_bgdt s) g); [|by intros [= <-]]. destruct (bgd_parse _); by intros [= <-].
Qed.

Lemma inode_location_pure ino (s : fs) r s' : inode_location ino s = (r, s') -> s' = s.
Proof.
  unfold inode_location, bind, gets, lift. destruct (divmod _ _) as [[g local]|]; [|by intros [= _ <-]].
  destruct (bgd_get g s) as [q s1] eqn:E. destruct (bgd_get_spec _ _ _ _ E) as [-> _].
  destruct q; by intros [= _ <-].
Qed.

(** Offsets of inodes are multiples of their size, inside the block. *)
Lemma inode_offset ino (s : fs) blk off :
  0 < inode_size (e_sb s) -> 0 < e_block_size s -> e_block_size s mod inode_size (e_sb s) = 0 ->
  inode_location ino s = (Ok (blk, off), s) ->
  0 <= off /\ off mod inode_size (e_sb s) = 0 /\ off + inode_size (e_sb s) <= e_block_size s.
Proof.
  intros Hi Hb Hm. unfold inode_location, bind, gets, lift.
  destruct (divmod _ _) as [[g local]|]; [|done]. destruct (bgd_get g s) as [[d|] s1]; [|done].
  intros [= _ <- _]. set (i := inode_size (e_sb s)) in *. set (bs := e_block_size s) in *.
  pose proof (Z.mod_pos_bound (local * i) bs Hb) as Hr.
  assert (Hmod : (local * i) mod bs mod i = 0).
  { apply Z.mod_divide in Hm as [q Hq]; [|lia]. apply Z.mod_divide; [lia|].
    rewrite Z.mod_eq by lia. exists (local - q * (local * i / bs)). rewrite Hq. ring. }
  split_and!; [lia|done|].
  apply Z.mod_divide in Hm as [q Hq]; [|lia]. apply Z.mod_divide in Hmod as [p Hp]; [|lia].
  assert (p < q) by (apply (Zmult_lt_reg_r _ _ i); lia). rewrite Hp, Hq.
  apply Z.le_trans with ((p + 1) * i); [lia|]. apply Z.mul_le_mono_nonneg_r; lia.
Qed.

Lemma read_inode_data ino (s : fs) blk off raw s' :
  cached None s -> inode_location ino s = (Ok (blk, off), s) -> ~ holds_sb (e_sectors_per_block s) blk ->
  read_inode ino s = (Ok raw, s') ->
  raw = slice (disk_block (e_sectors_per_block s) (e_dev s) blk) off (off + inode_size (e_sb s)).
Proof.
  intros Hc Hloc Hsb. unfold read_inode. rewrite (bind_step _ _ _ _ _ Hloc). intros E.
  apply bind_Ok in E as (k & s1 & Er & E).
  destruct (read_block_spec _ _ _ _ Hc Er I) as (_ & Hm & _ & k' & Hk' & _ & _ & Hd). injection Hk' as <-.
  unfold bind, gets in E. unfold on_buf in E. rewrite (Hd Hsb) in E. simpl in E. injection E as <- _.
  by rewrite (proj1 Hm).
Qed.

(** The state after a successful [_write_inode]. *)
Lemma write_inode_data ino raw (s : fs) blk off s' :
  cached None s -> inode_location ino s = (Ok (blk, off), s) -> ~ holds_sb (e_sectors_per_block s) blk ->
  write_inode ino raw s = (Ok tt, s') ->
  cached None s' /\ same_meta s s' /\ len raw = inode_size (e_sb s) /\ is_Some (e_block_cache s' !! blk) /\
  len (disk_block (e_sectors_per_block s) (e_dev s) blk) = e_block_size s /\
  disk_block (e_sectors_per_block s) (e_dev s') blk =
    slice_assign (disk_block (e_sectors_per_block s) (e_dev s) blk) off (off + inode_size (e_sb s)) raw /\
  forall b, b <> blk ->
    disk_block (e_sectors_per_block s) (e_dev s') b = disk_block (e_sectors_per_block s) (e_dev s) b.
Proof.
  intros Hc Hloc Hsb. unfold write_inode. unfold bind at 1, gets at 1.
  destruct (Z.eqb_spec (len raw) (inode_size (e_sb s))) as [Hlen|]; simpl; [|done].
  rewrite (bind_step _ _ _ _ _ Hloc). intros E. apply bind_Ok in E as (k & s1 & Er & E).
  destruct (read_block_spec _ _ _ _ Hc Er I) as (Hc1 & Hm1 & Hs1 & k' & Hk' & Hk & Hcache & Hd). injection Hk' as <-.
  assert (Hdb : forall b, disk_block (e_sectors_per_block s) (e_dev s1) b = disk_block (e_sectors_per_block s) (e_dev s) b).
  { intros b. apply disk_block_ext. auto. }
  pose proof Hm1 as (_ & Hbs1 & Hspb1 & _).
  pose proof (ca_len _ _ Hc1 blk (mk_is_Some _ _ Hcache) ltac:(done)) as Hl1.
  rewrite Hspb1, Hbs1, Hdb in Hl1. specialize (Hl1 Hsb).
  apply bind_Ok in E as ([] & s2 & Eb & Ew).
  destruct (on_buf_spec _ _ _ _ _ Hc1 Eb) as (Hc2 & Hm2 & Hdev2 & _ & [[_ ?]|(b & b' & Hb & Ha & Hs2)]); [done|].
  rewrite (Hd Hsb) in Hb. injection Hb as <-. injection Ha as <-. rewrite Hk in Hc2.
  destruct (write_back_spec _ _ _ _ _ Hc2 Ew I) as (_ & data & Hdata & Hw).
  rewrite Hs2 in Hdata. simpl in Hdata. rewrite lookup_insert_eq in Hdata. injection Hdata as <-.
  pose proof Hm2 as (_ & _ & Hspb2 & _).
  destruct (write_block_spec _ _ _ _ _ Hc2 Hw I) as (_ & _ & Hc3 & Hm3 & Hd3 & Ho3 & kk & Hcc & _).
  rewrite Hspb2, Hspb1, Hdev2 in *.
  split_and!; [done| |done| |done|done|].
  - eapply same_meta_trans; [exact Hm1|]. by eapply same_meta_trans.
  - rewrite Hcc. by rewrite lookup_insert_eq.
  - intros b Hne. by rewrite Ho3, Hdb.
Qed.

(** C37: the inode table is a store.  After [_write_inode] of an inode its
    [_read_inode] returns the bytes written, and a read of any inode at
    another place of the table returns what it returned before. *)
Theorem ext2_inode_store ino raw (s : fs) blk off s' :
  cached None s -> 0 < inode_size (e_sb s) -> e_block_size s mod inode_size (e_sb s) = 0 ->
  inode_location ino s = (Ok (blk, off), s) -> ~ holds_sb (e_sectors_per_block s) blk ->
  write_inode ino raw s = (Ok tt, s') ->
  read_inode ino s' = (Ok raw, s') /\
  forall ino2 blk2 off2 raw2 raw2' t t',
    inode_location ino2 s = (Ok (blk2, off2), s) -> ~ holds_sb (e_sectors_per_block s) blk2 ->
    (blk2, off2) <> (blk, off) ->
    read_inode ino2 s = (Ok raw2, t) -> read_inode ino2 s' = (Ok raw2', t') -> raw2' = raw2.
Proof.
  intros Hc Hi Hm Hloc Hsb Hw.
  destruct (write_inode_data _ _ _ _ _ _ Hc Hloc Hsb Hw) as (Hc' & Hmeta & Hlen & [k Hk] & Hl & Hd & Ho).
  pose proof Hmeta as (Esb & Ebs & Espb & _).
  assert (Hbs : 0 < e_block_size s).
  { pose proof (ca_spb _ _ Hc). rewrite (ca_size _ _ Hc). unfold SECTOR_SIZE. lia. }
  destruct (inode_offset _ _ _ _ Hi Hbs Hm Hloc) as (Hoff & Hoffm & Hfit). split.
  - unfold read_inode. rewrite (bind_step _ _ _ _ _ (inode_location_meta _ _ _ _ Hmeta Hloc)).
    unfold read_block, bind, gets. rewrite Hk. unfold ret, on_buf.
    pose proof (ca_data _ _ Hc' _ _ Hk ltac:(done)) as Hbuf. rewrite Espb in Hbuf. rewrite (Hbuf Hsb). simpl.
    rewrite Hd, Esb, slice_slice_assign by lia. f_equal. rewrite insert_id; [by destruct s'|]. by rewrite (Hbuf Hsb), Hd.
  - intros ino2 blk2 off2 raw2 raw2' t t' Hloc2 Hsb2 Hne Hr Hr'.
    apply (read_inode_data _ _ _ _ _ _ Hc Hloc2 Hsb2) in Hr as ->.
    pose proof (inode_location_meta _ _ _ _ Hmeta Hloc2) as Hloc2'.
    eapply read_inode_data in Hr' as ->; [|done|done|by rewrite Espb].
    rewrite Espb, Esb. destruct (Z.eq_dec blk2 blk) as [->|Hb]; [|by rewrite Ho].
    destruct (inode_offset _ _ _ _ Hi Hbs Hm Hloc2) as (Hoff2 & Hoffm2 & Hfit2).
    rewrite Hd. apply slice_assign_other; try lia.
    assert (off2 <> off) by congruence.
    apply Z.mod_divide in Hoffm as [p ->]; [|lia]. apply Z.mod_divide in Hoffm2 as [q ->]; [|lia].
    set (i := inode_size (e_sb s)) in *. assert (p <> q) by congruence.
    destruct (Z.lt_ge_cases q p); [left|right].
    + pose proof (Z.mul_le_mono_nonneg_r (q + 1) p i). lia.
    + pose proof (Z.mul_le_mono_nonneg_r (p + 1) q i). lia.
Qed.
End inodes.
