(* ===== verification/Ext2Dir.v ===== *)
(** * Directory blocks of the ext2 driver

    A directory block is a chain of entries; [enc] is the layout of one.  The
    theorems say what [_read_dir_entries], [_add_dir_entry] and
    [_remove_dir_entry] do to one block of such a chain.  At the end, a small
    volume: sixteen blocks of 1024 bytes with an empty root directory, on which
    the theorems about the driver are applied. *)

From Stdlib Require Import ZArith Lia.
From stdpp Require Import base list gmap numbers strings.
From S2P Require Import Prelude Bytes Pystr Vfs Tmpfs Ext2 Ext2Inv Ext2Props.

Local Open Scope Z_scope.

(** ** Bytes in the middle of a buffer *)

Lemma unpack_mid n (a m c : bytes) off :
  off = len a -> length m = n -> unpack_le n (a ++ m ++ c) off = Ok (le_val m).
Proof.
  intros -> Hm. unfold unpack_le. rewrite !len_app. pose proof (len_nonneg a). pose proof (len_nonneg c).
  assert (Hlm : len m = Z.of_nat n) by (unfold len; lia).
  destruct (Z.ltb_spec (len a) 0); [lia|]. destruct (Z.ltb_spec (len a + (len m + len c)) (len a + Z.of_nat n)); [lia|].
  simpl. do 2 f_equal. unfold len. rewrite Nat2Z.id, drop_app_length, <- Hm. apply take_app_length.
Qed.

Lemma pack_mid n (a m c : bytes) off v :
  off = len a -> length m = n -> 0 <= v < 256 ^ Z.of_nat n ->
  pack_into_le n (a ++ m ++ c) off v = Ok (a ++ le_bytes n v ++ c).
Proof.
  intros -> Hm Hv. unfold pack_into_le. rewrite (proj2 (fits_spec n v) Hv), !len_app. simpl.
  pose proof (len_nonneg a). pose proof (len_nonneg c). assert (Hlm : len m = Z.of_nat n) by (unfold len; lia).
  destruct (Z.ltb_spec (len a) 0); [lia|]. destruct (Z.ltb_spec (len a + (len m + len c)) (len a + Z.of_nat n)); [lia|].
  simpl. unfold len. rewrite Nat2Z.id, take_app_length. do 3 f_equal.
  rewrite drop_app_ge by lia. rewrite drop_app_ge by lia.
  by replace (length a + n - length a - length m)%nat with 0%nat by lia.
Qed.

Lemma slice_mid {A} (a m c : list A) i j : i = len a -> j = len a + len m -> slice (a ++ m ++ c) i j = m.
Proof.
  intros -> ->. pose proof (len_nonneg a). pose proof (len_nonneg m). pose proof (len_nonneg c).
  rewrite slice_inside by (rewrite ?len_app; lia). unfold len. rewrite Nat2Z.id, drop_app_length.
  rewrite take_app_le by lia. apply take_ge. lia.
Qed.

Lemma assign_mid {A} (a m c v : list A) i j :
  i = len a -> j = len a + len m -> slice_assign (a ++ m ++ c) i j v = a ++ v ++ c.
Proof.
  intros -> ->. pose proof (len_nonneg a). pose proof (len_nonneg m). pose proof (len_nonneg c).
  rewrite slice_assign_inside by (rewrite ?len_app; lia). unfold len. rewrite Nat2Z.id, take_app_length.
  do 2 f_equal. rewrite drop_app_ge by lia. rewrite drop_app_ge by lia.
  by replace (Z.to_nat (Z.of_nat (length a) + Z.of_nat (length m)) - length a - length m)%nat with 0%nat by lia.
Qed.

Lemma zero_mid (a m c : bytes) i j :
  i = len a -> j = len a + len m -> b_zero i j (a ++ m ++ c) = (Ok tt, a ++ zeros (len m) ++ c).
Proof.
  intros -> ->. unfold b_zero. revert a. induction m as [|x m IH]; intros a.
  - rewrite range2_nil by (rewrite len_nil; lia). done.
  - rewrite len_cons. pose proof (len_nonneg m). pose proof (len_nonneg a). pose proof (len_nonneg c).
    rewrite range2_cons by lia. cbn [for_each]. unfold bind at 1, b_set at 1.
    rewrite set_index_Ok by (rewrite len_app, <- app_comm_cons, len_cons, len_app; lia).
    assert (E : <[Z.to_nat (len a) := 0]> (a ++ (x :: m) ++ c) = (a ++ [0]) ++ m ++ c).
    { unfold len. rewrite Nat2Z.id. rewrite insert_app_r_alt by lia. rewrite Nat.sub_diag. simpl.
      by rewrite <- (assoc_L (++)). }
    rewrite E. cbv beta iota. specialize (IH (a ++ [0])). rewrite len_app in IH. change (len [0]) with 1 in IH.
    replace (len a + (1 + len m)) with (len a + 1 + len m) by lia. rewrite IH.
    f_equal. unfold zeros. rewrite Z2Nat.inj_add by lia. simpl. by rewrite <- !(assoc_L (++)).
Qed.

(** ** Entries *)

Record ent : Type := mkEnt { d_ino : Z; d_type : Z; d_name : bytes; d_pad : bytes }.

Definition rec_len (e : ent) : Z := 8 + len (d_name e) + len (d_pad e).
Definition ent_ok (e : ent) : Prop :=
  0 <= d_ino e < 2 ^ 32 /\ 0 <= d_type e < 256 /\ len (d_name e) < 256 /\ rec_len e < 65536.

Definition enc (e : ent) : bytes :=
  le_bytes 4 (d_ino e) ++ le_bytes 2 (rec_len e) ++ le_bytes 1 (len (d_name e)) ++ le_bytes 1 (d_type e)
  ++ d_name e ++ d_pad e.
Definition block_of (es : list ent) : bytes := concat (map enc es).

(** The entries in use, as the driver lists them. *)
Definition listed (e : ent) : list (str * Z * Z) :=
  if d_ino e =? 0 then [] else [(decode (d_name e), d_ino e, d_type e)].
Definition entries (es : list ent) : list (str * Z * Z) := concat (map listed es).

Lemma len_enc e : len (enc e) = rec_len e.
Proof. unfold enc, rec_len. rewrite !len_app, !len_le_bytes. lia. Qed.
Lemma rec_len_pos e : 8 <= rec_len e.
Proof. unfold rec_len. pose proof (len_nonneg (d_name e)). pose proof (len_nonneg (d_pad e)). lia. Qed.
Lemma block_of_cons e es : block_of (e :: es) = enc e ++ block_of es.
Proof. done. Qed.
Lemma block_of_one e : block_of [e] = enc e.
Proof. apply app_nil_r. Qed.
Lemma block_of_app es es' : block_of (es ++ es') = block_of es ++ block_of es'.
Proof. unfold block_of. by rewrite map_app, concat_app. Qed.
Lemma entries_app es es' : entries (es ++ es') = entries es ++ entries es'.
Proof. unfold entries. by rewrite map_app, concat_app. Qed.
Lemma entries_cons e es : entries (e :: es) = listed e ++ entries es.
Proof. done. Qed.

Lemma unpack_enc a e c : ent_ok e ->
  unpack_dirent (a ++ enc e ++ c) (len a) = Ok (d_ino e, rec_len e, len (d_name e), d_type e).
Proof.
  intros (Hi & Ht & Hn & Hr). unfold unpack_dirent.
  pose proof (len_nonneg (d_name e)). pose proof (rec_len_pos e). pose proof (len_nonneg c).
  destruct (Z.ltb_spec (len (a ++ enc e ++ c)) (len a + 8)) as [Hlt|_].
  { rewrite !len_app, len_enc in Hlt. lia. }
  unfold enc. rewrite <- !(assoc_L (++)).
  rewrite (unpack_mid 4 a) by (done || apply length_le_bytes). cbn [rbind].
  rewrite (assoc_L (++) a). rewrite (unpack_mid 2) by (rewrite ?len_app, ?len_le_bytes; done || apply length_le_bytes).
  cbn [rbind]. rewrite (assoc_L (++) (a ++ _)).
  rewrite (unpack_mid 1) by (rewrite ?len_app, ?len_le_bytes; lia || apply length_le_bytes).
  cbn [rbind]. rewrite (assoc_L (++) ((a ++ _) ++ _)).
  rewrite (unpack_mid 1) by (rewrite ?len_app, ?len_le_bytes; lia || apply length_le_bytes).
  cbn [rbind]. rewrite !le_val_le_bytes; [done|..]; simpl; lia.
Qed.

(** Where the name of an entry is. *)
Lemma enc_split e : enc e = (le_bytes 4 (d_ino e) ++ le_bytes 2 (rec_len e) ++ le_bytes 1 (len (d_name e))
                              ++ le_bytes 1 (d_type e)) ++ d_name e ++ d_pad e.
Proof. unfold enc. by rewrite <- !(assoc_L (++)). Qed.

Lemma name_enc a e c :
  slice (a ++ enc e ++ c) (len a + 8) (len a + 8 + len (d_name e)) = d_name e.
Proof.
  rewrite enc_split. rewrite <- !(assoc_L (++)). rewrite !(assoc_L (++)). rewrite <- (assoc_L (++) _ (d_pad e) c).
  rewrite <- (assoc_L (++) _ (d_name e)).
  apply slice_mid; rewrite !len_app, !len_le_bytes; lia.
Qed.

Lemma scan_block fuel pre es :
  Forall ent_ok es -> len (block_of es) <= Z.of_nat fuel ->
  let blk := pre ++ block_of es in
  scan_entries fuel (len blk) (len pre) blk = Ok (entries es).
Proof.
  intros Hok. revert fuel pre. induction Hok as [|e es He Hok IH]; intros fuel pre Hf; cbn zeta.
  - assert (pre ++ block_of [] = pre) as -> by (by rewrite app_nil_r).
    destruct fuel; simpl; by rewrite Z.ltb_irrefl.
  - rewrite block_of_cons in *. rewrite len_app, len_enc in Hf. pose proof (rec_len_pos e) as Hr.
    pose proof (len_nonneg (block_of es)). destruct fuel as [|fuel]; [lia|]. cbn [scan_entries].
    destruct (Z.ltb_spec (len pre) (len (pre ++ enc e ++ block_of es))) as [_|Hge].
    2:{ rewrite !len_app, len_enc in Hge. lia. }
    rewrite unpack_enc by done. cbn [rbind]. destruct (Z.eqb_spec (rec_len e) 0); [lia|].
    specialize (IH fuel (pre ++ enc e) ltac:(lia)). cbn zeta in IH.
    rewrite <- (assoc_L (++) pre (enc e) (block_of es)), (len_app pre (enc e)), len_enc in IH.
    rewrite IH. cbn [rbind]. rewrite name_enc. rewrite entries_cons. unfold listed. by destruct (d_ino e =? 0).
Qed.

Lemma scan_whole es bs : Forall ent_ok es -> len (block_of es) = bs ->
  scan_entries (Z.to_nat bs) bs 0 (block_of es) = Ok (entries es).
Proof.
  intros Hok <-. pose proof (len_nonneg (block_of es)).
  exact (scan_block (Z.to_nat (len (block_of es))) [] es Hok ltac:(lia)).
Qed.

(** ** Rewriting parts of an entry *)

(** An entry whose record length field says [v]. *)
Definition enc_with (v : Z) (e : ent) : bytes :=
  le_bytes 4 (d_ino e) ++ le_bytes 2 v ++ le_bytes 1 (len (d_name e)) ++ le_bytes 1 (d_type e) ++ d_name e ++ d_pad e.

Lemma pack_rec_len a e c v : 0 <= v < 65536 ->
  b_pack 2 (len a + 4) v (a ++ enc e ++ c) = (Ok tt, a ++ enc_with v e ++ c).
Proof.
  intros Hv. unfold b_pack, enc, enc_with. rewrite <- !(assoc_L (++)). rewrite (assoc_L (++) a).
  rewrite (pack_mid 2); [|rewrite len_app, len_le_bytes; lia|apply length_le_bytes|simpl; lia].
  by rewrite <- !(assoc_L (++)).
Qed.

Lemma pack_ino a e c v : 0 <= v < 2 ^ 32 ->
  b_pack 4 (len a) v (a ++ enc e ++ c) = (Ok tt, a ++ enc (mkEnt v (d_type e) (d_name e) (d_pad e)) ++ c).
Proof.
  intros Hv. unfold b_pack, enc. rewrite <- !(assoc_L (++)).
  rewrite (pack_mid 4); [done|done|apply length_le_bytes|simpl; lia].
Qed.

(** Entry [e] with the bytes [extra] after it, as one longer entry. *)
Definition absorb (e : ent) (extra : bytes) : ent := mkEnt (d_ino e) (d_type e) (d_name e) (d_pad e ++ extra).
Lemma absorb_enc e extra : enc_with (rec_len e + len extra) e ++ extra = enc (absorb e extra).
Proof.
  unfold enc_with, absorb, enc, rec_len. simpl. rewrite len_app, Z.add_assoc. by rewrite <- !(assoc_L (++)).
Qed.

(** What the loops see at the offset of an entry. *)
Lemma dirent_at blk a e c : ent_ok e -> blk = a ++ enc e ++ c ->
  (len a <? len blk) = true /\
  unpack_dirent blk (len a) = Ok (d_ino e, rec_len e, len (d_name e), d_type e) /\
  slice blk (len a + 8) (len a + 8 + len (d_name e)) = d_name e.
Proof.
  intros He ->. split_and!; [|by apply unpack_enc|apply name_enc].
  apply Z.ltb_lt. rewrite !len_app, len_enc. pose proof (rec_len_pos e). pose proof (len_nonneg c). lia.
Qed.

(** ** Removing an entry *)

Definition matches (nm : bytes) (e : ent) : bool := negb (d_ino e =? 0) && (len (d_name e) =? len nm) && beq (d_name e) nm.

(** The chain after the removal of [e], which follows [before]. *)
Definition removed (before : list ent) (e : ent) : list ent :=
  match last before with
  | None => [mkEnt 0 (d_type e) (d_name e) (d_pad e)]
  | Some p => removelast before ++ [absorb p (enc e)]
  end.

Lemma removed_entries before e : entries (removed before e) = entries before.
Proof.
  unfold removed. destruct before as [|p l _] using rev_ind; [done|].
  rewrite last_snoc, removelast_last, !entries_app. done.
Qed.

Lemma last_removelast {A} (l : list A) x : last l = Some x -> l = removelast l ++ [x].
Proof. destruct l as [|y l _] using rev_ind; [done|]. rewrite last_snoc, removelast_last. by intros [= ->]. Qed.

Definition prev_of (before : list ent) : Z :=
  match last before with None => -1 | Some _ => len (block_of (removelast before)) end.

Lemma prev_of_snoc l x : prev_of (l ++ [x]) = len (block_of l).
Proof. unfold prev_of. by rewrite last_snoc, removelast_last. Qed.

Lemma remove_here fuel before e after nm :
  Forall ent_ok before -> ent_ok e -> matches nm e = true ->
  let blk := block_of (before ++ e :: after) in
  len blk < 65536 ->
  remove_scan (S fuel) (len blk) (prev_of before) (len (block_of before)) nm blk =
    (Ok (Some (d_ino e, d_type e)), block_of (removed before e ++ after)).
Proof.
  intros Hb He Hm blk Hlen. subst blk. rewrite block_of_app, block_of_cons in *.
  pose proof (rec_len_pos e). pose proof (len_nonneg (block_of after)).
  cbn [remove_scan]. rewrite (proj2 (Z.ltb_lt _ _)) by (rewrite !len_app, len_enc; lia).
  unfold bind at 1. rewrite unpack_enc by done. cbv beta iota. rewrite (proj2 (Z.eqb_neq _ _)) by lia.
  unfold bind at 1, b_slice. rewrite name_enc. unfold matches in Hm. rewrite Hm.
  unfold removed, prev_of. destruct (last before) as [p|] eqn:El.
  - apply last_removelast in El. set (init := removelast before) in *. rewrite El in *. clear El.
    apply Forall_app in Hb as [_ Hp]. rewrite Forall_singleton in Hp.
    rewrite block_of_app in *. change (block_of [p]) with (enc p ++ []) in *. rewrite app_nil_r in *.
    rewrite <- (assoc_L (++)) in *.
    rewrite (proj2 (Z.leb_le _ _)) by apply len_nonneg.
    unfold bind at 1. unfold bind at 1. rewrite unpack_enc by done. cbv beta iota.
    rewrite pack_rec_len.
    2:{ rewrite !len_app, !len_enc in Hlen. pose proof (rec_len_pos p). pose proof (len_nonneg (block_of init)). lia. }
    unfold ret. f_equal. rewrite !block_of_app. change (block_of [?x]) with (enc x ++ []). rewrite app_nil_r.
    rewrite <- absorb_enc, len_enc. by rewrite <- !(assoc_L (++)).
  - assert (before = []) as -> by (by destruct before using rev_ind; [|rewrite last_snoc in El]).
    change (0 <=? -1) with false. cbv iota. unfold bind at 1. rewrite pack_ino by lia. done.
Qed.

Lemma remove_scan_spec before es1 e after nm fuel :
  Forall ent_ok (before ++ es1 ++ [e]) -> Forall (fun x => matches nm x = false) es1 -> matches nm e = true ->
  let blk := block_of (before ++ es1 ++ e :: after) in
  len blk < 65536 -> (length es1 < fuel)%nat ->
  remove_scan fuel (len blk) (prev_of before) (len (block_of before)) nm blk =
    (Ok (Some (d_ino e, d_type e)), block_of (removed (before ++ es1) e ++ after)).
Proof.
  revert before fuel. induction es1 as [|x es1 IH]; intros before fuel Hok Hno Hm blk Hlen Hf; subst blk.
  - rewrite app_nil_r. destruct fuel as [|fuel]; [simpl in Hf; lia|].
    apply Forall_app in Hok as [Hb He]. apply Forall_app in He as [_ He]. rewrite Forall_singleton in He.
    by apply remove_here.
  - destruct fuel as [|fuel]; [simpl in Hf; lia|]. apply list.Forall_cons in Hno as [Hx Hno].
    pose proof Hok as Hok'. apply Forall_app in Hok' as [_ Hok']. simpl in Hok'. apply list.Forall_cons in Hok' as [Hxok _].
    replace (before ++ (x :: es1) ++ e :: after) with ((before ++ [x]) ++ es1 ++ e :: after) in *
      by (by rewrite <- !(assoc_L (++))).
    replace (before ++ x :: es1) with ((before ++ [x]) ++ es1) by (by rewrite <- !(assoc_L (++))).
    rewrite <- (IH (before ++ [x]) fuel); [| |done..|simpl in Hf; lia].
    2:{ by rewrite <- !(assoc_L (++)). }
    rewrite prev_of_snoc. set (blk := block_of ((before ++ [x]) ++ es1 ++ e :: after)) in *.
    assert (Hblk : blk = block_of before ++ enc x ++ block_of (es1 ++ e :: after)).
    { unfold blk. rewrite !block_of_app. change (block_of [x]) with (enc x ++ []). by rewrite app_nil_r, <- !(assoc_L (++)). }
    assert (Hoff : len (block_of (before ++ [x])) = len (block_of before) + rec_len x).
    { rewrite block_of_app, len_app. change (block_of [x]) with (enc x ++ []). by rewrite app_nil_r, len_enc. }
    pose proof (rec_len_pos x). pose proof (len_nonneg (block_of (es1 ++ e :: after))).
    destruct (dirent_at _ _ _ _ Hxok Hblk) as (Hlt & Hu & Hn). clearbody blk.
    cbn [remove_scan]. rewrite Hlt. unfold bind at 1. rewrite Hu. cbv beta iota.
    rewrite (proj2 (Z.eqb_neq _ _)) by lia. unfold bind at 1, b_slice. rewrite Hn. unfold matches in Hx.
    rewrite Hx. by rewrite Hoff.
Qed.

Lemma len_block_ge es : 8 * len es <= len (block_of es).
Proof.
  induction es as [|e es IH]; [done|]. rewrite block_of_cons, len_app, len_enc, len_cons.
  pose proof (rec_len_pos e). lia.
Qed.

Lemma len_removed before e : len (block_of (removed before e)) = len (block_of before) + len (enc e).
Proof.
  unfold removed. destruct before as [|p l _] using rev_ind; [cbn [last]; by rewrite block_of_one, !len_enc|].
  rewrite last_snoc, removelast_last, !block_of_app, !len_app, !block_of_one, !len_enc.
  unfold absorb, rec_len. simpl. rewrite len_app, len_enc. unfold rec_len. lia.
Qed.

Lemma removed_ok before e : Forall ent_ok (before ++ [e]) -> len (block_of before) + len (enc e) < 65536 ->
  Forall ent_ok (removed before e).
Proof.
  intros Hok Hlen. apply Forall_app in Hok as [Hb He]. rewrite Forall_singleton in He.
  unfold removed. destruct before as [|p l _] using rev_ind.
  - constructor; [|constructor]. destruct He as (? & ? & ? & ?). unfold ent_ok, rec_len in *. simpl. lia.
  - rewrite last_snoc, removelast_last. apply Forall_app in Hb as [Hl Hp]. rewrite Forall_singleton in Hp.
    apply Forall_app. split; [done|]. constructor; [|constructor]. destruct Hp as (? & ? & ? & ?).
    rewrite block_of_app, len_app in Hlen. change (block_of [p]) with (enc p ++ []) in Hlen.
    rewrite app_nil_r, !len_enc in Hlen. pose proof (len_nonneg (block_of l)).
    unfold ent_ok, absorb, rec_len in *. simpl. rewrite len_app, len_enc. unfold rec_len. lia.
Qed.

(** Removing a name from a directory block takes out exactly that
    entry: the call returns the inode and type of the first entry of that
    name, and the block then lists the other entries, in order, its chain of
    records still filling the block. *)
Theorem ext2_dir_remove es1 e es2 nm :
  Forall ent_ok (es1 ++ e :: es2) -> Forall (fun x => matches nm x = false) es1 -> matches nm e = true ->
  len (block_of (es1 ++ e :: es2)) < 65536 ->
  let bs := len (block_of (es1 ++ e :: es2)) in
  exists blk',
    remove_scan (Z.to_nat bs) bs (-1) 0 nm (block_of (es1 ++ e :: es2)) = (Ok (Some (d_ino e, d_type e)), blk') /\
    len blk' = bs /\
    scan_entries (Z.to_nat bs) bs 0 blk' = Ok (entries es1 ++ entries es2).
Proof.
  intros Hok Hno Hm Hlen bs. exists (block_of (removed es1 e ++ es2)).
  assert (Hok1 : Forall ent_ok (es1 ++ [e])).
  { apply Forall_app in Hok as [? Hok]. apply list.Forall_cons in Hok as [? _]. apply Forall_app. split; [done|by constructor]. }
  assert (Hok2 : Forall ent_ok es2).
  { apply Forall_app in Hok as [_ Hok]. by apply list.Forall_cons in Hok as [_ ?]. }
  assert (Hfuel : (length es1 < Z.to_nat bs)%nat).
  { pose proof (len_block_ge (es1 ++ e :: es2)) as Hge. fold bs in Hge. rewrite len_app, len_cons in Hge. unfold len in Hge. lia. }
  assert (Hl : len (block_of (removed es1 e ++ es2)) = bs).
  { unfold bs. rewrite !block_of_app, block_of_cons, !len_app, len_removed. lia. }
  assert (Hrok : Forall ent_ok (removed es1 e ++ es2)).
  { apply Forall_app. split; [|done]. apply removed_ok; [done|].
    unfold bs in Hlen. rewrite block_of_app, block_of_cons, !len_app in Hlen. pose proof (len_nonneg (block_of es2)). lia. }
  split_and!; [|done|].
  - exact (remove_scan_spec [] es1 e es2 nm (Z.to_nat bs) Hok1 Hno Hm Hlen Hfuel).
  - rewrite (scan_whole (removed es1 e ++ es2) bs) by done. by rewrite entries_app, removed_entries.
Qed.

(** ** Adding an entry *)

Lemma dirent_size_spec n : 0 <= n -> 8 + n <= dirent_size n <= 8 + n + 3.
Proof.
  intros Hn. unfold dirent_size. rewrite <- Z.ldiff_land. change (Z.ldiff (8 + n + 3) 3) with (Z.ldiff (8 + n + 3) (Z.ones 2)).
  rewrite Z.ldiff_ones_r, Z.shiftl_mul_pow2, Z.shiftr_div_pow2 by lia. change (2 ^ 2) with 4.
  pose proof (Z.div_mod (8 + n + 3) 4 ltac:(lia)). pose proof (Z.mod_pos_bound (8 + n + 3) 4 ltac:(lia)). lia.
Qed.

(** Room left behind an entry, and the entry without it. *)
Definition used (e : ent) : Z := if d_ino e =? 0 then 0 else dirent_size (len (d_name e)).
Definition slack (e : ent) : Z := rec_len e - used e.
Definition trimmed (e : ent) : list ent :=
  if d_ino e =? 0 then []
  else [mkEnt (d_ino e) (d_type e) (d_name e) (take (Z.to_nat (used e - 8 - len (d_name e))) (d_pad e))].

(** A new entry of record length [rl]. *)
Definition fresh_ent (child ft : Z) (nm : bytes) (rl : Z) : ent := mkEnt child ft nm (zeros (rl - 8 - len nm)).

Lemma rec_len_fresh child ft nm rl : 8 + len nm <= rl -> rec_len (fresh_ent child ft nm rl) = rl.
Proof. intros. unfold rec_len, fresh_ent. simpl. rewrite len_zeros; lia. Qed.

(** Overwriting [len m] bytes by a new entry. *)
Lemma write_entry a m c child ft nm :
  0 <= child < 2 ^ 32 -> 0 <= ft < 256 -> len nm < 256 -> 8 + len nm <= len m -> len m < 65536 ->
  (pack_dirent (len a) child (len m) (len nm) ft ;;;
   b_assign (len a + 8) (len a + 8 + len nm) nm ;;;
   b_zero (len a + 8 + len nm) (len a + len m) ;;;
   ret true) (a ++ m ++ c) = (Ok true, a ++ enc (fresh_ent child ft nm (len m)) ++ c).
Proof.
  intros Hc Hf Hn Hm Hm'. pose proof (len_nonneg nm) as Hnn.
  assert (exists m1 m2 m3 m4 m5 m6, m = m1 ++ m2 ++ m3 ++ m4 ++ m5 ++ m6 /\ length m1 = 4%nat /\ length m2 = 2%nat /\
            length m3 = 1%nat /\ length m4 = 1%nat /\ len m5 = len nm) as (m1&m2&m3&m4&m5&m6&Em&L1&L2&L3&L4&L5).
  { exists (take 4 m), (take 2 (drop 4 m)), (take 1 (drop 6 m)), (take 1 (drop 7 m)),
      (take (length nm) (drop 8 m)), (drop (length nm) (drop 8 m)). unfold len in *.
    split_and!; try (rewrite length_take, ?length_drop; lia).
    rewrite take_drop. rewrite <- (take_drop 4 m) at 1. f_equal. rewrite <- (take_drop 2 (drop 4 m)) at 1. f_equal.
    rewrite drop_drop. simpl. rewrite <- (take_drop 1 (drop 6 m)) at 1. f_equal. rewrite drop_drop. simpl.
    rewrite <- (take_drop 1 (drop 7 m)) at 1. f_equal. rewrite drop_drop. done. }
  assert (Hlm : len m = 8 + len nm + len m6).
  { rewrite Em, !len_app, L5. unfold len. lia. }
  rewrite !Hlm in *. clear Hlm. rewrite Em. clear Em. unfold bind at 1, pack_dirent. rewrite <- !(assoc_L (++)).
  rewrite (pack_mid 4) by (done || simpl; lia). cbn [rbind]. rewrite (assoc_L (++) a).
  rewrite (pack_mid 2) by (rewrite ?len_app, ?len_le_bytes; done || simpl; lia). cbn [rbind].
  rewrite (assoc_L (++) (a ++ _)).
  rewrite (pack_mid 1) by (rewrite ?len_app, ?len_le_bytes; done || simpl; lia). cbn [rbind].
  rewrite (assoc_L (++) ((a ++ _) ++ _)).
  rewrite (pack_mid 1) by (rewrite ?len_app, ?len_le_bytes; done || simpl; lia).
  cbv beta iota. rewrite (assoc_L (++) (((a ++ _) ++ _) ++ _)).
  unfold bind at 1, b_assign. rewrite assign_mid by (rewrite !len_app, !len_le_bytes; lia).
  rewrite (assoc_L (++) ((((a ++ _) ++ _) ++ _) ++ _)).
  unfold bind at 1. rewrite zero_mid by (rewrite !len_app, !len_le_bytes; lia). unfold ret. f_equal.
  unfold enc. rewrite rec_len_fresh by lia. unfold fresh_ent. simpl d_pad.
  replace (8 + len nm + len m6 - 8 - len nm) with (len m6) by lia. by rewrite <- !(assoc_L (++)).
Qed.

(** Trimming an entry in use: its record splits in two. *)
Lemma trim_split e : d_ino e <> 0 -> 0 <= slack e ->
  exists rest, trimmed e = [mkEnt (d_ino e) (d_type e) (d_name e) (take (Z.to_nat (used e - 8 - len (d_name e))) (d_pad e))] /\
    enc_with (used e) e = block_of (trimmed e) ++ rest /\ len rest = slack e /\ len (block_of (trimmed e)) = used e.
Proof.
  intros Hi Hs. unfold trimmed. rewrite (proj2 (Z.eqb_neq _ _) Hi). rewrite block_of_one.
  set (k := Z.to_nat (used e - 8 - len (d_name e))). exists (drop k (d_pad e)).
  assert (Hu : used e = dirent_size (len (d_name e))) by (unfold used; by rewrite (proj2 (Z.eqb_neq _ _) Hi)).
  pose proof (dirent_size_spec (len (d_name e)) (len_nonneg _)) as Hd. rewrite <- Hu in Hd.
  unfold slack, rec_len in Hs.
  assert (Hr : rec_len (mkEnt (d_ino e) (d_type e) (d_name e) (take k (d_pad e))) = used e).
  { unfold rec_len. simpl. unfold len in *. rewrite length_take. lia. }
  split_and!; [done| | |].
  - unfold enc_with, enc. rewrite Hr. simpl d_ino. simpl d_type. simpl d_name. simpl d_pad.
    rewrite <- (take_drop k (d_pad e)) at 1. by rewrite <- !(assoc_L (++)).
  - unfold slack, rec_len, len in *. rewrite length_drop. lia.
  - by rewrite len_enc, Hr.
Qed.

Section add.
Context (child ft : Z) (nm : bytes).
Context (Hchild : 0 <= child < 2 ^ 32) (Hft : 0 <= ft < 256) (Hnm : len nm < 256).
Let need : Z := dirent_size (len nm).

(** The chain after the addition behind [e]. *)
Definition added (e : ent) : list ent := trimmed e ++ [fresh_ent child ft nm (slack e)].

Lemma add_here fuel before e after :
  ent_ok e -> need <= slack e ->
  let blk := block_of (before ++ e :: after) in
  add_scan (S fuel) (len blk) (len (block_of before)) need child ft nm blk =
    (Ok true, block_of (before ++ added e ++ after)).
Proof.
  intros He Hslack blk. pose proof (dirent_size_spec (len nm) (len_nonneg nm)) as Hneed. fold need in Hneed.
  pose proof (len_nonneg nm). pose proof (rec_len_pos e). destruct He as (Hei & Het & Hen & Her).
  assert (Hblk : blk = block_of before ++ enc e ++ block_of after) by (unfold blk; by rewrite block_of_app).
  destruct (dirent_at blk _ e _ ltac:(done) Hblk) as (Hlt & Hu & _).
  cbn [add_scan]. rewrite Hlt. unfold bind at 1. rewrite Hu. cbv beta iota. rewrite (proj2 (Z.eqb_neq _ _)) by lia.
  fold (used e). fold (slack e). rewrite (proj2 (Z.leb_le _ _) Hslack).
  unfold added. rewrite block_of_app, block_of_app, block_of_app, block_of_one. clear Hlt Hu. rewrite Hblk. clear Hblk blk.
  unfold slack in *. destruct (Z.eqb_spec (d_ino e) 0) as [Hz|Hz].
  - assert (Hue : used e = 0) by (unfold used; by rewrite Hz). rewrite Hue, Z.sub_0_r, Z.add_0_r in *.
    unfold trimmed. rewrite Hz, Z.eqb_refl. change (block_of []) with (@nil Z). unfold bind at 1, ret at 1.
    pose proof (write_entry (block_of before) (enc e) (block_of after) child ft nm) as Hw.
    rewrite len_enc in Hw. exact (Hw Hchild Hft Hnm ltac:(lia) Her).
  - destruct (trim_split e Hz) as (rest & _ & Hsplit & Hlr & Hlt); [unfold slack; lia|].
    assert (Hue : 0 <= used e < 65536).
    { assert (used e = dirent_size (len (d_name e))) as Hu by (unfold used; by rewrite (proj2 (Z.eqb_neq _ _) Hz)).
      pose proof (len_nonneg (d_name e)). pose proof (dirent_size_spec (len (d_name e)) (len_nonneg _)). lia. }
    unfold bind at 1. rewrite pack_rec_len by done. cbv beta iota. rewrite Hsplit.
    unfold slack in Hlr. rewrite <- (assoc_L (++) _ rest), (assoc_L (++) _ _ (rest ++ _)), <- Hlr, <- Hlt, <- len_app.
    rewrite write_entry by lia. by rewrite <- !(assoc_L (++)).
Qed.

Lemma add_scan_spec before es1 e after fuel :
  Forall ent_ok (es1 ++ [e]) -> Forall (fun x => slack x < need) es1 -> need <= slack e ->
  (length es1 < fuel)%nat ->
  let blk := block_of (before ++ es1 ++ e :: after) in
  add_scan fuel (len blk) (len (block_of before)) need child ft nm blk =
    (Ok true, block_of (before ++ es1 ++ added e ++ after)).
Proof.
  revert before fuel. induction es1 as [|x es1 IH]; intros before fuel Hok Hno Hs Hf blk; subst blk.
  - destruct fuel as [|fuel]; [simpl in Hf; lia|]. apply Forall_app in Hok as [_ He]. rewrite Forall_singleton in He.
    by apply add_here.
  - destruct fuel as [|fuel]; [simpl in Hf; lia|]. apply list.Forall_cons in Hno as [Hx Hno].
    simpl in Hok. apply list.Forall_cons in Hok as [Hxok Hok].
    replace (before ++ (x :: es1) ++ e :: after) with ((before ++ [x]) ++ es1 ++ e :: after)
      by (by rewrite <- !(assoc_L (++))).
    replace (before ++ (x :: es1) ++ added e ++ after) with ((before ++ [x]) ++ es1 ++ added e ++ after)
      by (by rewrite <- !(assoc_L (++))).
    rewrite <- (IH (before ++ [x]) fuel) by (done || simpl in Hf; lia).
    set (blk := block_of ((before ++ [x]) ++ es1 ++ e :: after)).
    assert (Hblk : blk = block_of before ++ enc x ++ block_of (es1 ++ e :: after)).
    { unfold blk. by rewrite !block_of_app, block_of_one, <- !(assoc_L (++)). }
    assert (Hoff : len (block_of (before ++ [x])) = len (block_of before) + rec_len x).
    { by rewrite block_of_app, len_app, block_of_one, len_enc. }
    pose proof (rec_len_pos x). destruct (dirent_at _ _ _ _ Hxok Hblk) as (Hlt & Hu & _). clearbody blk.
    cbn [add_scan]. rewrite Hlt. unfold bind at 1. rewrite Hu. cbv beta iota. rewrite (proj2 (Z.eqb_neq _ _)) by lia.
    fold (used x). fold (slack x). rewrite (proj2 (Z.leb_gt _ _)) by lia. by rewrite Hoff.
Qed.

Lemma add_scan_full before es fuel :
  Forall ent_ok es -> Forall (fun x => slack x < need) es -> (length es <= fuel)%nat ->
  let blk := block_of (before ++ es) in
  add_scan fuel (len blk) (len (block_of before)) need child ft nm blk = (Ok false, blk).
Proof.
  intros Hok. revert before fuel. induction Hok as [|x es Hxok Hok IH]; intros before fuel Hno Hf; cbn zeta.
  - rewrite app_nil_r. destruct fuel; simpl; by rewrite Z.ltb_irrefl.
  - destruct fuel as [|fuel]; [simpl in Hf; lia|]. apply list.Forall_cons in Hno as [Hx Hno].
    replace (before ++ x :: es) with ((before ++ [x]) ++ es) by (by rewrite <- (assoc_L (++))).
    rewrite <- (IH (before ++ [x]) fuel) by (done || simpl in Hf; lia).
    set (blk := block_of ((before ++ [x]) ++ es)).
    assert (Hblk : blk = block_of before ++ enc x ++ block_of es).
    { unfold blk. by rewrite !block_of_app, block_of_one, <- !(assoc_L (++)). }
    assert (Hoff : len (block_of (before ++ [x])) = len (block_of before) + rec_len x).
    { by rewrite block_of_app, len_app, block_of_one, len_enc. }
    pose proof (rec_len_pos x). destruct (dirent_at _ _ _ _ Hxok Hblk) as (Hlt & Hu & _). clearbody blk.
    cbn [add_scan]. rewrite Hlt. unfold bind at 1. rewrite Hu. cbv beta iota. rewrite (proj2 (Z.eqb_neq _ _)) by lia.
    fold (used x). fold (slack x). rewrite (proj2 (Z.leb_gt _ _)) by lia. by rewrite Hoff.
Qed.

Lemma added_props e : ent_ok e -> need <= slack e -> child <> 0 ->
  Forall ent_ok (added e) /\ len (block_of (added e)) = rec_len e /\
  entries (added e) = listed e ++ [(decode nm, child, ft)].
Proof.
  intros (Hei & Het & Hen & Her) Hs Hc. pose proof (dirent_size_spec (len nm) (len_nonneg nm)) as Hneed. fold need in Hneed.
  pose proof (len_nonneg nm).
  assert (Hsr : slack e <= rec_len e).
  { unfold slack, used. pose proof (dirent_size_spec (len (d_name e)) (len_nonneg _)). pose proof (len_nonneg (d_name e)).
    case_match; lia. }
  assert (Hfresh : ent_ok (fresh_ent child ft nm (slack e))).
  { unfold ent_ok. rewrite rec_len_fresh by lia. cbn [fresh_ent d_ino d_type d_name]. lia. }
  unfold added. rewrite block_of_app, block_of_one, entries_app, len_app, len_enc, rec_len_fresh by lia.
  assert (El : entries [fresh_ent child ft nm (slack e)] = [(decode nm, child, ft)]).
  { unfold entries, listed. simpl. by rewrite (proj2 (Z.eqb_neq _ _) Hc). }
  rewrite El. destruct (Z.eqb_spec (d_ino e) 0) as [Hz|Hz].
  - assert (trimmed e = []) as -> by (unfold trimmed; by rewrite Hz).
    assert (listed e = []) as -> by (unfold listed; by rewrite Hz).
    split_and!; [by constructor| |done]. change (len (block_of [])) with 0. unfold slack, used. rewrite Hz, Z.eqb_refl. lia.
  - destruct (trim_split e Hz) as (rest & Ht & _ & Hlr & Hlt); [lia|]. rewrite Hlt.
    split_and!; [|unfold slack; lia|].
    + apply Forall_app. split; [|by constructor]. rewrite Ht. constructor; [|constructor].
      rewrite Ht, block_of_one, len_enc in Hlt. unfold ent_ok. rewrite Hlt. cbn [d_ino d_type d_name].
      unfold slack in Hs. lia.
    + rewrite Ht. unfold entries, listed. simpl. by rewrite (proj2 (Z.eqb_neq _ _) Hz).
Qed.
End add.

Lemma first_room need es :
  Forall (fun e => slack e < need) es \/
  exists es1 e es2, es = es1 ++ e :: es2 /\ Forall (fun x => slack x < need) es1 /\ need <= slack e.
Proof.
  induction es as [|e es IH]; [by left|]. destruct (Z.lt_ge_cases (slack e) need) as [Hlt|Hge].
  - destruct IH as [Hall|(es1 & e' & es2 & -> & Hno & Hr)]; [left; by constructor|].
    right. exists (e :: es1), e', es2. split_and!; [done|by constructor|done].
  - right. by exists [], e, es.
Qed.

(** Adding a name to a directory block.  When some entry has room for it
    behind its own name, the first such entry gives up that room: the block
    then lists the old entries and the new one, right after that entry, and its
    records still fill the block.  When no entry has room the block is left
    as it was. *)
Theorem ext2_dir_add es child ft nm :
  Forall ent_ok es -> 0 < child < 2 ^ 32 -> 0 <= ft < 256 -> len nm < 256 ->
  let bs := len (block_of es) in
  let need := dirent_size (len nm) in
  let go := add_scan (Z.to_nat bs) bs 0 need child ft nm (block_of es) in
  (Forall (fun e => slack e < need) es /\ go = (Ok false, block_of es)) \/
  exists es1 e es2 blk',
    es = es1 ++ e :: es2 /\ Forall (fun x => slack x < need) es1 /\ need <= slack e /\
    go = (Ok true, blk') /\ len blk' = bs /\
    scan_entries (Z.to_nat bs) bs 0 blk' =
      Ok (entries (es1 ++ [e]) ++ (decode nm, child, ft) :: entries es2).
Proof.
  intros Hok Hc Hft Hnm bs need go.
  assert (Hfuel : (length es <= Z.to_nat bs)%nat).
  { pose proof (len_block_ge es) as Hge. fold bs in Hge. unfold len in Hge. lia. }
  destruct (first_room need es) as [Hno|(es1 & e & es2 & -> & Hno & Hroom)].
  - left. split; [done|]. exact (add_scan_full child ft nm [] es (Z.to_nat bs) Hok Hno Hfuel).
  - right. apply Forall_app in Hok as [Hok1 Hok]. apply list.Forall_cons in Hok as [He Hok2].
    destruct (added_props child ft nm ltac:(lia) Hft Hnm e He Hroom ltac:(lia)) as (Haok & Halen & Haent).
    exists es1, e, es2, (block_of (es1 ++ added child ft nm e ++ es2)).
    assert (Hl : len (block_of (es1 ++ added child ft nm e ++ es2)) = bs).
    { unfold bs. rewrite !block_of_app, block_of_cons, !len_app, Halen, len_enc. lia. }
    split_and!; [done..| |done|].
    + apply (add_scan_spec child ft nm ltac:(lia) Hft Hnm [] es1 e es2 (Z.to_nat bs)); [|done..|].
      * apply Forall_app. split; [done|by constructor].
      * rewrite length_app in Hfuel. simpl in Hfuel. lia.
    + rewrite scan_whole; [|by rewrite !Forall_app|done]. f_equal.
      rewrite !entries_app, Haent, entries_cons. change (entries []) with (@nil (str * Z * Z)).
      rewrite app_nil_r. by rewrite <- !(assoc_L (++)).
Qed.

(** ** A concrete directory block *)

Definition wit_dir_block : list ent :=
  [mkEnt 2 2 (lit ".") [0; 0; 0]; mkEnt 2 2 (lit "..") [0; 0];
   mkEnt 12 1 (lit "motd") []; mkEnt 13 1 (lit "log") (zeros 29)].

Lemma wit_dir_ok : Forall ent_ok wit_dir_block.
Proof. repeat constructor; vm_compute; done. Qed.

Lemma ext2_dir_remove_witness :
  exists blk', remove_scan 76 76 (-1) 0 (lit "motd") (block_of wit_dir_block) = (Ok (Some (12, 1)), blk') /\
    scan_entries 76 76 0 blk' = Ok [(lit ".", 2, 2); (lit "..", 2, 2); (lit "log", 13, 1)].
Proof.
  destruct (ext2_dir_remove (take 2 wit_dir_block) (mkEnt 12 1 (lit "motd") []) (drop 3 wit_dir_block) (lit "motd"))
    as (blk' & Hr & _ & Hs).
  - exact wit_dir_ok.
  - repeat constructor.
  - reflexivity.
  - reflexivity.
  - exists blk'. split; [exact Hr|exact Hs].
Defined.

Lemma ext2_dir_add_witness :
  exists blk', add_scan 76 76 0 (dirent_size 3) 14 1 (lit "new") (block_of wit_dir_block) = (Ok true, blk') /\
    scan_entries 76 76 0 blk' =
      Ok [(lit ".", 2, 2); (lit "..", 2, 2); (lit "motd", 12, 1); (lit "log", 13, 1); (lit "new", 14, 1)].
Proof.
  destruct (ext2_dir_add wit_dir_block 14 1 (lit "new")) as [[_ Hf]|(es1 & e & es2 & blk' & He & Hno & Hroom & Hgo & _ & Hs)].
  - exact wit_dir_ok.
  - lia.
  - lia.
  - reflexivity.
  - apply (f_equal fst) in Hf. vm_compute in Hf. discriminate Hf.
  - exists blk'. split; [exact Hgo|].
    assert (Hb : blk' = snd (add_scan 76 76 0 (dirent_size 3) 14 1 (lit "new") (block_of wit_dir_block))).
    { change blk' with (snd (Ok true, blk')). rewrite <- Hgo. reflexivity. }
    rewrite Hb. vm_compute. reflexivity.
Defined.

Definition put (n : nat) (off v : Z) (b : bytes) : bytes :=
  match pack_into_le n b off v with Ok b' => b' | Err _ => b end.

Definition img_sb : bytes :=
  put 2 56 EXT2_SUPER_MAGIC (put 4 40 16 (put 4 32 8192 (put 4 24 0 (put 4 20 1 (put 4 16 5 (put 4 12 8
    (put 4 4 16 (put 4 0 16 (zeros 1024))))))))).
Definition img_bgdt : bytes :=
  put 2 16 1 (put 2 14 5 (put 2 12 8 (put 4 8 5 (put 4 4 4 (put 4 0 3 (zeros 1024)))))).
Definition img_block_bitmap : bytes := 0x7F :: zeros 1023.
Definition img_inode_bitmap : bytes := 0xFF :: 0x07 :: zeros 1022.
Definition img_root_inode : bytes :=
  put 4 40 7 (put 4 28 2 (put 2 26 2 (put 4 4 1024 (put 2 0 0x41ED (zeros 128))))).
Definition img_inode_table : bytes := zeros 128 ++ img_root_inode ++ zeros (2048 - 256).
Definition img_root_dir : bytes :=
  block_of [mkEnt 2 2 (lit ".") [0; 0; 0]; mkEnt 2 2 (lit "..") (zeros 1002)].
Definition img : bytes :=
  zeros 1024 ++ img_sb ++ img_bgdt ++ img_block_bitmap ++ img_inode_bitmap ++ img_inode_table
  ++ img_root_dir ++ zeros (8 * 1024).

Definition vol : FileBlockDevice := mkFile img 32.
Definition vol_fs : Ext2FS FileBlockDevice := snd (mount_ext2 vol).

Lemma vol_opens : FileBlockDevice_open img = Ok vol.
Proof. vm_compute. reflexivity. Qed.
Lemma vol_wf : dev_wf vol.
Proof. vm_compute. reflexivity. Qed.
Lemma vol_mounts : mount_ext2 vol = (Ok tt, vol_fs).
Proof.
  unfold vol_fs. destruct (mount_ext2 vol) as [r s] eqn:E.
  assert (Hr : r = Ok tt) by (apply (f_equal fst) in E; vm_compute in E; by symmetry). by rewrite Hr.
Qed.
Lemma vol_counters : counters vol_fs.
Proof. split; vm_compute; reflexivity. Qed.

(** Create a file, write to it past a hole, list, read back, remove. *)
Definition vol_s1 := snd (ext2_create 2 (lit "hello") FILE vol_fs).
Definition vol_s2 := snd (ext2_write 12 2000 (lit "abc") vol_s1).
Definition vol_s3 := snd (ext2_lookup 2 (lit "nothing") vol_s2).
Definition vol_s4 := snd (ext2_unlink 2 (lit "hello") vol_s3).

Example vol_run :
  fst (ext2_create 2 (lit "hello") FILE vol_fs) = Ok 12 /\
  fst (ext2_write 12 2000 (lit "abc") vol_s1) = Ok 3 /\
  fst (ext2_read 12 1998 10 vol_s2) = Ok ([0; 0] ++ lit "abc") /\
  fst (ext2_readdir 2 vol_s2) = Ok [lit "."; lit ".."; lit "hello"] /\
  fst (ext2_lookup 2 (lit "nothing") vol_s2) = Err FileNotFoundError /\
  free_blocks_count (e_sb vol_s2) = 7 /\
  fst (ext2_unlink 2 (lit "hello") vol_s3) = Ok tt /\
  free_blocks_count (e_sb vol_s4) = 8 /\ fst (ext2_readdir 2 vol_s4) = Ok [lit "."; lit ".."].
Proof. vm_compute. split_and!; reflexivity. Qed.

Lemma vol_steps : steps ext2_step vol_fs vol_s4.
Proof.
  destruct vol_run as (E1 & E2 & _ & _ & E3 & _ & E4 & _).
  eapply steps_cons; [apply (es_create 2 (lit "hello") FILE vol_fs _ vol_s1 (surjective_pairing _)); by rewrite E1|].
  eapply steps_cons; [apply (es_write 12 2000 (lit "abc") vol_s1 _ vol_s2 (surjective_pairing _)); by rewrite E2|].
  eapply steps_cons; [apply (es_lookup 2 (lit "nothing") vol_s2 _ vol_s3 (surjective_pairing _)); rewrite E3; by left|].
  eapply steps_cons; [apply (es_unlink 2 (lit "hello") vol_s3 _ vol_s4 (surjective_pairing _)); by rewrite E4|].
  apply steps_refl.
Qed.

Lemma ext2_write_through_witness :
  (forall b k, e_block_cache vol_s4 !! b = Some k -> ~ holds_sb (e_sectors_per_block vol_s4) b ->
     e_bufs vol_s4 !! k = Some (disk_block (e_sectors_per_block vol_s4) (e_dev vol_s4) b)) /\
  free_blocks_count (e_sb vol_s4) = sum (map group_fb (e_bgdt vol_s4)) /\
  free_inodes_count (e_sb vol_s4) = sum (map group_fi (e_bgdt vol_s4)).
Proof. exact (ext2_write_through vol vol_fs vol_s4 vol_wf vol_mounts vol_counters vol_steps). Defined.

Lemma ext2_bitmap_first_fit_witness :
  find_and_set 15 [0; 1] [0x7F; 0x80] = (Ok (Some 7), [0xFF; 0x80]) /\
  clear_bit 7 [0xFF; 0x80] = (Ok true, [0x7F; 0x80]).
Proof.
  destruct (ext2_bitmap_first_fit 15 [0x7F; 0x80]) as (r & bm' & E & Hr).
  - lia.
  - vm_compute. discriminate.
  - repeat constructor; vm_compute; first [discriminate|reflexivity].
  - assert (E' : find_and_set 15 [0; 1] [0x7F; 0x80] = (Ok (Some 7), [0xFF; 0x80])) by reflexivity.
    change (range ((15 + 7) / 8)) with [0; 1] in E. rewrite E' in E. injection E as <- <-.
    split; [exact E'|apply Hr].
Defined.

(** Writing the root inode of the mounted volume. *)
Definition root_raw : bytes := put 2 26 3 img_root_inode.
Definition vol_w := snd (write_inode 2 root_raw vol_fs).

Lemma vol_not_sb b : b <> 1 -> ~ holds_sb (e_sectors_per_block vol_fs) b.
Proof.
  assert (e_sectors_per_block vol_fs = 2) as -> by (vm_compute; reflexivity).
  intros Hb (i & Hi & Hs). lia.
Qed.

Lemma ext2_inode_store_witness : read_inode 2 vol_w = (Ok root_raw, vol_w).
Proof.
  apply (ext2_inode_store 2 root_raw vol_fs 5 128 vol_w).
  - exact (mount_cached vol vol_fs vol_wf vol_mounts).
  - vm_compute. reflexivity.
  - vm_compute. reflexivity.
  - vm_compute. reflexivity.
  - apply vol_not_sb. lia.
  - unfold vol_w. destruct (write_inode 2 root_raw vol_fs) as [r s] eqn:E.
    assert (Hr : r = Ok tt) by (apply (f_equal fst) in E; vm_compute in E; by symmetry). by rewrite Hr.
Defined.

(** ** Failures that leave the volume inconsistent *)

(** A write that runs out of space keeps the blocks it took, without the inode
    ever pointing at them. *)
Example ext2_enospc_leaks :
  let (r, s) := ext2_write 12 0 (zeros 9000) vol_s1 in
  r = Err OSError /\ free_blocks_count (e_sb s) = 0 /\ fst (read_inode 12 s) = fst (read_inode 12 vol_s1).
Proof. vm_compute. split_and!; reflexivity. Qed.

(** A name the directory refuses costs an inode: it is allocated first. *)
Example ext2_bad_name_leaks_inode :
  let (r, s) := ext2_create 2 (replicate 256 97) FILE vol_fs in
  r = Err ValueError /\ free_inodes_count (e_sb s) = free_inodes_count (e_sb vol_fs) - 1.
Proof. vm_compute. split; reflexivity. Qed.

(** Freeing a free block leaves the bitmap alone but counts the block again. *)
Example ext2_double_free_counts :
  let s1 := snd (free_block 8 vol_fs) in
  fst (free_block 8 vol_fs) = Ok tt /\ free_blocks_count (e_sb s1) = free_blocks_count (e_sb vol_fs) + 1.
Proof. vm_compute. split; reflexivity. Qed.
