(* ===== verification/Asyncio.v ===== *)
(** * The event loop ([asyncio/futures.py], [tasks.py], [events.py])

    Futures, tasks and handles are objects shared by reference, so the loop's
    state keeps a store of each; a task is a future with a coroutine, under the
    same reference.  Every future belongs to the loop ([create_future],
    [create_task] and [ensure_future] make no other).

    A coroutine is a parameter: [resume c exc] runs it from where it stopped to
    its next [yield] or to its end, on the loop's state.  User callbacks and
    the interrupt dispatcher are parameters too; [l_user] is the memory of
    their own that they share.  Times are integers (ticks of
    the monotonic clock); a turn of the loop is given its clock reading. *)

From Stdlib Require Import ZArith Lia Sorting.Sorted.
From stdpp Require Import base list gmap numbers strings.
From S2P Require Import Prelude Bytes.

Local Open Scope Z_scope.

Inductive fstate : Type := PENDING | CANCELLED | FINISHED.
#[global] Instance fstate_eq_dec : EqDecision fstate.
Proof. solve_decision. Defined.

Definition is_pending (s : fstate) : bool := match s with PENDING => true | _ => false end.

(** Results of coroutines. *)
Inductive val : Type := VNone | VInt (n : Z) | VExn (e : exn) | VList (l : list val).

(** The functions the loop calls: [task._step], [task._wakeup],
    [_set_result_unless_cancelled], and those of its users. *)
Inductive fn : Type := FnStep (t : Z) | FnWakeup (t : Z) | FnSleep (v : val) | FnUser (n : Z).

(** The arguments it passes: none, or the future concerned. *)
Definition farg : Type := option Z.

Record future : Type := mkFuture {
  f_state : fstate;
  f_result : val;
  f_exception : option exn;
  f_callbacks : list fn;
}.

Record handle : Type := mkHandle { h_fn : fn; h_arg : farg; h_cancelled : bool }.

(** What a resumed coroutine did. *)
Inductive outcome : Type :=
| OReturn (v : val)
| ORaise (e : exn)
| OYieldFuture (f : Z)
| OYield.

Section loop.
Context {Coro U : Type}.

Record task : Type := mkTask { t_coro : Coro; t_fut_waiter : option Z; t_must_cancel : bool }.

Record loop : Type := mkLoop {
  l_futures : gmap Z future;
  l_tasks : gmap Z task;
  l_handles : gmap Z handle;
  l_ready : list Z;
  l_scheduled : list (Z * Z);
  l_running : bool;
  l_stopping : bool;
  l_next : Z;
  l_user : U;
}.

Definition loop_init (u : U) : loop := mkLoop ∅ ∅ ∅ [] [] false false 0 u.

Definition set_futures x (s : loop) := mkLoop x (l_tasks s) (l_handles s) (l_ready s) (l_scheduled s) (l_running s) (l_stopping s) (l_next s) (l_user s).
Definition set_tasks x (s : loop) := mkLoop (l_futures s) x (l_handles s) (l_ready s) (l_scheduled s) (l_running s) (l_stopping s) (l_next s) (l_user s).
Definition set_handles x (s : loop) := mkLoop (l_futures s) (l_tasks s) x (l_ready s) (l_scheduled s) (l_running s) (l_stopping s) (l_next s) (l_user s).
Definition set_ready x (s : loop) := mkLoop (l_futures s) (l_tasks s) (l_handles s) x (l_scheduled s) (l_running s) (l_stopping s) (l_next s) (l_user s).
Definition set_scheduled x (s : loop) := mkLoop (l_futures s) (l_tasks s) (l_handles s) (l_ready s) x (l_running s) (l_stopping s) (l_next s) (l_user s).
Definition set_running x (s : loop) := mkLoop (l_futures s) (l_tasks s) (l_handles s) (l_ready s) (l_scheduled s) x (l_stopping s) (l_next s) (l_user s).
Definition set_stopping x (s : loop) := mkLoop (l_futures s) (l_tasks s) (l_handles s) (l_ready s) (l_scheduled s) (l_running s) x (l_next s) (l_user s).

Definition set_user x (s : loop) := mkLoop (l_futures s) (l_tasks s) (l_handles s) (l_ready s) (l_scheduled s) (l_running s) (l_stopping s) (l_next s) x.

(** A fresh object reference. *)
Definition fresh : M loop Z :=
  fun s => (Ok (l_next s), mkLoop (l_futures s) (l_tasks s) (l_handles s) (l_ready s) (l_scheduled s)
                             (l_running s) (l_stopping s) (l_next s + 1) (l_user s)).

Definition get_future (f : Z) : M loop future :=
  fun s => match l_futures s !! f with Some x => (Ok x, s) | None => (Err AttributeError, s) end.
Definition put_future (f : Z) (x : future) : M loop unit :=
  modify (fun s => set_futures (<[f := x]> (l_futures s)) s).

(** ** Scheduling *)

Definition new_handle (g : fn) (a : farg) : M loop Z :=
  let! h := fresh in
  modify (fun s => set_handles (<[h := mkHandle g a false]> (l_handles s)) s) ;;;
  ret h.

Definition call_soon (g : fn) (a : farg) : M loop Z :=
  let! h := new_handle g a in
  modify (fun s => set_ready (l_ready s ++ [h]) s) ;;;
  ret h.

Definition call_soon_threadsafe (g : fn) (a : farg) : M loop Z := call_soon g a.

(** The insertion loop: after every entry that is due no later. *)
Fixpoint insert_at (w h : Z) (l : list (Z * Z)) : list (Z * Z) :=
  match l with
  | [] => [(w, h)]
  | (w', h') :: l' => if w' <=? w then (w', h') :: insert_at w h l' else (w, h) :: l
  end.

Definition call_at (w : Z) (g : fn) (a : farg) : M loop Z :=
  let! h := new_handle g a in
  modify (fun s => set_scheduled (insert_at w h (l_scheduled s)) s) ;;;
  ret h.

Definition call_later (now delay : Z) (g : fn) (a : farg) : M loop Z := call_at (now + delay) g a.

Definition handle_cancel (h : Z) : M loop unit :=
  modify (fun s => set_handles (alter (fun x => mkHandle (h_fn x) (h_arg x) true) h (l_handles s)) s).

Definition stop : M loop unit := modify (set_stopping true).
Definition loop_close : M loop unit := modify (fun s => set_scheduled [] (set_ready [] s)).

(** ** Futures *)

Definition create_future : M loop Z :=
  let! f := fresh in
  put_future f (mkFuture PENDING VNone None []) ;;;
  ret f.

Definition done (x : future) : bool := negb (is_pending (f_state x)).
Definition cancelled (x : future) : bool := match f_state x with CANCELLED => true | _ => false end.

Definition future_result (x : future) : result val :=
  match f_state x with
  | CANCELLED => Err CancelledError
  | PENDING => Err InvalidStateError
  | FINISHED => match f_exception x with Some e => Err e | None => Ok (f_result x) end
  end.

Definition future_exception (x : future) : result (option exn) :=
  match f_state x with
  | CANCELLED => Err CancelledError
  | PENDING => Err InvalidStateError
  | FINISHED => Ok (f_exception x)
  end.

Definition schedule_callbacks (f : Z) : M loop unit :=
  let! x := get_future f in
  put_future f (mkFuture (f_state x) (f_result x) (f_exception x) []) ;;;
  for_each (f_callbacks x) (fun g => let! _ := call_soon g (Some f) in ret tt).

Definition set_result (f : Z) (v : val) : M loop unit :=
  let! x := get_future f in
  if negb (is_pending (f_state x)) then raise InvalidStateError
  else
    put_future f (mkFuture FINISHED v (f_exception x) (f_callbacks x)) ;;;
    schedule_callbacks f.

Definition set_exception (f : Z) (e : exn) : M loop unit :=
  let! x := get_future f in
  if negb (is_pending (f_state x)) then raise InvalidStateError
  else
    put_future f (mkFuture FINISHED (f_result x) (Some e) (f_callbacks x)) ;;;
    schedule_callbacks f.

(** [Future.cancel] *)
Definition future_cancel (f : Z) : M loop bool :=
  let! x := get_future f in
  if negb (is_pending (f_state x)) then ret false
  else
    put_future f (mkFuture CANCELLED (f_result x) (f_exception x) (f_callbacks x)) ;;;
    schedule_callbacks f ;;;
    ret true.

Definition add_done_callback (f : Z) (g : fn) : M loop unit :=
  let! x := get_future f in
  if negb (is_pending (f_state x)) then let! _ := call_soon g (Some f) in ret tt
  else put_future f (mkFuture (f_state x) (f_result x) (f_exception x) (f_callbacks x ++ [g])).

Definition fn_eqb (a b : fn) : bool :=
  match a, b with
  | FnStep x, FnStep y | FnWakeup x, FnWakeup y | FnUser x, FnUser y => x =? y
  | _, _ => false
  end.

Definition remove_done_callback (f : Z) (g : fn) : M loop Z :=
  let! x := get_future f in
  let kept := List.filter (fun c => negb (fn_eqb c g)) (f_callbacks x) in
  put_future f (mkFuture (f_state x) (f_result x) (f_exception x) kept) ;;;
  ret (len (f_callbacks x) - len kept).

(** ** Tasks *)

Definition get_task (t : Z) : M loop task :=
  fun s => match l_tasks s !! t with Some x => (Ok x, s) | None => (Err AttributeError, s) end.
Definition put_task (t : Z) (x : task) : M loop unit :=
  modify (fun s => set_tasks (<[t := x]> (l_tasks s)) s).

Definition create_task (c : Coro) : M loop Z :=
  let! t := create_future in
  put_task t (mkTask c None false) ;;;
  let! _ := call_soon (FnStep t) None in
  ret t.

(** [cancel] of an object that is a task or a plain future: a task marks
    itself and cancels the future it waits for, which may be a task. *)
Fixpoint cancel (fuel : nat) (f : Z) : M loop bool :=
  match fuel with
  | O => raise RuntimeError
  | S fuel' =>
      let! ts := gets l_tasks in
      match ts !! f with
      | None => future_cancel f
      | Some t =>
          put_task f (mkTask (t_coro t) (t_fut_waiter t) true) ;;;
          match t_fut_waiter t with
          | Some w => cancel fuel' w
          | None => ret true
          end
      end
  end.

Context (resume : Coro -> option exn -> M loop (Coro * outcome)).
Context (user_call : Z -> farg -> M loop unit).
Context (dispatch_interrupts : M loop unit).

Definition task_step (t : Z) (exc : option exn) : M loop unit :=
  let! x := get_task t in
  let exc := if t_must_cancel x then Some CancelledError else exc in
  put_task t (mkTask (t_coro x) None false) ;;;
  let! (c, out) := resume (t_coro x) exc in
  modify (fun s => set_tasks (alter (fun y => mkTask c (t_fut_waiter y) (t_must_cancel y)) t (l_tasks s)) s) ;;;
  match out with
  | OReturn v => set_result t v
  | ORaise CancelledError => let! _ := future_cancel t in ret tt
  | ORaise e => set_exception t e
  | OYieldFuture f =>
      modify (fun s => set_tasks (alter (fun y => mkTask (t_coro y) (Some f) (t_must_cancel y)) t (l_tasks s)) s) ;;;
      add_done_callback f (FnWakeup t)
  | OYield => let! _ := call_soon (FnStep t) None in ret tt
  end.

Definition task_wakeup (t f : Z) : M loop unit :=
  let! x := get_future f in
  match future_result x with
  | Ok _ => task_step t None
  | Err e => task_step t (Some e)
  end.

(** ** The loop *)

Definition set_result_unless_cancelled (f : Z) (v : val) : M loop unit :=
  let! x := get_future f in
  if cancelled x then ret tt else set_result f v.

Definition call (g : fn) (a : farg) : M loop unit :=
  match g, a with
  | FnStep t, _ => task_step t None
  | FnWakeup t, Some f => task_wakeup t f
  | FnSleep v, Some f => set_result_unless_cancelled f v
  | FnUser n, _ => user_call n a
  | _, None => raise TypeError
  end.

(** [_Handle._run]: an [Exception] is reported and dropped;
    [CancelledError] is a [BaseException] and goes through. *)
Definition handle_run (h : Z) : M loop unit :=
  let! hs := gets l_handles in
  match hs !! h with
  | None => raise AttributeError
  | Some x =>
      if h_cancelled x then ret tt
      else try_except (call (h_fn x) (h_arg x))
             (fun e => match e with CancelledError => raise e | _ => ret tt end)
  end.

(** Promotion of the timers that are due. *)
Fixpoint promote (now : Z) (sched : list (Z * Z)) : list Z * list (Z * Z) :=
  match sched with
  | (w, h) :: l => if w <=? now then let (d, r) := promote now l in (h :: d, r) else ([], sched)
  | [] => ([], [])
  end.

(** [for _ in range(ntodo)]: pop a handle and run it. *)
Fixpoint run_ready (ntodo : nat) : M loop unit :=
  match ntodo with
  | O => ret tt
  | S n =>
      let! rd := gets l_ready in
      match rd with
      | [] => ret tt
      | h :: rest =>
          modify (set_ready rest) ;;;
          handle_run h ;;;
          run_ready n
      end
  end.

Definition run_once (now : Z) : M loop unit :=
  try_except dispatch_interrupts (fun e => match e with CancelledError => raise e | _ => ret tt end) ;;;
  let! sched := gets l_scheduled in
  let (due, rest) := promote now sched in
  modify (fun s => set_ready (l_ready s ++ due) (set_scheduled rest s)) ;;;
  let! rd := gets l_ready in
  run_ready (length rd).

(** [run_until_complete] of a future, with the clock readings of its turns:
    [None] when it is still running after them. *)
Fixpoint run_turns (clock : list Z) (f : Z) : M loop (option unit) :=
  let! x := get_future f in
  let! stopping := gets l_stopping in
  if negb (done x) && negb stopping then
    match clock with
    | [] => ret None
    | now :: clock' => run_once now ;;; run_turns clock' f
    end
  else ret (Some tt).

Definition run_until_complete (clock : list Z) (f : Z) : M loop (option val) :=
  modify (set_running true) ;;;
  modify (set_stopping false) ;;;
  let! o := try_except (run_turns clock f) (fun e => modify (set_running false) ;;; raise e) in
  match o with
  | None => ret None
  | Some _ =>
      modify (set_running false) ;;;
      let! x := get_future f in
      if cancelled x then raise CancelledError
      else let! v := lift (future_result x) in ret (Some v)
  end.

(** [ensure_future]: a coroutine becomes a task, a future stays. *)
Definition ensure_future (x : Coro + Z) : M loop Z :=
  match x with inl c => create_task c | inr f => ret f end.
End loop.
Arguments loop : clear implicits.
Arguments task : clear implicits.
