(* ===== verification/AsyncioProps.v ===== *)
(** * Properties of the event loop

    Code that runs under the loop acts on it through its methods only
    ([uses_loop]).  For such code: a completed future never changes; the timer
    list stays sorted; callbacks run in the order they became ready, and one
    turn runs exactly those that were ready when it began. *)

From Stdlib Require Import ZArith Lia Sorting.Sorted.
From stdpp Require Import base list gmap numbers strings.
From S2P Require Import Prelude Bytes Asyncio.

Local Open Scope Z_scope.

Section props.
Context {Coro U : Type}.
Abbreviation loop := (Asyncio.loop Coro U).
Implicit Types s : loop.

(** Programs over the loop's methods. *)
Inductive uses_loop : forall {A}, M loop A -> Prop :=
| ul_ret A (a : A) : uses_loop (ret a)
| ul_raise A e : uses_loop (raise (A := A) e)
| ul_lift A (r : result A) : uses_loop (lift r)
| ul_gets A (f : loop -> A) : uses_loop (gets f)
| ul_bind A B (m : M loop A) (f : A -> M loop B) :
    uses_loop m -> (forall a, uses_loop (f a)) -> uses_loop (bind m f)
| ul_try A (m : M loop A) h : uses_loop m -> (forall e, uses_loop (h e)) -> uses_loop (try_except m h)
| ul_get f : uses_loop (get_future f)
| ul_call_soon g a : uses_loop (call_soon g a)
| ul_call_at w g a : uses_loop (call_at w g a)
| ul_handle_cancel h : uses_loop (handle_cancel h)
| ul_stop : uses_loop stop
| ul_create_future : uses_loop create_future
| ul_create_task c : uses_loop (create_task c)
| ul_set_result f v : uses_loop (set_result f v)
| ul_set_exception f e : uses_loop (set_exception f e)
| ul_future_cancel f : uses_loop (future_cancel f)
| ul_cancel n f : uses_loop (cancel n f)
| ul_add f g : uses_loop (add_done_callback f g)
| ul_remove f g : uses_loop (remove_done_callback f g)
| ul_user h : uses_loop (modify (fun s => set_user (h (l_user s)) s)).

(** A relation between states that the basic steps respect: what the methods
    guarantee of one another. *)
Record guarantee (R : loop -> loop -> Prop) : Prop := {
  gu_refl s : R s s;
  gu_trans s1 s2 s3 : R s1 s2 -> R s2 s3 -> R s1 s3;
}.
Definition ensures {A} (R : loop -> loop -> Prop) (m : M loop A) : Prop := forall s r s', m s = (r, s') -> R s s'.

Section ensures.
Context (R : loop -> loop -> Prop) (HR : guarantee R).

Lemma ensures_pure {A} (m : M loop A) : (forall s, snd (m s) = s) -> ensures R m.
Proof. intros Hm s r s' E. specialize (Hm s). rewrite E in Hm. simpl in Hm. subst. apply HR. Qed.
Lemma ensures_bind {A B} (m : M loop A) (f : A -> M loop B) :
  ensures R m -> (forall a, ensures R (f a)) -> ensures R (bind m f).
Proof.
  intros Hm Hf s r s'. unfold bind. destruct (m s) as [[a|e] s1] eqn:E; intros E'.
  - eapply (gu_trans _ HR); [by eapply Hm|by eapply Hf].
  - simplify_eq. by eapply Hm.
Qed.
Lemma ensures_try {A} (m : M loop A) h :
  ensures R m -> (forall e, ensures R (h e)) -> ensures R (try_except m h).
Proof.
  intros Hm Hf s r s'. unfold try_except. destruct (m s) as [[a|e] s1] eqn:E; intros E'.
  - simplify_eq. by eapply Hm.
  - eapply (gu_trans _ HR); [by eapply Hm|by eapply Hf].
Qed.
Lemma ensures_modify f : (forall s, R s (f s)) -> ensures R (modify f).
Proof. intros Hf s r s' [= _ <-]. apply Hf. Qed.
Lemma ensures_for_each {A} (l : list A) body : (forall x, ensures R (body x)) -> ensures R (for_each l body).
Proof.
  intros Hb. induction l as [|x l IH]; simpl; [by apply ensures_pure|]. by apply ensures_bind.
Qed.
End ensures.

(** ** Futures are final *)

(** Completed futures keep state, result and exception; references are never
    reused. *)
Definition same_outcome (x y : future) : Prop :=
  f_state y = f_state x /\ f_result y = f_result x /\ f_exception y = f_exception x.
Definition ids_ok s : Prop := forall f, is_Some (l_futures s !! f) -> f < l_next s.
Definition finals s s' : Prop :=
  ids_ok s -> ids_ok s' /\ l_next s <= l_next s' /\
  forall f x, l_futures s !! f = Some x -> exists y, l_futures s' !! f = Some y /\
    (done x = true -> same_outcome x y).

Lemma finals_guarantee : guarantee finals.
Proof.
  split.
  - intros s Hi. split_and!; [done|lia|]. intros f x Hx. exists x. by split.
  - intros s1 s2 s3 H12 H23 Hi. destruct (H12 Hi) as (Hi2 & Hn2 & Hf2). destruct (H23 Hi2) as (Hi3 & Hn3 & Hf3).
    split_and!; [done|lia|]. intros f x Hx. destruct (Hf2 f x Hx) as (y & Hy & Hxy).
    destruct (Hf3 f y Hy) as (z & Hz & Hyz). exists z. split; [done|]. intros Hd.
    destruct (Hxy Hd) as (E1 & E2 & E3). destruct Hyz as (E4 & E5 & E6); [unfold done in *; by rewrite E1|].
    split_and!; congruence.
Qed.

(** Steps that do not touch the futures. *)
Lemma finals_same s s' : l_futures s' = l_futures s -> l_next s <= l_next s' -> finals s s'.
Proof.
  intros Hf Hn Hi. split_and!; [|done|].
  - intros f. rewrite Hf. intros Hs. specialize (Hi f Hs). lia.
  - intros f x Hx. exists x. rewrite Hf. by split.
Qed.

Lemma finals_put f x y s :
  l_futures s !! f = Some x -> (done x = true -> same_outcome x y) -> finals s (set_futures (<[f := y]> (l_futures s)) s).
Proof.
  intros Hx Hxy Hi. split_and!; [|done|].
  - intros f' [z Hz]. simpl in Hz. apply lookup_insert_Some in Hz as [[<- _]|[_ Hz]]; eauto.
  - intros f' x' Hx'. simpl. destruct (decide (f' = f)) as [->|Hne].
    + rewrite lookup_insert_eq. exists y. split; [done|]. rewrite Hx in Hx'. by injection Hx' as <-.
    + rewrite lookup_insert_ne by done. exists x'. by split.
Qed.

(** ** What the methods guarantee *)

Definition due_order (a b : Z * Z) : Prop := a.1 <= b.1.
Definition timers_ok s : Prop := StronglySorted due_order (l_scheduled s).

(** Final outcomes stay, the ready list only grows at its end, and the timers
    stay sorted. *)
Record guar s s' : Prop := {
  g_final : finals s s';
  g_ready : exists new, l_ready s' = l_ready s ++ new;
  g_timers : timers_ok s -> timers_ok s';
}.

Lemma guar_guarantee : guarantee guar.
Proof.
  split.
  - intros s. split; [apply finals_guarantee|exists []; by rewrite app_nil_r|done].
  - intros s1 s2 s3 [F1 [n1 R1] T1] [F2 [n2 R2] T2]. split; [by eapply finals_guarantee| |auto].
    exists (n1 ++ n2). by rewrite R2, R1, (assoc_L (++)).
Qed.

Lemma guar_same s s' : l_futures s' = l_futures s -> l_next s <= l_next s' -> l_ready s' = l_ready s ->
  l_scheduled s' = l_scheduled s -> guar s s'.
Proof.
  intros Hf Hn Hr Hs. split; [by apply finals_same|exists []; by rewrite app_nil_r|]. unfold timers_ok. by rewrite Hs.
Qed.

Lemma guar_put f x y s :
  l_futures s !! f = Some x -> (done x = true -> same_outcome x y) -> guar s (set_futures (<[f := y]> (l_futures s)) s).
Proof. intros Hx Hxy. split; [by eapply finals_put|exists []; by rewrite app_nil_r|done]. Qed.

Lemma insert_at_sorted w h l : StronglySorted due_order l -> StronglySorted due_order (insert_at w h l).
Proof.
  induction 1 as [|[w' h'] l Hs IH Hx]; simpl; [repeat constructor|].
  destruct (Z.leb_spec w' w).
  - constructor; [done|]. clear IH Hs. induction l as [|[w2 h2] l IHl]; simpl; [repeat constructor; done|].
    apply list.Forall_cons in Hx as [H2 Hx]. case_match; constructor; auto.
  - constructor; [by constructor|]. constructor; [unfold due_order; simpl; lia|].
    eapply list.Forall_impl; [exact Hx|]. unfold due_order. simpl. lia.
Qed.

Lemma en_call_soon g a : ensures guar (call_soon (Coro := Coro) (U := U) g a).
Proof.
  intros s r s' E. unfold call_soon, new_handle, fresh, bind, modify, ret in E. injection E as _ <-.
  split; simpl; [by apply finals_same; simpl; [|lia]|by eexists|done].
Qed.
Lemma en_call_at w g a : ensures guar (call_at (Coro := Coro) (U := U) w g a).
Proof.
  intros s r s' E. unfold call_at, new_handle, fresh, bind, modify, ret in E. injection E as _ <-.
  split; simpl; [by apply finals_same; simpl; [|lia]|exists []; by rewrite app_nil_r|].
  apply insert_at_sorted.
Qed.
Lemma en_create_future : ensures guar (create_future (Coro := Coro) (U := U)).
Proof.
  intros s r s' E. unfold create_future, put_future, fresh, bind, modify, ret in E. injection E as _ <-.
  split; simpl; [|exists []; by rewrite app_nil_r|done]. intros Hi. split_and!; simpl; [|lia|].
  - intros f [x Hx]. simpl in Hx. apply lookup_insert_Some in Hx as [[<- _]|[_ Hx]]; simpl; [lia|].
    specialize (Hi f (mk_is_Some _ _ Hx)). lia.
  - intros f x Hx. exists x. split; [|done]. rewrite lookup_insert_ne; [done|]. intros <-.
    specialize (Hi _ (mk_is_Some _ _ Hx)). lia.
Qed.

(** A method that reads a future and goes on from there. *)
Lemma en_get_future {A} f (k : future -> M loop A) :
  (forall s x r s', l_futures s !! f = Some x -> k x s = (r, s') -> guar s s') -> ensures guar (bind (get_future f) k).
Proof.
  intros Hk s r s'. unfold bind, get_future. destruct (l_futures s !! f) as [x|] eqn:Hx.
  - by apply Hk.
  - intros [= _ <-]. apply guar_guarantee.
Qed.

Lemma en_schedule f : ensures guar (schedule_callbacks (Coro := Coro) (U := U) f).
Proof.
  apply en_get_future. intros s x r s' Hx. unfold bind at 1, put_future, modify. intros E.
  eapply (gu_trans _ guar_guarantee).
  - eapply (guar_put f x (mkFuture (f_state x) (f_result x) (f_exception x) [])); [done|]. by intros ?.
  - eapply ensures_for_each; [apply guar_guarantee| |exact E]. intros g.
    apply ensures_bind; [apply guar_guarantee|apply en_call_soon|]. intros ?.
    apply ensures_pure; [apply guar_guarantee|done].
Qed.

(** Completing a pending future. *)
Lemma en_complete {A} f x y s r s' (k : M loop A) :
  l_futures s !! f = Some x -> is_pending (f_state x) = true -> ensures guar k ->
  (put_future f y ;;; k) s = (r, s') -> guar s s'.
Proof.
  intros Hx Hp Hk. unfold bind, put_future, modify. intros E. eapply (gu_trans _ guar_guarantee).
  - eapply (guar_put f x y); [done|]. unfold done. by rewrite Hp.
  - eapply Hk. exact E.
Qed.

Ltac guar_refl := intros [= _ <-]; apply guar_guarantee.

Lemma en_set_result f v : ensures guar (set_result (Coro := Coro) (U := U) f v).
Proof.
  apply en_get_future. intros s x r s' Hx. destruct (is_pending (f_state x)) eqn:Hp; simpl; [|guar_refl].
  by eapply en_complete, en_schedule.
Qed.
Lemma en_set_exception f e : ensures guar (set_exception (Coro := Coro) (U := U) f e).
Proof.
  apply en_get_future. intros s x r s' Hx. destruct (is_pending (f_state x)) eqn:Hp; simpl; [|guar_refl].
  by eapply en_complete, en_schedule.
Qed.
Lemma en_future_cancel f : ensures guar (future_cancel (Coro := Coro) (U := U) f).
Proof.
  apply en_get_future. intros s x r s' Hx. destruct (is_pending (f_state x)) eqn:Hp; simpl; [|guar_refl].
  eapply en_complete; [done..|]. apply ensures_bind; [apply guar_guarantee|apply en_schedule|]. intros ?.
  apply ensures_pure; [apply guar_guarantee|done].
Qed.
Lemma en_add f g : ensures guar (add_done_callback (Coro := Coro) (U := U) f g).
Proof.
  apply en_get_future. intros s x r s' Hx. destruct (is_pending (f_state x)) eqn:Hp; simpl.
  - intros [= _ <-]. eapply guar_put; [done|]. by intros ?.
  - intros E. eapply (ensures_bind guar guar_guarantee); [apply en_call_soon| |exact E]. intros ?.
    apply ensures_pure; [apply guar_guarantee|done].
Qed.
Lemma en_remove f g : ensures guar (remove_done_callback (Coro := Coro) (U := U) f g).
Proof.
  apply en_get_future. intros s x r s' Hx [= _ <-]. eapply guar_put; [done|]. by intros ?.
Qed.
Lemma en_modify (h : loop -> loop) : (forall s, l_futures (h s) = l_futures s /\ l_next (h s) = l_next s /\
  l_ready (h s) = l_ready s /\ l_scheduled (h s) = l_scheduled s) -> ensures guar (modify h).
Proof.
  intros Hh. apply ensures_modify. intros s. destruct (Hh s) as (E1 & E2 & E3 & E4).
  apply guar_same; try done. lia.
Qed.
Lemma en_cancel n f : ensures guar (cancel (Coro := Coro) (U := U) n f).
Proof.
  revert f. induction n as [|n IH]; intros f; cbn [cancel]; [by apply ensures_pure; [apply guar_guarantee|]|].
  apply ensures_bind; [apply guar_guarantee|by apply ensures_pure; [apply guar_guarantee|]|]. intros ts.
  case_match; [|apply en_future_cancel]. apply ensures_bind; [apply guar_guarantee|by apply en_modify|]. intros ?.
  case_match; [apply IH|by apply ensures_pure; [apply guar_guarantee|]].
Qed.
Lemma en_create_task c : ensures guar (create_task (Coro := Coro) (U := U) c).
Proof.
  apply ensures_bind; [apply guar_guarantee|apply en_create_future|]. intros t.
  apply ensures_bind; [apply guar_guarantee|by apply en_modify|]. intros ?.
  apply ensures_bind; [apply guar_guarantee|apply en_call_soon|]. intros h.
  by apply ensures_pure; [apply guar_guarantee|].
Qed.

Lemma uses_loop_guar {A} (m : M loop A) : uses_loop m -> ensures guar m.
Proof.
  induction 1; try (by apply ensures_pure; [apply guar_guarantee|]);
    auto using en_call_soon, en_call_at, en_create_future, en_create_task, en_set_result, en_set_exception,
      en_future_cancel, en_cancel, en_add, en_remove.
  - by apply ensures_bind; [apply guar_guarantee|..].
  - by apply ensures_try; [apply guar_guarantee|..].
  - apply ensures_pure; [apply guar_guarantee|]. intros s. unfold get_future. by case_match.
  - by apply en_modify.
  - by apply en_modify.
  - by apply en_modify.
Qed.

(** ** Completion *)

Lemma call_all cs f s :
  exists hs s', for_each cs (fun g => let! _ := call_soon g (Some f) in ret tt) s = (Ok tt, s') /\
    l_ready s' = l_ready s ++ hs /\ l_futures s' = l_futures s /\ l_next s <= l_next s' /\
    (forall h, h < l_next s -> l_handles s' !! h = l_handles s !! h) /\
    Forall2 (fun h g => l_handles s' !! h = Some (mkHandle g (Some f) false)) hs cs.
Proof.
  revert s. induction cs as [|g cs IH]; intros s.
  { exists [], s. split_and!; [done|by rewrite app_nil_r|done|lia|done|constructor]. }
  cbn [for_each]. set (s1 := snd (call_soon g (Some f) s)).
  assert (Hn1 : l_next s1 = l_next s + 1) by done.
  destruct (IH s1) as (hs & s' & E & Hr & Hf & Hn & Hold & Hall). exists (l_next s :: hs), s'. split_and!.
  - etransitivity; [|exact E]. reflexivity.
  - rewrite Hr. unfold s1. simpl. by rewrite <- (assoc_L (++)).
  - by rewrite Hf.
  - lia.
  - intros h Hh. rewrite Hold by lia. unfold s1. simpl. rewrite lookup_insert_ne; [done|lia].
  - constructor; [|done]. rewrite Hold by lia. unfold s1. simpl. by rewrite lookup_insert_eq.
Qed.

(** Completing a future schedules each of its callbacks exactly once, in
    the order they were added, with the future as argument, behind the
    callbacks already waiting; the future then has its result and no
    callbacks left, and completing it again raises InvalidStateError. *)
Theorem future_set_result s f x v v' :
  l_futures s !! f = Some x -> f_state x = PENDING ->
  exists s' hs,
    set_result f v s = (Ok tt, s') /\
    l_futures s' !! f = Some (mkFuture FINISHED v (f_exception x) []) /\
    l_ready s' = l_ready s ++ hs /\
    Forall2 (fun h g => l_handles s' !! h = Some (mkHandle g (Some f) false)) hs (f_callbacks x) /\
    set_result f v' s' = (Err InvalidStateError, s').
Proof.
  intros Hx Hp.
  set (s1 := set_futures (<[f := mkFuture FINISHED v (f_exception x) []]>
               (<[f := mkFuture FINISHED v (f_exception x) (f_callbacks x)]> (l_futures s))) s).
  destruct (call_all (f_callbacks x) f s1) as (hs & s' & E & Hr & Hf & _ & _ & Hall).
  assert (Hfin : l_futures s' !! f = Some (mkFuture FINISHED v (f_exception x) [])).
  { rewrite Hf. simpl. by rewrite lookup_insert_eq. }
  exists s', hs. split_and!; [|done|done|done|].
  - unfold set_result, bind at 1, get_future. rewrite Hx, Hp. simpl.
    unfold schedule_callbacks, bind at 1, put_future, modify. unfold bind at 1, get_future. simpl.
    rewrite lookup_insert_eq. exact E.
  - unfold set_result, bind, get_future. by rewrite Hfin.
Qed.

(** ** Timers *)

Lemma filter_none {A} (p : A -> bool) l : Forall (fun x => p x = false) l -> List.filter p l = [].
Proof. induction 1 as [|x l Hx Hl IH]; simpl; [done|]. by rewrite Hx. Qed.
Lemma filter_all {A} (p : A -> bool) l : Forall (fun x => p x = true) l -> List.filter p l = l.
Proof. induction 1 as [|x l Hx Hl IH]; simpl; [done|]. by rewrite Hx, IH. Qed.

Definition due (now : Z) (e : Z * Z) : bool := e.1 <=? now.

Lemma sorted_split now l : StronglySorted due_order l ->
  promote now l = (map snd (List.filter (due now) l), List.filter (fun e => negb (due now e)) l).
Proof.
  induction 1 as [|[w h] l Hs IH Hx]; simpl; [done|]. change (due now (w, h)) with (w <=? now).
  destruct (Z.leb_spec w now); simpl; [by rewrite IH|].
  assert (Hlate : Forall (fun e => due now e = false) l).
  { eapply list.Forall_impl; [exact Hx|]. intros e He. unfold due_order, due in *. simpl in He. lia. }
  rewrite (filter_none (due now) l Hlate), filter_all; [done|].
  eapply list.Forall_impl; [exact Hlate|]. simpl. by intros e ->.
Qed.

Lemma insert_at_spec w h l : StronglySorted due_order l ->
  insert_at w h l = List.filter (due w) l ++ (w, h) :: List.filter (fun e => negb (due w e)) l.
Proof.
  induction 1 as [|[w' h'] l Hs IH Hx]; simpl; [done|]. change (due w (w', h')) with (w' <=? w).
  destruct (Z.leb_spec w' w); simpl; [by rewrite IH|].
  assert (Hlate : Forall (fun e => due w e = false) l).
  { eapply list.Forall_impl; [exact Hx|]. intros e He. unfold due_order, due in *. simpl in He. lia. }
  rewrite (filter_none (due w) l Hlate), filter_all; [done|].
  eapply list.Forall_impl; [exact Hlate|]. simpl. by intros e ->.
Qed.

(** ** The turns of the loop *)

Section run.
Context (resume : Coro -> option exn -> M loop (Coro * outcome)).
Context (user_call : Z -> farg -> M loop unit).
Context (dispatch_interrupts : M loop unit).
Context (Hresume : forall c e, uses_loop (resume c e)).
Context (Huser : forall n a, uses_loop (user_call n a)).
Context (Hdispatch : uses_loop dispatch_interrupts).

Lemma en_task_step t exc : ensures guar (task_step resume t exc).
Proof.
  unfold task_step. apply ensures_bind; [apply guar_guarantee| |].
  { apply ensures_pure; [apply guar_guarantee|]. intros s. unfold get_task. by case_match. }
  intros x. apply ensures_bind; [apply guar_guarantee|by apply en_modify|]. intros ?.
  apply ensures_bind; [apply guar_guarantee|apply uses_loop_guar, Hresume|]. intros [c out].
  apply ensures_bind; [apply guar_guarantee|by apply en_modify|]. intros ?.
  destruct out as [v|e|f|].
  - apply en_set_result.
  - destruct e; try apply en_set_exception. apply ensures_bind; [apply guar_guarantee|apply en_future_cancel|].
    intros ?. by apply ensures_pure; [apply guar_guarantee|].
  - apply ensures_bind; [apply guar_guarantee|by apply en_modify|]. intros ?. apply en_add.
  - apply ensures_bind; [apply guar_guarantee|apply en_call_soon|].
    intros ?. by apply ensures_pure; [apply guar_guarantee|].
Qed.

Lemma en_call g a : ensures guar (call resume user_call g a).
Proof.
  destruct g as [t|t|v|n]; simpl.
  - apply en_task_step.
  - destruct a as [f|]; [|by apply ensures_pure; [apply guar_guarantee|]].
    apply en_get_future. intros s x r s' _. destruct (future_result x); apply en_task_step.
  - destruct a as [f|]; [|by apply ensures_pure; [apply guar_guarantee|]].
    apply en_get_future. intros s x r s' _. case_match; [by intros [= _ <-]; apply guar_guarantee|apply en_set_result].
  - apply uses_loop_guar, Huser.
Qed.

Lemma en_handle_run h : ensures guar (handle_run resume user_call h).
Proof.
  unfold handle_run. apply ensures_bind; [apply guar_guarantee|by apply ensures_pure; [apply guar_guarantee|]|].
  intros hs. case_match; [|by apply ensures_pure; [apply guar_guarantee|]].
  case_match; [by apply ensures_pure; [apply guar_guarantee|]|].
  apply ensures_try; [apply guar_guarantee|apply en_call|]. intros e.
  apply ensures_pure; [apply guar_guarantee|]. by destruct e.
Qed.

(** Outcomes and timers through a whole turn. *)
Definition turn_keeps s s' : Prop := finals s s' /\ (timers_ok s -> timers_ok s').
Lemma turn_guarantee : guarantee turn_keeps.
Proof.
  split.
  - intros s. split; [apply finals_guarantee|done].
  - intros s1 s2 s3 [F1 T1] [F2 T2]. split; [by eapply finals_guarantee|auto].
Qed.
Lemma en_weaken {A} (m : M loop A) : ensures guar m -> ensures turn_keeps m.
Proof. intros Hm s r s' E. destruct (Hm _ _ _ E). by split. Qed.

Lemma en_run_ready n : ensures turn_keeps (run_ready resume user_call n).
Proof.
  induction n as [|n IH]; cbn [run_ready]; [by apply ensures_pure; [apply turn_guarantee|]|].
  apply ensures_bind; [apply turn_guarantee|by apply ensures_pure; [apply turn_guarantee|]|]. intros [|h rest].
  - by apply ensures_pure; [apply turn_guarantee|].
  - apply ensures_bind; [apply turn_guarantee| |].
    { apply ensures_modify. intros s. split; [by apply finals_same|done]. }
    intros ?. apply ensures_bind; [apply turn_guarantee|apply en_weaken, en_handle_run|]. by intros ?.
Qed.

Lemma promote_sorted now l : StronglySorted due_order l -> StronglySorted due_order (snd (promote now l)).
Proof.
  induction 1 as [|[w h] l Hs IH Hx]; simpl; [constructor|]. case_match; [by destruct (promote now l)|].
  by constructor.
Qed.

Lemma en_run_once now : ensures turn_keeps (run_once resume user_call dispatch_interrupts now).
Proof.
  unfold run_once. apply ensures_bind; [apply turn_guarantee| |].
  { apply ensures_try; [apply turn_guarantee|apply en_weaken, uses_loop_guar, Hdispatch|].
    intros e. apply ensures_pure; [apply turn_guarantee|]. by destruct e. }
  intros ? s r s'. unfold bind at 1, gets at 1.
  destruct (promote now (l_scheduled s)) as [d rest] eqn:Ep. unfold bind at 1, modify at 1. intros E.
  eapply (gu_trans _ turn_guarantee s (set_ready (l_ready s ++ d) (set_scheduled rest s))).
  - split; [by apply finals_same|]. unfold timers_ok. simpl. intros Hs.
    pose proof (promote_sorted now _ Hs) as Hp. by rewrite Ep in Hp.
  - unfold bind, gets in E. by apply (en_run_ready _ _ _ _ E).
Qed.

(** C6: a future is completed once and for all: whatever coroutines, callbacks
    and interrupt handlers do through the loop's methods in a turn, a future
    that was done before it has the same state, result and exception after
    it. *)
Theorem future_final now s r s' f x :
  ids_ok s -> run_once resume user_call dispatch_interrupts now s = (r, s') ->
  l_futures s !! f = Some x -> done x = true ->
  exists y, l_futures s' !! f = Some y /\ same_outcome x y /\ future_result y = future_result x.
Proof.
  intros Hi E Hx Hd. destruct (en_run_once now _ _ _ E) as [Hf _].
  destruct (Hf Hi) as (_ & _ & Hy). destruct (Hy f x Hx) as (y & Hfy & Hs). exists y. split; [done|].
  split; [by apply Hs|]. destruct (Hs Hd) as (E1 & E2 & E3). unfold future_result. by rewrite E1, E2, E3.
Qed.

(** C34: timers fire in order: in every state a sequence of turns reaches, a
    new timer is queued after all timers due at its time or earlier and before
    the later ones, and a turn takes out exactly the timers that are due, the
    earliest first and those of one time in the order they were set. *)
Theorem loop_timers s0 s w h now :
  timers_ok s0 ->
  steps (fun a b => exists t r, run_once resume user_call dispatch_interrupts t a = (r, b)) s0 s ->
  insert_at w h (l_scheduled s) =
    List.filter (due w) (l_scheduled s) ++ (w, h) :: List.filter (fun e => negb (due w e)) (l_scheduled s) /\
  promote now (l_scheduled s) =
    (map snd (List.filter (due now) (l_scheduled s)), List.filter (fun e => negb (due now e)) (l_scheduled s)) /\
  StronglySorted due_order (l_scheduled s).
Proof.
  intros H0 Hs. assert (Ht : timers_ok s).
  { eapply (steps_invariant _ timers_ok); [|exact H0|exact Hs]. intros a b Ha (t & r & E).
    by apply (en_run_once t _ _ _ E). }
  split_and!; [by apply insert_at_spec|by apply sorted_split|done].
Qed.

(** C8: one turn runs exactly the callbacks that were ready when it began
    running them, first come first served: with [l] the ready list, the turn is
    the run of the handles of [l] in order, each taken off the list before it
    runs, and what they schedule meanwhile waits, in order, for the next
    turn. *)
Theorem loop_turn_fifo s l extra :
  l_ready s = l ++ extra ->
  run_ready resume user_call (length l) s =
    for_each l (fun h => modify (fun s => set_ready (tail (l_ready s)) s) ;;; handle_run resume user_call h) s /\
  forall s', run_ready resume user_call (length l) s = (Ok tt, s') -> exists new, l_ready s' = extra ++ new.
Proof.
  revert s extra. induction l as [|h l IH]; intros s extra Hr.
  { split; [done|]. intros s' [= <-]. exists []. by rewrite app_nil_r. }
  set (s1 := set_ready (l ++ extra) s).
  assert (Hr1 : l_ready s1 = l ++ extra) by done.
  assert (Hgo : run_ready resume user_call (length (h :: l)) s =
                (handle_run resume user_call h ;;; run_ready resume user_call (length l)) s1).
  { cbn [length run_ready]. unfold bind at 1, gets at 1. by rewrite Hr. }
  rewrite Hgo. cbn [for_each]. split.
  - rewrite bind_assoc.
    rewrite (bind_step (modify (fun s => set_ready (tail (l_ready s)) s)) _ s tt s1).
    2:{ unfold modify. by rewrite Hr. }
    unfold bind. destruct (handle_run resume user_call h s1) as [[u|e] s2] eqn:E; [|done].
    destruct (en_handle_run h _ _ _ E) as [_ [new Hn] _]. rewrite Hr1, <- (assoc_L (++)) in Hn.
    by apply (IH s2 (extra ++ new)).
  - intros s' E'. unfold bind in E'. destruct (handle_run resume user_call h s1) as [[u|e] s2] eqn:E; [|done].
    destruct (en_handle_run h _ _ _ E) as [_ [new Hn] _]. rewrite Hr1, <- (assoc_L (++)) in Hn.
    destruct (proj2 (IH s2 (extra ++ new) Hn) s' E') as [new' Hn']. exists (new ++ new').
    by rewrite Hn', (assoc_L (++)).
Qed.
End run.
End props.
