(* ===== verification/Sync.v ===== *)
(** * Synchronisation and combinators ([asyncio/locks.py], [queues.py],
    [__init__.py])

    A coroutine method is cut at its [await]: [..._start] runs to the first
    suspension ([Wait f]: awaiting future [f]) or to the end ([Done v]), and
    [..._resume] goes on from there with what the [await] gave, the result of
    the future or the exception thrown into the coroutine.  The primitive itself
    is the user memory of the loop. *)

From Stdlib Require Import ZArith Lia.
From stdpp Require Import base list gmap numbers strings.
From S2P Require Import Prelude Bytes Asyncio.

Local Open Scope Z_scope.

Inductive progress (A : Type) : Type := Done (a : A) | Wait (f : Z).
Arguments Done {A} a.
Arguments Wait {A} f.

Section sync.
Context {Coro U : Type}.
Abbreviation loop := (Asyncio.loop Coro U).

(** What [await f] gives the coroutine when its task resumes it: the exception
    thrown in, or the outcome of the future. *)
Definition await_outcome (f : Z) (exc : option exn) : M loop (result val) :=
  match exc with
  | Some e => ret (Err e)
  | None =>
      let! x := get_future f in
      ret (if done x then future_result x else Err RuntimeError)
  end.

(** [list.remove] of a future, where absence is tolerated. *)
Fixpoint remove_fut (f : Z) (l : list Z) : list Z :=
  match l with
  | [] => []
  | x :: l' => if x =? f then l' else x :: remove_fut f l'
  end.

(** [for fut in waiters: if not fut.done(): fut.set_result(None); break]: the
    future woken, if any. *)
Fixpoint wake_first (l : list Z) : M loop (option Z) :=
  match l with
  | [] => ret None
  | f :: l' =>
      let! x := get_future f in
      if done x then wake_first l' else set_result f VNone ;;; ret (Some f)
  end.
End sync.

(** ** Event *)

Record event : Type := mkEvent { ev_flag : bool; ev_waiters : list Z }.
Definition Event_init : event := mkEvent false [].

Section event.
Context {Coro : Type}.
Abbreviation loop := (Asyncio.loop Coro event).

Definition event_set : M loop unit :=
  let! ev := gets l_user in
  if ev_flag ev then ret tt
  else
    modify (fun s => set_user (mkEvent true (ev_waiters (l_user s))) s) ;;;
    for_each (ev_waiters ev) (fun f =>
      let! x := get_future f in
      if done x then ret tt else set_result f VNone) ;;;
    modify (fun s => set_user (mkEvent (ev_flag (l_user s)) []) s).

Definition event_clear : M loop unit := modify (fun s => set_user (mkEvent false (ev_waiters (l_user s))) s).

Definition event_wait_start : M loop (progress bool) :=
  let! ev := gets l_user in
  if ev_flag ev then ret (Done true)
  else
    let! f := create_future in
    modify (fun s => set_user (mkEvent (ev_flag (l_user s)) (ev_waiters (l_user s) ++ [f])) s) ;;;
    ret (Wait f).

Definition event_wait_resume (f : Z) (exc : option exn) : M loop (progress bool) :=
  let! o := await_outcome f exc in
  match o with
  | Ok _ => ret (Done true)
  | Err CancelledError =>
      modify (fun s => set_user (mkEvent (ev_flag (l_user s)) (remove_fut f (ev_waiters (l_user s)))) s) ;;;
      raise CancelledError
  | Err e => raise e
  end.
End event.

(** ** Lock *)

Record lock : Type := mkLock { lk_locked : bool; lk_waiters : list Z }.
Definition Lock_init : lock := mkLock false [].

Section lock.
Context {Coro U : Type} (get_lock : U -> lock) (put_lock : lock -> U -> U).
Abbreviation loop := (Asyncio.loop Coro U).

Definition upd_lock (g : lock -> lock) : M loop unit :=
  modify (fun s => set_user (put_lock (g (get_lock (l_user s))) (l_user s)) s).

Definition lock_acquire_start : M loop (progress bool) :=
  let! u := gets l_user in
  if negb (lk_locked (get_lock u)) then
    upd_lock (fun k => mkLock true (lk_waiters k)) ;;; ret (Done true)
  else
    let! f := create_future in
    upd_lock (fun k => mkLock (lk_locked k) (lk_waiters k ++ [f])) ;;;
    ret (Wait f).

Definition lock_acquire_resume (f : Z) (exc : option exn) : M loop (progress bool) :=
  let! o := await_outcome f exc in
  match o with
  | Ok _ => upd_lock (fun k => mkLock true (lk_waiters k)) ;;; ret (Done true)
  | Err CancelledError =>
      upd_lock (fun k => mkLock (lk_locked k) (remove_fut f (lk_waiters k))) ;;;
      raise CancelledError
  | Err e => raise e
  end.

Definition lock_release : M loop unit :=
  let! u := gets l_user in
  if negb (lk_locked (get_lock u)) then raise RuntimeError
  else
    upd_lock (fun k => mkLock false (lk_waiters k)) ;;;
    let! o := wake_first (lk_waiters (get_lock u)) in
    match o with
    | Some f => upd_lock (fun k => mkLock (lk_locked k) (remove_fut f (lk_waiters k)))
    | None => ret tt
    end.
End lock.

(** ** Semaphore *)

Record semaphore : Type := mkSem { sem_value : Z; sem_waiters : list Z }.
Definition Semaphore_new (value : Z) : result semaphore :=
  if value <? 0 then Err ValueError else Ok (mkSem value []).

Section semaphore.
Context {Coro : Type}.
Abbreviation loop := (Asyncio.loop Coro semaphore).

Definition upd_sem (g : semaphore -> semaphore) : M loop unit := modify (fun s => set_user (g (l_user s)) s).

(** The head of the [while self._value <= 0] loop, and the way out of it. *)
Definition sem_acquire_start : M loop (progress bool) :=
  let! k := gets l_user in
  if sem_value k <=? 0 then
    let! f := create_future in
    upd_sem (fun k => mkSem (sem_value k) (sem_waiters k ++ [f])) ;;;
    ret (Wait f)
  else
    upd_sem (fun k => mkSem (sem_value k - 1) (sem_waiters k)) ;;;
    ret (Done true).

Definition sem_acquire_resume (f : Z) (exc : option exn) : M loop (progress bool) :=
  let! o := await_outcome f exc in
  match o with
  | Ok _ => sem_acquire_start
  | Err CancelledError =>
      upd_sem (fun k => mkSem (sem_value k) (remove_fut f (sem_waiters k))) ;;;
      raise CancelledError
  | Err e => raise e
  end.

Definition sem_release : M loop unit :=
  upd_sem (fun k => mkSem (sem_value k + 1) (sem_waiters k)) ;;;
  let! k := gets l_user in
  let! _ := wake_first (sem_waiters k) in
  ret tt.
End semaphore.

(** ** Queue *)

Record queue : Type := mkQueue {
  q_maxsize : Z;
  q_items : list val;
  q_getters : list Z;
  q_putters : list Z;
}.
Definition Queue_init (maxsize : Z) : queue := mkQueue maxsize [] [] [].

Section queue.
Context {Coro : Type}.
Abbreviation loop := (Asyncio.loop Coro queue).

Definition upd_q (g : queue -> queue) : M loop unit := modify (fun s => set_user (g (l_user s)) s).
Definition set_items x (q : queue) := mkQueue (q_maxsize q) x (q_getters q) (q_putters q).
Definition set_getters x (q : queue) := mkQueue (q_maxsize q) (q_items q) x (q_putters q).
Definition set_putters x (q : queue) := mkQueue (q_maxsize q) (q_items q) (q_getters q) x.

Definition qsize (q : queue) : Z := len (q_items q).
Definition q_full (q : queue) : bool := (0 <? q_maxsize q) && (q_maxsize q <=? len (q_items q)).

(** [while l: fut = l.pop(0); if not fut.done(): fut.set_result(None); break];
    returns what is left of the list. *)
Fixpoint pop_wake (l : list Z) : M loop (list Z) :=
  match l with
  | [] => ret []
  | f :: l' =>
      let! x := get_future f in
      if done x then pop_wake l' else set_result f VNone ;;; ret l'
  end.

Definition wakeup_getter : M loop unit :=
  let! q := gets l_user in
  let! rest := pop_wake (q_getters q) in
  upd_q (set_getters rest).
Definition wakeup_putter : M loop unit :=
  let! q := gets l_user in
  let! rest := pop_wake (q_putters q) in
  upd_q (set_putters rest).

Definition put_nowait (item : val) : M loop unit :=
  let! q := gets l_user in
  if q_full q then raise QueueFull
  else
    upd_q (fun q => set_items (q_items q ++ [item]) q) ;;;
    wakeup_getter.

Definition get_nowait : M loop val :=
  let! q := gets l_user in
  match q_items q with
  | [] => raise QueueEmpty
  | item :: rest =>
      upd_q (set_items rest) ;;;
      wakeup_putter ;;;
      ret item
  end.

Definition put_start (item : val) : M loop (progress unit) :=
  let! q := gets l_user in
  if q_full q then
    let! f := create_future in
    upd_q (fun q => set_putters (q_putters q ++ [f]) q) ;;;
    ret (Wait f)
  else put_nowait item ;;; ret (Done tt).

Definition put_resume (item : val) (f : Z) (exc : option exn) : M loop (progress unit) :=
  let! o := await_outcome f exc in
  match o with
  | Ok _ => put_start item
  | Err CancelledError =>
      upd_q (fun q => set_putters (remove_fut f (q_putters q)) q) ;;;
      raise CancelledError
  | Err e => raise e
  end.

Definition get_start : M loop (progress val) :=
  let! q := gets l_user in
  match q_items q with
  | [] =>
      let! f := create_future in
      upd_q (fun q => set_getters (q_getters q ++ [f]) q) ;;;
      ret (Wait f)
  | _ :: _ => let! v := get_nowait in ret (Done v)
  end.

Definition get_resume (f : Z) (exc : option exn) : M loop (progress val) :=
  let! o := await_outcome f exc in
  match o with
  | Ok _ => get_start
  | Err CancelledError =>
      upd_q (fun q => set_getters (remove_fut f (q_getters q)) q) ;;;
      raise CancelledError
  | Err e => raise e
  end.
End queue.

(** ** [sleep] and [gather] *)

Section combinators.
Context {Coro U : Type}.
Abbreviation loop := (Asyncio.loop Coro U).

(** [sleep]: the future its coroutine awaits. *)
Definition sleep_start (now delay : Z) (v : val) : M loop (progress val) :=
  let! f := create_future in
  let! _ := call_later now delay (FnSleep v) (Some f) in
  ret (Wait f).
Definition sleep_resume (f : Z) (exc : option exn) : M loop (progress val) :=
  let! o := await_outcome f exc in
  match o with Ok v => ret (Done v) | Err e => raise e end.
End combinators.

(** The closure of [gather]: its outer future, results and count. *)
Record gathering : Type := mkGather {
  ga_outer : Z;
  ga_results : list val;
  ga_remaining : Z;
  ga_return_exceptions : bool;
}.

Section gather.
Context {Coro : Type}.
Abbreviation loop := (Asyncio.loop Coro gathering).

Fixpoint add_callbacks (i : Z) (ts : list Z) : M loop unit :=
  match ts with
  | [] => ret tt
  | t :: ts' => add_done_callback t (FnUser i) ;;; add_callbacks (i + 1) ts'
  end.

(** [gather] of tasks and futures ([create_task] of its coroutines done);
    callback [FnUser i] is [lambda t, i=i: _done(i, t)]. *)
Definition gather (ts : list Z) (return_exceptions : bool) : M loop Z :=
  let! outer := create_future in
  modify (set_user (mkGather outer (map (fun _ => VNone) ts) (len ts) return_exceptions)) ;;;
  match ts with
  | [] => set_result outer (VList []) ;;; ret outer
  | _ => add_callbacks 0 ts ;;; ret outer
  end.

(** [results[i] = v; remaining -= 1; if remaining == 0: outer.set_result(results)] *)
Definition gather_store (i : Z) (v : val) : M loop unit :=
  let! g := gets l_user in
  let! rs := lift (set_index (ga_results g) i v) in
  let g' := mkGather (ga_outer g) rs (ga_remaining g - 1) (ga_return_exceptions g) in
  modify (set_user g') ;;;
  if ga_remaining g' =? 0 then set_result (ga_outer g) (VList rs) else ret tt.

Definition gather_done (i t : Z) : M loop unit :=
  let! g := gets l_user in
  let! o := get_future (ga_outer g) in
  if done o then ret tt
  else
    let! x := get_future t in
    if cancelled x then
      if negb (ga_return_exceptions g) then let! _ := future_cancel (ga_outer g) in ret tt
      else gather_store i (VExn CancelledError)
    else
      let! e := lift (future_exception x) in
      match e with
      | Some e =>
          if negb (ga_return_exceptions g) then set_exception (ga_outer g) e
          else gather_store i (VExn e)
      | None =>
          let! v := lift (future_result x) in
          gather_store i v
      end.
End gather.
