(* ===== verification/SyncProps.v ===== *)
(** * Properties of the synchronisation primitives

    The segments of the coroutine methods interleave in any order, with
    anything else the loop does in between; cancellation may strike at any
    [await]. *)

From Stdlib Require Import ZArith Lia.
From stdpp Require Import base list gmap numbers strings.
From S2P Require Import Prelude Bytes Asyncio AsyncioProps Sync.

Local Open Scope Z_scope.

(** ** The user memory under the loop's methods *)

Section user.
Context {Coro U : Type}.
Abbreviation loop := (Asyncio.loop Coro U).

Definition same_user (s s' : loop) : Prop := l_user s' = l_user s.
Lemma same_user_guarantee : guarantee same_user.
Proof. split; unfold same_user; congruence. Qed.

Ltac user_pure := apply ensures_pure; [apply same_user_guarantee|done].

Lemma su_call_soon g a : ensures same_user (call_soon (Coro := Coro) (U := U) g a).
Proof. intros s r s' E. unfold call_soon, new_handle, fresh, bind, modify, ret in E. by injection E as _ <-. Qed.
Lemma su_create_future : ensures same_user (create_future (Coro := Coro) (U := U)).
Proof. intros s r s' E. unfold create_future, put_future, fresh, bind, modify, ret in E. by injection E as _ <-. Qed.
Lemma su_get_future f : ensures same_user (get_future (Coro := Coro) (U := U) f).
Proof. apply ensures_pure; [apply same_user_guarantee|]. intros s. unfold get_future. by case_match. Qed.
Lemma su_put_future f x : ensures same_user (put_future (Coro := Coro) (U := U) f x).
Proof. by intros s r s' [= _ <-]. Qed.
Lemma su_schedule f : ensures same_user (schedule_callbacks (Coro := Coro) (U := U) f).
Proof.
  apply ensures_bind; [apply same_user_guarantee|apply su_get_future|]. intros x.
  apply ensures_bind; [apply same_user_guarantee|apply su_put_future|]. intros ?.
  apply ensures_for_each; [apply same_user_guarantee|]. intros g.
  apply ensures_bind; [apply same_user_guarantee|apply su_call_soon|]. intros ?. user_pure.
Qed.
Lemma su_set_result f v : ensures same_user (set_result (Coro := Coro) (U := U) f v).
Proof.
  apply ensures_bind; [apply same_user_guarantee|apply su_get_future|]. intros x. case_match; [user_pure|].
  apply ensures_bind; [apply same_user_guarantee|apply su_put_future|]. intros ?. apply su_schedule.
Qed.
Lemma su_wake_first l : ensures same_user (wake_first (Coro := Coro) (U := U) l).
Proof.
  induction l as [|f l IH]; cbn [wake_first]; [user_pure|].
  apply ensures_bind; [apply same_user_guarantee|apply su_get_future|]. intros x. case_match; [done|].
  apply ensures_bind; [apply same_user_guarantee|apply su_set_result|]. intros ?. user_pure.
Qed.
Lemma su_await f exc : ensures same_user (await_outcome (Coro := Coro) (U := U) f exc).
Proof.
  destruct exc; [user_pure|]. apply ensures_bind; [apply same_user_guarantee|apply su_get_future|].
  intros x. user_pure.
Qed.

Lemma set_result_done f x v (s : loop) : l_futures s !! f = Some x -> done x = false ->
  exists s', set_result f v s = (Ok tt, s') /\ l_user s' = l_user s /\
    l_futures s' = <[f := mkFuture FINISHED v (f_exception x) []]> (l_futures s).
Proof.
  intros Hx Hd. set (s1 := set_futures (<[f := mkFuture FINISHED v (f_exception x) []]>
    (<[f := mkFuture FINISHED v (f_exception x) (f_callbacks x)]> (l_futures s))) s).
  destruct (call_all (f_callbacks x) f s1) as (hs & s' & E & _ & Hf & _).
  assert (E' : set_result f v s = (Ok tt, s')).
  { unfold set_result, bind at 1, get_future. rewrite Hx. unfold done in Hd. rewrite Hd.
    unfold schedule_callbacks, bind at 1, put_future, modify. unfold bind at 1, get_future. simpl.
    rewrite lookup_insert_eq. exact E. }
  exists s'. split; [done|]. split; [by apply su_set_result in E'|]. rewrite Hf. simpl. by rewrite insert_insert_eq.
Qed.
End user.

(** ** Semaphore *)

(** Where a task stands with the semaphore. *)
Inductive pc : Type := PIdle | PWait (f : Z) | PHold.
Definition pc_of {A} (p : progress A) : pc := match p with Done _ => PHold | Wait f => PWait f end.
Definition holds (p : pc) : Z := match p with PHold => 1 | _ => 0 end.
Definition holders (th : list pc) : Z := foldr (fun p n => holds p + n) 0 th.

Lemma holders_insert th i p q : th !! i = Some p -> holders (<[i := q]> th) = holders th - holds p + holds q.
Proof.
  revert i. induction th as [|x th IH]; intros [|i] Hi; simpl in *; [done..| |].
  - injection Hi as ->. lia.
  - rewrite (IH i Hi). lia.
Qed.
Lemma holders_nonneg th : 0 <= holders th.
Proof. induction th as [|[] th IH]; simpl; lia. Qed.

Section sem.
Context {Coro : Type}.
Abbreviation loop := (Asyncio.loop Coro semaphore).

Inductive sem_step : loop * list pc -> loop * list pc -> Prop :=
| ss_acquire i s th p s' :
    th !! i = Some PIdle -> sem_acquire_start s = (Ok p, s') -> sem_step (s, th) (s', <[i := pc_of p]> th)
| ss_resume i f exc s th r s' :
    th !! i = Some (PWait f) -> sem_acquire_resume f exc s = (r, s') ->
    sem_step (s, th) (s', <[i := match r with Ok p => pc_of p | Err _ => PIdle end]> th)
| ss_release i s th r s' :
    th !! i = Some PHold -> sem_release s = (r, s') -> sem_step (s, th) (s', <[i := PIdle]> th)
| ss_other (s : loop) th s' : l_user s' = l_user s -> sem_step (s, th) (s', th).

Definition sem_inv (n : Z) (c : loop * list pc) : Prop :=
  0 <= sem_value (l_user (fst c)) /\ sem_value (l_user (fst c)) + holders (snd c) = n.

Lemma sem_start_spec (s : loop) r s' : sem_acquire_start s = (r, s') ->
  exists p, r = Ok p /\
  match p with
  | Done _ => 0 < sem_value (l_user s) /\ sem_value (l_user s') = sem_value (l_user s) - 1
  | Wait _ => sem_value (l_user s') = sem_value (l_user s)
  end.
Proof.
  unfold sem_acquire_start. unfold bind at 1, gets at 1. destruct (Z.leb_spec (sem_value (l_user s)) 0).
  - unfold create_future, fresh, put_future, upd_sem, bind, modify, ret. intros [= <- <-]. by eexists.
  - unfold upd_sem, bind, modify, ret. intros [= <- <-]. by eexists.
Qed.

Lemma sem_resume_spec f exc (s : loop) r s' : sem_acquire_resume f exc s = (r, s') ->
  match r with
  | Ok (Done _) => 0 < sem_value (l_user s) /\ sem_value (l_user s') = sem_value (l_user s) - 1
  | _ => sem_value (l_user s') = sem_value (l_user s)
  end.
Proof.
  unfold sem_acquire_resume. unfold bind at 1. destruct (await_outcome f exc s) as [[o|e] s1] eqn:E;
    apply su_await in E; unfold same_user in E.
  2:{ intros [= <- <-]. by rewrite E. }
  destruct o as [v|e].
  - intros E'. apply sem_start_spec in E' as (p & -> & Hp). rewrite E in Hp. done.
  - assert (Hraise : forall r' s2, raise (A := progress bool) e s1 = (r', s2) -> match r' with
      | Ok (Done _) => 0 < sem_value (l_user s) /\ sem_value (l_user s2) = sem_value (l_user s) - 1
      | _ => sem_value (l_user s2) = sem_value (l_user s) end).
    { intros r' s2 [= <- <-]. by rewrite E. }
    destruct e; try apply Hraise. unfold bind, upd_sem, modify. intros [= <- <-]. simpl. by rewrite E.
Qed.

Lemma sem_inv_step n c c' : sem_inv n c -> sem_step c c' -> sem_inv n c'.
Proof.
  intros [Hv Hn] Hs. destruct Hs as [i s th p s' Hi E|i f exc s th r s' Hi E|i s th r s' Hi E|s th s' E]; simpl in *.
  - apply sem_start_spec in E as (p' & [= <-] & Hp). unfold sem_inv. simpl. rewrite (holders_insert _ _ _ _ Hi).
    destruct p; simpl in *; lia.
  - apply sem_resume_spec in E. unfold sem_inv. simpl. rewrite (holders_insert _ _ _ _ Hi).
    destruct r as [[b|g]|e]; simpl in *; lia.
  - unfold sem_inv. simpl. rewrite (holders_insert _ _ _ _ Hi). simpl.
    unfold sem_release in E. unfold bind at 1, upd_sem, modify in E. unfold bind at 1, gets in E. simpl in E.
    unfold bind in E. destruct (wake_first _ _) as [q s1] eqn:Ew. apply su_wake_first in Ew. unfold same_user in Ew.
    simpl in Ew. destruct q; injection E as <- <-; rewrite Ew; simpl; lia.
  - unfold sem_inv. simpl. by rewrite E.
Qed.

(** A semaphore made with value [n] is never held more than [n] times, in
    any interleaving of acquires, wakeups, cancellations and releases, and its
    value is what is left. *)
Theorem semaphore_bound n k (s0 : loop) th0 (s : loop) th :
  Semaphore_new n = Ok k -> l_user s0 = k -> Forall (fun p => p = PIdle) th0 ->
  steps sem_step (s0, th0) (s, th) ->
  holders th <= n /\ sem_value (l_user s) = n - holders th.
Proof.
  intros Hk Hu Hidle Hs. unfold Semaphore_new in Hk. destruct (Z.ltb_spec n 0) as [|Hn]; [done|]. injection Hk as <-.
  assert (Hh : holders th0 = 0) by (clear - Hidle; induction Hidle as [|p th' -> _ IH]; simpl; lia).
  assert (sem_inv n (s, th)) as [Hv Hsum].
  { eapply (steps_invariant sem_step (sem_inv n) (sem_inv_step n)); [|exact Hs].
    unfold sem_inv. simpl. rewrite Hu. simpl. lia. }
  simpl in *. lia.
Qed.
End sem.

(** Witness: one unit, taken by the first of two tasks; the second waits. *)
Lemma semaphore_bound_witness :
  exists (s : Asyncio.loop unit semaphore) th, th = [PHold; PWait 0] /\ holders th <= 1.
Proof.
  set (s0 := loop_init (Coro := unit) (mkSem 1 [])).
  set (s1 := snd (sem_acquire_start s0)). set (s2 := snd (sem_acquire_start s1)).
  exists s2, [PHold; PWait 0]. split; [reflexivity|].
  apply (semaphore_bound 1 (mkSem 1 []) s0 [PIdle; PIdle] s2); [reflexivity..| |].
  - repeat constructor.
  - apply (steps_cons _ _ (s1, [PHold; PIdle])); [by apply (ss_acquire 0 s0 [PIdle; PIdle] (Done true) s1)|].
    apply (steps_cons _ _ (s2, [PHold; PWait 0])); [by apply (ss_acquire 1 s1 [PHold; PIdle] (Wait 0) s2)|].
    constructor.
Defined.

(** ** Queue *)

Section queue.
Context {Coro : Type}.
Abbreviation loop := (Asyncio.loop Coro queue).

(** Futures the queue waits for exist: they are not forgotten by the loop. *)
Definition known (s : loop) (l : list Z) : Prop := Forall (fun f => is_Some (l_futures s !! f)) l.
Definition grows (s s' : loop) : Prop := forall f, is_Some (l_futures s !! f) -> is_Some (l_futures s' !! f).

Lemma known_grows s s' l : grows s s' -> known s l -> known s' l.
Proof. intros Hg Hl. eapply list.Forall_impl; [exact Hl|]. apply Hg. Qed.
Lemma grows_insert f x s : grows s (set_futures (<[f := x]> (l_futures s)) s).
Proof. intros g Hg. simpl. apply lookup_insert_is_Some'. by right. Qed.

Lemma set_result_total f x v (s : loop) : l_futures s !! f = Some x -> done x = false ->
  exists s', set_result f v s = (Ok tt, s') /\ l_user s' = l_user s /\ grows s s'.
Proof.
  intros Hx Hd. destruct (set_result_done f x v s Hx Hd) as (s' & E & Hu & Hf). exists s'. split_and!; [done..|].
  intros g Hg. rewrite Hf. apply lookup_insert_is_Some'. by right.
Qed.

Lemma pop_wake_total l (s : loop) : known s l ->
  exists rest s', pop_wake l s = (Ok rest, s') /\ l_user s' = l_user s /\ grows s s' /\ known s' rest.
Proof.
  intros Hl. revert Hl. induction l as [|f l IH]; intros Hl.
  { exists [], s. repeat split; [by intros ?|constructor]. }
  apply list.Forall_cons in Hl as [[x Hx] Hl]. cbn [pop_wake]. unfold bind at 1, get_future. rewrite Hx.
  destruct (done x) eqn:Hd; [by apply IH|].
  destruct (set_result_total f x VNone s Hx Hd) as (s' & E & Hu & Hg). exists l, s'.
  unfold bind. rewrite E. split_and!; [done..|by eapply known_grows].
Qed.

Definition q_known (s : loop) : Prop := known s (q_getters (l_user s)) /\ known s (q_putters (l_user s)).

(** What an operation does to the items, when the futures are known. *)
Definition items_to (s s' : loop) (items : list val) : Prop :=
  q_items (l_user s') = items /\ q_maxsize (l_user s') = q_maxsize (l_user s) /\ grows s s' /\ q_known s'.

Lemma wakeup_getter_total (s : loop) : q_known s ->
  exists s', wakeup_getter s = (Ok tt, s') /\ items_to s s' (q_items (l_user s)).
Proof.
  intros [Hg Hp]. destruct (pop_wake_total _ s Hg) as (rest & s1 & E & Hu & Hgr & Hr).
  unfold wakeup_getter, bind at 1, gets. unfold bind. rewrite E. eexists. split; [reflexivity|].
  unfold items_to. simpl. rewrite Hu. split_and!; [done..|]. split; simpl; [done|]. rewrite ?Hu.
  by eapply known_grows.
Qed.
Lemma wakeup_putter_total (s : loop) : q_known s ->
  exists s', wakeup_putter s = (Ok tt, s') /\ items_to s s' (q_items (l_user s)).
Proof.
  intros [Hg Hp]. destruct (pop_wake_total _ s Hp) as (rest & s1 & E & Hu & Hgr & Hr).
  unfold wakeup_putter, bind at 1, gets. unfold bind. rewrite E. eexists. split; [reflexivity|].
  unfold items_to. simpl. rewrite Hu. split_and!; [done..|]. split; simpl; [|done]. rewrite ?Hu.
  by eapply known_grows.
Qed.

Lemma put_nowait_total v (s : loop) : q_known s ->
  if q_full (l_user s) then put_nowait v s = (Err QueueFull, s)
  else exists s', put_nowait v s = (Ok tt, s') /\ items_to s s' (q_items (l_user s) ++ [v]).
Proof.
  intros Hk. destruct (q_full (l_user s)) eqn:Hf; unfold put_nowait; unfold bind at 1, gets; rewrite Hf; [done|].
  exact (wakeup_getter_total (set_user (set_items (q_items (l_user s) ++ [v]) (l_user s)) s) Hk).
Qed.
Lemma get_nowait_total (s : loop) : q_known s ->
  match q_items (l_user s) with
  | [] => get_nowait s = (Err QueueEmpty, s)
  | v :: rest => exists s', get_nowait s = (Ok v, s') /\ items_to s s' rest
  end.
Proof.
  intros Hk. destruct (q_items (l_user s)) as [|v rest] eqn:Hi; unfold get_nowait; unfold bind at 1, gets;
    rewrite Hi; [done|].
  destruct (wakeup_putter_total (set_user (set_items rest (l_user s)) s) Hk) as (s' & E & Ht). exists s'.
  split; [|done]. unfold bind, upd_q, modify. by rewrite E.
Qed.

(** A queue in use: the loop, and what was put and got so far, in the order
    the operations completed. *)
Definition logged {A} (r : result (progress A)) (f : A -> val) (log : list val) : list val :=
  match r with Ok (Done a) => log ++ [f a] | _ => log end.
Definition logged_now {A} (r : result A) (f : A -> val) (log : list val) : list val :=
  match r with Ok a => log ++ [f a] | _ => log end.

Inductive q_step : loop * list val * list val -> loop * list val * list val -> Prop :=
| qs_put v s P G r s' : put_start v s = (r, s') -> q_step (s, P, G) (s', logged r (fun _ => v) P, G)
| qs_put_resume v f exc s P G r s' :
    put_resume v f exc s = (r, s') -> q_step (s, P, G) (s', logged r (fun _ => v) P, G)
| qs_put_nowait v s P G r s' : put_nowait v s = (r, s') -> q_step (s, P, G) (s', logged_now r (fun _ => v) P, G)
| qs_get s P G r s' : get_start s = (r, s') -> q_step (s, P, G) (s', P, logged r id G)
| qs_get_resume f exc s P G r s' : get_resume f exc s = (r, s') -> q_step (s, P, G) (s', P, logged r id G)
| qs_get_nowait s P G r s' : get_nowait s = (r, s') -> q_step (s, P, G) (s', P, logged_now r id G)
| qs_other (s : loop) P G s' : l_user s' = l_user s -> grows s s' -> q_step (s, P, G) (s', P, G).

Definition q_inv (m : Z) (c : loop * list val * list val) : Prop :=
  let '(s, P, G) := c in
  q_known s /\ q_maxsize (l_user s) = m /\ P = G ++ q_items (l_user s) /\
  (0 < m -> len (q_items (l_user s)) <= m).

Lemma q_inv_same m (s s' : loop) P G :
  q_items (l_user s') = q_items (l_user s) -> q_maxsize (l_user s') = q_maxsize (l_user s) -> q_known s' ->
  q_inv m (s, P, G) -> q_inv m (s', P, G).
Proof. intros Hi Hm Hk (_ & H2 & H3 & H4). unfold q_inv. rewrite Hi, Hm. done. Qed.

Lemma q_full_false q : q_full q = false -> 0 < q_maxsize q -> len (q_items q) < q_maxsize q.
Proof. unfold q_full. destruct (Z.ltb_spec 0 (q_maxsize q)), (Z.leb_spec (q_maxsize q) (len (q_items q))); simpl; lia || done. Qed.

Lemma q_put_now m v (s : loop) P G r s' :
  q_inv m (s, P, G) -> put_nowait v s = (r, s') -> q_inv m (s', logged_now r (fun _ => v) P, G).
Proof.
  intros (Hk & Hm & HP & Hb) E. pose proof (put_nowait_total v s Hk) as Ht.
  destruct (q_full (l_user s)) eqn:Hf; [rewrite E in Ht; by simplify_eq|].
  destruct Ht as (s1 & E1 & Hi & Hm1 & _ & Hk1). rewrite E in E1. simplify_eq. simpl. rewrite Hi, Hm1.
  split_and!; [done..|by rewrite (assoc_L (++))|].
  intros Hp. pose proof (q_full_false _ Hf Hp). rewrite len_app. change (len [v]) with 1. lia.
Qed.
Lemma q_get_now m (s : loop) P G r s' :
  q_inv m (s, P, G) -> get_nowait s = (r, s') -> q_inv m (s', P, logged_now r id G).
Proof.
  intros (Hk & Hm & HP & Hb) E. pose proof (get_nowait_total s Hk) as Ht.
  destruct (q_items (l_user s)) as [|v rest] eqn:Hi; [rewrite E in Ht; simplify_eq; simpl; by rewrite Hi|].
  destruct Ht as (s1 & E1 & Hi1 & Hm1 & _ & Hk1). rewrite E in E1. injection E1 as -> ->. simpl. rewrite Hi1, Hm1.
  split_and!; [done..|by rewrite HP, <- (assoc_L (++))|]. rewrite len_cons in Hb. lia.
Qed.

(** A waiter enters a list with a future just made. *)
Lemma known_create (s : loop) f s' : create_future s = (Ok f, s') -> grows s s' /\ is_Some (l_futures s' !! f) /\ l_user s' = l_user s.
Proof.
  intros [= <- <-]. simpl. split; [|by rewrite lookup_insert_eq].
  intros g Hg. simpl. apply lookup_insert_is_Some'. by right.
Qed.
Lemma q_enlist m (upd : Z -> queue -> queue) (s : loop) P G f s' :
  (forall f q, q_items (upd f q) = q_items q /\ q_maxsize (upd f q) = q_maxsize q) ->
  (forall f q, (q_getters (upd f q) = q_getters q /\ q_putters (upd f q) = q_putters q ++ [f]) \/
               (q_getters (upd f q) = q_getters q ++ [f] /\ q_putters (upd f q) = q_putters q)) ->
  q_inv m (s, P, G) -> create_future s = (Ok f, s') ->
  q_inv m (set_user (upd f (l_user s')) s', P, G).
Proof.
  intros Hq Hl Hinv E. destruct (known_create _ _ _ E) as (Hg & Hf & Hu). destruct (Hq f (l_user s)).
  eapply q_inv_same; [..|exact Hinv]; simpl; rewrite Hu; [done..|].
  destruct Hinv as ([Hkg Hkp] & _). destruct (Hl f (l_user s)) as [[E1 E2]|[E1 E2]]; split; simpl; rewrite ?Hu, ?E1, ?E2.
  all: try (by eapply known_grows). all: apply Forall_app; split; [by eapply known_grows|by repeat constructor].
Qed.

Lemma q_put_inv m v (s : loop) P G r s' :
  q_inv m (s, P, G) -> put_start v s = (r, s') -> q_inv m (s', logged r (fun _ => v) P, G).
Proof.
  intros Hinv. unfold put_start. unfold bind at 1, gets. destruct (q_full (l_user s)).
  - unfold bind at 1. destruct (create_future s) as [[f|e] s1] eqn:E; [|done]. intros [= <- <-].
    eapply (q_enlist m (fun f q => set_putters (q_putters q ++ [f]) q)); [done|by left|done..].
  - unfold bind. destruct (put_nowait v s) as [[[]|e] s1] eqn:E; intros [= <- <-]; by apply (q_put_now _ _ _ _ _ _ _ Hinv E).
Qed.
Lemma q_get_inv m (s : loop) P G r s' :
  q_inv m (s, P, G) -> get_start s = (r, s') -> q_inv m (s', P, logged r id G).
Proof.
  intros Hinv. unfold get_start. unfold bind at 1, gets. destruct (q_items (l_user s)) as [|v rest].
  - unfold bind at 1. destruct (create_future s) as [[f|e] s1] eqn:E; [|done]. intros [= <- <-].
    eapply (q_enlist m (fun f q => set_getters (q_getters q ++ [f]) q)); [done|by right|done..].
  - unfold bind. destruct (get_nowait s) as [[w|e] s1] eqn:E; intros [= <- <-]; by apply (q_get_now _ _ _ _ _ _ Hinv E).
Qed.

Lemma remove_known (s : loop) f l : known s l -> known s (remove_fut f l).
Proof. induction 1; simpl; [constructor|]. case_match; [done|by constructor]. Qed.
Lemma await_same f exc (s : loop) r s' : await_outcome f exc s = (r, s') -> s' = s.
Proof.
  destruct exc; [by intros [= _ <-]|]. simpl. unfold bind, get_future. by destruct (l_futures s !! f); intros E; injection E as _ <-.
Qed.

Lemma q_inv_step m c c' : q_inv m c -> q_step c c' -> q_inv m c'.
Proof.
  intros Hinv Hs. destruct Hs as [v s P G r s' E|v f exc s P G r s' E|v s P G r s' E|s P G r s' E|f exc s P G r s' E|s P G r s' E|s P G s' Hu Hg].
  - by eapply q_put_inv.
  - unfold put_resume in E. unfold bind at 1 in E. destruct (await_outcome f exc s) as [[o|e] s1] eqn:Ea; apply await_same in Ea as ->; [|by simplify_eq].
    destruct o as [w|e]; [by eapply q_put_inv|]. destruct e; injection E as <- <-; try done.
    destruct Hinv as ([Hkg Hkp] & Hinv). split; [|done]. split; simpl; [done|by apply remove_known].
  - by eapply q_put_now.
  - by eapply q_get_inv.
  - unfold get_resume in E. unfold bind at 1 in E. destruct (await_outcome f exc s) as [[o|e] s1] eqn:Ea; apply await_same in Ea as ->; [|by simplify_eq].
    destruct o as [w|e]; [by eapply q_get_inv|]. destruct e; injection E as <- <-; try done.
    destruct Hinv as ([Hkg Hkp] & Hinv). split; [|done]. split; simpl; [by apply remove_known|done].
  - by eapply q_get_now.
  - eapply q_inv_same; [..|exact Hinv]; try by rewrite Hu. destruct Hinv as ([Hkg Hkp] & _).
    split; rewrite Hu; by eapply known_grows.
Qed.

(** C12: a queue is first in, first out and loses nothing: whatever producers
    and consumers do, and wherever they are cancelled, the items put so far
    are the items got so far followed by those in the queue; a bounded queue
    never holds more than its bound; the next [get_nowait] gives the oldest
    item not yet got. *)
Theorem queue_fifo m (s0 : loop) s P G :
  l_user s0 = Queue_init m -> steps q_step (s0, [], []) (s, P, G) ->
  P = G ++ q_items (l_user s) /\
  (0 < m -> len (q_items (l_user s)) <= m) /\
  match drop (length G) P with
  | [] => get_nowait s = (Err QueueEmpty, s)
  | v :: _ => exists s', get_nowait s = (Ok v, s')
  end.
Proof.
  intros Hu Hs. assert (Hinv : q_inv m (s, P, G)).
  { eapply (steps_invariant q_step (q_inv m) (q_inv_step m)); [|exact Hs]. simpl. rewrite Hu.
    split_and!; [|done..|]. { split; rewrite Hu; constructor. } unfold len. simpl. lia. }
  destruct Hinv as (Hk & Hm & -> & Hb). split_and!; [done..|]. rewrite drop_app_length.
  pose proof (get_nowait_total s Hk) as Ht. destruct (q_items (l_user s)); [done|].
  destruct Ht as (s' & E & _). by exists s'.
Qed.
End queue.

(** Witness: a bounded queue of one item, with a second producer waiting. *)
Lemma queue_fifo_witness :
  exists (s : Asyncio.loop unit queue), len (q_items (l_user s)) <= 1 /\ q_putters (l_user s) = [0].
Proof.
  set (s0 := loop_init (Coro := unit) (Queue_init 1)).
  set (s1 := snd (put_start (VInt 7) s0)). set (s2 := snd (put_start (VInt 8) s1)).
  exists s2. split; [|reflexivity].
  apply (queue_fifo 1 s0 s2 [VInt 7] []); [reflexivity| |lia].
  apply (steps_cons _ _ (s1, [VInt 7], [])); [by apply (qs_put (VInt 7) s0 [] [] (Ok (Done tt)))|].
  apply (steps_cons _ _ (s2, [VInt 7], [])); [by apply (qs_put (VInt 8) s1 [VInt 7] [] (Ok (Wait 0)))|].
  constructor.
Defined.
