(* ===== verification/Gather.v ===== *)
(** * [asyncio.gather], and runs of the event loop

    The tasks complete in any order and their callbacks run in any order, with
    anything else the loop does in between; the outer future gets the results
    in the order of the arguments.  Then small programs run by the loop itself:
    the witnesses of its properties, and the interleavings where the lock and
    the queue fall short. *)

From Stdlib Require Import ZArith Lia Sorting.Sorted.
From stdpp Require Import base list gmap numbers strings.
From S2P Require Import Prelude Bytes Asyncio AsyncioProps Sync SyncProps.

Local Open Scope Z_scope.

(** What [gather] records of a completed task. *)
Definition recorded (x : future) : val :=
  match future_result x with Ok v => v | Err e => VExn e end.

Section gather.
Context {Coro : Type}.
Abbreviation loop := (Asyncio.loop Coro gathering).

(** What others may do: not touch the closure, nor complete its outer future,
    nor undo a completion. *)
Definition outcomes (s s' : loop) : Prop :=
  forall f x, l_futures s !! f = Some x -> exists y, l_futures s' !! f = Some y /\ (done x = true -> same_outcome x y).
Definition others (outer : Z) (s s' : loop) : Prop :=
  l_user s' = l_user s /\ outcomes s s' /\
  forall x, l_futures s !! outer = Some x -> exists y, l_futures s' !! outer = Some y /\ same_outcome x y.

Lemma others_trans outer s1 s2 s3 : others outer s1 s2 -> others outer s2 s3 -> others outer s1 s3.
Proof.
  intros (U1 & F1 & O1) (U2 & F2 & O2). split; [congruence|]. split.
  - intros f x Hx. destruct (F1 f x Hx) as (y & Hy & Hxy). destruct (F2 f y Hy) as (z & Hz & Hyz). exists z.
    split; [done|]. intros Hd. destruct (Hxy Hd) as (E1 & E2 & E3).
    destruct Hyz as (E4 & E5 & E6); [unfold done in *; by rewrite E1|]. split_and!; congruence.
  - intros x Hx. destruct (O1 x Hx) as (y & Hy & E1 & E2 & E3). destruct (O2 y Hy) as (z & Hz & E4 & E5 & E6).
    exists z. split_and!; [done|..]. split_and!; congruence.
Qed.

(** The callback of task number [i] runs once it is done; [D] are those that
    ran. *)
Inductive g_step (ts : list Z) (re : bool) (outer : Z) : loop * list nat -> loop * list nat -> Prop :=
| gs_done i t x s D r s' :
    i ∉ D -> ts !! i = Some t -> l_futures s !! t = Some x -> done x = true ->
    re = true \/ is_ok (future_result x) = true ->
    gather_done (Z.of_nat i) t s = (r, s') -> g_step ts re outer (s, D) (s', i :: D)
| gs_other s D s' : others outer s s' -> g_step ts re outer (s, D) (s', D).

Definition outer_state (ts : list Z) (D : list nat) (rs : list val) (o : future) : Prop :=
  f_exception o = None /\
  if decide (length D < length ts)%nat then f_state o = PENDING else f_state o = FINISHED /\ f_result o = VList rs.

Record g_inv (ts : list Z) (re : bool) (outer : Z) (c : loop * list nat) : Prop := {
  gi_fresh : outer ∉ ts;
  gi_nodup : NoDup (snd c);
  gi_range : Forall (fun i => (i < length ts)%nat) (snd c);
  gi_closure : exists rs, l_user (fst c) = mkGather outer rs (len ts - len (snd c)) re /\ length rs = length ts /\
    (forall i t, i ∈ snd c -> ts !! i = Some t ->
       exists x, l_futures (fst c) !! t = Some x /\ done x = true /\ rs !! i = Some (recorded x)) /\
    exists o, l_futures (fst c) !! outer = Some o /\ outer_state ts (snd c) rs o;
}.

Lemma recorded_same x y : same_outcome x y -> recorded y = recorded x.
Proof. intros (E1 & E2 & E3). unfold recorded, future_result. by rewrite E1, E2, E3. Qed.
Lemma done_same x y : same_outcome x y -> done y = done x.
Proof. intros (E1 & _). unfold done. by rewrite E1. Qed.

Lemma g_inv_others ts re outer s D s' : others outer s s' -> g_inv ts re outer (s, D) -> g_inv ts re outer (s', D).
Proof.
  intros (Hu & Hf & Ho) [H1 H2 H3 (rs & Hc & Hl & Hr & o & Hoo & Hst)]. split; [done..|]. simpl in *.
  exists rs. split_and!; [by rewrite Hu|done| |].
  - intros i t Hi Ht. destruct (Hr i t Hi Ht) as (x & Hx & Hd & Hx'). destruct (Hf t x Hx) as (y & Hy & Hxy).
    exists y. rewrite (recorded_same x y), (done_same x y) by auto. done.
  - destruct (Ho o Hoo) as (y & Hy & E1 & E2 & E3). exists y. split; [done|]. unfold outer_state in *.
    by rewrite E1, E2, E3.
Qed.

(** Fewer callbacks ran than there are tasks, when one has not run. *)
Lemma room (D : list nat) i n : NoDup D -> Forall (fun j => (j < n)%nat) D -> i ∉ D -> (i < n)%nat -> (length D < n)%nat.
Proof.
  intros Hn Hr Hi Hlt. assert (Hs : (i :: D) ⊆+ seq 0 n).
  { apply NoDup_submseteq; [by constructor|]. intros j. rewrite elem_of_cons, elem_of_seq. intros [->|Hj]; [lia|].
    rewrite list.Forall_forall in Hr. specialize (Hr j Hj). lia. }
  apply submseteq_length in Hs. rewrite length_seq in Hs. simpl in Hs. lia.
Qed.

(** The branches of [_done] that record a value. *)
Lemma gather_done_records i t x g o (s : loop) :
  l_user s = g -> l_futures s !! ga_outer g = Some o -> done o = false ->
  l_futures s !! t = Some x -> done x = true ->
  ga_return_exceptions g = true \/ is_ok (future_result x) = true ->
  gather_done i t s = gather_store i (recorded x) s.
Proof.
  intros Hu Ho Hod Hx Hd Hre. unfold gather_done. unfold bind at 1, gets. rewrite Hu.
  unfold bind at 1, get_future at 1. rewrite Ho, Hod. unfold bind at 1, get_future at 1. rewrite Hx.
  unfold recorded, future_result, cancelled, future_exception, done in *. destruct (f_state x); [done| |].
  - destruct Hre as [->|]; [done|]. done.
  - destruct (f_exception x) as [e|]; [|done]. destruct Hre as [->|]; [done|]. done.
Qed.

Lemma gather_store_spec i v rs outer rem re o (s : loop) :
  l_user s = mkGather outer rs rem re -> (i < length rs)%nat ->
  l_futures s !! outer = Some o -> done o = false ->
  exists s', gather_store (Z.of_nat i) v s = (Ok tt, s') /\
    l_user s' = mkGather outer (<[i := v]> rs) (rem - 1) re /\
    l_futures s' = (if decide (rem = 1)
                    then <[outer := mkFuture FINISHED (VList (<[i := v]> rs)) (f_exception o) []]> (l_futures s)
                    else l_futures s).
Proof.
  intros Hu Hi Ho Hod. unfold gather_store. unfold bind at 1, gets. rewrite Hu. simpl.
  rewrite set_index_Ok by (unfold len; lia). rewrite Nat2Z.id.
  unfold bind at 1, lift. unfold bind, modify. simpl.
  set (s1 := set_user (mkGather outer (<[i:=v]> rs) (rem - 1) re) s).
  destruct (decide (rem = 1)) as [->|Hne]; simpl.
  - destruct (set_result_done outer o (VList (<[i := v]> rs)) s1 Ho Hod) as (s' & E & Hu' & Hf). by exists s'.
  - destruct (Z.eqb_spec (rem - 1) 0); [lia|]. by exists s1.
Qed.

(** The outer future of a closure that has not recorded everything. *)
Lemma outer_open ts re outer s D i t :
  g_inv ts re outer (s, D) -> i ∉ D -> ts !! i = Some t ->
  (length D < length ts)%nat /\
  exists rs o, l_user s = mkGather outer rs (len ts - len D) re /\ length rs = length ts /\
    l_futures s !! outer = Some o /\ done o = false /\ f_exception o = None /\ outer <> t.
Proof.
  intros [Hfr Hnd Hrg (rs & Hc & Hl & _ & o & Ho & He & Hst)] Hi Ht. simpl in *.
  assert (Hlt : (length D < length ts)%nat) by (eapply room; [done..|by eapply lookup_lt_Some]).
  split; [done|]. exists rs, o. rewrite decide_True in Hst by done. split_and!; [done..|by unfold done; rewrite Hst|done|].
  intros ->. by apply Hfr, (list_elem_of_lookup_2 _ i).
Qed.

Lemma g_inv_done ts re outer i t x s D r s' :
  g_inv ts re outer (s, D) -> i ∉ D -> ts !! i = Some t -> l_futures s !! t = Some x -> done x = true ->
  re = true \/ is_ok (future_result x) = true ->
  gather_done (Z.of_nat i) t s = (r, s') -> g_inv ts re outer (s', i :: D).
Proof.
  intros Hinv Hi Ht Hx Hd Hre E.
  destruct (outer_open _ _ _ _ _ _ _ Hinv Hi Ht) as (Hlt & rs & o & Hu & Hl & Ho & Hod & He & Hot).
  rewrite (gather_done_records _ _ x _ o s Hu Ho Hod Hx Hd Hre) in E.
  assert (Hil : (i < length ts)%nat) by by eapply lookup_lt_Some.
  destruct (gather_store_spec i (recorded x) rs outer _ re o s Hu ltac:(lia) Ho Hod) as (s2 & E2 & Hu2 & Hf2).
  rewrite E in E2. injection E2 as -> <-.
  assert (Hsame : forall f, f <> outer -> l_futures s' !! f = l_futures s !! f).
  { intros f Hf. rewrite Hf2. case_decide; [by rewrite lookup_insert_ne|done]. }
  destruct Hinv as [Hfr Hnd Hrg (rs' & Hc & _ & Hr & o' & Ho' & _ & Hst)]. simpl in *.
  rewrite Hu in Hc. injection Hc as <-. rewrite Ho in Ho'. injection Ho' as <-.
  split; simpl; [done|by constructor|by constructor|]. exists (<[i := recorded x]> rs). split_and!.
  - rewrite Hu2. f_equal. rewrite len_cons. lia.
  - by rewrite length_insert.
  - intros j tj Hj Htj.
    assert (Hne : tj <> outer) by (intros ->; by apply Hfr, (list_elem_of_lookup_2 _ j)).
    rewrite (Hsame tj Hne). apply elem_of_cons in Hj. destruct (decide (j = i)) as [->|Hji].
    + rewrite Ht in Htj. injection Htj as <-. exists x. split_and!; [done..|]. apply list_lookup_insert_eq. lia.
    + destruct Hj as [|Hj]; [done|]. destruct (Hr j tj Hj Htj) as (y & Hy & Hdy & Hry). exists y.
      by rewrite list_lookup_insert_ne.
  - rewrite decide_True in Hst by done. rewrite Hf2. destruct (decide (len ts - len D = 1)) as [H1|H1]; unfold len in H1.
    + eexists. rewrite lookup_insert_eq. split; [done|]. unfold outer_state. simpl.
      rewrite decide_False by lia. done.
    + exists o. split; [done|]. unfold outer_state. simpl. rewrite decide_True by lia. done.
Qed.

Lemma g_inv_step ts re outer c c' : g_inv ts re outer c -> g_step ts re outer c c' -> g_inv ts re outer c'.
Proof.
  intros Hinv Hs. destruct Hs as [i t x s D r s' Hi Ht Hx Hd Hre E|s D s' Ho].
  - by eapply g_inv_done.
  - by eapply g_inv_others.
Qed.

(** Registering the callbacks leaves every outcome as it is. *)
Lemma add_callback_others outer t g (s : loop) r s' : add_done_callback t g s = (r, s') -> others outer s s'.
Proof.
  unfold add_done_callback, bind at 1, get_future. destruct (l_futures s !! t) as [x|] eqn:Hx; intros E.
  2:{ injection E as _ <-. repeat split; intros; eexists; by repeat split. }
  destruct (negb (is_pending (f_state x))).
  - unfold call_soon, new_handle, fresh, bind, modify, ret in E. injection E as _ <-.
    repeat split; simpl; intros; eexists; by repeat split.
  - unfold put_future, modify in E. injection E as _ <-. split; [done|].
    assert (Hany : forall f z, l_futures s !! f = Some z -> exists y,
      <[t := mkFuture (f_state x) (f_result x) (f_exception x) (f_callbacks x ++ [g])]> (l_futures s) !! f = Some y /\
      same_outcome z y).
    { intros f z Hz. destruct (decide (f = t)) as [->|Hne].
      - rewrite lookup_insert_eq. eexists. split; [done|]. rewrite Hx in Hz. injection Hz as <-. done.
      - rewrite lookup_insert_ne by done. by exists z. }
    split; simpl; [|by auto]. intros f z Hz. destruct (Hany f z Hz) as (y & ? & ?). by exists y.
Qed.
Lemma add_callbacks_others outer ts i (s : loop) r s' : add_callbacks i ts s = (r, s') -> others outer s s'.
Proof.
  revert i s. induction ts as [|t ts IH]; intros i s; simpl.
  { intros [= _ <-]. repeat split; intros; eexists; by repeat split. }
  unfold bind. destruct (add_done_callback t (FnUser i) s) as [[u|e] s1] eqn:E; apply (add_callback_others outer) in E.
  - intros E'. apply IH in E'. by eapply others_trans.
  - by intros [= _ <-].
Qed.

Lemma gather_init ts re outer (s0 : loop) s :
  ids_ok s0 -> ts <> [] -> Forall (fun t => is_Some (l_futures s0 !! t)) ts ->
  gather ts re s0 = (Ok outer, s) -> g_inv ts re outer (s, []).
Proof.
  intros Hids Hne Hts E. destruct ts as [|t0 ts']; [done|]. set (ts := t0 :: ts') in *.
  unfold gather in E. unfold bind at 1 in E. destruct (create_future s0) as [[f|e] s1] eqn:Ec; [|done].
  unfold bind at 1, modify in E. set (s2 := set_user _ s1) in E. unfold bind, ts at 1 in E. cbv beta iota in E.
  destruct (add_callbacks 0 ts s2) as [[u|e] s3] eqn:Ea; [|done]. injection E as -> <-.
  apply (add_callbacks_others outer) in Ea. eapply g_inv_others; [exact Ea|]. injection Ec as <- <-.
  split; simpl; [|constructor|constructor|].
  - intros Hin. rewrite list.Forall_forall in Hts. specialize (Hids _ (Hts _ Hin)). lia.
  - exists (map (fun _ => VNone) ts). split_and!; [f_equal; rewrite len_nil; lia|by rewrite length_map| |].
    + intros i t Hi. by apply elem_of_nil in Hi.
    + eexists. rewrite lookup_insert_eq. split; [done|]. unfold outer_state.
      by rewrite decide_True by (simpl; lia).
Qed.

(** [gather] delivers the results in the order of its arguments, whatever
    the order in which the tasks finish and their callbacks run: its future
    stays pending until the last callback has run, and then holds, for each
    argument in order, the result of that task (or its exception, with
    [return_exceptions]). *)
Theorem gather_in_order ts re outer (s0 : loop) s1 s D :
  ids_ok s0 -> ts <> [] -> Forall (fun t => is_Some (l_futures s0 !! t)) ts ->
  gather ts re s0 = (Ok outer, s1) -> steps (g_step ts re outer) (s1, []) (s, D) ->
  exists o, l_futures s !! outer = Some o /\
    ((length D < length ts)%nat -> f_state o = PENDING) /\
    ((length D = length ts) -> exists rs, future_result o = Ok (VList rs) /\
       Forall2 (fun t v => exists x, l_futures s !! t = Some x /\ done x = true /\ v = recorded x) ts rs).
Proof.
  intros Hids Hne Hts Hg Hs. assert (Hinv : g_inv ts re outer (s, D)).
  { eapply (steps_invariant _ _ (g_inv_step ts re outer)); [|exact Hs]. by eapply gather_init. }
  destruct Hinv as [_ Hnd Hrg (rs & _ & Hl & Hr & o & Ho & He & Hst)]. simpl in *. exists o. split_and!; [done|..].
  - intros Hlt. by rewrite decide_True in Hst.
  - intros HD. rewrite decide_False in Hst by lia. destruct Hst as [Hf Hv]. exists rs. split.
    + unfold future_result. by rewrite Hf, He, Hv.
    + apply Forall2_same_length_lookup_2; [done|]. intros i t v Ht Hv'.
      assert (Hi : i ∈ D).
      { destruct (decide (i ∈ D)) as [|Hi]; [done|]. pose proof (room D i (length ts) Hnd Hrg Hi (lookup_lt_Some _ _ _ Ht)). lia. }
      destruct (Hr i t Hi Ht) as (x & Hx & Hd & Hx'). exists x. split_and!; [done..|]. congruence.
Qed.
End gather.

(** Witness: two futures that finish in the opposite order of the arguments. *)
Lemma gather_in_order_witness :
  exists (s : Asyncio.loop unit gathering) o, l_futures s !! 2 = Some o /\
    future_result o = Ok (VList [VInt 10; VInt 20]).
Proof.
  set (z := mkGather 0 [] 0 false).
  set (i0 := snd ((create_future ;;; create_future) (loop_init (Coro := unit) z))).
  set (i1 := snd (gather [0; 1] false i0)).
  set (i2 := snd (set_result 1 (VInt 20) i1)). set (i3 := snd (gather_done 1 1 i2)).
  set (i4 := snd (set_result 0 (VInt 10) i3)). set (i5 := snd (gather_done 0 0 i4)).
  exists i5. eexists. split; [vm_compute; reflexivity|].
  destruct (gather_in_order [0; 1] false 2 i0 i1 i5 [0%nat; 1%nat]) as (o & Ho & _ & Hall).
  - intros f [x Hx]. vm_compute in Hx. destruct f as [|[]|]; try done. all: by vm_compute.
  - done.
  - repeat constructor; by eexists.
  - reflexivity.
  - eapply steps_cons; [apply (gs_other _ _ _ i1 [] i2)|].
    { split; [reflexivity|]. split; [|intros x Hx; eexists; split; [reflexivity|]; by vm_compute in Hx; injection Hx as <-].
      intros f x Hx. vm_compute in Hx. destruct f as [|[[]|[]|]|]; try done; injection Hx as <-; by eexists. }
    eapply steps_cons; [eapply (gs_done _ _ _ 1 1 _ i2 [] (Ok tt) i3); [by intros ?%elem_of_nil|reflexivity|reflexivity|reflexivity|by right|reflexivity]|].
    eapply steps_cons; [apply (gs_other _ _ _ i3 _ i4)|].
    { split; [reflexivity|]. split; [|intros x Hx; eexists; split; [reflexivity|]; by vm_compute in Hx; injection Hx as <-].
      intros f x Hx. vm_compute in Hx. destruct f as [|[[]|[]|]|]; try done; injection Hx as <-; by eexists. }
    eapply steps_cons; [eapply (gs_done _ _ _ 0 0 _ i4 [1%nat] (Ok tt) i5); [by vm_compute; intros ?%list_elem_of_singleton|reflexivity|reflexivity|reflexivity|by right|reflexivity]|].
    constructor.
  - destruct (Hall eq_refl) as (rs & Hr & _). vm_compute in Ho. injection Ho as <-. injection Hr as <-. reflexivity.
Defined.

(** ** Tasks that use a lock

    Memory: the lock and how many tasks are inside its critical section.  A
    task waits some turns, acquires, stays inside some turns, releases. *)

Definition mem : Type := lock * Z.
Definition put_lk (k : lock) (u : mem) : mem := (k, u.2).

Inductive prog : Type :=
| PStart (delay hold : nat)
| PWaiting (f : Z) (hold : nat)
| PHolding (hold : nat)
| PEnd.

Abbreviation lkloop := (loop prog mem).

Definition inside (d : Z) : M lkloop unit := modify (fun s => set_user ((l_user s).1, (l_user s).2 + d) s).

Definition entered (hold : nat) (p : progress bool) : M lkloop (prog * outcome) :=
  match p with
  | Done _ => inside 1 ;;; ret (PHolding hold, OYield)
  | Wait f => ret (PWaiting f hold, OYieldFuture f)
  end.

Definition run_prog (c : prog) (exc : option exn) : M lkloop (prog * outcome) :=
  match c with
  | PStart (S d) hold => ret (PStart d hold, OYield)
  | PStart O hold => let! p := lock_acquire_start fst put_lk in entered hold p
  | PWaiting f hold =>
      try_except (let! p := lock_acquire_resume fst put_lk f exc in entered hold p)
                 (fun e => ret (PEnd, ORaise e))
  | PHolding (S n) => ret (PHolding n, OYield)
  | PHolding O =>
      inside (-1) ;;;
      try_except (lock_release fst put_lk ;;; ret (PEnd, OReturn VNone)) (fun e => ret (PEnd, ORaise e))
  | PEnd => ret (PEnd, OReturn VNone)
  end.

Definition no_user (n : Z) (a : farg) : M lkloop unit := ret tt.

Definition lk_turn (now : Z) : M lkloop unit := run_once run_prog no_user (ret tt) now.

Definition lk_start : lkloop := loop_init (Lock_init, 0).

(** Two tasks alternate: the second enters when the first has left. *)
Example lock_handover :
  let go := create_task (PStart 0 1) ;;; create_task (PStart 0 5) ;;; lk_turn 0 ;;; lk_turn 1 in
  (l_user (snd (go lk_start))).2 = 1 /\ (l_user (snd ((go ;;; lk_turn 2) lk_start))).2 = 0 /\
  (l_user (snd ((go ;;; lk_turn 2 ;;; lk_turn 3) lk_start))).2 = 1.
Proof. by vm_compute. Qed.

(** The lock is not exclusive: the first task releases it and wakes the second,
    but a third acquires the free lock before the second runs; the second does
    not look again and enters too. *)
Example lock_two_holders :
  let go := create_task (PStart 0 0) ;;; create_task (PStart 0 5) ;;; create_task (PStart 1 5) ;;;
            lk_turn 0 ;;; lk_turn 1 ;;; lk_turn 2 in
  (l_user (snd (go lk_start))).2 = 2.
Proof. by vm_compute. Qed.

(** A consumer that is cancelled between its wakeup and its next step takes
    the wakeup with it: an item is there and the other consumer sleeps on. *)
Example queue_lost_wakeup :
  let go := let! a := get_start in let! b := get_start in
            put_nowait (VInt 7) ;;; get_resume 0 (Some CancelledError) in
  let '(r, s) := go (loop_init (Coro := unit) (Queue_init 0)) in
  r = Err CancelledError /\ q_items (l_user s) = [VInt 7] /\ q_getters (l_user s) = [1] /\
  (exists x, l_futures s !! 1 = Some x /\ f_state x = PENDING) /\ l_ready s = [].
Proof. vm_compute. repeat split. by eexists. Qed.

(** A semaphore keeps the futures of waiters it has served. *)
Example semaphore_keeps_waiters :
  let go := sem_acquire_start ;;; sem_acquire_start ;;; sem_release ;;; sem_acquire_resume 0 None in
  let '(r, s) := go (loop_init (Coro := unit) (mkSem 1 [])) in
  r = Ok (Done true) /\ sem_waiters (l_user s) = [0].
Proof. by vm_compute. Qed.

(** ** The programs use the loop through its methods only *)

Lemma ul_inside d : uses_loop (inside d).
Proof. exact (ul_user (fun u : mem => (u.1, u.2 + d))). Qed.
Lemma ul_upd_lock g : uses_loop (upd_lock (Coro := prog) fst put_lk g).
Proof. exact (ul_user (fun u : mem => put_lk (g u.1) u)). Qed.
Lemma ul_entered hold p : uses_loop (entered hold p).
Proof. destruct p; repeat constructor; auto using ul_inside. Qed.
Lemma ul_await f exc : uses_loop (await_outcome (Coro := prog) (U := mem) f exc).
Proof. destruct exc; repeat constructor. Qed.
Lemma ul_wake l : uses_loop (wake_first (Coro := prog) (U := mem) l).
Proof.
  induction l as [|f l IH]; simpl; [constructor|]. apply ul_bind; [constructor|]. intros x. case_match; [exact IH|].
  apply ul_bind; [apply ul_set_result|intros ?; apply ul_ret].
Qed.

Lemma ul_run_prog c exc : uses_loop (run_prog c exc).
Proof.
  destruct c as [[|d] hold|f hold|[|n]|]; simpl; try by repeat constructor.
  - apply ul_bind; [|apply ul_entered]. apply ul_bind; [constructor|]. intros u. case_match.
    + apply ul_bind; [apply ul_upd_lock|]. repeat constructor.
    + apply ul_bind; [apply ul_create_future|]. intros f. apply ul_bind; [apply ul_upd_lock|]. repeat constructor.
  - apply ul_try; [|repeat constructor]. apply ul_bind; [|apply ul_entered]. apply ul_bind; [apply ul_await|].
    intros [v|e]; [apply ul_bind; [apply ul_upd_lock|repeat constructor]|].
    destruct e; try constructor; [apply ul_upd_lock|constructor].
  - apply ul_bind; [apply ul_inside|]. intros ?. apply ul_try; [|repeat constructor].
    apply ul_bind; [|repeat constructor]. apply ul_bind; [constructor|]. intros u. case_match; [constructor|].
    apply ul_bind; [apply ul_upd_lock|]. intros ?. apply ul_bind; [apply ul_wake|]. intros [f|]; [apply ul_upd_lock|constructor].
Qed.

(** ** Witnesses *)

(** A future with two callbacks. *)
Lemma future_set_result_witness :
  exists (s' : lkloop) x, l_futures s' !! 0 = Some x /\ f_result x = VInt 5 /\ length (l_ready s') = 2%nat.
Proof.
  set (s := snd ((create_future ;;; add_done_callback 0 (FnUser 1) ;;; add_done_callback 0 (FnUser 2)) lk_start)).
  destruct (future_set_result s 0 (mkFuture PENDING VNone None [FnUser 1; FnUser 2]) (VInt 5) (VInt 6))
    as (s' & hs & _ & Hx & Hr & Hall & _); [reflexivity..|].
  exists s'. eexists. split; [exact Hx|]. split; [reflexivity|]. rewrite Hr. simpl. by apply Forall2_length in Hall.
Defined.

(** A future completed before two lock users run a turn. *)
Definition two_users : lkloop :=
  snd ((create_future ;;; set_result 0 (VInt 5) ;;; create_task (PStart 0 1) ;;; create_task (PStart 0 5) ;;;
        call_at 7 (FnUser 1) None ;;; call_at 3 (FnUser 2) None) lk_start).

Lemma two_users_ids : ids_ok two_users.
Proof.
  intros f [x Hx]. change (l_next two_users) with 7. unfold two_users in Hx. vm_compute in Hx.
  destruct f as [|p|p]; [lia| |done]. repeat (destruct p as [p|p|]; try done); lia.
Qed.

Lemma future_final_witness :
  exists y, l_futures (snd (lk_turn 0 two_users)) !! 0 = Some y /\ future_result y = Ok (VInt 5).
Proof.
  destruct (future_final run_prog no_user (ret tt) ul_run_prog (fun _ _ => ul_ret _ _) (ul_ret _ _) 0 two_users
              (fst (lk_turn 0 two_users)) (snd (lk_turn 0 two_users)) 0 (mkFuture FINISHED (VInt 5) None []))
    as (y & Hy & _ & Hr).
  - apply two_users_ids.
  - apply surjective_pairing.
  - by vm_compute.
  - reflexivity.
  - exists y. split; [exact Hy|exact Hr].
Defined.

Lemma loop_timers_witness :
  promote 5 (l_scheduled (snd (lk_turn 0 two_users))) = ([6], [(7, 5)]) /\
  StronglySorted due_order (l_scheduled (snd (lk_turn 0 two_users))).
Proof.
  destruct (loop_timers run_prog no_user (ret tt) ul_run_prog (fun _ _ => ul_ret _ _) (ul_ret _ _) two_users
              (snd (lk_turn 0 two_users)) 0 0 5) as (_ & Hp & Hs).
  - unfold timers_ok. replace (l_scheduled two_users) with [(3, 6); (7, 5)] by by vm_compute.
    by apply (insert_at_sorted 3 6 [(7, 5)]); repeat constructor.
  - eapply steps_cons; [|apply steps_refl]. exists 0, (fst (lk_turn 0 two_users)). apply surjective_pairing.
  - split; [|exact Hs]. etransitivity; [exact Hp|]. by vm_compute.
Defined.

Lemma loop_turn_fifo_witness :
  exists new, l_ready (snd (run_ready run_prog no_user 2 two_users)) = [] ++ new.
Proof.
  refine (proj2 (loop_turn_fifo run_prog no_user ul_run_prog (fun _ _ => ul_ret _ _) two_users [2; 4] [] _) _ _);
    by vm_compute.
Defined.
