(* ===== verification/Log.v ===== *)
(** * Serial log ([kernel/log.py])

    The serial console: [_serial_col] and the bytes sent so far.  The busy wait
    of [_putc] for the transmitter is not modelled: the byte is sent.  [panic]
    never returns and is the line it prints.

    A terminal that obeys carriage return, backspace and tabs of four columns
    is the specification: the driver's column is the terminal's, and text
    never runs over the right margin. *)

From Stdlib Require Import ZArith Lia.
From stdpp Require Import base list numbers strings.
From S2P Require Import Prelude Bytes Pystr.

Local Open Scope Z_scope.

Record console : Type := mkConsole { serial_col : Z; serial_out : bytes }.

Definition PREFIX : str := lit "[PythonOS] ".
Definition SERIAL_WIDTH : Z := 80.

Definition putc (byte : Z) : M console unit :=
  modify (fun c => mkConsole (serial_col c) (serial_out c ++ [Z.land byte 0xFF])).
Definition set_col (n : Z) : M console unit := modify (fun c => mkConsole n (serial_out c)).

Definition serial_newline : M console unit := putc 0x0D ;;; putc 0x0A ;;; set_col 0.

(** One iteration of the loop of [_serial_raw]. *)
Definition serial_char (ch : Z) : M console unit :=
  if ch =? 0x0A then serial_newline
  else if ch =? 0x0D then putc 0x0D ;;; set_col 0
  else if ch =? 0x08 then
    putc 0x08 ;;;
    let! col := gets serial_col in
    if 0 <? col then set_col (col - 1) else ret tt
  else
    let! col := gets serial_col in
    (if (0 <? SERIAL_WIDTH) && (SERIAL_WIDTH <=? col) then serial_newline else ret tt) ;;;
    putc ch ;;;
    let! col := gets serial_col in
    if ch =? 0x09 then set_col (col + (4 - col mod 4))
    else if 0x20 <=? ch then set_col (col + 1)
    else ret tt.

Definition serial_raw (text : str) : M console unit := for_each text serial_char.
Definition serial (line : str) : M console unit := serial_raw line ;;; serial_newline.

Definition info (msg : str) : M console unit := serial (PREFIX ++ lit "INFO  " ++ msg).
Definition warn (msg : str) : M console unit := serial (PREFIX ++ lit "WARN  " ++ msg).
Definition error (msg : str) : M console unit := serial (PREFIX ++ lit "ERROR " ++ msg).
Definition panic (msg : str) : M console unit := serial (PREFIX ++ lit "PANIC " ++ msg).

(** ** The terminal at the other end *)

Definition term_step (col : Z) (b : Z) : Z :=
  if b =? 0x0D then 0
  else if b =? 0x08 then Z.max 0 (col - 1)
  else if b =? 0x09 then col + (4 - col mod 4)
  else if 0x20 <=? b then col + 1
  else col.
Definition term_col (out : bytes) : Z := fold_left term_step out 0.

(** The columns it goes through; it never has to go beyond column 80. *)
Fixpoint term_cols (col : Z) (out : bytes) : list Z :=
  match out with
  | [] => []
  | b :: out' => term_step col b :: term_cols (term_step col b) out'
  end.
Definition in_margin (col : Z) : Prop := 0 <= col <= SERIAL_WIDTH.
Definition within_margin (out : bytes) : Prop := Forall in_margin (term_cols 0 out).

Definition text_byte (b : Z) : bool := negb ((b =? 0x0D) || (b =? 0x0A)).

Lemma term_col_snoc out b : term_col (out ++ [b]) = term_step (term_col out) b.
Proof. unfold term_col. by rewrite fold_left_app. Qed.

Lemma term_cols_snoc out b col : term_cols col (out ++ [b]) = term_cols col out ++ [term_step (fold_left term_step out col) b].
Proof. revert col. induction out as [|x out IH]; intros col; simpl; [done|]. by rewrite IH. Qed.

(** What holds between the driver and the terminal. *)
Record console_ok (c : console) : Prop := {
  ck_col : serial_col c = term_col (serial_out c);
  ck_here : in_margin (serial_col c);
  ck_margin : within_margin (serial_out c);
}.

(** [m] sends the bytes [bs] in step with the terminal. *)
Definition sends (bs : bytes) (m : M console unit) : Prop :=
  forall c, console_ok c -> exists c', m c = (Ok tt, c') /\ console_ok c' /\
    List.filter text_byte (serial_out c') = List.filter text_byte (serial_out c) ++ bs.

Lemma sends_bind a b (m k : M console unit) : sends a m -> sends b k -> sends (a ++ b) (m ;;; k).
Proof.
  intros Hm Hk c Hc. destruct (Hm c Hc) as (c1 & E1 & Hc1 & F1). destruct (Hk c1 Hc1) as (c2 & E2 & Hc2 & F2).
  exists c2. rewrite (bind_step _ _ _ _ _ E1). split_and!; [done..|]. by rewrite F2, F1, (assoc_L (++)).
Qed.

(** Sending one byte and moving to the column the terminal moves to. *)
Lemma sends_byte c b :
  console_ok c -> 0 <= b < 256 -> in_margin (term_step (serial_col c) b) ->
  let c' := mkConsole (term_step (serial_col c) b) (serial_out c ++ [Z.land b 0xFF]) in
  console_ok c' /\ List.filter text_byte (serial_out c') =
    List.filter text_byte (serial_out c) ++ List.filter text_byte [b].
Proof.
  intros [Hcol Hh Hm] Hb Hin. simpl. change 255 with (Z.ones 8). rewrite Z.land_ones by lia.
  rewrite Z.mod_small by (change (2 ^ 8) with 256; lia). split; [|by rewrite List.filter_app].
  split; simpl; [by rewrite term_col_snoc, Hcol|done|].
  unfold within_margin. rewrite term_cols_snoc. apply Forall_app. split; [done|].
  apply Forall_singleton. change (fold_left _ _ _) with (term_col (serial_out c)). by rewrite <- Hcol.
Qed.

Lemma sends_newline : sends [] serial_newline.
Proof.
  intros c Hc. destruct (sends_byte c 0x0D Hc) as [Hc1 F1]; [done..|].
  destruct (sends_byte _ 0x0A Hc1) as [Hc2 F2]; [done..|]. eexists. split; [reflexivity|].
  split; [exact Hc2|]. etransitivity; [exact F2|]. rewrite F1. simpl. by rewrite !app_nil_r.
Qed.

(** Sending a character that is not a line or cursor control. *)
Definition plain_char (ch : Z) : M console unit :=
  putc ch ;;;
  let! col := gets serial_col in
  if ch =? 0x09 then set_col (col + (4 - col mod 4))
  else if 0x20 <=? ch then set_col (col + 1)
  else ret tt.

Lemma plain_char_eq ch c :
  ch <> 0x0D -> ch <> 0x08 ->
  plain_char ch c = (Ok tt, mkConsole (term_step (serial_col c) ch) (serial_out c ++ [Z.land ch 0xFF])).
Proof.
  intros H1 H2. unfold term_step. rewrite (proj2 (Z.eqb_neq _ _) H1), (proj2 (Z.eqb_neq _ _) H2).
  unfold plain_char, bind, putc, modify, gets, set_col. simpl.
  destruct (ch =? 9); [done|]. by destruct (32 <=? ch).
Qed.

Lemma term_step_margin col ch :
  in_margin col -> col < SERIAL_WIDTH -> ch <> 0x0D -> ch <> 0x08 -> in_margin (term_step col ch).
Proof.
  unfold in_margin, term_step, SERIAL_WIDTH. intros Hc Hlt H1 H2.
  rewrite (proj2 (Z.eqb_neq _ _) H1), (proj2 (Z.eqb_neq _ _) H2).
  repeat case_match; try lia. assert (0 <= col mod 4 < 4) by (apply Z.mod_pos_bound; lia).
  pose proof (Z.div_mod col 4). lia.
Qed.

Lemma sends_char ch : 0 <= ch < 256 -> sends (List.filter text_byte [ch]) (serial_char ch).
Proof.
  intros Hch. unfold serial_char. case_match eqn:E1.
  { apply Z.eqb_eq in E1 as ->. apply sends_newline. }
  apply Z.eqb_neq in E1. case_match eqn:E2.
  { apply Z.eqb_eq in E2 as ->. intros c Hc. destruct (sends_byte c 0x0D Hc) as [Hc1 F1]; [done..|].
    eexists. split; [reflexivity|]. split; [exact Hc1|exact F1]. }
  apply Z.eqb_neq in E2. case_match eqn:E3.
  { apply Z.eqb_eq in E3 as ->. intros c Hc. pose proof (ck_here _ Hc) as Hh. unfold in_margin in Hh.
    destruct (sends_byte c 0x08 Hc) as [Hc1 F1]; [done|unfold in_margin, term_step; simpl; lia|].
    eexists. split; [|split; [exact Hc1|exact F1]].
    unfold bind, putc, modify, gets, set_col, term_step. simpl. case_match eqn:E; unfold ret, modify; simpl; do 2 f_equal; lia. }
  apply Z.eqb_neq in E3.
  change (sends (List.filter text_byte [ch]) (let! col := gets serial_col in
    (if (0 <? SERIAL_WIDTH) && (SERIAL_WIDTH <=? col) then serial_newline else ret tt) ;;; plain_char ch)).
  intros c Hc. unfold bind at 1. cbn [gets].
  assert (exists c1, (if (0 <? SERIAL_WIDTH) && (SERIAL_WIDTH <=? serial_col c) then serial_newline else ret tt) c
     = (Ok tt, c1) /\ console_ok c1 /\ serial_col c1 < SERIAL_WIDTH /\
     List.filter text_byte (serial_out c1) = List.filter text_byte (serial_out c)) as (c1 & Em & Hc1 & Hlt & F).
  { case_match eqn:E.
    - destruct (sends_newline c Hc) as (c1 & Em & Hc1 & F). exists c1. rewrite app_nil_r in F.
      split_and!; try done. injection Em as <-. done.
    - exists c. split_and!; try done. simpl in E. lia. }
  destruct (sends_byte c1 ch Hc1 Hch) as [Hc2 F2].
  { apply term_step_margin; [apply (ck_here _ Hc1)|done..]. }
  eexists. rewrite (bind_step _ _ _ _ _ Em), plain_char_eq by done. split; [reflexivity|].
  split; [exact Hc2|]. etransitivity; [exact F2|]. by rewrite F.
Qed.

Lemma sends_raw text : bytes_ok text -> sends (List.filter text_byte text) (serial_raw text).
Proof.
  induction 1 as [|ch text Hch Ht IH].
  - intros c Hc. exists c. by rewrite app_nil_r.
  - change (ch :: text) with ([ch] ++ text). rewrite List.filter_app.
    exact (sends_bind _ _ _ _ (sends_char ch Hch) IH).
Qed.

Definition console_init : console := mkConsole 0 [].

Lemma console_init_ok : console_ok console_init.
Proof. split; [done| |constructor]. unfold in_margin. by vm_compute. Qed.

(** Whatever texts of 8-bit characters are printed (tabs, backspaces and
    line breaks included), the driver's column stays the column of the terminal
    that receives the bytes, the terminal is never asked to go beyond its
    80th column, and the bytes sent are the texts', apart from carriage
    returns and line feeds. *)
Theorem log_column_tracks texts :
  Forall bytes_ok texts ->
  exists c, for_each texts serial_raw console_init = (Ok tt, c) /\
    serial_col c = term_col (serial_out c) /\ within_margin (serial_out c) /\
    List.filter text_byte (serial_out c) = List.filter text_byte (concat texts).
Proof.
  intros Ht.
  assert (sends (List.filter text_byte (concat texts)) (for_each texts serial_raw)) as Hs.
  { induction Ht as [|t texts Hb Hbs IH]; simpl.
    - intros c Hc. exists c. by rewrite app_nil_r.
    - rewrite List.filter_app. exact (sends_bind _ _ _ _ (sends_raw t Hb) IH). }
  destruct (Hs _ console_init_ok) as (c & E & [] & F). by exists c.
Qed.

Lemma log_column_tracks_witness :
  let texts := [replicate 79 65 ++ [9; 66; 8; 8; 10]; lit "boot"] in
  exists c, for_each texts serial_raw console_init = (Ok tt, c) /\ within_margin (serial_out c).
Proof.
  intros texts. destruct (log_column_tracks texts) as (c & E & _ & Hm & _).
  - apply List.Forall_forall. intros t Ht. apply List.Forall_forall. intros b Hb. unfold byte_ok.
    assert (forallb (forallb (fun b => (0 <=? b) && (b <? 256))) texts = true) as Hall by (by vm_compute).
    rewrite forallb_forall in Hall. specialize (Hall t Ht). rewrite forallb_forall in Hall.
    specialize (Hall b Hb). lia.
  - exists c. exact (conj E Hm).
Defined.
