(* ===== verification/Scheduler.v ===== *)
(** * Process scheduler and session clock ([kernel/scheduler.py],
    [kernel/timekeeper.py])

    Every process is a task of the event loop, so the operations act on the
    loop's state; the scheduler's own fields, the serial log and the session
    clock are the loop users' memory.  The done callback that [spawn] installs
    is a closure over the pid and the [auto_reap] flag: the loop knows it by a
    number that codes both. *)

From Stdlib Require Import ZArith Lia.
From stdpp Require Import base list gmap numbers strings.
From S2P Require Import Prelude Bytes Pystr Dict Asyncio Log.

Local Open Scope Z_scope.

(** ** Data *)

Inductive ProcessState : Type := RUNNING | SLEEPING | ZOMBIE.
#[global] Instance ProcessState_eq_dec : EqDecision ProcessState.
Proof. solve_decision. Defined.

Record Process : Type := mkProcess {
  p_pid : Z;
  p_name : str;
  p_task : Z;
  p_state : ProcessState;
  p_ticks : Z;
}.

Definition TICK_HZ : Z := 100.

Record scheduler : Type := mkSched {
  processes : list (Z * Process);
  next_pid : Z;
  ticks : Z;
}.
Definition Scheduler_init : scheduler := mkSched [] 1 0.

(** The session clock's two module variables. *)
Record clock : Type := mkClock { base_clock : option Z; base_uptime : Z }.
Definition clock_init : clock := mkClock None 0.

Record kern : Type := mkKern { k_sched : scheduler; k_console : console; k_clock : clock }.
Definition kern_init : kern := mkKern Scheduler_init console_init clock_init.
Definition set_sched x (k : kern) : kern := mkKern x (k_console k) (k_clock k).
Definition set_console x (k : kern) : kern := mkKern (k_sched k) x (k_clock k).
Definition set_clock x (k : kern) : kern := mkKern (k_sched k) (k_console k) x.

Section sched.
Context {Coro : Type}.
(** [str] of an exception. *)
Context (exn_str : exn -> str).
Abbreviation kloop := (loop Coro kern).

Definition get_sched : M kloop scheduler := gets (fun s => k_sched (l_user s)).
Definition upd_sched (f : scheduler -> scheduler) : M kloop unit :=
  modify (fun s => set_user (set_sched (f (k_sched (l_user s))) (l_user s)) s).
Definition upd_processes (f : list (Z * Process) -> list (Z * Process)) : M kloop unit :=
  upd_sched (fun k => mkSched (f (processes k)) (next_pid k) (ticks k)).
Definition on_console (m : M console unit) : M kloop unit :=
  zoom (fun s => k_console (l_user s)) (fun c s => set_user (set_console c (l_user s)) s) m.

(** The callback [lambda t: self._finish(pid, t, auto_reap)]. *)
Definition finish_fn (pid : Z) (auto_reap : bool) : fn := FnUser (2 * pid + Z.b2z auto_reap).

Definition set_state (st : ProcessState) (p : Process) : Process :=
  mkProcess (p_pid p) (p_name p) (p_task p) st (p_ticks p).

(** ** The public operations *)

Definition spawn (coro : Coro) (name : option str) (auto_reap : bool) : M kloop Z :=
  let! k := get_sched in
  let pid := next_pid k in
  upd_sched (fun k => mkSched (processes k) (next_pid k + 1) (ticks k)) ;;;
  let name := match name with Some (c :: n) => c :: n | _ => lit "proc-" ++ str_of_int pid end in
  let! t := ensure_future (inl coro) in
  add_done_callback t (finish_fn pid auto_reap) ;;;
  upd_processes (dset pid (mkProcess pid name t RUNNING 0)) ;;;
  ret pid.

(** [proc.task.done()] *)
Definition task_done (p : Process) : M kloop bool :=
  let! x := get_future (p_task p) in ret (done x).

Definition kill (pid : Z) : M kloop unit :=
  let! k := get_sched in
  match dget pid (processes k) with
  | None => ret tt
  | Some p =>
      let! d := task_done p in
      if d then ret tt
      else
        let! n := gets (fun s => size (l_tasks s)) in
        let! _ := cancel (S n) (p_task p) in ret tt
  end.

Definition ps : M kloop (list Process) :=
  let! k := get_sched in ret (processes k).*2.

Definition reap (pid : Z) : M kloop (option Process) :=
  let! k := get_sched in
  match dget pid (processes k) with
  | None => ret None
  | Some p =>
      let! d := task_done p in
      if negb d then ret None
      else upd_processes (dpop pid) ;;; ret (Some p)
  end.

(** The loop of [tick]: credits the first running process and stops. *)
Fixpoint credit (l todo : list (Z * Process)) : M kloop unit :=
  match todo with
  | [] => ret tt
  | (pid, p) :: todo' =>
      let! d := (if decide (p_state p = RUNNING) then task_done p else ret true) in
      if d then credit (l ++ [(pid, p)]) todo'
      else upd_processes (fun _ =>
             l ++ (pid, mkProcess (p_pid p) (p_name p) (p_task p) (p_state p) (p_ticks p + 1)) :: todo')
  end.

Definition tick : M kloop unit :=
  upd_sched (fun k => mkSched (processes k) (next_pid k) (ticks k + 1)) ;;;
  let! k := get_sched in
  credit [] (processes k).

Definition uptime_ms (k : scheduler) : Z := ticks k * 1000 / TICK_HZ.

(** ** [_finish] *)

Definition finish (pid task : Z) (auto_reap : bool) : M kloop unit :=
  let! k := get_sched in
  match dget pid (processes k) with
  | None => ret tt
  | Some p =>
      upd_processes (dset pid (set_state ZOMBIE p)) ;;;
      let! x := get_future task in
      let! error := (if cancelled x then ret None else lift (future_exception x)) in
      match error with
      | Some e => on_console (Log.error (lit "process " ++ p_name p ++ lit " (pid=" ++ str_of_int pid
                    ++ lit ") raised: " ++ exn_str e))
      | None => ret tt
      end ;;;
      if auto_reap then upd_processes (dpop pid) else ret tt
  end.

(** How the loop calls the closure. *)
Definition sched_call (n : Z) (a : farg) : M kloop unit :=
  match a with
  | Some f => finish (n / 2) f (Z.odd n)
  | None => raise TypeError
  end.

(** ** The session clock *)

Definition uptime_seconds (k : kern) : Z := Z.max 0 (uptime_ms (k_sched k) / 1000).

Definition is_set (k : kern) : bool := match base_clock (k_clock k) with Some _ => true | None => false end.

Definition set_hms (hour minute second : Z) : M kern unit :=
  if negb ((0 <=? hour) && (hour <=? 23)) then raise ValueError
  else if negb ((0 <=? minute) && (minute <=? 59)) then raise ValueError
  else if negb ((0 <=? second) && (second <=? 59)) then raise ValueError
  else modify (fun k => set_clock (mkClock (Some (hour * 3600 + minute * 60 + second)) (uptime_seconds k)) k).

Definition clear : M kern unit := modify (fun k => set_clock (mkClock None 0) k).

Definition seconds (k : kern) : Z :=
  match base_clock (k_clock k) with
  | None => uptime_seconds k
  | Some b => (b + uptime_seconds k - base_uptime (k_clock k)) mod 86400
  end.

(** [f"{n:02d}"] of a number that is not negative. *)
Definition pad2 (n : Z) : str :=
  let d := str_of_int n in if len d <? 2 then 48 :: d else d.

Definition format_hms (k : kern) : str :=
  let value := seconds k in
  let hour := value / 3600 in
  let minute := (value / 60) mod 60 in
  let second := value mod 60 in
  pad2 hour ++ lit ":" ++ pad2 minute ++ lit ":" ++ pad2 second.
End sched.

(** ** The clock *)

(** What a clock face shows. *)
Definition hms (t : Z) : Z * Z * Z := (t / 3600, (t / 60) mod 60, t mod 60).

Lemma hms_of h m s :
  0 <= h <= 23 -> 0 <= m <= 59 -> 0 <= s <= 59 ->
  hms (h * 3600 + m * 60 + s) = (h, m, s) /\ 0 <= h * 3600 + m * 60 + s < 86400.
Proof.
  intros Hh Hm Hs. split; [|lia]. unfold hms. repeat f_equal.
  - symmetry. apply (Z.div_unique_pos _ 3600 h (m * 60 + s)); lia.
  - replace ((h * 3600 + m * 60 + s) / 60) with (h * 60 + m).
    + symmetry. apply (Z.mod_unique_pos _ 60 h m); lia.
    + apply (Z.div_unique_pos _ 60 (h * 60 + m) s); lia.
  - symmetry. apply (Z.mod_unique_pos _ 60 (h * 60 + m) s); lia.
Qed.

(** A session clock set to a valid time shows that time; when the kernel's
    uptime has advanced by [d] seconds it shows the time [d] seconds later,
    modulo one day; an invalid time is refused and leaves the clock as it was;
    clearing goes back to the time since boot. *)
Theorem clock_set_and_run k h m s sch :
  let valid := 0 <= h <= 23 /\ 0 <= m <= 59 /\ 0 <= s <= 59 in
  let '(r, k1) := set_hms h m s k in
  let k2 := set_sched sch k1 in
  let d := uptime_seconds k2 - uptime_seconds k in
  (valid -> r = Ok tt /\ is_set k1 = true /\
     format_hms k1 = pad2 h ++ lit ":" ++ pad2 m ++ lit ":" ++ pad2 s /\
     seconds k2 = (h * 3600 + m * 60 + s + d) mod 86400) /\
  (~ valid -> r = Err ValueError /\ k1 = k) /\
  seconds (snd (clear k1)) = uptime_seconds k /\ is_set (snd (clear k1)) = false.
Proof.
  intros valid. unfold set_hms.
  destruct (negb ((0 <=? h) && (h <=? 23))) eqn:E1; [unfold raise; split_and!; try done; unfold valid; lia|].
  destruct (negb ((0 <=? m) && (m <=? 59))) eqn:E2; [unfold raise; split_and!; try done; unfold valid; lia|].
  destruct (negb ((0 <=? s) && (s <=? 59))) eqn:E3; [unfold raise; split_and!; try done; unfold valid; lia|].
  unfold modify. split_and!; [|unfold valid; lia|done..]. intros (Hh & Hm & Hs).
  destruct (hms_of h m s Hh Hm Hs) as [Hhms Hlt]. split_and!; [done..| |].
  - set (k1 := set_clock _ k). assert (seconds k1 = h * 3600 + m * 60 + s) as Hsec.
    { unfold seconds, k1. simpl. change (uptime_seconds (set_clock _ k)) with (uptime_seconds k).
      rewrite <- (Z.mod_small _ _ Hlt) at 2. f_equal. lia. }
    unfold format_hms. rewrite Hsec. unfold hms in Hhms. by injection Hhms as -> -> ->.
  - unfold seconds. simpl. f_equal. change (uptime_seconds (set_clock _ k)) with (uptime_seconds k). lia.
Qed.
