(* ===== verification/SchedProps.v ===== *)
(** * Properties of the process scheduler

    Code that runs under the loop acts on it through the loop's methods and the
    scheduler's operations ([uses_sched]).  The invariant [sinv] ties the
    process table to the loop: a process whose task is pending is RUNNING and
    its [_finish] callback waits on the task; one whose task is done is a
    ZOMBIE, or its [_finish] is ready to run. *)

From Stdlib Require Import ZArith Lia.
From stdpp Require Import base list gmap numbers strings.
From S2P Require Import Prelude Bytes Pystr Dict Asyncio AsyncioProps Log Scheduler.

Local Open Scope Z_scope.

Section props.
Context {Coro : Type} (exn_str : exn -> str).
Abbreviation kloop := (loop Coro kern).
Implicit Types s : kloop.

(** Callbacks other than the scheduler's. *)
Definition plain_fn (g : fn) : Prop := match g with FnUser _ => False | _ => True end.

(** Cancelling a handle of one's own, never one of the scheduler's. *)
Definition cancel_plain (h : Z) : M kloop unit :=
  let! hs := gets l_handles in
  match hs !! h with
  | Some x => match h_fn x with FnUser _ => ret tt | _ => handle_cancel h end
  | None => ret tt
  end.

Inductive uses_sched : forall {A}, M kloop A -> Prop :=
| us_ret A (a : A) : uses_sched (ret a)
| us_raise A e : uses_sched (raise (A := A) e)
| us_lift A (r : result A) : uses_sched (lift r)
| us_gets A (f : kloop -> A) : uses_sched (gets f)
| us_bind A B (m : M kloop A) (f : A -> M kloop B) :
    uses_sched m -> (forall a, uses_sched (f a)) -> uses_sched (bind m f)
| us_try A (m : M kloop A) h : uses_sched m -> (forall e, uses_sched (h e)) -> uses_sched (try_except m h)
| us_get f : uses_sched (get_future f)
| us_call_soon g a : plain_fn g -> uses_sched (call_soon g a)
| us_call_at w g a : plain_fn g -> uses_sched (call_at w g a)
| us_handle_cancel h : uses_sched (cancel_plain h)
| us_stop : uses_sched stop
| us_create_future : uses_sched create_future
| us_create_task c : uses_sched (create_task c)
| us_set_result f v : uses_sched (set_result f v)
| us_set_exception f e : uses_sched (set_exception f e)
| us_cancel n f : uses_sched (cancel n f)
| us_add f g : plain_fn g -> uses_sched (add_done_callback f g)
| us_remove f g : plain_fn g -> uses_sched (remove_done_callback f g)
| us_spawn c name ar : uses_sched (spawn c name ar)
| us_kill pid : uses_sched (kill pid)
| us_reap pid : uses_sched (reap pid)
| us_tick : uses_sched tick
| us_console m : uses_sched (on_console m)
| us_clock (f : clock -> clock) :
    uses_sched (modify (fun s => set_user (set_clock (f (k_clock (l_user s))) (l_user s)) s)).

(** ** The invariant *)

Definition procs s : list (Z * Process) := processes (k_sched (l_user s)).
Definition npid s : Z := next_pid (k_sched (l_user s)).

(** Callback [n] belongs to future [f]: it is of a process that was spawned,
    and if that is still in the table, [f] is its task. *)
Definition owner s (n f : Z) : Prop :=
  1 <= n / 2 < npid s /\ forall p, dget (n / 2) (procs s) = Some p -> p_task p = f.
Definition is_done s (f : Z) : Prop := exists x, l_futures s !! f = Some x /\ done x = true.

(** A handle that runs the callback of process [pid]. *)
Definition finishes s (pid h : Z) : Prop :=
  exists n f, l_handles s !! h = Some (mkHandle (FnUser n) (Some f) false) /\ n / 2 = pid.

(** The callback of process [pid] is ready, or about to be (in [fl], the
    callbacks the loop has taken from a done future or from its ready list). *)
Definition finish_due s (fl : list (fn * Z)) (pid : Z) : Prop :=
  (exists h, h ∈ l_ready s /\ finishes s pid h) \/
  (exists n f, (FnUser n, f) ∈ fl /\ n / 2 = pid).

Definition proc_ok s fl (pid : Z) (p : Process) : Prop :=
  p_pid p = pid /\ 1 <= pid < npid s /\
  exists x, l_futures s !! p_task p = Some x /\
    if done x then p_state p = ZOMBIE \/ finish_due s fl pid
    else p_state p = RUNNING /\ exists n, FnUser n ∈ f_callbacks x /\ n / 2 = pid.

(** A process the scheduler has seen the end of. *)
Definition settled s (pid : Z) : Prop :=
  1 <= pid < npid s /\ forall p, dget pid (procs s) = Some p -> p_state p = ZOMBIE.

(** A process to watch: it is settled, or its callback is among the first [k]
    ready handles. *)
Definition watched s (w : option (Z * nat)) : Prop :=
  match w with
  | None => True
  | Some (pid, k) => settled s pid \/
      (1 <= pid < npid s /\ exists i h, (i < k)%nat /\ l_ready s !! i = Some h /\ finishes s pid h)
  end.

Record sinv (w : option (Z * nat)) (fl : list (fn * Z)) s : Prop := {
  iv_fut : ids_ok s;
  iv_hand : forall h, is_Some (l_handles s !! h) -> h < l_next s;
  iv_cb : forall f x n, l_futures s !! f = Some x -> FnUser n ∈ f_callbacks x -> owner s n f;
  iv_h : forall h x n, l_handles s !! h = Some x -> h_fn x = FnUser n ->
    exists f, x = mkHandle (FnUser n) (Some f) false /\ is_done s f /\ owner s n f;
  iv_fl : forall n f, (FnUser n, f) ∈ fl -> is_done s f /\ owner s n f;
  iv_dict : dict_ok (procs s);
  iv_proc : forall pid p, dget pid (procs s) = Some p -> proc_ok s fl pid p;
  iv_pid : 1 <= npid s;
  iv_watch : watched s w;
}.

(** Steps that change nothing the invariant speaks of. *)
Lemma sinv_frame w fl s s' :
  l_futures s' = l_futures s -> l_handles s' = l_handles s -> l_ready s' = l_ready s ->
  l_next s' = l_next s -> k_sched (l_user s') = k_sched (l_user s) -> sinv w fl s -> sinv w fl s'.
Proof.
  destruct s as [fu ta ha re sc ru st ne [ks kc kk]], s' as [fu' ta' ha' re' sc' ru' st' ne' [ks' kc' kk']].
  simpl. intros -> -> -> -> -> [H1 H2 H3 H4 H5 H6 H7 H8 H9].
  split; [exact H1|exact H2|exact H3|exact H4|exact H5|exact H6|exact H7|exact H8|exact H9].
Qed.

Lemma keeps_frame w fl (h : kloop -> kloop) :
  (forall s, l_futures (h s) = l_futures s /\ l_handles (h s) = l_handles s /\ l_ready (h s) = l_ready s /\
     l_next (h s) = l_next s /\ k_sched (l_user (h s)) = k_sched (l_user s)) -> keeps (sinv w fl) (modify h).
Proof. intros Hh. apply keeps_modify. intros s. destruct (Hh s) as (? & ? & ? & ? & ?). by apply sinv_frame. Qed.

(** A new handle, at the end of the ready list or on the timer list. *)
Definition add_handle (g : fn) (a : farg) (rd : list Z) s s' : Prop :=
  l_futures s' = l_futures s /\ l_handles s' = <[l_next s := mkHandle g a false]> (l_handles s) /\
  l_ready s' = l_ready s ++ rd /\ l_next s' = l_next s + 1 /\ l_user s' = l_user s.

Lemma finishes_add g a rd s s' pid h :
  (forall h, is_Some (l_handles s !! h) -> h < l_next s) ->
  add_handle g a rd s s' -> finishes s pid h -> finishes s' pid h.
Proof.
  intros Hlt (_ & Eh & _) (n & f & Hh & Hn). exists n, f. split; [|done]. rewrite Eh.
  rewrite lookup_insert_ne; [done|]. specialize (Hlt h (ex_intro _ _ Hh)). lia.
Qed.

Lemma watched_grows w s s' rd :
  k_sched (l_user s') = k_sched (l_user s) -> l_ready s' = l_ready s ++ rd ->
  (forall pid h, finishes s pid h -> finishes s' pid h) -> watched s w -> watched s' w.
Proof.
  intros Eu Er Hf. destruct w as [[pid k]|]; [|done]. unfold watched, settled, npid, procs. rewrite Eu, Er.
  intros [H|(Hp & i & h & Hi & Hr & Hh)]; [by left|right]. split; [done|]. exists i, h.
  split_and!; [done|by apply lookup_app_l_Some|auto].
Qed.

Lemma sinv_add_handle w fl fl' g a rd s s' :
  add_handle g a rd s s' ->
  (forall n f, (FnUser n, f) ∈ fl' -> (FnUser n, f) ∈ fl) ->
  (forall n, g = FnUser n -> exists f, a = Some f /\ is_done s f /\ owner s n f) ->
  (forall n f, (FnUser n, f) ∈ fl -> (FnUser n, f) ∈ fl' \/ (g = FnUser n /\ a = Some f /\ rd = [l_next s])) ->
  sinv w fl s -> sinv w fl' s'.
Proof.
  intros Hadd Hsub Hg Hfl [H1 H2 H3 H4 H5 H6 H7 H8 H9].
  pose proof (fun pid h => finishes_add g a rd s s' pid h H2 Hadd) as Hfin.
  destruct Hadd as (Ef & Eh & Er & En & Eu).
  assert (forall pid, finish_due s fl pid -> finish_due s' fl' pid) as Hdue.
  { intros pid [(h & Hr & Hh)|(n & f & Hin & Hn)].
    - left. exists h. rewrite Er. split; [apply elem_of_app; by left|auto].
    - destruct (Hfl _ _ Hin) as [Hin'|(-> & -> & ->)]; [right; by exists n, f|left].
      exists (l_next s). rewrite Er. split; [apply elem_of_app; right; by apply list_elem_of_singleton|].
      exists n, f. by rewrite Eh, lookup_insert_eq. }
  assert (procs s' = procs s) as Ep by (unfold procs; by rewrite Eu).
  assert (npid s' = npid s) as Eq by (unfold npid; by rewrite Eu).
  assert (forall n f, owner s n f -> owner s' n f) as Hown by (unfold owner; by rewrite Ep, Eq).
  assert (forall f, is_done s f -> is_done s' f) as Hdone by (unfold is_done; by rewrite Ef).
  split.
  - intros f. rewrite Ef, En. intros Hx%H1. lia.
  - intros h. rewrite Eh, En. intros [x Hx]. apply lookup_insert_Some in Hx as [[<- _]|[_ Hx]]; [lia|].
    specialize (H2 h (ex_intro _ _ Hx)). lia.
  - intros f x n. rewrite Ef. eauto.
  - intros h x n. rewrite Eh. intros [[<- <-]|[_ Hx]]%lookup_insert_Some.
    + simpl. intros ->. destruct (Hg n eq_refl) as (f & -> & ? & ?). exists f. auto.
    + intros Hn. destruct (H4 h x n Hx Hn) as (f & -> & ? & ?). exists f. auto.
  - intros n f Hin. destruct (H5 n f (Hsub n f Hin)). auto.
  - by rewrite Ep.
  - intros pid p. rewrite Ep. intros Hp. destruct (H7 pid p Hp) as (? & ? & x & Hx & Hd).
    split; [done|]. split; [by rewrite Eq|]. exists x. rewrite Ef. split; [done|].
    destruct (done x); [|done]. destruct Hd; auto.
  - by rewrite Eq.
  - eapply watched_grows; [by rewrite Eu|done|done|done].
Qed.

Lemma keeps_call_soon w fl g a : plain_fn g -> keeps (sinv w fl) (call_soon (Coro := Coro) (U := kern) g a).
Proof.
  intros Hg s r s' Hi [= _ <-]. refine (sinv_add_handle w fl fl g a [l_next s] s _ _ _ _ _ Hi); auto.
  - by split_and!.
  - by intros n ->.
Qed.
Lemma keeps_call_at w fl t g a : plain_fn g -> keeps (sinv w fl) (call_at (Coro := Coro) (U := kern) t g a).
Proof.
  intros Hg s r s' Hi [= _ <-]. refine (sinv_add_handle w fl fl g a [] s _ _ _ _ _ Hi); auto.
  - split_and!; try done. simpl. by rewrite app_nil_r.
  - by intros n ->.
Qed.

(** The loop of [_schedule_callbacks]. *)
Lemma sinv_call_all w f cs s r s' :
  sinv w (map (fun g => (g, f)) cs) s ->
  for_each cs (fun g => let! _ := call_soon g (Some f) in ret tt) s = (r, s') -> sinv w [] s'.
Proof.
  revert s. induction cs as [|g cs IH]; intros s Hi; [by intros [= _ <-]|].
  intros E. refine (IH (snd (call_soon g (Some f) s)) _ E).
  refine (sinv_add_handle w _ _ g (Some f) [l_next s] s _ _ _ _ _ Hi).
  - by split_and!.
  - intros n f' Hin. apply elem_of_cons. by right.
  - intros n ->. exists f. split; [done|]. apply (iv_fl _ _ _ Hi). apply elem_of_cons. by left.
  - intros n f' [[= <- <-]|Hin]%elem_of_cons; [by right|by left].
Qed.

(** Replacing a future.  [fl'] has the callbacks taken from it. *)
Lemma sinv_put w f x y cs s :
  l_futures s !! f = Some x ->
  (forall n, FnUser n ∈ f_callbacks y -> FnUser n ∈ f_callbacks x) ->
  (done x = true -> done y = true) ->
  (done y = false -> forall n, FnUser n ∈ f_callbacks x -> FnUser n ∈ f_callbacks y) ->
  (done y = true -> done x = false -> cs = f_callbacks x) ->
  (forall n, FnUser n ∈ cs -> done y = true /\ FnUser n ∈ f_callbacks x) ->
  sinv w [] s -> sinv w (map (fun g => (g, f)) cs) (set_futures (<[f := y]> (l_futures s)) s).
Proof.
  intros Hx Hsub Hd Hkeep Hcs Hfl [H1 H2 H3 H4 H5 H6 H7 H8 H9].
  set (s' := set_futures _ s).
  assert (forall f, is_done s f -> is_done s' f) as Hdone.
  { intros f' (z & Hz & Hdz). unfold is_done. simpl. destruct (decide (f' = f)) as [->|Hne].
    - rewrite lookup_insert_eq. exists y. split; [done|]. apply Hd. congruence.
    - rewrite lookup_insert_ne by done. by exists z. }
  assert (forall pid, finish_due s [] pid -> finish_due s' (map (fun g => (g, f)) cs) pid) as Hdue.
  { intros pid [(h & Hr & Hh)|(n & f' & Hin & _)]; [left; by exists h|by apply not_elem_of_nil in Hin]. }
  split; try done.
  - intros f' [z Hz]. simpl in Hz. apply lookup_insert_Some in Hz as [[<- _]|[_ Hz]]; apply H1; eauto.
  - intros f' z n. simpl. intros [[<- <-]|[_ Hz]]%lookup_insert_Some Hin.
    + apply (H3 f x n Hx). auto.
    + exact (H3 f' z n Hz Hin).
  - intros h z n Hz Hn. destruct (H4 h z n Hz Hn) as (f' & -> & ? & ?). exists f'. auto.
  - intros n f' (g & [= <- ->] & Hin)%list_elem_of_fmap. destruct (Hfl n Hin) as [Hy Hin']. split.
    + exists y. simpl. by rewrite lookup_insert_eq.
    + exact (H3 f x n Hx Hin').
  - intros pid p Hp. destruct (H7 pid p Hp) as (? & ? & z & Hz & Hdz). split; [done|]. split; [done|].
    simpl. destruct (decide (p_task p = f)) as [Heq|Hne].
    + rewrite Heq, lookup_insert_eq. exists y. split; [done|]. rewrite Heq, Hx in Hz. injection Hz as <-.
      destruct (done x) eqn:Edx.
      * rewrite Hd by done. destruct Hdz; auto.
      * destruct Hdz as [Hr (n & Hin & Hn)]. destruct (done y) eqn:Edy; [|by eauto].
        right. right. exists n, f. split; [|done]. rewrite Hcs by done. apply list_elem_of_fmap. by exists (FnUser n).
    + rewrite lookup_insert_ne by done. exists z. split; [done|]. destruct (done z); [|done]. destruct Hdz; auto.
Qed.

(** Completing a future and scheduling its callbacks. *)
Lemma sinv_complete {A} w f x y s (k : M kloop A) r s' :
  l_futures s !! f = Some x -> is_pending (f_state x) = true -> is_pending (f_state y) = false ->
  f_callbacks y = f_callbacks x -> keeps (sinv w []) k ->
  (put_future f y ;;; schedule_callbacks f ;;; k) s = (r, s') -> sinv w [] s -> sinv w [] s'.
Proof.
  intros Hx Hp Hy Hcb Hk E Hi.
  unfold bind at 1, put_future, modify in E. cbv beta iota in E.
  set (s1 := set_futures (<[f := y]> (l_futures s)) s) in *.
  set (z := mkFuture (f_state y) (f_result y) (f_exception y) []).
  set (s2 := set_futures (<[f := z]> (l_futures s)) s).
  assert (schedule_callbacks f s1 =
    for_each (f_callbacks x) (fun g => let! _ := call_soon g (Some f) in ret tt) s2) as Es.
  { unfold schedule_callbacks, bind at 1, get_future. simpl. rewrite lookup_insert_eq.
    unfold bind at 1, put_future, modify. cbv beta iota. rewrite <- Hcb. unfold s2, s1, set_futures. simpl.
    by rewrite insert_insert_eq. }
  assert (sinv w (map (fun g => (g, f)) (f_callbacks x)) s2) as Hi2.
  { apply (sinv_put w f x z); try done.
    - intros n Hin. by apply not_elem_of_nil in Hin.
    - unfold done, z. simpl. by rewrite Hy.
    - unfold done, z. simpl. by rewrite Hy.
    - intros n Hin. split; [|done]. unfold done, z. simpl. by rewrite Hy. }
  unfold bind at 1 in E. rewrite Es in E. destruct (for_each _ _ s2) as [[[]|e] s3] eqn:E3.
  - eapply Hk; [|exact E]. by eapply sinv_call_all.
  - injection E as _ <-. by eapply sinv_call_all.
Qed.

(** Methods that look at a future first. *)
Lemma keeps_get_future {A} (P : kloop -> Prop) f (k : future -> M kloop A) :
  (forall s x r s', l_futures s !! f = Some x -> P s -> k x s = (r, s') -> P s') ->
  keeps P (bind (get_future f) k).
Proof.
  intros Hk s r s' HP. unfold bind, get_future. destruct (l_futures s !! f) as [x|] eqn:Hx.
  - by eapply Hk.
  - by intros [= _ <-].
Qed.

Lemma keeps_read (P : kloop -> Prop) f : keeps P (get_future (Coro := Coro) (U := kern) f).
Proof. intros s r s' Hi. unfold get_future. destruct (l_futures s !! f); by intros [= _ <-]. Qed.

Lemma bind_ret_unit (m : M kloop unit) s : (m ;;; ret tt) s = m s.
Proof. unfold bind, ret. by destruct (m s) as [[[]|e] s1]. Qed.

Section methods.
Context (w : option (Z * nat)).
Abbreviation P := (sinv w []).

Lemma keeps_create_future : keeps P (create_future (Coro := Coro) (U := kern)).
Proof.
  intros s r s' [H1 H2 H3 H4 H5 H6 H7 H8 H9] [= _ <-].
  assert (l_futures s !! l_next s = None) as Hn.
  { destruct (l_futures s !! l_next s) eqn:E; [|done]. assert (l_next s < l_next s); [by apply H1; eauto|lia]. }
  assert (forall f x, l_futures s !! f = Some x -> <[l_next s := mkFuture PENDING VNone None []]> (l_futures s) !! f = Some x) as Hold.
  { intros f x Hx. rewrite lookup_insert_ne; [done|]. congruence. }
  split; try done.
  - intros f [x Hx]. simpl in *. apply lookup_insert_Some in Hx as [[<- _]|[_ Hx]]; [lia|].
    specialize (H1 f (ex_intro _ _ Hx)). lia.
  - intros h Hh. specialize (H2 h Hh). simpl. lia.
  - intros f x n. simpl. intros [[<- <-]|[_ Hx]]%lookup_insert_Some.
    + intros Hin. by apply not_elem_of_nil in Hin.
    + exact (H3 f x n Hx).
  - intros h x n Hx Hf. destruct (H4 h x n Hx Hf) as (f & -> & (y & Hy & ?) & ?). exists f.
    split_and!; [done| |done..]. exists y. simpl. auto.
  - intros n f Hin. by apply not_elem_of_nil in Hin.
  - intros pid p Hp. destruct (H7 pid p Hp) as (? & ? & x & Hx & ?). split; [done|]. split; [done|].
    exists x. simpl. auto.
Qed.

Lemma keeps_put_task t x : keeps P (put_task (Coro := Coro) (U := kern) t x).
Proof. by apply keeps_frame. Qed.

Lemma keeps_create_task c : keeps P (create_task (Coro := Coro) (U := kern) c).
Proof.
  apply keeps_bind; [apply keeps_create_future|]. intros t. apply keeps_bind; [apply keeps_put_task|]. intros _.
  apply keeps_bind; [by apply keeps_call_soon|]. intros _. apply keeps_ret.
Qed.

(** Completion that ends with the scheduling of the callbacks. *)
Lemma sinv_complete_last f x y s r s' :
  l_futures s !! f = Some x -> is_pending (f_state x) = true -> is_pending (f_state y) = false ->
  f_callbacks y = f_callbacks x -> (put_future f y ;;; schedule_callbacks f) s = (r, s') -> P s -> P s'.
Proof.
  intros Hx Hp Hy Hcb E Hi. apply (sinv_complete w f x y s (ret tt) r s'); try done; [apply keeps_ret|].
  rewrite <- E. unfold bind at 1 3. destruct (put_future f y s) as [[[]|e] s1]; [|done]. apply bind_ret_unit.
Qed.

Lemma keeps_set_result f v : keeps P (set_result (Coro := Coro) (U := kern) f v).
Proof.
  apply keeps_get_future. intros s x r s' Hx Hi. destruct (is_pending (f_state x)) eqn:Hp; simpl; [|by intros [= _ <-]].
  intros E. eapply sinv_complete_last; [done| |..|exact E|done]; done.
Qed.
Lemma keeps_set_exception f e : keeps P (set_exception (Coro := Coro) (U := kern) f e).
Proof.
  apply keeps_get_future. intros s x r s' Hx Hi. destruct (is_pending (f_state x)) eqn:Hp; simpl; [|by intros [= _ <-]].
  intros E. eapply sinv_complete_last; [done| |..|exact E|done]; done.
Qed.
Lemma keeps_future_cancel f : keeps P (future_cancel (Coro := Coro) (U := kern) f).
Proof.
  apply keeps_get_future. intros s x r s' Hx Hi. destruct (is_pending (f_state x)) eqn:Hp; simpl; [|by intros [= _ <-]].
  intros E. eapply (sinv_complete w f x _ s (ret true)); [done| |..|apply keeps_ret|exact E|done]; done.
Qed.

Lemma keeps_add f g : plain_fn g -> keeps P (add_done_callback (Coro := Coro) (U := kern) f g).
Proof.
  intros Hg. apply keeps_get_future. intros s x r s' Hx Hi. destruct (is_pending (f_state x)) eqn:Hp; simpl.
  - intros [= _ <-]. eapply (sinv_put w f x _ []); try done; simpl.
    + intros n [Hin|Hin]%elem_of_app; [done|]. apply list_elem_of_singleton in Hin. by subst g.
    + intros _ n Hin. apply elem_of_app. by left.
    + unfold done. simpl. intros H1 H2. congruence.
    + intros n Hin. by apply not_elem_of_nil in Hin.
  - intros E. refine (keeps_bind _ _ _ (keeps_call_soon w [] g (Some f) Hg) _ _ _ _ Hi E). intros ?. apply keeps_ret.
Qed.

Lemma keeps_remove f g : plain_fn g -> keeps P (remove_done_callback (Coro := Coro) (U := kern) f g).
Proof.
  intros Hg. apply keeps_get_future. intros s x r s' Hx Hi [= _ <-].
  assert (forall n, FnUser n ∈ List.filter (fun c => negb (fn_eqb c g)) (f_callbacks x) <-> FnUser n ∈ f_callbacks x) as Hf.
  { intros n. rewrite !list_elem_of_In, List.filter_In. destruct g; simpl in *; tauto. }
  eapply (sinv_put w f x _ []); try done; simpl.
  - intros n. apply Hf.
  - intros _ n. apply Hf.
  - unfold done. simpl. intros H1 H2. congruence.
  - intros n Hin. by apply not_elem_of_nil in Hin.
Qed.

Lemma keeps_cancel n f : keeps P (cancel (Coro := Coro) (U := kern) n f).
Proof.
  revert f. induction n as [|n IH]; intros f; cbn [cancel]; [apply keeps_raise|].
  apply keeps_bind; [apply keeps_gets|]. intros ts. destruct (ts !! f) as [t|]; [|apply keeps_future_cancel].
  apply keeps_bind; [apply keeps_put_task|]. intros _. destruct (t_fut_waiter t); [apply IH|apply keeps_ret].
Qed.

Lemma sinv_handle_cancel h x s :
  l_handles s !! h = Some x -> plain_fn (h_fn x) -> P s ->
  P (set_handles (alter (fun x => mkHandle (h_fn x) (h_arg x) true) h (l_handles s)) s).
Proof.
  intros Hx Hp [H1 H2 H3 H4 H5 H6 H7 H8 H9]. set (s' := set_handles _ s).
  assert (forall h' n y, h_fn y = FnUser n -> l_handles s' !! h' = Some y <-> l_handles s !! h' = Some y) as Hsame.
  { intros h' n y Hn. simpl. destruct (decide (h' = h)) as [->|Hne]; [|by rewrite lookup_alter_ne].
    rewrite lookup_alter_eq, Hx. simpl. split; intros [= <-]; simpl in Hn; by rewrite Hn in Hp. }
  assert (forall pid h', finishes s pid h' -> finishes s' pid h') as Hfin.
  { intros pid h' (n & f & Hh & Hn). exists n, f. split; [|done]. by apply (Hsame h' n). }
  split; try done.
  - intros h' [y Hy]. simpl in *. destruct (decide (h' = h)) as [->|Hne]; [apply H2; eauto|].
    rewrite lookup_alter_ne in Hy by done. apply H2. eauto.
  - intros h' y n Hy Hn. apply (H4 h'); [|done]. by apply (Hsame h' n).
  - intros pid p Hpid. destruct (H7 pid p Hpid) as (? & ? & z & Hz & Hd). split; [done|]. split; [done|].
    exists z. split; [done|]. destruct (done z); [|done]. destruct Hd as [|[(h' & Hr & Hh)|Hfl]]; [by left|right; left|by right; right].
    exists h'. auto.
  - apply (watched_grows w s s' []); [done|by rewrite app_nil_r|done|done].
Qed.

Lemma keeps_cancel_plain h : keeps P (cancel_plain h).
Proof.
  intros s r s' Hi. unfold cancel_plain, bind, gets. destruct (l_handles s !! h) as [x|] eqn:Hx; [|by intros [= _ <-]].
  pose proof (sinv_handle_cancel h x s Hx) as Hc.
  destruct (h_fn x) eqn:Hfn; intros [= _ <-]; auto; by apply Hc.
Qed.

(** ** The scheduler's operations *)

Lemma keeps_task_done p : keeps P (task_done (Coro := Coro) p).
Proof. apply keeps_get_future. by intros s x r s' _ Hi [= _ <-]. Qed.

Lemma keeps_kill pid : keeps P (kill (Coro := Coro) pid).
Proof.
  apply keeps_bind; [apply keeps_gets|]. intros k. destruct (dget pid (processes k)) as [p|]; [|apply keeps_ret].
  apply keeps_bind; [apply keeps_task_done|]. intros [|]; [apply keeps_ret|].
  apply keeps_bind; [apply keeps_gets|]. intros n. apply keeps_bind; [apply keeps_cancel|]. intros _. apply keeps_ret.
Qed.
End methods.

(** Changing the process table.  [upd_rel] relates a record to what it becomes. *)
Lemma sinv_table w fl fl' s (f : list (Z * Process) -> list (Z * Process)) t :
  let s' := set_user (set_sched (mkSched (f (procs s)) (npid s) t) (l_user s)) s in
  dict_ok (f (procs s)) ->
  (forall pid p', dget pid (f (procs s)) = Some p' -> exists p, dget pid (procs s) = Some p /\
     p_pid p' = p_pid p /\ p_task p' = p_task p /\
     (p_state p' = p_state p \/ p_state p' = ZOMBIE /\ is_done s (p_task p))) ->
  (forall n f0, (FnUser n, f0) ∈ fl' -> (FnUser n, f0) ∈ fl) ->
  (forall n f0 p', (FnUser n, f0) ∈ fl -> dget (n / 2) (f (procs s)) = Some p' ->
     (FnUser n, f0) ∈ fl' \/ p_state p' = ZOMBIE) ->
  sinv w fl s -> sinv w fl' s'.
Proof.
  intros s' Hok Hrel Hsub Hfl [H1 H2 H3 H4 H5 H6 H7 H8 H9].
  assert (forall n f0, owner s n f0 -> owner s' n f0) as Hown.
  { intros n f0 [Hn Ho]. split; [done|]. intros p' Hp'. destruct (Hrel _ _ Hp') as (p & Hp & _ & -> & _). auto. }
  assert (forall pid, settled s pid -> settled s' pid) as Hset.
  { intros pid [Hp Hs]. split; [done|]. intros p' Hp'. destruct (Hrel _ _ Hp') as (p & Hg & _ & _ & [->|[-> _]]); auto. }
  split; try done.
  - intros f0 x n Hx Hin. apply Hown. by eapply H3.
  - intros h x n Hx Hn. destruct (H4 h x n Hx Hn) as (f0 & -> & Hd & Ho). exists f0. split; [done|]. split; [exact Hd|auto].
  - intros n f0 Hin. destruct (H5 n f0) as [Hd Ho]; [by apply Hsub|]. split; [exact Hd|auto].
  - intros pid p' Hp'. destruct (Hrel _ _ Hp') as (p & Hg & Epid & Et & Est).
    destruct (H7 pid p Hg) as (? & ? & x & Hx & Hd). split; [congruence|]. split; [done|]. exists x.
    rewrite Et. split; [done|]. destruct (done x) eqn:Edx.
    + destruct Est as [Est|[-> _]]; [|by left]. rewrite Est.
      destruct Hd as [|[(h & Hr & Hh)|(n & f0 & Hin & Hn)]]; [by left|right; left; by exists h|].
      destruct (Hfl n f0 p' Hin) as [Hin'|Hz]; [by rewrite Hn|right; right; by exists n, f0|].
      left. congruence.
    + destruct Est as [->|[_ (y & Hy & Hdy)]]; [done|]. rewrite Hx in Hy. injection Hy as <-. congruence.
  - destruct w as [[pid k]|]; [|done]. destruct H9 as [Hs|Hr]; [left; auto|right; exact Hr].
Qed.

Lemma sinv_watch w w' fl s : watched s w' -> sinv w fl s -> sinv w' fl s.
Proof. intros Hw []. by split. Qed.

(** Updates of the table that keep pid, task and state of every record. *)
Definition table_keeps (f : list (Z * Process) -> list (Z * Process)) : Prop :=
  forall d, dict_ok d -> dict_ok (f d) /\ forall pid p', dget pid (f d) = Some p' ->
    exists p, dget pid d = Some p /\ p_pid p' = p_pid p /\ p_task p' = p_task p /\ p_state p' = p_state p.

Lemma keeps_table w f : table_keeps f -> keeps (sinv w []) (upd_processes (Coro := Coro) f).
Proof.
  intros Hf s r s' Hi [= _ <-]. destruct (Hf (procs s) (iv_dict _ _ _ Hi)) as [Hok Hrel].
  apply (sinv_table w [] [] s f (ticks (k_sched (l_user s)))); try done.
  - intros pid p' Hp'. destruct (Hrel pid p' Hp') as (p & ? & ? & ? & ?). exists p. auto.
  - intros n f0 p' Hin. by apply not_elem_of_nil in Hin.
Qed.

Lemma table_dpop pid : table_keeps (dpop pid).
Proof.
  intros d Hd. split; [by apply dpop_ok|]. intros pid' p' Hp'. exists p'. split; [|done].
  apply elem_dget; [done|]. eapply dpop_elem. by apply dget_elem.
Qed.

Lemma keeps_reap w pid : keeps (sinv w []) (reap (Coro := Coro) pid).
Proof.
  apply keeps_bind; [apply keeps_gets|]. intros k. destruct (dget pid (processes k)) as [p|]; [|apply keeps_ret].
  apply keeps_bind; [apply keeps_task_done|]. intros [|]; simpl; [|apply keeps_ret].
  apply keeps_bind; [apply keeps_table, table_dpop|]. intros _. apply keeps_ret.
Qed.

Lemma credit_spec l todo s r s' :
  procs s = l ++ todo -> credit (Coro := Coro) l todo s = (r, s') ->
  s' = s \/ exists l1 l2 pid p, procs s = l1 ++ (pid, p) :: l2 /\
    upd_processes (fun _ => l1 ++ (pid, mkProcess (p_pid p) (p_name p) (p_task p) (p_state p) (p_ticks p + 1)) :: l2) s
      = (Ok tt, s').
Proof.
  revert l. induction todo as [|[pid p] todo IH]; intros l Hp; cbn [credit]; [intros [= _ <-]; by left|].
  unfold bind. case_decide.
  - unfold task_done, bind, get_future. destruct (l_futures s !! p_task p) as [x|]; [|intros [= _ <-]; by left].
    unfold ret. destruct (done x).
    + apply IH. by rewrite <- (assoc_L (++)).
    + intros [= _ <-]. right. exists l, todo, pid, p. by split.
  - unfold ret. apply IH. by rewrite <- (assoc_L (++)).
Qed.

Lemma dget_replace {V} k (l1 l2 : list (Z * V)) a v v' q :
  dget k (l1 ++ (a, v') :: l2) = Some q ->
  dget k (l1 ++ (a, v) :: l2) = Some q \/ (q = v' /\ dget k (l1 ++ (a, v) :: l2) = Some v).
Proof.
  induction l1 as [|[a0 v0] l1 IH]; simpl; repeat case_decide; auto. intros [= <-]. by right.
Qed.

Lemma keeps_tick w : keeps (sinv w []) (tick (Coro := Coro)).
Proof.
  apply keeps_bind.
  { intros s r s' Hi [= _ <-]. apply (sinv_table w [] [] s (fun d => d) (ticks (k_sched (l_user s)) + 1)); try done.
    - apply (iv_dict _ _ _ Hi).
    - intros pid p Hp. exists p. auto.
    - intros n f0 p' Hin. by apply not_elem_of_nil in Hin. }
  intros _ s r s' Hi E. unfold bind, get_sched, gets in E.
  apply credit_spec in E as [->|(l1 & l2 & pid & p & Hp & E)]; [done| |done].
  injection E as <-. eapply (sinv_table w [] [] s (fun _ => _)); try done.
  - pose proof (iv_dict _ _ _ Hi) as Hd. unfold dict_ok in *. rewrite Hp in Hd. rewrite fmap_app in *. exact Hd.
  - intros pid' p' [Hg|[-> Hg]]%(dget_replace _ l1 l2 pid p); rewrite Hp; eauto 10.
  - intros n f0 p' Hin. by apply not_elem_of_nil in Hin.
Qed.

Lemma half_finish pid ar : (2 * pid + Z.b2z ar) / 2 = pid.
Proof. symmetry. apply (Z.div_unique_pos _ 2 pid (Z.b2z ar)); destruct ar; simpl; lia. Qed.

(** What [spawn] does once the task exists. *)
Lemma sinv_spawned w t n name ti s :
  sinv w [] s -> l_futures s !! t = Some (mkFuture PENDING VNone None []) -> n / 2 = npid s ->
  sinv w [] (set_user (set_sched (mkSched (dset (npid s) (mkProcess (npid s) name t RUNNING 0) (procs s)) (npid s + 1) ti)
     (l_user s)) (set_futures (<[t := mkFuture PENDING VNone None [FnUser n]]> (l_futures s)) s)).
Proof.
  intros [H1 H2 H3 H4 H5 H6 H7 H8 H9] Ht Hn. set (s' := set_user _ _).
  assert (npid s' = npid s + 1) as Enp by done.
  assert (procs s' = dset (npid s) (mkProcess (npid s) name t RUNNING 0) (procs s)) as Epr by done.
  assert (forall n' f, owner s n' f -> owner s' n' f) as Hown.
  { intros n' f [Hlt Ho]. split; [rewrite Enp; lia|]. rewrite Epr.
    rewrite dget_dset_ne by lia. exact Ho. }
  assert (forall f x, l_futures s !! f = Some x -> done x = true -> l_futures s' !! f = Some x) as Hold.
  { intros f x Hx Hd. simpl. rewrite lookup_insert_ne; [done|]. intros <-. rewrite Ht in Hx. by injection Hx as <-. }
  split; try done.
  - intros f [x Hx]. simpl in *. apply lookup_insert_Some in Hx as [[<- _]|[_ Hx]]; apply H1; eauto.
  - intros f x n'. simpl. intros [[<- <-]|[_ Hx]]%lookup_insert_Some Hin; [|eauto].
    simpl in Hin. apply list_elem_of_singleton in Hin as [= ->]. split; [rewrite Enp; lia|].
    rewrite Epr. rewrite Hn, dget_dset. by intros p [= <-].
  - intros h x n' Hx Hf. destruct (H4 h x n' Hx Hf) as (f & -> & (y & Hy & Hd) & ?). exists f.
    split; [done|]. split; [exists y; split; [by apply Hold|done]|auto].
  - intros n' f Hin. by apply not_elem_of_nil in Hin.
  - by apply dset_ok.
  - intros pid p. rewrite Epr. destruct (decide (pid = npid s)) as [->|Hne].
    + rewrite dget_dset. intros [= <-]. split; [done|]. split; [rewrite Enp; lia|]. 
      simpl. rewrite lookup_insert_eq. eexists. split; [done|]. simpl. split; [done|]. exists n.
      split; [by apply list_elem_of_singleton|done].
    + rewrite dget_dset_ne by done. intros Hp. destruct (H7 pid p Hp) as (? & Hlt & x & Hx & Hd). split; [done|].
      split; [rewrite Enp; lia|]. destruct (done x) eqn:Edx.
      * exists x. split; [by apply Hold|]. by rewrite Edx.
      * destruct Hd as (? & n' & Hin & Hn'). destruct (decide (p_task p = t)) as [Heq|Hnt].
        -- rewrite Heq, Ht in Hx. injection Hx as <-. by apply not_elem_of_nil in Hin.
        -- exists x. simpl. rewrite lookup_insert_ne by done. split; [done|]. rewrite Edx. eauto.
  - rewrite Enp. lia.
  - destruct w as [[pid k]|]; [|done]. destruct H9 as [[Hp Hs]|[Hp Hr]]; [left|right].
    + split; [rewrite Enp; lia|]. rewrite Epr. rewrite dget_dset_ne by lia. done.
    + split; [rewrite Enp; lia|]. exact Hr.
Qed.

Lemma keeps_spawn w c name ar : keeps (sinv w []) (spawn (Coro := Coro) c name ar).
Proof.
  intros s r s' Hi E. set (s2 := snd (create_task c s)).
  assert (sinv w [] s2) as Hi2 by (by eapply keeps_create_task).
  assert (l_futures s2 !! l_next s = Some (mkFuture PENDING VNone None [])) as Ht by (simpl; by rewrite lookup_insert_eq).
  set (s1 := set_user (set_sched (mkSched (procs s) (npid s + 1) (ticks (k_sched (l_user s)))) (l_user s)) s).
  unfold spawn in E. rewrite (bind_step get_sched _ s (k_sched (l_user s)) s eq_refl) in E.
  rewrite (bind_step (upd_sched (fun k => mkSched (processes k) (next_pid k + 1) (ticks k))) _ s tt s1 eq_refl) in E. cbv zeta in E.
  set (nm := match name with Some _ => _ | None => _ end) in E.
  rewrite (bind_step (ensure_future (inl c)) _ s1 (l_next s) (snd (create_task c s1)) eq_refl) in E.
  unfold bind at 1, add_done_callback in E. unfold bind at 1, get_future in E. simpl in E.
  rewrite lookup_insert_eq in E. simpl in E. injection E as _ <-.
  refine (eq_rect _ (sinv w []) (sinv_spawned w (l_next s) (2 * npid s + Z.b2z ar) nm
    (ticks (k_sched (l_user s))) s2 Hi2 Ht (half_finish _ _)) _ _). done.
Qed.

(** ** [_finish] *)

Lemma keeps_on_console w fl m : keeps (sinv w fl) (on_console (Coro := Coro) m).
Proof.
  intros s r s' Hi. unfold on_console, zoom. destruct (m (k_console (l_user s))) as [a c].
  intros [= _ <-]. by apply (sinv_frame w fl s).
Qed.

(** The callback of a process has run: the process is settled. *)
Lemma sinv_finish w w' n f ar s r s' :
  sinv w [(FnUser n, f)] s -> w' = w \/ (exists k, w' = Some (n / 2, k)) ->
  finish (Coro := Coro) exn_str (n / 2) f ar s = (r, s') -> sinv w' [] s'.
Proof.
  intros Hi Hw. destruct (iv_fl _ _ _ Hi n f) as [Hdone [Hn Hown]]; [by apply list_elem_of_singleton|].
  unfold finish. rewrite (bind_step get_sched _ s (k_sched (l_user s)) s eq_refl).
  change (processes (k_sched (l_user s))) with (procs s).
  destruct (dget (n / 2) (procs s)) as [p|] eqn:Hp.
  - set (d := dset (n / 2) (set_state ZOMBIE p)).
    set (s1 := set_user (set_sched (mkSched (d (procs s)) (npid s) (ticks (k_sched (l_user s)))) (l_user s)) s).
    rewrite (bind_step (upd_processes d) _ s tt s1 eq_refl).
    assert (sinv w [] s1) as Hi1.
    { apply (sinv_table w [(FnUser n, f)] [] s d); unfold d.
      - apply dset_ok, (iv_dict _ _ _ Hi).
      - intros pid p' Hp'. destruct (decide (pid = n / 2)) as [->|Hne].
        + rewrite dget_dset in Hp'. injection Hp' as <-. exists p. split_and!; try done. right. split; [done|].
          by rewrite (Hown p eq_refl).
        + rewrite dget_dset_ne in Hp' by done. exists p'. auto.
      - intros n' f' Hin. by apply not_elem_of_nil in Hin.
      - intros n' f' p' [= -> ->]%list_elem_of_singleton. rewrite dget_dset. intros [= <-]. by right.
      - done. }
    assert (sinv w' [] s1) as Hi1'.
    { apply (sinv_watch w); [|done]. destruct Hw as [->|[k ->]]; [apply (iv_watch _ _ _ Hi1)|left].
      split; [done|]. unfold procs, s1, d. simpl. rewrite dget_dset. by intros p' [= <-]. }
    intros E. revert Hi1' E. generalize s1. intros s0 Hi0 E. revert s0 r s' Hi0 E.
    change (keeps (sinv w' []) (let! x := get_future f in
      let! error := (if cancelled x then ret None else lift (future_exception x)) in
      match error with
      | Some e => on_console (Log.error (lit "process " ++ p_name p ++ lit " (pid=" ++ str_of_int (n / 2)
                    ++ lit ") raised: " ++ exn_str e))
      | None => ret tt
      end ;;;
      if ar then upd_processes (Coro := Coro) (dpop (n / 2)) else ret tt)).
    apply keeps_bind; [apply keeps_read|]. intros x.
    apply keeps_bind; [destruct (cancelled x); [apply keeps_ret|apply keeps_lift]|]. intros e.
    apply keeps_bind; [destruct e; [apply keeps_on_console|apply keeps_ret]|]. intros _.
    destruct ar; [apply keeps_table, table_dpop|apply keeps_ret].
  - intros [= _ <-].
    assert (sinv w [] s) as Hi1.
    { eapply (sinv_frame w [] _ s); [..|apply (sinv_table w [(FnUser n, f)] [] s (fun d => d) (ticks (k_sched (l_user s))))];
        try done; simpl.
      - unfold procs, npid. by destruct (k_sched (l_user s)).
      - apply (iv_dict _ _ _ Hi).
      - intros pid p Hg. exists p. auto.
      - intros n' f' Hin. by apply not_elem_of_nil in Hin.
      - intros n' f' p' [= -> ->]%list_elem_of_singleton. by rewrite Hp. }
    apply (sinv_watch w); [|done]. destruct Hw as [->|[k ->]]; [apply (iv_watch _ _ _ Hi1)|left].
    split; [done|]. by rewrite Hp.
Qed.

(** ** Programs and turns of the loop *)

Lemma keeps_uses w {A} (m : M kloop A) : uses_sched m -> keeps (sinv w []) m.
Proof.
  induction 1; eauto using keeps_ret, keeps_raise, keeps_lift, keeps_gets, keeps_bind, keeps_try, keeps_call_soon,
    keeps_call_at, keeps_cancel_plain, keeps_create_future, keeps_create_task, keeps_set_result,
    keeps_set_exception, keeps_cancel, keeps_add, keeps_remove, keeps_spawn, keeps_kill, keeps_reap, keeps_tick,
    keeps_on_console, keeps_read.
  - by apply keeps_frame.
  - by apply keeps_frame.
Qed.

Section run.
Context (resume : Coro -> option exn -> M kloop (Coro * outcome)).
Context (dispatch_interrupts : M kloop unit).
Context (Hresume : forall c e, uses_sched (resume c e)).
Context (Hdispatch : uses_sched dispatch_interrupts).
Context (w : option (Z * nat)).
Abbreviation P := (sinv w []).

Lemma keeps_task_step t exc : keeps P (task_step resume t exc).
Proof.
  unfold task_step. apply keeps_bind.
  { intros s r s' Hi. unfold get_task. destruct (l_tasks s !! t); by intros [= _ <-]. }
  intros x. apply keeps_bind; [apply keeps_put_task|]. intros _. apply keeps_bind; [apply keeps_uses, Hresume|].
  intros [c out]. apply keeps_bind; [by apply keeps_frame|]. intros _.
  destruct out as [v|e|f|].
  - apply keeps_set_result.
  - destruct e; try apply keeps_set_exception. apply keeps_bind; [apply keeps_future_cancel|]. intros _. apply keeps_ret.
  - apply keeps_bind; [by apply keeps_frame|]. intros _. by apply keeps_add.
  - apply keeps_bind; [by apply keeps_call_soon|]. intros _. apply keeps_ret.
Qed.

Lemma keeps_plain_call g a : plain_fn g -> keeps P (call resume (sched_call exn_str) g a).
Proof.
  intros Hg. destruct g as [t|t|v|n]; simpl in *; [apply keeps_task_step|..|done];
    (destruct a as [f|]; [|apply keeps_raise]); apply keeps_get_future; intros s x r s' _ Hi.
  - destruct (future_result x); by apply keeps_task_step.
  - destruct (cancelled x); [by intros [= _ <-]|by apply keeps_set_result].
Qed.

Definition closer (w0 : option (Z * nat)) : option (Z * nat) :=
  match w0 with Some (pid, S k) => Some (pid, k) | _ => None end.

(** Running the first ready handle.  A watched process comes one place closer,
    or is settled. *)
Lemma sinv_pop w0 h rest s :
  l_ready s = h :: rest -> sinv w0 [] s ->
  (forall n f, l_handles s !! h <> Some (mkHandle (FnUser n) (Some f) false)) ->
  sinv (closer w0) [] (set_ready rest s).
Proof.
  intros Hr [H1 H2 H3 H4 H5 H6 H7 H8 H9] Hh. split; try done.
  - intros pid p Hp. destruct (H7 pid p Hp) as (? & ? & x & Hx & Hd). split; [done|]. split; [done|]. exists x.
    split; [done|]. destruct (done x); [|done]. destruct Hd as [|[(h' & Hin & Hf)|(n & f & Hin & _)]]; [by left| |by apply not_elem_of_nil in Hin].
    right. left. rewrite Hr in Hin. apply elem_of_cons in Hin as [->|Hin]; [|by exists h'].
    destruct Hf as (n & f & Hf & _). by destruct (Hh n f).
  - destruct w0 as [[pid [|k]]|]; try done. destruct H9 as [Hs|(Hp & i & h' & Hi & Hri & Hf)]; [by left|right].
    split; [done|]. rewrite Hr in Hri. destruct i as [|i]; simpl in Hri.
    + injection Hri as <-. destruct Hf as (n & f & Hf & _). by destruct (Hh n f).
    + exists i, h'. split_and!; [lia|done|done].
Qed.

Lemma sinv_pop_finish w0 h rest n f s :
  l_ready s = h :: rest -> sinv w0 [] s -> l_handles s !! h = Some (mkHandle (FnUser n) (Some f) false) ->
  sinv None [(FnUser n, f)] (set_ready rest s) /\
  forall pid k, w0 = Some (pid, S k) -> pid = n / 2 \/ sinv (Some (pid, k)) [(FnUser n, f)] (set_ready rest s).
Proof.
  intros Hr [H1 H2 H3 H4 H5 H6 H7 H8 H9] Hh.
  assert (forall w1, watched (set_ready rest s) w1 -> sinv w1 [(FnUser n, f)] (set_ready rest s)) as Hgen.
  { intros w1 Hw1. split; try done.
    - intros n' f' [= -> ->]%list_elem_of_singleton. destruct (H4 h _ n Hh eq_refl) as (f0 & [= ->] & ? & ?). done.
    - intros pid p Hp. destruct (H7 pid p Hp) as (? & ? & x & Hx & Hd). split; [done|]. split; [done|]. exists x.
      split; [done|]. destruct (done x); [|done]. destruct Hd as [|[(h' & Hin & Hf)|(n' & f' & Hin & _)]]; [by left| |by apply not_elem_of_nil in Hin].
      right. rewrite Hr in Hin. apply elem_of_cons in Hin as [->|Hin]; [right|left; by exists h'].
      destruct Hf as (n' & f' & Hf & Hn). rewrite Hh in Hf. injection Hf as <- <-. exists n, f.
      split; [by apply list_elem_of_singleton|done]. }
  split; [by apply Hgen|]. intros pid k ->. destruct H9 as [Hs|(Hp & i & h' & Hi & Hri & Hf)]; [right; apply Hgen; by left|].
  rewrite Hr in Hri. destruct i as [|i]; simpl in Hri.
  - injection Hri as <-. destruct Hf as (n' & f' & Hf & Hn). rewrite Hh in Hf. injection Hf as <- <-. by left.
  - right. apply Hgen. right. split; [done|]. exists i, h'. split_and!; [lia|done|done].
Qed.

Lemma keeps_handle_try (P0 : kloop -> Prop) (m : M kloop unit) :
  keeps P0 m -> keeps P0 (try_except m (fun e => match e with CancelledError => raise e | _ => ret tt end)).
Proof.
  intros Hm. apply keeps_try; [done|]. intros e. destruct e; try apply keeps_ret. apply keeps_raise.
Qed.
End run.

Section turns.
Context (resume : Coro -> option exn -> M kloop (Coro * outcome)).
Context (dispatch_interrupts : M kloop unit).
Context (Hresume : forall c e, uses_sched (resume c e)).
Context (Hdispatch : uses_sched dispatch_interrupts).
Abbreviation run_handle := (handle_run resume (sched_call exn_str)).

Lemma sinv_finish_turn w0 n f s r s' :
  sinv None [(FnUser n, f)] s ->
  (forall pid k, w0 = Some (pid, S k) -> pid = n / 2 \/ sinv (Some (pid, k)) [(FnUser n, f)] s) ->
  finish (Coro := Coro) exn_str (n / 2) f (Z.odd n) s = (r, s') -> sinv (closer w0) [] s'.
Proof.
  intros Hn Hw E. destruct w0 as [[pid [|k]]|]; [eauto using sinv_finish..| |eauto using sinv_finish].
  destruct (Hw pid k eq_refl) as [->|Hi]; eauto using sinv_finish.
Qed.

Lemma handle_run_sinv w0 h rest s r s' :
  l_ready s = h :: rest -> sinv w0 [] s -> run_handle h (set_ready rest s) = (r, s') -> sinv (closer w0) [] s'.
Proof.
  intros Hr Hi. unfold handle_run. rewrite (bind_step (gets l_handles) _ (set_ready rest s) (l_handles s) (set_ready rest s) eq_refl).
  destruct (l_handles s !! h) as [x|] eqn:Hx.
  2:{ intros [= _ <-]. apply (sinv_pop w0 h); [done..|]. by rewrite Hx. }
  destruct (h_fn x) as [t|t|v|n] eqn:Hfn.
  4:{ destruct (iv_h _ _ _ Hi h x n Hx Hfn) as (f & -> & _). simpl.
      destruct (sinv_pop_finish w0 h rest n f s Hr Hi Hx) as [Hi1 Hi2]. unfold try_except. simpl.
      destruct (finish _ _ _ _ _) as [[[]|e] s1] eqn:E;
        pose proof (sinv_finish_turn w0 n f _ _ _ Hi1 Hi2 E); [by intros [= _ <-]|].
      destruct e; by intros [= _ <-]. }
  all: assert (sinv (closer w0) [] (set_ready rest s)) as Hi1
    by (apply (sinv_pop w0 h); [done..|]; intros n f; rewrite Hx; intros [= ->]; done).
  all: (destruct (h_cancelled x); [by intros [= _ <-]|]); revert Hi1; generalize (set_ready rest s); intros s0 Hi1 E;
    eapply keeps_handle_try; [|exact Hi1|exact E]; apply keeps_plain_call; [done|by simpl].
Qed.

(** A watched process is settled when the handles before it have run. *)
Lemma run_ready_sinv n : forall w0 s r s',
  match w0 with Some (_, k) => (k <= n)%nat | None => True end ->
  sinv w0 [] s -> run_ready resume (sched_call exn_str) n s = (r, s') ->
  sinv None [] s' /\ forall pid k, w0 = Some (pid, k) -> r = Ok tt -> settled s' pid.
Proof.
  assert (forall pid k s, (k = 0)%nat \/ l_ready s = [] -> watched s (Some (pid, k)) -> settled s pid) as Hset.
  { intros pid k s Hk [Hs|(_ & i & h & Hi & Hr & _)]; [done|]. destruct Hk as [->|Hr']; [lia|]. by rewrite Hr' in Hr. }
  assert (forall w0 s, sinv w0 [] s -> sinv None [] s) as Hnone by (intros w0 s Hi; by apply (sinv_watch w0)).
  induction n as [|n IH]; intros w0 s r s' Hw Hi; cbn [run_ready].
  { intros [= _ <-]. split; [eauto|]. intros pid k ->. intros _. apply (Hset pid k); [left; lia|apply (iv_watch _ _ _ Hi)]. }
  rewrite (bind_step (gets l_ready) _ s (l_ready s) s eq_refl). destruct (l_ready s) as [|h rest] eqn:Hr.
  { intros [= _ <-]. split; [eauto|]. intros pid k ->. intros _. apply (Hset pid k); [by right|apply (iv_watch _ _ _ Hi)]. }
  rewrite (bind_step (modify (set_ready rest)) _ s tt (set_ready rest s) eq_refl). unfold bind.
  assert (exists w1, sinv w1 [] s /\ match w1 with Some (_, S k) => (k <= n)%nat | Some (_, O) => False | None => True end
     /\ forall pid k, w0 = Some (pid, k) -> exists k', w1 = Some (pid, S k')) as (w1 & Hi1 & Hw1 & H01).
  { destruct w0 as [[pid [|k]]|].
    - exists (Some (pid, 1)%nat). split_and!; [|lia|by intros ? ? [= <- <-]; eauto].
      eapply sinv_watch; [|exact Hi]. left. apply (Hset pid 0%nat); [by left|apply (iv_watch _ _ _ Hi)].
    - exists (Some (pid, S k)). split_and!; [done|lia|by intros ? ? [= <- <-]; eauto].
    - exists None. by split_and!. }
  destruct (run_handle h (set_ready rest s)) as [[[]|e] s1] eqn:E;
    pose proof (handle_run_sinv w1 h rest s _ _ Hr Hi1 E) as Hi2.
  - intros E2. destruct (IH (closer w1) s1 r s') as [H1 H2]; [|done|done|].
    { destruct w1 as [[? [|]]|]; done. }
    split; [done|]. intros pid k Hpk Hok. destruct (H01 pid k Hpk) as [k' ->]. exact (H2 pid k' eq_refl Hok).
  - intros [= <- <-]. split; [eauto|]. by intros.
Qed.

(** One turn. *)
Lemma run_once_sinv w0 now s r s' :
  sinv w0 [] s -> run_once resume (sched_call exn_str) dispatch_interrupts now s = (r, s') ->
  sinv None [] s' /\ forall pid k, w0 = Some (pid, k) -> r = Ok tt -> settled s' pid.
Proof.
  intros Hi. unfold run_once. unfold bind at 1.
  destruct (try_except dispatch_interrupts _ s) as [[[]|e] s1] eqn:E1;
    assert (sinv w0 [] s1) as Hi1 by (refine (keeps_handle_try _ _ (keeps_uses _ _ Hdispatch) _ _ _ Hi E1)).
  2:{ intros [= <- <-]. split; [by apply (sinv_watch w0)|by intros]. }
  rewrite (bind_step (gets l_scheduled) _ s1 (l_scheduled s1) s1 eq_refl).
  destruct (promote now (l_scheduled s1)) as [due rest].
  set (s2 := set_ready (l_ready s1 ++ due) (set_scheduled rest s1)).
  rewrite (bind_step (modify (fun s => set_ready (l_ready s ++ due) (set_scheduled rest s))) _ s1 tt s2 eq_refl), (bind_step (gets l_ready) _ s2 (l_ready s2) s2 eq_refl).
  set (w2 := match w0 with Some (pid, _) => Some (pid, length (l_ready s2)) | None => None end).
  assert (sinv w2 [] s2) as Hi2.
  { destruct Hi1 as [H1 H2 H3 H4 H5 H6 H7 H8 H9]. split; try done.
    - intros pid p Hp. destruct (H7 pid p Hp) as (? & ? & x & Hx & Hd). split; [done|]. split; [done|]. exists x.
      split; [done|]. destruct (done x); [|done]. destruct Hd as [|[(h & Hin & Hf)|Hfl]]; [by left|right; left|by right; right].
      exists h. simpl. split; [apply elem_of_app; by left|done].
    - destruct w0 as [[pid k]|]; [|done]. destruct H9 as [Hs|(Hp & i & h & Hk & Hr & Hf)]; [by left|right].
      split; [done|]. assert (l_ready s2 !! i = Some h) as Hr2 by (by apply lookup_app_l_Some).
      exists i, h. split_and!; [by eapply lookup_lt_Some|done|done]. }
  intros E. destruct (run_ready_sinv (length (l_ready s2)) w2 s2 r s') as [Hn Hs]; [|done|done|].
  - unfold w2. destruct w0 as [[]|]; lia || done.
  - split; [done|]. intros pid k ->. intros Hok. exact (Hs pid _ eq_refl Hok).
Qed.

(** ** Main properties *)

Definition turn (now : Z) : M kloop unit := run_once resume (sched_call exn_str) dispatch_interrupts now.

(** The kernel runs: turns of the loop, and operations from outside of it
    (boot code, the console) in between. *)
Inductive kernel_step : kloop -> kloop -> Prop :=
| ks_turn now s r s' : turn now s = (r, s') -> kernel_step s s'
| ks_op {A} (m : M kloop A) s r s' : uses_sched m -> m s = (r, s') -> kernel_step s s'.

Definition boot : kloop := loop_init kern_init.

Lemma boot_sinv : sinv None [] boot.
Proof.
  split.
  - intros f [x Hx]. by destruct (lookup_empty_Some f x).
  - intros h [x Hx]. by destruct (lookup_empty_Some h x).
  - intros f x n Hx. by destruct (lookup_empty_Some f x).
  - intros h x n Hx. by destruct (lookup_empty_Some h x).
  - intros n f Hin. by apply not_elem_of_nil in Hin.
  - constructor.
  - done.
  - done.
  - done.
Qed.

Lemma kernel_sinv s : steps kernel_step boot s -> sinv None [] s.
Proof.
  apply steps_invariant; [|apply boot_sinv]. intros s1 s2 Hi Hst. revert Hi.
  destruct Hst as [now s0 r s' E|A m s0 r s' Hm E]; intros Hi.
  - exact (proj1 (run_once_sinv None now s0 r s' Hi E)).
  - by eapply (keeps_uses None m Hm).
Qed.

(** In every state the kernel reaches, the process table is sound: pids are
    unique and were handed out by [spawn]; a process whose task is still
    pending is RUNNING, and [reap] of it changes nothing; [reap] of a process
    whose task is done (every ZOMBIE) returns its record and removes exactly
    that one. *)
Theorem sched_table_sound s pid p :
  steps kernel_step boot s -> (pid, p) ∈ procs s ->
  NoDup (procs s).*1 /\ p_pid p = pid /\ 1 <= pid < npid s /\
  exists x, l_futures s !! p_task p = Some x /\
    (if done x
     then exists s', reap pid s = (Ok (Some p), s') /\ procs s' = dpop pid (procs s)
     else p_state p = RUNNING /\ reap pid s = (Ok None, s)).
Proof.
  intros Hs Hin. apply kernel_sinv in Hs as [_ _ _ _ _ Hd Hp _ _]. apply elem_dget in Hin; [|done].
  destruct (Hp pid p Hin) as (? & ? & x & Hx & Hdone). split; [exact Hd|]. split; [done|]. split; [done|].
  exists x. split; [done|].
  assert (task_done p s = (Ok (done x), s)) as Htd.
  { unfold task_done, bind, get_future. by rewrite Hx. }
  unfold reap. rewrite (bind_step get_sched _ s (k_sched (l_user s)) s eq_refl).
  change (processes (k_sched (l_user s))) with (procs s). rewrite Hin, (bind_step _ _ _ _ _ Htd).
  destruct (done x); [|by destruct Hdone]. simpl. eexists. by split.
Qed.

(** C14: a process that has ended is seen: when a process's task is done, the
    next turn of the loop that completes (whatever the callbacks and coroutines
    it runs do) finds it a ZOMBIE in the table, or gone from it. *)
Theorem sched_exit_seen s pid p x now s' :
  steps kernel_step boot s -> dget pid (procs s) = Some p ->
  l_futures s !! p_task p = Some x -> done x = true ->
  turn now s = (Ok tt, s') ->
  forall p', dget pid (procs s') = Some p' -> p_state p' = ZOMBIE.
Proof.
  intros Hs Hp Hx Hdone E. apply kernel_sinv in Hs as Hi.
  destruct (iv_proc _ _ _ Hi pid p Hp) as (_ & Hpid & y & Hy & Hd). rewrite Hx in Hy. injection Hy as <-.
  rewrite Hdone in Hd.
  assert (exists k, watched s (Some (pid, k))) as [k Hw].
  { destruct Hd as [Hz|[(h & Hin & Hf)|(n & f & Hin & _)]]; [..|by apply not_elem_of_nil in Hin].
    - exists 0%nat. left. split; [done|]. intros p' Hp'. congruence.
    - apply list_elem_of_lookup in Hin as [i Hi']. exists (S i). right. split; [done|]. exists i, h. split_and!; [lia|done|done]. }
  destruct (run_once_sinv (Some (pid, k)) now s (Ok tt) s') as [_ Hset]; [by apply (sinv_watch None)|done|].
  by destruct (Hset pid k eq_refl eq_refl).
Qed.
End turns.
End props.

(** ** Witnesses

    Coroutines that yield a number of times and return. *)

Definition countdown (c : nat) (exc : option exn) : M (loop nat kern) (nat * outcome) :=
  match exc, c with
  | Some e, _ => ret (c, ORaise e)
  | None, S n => ret (n, OYield)
  | None, O => ret (O, OReturn VNone)
  end.

Lemma us_countdown c e : uses_sched (countdown c e).
Proof. destruct e, c; apply us_ret. Qed.

Definition no_str (e : exn) : str := [].
Definition wit1 : loop nat kern := snd (spawn 1%nat None false boot).
Definition wit_turn (n : Z) : loop nat kern -> loop nat kern :=
  fun s => snd (turn no_str countdown (ret tt) n s).

Lemma wit_steps : steps (kernel_step no_str countdown (ret tt)) boot (wit_turn 2 (wit_turn 1 wit1)) /\
  steps (kernel_step no_str countdown (ret tt)) boot wit1.
Proof.
  assert (kernel_step no_str countdown (ret tt) boot wit1) as H0.
  { eapply (ks_op _ _ _ (spawn 1%nat None false)); [apply us_spawn|apply surjective_pairing]. }
  assert (forall n s, kernel_step no_str countdown (ret tt) s (wit_turn n s)) as Ht.
  { intros n s. exact (ks_turn _ _ _ n s (fst (turn no_str countdown (ret tt) n s)) _ (surjective_pairing _)). }
  split; [|exact (steps_cons _ _ _ _ H0 (steps_refl _ _))].
  exact (steps_cons _ _ _ _ H0 (steps_cons _ _ _ _ (Ht 1 wit1) (steps_cons _ _ _ _ (Ht 2 (wit_turn 1 wit1)) (steps_refl _ _)))).
Qed.

Definition wit_proc (st : ProcessState) : Process := mkProcess 1 (lit "proc-1") 0 st 0.

Lemma sched_table_sound_witness :
  (1, wit_proc RUNNING) ∈ procs wit1 /\ NoDup (procs wit1).*1.
Proof.
  assert ((1, wit_proc RUNNING) ∈ procs wit1) as Hin.
  { apply list_elem_of_singleton. by vm_compute. }
  split; [exact Hin|].
  exact (proj1 (sched_table_sound no_str countdown (ret tt) us_countdown (us_ret unit tt) wit1 1 (wit_proc RUNNING)
    (proj2 wit_steps) Hin)).
Defined.

Lemma sched_exit_seen_witness :
  let s := wit_turn 2 (wit_turn 1 wit1) in
  dget 1 (procs s) = Some (wit_proc RUNNING) /\
  forall p', dget 1 (procs (wit_turn 3 s)) = Some p' -> p_state p' = ZOMBIE.
Proof.
  intros s. assert (dget 1 (procs s) = Some (wit_proc RUNNING)) as Hp by (by vm_compute).
  split; [exact Hp|].
  destruct (l_futures s !! 0) as [x|] eqn:Hx; [|by vm_compute in Hx].
  refine (sched_exit_seen no_str countdown (ret tt) us_countdown (us_ret unit tt) s 1 (wit_proc RUNNING) x 3 (wit_turn 3 s)
    (proj1 wit_steps) Hp Hx _ _).
  - revert Hx. vm_compute. by intros [= <-].
  - unfold wit_turn at 1. destruct (turn no_str countdown (ret tt) 3 s) as [r s'] eqn:E.
    assert (fst (turn no_str countdown (ret tt) 3 s) = Ok tt) as Hr by (by vm_compute).
    rewrite E in Hr. simpl in Hr. by rewrite Hr.
Defined.
