(* ===== verification/Interrupts.v ===== *)
(** * Interrupt dispatch ([kernel/interrupts/router.py], [handlers.py])

    A handler returns nothing or a coroutine, or raises; the double-fault
    handler prints and never returns ([panic] loops forever).  The router turns
    coroutines into tasks of the running event loop.  The default handlers are
    the ones [handlers.py] registers; with them the router is code that uses
    the loop and the scheduler as [SchedProps] requires. *)

From Stdlib Require Import ZArith Lia.
From stdpp Require Import base list gmap numbers strings.
From S2P Require Import Prelude Bytes Pystr Dict Asyncio Log Scheduler SchedProps Pmm Vmm.

Local Open Scope Z_scope.

Record InterruptContext : Type := mkContext {
  i_vector : Z; i_error_code : Z; i_rip : Z; i_cs : Z; i_rflags : Z; i_rsp : Z;
}.

(** Vectors of CPU exceptions and interrupt lines. *)
Definition DIVIDE_ERROR : Z := 0x00.
Definition INVALID_OPCODE : Z := 0x06.
Definition DOUBLE_FAULT : Z := 0x08.
Definition GENERAL_PROTECTION : Z := 0x0D.
Definition PAGE_FAULT : Z := 0x0E.
Definition TIMER : Z := 0x20.

Section router.
Context {Coro : Type}.
Abbreviation kloop := (loop Coro kern).

(** What calling a handler gives: nothing, a coroutine, or no return at all. *)
Inductive called : Type := CNone | CCoro (c : Coro) | CNever.
Definition Handler : Type := InterruptContext -> M kloop called.

Record InterruptRouter : Type := mkRouter {
  r_table : list (Z * Handler);
  r_loop : bool;                 (* [_loop] is set *)
}.
Definition InterruptRouter_init : InterruptRouter := mkRouter [] false.

Definition set_event_loop (r : InterruptRouter) : InterruptRouter := mkRouter (r_table r) true.
Definition register (vector : Z) (fn : Handler) (r : InterruptRouter) : InterruptRouter :=
  mkRouter (dset vector fn (r_table r)) (r_loop r).

Definition unhandled : Handler := fun ctx =>
  if i_vector ctx <? 0x20 then raise RuntimeError else ret CNone.

(** [_dispatch]; [false] when it never returns. *)
Definition dispatch (r : InterruptRouter) (ctx : InterruptContext) : M kloop bool :=
  let handler := match dget (i_vector ctx) (r_table r) with Some h => h | None => unhandled end in
  let! result := handler ctx in
  match result with
  | CNone => ret true
  | CNever => ret false
  | CCoro c =>
      let! running := gets l_running in
      if r_loop r && running then let! _ := ensure_future (inl c) in ret true
      else ret true                (* [result.close()] *)
  end.

(** ** The default handlers *)

(** The coroutine object that [_page_fault(ctx)] makes. *)
Context (page_fault_coro : InterruptContext -> Coro).
(** The hexadecimal formatting of addresses in messages. *)
Context (hex : Z -> str).

Definition on_page_fault : Handler := fun ctx => ret (CCoro (page_fault_coro ctx)).
Definition on_gpf : Handler := fun ctx => raise RuntimeError.
Definition on_double_fault : Handler := fun ctx =>
  on_console (Log.panic (lit "Double fault at RIP=" ++ hex (i_rip ctx))) ;;; ret CNever.
Definition on_invalid_opcode : Handler := fun ctx => raise RuntimeError.
Definition on_divide_error : Handler := fun ctx => raise ZeroDivisionError.
Definition on_timer : Handler := fun ctx => tick ;;; ret CNone.

Definition default_router : InterruptRouter :=
  register TIMER on_timer (register DIVIDE_ERROR on_divide_error (register INVALID_OPCODE on_invalid_opcode
    (register DOUBLE_FAULT on_double_fault (register GENERAL_PROTECTION on_gpf
      (register PAGE_FAULT on_page_fault InterruptRouter_init))))).

(** The body of [_page_fault], on the virtual memory manager; [cr2] is the
    faulting address it reads. *)
Definition page_fault_body (ctx : InterruptContext) (cr2 : Z) : M vmm unit :=
  let present := negb (Z.land (i_error_code ctx) 0x01 =? 0) in
  let write := negb (Z.land (i_error_code ctx) 0x02 =? 0) in
  let user_mode := negb (Z.land (i_error_code ctx) 0x04 =? 0) in
  let! handled := handle_fault cr2 write user_mode present in
  if handled then ret tt else raise RuntimeError.

(** ** Properties *)

Lemma us_on_timer ctx : uses_sched (on_timer ctx).
Proof. apply us_bind; [apply us_tick|]. intros _. apply us_ret. Qed.

(** Dispatch through handlers that respect the loop respects the loop. *)
Lemma us_dispatch r ctx :
  (forall v h, (v, h) ∈ r_table r -> forall c, uses_sched (h c)) -> uses_sched (dispatch r ctx).
Proof.
  intros Hr. unfold dispatch. apply us_bind.
  - destruct (dget (i_vector ctx) (r_table r)) as [h|] eqn:Hg; [eapply Hr; by apply dget_elem|].
    unfold unhandled. destruct (_ <? _); [apply us_raise|apply us_ret].
  - intros [|c|]; [apply us_ret| |apply us_ret]. apply us_bind; [apply us_gets|]. intros b.
    destruct (r_loop r && b); [|apply us_ret]. apply us_bind; [apply us_create_task|]. intros _. apply us_ret.
Qed.

Lemma default_table : r_table default_router =
  [(PAGE_FAULT, on_page_fault); (GENERAL_PROTECTION, on_gpf); (DOUBLE_FAULT, on_double_fault);
   (INVALID_OPCODE, on_invalid_opcode); (DIVIDE_ERROR, on_divide_error); (TIMER, on_timer)].
Proof. reflexivity. Qed.

Lemma us_default ctx r : r_table r = r_table default_router -> uses_sched (dispatch r ctx).
Proof.
  intros E. apply us_dispatch. rewrite E, default_table. intros v h Hin c.
  repeat (apply elem_of_cons in Hin as [[= -> ->]|Hin]); [..|by apply not_elem_of_nil in Hin].
  - apply us_ret.
  - apply us_raise.
  - apply us_bind; [apply us_console|]. intros _. apply us_ret.
  - apply us_raise.
  - apply us_raise.
  - apply us_on_timer.
Qed.

(** A tick in a sound state returns, counts, and leaves pids, tasks and states
    of the processes alone. *)
Lemma credit_total fl l todo s :
  (forall pid p, (pid, p) ∈ todo -> is_Some (l_futures s !! p_task p)) ->
  exists s', credit (Coro := Coro) l todo s = (Ok fl, s') /\ ticks (k_sched (l_user s')) = ticks (k_sched (l_user s)).
Proof.
  destruct fl. revert l. induction todo as [|[pid p] todo IH]; intros l Hex; cbn [credit]; [by exists s|].
  assert (forall pid p, (pid, p) ∈ todo -> is_Some (l_futures s !! p_task p)) as Hex'.
  { intros pid' p' Hin. apply (Hex pid'), elem_of_cons. by right. }
  unfold bind. case_decide; [|unfold ret; by apply IH].
  destruct (Hex pid p) as [x Hx]; [apply elem_of_cons; by left|].
  unfold task_done, bind, get_future. rewrite Hx. unfold ret. destruct (done x); [by apply IH|].
  eexists. by split.
Qed.

Lemma tick_total w s :
  sinv w [] s -> exists s', tick (Coro := Coro) s = (Ok tt, s') /\
    ticks (k_sched (l_user s')) = ticks (k_sched (l_user s)) + 1 /\ sinv w [] s'.
Proof.
  intros Hi. set (s1 := set_user (set_sched (mkSched (procs s) (npid s) (ticks (k_sched (l_user s)) + 1)) (l_user s)) s).
  destruct (credit_total tt [] (procs s) s1) as (s' & E & Ht).
  { intros pid p Hin. apply elem_dget in Hin; [|apply (iv_dict _ _ _ Hi)].
    destruct (iv_proc _ _ _ Hi pid p Hin) as (_ & _ & x & Hx & _). exists x. exact Hx. }
  assert (tick s = (Ok tt, s')) as Et by exact E.
  exists s'. split_and!; [exact Et|exact Ht|]. exact (keeps_tick w _ _ _ Hi Et).
Qed.

(** Vectors that only count time or do nothing. *)
Definition benign (r : InterruptRouter) (v : Z) : Prop :=
  v = TIMER \/ (0x20 <= v /\ dget v (r_table r) = None).

Definition timers (vs : list Z) : Z := len (List.filter (fun v => v =? TIMER) vs).

Lemma dispatch_benign r s vs mk :
  dget TIMER (r_table r) = Some on_timer -> (forall v, i_vector (mk v) = v) ->
  Forall (benign r) vs -> sinv None [] s ->
  exists s', for_each vs (fun v => let! _ := dispatch r (mk v) in ret tt) s = (Ok tt, s') /\
    ticks (k_sched (l_user s')) = ticks (k_sched (l_user s)) + timers vs /\ sinv None [] s'.
Proof.
  intros Hr Hmk Hv. revert s. induction Hv as [|v vs Hb Hvs IH]; intros s Hi.
  { exists s. unfold timers. simpl. rewrite len_nil, Z.add_0_r. by split_and!. }
  cbn [for_each]. destruct Hb as [->|[Hlo Hnone]].
  - destruct (tick_total None s Hi) as (s1 & E1 & Ht1 & Hi1). destruct (IH s1 Hi1) as (s' & E & Ht & Hi').
    exists s'. split_and!; [| |done].
    + etransitivity; [|exact E]. unfold dispatch. rewrite Hmk, Hr. unfold on_timer, bind at 1 2 3 4. by rewrite E1.
    + rewrite Ht, Ht1. unfold timers. simpl. rewrite len_cons. lia.
  - destruct (IH s Hi) as (s' & E & Ht & Hi'). exists s'. split_and!; [| |done].
    + etransitivity; [|exact E]. unfold dispatch. rewrite Hmk, Hnone. unfold unhandled. rewrite Hmk.
      by rewrite (proj2 (Z.ltb_ge _ _) Hlo).
    + rewrite Ht. unfold timers. simpl. destruct (Z.eqb_spec v TIMER) as [->|]; [|done].
      by rewrite Hr in Hnone.
Qed.
End router.

(** The timer keeps time: in every state the kernel reaches, any burst of
    interrupts that are timer ticks or spurious lines is dispatched without an
    exception, and the uptime is then exactly ten milliseconds per tick, those
    before and those of the burst. *)
Theorem irq_timer_uptime {Coro} exn_str resume page_fault_coro hex (s : loop Coro kern) vs mk
  (r := set_event_loop (default_router page_fault_coro hex)) :
  (forall c e, uses_sched (resume c e)) ->
  steps (kernel_step exn_str resume (ret tt)) boot s ->
  (forall v, i_vector (mk v) = v) -> Forall (benign r) vs ->
  exists s', for_each vs (fun v => let! _ := dispatch r (mk v) in ret tt) s = (Ok tt, s') /\
    uptime_ms (k_sched (l_user s')) = 10 * (ticks (k_sched (l_user s)) + timers vs).
Proof.
  intros Hres Hs Hmk Hv.
  destruct (dispatch_benign r s vs mk eq_refl Hmk Hv) as (s' & E & Ht & _).
  { exact (kernel_sinv exn_str resume (ret tt) Hres (us_ret unit tt) s Hs). }
  exists s'. split; [done|]. unfold uptime_ms, TICK_HZ. rewrite Ht.
  symmetry. apply Z.div_unique_exact; lia.
Qed.

Definition ctx_of (v : Z) : InterruptContext := mkContext v 0 0 0 0 0.

Lemma irq_timer_uptime_witness :
  exists s', for_each [0x20; 0x2E; 0x20] (fun v => let! _ := dispatch
      (set_event_loop (default_router (fun _ => 0%nat) (fun _ => []))) (ctx_of v) in ret tt) wit1 = (Ok tt, s') /\
    uptime_ms (k_sched (l_user s')) = 20.
Proof.
  refine (irq_timer_uptime no_str countdown (fun _ => 0%nat) (fun _ => []) wit1 [0x20; 0x2E; 0x20] ctx_of
    us_countdown (proj2 wit_steps) (fun v => eq_refl) _).
  constructor; [left; reflexivity|]. constructor; [right; split; [lia|reflexivity]|].
  constructor; [left; reflexivity|constructor].
Defined.
