(* ===== verification/Hw.v ===== *)
(** * The machine the drivers run on

    Physical memory as bytes, the MMIO accessors and the DMA allocator of the
    [_hal] extension (src/hal/hal.c), and the device on the other side of the
    bus.  The C library's [calloc] and the device are not part of the
    repository: they are the operations of the class [Machine], which the
    drivers are written against; what the drivers rely on of them is stated by
    the law classes of the driver files. *)

From Stdlib Require Import ZArith Lia.
From stdpp Require Import base list gmap numbers.
From S2P Require Import Prelude Bytes.

Local Open Scope Z_scope.

(** ** Memory *)

Abbreviation mem := (gmap Z Z).

Definition rd (m : mem) (a : Z) : Z := default 0 (m !! a).

Fixpoint mread (m : mem) (a : Z) (n : nat) : bytes :=
  match n with
  | O => []
  | S n' => rd m a :: mread m (a + 1) n'
  end.

Fixpoint mwrite (m : mem) (a : Z) (l : bytes) : mem :=
  match l with
  | [] => m
  | b :: l' => mwrite (<[a := b]> m) (a + 1) l'
  end.

(** An unsigned little-endian field of [n] bytes. *)
Definition mval (m : mem) (a : Z) (n : nat) : Z := le_val (mread m a n).

(** ** The device and the allocator *)

Class Machine (Dv : Type) : Type := {
  dev_claims : Z -> bool;                            (* the addresses the device decodes *)
  dev_read : Z -> Dv -> Z * Dv;                      (* a read of one of them *)
  dev_write : Z -> Z -> Dv -> mem -> Dv * mem;       (* a write to one of them *)
  dev_run : Dv -> mem -> Dv * mem;                   (* what it does while the driver sleeps *)
  calloc : list (Z * Z) -> Z -> option Z;            (* [calloc(1, n)] after the blocks given out *)
}.

Record Hw (Dv : Type) : Type := mkHw { h_mem : mem; h_heap : list (Z * Z); h_dev : Dv }.
Arguments mkHw {Dv} h_mem h_heap h_dev.
Arguments h_mem {Dv} h.
Arguments h_heap {Dv} h.
Arguments h_dev {Dv} h.

Section hal.
Context {Dv : Type} `{Machine Dv}.
Abbreviation hw := (Hw Dv).

(** [_hal.mmio_read32] and [mmio_read8]: a device register or a memory cell. *)
Definition mmio_read32 (a : Z) : M hw Z := fun h =>
  if dev_claims a then let (v, d) := dev_read a (h_dev h) in (Ok (v mod 2 ^ 32), mkHw (h_mem h) (h_heap h) d)
  else (Ok (mval (h_mem h) a 4), h).

Definition mmio_read8 (a : Z) : M hw Z := fun h =>
  if dev_claims a then let (v, d) := dev_read a (h_dev h) in (Ok (v mod 2 ^ 8), mkHw (h_mem h) (h_heap h) d)
  else (Ok (mval (h_mem h) a 1), h).

(** A write of [n] bytes; the argument is converted to an unsigned C integer
    without an overflow check. *)
Definition mmio_write (n : nat) (a v : Z) : M hw unit := fun h =>
  if dev_claims a
  then let (d, m) := dev_write a (v mod 256 ^ Z.of_nat n) (h_dev h) (h_mem h) in (Ok tt, mkHw m (h_heap h) d)
  else (Ok tt, mkHw (mwrite (h_mem h) a (le_bytes n v)) (h_heap h) (h_dev h)).
Definition mmio_write32 (a v : Z) : M hw unit := mmio_write 4 a v.
Definition mmio_write8 (a v : Z) : M hw unit := mmio_write 1 a v.

(** [_hal.dma_alloc]: a zeroed block with a spare page, and the first page
    boundary in it. *)
Definition dma_alloc (size : Z) : M hw Z := fun h =>
  match calloc (h_heap h) (size + 4096) with
  | None => (Err MemoryError, h)
  | Some raw =>
      (Ok (Z.land (raw + 4095) (Z.lnot 4095)),
       mkHw (mwrite (h_mem h) raw (zeros (size + 4096))) ((raw, size + 4096) :: h_heap h) (h_dev h))
  end.

(** [await asyncio.sleep(t)]: time for the device to run. *)
Definition sleep : M hw unit := fun h =>
  let (d, m) := dev_run (h_dev h) (h_mem h) in (Ok tt, mkHw m (h_heap h) d).
End hal.

(** ** Lemmas *)

Lemma length_mread m a n : length (mread m a n) = n.
Proof. revert a. induction n; intros; simpl; auto. Qed.
Lemma len_mread m a n : len (mread m a n) = Z.of_nat n.
Proof. unfold len. by rewrite length_mread. Qed.

Lemma rd_mwrite_out m a l x : x < a \/ a + len l <= x -> rd (mwrite m a l) x = rd m x.
Proof.
  revert m a. induction l as [|b l IH]; intros m a Hx; [done|]. cbn [mwrite].
  rewrite len_cons in Hx. pose proof (len_nonneg l). rewrite IH by lia.
  unfold rd. rewrite lookup_insert_ne by lia. done.
Qed.

Lemma mread_mwrite_out m a l x n :
  x + Z.of_nat n <= a \/ a + len l <= x -> mread (mwrite m a l) x n = mread m x n.
Proof.
  revert x. induction n as [|n IH]; intros x Hx; [done|]. cbn [mread]. f_equal.
  - apply rd_mwrite_out. lia.
  - apply IH. lia.
Qed.

Lemma mread_mwrite_same m a l n : n = length l -> mread (mwrite m a l) a n = l.
Proof.
  intros ->. revert m a. induction l as [|b l IH]; intros m a; [done|]. cbn [mwrite mread length].
  rewrite IH, rd_mwrite_out by lia. unfold rd. by rewrite lookup_insert_eq.
Qed.

Lemma mread_app m a n k : mread m a (n + k) = mread m a n ++ mread m (a + Z.of_nat n) k.
Proof.
  revert a. induction n as [|n IH]; intros a; cbn [mread Nat.add app].
  - f_equal. lia.
  - rewrite IH. do 3 f_equal. lia.
Qed.

Lemma mval_mwrite_out m a l x n :
  x + Z.of_nat n <= a \/ a + len l <= x -> mval (mwrite m a l) x n = mval m x n.
Proof. intros. unfold mval. by rewrite mread_mwrite_out. Qed.

(** Writing next to what was just written extends it. *)
Lemma mwrite_app m a l1 l2 : mwrite m a (l1 ++ l2) = mwrite (mwrite m a l1) (a + len l1) l2.
Proof.
  revert m a. induction l1 as [|b l1 IH]; intros m a; cbn [mwrite app].
  - by rewrite len_nil, Z.add_0_r.
  - rewrite IH, len_cons. f_equal. lia.
Qed.

(** A field inside what is read. *)
Lemma mread_sub m a n l k j :
  mread m a n = l -> (k + j <= n)%nat -> mread m (a + Z.of_nat k) j = take j (drop k l).
Proof.
  intros <- Hk. replace n with (k + (j + (n - k - j)))%nat by lia.
  rewrite mread_app, drop_app_length' by (by rewrite length_mread).
  by rewrite mread_app, take_app_length' by (by rewrite length_mread).
Qed.

Lemma mread_at m a n l x k j :
  mread m a n = l -> x = a + Z.of_nat k -> (k + j <= n)%nat -> mread m x j = take j (drop k l).
Proof. intros Hm -> Hk. by apply (mread_sub m a n). Qed.

Lemma mread_zeros m a n x k :
  a <= x -> x + Z.of_nat k <= a + n -> mread (mwrite m a (zeros n)) x k = replicate k 0.
Proof.
  intros Hx Hk. replace x with (a + Z.of_nat (Z.to_nat (x - a))) by lia.
  rewrite (mread_sub _ a (Z.to_nat n) (zeros n)); [|apply mread_mwrite_same; unfold zeros; by rewrite length_replicate|lia].
  unfold zeros. rewrite drop_replicate, take_replicate. f_equal. lia.
Qed.

(** The page boundary [dma_alloc] returns. *)
Lemma page_up x : 0 <= x -> x <= Z.land (x + 4095) (Z.lnot 4095) <= x + 4095 /\
  Z.land (x + 4095) (Z.lnot 4095) mod 4096 = 0.
Proof.
  intros Hx. change (Z.lnot 4095) with (- 2 ^ 12).
  assert (E : Z.land (x + 4095) (- 2 ^ 12) = (x + 4095) / 4096 * 4096).
  { change (- 2 ^ 12) with (Z.lnot (Z.ones 12)).
    rewrite <- Z.ldiff_land, Z.ldiff_ones_r by lia. rewrite Z.shiftl_mul_pow2, Z.shiftr_div_pow2 by lia. done. }
  rewrite E. pose proof (Z.div_mod (x + 4095) 4096). pose proof (Z.mod_pos_bound (x + 4095) 4096).
  split; [lia|]. by apply Z.mod_mul.
Qed.
