(* ===== verification/Virtio.v ===== *)
(** * The VirtIO-MMIO block driver (kernel/drivers/block/virtio_blk.py)

    [VirtioMmioBlk]: probing of a slot, the descriptor table, the available
    and used rings of virtqueue 0, [read_sector] and [write_sector], and the
    scan of the slots.  The driver's fields and the machine are one state.
    [fuel] bounds the polls of the completion loop, which has no bound in the
    source. *)

From Stdlib Require Import ZArith Lia.
From stdpp Require Import base list gmap numbers.
From S2P Require Import Prelude Bytes Hw.

Local Open Scope Z_scope.

Definition VIRTIO_MMIO_BASE : Z := 0x0a000000.
Definition VIRTIO_MMIO_STRIDE : Z := 0x200.
Definition VIRTIO_MMIO_DEVS : Z := 32.
Definition VIRTIO_MAGIC : Z := 0x74726976.
Definition VIRTIO_DEV_BLK : Z := 2.
Definition VRING_DESC_F_NEXT : Z := 1.
Definition VRING_DESC_F_WRITE : Z := 2.
Definition PAGE_SIZE : Z := 4096.
Definition QUEUE_SIZE : Z := 16.
Definition STATUS_ACK : Z := 1.
Definition STATUS_DRIVER : Z := 2.
Definition STATUS_FEATURES : Z := 8.
Definition STATUS_DRIVER_OK : Z := 4.
Definition VIRTIO_BLK_T_IN : Z := 0.
Definition VIRTIO_BLK_T_OUT : Z := 1.

Record VirtioMmioBlk : Type := mkMmio {
  m_base : Z; m_version : Z; m_num_sectors : Z;
  m_desc_phys : Z; m_avail_phys : Z; m_used_phys : Z;
  m_next_desc : Z; m_avail_idx : Z; m_last_used : Z;
}.

Definition VirtioMmioBlk_init (base : Z) : VirtioMmioBlk := mkMmio base 0 0 0 0 0 0 0 0.

Definition set_version (v : Z) (s : VirtioMmioBlk) : VirtioMmioBlk :=
  mkMmio (m_base s) v (m_num_sectors s) (m_desc_phys s) (m_avail_phys s) (m_used_phys s)
    (m_next_desc s) (m_avail_idx s) (m_last_used s).
Definition set_num_sectors (n : Z) (s : VirtioMmioBlk) : VirtioMmioBlk :=
  mkMmio (m_base s) (m_version s) n (m_desc_phys s) (m_avail_phys s) (m_used_phys s)
    (m_next_desc s) (m_avail_idx s) (m_last_used s).
Definition set_queue (desc avail used : Z) (s : VirtioMmioBlk) : VirtioMmioBlk :=
  mkMmio (m_base s) (m_version s) (m_num_sectors s) desc avail used
    (m_next_desc s) (m_avail_idx s) (m_last_used s).
Definition set_next_desc (n : Z) (s : VirtioMmioBlk) : VirtioMmioBlk :=
  mkMmio (m_base s) (m_version s) (m_num_sectors s) (m_desc_phys s) (m_avail_phys s) (m_used_phys s)
    n (m_avail_idx s) (m_last_used s).
Definition set_avail_idx (n : Z) (s : VirtioMmioBlk) : VirtioMmioBlk :=
  mkMmio (m_base s) (m_version s) (m_num_sectors s) (m_desc_phys s) (m_avail_phys s) (m_used_phys s)
    (m_next_desc s) n (m_last_used s).
Definition set_last_used (n : Z) (s : VirtioMmioBlk) : VirtioMmioBlk :=
  mkMmio (m_base s) (m_version s) (m_num_sectors s) (m_desc_phys s) (m_avail_phys s) (m_used_phys s)
    (m_next_desc s) (m_avail_idx s) n.

(** ** Words of a sector *)

(** [range(0, 512, 4)] *)
Definition word_offsets : list Z := map (fun k => 4 * k) (range 128).

(** [data[i] | (data[i+1] << 8) | (data[i+2] << 16) | (data[i+3] << 24)] *)
Definition word_at (data : bytes) (i : Z) : result Z :=
  let? b0 := index data i in
  let? b1 := index data (i + 1) in
  let? b2 := index data (i + 2) in
  let? b3 := index data (i + 3) in
  Ok (Z.lor (Z.lor (Z.lor b0 (Z.shiftl b1 8)) (Z.shiftl b2 16)) (Z.shiftl b3 24)).

(** [result[i..i+3]] from a word. *)
Definition word_bytes (w : Z) : bytes :=
  [Z.land w 0xFF; Z.land (Z.shiftr w 8) 0xFF; Z.land (Z.shiftr w 16) 0xFF; Z.land (Z.shiftr w 24) 0xFF].

(** ** What both transports write in memory *)

Section dma.
Context {Dv : Type} `{Machine Dv}.

(** The 16-byte request header. *)
Definition write_header (hdr op lba : Z) : M (Hw Dv) unit :=
  mmio_write32 (hdr + 0) op ;;;
  mmio_write32 (hdr + 4) 0 ;;;
  mmio_write32 (hdr + 8) (Z.land lba 0xFFFFFFFF) ;;;
  mmio_write32 (hdr + 12) (Z.land (Z.shiftr lba 32) 0xFFFFFFFF).

Definition copy_out (data_phys : Z) (data : bytes) : M (Hw Dv) unit :=
  for_each word_offsets (fun i =>
    let! w := lift (word_at data i) in mmio_write32 (data_phys + i) w).

Definition copy_in (data_phys : Z) : M (Hw Dv) bytes :=
  let! ws := map_m word_offsets (fun i =>
    let! w := mmio_read32 (data_phys + i) in ret (word_bytes w)) in
  ret (concat ws).

Definition desc_write (base addr length flags nxt : Z) : M (Hw Dv) unit :=
  mmio_write32 (base + 0) (Z.land addr 0xFFFFFFFF) ;;;
  mmio_write32 (base + 4) (Z.land (Z.shiftr addr 32) 0xFFFFFFFF) ;;;
  mmio_write32 (base + 8) length ;;;
  mmio_write32 (base + 12) (Z.lor (Z.land flags 0xFFFF) (Z.shiftl (Z.land nxt 0xFFFF) 16)).

Definition write16 (a v : Z) : M (Hw Dv) unit :=
  mmio_write8 a (Z.land v 0xFF) ;;; mmio_write8 (a + 1) (Z.land (Z.shiftr v 8) 0xFF).

(** The buffers of a request: the header, the data, which [fill] writes for a
    request that sends data, and the status byte. *)
Definition buffers (op lba : Z) (fill : Z -> M (Hw Dv) unit) : M (Hw Dv) (Z * Z * Z) :=
  let! hdr := dma_alloc 16 in
  write_header hdr op lba ;;;
  let! data_phys := dma_alloc 512 in
  fill data_phys ;;;
  let! stat_phys := dma_alloc 4 in
  ret (hdr, data_phys, stat_phys).
End dma.

(** ** The driver *)

Section driver.
Context {Dv : Type} `{Machine Dv}.

Definition mmio_st : Type := VirtioMmioBlk * Hw Dv.
Abbreviation io := (M mmio_st).

Definition on_hw {A} (m : M (Hw Dv) A) : io A := zoom snd (fun h s => (fst s, h)) m.
Definition self {A} (f : VirtioMmioBlk -> A) : io A := gets (fun s => f (fst s)).
Definition self_set (f : VirtioMmioBlk -> VirtioMmioBlk) : io unit := modify (fun s => (f (fst s), snd s)).

Definition _r32 (off : Z) : io Z := let! b := self m_base in on_hw (mmio_read32 (b + off)).
Definition _w32 (off v : Z) : io unit := let! b := self m_base in on_hw (mmio_write32 (b + off) v).
Definition _w8 (addr v : Z) : io unit := on_hw (mmio_write8 addr v).

Definition _status (s : Z) : io unit := _w32 0x070 s.

(** The features of a legacy and of a modern device. *)
Definition negotiate (version : Z) : io unit :=
  if version =? 1 then _w32 0x028 PAGE_SIZE ;;; _w32 0x020 0
  else _w32 0x024 0 ;;; _w32 0x020 0 ;;; _w32 0x024 1 ;;; _w32 0x020 0.

Definition desc_sz : Z := QUEUE_SIZE * 16.
Definition avail_sz : Z := 4 + QUEUE_SIZE * 2 + 2.
Definition used_off : Z := Z.land (desc_sz + avail_sz + PAGE_SIZE - 1) (Z.lnot (PAGE_SIZE - 1)).
Definition used_sz : Z := 4 + QUEUE_SIZE * 8 + 2.

Definition setup_queue : io unit :=
  _w32 0x030 0 ;;;
  _w32 0x038 QUEUE_SIZE ;;;
  let! raw := on_hw (dma_alloc (used_off + used_sz + PAGE_SIZE)) in
  let base_phys := Z.land (raw + PAGE_SIZE - 1) (Z.lnot (PAGE_SIZE - 1)) in
  self_set (set_queue base_phys (base_phys + desc_sz) (base_phys + used_off)) ;;;
  let! version := self m_version in
  let! avail := self m_avail_phys in
  let! used := self m_used_phys in
  if version =? 1 then
    _w32 0x03C PAGE_SIZE ;;; _w32 0x040 (Z.shiftr base_phys 12)
  else
    _w32 0x080 (Z.land base_phys 0xFFFFFFFF) ;;;
    _w32 0x084 (Z.land (Z.shiftr base_phys 32) 0xFFFFFFFF) ;;;
    _w32 0x090 (Z.land avail 0xFFFFFFFF) ;;;
    _w32 0x094 (Z.land (Z.shiftr avail 32) 0xFFFFFFFF) ;;;
    _w32 0x0A0 (Z.land used 0xFFFFFFFF) ;;;
    _w32 0x0A4 (Z.land (Z.shiftr used 32) 0xFFFFFFFF) ;;;
    _w32 0x044 1.

Definition probe : io bool :=
  let! magic := _r32 0x000 in
  if negb (magic =? VIRTIO_MAGIC) then ret false else
  let! version := _r32 0x004 in
  let! dev_id := _r32 0x008 in
  if negb ((version =? 1) || (version =? 2)) then ret false else
  if negb (dev_id =? VIRTIO_DEV_BLK) then ret false else
  self_set (set_version version) ;;;
  _status 0 ;;;
  _status STATUS_ACK ;;;
  _status (Z.lor STATUS_ACK STATUS_DRIVER) ;;;
  negotiate version ;;;
  _status (Z.lor (Z.lor STATUS_ACK STATUS_DRIVER) STATUS_FEATURES) ;;;
  let! cap_lo := _r32 0x100 in
  let! cap_hi := _r32 0x104 in
  self_set (set_num_sectors (Z.lor cap_lo (Z.shiftl cap_hi 32))) ;;;
  setup_queue ;;;
  _status (Z.lor (Z.lor (Z.lor STATUS_ACK STATUS_DRIVER) STATUS_FEATURES) STATUS_DRIVER_OK) ;;;
  ret true.

Definition _write_desc (idx addr length flags nxt : Z) : io unit :=
  let! d := self m_desc_phys in on_hw (desc_write (d + idx * 16) addr length flags nxt).

Definition _avail_push (head : Z) : io unit :=
  let! ai := self m_avail_idx in
  let! av := self m_avail_phys in
  on_hw (write16 (av + 4 + ai mod QUEUE_SIZE * 2) head) ;;;
  self_set (set_avail_idx (ai + 1)) ;;;
  on_hw (write16 (av + 2) (ai + 1)).

Definition _used_idx : io Z :=
  let! u := self m_used_phys in
  let! w := on_hw (mmio_read32 u) in
  ret (Z.land (Z.shiftr w 16) 0xFFFF).

Definition _used_pop : io (Z * Z) :=
  let! u := self m_used_phys in
  let! lu := self m_last_used in
  let ring := u + 4 + lu mod QUEUE_SIZE * 8 in
  let! desc_id := on_hw (mmio_read32 ring) in
  let! length := on_hw (mmio_read32 (ring + 4)) in
  self_set (set_last_used (lu + 1)) ;;;
  ret (desc_id, length).

(** [d = self._next_desc; self._next_desc = (self._next_desc + 1) % QUEUE_SIZE] *)
Definition take_desc : io Z :=
  let! d := self m_next_desc in
  self_set (set_next_desc ((d + 1) mod QUEUE_SIZE)) ;;;
  ret d.

Fixpoint poll (fuel : nat) (target : Z) : io unit :=
  let! u := _used_idx in
  if u =? target then ret tt else
  match fuel with
  | O => raise RuntimeError
  | S fuel => on_hw sleep ;;; poll fuel target
  end.

(** From the descriptors to the completion, as in both operations. *)
Definition publish (hdr data_phys stat_phys data_flags : Z) : io unit :=
  let! d0 := take_desc in
  let! d1 := take_desc in
  let! d2 := take_desc in
  _write_desc d0 hdr 16 VRING_DESC_F_NEXT d1 ;;;
  _write_desc d1 data_phys 512 data_flags d2 ;;;
  _write_desc d2 stat_phys 1 VRING_DESC_F_WRITE 0 ;;;
  _avail_push d0.

Definition request (fuel : nat) (hdr data_phys stat_phys data_flags : Z) : io unit :=
  publish hdr data_phys stat_phys data_flags ;;;
  _w32 0x050 0 ;;;
  let! lu := self m_last_used in
  poll fuel (Z.land (lu + 1) 0xFFFF) ;;;
  let! _ := _used_pop in
  ret tt.

Definition read_sector (fuel : nat) (lba : Z) : io bytes :=
  let! (hdr, data_phys, stat_phys) := on_hw (buffers VIRTIO_BLK_T_IN lba (fun _ => ret tt)) in
  request fuel hdr data_phys stat_phys (Z.lor VRING_DESC_F_WRITE VRING_DESC_F_NEXT) ;;;
  on_hw (copy_in data_phys).

Definition write_sector (fuel : nat) (lba : Z) (data : bytes) : io unit :=
  if negb (len data =? 512) then raise ValueError else
  let! (hdr, data_phys, stat_phys) :=
    on_hw (buffers VIRTIO_BLK_T_OUT lba (fun data_phys => copy_out data_phys data)) in
  request fuel hdr data_phys stat_phys VRING_DESC_F_NEXT.
End driver.

(** ** The scan of the slots *)

Section find.
Context {Dv : Type} `{Machine Dv}.

Fixpoint scan_slots (slots : list Z) : M (Hw Dv) (option VirtioMmioBlk) :=
  match slots with
  | [] => ret None
  | i :: slots' => fun h =>
      match probe (VirtioMmioBlk_init (VIRTIO_MMIO_BASE + i * VIRTIO_MMIO_STRIDE), h) with
      | (Ok true, (dev, h')) => (Ok (Some dev), h')
      | (Ok false, (_, h')) => scan_slots slots' h'
      | (Err e, (_, h')) => (Err e, h')
      end
  end.
Definition _find_virtio_mmio_blk : M (Hw Dv) (option VirtioMmioBlk) := scan_slots (range VIRTIO_MMIO_DEVS).
End find.
