(* ===== verification/VirtioSpec.v ===== *)
(** * What the block drivers rely on

    The C library's [calloc] and a block device that follows the VirtIO
    standard, as classes of laws over a [Machine]: how a device reads a
    request chain off the rings, what it does to serve it, and that it serves
    a request it was notified of within a bounded number of its turns.  The
    abstract disk the drivers implement is at the end. *)

From Stdlib Require Import ZArith Lia.
From stdpp Require Import base list gmap numbers.
From S2P Require Import Prelude Bytes Hw Virtio.

Local Open Scope Z_scope.

(** ** The allocator (C11 7.22.3.2) *)

Definition apart (b1 b2 : Z * Z) : Prop := b1.1 + b1.2 <= b2.1 \/ b2.1 + b2.2 <= b1.1.

Class CallocLaws (Dv : Type) `{Machine Dv} : Prop := {
  calloc_block al n p : 0 < n -> calloc al n = Some p ->
    0 < p /\ p + n <= 2 ^ 64 /\ Forall (apart (p, n)) al;
  calloc_ram al n p a : calloc al n = Some p -> p <= a < p + n -> dev_claims a = false;
}.

(** ** A split virtqueue (VirtIO 1.1, 2.6) *)

Record Vq : Type := mkVq { q_num : Z; q_desc : Z; q_avail : Z; q_used : Z }.

Record Desc : Type := mkDesc { d_addr : Z; d_len : Z; d_flags : Z; d_next : Z }.

Definition desc_at (m : mem) (q : Vq) (i : Z) : Desc :=
  let b := q_desc q + i * 16 in
  mkDesc (mval m b 8) (mval m (b + 8) 4) (mval m (b + 12) 2) (mval m (b + 14) 2).

Definition avail_index (m : mem) (q : Vq) : Z := mval m (q_avail q + 2) 2.
Definition avail_head (m : mem) (q : Vq) (c : Z) : Z := mval m (q_avail q + 4 + c mod q_num q * 2) 2.

(** ** A block request (5.2.6): header, data and status descriptors *)

Record Req : Type := mkReq { r_op : Z; r_sector : Z; r_data : Z; r_stat : Z; r_head : Z }.

Definition chain (m : mem) (q : Vq) (c : Z) : option Req :=
  let head := avail_head m q c in
  let d0 := desc_at m q head in
  let d1 := desc_at m q (d_next d0) in
  let d2 := desc_at m q (d_next d1) in
  let op := mval m (d_addr d0) 4 in
  if (d_len d0 =? 16) && (d_flags d0 =? VRING_DESC_F_NEXT) && (d_len d1 =? 512)
     && (d_flags d1 =? (if op =? VIRTIO_BLK_T_IN then 3 else 1)) && (d_len d2 =? 1)
     && (d_flags d2 =? VRING_DESC_F_WRITE) && ((op =? VIRTIO_BLK_T_IN) || (op =? VIRTIO_BLK_T_OUT))
  then Some (mkReq op (mval m (d_addr d0 + 8) 8) (d_addr d1) (d_addr d2) head)
  else None.

(** The device serves a request: the data, the status byte (0 is success, 1 an
    I/O error), the entry of the used ring and its index. *)
Definition in_disk (cap : Z) (rq : Req) : bool := r_sector rq <? cap.
Definition serve_mem (q : Vq) (c cap : Z) (disk : Z -> bytes) (rq : Req) (m : mem) : mem :=
  let rdok := in_disk cap rq && (r_op rq =? VIRTIO_BLK_T_IN) in
  let m := if rdok then mwrite m (r_data rq) (disk (r_sector rq)) else m in
  let m := mwrite m (r_stat rq) [if in_disk cap rq then 0 else 1] in
  let m := mwrite m (q_used q + 4 + c mod q_num q * 8)
             (le_bytes 4 (r_head rq) ++ le_bytes 4 (if rdok then 513 else 1)) in
  mwrite m (q_used q + 2) (le_bytes 2 (c + 1)).
Definition serve_disk (cap : Z) (disk : Z -> bytes) (rq : Req) (m : mem) : Z -> bytes :=
  if in_disk cap rq && (r_op rq =? VIRTIO_BLK_T_OUT)
  then fun l => if l =? r_sector rq then map (fun b => b mod 256) (mread m (r_data rq) 512) else disk l
  else disk.

(** ** The device *)

Class VirtioDisk (Dv : Type) `{Machine Dv} : Type := {
  vq : Dv -> option Vq;          (* queue 0 once it is live *)
  cursor : Dv -> Z;              (* requests taken off the available ring, 16 bits *)
  disk : Dv -> Z -> bytes;
  capacity : Dv -> Z;
  patience : Dv -> nat;          (* turns left before it serves *)
  latency : nat;
  doorbell : Z;
}.

Section serve.
Context {Dv : Type} `{VirtioDisk Dv}.

(** One turn of a device with one request [rq] outstanding: it is not done
    yet, or it serves it. *)
Definition turn (q : Vq) (rq : Req) (d : Dv) (m : mem) (d' : Dv) (m' : mem) : Prop :=
  vq d' = Some q /\ capacity d' = capacity d /\
  ((m' = m /\ cursor d' = cursor d /\ (forall l, disk d' l = disk d l) /\ (patience d' < patience d)%nat) \/
   (m' = serve_mem q (cursor d) (capacity d) (disk d) rq m /\ cursor d' = (cursor d + 1) mod 65536 /\
    (forall l, disk d' l = serve_disk (capacity d) (disk d) rq m l))).

Definition outstanding (q : Vq) (rq : Req) (d : Dv) (m : mem) : Prop :=
  vq d = Some q /\ avail_index m q = (cursor d + 1) mod 65536 /\ chain m q (cursor d) = Some rq.
End serve.

Class VirtioLaws (Dv : Type) `{VirtioDisk Dv} : Prop := {
  cursor_range d : 0 <= cursor d < 65536;
  disk_sectors d l : 0 <= l < capacity d -> len (disk d l) = 512 /\ bytes_ok (disk d l);
  capacity_range d : capacity d < 2 ^ 63;
  patience_bound d : (patience d <= latency)%nat;
  doorbell_claimed : dev_claims doorbell = true;
  run_law q rq d m d' m' : outstanding q rq d m -> dev_run d m = (d', m') -> turn q rq d m d' m';
  bell_law q rq d m d' m' : outstanding q rq d m -> dev_write doorbell 0 d m = (d', m') -> turn q rq d m d' m';
}.

(** ** The abstract disk *)

Inductive sector_op : Type := OpRead (lba : Z) | OpWrite (lba : Z) (data : bytes).

Definition op_in (cap : Z) (o : sector_op) : Prop :=
  match o with
  | OpRead l => 0 <= l < cap
  | OpWrite l data => 0 <= l < cap /\ len data = 512 /\ bytes_ok data
  end.

Definition upd (dk : Z -> bytes) (l : Z) (data : bytes) : Z -> bytes := fun x => if x =? l then data else dk x.

(** The answers of the reads, in order, and the disk left behind. *)
Fixpoint spec_run (ops : list sector_op) (dk : Z -> bytes) : list bytes * (Z -> bytes) :=
  match ops with
  | [] => ([], dk)
  | OpRead l :: ops' => let (rs, dk') := spec_run ops' dk in (dk l :: rs, dk')
  | OpWrite l data :: ops' => spec_run ops' (upd dk l data)
  end.
