(* ===== verification/VirtioMem.v ===== *)
(** * The request in memory, and the rings between requests

    What the accesses of the block drivers leave in memory, and that a device
    reads the request back off the rings: a chain of header, data and status
    descriptors published in the available ring.  [ring_inv]: the virtqueue
    between two requests, which driver and device agree on.  A request the
    device serves leaves the used ring one further and the data where the
    driver looks for it. *)

From Stdlib Require Import ZArith Lia.
From stdpp Require Import base list gmap numbers.
From S2P Require Import Prelude Bytes Hw Virtio VirtioSpec.

Local Open Scope Z_scope.

(** ** Little-endian words *)

Lemma le_bytes_app n k v : le_bytes (n + k) v = le_bytes n v ++ le_bytes k (v / 256 ^ Z.of_nat n).
Proof.
  revert v. induction n as [|n IH]; intros v; cbn [le_bytes Nat.add app].
  - by rewrite Z.div_1_r.
  - rewrite IH. rewrite pow256_succ, Z.div_div by lia. done.
Qed.

Lemma le_bytes_mod n v : le_bytes n (v mod 256 ^ Z.of_nat n) = le_bytes n v.
Proof.
  revert v. induction n as [|n IH]; intros v; cbn [le_bytes]; [done|].
  rewrite pow256_succ. assert (0 < 256 ^ Z.of_nat n) by (apply Z.pow_pos_nonneg; lia).
  rewrite Z.rem_mul_r by lia. f_equal.
  - rewrite Z.mul_comm, Z.mod_add by lia. by rewrite Z.mod_mod by lia.
  - rewrite Z.mul_comm, Z.div_add by lia.
    rewrite (Z.div_small (v mod 256)) by (apply Z.mod_pos_bound; lia). apply IH.
Qed.

Lemma le_val_le_bytes_mod n v : le_val (le_bytes n v) = v mod 256 ^ Z.of_nat n.
Proof.
  rewrite <- le_bytes_mod. apply le_val_le_bytes. apply Z.mod_pos_bound, Z.pow_pos_nonneg; lia.
Qed.

Lemma le_bytes_land1 v : le_bytes 1 (Z.land v 0xFF) = le_bytes 1 v.
Proof. change 0xFF with (2 ^ 8 - 1). rewrite land_mask by lia. apply (le_bytes_mod 1). Qed.
Lemma le_bytes_land4 v : le_bytes 4 (Z.land v 0xFFFFFFFF) = le_bytes 4 v.
Proof. change 0xFFFFFFFF with (2 ^ 32 - 1). rewrite land_mask by lia. apply (le_bytes_mod 4). Qed.

Lemma le_bytes_16 v : le_bytes 1 (Z.land v 0xFF) ++ le_bytes 1 (Z.land (Z.shiftr v 8) 0xFF) = le_bytes 2 v.
Proof.
  rewrite !le_bytes_land1. change 2%nat with (1 + 1)%nat. rewrite (le_bytes_app 1 1).
  by rewrite Z.shiftr_div_pow2 by lia.
Qed.
Lemma le_bytes_64 v :
  le_bytes 4 (Z.land v 0xFFFFFFFF) ++ le_bytes 4 (Z.land (Z.shiftr v 32) 0xFFFFFFFF) = le_bytes 8 v.
Proof.
  rewrite !le_bytes_land4. change 8%nat with (4 + 4)%nat. rewrite (le_bytes_app 4 4).
  by rewrite Z.shiftr_div_pow2 by lia.
Qed.

Lemma le_bytes_flags_next f n : 0 <= f < 65536 -> 0 <= n < 65536 ->
  le_bytes 4 (Z.lor (Z.land f 0xFFFF) (Z.shiftl (Z.land n 0xFFFF) 16)) = le_bytes 2 f ++ le_bytes 2 n.
Proof.
  intros Hf Hn. change 0xFFFF with (2 ^ 16 - 1). rewrite !land_mask by lia.
  rewrite !Z.mod_small by lia. rewrite lor_shiftl by lia. change 4%nat with (2 + 2)%nat.
  rewrite (le_bytes_app 2 2). change (256 ^ Z.of_nat 2) with (2 ^ 16). f_equal.
  - rewrite <- le_bytes_mod. change (256 ^ Z.of_nat 2) with (2 ^ 16).
    rewrite (Z.mul_comm (2 ^ 16)), Z.mod_add, Z.mod_small by lia. done.
  - by rewrite (Z.mul_comm (2 ^ 16)), Z.div_add, Z.div_small by lia.
Qed.

(** A word of the buffer is its four bytes. *)
Lemma word_at_bytes data i b0 b1 b2 b3 tl :
  drop (Z.to_nat i) data = b0 :: b1 :: b2 :: b3 :: tl -> 0 <= i -> bytes_ok [b0; b1; b2; b3] ->
  exists w, word_at data i = Ok w /\ le_bytes 4 w = [b0; b1; b2; b3].
Proof.
  intros Hd Hi Hb.
  assert (Hx : forall k b, [b0; b1; b2; b3] !! k = Some b -> index data (i + Z.of_nat k) = Ok b).
  { intros k b Hk. apply index_Ok; [lia|].
    replace (Z.to_nat (i + Z.of_nat k)) with (Z.to_nat i + k)%nat by lia.
    rewrite <- lookup_drop, Hd. do 4 (destruct k as [|k]; [exact Hk|]). done. }
  pose proof (Hx 0%nat b0 eq_refl) as E0. pose proof (Hx 1%nat b1 eq_refl) as E1.
  pose proof (Hx 2%nat b2 eq_refl) as E2. pose proof (Hx 3%nat b3 eq_refl) as E3.
  change (Z.of_nat 1) with 1 in E1. change (Z.of_nat 2) with 2 in E2. change (Z.of_nat 3) with 3 in E3.
  rewrite Z.add_0_r in E0. unfold word_at. rewrite E0, E1, E2, E3. cbn [rbind].
  eexists. split; [done|]. unfold bytes_ok, byte_ok in Hb. rewrite !list.Forall_cons in Hb. destruct Hb as (H0 & H1 & H2 & H3 & _).
  rewrite (lor_shiftl b0 b1 8), (lor_shiftl _ b2 16), (lor_shiftl _ b3 24) by lia.
  replace (b0 + 2 ^ 8 * b1 + 2 ^ 16 * b2 + 2 ^ 24 * b3) with (le_val [b0; b1; b2; b3]) by (cbn [le_val]; lia).
  apply (le_bytes_le_val [b0; b1; b2; b3]). unfold bytes_ok, byte_ok. rewrite !list.Forall_cons, list.Forall_nil. split_and!; (lia || done).
Qed.

Lemma word_bytes_val l : length l = 4%nat -> bytes_ok l -> word_bytes (le_val l) = l.
Proof.
  intros Hl Hb. destruct l as [|b0 [|b1 [|b2 [|b3 [|]]]]]; try done. clear Hl.
  unfold bytes_ok, byte_ok in Hb. rewrite !list.Forall_cons in Hb. destruct Hb as (H0 & H1 & H2 & H3 & _).
  unfold word_bytes. change 0xFF with (2 ^ 8 - 1). rewrite !land_mask, !Z.shiftr_div_pow2 by lia.
  change (2 ^ 8) with 256. change (2 ^ 16) with 65536. change (2 ^ 24) with 16777216.
  cbn [le_val]. repeat f_equal; Z.div_mod_to_equations; lia.
Qed.

(** ** Accesses to memory *)

Definition header (op lba : Z) : bytes := le_bytes 4 op ++ le_bytes 4 0 ++ le_bytes 8 lba.
Definition desc_bytes (addr length flags nxt : Z) : bytes :=
  le_bytes 8 addr ++ le_bytes 4 length ++ le_bytes 2 flags ++ le_bytes 2 nxt.

Section access.
Context {Dv : Type} `{Machine Dv}.
Implicit Type h : Hw Dv.

Definition ram (a n : Z) : Prop := forall x, a <= x < a + n -> dev_claims x = false.
Definition setm h (m : mem) : Hw Dv := mkHw m (h_heap h) (h_dev h).

Lemma ram_sub a n b k : ram a n -> a <= b -> b + k <= a + n -> ram b k.
Proof. intros Hr ?? x ?. apply Hr. lia. Qed.

Lemma setm_setm h m m' : setm (setm h m) m' = setm h m'.
Proof. done. Qed.

Lemma mmio_write_ram n a v h : dev_claims a = false ->
  mmio_write n a v h = (Ok tt, setm h (mwrite (h_mem h) a (le_bytes n v))).
Proof. intros E. unfold mmio_write. by rewrite E. Qed.
Lemma mmio_read_ram a h : dev_claims a = false -> mmio_read32 a h = (Ok (mval (h_mem h) a 4), h).
Proof. intros E. unfold mmio_read32. by rewrite E. Qed.

(** Two adjacent writes are one. *)
Lemma mwrite_next m a l1 l2 b : b = a + len l1 -> mwrite (mwrite m a l1) b l2 = mwrite m a (l1 ++ l2).
Proof. intros ->. by rewrite mwrite_app. Qed.

Ltac ram_step Hr := erewrite bind_step by (apply mmio_write_ram, Hr; lia).
Ltac ram_last Hr := rewrite mmio_write_ram by (apply Hr; lia).

Lemma write16_ram a v h : ram a 2 -> write16 a v h = (Ok tt, setm h (mwrite (h_mem h) a (le_bytes 2 v))).
Proof.
  intros Hr. unfold write16, mmio_write8. ram_step Hr. ram_last Hr.
  rewrite setm_setm. cbn [setm h_mem]. by rewrite mwrite_next, le_bytes_16 by (autorewrite with len; lia).
Qed.

Lemma write_header_ram hdr op lba h : ram hdr 16 ->
  write_header hdr op lba h = (Ok tt, setm h (mwrite (h_mem h) hdr (header op lba))).
Proof.
  intros Hr. unfold write_header, mmio_write32. do 3 ram_step Hr. ram_last Hr.
  rewrite !setm_setm. cbn [setm h_mem]. rewrite Z.add_0_r.
  do 3 rewrite mwrite_next by (autorewrite with len; lia). by rewrite le_bytes_64.
Qed.

Lemma desc_write_ram base addr length flags nxt h :
  ram base 16 -> 0 <= flags < 65536 -> 0 <= nxt < 65536 ->
  desc_write base addr length flags nxt h =
    (Ok tt, setm h (mwrite (h_mem h) base (desc_bytes addr length flags nxt))).
Proof.
  intros Hr Hf Hn. unfold desc_write, mmio_write32. do 3 ram_step Hr. ram_last Hr.
  rewrite !setm_setm. cbn [setm h_mem]. rewrite Z.add_0_r.
  do 3 rewrite mwrite_next by (autorewrite with len; lia).
  rewrite le_bytes_flags_next by done. by rewrite app_assoc, le_bytes_64.
Qed.

Lemma drop_word (data : bytes) k : len data = 512 -> 0 <= k < 128 ->
  exists b0 b1 b2 b3, drop (Z.to_nat (4 * k)) data = b0 :: b1 :: b2 :: b3 :: drop (Z.to_nat (4 * (k + 1))) data.
Proof.
  intros Hl Hk. replace (Z.to_nat (4 * (k + 1))) with (Z.to_nat (4 * k) + 4)%nat by lia. rewrite <- drop_drop.
  assert (Hd : (4 <= length (drop (Z.to_nat (4 * k)) data))%nat) by (rewrite length_drop; unfold len in Hl; lia).
  destruct (drop (Z.to_nat (4 * k)) data) as [|b0 [|b1 [|b2 [|b3 tl]]]]; simpl in Hd; try lia.
  by exists b0, b1, b2, b3.
Qed.

Lemma copy_out_from p data n k h :
  len data = 512 -> bytes_ok data -> ram p 512 -> Z.of_nat n = 128 - k -> 0 <= k ->
  for_each (map (fun k => 4 * k) (range2 k 128))
    (fun i => let! w := lift (word_at data i) in mmio_write32 (p + i) w) h =
  (Ok tt, setm h (mwrite (h_mem h) (p + 4 * k) (drop (Z.to_nat (4 * k)) data))).
Proof.
  intros Hl Hb Hr. revert k h. induction n as [|n IH]; intros k h Hn Hk.
  - rewrite range2_nil by lia. cbn [map for_each]. rewrite drop_ge by (unfold len in Hl; lia). by destruct h.
  - rewrite range2_cons by lia. cbn [map for_each].
    destruct (drop_word data k Hl ltac:(lia)) as (b0 & b1 & b2 & b3 & Hd).
    assert (Hbs : bytes_ok [b0; b1; b2; b3]).
    { apply (Forall_drop _ (Z.to_nat (4 * k))) in Hb. rewrite Hd in Hb.
      rewrite !list.Forall_cons in Hb. unfold bytes_ok. rewrite !list.Forall_cons. naive_solver. }
    destruct (word_at_bytes data (4 * k) b0 b1 b2 b3 _ Hd ltac:(lia) Hbs) as (w & Hw & E4).
    erewrite bind_step.
    2:{ rewrite Hw. unfold bind, lift. apply mmio_write_ram, Hr. lia. }
    rewrite IH by lia. rewrite setm_setm. cbn [setm h_mem]. rewrite E4, Hd.
    rewrite mwrite_next by (rewrite !len_cons, len_nil; lia). done.
Qed.

Lemma copy_out_ram p data h : len data = 512 -> bytes_ok data -> ram p 512 ->
  copy_out p data h = (Ok tt, setm h (mwrite (h_mem h) p data)).
Proof.
  intros Hl Hb Hr. unfold copy_out, word_offsets, range.
  rewrite (copy_out_from p data 128 0) by (done || lia). by rewrite Z.add_0_r.
Qed.

Lemma copy_in_from p n k h :
  bytes_ok (mread (h_mem h) (p + 4 * k) (4 * n)) -> ram p 512 -> Z.of_nat n = 128 - k -> 0 <= k ->
  exists ws, map_m (map (fun k => 4 * k) (range2 k 128))
    (fun i => let! w := mmio_read32 (p + i) in ret (word_bytes w)) h = (Ok ws, h) /\
    concat ws = mread (h_mem h) (p + 4 * k) (4 * n).
Proof.
  intros Hb Hr. revert k Hb. induction n as [|n IH]; intros k Hb Hn Hk.
  - rewrite range2_nil by lia. by exists [].
  - rewrite range2_cons by lia. cbn [map map_m].
    replace (4 * S n)%nat with (4 + 4 * n)%nat in * by lia. rewrite mread_app in *.
    apply Forall_app in Hb as [Hb1 Hb2].
    replace (p + 4 * k + Z.of_nat 4) with (p + 4 * (k + 1)) in * by lia.
    destruct (IH (k + 1) Hb2 ltac:(lia) ltac:(lia)) as (ws & Hws & Hc).
    exists (mread (h_mem h) (p + 4 * k) 4 :: ws). split; [|simpl; by rewrite Hc].
    erewrite bind_step; [by erewrite bind_step by exact Hws|].
    erewrite bind_step by (apply mmio_read_ram, Hr; lia). unfold mval, ret.
    by rewrite word_bytes_val by (done || apply length_mread).
Qed.

Lemma copy_in_ram p h : bytes_ok (mread (h_mem h) p 512) -> ram p 512 ->
  copy_in p h = (Ok (mread (h_mem h) p 512), h).
Proof.
  intros Hb Hr. unfold copy_in, word_offsets, range.
  destruct (copy_in_from p 128 0 h) as (ws & E & Hc); [by rewrite Z.add_0_r|done|lia|lia|].
  rewrite (bind_step _ _ _ _ _ E). unfold ret. rewrite Hc. by rewrite Z.add_0_r.
Qed.
End access.

(** ** A request in the rings *)

Record queue_fit (q : Vq) : Prop := {
  qf_num : 3 <= q_num q <= 32768;
  qf_wrap : (q_num q | 65536);
  qf_avail : q_desc q + 16 * q_num q <= q_avail q;
  qf_used : q_avail q + 6 + 2 * q_num q <= q_used q;
}.

Definition push_mem (q : Vq) (ai d0 d1 d2 hdr data stat flags : Z) (m : mem) : mem :=
  let m := mwrite m (q_desc q + d0 * 16) (desc_bytes hdr 16 VRING_DESC_F_NEXT d1) in
  let m := mwrite m (q_desc q + d1 * 16) (desc_bytes data 512 flags d2) in
  let m := mwrite m (q_desc q + d2 * 16) (desc_bytes stat 1 VRING_DESC_F_WRITE 0) in
  let m := mwrite m (q_avail q + 4 + ai mod q_num q * 2) (le_bytes 2 d0) in
  mwrite m (q_avail q + 2) (le_bytes 2 (ai + 1)).

Lemma len_desc_bytes a l f n : len (desc_bytes a l f n) = 16.
Proof. unfold desc_bytes. by autorewrite with len. Qed.
Lemma len_header op lba : len (header op lba) = 16.
Proof. unfold header. by autorewrite with len. Qed.

Lemma desc_at_bytes m q i a l f n :
  mread m (q_desc q + i * 16) 16 = desc_bytes a l f n ->
  0 <= a < 2 ^ 64 -> 0 <= l < 2 ^ 32 -> 0 <= f < 65536 -> 0 <= n < 65536 ->
  desc_at m q i = mkDesc a l f n.
Proof.
  intros Hm Ha Hl Hf Hn. unfold desc_at, mval. set (b := q_desc q + i * 16) in *.
  rewrite (mread_at m b 16 _ b 0 8 Hm), (mread_at m b 16 _ (b + 8) 8 4 Hm) by lia.
  rewrite (mread_at m b 16 _ (b + 12) 12 2 Hm), (mread_at m b 16 _ (b + 14) 14 2 Hm) by lia.
  change (take 8 (drop 0 (desc_bytes a l f n))) with (le_bytes 8 a).
  change (take 4 (drop 8 (desc_bytes a l f n))) with (le_bytes 4 l).
  change (take 2 (drop 12 (desc_bytes a l f n))) with (le_bytes 2 f).
  change (take 2 (drop 14 (desc_bytes a l f n))) with (le_bytes 2 n).
  by rewrite !le_val_le_bytes.
Qed.

Lemma header_fields m hdr op lba : mread m hdr 16 = header op lba ->
  0 <= op < 2 ^ 32 -> 0 <= lba < 2 ^ 64 -> mval m hdr 4 = op /\ mval m (hdr + 8) 8 = lba.
Proof.
  intros Hm Ho Hl. unfold mval.
  rewrite (mread_at m hdr 16 _ hdr 0 4 Hm), (mread_at m hdr 16 _ (hdr + 8) 8 8 Hm) by lia.
  change (take 4 (drop 0 (header op lba))) with (le_bytes 4 op).
  change (take 8 (drop 8 (header op lba))) with (le_bytes 8 lba). by rewrite !le_val_le_bytes.
Qed.

Section push.
Context (q : Vq) (ai d0 d1 d2 hdr data stat flags : Z) (m : mem).
Context (Hq : queue_fit q) (H0 : 0 <= d0 < q_num q) (H1 : 0 <= d1 < q_num q) (H2 : 0 <= d2 < q_num q).
Context (H01 : d0 <> d1) (H12 : d1 <> d2) (H02 : d0 <> d2).
Abbreviation pushed := (push_mem q ai d0 d1 d2 hdr data stat flags m).

Lemma slot_bound : 0 <= ai mod q_num q < q_num q.
Proof. apply Z.mod_pos_bound. destruct Hq. lia. Qed.

Lemma slot_wrap : (ai mod 65536) mod q_num q = ai mod q_num q.
Proof.
  destruct Hq as [Hn [k Hk] _ _]. rewrite Hk. rewrite (Z.mul_comm k), Z.rem_mul_r by nia.
  rewrite Z.mul_comm, Z.mod_add by lia. apply Z.mod_mod. lia.
Qed.

Ltac clear_of := rewrite mread_mwrite_out by (rewrite ?len_desc_bytes, ?len_le_bytes; pose proof slot_bound; destruct Hq; lia).
Ltac found := apply mread_mwrite_same; done.

Lemma push_outside x n :
  x + Z.of_nat n <= q_desc q \/ q_avail q + 6 + 2 * q_num q <= x -> mread pushed x n = mread m x n.
Proof. intros Hx. unfold push_mem. do 5 clear_of. done. Qed.

Lemma push_descs :
  mread pushed (q_desc q + d0 * 16) 16 = desc_bytes hdr 16 VRING_DESC_F_NEXT d1 /\
  mread pushed (q_desc q + d1 * 16) 16 = desc_bytes data 512 flags d2 /\
  mread pushed (q_desc q + d2 * 16) 16 = desc_bytes stat 1 VRING_DESC_F_WRITE 0.
Proof.
  unfold push_mem. split_and!.
  - do 4 clear_of. found.
  - do 3 clear_of. found.
  - do 2 clear_of. found.
Qed.

Lemma push_avail :
  mread pushed (q_avail q + 4 + ai mod q_num q * 2) 2 = le_bytes 2 d0 /\
  mread pushed (q_avail q + 2) 2 = le_bytes 2 (ai + 1).
Proof. unfold push_mem. split; [clear_of; found|found]. Qed.

Lemma push_index : avail_index pushed q = (ai mod 65536 + 1) mod 65536.
Proof.
  unfold avail_index, mval. rewrite (proj2 push_avail), le_val_le_bytes_mod.
  change (256 ^ Z.of_nat 2) with 65536. by rewrite Z.add_mod_idemp_l by lia.
Qed.

(** The device finds the request the driver wrote. *)
Lemma push_chain op lba :
  mread m hdr 16 = header op lba -> hdr + 16 <= q_desc q \/ q_avail q + 6 + 2 * q_num q <= hdr ->
  0 <= hdr < 2 ^ 64 -> 0 <= data < 2 ^ 64 -> 0 <= stat < 2 ^ 64 -> 0 <= lba < 2 ^ 64 ->
  (op = VIRTIO_BLK_T_IN /\ flags = 3) \/ (op = VIRTIO_BLK_T_OUT /\ flags = 1) ->
  chain pushed q (ai mod 65536) = Some (mkReq op lba data stat d0).
Proof.
  intros Hh Hout Hhr Hdr Hsr Hlba Hop. pose proof (qf_num q Hq) as Hn.
  assert (Hhead : avail_head pushed q (ai mod 65536) = d0).
  { unfold avail_head, mval. rewrite slot_wrap, (proj1 push_avail). apply le_val_le_bytes. simpl. lia. }
  destruct push_descs as (E0 & E1 & E2).
  pose proof (push_outside hdr 16 Hout) as Eh. rewrite Hh in Eh.
  destruct (header_fields pushed hdr op lba Eh) as [Eop Elba]; [unfold VIRTIO_BLK_T_IN, VIRTIO_BLK_T_OUT in Hop; lia|done|].
  unfold chain. rewrite Hhead.
  rewrite (desc_at_bytes pushed q d0 hdr 16 VRING_DESC_F_NEXT d1) by (done || unfold VRING_DESC_F_NEXT; lia). cbn [d_next].
  rewrite (desc_at_bytes pushed q d1 data 512 flags d2) by (done || lia). cbn [d_next].
  rewrite (desc_at_bytes pushed q d2 stat 1 VRING_DESC_F_WRITE 0) by (done || unfold VRING_DESC_F_WRITE; lia).
  cbn [d_addr d_len d_flags]. rewrite Eop, Elba. by destruct Hop as [[-> ->]|[-> ->]].
Qed.
End push.

(** Where the queue ends, and a region outside of it. *)
Definition q_end (q : Vq) : Z := q_used q + 4 + 8 * q_num q.
Definition beside (q : Vq) (a n : Z) : Prop := a + n <= q_desc q \/ q_end q <= a.

Section ring.
Context {Dv : Type} `{VirtioDisk Dv} `{!VirtioLaws Dv} `{!CallocLaws Dv}.
Implicit Type h : Hw Dv.

(** The used ring's flags and index. *)
Definition used_at (q : Vq) (c : Z) (m : mem) : Prop := mread m (q_used q) 4 = [0; 0] ++ le_bytes 2 c.

Record ring_inv (q : Vq) (blk : Z * Z) (ai lu nd : Z) h : Prop := {
  ri_fit : queue_fit q;
  ri_vq : vq (h_dev h) = Some q;
  ri_cursor : cursor (h_dev h) = ai mod 65536;
  ri_last : lu mod 65536 = ai mod 65536;
  ri_next : 0 <= nd < q_num q;
  ri_used : used_at q ai (h_mem h);
  ri_heap : blk ∈ h_heap h;
  ri_in : blk.1 <= q_desc q /\ q_end q <= blk.1 + blk.2;
  ri_ram : ram blk.1 blk.2;
}.

Lemma queue_fit_end q : queue_fit q -> q_desc q + 16 * q_num q + 6 + 2 * q_num q <= q_used q /\ q_used q + 28 <= q_end q.
Proof. intros [? _ ? ?]. unfold q_end. lia. Qed.

Lemma used_index q c m : used_at q c m -> Z.land (Z.shiftr (mval m (q_used q) 4) 16) 0xFFFF = c mod 65536.
Proof.
  intros Hu. unfold mval. rewrite Hu. cbn [app le_val].
  replace (0 + 256 * (0 + 256 * le_val (le_bytes 2 c))) with (le_val (le_bytes 2 c) * 2 ^ 16) by lia.
  rewrite Z.shiftr_div_pow2, Z.div_mul by lia. rewrite le_val_le_bytes_mod.
  change 0xFFFF with (2 ^ 16 - 1). rewrite land_mask by lia. by rewrite Z.mod_mod by lia.
Qed.

(** ** What the device leaves in memory *)

Section served.
Context (q : Vq) (rq : Req) (ai cap : Z) (dk : Z -> bytes) (m : mem).
Context (Hq : queue_fit q) (Hdata : beside q (r_data rq) 512) (Hstat : beside q (r_stat rq) 1).
Context (Hdk : in_disk cap rq = true -> len (dk (r_sector rq)) = 512).
Abbreviation after := (serve_mem q (ai mod 65536) cap dk rq m).

Lemma serve_used : used_at q ai m -> used_at q (ai + 1) after.
Proof.
  intros Hu. unfold used_at, serve_mem. set (w := le_bytes 4 (r_head rq) ++ _). cbn zeta.
  assert (Hw : len w = 8) by (unfold w; by autorewrite with len).
  pose proof (Z.mod_pos_bound (ai mod 65536) (q_num q)) as Hslot. destruct (queue_fit_end q Hq). pose proof (qf_num q Hq).
  unfold beside in *. set (m1 := if _ && _ then _ else m).
  assert (E1 : mread m1 (q_used q) 2 = [0; 0]).
  { pose proof (mread_at m (q_used q) 4 _ (q_used q) 0 2 Hu ltac:(lia) ltac:(lia)) as E.
    change (take 2 (drop 0 ([0; 0] ++ le_bytes 2 ai))) with [0; 0] in E.
    unfold m1. destruct (in_disk cap rq) eqn:Ed; [|exact E]. destruct (r_op rq =? VIRTIO_BLK_T_IN); [|exact E].
    cbn [andb]. rewrite mread_mwrite_out by (rewrite (Hdk eq_refl); lia). exact E. }
  change 4%nat with (2 + 2)%nat. rewrite mread_app. f_equal.
  - rewrite !mread_mwrite_out; [exact E1|..]; rewrite ?len_le_bytes, ?Hw, ?len_cons, ?len_nil; lia.
  - rewrite mread_mwrite_same by done. rewrite <- (le_bytes_mod 2 (ai mod 65536 + 1)), <- (le_bytes_mod 2 (ai + 1)).
    change (256 ^ Z.of_nat 2) with 65536. by rewrite Z.add_mod_idemp_l by lia.
Qed.

(** A read puts the sector where the data descriptor says. *)
Lemma serve_data : in_disk cap rq = true -> r_op rq = VIRTIO_BLK_T_IN ->
  r_stat rq + 1 <= r_data rq \/ r_data rq + 512 <= r_stat rq ->
  mread after (r_data rq) 512 = dk (r_sector rq).
Proof.
  intros Hin Hop Hd. unfold serve_mem. rewrite Hin, Hop. cbn [andb Z.eqb VIRTIO_BLK_T_IN].
  pose proof (Z.mod_pos_bound (ai mod 65536) (q_num q)) as Hslot. destruct (queue_fit_end q Hq). pose proof (qf_num q Hq).
  unfold beside in *. unfold q_end in *. pose proof (Hdk Hin) as Hl.
  rewrite !mread_mwrite_out by (autorewrite with len; lia). apply mread_mwrite_same. unfold len in Hl. lia.
Qed.
End served.

(** The device has served the request. *)
Record served (q : Vq) (rq : Req) (ai : Z) h h' : Prop := {
  sv_heap : h_heap h' = h_heap h;
  sv_mem : h_mem h' = serve_mem q (ai mod 65536) (capacity (h_dev h)) (disk (h_dev h)) rq (h_mem h);
  sv_vq : vq (h_dev h') = Some q;
  sv_cursor : cursor (h_dev h') = (ai + 1) mod 65536;
  sv_capacity : capacity (h_dev h') = capacity (h_dev h);
  sv_disk l : disk (h_dev h') l = serve_disk (capacity (h_dev h)) (disk (h_dev h)) rq (h_mem h) l;
}.

Lemma sector_len rq h : 0 <= r_sector rq -> in_disk (capacity (h_dev h)) rq = true -> len (disk (h_dev h) (r_sector rq)) = 512.
Proof. intros Hp Hi. apply disk_sectors. unfold in_disk in Hi. lia. Qed.

(** The turn in which the device serves, and the turns before it. *)
Lemma turn_served q rq ai h d : cursor (h_dev h) = ai mod 65536 -> vq d = Some q -> capacity d = capacity (h_dev h) ->
  cursor d = (cursor (h_dev h) + 1) mod 65536 ->
  (forall l, disk d l = serve_disk (capacity (h_dev h)) (disk (h_dev h)) rq (h_mem h) l) ->
  served q rq ai h (mkHw (serve_mem q (cursor (h_dev h)) (capacity (h_dev h)) (disk (h_dev h)) rq (h_mem h)) (h_heap h) d).
Proof.
  intros Hc ?? Hc' ?. rewrite Hc in *. constructor; cbn [h_heap h_mem h_dev]; try done.
  by rewrite Hc', Z.add_mod_idemp_l by lia.
Qed.
Lemma served_idle q rq ai m hp d0 d h' :
  capacity d = capacity d0 -> (forall l, disk d l = disk d0 l) ->
  served q rq ai (mkHw m hp d) h' -> served q rq ai (mkHw m hp d0) h'.
Proof.
  intros Hcap Hd' [S1 S2 S3 S4 S5 S6]. cbn [h_heap h_mem h_dev] in *.
  constructor; cbn [h_heap h_mem h_dev]; try done; [|congruence|].
  - rewrite S2. unfold serve_mem. by rewrite Hcap, Hd'.
  - intros l. rewrite S6. unfold serve_disk. rewrite Hcap. case_match; [case_match; [done|]|]; apply Hd'.
Qed.

(** The index the driver waits for, which is not the one before it. *)
Lemma target_mod ai : Z.land (ai + 1) 0xFFFF = (ai + 1) mod 65536.
Proof. apply (land_mask _ 16). lia. Qed.
Lemma target_later ai : (ai mod 65536 =? Z.land (ai + 1) 0xFFFF) = false.
Proof. rewrite target_mod. apply Z.eqb_neq. Z.div_mod_to_equations. lia. Qed.

(** Between requests again. *)
Lemma served_ring q blk rq ai lu nd nd' h h' :
  ring_inv q blk ai lu nd h -> served q rq ai h h' -> 0 <= nd' < q_num q ->
  0 <= r_sector rq -> beside q (r_data rq) 512 -> beside q (r_stat rq) 1 ->
  ring_inv q blk (ai + 1) (lu + 1) nd' h'.
Proof.
  intros [] [] Hn Hs Hd Ht. constructor; try done.
  - rewrite (Z.add_mod lu), (Z.add_mod ai) by lia. congruence.
  - rewrite sv_mem0. apply serve_used; try done. by apply sector_len.
  - by rewrite sv_heap0.
Qed.

(** Only the low 16 bits of the indices matter. *)
Lemma ring_inv_mod q blk ai lu ai' lu' nd h : ai' mod 65536 = ai mod 65536 -> lu' mod 65536 = lu mod 65536 ->
  ring_inv q blk ai lu nd h -> ring_inv q blk ai' lu' nd h.
Proof.
  intros Ha Hl [Hfit Hvq Hc Hlast Hn Hu Hheap Hin Hram]. constructor; try done; [congruence|congruence|].
  unfold used_at in *. rewrite Hu. f_equal. rewrite <- (le_bytes_mod 2 ai), <- (le_bytes_mod 2 ai').
  change (256 ^ Z.of_nat 2) with 65536. congruence.
Qed.
End ring.
