(* ===== verification/VirtioProps.v ===== *)
(** * The VirtIO-MMIO driver implements a disk

    Against an allocator and a device that keep their laws, the driver's
    [read_sector] and [write_sector] answer as an array of sectors does, for
    any number of requests: through the wrap of the 16-bit ring indices and
    whatever number of turns the device takes. *)

From Stdlib Require Import ZArith Lia.
From stdpp Require Import base list gmap numbers.
From S2P Require Import Prelude Bytes Hw Virtio VirtioSpec VirtioMem.

Local Open Scope Z_scope.

Section alloc.
Context {Dv : Type} `{Machine Dv} `{!CallocLaws Dv}.
Implicit Type h : Hw Dv.

(** A region inside a block. *)
Definition within (b : Z * Z) (x n : Z) : Prop := b.1 <= x /\ x + n <= b.1 + b.2.

(** [dma_alloc] gives a zeroed region of its own and leaves the blocks given
    out before it as they are. *)
Record fresh (h : Hw Dv) (p size : Z) (h' : Hw Dv) : Prop := {
  fr_block : exists b, h_heap h' = b :: h_heap h /\ within b p size /\ calloc (h_heap h) b.2 = Some b.1;
  fr_dev : h_dev h' = h_dev h;
  fr_range : 0 < p /\ p + size <= 2 ^ 64;
  fr_ram : ram p size;
  fr_apart b : b ∈ h_heap h -> apart (p, size) b;
  fr_keep b x n : b ∈ h_heap h -> within b x (Z.of_nat n) -> mread (h_mem h') x n = mread (h_mem h) x n;
  fr_zero : mread (h_mem h') p (Z.to_nat size) = zeros size;
}.

Lemma dma_alloc_fresh size h : 0 < size ->
  dma_alloc size h = (Err MemoryError, h) \/
  exists p h', dma_alloc size h = (Ok p, h') /\ fresh h p size h'.
Proof.
  intros Hs. unfold dma_alloc. destruct (calloc (h_heap h) (size + 4096)) as [raw|] eqn:Hc; [right|by left].
  destruct (calloc_block (h_heap h) (size + 4096) raw ltac:(lia) Hc) as (Hp & He & Hap).
  destruct (page_up raw ltac:(lia)) as [Hpg _]. set (p := Z.land (raw + 4095) (Z.lnot 4095)) in *.
  eexists p, _. split; [done|]. rewrite list.Forall_forall in Hap.
  split; cbn [h_heap h_dev h_mem]; [| done | lia | | | | ].
  - eexists. split_and!; [done| |done]. unfold within. simpl. lia.
  - intros x Hx. apply (calloc_ram _ _ _ x Hc). lia.
  - intros b Hb. specialize (Hap b Hb). unfold apart in *. simpl in *. lia.
  - intros b x n Hb Hx. specialize (Hap b Hb). unfold apart, within in *. simpl in *.
    apply mread_mwrite_out. rewrite len_zeros by lia. lia.
  - rewrite mread_zeros by lia. done.
Qed.
End alloc.

Lemma map_mod_bytes l : bytes_ok l -> map (fun b => b mod 256) l = l.
Proof. induction 1 as [|b l Hb Hl IH]; [done|]. cbn [map]. rewrite IH. f_equal. by apply Z.mod_small. Qed.

Section buffers.
Context {Dv : Type} `{VirtioDisk Dv} `{!VirtioLaws Dv} `{!CallocLaws Dv}.
Implicit Type h : Hw Dv.

(** The queue is left alone by what is written outside of its block. *)
Lemma ring_fresh q blk ai lu nd h p size h' :
  ring_inv q blk ai lu nd h -> fresh h p size h' -> ring_inv q blk ai lu nd h' /\ beside q p size.
Proof.
  intros [Hfit Hvq Hc Hlast Hn Hu Hheap Hin Hram] [(b & Eb & _) Hdev _ _ Hap Hkeep _].
  destruct (queue_fit_end q Hfit). pose proof (qf_num q Hfit). split.
  - constructor; rewrite ?Hdev, ?Eb; try done.
    + unfold used_at. rewrite (Hkeep blk); [done|done|]. unfold within. lia.
    + by apply list_elem_of_further.
  - specialize (Hap blk Hheap). unfold apart, beside in *. simpl in *. lia.
Qed.

Lemma ring_mwrite q blk ai lu nd h p l :
  ring_inv q blk ai lu nd h -> beside q p (len l) -> ring_inv q blk ai lu nd (setm h (mwrite (h_mem h) p l)).
Proof.
  intros [Hfit Hvq Hc Hlast Hn Hu Hheap Hin Hram] Hb. destruct (queue_fit_end q Hfit). pose proof (qf_num q Hfit).
  constructor; try done. cbn [setm h_mem]. unfold used_at. rewrite mread_mwrite_out; [done|]. unfold beside in Hb. lia.
Qed.

Record ready (q : Vq) (op lba : Z) (payload : bytes) (hdr data stat : Z) (h' : Hw Dv) : Prop := {
  rd_hdr : mread (h_mem h') hdr 16 = header op lba;
  rd_data : mread (h_mem h') data (length payload) = payload;
  rd_beside : beside q hdr 16 /\ beside q data 512 /\ beside q stat 1;
  rd_range : 0 <= hdr < 2 ^ 64 /\ 0 <= data < 2 ^ 64 /\ 0 <= stat < 2 ^ 64;
  rd_apart : (stat + 1 <= data \/ data + 512 <= stat) /\ (stat + 1 <= hdr \/ hdr + 16 <= stat);
  rd_ram : ram data 512 /\ ram stat 1;
}.

(** The buffers are ready for the device, or memory ran out. *)
Lemma buffers_ready q blk ai lu nd h op lba fill payload :
  ring_inv q blk ai lu nd h -> len payload <= 512 ->
  (forall p h, ram p 512 -> fill p h = (Ok tt, setm h (mwrite (h_mem h) p payload))) ->
  exists h', ring_inv q blk ai lu nd h' /\ h_dev h' = h_dev h /\
    (buffers op lba fill h = (Err MemoryError, h') \/
     exists hdr data stat, buffers op lba fill h = (Ok (hdr, data, stat), h') /\ ready q op lba payload hdr data stat h').
Proof.
  intros Hi Hl Hfill. unfold buffers.
  destruct (dma_alloc_fresh 16 h ltac:(lia)) as [E1|(hdr & h1 & E1 & F1)].
  { exists h. split_and!; try done. left. by apply bind_fail. }
  destruct (ring_fresh _ _ _ _ _ _ _ _ _ Hi F1) as [I1 B1]. rewrite (bind_step _ _ _ _ _ E1).
  erewrite bind_step by (apply write_header_ram, (fr_ram _ _ _ _ F1)).
  set (h2 := setm h1 (mwrite (h_mem h1) hdr (header op lba))).
  assert (I2 : ring_inv q blk ai lu nd h2) by (apply ring_mwrite; [done|by rewrite len_header]).
  destruct (fr_block _ _ _ _ F1) as (b1 & Hb1 & W1 & _).
  destruct (dma_alloc_fresh 512 h2 ltac:(lia)) as [E3|(data & h3 & E3 & F3)].
  { exists h2. split_and!; [done|apply F1|]. left. by apply bind_fail. }
  destruct (ring_fresh _ _ _ _ _ _ _ _ _ I2 F3) as [I3 B3]. rewrite (bind_step _ _ _ _ _ E3).
  erewrite bind_step by (apply Hfill, (fr_ram _ _ _ _ F3)).
  set (h4 := setm h3 (mwrite (h_mem h3) data payload)).
  assert (I4 : ring_inv q blk ai lu nd h4).
  { apply ring_mwrite; [done|]. pose proof (len_nonneg payload). unfold beside in *. lia. }
  destruct (fr_block _ _ _ _ F3) as (b3 & Hb3 & W3 & _).
  assert (D4 : h_dev h4 = h_dev h) by (etrans; [apply F3|apply F1]).
  destruct (dma_alloc_fresh 4 h4 ltac:(lia)) as [E5|(stat & h5 & E5 & F5)].
  { exists h4. split_and!; [done..|]. left. by apply bind_fail. }
  destruct (ring_fresh _ _ _ _ _ _ _ _ _ I4 F5) as [I5 B5]. rewrite (bind_step _ _ _ _ _ E5).
  exists h5. split_and!; [done|by rewrite (fr_dev _ _ _ _ F5)|]. right. exists hdr, data, stat. split; [done|].
  assert (M1 : b1 ∈ h_heap h2) by (cbn [h2 setm h_heap]; rewrite Hb1; apply list_elem_of_here).
  assert (M3 : b3 ∈ h_heap h4 /\ b1 ∈ h_heap h4).
  { cbn [h4 setm h_heap]. rewrite Hb3. split; [apply list_elem_of_here|by apply list_elem_of_further]. }
  pose proof (fr_apart _ _ _ _ F3 b1 M1) as A31. pose proof (fr_apart _ _ _ _ F5 b3 (proj1 M3)) as A53.
  pose proof (fr_apart _ _ _ _ F5 b1 (proj2 M3)) as A51. pose proof (fr_range _ _ _ _ F1). pose proof (fr_range _ _ _ _ F3). pose proof (fr_range _ _ _ _ F5).
  unfold apart, within, beside in *. cbn [fst snd] in *. constructor.
  - rewrite (fr_keep _ _ _ _ F5 b1) by (apply M3 || (unfold within; lia)). cbn [h4 setm h_mem].
    rewrite mread_mwrite_out by lia. rewrite (fr_keep _ _ _ _ F3 b1) by (done || (unfold within; lia)).
    by apply mread_mwrite_same.
  - rewrite (fr_keep _ _ _ _ F5 b3) by (apply M3 || (unfold within, len in *; lia)). by apply mread_mwrite_same.
  - unfold beside. lia.
  - lia.
  - lia.
  - split; [apply F3|]. eapply ram_sub; [apply F5|lia..].
Qed.

(** A byte written to the status cell. *)
Lemma ready_stamp q op lba payload hdr data stat h v : len payload <= 512 ->
  ready q op lba payload hdr data stat h ->
  ready q op lba payload hdr data stat (setm h (mwrite (h_mem h) stat (le_bytes 1 v))).
Proof.
  intros Hp [R1 R2 R3 R4 [R5 R5'] R6]. constructor; try done; cbn [setm h_mem].
  - rewrite mread_mwrite_out; [done|]. rewrite len_le_bytes. lia.
  - rewrite mread_mwrite_out; [done|]. rewrite len_le_bytes. unfold len in Hp. lia.
Qed.

(** What a served request did: a read found the sector, a write replaced it. *)
Lemma served_effect q rq ai h m1 h' cap dk payload :
  queue_fit q -> capacity (h_dev h) = cap -> (forall l, disk (h_dev h) l = dk l) -> 0 <= r_sector rq < cap ->
  beside q (r_data rq) 512 -> beside q (r_stat rq) 1 -> r_stat rq + 1 <= r_data rq \/ r_data rq + 512 <= r_stat rq ->
  mread m1 (r_data rq) (length payload) = payload -> served q rq ai (setm h m1) h' ->
  (r_op rq = VIRTIO_BLK_T_IN -> mread (h_mem h') (r_data rq) 512 = dk (r_sector rq) /\ forall l, disk (h_dev h') l = dk l) /\
  (r_op rq = VIRTIO_BLK_T_OUT -> len payload = 512 -> bytes_ok payload ->
     forall l, disk (h_dev h') l = upd dk (r_sector rq) payload l).
Proof.
  intros Hq Hcap Hdk Hsec B2 B3 Rap R2 [_ Sm _ _ _ Sd]. cbn [setm h_dev h_mem] in *. rewrite Hcap in *.
  assert (Hin : in_disk cap rq = true) by (unfold in_disk; lia). split.
  - intros Eop. split.
    + rewrite Sm, <- Hdk. apply serve_data; try done. intros _. apply disk_sectors. lia.
    + intros l. rewrite Sd. unfold serve_disk. rewrite Hin, Eop. apply Hdk.
  - intros Eop Hpl Hok l. rewrite Sd. unfold serve_disk, upd. rewrite Hin, Eop. cbn [andb VIRTIO_BLK_T_OUT Z.eqb Pos.eqb].
    destruct (l =? r_sector rq); [|apply Hdk].
    replace 512%nat with (length payload) by (unfold len in Hpl; lia). rewrite R2. by apply map_mod_bytes.
Qed.
End buffers.

Section driver.
Context {Dv : Type} `{VirtioDisk Dv} `{!VirtioLaws Dv} `{!CallocLaws Dv}.
Implicit Types (h : Hw Dv) (drv : VirtioMmioBlk).

(** ** Running the driver's code *)

Lemma bind_self {A B} (f : VirtioMmioBlk -> A) (k : A -> M (mmio_st (Dv := Dv)) B) drv h :
  bind (self f) k (drv, h) = k (f drv) (drv, h).
Proof. done. Qed.
Lemma bind_set {B} f (k : unit -> M (mmio_st (Dv := Dv)) B) drv h :
  bind (self_set f) k (drv, h) = k tt (f drv, h).
Proof. done. Qed.
Lemma on_hw_eq {A} (m : M (Hw Dv) A) drv h r h' : m h = (r, h') -> on_hw m (drv, h) = (r, (drv, h')).
Proof. intros E. unfold on_hw, zoom. simpl. by rewrite E. Qed.
Lemma bind_hw {A B} (m : M (Hw Dv) A) (k : A -> M (mmio_st (Dv := Dv)) B) drv h a h' :
  m h = (Ok a, h') -> bind (on_hw m) k (drv, h) = k a (drv, h').
Proof. intros E. apply bind_step. by apply on_hw_eq. Qed.

Definition the_queue drv : Vq := mkVq QUEUE_SIZE (m_desc_phys drv) (m_avail_phys drv) (m_used_phys drv).

Record mmio_inv (blk : Z * Z) drv h : Prop := {
  mi_ring : ring_inv (the_queue drv) blk (m_avail_idx drv) (m_last_used drv) (m_next_desc drv) h;
  mi_bell : doorbell = m_base drv + 0x050;
}.

(** ** Completion *)

Lemma used_idx_eq drv h c :
  dev_claims (m_used_phys drv) = false -> used_at (the_queue drv) c (h_mem h) ->
  _used_idx (drv, h) = (Ok (c mod 65536), (drv, h)).
Proof.
  intros Hr Hu. unfold _used_idx. rewrite bind_self. erewrite bind_hw by (by apply mmio_read_ram).
  unfold ret. by rewrite <- (used_index _ _ _ Hu).
Qed.

Section poll.
Context (drv : VirtioMmioBlk) (rq : Req) (ai : Z).
Abbreviation q := (the_queue drv).
Context (Hq : queue_fit q) (Hdata : beside q (r_data rq) 512) (Hstat : beside q (r_stat rq) 1).
Context (Hram : dev_claims (m_used_phys drv) = false).

Lemma poll_served fuel h h' : 0 <= r_sector rq -> used_at q ai (h_mem h) -> served q rq ai h h' ->
  poll fuel (Z.land (ai + 1) 0xFFFF) (drv, h') = (Ok tt, (drv, h')).
Proof.
  intros Hp Hu [_ Hm _ _ _ _].
  assert (E : _used_idx (drv, h') = (Ok ((ai + 1) mod 65536), (drv, h'))).
  { apply used_idx_eq; [done|]. rewrite Hm. apply serve_used; try done. by apply sector_len. }
  rewrite target_mod. destruct fuel; cbn [poll]; rewrite (bind_step _ _ _ _ _ E); by rewrite Z.eqb_refl.
Qed.

(** A turn of the device that was handed the request, and the polls after it. *)
Lemma poll_turn fuel h d m :
  0 <= r_sector rq -> cursor (h_dev h) = ai mod 65536 -> used_at q ai (h_mem h) ->
  outstanding q rq (h_dev h) (h_mem h) -> turn q rq (h_dev h) (h_mem h) d m -> (patience (h_dev h) <= fuel)%nat ->
  exists h', poll fuel (Z.land (ai + 1) 0xFFFF) (drv, mkHw m (h_heap h) d) = (Ok tt, (drv, h')) /\ served q rq ai h h'.
Proof.
  revert h d m. induction fuel as [|fuel IH]; intros h d m Hp Hc Hu Ho (Hv & Hcap & Ht) Hf;
    destruct Ht as [(-> & Hc' & Hd' & Hlt)|(-> & Hc' & Hd')]; try lia.
  - eexists. split; [eapply poll_served; [done|exact Hu|]|]; by apply turn_served.
  - destruct h as [m0 hp d0]. cbn [h_heap h_mem h_dev] in *.
    assert (Ho' : outstanding q rq d m0) by (destruct Ho as (_ & ? & ?); unfold outstanding; by rewrite Hc').
    destruct (dev_run d m0) as [d2 m2] eqn:Er.
    destruct (IH (mkHw m0 hp d) d2 m2) as (h' & Hpoll & Hs); cbn [h_heap h_mem h_dev]; try done; [congruence|by apply run_law|lia|].
    exists h'. split; [|by apply (served_idle q rq ai m0 hp d0 d)].
    cbn [poll]. erewrite bind_step by (apply used_idx_eq; [done|exact Hu]). rewrite target_later.
    erewrite bind_hw; [exact Hpoll|]. unfold sleep. cbn [h_heap h_mem h_dev]. by rewrite Er.
  - eexists. split; [eapply poll_served; [done|exact Hu|]|]; by apply turn_served.
Qed.
End poll.

(** ** A request from the descriptors to the completion *)

Lemma write_desc_eq drv h idx addr length flags nxt :
  ram (m_desc_phys drv + idx * 16) 16 -> 0 <= flags < 65536 -> 0 <= nxt < 65536 ->
  _write_desc idx addr length flags nxt (drv, h) =
    (Ok tt, (drv, setm h (mwrite (h_mem h) (m_desc_phys drv + idx * 16) (desc_bytes addr length flags nxt)))).
Proof. intros. unfold _write_desc. rewrite bind_self. by apply on_hw_eq, desc_write_ram. Qed.

Lemma avail_push_eq drv h head : ram (m_avail_phys drv) (6 + 2 * QUEUE_SIZE) ->
  _avail_push head (drv, h) =
    (Ok tt, (set_avail_idx (m_avail_idx drv + 1) drv,
             setm h (mwrite (mwrite (h_mem h) (m_avail_phys drv + 4 + m_avail_idx drv mod QUEUE_SIZE * 2) (le_bytes 2 head))
                       (m_avail_phys drv + 2) (le_bytes 2 (m_avail_idx drv + 1))))).
Proof.
  intros Hr. pose proof (Z.mod_pos_bound (m_avail_idx drv) QUEUE_SIZE eq_refl).
  unfold _avail_push, QUEUE_SIZE in *. rewrite !bind_self.
  erewrite bind_hw by (apply write16_ram; eapply ram_sub; [exact Hr|lia..]). rewrite bind_set.
  by erewrite on_hw_eq by (apply write16_ram; eapply ram_sub; [exact Hr|lia..]).
Qed.

Lemma used_pop_eq drv h : ram (m_used_phys drv) (4 + 8 * QUEUE_SIZE) ->
  exists x, _used_pop (drv, h) = (Ok x, (set_last_used (m_last_used drv + 1) drv, h)).
Proof.
  intros Hr. pose proof (Z.mod_pos_bound (m_last_used drv) QUEUE_SIZE eq_refl).
  unfold _used_pop, QUEUE_SIZE in *. rewrite !bind_self.
  erewrite bind_hw by (apply mmio_read_ram, Hr; lia).
  erewrite bind_hw by (apply mmio_read_ram, Hr; lia). rewrite bind_set. by eexists.
Qed.

Definition desc_after (d : Z) : Z := (d + 1) mod QUEUE_SIZE.
Definition publish_drv drv : VirtioMmioBlk :=
  set_avail_idx (m_avail_idx drv + 1)
    (set_next_desc (desc_after (desc_after (desc_after (m_next_desc drv)))) drv).
Definition request_drv drv : VirtioMmioBlk := set_last_used (m_last_used drv + 1) (publish_drv drv).
Definition publish_mem drv (hdr data stat flags : Z) (m : mem) : mem :=
  let d1 := desc_after (m_next_desc drv) in
  push_mem (the_queue drv) (m_avail_idx drv) (m_next_desc drv) d1 (desc_after d1) hdr data stat flags m.

Lemma desc_after_distinct d : 0 <= d < QUEUE_SIZE ->
  0 <= desc_after d < QUEUE_SIZE /\ 0 <= desc_after (desc_after d) < QUEUE_SIZE /\
  d <> desc_after d /\ desc_after d <> desc_after (desc_after d) /\ d <> desc_after (desc_after d).
Proof. unfold desc_after, QUEUE_SIZE. intros Hd. Z.div_mod_to_equations. lia. Qed.

Lemma bind_take {B} (k : Z -> M (mmio_st (Dv := Dv)) B) drv h :
  bind take_desc k (drv, h) = k (m_next_desc drv) (set_next_desc (desc_after (m_next_desc drv)) drv, h).
Proof. done. Qed.

Lemma publish_eq drv h hdr data stat flags :
  queue_fit (the_queue drv) -> ram (m_desc_phys drv) (q_end (the_queue drv) - m_desc_phys drv) ->
  0 <= m_next_desc drv < QUEUE_SIZE -> 0 <= flags < 65536 ->
  publish hdr data stat flags (drv, h) =
    (Ok tt, (publish_drv drv, setm h (publish_mem drv hdr data stat flags (h_mem h)))).
Proof.
  intros Hq Hr Hn Hf. destruct (desc_after_distinct _ Hn) as (N1 & N2 & _).
  pose proof (qf_avail _ Hq) as Q1. pose proof (qf_used _ Hq) as Q2. unfold q_end in Hr.
  cbn [the_queue q_desc q_avail q_used q_num] in *. assert (HQ : QUEUE_SIZE = 16) by done.
  assert (Hd : forall d, 0 <= d < QUEUE_SIZE -> ram (m_desc_phys drv + d * 16) 16).
  { intros d Hd. eapply ram_sub; [exact Hr|lia..]. }
  unfold publish. rewrite !bind_take. cbn [set_next_desc m_next_desc].
  erewrite bind_step by (apply write_desc_eq; [by apply Hd|unfold VRING_DESC_F_NEXT; lia|lia]).
  erewrite bind_step by (apply write_desc_eq; [by apply Hd|lia|lia]).
  erewrite bind_step by (apply write_desc_eq; [by apply Hd|unfold VRING_DESC_F_WRITE; lia|lia]).
  apply avail_push_eq. cbn [set_next_desc m_avail_phys]. eapply ram_sub; [exact Hr|lia..].
Qed.

Lemma request_served fuel blk drv h hdr data stat flags op lba :
  let q := the_queue drv in
  let m1 := publish_mem drv hdr data stat flags (h_mem h) in
  let rq := mkReq op lba data stat (m_next_desc drv) in
  mmio_inv blk drv h -> mread (h_mem h) hdr 16 = header op lba ->
  beside q hdr 16 -> beside q data 512 -> beside q stat 1 ->
  0 <= hdr < 2 ^ 64 -> 0 <= data < 2 ^ 64 -> 0 <= stat < 2 ^ 64 -> 0 <= lba < 2 ^ 64 ->
  (op = VIRTIO_BLK_T_IN /\ flags = 3) \/ (op = VIRTIO_BLK_T_OUT /\ flags = 1) ->
  (latency <= fuel)%nat ->
  exists h', request fuel hdr data stat flags (drv, h) = (Ok tt, (request_drv drv, h')) /\
    served (the_queue drv) rq (m_avail_idx drv) (setm h m1) h' /\ mmio_inv blk (request_drv drv) h'.
Proof.
  intros q m1 rq [Hi Hbell] Hh Bh Bd Bs Rh Rd Rs Rl Hop Hfuel. subst q.
  destruct Hi as [Hq Hvq Hcur Hlast Hnext Hused Hheap [Hin1 Hin2] Hram].
  destruct (desc_after_distinct (m_next_desc drv) Hnext) as (N1 & N2 & D1 & D2 & D3).
  pose proof (queue_fit_end (the_queue drv) Hq) as Hend.
  assert (Hr : ram (m_desc_phys drv) (q_end (the_queue drv) - m_desc_phys drv)).
  { eapply ram_sub; [exact Hram|exact Hin1|]. change (m_desc_phys drv) with (q_desc (the_queue drv)). lia. }
  assert (Hu1 : used_at (the_queue drv) (m_avail_idx drv) m1).
  { unfold used_at, m1, publish_mem. rewrite push_outside; try done. right. apply Hq. }
  assert (Ho : outstanding (the_queue drv) rq (h_dev h) m1).
  { split_and!; [done|..]; unfold m1, publish_mem.
    - rewrite push_index by done. by rewrite Hcur.
    - rewrite Hcur. apply push_chain; try done. unfold beside, q_end in Bh. destruct Hq. lia. }
  assert (Hru : dev_claims (m_used_phys drv) = false).
  { apply Hr. change (m_used_phys drv) with (q_used (the_queue drv)). change (m_desc_phys drv) with (q_desc (the_queue drv)).
    pose proof (qf_num (the_queue drv) Hq). lia. }
  destruct (dev_write doorbell 0 (h_dev h) m1) as [d m] eqn:Eb.
  destruct (poll_turn (publish_drv drv) rq (m_avail_idx drv) Hq Bd Bs Hru fuel (setm h m1) d m)
    as (h' & Hpoll & Hs); try done; [apply Rl|by apply (bell_law (the_queue drv) rq)|by etrans; [apply patience_bound|]|].
  exists h'. split_and!; [|done|].
  - unfold request. erewrite bind_step by (apply publish_eq; [done|done|done|lia]).
    unfold _w32. rewrite bind_assoc, bind_self. erewrite bind_hw.
    2:{ unfold mmio_write32, mmio_write. cbn [publish_drv m_base]. change (m_base _) with (m_base drv).
        rewrite <- Hbell, doorbell_claimed. change (0 mod 256 ^ Z.of_nat 4) with 0. cbn [setm h_dev h_mem h_heap]. fold m1. rewrite Eb. reflexivity. }
    rewrite bind_self. change (m_last_used (publish_drv drv)) with (m_last_used drv).
    assert (Et : Z.land (m_last_used drv + 1) 0xFFFF = Z.land (m_avail_idx drv + 1) 0xFFFF).
    { rewrite !target_mod.
      rewrite (Z.add_mod (m_last_used drv)), (Z.add_mod (m_avail_idx drv)) by lia. congruence. }
    rewrite Et, (bind_step _ _ _ _ _ Hpoll).
    destruct (used_pop_eq (publish_drv drv) h') as (x & Ex); [|by rewrite (bind_step _ _ _ _ _ Ex)].
    eapply ram_sub; [exact Hr|..]; change (m_used_phys _) with (q_used (the_queue drv));
      change (m_desc_phys drv) with (q_desc (the_queue drv)); unfold q_end;
      change (q_num (the_queue drv)) with QUEUE_SIZE; pose proof (qf_num _ Hq); lia.
  - constructor; [|done].
    apply (served_ring (the_queue drv) blk rq (m_avail_idx drv) (m_last_used drv) (m_next_desc drv) _ (setm h m1)); try done.
    + by apply Z.mod_pos_bound.
    + apply Rl.
Qed.

(** ** Sectors *)


(** The disk a state of the machine holds is [dk], and the driver is between
    requests. *)
Definition holds (blk : Z * Z) (cap : Z) (dk : Z -> bytes) (s : mmio_st (Dv := Dv)) : Prop :=
  mmio_inv blk (fst s) (snd s) /\ capacity (h_dev (snd s)) = cap /\ forall l, disk (h_dev (snd s)) l = dk l.

Lemma request_io fuel blk cap dk drv h h1 op lba payload hdr data stat flags :
  holds blk cap dk (drv, h) -> 0 <= lba < cap -> (latency <= fuel)%nat -> len payload <= 512 ->
  ring_inv (the_queue drv) blk (m_avail_idx drv) (m_last_used drv) (m_next_desc drv) h1 -> h_dev h1 = h_dev h ->
  ready (the_queue drv) op lba payload hdr data stat h1 ->
  (op = VIRTIO_BLK_T_IN /\ flags = 3) \/ (op = VIRTIO_BLK_T_OUT /\ flags = 1) -> 
  exists h', request fuel hdr data stat flags (drv, h1) = (Ok tt, (request_drv drv, h')) /\
    mmio_inv blk (request_drv drv) h' /\ capacity (h_dev h') = cap /\
    (op = VIRTIO_BLK_T_IN -> mread (h_mem h') data 512 = dk lba /\ forall l, disk (h_dev h') l = dk l) /\
    (op = VIRTIO_BLK_T_OUT -> len payload = 512 -> bytes_ok payload -> forall l, disk (h_dev h') l = upd dk lba payload l).
Proof.
  intros (Hi & Hcap & Hdk) Hlba Hfuel Hlen Hr Hdev [R1 R2 (B1 & B2 & B3) (A1 & A2 & A3) [Rap _] Rram] Hop.
  cbn [fst snd] in *. assert (Hc63 : cap < 2 ^ 63) by (rewrite <- Hcap; apply capacity_range).
  destruct (request_served fuel blk drv h1 hdr data stat flags op lba) as (h' & Eq & Hs & Hinv);
    try done; [by constructor; [done|apply Hi]|lia|].
  exists h'. rewrite <- Hdev in Hcap, Hdk. destruct Hr as [Hq _ _ _ Hn _ _ _ _].
  destruct (desc_after_distinct _ Hn) as (? & ? & ? & ? & ?).
  destruct (fun R => served_effect _ (mkReq op lba data stat (m_next_desc drv)) _ h1 _ h' cap dk payload Hq Hcap Hdk Hlba B2 B3 Rap R Hs) as [E1 E2].
  { unfold publish_mem. rewrite push_outside; try done. unfold len in Hlen. unfold beside, q_end in B2. destruct Hq. cbn [r_data] in *. lia. }
  split_and!; try done. etrans; [apply Hs|exact Hcap].
Qed.

Lemma read_sector_spec fuel blk cap dk s lba :
  holds blk cap dk s -> 0 <= lba < cap -> (latency <= fuel)%nat ->
  exists s', holds blk cap dk s' /\
    (read_sector fuel lba s = (Err MemoryError, s') \/ read_sector fuel lba s = (Ok (dk lba), s')).
Proof.
  destruct s as [drv h]. intros Hh Hlba Hfuel. pose proof Hh as ([Hi Hb] & Hcap & Hdk). cbn [fst snd] in *.
  destruct (buffers_ready (the_queue drv) blk _ _ _ h VIRTIO_BLK_T_IN lba (fun _ => ret tt) [] Hi)
    as (h1 & Hi1 & Hd1 & [Hbuf|(hdr & data & stat & Hbuf & Hrdy)]); [by rewrite len_nil|by intros ? []|..].
  - exists (drv, h1). split; [split_and!; cbn [fst snd]; rewrite ?Hd1; by try constructor|]. left.
    unfold read_sector. by apply bind_fail, on_hw_eq.
  - destruct (request_io fuel blk cap dk drv h h1 VIRTIO_BLK_T_IN lba [] hdr data stat 3)
      as (h' & Er & Hinv & Hc & Hrd & _); try done; [by left|]. destruct (Hrd eq_refl) as [Hm Hd].
    exists (request_drv drv, h'). split; [done|]. right. unfold read_sector.
    rewrite (bind_hw _ _ _ _ _ _ Hbuf). cbn beta iota.
    change (Z.lor VRING_DESC_F_WRITE VRING_DESC_F_NEXT) with 3. rewrite (bind_step _ _ _ _ _ Er).
    rewrite <- Hm. apply on_hw_eq, copy_in_ram; [|apply Hrdy].
    rewrite Hm, <- Hdk. apply disk_sectors. lia.
Qed.

Lemma write_sector_spec fuel blk cap dk s lba data :
  holds blk cap dk s -> 0 <= lba < cap -> len data = 512 -> bytes_ok data -> (latency <= fuel)%nat ->
  exists s', (write_sector fuel lba data s = (Err MemoryError, s') /\ holds blk cap dk s') \/
             (write_sector fuel lba data s = (Ok tt, s') /\ holds blk cap (upd dk lba data) s').
Proof.
  destruct s as [drv h]. intros Hh Hlba Hlen Hok Hfuel. pose proof Hh as ([Hi Hb] & Hcap & Hdk). cbn [fst snd] in *.
  destruct (buffers_ready (the_queue drv) blk _ _ _ h VIRTIO_BLK_T_OUT lba (fun p => copy_out p data) data Hi)
    as (h1 & Hi1 & Hd1 & [Hbuf|(hdr & dp & stat & Hbuf & Hrdy)]); [lia|intros; by apply copy_out_ram|..].
  - exists (drv, h1). left. split; [|split_and!; cbn [fst snd]; rewrite ?Hd1; by try constructor].
    unfold write_sector. rewrite Hlen. by apply bind_fail, on_hw_eq.
  - destruct (request_io fuel blk cap dk drv h h1 VIRTIO_BLK_T_OUT lba data hdr dp stat 1)
      as (h' & Er & Hinv & Hc & _ & Hwr); try done; [lia|by right|].
    exists (request_drv drv, h'). right. split.
    + unfold write_sector. rewrite Hlen. cbn [negb Z.eqb Pos.eqb]. by rewrite (bind_hw _ _ _ _ _ _ Hbuf).
    + split_and!; [done..|]. by apply Hwr.
Qed.

(** A write past the end of the disk: the device answers with an error status,
    which the driver does not look at. *)
Lemma write_past_end fuel blk cap dk s lba data :
  holds blk cap dk s -> 0 <= cap <= lba -> lba < 2 ^ 64 -> len data = 512 -> bytes_ok data -> (latency <= fuel)%nat ->
  exists s', holds blk cap dk s' /\
    (write_sector fuel lba data s = (Err MemoryError, s') \/ write_sector fuel lba data s = (Ok tt, s')).
Proof.
  destruct s as [drv h]. intros Hh Hlba Hmax Hlen Hok Hfuel. pose proof Hh as ([Hi Hb] & Hcap & Hdk). cbn [fst snd] in *.
  destruct (buffers_ready (the_queue drv) blk _ _ _ h VIRTIO_BLK_T_OUT lba (fun p => copy_out p data) data Hi)
    as (h1 & Hi1 & Hd1 & [Hbuf|(hdr & dp & stat & Hbuf & [R1 _ (B1 & B2 & B3) (A1 & A2 & A3) _ _])]);
    [lia|intros; by apply copy_out_ram|..].
  - exists (drv, h1). split; [split_and!; cbn [fst snd]; rewrite ?Hd1; by try constructor|]. left.
    unfold write_sector. rewrite Hlen. by apply bind_fail, on_hw_eq.
  - destruct (request_served fuel blk drv h1 hdr dp stat 1 VIRTIO_BLK_T_OUT lba) as (h' & Eq & Hs & Hinv);
      try done; [lia|by right|]. destruct Hs as [_ _ _ _ Sc Sd]. cbn [setm h_dev] in *. rewrite Hd1, Hcap in *.
    exists (request_drv drv, h'). split.
    + split_and!; [done..|]. intros l. cbn [snd]. rewrite Sd, <- Hdk. unfold serve_disk, in_disk. cbn [r_sector].
      by replace (lba <? cap) with false by lia.
    + right. unfold write_sector. rewrite Hlen. cbn [negb Z.eqb Pos.eqb]. by rewrite (bind_hw _ _ _ _ _ _ Hbuf).
Qed.

(** A sequence of requests, and the answers of its reads. *)
Fixpoint drive (fuel : nat) (ops : list sector_op) : M (mmio_st (Dv := Dv)) (list bytes) :=
  match ops with
  | [] => ret []
  | OpRead l :: ops' => let! b := read_sector fuel l in let! bs := drive fuel ops' in ret (b :: bs)
  | OpWrite l data :: ops' => write_sector fuel l data ;;; drive fuel ops'
  end.

(** C17: any sequence of reads and writes of whole sectors inside the disk
    through the driver answers as the abstract disk does and leaves its
    contents on the device, or ends in a [MemoryError] when the pages for DMA
    buffers run out; with as many polls as the device needs the driver never
    hangs. *)
Theorem virtio_refines_disk fuel blk cap ops dk s :
  holds blk cap dk s -> Forall (op_in cap) ops -> (latency <= fuel)%nat ->
  exists s', (drive fuel ops s = (Ok (spec_run ops dk).1, s') /\ holds blk cap (spec_run ops dk).2 s') \/
             drive fuel ops s = (Err MemoryError, s').
Proof.
  intros Hh Hops Hfuel. revert dk s Hh. induction Hops as [|o ops Ho Hops IH]; intros dk s Hh; cbn [drive spec_run].
  - exists s. by left.
  - destruct o as [l|l data]; cbn [op_in] in Ho.
    + destruct (read_sector_spec fuel blk cap dk s l Hh Ho Hfuel) as (s1 & Hh1 & [E|E]).
      { exists s1. right. by apply bind_fail. }
      rewrite (bind_step _ _ _ _ _ E). destruct (IH dk s1 Hh1) as (s' & [[E' Hh']|E']); exists s'.
      * left. rewrite (bind_step _ _ _ _ _ E'). by destruct (spec_run ops dk).
      * right. by apply bind_fail.
    + destruct Ho as (Hl & Hlen & Hok).
      destruct (write_sector_spec fuel blk cap dk s l data Hh Hl Hlen Hok Hfuel) as (s1 & [[E Hh1]|[E Hh1]]).
      { exists s1. right. by apply bind_fail. }
      rewrite (bind_step _ _ _ _ _ E). apply IH, Hh1.
Qed.
End driver.
