(* ===== verification/VirtioProbe.v ===== *)
(** * Probing a VirtIO-MMIO slot

    The register block of a slot as the standard documents it (VirtIO 1.1,
    4.2.2 and 4.2.4), and that [probe] brings a block device up: the queue the
    device was told of is the one the driver uses, so the requests that follow
    are those of the abstract disk.  At the end, a device that keeps the laws: a
    four-sector disk in slot 0, which takes two turns to answer, and a bump
    allocator. *)

From Stdlib Require Import ZArith Lia.
From stdpp Require Import base list gmap numbers.
From S2P Require Import Prelude Bytes Hw Virtio VirtioSpec VirtioMem VirtioProps.

Local Open Scope Z_scope.

(** ** The registers *)

Definition regw (f : Z -> Z) (off v : Z) : Z -> Z := fun o => if o =? off then v else f o.

(** The registers that hold what was last written to them. *)
Definition plain_regs : list Z :=
  [0x020; 0x024; 0x028; 0x030; 0x038; 0x03C; 0x040; 0x044; 0x070; 0x080; 0x084; 0x090; 0x094; 0x0A0; 0x0A4].

Definition align_up (x a : Z) : Z := (x + a - 1) / a * a.

(** Queue 0 as a legacy and as a modern device are told of it. *)
Definition legacy_queue (f : Z -> Z) : Vq :=
  let desc := f 0x040 * f 0x028 in
  let avail := desc + 16 * f 0x038 in
  mkVq (f 0x038) desc avail (align_up (avail + 2 * (3 + f 0x038)) (f 0x03C)).
Definition modern_queue (f : Z -> Z) : Vq :=
  mkVq (f 0x038) (f 0x080 + 2 ^ 32 * f 0x084) (f 0x090 + 2 ^ 32 * f 0x094) (f 0x0A0 + 2 ^ 32 * f 0x0A4).

(** [conf d f c dk cap]: the registers, the ring cursor, the disk. *)
Section slot.
Context {Dv : Type} `{VirtioDisk Dv}.
Record conf (regs : Dv -> Z -> Z) (d : Dv) (f : Z -> Z) (c : Z) (dk : Z -> bytes) (cap : Z) : Prop := {
  cf_regs o : regs d o = f o;
  cf_cursor : cursor d = c;
  cf_disk l : disk d l = dk l;
  cf_cap : capacity d = cap;
}.
End slot.

Class MmioSlot (Dv : Type) (base version : Z) `{VirtioDisk Dv} : Type := {
  regs : Dv -> Z -> Z;
  slot_version : version = 1 \/ version = 2;
  slot_claims off : 0 <= off < VIRTIO_MMIO_STRIDE -> dev_claims (base + off) = true;
  slot_bell : doorbell = base + 0x050;
  slot_magic d : dev_read (base + 0x000) d = (VIRTIO_MAGIC, d);
  slot_ver d : dev_read (base + 0x004) d = (version, d);
  slot_id d : dev_read (base + 0x008) d = (VIRTIO_DEV_BLK, d);
  slot_cap_lo d : dev_read (base + 0x100) d = (capacity d mod 2 ^ 32, d);
  slot_cap_hi d : dev_read (base + 0x104) d = (capacity d / 2 ^ 32, d);
  slot_cap_pos d : 0 <= capacity d;
  slot_reset d m f c dk cap : conf regs d f c dk cap ->
    exists d', dev_write (base + 0x070) 0 d m = (d', m) /\ conf regs d' (fun _ => 0) 0 dk cap;
  slot_set off v d m f c dk cap : off ∈ plain_regs -> ~ (off = 0x070 /\ v = 0) -> conf regs d f c dk cap ->
    exists d', dev_write (base + off) v d m = (d', m) /\ conf regs d' (regw f off v) c dk cap;
  slot_live d : Z.land (regs d 0x070) STATUS_DRIVER_OK = STATUS_DRIVER_OK ->
    (version = 1 -> regs d 0x040 <> 0 -> vq d = Some (legacy_queue (regs d))) /\
    (version = 2 -> regs d 0x044 = 1 -> vq d = Some (modern_queue (regs d)));
  slot_phys al n p : version = 1 -> calloc al n = Some p -> p + n <= 2 ^ 44;
}.

Section probe.
Context {Dv : Type} `{VirtioDisk Dv} `{!VirtioLaws Dv} `{!CallocLaws Dv}.
Context (base version : Z) `{!MmioSlot Dv base version}.
Implicit Types (h : Hw Dv) (drv : VirtioMmioBlk).

(** A machine that differs from [h] in the device only. *)
Definition with_dev h (d : Dv) : Hw Dv := mkHw (h_mem h) (h_heap h) d.
Definition conf_of (drv : VirtioMmioBlk) h (f : Z -> Z) c dk cap (s : mmio_st (Dv := Dv)) : Prop :=
  exists d, s = (drv, with_dev h d) /\ conf regs d f c dk cap.

Lemma w32_set off v drv h f c dk cap s :
  m_base drv = base -> off ∈ plain_regs -> 0 <= v < 2 ^ 32 -> ~ (off = 0x070 /\ v = 0) ->
  conf_of drv h f c dk cap s -> exists s', _w32 off v s = (Ok tt, s') /\ conf_of drv h (regw f off v) c dk cap s'.
Proof.
  intros Hb Ho Hv Hn (d & -> & Hc). destruct (slot_set off v d (h_mem h) f c dk cap Ho Hn Hc) as (d' & Ed & Hc').
  exists (drv, with_dev h d'). split; [|by exists d']. unfold _w32. rewrite bind_self, Hb.
  apply on_hw_eq. unfold mmio_write32, mmio_write. rewrite slot_claims.
  - change (256 ^ Z.of_nat 4) with (2 ^ 32). rewrite Z.mod_small by done. cbn [with_dev h_dev h_mem h_heap]. by rewrite Ed.
  - unfold plain_regs, VIRTIO_MMIO_STRIDE in *. rewrite !elem_of_cons, elem_of_nil in Ho. lia.
Qed.

Lemma w32_reset drv h f c dk cap s : m_base drv = base ->
  conf_of drv h f c dk cap s -> exists s', _status 0 s = (Ok tt, s') /\ conf_of drv h (fun _ => 0) 0 dk cap s'.
Proof.
  intros Hb (d & -> & Hc). destruct (slot_reset d (h_mem h) f c dk cap Hc) as (d' & Ed & Hc').
  exists (drv, with_dev h d'). split; [|by exists d']. unfold _status, _w32. rewrite bind_self, Hb.
  apply on_hw_eq. unfold mmio_write32, mmio_write. rewrite slot_claims by done.
  change (0 mod 256 ^ Z.of_nat 4) with 0. cbn [with_dev h_dev h_mem h_heap]. by rewrite Ed.
Qed.

Lemma r32_read off v drv h d :
  m_base drv = base -> 0 <= off < VIRTIO_MMIO_STRIDE -> 0 <= v < 2 ^ 32 -> dev_read (base + off) d = (v, d) ->
  _r32 off (drv, with_dev h d) = (Ok v, (drv, with_dev h d)).
Proof.
  intros Hb Ho Hv Er. unfold _r32. rewrite bind_self, Hb. apply on_hw_eq. unfold mmio_read32.
  rewrite slot_claims by done. cbn [with_dev h_dev]. rewrite Er. by rewrite Z.mod_small.
Qed.

Lemma plain_reg off : bool_decide (off ∈ plain_regs) = true -> off ∈ plain_regs.
Proof. apply bool_decide_eq_true. Qed.

(** The next register write of a sequence. *)
Ltac set_reg off v C :=
  let E := fresh "E" in let C' := fresh "C" in
  destruct (fun Hb Hv Hn => w32_set off v _ _ _ _ _ _ _ Hb (plain_reg off eq_refl) Hv Hn C) as (? & E & C');
    [done|first [done|lia]|first [lia|by intros [? ?]]|]; clear C; rename C' into C;
  first [rewrite (bind_step _ _ _ _ _ E)|rewrite E]; clear E; cbn beta.

Lemma negotiate_ok drv h f0 dk cap s : m_base drv = base ->
  conf_of drv h f0 0 dk cap s ->
  exists f s', negotiate version s = (Ok tt, s') /\ conf_of drv h f 0 dk cap s' /\ (version = 1 -> f 0x028 = PAGE_SIZE).
Proof.
  intros Hb C. unfold negotiate. destruct (Z.eqb_spec version 1) as [E|E].
  - set_reg 0x028 PAGE_SIZE C. set_reg 0x020 0 C. by eexists _, _.
  - set_reg 0x024 0 C. set_reg 0x020 0 C. set_reg 0x024 1 C. set_reg 0x020 0 C. by eexists _, _.
Qed.

(** What the allocated queue is. *)
Record queue_at (drv : VirtioMmioBlk) (blk : Z * Z) h (b : Z) : Prop := {
  qa_desc : m_desc_phys drv = b;
  qa_avail : m_avail_phys drv = b + 256;
  qa_used : m_used_phys drv = b + 4096;
  qa_page : 0 < b /\ b mod 4096 = 0;
  qa_heap : blk ∈ h_heap h;
  qa_in : blk.1 <= b /\ b + 4228 <= blk.1 + blk.2 /\ b + 4228 <= 2 ^ 64;
  qa_legacy : version = 1 -> b + 4228 <= 2 ^ 44;
  qa_ram : ram blk.1 blk.2;
  qa_zero : used_at (the_queue drv) 0 (h_mem h);
}.

Lemma alloc_queue drv h f c dk cap s :
  conf_of drv h f c dk cap s ->
  (exists s', on_hw (dma_alloc (used_off + used_sz + PAGE_SIZE)) s = (Err MemoryError, s')) \/
  exists raw h' blk, on_hw (dma_alloc (used_off + used_sz + PAGE_SIZE)) s = (Ok raw, (drv, h')) /\
    conf_of drv h' f c dk cap (drv, h') /\
    let b := Z.land (raw + PAGE_SIZE - 1) (Z.lnot (PAGE_SIZE - 1)) in
    queue_at (set_queue b (b + desc_sz) (b + used_off) drv) blk h' b.
Proof.
  intros (d & -> & C). change (used_off + used_sz + PAGE_SIZE) with 8326.
  destruct (dma_alloc_fresh 8326 (with_dev h d) ltac:(lia)) as [E|(raw & h' & E & F)].
  { left. eexists. by apply on_hw_eq. }
  right. destruct F as [(blk & Hh & Hw & Hca) Hd Hr _ _ _ Hz].
  assert (Hz4 : forall x, raw <= x <= raw + 8322 -> mread (h_mem h') x 4 = [0; 0; 0; 0]).
  { intros x Hx. rewrite (mread_at _ _ _ _ x (Z.to_nat (x - raw)) 4 Hz) by lia.
    unfold zeros. rewrite drop_replicate, take_replicate. 
    by replace (4 `min` (Z.to_nat 8326 - Z.to_nat (x - raw)))%nat with 4%nat by lia. }
  clear Hz. unfold within in Hw.
  exists raw, h', blk. split_and!; [by apply on_hw_eq| |].
  { exists d. split; [|done]. destruct h'. cbn in *. by subst. }
  replace (raw + PAGE_SIZE - 1) with (raw + 4095) by (unfold PAGE_SIZE; lia). change (Z.lnot (PAGE_SIZE - 1)) with (Z.lnot 4095).
  destruct (page_up raw ltac:(lia)) as [Hp Hm]. set (b := Z.land (raw + 4095) (Z.lnot 4095)) in *. clearbody b. cbn zeta.
  constructor; cbn [set_queue m_desc_phys m_avail_phys m_used_phys]; try done; try lia.
  - rewrite Hh. apply list_elem_of_here.
  - intros Hv. pose proof (slot_phys _ _ _ Hv Hca). lia.
  - intros x Hx. by apply (calloc_ram _ _ _ x Hca).
  - unfold used_at. cbn [the_queue q_used set_queue m_used_phys]. change used_off with 4096.
    apply Hz4. lia.
Qed.

(** The queue the registers describe. *)
Definition told (f : Z -> Z) (q : Vq) : Prop :=
  (version = 1 -> f 0x040 <> 0 /\ legacy_queue f = q) /\ (version = 2 -> f 0x044 = 1 /\ modern_queue f = q).

Lemma split64 x : 0 <= x < 2 ^ 64 ->
  0 <= Z.land x 0xFFFFFFFF < 2 ^ 32 /\ 0 <= Z.land (Z.shiftr x 32) 0xFFFFFFFF < 2 ^ 32 /\
  Z.land x 0xFFFFFFFF + 2 ^ 32 * Z.land (Z.shiftr x 32) 0xFFFFFFFF = x.
Proof.
  intros Hx. change 0xFFFFFFFF with (2 ^ 32 - 1). rewrite !land_mask, Z.shiftr_div_pow2 by lia.
  change (2 ^ 32) with 4294967296. change (2 ^ 64) with (4294967296 * 4294967296) in Hx.
  pose proof (Z.mod_pos_bound x 4294967296). pose proof (Z.div_mod x 4294967296).
  rewrite (Z.mod_small (x / 4294967296)); [lia|]. split; [apply Z.div_pos; lia|]. apply Z.div_lt_upper_bound; lia.
Qed.

Lemma page_frame b : 0 < b -> b mod 4096 = 0 -> b + 4228 <= 2 ^ 44 ->
  0 <= Z.shiftr b 12 < 2 ^ 32 /\ Z.shiftr b 12 <> 0 /\ Z.shiftr b 12 * 4096 = b /\
  align_up (b + 16 * 16 + 2 * (3 + 16)) 4096 = b + 4096.
Proof.
  intros Hb Hm Hl. rewrite Z.shiftr_div_pow2 by lia. change (2 ^ 12) with 4096. unfold align_up.
  pose proof (Z.div_mod b 4096). set (k := b / 4096) in *. assert (Eb : b = k * 4096) by lia.
  split_and!; [lia..|]. rewrite Eb. replace (k * 4096 + 16 * 16 + 2 * (3 + 16) + 4096 - 1) with (293 + (k + 1) * 4096) by lia.
  rewrite Z.div_add by lia. change (293 / 4096) with 0. lia.
Qed.

Lemma setup_queue_ok drv h f dk cap s :
  m_base drv = base -> m_version drv = version -> conf_of drv h f 0 dk cap s -> (version = 1 -> f 0x028 = PAGE_SIZE) ->
  (exists s', setup_queue s = (Err MemoryError, s')) \/
  exists drv' h' f' blk b s', setup_queue s = (Ok tt, s') /\ conf_of drv' h' f' 0 dk cap s' /\
    queue_at drv' blk h' b /\ told f' (the_queue drv') /\
    drv' = set_queue b (b + desc_sz) (b + used_off) drv.
Proof.
  intros Hb Hv C Hpg. unfold setup_queue. set_reg 0x030 0 C. set_reg 0x038 QUEUE_SIZE C.
  destruct (alloc_queue _ _ _ _ _ _ _ C) as [(s' & E)|(raw & h' & blk & E & C' & Hqa)].
  { left. exists s'. by apply bind_fail. }
  right. rewrite (bind_step _ _ _ _ _ E). cbn beta. clear C E. set (b := Z.land _ _) in *. cbn zeta in *. rewrite bind_set.
  set (drv' := set_queue b (b + desc_sz) (b + used_off) drv) in *. rewrite !bind_self.
  assert (C : conf_of drv' h' (regw (regw f 0x030 0) 0x038 QUEUE_SIZE) 0 dk cap (drv', h')).
  { destruct C' as (d & Ed & C'). exists d. split; [|done]. by injection Ed as ->. }
  clear C'. assert (Hb' : m_base drv' = base) by done. change (m_version drv') with (m_version drv). rewrite Hv.
  destruct Hqa as [Q1 Q2 Q3 [Q4 Q5] Q6 Q7 Q8 Q9 Q10] eqn:EQ. clear EQ.
  destruct (Z.eqb_spec version 1) as [E1|E1].
  - destruct (page_frame b Q4 Q5 (Q8 E1)) as (P1 & P2 & P3 & P4).
    set_reg 0x03C PAGE_SIZE C. set_reg 0x040 (Z.shiftr b 12) C.
    eexists drv', h', _, blk, b, _. split_and!; [done|exact C|exact Hqa| |done].
    split; [|lia]. intros _. split; [exact P2|]. unfold legacy_queue. cbn [regw Z.eqb Pos.eqb]. rewrite (Hpg E1).
    unfold the_queue. rewrite Q1, Q2, Q3. change PAGE_SIZE with 4096. change QUEUE_SIZE with 16. rewrite P3, P4. done.
  - destruct (split64 b) as (L1 & H1 & S1); [lia|]. destruct (split64 (m_avail_phys drv')) as (L2 & H2 & S2); [lia|].
    destruct (split64 (m_used_phys drv')) as (L3 & H3 & S3); [lia|].
    set_reg 0x080 (Z.land b 0xFFFFFFFF) C. set_reg 0x084 (Z.land (Z.shiftr b 32) 0xFFFFFFFF) C.
    set_reg 0x090 (Z.land (m_avail_phys drv') 0xFFFFFFFF) C. set_reg 0x094 (Z.land (Z.shiftr (m_avail_phys drv') 32) 0xFFFFFFFF) C.
    set_reg 0x0A0 (Z.land (m_used_phys drv') 0xFFFFFFFF) C. set_reg 0x0A4 (Z.land (Z.shiftr (m_used_phys drv') 32) 0xFFFFFFFF) C.
    set_reg 0x044 1 C.
    eexists drv', h', _, blk, b, _. split_and!; [done|exact C|exact Hqa| |done].
    split; [lia|]. intros _. split; [done|]. unfold modern_queue. cbn [regw Z.eqb Pos.eqb]. rewrite S1, S2, S3.
    unfold the_queue. by rewrite Q1.
Qed.

Ltac set_status v C :=
  change (_status v) with (_w32 (Dv := Dv) 0x070 v); set_reg 0x070 v C.

Lemma queue_at_ring drv blk h b d f dk cap :
  queue_at drv blk h b -> m_base drv = base -> m_next_desc drv = 0 -> m_avail_idx drv = 0 -> m_last_used drv = 0 ->
  told f (the_queue drv) -> Z.land (f 0x070) STATUS_DRIVER_OK = STATUS_DRIVER_OK -> conf regs d f 0 dk cap ->
  holds blk cap dk (drv, with_dev h d).
Proof.
  intros [Q1 Q2 Q3 [Q4 Q5] Q6 (Q7 & Q7' & _) Q8 Q9 Q10] Hb Hn Ha Hl [T1 T2] Hst [C1 C2 C3 C4].
  assert (Hvq : vq d = Some (the_queue drv)).
  { destruct (slot_live d) as [L1 L2]; [by rewrite C1|]. destruct slot_version as [E|E].
    - destruct (T1 E) as [Hz <-]. rewrite (L1 E); [|by rewrite C1]. unfold legacy_queue. by rewrite !C1.
    - destruct (T2 E) as [Hz <-]. rewrite (L2 E); [|by rewrite C1]. unfold modern_queue. by rewrite !C1. }
  assert (Hfit : queue_fit (the_queue drv)).
  { constructor; cbn [the_queue q_num q_desc q_avail q_used]; unfold QUEUE_SIZE; try lia. by exists 4096. }
  split_and!; [|done|done]. constructor; [|cbn [fst]; rewrite Hb; apply slot_bell].
  cbn [fst snd]. rewrite Hn, Ha, Hl. constructor; try done.
  unfold q_end. cbn [the_queue q_desc q_used q_num]. unfold QUEUE_SIZE. lia.
Qed.


Ltac get_reg L := erewrite bind_step by (eapply r32_read; [ | | |apply L]; first [done|lia]).

Lemma probe_run (m : mem) hp (d : Dv) :
  exists r s', probe (VirtioMmioBlk_init base, mkHw m hp d) = (r, s') /\
    (r = Err MemoryError \/ r = Ok true /\ exists blk, holds blk (capacity d) (disk d) s' /\ m_num_sectors (fst s') = capacity d).
Proof.
  set (cap := capacity d). set (dk := disk d). set (h := mkHw m hp d).
  change (VirtioMmioBlk_init base, h) with (VirtioMmioBlk_init base, with_dev h d).
  assert (Hc : 0 <= cap < 2 ^ 63) by (split; [apply slot_cap_pos|apply capacity_range]).
  assert (Hv32 : 0 <= version < 2 ^ 32) by (destruct slot_version; lia).
  unfold probe. get_reg slot_magic. cbn [negb Z.eqb VIRTIO_MAGIC]. rewrite Pos.eqb_refl. cbn [negb].
  get_reg slot_ver. get_reg slot_id. rewrite Z.eqb_refl.
  replace ((version =? 1) || (version =? 2)) with true by (destruct slot_version; lia).
  cbn [negb]. rewrite bind_set. set (drv := set_version version (VirtioMmioBlk_init base)).
  assert (C : conf_of drv h (regs d) (cursor d) dk cap (drv, with_dev h d)) by by exists d.
  destruct (w32_reset drv h _ _ dk cap _ eq_refl C) as (s1 & E1 & C1). rewrite (bind_step _ _ _ _ _ E1). clear C E1.
  set_status STATUS_ACK C1. set_status (Z.lor STATUS_ACK STATUS_DRIVER) C1.
  destruct (negotiate_ok drv h _ dk cap _ eq_refl C1) as (f & s2 & E2 & C2 & Hpg). rewrite (bind_step _ _ _ _ _ E2). clear C1 E2.
  set_status (Z.lor (Z.lor STATUS_ACK STATUS_DRIVER) STATUS_FEATURES) C2.
  destruct C2 as (d2 & -> & C2). assert (Ecap : capacity d2 = cap) by apply C2.
  assert (Hlo : 0 <= capacity d2 mod 2 ^ 32 < 2 ^ 32) by (apply Z.mod_pos_bound; lia).
  assert (Hhi : 0 <= capacity d2 / 2 ^ 32 < 2 ^ 32).
  { split; [apply Z.div_pos; lia|]. apply Z.div_lt_upper_bound; lia. }
  get_reg slot_cap_lo. get_reg slot_cap_hi. rewrite bind_set, lor_shiftl by lia.
  rewrite Z.add_comm, <- Z.div_mod, Ecap by lia. set (drv2 := set_num_sectors cap drv).
  assert (C : conf_of drv2 h _ 0 dk cap (drv2, with_dev h d2)) by (exists d2; split; [done|exact C2]). clear C2.
  destruct (setup_queue_ok drv2 h _ dk cap _ eq_refl eq_refl C) as [(s' & E)|(drv' & h' & f' & blk & b & s' & E & C' & Hqa & Ht & Hdrv)];
    [intros Ev; exact (Hpg Ev)| |].
  { eexists _, s'. split; [by apply bind_fail|by left]. }
  rewrite (bind_step _ _ _ _ _ E). clear C E. assert (Hb' : m_base drv' = base) by by rewrite Hdrv.
  set_status (Z.lor (Z.lor (Z.lor STATUS_ACK STATUS_DRIVER) STATUS_FEATURES) STATUS_DRIVER_OK) C'.
  destruct C' as (d3 & -> & C'). eexists _, _. split; [done|]. right. split; [done|]. exists blk.
  split; [|by rewrite Hdrv].
  refine (queue_at_ring drv' blk h' b d3 _ dk cap Hqa Hb' _ _ _ _ _ C'); [by rewrite Hdrv..|exact Ht|done].
Qed.

(** Probing a slot with a block device in it, legacy or modern, gives a
    driver that is ready for requests to the disk as it was, and that knows the
    disk's size; it fails only when there is no memory for the queue. *)
Theorem virtio_probe_ready (h : Hw Dv) :
  exists r s', probe (VirtioMmioBlk_init base, h) = (r, s') /\
    (r = Err MemoryError \/
     r = Ok true /\ exists blk, holds blk (capacity (h_dev h)) (disk (h_dev h)) s' /\
       m_num_sectors (fst s') = capacity (h_dev h)).
Proof. destruct h. apply probe_run. Qed.
End probe.

Record Toy : Type := mkToy { t_regs : Z -> Z; t_cursor : Z; t_image : Z -> bytes; t_lag : nat }.

Definition toy_cursor (d : Toy) : Z := t_cursor d mod 65536.
Definition toy_disk (d : Toy) (l : Z) : bytes := map (fun b => b mod 256) (pack_s 512 (t_image d l)).
Definition toy_cap : Z := 4.
Definition toy_lag (d : Toy) : nat := if (t_lag d =? 0)%nat then 0 else 1.
Definition toy_vq (d : Toy) : option Vq :=
  if (Z.land (t_regs d 0x070) 4 =? 4) && (t_regs d 0x044 =? 1) then Some (modern_queue (t_regs d)) else None.

Definition toy_run (d : Toy) (m : mem) : Toy * mem :=
  match toy_vq d with
  | None => (d, m)
  | Some q =>
      match chain m q (toy_cursor d) with
      | None => (d, m)
      | Some rq =>
          if avail_index m q =? toy_cursor d then (d, m)
          else if (toy_lag d =? 0)%nat
          then (mkToy (t_regs d) (toy_cursor d + 1) (serve_disk toy_cap (toy_disk d) rq m) 1,
                serve_mem q (toy_cursor d) toy_cap (toy_disk d) rq m)
          else (mkToy (t_regs d) (t_cursor d) (t_image d) 0, m)
      end
  end.

Definition toy_read (a : Z) (d : Toy) : Z * Toy :=
  let off := a - VIRTIO_MMIO_BASE in
  (if off =? 0x000 then VIRTIO_MAGIC else if off =? 0x004 then 2 else if off =? 0x008 then VIRTIO_DEV_BLK
   else if off =? 0x100 then toy_cap else if off =? 0x104 then 0 else t_regs d off, d).

Definition toy_write (a v : Z) (d : Toy) (m : mem) : Toy * mem :=
  let off := a - VIRTIO_MMIO_BASE in
  if off =? 0x050 then toy_run d m
  else if (off =? 0x070) && (v =? 0) then (mkToy (fun _ => 0) 0 (t_image d) 1, m)
  else if bool_decide (off ∈ plain_regs) then (mkToy (regw (t_regs d) off v) (t_cursor d) (t_image d) (t_lag d), m)
  else (d, m).

(** The first address past every block. *)
Definition heap_top (al : list (Z * Z)) : Z := foldr (fun b t => Z.max (b.1 + b.2) t) 0x40000000 al.

#[global] Instance toy_machine : Machine Toy := {
  dev_claims a := (VIRTIO_MMIO_BASE <=? a) && (a <? VIRTIO_MMIO_BASE + VIRTIO_MMIO_STRIDE);
  dev_read := toy_read;
  dev_write := toy_write;
  dev_run := toy_run;
  calloc al n := if heap_top al + n <=? 2 ^ 40 then Some (heap_top al) else None;
}.
#[global] Instance toy_virtio : VirtioDisk Toy := {
  vq := toy_vq; cursor := toy_cursor; disk := toy_disk; capacity _ := toy_cap; patience := toy_lag;
  latency := 1; doorbell := VIRTIO_MMIO_BASE + 0x050;
}.

Lemma heap_top_ge al : 0x40000000 <= heap_top al /\ Forall (fun b => b.1 + b.2 <= heap_top al) al.
Proof.
  induction al as [|b al [IH1 IH2]]; cbn [heap_top foldr]; [by split|].
  fold (heap_top al). split; [lia|]. constructor; [lia|]. eapply list.Forall_impl; [exact IH2|]. intros. simpl in *. lia.
Qed.

#[global] Instance toy_calloc : CallocLaws Toy.
Proof.
  split; cbn [calloc toy_machine dev_claims]; intros al n p.
  - intros Hn Hc. destruct (Z.leb_spec (heap_top al + n) (2 ^ 40)); [|done]. injection Hc as <-.
    destruct (heap_top_ge al) as [Hg Hb]. split_and!; [lia|lia|]. eapply list.Forall_impl; [exact Hb|].
    intros b ?. right. simpl in *. lia.
  - intros a Hc Ha. destruct (Z.leb_spec (heap_top al + n) (2 ^ 40)); [|done]. injection Hc as <-.
    pose proof (proj1 (heap_top_ge al)). unfold VIRTIO_MMIO_BASE, VIRTIO_MMIO_STRIDE. lia.
Qed.

Lemma toy_disk_ok d l : len (toy_disk d l) = 512 /\ bytes_ok (toy_disk d l).
Proof.
  unfold toy_disk. split.
  - unfold len. rewrite length_map. unfold pack_s. rewrite length_app, length_take, length_replicate. lia.
  - apply List.Forall_forall. intros b (x & <- & _)%in_map_iff. apply Z.mod_pos_bound. lia.
Qed.

Lemma toy_disk_fixed dk d l : (forall l, len (dk l) = 512 /\ bytes_ok (dk l)) -> t_image d = dk -> toy_disk d l = dk l.
Proof.
  intros Hd Ht. unfold toy_disk. rewrite Ht. destruct (Hd l) as [Hl Hb].
  rewrite pack_s_exact by (unfold len in Hl; lia). by apply map_mod_bytes.
Qed.

Lemma serve_disk_ok d rq m l :
  len (serve_disk toy_cap (toy_disk d) rq m l) = 512 /\ bytes_ok (serve_disk toy_cap (toy_disk d) rq m l).
Proof.
  unfold serve_disk. destruct (_ && _); [|apply toy_disk_ok]. destruct (_ =? _); [|apply toy_disk_ok]. split.
  - unfold len. by rewrite length_map, length_mread.
  - apply List.Forall_forall. intros b (x & <- & _)%in_map_iff. apply Z.mod_pos_bound. lia.
Qed.

Lemma toy_turn q rq d m d' m' : outstanding q rq d m -> toy_run d m = (d', m') -> turn q rq d m d' m'.
Proof.
  intros (Hv & Ha & Hc) Hr. cbn [vq cursor toy_virtio] in *. unfold toy_run in Hr. rewrite Hv, Hc, Ha in Hr.
  assert (Hne : ((toy_cursor d + 1) mod 65536 =? toy_cursor d) = false).
  { apply Z.eqb_neq. unfold toy_cursor. Z.div_mod_to_equations. lia. }
  rewrite Hne in Hr. destruct (toy_lag d =? 0)%nat eqn:El; injection Hr as <- <-.
  - split_and!; [exact Hv|done|]. right. split_and!; [done| |].
    + cbn [cursor toy_virtio]. unfold toy_cursor at 1. done.
    + intros l. cbn [disk toy_virtio]. apply toy_disk_fixed; [|done]. apply serve_disk_ok.
  - split_and!; [exact Hv|done|]. left. split_and!; try done. cbn [patience toy_virtio]. 
    apply Nat.eqb_neq in El. change (toy_lag (mkToy _ _ _ 0)) with 0%nat. lia.
Qed.

#[global] Instance toy_laws : VirtioLaws Toy.
Proof.
  split.
  - intros d. apply Z.mod_pos_bound. lia.
  - intros d l _. apply toy_disk_ok.
  - done.
  - intros d. cbn [patience latency toy_virtio]. unfold toy_lag. destruct (_ =? _)%nat; lia.
  - done.
  - apply toy_turn.
  - intros q rq d m d' m' Ho. apply (toy_turn q rq d m). done.
Qed.

Lemma plain_not_bell off : off ∈ plain_regs -> off <> 0x050.
Proof. unfold plain_regs. rewrite !elem_of_cons, elem_of_nil. lia. Qed.

#[global] Instance toy_slot : MmioSlot Toy VIRTIO_MMIO_BASE 2.
Proof.
  refine {| regs := t_regs |}; cbn [dev_claims dev_read dev_write capacity toy_machine toy_virtio]; try done.
  - by right.
  - unfold VIRTIO_MMIO_BASE, VIRTIO_MMIO_STRIDE. lia.
  - intros d m f c dk cap [C1 C2 C3 C4]. eexists. split; [reflexivity|]. by constructor.
  - intros off v d m f c dk cap Ho Hn [C1 C2 C3 C4]. unfold toy_write.
    replace (VIRTIO_MMIO_BASE + off - VIRTIO_MMIO_BASE) with off by lia.
    destruct (Z.eqb_spec off 0x050) as [E|_]; [by destruct (plain_not_bell off Ho)|].
    destruct (Z.eqb_spec off 0x070), (Z.eqb_spec v 0); cbn [andb]; try tauto; rewrite bool_decide_true by done;
      eexists; (split; [reflexivity|]); constructor; try done; intros o; cbn [t_regs]; unfold regw; by rewrite C1.
  - intros d Hs. split; [done|]. intros _ Hr. cbn [vq toy_virtio]. unfold toy_vq, STATUS_DRIVER_OK in *. by rewrite Hs, Hr.
Defined.

(** ** The theorems apply *)

Definition toy0 : Hw Toy := mkHw ∅ [] (mkToy (fun _ => 0) 7 (fun l => replicate 512 l) 1).
Definition toy_st : mmio_st := snd (probe (VirtioMmioBlk_init VIRTIO_MMIO_BASE, toy0)).

Lemma toy_probes : fst (probe (VirtioMmioBlk_init VIRTIO_MMIO_BASE, toy0)) = Ok true.
Proof. by vm_compute. Qed.
Lemma toy_holds : exists blk, holds blk 4 (toy_disk (h_dev toy0)) toy_st.
Proof.
  destruct (probe_run VIRTIO_MMIO_BASE 2 ∅ [] (h_dev toy0)) as (r & s' & E & Hr).
  pose proof toy_probes as Hp. unfold toy_st. change (mkHw ∅ [] (h_dev toy0)) with toy0 in E.
  rewrite E in *. cbn [fst snd] in *. destruct Hr as [->|(_ & blk & Hh & _)]; [done|]. by exists blk.
Qed.

Definition toy_ops : list sector_op := [OpRead 3; OpWrite 2 (replicate 512 9); OpRead 2; OpRead 1].

Lemma toy_ops_in : Forall (op_in 4) toy_ops.
Proof.
  unfold toy_ops. rewrite !list.Forall_cons, list.Forall_nil. cbn [op_in]. split_and!; try done.
  apply Forall_replicate. unfold byte_ok. lia.
Qed.

(** The run itself, evaluated. *)
Example toy_drives : fst (drive 1 toy_ops toy_st) = Ok [replicate 512 3; replicate 512 9; replicate 512 1].
Proof. by vm_compute. Qed.

Lemma virtio_refines_disk_witness : exists blk s',
  let spec := spec_run toy_ops (toy_disk (h_dev toy0)) in
  (drive 1 toy_ops toy_st = (Ok spec.1, s') /\ holds blk 4 spec.2 s') \/ drive 1 toy_ops toy_st = (Err MemoryError, s').
Proof.
  destruct toy_holds as [blk Hh]. exists blk.
  exact (virtio_refines_disk 1 blk 4 toy_ops (toy_disk (h_dev toy0)) toy_st Hh toy_ops_in (le_n 1)).
Defined.

Lemma virtio_probe_ready_witness : exists r s',
  probe (VirtioMmioBlk_init VIRTIO_MMIO_BASE, toy0) = (r, s') /\
  (r = Err MemoryError \/ r = Ok true /\ m_num_sectors (fst s') = 4).
Proof.
  destruct (virtio_probe_ready VIRTIO_MMIO_BASE 2 toy0) as (r & s' & E & Hr). exists r, s'. split; [exact E|].
  clear E. destruct Hr as [Hr|(Hr & blk & _ & Hn)]; [left; exact Hr|right; split; [exact Hr|exact Hn]].
Defined.

(** The DMA buffers of every request stay allocated. *)
Example toy_leaks : length (h_heap (snd (snd (drive 1 toy_ops toy_st)))) = (1 + 3 * 4)%nat.
Proof. by vm_compute. Qed.

(** ** Two readers

    [read_sector] up to its first [await], and the rest of it. *)
Section split.
Context {Dv : Type} `{Machine Dv}.

Definition begin_read (lba : Z) : M (mmio_st (Dv := Dv)) (Z * Z) :=
  let! (hdr, data_phys, stat_phys) := on_hw (buffers VIRTIO_BLK_T_IN lba (fun _ => ret tt)) in
  publish hdr data_phys stat_phys (Z.lor VRING_DESC_F_WRITE VRING_DESC_F_NEXT) ;;;
  _w32 0x050 0 ;;;
  let! lu := self m_last_used in
  ret (data_phys, Z.land (lu + 1) 0xFFFF).
Definition finish_read (fuel : nat) (rq : Z * Z) : M (mmio_st (Dv := Dv)) bytes :=
  poll fuel (snd rq) ;;; let! _ := _used_pop in on_hw (copy_in (fst rq)).

Lemma read_sector_split fuel lba s : read_sector fuel lba s = (let! rq := begin_read lba in finish_read fuel rq) s.
Proof.
  unfold read_sector, begin_read, finish_read, request, bind. destruct (on_hw _ s) as [[[[hdr dp] st]|e] s1]; [|done].
  destruct (publish _ _ _ _ s1) as [[[]|e] s2]; [|done]. destruct (_w32 _ _ s2) as [[[]|e] s3]; [|done].
  unfold self, gets, ret. cbn [fst snd]. destruct (poll _ _ s3) as [[[]|e] s4]; [|done].
  by destruct (_used_pop s4) as [[p|e] s5].
Qed.
End split.

(** A second reader that starts while a request is outstanding waits for the
    same index of the used ring: it takes the first request's completion for
    its own and returns a buffer the device has not filled. *)
Theorem concurrent_read_stale :
  fst ((let! _ := begin_read 3 in let! rq := begin_read 1 in finish_read 0 rq) toy_st) = Ok (zeros 512) /\
  toy_disk (h_dev toy0) 1 = replicate 512 1.
Proof. split; by vm_compute. Qed.
