(* ===== verification/Pci.v ===== *)
(** * PCI configuration space and the PCI bus (kernel/bus/pci.py)

    Configuration reads through the port pair CF8/CFC, the scan of the bus and
    the choice of drivers.  The host bridge behind the ports is the class
    [PciHost]; a driver class is the type [C], a driver object the type [I],
    and creating and probing one is the parameter [try_driver].

    [found]: the functions that answer in configuration space, with the fields
    of their headers.  [enumerate] leaves exactly these in the bus, in the
    order of their addresses, and [bind_drivers] gives each device the driver
    of the most specific registration, when that driver accepts it. *)

From Stdlib Require Import ZArith Lia.
From stdpp Require Import base list numbers.
From S2P Require Import Prelude Bytes Dict.

Local Open Scope Z_scope.

Definition CONFIG_ADDRESS : Z := 0xCF8.
Definition CONFIG_DATA : Z := 0xCFC.

Definition _addr (bus dev func offset : Z) : Z :=
  Z.lor (Z.lor (Z.lor (Z.lor (Z.shiftl 1 31) (Z.shiftl bus 16)) (Z.shiftl dev 11)) (Z.shiftl func 8)) (Z.land offset 0xFC).

Class PciHost (H : Type) : Type := {
  outl : Z -> Z -> M H unit;
  inl : Z -> M H Z;
}.

(** ** Data model *)

Record PCIAddress : Type := mkAddr { a_bus : Z; a_device : Z; a_function : Z }.
#[global] Instance PCIAddress_eq_dec : EqDecision PCIAddress.
Proof. solve_decision. Defined.

(** [PCIClass(v)]: an unknown code is [UNKNOWN]. *)
Definition PCIClass (v : Z) : Z := if (0 <=? v) && (v <=? 0x10) then v else 0xFF.

Record PCIDevice (I : Type) : Type := mkDevice {
  p_addr : PCIAddress; vendor_id : Z; device_id : Z; class_code : Z;
  subclass : Z; prog_if : Z; revision : Z; bars : list Z; driver : option I;
}.
Arguments mkDevice {I}.
Arguments p_addr {I} _. Arguments vendor_id {I} _. Arguments device_id {I} _. Arguments class_code {I} _.
Arguments subclass {I} _. Arguments prog_if {I} _. Arguments revision {I} _. Arguments bars {I} _. Arguments driver {I} _.

Definition set_driver {I} (x : I) (d : PCIDevice I) : PCIDevice I :=
  mkDevice (p_addr d) (vendor_id d) (device_id d) (class_code d) (subclass d) (prog_if d) (revision d) (bars d) (Some x).

Section bus.
Context {H C I : Type} `{PciHost H}.

(** ** Configuration reads *)

Definition config_read32 (bus dev func offset : Z) : M H Z :=
  outl CONFIG_ADDRESS (_addr bus dev func offset) ;;; inl CONFIG_DATA.
Definition config_read16 (bus dev func offset : Z) : M H Z :=
  let! raw := config_read32 bus dev func offset in
  ret (Z.land (Z.shiftr raw (Z.land offset 2 * 8)) 0xFFFF).
Definition config_read8 (bus dev func offset : Z) : M H Z :=
  let! raw := config_read32 bus dev func offset in
  ret (Z.land (Z.shiftr raw (Z.land offset 3 * 8)) 0xFF).

(** ** The bus *)

Record PCIBus : Type := mkBus {
  b_devices : list (PCIAddress * PCIDevice I);
  b_by_id : list ((Z * Z) * C);
  b_by_vendor : list (Z * C);
  b_by_class : list (Z * C);
}.
Definition PCIBus_init : PCIBus := mkBus [] [] [] [].
Definition set_devices (ds : list (PCIAddress * PCIDevice I)) (b : PCIBus) : PCIBus :=
  mkBus ds (b_by_id b) (b_by_vendor b) (b_by_class b).

Abbreviation io := (M (PCIBus * H)).
Definition on_host {A} (m : M H A) : io A := zoom snd (fun h s => (fst s, h)) m.

Definition _read_bars (bus dev func : Z) : M H (list Z) :=
  let! raws := map_m (range 6) (fun i => config_read32 bus dev func (0x10 + i * 4)) in
  ret (filter (fun raw => raw <> 0) raws).

(** [_probe] of one function, without the scan of the others of its device. *)
Definition _probe_function (bus dev func : Z) : io (option (PCIDevice I)) :=
  let! vid_did := on_host (config_read32 bus dev func 0x00) in
  if Z.land vid_did 0xFFFF =? 0xFFFF then ret None else
  let! class_rev := on_host (config_read32 bus dev func 0x08) in
  let! bs := on_host (_read_bars bus dev func) in
  let addr := mkAddr bus dev func in
  let device := mkDevice addr (Z.land vid_did 0xFFFF) (Z.land (Z.shiftr vid_did 16) 0xFFFF)
    (PCIClass (Z.land (Z.shiftr class_rev 24) 0xFF)) (Z.land (Z.shiftr class_rev 16) 0xFF)
    (Z.land (Z.shiftr class_rev 8) 0xFF) (Z.land class_rev 0xFF) bs None in
  modify (fun s => (set_devices (dset addr device (b_devices (fst s))) (fst s), snd s)) ;;;
  ret (Some device).

(** [_probe(bus, dev, 0)]; for another function the guard [func == 0] is
    false and [_probe_function] is the whole of it. *)
Definition _probe (bus dev : Z) : io (option (PCIDevice I)) :=
  let! r := _probe_function bus dev 0 in
  match r with
  | None => ret None
  | Some device =>
      let! header_type := on_host (config_read8 bus dev 0 0x0E) in
      (if negb (Z.land header_type 0x80 =? 0)
       then for_each (range2 1 8) (fun f => let! _ := _probe_function bus dev f in ret tt)
       else ret tt) ;;;
      ret (Some device)
  end.

Definition enumerate : io unit :=
  for_each (range 256) (fun bus => for_each (range 32) (fun dev => let! _ := _probe bus dev in ret tt)).

(** ** Drivers *)

Definition register_driver (cls : C) (vendor device code : option Z) (b : PCIBus) : result PCIBus :=
  match vendor, device, code with
  | Some v, Some d, _ => Ok (mkBus (b_devices b) (dset (v, d) cls (b_by_id b)) (b_by_vendor b) (b_by_class b))
  | Some v, None, _ => Ok (mkBus (b_devices b) (b_by_id b) (dset v cls (b_by_vendor b)) (b_by_class b))
  | None, _, Some c => Ok (mkBus (b_devices b) (b_by_id b) (b_by_vendor b) (dset c cls (b_by_class b)))
  | None, _, None => Err ValueError
  end.

Definition _find_driver (d : PCIDevice I) (b : PCIBus) : option C :=
  match dget (vendor_id d, device_id d) (b_by_id b) with
  | Some c => Some c
  | None =>
      match dget (vendor_id d) (b_by_vendor b) with
      | Some c => Some c
      | None => dget (class_code d) (b_by_class b)
      end
  end.

(** [drv = cls(); drv.probe(dev)] *)
Context (try_driver : C -> PCIDevice I -> M H (bool * I)).

Definition bind_device (b : PCIBus) (entry : PCIAddress * PCIDevice I) : io unit :=
  let (a, d) := entry in
  match _find_driver d b with
  | None => ret tt
  | Some cls =>
      let! (ok, drv) := on_host (try_driver cls d) in
      if ok : bool then modify (fun s => (set_devices (dset a (set_driver drv d) (b_devices (fst s))) (fst s), snd s))
      else ret tt
  end.
Definition bind_drivers : io unit :=
  let! b := gets fst in for_each (b_devices b) (bind_device b).

Definition find_by_class (cls : Z) (b : PCIBus) : list (PCIDevice I) :=
  filter (fun d => class_code d = cls) (map snd (b_devices b)).
Definition find_by_id (vendor device : Z) (b : PCIBus) : list (PCIDevice I) :=
  filter (fun d => vendor_id d = vendor /\ device_id d = device) (map snd (b_devices b)).
End bus.
Arguments PCIBus C I : clear implicits.

(** ** What the host bridge does (PCI 3.0, configuration mechanism 1) *)

Class PciHostLaws (H : Type) `{PciHost H} : Type := {
  space : H -> Z -> Z -> Z -> Z -> Z;      (* the dword of a function at an offset *)
  host_read h b d f r : 0 <= b < 256 -> 0 <= d < 32 -> 0 <= f < 8 -> 0 <= r < 256 -> r mod 4 = 0 ->
    exists h', (outl CONFIG_ADDRESS (2 ^ 31 + b * 2 ^ 16 + d * 2 ^ 11 + f * 2 ^ 8 + r) ;;; inl CONFIG_DATA) h =
      (Ok (space h b d f r), h') /\ space h' = space h;
  space_dword h b d f r : 0 <= space h b d f r < 2 ^ 32;
}.

(** The register an offset selects: its low eight bits, rounded to a dword. *)
Definition reg (o : Z) : Z := o mod 256 / 4 * 4.
Lemma reg_range o : 0 <= reg o < 256 /\ reg o mod 4 = 0.
Proof.
  unfold reg. pose proof (Z.mod_pos_bound o 256). pose proof (Z.div_mod (o mod 256) 4). pose proof (Z.mod_pos_bound (o mod 256) 4).
  split; [lia|by apply Z.mod_mul].
Qed.

Lemma addr_fields b d f o : 0 <= b < 256 -> 0 <= d < 32 -> 0 <= f < 8 ->
  _addr b d f o = 2 ^ 31 + b * 2 ^ 16 + d * 2 ^ 11 + f * 2 ^ 8 + reg o.
Proof.
  intros Hb Hd Hf. unfold _addr.
  assert (Ho4 : Z.land o 0xFC = reg o).
  { change 0xFC with (Z.ldiff (Z.ones 8) (Z.ones 2)). rewrite Z.ldiff_land, Z.land_assoc, Z.land_ones by lia.
    rewrite <- Z.ldiff_land, Z.ldiff_ones_r by lia. rewrite Z.shiftl_mul_pow2, Z.shiftr_div_pow2 by lia. done. }
  rewrite Ho4. set (r := reg o). pose proof (proj1 (reg_range o) : 0 <= r < 256) as Hr.
  rewrite (Z.lor_comm _ r), (Z.lor_comm _ (Z.shiftl f 8)), Z.lor_assoc, (lor_shiftl r f 8) by lia.
  rewrite (Z.lor_comm _ (Z.shiftl d 11)), Z.lor_assoc, (lor_shiftl _ d 11) by lia.
  rewrite (Z.lor_comm (Z.shiftl 1 31)), Z.lor_assoc, (lor_shiftl _ b 16), (lor_shiftl _ 1 31) by lia. lia.
Qed.

Section props.
Context {H C I : Type} `{PciHostLaws H}.
Implicit Type h : H.

(** The address of a function. *)
Definition in_space (b d f : Z) : Prop := 0 <= b < 256 /\ 0 <= d < 32 /\ 0 <= f < 8.

Lemma config_read32_eq b d f o h : in_space b d f ->
  exists h', config_read32 b d f o h = (Ok (space h b d f (reg o)), h') /\ space h' = space h.
Proof.
  intros (Hb & Hd & Hf). unfold config_read32. rewrite addr_fields by done. apply host_read; try done; apply reg_range.
Qed.

(** The byte and the 16-bit word of a dword that an offset selects. *)
Definition byte_of (sp : Z -> Z) (o : Z) : Z := sp (reg o) / 256 ^ (o mod 4) mod 256.
Definition half_of (sp : Z -> Z) (o : Z) : Z := sp (reg o) / 2 ^ (Z.land o 2 * 8) mod 2 ^ 16.

Lemma config_read8_eq b d f o h : in_space b d f ->
  exists h', config_read8 b d f o h = (Ok (byte_of (space h b d f) o), h') /\ space h' = space h.
Proof.
  intros Ho. destruct (config_read32_eq b d f o h Ho) as (h' & E & Hs). exists h'. split; [|done].
  unfold config_read8, byte_of. rewrite (bind_step _ _ _ _ _ E). unfold ret. do 2 f_equal.
  change 3 with (2 ^ 2 - 1). change 0xFF with (2 ^ 8 - 1). rewrite !land_mask by lia. change (2 ^ 2) with 4. change (2 ^ 8) with 256.
  pose proof (Z.mod_pos_bound o 4). rewrite Z.shiftr_div_pow2 by lia. do 2 f_equal.
  change 256 with (2 ^ 8). rewrite <- Z.pow_mul_r by lia. f_equal. lia.
Qed.
Lemma config_read16_eq b d f o h : in_space b d f -> 
  exists h', config_read16 b d f o h = (Ok (half_of (space h b d f) o), h') /\ space h' = space h.
Proof.
  intros Ho. destruct (config_read32_eq b d f o h Ho) as (h' & E & Hs). exists h'. split; [|done].
  unfold config_read16, half_of. rewrite (bind_step _ _ _ _ _ E). unfold ret. do 2 f_equal.
  rewrite Z.shiftr_div_pow2 by (pose proof (Z.land_nonneg o 2); lia). by apply (land_mask _ 16).
Qed.
End props.

(** ** What is in configuration space *)

Section found.
Context {I : Type} (sp : Z -> Z -> Z -> Z -> Z).

Definition present (b d f : Z) : bool := negb (sp b d f 0 mod 2 ^ 16 =? 0xFFFF).
Definition multifunction (b d : Z) : bool := Z.testbit (sp b d 0 0x0C) 23.
Definition functions_of (b d : Z) : list Z :=
  if present b d 0 then 0 :: (if multifunction b d then filter (fun f => present b d f) (range2 1 8) else []) else [].

Definition decode (a : PCIAddress) : PCIDevice I :=
  let dword := sp (a_bus a) (a_device a) (a_function a) in
  mkDevice a (dword 0 mod 2 ^ 16) (dword 0 / 2 ^ 16 mod 2 ^ 16)
    (PCIClass (dword 8 / 2 ^ 24 mod 2 ^ 8)) (dword 8 / 2 ^ 16 mod 2 ^ 8) (dword 8 / 2 ^ 8 mod 2 ^ 8) (dword 8 mod 2 ^ 8)
    (filter (fun raw => raw <> 0) (map (fun i => dword (0x10 + i * 4)) (range 6))) None.

Definition found_at (b d f : Z) : PCIAddress * PCIDevice I := (mkAddr b d f, decode (mkAddr b d f)).
Definition found_dev (b d : Z) : list (PCIAddress * PCIDevice I) := map (found_at b d) (functions_of b d).
Definition found : list (PCIAddress * PCIDevice I) :=
  flat_map (fun b => flat_map (found_dev b) (range 32)) (range 256).
End found.

Lemma dget_app_None {K V} `{EqDecision K} (k : K) (v : V) (d : list (K * V)) :
  k ∉ d.*1 -> dset k v d = d ++ [(k, v)].
Proof. intros Hk. by apply dset_fresh, dget_None. Qed.

(** Outputs that carry their input's tag do not repeat. *)
Lemma NoDup_flat_map_tag {A B T} (out : A -> list B) (key : B -> T) (tag : T -> A) (l : list A) :
  NoDup l -> (forall x, NoDup (map key (out x))) -> (forall x y, y ∈ out x -> tag (key y) = x) ->
  NoDup (map key (flat_map out l)).
Proof.
  intros Hl Ho Ht. induction Hl as [|x l Hx Hl IH]; cbn [flat_map map]; [constructor|].
  rewrite map_app. apply list.NoDup_app. split_and!; [done| |done].
  intros t (y & -> & Hy)%list_elem_of_fmap (y' & E & Hy')%list_elem_of_fmap.
  apply list_elem_of_In, in_flat_map in Hy' as (x' & Hx' & Hy'%list_elem_of_In).
  pose proof (Ht _ _ Hy) as E1. pose proof (Ht _ _ Hy') as E2. rewrite E in E1.
  apply Hx. apply list_elem_of_In in Hx'. congruence.
Qed.

Section scan.
Context {H C I : Type} `{PciHostLaws H}.
Implicit Types (h : H) (bus : PCIBus C I).
Abbreviation devs := (list (PCIAddress * PCIDevice I)).

Lemma found_keys sp : NoDup (map fst (@found I sp)).
Proof.
  apply (NoDup_flat_map_tag _ fst a_bus); [apply NoDup_range2| |].
  - intros b. apply (NoDup_flat_map_tag _ fst a_device); [apply NoDup_range2| |].
    + intros d. unfold found_dev. rewrite map_map. cbn [fst found_at]. unfold functions_of.
      destruct (present sp b d 0); [|constructor]. apply NoDup_fmap_2; [intros x y E; by injection E|].
      destruct (multifunction sp b d); [|apply NoDup_singleton].
      apply list.NoDup_cons. split; [|apply list.NoDup_filter, NoDup_range2].
      rewrite list_elem_of_filter. intros [_ Hx%elem_of_range2]. lia.
    + by intros d y (f & -> & _)%list_elem_of_fmap.
  - intros b y Hy. apply list_elem_of_In, in_flat_map in Hy as (d & _ & Hy%list_elem_of_In).
    by apply list_elem_of_fmap in Hy as (f & -> & _).
Qed.

(** A step of the scan adds [out] to the devices. *)
Definition adds (sp : Z -> Z -> Z -> Z -> Z) (m : M (PCIBus C I * H) unit) (out : devs) : Prop :=
  forall bus ds h, space h = sp -> NoDup (map fst (ds ++ out)) ->
    exists h', m (set_devices ds bus, h) = (Ok tt, (set_devices (ds ++ out) bus, h')) /\ space h' = sp.

Lemma adds_ret sp : adds sp (ret tt) [].
Proof. intros bus ds h Hs _. exists h. by rewrite app_nil_r. Qed.
Lemma adds_bind sp m1 m2 o1 o2 : adds sp m1 o1 -> adds sp m2 o2 -> adds sp (m1 ;;; m2) (o1 ++ o2).
Proof.
  intros A1 A2 bus ds h Hs Hd. rewrite app_assoc in Hd.
  assert (Hd1 : NoDup (map fst (ds ++ o1))) by (rewrite map_app in Hd; by apply list.NoDup_app in Hd as [? _]).
  destruct (A1 bus ds h Hs Hd1) as (h1 & E1 & S1). destruct (A2 bus _ h1 S1 Hd) as (h2 & E2 & S2).
  exists h2. by rewrite (bind_step _ _ _ _ _ E1), E2, <- app_assoc.
Qed.
Lemma adds_for {A} sp (l : list A) body (out : A -> devs) :
  (forall x, x ∈ l -> adds sp (body x) (out x)) -> adds sp (for_each l body) (flat_map out l).
Proof.
  intros Hb. induction l as [|x l IH]; cbn [for_each flat_map]; [apply adds_ret|].
  apply adds_bind; [apply Hb; apply list_elem_of_here|]. apply IH. intros y Hy. apply Hb. by apply list_elem_of_further.
Qed.

Lemma on_host_eq {A} (m : M H A) bus h r h' : m h = (r, h') -> on_host m (bus, h) = (r, (bus, h')).
Proof. intros E. unfold on_host, zoom. simpl. by rewrite E. Qed.

Lemma read_bars_eq b d f h : in_space b d f ->
  exists h', _read_bars b d f h =
    (Ok (filter (fun raw => raw <> 0) (map (fun i => space h b d f (0x10 + i * 4)) (range 6))), h') /\ space h' = space h.
Proof.
  intros (Hb & Hd & Hf). unfold _read_bars.
  assert (Hl : forall l h, (forall i, i ∈ l -> 0 <= i < 6) ->
    exists h', map_m l (fun i => config_read32 b d f (0x10 + i * 4)) h = (Ok (map (fun i => space h b d f (0x10 + i * 4)) l), h') /\
      space h' = space h).
  { intros l. induction l as [|i l IH]; intros h0 Hi; [by exists h0|]. cbn [map_m map].
    assert (Hi' : 0 <= i < 6) by (apply Hi; apply list_elem_of_here).
    destruct (config_read32_eq b d f (0x10 + i * 4) h0) as (h1 & E1 & S1); [unfold in_space; lia|].
    replace (reg (0x10 + i * 4)) with (0x10 + i * 4) in E1 by (unfold reg; Z.div_mod_to_equations; lia).
    rewrite (bind_step _ _ _ _ _ E1). destruct (IH h1) as (h2 & E2 & S2); [intros; apply Hi; by apply list_elem_of_further|].
    rewrite (bind_step _ _ _ _ _ E2). exists h2. unfold ret. rewrite S1 in *. by rewrite S2. }
  destruct (Hl (range 6) h) as (h' & E & S); [by intros i ?%elem_of_range2|].
  exists h'. by rewrite (bind_step _ _ _ _ _ E).
Qed.

Lemma probe_function_eq b d f bus ds h : in_space b d f ->
  (present (space h) b d f = true -> mkAddr b d f ∉ map fst ds) ->
  exists h', space h' = space h /\ _probe_function b d f (set_devices ds bus, h) =
    if present (space h) b d f
    then (Ok (Some (decode (space h) (mkAddr b d f))), (set_devices (ds ++ [found_at (space h) b d f]) bus, h'))
    else (Ok None, (set_devices ds bus, h')).
Proof.
  intros Hin Hk. unfold _probe_function.
  destruct (config_read32_eq b d f 0 h Hin) as (h1 & E1 & S1). change (reg 0) with 0 in E1.
  rewrite (bind_step _ _ _ _ _ (on_host_eq _ _ _ _ _ E1)). set (vd := space h b d f 0).
  assert (Em : forall x, Z.land x 0xFFFF = x mod 2 ^ 16) by (intros; by apply (land_mask _ 16)).
  assert (E8 : forall x, Z.land x 0xFF = x mod 2 ^ 8) by (intros; by apply (land_mask _ 8)).
  unfold present in *. fold vd in Hk |- *. rewrite !Em. destruct (vd mod 2 ^ 16 =? 0xFFFF) eqn:Ep; cbn [negb].
  { by exists h1. }
  destruct (config_read32_eq b d f 8 h1) as (h2 & E2 & S2); [unfold in_space in *; lia|]. change (reg 8) with 8 in E2.
  rewrite (bind_step _ _ _ _ _ (on_host_eq _ _ _ _ _ E2)).
  destruct (read_bars_eq b d f h2 Hin) as (h3 & E3 & S3). rewrite (bind_step _ _ _ _ _ (on_host_eq _ _ _ _ _ E3)).
  exists h3. split; [congruence|]. unfold bind, modify, ret. cbn [fst snd set_devices b_devices].
  rewrite dget_app_None by by apply Hk. unfold found_at, decode. cbn [a_bus a_device a_function].
  rewrite !Z.shiftr_div_pow2 by lia. rewrite ?Em, ?E8, S2, S1. done.
Qed.

Lemma adds_function b d f sp : in_space b d f ->
  adds sp (let! _ := _probe_function b d f in ret tt) (if present sp b d f then [found_at sp b d f] else []).
Proof.
  intros Hin bus ds h <- Hd. destruct (probe_function_eq b d f bus ds h Hin) as (h' & S & E).
  { intros Ep Hk. rewrite Ep, map_app in Hd. apply list.NoDup_app in Hd as (_ & Hd & _).
    apply (Hd _ Hk). apply list_elem_of_here. }
  exists h'. split; [|done]. destruct (present (space h) b d f); rewrite (bind_step _ _ _ _ _ E); [done|by rewrite app_nil_r].
Qed.

Lemma header_bit x : (Z.land (x / 256 ^ 2 mod 256) 0x80 =? 0) = negb (Z.testbit x 23).
Proof.
  assert (E : Z.land (x / 256 ^ 2 mod 256) 0x80 = if Z.testbit x 23 then 0x80 else 0).
  { apply Z.bits_inj'. intros n Hn. rewrite Z.land_spec. change 256 with (2 ^ 8) at 2. change (256 ^ 2) with (2 ^ 16).
    change 0x80 with (2 ^ 7). rewrite Z.pow2_bits_eqb by lia. destruct (Z.eqb_spec 7 n) as [<-|Hne].
    - rewrite Z.mod_pow2_bits_low, Z.div_pow2_bits by lia. rewrite andb_true_r. change (7 + 16) with 23.
      by destruct (Z.testbit x 23).
    - rewrite andb_false_r. destruct (Z.testbit x 23); [|by rewrite Z.bits_0].
      rewrite Z.pow2_bits_eqb by lia. symmetry. by apply Z.eqb_neq. }
  rewrite E. by destruct (Z.testbit x 23).
Qed.

Lemma flat_map_filter {A B} (p : A -> bool) (g : A -> B) l :
  flat_map (fun x => if p x then [g x] else []) l = map g (filter (fun x => p x) l).
Proof.
  induction l as [|x l IH]; [done|]. cbn [flat_map]. rewrite IH, filter_cons. by destruct (p x) eqn:E; case_decide.
Qed.

Lemma adds_device b d sp : 0 <= b < 256 -> 0 <= d < 32 -> adds sp (let! _ := _probe b d in ret tt) (found_dev sp b d).
Proof.
  intros Hb Hd bus ds h Hs Hn. subst sp. unfold found_dev, functions_of in *. unfold _probe.
  destruct (probe_function_eq b d 0 bus ds h) as (h1 & S1 & E1); [unfold in_space; lia| |].
  { intros Ep Hk. rewrite Ep, map_app in Hn. apply list.NoDup_app in Hn as (_ & Hn & _).
    apply (Hn _ Hk). apply list_elem_of_here. }
  rewrite bind_assoc. destruct (present (space h) b d 0); rewrite (bind_step _ _ _ _ _ E1).
  2:{ exists h1. by rewrite app_nil_r. }
  rewrite bind_assoc. destruct (config_read8_eq b d 0 0x0E h1) as (h2 & E2 & S2); [unfold in_space; lia|].
  rewrite (bind_step _ _ _ _ _ (on_host_eq _ _ _ _ _ E2)). unfold byte_of. change (reg 0x0E) with 0x0C. change (0x0E mod 4) with 2.
  rewrite header_bit, negb_involutive. unfold multifunction in *. rewrite S1 in *.
  assert (A : adds (space h) (if Z.testbit (space h b d 0 0x0C) 23
      then for_each (range2 1 8) (fun f => let! _ := _probe_function b d f in ret tt) else ret tt)
    (map (found_at (space h) b d) (if Z.testbit (space h b d 0 0x0C) 23 then filter (fun f => present (space h) b d f) (range2 1 8) else []))).
  { destruct (Z.testbit _ 23); [|apply adds_ret]. rewrite <- flat_map_filter. apply adds_for.
    intros f Hf%elem_of_range2. apply adds_function. unfold in_space. lia. }
  destruct (A bus (ds ++ [found_at (space h) b d 0]) h2) as (h3 & E3 & S3); [congruence|by rewrite <- app_assoc|].
  exists h3. split; [|congruence]. rewrite bind_assoc, (bind_step _ _ _ _ _ E3). cbn [map]. by rewrite <- app_assoc.
Qed.

(** After [enumerate] the bus holds exactly the functions that answer in
    configuration space, each with the fields of its header, in the order of
    their addresses; the other functions of a device are looked for when
    function 0 says there are some. *)
Theorem pci_enumerate_exact h : exists h',
  enumerate (PCIBus_init (C := C) (I := I), h) = (Ok tt, (set_devices (found (space h)) PCIBus_init, h')).
Proof.
  assert (A : adds (space h) enumerate (found (I := I) (space h))).
  { apply adds_for. intros b Hb%elem_of_range2. apply adds_for. intros d Hd%elem_of_range2. by apply adds_device. }
  destruct (A PCIBus_init [] h eq_refl) as (h' & E & _); [apply found_keys|]. by exists h'.
Qed.
End scan.

(** ** Binding *)

Section binding.
Context {H C I : Type} (try_driver : C -> PCIDevice I -> M H (bool * I)) (accept : C -> PCIDevice I -> bool * I).
Context (Htry : forall cls d h, exists h', try_driver cls d h = (Ok (accept cls d), h')).
Implicit Type b : PCIBus C I.

Definition bound b (d : PCIDevice I) : PCIDevice I :=
  match _find_driver d b with
  | Some cls => if (accept cls d).1 then set_driver (accept cls d).2 d else d
  | None => d
  end.

Lemma dset_mid (k : PCIAddress) (v v' : PCIDevice I) l1 l2 :
  k ∉ l1.*1 -> dset k v' (l1 ++ (k, v) :: l2) = l1 ++ (k, v') :: l2.
Proof.
  intros Hk. induction l1 as [|[k1 v1] l1 IH]; cbn [dset app].
  - by rewrite decide_True.
  - csimpl in Hk. rewrite not_elem_of_cons in Hk. rewrite decide_False by naive_solver. rewrite IH by naive_solver. done.
Qed.

Lemma bind_device_eq b a d l1 l2 h : a ∉ l1.*1 ->
  exists h', bind_device try_driver b (a, d) (set_devices (l1 ++ (a, d) :: l2) b, h) =
    (Ok tt, (set_devices (l1 ++ (a, bound b d) :: l2) b, h')).
Proof.
  intros Ha. unfold bind_device, bound. destruct (_find_driver d b) as [cls|]; [|by exists h].
  destruct (Htry cls d h) as (h1 & E1). exists h1. unfold bind, on_host, zoom. cbn [snd fst]. rewrite E1.
  destruct (accept cls d) as [[] drv]; [|done]. unfold modify. cbn [fst snd set_devices b_devices]. by rewrite dset_mid.
Qed.

(** Every device gets the driver of its most specific registration if that
    driver accepts it, and keeps what it had otherwise. *)
Lemma bind_drivers_spec b h : dict_ok (b_devices b) ->
  exists h', bind_drivers try_driver (b, h) =
    (Ok tt, (set_devices (map (fun '(a, d) => (a, bound b d)) (b_devices b)) b, h')).
Proof.
  intros Hok. unfold bind_drivers. unfold bind at 1, gets. cbn [fst].
  assert (G : forall todo done_ h, dict_ok (done_ ++ todo) ->
    exists h', for_each todo (bind_device try_driver b) (set_devices (done_ ++ todo) b, h) =
      (Ok tt, (set_devices (done_ ++ map (fun '(a, d) => (a, bound b d)) todo) b, h'))).
  { intros todo. induction todo as [|[a d] todo IH]; intros done_ h0 Hd; [by exists h0|]. cbn [for_each map].
    assert (Ha : a ∉ done_.*1).
    { unfold dict_ok in Hd. rewrite fmap_app in Hd. apply list.NoDup_app in Hd as (_ & Hd & _).
      intros Hin. apply (Hd _ Hin). apply list_elem_of_here. }
    destruct (bind_device_eq b a d done_ todo h0 Ha) as (h1 & E1). rewrite (bind_step _ _ _ _ _ E1).
    destruct (IH (done_ ++ [(a, bound b d)]) h1) as (h' & E).
    - unfold dict_ok in *. rewrite !fmap_app in *. by rewrite <- app_assoc.
    - exists h'. by rewrite <- !app_assoc in E. }
  destruct (G (b_devices b) [] h Hok) as (h' & E). exists h'. cbn [app] in E.
  by replace (set_devices (b_devices b) b) with b in E by by destruct b.
Qed.
End binding.

(** ** A small bus *)

(** Slot 3 of bus 0 has two functions, slot 4 one: a host bridge that keeps the
    laws, whose state is the address register. *)
Definition toy_space (b d f r : Z) : Z :=
  if (b =? 0) && (d =? 3) && ((f =? 0) || (f =? 5)) then
    (if r =? 0 then 0x10421AF4 else if r =? 8 then 0x01000001 else if r =? 0x0C then 0x00800000 else if r =? 0x10 then 0xFEB00004 else 0)
  else if (b =? 0) && (d =? 4) then (if r =? 0 then 0x10008086 else if r =? 8 then 0x02000000 else 0)
  else 0xFFFFFFFF.
#[global] Instance toy_host : PciHost Z := {
  outl port v := fun h => (Ok tt, if port =? CONFIG_ADDRESS then v else h);
  inl port := fun h =>
    (Ok (toy_space (h / 2 ^ 16 mod 256) (h / 2 ^ 11 mod 32) (h / 2 ^ 8 mod 8) (h mod 256)), h);
}.
#[global] Instance toy_host_laws : PciHostLaws Z.
Proof.
  refine {| space := fun _ => toy_space |}.
  - intros h b d f r Hb Hd Hf Hr _. unfold bind. cbn [outl inl toy_host]. rewrite Z.eqb_refl. eexists. split; [|done].
    do 2 f_equal. change (2 ^ 31) with 2147483648. change (2 ^ 16) with 65536. change (2 ^ 11) with 2048. change (2 ^ 8) with 256.
    f_equal; Z.div_mod_to_equations; lia.
  - intros h b d f r. unfold toy_space. repeat case_match; lia.
Defined.

Lemma pci_enumerate_exact_witness : exists h' : Z,
  enumerate (PCIBus_init (C := unit) (I := unit), 0) = (Ok tt, (set_devices (found toy_space) PCIBus_init, h')) /\
  map fst (found (I := unit) toy_space) = [mkAddr 0 3 0; mkAddr 0 3 5; mkAddr 0 4 0].
Proof.
  destruct (pci_enumerate_exact (C := unit) (I := unit) (0 : Z)) as (h' & E). exists h'. split; [exact E|].
  by vm_compute.
Defined.
