(* ===== verification/VirtioPci.v ===== *)
(** * The VirtIO-PCI block driver (kernel/drivers/block/virtio_blk_pci.py)

    [VirtioPciBlk]: the walk of the PCI capability list, the register block of
    the modern interface, probing, and block requests, which use the rings of
    Virtio.v's sibling driver with 16-bit indices and a bounded wait.  The
    port accesses of the configuration reads are operations on the machine the
    memory accesses work on. *)

From Stdlib Require Import ZArith Lia.
From stdpp Require Import base list gmap numbers.
From S2P Require Import Prelude Bytes Dict Hw Pci Virtio.

Local Open Scope Z_scope.

Definition VIRTIO_VENDOR : Z := 0x1AF4.
Definition VIRTIO_BLK_DEV_MODERN : Z := 0x1042.
Definition VIRTIO_BLK_DEV_LEGACY : Z := 0x1001.
Definition VIRTIO_PCI_CAP_COMMON_CFG : Z := 1.
Definition VIRTIO_PCI_CAP_NOTIFY_CFG : Z := 2.
Definition VIRTIO_PCI_CAP_DEVICE_CFG : Z := 4.
Definition STATUS_FEATURES_OK : Z := 0x08.
Definition PCI_CMD_MEM_SPACE : Z := 0x02.
Definition PCI_CMD_BUS_MASTER : Z := 0x04.

Section regs.
Context {Dv : Type} `{Machine Dv} `{!PciHost (Hw Dv)}.
Abbreviation hwm := (M (Hw Dv)).

(** ** PCI capabilities *)

Definition _bar_address (bus dev func bar_index : Z) : hwm (Z * bool) :=
  let off := 0x10 + bar_index * 4 in
  let! raw := config_read32 bus dev func off in
  if negb (Z.land raw 0x1 =? 0) then ret (Z.land raw 0xFFFFFFFC, true) else
  let is_64 := Z.land (Z.shiftr raw 1) 0x3 =? 2 in
  let addr := Z.land raw 0xFFFFFFF0 in
  if is_64 then
    let! hi := config_read32 bus dev func (off + 4) in
    ret (Z.lor addr (Z.shiftl (Z.land hi 0xFFFFFFFF) 32), false)
  else ret (addr, false).

(** [(mmio_base, offset, length, notify_mult)] *)
Definition cap : Type := Z * Z * Z * Z.

(** One vendor-specific capability at [ptr]. *)
Definition read_cap (b d f ptr : Z) (caps : list (Z * cap)) (cache : list (Z * Z)) : hwm (list (Z * cap) * list (Z * Z)) :=
  let! cfg_type := config_read8 b d f (ptr + 3) in
  let! bar := config_read8 b d f (ptr + 4) in
  let bar_idx := Z.land bar 0x07 in
  let! offset := config_read32 b d f (ptr + 8) in
  let! length := config_read32 b d f (ptr + 12) in
  let! notify_mult := if cfg_type =? VIRTIO_PCI_CAP_NOTIFY_CFG then config_read32 b d f (ptr + 16) else ret 0 in
  let! cache := match dget bar_idx cache with
                | Some _ => ret cache
                | None => let! (addr, is_io) := _bar_address b d f bar_idx in
                          ret (dset bar_idx (if is_io : bool then 0 else addr) cache)
                end in
  let base := default 0 (dget bar_idx cache) in
  if base =? 0 then ret (caps, cache)
  else ret (dset cfg_type (base + offset, offset, length, notify_mult) caps, cache).

(** The loop of [_walk_caps]; [guard] as in the source. *)
Fixpoint walk_loop (guard : nat) (b d f ptr : Z) (caps : list (Z * cap)) (cache : list (Z * Z)) : hwm (list (Z * cap)) :=
  if ptr =? 0 then ret caps else
  match guard with
  | O => ret caps
  | S guard =>
      let! cap_id := config_read8 b d f (ptr + 0) in
      let! nxt := config_read8 b d f (ptr + 1) in
      let! (caps, cache) := if cap_id =? 0x09 then read_cap b d f ptr caps cache else ret (caps, cache) in
      walk_loop guard b d f (Z.land nxt 0xFC) caps cache
  end.

Definition _walk_caps (a : PCIAddress) : hwm (list (Z * cap)) :=
  let '(b, d, f) := (a_bus a, a_device a, a_function a) in
  let! status := config_read16 b d f 0x06 in
  if Z.land status 0x10 =? 0 then ret [] else
  let! p := config_read8 b d f 0x34 in
  walk_loop 32 b d f (Z.land p 0xFC) [] [].

Definition _enable_pci_master (a : PCIAddress) : hwm unit :=
  let '(b, d, f) := (a_bus a, a_device a, a_function a) in
  let! cmd := config_read16 b d f 0x04 in
  let new := Z.lor (Z.lor cmd PCI_CMD_MEM_SPACE) PCI_CMD_BUS_MASTER in
  if new =? cmd then ret tt else
  let! full := config_read32 b d f 0x04 in
  let full := Z.lor (Z.land full (Z.lnot 0xFFFF)) (Z.land new 0xFFFF) in
  outl 0xCF8 (Z.lor (Z.lor (Z.lor (Z.lor (Z.shiftl 1 31) (Z.shiftl b 16)) (Z.shiftl d 11)) (Z.shiftl f 8)) (Z.land 0x04 0xFC)) ;;;
  outl 0xCFC full.

(** ** The common configuration block at [base] *)

Definition device_feature_select (base v : Z) : hwm unit := mmio_write32 (base + 0x00) v.
Definition device_feature (base : Z) : hwm Z := mmio_read32 (base + 0x04).
Definition driver_feature_select (base v : Z) : hwm unit := mmio_write32 (base + 0x08) v.
Definition driver_feature (base v : Z) : hwm unit := mmio_write32 (base + 0x0C) v.
Definition status (base : Z) : hwm Z := mmio_read8 (base + 0x14).
Definition set_status (base v : Z) : hwm unit := mmio_write8 (base + 0x14) v.

Definition _r16_at (base off : Z) : hwm Z :=
  let! w := mmio_read32 (base + Z.land off (Z.lnot 0x3)) in
  ret (Z.land (Z.shiftr w (Z.land off 0x2 * 8)) 0xFFFF).
Definition _w16_at (base off v : Z) : hwm unit :=
  let word_off := Z.land off (Z.lnot 0x3) in
  let shift := Z.land off 0x2 * 8 in
  let! cur := mmio_read32 (base + word_off) in
  let cur := Z.land cur (Z.lnot (Z.shiftl 0xFFFF shift)) in
  let cur := Z.lor cur (Z.shiftl (Z.land v 0xFFFF) shift) in
  mmio_write32 (base + word_off) cur.

Definition queue_select (base v : Z) : hwm unit := _w16_at base 0x16 v.
Definition queue_size (base : Z) : hwm Z := _r16_at base 0x18.
Definition set_queue_size (base v : Z) : hwm unit := _w16_at base 0x18 v.
Definition set_queue_msix_vector (base v : Z) : hwm unit := _w16_at base 0x1A v.
Definition set_queue_enable (base v : Z) : hwm unit := _w16_at base 0x1C v.
Definition queue_notify_off (base : Z) : hwm Z := _r16_at base 0x1E.

Definition set_queue_addr (base off addr : Z) : hwm unit :=
  mmio_write32 (base + off) (Z.land addr 0xFFFFFFFF) ;;;
  mmio_write32 (base + (off + 4)) (Z.land (Z.shiftr addr 32) 0xFFFFFFFF).
Definition set_queue_desc (base addr : Z) : hwm unit := set_queue_addr base 0x20 addr.
Definition set_queue_driver (base addr : Z) : hwm unit := set_queue_addr base 0x28 addr.
Definition set_queue_device (base addr : Z) : hwm unit := set_queue_addr base 0x30 addr.
End regs.

(** ** The driver *)

Record VirtioPciBlk : Type := mkPciBlk {
  k_common : option Z; k_notify_base : Z; k_notify_mult : Z; k_dev_cfg : Z; k_num_sectors : Z;
  k_desc_phys : Z; k_avail_phys : Z; k_used_phys : Z;
  k_next_desc : Z; k_avail_idx : Z; k_last_used : Z; k_queue_size : Z; k_queue_notify_off : Z;
}.
Definition VirtioPciBlk_init : VirtioPciBlk := mkPciBlk None 0 0 0 0 0 0 0 0 0 0 QUEUE_SIZE 0.

Definition k_set_caps (common nb nm dc : Z) (s : VirtioPciBlk) : VirtioPciBlk :=
  mkPciBlk (Some common) nb nm dc (k_num_sectors s) (k_desc_phys s) (k_avail_phys s) (k_used_phys s)
    (k_next_desc s) (k_avail_idx s) (k_last_used s) (k_queue_size s) (k_queue_notify_off s).
Definition k_set_sectors (n : Z) (s : VirtioPciBlk) : VirtioPciBlk :=
  mkPciBlk (k_common s) (k_notify_base s) (k_notify_mult s) (k_dev_cfg s) n (k_desc_phys s) (k_avail_phys s) (k_used_phys s)
    (k_next_desc s) (k_avail_idx s) (k_last_used s) (k_queue_size s) (k_queue_notify_off s).
Definition k_set_size (p : Z) (s : VirtioPciBlk) : VirtioPciBlk :=
  mkPciBlk (k_common s) (k_notify_base s) (k_notify_mult s) (k_dev_cfg s) (k_num_sectors s) (k_desc_phys s) (k_avail_phys s)
    (k_used_phys s) (k_next_desc s) (k_avail_idx s) (k_last_used s) p (k_queue_notify_off s).
Definition k_set_notify_off (n : Z) (s : VirtioPciBlk) : VirtioPciBlk :=
  mkPciBlk (k_common s) (k_notify_base s) (k_notify_mult s) (k_dev_cfg s) (k_num_sectors s) (k_desc_phys s) (k_avail_phys s)
    (k_used_phys s) (k_next_desc s) (k_avail_idx s) (k_last_used s) (k_queue_size s) n.
Definition k_set_queue (desc avail used : Z) (s : VirtioPciBlk) : VirtioPciBlk :=
  mkPciBlk (k_common s) (k_notify_base s) (k_notify_mult s) (k_dev_cfg s) (k_num_sectors s) desc avail used
    (k_next_desc s) (k_avail_idx s) (k_last_used s) (k_queue_size s) (k_queue_notify_off s).
Definition k_set_next (n : Z) (s : VirtioPciBlk) : VirtioPciBlk :=
  mkPciBlk (k_common s) (k_notify_base s) (k_notify_mult s) (k_dev_cfg s) (k_num_sectors s) (k_desc_phys s) (k_avail_phys s)
    (k_used_phys s) n (k_avail_idx s) (k_last_used s) (k_queue_size s) (k_queue_notify_off s).
Definition k_set_avail (n : Z) (s : VirtioPciBlk) : VirtioPciBlk :=
  mkPciBlk (k_common s) (k_notify_base s) (k_notify_mult s) (k_dev_cfg s) (k_num_sectors s) (k_desc_phys s) (k_avail_phys s)
    (k_used_phys s) (k_next_desc s) n (k_last_used s) (k_queue_size s) (k_queue_notify_off s).
Definition k_set_last (n : Z) (s : VirtioPciBlk) : VirtioPciBlk :=
  mkPciBlk (k_common s) (k_notify_base s) (k_notify_mult s) (k_dev_cfg s) (k_num_sectors s) (k_desc_phys s) (k_avail_phys s)
    (k_used_phys s) (k_next_desc s) (k_avail_idx s) n (k_queue_size s) (k_queue_notify_off s).

(** [p = 1; while p * 2 <= n: p *= 2]; [n] is at most 65535. *)
Fixpoint pow2_below (fuel : nat) (p n : Z) : Z :=
  match fuel with
  | O => p
  | S fuel => if p * 2 <=? n then pow2_below fuel (p * 2) n else p
  end.

Section driver.
Context {Dv : Type} `{Machine Dv} `{!PciHost (Hw Dv)}.

Definition pci_st : Type := VirtioPciBlk * Hw Dv.
Abbreviation io := (M pci_st).
Definition at_hw {A} (m : M (Hw Dv) A) : io A := zoom snd (fun h s => (fst s, h)) m.
Definition field {A} (f : VirtioPciBlk -> A) : io A := gets (fun s => f (fst s)).
Definition field_set (f : VirtioPciBlk -> VirtioPciBlk) : io unit := modify (fun s => (f (fst s), snd s)).

(** *** Probe *)

(** [for _ in range(8): if c.status() == 0: break] *)
Fixpoint await_reset (n : nat) (c : Z) : M (Hw Dv) unit :=
  match n with
  | O => ret tt
  | S n => let! s := status c in if s =? 0 then ret tt else await_reset n c
  end.

Definition negotiate_features (c : Z) : M (Hw Dv) bool :=
  set_status c 0 ;;;
  await_reset 8 c ;;;
  set_status c STATUS_ACK ;;;
  set_status c (Z.lor STATUS_ACK STATUS_DRIVER) ;;;
  device_feature_select c 1 ;;;
  let! feat_hi := device_feature c in
  device_feature_select c 0 ;;;
  let! _ := device_feature c in
  let accept_hi := if Z.land feat_hi 0x1 =? 0 then 0 else 0x1 in
  driver_feature_select c 0 ;;;
  driver_feature c 0 ;;;
  driver_feature_select c 1 ;;;
  driver_feature c accept_hi ;;;
  set_status c (Z.lor (Z.lor STATUS_ACK STATUS_DRIVER) STATUS_FEATURES_OK) ;;;
  let! s := status c in
  ret (negb (Z.land s STATUS_FEATURES_OK =? 0)).

(** From the capacity to the live queue. *)
Definition setup (c : Z) : io bool :=
  let! dc := field k_dev_cfg in
  let! cap_lo := at_hw (mmio_read32 (dc + 0)) in
  let! cap_hi := at_hw (mmio_read32 (dc + 4)) in
  field_set (k_set_sectors (Z.lor cap_lo (Z.shiftl cap_hi 32))) ;;;
  at_hw (queue_select c 0) ;;;
  let! max_q := at_hw (queue_size c) in
  if max_q =? 0 then ret false else
  let p := pow2_below 16 1 (Z.min max_q QUEUE_SIZE) in
  field_set (k_set_size p) ;;;
  at_hw (set_queue_size c p) ;;;
  at_hw (set_queue_msix_vector c 0xFFFF) ;;;
  let! off := at_hw (queue_notify_off c) in
  field_set (k_set_notify_off off) ;;;
  let desc_sz := p * 16 in
  let avail_sz := 4 + p * 2 + 2 in
  let used_off := Z.land (desc_sz + avail_sz + PAGE_SIZE - 1) (Z.lnot (PAGE_SIZE - 1)) in
  let used_sz := 4 + p * 8 + 2 in
  let! raw := at_hw (dma_alloc (used_off + used_sz + PAGE_SIZE)) in
  let base_phys := Z.land (raw + PAGE_SIZE - 1) (Z.lnot (PAGE_SIZE - 1)) in
  field_set (k_set_queue base_phys (base_phys + desc_sz) (base_phys + used_off)) ;;;
  at_hw (set_queue_desc c base_phys) ;;;
  at_hw (set_queue_driver c (base_phys + desc_sz)) ;;;
  at_hw (set_queue_device c (base_phys + used_off)) ;;;
  at_hw (set_queue_enable c 1) ;;;
  at_hw (set_status c (Z.lor (Z.lor (Z.lor STATUS_ACK STATUS_DRIVER) STATUS_FEATURES_OK) STATUS_DRIVER_OK)) ;;;
  ret true.

Definition probe {I} (dev : PCIDevice I) : io bool :=
  if negb (vendor_id dev =? VIRTIO_VENDOR) then ret false else
  if negb ((device_id dev =? VIRTIO_BLK_DEV_MODERN) || (device_id dev =? VIRTIO_BLK_DEV_LEGACY)) then ret false else
  at_hw (_enable_pci_master (p_addr dev)) ;;;
  let! caps := at_hw (_walk_caps (p_addr dev)) in
  match dget VIRTIO_PCI_CAP_COMMON_CFG caps, dget VIRTIO_PCI_CAP_NOTIFY_CFG caps, dget VIRTIO_PCI_CAP_DEVICE_CFG caps with
  | Some (common_base, _, _, _), Some (notify_base, _, _, notify_mult), Some (dev_cfg_base, _, _, _) =>
      field_set (k_set_caps common_base notify_base notify_mult dev_cfg_base) ;;;
      let! ok := at_hw (negotiate_features common_base) in
      if negb ok then ret false else setup common_base
  | _, _, _ => ret false
  end.

Definition remove : io unit :=
  let! c := field k_common in
  match c with Some c => at_hw (set_status c 0) | None => ret tt end.

(** *** Rings *)

Definition _write_desc (idx addr length flags nxt : Z) : io unit :=
  let! d := field k_desc_phys in at_hw (desc_write (d + idx * 16) addr length flags nxt).

Definition _avail_push (head : Z) : io unit :=
  let! ai := field k_avail_idx in
  let! n := field k_queue_size in
  let! av := field k_avail_phys in
  at_hw (write16 (av + 4 + ai mod n * 2) head) ;;;
  let ai := Z.land (ai + 1) 0xFFFF in
  field_set (k_set_avail ai) ;;;
  at_hw (write16 (av + 2) ai).

Definition _kick : io unit :=
  let! nb := field k_notify_base in
  let! off := field k_queue_notify_off in
  let! mult := field k_notify_mult in
  at_hw (mmio_write32 (nb + off * mult) 0).

Definition _used_idx : io Z :=
  let! u := field k_used_phys in
  let! w := at_hw (mmio_read32 u) in
  ret (Z.land (Z.shiftr w 16) 0xFFFF).

Definition _used_pop : io (Z * Z) :=
  let! u := field k_used_phys in
  let! lu := field k_last_used in
  let! n := field k_queue_size in
  let ring := u + 4 + lu mod n * 8 in
  let! desc_id := at_hw (mmio_read32 ring) in
  let! length := at_hw (mmio_read32 (ring + 4)) in
  field_set (k_set_last (Z.land (lu + 1) 0xFFFF)) ;;;
  ret (desc_id, length).

Definition next_desc : io Z :=
  let! d := field k_next_desc in
  let! n := field k_queue_size in
  field_set (k_set_next ((d + 1) mod n)) ;;;
  ret d.

(** *** Block I/O *)

Definition post (hdr data_phys stat_phys data_flags : Z) : io unit :=
  let! d0 := next_desc in
  let! d1 := next_desc in
  let! d2 := next_desc in
  _write_desc d0 hdr 16 VRING_DESC_F_NEXT d1 ;;;
  _write_desc d1 data_phys 512 data_flags d2 ;;;
  _write_desc d2 stat_phys 1 VRING_DESC_F_WRITE 0 ;;;
  _avail_push d0.

(** The wait; [spins_left] is 5000 less the sleeps so far. *)
Fixpoint wait_used (spins_left : nat) (target : Z) : io unit :=
  let! u := _used_idx in
  if u =? target then ret tt else
  at_hw sleep ;;;
  match spins_left with
  | O => raise TimeoutError
  | S spins_left => wait_used spins_left target
  end.

Definition pad_sector (data : bytes) : bytes := slice_to (data ++ zeros (Z.max 0 (512 - len data))) 512.

Definition spins_max : nat := Z.to_nat 5000.

Definition _submit (op lba : Z) (data : option bytes) : io (Z * Z) :=
  let! c := field k_common in
  match c with None => raise RuntimeError | Some _ =>
  let fill := fun p => match data with
                       | Some b => if op =? VIRTIO_BLK_T_OUT then copy_out p (pad_sector b) else ret tt
                       | None => ret tt
                       end in
  let! (hdr, data_phys, stat_phys) := at_hw (buffers op lba fill) in
  at_hw (mmio_write8 stat_phys 0xFF) ;;;
  let data_flags := if op =? VIRTIO_BLK_T_IN then Z.lor VRING_DESC_F_NEXT VRING_DESC_F_WRITE else VRING_DESC_F_NEXT in
  post hdr data_phys stat_phys data_flags ;;;
  _kick ;;;
  let! lu := field k_last_used in
  wait_used spins_max (Z.land (lu + 1) 0xFFFF) ;;;
  let! _ := _used_pop in
  ret (stat_phys, data_phys)
  end.

Definition read_sector (lba : Z) : io bytes :=
  let! (_, data_phys) := _submit VIRTIO_BLK_T_IN lba None in
  at_hw (copy_in data_phys).

Definition write_sector (lba : Z) (data : bytes) : io unit :=
  if 512 <? len data then raise ValueError else
  let! _ := _submit VIRTIO_BLK_T_OUT lba (Some data) in
  ret tt.
End driver.

(** *** Discovery

    A bound driver is a block driver or another one. *)
Section discovery.
Context {Dv O : Type} `{Machine Dv} `{!PciHost (Hw Dv)} {C : Type}.
Abbreviation pbus := (PCIBus C (VirtioPciBlk + O)).

Fixpoint first_blk (devs : list (PCIDevice (VirtioPciBlk + O))) : M (pbus * Hw Dv) (option VirtioPciBlk) :=
  match devs with
  | [] => ret None
  | dev :: devs' =>
      match driver dev with
      | Some (Datatypes.inl drv) => ret (Some drv)
      | Some (Datatypes.inr _) => first_blk devs'
      | None => fun s =>
          match probe dev (VirtioPciBlk_init, snd s) with
          | (Ok true, (drv, h)) =>
              (Ok (Some drv),
               (set_devices (dset (p_addr dev) (set_driver (Datatypes.inl drv) dev) (b_devices (fst s))) (fst s), h))
          | (Ok false, (_, h)) => first_blk devs' (fst s, h)
          | (Err e, (_, h)) => (Err e, (fst s, h))
          end
      end
  end.
Definition find_virtio_blk_pci : M (pbus * Hw Dv) (option VirtioPciBlk) :=
  let! b := gets fst in
  first_blk (find_by_id VIRTIO_VENDOR VIRTIO_BLK_DEV_MODERN b ++ find_by_id VIRTIO_VENDOR VIRTIO_BLK_DEV_LEGACY b).
End discovery.
