(* ===== verification/VirtioPciProps.v ===== *)
(** * The VirtIO-PCI driver

    Requests through the PCI driver are those of the abstract disk, with short
    writes padded with zeros, for any queue of at least three descriptors; the
    16-bit register accesses; the walk of the capability list.  At the end: the
    disk of VirtioProbe.v behind the PCI driver, and a configuration space with
    a circular capability list. *)

From Stdlib Require Import ZArith Lia.
From stdpp Require Import base list gmap numbers.
From S2P Require Import Prelude Bytes Dict Hw Virtio VirtioSpec VirtioMem VirtioProps VirtioProbe Pci VirtioPci.

Local Open Scope Z_scope.

Section driver.
Context {Dv : Type} `{VirtioDisk Dv} `{!VirtioLaws Dv} `{!CallocLaws Dv}.
Implicit Types (h : Hw Dv) (drv : VirtioPciBlk).

(** ** Running the driver's code *)

Lemma bind_field {A B} (f : VirtioPciBlk -> A) (k : A -> M (pci_st (Dv := Dv)) B) drv h :
  bind (field f) k (drv, h) = k (f drv) (drv, h).
Proof. done. Qed.
Lemma bind_field_set {B} f (k : unit -> M (pci_st (Dv := Dv)) B) drv h :
  bind (field_set f) k (drv, h) = k tt (f drv, h).
Proof. done. Qed.
Lemma at_hw_eq {A} (m : M (Hw Dv) A) drv h r h' : m h = (r, h') -> at_hw m (drv, h) = (r, (drv, h')).
Proof. intros E. unfold at_hw, zoom. simpl. by rewrite E. Qed.
Lemma bind_at_hw {A B} (m : M (Hw Dv) A) (k : A -> M (pci_st (Dv := Dv)) B) drv h a h' :
  m h = (Ok a, h') -> bind (at_hw m) k (drv, h) = k a (drv, h').
Proof. intros E. apply bind_step. by apply at_hw_eq. Qed.

Definition k_queue drv : Vq := mkVq (k_queue_size drv) (k_desc_phys drv) (k_avail_phys drv) (k_used_phys drv).

Record pci_inv (blk : Z * Z) drv h : Prop := {
  pi_ring : ring_inv (k_queue drv) blk (k_avail_idx drv) (k_last_used drv) (k_next_desc drv) h;
  pi_bell : doorbell = k_notify_base drv + k_queue_notify_off drv * k_notify_mult drv;
  pi_common : k_common drv <> None;
}.

(** ** Completion *)

Lemma k_used_idx_eq drv h c :
  dev_claims (k_used_phys drv) = false -> used_at (k_queue drv) c (h_mem h) ->
  _used_idx (drv, h) = (Ok (c mod 65536), (drv, h)).
Proof.
  intros Hr Hu. unfold _used_idx. rewrite bind_field. erewrite bind_at_hw by (by apply mmio_read_ram).
  unfold ret. by rewrite <- (used_index _ _ _ Hu).
Qed.

Section wait.
Context (drv : VirtioPciBlk) (rq : Req) (ai : Z).
Abbreviation q := (k_queue drv).
Context (Hq : queue_fit q) (Hdata : beside q (r_data rq) 512) (Hstat : beside q (r_stat rq) 1).
Context (Hram : dev_claims (k_used_phys drv) = false) (Hsec : 0 <= r_sector rq).

Lemma wait_served n h h' : used_at q ai (h_mem h) -> served q rq ai h h' ->
  wait_used n (Z.land (ai + 1) 0xFFFF) (drv, h') = (Ok tt, (drv, h')).
Proof.
  intros Hu [_ Hm _ _ _ _].
  assert (E : _used_idx (drv, h') = (Ok ((ai + 1) mod 65536), (drv, h'))).
  { apply k_used_idx_eq; [done|]. rewrite Hm. apply serve_used; try done. by apply sector_len. }
  rewrite target_mod. destruct n; cbn [wait_used]; rewrite (bind_step _ _ _ _ _ E); by rewrite Z.eqb_refl.
Qed.

Lemma wait_turn n h d m :
  cursor (h_dev h) = ai mod 65536 -> used_at q ai (h_mem h) ->
  outstanding q rq (h_dev h) (h_mem h) -> turn q rq (h_dev h) (h_mem h) d m -> (patience (h_dev h) <= n)%nat ->
  exists h', wait_used n (Z.land (ai + 1) 0xFFFF) (drv, mkHw m (h_heap h) d) = (Ok tt, (drv, h')) /\ served q rq ai h h'.
Proof.
  revert h d m. induction n as [|n IH]; intros h d m Hc Hu Ho (Hv & Hcap & Ht) Hf;
    destruct Ht as [(-> & Hc' & Hd' & Hlt)|(-> & Hc' & Hd')]; try lia.
  - eexists. split; [eapply wait_served; [exact Hu|]|]; by apply turn_served.
  - destruct h as [m0 hp d0]. cbn [h_heap h_mem h_dev] in *.
    assert (Ho' : outstanding q rq d m0) by (destruct Ho as (_ & ? & ?); unfold outstanding; by rewrite Hc').
    destruct (dev_run d m0) as [d2 m2] eqn:Er.
    destruct (IH (mkHw m0 hp d) d2 m2) as (h' & Hpoll & Hs); cbn [h_heap h_mem h_dev]; try done; [congruence|by apply run_law|lia|].
    exists h'. split.
    + cbn [wait_used]. erewrite bind_step by (apply k_used_idx_eq; [done|exact Hu]).
      rewrite target_later.
      erewrite bind_at_hw; [exact Hpoll|]. unfold sleep. cbn [h_heap h_mem h_dev]. by rewrite Er.
    + by apply (served_idle q rq ai m0 hp d0 d).
  - eexists. split; [eapply wait_served; [exact Hu|]|]; by apply turn_served.
Qed.
End wait.

(** ** A request *)

Definition bump16 (x : Z) : Z := Z.land (x + 1) 0xFFFF.

Lemma bump16_mod x : bump16 x mod 65536 = (x + 1) mod 65536.
Proof. unfold bump16. rewrite target_mod. by rewrite Z.mod_mod by lia. Qed.
Lemma le_bytes_bump x : le_bytes 2 (bump16 x) = le_bytes 2 (x + 1).
Proof.
  rewrite <- (le_bytes_mod 2 (bump16 x)), <- (le_bytes_mod 2 (x + 1)). change (256 ^ Z.of_nat 2) with 65536. by rewrite bump16_mod.
Qed.

Lemma k_write_desc_eq drv h idx addr length flags nxt :
  ram (k_desc_phys drv + idx * 16) 16 -> 0 <= flags < 65536 -> 0 <= nxt < 65536 ->
  _write_desc idx addr length flags nxt (drv, h) =
    (Ok tt, (drv, setm h (mwrite (h_mem h) (k_desc_phys drv + idx * 16) (desc_bytes addr length flags nxt)))).
Proof. intros. unfold _write_desc. rewrite bind_field. by apply at_hw_eq, desc_write_ram. Qed.

Lemma k_avail_push_eq drv h head : 0 < k_queue_size drv -> ram (k_avail_phys drv) (6 + 2 * k_queue_size drv) ->
  _avail_push head (drv, h) =
    (Ok tt, (k_set_avail (bump16 (k_avail_idx drv)) drv,
             setm h (mwrite (mwrite (h_mem h) (k_avail_phys drv + 4 + k_avail_idx drv mod k_queue_size drv * 2) (le_bytes 2 head))
                       (k_avail_phys drv + 2) (le_bytes 2 (k_avail_idx drv + 1))))).
Proof.
  intros Hn Hr. pose proof (Z.mod_pos_bound (k_avail_idx drv) (k_queue_size drv) Hn). unfold _avail_push. rewrite !bind_field.
  erewrite bind_at_hw by (apply write16_ram; eapply ram_sub; [exact Hr|lia..]). cbn zeta. rewrite bind_field_set.
  erewrite at_hw_eq by (apply write16_ram; eapply ram_sub; [exact Hr|lia..]). rewrite setm_setm. cbn [setm h_mem].
  fold (bump16 (k_avail_idx drv)). by rewrite le_bytes_bump.
Qed.

Lemma k_used_pop_eq drv h : 0 < k_queue_size drv -> ram (k_used_phys drv) (4 + 8 * k_queue_size drv) ->
  exists x, _used_pop (drv, h) = (Ok x, (k_set_last (bump16 (k_last_used drv)) drv, h)).
Proof.
  intros Hn Hr. pose proof (Z.mod_pos_bound (k_last_used drv) (k_queue_size drv) Hn). unfold _used_pop. rewrite !bind_field.
  erewrite bind_at_hw by (apply mmio_read_ram, Hr; lia).
  erewrite bind_at_hw by (apply mmio_read_ram, Hr; lia). rewrite bind_field_set. by eexists.
Qed.

Definition desc_succ drv (d : Z) : Z := (d + 1) mod k_queue_size drv.
Definition post_drv drv : VirtioPciBlk :=
  k_set_avail (bump16 (k_avail_idx drv)) (k_set_next (desc_succ drv (desc_succ drv (desc_succ drv (k_next_desc drv)))) drv).
Definition submit_drv drv : VirtioPciBlk := k_set_last (bump16 (k_last_used drv)) (post_drv drv).
Definition post_mem drv (hdr data stat flags : Z) (m : mem) : mem :=
  let d1 := desc_succ drv (k_next_desc drv) in
  push_mem (k_queue drv) (k_avail_idx drv) (k_next_desc drv) d1 (desc_succ drv d1) hdr data stat flags m.

Lemma desc_succ_distinct drv d : 3 <= k_queue_size drv -> 0 <= d < k_queue_size drv ->
  let d1 := desc_succ drv d in let d2 := desc_succ drv d1 in
  0 <= d1 < k_queue_size drv /\ 0 <= d2 < k_queue_size drv /\ d <> d1 /\ d1 <> d2 /\ d <> d2.
Proof.
  unfold desc_succ. intros Hn Hd. cbn zeta. set (n := k_queue_size drv) in *. clearbody n.
  assert (E : forall x, 0 <= x < n -> (x + 1) mod n = if x + 1 =? n then 0 else x + 1).
  { intros x Hx. destruct (Z.eqb_spec (x + 1) n) as [->|]; [apply Z.mod_same; lia|apply Z.mod_small; lia]. }
  rewrite (E d) by done. destruct (Z.eqb_spec (d + 1) n).
  - rewrite (E 0) by lia. destruct (Z.eqb_spec (0 + 1) n); lia.
  - rewrite (E (d + 1)) by lia. destruct (Z.eqb_spec (d + 1 + 1) n); lia.
Qed.

Lemma bind_next {B} (k : Z -> M (pci_st (Dv := Dv)) B) drv h :
  bind next_desc k (drv, h) = k (k_next_desc drv) (k_set_next (desc_succ drv (k_next_desc drv)) drv, h).
Proof. done. Qed.

Lemma post_eq drv h hdr data stat flags :
  queue_fit (k_queue drv) -> ram (k_desc_phys drv) (q_end (k_queue drv) - k_desc_phys drv) ->
  0 <= k_next_desc drv < k_queue_size drv -> 0 <= flags < 65536 ->
  post hdr data stat flags (drv, h) = (Ok tt, (post_drv drv, setm h (post_mem drv hdr data stat flags (h_mem h)))).
Proof.
  intros Hq Hr Hn Hf. destruct Hq as [Q0 _ Q1 Q2]. unfold q_end in Hr. cbn [k_queue q_desc q_avail q_used q_num] in *.
  destruct (desc_succ_distinct drv _ ltac:(lia) Hn) as (N1 & N2 & _).
  assert (Hd : forall d, 0 <= d < k_queue_size drv -> ram (k_desc_phys drv + d * 16) 16).
  { intros d Hd. eapply ram_sub; [exact Hr|lia..]. }
  unfold post. rewrite !bind_next. cbn [k_set_next k_next_desc].
  erewrite bind_step by (apply k_write_desc_eq; [by apply Hd|unfold VRING_DESC_F_NEXT; lia|unfold desc_succ in *; cbn [k_queue_size k_set_next]; lia]).
  erewrite bind_step by (apply k_write_desc_eq; [by apply Hd|lia|unfold desc_succ in *; cbn [k_queue_size k_set_next]; lia]).
  erewrite bind_step by (apply k_write_desc_eq; [by apply Hd|unfold VRING_DESC_F_WRITE; lia|lia]).
  apply k_avail_push_eq; cbn [k_set_next k_avail_phys k_queue_size]; [lia|]. eapply ram_sub; [exact Hr|lia..].
Qed.

(** From the published chain to the completion. *)
Definition complete : M (pci_st (Dv := Dv)) unit :=
  _kick ;;; let! lu := field k_last_used in
  wait_used spins_max (Z.land (lu + 1) 0xFFFF) ;;; let! _ := _used_pop in ret tt.

Lemma complete_served blk drv h hdr data stat flags op lba :
  let q := k_queue drv in
  let m1 := post_mem drv hdr data stat flags (h_mem h) in
  let rq := mkReq op lba data stat (k_next_desc drv) in
  pci_inv blk drv h -> mread (h_mem h) hdr 16 = header op lba ->
  beside q hdr 16 -> beside q data 512 -> beside q stat 1 ->
  0 <= hdr < 2 ^ 64 -> 0 <= data < 2 ^ 64 -> 0 <= stat < 2 ^ 64 -> 0 <= lba < 2 ^ 64 ->
  (op = VIRTIO_BLK_T_IN /\ flags = 3) \/ (op = VIRTIO_BLK_T_OUT /\ flags = 1) ->
  (latency <= spins_max)%nat ->
  exists h', (post hdr data stat flags ;;; complete) (drv, h) = (Ok tt, (submit_drv drv, h')) /\
    served q rq (k_avail_idx drv) (setm h m1) h' /\ pci_inv blk (submit_drv drv) h'.
Proof.
  intros q m1 rq [Hi Hbell Hcom] Hh Bh Bd Bs Rh Rd Rs Rl Hop Hlat. subst q.
  destruct Hi as [Hq Hvq Hcur Hlast Hnext Hused Hheap [Hin1 Hin2] Hram].
  pose proof (qf_num _ Hq) as Hnum. pose proof (qf_used _ Hq) as Hqu. pose proof (qf_avail _ Hq) as Hqa.
  change (q_num (k_queue drv)) with (k_queue_size drv) in *.
  destruct (desc_succ_distinct drv _ ltac:(lia) Hnext) as (N1 & N2 & D1 & D2 & D3).
  assert (Hr : ram (k_desc_phys drv) (q_end (k_queue drv) - k_desc_phys drv)).
  { eapply ram_sub; [exact Hram|exact Hin1|]. change (k_desc_phys drv) with (q_desc (k_queue drv)). lia. }
  assert (Hru : ram (k_used_phys drv) (4 + 8 * k_queue_size drv)).
  { eapply ram_sub; [exact Hr|..]; unfold q_end; cbn [k_queue q_desc q_avail q_used q_num] in *; lia. }
  assert (Hu1 : used_at (k_queue drv) (k_avail_idx drv) m1).
  { unfold used_at, m1, post_mem. rewrite push_outside; try done. right. apply Hq. }
  assert (Ho : outstanding (k_queue drv) rq (h_dev h) m1).
  { split_and!; [done|..]; unfold m1, post_mem.
    - rewrite push_index by done. by rewrite Hcur.
    - rewrite Hcur. apply push_chain; try done. unfold beside, q_end in Bh.
      change (q_num (k_queue drv)) with (k_queue_size drv) in *. lia. }
  destruct (dev_write doorbell 0 (h_dev h) m1) as [d m] eqn:Eb.
  destruct (wait_turn (post_drv drv) rq (k_avail_idx drv) Hq Bd Bs (Hru _ ltac:(split; [apply Z.le_refl|lia])) (proj1 Rl) spins_max (setm h m1) d m)
    as (h' & Hwait & Hs); try done; [by apply (bell_law (k_queue drv) rq)|by etrans; [apply patience_bound|]|].
  exists h'. split_and!; [|done|].
  - erewrite bind_step by (apply post_eq; [done|done|done|lia]).
    unfold complete, _kick. rewrite bind_assoc, bind_field, bind_assoc, bind_field, bind_assoc, bind_field.
    erewrite bind_at_hw.
    2:{ unfold mmio_write32, mmio_write. change (k_notify_base (post_drv drv)) with (k_notify_base drv).
        change (k_queue_notify_off (post_drv drv)) with (k_queue_notify_off drv).
        change (k_notify_mult (post_drv drv)) with (k_notify_mult drv).
        rewrite <- Hbell, doorbell_claimed. change (0 mod 256 ^ Z.of_nat 4) with 0. cbn [setm h_dev h_mem h_heap].
        fold m1. rewrite Eb. reflexivity. }
    rewrite bind_field. change (k_last_used (post_drv drv)) with (k_last_used drv).
    assert (Et : Z.land (k_last_used drv + 1) 0xFFFF = Z.land (k_avail_idx drv + 1) 0xFFFF).
    { rewrite !target_mod, (Z.add_mod (k_last_used drv)), (Z.add_mod (k_avail_idx drv)) by lia. congruence. }
    rewrite Et, (bind_step _ _ _ _ _ Hwait).
    destruct (k_used_pop_eq (post_drv drv) h') as (x & Ex); [cbn; lia|exact Hru|by rewrite (bind_step _ _ _ _ _ Ex)].
  - constructor; [|done..]. apply (ring_inv_mod _ _ (k_avail_idx drv + 1) (k_last_used drv + 1)); [apply bump16_mod..|].
    apply (served_ring (k_queue drv) blk rq (k_avail_idx drv) (k_last_used drv) (k_next_desc drv) _ (setm h m1)); try done.
    + by apply Z.mod_pos_bound; cbn; lia.
    + apply Rl.
Qed.

Lemma complete_then {A} (x : A) hdr data stat flags s s' :
  (post hdr data stat flags ;;; complete) s = (Ok tt, s') ->
  (post hdr data stat flags ;;; _kick ;;; let! lu := field k_last_used in
   wait_used spins_max (Z.land (lu + 1) 0xFFFF) ;;; let! _ := _used_pop in ret x) s = (Ok x, s').
Proof.
  intros (u1 & s1 & E1 & E)%bind_Ok. unfold complete in E. apply bind_Ok in E as (u2 & s2 & E2 & E).
  apply bind_Ok in E as (lu & s3 & E3 & E). apply bind_Ok in E as (u4 & s4 & E4 & E). apply bind_Ok in E as (u5 & s5 & E5 & E).
  rewrite (bind_step _ _ _ _ _ E1), (bind_step _ _ _ _ _ E2), (bind_step _ _ _ _ _ E3), (bind_step _ _ _ _ _ E4), (bind_step _ _ _ _ _ E5).
  unfold ret in *. congruence.
Qed.

(** ** Sectors *)

Definition pci_holds (blk : Z * Z) (cap : Z) (dk : Z -> bytes) (s : pci_st (Dv := Dv)) : Prop :=
  pci_inv blk (fst s) (snd s) /\ capacity (h_dev (snd s)) = cap /\ forall l, disk (h_dev (snd s)) l = dk l.

Definition submit_fill (op : Z) (data : option bytes) (p : Z) : M (Hw Dv) unit :=
  match data with
  | Some b => if op =? VIRTIO_BLK_T_OUT then copy_out p (pad_sector b) else ret tt
  | None => ret tt
  end.

Lemma submit_io blk cap dk s op lba data payload :
  pci_holds blk cap dk s -> 0 <= lba < cap -> (latency <= spins_max)%nat -> len payload <= 512 ->
  (forall p h, ram p 512 -> submit_fill op data p h = (Ok tt, setm h (mwrite (h_mem h) p payload))) ->
  op = VIRTIO_BLK_T_IN \/ op = VIRTIO_BLK_T_OUT ->
  exists s', (_submit op lba data s = (Err MemoryError, s') /\ pci_holds blk cap dk s') \/
    exists stat dp, _submit op lba data s = (Ok (stat, dp), s') /\ pci_inv blk s'.1 s'.2 /\ capacity (h_dev s'.2) = cap /\
      (op = VIRTIO_BLK_T_IN -> mread (h_mem s'.2) dp 512 = dk lba /\ ram dp 512 /\ forall l, disk (h_dev s'.2) l = dk l) /\
      (op = VIRTIO_BLK_T_OUT -> len payload = 512 -> bytes_ok payload -> forall l, disk (h_dev s'.2) l = upd dk lba payload l).
Proof.
  destruct s as [drv h]. intros ([Hi Hb Hk] & Hcap & Hdk) Hlba Hlat Hlen Hfill Hop. cbn [fst snd] in *.
  unfold _submit. rewrite bind_field. destruct (k_common drv) as [c|] eqn:Ec; [|done]. fold (submit_fill op data).
  destruct (buffers_ready (k_queue drv) blk _ _ _ h op lba (submit_fill op data) payload Hi Hlen Hfill)
    as (h1 & Hi1 & Hd1 & [Hbuf|(hdr & dp & stat & Hbuf & Hrdy)]).
  { exists (drv, h1). left. split; [by apply bind_fail, at_hw_eq|]. split_and!; cbn [fst snd]; rewrite ?Hd1; try done.
    constructor; [done..|]. by rewrite Ec. }
  rewrite (bind_at_hw _ _ _ _ _ _ Hbuf). cbn beta iota.
  erewrite bind_at_hw by (apply mmio_write_ram, (rd_ram _ _ _ _ _ _ _ _ Hrdy); lia).
  set (h2 := setm h1 (mwrite (h_mem h1) stat (le_bytes 1 0xFF))).
  assert (Hi2 : ring_inv (k_queue drv) blk (k_avail_idx drv) (k_last_used drv) (k_next_desc drv) h2).
  { apply ring_mwrite; [done|]. apply (rd_beside _ _ _ _ _ _ _ _ Hrdy). }
  apply (ready_stamp _ _ _ _ _ _ _ _ 0xFF Hlen) in Hrdy. fold h2 in Hrdy.
  destruct Hrdy as [R1 R2 (B1 & B2 & B3) (A1 & A2 & A3) [Rap _] [Rram _]].
  set (flags := if op =? VIRTIO_BLK_T_IN then _ else _).
  assert (Hfl : (op = VIRTIO_BLK_T_IN /\ flags = 3) \/ (op = VIRTIO_BLK_T_OUT /\ flags = 1)) by (by destruct Hop as [->| ->]; [left|right]).
  assert (Hc63 : cap < 2 ^ 63) by (rewrite <- Hcap; apply capacity_range).
  destruct (complete_served blk drv h2 hdr dp stat flags op lba) as (h' & Eq & Hs & Hinv); try done;
    [constructor; [done..|by rewrite Ec]|lia|].
  exists (submit_drv drv, h'). right. exists stat, dp. cbn [fst snd].
  destruct Hi2 as [Hq _ _ _ Hn _ _ _ _]. destruct (desc_succ_distinct drv _ (proj1 (qf_num _ Hq)) Hn) as (? & ? & ? & ? & ?).
  rewrite <- Hd1 in Hcap, Hdk.
  destruct (fun R => served_effect _ (mkReq op lba dp stat (k_next_desc drv)) _ h2 _ h' cap dk payload Hq Hcap Hdk Hlba B2 B3 Rap R Hs) as [E1 E2].
  { unfold post_mem. rewrite push_outside; try done. unfold len in Hlen. unfold beside, q_end in B2. destruct Hq. cbn [r_data] in *. lia. }
  split_and!; [by apply complete_then|done|etrans; [apply Hs|exact Hcap]| |exact E2].
  intros Eop. destruct (E1 Eop) as [? ?]. by split_and!.
Qed.

Lemma pci_read_spec blk cap dk s lba : pci_holds blk cap dk s -> 0 <= lba < cap -> (latency <= spins_max)%nat ->
  exists s', pci_holds blk cap dk s' /\ (read_sector lba s = (Err MemoryError, s') \/ read_sector lba s = (Ok (dk lba), s')).
Proof.
  intros Hh Hlba Hlat. unfold read_sector.
  destruct (submit_io blk cap dk s VIRTIO_BLK_T_IN lba None [] Hh Hlba Hlat) as ([drv' h'] & [[E Hh']|(stat & dp & E & Hinv & Hc & Hrd & _)]);
    [by rewrite len_nil|by intros ? []|by left|..].
  - exists (drv', h'). split; [done|]. left. by apply bind_fail.
  - destruct (Hrd eq_refl) as (Hm & Hram & Hd). exists (drv', h'). split; [done|]. right.
    rewrite (bind_step _ _ _ _ _ E). cbn [fst snd] in *. rewrite <- Hm. apply at_hw_eq, copy_in_ram; [|done].
    rewrite Hm, <- Hd. apply disk_sectors. lia.
Qed.

Lemma pad_sector_spec data : len data <= 512 -> bytes_ok data ->
  len (pad_sector data) = 512 /\ bytes_ok (pad_sector data) /\ pad_sector data = data ++ zeros (512 - len data).
Proof.
  intros Hl Hb. pose proof (len_nonneg data).
  assert (Hp : len (data ++ zeros (Z.max 0 (512 - len data))) = 512) by (rewrite len_app, len_zeros; lia).
  assert (E : pad_sector data = data ++ zeros (512 - len data)).
  { unfold pad_sector, slice_to. rewrite slice_inside by lia. change (Z.to_nat 0) with 0%nat. rewrite drop_0, Z.max_r by lia.
    rewrite take_ge; [done|]. rewrite Z.max_r in Hp by lia. unfold len in *. lia. }
  rewrite E. split_and!; [rewrite len_app, len_zeros; lia| |done]. apply Forall_app. split; [done|].
  apply Forall_replicate. unfold byte_ok. lia.
Qed.

Lemma pci_write_spec blk cap dk s lba data :
  pci_holds blk cap dk s -> 0 <= lba < cap -> len data <= 512 -> bytes_ok data -> (latency <= spins_max)%nat ->
  exists s', (write_sector lba data s = (Err MemoryError, s') /\ pci_holds blk cap dk s') \/
    (write_sector lba data s = (Ok tt, s') /\ pci_holds blk cap (upd dk lba (pad_sector data)) s').
Proof.
  intros Hh Hlba Hlen Hok Hlat. destruct (pad_sector_spec data Hlen Hok) as (Pl & Pb & _). unfold write_sector.
  replace (512 <? len data) with false by lia.
  destruct (submit_io blk cap dk s VIRTIO_BLK_T_OUT lba (Some data) (pad_sector data) Hh Hlba Hlat)
    as (s' & [[E Hh']|(stat & dp & E & Hinv & Hc & _ & Hwr)]); [lia|intros; by apply copy_out_ram|by right|..].
  - exists s'. left. split; [|done]. by apply bind_fail.
  - exists s'. right. split; [by rewrite (bind_step _ _ _ _ _ E)|]. split_and!; [done..|]. by apply Hwr.
Qed.

Fixpoint pci_drive (ops : list sector_op) : M (pci_st (Dv := Dv)) (list bytes) :=
  match ops with
  | [] => ret []
  | OpRead l :: ops' => let! b := read_sector l in let! bs := pci_drive ops' in ret (b :: bs)
  | OpWrite l data :: ops' => write_sector l data ;;; pci_drive ops'
  end.

(** The writes as the disk sees them. *)
Definition padded (o : sector_op) : sector_op :=
  match o with OpWrite l data => OpWrite l (pad_sector data) | OpRead l => OpRead l end.
Definition short_in (cap : Z) (o : sector_op) : Prop :=
  match o with
  | OpRead l => 0 <= l < cap
  | OpWrite l data => 0 <= l < cap /\ len data <= 512 /\ bytes_ok data
  end.

(** C23: any sequence of reads of sectors inside the disk and writes of at most
    a sector there through the PCI driver, short writes padded with zeros,
    answers as the abstract disk does, or ends in a [MemoryError] when the
    pages for DMA buffers run out, on a queue of at least three descriptors and
    as long as the device needs at most 5000 sleeps: then the driver's timeout
    never fires. *)
Theorem virtio_pci_refines_disk blk cap ops dk s :
  pci_holds blk cap dk s -> Forall (short_in cap) ops -> (latency <= spins_max)%nat ->
  exists s', (pci_drive ops s = (Ok (spec_run (map padded ops) dk).1, s') /\
              pci_holds blk cap (spec_run (map padded ops) dk).2 s') \/
             pci_drive ops s = (Err MemoryError, s').
Proof.
  intros Hh Hops Hlat. revert dk s Hh. induction Hops as [|o ops Ho Hops IH]; intros dk s Hh; cbn [pci_drive map spec_run].
  - exists s. by left.
  - destruct o as [l|l data]; cbn [short_in padded spec_run] in *.
    + destruct (pci_read_spec blk cap dk s l Hh Ho Hlat) as (s1 & Hh1 & [E|E]).
      { exists s1. right. by apply bind_fail. }
      rewrite (bind_step _ _ _ _ _ E). destruct (IH dk s1 Hh1) as (s' & [[E' Hh']|E']); exists s'.
      * left. rewrite (bind_step _ _ _ _ _ E'). by destruct (spec_run (map padded ops) dk).
      * right. by apply bind_fail.
    + destruct Ho as (Hl & Hlen & Hok).
      destruct (pci_write_spec blk cap dk s l data Hh Hl Hlen Hok Hlat) as (s1 & [[E Hh1]|[E Hh1]]).
      { exists s1. right. by apply bind_fail. }
      rewrite (bind_step _ _ _ _ _ E). apply IH, Hh1.
Qed.
End driver.

(** ** The capability list *)

Section caps.
Context (sp : Z -> Z).      (* the configuration space of the function, by register *)

(** The address of a memory BAR, 0 for an I/O BAR. *)
Definition bar_of (i : Z) : Z :=
  let raw := sp (reg (0x10 + i * 4)) in
  if Z.odd raw then 0
  else if raw / 2 mod 4 =? 2 then raw / 16 * 16 + 2 ^ 32 * sp (reg (0x10 + i * 4 + 4)) else raw / 16 * 16.

(** The VirtIO structure a capability describes, when its BAR is a memory BAR. *)
Definition cap_at (ptr : Z) : option (Z * cap) :=
  let base := bar_of (byte_of sp (ptr + 4) mod 8) in
  let ty := byte_of sp (ptr + 3) in
  if negb (byte_of sp ptr =? 0x09) || (base =? 0) then None
  else Some (ty, (base + sp (reg (ptr + 8)), sp (reg (ptr + 8)), sp (reg (ptr + 12)),
                  if ty =? VIRTIO_PCI_CAP_NOTIFY_CFG then sp (reg (ptr + 16)) else 0)).

Definition next_cap (ptr : Z) : Z := Z.land (byte_of sp (ptr + 1)) 0xFC.

(** The capabilities from [ptr] on, at most [n] of them. *)
Fixpoint cap_list (n : nat) (ptr : Z) : list Z :=
  match n with
  | O => []
  | S n => if ptr =? 0 then [] else ptr :: cap_list n (next_cap ptr)
  end.
Definition first_cap : Z := Z.land (byte_of sp 0x34) 0xFC.
Definition has_caps : bool := Z.testbit (half_of sp 0x06) 4.

Definition of_type (t : Z) (ptr : Z) : option cap :=
  match cap_at ptr with Some (t', c) => if t' =? t then Some c else None | None => None end.

Definition add_cap (caps : list (Z * cap)) (ptr : Z) : list (Z * cap) :=
  match cap_at ptr with Some (t, c) => dset t c caps | None => caps end.

Lemma dget_add_caps t ptrs caps : dget t (foldl add_cap caps ptrs) =
  match list.last (omap (of_type t) ptrs) with Some c => Some c | None => dget t caps end.
Proof.
  revert caps. induction ptrs as [|p ptrs IH]; intros caps; [done|]. cbn [foldl]. rewrite IH.
  change (omap (of_type t) (p :: ptrs)) with (match of_type t p with Some c => c :: omap (of_type t) ptrs | None => omap (of_type t) ptrs end).
  assert (Ep : of_type t p = match cap_at p with Some (t', c) => if t' =? t then Some c else None | None => None end) by done.
  rewrite Ep. unfold add_cap. destruct (cap_at p) as [[t' c]|]; [|done]. destruct (Z.eqb_spec t' t) as [->|Hne].
  - rewrite list.last_cons. destruct (list.last (omap (of_type t) ptrs)); [done|]. apply dget_dset.
  - rewrite dget_dset_ne by done. done.
Qed.
End caps.

Section walk.
Context {Dv : Type} `{Machine Dv} `{!PciHost (Hw Dv)} `{!PciHostLaws (Hw Dv)}.
Context (b d f : Z) (Hin : in_space b d f).
Implicit Type h : Hw Dv.

Lemma bar_address_eq i h : exists h',
  (let! (addr, is_io) := _bar_address b d f i in ret (if is_io : bool then 0 else addr)) h =
    (Ok (bar_of (space h b d f) i), h') /\ space h' = space h.
Proof.
  unfold _bar_address, bar_of. cbn zeta. set (off := 0x10 + i * 4).
  destruct (config_read32_eq b d f off h Hin) as (h1 & E1 & S1). pose proof (space_dword h b d f (reg off)) as Hr.
  set (raw := space h b d f (reg off)) in *. rewrite bind_assoc, (bind_step _ _ _ _ _ E1).
  assert (E0 : Z.land raw 0x1 = raw mod 2) by (apply (land_mask _ 1); lia).
  assert (E3 : Z.land (Z.shiftr raw 1) 0x3 = raw / 2 mod 4).
  { rewrite Z.shiftr_div_pow2 by lia. apply (land_mask _ 2). lia. }
  assert (EF : Z.land raw 0xFFFFFFF0 = raw / 16 * 16).
  { change 0xFFFFFFF0 with (Z.ldiff (Z.ones 32) (Z.ones 4)).
    rewrite Z.ldiff_land, Z.land_assoc, Z.land_ones, Z.mod_small by lia.
    rewrite <- Z.ldiff_land, Z.ldiff_ones_r by lia. rewrite Z.shiftl_mul_pow2, Z.shiftr_div_pow2 by lia. done. }
  rewrite E0, E3, EF. rewrite Zmod_odd. destruct (Z.odd raw); cbn [negb Z.eqb].
  { exists h1. by split. }
  destruct (raw / 2 mod 4 =? 2); [|exists h1; by split].
  destruct (config_read32_eq b d f (off + 4) h1 Hin) as (h2 & E2 & S2). rewrite bind_assoc, (bind_step _ _ _ _ _ E2).
  exists h2. split; [|congruence]. unfold bind, ret. do 2 f_equal. rewrite S1.
  pose proof (space_dword h b d f (reg (off + 4))) as Hhi. set (hi := space h b d f (reg (off + 4))) in *.
  change 0xFFFFFFFF with (2 ^ 32 - 1). rewrite land_mask, (Z.mod_small hi) by lia.
  apply lor_shiftl; [lia|]. pose proof (Z.div_mod raw 16). pose proof (Z.mod_pos_bound raw 16). lia.
Qed.

(** What the cache of BAR addresses holds. *)
Definition cache_ok (sp : Z -> Z) (cache : list (Z * Z)) : Prop := forall i v, dget i cache = Some v -> v = bar_of sp i.

Ltac cfg8 o h h' S := let E := fresh "E" in
  destruct (config_read8_eq b d f o h Hin) as (h' & E & S); rewrite (bind_step _ _ _ _ _ E); clear E.
Ltac cfg32 o h h' S := let E := fresh "E" in
  destruct (config_read32_eq b d f o h Hin) as (h' & E & S); rewrite (bind_step _ _ _ _ _ E); clear E.

Lemma cached_bar i cache h : cache_ok (space h b d f) cache -> exists h' cache',
  match dget i cache with
  | Some _ => ret cache
  | None => let! (addr, is_io) := _bar_address b d f i in ret (dset i (if is_io : bool then 0 else addr) cache)
  end h = (Ok cache', h') /\ space h' = space h /\ cache_ok (space h b d f) cache' /\ dget i cache' = Some (bar_of (space h b d f) i).
Proof.
  intros Hc. destruct (dget i cache) as [v|] eqn:Ei.
  { exists h, cache. split_and!; try done. by rewrite Ei, <- (Hc i v Ei). }
  destruct (bar_address_eq i h) as (h' & E & S). apply bind_Ok in E as ([addr io] & h1 & E & E').
  exists h', (dset i (bar_of (space h b d f) i) cache). rewrite (bind_step _ _ _ _ _ E). unfold ret in *.
  injection E' as Ev ->. split_and!; [by rewrite Ev|done| |apply dget_dset].
  intros j w. destruct (decide (j = i)) as [->|Hne]; [rewrite dget_dset; congruence|rewrite dget_dset_ne by done; apply Hc].
Qed.

Lemma read_cap_eq ptr caps cache h :
  cache_ok (space h b d f) cache -> byte_of (space h b d f) ptr = 0x09 ->
  exists h' cache', read_cap b d f ptr caps cache h = (Ok (add_cap (space h b d f) caps ptr, cache'), h') /\
    space h' = space h /\ cache_ok (space h b d f) cache'.
Proof.
  intros Hc Hid. unfold read_cap. cfg8 (ptr + 3) h h0 S0. cfg8 (ptr + 4) h0 h1 S1. rewrite S0 in *.
  cfg32 (ptr + 8) h1 h2 S2. rewrite S1 in *. cfg32 (ptr + 12) h2 h3 S3. rewrite S2 in *.
  set (ty := byte_of (space h b d f) (ptr + 3)).
  assert (E5 : exists h4, (if ty =? VIRTIO_PCI_CAP_NOTIFY_CFG then config_read32 b d f (ptr + 16) else ret 0) h3 =
    (Ok (if ty =? VIRTIO_PCI_CAP_NOTIFY_CFG then space h b d f (reg (ptr + 16)) else 0), h4) /\ space h4 = space h).
  { destruct (_ =? _); [|by exists h3].
    destruct (config_read32_eq b d f (ptr + 16) h3 Hin) as (h4 & E4 & S4). exists h4. split; [|congruence]. rewrite E4. congruence. }
  destruct E5 as (h4 & E5 & S5). rewrite (bind_step _ _ _ _ _ E5).
  assert (Ei : Z.land (byte_of (space h b d f) (ptr + 4)) 0x07 = byte_of (space h b d f) (ptr + 4) mod 8) by (apply (land_mask _ 3); lia).
  rewrite Ei. set (i := byte_of (space h b d f) (ptr + 4) mod 8) in *.
  destruct (cached_bar i cache h4) as (h5 & cache' & E6 & S6 & Hc' & Hi); [by rewrite S5|]. rewrite S5 in *.
  rewrite (bind_step _ _ _ _ _ E6). rewrite Hi. cbn [default]. unfold id. exists h5, cache'.
  unfold add_cap, cap_at. rewrite Hid. fold i ty. cbn [Z.eqb Pos.eqb negb orb].
  destruct (bar_of (space h b d f) i =? 0); (split_and!; [done|congruence|done]).
Qed.

Lemma walk_loop_eq n ptr caps cache h : cache_ok (space h b d f) cache ->
  exists h', walk_loop n b d f ptr caps cache h =
    (Ok (foldl (add_cap (space h b d f)) caps (cap_list (space h b d f) n ptr)), h') /\ space h' = space h.
Proof.
  revert ptr caps cache h. induction n as [|n IH]; intros ptr caps cache h Hc; cbn [walk_loop cap_list].
  { exists h. by destruct (ptr =? 0). }
  destruct (ptr =? 0); [by exists h|]. rewrite Z.add_0_r. cfg8 ptr h h0 S0. cfg8 (ptr + 1) h0 h1 S1. rewrite S0 in *.
  destruct (Z.eqb_spec (byte_of (space h b d f) ptr) 0x09) as [Hid|Hid].
  - destruct (read_cap_eq ptr caps cache h1) as (h2 & cache' & E2 & S2 & Hc'); [by rewrite S1|by rewrite S1|].
    rewrite (bind_step _ _ _ _ _ E2). rewrite S1 in *.
    destruct (IH (next_cap (space h b d f) ptr) (add_cap (space h b d f) caps ptr) cache' h2) as (h3 & E3 & S3); [by rewrite S2|].
    rewrite S2 in *. by exists h3.
  - unfold bind at 1, ret at 1.
    destruct (IH (next_cap (space h b d f) ptr) caps cache h1) as (h3 & E3 & S3); [by rewrite S1|]. rewrite S1 in *.
    exists h3. split; [|done]. unfold next_cap in *. rewrite E3. cbn [foldl]. do 3 f_equal.
    unfold add_cap, cap_at. by rewrite (proj2 (Z.eqb_neq _ _) Hid).
Qed.

(** The walk of the capability list ends whatever the configuration space
    holds, a circular list included, and finds for every structure type the
    last capability of that type, with the address its BAR and offset give. *)
Theorem virtio_caps_last h : exists caps h', _walk_caps (mkAddr b d f) h = (Ok caps, h') /\
  forall t, dget t caps =
    if has_caps (space h b d f)
    then list.last (omap (of_type (space h b d f) t) (cap_list (space h b d f) 32 (first_cap (space h b d f)))) else None.
Proof.
  unfold _walk_caps. cbn [a_bus a_device a_function].
  destruct (config_read16_eq b d f 0x06 h Hin) as (h0 & E0 & S0). rewrite (bind_step _ _ _ _ _ E0).
  assert (Hbit : (Z.land (half_of (space h b d f) 0x06) 0x10 =? 0) = negb (has_caps (space h b d f))).
  { unfold has_caps. set (x := half_of _ _). change 0x10 with (2 ^ 4). clearbody x.
    destruct (Z.testbit x 4) eqn:Et; cbn [negb].
    - apply Z.eqb_neq. intros E. apply (f_equal (fun y => Z.testbit y 4)) in E. by rewrite Z.land_spec, Et in E.
    - apply Z.eqb_eq. apply Z.bits_inj'. intros n Hn. rewrite Z.land_spec, Z.pow2_bits_eqb, Z.bits_0 by lia.
      destruct (Z.eqb_spec 4 n) as [<-|]; [by rewrite Et|apply andb_false_r]. }
  rewrite Hbit. destruct (has_caps (space h b d f)); cbn [negb]; [|by exists [], h0].
  cfg8 0x34 h0 h1 S1. rewrite S0 in *.
  destruct (walk_loop_eq 32 (first_cap (space h b d f)) [] [] h1) as (h2 & E2 & _); [done|]. rewrite S1 in E2.
  exists (foldl (add_cap (space h b d f)) [] (cap_list (space h b d f) 32 (first_cap (space h b d f)))), h2.
  split; [exact E2|]. intros t. rewrite dget_add_caps. by destruct (list.last _).
Qed.
End walk.

(** ** The queue's size *)

Lemma pow2_below_spec n : 1 <= n < 65536 -> exists k, pow2_below 16 1 n = 2 ^ k /\ 0 <= k /\ 2 ^ k <= n < 2 ^ (k + 1).
Proof.
  intros Hn. assert (G : forall fuel j, 0 <= j -> 2 ^ j <= n -> n < 2 ^ (j + Z.of_nat fuel) ->
    exists k, pow2_below fuel (2 ^ j) n = 2 ^ k /\ 0 <= k /\ 2 ^ k <= n < 2 ^ (k + 1)).
  { induction fuel as [|fuel IH]; intros j Hj Hlo Hhi; [rewrite Z.add_0_r in Hhi; lia|]. cbn [pow2_below].
    assert (E : 2 ^ j * 2 = 2 ^ (j + 1)) by (rewrite Z.pow_add_r by lia; lia). rewrite E.
    destruct (Z.leb_spec (2 ^ (j + 1)) n); [apply IH; [lia|done|]|by exists j].
    by replace (j + 1 + Z.of_nat fuel) with (j + Z.of_nat (S fuel)) by lia. }
  apply (G 16%nat 0); simpl; lia.
Qed.

(** A device that offers a queue of two descriptors is accepted, and then the
    status descriptor overwrites the header's: there is no request left. *)
Definition tiny : VirtioPciBlk := mkPciBlk (Some 0) 0 0 0 0 0x1000 0x1020 0x2000 0 0 0 (pow2_below 16 1 2) 0.
Example tiny_queue_clash :
  k_queue_size tiny = 2 /\
  chain (post_mem tiny 0x5000 0x6000 0x7000 3 (mwrite ∅ 0x5000 (header VIRTIO_BLK_T_IN 7))) (k_queue tiny) 0 = None.
Proof. by vm_compute. Qed.

(** The queue the other driver set up, in the PCI driver's fields. *)
Definition as_pci (s : mmio_st (Dv := Toy)) : pci_st (Dv := Toy) :=
  (mkPciBlk (Some 0) (VIRTIO_MMIO_BASE + 0x050) 0 0 4 (m_desc_phys (fst s)) (m_avail_phys (fst s)) (m_used_phys (fst s))
     (m_next_desc (fst s)) (m_avail_idx (fst s)) (m_last_used (fst s)) 16 0, snd s).
Definition toy_pci : pci_st (Dv := Toy) := as_pci toy_st.

Lemma as_pci_holds blk cap dk s : holds blk cap dk s -> pci_holds blk cap dk (as_pci s).
Proof. intros ([Hr _] & Hc & Hd). split_and!; [|exact Hc|exact Hd]. constructor; [exact Hr|reflexivity|discriminate]. Qed.

Lemma toy_pci_holds : exists blk, pci_holds blk 4 (toy_disk (h_dev toy0)) toy_pci.
Proof. destruct toy_holds as [blk Hh]. exists blk. exact (as_pci_holds blk 4 _ toy_st Hh). Qed.

Definition pci_ops : list sector_op := [OpWrite 2 [9; 9; 9]; OpRead 2; OpRead 1].
Lemma pci_ops_in : Forall (short_in 4) pci_ops.
Proof.
  unfold pci_ops. rewrite !list.Forall_cons, list.Forall_nil. cbn [short_in]. split_and!; try done.
  repeat (apply List.Forall_cons; [unfold byte_ok; lia|]). apply List.Forall_nil.
Qed.

Example toy_pci_drives : fst (pci_drive pci_ops toy_pci) = Ok [[9; 9; 9] ++ replicate 509 0; replicate 512 1].
Proof. by vm_compute. Qed.

Lemma virtio_pci_refines_disk_witness : exists blk s',
  let spec := spec_run (map padded pci_ops) (toy_disk (h_dev toy0)) in
  (pci_drive pci_ops toy_pci = (Ok spec.1, s') /\ pci_holds blk 4 spec.2 s') \/ pci_drive pci_ops toy_pci = (Err MemoryError, s').
Proof.
  destruct toy_pci_holds as [blk Hh]. exists blk.
  refine (virtio_pci_refines_disk blk 4 pci_ops (toy_disk (h_dev toy0)) toy_pci Hh pci_ops_in _).
  unfold spins_max. change (latency (Dv := Toy)) with 1%nat. lia.
Defined.

(** ** A circular capability list *)

(** Two capabilities that point at each other: a common configuration at
    0x40, a notify structure at 0x60 with multiplier 4, both in BAR 4. *)
Definition loop_space (b d f r : Z) : Z :=
  if r =? 0x04 then 0x00100000 else if r =? 0x34 then 0x40
  else if r =? 0x20 then 0xFE000004 else if r =? 0x24 then 0x80
  else if r =? 0x40 then 0x01106009 else if r =? 0x44 then 4 else if r =? 0x48 then 0x1000
  else if r =? 0x60 then 0x02144009 else if r =? 0x64 then 4 else if r =? 0x68 then 0x3000
  else if r =? 0x70 then 4 else 0.

(** The address register is kept in memory cell 0. *)
#[global] Instance loop_host : PciHost (Hw Toy) := {
  outl port v := fun h => (Ok tt, if port =? CONFIG_ADDRESS then mkHw (<[0 := v]> (h_mem h)) (h_heap h) (h_dev h) else h);
  inl port := fun h => let a := rd (h_mem h) 0 in
    (Ok (loop_space (a / 2 ^ 16 mod 256) (a / 2 ^ 11 mod 32) (a / 2 ^ 8 mod 8) (a mod 256)), h);
}.
#[global] Instance loop_host_laws : PciHostLaws (Hw Toy).
Proof.
  refine {| space := fun _ => loop_space |}.
  - intros h b d f r Hb Hd Hf Hr _. unfold bind. cbn [outl inl loop_host]. rewrite Z.eqb_refl. eexists. split; [|done].
    cbn [h_mem]. unfold rd. rewrite lookup_insert_eq. cbn [default].
    do 2 f_equal. change (2 ^ 31) with 2147483648. change (2 ^ 16) with 65536. change (2 ^ 11) with 2048. change (2 ^ 8) with 256.
    unfold id. f_equal; Z.div_mod_to_equations; lia.
  - intros h b d f r. unfold loop_space. repeat (destruct (_ =? _); [lia|]). lia.
Defined.

Lemma virtio_caps_last_witness : exists caps h', _walk_caps (mkAddr 0 3 0) toy0 = (Ok caps, h') /\
  dget VIRTIO_PCI_CAP_COMMON_CFG caps = Some (0x80FE001000, 0x1000, 0, 0) /\
  dget VIRTIO_PCI_CAP_NOTIFY_CFG caps = Some (0x80FE003000, 0x3000, 0, 4).
Proof.
  destruct (virtio_caps_last 0 3 0 ltac:(unfold in_space; lia) toy0) as (caps & h' & E & Hc).
  exists caps, h'. split_and!; [exact E|rewrite Hc; by vm_compute..].
Defined.
