(* ===== verification/Virtqueue.v ===== *)
(** * The split virtqueue of the MMIO drivers

    The class [_VirtQueue], which [kernel/drivers/net/virtio_net_mmio.py] and
    [kernel/bridge/virtio_console.py] have word for word but for the size
    [QUEUE_SIZE].  A method gives back the object it changed. *)

From Stdlib Require Import ZArith Lia.
From stdpp Require Import base list gmap numbers.
From S2P Require Import Prelude Bytes Hw Virtio.

Local Open Scope Z_scope.

Record VirtQueue : Type := mkVirtQueue {
  k_dev_base : Z; k_q_idx : Z; k_version : Z; k_next_desc : Z; k_avail_idx : Z; k_last_used : Z; k_desc : Z; k_avail : Z; k_used : Z;
}.
Definition k_next n k := mkVirtQueue (k_dev_base k) (k_q_idx k) (k_version k) n (k_avail_idx k) (k_last_used k) (k_desc k) (k_avail k) (k_used k).
Definition k_push n k := mkVirtQueue (k_dev_base k) (k_q_idx k) (k_version k) (k_next_desc k) n (k_last_used k) (k_desc k) (k_avail k) (k_used k).
Definition k_pop n k := mkVirtQueue (k_dev_base k) (k_q_idx k) (k_version k) (k_next_desc k) (k_avail_idx k) n (k_desc k) (k_avail k) (k_used k).

Section virtqueue.
Context {Dv : Type} `{Machine Dv} (QUEUE_SIZE : Z).
Abbreviation io := (M (Hw Dv)).

Definition alloc_aligned (size : Z) : io Z :=
  let! raw := dma_alloc (size + PAGE_SIZE) in ret (Z.land (raw + PAGE_SIZE - 1) (Z.lnot (PAGE_SIZE - 1))).
Definition copy_to_dma (addr : Z) (data : bytes) : io unit :=
  for_each (combine (range (len data)) data) (fun p => mmio_write8 (addr + p.1) p.2).
Definition copy_from_dma (addr n : Z) : io bytes := map_m (range n) (fun i => mmio_read8 (addr + i)).

Definition init_queue (dev_base q_idx version : Z) : io VirtQueue :=
  let desc_sz := QUEUE_SIZE * 16 in
  let avail_sz := 4 + QUEUE_SIZE * 2 + 2 in
  let avail_off := desc_sz in
  let used_off := Z.land (avail_off + avail_sz + PAGE_SIZE - 1) (Z.lnot (PAGE_SIZE - 1)) in
  let used_sz := 4 + QUEUE_SIZE * 8 + 2 in
  let total := used_off + used_sz in
  let! desc := alloc_aligned (total + PAGE_SIZE) in
  let avail := desc + avail_off in
  let used := desc + used_off in
  mmio_write32 (dev_base + 0x030) q_idx ;;;
  let! max_n := mmio_read32 (dev_base + 0x034) in
  let max_n := if max_n =? 0 then QUEUE_SIZE else max_n in
  if Z.min QUEUE_SIZE max_n <? QUEUE_SIZE then raise RuntimeError
  else
    mmio_write32 (dev_base + 0x038) QUEUE_SIZE ;;;
    (if version =? 1 then mmio_write32 (dev_base + 0x03C) PAGE_SIZE ;;; mmio_write32 (dev_base + 0x040) (Z.shiftr desc 12)
     else
       mmio_write32 (dev_base + 0x080) (Z.land desc 0xFFFFFFFF) ;;;
       mmio_write32 (dev_base + 0x084) (Z.land (Z.shiftr desc 32) 0xFFFFFFFF) ;;;
       mmio_write32 (dev_base + 0x090) (Z.land avail 0xFFFFFFFF) ;;;
       mmio_write32 (dev_base + 0x094) (Z.land (Z.shiftr avail 32) 0xFFFFFFFF) ;;;
       mmio_write32 (dev_base + 0x0A0) (Z.land used 0xFFFFFFFF) ;;;
       mmio_write32 (dev_base + 0x0A4) (Z.land (Z.shiftr used 32) 0xFFFFFFFF) ;;;
       mmio_write32 (dev_base + 0x044) 1) ;;;
    ret (mkVirtQueue dev_base q_idx version 0 0 0 desc avail used).

Definition write_desc (k : VirtQueue) (idx addr length flags nxt : Z) : io unit := desc_write (k_desc k + idx * 16) addr length flags nxt.
Definition alloc_desc (k : VirtQueue) : Z * VirtQueue := (k_next_desc k, k_next ((k_next_desc k + 1) mod QUEUE_SIZE) k).
Definition avail_push (k : VirtQueue) (head : Z) : io VirtQueue :=
  let slot := k_avail_idx k mod QUEUE_SIZE in
  write16 (k_avail k + 4 + slot * 2) head ;;;
  let k := k_push (Z.land (k_avail_idx k + 1) 0xFFFF) k in
  write16 (k_avail k + 2) (k_avail_idx k) ;;;
  ret k.
Definition used_idx (k : VirtQueue) : io Z := let! w := mmio_read32 (k_used k + 0) in ret (Z.land (Z.shiftr w 16) 0xFFFF).
Definition has_used (k : VirtQueue) : io bool := let! u := used_idx k in ret (negb (u =? k_last_used k)).
(** The entry, and the queue past it. *)
Definition used_pop (k : VirtQueue) : io (Z * Z * VirtQueue) :=
  let slot := k_last_used k mod QUEUE_SIZE in
  let ring := k_used k + 4 + slot * 8 in
  let! desc_id := mmio_read32 ring in
  let! length := mmio_read32 (ring + 4) in
  ret (Z.land desc_id 0xFFFFFFFF, Z.land length 0xFFFFFFFF, k_pop (Z.land (k_last_used k + 1) 0xFFFF) k).
Definition notify (k : VirtQueue) : io unit := mmio_write32 (k_dev_base k + 0x050) (k_q_idx k).
End virtqueue.
