(* ===== verification/Vring.v ===== *)
(** * A virtqueue between a driver and a device that works at its own pace

    The driver pushes heads onto the available ring, the device takes them in
    order and returns them through the used ring in any order, the driver pops
    what came back.  [in_ring] relates the memory to the three lists of heads;
    every move of either side keeps it, over the wrap-around of both rings, and
    writes elsewhere do not matter. *)

From Stdlib Require Import ZArith Lia.
From stdpp Require Import base list gmap numbers.
From S2P Require Import Prelude Bytes Hw Virtio VirtioSpec VirtioMem Virtqueue.

Local Open Scope Z_scope.

(** Heads waiting in the available ring, with the device, and returned with a
    length but not popped; heads taken and popped so far. *)
Record heads : Type := mkHeads { r_wait : list Z; r_play : list Z; r_back : list (Z * Z); r_taken : Z; r_seen : Z }.
Definition all_heads (x : heads) : list Z := r_wait x ++ r_play x ++ map fst (r_back x).

Definition add_head (s : Z) (x : heads) : heads := mkHeads (r_wait x ++ [s]) (r_play x) (r_back x) (r_taken x) (r_seen x).
Definition take_head (x : heads) : heads :=
  match r_wait x with s :: w => mkHeads w (r_play x ++ [s]) (r_back x) (r_taken x + 1) (r_seen x) | [] => x end.
Definition return_head (k : nat) (s n : Z) (x : heads) : heads := mkHeads (r_wait x) (delete k (r_play x)) (r_back x ++ [(s, n)]) (r_taken x) (r_seen x).
Definition drop_head (x : heads) : heads := mkHeads (r_wait x) (r_play x) (tail (r_back x)) (r_taken x) (r_seen x + 1).

Lemma add_perm s x : all_heads (add_head s x) ≡ₚ s :: all_heads x.
Proof. unfold all_heads, add_head. cbn [r_wait r_play r_back]. rewrite <- app_assoc. cbn [app]. solve_Permutation. Qed.
Lemma take_perm x : all_heads (take_head x) ≡ₚ all_heads x.
Proof. unfold all_heads, take_head. destruct (r_wait x) as [|s w] eqn:E; cbn [r_wait r_play r_back]; [by rewrite E|]. rewrite <- app_assoc. cbn [app]. solve_Permutation. Qed.
Lemma return_perm x k s n : r_play x !! k = Some s -> all_heads (return_head k s n x) ≡ₚ all_heads x.
Proof.
  intros Hk. unfold all_heads, return_head. cbn [r_wait r_play r_back]. rewrite map_app. cbn [map fst].
  rewrite (delete_Permutation (r_play x) k s Hk) at 2. solve_Permutation.
Qed.
Lemma drop_perm x p b : r_back x = p :: b -> all_heads x ≡ₚ p.1 :: all_heads (drop_head x).
Proof. intros Hb. unfold all_heads, drop_head. cbn [r_wait r_play r_back]. rewrite Hb. cbn [map tail]. solve_Permutation. Qed.

(** ** The device's side *)

Record Peer : Type := mkPeer { pe_taken : Z; pe_pending : list Z; pe_used : Z }.
Definition peer_rel (x : heads) (d : Peer) : Prop :=
  pe_taken d = r_taken x mod 65536 /\ pe_pending d = r_play x /\ pe_used d = (r_seen x + len (r_back x)) mod 65536.

Section ring.
Context (q : Vq) (Hq : queue_fit q).

Definition peer_take (m : mem) (d : Peer) : Peer :=
  if avail_index m q =? pe_taken d then d
  else mkPeer ((pe_taken d + 1) mod 65536) (pe_pending d ++ [avail_head m q (pe_taken d)]) (pe_used d).
(** Returning a head: its entry of the used ring, then the index. *)
Definition use_mem (used head n : Z) (m : mem) : mem :=
  mwrite (mwrite m (q_used q + 4 + used mod q_num q * 8) (le_bytes 4 head ++ le_bytes 4 n)) (q_used q + 2) (le_bytes 2 (used + 1)).
Definition peer_use (k : nat) (d : Peer) : Peer := mkPeer (pe_taken d) (delete k (pe_pending d)) ((pe_used d + 1) mod 65536).

(** ** What the memory says *)

Record in_ring (x : heads) (m : mem) : Prop := {
  ir_avail : avail_index m q = (r_taken x + len (r_wait x)) mod 65536;
  ir_heads : forall i s, r_wait x !! i = Some s -> mread m (q_avail q + 4 + (r_taken x + Z.of_nat i) mod q_num q * 2) 2 = le_bytes 2 s;
  ir_used : used_at q (r_seen x + len (r_back x)) m;
  ir_back : forall i p, r_back x !! i = Some p -> mread m (q_used q + 4 + (r_seen x + Z.of_nat i) mod q_num q * 8) 8 = le_bytes 4 p.1 ++ le_bytes 4 p.2;
  ir_room : len (all_heads x) <= q_num q;
  ir_small : Forall (fun s => 0 <= s < 65536) (all_heads x);
  ir_lengths : Forall (fun p => 0 <= p.2 < 2 ^ 32) (r_back x);
}.
(** The driver's object agrees with it. *)
Definition queue_rel (x : heads) (k : VirtQueue) : Prop :=
  k_desc k = q_desc q /\ k_avail k = q_avail q /\ k_used k = q_used q /\
  k_avail_idx k = (r_taken x + len (r_wait x)) mod 65536 /\ k_last_used k = r_seen x mod 65536.

Lemma all_heads_len x : len (all_heads x) = len (r_wait x) + len (r_play x) + len (r_back x).
Proof. unfold all_heads. rewrite !len_app. assert (len (map fst (r_back x)) = len (r_back x)) as -> by (unfold len; by rewrite length_map). lia. Qed.

(** Different entries of a ring. *)
Lemma slots_differ a b n : 0 < n -> a < b -> b < a + n -> a mod n <> b mod n.
Proof. intros Hn H1 H2 E. pose proof (Z.div_mod a n ltac:(lia)). pose proof (Z.div_mod b n ltac:(lia)). assert (b / n = a / n \/ b / n >= a / n + 1 \/ b / n <= a / n - 1) as [|[]] by lia; nia. Qed.
Lemma ring_slot a : 0 <= a mod q_num q < q_num q.
Proof. apply Z.mod_pos_bound. pose proof (qf_num q Hq). lia. Qed.

(** Writes outside the two rings. *)
Lemma ring_elsewhere x m a l : in_ring x m -> a + len l <= q_avail q \/ q_end q <= a -> in_ring x (mwrite m a l).
Proof.
  intros [M1 M2 M3 M4 M5 M6 M7] Hd. pose proof (qf_used q Hq). unfold q_end in *. pose proof (qf_num q Hq). split; try done.
  - unfold avail_index, mval in *. rewrite mread_mwrite_out by lia. done.
  - intros i s Hi. pose proof (ring_slot (r_taken x + Z.of_nat i)). rewrite mread_mwrite_out by lia. eauto.
  - unfold used_at in *. rewrite mread_mwrite_out by lia. done.
  - intros i p Hi. pose proof (ring_slot (r_seen x + Z.of_nat i)). rewrite mread_mwrite_out by lia. eauto.
Qed.

(** ** The driver pushes *)

Definition pushed_mem (idx s : Z) (m : mem) : mem :=
  mwrite (mwrite m (q_avail q + 4 + idx mod q_num q * 2) (le_bytes 2 s)) (q_avail q + 2) (le_bytes 2 (idx + 1)).
Lemma push_ring x m s : in_ring x m -> len (all_heads x) < q_num q -> 0 <= s < 65536 ->
  in_ring (add_head s x) (pushed_mem ((r_taken x + len (r_wait x)) mod 65536) s m).
Proof.
  intros [M1 M2 M3 M4 M5 M6 M7] Hroom Hs. pose proof (qf_used q Hq). pose proof (qf_num q Hq). rewrite all_heads_len in Hroom.
  pose proof (len_nonneg (r_wait x)). pose proof (len_nonneg (r_play x)). pose proof (len_nonneg (r_back x)).
  set (idx := r_taken x + len (r_wait x)) in *. unfold pushed_mem. rewrite slot_wrap by done. pose proof (ring_slot idx).
  split; unfold add_head; cbn [r_wait r_play r_back r_taken r_seen].
  - unfold avail_index, mval. rewrite mread_mwrite_same by done. rewrite le_val_le_bytes_mod. change (256 ^ Z.of_nat 2) with 65536.
    rewrite Z.add_mod_idemp_l by lia. f_equal. rewrite len_snoc. unfold idx. lia.
  - intros i s' Hi. pose proof (ring_slot (r_taken x + Z.of_nat i)). rewrite mread_mwrite_out by (rewrite len_le_bytes; lia).
    apply lookup_snoc_Some in Hi as [[Hi Hl]|[Hi ->]].
    + rewrite mread_mwrite_out; [by apply M2|]. rewrite len_le_bytes.
      assert ((r_taken x + Z.of_nat i) mod q_num q <> idx mod q_num q); [|lia]. apply slots_differ; unfold idx, len in *; lia.
    + replace (r_taken x + Z.of_nat i) with idx by (unfold idx, len; lia). by rewrite mread_mwrite_same.
  - unfold used_at in *. rewrite !mread_mwrite_out by (rewrite len_le_bytes; lia). done.
  - intros i p Hi. pose proof (ring_slot (r_seen x + Z.of_nat i)). rewrite !mread_mwrite_out by (rewrite len_le_bytes; lia). eauto.
  - unfold all_heads. cbn [r_wait r_play r_back]. rewrite <- app_assoc, len_app. cbn [app]. rewrite len_cons.
    assert (len (r_play x ++ map fst (r_back x)) = len (r_play x) + len (r_back x)) by (rewrite len_app; unfold len; by rewrite length_map). lia.
  - unfold all_heads in *. cbn [r_wait r_play r_back]. apply Forall_app in M6 as [? ?]. apply Forall_app. split; [apply Forall_app; split; [done|by constructor]|done].
  - done.
Qed.
Lemma push_queue x k s : queue_rel x k -> queue_rel (add_head s x) (k_push ((k_avail_idx k + 1) mod 65536) k).
Proof.
  intros (Q1 & Q2 & Q3 & Q4 & Q5). split_and!; cbn; try done. rewrite Q4, len_snoc, Z.add_mod_idemp_l by lia. f_equal. lia.
Qed.
Lemma push_peer x d s : peer_rel x d -> peer_rel (add_head s x) d.
Proof. done. Qed.

(** ** The device takes *)

Lemma take_ring x m d : in_ring x m -> peer_rel x d -> in_ring (take_head x) m /\ peer_rel (take_head x) (peer_take m d).
Proof.
  intros Hm (D1 & D2 & D3). pose proof Hm as [M1 M2 M3 M4 M5 M6 M7]. unfold peer_take, take_head. rewrite M1, D1.
  pose proof (qf_num q Hq). rewrite all_heads_len in M5. pose proof (len_nonneg (r_play x)). pose proof (len_nonneg (r_back x)).
  destruct x as [[|s w] p b T S]; cbn [r_wait r_play r_back r_taken r_seen] in *.
  - change (len (@nil Z)) with 0. rewrite Z.add_0_r, Z.eqb_refl. done.
  - rewrite len_cons in *. pose proof (len_nonneg w). destruct (Z.eqb_spec ((T + (1 + len w)) mod 65536) (T mod 65536)) as [E|_].
    { symmetry in E. apply (slots_differ T (T + (1 + len w)) 65536) in E; [done|lia..]. }
    split; [split; cbn [r_wait r_play r_back r_taken r_seen]|].
    + rewrite M1. f_equal. lia.
    + intros i s' Hi. rewrite <- (M2 (Datatypes.S i) s' Hi). do 4 f_equal. lia.
    + done.
    + done.
    + rewrite all_heads_len. cbn [r_wait r_play r_back]. rewrite len_snoc. lia.
    + pose proof (take_perm (mkHeads (s :: w) p b T S)) as Hp. unfold take_head in Hp. cbn [r_wait r_play r_back r_taken r_seen] in Hp. by rewrite Hp.
    + done.
    + split_and!; cbn [pe_taken pe_pending pe_used r_play r_taken r_seen r_back]; [by rewrite Z.add_mod_idemp_l by lia| |done]. rewrite D2. do 2 f_equal.
      pose proof (M2 0%nat s eq_refl) as E0. rewrite Z.add_0_r in E0. unfold avail_head, mval. rewrite slot_wrap, E0 by done.
      apply le_val_le_bytes. unfold all_heads in M6. cbn [r_wait app] in M6. by inversion M6.
Qed.

Lemma take_queue x k : queue_rel x k -> queue_rel (take_head x) k.
Proof.
  intros (Q1 & Q2 & Q3 & Q4 & Q5). unfold take_head. destruct (r_wait x) as [|s w] eqn:E; split_and!; cbn; try done; rewrite ?E in *; [done|].
  rewrite Q4, len_cons. f_equal. lia.
Qed.
Lemma return_queue x k i s n : queue_rel x k -> queue_rel (return_head i s n x) k.
Proof. done. Qed.

(** ** The device returns *)

Lemma use_ring x m d k s n : in_ring x m -> peer_rel x d -> pe_pending d !! k = Some s -> 0 <= n < 2 ^ 32 ->
  r_play x !! k = Some s /\ in_ring (return_head k s n x) (use_mem (pe_used d) s n m) /\ peer_rel (return_head k s n x) (peer_use k d).
Proof.
  intros Hm (D1 & D2 & D3) Hk Hn. rewrite D2 in Hk. pose proof Hm as [M1 M2 M3 M4 M5 M6 M7]. split; [done|].
  pose proof (qf_used q Hq). pose proof (qf_num q Hq). rewrite all_heads_len in M5.
  pose proof (len_nonneg (r_wait x)). assert (1 <= len (r_play x)) by (apply lookup_lt_Some in Hk; unfold len; lia). pose proof (len_nonneg (r_back x)).
  assert (Hdel : len (delete k (r_play x)) = len (r_play x) - 1) by (pose proof (length_delete (r_play x) k ltac:(by eexists)); apply lookup_lt_Some in Hk; unfold len; lia).
  set (c := r_seen x + len (r_back x)) in *. unfold use_mem. rewrite D3, slot_wrap by done. pose proof (ring_slot c).
  assert (Hw : len (le_bytes 4 s ++ le_bytes 4 n) = 8) by (by autorewrite with len).
  split; [split; unfold return_head; cbn [r_wait r_play r_back r_taken r_seen]|].
  - unfold avail_index, mval in *. rewrite !mread_mwrite_out by (rewrite ?Hw, ?len_le_bytes; lia). done.
  - intros i s' Hi. pose proof (ring_slot (r_taken x + Z.of_nat i)). rewrite !mread_mwrite_out by (rewrite ?Hw, ?len_le_bytes; lia). eauto.
  - unfold used_at in *. change 4%nat with (2 + 2)%nat. rewrite mread_app. f_equal.
    + rewrite !mread_mwrite_out by (rewrite ?Hw, ?len_le_bytes; lia). rewrite (mread_at m (q_used q) 4 _ (q_used q) 0 2 M3) by lia. done.
    + rewrite mread_mwrite_same by done. rewrite len_snoc. rewrite <- (le_bytes_mod 2 (c mod 65536 + 1)), <- (le_bytes_mod 2 (_ + (_ + 1))).
      change (256 ^ Z.of_nat 2) with 65536. rewrite Z.add_mod_idemp_l by lia. f_equal. f_equal. unfold c. lia.
  - intros i p Hi. pose proof (ring_slot (r_seen x + Z.of_nat i)). rewrite mread_mwrite_out by (rewrite len_le_bytes; lia).
    apply lookup_snoc_Some in Hi as [[Hi Hl]|[Hi Hp]]; [|subst p].
    + rewrite mread_mwrite_out; [by apply M4|]. rewrite Hw.
      assert ((r_seen x + Z.of_nat i) mod q_num q <> c mod q_num q); [|lia]. apply slots_differ; unfold c, len in *; lia.
    + replace (r_seen x + Z.of_nat i) with c by (unfold c, len; lia). by rewrite mread_mwrite_same.
  - rewrite all_heads_len. cbn [r_wait r_play r_back]. rewrite len_snoc, Hdel. lia.
  - pose proof (return_perm x k s n Hk) as Hp. unfold return_head in Hp. by rewrite Hp.
  - apply Forall_app. split; [done|]. by constructor.
  - split_and!; cbn [return_head peer_use pe_taken pe_pending pe_used r_play r_taken r_seen r_back]; [done|by rewrite D2|].
    rewrite D3, len_snoc, Z.add_mod_idemp_l by lia. f_equal. unfold c. lia.
Qed.

(** ** The driver pops *)

Lemma drop_ring x m p b : in_ring x m -> r_back x = p :: b -> in_ring (drop_head x) m.
Proof.
  intros [M1 M2 M3 M4 M5 M6 M7] Hb. split; unfold drop_head; cbn [r_wait r_play r_back r_taken r_seen]; rewrite ?Hb in *; cbn [tail].
  - done.
  - done.
  - rewrite len_cons in M3. unfold used_at in *. rewrite M3. do 2 f_equal. lia.
  - intros i p' Hi. rewrite <- (M4 (S i) p' Hi). do 4 f_equal. lia.
  - rewrite all_heads_len in *. cbn [r_wait r_play r_back]. rewrite Hb, len_cons in M5. lia.
  - rewrite (drop_perm x p b Hb) in M6. apply list.Forall_cons in M6 as [_ M6]. unfold drop_head in M6. by rewrite Hb in M6.
  - by apply list.Forall_cons in M7 as [_ M7].
Qed.
Lemma drop_peer x d p b : peer_rel x d -> r_back x = p :: b -> peer_rel (drop_head x) d.
Proof.
  intros (D1 & D2 & D3) Hb. split_and!; cbn [drop_head r_taken r_play r_seen r_back]; try done. rewrite D3, Hb, len_cons. cbn [tail]. f_equal. lia.
Qed.
Lemma drop_queue x k : queue_rel x k -> queue_rel (drop_head x) (k_pop ((k_last_used k + 1) mod 65536) k).
Proof. intros (Q1 & Q2 & Q3 & Q4 & Q5). split_and!; cbn; try done. by rewrite Q5, Z.add_mod_idemp_l by lia. Qed.
End ring.

(** ** What a move leaves alone *)

Lemma Forall2_elem {A B} (P Q : A -> B -> Prop) l k : Forall2 P l k -> (forall a b, a ∈ l -> P a b -> Q a b) -> Forall2 Q l k.
Proof. induction 1 as [|a b l k Ha Hl IH]; intros HPQ; constructor; [apply HPQ; [by left|done]|]. apply IH. intros. apply HPQ; [by right|done]. Qed.
(** What survives writes in the used part of a ring survives the return. *)
Lemma use_mem_writes q used head n m (P : mem -> Prop) : queue_fit q -> P m ->
  (forall m a l, P m -> q_used q <= a -> a + len l <= q_end q -> P (mwrite m a l)) -> P (use_mem q used head n m).
Proof.
  intros Hq Hm HP. pose proof (qf_used q Hq). unfold q_end in *. pose proof (ring_slot q Hq used). pose proof (qf_num q Hq). unfold use_mem.
  apply HP; [apply HP; [done|lia|]|lia|]; rewrite ?len_app, !len_le_bytes; lia.
Qed.
(** What survives writes in the available part of a ring survives a push. *)
Lemma pushed_mem_writes q idx s m (P : mem -> Prop) : queue_fit q -> P m ->
  (forall m a l, P m -> q_avail q <= a -> a + len l <= q_used q -> P (mwrite m a l)) -> P (pushed_mem q idx s m).
Proof.
  intros Hq Hm HP. pose proof (ring_slot q Hq idx). pose proof (qf_num q Hq). pose proof (qf_used q Hq). unfold pushed_mem.
  apply HP; [apply HP; [done|..]|..]; rewrite ?len_le_bytes; lia.
Qed.

(** ** The driver's methods over memory *)

Section methods.
Context {Dv : Type} `{Machine Dv} (q : Vq) (Hq : queue_fit q) (Hram : ram (q_desc q) (q_end q - q_desc q)).
Implicit Types h : Hw Dv.

Lemma vring_ram a n : q_desc q <= a -> a + n <= q_end q -> ram a n.
Proof. intros Ha Hn. apply (ram_sub _ _ _ _ Hram); lia. Qed.
Lemma q_used_end : q_desc q <= q_avail q /\ q_avail q + 6 + 2 * q_num q <= q_used q /\ q_end q = q_used q + 4 + 8 * q_num q.
Proof. pose proof (qf_num q Hq). pose proof (qf_avail q Hq). pose proof (qf_used q Hq). unfold q_end. lia. Qed.

Lemma avail_push_ring x k s h : queue_rel q x k ->
  avail_push (q_num q) k s h = (Ok (k_push ((k_avail_idx k + 1) mod 65536) k), setm h (pushed_mem q (k_avail_idx k) s (h_mem h))).
Proof.
  intros (Q1 & Q2 & Q3 & Q4 & Q5). destruct q_used_end as (E1 & E2 & E3). pose proof (qf_num q Hq). pose proof (ring_slot q Hq (k_avail_idx k)). unfold avail_push.
  erewrite bind_step by (apply write16_ram, vring_ram; lia). cbn [k_avail k_avail_idx k_push].
  erewrite bind_step by (apply write16_ram, vring_ram; lia). unfold ret. rewrite setm_setm. cbn [setm h_mem].
  change 0xFFFF with (2 ^ 16 - 1). rewrite land_mask by lia. unfold pushed_mem. rewrite Q2. do 3 f_equal.
  change (2 ^ 16) with (256 ^ Z.of_nat 2). apply le_bytes_mod.
Qed.
Lemma used_idx_ring x k h : queue_rel q x k -> in_ring q x (h_mem h) -> used_idx k h = (Ok ((r_seen x + len (r_back x)) mod 65536), h).
Proof.
  intros (Q1 & Q2 & Q3 & Q4 & Q5) Hm. destruct q_used_end as (E1 & E2 & E3). pose proof (qf_num q Hq). unfold used_idx. rewrite Z.add_0_r, Q3.
  erewrite bind_step by (apply mmio_read_ram, (vring_ram (q_used q) 4); lia). unfold ret. by rewrite (used_index q _ _ (ir_used q _ _ Hm)).
Qed.
Lemma has_used_ring x k h : queue_rel q x k -> in_ring q x (h_mem h) -> has_used k h = (Ok (match r_back x with [] => false | _ => true end), h).
Proof.
  intros Hk Hm. unfold has_used. erewrite bind_step by (by apply used_idx_ring). unfold ret. do 2 f_equal. destruct Hk as (_ & _ & _ & _ & ->).
  pose proof (ir_room q _ _ Hm) as Hr. rewrite all_heads_len in Hr. pose proof (len_nonneg (r_wait x)). pose proof (len_nonneg (r_play x)). pose proof (qf_num q Hq).
  destruct (r_back x) as [|p b]; [change (len []) with 0; by rewrite Z.add_0_r, Z.eqb_refl|]. rewrite len_cons in *. pose proof (len_nonneg b).
  destruct (Z.eqb_spec ((r_seen x + (1 + len b)) mod 65536) (r_seen x mod 65536)) as [E|]; [|done].
  symmetry in E. apply (slots_differ (r_seen x) (r_seen x + (1 + len b)) 65536) in E; [done|lia..].
Qed.
(** The entry of the used ring that is next. *)
Lemma used_entry_ring x k p b h : queue_rel q x k -> in_ring q x (h_mem h) -> r_back x = p :: b ->
  mmio_read32 (k_used k + 4 + k_last_used k mod q_num q * 8) h = (Ok p.1, h) /\ mmio_read32 (k_used k + 4 + k_last_used k mod q_num q * 8 + 4) h = (Ok p.2, h) /\ 0 <= p.1 < 65536 /\ 0 <= p.2 < 2 ^ 32.
Proof.
  intros (Q1 & Q2 & Q3 & Q4 & Q5) Hm Hb. assert (H1 : 0 <= p.1 < 65536) by (pose proof (ir_small q _ _ Hm) as Hf; rewrite (drop_perm x p b Hb) in Hf; by apply list.Forall_cons in Hf as [? _]).
  assert (H2 : 0 <= p.2 < 2 ^ 32) by (pose proof (ir_lengths q _ _ Hm) as Hf; rewrite Hb in Hf; by apply list.Forall_cons in Hf as [? _]). destruct q_used_end as (E1 & E2 & E3). pose proof (qf_num q Hq).
  pose proof (ring_slot q Hq (r_seen x)) as Hs. rewrite Q5, slot_wrap, Q3 by done. set (ring := q_used q + 4 + r_seen x mod q_num q * 8) in *.
  pose proof (ir_back q _ _ Hm 0 p) as He. rewrite Hb in He. specialize (He eq_refl). rewrite Z.add_0_r in He. fold ring in He.
  rewrite !mmio_read_ram by (apply (vring_ram ring 8); unfold ring; lia). unfold mval.
  rewrite (mread_at _ ring 8 _ ring 0 4 He), (mread_at _ ring 8 _ (ring + 4) 4 4 He) by lia.
  change (take 4 (drop 0 (le_bytes 4 p.1 ++ le_bytes 4 p.2))) with (le_bytes 4 p.1). change (take 4 (drop 4 (le_bytes 4 p.1 ++ le_bytes 4 p.2))) with (le_bytes 4 p.2).
  rewrite !le_val_le_bytes by lia. done.
Qed.
Lemma used_pop_ring x k p b h : queue_rel q x k -> in_ring q x (h_mem h) -> r_back x = p :: b ->
  used_pop (q_num q) k h = (Ok (p.1, p.2, k_pop ((k_last_used k + 1) mod 65536) k), h).
Proof.
  intros Hk Hm Hb. destruct (used_entry_ring x k p b h Hk Hm Hb) as (R1 & R2 & H1 & H2). unfold used_pop.
  rewrite (bind_step _ _ _ _ _ R1), (bind_step _ _ _ _ _ R2). unfold ret.
  change 0xFFFFFFFF with (2 ^ 32 - 1). change 0xFFFF with (2 ^ 16 - 1). rewrite !land_mask by lia. rewrite !(Z.mod_small _ (2 ^ 32)) by lia. done.
Qed.
Lemma write_desc_ring x k i a n f y h : queue_rel q x k -> 0 <= i < q_num q -> 0 <= f < 65536 -> 0 <= y < 65536 ->
  write_desc k i a n f y h = (Ok tt, setm h (mwrite (h_mem h) (q_desc q + i * 16) (desc_bytes a n f y))).
Proof.
  intros (Q1 & _) Hi Hf Hy. destruct q_used_end as (E1 & E2 & E3). pose proof (qf_num q Hq). pose proof (qf_avail q Hq). unfold write_desc. rewrite Q1.
  apply desc_write_ram; [apply vring_ram; lia|done|done].
Qed.

Lemma copy_to_from a l j h : bytes_ok l -> ram (a + j) (len l) -> 0 <= j ->
  for_each (combine (range2 j (j + len l)) l) (fun p => mmio_write8 (a + p.1) p.2) h = (Ok tt, setm h (mwrite (h_mem h) (a + j) l)).
Proof.
  intros Hb. revert j h. induction Hb as [|b l Hb Hbs IH]; intros j h Hr Hj.
  - change (len (@nil Z)) with 0. rewrite range2_nil by lia. cbn [combine for_each mwrite]. by destruct h.
  - rewrite len_cons in *. pose proof (len_nonneg l). rewrite range2_cons by lia. cbn [combine for_each fst snd].
    erewrite bind_step by (apply mmio_write_ram, Hr; lia). replace (j + (1 + len l)) with (j + 1 + len l) by lia.
    rewrite IH; [|apply (ram_sub _ _ _ _ Hr); lia|lia]. cbn [setm h_mem mwrite le_bytes]. unfold byte_ok in Hb. rewrite Z.mod_small by lia. by rewrite Z.add_assoc.
Qed.
Lemma copy_to_dma_ram a l h : bytes_ok l -> ram a (len l) -> copy_to_dma a l h = (Ok tt, setm h (mwrite (h_mem h) a l)).
Proof. intros Hb Hr. unfold copy_to_dma, range. pose proof (copy_to_from a l 0 h Hb) as E. rewrite Z.add_0_r, Z.add_0_l in E. by apply E. Qed.
Lemma copy_from_from a n j h : ram a (j + Z.of_nat n) -> 0 <= j ->
  map_m (range2 j (j + Z.of_nat n)) (fun i => mmio_read8 (a + i)) h = (Ok (mread (h_mem h) (a + j) n), h).
Proof.
  revert j. induction n as [|n IH]; intros j Hr Hj; [by rewrite range2_nil by lia|].
  rewrite range2_cons by lia. cbn [map_m mread]. assert (E : mmio_read8 (a + j) h = (Ok (rd (h_mem h) (a + j)), h)).
  { unfold mmio_read8. rewrite Hr by lia. unfold mval. cbn [mread le_val]. do 2 f_equal. lia. }
  erewrite bind_step by exact E. replace (j + Z.of_nat (S n)) with (j + 1 + Z.of_nat n) by lia.
  erewrite bind_step by (apply IH; [apply (ram_sub _ _ _ _ Hr); lia|lia]). by rewrite Z.add_assoc.
Qed.
Lemma copy_from_dma_ram a n h : ram a (Z.of_nat n) -> copy_from_dma a (Z.of_nat n) h = (Ok (mread (h_mem h) a n), h).
Proof. intros Hr. unfold copy_from_dma, range. pose proof (copy_from_from a n 0 h) as E. rewrite Z.add_0_r, Z.add_0_l in E. by apply E. Qed.
End methods.
