(* ===== verification/VirtioNet.v ===== *)
(** * The VirtIO network driver over MMIO

    [kernel/drivers/net/virtio_net_mmio.py]: the probe, the receive buffers,
    which always are with the device or on their way to the caller, and the
    pool of transmit buffers.  A wait of [send] and [recv] is a turn of the
    device; their loops have no bound in the source and carry fuel.  Log lines
    are left out. *)

From Stdlib Require Import ZArith Lia.
From stdpp Require Import base list gmap numbers.
From S2P Require Import Prelude Bytes Dict Hw Virtio Virtqueue.

Local Open Scope Z_scope.

Definition VIRTIO_DEV_NET : Z := 1.
Definition VIRTIO_NET_F_MAC : Z := Z.shiftl 1 5.
Definition QUEUE_SIZE : Z := 64.
Definition BUF_SIZE : Z := 2048.
Definition NET_HDR_SIZE : Z := 10.
Definition RXQ : Z := 0.
Definition TXQ : Z := 1.

Record VirtioMmioNet : Type := mkNet {
  n_base : Z; n_version : Z; n_rxq : option VirtQueue; n_txq : option VirtQueue;
  n_rx_bufs : list (Z * Z); n_tx_bufs : list (Z * Z); n_tx_free : list Z; n_mac : bytes;
}.
Definition VirtioMmioNet_init (base : Z) : VirtioMmioNet := mkNet base 0 None None [] [] [] [0x02; 0x50; 0x59; 0x4f; 0x00; 0x01].
Definition n_set_version v n := mkNet (n_base n) v (n_rxq n) (n_txq n) (n_rx_bufs n) (n_tx_bufs n) (n_tx_free n) (n_mac n).
Definition n_set_rxq q n := mkNet (n_base n) (n_version n) (Some q) (n_txq n) (n_rx_bufs n) (n_tx_bufs n) (n_tx_free n) (n_mac n).
Definition n_set_txq q n := mkNet (n_base n) (n_version n) (n_rxq n) (Some q) (n_rx_bufs n) (n_tx_bufs n) (n_tx_free n) (n_mac n).
Definition n_set_rx_bufs b n := mkNet (n_base n) (n_version n) (n_rxq n) (n_txq n) b (n_tx_bufs n) (n_tx_free n) (n_mac n).
Definition n_set_tx_bufs b n := mkNet (n_base n) (n_version n) (n_rxq n) (n_txq n) (n_rx_bufs n) b (n_tx_free n) (n_mac n).
Definition n_set_tx_free f n := mkNet (n_base n) (n_version n) (n_rxq n) (n_txq n) (n_rx_bufs n) (n_tx_bufs n) f (n_mac n).
Definition n_set_mac m n := mkNet (n_base n) (n_version n) (n_rxq n) (n_txq n) (n_rx_bufs n) (n_tx_bufs n) (n_tx_free n) m.

Section driver.
Context {Dv : Type} `{Machine Dv}.
Definition net_st : Type := VirtioMmioNet * Hw Dv.
Abbreviation io := (M net_st).
Definition on_hw {A} (m : M (Hw Dv) A) : io A := zoom snd (fun h s => (fst s, h)) m.
Definition self {A} (f : VirtioMmioNet -> A) : io A := gets (fun s => f (fst s)).
Definition self_set (f : VirtioMmioNet -> VirtioMmioNet) : io unit := modify (fun s => (f (fst s), snd s)).
Definition need {A} (o : option A) : io A := match o with Some x => ret x | None => raise AttributeError end.

Definition _prime_rx : io unit :=
  for_each (range QUEUE_SIZE) (fun i =>
    let! buf := on_hw (dma_alloc BUF_SIZE) in
    self_set (fun n => n_set_rx_bufs (dset i buf (n_rx_bufs n)) n) ;;;
    let! o := self n_rxq in
    let! q := need o in
    on_hw (write_desc q i buf BUF_SIZE VRING_DESC_F_WRITE 0) ;;;
    let! q := on_hw (avail_push QUEUE_SIZE q i) in
    self_set (n_set_rxq q)).
Definition _prime_tx : io unit :=
  for_each (range QUEUE_SIZE) (fun i =>
    let! buf := on_hw (dma_alloc BUF_SIZE) in self_set (fun n => n_set_tx_bufs (dset i buf (n_tx_bufs n)) n)) ;;;
  self_set (n_set_tx_free (rev (range QUEUE_SIZE))).

Definition probe : io bool :=
  let! base := self n_base in
  let r32 off := on_hw (mmio_read32 (base + off)) in
  let w32 off v := on_hw (mmio_write32 (base + off) v) in
  let! magic := r32 0x000 in
  if negb (magic =? VIRTIO_MAGIC) then ret false else
  let! version := r32 0x004 in
  if negb ((version =? 1) || (version =? 2)) then ret false else
  let! dev := r32 0x008 in
  if negb (dev =? VIRTIO_DEV_NET) then ret false else
  self_set (n_set_version version) ;;;
  w32 0x070 0 ;;;
  w32 0x070 STATUS_ACK ;;;
  w32 0x070 (Z.lor STATUS_ACK STATUS_DRIVER) ;;;
  let! features0 :=
    (if version =? 1 then
       w32 0x028 PAGE_SIZE ;;;
       let! f := r32 0x010 in
       w32 0x020 (Z.land f VIRTIO_NET_F_MAC) ;;; ret f
     else
       w32 0x014 0 ;;;
       let! f := r32 0x010 in
       w32 0x024 0 ;;; w32 0x020 (Z.land f VIRTIO_NET_F_MAC) ;;; w32 0x024 1 ;;; w32 0x020 0 ;;; ret f) in
  w32 0x070 (Z.lor (Z.lor STATUS_ACK STATUS_DRIVER) STATUS_FEATURES) ;;;
  (if Z.land features0 VIRTIO_NET_F_MAC =? 0 then ret tt
   else
     let! mac := map_m (range 6) (fun i => on_hw (mmio_read8 (base + 0x100 + i))) in
     if existsb (fun b => negb (b =? 0)) mac then self_set (n_set_mac mac) else ret tt) ;;;
  let! rxq := on_hw (init_queue QUEUE_SIZE base RXQ version) in
  self_set (n_set_rxq rxq) ;;;
  let! txq := on_hw (init_queue QUEUE_SIZE base TXQ version) in
  self_set (n_set_txq txq) ;;;
  _prime_rx ;;;
  _prime_tx ;;;
  w32 0x070 (Z.lor (Z.lor (Z.lor STATUS_ACK STATUS_DRIVER) STATUS_FEATURES) STATUS_DRIVER_OK) ;;;
  let! o := self n_rxq in
  let! rxq := need o in
  on_hw (notify rxq) ;;;
  ret true.

(** ** Sending *)

(** [while txq.has_used()]: the indices have 16 bits, so [fuel] of that many
    turns is enough while nothing else writes. *)
Fixpoint reclaim (fuel : nat) : io unit :=
  match fuel with
  | O => ret tt
  | S fuel =>
      let! o := self n_txq in
      let! q := need o in
      let! more := on_hw (has_used q) in
      if negb more then ret tt
      else
        let! (desc_id, _, q) := on_hw (used_pop QUEUE_SIZE q) in
        self_set (n_set_txq q) ;;;
        self_set (fun n => if dmem desc_id (n_tx_bufs n) && negb (existsb (Z.eqb desc_id) (n_tx_free n)) then n_set_tx_free (n_tx_free n ++ [desc_id]) n else n) ;;;
        reclaim fuel
  end.
Definition _reclaim_tx : io unit :=
  let! o := self n_txq in
  match o with None => ret tt | Some _ => reclaim (Z.to_nat 65536) end.

Definition _net_header : bytes := zeros NET_HDR_SIZE.
(** [self._tx_bufs[idx]] *)
Definition tx_buffer (idx : Z) (n : VirtioMmioNet) : result Z := match dget idx (n_tx_bufs n) with Some b => Ok b | None => Err KeyError end.
Definition send_nowait (frame : bytes) : io bool :=
  let! o := self n_txq in
  match o with
  | None => ret false
  | Some _ =>
      let payload := _net_header ++ frame in
      if BUF_SIZE <? len payload then ret false
      else
        _reclaim_tx ;;;
        let! free := self n_tx_free in
        match free with
        | [] => ret false
        | _ =>
            let idx := List.last free 0 in
            self_set (n_set_tx_free (removelast free)) ;;;
            let! r := self (tx_buffer idx) in
            let! buf := lift r in
            on_hw (copy_to_dma buf payload) ;;;
            let! o := self n_txq in
            let! q := need o in
            on_hw (write_desc q idx buf (len payload) 0 0) ;;;
            let! q := on_hw (avail_push QUEUE_SIZE q idx) in
            self_set (n_set_txq q) ;;;
            on_hw (notify q) ;;;
            ret true
        end
  end.
Fixpoint send (fuel : nat) (frame : bytes) : io bool :=
  match fuel with
  | O => ret false
  | S fuel => let! ok := send_nowait frame in if ok then ret true else on_hw sleep ;;; send fuel frame
  end.

(** ** Receiving *)

Definition recv_nowait : io (option bytes) :=
  let! o := self n_rxq in
  match o with
  | None => ret None
  | Some q =>
      let! more := on_hw (has_used q) in
      if negb more then ret None
      else
        let! (desc_id, length, q) := on_hw (used_pop QUEUE_SIZE q) in
        self_set (n_set_rxq q) ;;;
        let! bufs := self n_rx_bufs in
        match dget desc_id bufs with
        | None => ret None
        | Some buf =>
            let actual := Z.min length BUF_SIZE in
            let! data := on_hw (copy_from_dma buf actual) in
            let! q := on_hw (avail_push QUEUE_SIZE q desc_id) in
            self_set (n_set_rxq q) ;;;
            on_hw (notify q) ;;;
            if len data <=? NET_HDR_SIZE then ret None else ret (Some (slice_from data NET_HDR_SIZE))
        end
  end.
Fixpoint recv (fuel : nat) : io (option bytes) :=
  match fuel with
  | O => ret None
  | S fuel => let! f := recv_nowait in match f with Some f => ret (Some f) | None => on_hw sleep ;;; recv fuel end
  end.
Definition mac (n : VirtioMmioNet) : bytes := n_mac n.
End driver.

(** ** Discovery *)

Section find.
Context {Dv : Type} `{Machine Dv}.
Fixpoint scan (slots : list Z) : M (Hw Dv) (option VirtioMmioNet) :=
  match slots with
  | [] => ret None
  | i :: slots => fun h =>
      match probe (VirtioMmioNet_init (VIRTIO_MMIO_BASE + i * VIRTIO_MMIO_STRIDE), h) with
      | (Ok true, (n, h)) => (Ok (Some n), h)
      | (Ok false, (_, h)) => scan slots h
      | (Err e, (_, h)) => (Err e, h)
      end
  end.
Definition find_virtio_net_mmio : M (Hw Dv) (option VirtioMmioNet) := scan (range VIRTIO_MMIO_DEVS).
End find.
