(* ===== verification/VirtioNetProps.v ===== *)
(** * The network card is a pair of queues

    The driver, its memory and a card that takes requests and returns them in
    any order, against two queues of frames: 64 frames may be on their way
    out, 64 buffers wait for frames to come in. *)

From Stdlib Require Import ZArith Lia.
From stdpp Require Import base list gmap numbers.
From S2P Require Import Prelude Bytes Dict Hw Virtio VirtioSpec VirtioMem Virtqueue Vring VirtioNet.

Local Open Scope Z_scope.

(** ** The reference *)

(** Frames to go out that the card has not seen, frames it is sending, frames
    that came in; buffers offered to the card and buffers it holds. *)
Record traffic : Type := mkTraffic { t_queued : list bytes; t_sending : list bytes; t_arrived : list bytes; t_offered : nat; t_held : nat }.
Inductive net_event : Type := ESend (frame : bytes) | ETakeTx | ESent (k : nat) | ERecv | ETakeRx | EArrive (k : nat) (raw : bytes).
Inductive net_answer : Type := ASent (ok : bool) | AWire (data : bytes) | AFrame (f : option bytes) | ANone.

Definition spec_step (e : net_event) (t : traffic) : net_answer * traffic :=
  match e with
  | ESend f =>
      if (BUF_SIZE <? NET_HDR_SIZE + len f) || (len (t_queued t) + len (t_sending t) =? QUEUE_SIZE) then (ASent false, t)
      else (ASent true, mkTraffic (t_queued t ++ [f]) (t_sending t) (t_arrived t) (t_offered t) (t_held t))
  | ETakeTx =>
      match t_queued t with
      | f :: l => (ANone, mkTraffic l (t_sending t ++ [f]) (t_arrived t) (t_offered t) (t_held t))
      | [] => (ANone, t)
      end
  | ESent k =>
      match t_sending t !! k with
      | Some f => (AWire (_net_header ++ f), mkTraffic (t_queued t) (delete k (t_sending t)) (t_arrived t) (t_offered t) (t_held t))
      | None => (ANone, t)
      end
  | ERecv =>
      match t_arrived t with
      | raw :: l => (AFrame (if len raw <=? NET_HDR_SIZE then None else Some (drop 10 raw)), mkTraffic (t_queued t) (t_sending t) l (S (t_offered t)) (t_held t))
      | [] => (AFrame None, t)
      end
  | ETakeRx =>
      match t_offered t with
      | S n => (ANone, mkTraffic (t_queued t) (t_sending t) (t_arrived t) n (S (t_held t)))
      | O => (ANone, t)
      end
  | EArrive k raw =>
      if (k <? t_held t)%nat && (len raw <=? BUF_SIZE) then (ANone, mkTraffic (t_queued t) (t_sending t) (t_arrived t ++ [raw]) (t_offered t) (pred (t_held t)))
      else (ANone, t)
  end.

(** ** The system: the driver on its machine, and the two ends of the card *)

Section system.
Context {Dv : Type} `{Machine Dv} (rq tq : Vq).
Record system : Type := mkSystem { y_drv : VirtioMmioNet * Hw Dv; y_rx : Peer; y_tx : Peer }.
Definition y_mem (y : system) : mem := h_mem (snd (y_drv y)).
Definition with_mem (m : mem) (s : VirtioMmioNet * Hw Dv) : VirtioMmioNet * Hw Dv := (fst s, setm (snd s) m).
(** What the card reads off a request. *)
Definition wire_data (m : mem) (head : Z) : bytes := let d := desc_at m tq head in mread m (d_addr d) (Z.to_nat (d_len d)).
Definition system_step (e : net_event) (y : system) : result net_answer * system :=
  let '(mkSystem st rx tx) := y in
  let m := h_mem (snd st) in
  match e with
  | ESend f => match send_nowait f st with (Ok b, st) => (Ok (ASent b), mkSystem st rx tx) | (Err e, st) => (Err e, mkSystem st rx tx) end
  | ETakeTx => (Ok ANone, mkSystem st rx (peer_take tq m tx))
  | ESent k =>
      match pe_pending tx !! k with
      | Some head => (Ok (AWire (wire_data m head)), mkSystem (with_mem (use_mem tq (pe_used tx) head 0 m) st) rx (peer_use k tx))
      | None => (Ok ANone, y)
      end
  | ERecv => match recv_nowait st with (Ok f, st) => (Ok (AFrame f), mkSystem st rx tx) | (Err e, st) => (Err e, mkSystem st rx tx) end
  | ETakeRx => (Ok ANone, mkSystem st (peer_take rq m rx) tx)
  | EArrive k raw =>
      match pe_pending rx !! k with
      | Some head =>
          let d := desc_at m rq head in
          if len raw <=? d_len d then
            (Ok ANone, mkSystem (with_mem (use_mem rq (pe_used rx) head (len raw) (mwrite m (d_addr d) raw)) st) (peer_use k rx) tx)
          else (Ok ANone, y)
      | None => (Ok ANone, y)
      end
  end.
End system.
Arguments mkSystem {Dv}. Arguments y_drv {Dv}. Arguments y_rx {Dv}. Arguments y_tx {Dv}.

Fixpoint spec_steps (es : list net_event) (t : traffic) : list net_answer * traffic :=
  match es with
  | [] => ([], t)
  | e :: es => let (a, t) := spec_step e t in let (l, t) := spec_steps es t in (a :: l, t)
  end.
Fixpoint system_steps {Dv} `{Machine Dv} (rq tq : Vq) (es : list net_event) (y : @system Dv) : result (list net_answer) * @system Dv :=
  match es with
  | [] => (Ok [], y)
  | e :: es =>
      match system_step rq tq e y with
      | (Ok a, y) => match system_steps rq tq es y with (Ok l, y) => (Ok (a :: l), y) | (Err e, y) => (Err e, y) end
      | (Err e, y) => (Err e, y)
      end
  end.

(** ** Where things are *)

Inductive place : Type := RxRing | TxRing | RxBuf (i : Z) | TxBuf (i : Z).

Section net.
Context {Dv : Type} `{Machine Dv} (base : Z) (rq tq : Vq) (rbuf tbuf : Z -> Z).
Definition slot_in (i : Z) : Prop := 0 <= i < 64.
Definition area (p : place) : Z * Z :=
  match p with RxRing => (q_desc rq, q_end rq - q_desc rq) | TxRing => (q_desc tq, q_end tq - q_desc tq) | RxBuf i => (rbuf i, BUF_SIZE) | TxBuf i => (tbuf i, BUF_SIZE) end.
Definition placed (p : place) : Prop := match p with RxBuf i | TxBuf i => slot_in i | _ => True end.

(** What the probe leaves: two queues of 64 and 128 buffers, none of which
    overlap, in memory and not in the card's registers; and a card that does
    not touch memory while it is being notified. *)
Record net_fit : Prop := {
  nf_rx : queue_fit rq;
  nf_tx : queue_fit tq;
  nf_rx_num : q_num rq = QUEUE_SIZE;
  nf_tx_num : q_num tq = QUEUE_SIZE;
  nf_ram p : placed p -> ram (area p).1 (area p).2;
  nf_range p : placed p -> 0 <= (area p).1 < 2 ^ 64;
  nf_apart p p' : placed p -> placed p' -> p <> p' -> apart (area p) (area p');
  nf_bell : dev_claims (base + 0x050) = true;
  nf_quiet v d m : snd (dev_write (base + 0x050) v d m) = m;
}.
Context (fit : net_fit).

Lemma place_apart p p' a n b k : placed p -> placed p' -> p <> p' ->
  (area p).1 <= a -> a + n <= (area p).1 + (area p).2 -> (area p').1 <= b -> b + k <= (area p').1 + (area p').2 -> a + n <= b \/ b + k <= a.
Proof. intros H1 H2 H3 ????. destruct (nf_apart fit p p' H1 H2 H3); lia. Qed.
Lemma nums : q_num rq = 64 /\ q_num tq = 64.
Proof. split; [apply (nf_rx_num fit)|apply (nf_tx_num fit)]. Qed.

(** ** Frames and buffers in memory *)

Record frame_ok (m : mem) (s : Z) (f : bytes) : Prop := {
  fo_len : NET_HDR_SIZE + len f <= BUF_SIZE;
  fo_desc : mread m (q_desc tq + s * 16) 16 = desc_bytes (tbuf s) (NET_HDR_SIZE + len f) 0 0;
  fo_data : mread m (tbuf s) (10 + length f) = _net_header ++ f;
}.
Definition offered (m : mem) (s : Z) : Prop := mread m (q_desc rq + s * 16) 16 = desc_bytes (rbuf s) BUF_SIZE VRING_DESC_F_WRITE 0.
Record raw_ok (m : mem) (p : Z * Z) (raw : bytes) : Prop := {
  ro_len : p.2 = len raw;
  ro_fits : len raw <= BUF_SIZE;
  ro_data : mread m (rbuf p.1) (length raw) = raw;
}.

(** What is in the descriptors and buffers. *)
Record data_rel (rx tx : heads) (m : mem) (t : traffic) : Prop := {
  mr_queued : Forall2 (frame_ok m) (r_wait tx) (t_queued t);
  mr_sending : Forall2 (frame_ok m) (r_play tx) (t_sending t);
  mr_offered : forall s, slot_in s -> offered m s;
  mr_arrived : Forall2 (raw_ok m) (r_back rx) (t_arrived t);
}.
Record mem_rel (rx tx : heads) (m : mem) (t : traffic) : Prop := {
  mr_tx : in_ring tq tx m;
  mr_rx : in_ring rq rx m;
  mr_data : data_rel rx tx m t;
  mr_counts : length (r_wait rx) = t_offered t /\ length (r_play rx) = t_held t;
}.
Record drv_rel (rx tx : heads) (s : VirtioMmioNet) : Prop := {
  dr_txq : exists k, n_txq s = Some k /\ queue_rel tq tx k /\ k_dev_base k = base;
  dr_rxq : exists k, n_rxq s = Some k /\ queue_rel rq rx k /\ k_dev_base k = base;
  dr_tx_bufs : forall i, slot_in i -> dget i (n_tx_bufs s) = Some (tbuf i);
  dr_rx_bufs : forall i, slot_in i -> dget i (n_rx_bufs s) = Some (rbuf i);
  dr_tx : n_tx_free s ++ all_heads tx ≡ₚ range 64;
  dr_rx : all_heads rx ≡ₚ range 64;
}.
Definition rel (y : @system Dv) (t : traffic) : Prop :=
  exists rx tx, drv_rel rx tx (fst (y_drv y)) /\ mem_rel rx tx (h_mem (snd (y_drv y))) t /\ peer_rel rx (y_rx y) /\ peer_rel tx (y_tx y).

Lemma rx_slot rx tx s i : drv_rel rx tx s -> i ∈ all_heads rx -> slot_in i.
Proof. intros Hd Hi. rewrite (dr_rx _ _ _ Hd) in Hi. unfold range in Hi. by apply elem_of_range2 in Hi. Qed.
Lemma tx_slot rx tx s i : drv_rel rx tx s -> i ∈ all_heads tx -> slot_in i /\ i ∉ n_tx_free s.
Proof.
  intros Hd Hi. pose proof (dr_tx _ _ _ Hd) as Hp. split.
  - assert (Hr : i ∈ range 64) by (rewrite <- Hp; apply elem_of_app; by right). unfold range in Hr. by apply elem_of_range2 in Hr.
  - assert (HN : NoDup (n_tx_free s ++ all_heads tx)) by (rewrite Hp; apply NoDup_range2). apply list.NoDup_app in HN as (_ & HN & _). intros Hf. by apply (HN i Hf).
Qed.
Lemma heads_nodup rx tx s : drv_rel rx tx s -> NoDup (all_heads rx) /\ NoDup (all_heads tx).
Proof.
  intros Hd. split; [rewrite (dr_rx _ _ _ Hd); apply NoDup_range2|]. assert (HN : NoDup (n_tx_free s ++ all_heads tx)) by (rewrite (dr_tx _ _ _ Hd); apply NoDup_range2).
  by apply list.NoDup_app in HN as (_ & _ & HN).
Qed.

(** ** What a write leaves alone *)

(** A write inside place [p] leaves a frame in another place alone, and the
    frame's own descriptor if it stays off it. *)
Lemma frame_write m s f p a l : slot_in s -> frame_ok m s f -> placed p -> (area p).1 <= a -> a + len l <= (area p).1 + (area p).2 ->
  p <> TxBuf s -> (p = TxRing -> a + len l <= q_desc tq + s * 16 \/ q_desc tq + s * 16 + 16 <= a) -> frame_ok (mwrite m a l) s f.
Proof.
  intros Hs [F1 F2 F3] Hp Ha He Hb Hr. unfold slot_in, NET_HDR_SIZE, BUF_SIZE in *. destruct nums as [_ En]. destruct (q_used_end tq (nf_tx fit)) as (E1 & E2 & E3). pose proof (qf_avail tq (nf_tx fit)).
  pose proof (len_nonneg f). split; [done|..]; rewrite mread_mwrite_out; try done.
  - assert (Hne : p = TxRing \/ p <> TxRing) by (destruct p; (by left) || (by right)). destruct Hne as [->|Hne].
    + destruct (Hr eq_refl); lia.
    + destruct (place_apart p TxRing a (len l) (q_desc tq + s * 16) 16); cbn [area fst snd placed]; try done; lia.
  - destruct (place_apart p (TxBuf s) a (len l) (tbuf s) (10 + len f)); cbn [area fst snd placed] in *; unfold slot_in, BUF_SIZE; try done; unfold len in *; lia.
Qed.
Lemma offered_write m s p a l : slot_in s -> offered m s -> placed p -> (area p).1 <= a -> a + len l <= (area p).1 + (area p).2 ->
  (p = RxRing -> q_avail rq <= a) -> offered (mwrite m a l) s.
Proof.
  intros Hs Ho Hp Ha He Hr. unfold offered in *. destruct nums as [En _]. destruct (q_used_end rq (nf_rx fit)) as (E1 & E2 & E3). pose proof (qf_avail rq (nf_rx fit)). unfold slot_in in *.
  rewrite mread_mwrite_out; [done|]. assert (Hne : p = RxRing \/ p <> RxRing) by (destruct p; (by left) || (by right)). destruct Hne as [->|Hne].
  - specialize (Hr eq_refl). lia.
  - destruct (place_apart p RxRing a (len l) (q_desc rq + s * 16) 16); cbn [area fst snd placed]; try done; lia.
Qed.
Lemma raw_write m p raw pl a l : slot_in p.1 -> raw_ok m p raw -> placed pl -> (area pl).1 <= a -> a + len l <= (area pl).1 + (area pl).2 -> pl <> RxBuf p.1 -> raw_ok (mwrite m a l) p raw.
Proof.
  intros Hs [R1 R2 R3] Hp Ha He Hn. split; [done|done|]. rewrite mread_mwrite_out; [done|].
  destruct (place_apart pl (RxBuf p.1) a (len l) (rbuf p.1) (len raw)); cbn [area fst snd placed] in *; try done; unfold len in *; lia.
Qed.
(** The rings of one queue and everything else. *)
Lemma ring_write q p pq x m a l : (pq = RxRing /\ q = rq) \/ (pq = TxRing /\ q = tq) -> in_ring q x m -> placed p -> p <> pq ->
  (area p).1 <= a -> a + len l <= (area p).1 + (area p).2 -> in_ring q x (mwrite m a l).
Proof.
  intros Hpq Hr Hp Hn Ha He.
  destruct Hpq as [[-> ->] | [-> ->]]; (apply ring_elsewhere; [apply fit|done|]).
  - destruct (q_used_end rq (nf_rx fit)) as (E1 & E2 & E3). pose proof (qf_num rq (nf_rx fit)).
    destruct (place_apart p RxRing a (len l) (q_desc rq) (q_end rq - q_desc rq)); cbn [area fst snd placed]; try done; lia.
  - destruct (q_used_end tq (nf_tx fit)) as (E1 & E2 & E3). pose proof (qf_num tq (nf_tx fit)).
    destruct (place_apart p TxRing a (len l) (q_desc tq) (q_end tq - q_desc tq)); cbn [area fst snd placed]; try done; lia.
Qed.

(** The frames and buffers that are in use, after a write elsewhere. *)
Lemma data_write rx tx drv m t p a l : drv_rel rx tx drv -> data_rel rx tx m t -> placed p ->
  (area p).1 <= a -> a + len l <= (area p).1 + (area p).2 ->
  (forall i, p = TxBuf i -> i ∉ r_wait tx ++ r_play tx) -> (forall i, p = RxBuf i -> i ∉ map fst (r_back rx)) ->
  (p = TxRing -> forall i, i ∈ r_wait tx ++ r_play tx -> a + len l <= q_desc tq + i * 16 \/ q_desc tq + i * 16 + 16 <= a) ->
  (p = RxRing -> q_avail rq <= a) -> data_rel rx tx (mwrite m a l) t.
Proof.
  intros Hd [D1 D2 D3 D4] Hp Ha He H1 H2 H3 H4.
  assert (HF : forall s f, s ∈ r_wait tx ++ r_play tx -> frame_ok m s f -> frame_ok (mwrite m a l) s f).
  { intros s f Hs Hf. apply (frame_write m s f p); try done; [|intros ->; by apply (H1 s)|auto].
    apply (tx_slot _ _ _ _ Hd). unfold all_heads. rewrite elem_of_app in Hs. rewrite !elem_of_app. naive_solver. }
  split.
  - apply (Forall2_elem _ _ _ _ D1). intros s f Hs. apply HF. apply elem_of_app. by left.
  - apply (Forall2_elem _ _ _ _ D2). intros s f Hs. apply HF. apply elem_of_app. by right.
  - intros s Hs. by apply (offered_write m s p); auto.
  - apply (Forall2_elem _ _ _ _ D4). intros pr raw Hpr Hraw. assert (Hin : pr.1 ∈ map fst (r_back rx)) by (apply list_elem_of_In, in_map; by apply list_elem_of_In).
    apply (raw_write m pr raw p); try done; [|intros ->; by apply (H2 pr.1)].
    apply (rx_slot _ _ _ _ Hd). unfold all_heads. rewrite !elem_of_app. auto.
Qed.
(** A write into a buffer that is not in use. *)
Lemma buffer_write rx tx drv m t p a l : drv_rel rx tx drv -> mem_rel rx tx m t -> placed p ->
  (area p).1 <= a -> a + len l <= (area p).1 + (area p).2 ->
  ((exists i, p = TxBuf i /\ i ∉ r_wait tx ++ r_play tx) \/ (exists i, p = RxBuf i /\ i ∉ map fst (r_back rx))) -> mem_rel rx tx (mwrite m a l) t.
Proof.
  intros Hd [M1 M2 M3 M4] Hp Ha He Hb. assert (p <> TxRing /\ p <> RxRing) as [Hnt Hnr] by (destruct Hb as [(i & -> & _)|(i & -> & _)]; done). split; [| | |done].
  - apply (ring_write tq p TxRing); try done. by right.
  - apply (ring_write rq p RxRing); try done. by left.
  - apply (data_write rx tx drv m t p); try done; destruct Hb as [(i & -> & Hi)|(i & -> & Hi)]; intros j; try done; by intros [= ->].
Qed.

(** ** The card takes a request *)

Lemma take_tx_rel y t : rel y t -> rel (mkSystem (y_drv y) (y_rx y) (peer_take tq (y_mem y) (y_tx y))) (snd (spec_step ETakeTx t)).
Proof.
  intros (rx & tx & Hd & Hm & Hpr & Hpt). destruct (take_ring tq (nf_tx fit) tx (y_mem y) (y_tx y) (mr_tx _ _ _ _ Hm) Hpt) as [Hr Hp].
  exists rx, (take_head tx). split; [|split; [|split; [done|exact Hp]]].
  - destruct Hd as [(k & E & Hk & Eb) D2 D3 D4 D5 D6]. split; try done; [|by rewrite take_perm]. exists k. split; [done|]. split; [by apply take_queue|done].
  - destruct Hm as [M1 M2 [M3 M4 M5 M6] M7]. cbn [y_drv spec_step]. unfold take_head in *. destruct (r_wait tx) as [|s w] eqn:E.
    + destruct (t_queued t) as [|f l] eqn:Eq; [|by inversion M3]. cbn [snd]. split; try done. split; try done. rewrite E, Eq. constructor.
    + inversion M3 as [|? f ? l Hf Hl E1 E2]. cbn [snd]. split; try done. split; cbn [t_queued t_sending t_arrived t_offered t_held r_wait r_play]; try done.
      apply Forall2_app; [done|]. by constructor.
Qed.
Lemma take_rx_rel y t : rel y t -> rel (mkSystem (y_drv y) (peer_take rq (y_mem y) (y_rx y)) (y_tx y)) (snd (spec_step ETakeRx t)).
Proof.
  intros (rx & tx & Hd & Hm & Hpr & Hpt). destruct (take_ring rq (nf_rx fit) rx (y_mem y) (y_rx y) (mr_rx _ _ _ _ Hm) Hpr) as [Hr Hp].
  exists (take_head rx), tx. split; [|split; [|split; [exact Hp|done]]].
  - destruct Hd as [D1 (k & E & Hk & Eb) D3 D4 D5 D6]. split; try done; [|by rewrite take_perm]. exists k. split; [done|]. split; [by apply take_queue|done].
  - destruct Hm as [M1 M2 [M3 M4 M5 M6] [M7 M8]]. cbn [y_drv spec_step]. unfold take_head in *. destruct (r_wait rx) as [|s w] eqn:E; cbn [length] in M7; rewrite <- M7; cbn [snd].
    + split; try done. by rewrite E.
    + split; try done. split; cbn [t_queued t_sending t_arrived t_offered t_held r_wait r_play r_back]; [done|]. rewrite length_app. cbn [length]. lia.
Qed.

(** ** The card returns one *)


Lemma sent_rel k y t : rel y t -> exists y', system_step rq tq (ESent k) y = (Ok (fst (spec_step (ESent k) t)), y') /\ rel y' (snd (spec_step (ESent k) t)).
Proof.
  destruct y as [[drv h] prx ptx]. intros (rx & tx & Hd & Hm & Hpr & Hpt). cbn [y_drv y_rx y_tx fst snd] in *. pose proof Hpt as (_ & Ep & _). pose proof Hm as [M1 M2 M3 M7].
  pose proof (mr_sending _ _ _ _ M3) as M4. cbn [system_step spec_step fst snd]. rewrite Ep. destruct (r_play tx !! k) as [s|] eqn:Ek.
  2:{ apply lookup_ge_None_1 in Ek. rewrite (proj2 (list.lookup_ge_None (t_sending t) k)) by (rewrite <- (Forall2_length M4); lia).
      eexists. split; [reflexivity|]. by exists rx, tx. }
  destruct (Forall2_lookup_l _ _ _ _ _ M4 Ek) as (f & Ef & Hf). rewrite Ef. cbn [fst snd]. rewrite <- Ep in Ek.
  destruct (use_ring tq (nf_tx fit) tx (h_mem h) ptx k s 0 M1 Hpt Ek ltac:(lia)) as (Ek' & Hr & Hp).
  assert (Hsl : slot_in s) by (apply (tx_slot _ _ _ _ Hd); unfold all_heads; rewrite !elem_of_app; right; left; by eapply list_elem_of_lookup_2).
  assert (Hw : wire_data tq (h_mem h) s = _net_header ++ f).
  { unfold wire_data. unfold slot_in in Hsl. pose proof (nf_range fit (TxBuf s) Hsl). cbn [area fst] in *. pose proof (len_nonneg f). pose proof (fo_len _ _ _ Hf). unfold NET_HDR_SIZE, BUF_SIZE in *.
    rewrite (desc_at_bytes _ _ _ _ _ _ _ (fo_desc _ _ _ Hf)); [|lia|unfold NET_HDR_SIZE; lia|lia|lia]. cbn [d_addr d_len]. rewrite <- (fo_data _ _ _ Hf). f_equal. unfold NET_HDR_SIZE, len. lia. }
  rewrite Hw. eexists. split; [reflexivity|]. exists rx, (return_head k s 0 tx). split; [|split; [|split; [done|done]]].
  - destruct Hd as [(k1 & E & Hk & Eb) D2 D3 D4 D5 D6]. split; try done; [by exists k1|]. cbn [with_mem fst]. by rewrite return_perm.
  - cbn [with_mem y_drv snd setm h_mem]. destruct (q_used_end tq (nf_tx fit)) as (E1 & E2 & E3). destruct nums as [_ En]. pose proof (qf_avail tq (nf_tx fit)) as Ea.
    split; [done| | |done].
    + apply (use_mem_writes tq _ _ _ _ (fun m => in_ring rq rx m) (nf_tx fit) M2). intros m a l Hm1 Ha He.
      apply (ring_write rq TxRing RxRing); cbn [area fst snd placed]; try done; try lia. by left.
    + assert (HD : data_rel rx tx (use_mem tq (pe_used ptx) s 0 (h_mem h)) t).
      { apply (use_mem_writes tq _ _ _ _ (fun m => data_rel rx tx m t) (nf_tx fit) M3). intros m a l Hm1 Ha He.
        apply (data_write rx tx drv m t TxRing); cbn [area fst snd placed]; try done; try lia. intros _ i Hi.
        assert (slot_in i) by (apply (tx_slot _ _ _ _ Hd); unfold all_heads; rewrite elem_of_app in Hi; rewrite !elem_of_app; naive_solver). unfold slot_in in *. lia. }
      destruct HD as [X1 X2 X3 X4]. split; try done. by apply Forall2_delete.
Qed.

Lemma arrive_rel k raw y t : rel y t -> exists y', system_step rq tq (EArrive k raw) y = (Ok (fst (spec_step (EArrive k raw) t)), y') /\ rel y' (snd (spec_step (EArrive k raw) t)).
Proof.
  destruct y as [[drv h] prx ptx]. intros (rx & tx & Hd & Hm & Hpr & Hpt). cbn [y_drv y_rx y_tx fst snd] in *. pose proof Hpr as (_ & Ep & _). pose proof (mr_counts _ _ _ _ Hm) as [C1 C2].
  cbn [system_step spec_step fst snd]. rewrite Ep. destruct (r_play rx !! k) as [s|] eqn:Ek.
  2:{ apply lookup_ge_None_1 in Ek. replace (k <? t_held t)%nat with false by (symmetry; apply Nat.ltb_ge; lia). cbn [andb].
      eexists. split; [reflexivity|]. by exists rx, tx. }
  replace (k <? t_held t)%nat with true by (symmetry; apply Nat.ltb_lt; apply lookup_lt_Some in Ek; lia). cbn [andb].
  assert (Hin : s ∈ all_heads rx) by (unfold all_heads; rewrite !elem_of_app; right; left; by eapply list_elem_of_lookup_2).
  pose proof (rx_slot _ _ _ _ Hd Hin) as Hsl. pose proof (mr_offered _ _ _ _ (mr_data _ _ _ _ Hm) s Hsl) as Ho. unfold slot_in in Hsl.
  pose proof (nf_range fit (RxBuf s) Hsl). cbn [area fst] in *. unfold offered, VRING_DESC_F_WRITE in Ho.
  rewrite (desc_at_bytes _ _ _ _ _ _ _ Ho) by (unfold BUF_SIZE; lia). cbn [d_addr d_len].
  destruct (Z.leb_spec (len raw) BUF_SIZE) as [Hlen|Hlen]; cbn [fst snd]; [|eexists; split; [reflexivity|]; by exists rx, tx].
  assert (Hns : s ∉ map fst (r_back rx)).
  { destruct (heads_nodup _ _ _ Hd) as [HN _]. unfold all_heads in HN. apply list.NoDup_app in HN as (_ & _ & HN). apply list.NoDup_app in HN as (_ & HN & _).
    apply HN. by eapply list_elem_of_lookup_2. }
  assert (Hm1 : mem_rel rx tx (mwrite (h_mem h) (rbuf s) raw) t).
  { apply (buffer_write rx tx drv (h_mem h) t (RxBuf s)); cbn [area fst snd placed]; try done; [lia|]. right. by exists s. }
  pose proof Hm1 as [M1 M2 M3 M7]. rewrite <- Ep in Ek.
  destruct (use_ring rq (nf_rx fit) rx _ prx k s (len raw) M2 Hpr Ek ltac:(pose proof (len_nonneg raw); unfold BUF_SIZE in *; lia)) as (Ek' & Hr & Hp).
  eexists. split; [reflexivity|]. exists (return_head k s (len raw) rx), tx. split; [|split; [|split; [done|done]]].
  - destruct Hd as [D1 (k1 & E & Hk & Eb) D3 D4 D5 D6]. split; try done; [by exists k1|]. by rewrite return_perm.
  - cbn [with_mem y_drv snd setm h_mem]. destruct (q_used_end rq (nf_rx fit)) as (E1 & E2 & E3). destruct nums as [En _]. pose proof (qf_avail rq (nf_rx fit)) as Ea.
    split; [|done| |].
    + apply (use_mem_writes rq _ _ _ _ (fun m => in_ring tq tx m) (nf_rx fit) M1). intros m a l Hx Ha He.
      apply (ring_write tq RxRing TxRing); cbn [area fst snd placed]; try done; try lia. by right.
    + assert (HD : data_rel rx tx (use_mem rq (pe_used prx) s (len raw) (mwrite (h_mem h) (rbuf s) raw)) t).
      { apply (use_mem_writes rq _ _ _ _ (fun m => data_rel rx tx m t) (nf_rx fit) M3). intros m a l Hx Ha He.
        apply (data_write rx tx drv m t RxRing); cbn [area fst snd placed]; try done; try lia. }
      destruct HD as [X1 X2 X3 X4]. split; cbn [t_queued t_sending t_arrived return_head r_back]; try done. apply Forall2_app; [done|]. constructor; [|constructor].
      split; cbn [fst snd]; [done|done|]. apply (use_mem_writes rq _ _ _ _ (fun m => mread m (rbuf s) (length raw) = raw) (nf_rx fit)); [by apply mread_mwrite_same|].
      intros m a l Hx Ha He. rewrite mread_mwrite_out; [done|].
      destruct (place_apart RxRing (RxBuf s) a (len l) (rbuf s) (len raw)); cbn [area fst snd placed]; try done; unfold len in *; lia.
    + cbn [t_offered t_held return_head r_wait r_play]. split; [done|]. rewrite length_delete by (by eexists). lia.
Qed.

(** ** Sending *)

Lemma net_hw_step {A} (m : M (Hw Dv) A) s h r h' : m h = (r, h') -> on_hw m (s, h) = (r, (s, h')).
Proof. intros E. unfold on_hw, zoom. cbn [snd fst]. by rewrite E. Qed.

(** After reclaiming, nothing returned is left unseen. *)
Lemma net_reclaim_ok fuel rx tx drv h t : drv_rel rx tx drv -> mem_rel rx tx (h_mem h) t -> (length (r_back tx) < fuel)%nat ->
  exists drv' tx', reclaim fuel (drv, h) = (Ok tt, (drv', h)) /\ r_back tx' = [] /\ r_wait tx' = r_wait tx /\ r_play tx' = r_play tx /\
    drv_rel rx tx' drv' /\ mem_rel rx tx' (h_mem h) t /\ (forall d, peer_rel tx d -> peer_rel tx' d).
Proof.
  revert tx drv. induction fuel as [|fuel IH]; intros tx drv Hd Hm Hf; [lia|]. pose proof Hd as [(k & Ek & Hk & Eb) D2 D3 D4 D5 D6].
  cbn [reclaim]. erewrite bind_step by reflexivity. cbn [fst]. rewrite Ek. erewrite bind_step by reflexivity.
  erewrite bind_step by (apply net_hw_step, (has_used_ring tq (nf_tx fit) (nf_ram fit TxRing I) tx); [done|apply (mr_tx _ _ _ _ Hm)]).
  destruct (r_back tx) as [|p b] eqn:Ebk; cbn [negb].
  - exists drv, tx. by split_and!.
  - change QUEUE_SIZE with 64. rewrite <- (proj2 nums).
    erewrite bind_step by (apply net_hw_step, (used_pop_ring tq (nf_tx fit) (nf_ram fit TxRing I) tx k p b); [done|apply (mr_tx _ _ _ _ Hm)|done]). cbv beta iota.
    erewrite bind_step by reflexivity. erewrite bind_step by reflexivity. cbn [fst snd n_tx_bufs n_tx_free n_set_txq].
    assert (Hin : p.1 ∈ all_heads tx) by (rewrite (drop_perm tx p b Ebk); by left). destruct (tx_slot _ _ _ _ Hd Hin) as [Hsl Hnf].
    assert (Ef : dmem p.1 (n_tx_bufs drv) && negb (existsb (Z.eqb p.1) (n_tx_free drv)) = true).
    { unfold dmem. rewrite (D3 _ Hsl). cbn [andb]. destruct (existsb (Z.eqb p.1) (n_tx_free drv)) eqn:Ex; [|done]. exfalso. apply existsb_exists in Ex as (j & Hj & E).
      apply Z.eqb_eq in E. subst j. apply Hnf. by apply list_elem_of_In. }
    rewrite Ef. set (drv1 := n_set_tx_free _ _).
    assert (Hd1 : drv_rel rx (drop_head tx) drv1).
    { subst drv1. split; try done.
      - eexists. split; [reflexivity|]. split; [by apply drop_queue|done].
      - cbn [n_tx_free n_set_tx_free n_set_txq]. rewrite <- D5. rewrite (drop_perm tx p b Ebk). rewrite <- app_assoc. cbn [app]. solve_Permutation. }
    assert (Hm1 : mem_rel rx (drop_head tx) (h_mem h) t) by (destruct Hm as [M1 M2 [M3 M4 M5 M6] M7]; split; try done; by eapply (drop_ring tq)).
    destruct (IH (drop_head tx) drv1 Hd1 Hm1) as (drv' & tx' & E & H1 & H2 & H3 & H4 & H5 & H6); [unfold drop_head; cbn [r_back]; rewrite Ebk; cbn [tail length] in *; lia|].
    exists drv', tx'. split_and!; try done. intros d Hp. apply H6. by eapply drop_peer.
Qed.

Lemma net_bell_quiet k s h v : k_dev_base k = base -> k_q_idx k = v -> exists d', on_hw (notify k) (s, h) = (Ok tt, (s, mkHw (h_mem h) (h_heap h) d')).
Proof.
  intros Eb Ev. unfold notify, mmio_write32, mmio_write. rewrite Eb. unfold on_hw, zoom. cbn [fst snd]. rewrite (nf_bell fit).
  pose proof (nf_quiet fit (k_q_idx k mod 256 ^ Z.of_nat 4) (h_dev h) (h_mem h)) as Hq. destruct (dev_write _ _ _ _) as [d' m']. cbn [snd] in Hq. subst m'. by exists d'.
Qed.

(** The memory after frame [f] went into slot [i]. *)
Definition sent_mem (idx i : Z) (f : bytes) (m : mem) : mem :=
  pushed_mem tq idx i (mwrite (mwrite m (tbuf i) (_net_header ++ f)) (q_desc tq + i * 16) (desc_bytes (tbuf i) (NET_HDR_SIZE + len f) 0 0)).
Lemma len_net_header f : len (_net_header ++ f) = NET_HDR_SIZE + len f.
Proof. rewrite len_app. done. Qed.
Lemma sent_mem_rel rx tx drv m t f i : drv_rel rx tx drv -> mem_rel rx tx m t -> slot_in i -> i ∉ all_heads tx -> NET_HDR_SIZE + len f <= BUF_SIZE -> len (all_heads tx) < 64 ->
  mem_rel rx (add_head i tx) (sent_mem ((r_taken tx + len (r_wait tx)) mod 65536) i f m)
    (mkTraffic (t_queued t ++ [f]) (t_sending t) (t_arrived t) (t_offered t) (t_held t)).
Proof.
  intros Hd Hm Hi Hn Hf Hroom. pose proof (len_nonneg f). destruct (q_used_end tq (nf_tx fit)) as (E1 & E2 & E3). destruct nums as [_ En]. pose proof (qf_avail tq (nf_tx fit)) as Ea.
  assert (Hnb : i ∉ r_wait tx ++ r_play tx) by (intros Hx; apply Hn; unfold all_heads; rewrite elem_of_app in Hx; rewrite !elem_of_app; naive_solver).
  assert (Hm1 : mem_rel rx tx (mwrite m (tbuf i) (_net_header ++ f)) t).
  { apply (buffer_write rx tx drv m t (TxBuf i)); cbn [area fst snd placed]; try done; [rewrite len_net_header; lia|]. left. by exists i. }
  set (m1 := mwrite m (tbuf i) _) in *. set (db := desc_bytes (tbuf i) (NET_HDR_SIZE + len f) 0 0).
  assert (Hdb : len db = 16) by apply len_desc_bytes. unfold slot_in in Hi.
  assert (Hdat : mread m1 (tbuf i) (10 + length f) = _net_header ++ f) by (apply mread_mwrite_same; rewrite length_app; done).
  assert (Hm2 : mem_rel rx tx (mwrite m1 (q_desc tq + i * 16) db) t).
  { destruct Hm1 as [M1 M2 M3 M7]. split; [| | |done].
    - apply ring_elsewhere; [apply fit|done|lia].
    - apply (ring_write rq TxRing RxRing); cbn [area fst snd placed]; try done; try lia. by left.
    - apply (data_write rx tx drv m1 t TxRing); cbn [area fst snd placed]; try done; try lia. intros _ j Hj. assert (j <> i) by (intros ->; done). lia. }
  assert (HF : frame_ok (mwrite m1 (q_desc tq + i * 16) db) i f).
  { split; [done|by apply mread_mwrite_same|]. rewrite mread_mwrite_out; [done|].
    destruct (place_apart TxRing (TxBuf i) (q_desc tq + i * 16) (len db) (tbuf i) (10 + len f)); cbn [area fst snd placed]; try done; unfold NET_HDR_SIZE in *; unfold len in *; lia. }
  set (m2 := mwrite m1 _ _) in *. fold m2 in HF. unfold sent_mem. fold m1. fold db. fold m2.
  destruct Hm2 as [M1 M2 M3 M7]. set (idx := (r_taken tx + len (r_wait tx)) mod 65536).
  pose proof (fun P => pushed_mem_writes tq idx i m2 P (nf_tx fit)) as HW.
  split; [apply push_ring; [apply fit|done|lia|lia]| | |done].
  - apply (HW (fun m => in_ring rq rx m)); [done|]. intros x a l Hx Ha He. apply (ring_write rq TxRing RxRing); cbn [area fst snd placed]; try done; try lia. by left.
  - assert (HD : data_rel rx tx (pushed_mem tq idx i m2) t).
    { apply (HW (fun m => data_rel rx tx m t)); [done|]. intros x a l Hx Ha He. apply (data_write rx tx drv x t TxRing); cbn [area fst snd placed]; try done; try lia. intros _ j Hj.
      assert (slot_in j) by (apply (tx_slot _ _ _ _ Hd); unfold all_heads; rewrite elem_of_app in Hj; rewrite !elem_of_app; naive_solver). unfold slot_in in *. lia. }
    assert (HF' : frame_ok (pushed_mem tq idx i m2) i f).
    { apply (HW (fun m => frame_ok m i f)); [done|]. intros x a l Hx Ha He. apply (frame_write x i f TxRing); cbn [area fst snd placed]; try done; try lia. }
    destruct HD as [X1 X2 X3 X4]. split; try done. cbn [add_head r_wait t_queued]. apply Forall2_app; [done|]. by constructor.
Qed.

Lemma send_rel f y t : bytes_ok f -> rel y t -> exists y', system_step rq tq (ESend f) y = (Ok (fst (spec_step (ESend f) t)), y') /\ rel y' (snd (spec_step (ESend f) t)).
Proof.
  destruct y as [[drv h] prx ptx]. intros Hb (rx & tx & Hd & Hm & Hpr & Hpt). cbn [y_drv y_rx y_tx fst snd] in *. pose proof Hd as [(k & Ek & Hk & Eb) _ _ _ _ _].
  cbn [system_step spec_step]. unfold send_nowait. erewrite bind_step by reflexivity. cbn [fst]. rewrite Ek. cbv zeta. rewrite len_net_header.
  destruct (Z.ltb_spec BUF_SIZE (NET_HDR_SIZE + len f)) as [Hlen|Hlen]; cbn [orb].
  { eexists. split; [reflexivity|]. by exists rx, tx. }
  destruct (net_reclaim_ok (Z.to_nat 65536) rx tx drv h t Hd Hm) as (drv1 & tx1 & Er & Hbk & Ew & Ep & Hd1 & Hm1 & Hpr1).
  { pose proof (ir_room tq _ _ (mr_tx _ _ _ _ Hm)) as Hr. rewrite all_heads_len, (proj2 nums) in Hr. pose proof (len_nonneg (r_wait tx)). pose proof (len_nonneg (r_play tx)). unfold len in *. lia. }
  assert (Erc : _reclaim_tx (drv, h) = (Ok tt, (drv1, h))) by (unfold _reclaim_tx; erewrite bind_step by reflexivity; cbn [fst]; by rewrite Ek).
  rewrite (bind_step _ _ _ _ _ Erc). erewrite bind_step by reflexivity. cbn [fst]. clear Er Erc.
  pose proof (dr_tx _ _ _ Hd1) as Hfree. pose proof (Permutation_length Hfree) as Hcnt. rewrite length_app in Hcnt. change (length (range 64)) with 64%nat in Hcnt.
  pose proof (all_heads_len tx1) as Hal. rewrite Hbk in Hal. change (len []) with 0 in Hal.
  pose proof (Forall2_length (mr_queued _ _ _ _ (mr_data _ _ _ _ Hm1))) as Lq. pose proof (Forall2_length (mr_sending _ _ _ _ (mr_data _ _ _ _ Hm1))) as Ls.
  destruct (n_tx_free drv1) as [|f0 fr] eqn:Ef.
  { cbn [length] in Hcnt. assert ((len (t_queued t) + len (t_sending t) =? QUEUE_SIZE) = true) as -> by (unfold QUEUE_SIZE, len in *; lia). cbn [fst snd].
    eexists. split; [reflexivity|]. exists rx, tx1. split; [done|]. split; [done|]. split; [done|]. by apply Hpr1. }
  assert ((len (t_queued t) + len (t_sending t) =? QUEUE_SIZE) = false) as -> by (cbn [length] in Hcnt; unfold QUEUE_SIZE, len in *; lia). cbn [fst snd]. cbv match.
  destruct (exists_last (l := f0 :: fr) ltac:(done)) as (free & i & Efree). rewrite Efree in *. rewrite List.last_last, removelast_last.
  assert (Hi : slot_in i) by (assert (Hr : i ∈ range 64) by (rewrite <- Hfree; rewrite !elem_of_app; left; right; by left); unfold range in Hr; by apply elem_of_range2 in Hr).
  assert (Hni : i ∉ all_heads tx1).
  { intros Hx. destruct (tx_slot _ _ _ _ Hd1 Hx) as [_ Hnf]. apply Hnf. rewrite Ef. apply elem_of_app. right. by left. }
  pose proof Hd1 as [(k1 & Ek1 & Hk1 & Eb1) D2 D3 D4 D5 D6].
  erewrite bind_step by reflexivity. erewrite bind_step by reflexivity. cbn [fst snd]. unfold tx_buffer at 1. cbn [n_tx_bufs n_set_tx_free]. rewrite (D3 i Hi).
  erewrite bind_step by reflexivity.
  pose proof (len_nonneg f) as Hlf. unfold slot_in in Hi.
  erewrite bind_step.
  2:{ apply net_hw_step, copy_to_dma_ram; [apply bytes_ok_app; split; [apply bytes_ok_zeros|done]|]. rewrite len_net_header. apply (ram_sub _ _ _ _ (nf_ram fit (TxBuf i) Hi)); cbn [area fst snd]; lia. }
  erewrite bind_step by reflexivity. cbn [fst n_txq n_set_tx_free]. rewrite Ek1. erewrite bind_step by reflexivity.
  erewrite bind_step by (apply net_hw_step, (write_desc_ring tq (nf_tx fit) (nf_ram fit TxRing I) tx1); [done|rewrite (proj2 nums); lia|lia|lia]).
  change QUEUE_SIZE with 64. rewrite <- (proj2 nums).
  erewrite bind_step by (apply net_hw_step, (avail_push_ring tq (nf_tx fit) (nf_ram fit TxRing I) tx1); done).
  erewrite bind_step by reflexivity. cbn [fst snd]. rewrite !setm_setm. cbn [setm h_mem].
  destruct (net_bell_quiet (k_push ((k_avail_idx k1 + 1) mod 65536) k1) (n_set_txq (k_push ((k_avail_idx k1 + 1) mod 65536) k1) (n_set_tx_free free drv1))
    (setm h (sent_mem (k_avail_idx k1) i f (h_mem h))) (k_q_idx k1) Eb1 eq_refl) as [d' Ebell].
  unfold sent_mem in Ebell. cbn [setm h_heap] in Ebell. erewrite bind_step by exact Ebell. eexists. split; [reflexivity|].
  exists rx, (add_head i tx1). split; [|split; [|split; [done|by apply push_peer, Hpr1]]].
  - split; try done.
    + eexists. split; [reflexivity|]. split; [by apply push_queue|done].
    + cbn [n_tx_free n_set_txq n_set_tx_free]. rewrite <- D5, Ef, add_perm, <- app_assoc. cbn [app]. solve_Permutation.
  - cbn [snd h_mem]. destruct Hk1 as (_ & _ & _ & -> & _). apply (sent_mem_rel rx tx1 drv1); try done. cbn [length] in Hcnt. rewrite length_app in Hcnt. cbn [length] in Hcnt. unfold len in *. lia.
Qed.

(** ** Receiving *)

Lemma recv_rel y t : rel y t -> exists y', system_step rq tq ERecv y = (Ok (fst (spec_step ERecv t)), y') /\ rel y' (snd (spec_step ERecv t)).
Proof.
  destruct y as [[drv h] prx ptx]. intros (rx & tx & Hd & Hm & Hpr & Hpt). cbn [y_drv y_rx y_tx fst snd] in *. pose proof Hd as [D1 (k & Ek & Hk & Eb) D3 D4 D5 D6].
  cbn [system_step spec_step]. unfold recv_nowait. erewrite bind_step by reflexivity. cbn [fst]. rewrite Ek.
  erewrite bind_step by (apply net_hw_step, (has_used_ring rq (nf_rx fit) (nf_ram fit RxRing I) rx); [done|apply (mr_rx _ _ _ _ Hm)]).
  pose proof Hm as [M1 M2 M3 M7]. pose proof (mr_arrived _ _ _ _ M3) as Ha. destruct (r_back rx) as [|p b] eqn:Ebk; cbn [negb].
  { destruct (t_arrived t) as [|raw l]; [|by inversion Ha]. eexists. split; [reflexivity|]. by exists rx, tx. }
  destruct (t_arrived t) as [|raw l] eqn:Earr; [by inversion Ha|]. apply list.Forall2_cons in Ha as [[R1 R2 R3] Ha]. cbn [fst snd].
  assert (Hin : p.1 ∈ all_heads rx) by (rewrite (drop_perm rx p b Ebk); by left). pose proof (rx_slot _ _ _ _ Hd Hin) as Hsl.
  change QUEUE_SIZE with 64. rewrite <- (proj1 nums).
  erewrite bind_step by (apply net_hw_step, (used_pop_ring rq (nf_rx fit) (nf_ram fit RxRing I) rx k p b); done). cbv beta iota.
  erewrite bind_step by reflexivity. erewrite bind_step by reflexivity. cbn [fst snd n_rx_bufs n_set_rxq]. rewrite (D4 _ Hsl). cbv zeta.
  rewrite R1, Z.min_l by lia. unfold slot_in in Hsl. pose proof (len_nonneg raw).
  erewrite bind_step by (apply net_hw_step, copy_from_dma_ram; apply (ram_sub _ _ _ _ (nf_ram fit (RxBuf p.1) Hsl)); cbn [area fst snd]; unfold len in *; lia). rewrite R3.
  assert (Hk1 : queue_rel rq (drop_head rx) (k_pop ((k_last_used k + 1) mod 65536) k)) by (by apply drop_queue).
  erewrite bind_step by (apply net_hw_step, (avail_push_ring rq (nf_rx fit) (nf_ram fit RxRing I) (drop_head rx)); done).
  erewrite bind_step by reflexivity. cbn [fst snd].
  set (k2 := k_push _ _). cbn [k_avail_idx k_pop] in k2.
  destruct (net_bell_quiet k2 (n_set_rxq k2 (n_set_rxq (k_pop ((k_last_used k + 1) mod 65536) k) drv)) (setm h (pushed_mem rq (k_avail_idx k) p.1 (h_mem h))) (k_q_idx k2) Eb eq_refl) as [d' Ebell].
  erewrite bind_step by exact Ebell.
  assert (Hrel : rel (mkSystem (n_set_rxq k2 (n_set_rxq (k_pop ((k_last_used k + 1) mod 65536) k) drv), mkHw (pushed_mem rq (k_avail_idx k) p.1 (h_mem h)) (h_heap h) d') prx ptx)
    (mkTraffic (t_queued t) (t_sending t) l (S (t_offered t)) (t_held t))).
  { exists (add_head p.1 (drop_head rx)), tx. split; [|split; [|split; [|done]]].
    - split; try done.
      + eexists. split; [reflexivity|]. split; [|done]. exact (push_queue rq _ _ p.1 Hk1).
      + rewrite add_perm, <- (drop_perm rx p b Ebk). done.
    - cbn [y_drv snd h_mem]. destruct Hk as (Q1 & Q2 & Q3 & Q4 & Q5). rewrite Q4. destruct (q_used_end rq (nf_rx fit)) as (E1 & E2 & E3). pose proof (qf_avail rq (nf_rx fit)) as Ea.
      pose proof (qf_num rq (nf_rx fit)). set (idx := (r_taken rx + len (r_wait rx)) mod 65536).
      pose proof (fun P => pushed_mem_writes rq idx p.1 (h_mem h) P (nf_rx fit)) as HW.
      split.
      + apply (HW (fun m => in_ring tq tx m)); [done|]. intros x a w Hx Hxa Hxe. apply (ring_write tq RxRing TxRing); cbn [area fst snd placed]; try done; try lia. by right.
      + apply (push_ring rq (nf_rx fit) (drop_head rx)); [by eapply (drop_ring rq)| |lia].
        pose proof (ir_room rq _ _ M2) as Hr. rewrite all_heads_len in Hr |- *. unfold drop_head. cbn [r_wait r_play r_back]. rewrite Ebk, len_cons in *. cbn [tail]. lia.
      + assert (HD : data_rel rx tx (pushed_mem rq idx p.1 (h_mem h)) t).
        { apply (HW (fun m => data_rel rx tx m t)); [done|]. intros x a w Hx Hxa Hxe. apply (data_write rx tx drv x t RxRing); cbn [area fst snd placed]; try done; lia. }
        destruct HD as [X1 X2 X3 X4]. split; try done. unfold add_head, drop_head. cbn [r_back t_arrived]. rewrite Ebk, Earr in X4. rewrite Ebk. cbn [tail]. by apply list.Forall2_cons in X4 as [_ X4].
      + destruct M7 as [C1 C2]. cbn [add_head drop_head r_wait r_play t_offered t_held]. rewrite length_app. cbn [length]. split; [lia|done].
    - by eapply push_peer, drop_peer. }
  change NET_HDR_SIZE with 10. destruct (Z.leb_spec (len raw) 10) as [Hs|Hs].
  - eexists. split; [reflexivity|exact Hrel].
  - eexists. split; [|exact Hrel]. cbn [y_drv fst snd]. unfold ret. do 4 f_equal. unfold slice_from. rewrite slice_inside by lia. unfold len. rewrite take_ge; [done|]. rewrite length_drop. lia.
Qed.

(** ** Runs *)

Definition frames_ok (e : net_event) : Prop := match e with ESend f => bytes_ok f | _ => True end.
Lemma net_step_rel e y t : frames_ok e -> rel y t -> exists y', system_step rq tq e y = (Ok (fst (spec_step e t)), y') /\ rel y' (snd (spec_step e t)).
Proof.
  destruct e as [f| |k| | |k raw]; intros He Hr; [by apply send_rel| |by apply sent_rel|by apply recv_rel| |by apply arrive_rel].
  - pose proof (take_tx_rel y t Hr) as Ht. destruct y as [st prx ptx]. eexists. split; [|exact Ht]. cbn [system_step spec_step]. by destruct (t_queued t).
  - pose proof (take_rx_rel y t Hr) as Ht. destruct y as [st prx ptx]. eexists. split; [|exact Ht]. cbn [system_step spec_step]. by destruct (t_offered t).
Qed.
Lemma net_steps_rel es y t : Forall frames_ok es -> rel y t -> exists y', system_steps rq tq es y = (Ok (fst (spec_steps es t)), y') /\ rel y' (snd (spec_steps es t)).
Proof.
  intros Hes. revert y t. induction Hes as [|e es He Hes IH]; intros y t Hr; cbn [system_steps spec_steps]; [by exists y|].
  destruct (net_step_rel e y t He Hr) as (y1 & -> & Hr1). destruct (spec_step e t) as [a t1]. cbn [fst snd] in *.
  destruct (IH y1 t1 Hr1) as (y2 & -> & Hr2). destruct (spec_steps es t1) as [l t2]. by exists y2.
Qed.

(** After the probe: all receive buffers offered, no frame sent. *)
Record fresh (y : @system Dv) : Prop := {
  fr_txq : n_txq (fst (y_drv y)) = Some (mkVirtQueue base TXQ (n_version (fst (y_drv y))) 0 0 0 (q_desc tq) (q_avail tq) (q_used tq));
  fr_rxq : n_rxq (fst (y_drv y)) = Some (mkVirtQueue base RXQ (n_version (fst (y_drv y))) 0 64 0 (q_desc rq) (q_avail rq) (q_used rq));
  fr_tx_bufs : forall i, slot_in i -> dget i (n_tx_bufs (fst (y_drv y))) = Some (tbuf i);
  fr_rx_bufs : forall i, slot_in i -> dget i (n_rx_bufs (fst (y_drv y))) = Some (rbuf i);
  fr_free : n_tx_free (fst (y_drv y)) = rev (range 64);
  fr_tx_ring : mread (y_mem y) (q_used tq) 4 = [0; 0; 0; 0] /\ mread (y_mem y) (q_avail tq + 2) 2 = [0; 0];
  fr_rx_ring : mread (y_mem y) (q_used rq) 4 = [0; 0; 0; 0] /\ mread (y_mem y) (q_avail rq + 2) 2 = [64; 0];
  fr_heads : forall i, slot_in i -> mread (y_mem y) (q_avail rq + 4 + i * 2) 2 = le_bytes 2 i;
  fr_offered : forall i, slot_in i -> offered (y_mem y) i;
  fr_peers : y_rx y = mkPeer 0 [] 0 /\ y_tx y = mkPeer 0 [] 0;
}.
Definition at_start : traffic := mkTraffic [] [] [] 64 0.
Lemma net_fresh_rel y : fresh y -> rel y at_start.
Proof.
  destruct y as [[drv h] prx ptx]. intros [F1 F2 F3 F4 F5 [F6 F7] [F8 F9] F10 F11 [F12 F13]]. unfold y_mem in *. cbn [y_drv y_rx y_tx fst snd] in *. subst prx ptx. destruct nums as [En Et].
  exists (mkHeads (range 64) [] [] 0 0), (mkHeads [] [] [] 0 0). split; [|split; [|by split]].
  - split; try done.
    + eexists. split; [exact F1|]. done.
    + eexists. split; [exact F2|]. done.
    + cbn [y_drv fst]. rewrite F5. unfold all_heads. cbn [r_wait r_play r_back map app]. rewrite app_nil_r. symmetry. apply Permutation_rev.
  - cbn [y_drv snd]. split; cbn [y_drv snd].
    + split; cbn [r_wait r_play r_back r_taken r_seen]; try done.
      * unfold avail_index, mval. by rewrite F7.
      * rewrite Et. by unfold all_heads.
    + split; unfold all_heads; cbn [r_wait r_play r_back r_taken r_seen map]; rewrite ?app_nil_r; try done.
      * unfold avail_index, mval. by rewrite F9.
      * intros i s Hi. unfold range, range2 in Hi. rewrite list_lookup_fmap in Hi. apply fmap_Some in Hi as (j & Hj & ->). apply lookup_seq in Hj as [-> Hj].
        rewrite En. cbn [Nat.add] in *. rewrite !Z.add_0_l, Z.mod_small by lia. apply F10. unfold slot_in. lia.
      * by rewrite En.
      * apply list.Forall_forall. intros s Hs. unfold range in Hs. apply elem_of_range2 in Hs. lia.
    + split; cbn [r_wait r_play r_back t_queued t_sending t_arrived at_start]; try constructor. done.
    + done.
Qed.
End net.

(** C20: the network driver is a pair of queues.  Whatever is sent and in
    whatever order the card takes requests, finishes and returns them, over the
    wrap-around of all four rings, no call raises; a frame is refused exactly
    when it does not fit a buffer or 64 are on their way; what the card reads
    off a request is the header and that frame, which no later call disturbs;
    and the frames that arrive are received complete, in order and once each. *)
Theorem vnet_is_two_queues {Dv : Type} `{Machine Dv} (base : Z) (rq tq : Vq) (rbuf tbuf : Z -> Z) (y : @system Dv) (es : list net_event)
    (fit : net_fit base rq tq rbuf tbuf) (Hfresh : fresh base rq tq rbuf tbuf y) (Hbytes : Forall frames_ok es) :
  exists y', system_steps rq tq es y = (Ok (fst (spec_steps es at_start)), y').
Proof. destruct (net_steps_rel base rq tq rbuf tbuf fit es y at_start Hbytes (net_fresh_rel base rq tq rbuf tbuf fit y Hfresh)) as (y' & E & _). by exists y'. Qed.

(** ** A card on a machine *)

(** A card that only decodes its registers, and the driver after the probe. *)
Definition idle_card : Machine unit := {|
  dev_claims a := (0x1000 <=? a) && (a <? 0x1200);
  dev_read _ d := (0, d);
  dev_write _ _ d m := (d, m);
  dev_run d m := (d, m);
  calloc _ _ := None;
|}.
Definition demo_rq : Vq := mkVq 64 0x10000 0x10400 0x11000.
Definition demo_tq : Vq := mkVq 64 0x20000 0x20400 0x21000.
Definition demo_rbuf (i : Z) : Z := 0x100000 + i * 0x1000.
Definition demo_tbuf (i : Z) : Z := 0x200000 + i * 0x1000.
Definition demo_mem : mem :=
  mwrite (fold_left (fun m i => mwrite (mwrite m (0x10000 + i * 16) (desc_bytes (demo_rbuf i) BUF_SIZE VRING_DESC_F_WRITE 0)) (0x10404 + i * 2) (le_bytes 2 i)) (range 64) ∅) 0x10402 [64; 0].
Definition demo_net : VirtioMmioNet :=
  mkNet 0x1000 1 (Some (mkVirtQueue 0x1000 RXQ 1 0 64 0 0x10000 0x10400 0x11000)) (Some (mkVirtQueue 0x1000 TXQ 1 0 0 0 0x20000 0x20400 0x21000))
    (map (fun i => (i, demo_rbuf i)) (range 64)) (map (fun i => (i, demo_tbuf i)) (range 64)) (rev (range 64)) [2; 0x50; 0x59; 0x4f; 0; 1].
Definition demo_system : @system unit := mkSystem (demo_net, mkHw demo_mem [] tt) (mkPeer 0 [] 0) (mkPeer 0 [] 0).

Lemma net_demo_fit : @net_fit unit idle_card 0x1000 demo_rq demo_tq demo_rbuf demo_tbuf.
Proof.
  split; try done.
  - split; cbn; try lia. exists 1024. done.
  - split; cbn; try lia. exists 1024. done.
  - intros p Hp a Ha. cbn [dev_claims idle_card]. destruct p; cbn [area fst snd placed] in *; unfold slot_in, demo_rbuf, demo_tbuf, BUF_SIZE in *;
      unfold q_end, demo_rq, demo_tq in Ha; cbn [q_desc q_used q_num] in Ha; lia.
  - intros p Hp. destruct p; cbn [area fst snd placed] in *; unfold slot_in, demo_rbuf, demo_tbuf in *; cbn [demo_rq demo_tq q_desc]; lia.
  - intros p p' Hp Hp' Hne. unfold apart. destruct p, p'; cbn [area fst snd placed] in *; try done; unfold slot_in, demo_rbuf, demo_tbuf, BUF_SIZE in *;
      unfold q_end, demo_rq, demo_tq; cbn [q_desc q_used q_num]; try lia; assert (i <> i0) by congruence; lia.
Qed.
Lemma each_slot (P : Z -> bool) : forallb P (range 64) = true -> forall i, slot_in i -> P i = true.
Proof. intros Hf i Hi. rewrite forallb_forall in Hf. apply Hf. apply list_elem_of_In. unfold range. by apply elem_of_range2. Qed.
Lemma demo_fresh : @fresh unit 0x1000 demo_rq demo_tq demo_rbuf demo_tbuf demo_system.
Proof.
  split; try done; try (split; by vm_compute).
  - intros i Hi. apply (each_slot (fun i => bool_decide (dget i (n_tx_bufs demo_net) = Some (demo_tbuf i)))) in Hi; [|by vm_compute]. by apply bool_decide_eq_true in Hi.
  - intros i Hi. apply (each_slot (fun i => bool_decide (dget i (n_rx_bufs demo_net) = Some (demo_rbuf i)))) in Hi; [|by vm_compute]. by apply bool_decide_eq_true in Hi.
  - intros i Hi. apply (each_slot (fun i => beq (mread demo_mem (q_avail demo_rq + 4 + i * 2) 2) (le_bytes 2 i))) in Hi; [|by vm_compute]. by apply beq_eq in Hi.
  - intros i Hi. apply (each_slot (fun i => beq (mread demo_mem (q_desc demo_rq + i * 16) 16) (desc_bytes (demo_rbuf i) BUF_SIZE VRING_DESC_F_WRITE 0))) in Hi; [|by vm_compute]. by apply beq_eq in Hi.
Qed.
Definition two_way : list net_event :=
  [ESend [1; 2; 3]; ETakeRx; ETakeTx; EArrive 0 (zeros 10 ++ [7; 8]); ESend [4]; ESent 0; ERecv; ERecv; ETakeTx; ESent 0; ETakeRx; EArrive 0 [1; 2]; ERecv].
Lemma vnet_is_two_queues_witness :
  exists y', @system_steps unit idle_card demo_rq demo_tq two_way demo_system = (Ok (fst (spec_steps two_way at_start)), y').
Proof. apply (@vnet_is_two_queues unit idle_card 0x1000 demo_rq demo_tq demo_rbuf demo_tbuf demo_system two_way net_demo_fit demo_fresh). repeat constructor; cbn; unfold byte_ok; lia. Defined.
Example two_way_answers : fst (spec_steps two_way at_start) =
  [ASent true; ANone; ANone; ANone; ASent true; AWire (zeros 10 ++ [1; 2; 3]); AFrame (Some [7; 8]); AFrame None; ANone; AWire (zeros 10 ++ [4]); ANone; ANone; AFrame None].
Proof. by vm_compute. Qed.
