(* ===== verification/NetDriver.v ===== *)
(** * TCP over the network driver

    [Net.v] sends through any card that implements [Nic].  Here the card is the
    driver of [VirtioNet.v] on its machine, with a device that puts each frame
    on the wire as soon as it is rung, so that what a connection sends can be
    followed from the call to the wire. *)

From Stdlib Require Import ZArith Lia.
From stdpp Require Import base list gmap numbers.
From S2P Require Import Prelude Bytes Dict Packets Net NetWire Hw Virtio VirtioSpec VirtioMem Virtqueue Vring VirtioNet VirtioNetProps.

Local Open Scope Z_scope.

(** ** The driver as a network card *)

Section card.
Context {Dv : Type} `{Machine Dv} (base : Z) (rq tq : Vq) (rbuf tbuf : Z -> Z).

(** The system and the frames that went out on the wire. *)
Record card : Type := mkCard { cd_sys : @system Dv; cd_wire : list bytes }.

(** The device takes the request at its head and transmits what follows the
    header of the card. *)
Definition transmit (c : card) : card :=
  let y := snd (system_step rq tq ETakeTx (cd_sys c)) in
  match system_step rq tq (ESent 0) y with
  | (Ok (AWire d), y) => mkCard y (cd_wire c ++ [drop (Z.to_nat NET_HDR_SIZE) d])
  | (_, y) => mkCard y (cd_wire c)
  end.
Definition card_send (f : bytes) (c : card) : result bool * card :=
  let (r, st) := send_nowait f (y_drv (cd_sys c)) in
  (r, transmit (mkCard (mkSystem st (y_rx (cd_sys c)) (y_tx (cd_sys c))) (cd_wire c))).
Definition card_recv (c : card) : result (option bytes) * card :=
  let (r, st) := recv_nowait (y_drv (cd_sys c)) in
  (r, mkCard (mkSystem st (y_rx (cd_sys c)) (y_tx (cd_sys c))) (cd_wire c)).

#[local] Instance card_nic : Nic card := {|
  nic_mac c := mac (fst (y_drv (cd_sys c)));
  nic_has_send_nowait := true;
  nic_has_recv_nowait := true;
  nic_send_nowait := card_send;
  nic_recv_nowait := card_recv;
|}.

Context (fit : net_fit base rq tq rbuf tbuf).
Definition idle (n m : nat) : traffic := mkTraffic [] [] [] n m.
Definition card_idle (c : card) : Prop := exists n m, rel base rq tq rbuf tbuf (cd_sys c) (idle n m).

Lemma card_send_good f c : card_idle c -> bytes_ok f -> len f <= MAX_FRAME ->
  exists c', card_send f c = (Ok true, c') /\ card_idle c' /\ cd_wire c' = cd_wire c ++ [f].
Proof.
  intros (n & m & Hr) Hb Hl. unfold MAX_FRAME in Hl. destruct c as [[st prx ptx] wire]. cbn [cd_sys cd_wire] in *.
  destruct (send_rel base rq tq rbuf tbuf fit f _ _ Hb Hr) as (y1 & E1 & H1). cbn [system_step spec_step idle t_queued t_sending] in E1, H1.
  change (len (@nil bytes) + len (@nil bytes) =? QUEUE_SIZE) with false in *. assert ((BUF_SIZE <? NET_HDR_SIZE + len f) = false) as Ef by (unfold BUF_SIZE, NET_HDR_SIZE; lia).
  rewrite Ef in *. cbn [orb fst snd app t_arrived t_offered t_held] in *.
  unfold card_send. cbn [y_drv y_rx y_tx cd_sys cd_wire]. destruct (send_nowait f st) as [[b|e] st1]; [|done]. injection E1 as -> <-.
  unfold transmit. cbn [cd_sys cd_wire]. set (y2 := snd (system_step rq tq ETakeTx _)).
  assert (H2 : rel base rq tq rbuf tbuf y2 (mkTraffic [] [f] [] n m)) by exact (take_tx_rel base rq tq rbuf tbuf fit _ _ H1).
  destruct (sent_rel base rq tq rbuf tbuf fit 0 _ _ H2) as (y3 & E3 & H3). change (fst _) with (AWire (_net_header ++ f)) in E3.
  rewrite E3. eexists. split; [reflexivity|]. split; [by exists n, m|done].
Qed.
Lemma card_recv_good c : card_idle c -> card_recv c = (Ok None, c).
Proof.
  intros (n & m & rx & tx & Hd & Hm & Hpr & Hpt). destruct c as [[[drv h] prx ptx] wire]. cbn [cd_sys y_drv y_rx y_tx fst snd] in *.
  pose proof Hd as [D1 (k & Ek & Hk & Eb) D3 D4 D5 D6]. unfold card_recv. cbn [cd_sys y_drv y_rx y_tx].
  unfold recv_nowait. erewrite bind_step by reflexivity. cbn [fst]. rewrite Ek.
  erewrite bind_step by (apply net_hw_step, (has_used_ring rq (nf_rx _ _ _ _ _ fit) (nf_ram _ _ _ _ _ fit RxRing I) rx); [done|apply (mr_rx _ _ _ _ _ _ _ _ Hm)]).
  pose proof (mr_arrived _ _ _ _ _ _ _ _ (mr_data _ _ _ _ _ _ _ _ Hm)) as Ha. cbn [idle t_arrived] in Ha. inversion Ha as [E|]. done.
Qed.

(** The laws the stack asks of a card hold of the driver. *)
Definition card_laws : NicLaws card := {|
  nic_sent := cd_wire;
  nic_good := card_idle;
  nic_has := eq_refl;
  nic_send_good f c Hc Hb Hl := card_send_good f c Hc Hb Hl;
  nic_recv_good := card_recv_good;
|}.
End card.
Arguments mkCard {Dv}. Arguments cd_sys {Dv}. Arguments cd_wire {Dv}.

(** C21: from the call to the wire. On a connection that can transmit (its
    peer's address resolved, its numbers in range), over the VirtIO driver with
    no traffic under way and none arriving, and a device that takes each frame
    off the queue before the next is put there, [send_nowait] returns [True],
    and what the device reads off the transmit queue is, frame by frame, a
    frame that decodes (Ethernet, IPv4, TCP) to the next segment of the data:
    as many as there are 1200-byte chunks, in order, with consecutive sequence
    numbers, and the payloads concatenate to the data. *)
Theorem tcp_reaches_the_wire {Dv : Type} `{Machine Dv} (base : Z) (rq tq : Vq) (rbuf tbuf : Z -> Z) (fit : net_fit base rq tq rbuf tbuf)
    (cid : nat) (c : TCPConnection) (mac : bytes) (n : @card Dv) (w : world card) (data : bytes) (fuel : nat) (isn : nat -> Z)
    (Hc : can_send cid c mac w) (Hn : w_nic w = Some n) (Hidle : card_idle base rq tq rbuf tbuf n) (Hd : bytes_ok data) (Hne : data <> []) (Hf : (0 < fuel)%nat) :
  exists frames w' n',
    @Net.send_nowait card (card_nic rq tq) cid data fuel isn w = (Ok (Some true), w') /\ w_nic w' = Some n' /\ cd_wire n' = cd_wire n ++ frames /\ Forall2 (NetWire.frame_ok c mac (snd_seq c) data) (range (n_chunks data)) frames /\ concat (map (chunk data) (range (n_chunks data))) = data.
Proof.
  destruct (@send_nowait_frames card (card_nic rq tq) (card_laws base rq tq rbuf tbuf fit) cid c mac n w data fuel isn Hc Hn Hidle Hd Hne Hf)
    as (frames & w' & n' & c' & E & Hn' & _ & Hs & HF & Hcat & _).
  by exists frames, w', n'.
Qed.

Definition demo_card : card := mkCard demo_system [].
Definition card_world : world (@card unit) :=
  mkWorld (Some demo_card)
    [10; 0; 2; 15] [2; 0x50; 0x59; 0x4f; 0; 1] [10; 0; 2; 2] [255; 255; 255; 0] 0
    {[ [10; 0; 2; 2] := [2; 0; 0; 0; 0; 2] ]} ∅ [] {[ 0%nat := witness_conn ]}
    {[ ([10; 0; 2; 15], 49152, [10; 0; 2; 2], 80) := 0%nat ]} ∅ ∅ 49153 [].
Lemma tcp_reaches_the_wire_witness :
  exists w' n', @Net.send_nowait (@card unit) (@card_nic unit idle_card demo_rq demo_tq) 0 [104; 101; 108; 108; 111] 1 (fun _ => 0) card_world = (Ok (Some true), w') /\ w_nic w' = Some n' /\ length (cd_wire n') = 1%nat.
Proof.
  destruct (@tcp_reaches_the_wire unit idle_card 0x1000 demo_rq demo_tq demo_rbuf demo_tbuf net_demo_fit 0 witness_conn [2; 0; 0; 0; 0; 2] demo_card card_world
    [104; 101; 108; 108; 111] 1 (fun _ => 0)) as (frames & w' & n' & E & Hn & Hs & HF & _).
  - constructor; try reflexivity; unfold u16, u32; simpl; try lia;
      try (split; repeat (constructor; [unfold byte_ok; lia|]); constructor);
      repeat (constructor; [unfold byte_ok; lia|]); constructor.
  - reflexivity.
  - exists 64%nat, 0%nat. exact (@net_fresh_rel unit idle_card 0x1000 demo_rq demo_tq demo_rbuf demo_tbuf net_demo_fit demo_system demo_fresh).
  - repeat (constructor; [unfold byte_ok; lia|]). constructor.
  - discriminate.
  - lia.
  - exists w', n'. split; [exact E|]. split; [exact Hn|]. apply Forall2_length in HF. rewrite Hs. cbn [cd_wire demo_card app]. rewrite <- HF. reflexivity.
Defined.
