(* ===== verification/Sound.v ===== *)
(** * PCM playback (kernel/sound/mixer.py)

    The conversion of samples, the streams that produce periods of sound, and
    the mixer between them and a device.  The device is an interface with its
    contract, which a driver discharges. *)

From Stdlib Require Import ZArith Lia.
From stdpp Require Import base list numbers strings.
From S2P Require Import Prelude Bytes Pystr Dict.

Local Open Scope Z_scope.

(** ** Formats *)

Definition int16 : str := lit "int16".
Definition float32 : str := lit "float32".

(** Each 2-byte sample twice, for [len(samples) * 2] bytes. *)
Fixpoint duplicate (samples : bytes) : bytes :=
  match samples with
  | a :: b :: samples => a :: b :: a :: b :: duplicate samples
  | [_] => [0; 0]
  | [] => []
  end.

(** [int(max(-1.0, min(1.0, f)) * 32767)] of the float with the bits [u].  A
    float32 times 32767 is exact in double precision, and [int] drops the
    fraction; [min] and [max] take a NaN to 1.0. *)
Definition float_sample (u : Z) : Z :=
  let negative := Z.testbit u 31 in
  let e := Z.shiftr u 23 mod 256 in
  let frac := u mod 2 ^ 23 in
  let sign := if negative then -1 else 1 in
  if (e =? 255) && negb (frac =? 0) then 32767
  else if 127 <=? e then sign * 32767
  else
    let m := if e =? 0 then frac else 2 ^ 23 + frac in
    let e := if e =? 0 then 1 else e in
    sign * (m * 32767 / 2 ^ (150 - e)).

(** [struct.unpack(f"<{n}f", samples)], as bits. *)
Fixpoint floats (samples : bytes) : result (list Z) :=
  match samples with
  | [] => Ok []
  | a :: b :: c :: d :: samples => let? l := floats samples in Ok (le_val [a; b; c; d] :: l)
  | _ => Err StructError
  end.

Definition _to_int16_stereo (samples : bytes) (channels : Z) (fmt : str) : result bytes :=
  if beq fmt int16 && (channels =? 2) then Ok samples
  else if beq fmt int16 && (channels =? 1) then Ok (duplicate samples)
  else if beq fmt float32 then
    let? fs := floats samples in
    if channels =? 1 then Ok (concat (map (fun u => le_bytes 2 (float_sample u) ++ le_bytes 2 (float_sample u)) fs))
    else Ok (concat (map (fun u => le_bytes 2 (float_sample u)) fs))
  else Err ValueError.

(** ** The device *)

(** [write_pcm] and, for devices that have it, [audio_metrics]. *)
Class Backend (B : Type) : Type := {
  write_pcm : bytes -> M B Z;
  audio_metrics : bool -> B -> list (str * Z) * B;
}.

(** The contract: a piece of at most [max_period] bytes is taken whole or not
    at all. *)
Class TakesPeriods (B : Type) `{Backend B} : Type := {
  bk_ok : B -> Prop;
  max_period : Z;
  write_period : forall pcm b, bk_ok b -> bytes_ok pcm -> 0 < len pcm <= max_period ->
    exists n b', write_pcm pcm b = (Ok n, b') /\ bk_ok b' /\ (n = len pcm \/ n = 0);
}.

(** ** State *)

Record PCMStream : Type := mkStream {
  st_channels : Z; st_rate : option Z; st_fmt : str; st_period_us : Z; st_prebuffer : Z; st_threaded : bool; st_frequency : Z;
  st_running : bool; st_pending : option bytes; st_last_error : option exn; st_stopped_at : Z; st_started : Z;
  st_produced_periods : Z; st_accepted_periods : Z; st_backpressure : Z; st_produced_bytes : Z; st_accepted_bytes : Z;
}.
Definition set_run (run : bool) (pending : option bytes) (err : option exn) (stopped started : Z) (s : PCMStream) : PCMStream :=
  mkStream (st_channels s) (st_rate s) (st_fmt s) (st_period_us s) (st_prebuffer s) (st_threaded s) (st_frequency s)
    run pending err stopped started
    (st_produced_periods s) (st_accepted_periods s) (st_backpressure s) (st_produced_bytes s) (st_accepted_bytes s).
Definition set_counts (pp ap bp pb ab : Z) (s : PCMStream) : PCMStream :=
  mkStream (st_channels s) (st_rate s) (st_fmt s) (st_period_us s) (st_prebuffer s) (st_threaded s) (st_frequency s)
    (st_running s) (st_pending s) (st_last_error s) (st_stopped_at s) (st_started s) pp ap bp pb ab.
Definition set_pending (p : option bytes) (s : PCMStream) : PCMStream :=
  set_run (st_running s) p (st_last_error s) (st_stopped_at s) (st_started s) s.

(** The producers are code of the applications: [produce i] is the producer of
    stream [i], on a state of their own. *)
Section mixer.
Context {B P : Type} `{Backend B} (produce : nat -> P -> result bytes * P).

Record Mixer : Type := mkMixer {
  mx_backend : option B; mx_bytes_consumed : Z; mx_stream : option nat; mx_source_drops : list (str * Z);
  mx_streams : list PCMStream; mx_prod : P;
}.
Definition Mixer_init (p : P) : Mixer := mkMixer None 0 None [] [] p.
Abbreviation io := (M Mixer).

Definition set_backend (b : option B) (w : Mixer) : Mixer := mkMixer b (mx_bytes_consumed w) (mx_stream w) (mx_source_drops w) (mx_streams w) (mx_prod w).
Definition set_consumed (n : Z) (w : Mixer) : Mixer := mkMixer (mx_backend w) n (mx_stream w) (mx_source_drops w) (mx_streams w) (mx_prod w).
Definition set_stream (s : option nat) (w : Mixer) : Mixer := mkMixer (mx_backend w) (mx_bytes_consumed w) s (mx_source_drops w) (mx_streams w) (mx_prod w).
Definition set_drops (d : list (str * Z)) (w : Mixer) : Mixer := mkMixer (mx_backend w) (mx_bytes_consumed w) (mx_stream w) d (mx_streams w) (mx_prod w).
Definition set_streams (l : list PCMStream) (w : Mixer) : Mixer := mkMixer (mx_backend w) (mx_bytes_consumed w) (mx_stream w) (mx_source_drops w) l (mx_prod w).
Definition set_prod (p : P) (w : Mixer) : Mixer := mkMixer (mx_backend w) (mx_bytes_consumed w) (mx_stream w) (mx_source_drops w) (mx_streams w) p.

Definition stream (i : nat) : io PCMStream := fun w =>
  match mx_streams w !! i with Some s => (Ok s, w) | None => (Err IndexError, w) end.
Definition upd_stream (i : nat) (f : PCMStream -> PCMStream) : io unit := modify (fun w => set_streams (alter f i (mx_streams w)) w).
Definition attach (b : B) : io unit := modify (set_backend (Some b)).

(** ** The mixer's playback *)

Definition is_running (i : option nat) (w : Mixer) : bool :=
  match i with Some i => match mx_streams w !! i with Some s => st_running s | None => false end | None => false end.
Definition write_backend (pcm : bytes) : io Z := fun w =>
  match mx_backend w with
  | Some b => let (r, b') := write_pcm pcm b in (r, set_backend (Some b') w)
  | None => (Ok 0, w)
  end.
(** [rate] is only compared to be reported. *)
Definition play_pcm (samples : bytes) (channels : Z) (rate : option Z) (fmt source : str) : io Z :=
  let! b := gets mx_backend in
  match b with
  | None => ret 0
  | Some _ =>
      let! w := get in
      if beq source (lit "chipset") && is_running (mx_stream w) w then
        modify (fun w => set_drops (dset source (default 0 (dget source (mx_source_drops w)) + 1) (mx_source_drops w)) w) ;;; ret 0
      else
        let! normalized := lift (_to_int16_stereo samples channels fmt) in
        let! n := write_backend normalized in
        modify (fun w => set_consumed (mx_bytes_consumed w + n) w) ;;;
        ret n
  end.
Definition queue (samples : bytes) (channels : Z) (rate : option Z) (fmt : str) : io Z := play_pcm samples channels rate fmt (lit "oneshot").

(** ** Streams *)

(** The next period from the producer; an exception stops the stream. *)
Definition fetch (i : nat) : io bool :=
  let! r := (fun w => let (r, p) := produce i (mx_prod w) in (Ok r, set_prod p w)) in
  match r with
  | Ok data =>
      upd_stream i (fun s => set_pending (Some data)
        (set_counts (st_produced_periods s + 1) (st_accepted_periods s) (st_backpressure s) (st_produced_bytes s + len data) (st_accepted_bytes s) s)) ;;;
      ret true
  | Err e => upd_stream i (fun s => set_run false (st_pending s) (Some e) (st_stopped_at s) (st_started s) s) ;;; ret false
  end.
(** The pending period to the mixer. *)
Definition offer (i : nat) : io bool :=
  let! s := stream i in
  let! accepted := play_pcm (default [] (st_pending s)) (st_channels s) (st_rate s) (st_fmt s) (lit "stream") in
  if negb (accepted =? 0) then
    upd_stream i (fun s => set_pending None
      (set_counts (st_produced_periods s) (st_accepted_periods s + 1) (st_backpressure s) (st_produced_bytes s) (st_accepted_bytes s + accepted) s)) ;;;
    ret true
  else
    upd_stream i (fun s => set_counts (st_produced_periods s) (st_accepted_periods s) (st_backpressure s + 1) (st_produced_bytes s) (st_accepted_bytes s) s) ;;;
    ret false.
Definition _submit (i : nat) : io bool :=
  let! s := stream i in
  let! ready := match st_pending s with None => fetch i | Some _ => ret true end in
  if negb ready then ret false else offer i.
Definition pump (i : nat) : io bool :=
  let! s := stream i in if st_running s then _submit i else ret false.

(** The worker, one step at a time: filling up, at the head of its loop, in
    [_wait]; other threads run between the steps. *)
Inductive worker : Type := Filling (n : nat) | AtLoop | Waiting | Ended.
Definition _run (i : nat) (k : worker) : io worker :=
  match k with
  | Filling O => ret AtLoop
  | Filling (S n) =>
      let! s := stream i in
      if negb (st_running s) then ret AtLoop
      else let! ok := _submit i in ret (if ok then Filling n else AtLoop)
  | AtLoop => let! s := stream i in ret (if st_running s then Waiting else Ended)
  | Waiting => let! _ := _submit i in ret AtLoop
  | Ended => ret Ended
  end.
(** How long it waits. *)
Definition wait_us (s : PCMStream) : Z := match st_pending s with None => st_period_us s | Some _ => 2000 end.

(** [now] is the reading of the clock. *)
Definition stop_stream (i : nat) (now : Z) : io unit :=
  upd_stream i (fun s => set_run false (st_pending s) (st_last_error s) (if st_running s then now else st_stopped_at s) (st_started s) s).

Record snapshot : Type := mkSnapshot {
  sn_running : bool; sn_elapsed_us : Z; sn_expected : Z; sn_produced_periods : Z; sn_accepted_periods : Z; sn_backpressure : Z;
  sn_pending : bool; sn_produced_bytes : Z; sn_accepted_bytes : Z; sn_shortfall : Z;
}.
Definition stream_snapshot (i : nat) (reset : bool) (now frequency : Z) : io snapshot :=
  let! s := stream i in
  let now := if st_stopped_at s =? 0 then now else st_stopped_at s in
  let frequency := if frequency =? 0 then st_frequency s else frequency in
  let elapsed := if frequency =? 0 then 0 else (now - st_started s) * 1000000 / frequency in
  let expected := if st_period_us s =? 0 then 0 else elapsed / st_period_us s in
  (if reset then upd_stream i (fun s => set_run (st_running s) (st_pending s) (st_last_error s) (st_stopped_at s) now (set_counts 0 0 0 0 0 s)) else ret tt) ;;;
  ret (mkSnapshot (st_running s) elapsed expected (st_produced_periods s) (st_accepted_periods s) (st_backpressure s)
    (match st_pending s with Some _ => true | None => false end) (st_produced_bytes s) (st_accepted_bytes s)
    (Z.max 0 (expected - st_accepted_periods s + st_prebuffer s))).

(** ** Starting and stopping *)

Definition PCMStream_init (channels : Z) (rate : option Z) (fmt : str) (period_us prebuffer : Z) (threaded : bool) (now frequency : Z) : PCMStream :=
  mkStream channels rate fmt period_us prebuffer threaded frequency true None None 0 now 0 0 0 0 0.
(** The stream's index, and its worker when it has one. *)
Definition start_stream (channels : Z) (rate : option Z) (fmt : str) (period_ms prebuffer : Z) (threaded : bool) (now frequency : Z) : io (nat * option worker) :=
  let! old := gets mx_stream in
  match old with Some i => stop_stream i now | None => ret tt end ;;;
  let! n := gets (fun w => length (mx_streams w)) in
  let s := PCMStream_init channels rate fmt (Z.max 1 period_ms * 1000) (Z.max 1 prebuffer) threaded now frequency in
  modify (fun w => set_stream (Some n) (set_streams (mx_streams w ++ [s]) w)) ;;;
  ret (n, if threaded then Some (Filling (Z.to_nat (Z.max 1 prebuffer))) else None).
Definition stop (now : Z) : io unit :=
  let! old := gets mx_stream in
  match old with Some i => stop_stream i now ;;; modify (set_stream None) | None => ret tt end.
(** [Mixer.performance_snapshot]: bytes consumed, drops, stream and device. *)
Definition performance_snapshot (reset : bool) (now frequency : Z) : io (Z * list (str * Z) * option snapshot * list (str * Z)) :=
  let! device := (fun w => match mx_backend w with
                  | Some b => let (d, b') := audio_metrics reset b in (Ok d, set_backend (Some b') w)
                  | None => (Ok [], w) end) in
  let! w := get in
  let! st := match mx_stream w with Some i => let! sn := stream_snapshot i reset now frequency in ret (Some sn) | None => ret None end in
  ret (mx_bytes_consumed w, mx_source_drops w, st, device).
End mixer.
