(* ===== verification/Snd.v ===== *)
(** * The VirtIO sound driver (kernel/drivers/sound/virtio_snd.py)

    [VirtioMmioSound]: the probe, the control queue and the configuration of
    the stream, and the pool of periods behind [write_pcm], which the device
    may return in any order. *)

From Stdlib Require Import ZArith Lia.
From stdpp Require Import base list gmap numbers strings.
From S2P Require Import Prelude Bytes Pystr Dict Hw Virtio.

Local Open Scope Z_scope.

Definition VIRTIO_DEV_SOUND : Z := 25.
Definition TX_PERIOD_BYTES : Z := 48000.
Definition TX_PERIODS : Z := QUEUE_SIZE / 3.
Definition R_PCM_SET_PARAMS : Z := 0x0101.
Definition R_PCM_PREPARE : Z := 0x0102.
Definition R_PCM_START : Z := 0x0104.
Definition VIRTIO_SND_S_OK : Z := 0x8000.
Definition VIRTIO_SND_PCM_FMT_S16 : Z := 5.
Definition VIRTIO_SND_PCM_RATE_48000 : Z := 7.
Definition CONTROLQ : Z := 0.
Definition TXQ : Z := 2.
Definition CHANNELS : Z := 2.

(** [_VirtQueue] *)
Record VirtQueue : Type := mkVirtQueue { v_desc : Z; v_avail : Z; v_used : Z; v_next_desc : Z; v_avail_idx : Z; v_last_used : Z }.
Definition set_next (n : Z) (q : VirtQueue) : VirtQueue := mkVirtQueue (v_desc q) (v_avail q) (v_used q) n (v_avail_idx q) (v_last_used q).
Definition set_avail (n : Z) (q : VirtQueue) : VirtQueue := mkVirtQueue (v_desc q) (v_avail q) (v_used q) (v_next_desc q) n (v_last_used q).
Definition set_last (n : Z) (q : VirtQueue) : VirtQueue := mkVirtQueue (v_desc q) (v_avail q) (v_used q) (v_next_desc q) (v_avail_idx q) n.

(** What the probe sets up, the two queues, and the pool. *)
Record Setup : Type := mkSetup {
  u_base : Z; u_version : Z; u_ctrl_req : Z; u_ctrl_resp : Z; u_headers : list Z; u_statuses : list Z; u_buffers : list Z;
}.
Record Pool : Type := mkPool {
  p_free : list Z; p_inflight : list (Z * Z); p_bytes : Z; p_submitted : Z; p_reclaimed : Z; p_backpressure : Z; p_high_water : Z;
}.
Record VirtioMmioSound : Type := mkSnd { s_setup : Setup; s_cq : option VirtQueue; s_txq : option VirtQueue; s_pool : Pool }.
Definition VirtioMmioSound_init (base : Z) : VirtioMmioSound :=
  mkSnd (mkSetup base 0 0 0 [] [] []) None None (mkPool [] [] 0 0 0 0 0).

Definition set_setup (u : Setup) (s : VirtioMmioSound) : VirtioMmioSound := mkSnd u (s_cq s) (s_txq s) (s_pool s).
Definition set_cq (q : VirtQueue) (s : VirtioMmioSound) : VirtioMmioSound := mkSnd (s_setup s) (Some q) (s_txq s) (s_pool s).
Definition set_txq (q : VirtQueue) (s : VirtioMmioSound) : VirtioMmioSound := mkSnd (s_setup s) (s_cq s) (Some q) (s_pool s).
Definition set_pool (p : Pool) (s : VirtioMmioSound) : VirtioMmioSound := mkSnd (s_setup s) (s_cq s) (s_txq s) p.

Section driver.
Context {Dv : Type} `{Machine Dv}.
Definition snd_st : Type := VirtioMmioSound * Hw Dv.
Abbreviation io := (M snd_st).
Definition on_hw {A} (m : M (Hw Dv) A) : io A := zoom snd (fun h s => (fst s, h)) m.
Definition self {A} (f : VirtioMmioSound -> A) : io A := gets (fun s => f (fst s)).
Definition self_set (f : VirtioMmioSound -> VirtioMmioSound) : io unit := modify (fun s => (f (fst s), snd s)).
Definition upd_pool (f : Pool -> Pool) : io unit := self_set (fun s => set_pool (f (s_pool s)) s).

Definition _r32 (off : Z) : io Z := let! u := self s_setup in on_hw (mmio_read32 (u_base u + off)).
Definition _w32 (off v : Z) : io unit := let! u := self s_setup in on_hw (mmio_write32 (u_base u + off) v).

Definition _alloc_aligned (size : Z) : io Z :=
  let! raw := on_hw (dma_alloc (size + PAGE_SIZE)) in ret (Z.land (raw + PAGE_SIZE - 1) (Z.lnot (PAGE_SIZE - 1))).
Definition VirtQueue_init : io VirtQueue :=
  let desc_sz := QUEUE_SIZE * 16 in
  let avail_sz := 4 + QUEUE_SIZE * 2 + 2 in
  let avail_off := desc_sz in
  let used_off := Z.land (avail_off + avail_sz + PAGE_SIZE - 1) (Z.lnot (PAGE_SIZE - 1)) in
  let used_sz := 4 + QUEUE_SIZE * 8 + 2 in
  let total := used_off + used_sz in
  let! desc := _alloc_aligned (total + PAGE_SIZE) in
  ret (mkVirtQueue desc (desc + avail_off) (desc + used_off) 0 0 0).
Definition write_desc (q : VirtQueue) (idx addr length flags nxt : Z) : io unit := on_hw (desc_write (v_desc q + idx * 16) addr length flags nxt).
(** [avail_push]: the memory, and the queue's new index. *)
Definition avail_push (q : VirtQueue) (head : Z) : io VirtQueue :=
  let slot := v_avail_idx q mod QUEUE_SIZE in
  on_hw (write16 (v_avail q + 4 + slot * 2) head) ;;;
  let q := set_avail (Z.land (v_avail_idx q + 1) 0xFFFF) q in
  on_hw (write16 (v_avail q + 2) (v_avail_idx q)) ;;;
  ret q.
Definition used_idx (q : VirtQueue) : io Z := let! w := on_hw (mmio_read32 (v_used q + 0)) in ret (Z.shiftr w 16).

Definition _put_le32 (buf off v : Z) : io unit :=
  on_hw (mmio_write8 (buf + off) (Z.land v 0xFF)) ;;;
  on_hw (mmio_write8 (buf + off + 1) (Z.land (Z.shiftr v 8) 0xFF)) ;;;
  on_hw (mmio_write8 (buf + off + 2) (Z.land (Z.shiftr v 16) 0xFF)) ;;;
  on_hw (mmio_write8 (buf + off + 3) (Z.land (Z.shiftr v 24) 0xFF)).
Definition _get_le32 (buf off : Z) : io Z :=
  let! a := on_hw (mmio_read8 (buf + off)) in
  let! b := on_hw (mmio_read8 (buf + off + 1)) in
  let! c := on_hw (mmio_read8 (buf + off + 2)) in
  let! d := on_hw (mmio_read8 (buf + off + 3)) in
  ret (Z.lor (Z.lor (Z.lor a (Z.shiftl b 8)) (Z.shiftl c 16)) (Z.shiftl d 24)).

(** ** Control *)

(** [for _ in range(p)] with an early return. *)
Fixpoint at_most {A} (p : positive) (m : io (option A)) : io (option A) :=
  match p with
  | xH => m
  | xO p => let! r := at_most p m in match r with Some _ => ret r | None => at_most p m end
  | xI p => let! r := m in match r with Some _ => ret r | None =>
      let! r := at_most p m in match r with Some _ => ret r | None => at_most p m end end
  end.
Definition need {A} (o : option A) : io A := match o with Some x => ret x | None => raise AttributeError end.
Definition _ctrl_xfer (req_len resp_len : Z) : io Z :=
  let! o := self s_cq in
  let! cq := need o in
  let d0 := v_next_desc cq in
  let d1 := (d0 + 1) mod QUEUE_SIZE in
  let cq := set_next ((d1 + 1) mod QUEUE_SIZE) cq in
  self_set (set_cq cq) ;;;
  let! u := self s_setup in
  write_desc cq d0 (u_ctrl_req u) req_len VRING_DESC_F_NEXT d1 ;;;
  write_desc cq d1 (u_ctrl_resp u) resp_len VRING_DESC_F_WRITE 0 ;;;
  let! cq := avail_push cq d0 in
  self_set (set_cq cq) ;;;
  _w32 0x050 CONTROLQ ;;;
  let target := Z.land (v_last_used cq + 1) 0xFFFF in
  let! r := at_most 1000000 (let! used := used_idx cq in
    if used =? target then
      self_set (set_cq (set_last target cq)) ;;;
      let! v := _get_le32 (u_ctrl_resp u) 0 in ret (Some v)
    else ret None) in
  ret (match r with Some v => v | None => -1 end).

Definition command (code : Z) : io Z :=
  let! u := self s_setup in
  _put_le32 (u_ctrl_req u) 0 code ;;; _put_le32 (u_ctrl_req u) 4 0 ;;; _ctrl_xfer 8 4.
Definition _configure_stream : io bool :=
  let! u := self s_setup in
  let req := u_ctrl_req u in
  for_each (range 28) (fun off => on_hw (mmio_write8 (req + off) 0)) ;;;
  _put_le32 req 0 R_PCM_SET_PARAMS ;;;
  _put_le32 req 4 0 ;;;
  _put_le32 req 8 (TX_PERIOD_BYTES * TX_PERIODS) ;;;
  _put_le32 req 12 TX_PERIOD_BYTES ;;;
  _put_le32 req 16 0 ;;;
  on_hw (mmio_write8 (req + 20) CHANNELS) ;;;
  on_hw (mmio_write8 (req + 21) VIRTIO_SND_PCM_FMT_S16) ;;;
  on_hw (mmio_write8 (req + 22) VIRTIO_SND_PCM_RATE_48000) ;;;
  on_hw (mmio_write8 (req + 23) 0) ;;;
  let! st := _ctrl_xfer 28 4 in
  if negb (st =? VIRTIO_SND_S_OK) then ret false else
  let! st := command R_PCM_PREPARE in
  if negb (st =? VIRTIO_SND_S_OK) then ret false else
  let! st := command R_PCM_START in
  ret (st =? VIRTIO_SND_S_OK).

(** ** Probe *)

Definition _setup_queue (q_idx : Z) : io VirtQueue :=
  _w32 0x030 q_idx ;;;
  _w32 0x038 QUEUE_SIZE ;;;
  let! q := VirtQueue_init in
  let! u := self s_setup in
  (if u_version u =? 1 then _w32 0x03C PAGE_SIZE ;;; _w32 0x040 (Z.shiftr (v_desc q) 12)
   else
     _w32 0x080 (Z.land (v_desc q) 0xFFFFFFFF) ;;;
     _w32 0x084 (Z.land (Z.shiftr (v_desc q) 32) 0xFFFFFFFF) ;;;
     _w32 0x090 (Z.land (v_avail q) 0xFFFFFFFF) ;;;
     _w32 0x094 (Z.land (Z.shiftr (v_avail q) 32) 0xFFFFFFFF) ;;;
     _w32 0x0A0 (Z.land (v_used q) 0xFFFFFFFF) ;;;
     _w32 0x0A4 (Z.land (Z.shiftr (v_used q) 32) 0xFFFFFFFF) ;;;
     _w32 0x044 1) ;;;
  ret q.
Definition probe : io bool :=
  let! magic := _r32 0x000 in
  if negb (magic =? VIRTIO_MAGIC) then ret false else
  let! version := _r32 0x004 in
  if negb ((version =? 1) || (version =? 2)) then ret false else
  let! dev := _r32 0x008 in
  if negb (dev =? VIRTIO_DEV_SOUND) then ret false else
  self_set (fun s => set_setup (mkSetup (u_base (s_setup s)) version 0 0 [] [] []) s) ;;;
  _w32 0x070 0 ;;;
  _w32 0x070 STATUS_ACK ;;;
  _w32 0x070 (Z.lor STATUS_ACK STATUS_DRIVER) ;;;
  (if version =? 1 then _w32 0x028 PAGE_SIZE ;;; _w32 0x020 0
   else _w32 0x024 0 ;;; _w32 0x020 0 ;;; _w32 0x024 1 ;;; _w32 0x020 0) ;;;
  _w32 0x070 (Z.lor (Z.lor STATUS_ACK STATUS_DRIVER) STATUS_FEATURES) ;;;
  let! cq := _setup_queue CONTROLQ in
  self_set (set_cq cq) ;;;
  let! txq := _setup_queue TXQ in
  self_set (set_txq txq) ;;;
  let! req := on_hw (dma_alloc 64) in
  let! resp := on_hw (dma_alloc 64) in
  let! headers := map_m (range TX_PERIODS) (fun _ => on_hw (dma_alloc 4)) in
  let! statuses := map_m (range TX_PERIODS) (fun _ => on_hw (dma_alloc 8)) in
  let! buffers := map_m (range TX_PERIODS) (fun _ => on_hw (dma_alloc TX_PERIOD_BYTES)) in
  self_set (fun s => set_setup (mkSetup (u_base (s_setup s)) version req resp headers statuses buffers) s) ;;;
  upd_pool (fun p => mkPool (range TX_PERIODS) (p_inflight p) (p_bytes p) (p_submitted p) (p_reclaimed p) (p_backpressure p) (p_high_water p)) ;;;
  _w32 0x070 (Z.lor (Z.lor (Z.lor STATUS_ACK STATUS_DRIVER) STATUS_FEATURES) STATUS_DRIVER_OK) ;;;
  _configure_stream.

(** ** Periods *)

(** One returned head: its slot is free again. *)
Definition give_back (head : Z) (p : Pool) : Pool :=
  match dget head (p_inflight p) with
  | Some slot => mkPool (p_free p ++ [slot]) (dpop head (p_inflight p)) (p_bytes p) (p_submitted p) (p_reclaimed p + 1) (p_backpressure p) (p_high_water p)
  | None => p
  end.
(** [while txq.last_used != used]: both have 16 bits, which bounds the turns. *)
Fixpoint reclaim (n : nat) (txq : VirtQueue) (used : Z) : io VirtQueue :=
  match n with
  | O => ret txq
  | S n =>
      if v_last_used txq =? used then ret txq
      else
        let elem := v_used txq + 4 + v_last_used txq mod QUEUE_SIZE * 8 in
        let! head := on_hw (mmio_read32 elem) in
        upd_pool (give_back head) ;;;
        let txq := set_last (Z.land (v_last_used txq + 1) 0xFFFF) txq in
        self_set (set_txq txq) ;;;
        reclaim n txq used
  end.

Definition write_bytes (a : Z) (l : bytes) : io unit :=
  for_each (combine (range (len l)) l) (fun p => on_hw (mmio_write8 (a + p.1) p.2)).
(** Taking the slot, its buffers and its descriptor chain, and the doorbell. *)
Definition submit (txq : VirtQueue) (slot : Z) (data : bytes) (n : Z) : io Z :=
  upd_pool (fun p => mkPool (removelast (p_free p)) (p_inflight p) (p_bytes p) (p_submitted p) (p_reclaimed p) (p_backpressure p) (p_high_water p)) ;;;
  let! u := self s_setup in
  let! tx_buf := lift (index (u_buffers u) slot) in
  write_bytes tx_buf data ;;;
  let! tx_hdr := lift (index (u_headers u) slot) in
  let! tx_status := lift (index (u_statuses u) slot) in
  _put_le32 tx_hdr 0 0 ;;;
  let d0 := slot * 3 in
  write_desc txq d0 tx_hdr 4 VRING_DESC_F_NEXT (d0 + 1) ;;;
  write_desc txq (d0 + 1) tx_buf n VRING_DESC_F_NEXT (d0 + 2) ;;;
  write_desc txq (d0 + 2) tx_status 8 VRING_DESC_F_WRITE 0 ;;;
  upd_pool (fun p =>
    let inflight := dset d0 slot (p_inflight p) in
    mkPool (p_free p) inflight (p_bytes p) (p_submitted p + 1) (p_reclaimed p) (p_backpressure p) (Z.max (p_high_water p) (len inflight))) ;;;
  let! txq := avail_push txq d0 in
  self_set (set_txq txq) ;;;
  _w32 0x050 TXQ ;;;
  upd_pool (fun p => mkPool (p_free p) (p_inflight p) (p_bytes p + n) (p_submitted p) (p_reclaimed p) (p_backpressure p) (p_high_water p)) ;;;
  ret n.
Definition write_pcm (pcm : bytes) : io Z :=
  let! o := self s_txq in
  match o with
  | None => ret 0
  | Some txq =>
      let! used := used_idx txq in
      let! txq := reclaim (Z.to_nat ((used - v_last_used txq) mod 65536)) txq used in
      let n := Z.min (len pcm) TX_PERIOD_BYTES in
      if n =? 0 then ret 0
      else
        let! p := self s_pool in
        match p_free p with
        | [] =>
            upd_pool (fun p => mkPool (p_free p) (p_inflight p) (p_bytes p) (p_submitted p) (p_reclaimed p) (p_backpressure p + 1) (p_high_water p)) ;;;
            ret 0
        | _ => submit txq (List.last (p_free p) 0) (slice pcm 0 n) n
        end
  end.

(** The dict of [audio_metrics]. *)
Definition audio_metrics (reset : bool) : io (list (str * Z)) :=
  let! p := self s_pool in
  (if reset then upd_pool (fun p => mkPool (p_free p) (p_inflight p) (p_bytes p) 0 0 0 (len (p_inflight p))) else ret tt) ;;;
  ret [(lit "period_bytes", TX_PERIOD_BYTES); (lit "periods", TX_PERIODS); (lit "submitted", p_submitted p); (lit "reclaimed", p_reclaimed p);
       (lit "backpressure", p_backpressure p); (lit "inflight", len (p_inflight p)); (lit "free", len (p_free p)); (lit "high_water", p_high_water p);
       (lit "bytes", p_bytes p)].
End driver.

(** ** Discovery *)

Section find.
Context {Dv : Type} `{Machine Dv}.
Fixpoint scan (slots : list Z) : M (Hw Dv) (option VirtioMmioSound) :=
  match slots with
  | [] => ret None
  | i :: slots =>
      let base := VIRTIO_MMIO_BASE + i * VIRTIO_MMIO_STRIDE in
      let! magic := mmio_read32 (base + 0x000) in
      if negb (magic =? VIRTIO_MAGIC) then scan slots
      else
        let! dev := mmio_read32 (base + 0x008) in
        if negb (dev =? VIRTIO_DEV_SOUND) then scan slots
        else fun h =>
          match probe (VirtioMmioSound_init base, h) with
          | (Ok true, (s, h)) => (Ok (Some s), h)
          | (Ok false, (_, h)) => scan slots h
          | (Err e, (_, h)) => (Err e, h)
          end
  end.
Definition find_virtio_snd : M (Hw Dv) (option VirtioMmioSound) := scan (range VIRTIO_MMIO_DEVS).
End find.
