(* ===== verification/SndProps.v ===== *)
(** * The sound driver is a queue of five periods

    A device that takes periods off the available ring and finishes them in
    any order, over the memory the driver wrote; and what driver and device
    agree on between their steps. *)

From Stdlib Require Import ZArith Lia.
From stdpp Require Import base list gmap numbers strings.
From S2P Require Import Prelude Bytes Pystr Dict Hw Virtio VirtioSpec VirtioMem Snd.

Local Open Scope Z_scope.

(** ** The device's side *)

(** What it has taken off the available ring, and its index in the used ring. *)
Record Device : Type := mkDevice { dv_taken : Z; dv_pending : list Z; dv_used : Z }.

Section device.
Context (q : Vq).
(** Taking the next request, when there is one. *)
Definition take_request (m : mem) (d : Device) : Device :=
  if avail_index m q =? dv_taken d then d
  else mkDevice ((dv_taken d + 1) mod 65536) (dv_pending d ++ [avail_head m q (dv_taken d)]) (dv_used d).
(** The period of a chain: the data of its second descriptor. *)
Definition period_at (m : mem) (head : Z) : bytes :=
  let d1 := desc_at m q (d_next (desc_at m q head)) in mread m (d_addr d1) (Z.to_nat (d_len d1)).
Definition status_at (m : mem) (head : Z) : Z := d_addr (desc_at m q (d_next (desc_at m q (d_next (desc_at m q head))))).
(** Finishing the [k]-th request it has: the status, the entry of the used
    ring and its index. *)
Definition finish_mem (head : Z) (d : Device) (m : mem) : mem :=
  let m := mwrite m (status_at m head) (le_bytes 4 VIRTIO_SND_S_OK ++ le_bytes 4 0) in
  let m := mwrite m (q_used q + 4 + dv_used d mod q_num q * 8) (le_bytes 4 head ++ le_bytes 4 8) in
  mwrite m (q_used q + 2) (le_bytes 2 (dv_used d + 1)).
Definition finish_dev (k : nat) (d : Device) : Device :=
  mkDevice (dv_taken d) (delete k (dv_pending d)) ((dv_used d + 1) mod 65536).
End device.

(** ** The reference: a queue of at most five periods *)

Inductive event : Type := EWrite (pcm : bytes) | ETake | EFinish (k : nat).
Inductive answer : Type := AWritten (n : Z) | APlayed (data : bytes) | ANothing.

(** Periods waiting for the device, and periods it has. *)
Definition periods : Type := list bytes * list bytes.
Definition spec_step (e : event) (s : periods) : answer * periods :=
  let '(waiting, playing) := s in
  match e with
  | EWrite pcm =>
      let n := Z.min (len pcm) TX_PERIOD_BYTES in
      if (n =? 0) || (len waiting + len playing =? TX_PERIODS) then (AWritten 0, s)
      else (AWritten n, (waiting ++ [slice pcm 0 n], playing))
  | ETake => match waiting with w :: waiting => (ANothing, (waiting, playing ++ [w])) | [] => (ANothing, s) end
  | EFinish k => match playing !! k with Some data => (APlayed data, (waiting, delete k playing)) | None => (ANothing, s) end
  end.

Section system.
Context {Dv : Type} `{Machine Dv} (q : Vq).
Abbreviation driver := (VirtioMmioSound * Hw Dv)%type.
Definition system : Type := driver * Device.
Definition with_mem (f : mem -> mem) (s : driver) : driver := (fst s, setm (snd s) (f (h_mem (snd s)))).
Definition system_step (e : event) (s : system) : result answer * system :=
  let '(st, d) := s in
  match e with
  | EWrite pcm => match write_pcm pcm st with (Ok n, st) => (Ok (AWritten n), (st, d)) | (Err e, st) => (Err e, (st, d)) end
  | ETake => (Ok ANothing, (st, take_request q (h_mem (snd st)) d))
  | EFinish k =>
      match dv_pending d !! k with
      | None => (Ok ANothing, s)
      | Some head => (Ok (APlayed (period_at q (h_mem (snd st)) head)), (with_mem (finish_mem q head d) st, finish_dev k d))
      end
  end.
End system.

Fixpoint spec_steps (es : list event) (s : periods) : list answer * periods :=
  match es with
  | [] => ([], s)
  | e :: es => let (a, s) := spec_step e s in let (l, s) := spec_steps es s in (a :: l, s)
  end.
Fixpoint system_steps {Dv} `{Machine Dv} (q : Vq) (es : list event) (s : @system Dv) : result (list answer) * system :=
  match es with
  | [] => (Ok [], s)
  | e :: es =>
      match system_step q e s with
      | (Ok a, s) => match system_steps q es s with (Ok l, s) => (Ok (a :: l), s) | (Err e, s) => (Err e, s) end
      | (Err e, s) => (Err e, s)
      end
  end.

(** ** Accesses *)

Section access.
Context {Dv : Type} `{Machine Dv}.
Implicit Types (h : Hw Dv) (s : VirtioMmioSound).

Lemma on_hw_step {A} (m : M (Hw Dv) A) s h r h' : m h = (r, h') -> on_hw m (s, h) = (r, (s, h')).
Proof. intros E. unfold on_hw, zoom. cbn [snd fst]. by rewrite E. Qed.
Lemma le_bytes_32 v : le_bytes 1 (Z.land v 0xFF) ++ le_bytes 1 (Z.land (Z.shiftr v 8) 0xFF) ++
  le_bytes 1 (Z.land (Z.shiftr v 16) 0xFF) ++ le_bytes 1 (Z.land (Z.shiftr v 24) 0xFF) = le_bytes 4 v.
Proof.
  rewrite !le_bytes_land1. change 4%nat with (1 + (1 + (1 + 1)))%nat. rewrite !le_bytes_app.
  rewrite !Z.shiftr_div_pow2 by lia. rewrite !Z.div_div by lia. done.
Qed.
Lemma put_le32_ram a v s h : ram a 4 -> _put_le32 a 0 v (s, h) = (Ok tt, (s, setm h (mwrite (h_mem h) a (le_bytes 4 v)))).
Proof.
  intros Hr. unfold _put_le32, mmio_write8.
  do 3 erewrite bind_step by (apply on_hw_step, mmio_write_ram, Hr; lia). erewrite on_hw_step by (apply mmio_write_ram, Hr; lia).
  rewrite !setm_setm. cbn [setm h_mem]. rewrite Z.add_0_r. do 3 rewrite mwrite_next by (autorewrite with len; lia).
  by rewrite le_bytes_32.
Qed.
Lemma write_bytes_from a l k s h : bytes_ok l -> ram (a + k) (len l) -> 0 <= k ->
  for_each (combine (range2 k (k + len l)) l) (fun p => on_hw (mmio_write8 (a + p.1) p.2)) (s, h) = (Ok tt, (s, setm h (mwrite (h_mem h) (a + k) l))).
Proof.
  intros Hb. revert k h. induction Hb as [|b l Hb Hbs IH]; intros k h Hr Hk.
  - change (len (@nil Z)) with 0. rewrite range2_nil by lia. cbn [combine for_each mwrite]. by destruct h.
  - rewrite len_cons in *. pose proof (len_nonneg l). rewrite range2_cons by lia. cbn [combine for_each fst snd].
    erewrite bind_step by (apply on_hw_step, mmio_write_ram, Hr; lia). replace (k + (1 + len l)) with (k + 1 + len l) by lia.
    rewrite IH; [|apply (ram_sub _ _ _ _ Hr); lia|lia]. cbn [setm h_mem mwrite le_bytes]. unfold byte_ok in Hb. rewrite Z.mod_small by lia.
    by rewrite Z.add_assoc.
Qed.
Lemma write_bytes_ram a l s h : bytes_ok l -> ram a (len l) -> write_bytes a l (s, h) = (Ok tt, (s, setm h (mwrite (h_mem h) a l))).
Proof.
  intros Hb Hr. unfold write_bytes, range. pose proof (write_bytes_from a l 0 s h Hb) as E. rewrite Z.add_0_r, Z.add_0_l in E. by apply E.
Qed.
Lemma write_desc_ram txq i a n f x s h : ram (v_desc txq + i * 16) 16 -> 0 <= f < 65536 -> 0 <= x < 65536 ->
  write_desc txq i a n f x (s, h) = (Ok tt, (s, setm h (mwrite (h_mem h) (v_desc txq + i * 16) (desc_bytes a n f x)))).
Proof. intros. unfold write_desc. apply on_hw_step. by apply desc_write_ram. Qed.
Lemma avail_push_ram txq head s h : ram (v_avail txq + 4 + v_avail_idx txq mod 16 * 2) 2 -> ram (v_avail txq + 2) 2 ->
  avail_push txq head (s, h) = (Ok (set_avail ((v_avail_idx txq + 1) mod 65536) txq), (s, setm h
    (mwrite (mwrite (h_mem h) (v_avail txq + 4 + v_avail_idx txq mod 16 * 2) (le_bytes 2 head)) (v_avail txq + 2) (le_bytes 2 (v_avail_idx txq + 1))))).
Proof.
  intros H1 H2. unfold avail_push. erewrite bind_step by (apply on_hw_step, write16_ram; exact H1).
  erewrite bind_step by (apply on_hw_step, write16_ram; exact H2). unfold ret. cbn [v_avail v_avail_idx set_avail]. change 0xFFFF with (2 ^ 16 - 1).
  rewrite land_mask by lia. rewrite setm_setm. cbn [setm h_mem]. change (2 ^ 16) with (256 ^ Z.of_nat 2). by rewrite le_bytes_mod.
Qed.
End access.
