(* ===== verification/SndPool.v ===== *)
(** * The pool of periods refines the queue

    What holds of the driver, the memory and the device between steps, and
    that every step of the system is a step of the reference. *)

From Stdlib Require Import ZArith Lia.
From stdpp Require Import base list gmap numbers strings.
From S2P Require Import Prelude Bytes Pystr Dict Hw Virtio VirtioSpec VirtioMem Sound Snd SndProps.

Local Open Scope Z_scope.

(** ** Where things are *)

Inductive region : Type := Ring | Hdr (s : Z) | Stat (s : Z) | Buf (s : Z).
#[global] Instance region_eq : EqDecision region.
Proof. solve_decision. Defined.

Section pool.
Context {Dv : Type} `{Machine Dv} (u : Setup) (q : Vq) (hdr stat buf : Z -> Z).
Definition slot_in (s : Z) : Prop := 0 <= s < 5.
Definition area (r : region) : Z * Z :=
  match r with Ring => (q_desc q, q_end q - q_desc q) | Hdr s => (hdr s, 4) | Stat s => (stat s, 8) | Buf s => (buf s, TX_PERIOD_BYTES) end.
Definition placed (r : region) : Prop := match r with Ring => True | Hdr s | Stat s | Buf s => slot_in s end.

(** What the probe leaves: a queue of 16, three blocks a slot, none of which
    overlap, in memory and not in the device's registers; and a device that
    does not touch memory while it is being notified. *)
Record pool_fit : Prop := {
  pf_num : q_num q = 16;
  pf_avail : q_desc q + 256 <= q_avail q;
  pf_used : q_avail q + 38 <= q_used q;
  pf_index s : slot_in s -> index (u_headers u) s = Ok (hdr s) /\ index (u_statuses u) s = Ok (stat s) /\ index (u_buffers u) s = Ok (buf s);
  pf_ram r : placed r -> ram (area r).1 (area r).2;
  pf_range r : placed r -> 0 <= (area r).1 < 2 ^ 64;
  pf_apart r r' : placed r -> placed r' -> r <> r' -> apart (area r) (area r');
  pf_bell : dev_claims (u_base u + 0x050) = true;
  pf_quiet d m : snd (dev_write (u_base u + 0x050) TXQ d m) = m;
}.
Context (fit : pool_fit).

Lemma pf_end : q_end q = q_used q + 132.
Proof. unfold q_end. rewrite (pf_num fit). lia. Qed.
(** Nothing of one region is in another. *)
Lemma region_apart r r' a n b k : placed r -> placed r' -> r <> r' ->
  (area r).1 <= a -> a + n <= (area r).1 + (area r).2 -> (area r').1 <= b -> b + k <= (area r').1 + (area r').2 -> a + n <= b \/ b + k <= a.
Proof. intros H1 H2 H3 ????. destruct (pf_apart fit r r' H1 H2 H3); lia. Qed.

Lemma ring_off r a k : placed r -> r <> Ring -> q_desc q <= a -> a + k <= q_end q -> a + k <= (area r).1 \/ (area r).1 + (area r).2 <= a.
Proof. intros Hr Hn Ha He. apply (region_apart Ring r); cbn [area fst snd placed]; try (done || lia). Qed.

(** ** A period in memory *)

Record period_ok (m : mem) (s : Z) (data : bytes) : Prop := {
  po_slot : slot_in s;
  po_len : 0 < len data <= TX_PERIOD_BYTES;
  po_d0 : mread m (q_desc q + 3 * s * 16) 16 = desc_bytes (hdr s) 4 VRING_DESC_F_NEXT (3 * s + 1);
  po_d1 : mread m (q_desc q + (3 * s + 1) * 16) 16 = desc_bytes (buf s) (len data) VRING_DESC_F_NEXT (3 * s + 2);
  po_d2 : mread m (q_desc q + (3 * s + 2) * 16) 16 = desc_bytes (stat s) 8 VRING_DESC_F_WRITE 0;
  po_data : mread m (buf s) (length data) = data;
}.
(** A write that leaves a period alone. *)
Definition spares (a n s : Z) : Prop :=
  (a + n <= q_desc q + 48 * s \/ q_desc q + 48 * s + 48 <= a) /\ (a + n <= buf s \/ buf s + TX_PERIOD_BYTES <= a).
Lemma period_write m s data a l : period_ok m s data -> spares a (len l) s -> period_ok (mwrite m a l) s data.
Proof.
  intros [H1 H2 H3 H4 H5 H6] [S1 S2]. split; [done|done|..]; rewrite mread_mwrite_out; try done; try lia. unfold len in *. lia.
Qed.
Lemma spares_region r s a n : placed r -> slot_in s -> r <> Ring -> r <> Buf s -> (area r).1 <= a -> a + n <= (area r).1 + (area r).2 -> 0 <= n -> spares a n s.
Proof.
  intros Hr Hs Hn Hb Ha He Hn0. pose proof pf_end as Ee. pose proof (pf_avail fit). pose proof (pf_used fit). unfold slot_in in Hs. split.
  - destruct (region_apart r Ring a n (q_desc q + 48 * s) 48); cbn [area fst snd placed] in *; try lia; try done.
  - destruct (region_apart r (Buf s) a n (buf s) TX_PERIOD_BYTES); cbn [area fst snd placed] in *; try lia; try done.
Qed.
Lemma spares_ring s a n : slot_in s -> q_desc q <= a -> a + n <= q_end q -> (a + n <= q_desc q + 48 * s \/ q_desc q + 48 * s + 48 <= a) -> spares a n s.
Proof.
  intros Hs Ha He Hd. split; [done|]. pose proof pf_end as Ee. pose proof (pf_avail fit). pose proof (pf_used fit).
  destruct (region_apart Ring (Buf s) a n (buf s) TX_PERIOD_BYTES); cbn [area fst snd placed] in *; try lia; try done.
Qed.

(** What the device reads off it. *)
Lemma period_descs m s data : period_ok m s data ->
  desc_at m q (3 * s) = mkDesc (hdr s) 4 VRING_DESC_F_NEXT (3 * s + 1) /\
  desc_at m q (3 * s + 1) = mkDesc (buf s) (len data) VRING_DESC_F_NEXT (3 * s + 2) /\
  desc_at m q (3 * s + 2) = mkDesc (stat s) 8 VRING_DESC_F_WRITE 0.
Proof.
  intros [Hs Hl H0 H1 H2 _]. unfold slot_in, TX_PERIOD_BYTES in *. unfold VRING_DESC_F_NEXT, VRING_DESC_F_WRITE in *.
  pose proof (pf_range fit (Hdr s) Hs). pose proof (pf_range fit (Stat s) Hs). pose proof (pf_range fit (Buf s) Hs). cbn [area fst] in *.
  split_and!; apply desc_at_bytes; try done; lia.
Qed.
Lemma period_read m s data : period_ok m s data -> period_at q m (3 * s) = data /\ status_at q m (3 * s) = stat s.
Proof.
  intros Hp. destruct (period_descs m s data Hp) as (E0 & E1 & E2). unfold period_at, status_at. rewrite E0. cbn [d_next]. rewrite E1. cbn [d_next d_addr d_len].
  rewrite E2. cbn [d_addr]. split; [|done]. unfold len. rewrite Nat2Z.id. apply (po_data _ _ _ Hp).
Qed.

(** ** Between steps *)

(** Slots waiting in the available ring, taken by the device, and finished but
    not reclaimed; requests taken and reclaimed so far. *)
Record slots : Type := mkSlots { l_wait : list Z; l_play : list Z; l_back : list Z; l_taken : Z; l_seen : Z }.
Definition ring_used (m : mem) (n : Z) : Prop := mread m (q_used q) 4 = [0; 0] ++ le_bytes 2 n.

Record mem_rel (x : slots) (m : mem) (waiting playing : list bytes) : Prop := {
  mr_avail : avail_index m q = (l_taken x + len (l_wait x)) mod 65536;
  mr_heads : forall i s, l_wait x !! i = Some s -> avail_head m q ((l_taken x + Z.of_nat i) mod 65536) = 3 * s;
  mr_used : used_at q (l_seen x + len (l_back x)) m;
  mr_back : forall i s, l_back x !! i = Some s -> mval m (q_used q + 4 + (l_seen x + Z.of_nat i) mod 16 * 8) 4 = 3 * s;
  mr_wait : Forall2 (period_ok m) (l_wait x) waiting;
  mr_play : Forall2 (period_ok m) (l_play x) playing;
}.
Definition busy (x : slots) : list Z := l_wait x ++ l_play x ++ l_back x.
Record pool_rel (x : slots) (p : Pool) : Prop := {
  pr_free : p_free p ++ busy x ≡ₚ range 5;
  pr_inflight : p_inflight p ≡ₚ map (fun s => (3 * s, s)) (busy x);
}.
Definition txq_rel (x : slots) (txq : VirtQueue) : Prop :=
  v_desc txq = q_desc q /\ v_avail txq = q_avail q /\ v_used txq = q_used q /\
  v_avail_idx txq = (l_taken x + len (l_wait x)) mod 65536 /\ v_last_used txq = l_seen x mod 65536.
Definition drv_rel (x : slots) (s : VirtioMmioSound) : Prop :=
  s_setup s = u /\ (exists txq, s_txq s = Some txq /\ txq_rel x txq) /\ pool_rel x (s_pool s).
Definition dev_rel (x : slots) (d : Device) : Prop :=
  dv_taken d = l_taken x mod 65536 /\ dv_pending d = map (fun s => 3 * s) (l_play x) /\ dv_used d = (l_seen x + len (l_back x)) mod 65536.
Definition rel (s : @system Dv) (t : periods) : Prop :=
  exists x, drv_rel x (fst (fst s)) /\ mem_rel x (h_mem (snd (fst s))) (fst t) (snd t) /\ dev_rel x (snd s).

Lemma pool_busy x p : pool_rel x p -> NoDup (busy x) /\ (forall s, s ∈ busy x -> slot_in s) /\ len (p_free p) + len (busy x) = 5.
Proof.
  intros [Hf _]. split_and!.
  - assert (HN : NoDup (p_free p ++ busy x)) by (rewrite Hf; apply NoDup_range2). by apply list.NoDup_app in HN as (_ & _ & ?).
  - intros s Hs. assert (Hr : s ∈ range 5) by (rewrite <- Hf; apply elem_of_app; by right). unfold range in Hr. by apply elem_of_range2 in Hr.
  - apply Permutation_length in Hf. rewrite length_app in Hf. unfold len. change (length (range 5)) with 5%nat in Hf. lia.
Qed.

Lemma busy_len x p : pool_rel x p -> len (l_wait x) + len (l_play x) + len (l_back x) <= 5.
Proof. intros Hp. destruct (pool_busy x p Hp) as (_ & _ & E). unfold busy in E. rewrite !len_app in E. pose proof (len_nonneg (p_free p)). lia. Qed.
Lemma wrap16 c : (c mod 65536) mod 16 = c mod 16.
Proof. change 65536 with (16 * 4096). rewrite Z.rem_mul_r by lia. rewrite (Z.mul_comm 16), Z.mod_add by lia. apply Z.mod_mod. lia. Qed.

(** ** The device takes a request *)

Lemma take_rel s t : rel s t -> rel (fst s, take_request q (h_mem (snd (fst s))) (snd s)) (snd (spec_step ETake t)).
Proof.
  destruct s as [[drv h] d], t as [waiting playing]. intros (x & Hdrv & Hmem & Hdev). cbn [fst snd] in *.
  destruct Hdrv as (Hu & (txq & Et & Htx) & Hp). pose proof (busy_len x _ Hp) as Hb. pose proof Hdev as (D1 & D2 & D3).
  unfold take_request. rewrite (mr_avail _ _ _ _ Hmem), D1. pose proof (mr_wait _ _ _ _ Hmem) as Hw.
  destruct x as [W P C F L]. cbn [l_wait l_play l_back l_taken l_seen] in *. destruct W as [|sl W].
  - inversion Hw; subst. change (len (@nil Z)) with 0. rewrite Z.add_0_r, Z.eqb_refl. cbn [spec_step snd].
    exists (mkSlots [] P C F L). split; [by split; [|split; [exists txq|]]|]. split; [exact Hmem|exact Hdev].
  - inversion Hw as [|? w ? waiting' Hw1 Hw2]; subst. rewrite len_cons in *. pose proof (len_nonneg W). pose proof (len_nonneg P). pose proof (len_nonneg C).
    destruct (Z.eqb_spec ((F + (1 + len W)) mod 65536) (F mod 65536)) as [E|_].
    { exfalso. Z.div_mod_to_equations. lia. }
    cbn [spec_step snd]. exists (mkSlots W (P ++ [sl]) C (F + 1) L).
    assert (Hbusy : busy (mkSlots (sl :: W) P C F L) ≡ₚ busy (mkSlots W (P ++ [sl]) C (F + 1) L)).
    { unfold busy. cbn [l_wait l_play l_back]. rewrite <- app_assoc. cbn [app]. solve_Permutation. }
    split; [split; [done|split]|split].
    + exists txq. split; [done|]. destruct Htx as (T1 & T2 & T3 & T4 & T5). split_and!; [done..| |done].
      cbn [l_wait l_taken] in *. rewrite len_cons in T4. rewrite T4. f_equal. lia.
    + destruct Hp as [Hf Hi]. split; rewrite <- Hbusy; done.
    + destruct Hmem as [M1 M2 M3 M4 M5 M6]. cbn [l_wait l_play l_back l_taken l_seen fst snd] in *. split; cbn [l_wait l_play l_back l_taken l_seen].
      * rewrite M1, len_cons. f_equal. lia.
      * intros i s Hi. rewrite <- (M2 (S i) s Hi). f_equal. f_equal. lia.
      * done.
      * done.
      * done.
      * apply Forall2_app; [done|]. by constructor.
    + split_and!; cbn [fst snd dv_taken dv_pending dv_used l_play l_taken l_seen l_back]; [by rewrite Z.add_mod_idemp_l by lia| |done].
      rewrite map_app, D2. cbn [map]. pose proof (mr_heads _ _ _ _ Hmem 0%nat sl eq_refl) as E0. cbn [l_taken] in E0. rewrite Z.add_0_r in E0. by rewrite E0.
Qed.

(** ** The device finishes a request *)

Section finish.
Context (m : mem) (sl n : Z) (Hsl : slot_in sl).
(** The memory after slot [sl] becomes the [n]-th entry of the used ring. *)
Definition finished : mem :=
  mwrite (mwrite (mwrite m (stat sl) (le_bytes 4 VIRTIO_SND_S_OK ++ le_bytes 4 0)) (q_used q + 4 + n mod 16 * 8) (le_bytes 4 (3 * sl) ++ le_bytes 4 8))
    (q_used q + 2) (le_bytes 2 (n + 1)).
Lemma len_8 a b : len (le_bytes 4 a ++ le_bytes 4 b) = 8.
Proof. by autorewrite with len. Qed.
Lemma slot16 : 0 <= n mod 16 < 16.
Proof. apply Z.mod_pos_bound. lia. Qed.
(** What is in the ring before the used ring stays. *)
Lemma finished_ring a k : q_desc q <= a -> a + Z.of_nat k <= q_used q -> mread finished a k = mread m a k.
Proof.
  intros Ha Hk. unfold finished. pose proof slot16. pose proof pf_end. rewrite !mread_mwrite_out; rewrite ?len_8, ?len_le_bytes; try lia; [done|].
  destruct (region_apart Ring (Stat sl) a (Z.of_nat k) (stat sl) 8); cbn [area fst snd placed]; try lia; done.
Qed.
Lemma finished_used a k : q_used q <= a -> a + Z.of_nat k <= q_end q ->
  (a + Z.of_nat k <= q_used q + 4 + n mod 16 * 8 \/ q_used q + 4 + n mod 16 * 8 + 8 <= a) -> (a + Z.of_nat k <= q_used q + 2 \/ q_used q + 4 <= a) ->
  mread finished a k = mread m a k.
Proof.
  intros Ha Hk H1 H2. unfold finished. pose proof slot16. pose proof pf_end. pose proof (pf_avail fit). pose proof (pf_used fit).
  rewrite !mread_mwrite_out; rewrite ?len_8, ?len_le_bytes; try lia; [done|].
  destruct (region_apart Ring (Stat sl) a (Z.of_nat k) (stat sl) 8); cbn [area fst snd placed]; try lia; done.
Qed.
Lemma finished_period s data : period_ok m s data -> period_ok finished s data.
Proof.
  intros Hp. pose proof (po_slot _ _ _ Hp) as Hs. pose proof slot16. pose proof pf_end. pose proof (pf_avail fit). pose proof (pf_used fit). unfold finished, slot_in in *.
  apply period_write; [apply period_write; [apply period_write; [done|]|]|]; rewrite ?len_8, ?len_le_bytes.
  - apply (spares_region (Stat sl)); cbn [area fst snd placed]; done || lia.
  - apply spares_ring; try done; lia.
  - apply spares_ring; try done; lia.
Qed.
Lemma finished_index : used_at q n m -> used_at q (n + 1) finished.
Proof.
  intros Hu. unfold used_at in *. change 4%nat with (2 + 2)%nat. rewrite mread_app. f_equal.
  - pose proof slot16. pose proof pf_end. rewrite finished_used by lia. rewrite (mread_at m (q_used q) 4 _ (q_used q) 0 2 Hu) by lia. done.
  - unfold finished. by apply mread_mwrite_same.
Qed.
Lemma finished_entry : mval finished (q_used q + 4 + n mod 16 * 8) 4 = 3 * sl.
Proof.
  unfold mval, finished. pose proof slot16. rewrite mread_mwrite_out by (rewrite len_le_bytes; lia).
  erewrite (mread_at _ (q_used q + 4 + n mod 16 * 8) 8 _ _ 0 4); [|apply mread_mwrite_same; reflexivity|lia|lia].
  change (take 4 (drop 0 (le_bytes 4 (3 * sl) ++ le_bytes 4 8))) with (le_bytes 4 (3 * sl)). apply le_val_le_bytes. unfold slot_in in Hsl. simpl. lia.
Qed.
End finish.

Lemma finish_rel k s t : rel s t ->
  exists s', system_step q (EFinish k) s = (Ok (fst (spec_step (EFinish k) t)), s') /\ rel s' (snd (spec_step (EFinish k) t)).
Proof.
  destruct s as [[drv h] d], t as [waiting playing]. intros (x & Hdrv & Hmem & Hdev). cbn [fst snd] in *.
  destruct Hdrv as (Hu & (txq & Et & Htx) & Hp). pose proof (busy_len x _ Hp) as Hb. pose proof (pool_busy x _ Hp) as (HN & Hin & _).
  pose proof Hdev as (D1 & D2 & D3). pose proof Hmem as [M1 M2 M3 M4 M5 M6]. destruct x as [W P C F L]. cbn [l_wait l_play l_back l_taken l_seen fst snd] in *.
  cbn [system_step spec_step]. rewrite D2, list_lookup_fmap. destruct (P !! k) as [sl|] eqn:EP; cbn [fmap option_fmap option_map].
  2:{ pose proof M6 as HL. apply Forall2_length in HL. apply lookup_ge_None_1 in EP. rewrite (proj2 (list.lookup_ge_None playing k)) by lia.
      cbn [fst snd]. eexists. split; [reflexivity|]. exists (mkSlots W P C F L). split; [split; [done|split; [by exists txq|done]]|]. by split. }
  destruct (Forall2_lookup_l _ _ _ _ _ M6 EP) as (data & Ep & Hpd). rewrite Ep. cbn [fst snd].
  destruct (period_read _ _ _ Hpd) as [Edata Estat]. rewrite Edata. eexists. split; [reflexivity|].
  pose proof (po_slot _ _ _ Hpd) as Hsl. set (n := L + len C).
  assert (Em : finish_mem q (3 * sl) d (h_mem h) = finished (h_mem h) sl n).
  { unfold finish_mem, finished. rewrite Estat, D3, (pf_num fit), wrap16. fold n. f_equal.
    rewrite <- (le_bytes_mod 2 (n mod 65536 + 1)), <- (le_bytes_mod 2 (n + 1)). change (256 ^ Z.of_nat 2) with 65536. by rewrite Z.add_mod_idemp_l by lia. }
  pose proof (len_nonneg C). pose proof (len_nonneg W). pose proof (len_nonneg P). pose proof pf_end as Ee. pose proof (pf_avail fit) as Ea. pose proof (pf_used fit) as Eu. pose proof (pf_num fit) as En.
  assert (HP : P ≡ₚ sl :: delete k P) by (by apply delete_Permutation).
  assert (Hbusy : busy (mkSlots W P C F L) ≡ₚ busy (mkSlots W (delete k P) (C ++ [sl]) F L)).
  { unfold busy. cbn [l_wait l_play l_back]. rewrite HP at 1. solve_Permutation. }
  assert (HC : len C <= 4) by (apply lookup_lt_Some in EP; assert (1 <= len P) by (unfold len; lia); lia).
  exists (mkSlots W (delete k P) (C ++ [sl]) F L). unfold with_mem. cbn [fst snd setm h_mem]. rewrite Em. split; [split; [done|split]|split].
  - exists txq. done.
  - destruct Hp as [Hf Hi]. split; rewrite <- Hbusy; done.
  - split; cbn [l_wait l_play l_back l_taken l_seen].
    + unfold avail_index, mval in *. rewrite finished_ring by (done || lia). done.
    + intros i s Hi. rewrite <- (M2 i s Hi). unfold avail_head, mval. rewrite En, wrap16. pose proof (Z.mod_pos_bound (F + Z.of_nat i) 16). rewrite finished_ring by (done || lia). done.
    + rewrite len_snoc, Z.add_assoc. by apply finished_index.
    + intros i s Hi. apply lookup_snoc_Some in Hi as [[Hi Hs]|[Hi ->]].
      * rewrite <- (M4 i s Hs). unfold mval. rewrite finished_used; try done; unfold n; pose proof (Z.mod_pos_bound (L + Z.of_nat i) 16); try lia.
        assert ((L + Z.of_nat i) mod 16 <> (L + len C) mod 16); [|lia]. unfold len in *. Z.div_mod_to_equations. lia.
      * replace (L + Z.of_nat i) with n by (unfold n, len; lia). by apply finished_entry.
    + eapply Forall2_impl; [exact M5|]. intros. by apply finished_period.
    + apply Forall2_delete. eapply Forall2_impl; [exact M6|]. intros. by apply finished_period.
  - split_and!; cbn [finish_dev dv_taken dv_pending dv_used l_play l_taken l_seen l_back]; [done| |].
    + rewrite D2. by rewrite <- list_fmap_delete.
    + rewrite D3, len_snoc, Z.add_mod_idemp_l by lia. f_equal. lia.
Qed.

(** ** Periods come back *)

Lemma used_word m n : used_at q n m -> Z.shiftr (mval m (q_used q) 4) 16 = n mod 65536.
Proof.
  intros Hu. unfold mval. rewrite Hu. cbn [app le_val].
  replace (0 + 256 * (0 + 256 * le_val (le_bytes 2 n))) with (le_val (le_bytes 2 n) * 2 ^ 16) by lia.
  rewrite Z.shiftr_div_pow2, Z.div_mul by lia. by rewrite le_val_le_bytes_mod.
Qed.
Lemma ring_ram a n : q_desc q <= a -> a + n <= q_end q -> ram a n.
Proof. intros Ha He. apply (ram_sub _ _ _ _ (pf_ram fit Ring I)); cbn [area fst snd]; lia. Qed.
Lemma back_pool W P sl C F L p : pool_rel (mkSlots W P (sl :: C) F L) p -> pool_rel (mkSlots W P C F (L + 1)) (give_back (3 * sl) p).
Proof.
  intros Hp. destruct (pool_busy _ _ Hp) as (HN & _ & _). destruct Hp as [Hf Hi]. unfold busy in *. cbn [l_wait l_play l_back] in *.
  assert (HB : W ++ P ++ sl :: C ≡ₚ sl :: W ++ P ++ C) by solve_Permutation. rewrite HB in Hf, Hi, HN. cbn [map] in Hi.
  assert (Hok : dict_ok (p_inflight p)).
  { unfold dict_ok. rewrite Hi. change ((3 * sl, sl) :: ?l) with (map (fun s => (3 * s, s)) [sl] ++ l). rewrite <- map_app. cbn [app].
    change (map (fun s => (3 * s, s)) ?l) with ((fun s => (3 * s, s)) <$> l). rewrite <- list_fmap_compose. apply NoDup_fmap_2; [|done].
    intros a b. cbn. lia. }
  assert (Hg : dget (3 * sl) (p_inflight p) = Some sl) by (apply elem_dget; [done|]; rewrite Hi; by left).
  unfold give_back. rewrite Hg. split; unfold busy; cbn [l_wait l_play l_back p_free p_inflight].
  - rewrite <- Hf. solve_Permutation.
  - apply (Permutation_cons_inv (a := (3 * sl, sl))). rewrite <- Hi. symmetry. by apply dpop_perm.
Qed.
Lemma reclaim_ok n W P C F L txq drv h waiting playing :
  s_setup drv = u -> s_txq drv = Some txq -> txq_rel (mkSlots W P C F L) txq -> pool_rel (mkSlots W P C F L) (s_pool drv) ->
  mem_rel (mkSlots W P C F L) (h_mem h) waiting playing -> (length C <= n)%nat ->
  exists txq' drv', reclaim n txq ((L + len C) mod 65536) (drv, h) = (Ok txq', (drv', h)) /\
    s_setup drv' = u /\ s_txq drv' = Some txq' /\ txq_rel (mkSlots W P [] F (L + len C)) txq' /\ pool_rel (mkSlots W P [] F (L + len C)) (s_pool drv') /\
    mem_rel (mkSlots W P [] F (L + len C)) (h_mem h) waiting playing.
Proof.
  revert n L txq drv. induction C as [|sl C IH]; intros n L txq drv Hu Et Htx Hp Hm Hn.
  - change (len (@nil Z)) with 0 in *. rewrite !Z.add_0_r. exists txq, drv. split; [|done]. destruct n; [done|]. cbn [reclaim].
    destruct Htx as (_ & _ & _ & _ & T5). cbn [l_seen] in T5. by rewrite T5, Z.eqb_refl.
  - destruct n as [|n]; cbn [length] in Hn; [lia|]. cbn [reclaim]. pose proof Htx as (T1 & T2 & T3 & T4 & T5). cbn [l_seen l_wait l_taken] in *.
    pose proof (busy_len _ _ Hp) as Hb. cbn [l_wait l_play l_back] in Hb. rewrite len_cons in *. pose proof (len_nonneg C). pose proof (len_nonneg W). pose proof (len_nonneg P).
    rewrite T5. destruct (Z.eqb_spec (L mod 65536) ((L + (1 + len C)) mod 65536)) as [E|_]; [exfalso; Z.div_mod_to_equations; lia|].
    rewrite T3. change (QUEUE_SIZE) with 16. rewrite wrap16. pose proof (Z.mod_pos_bound L 16 ltac:(lia)). pose proof pf_end. pose proof (pf_avail fit). pose proof (pf_used fit).
    erewrite bind_step.
    2:{ apply on_hw_step, mmio_read_ram. apply (ring_ram (q_used q + 4 + L mod 16 * 8) 4); lia. }
    pose proof (mr_back _ _ _ _ Hm 0%nat sl eq_refl) as E0. cbn [l_seen] in E0. rewrite Z.add_0_r in E0. rewrite E0.
    erewrite bind_step by reflexivity. cbn zeta. erewrite bind_step by reflexivity. change 0xFFFF with (2 ^ 16 - 1). rewrite land_mask by lia. change (2 ^ 16) with 65536.
    rewrite Z.add_mod_idemp_l by lia. replace (L + (1 + len C)) with (L + 1 + len C) by lia.
    eapply IH; clear IH; [done|done| | | |lia]; cbn [fst snd set_pool set_txq s_pool].
    + split_and!; cbn [v_desc v_avail v_used v_avail_idx v_last_used set_last l_wait l_taken l_seen]; done.
    + by apply back_pool.
    + destruct Hm as [M1 M2 M3 M4 M5 M6]. cbn [l_wait l_play l_back l_taken l_seen] in *. split; cbn [l_wait l_play l_back l_taken l_seen]; [done|done| | |done|done].
      * rewrite len_cons in M3. by replace (L + 1 + len C) with (L + (1 + len C)) by lia.
      * intros i s Hi. rewrite <- (M4 (S i) s Hi). do 4 f_equal. lia.
Qed.

(** ** A period is submitted *)

Section submit.
Context (m : mem) (sl A : Z) (data : bytes) (Hsl : slot_in sl) (Hlen : 0 < len data <= TX_PERIOD_BYTES).
Definition submitted : mem :=
  let m := mwrite m (buf sl) data in
  let m := mwrite m (hdr sl) (le_bytes 4 0) in
  let m := mwrite m (q_desc q + sl * 3 * 16) (desc_bytes (hdr sl) 4 VRING_DESC_F_NEXT (sl * 3 + 1)) in
  let m := mwrite m (q_desc q + (sl * 3 + 1) * 16) (desc_bytes (buf sl) (len data) VRING_DESC_F_NEXT (sl * 3 + 2)) in
  let m := mwrite m (q_desc q + (sl * 3 + 2) * 16) (desc_bytes (stat sl) 8 VRING_DESC_F_WRITE 0) in
  let m := mwrite m (q_avail q + 4 + A mod 16 * 2) (le_bytes 2 (sl * 3)) in
  mwrite m (q_avail q + 2) (le_bytes 2 (A + 1)).
Ltac facts := pose proof (Z.mod_pos_bound A 16 ltac:(lia)); pose proof pf_end; pose proof (pf_avail fit); pose proof (pf_used fit); unfold slot_in in *.
Ltac sizes := rewrite ?len_desc_bytes, ?len_le_bytes.
(** The ring outside the slot's descriptors and the new entry stays. *)
Lemma submitted_ring a k : q_desc q <= a -> a + Z.of_nat k <= q_end q ->
  (a + Z.of_nat k <= q_desc q + 48 * sl \/ q_desc q + 48 * sl + 48 <= a) ->
  (a + Z.of_nat k <= q_avail q + 4 + A mod 16 * 2 \/ q_avail q + 4 + A mod 16 * 2 + 2 <= a) -> (a + Z.of_nat k <= q_avail q + 2 \/ q_avail q + 4 <= a) ->
  mread submitted a k = mread m a k.
Proof.
  intros H1 H2 H3 H4 H5. unfold submitted. cbv zeta. facts. rewrite !mread_mwrite_out; sizes; try lia; [done|..].
  - destruct (ring_off (Buf sl) a (Z.of_nat k)); cbn [area fst snd placed] in *; done || lia.
  - destruct (ring_off (Hdr sl) a (Z.of_nat k)); cbn [area fst snd placed] in *; done || lia.
Qed.
Lemma submitted_other s d : s <> sl -> period_ok m s d -> period_ok submitted s d.
Proof.
  intros Hne Hp. pose proof (po_slot _ _ _ Hp) as Hs. unfold submitted. cbv zeta. facts.
  repeat apply period_write; sizes; try done.
  - apply (spares_region (Buf sl)); cbn [area fst snd placed]; try (done || lia). congruence.
  - apply (spares_region (Hdr sl)); cbn [area fst snd placed]; done || lia.
  - apply spares_ring; try done; lia.
  - apply spares_ring; try done; lia.
  - apply spares_ring; try done; lia.
  - apply spares_ring; try done; lia.
  - apply spares_ring; try done; lia.
Qed.
Lemma submitted_self : period_ok submitted sl data.
Proof.
  facts. assert (Hb : forall a k, q_desc q <= a -> a + k <= q_end q -> a + k <= buf sl \/ buf sl + TX_PERIOD_BYTES <= a).
  { intros a k Hx Hy. destruct (ring_off (Buf sl) a k); cbn [area fst snd placed] in *; done || lia. }
  unfold submitted. cbv zeta. split; [done|done|..]; rewrite ?(Z.mul_comm 3 sl).
  - do 4 rewrite mread_mwrite_out by (sizes; lia). by apply mread_mwrite_same.
  - do 3 rewrite mread_mwrite_out by (sizes; lia). by apply mread_mwrite_same.
  - do 2 rewrite mread_mwrite_out by (sizes; lia). by apply mread_mwrite_same.
  - assert (Hd : Z.of_nat (length data) <= TX_PERIOD_BYTES) by (unfold len in Hlen; lia).
    do 5 (rewrite mread_mwrite_out by (sizes; match goal with |- _ \/ ?a + ?n <= _ => destruct (Hb a n); lia end)).
    rewrite mread_mwrite_out; [by apply mread_mwrite_same|]. sizes.
    destruct (region_apart (Buf sl) (Hdr sl) (buf sl) (Z.of_nat (length data)) (hdr sl) 4); cbn [area fst snd placed]; try (done || lia).
Qed.
Lemma submitted_head : mval submitted (q_avail q + 4 + A mod 16 * 2) 2 = 3 * sl.
Proof.
  unfold mval, submitted. cbv zeta. facts. rewrite mread_mwrite_out by (sizes; lia). rewrite mread_mwrite_same by done.
  rewrite le_val_le_bytes by (simpl; lia). lia.
Qed.
Lemma submitted_index : avail_index submitted q = (A + 1) mod 65536.
Proof. unfold avail_index, mval, submitted. cbv zeta. rewrite mread_mwrite_same by done. by rewrite le_val_le_bytes_mod. Qed.
End submit.

Lemma setm_same (h : Hw Dv) : setm h (h_mem h) = h.
Proof. by destruct h. Qed.
Lemma bell_quiet (s : VirtioMmioSound) h : s_setup s = u -> exists d', Snd._w32 0x050 TXQ (s, h) = (Ok tt, (s, mkHw (h_mem h) (h_heap h) d')).
Proof.
  intros Hu. unfold Snd._w32, self. erewrite bind_step by reflexivity. cbn [fst]. rewrite Hu.
  destruct (dev_write (u_base u + 0x050) TXQ (h_dev h) (h_mem h)) as [d' m'] eqn:Ed. exists d'.
  apply on_hw_step. unfold mmio_write32, mmio_write. rewrite (pf_bell fit). change (TXQ mod 256 ^ Z.of_nat 4) with TXQ. rewrite Ed.
  pose proof (pf_quiet fit (h_dev h) (h_mem h)) as Eq. rewrite Ed in Eq. cbn [snd] in Eq. by rewrite Eq.
Qed.
(** The pool after a slot left it. *)
Lemma submit_pool W P F L p free sl a b c d e : p_free p = free ++ [sl] -> pool_rel (mkSlots W P [] F L) p ->
  pool_rel (mkSlots (W ++ [sl]) P [] F L) (mkPool free (dset (sl * 3) sl (p_inflight p)) a b c d e).
Proof.
  intros Ef Hp. destruct (pool_busy _ _ Hp) as (_ & Hin & _). destruct Hp as [Hf Hi]. unfold busy in *. cbn [l_wait l_play l_back] in *. rewrite !app_nil_r in *.
  assert (HN : NoDup (free ++ [sl] ++ W ++ P)) by (rewrite app_assoc, <- Ef, Hf; apply NoDup_range2).
  assert (Hd : dget (sl * 3) (p_inflight p) = None).
  { apply dget_None. rewrite Hi. intros Hx. apply list_elem_of_fmap in Hx as ([k v] & Ek & Hx). apply list_elem_of_In, in_map_iff in Hx as (s & [= <- <-] & Hs).
    cbn in Ek. assert (s = sl) as -> by lia. apply list_elem_of_In in Hs. apply list.NoDup_app in HN as (_ & _ & HN). cbn [app] in HN. by apply NoDup_cons in HN as [? _]. }
  split; unfold busy; cbn [l_wait l_play l_back p_free p_inflight]; rewrite ?app_nil_r.
  - rewrite <- Hf, Ef. solve_Permutation.
  - rewrite dset_fresh, Hi by done. rewrite !map_app. cbn [map]. replace (sl * 3) with (3 * sl) by lia. solve_Permutation.
Qed.
Lemma submit_mem W P F L m waiting playing sl data : 
  mem_rel (mkSlots W P [] F L) m waiting playing -> slot_in sl -> 0 < len data <= TX_PERIOD_BYTES -> sl ∉ W ++ P -> len W < 5 ->
  mem_rel (mkSlots (W ++ [sl]) P [] F L) (submitted m sl ((F + len W) mod 65536) data) (waiting ++ [data]) playing.
Proof.
  intros [M1 M2 M3 M4 M5 M6] Hsl Hlen Hni HW. cbn [l_wait l_play l_back l_taken l_seen] in *. set (A := (F + len W) mod 65536).
  pose proof (Z.mod_pos_bound A 16 ltac:(lia)). pose proof pf_end as Ee. pose proof (pf_avail fit) as Ea. pose proof (pf_used fit) as Eu. pose proof (pf_num fit) as En. unfold slot_in in *.
  assert (Eother : forall xs ys, Forall2 (period_ok m) xs ys -> (forall s, s ∈ xs -> s ∈ W ++ P) -> Forall2 (period_ok (submitted m sl A data)) xs ys).
  { intros xs ys Hf Hs. induction Hf as [|x y xs ys Hx Hf IH]; constructor.
    - apply submitted_other; try done. intros ->. apply Hni, Hs. by left.
    - apply IH. intros z Hz. apply Hs. by right. }
  split; cbn [l_wait l_play l_back l_taken l_seen].
  - rewrite submitted_index. unfold A. rewrite len_snoc, Z.add_mod_idemp_l by lia. f_equal. lia.
  - intros i s Hi. unfold avail_head. rewrite En, wrap16. apply lookup_snoc_Some in Hi as [[Hi Hs]|[Hi ->]].
    + rewrite <- (M2 i s Hs). unfold avail_head, mval. rewrite En, wrap16. pose proof (Z.mod_pos_bound (F + Z.of_nat i) 16 ltac:(lia)).
      rewrite submitted_ring; try done; try lia.
      assert ((F + Z.of_nat i) mod 16 <> A mod 16); [|lia]. unfold A. rewrite wrap16. unfold len in *. Z.div_mod_to_equations. lia.
    + replace ((F + Z.of_nat i) mod 16) with (A mod 16); [by apply submitted_head|]. unfold A. rewrite wrap16. f_equal. unfold len. lia.
  - unfold used_at in *. rewrite submitted_ring; try done; lia.
  - intros i s Hi. done.
  - apply Forall2_app; [apply Eother; [done|]; intros s Hs; apply elem_of_app; by left|]. constructor; [|constructor]. by apply submitted_self.
  - apply Eother; [done|]. intros s Hs. apply elem_of_app. by right.
Qed.

(** The submission itself, once a slot is chosen. *)
Lemma submit_ok drv h txq free sl data : s_setup drv = u -> v_desc txq = q_desc q -> v_avail txq = q_avail q ->
  bytes_ok data -> 0 < len data <= TX_PERIOD_BYTES -> slot_in sl -> s_txq drv = Some txq -> p_free (s_pool drv) = free ++ [sl] -> 0 <= v_avail_idx txq < 65536 ->
  exists d' p', submit txq sl data (len data) (drv, h) =
    (Ok (len data), (mkSnd u (s_cq drv) (Some (set_avail ((v_avail_idx txq + 1) mod 65536) txq)) p',
       mkHw (submitted (h_mem h) sl (v_avail_idx txq) data) (h_heap h) d')) /\
    p_free p' = free /\ p_inflight p' = dset (sl * 3) sl (p_inflight (s_pool drv)).
Proof.
  intros Hu Td Ta Hb Hlen Hsl Et Ef HA. pose proof (pf_index fit sl Hsl) as (I1 & I2 & I3). pose proof pf_end as Ee. pose proof (pf_avail fit) as Ea. pose proof (pf_used fit) as Eu.
  pose proof (Z.mod_pos_bound (v_avail_idx txq) 16 ltac:(lia)). unfold slot_in in Hsl.
  assert (R1 : ram (buf sl) (len data)) by (apply (ram_sub _ _ _ _ (pf_ram fit (Buf sl) Hsl)); cbn [area fst snd]; lia).
  assert (R2 : ram (hdr sl) 4) by (exact (pf_ram fit (Hdr sl) Hsl)).
  destruct (bell_quiet (mkSnd u (s_cq drv) (Some (set_avail ((v_avail_idx txq + 1) mod 65536) txq))
     (mkPool free (dset (sl * 3) sl (p_inflight (s_pool drv))) (p_bytes (s_pool drv)) (p_submitted (s_pool drv) + 1) (p_reclaimed (s_pool drv)) (p_backpressure (s_pool drv))
       (Z.max (p_high_water (s_pool drv)) (len (dset (sl * 3) sl (p_inflight (s_pool drv)))))))
     (setm h (submitted (h_mem h) sl (v_avail_idx txq) data)) eq_refl) as [d' Ebell].
  exists d'. eexists. split.
  - unfold submit. erewrite bind_step by reflexivity. erewrite bind_step by reflexivity. cbn [fst set_pool s_setup]. rewrite Hu, I3.
    erewrite bind_step by reflexivity. erewrite bind_step by (apply write_bytes_ram; done). rewrite I1, I2.
    erewrite bind_step by reflexivity. erewrite bind_step by reflexivity. erewrite bind_step by (apply put_le32_ram; done). cbv zeta.
    assert (RD : forall i, sl * 3 <= i <= sl * 3 + 2 -> ram (v_desc txq + i * 16) 16) by (intros i Hi; rewrite Td; apply ring_ram; lia).
    unfold TX_PERIOD_BYTES in *. unfold VRING_DESC_F_NEXT, VRING_DESC_F_WRITE.
    do 3 erewrite bind_step by (apply write_desc_ram; [apply RD; lia|lia|lia]).
    erewrite bind_step by reflexivity. erewrite bind_step by (apply avail_push_ram; rewrite Ta; apply ring_ram; lia).
    erewrite bind_step by reflexivity. cbn [fst snd setm h_mem]. rewrite !setm_setm. unfold set_pool, set_txq.
    cbn [s_setup s_cq s_txq s_pool p_free p_inflight p_bytes p_submitted p_reclaimed p_backpressure p_high_water].
    rewrite Td, Ta, Ef, removelast_last, ?Hu. erewrite bind_step by exact Ebell. reflexivity.
  - done.
Qed.
Lemma write_rel pcm s t : bytes_ok pcm -> rel s t ->
  exists s', system_step q (EWrite pcm) s = (Ok (fst (spec_step (EWrite pcm) t)), s') /\ rel s' (snd (spec_step (EWrite pcm) t)).
Proof.
  destruct s as [[drv h] d], t as [waiting playing]. intros Hbytes (x & (Hu & (txq & Et & Htx) & Hp) & Hmem & Hdev). cbn [fst snd] in *.
  pose proof (busy_len x _ Hp) as Hb. pose proof Hdev as (D1 & D2 & D3). destruct x as [W P C F L]. cbn [l_wait l_play l_back l_taken l_seen fst snd] in *.
  pose proof (len_nonneg C). pose proof (len_nonneg W). pose proof (len_nonneg P). pose proof pf_end as Ee. pose proof (pf_avail fit) as Ea. pose proof (pf_used fit) as Eu.
  pose proof Htx as (T1 & T2 & T3 & T4 & T5). cbn [l_wait l_taken l_seen] in *. cbn [system_step]. unfold write_pcm.
  erewrite bind_step by reflexivity. cbn [fst]. rewrite Et.
  assert (Eused : used_idx txq (drv, h) = (Ok ((L + len C) mod 65536), (drv, h))).
  { unfold used_idx. erewrite bind_step by (apply on_hw_step, mmio_read_ram; rewrite T3, Z.add_0_r; apply (ring_ram (q_used q) 4); lia).
    rewrite T3, Z.add_0_r. unfold ret. by rewrite (used_word _ _ (mr_used _ _ _ _ Hmem)). }
  rewrite (bind_step _ _ _ _ _ Eused).
  destruct (reclaim_ok (Z.to_nat (((L + len C) mod 65536 - v_last_used txq) mod 65536)) W P C F L txq drv h waiting playing Hu Et Htx Hp Hmem) as (txq' & drv' & Er & Hu' & Et' & Htx' & Hp' & Hmem').
  { rewrite T5. replace (((L + len C) mod 65536 - L mod 65536) mod 65536) with (len C) by (Z.div_mod_to_equations; lia). unfold len. lia. }
  rewrite (bind_step _ _ _ _ _ Er). cbn [spec_step]. set (n := Z.min (len pcm) TX_PERIOD_BYTES). pose proof (len_nonneg pcm).
  pose proof (mr_wait _ _ _ _ Hmem) as HW. apply Forall2_length in HW. pose proof (mr_play _ _ _ _ Hmem) as HP. apply Forall2_length in HP. cbn [l_wait l_play] in HW, HP.
  assert (EW : len waiting = len W) by (unfold len; lia). assert (EP : len playing = len P) by (unfold len; lia).
  assert (Hdev' : dev_rel (mkSlots W P [] F (L + len C)) d) by (split_and!; cbn; [done|done|by rewrite Z.add_0_r]).
  destruct (pool_busy _ _ Hp') as (HN & Hin & Hcount). unfold busy in Hcount, Hin, HN. cbn [l_wait l_play l_back] in Hcount, Hin, HN. rewrite app_nil_r in *. rewrite len_app in Hcount.
  destruct (Z.eqb_spec n 0) as [En|En]; cbn [orb].
  { cbn [fst snd]. eexists. split; [reflexivity|]. exists (mkSlots W P [] F (L + len C)). split; [split; [done|split; [by exists txq'|done]]|done]. }
  erewrite bind_step by reflexivity. cbn [fst].
  destruct (p_free (s_pool drv')) as [|f0 fr] eqn:Ef.
  { change (len (@nil Z)) with 0 in Hcount. rewrite EW, EP. change TX_PERIODS with 5. assert ((len W + len P =? 5) = true) as -> by lia. cbn [fst snd].
    eexists. split; [reflexivity|]. exists (mkSlots W P [] F (L + len C)). split; [split; [done|split; [by exists txq'|]]|done].
    destruct Hp' as [Hf Hi]. by split. }
  rewrite len_cons in Hcount. pose proof (len_nonneg fr). rewrite EW, EP. change TX_PERIODS with 5. assert ((len W + len P =? 5) = false) as -> by lia. cbn [fst snd].
  cbv match. destruct (exists_last (l := f0 :: fr) ltac:(done)) as (free & sl & Efree). rewrite Efree in *. rewrite List.last_last.
  assert (Hsl : slot_in sl).
  { destruct Hp' as [Hf _]. assert (Hr : sl ∈ range 5) by (rewrite <- Hf, Ef; rewrite !elem_of_app; left; right; by left). unfold range in Hr. by apply elem_of_range2 in Hr. }
  assert (Hni : sl ∉ W ++ P).
  { destruct Hp' as [Hf _]. intros Hx. assert (HN2 : NoDup (p_free (s_pool drv') ++ busy (mkSlots W P [] F (L + len C)))) by (rewrite Hf; apply NoDup_range2).
    apply list.NoDup_app in HN2 as (_ & HN2 & _). apply (HN2 sl); [rewrite Ef; apply elem_of_app; right; by left|]. unfold busy. cbn [l_wait l_play l_back]. by rewrite app_nil_r. }
  pose proof Htx' as (T1' & T2' & T3' & T4' & T5'). cbn [l_wait l_taken l_seen] in *.
  assert (Hn : 0 < n <= TX_PERIOD_BYTES /\ n <= len pcm) by (unfold n, TX_PERIOD_BYTES in *; lia). destruct Hn as [Hn Hn'].
  assert (Hld : len (slice pcm 0 n) = n) by (rewrite len_slice; lia).
  destruct (submit_ok drv' h txq' free sl (slice pcm 0 n) Hu' T1' T2') as (d' & p' & Es & Efr & Einf); try done.
  { unfold slice. by apply Forall_take, Forall_drop. } { by rewrite Hld. } { rewrite T4'. apply Z.mod_pos_bound. lia. }
  rewrite Hld in Es. rewrite Es. eexists. split; [reflexivity|].
  exists (mkSlots (W ++ [sl]) P [] F (L + len C)). split; [split; [done|split]|split].
  - eexists. split; [reflexivity|]. split_and!; cbn [v_desc v_avail v_used v_avail_idx v_last_used set_avail l_wait l_taken l_seen]; [done..| |done].
    rewrite T4', len_snoc, Z.add_mod_idemp_l by lia. f_equal. lia.
  - cbn [fst s_pool]. destruct p' as [fr' inf' pb ps pr pbp phw]. cbn [p_free p_inflight] in Efr, Einf. subst fr' inf'. by apply submit_pool.
  - cbn [fst snd h_mem]. rewrite T4'. apply submit_mem; try done; [by rewrite Hld|lia].
  - done.
Qed.

(** ** Runs *)

(** After the probe: nothing submitted, nothing returned. *)
Definition fresh (s : @system Dv) : Prop :=
  s_setup (fst (fst s)) = u /\ s_txq (fst (fst s)) = Some (mkVirtQueue (q_desc q) (q_avail q) (q_used q) 0 0 0) /\
  p_free (s_pool (fst (fst s))) = range TX_PERIODS /\ p_inflight (s_pool (fst (fst s))) = [] /\
  mread (h_mem (snd (fst s))) (q_used q) 4 = [0; 0; 0; 0] /\ mread (h_mem (snd (fst s))) (q_avail q + 2) 2 = [0; 0] /\ snd s = mkDevice 0 [] 0.
Lemma fresh_rel s : fresh s -> rel s ([], []).
Proof.
  destruct s as [[drv h] d]. intros (F1 & F2 & F3 & F4 & F5 & F6 & F7). cbn [fst snd] in *. subst d. exists (mkSlots [] [] [] 0 0). split; [split; [done|split]|split].
  - eexists. split; [exact F2|]. done.
  - split; unfold busy; cbn [l_wait l_play l_back app fst snd]; [by rewrite F3, app_nil_r|by rewrite F4].
  - split; cbn [l_wait l_play l_back l_taken l_seen fst snd]; [|done| |done|constructor|constructor].
    + unfold avail_index, mval. by rewrite F6.
    + unfold used_at. by rewrite F5.
  - done.
Qed.
Definition writes_ok (e : event) : Prop := match e with EWrite pcm => bytes_ok pcm | _ => True end.
Lemma step_rel e s t : writes_ok e -> rel s t -> exists s', system_step q e s = (Ok (fst (spec_step e t)), s') /\ rel s' (snd (spec_step e t)).
Proof.
  destruct e as [pcm| |k]; intros Hw Hr; [by apply write_rel| |by apply finish_rel].
  pose proof (take_rel s t Hr) as Ht. destruct s as [st d]. eexists. split; [|exact Ht]. cbn [system_step fst snd]. destruct t as [[|w waiting] playing]; done.
Qed.
Lemma steps_rel es s t : Forall writes_ok es -> rel s t -> exists s', system_steps q es s = (Ok (fst (spec_steps es t)), s') /\ rel s' (snd (spec_steps es t)).
Proof.
  intros Hw. revert s t. induction Hw as [|e es He Hes IH]; intros s t Hr; cbn [system_steps spec_steps]; [by exists s|].
  destruct (step_rel e s t He Hr) as (s1 & -> & Hr1). destruct (spec_step e t) as [a t1]. cbn [fst snd] in *.
  destruct (IH s1 t1 Hr1) as (s2 & -> & Hr2). destruct (spec_steps es t1) as [l t2]. by exists s2.
Qed.
End pool.

(** C18: the sound driver is a queue of five periods.  Whatever the
    application writes and in whatever order the device takes requests off the
    available ring, finishes them and returns them in the used ring, over the
    wrap-around of both rings, no call raises and every answer is that of a
    queue with room for five periods: a write is refused exactly when five are
    waiting or playing, else it takes up to a period's worth; and what the
    device reads off the descriptors for a request is the data of that write,
    which no later write disturbs. *)
Theorem snd_is_bounded_queue {Dv : Type} `{Machine Dv} (u : Setup) (q : Vq) (hdr stat buf : Z -> Z) (s : @system Dv) (es : list event)
    (fit : pool_fit u q hdr stat buf) (Hfresh : fresh u q s) (Hbytes : Forall writes_ok es) :
  exists s', system_steps q es s = (Ok (fst (spec_steps es ([], []))), s').
Proof. destruct (steps_rel u q hdr stat buf fit es s ([], []) Hbytes (fresh_rel u q hdr stat buf s Hfresh)) as (s' & E & _). by exists s'. Qed.

(** A device that ignores its registers, and a driver after the probe. *)
Definition idle_machine : Machine unit := {|
  dev_claims a := (0x1000 <=? a) && (a <? 0x1200);
  dev_read _ d := (0, d);
  dev_write _ _ d m := (d, m);
  dev_run d m := (d, m);
  calloc _ _ := None;
|}.
Definition demo_q : Vq := mkVq 16 0x10000 0x10100 0x11000.
Definition demo_buf (s : Z) : Z := 0x20000 + s * 0x10000.
Definition demo_hdr (s : Z) : Z := 0x80000 + s * 16.
Definition demo_stat (s : Z) : Z := 0x90000 + s * 16.
Definition demo_setup : Setup := mkSetup 0x1000 2 0 0 (map demo_hdr (range 5)) (map demo_stat (range 5)) (map demo_buf (range 5)).
Definition demo_snd : VirtioMmioSound * Hw unit :=
  (mkSnd demo_setup None (Some (mkVirtQueue 0x10000 0x10100 0x11000 0 0 0)) (mkPool (range 5) [] 0 0 0 0 0), mkHw ∅ [] tt).
Lemma demo_fit : @pool_fit unit idle_machine demo_setup demo_q demo_hdr demo_stat demo_buf.
Proof.
  split; try done.
  - intros s Hs. unfold slot_in in Hs. assert (s = 0 \/ s = 1 \/ s = 2 \/ s = 3 \/ s = 4) as [-> | [-> | [-> | [-> | ->]]]] by lia; by vm_compute.
  - intros r Hr a Ha. cbn [dev_claims idle_machine]. destruct r; cbn [area fst snd placed] in *; unfold slot_in, demo_hdr, demo_stat, demo_buf, TX_PERIOD_BYTES in *;
      unfold q_end, demo_q in Ha; cbn [q_desc q_used q_num] in Ha; lia.
  - intros r Hr. destruct r; cbn [area fst snd placed] in *; unfold slot_in, demo_hdr, demo_stat, demo_buf in *; cbn [demo_q q_desc]; lia.
  - intros r r' Hr Hr' Hne. unfold apart. destruct r, r'; cbn [area fst snd placed] in *; try done; unfold slot_in, demo_hdr, demo_stat, demo_buf, TX_PERIOD_BYTES in *;
      unfold q_end, demo_q; cbn [q_desc q_used q_num]; try lia; assert (s <> s0) by congruence; lia.
Qed.

Lemma snd_is_bounded_queue_witness :
  let es := [EWrite [1; 2]; EWrite [3]; ETake; ETake; EFinish 1; EWrite [4; 5]; EFinish 0; EWrite []; ETake; EFinish 0] in
  exists s', @system_steps unit idle_machine demo_q es (demo_snd, mkDevice 0 [] 0) =
    (Ok [AWritten 2; AWritten 1; ANothing; ANothing; APlayed [3]; AWritten 2; APlayed [1; 2]; AWritten 0; ANothing; APlayed [4; 5]], s').
Proof.
  intros es. assert (Hes : Forall writes_ok es) by (repeat constructor; cbn; unfold byte_ok; try lia).
  assert (Hf : @fresh unit demo_setup demo_q (demo_snd, mkDevice 0 [] 0)) by done.
  exact (@snd_is_bounded_queue unit idle_machine demo_setup demo_q demo_hdr demo_stat demo_buf (demo_snd, mkDevice 0 [] 0) es demo_fit Hf Hes).
Defined.

(** ** The driver as the mixer's device *)

#[global] Instance snd_backend {Dv} `{Machine Dv} : Backend (VirtioMmioSound * Hw Dv) := {
  Sound.write_pcm := Snd.write_pcm;
  Sound.audio_metrics reset s := match Snd.audio_metrics reset s with (Ok d, s) => (d, s) | (Err _, s) => ([], s) end;
}.
(** It keeps its contract for pieces of a period or less: the instance depends
    on the layout, so it is given explicitly. *)
Definition snd_takes_periods {Dv} `{Machine Dv} (u : Setup) (q : Vq) (hdr stat buf : Z -> Z) (fit : pool_fit u q hdr stat buf) :
  TakesPeriods (VirtioMmioSound * Hw Dv).
Proof.
  refine {| bk_ok s := exists d t, rel u q hdr stat buf (s, d) t; max_period := TX_PERIOD_BYTES |}.
  intros pcm s (d & t & Hr) Hb Hlen. destruct (write_rel u q hdr stat buf fit pcm (s, d) t Hb Hr) as ([s1 d1] & E & Hr1).
  cbn [system_step] in E. cbn [Sound.write_pcm snd_backend]. destruct (Snd.write_pcm pcm s) as [[n|e] s2]; [|done].
  injection E as E -> ->. exists n, s1. split; [done|]. split; [by exists d1, (snd (spec_step (EWrite pcm) t))|].
  destruct t as [waiting playing]. cbn [spec_step] in E. destruct (_ || _); cbn [fst] in E; injection E as ->; [by right|left; lia].
Defined.
