(* ===== verification/SoundProps.v ===== *)
(** * A stream loses no sound

    The conversion of samples against a reference on frames, and the delivery
    of the periods of a stream to a device that takes a period whole or not at
    all.  A device that takes a part of a period shows what the contract is
    needed for. *)

From Stdlib Require Import ZArith Lia.
From stdpp Require Import base list numbers strings.
From S2P Require Import Prelude Bytes Pystr Dict Hw Snd SndProps SndPool Sound.

Local Open Scope Z_scope.

(** ** Samples *)

Lemma float_sample_range u : 0 <= u < 2 ^ 32 -> -32767 <= float_sample u <= 32767.
Proof.
  intros Hu. unfold float_sample. set (e := Z.shiftr u 23 mod 256). set (frac := u mod 2 ^ 23). cbv zeta.
  pose proof (Z.mod_pos_bound (Z.shiftr u 23) 256 ltac:(lia)). pose proof (Z.mod_pos_bound u (2 ^ 23) ltac:(lia)). fold e in H. fold frac in H0.
  destruct ((e =? 255) && negb (frac =? 0)); [lia|]. destruct (Z.leb_spec 127 e) as [He|He]; [destruct (Z.testbit u 31); lia|].
  set (m := if e =? 0 then frac else 2 ^ 23 + frac). set (k := if e =? 0 then 1 else e).
  assert (Hm : 0 <= m < 2 ^ 24) by (unfold m; destruct (e =? 0); lia). assert (Hk : 24 <= 150 - k) by (unfold k; destruct (e =? 0); lia).
  assert (Hd : 0 <= m * 32767 / 2 ^ (150 - k) <= 32767).
  { assert (2 ^ 24 <= 2 ^ (150 - k)) by (apply Z.pow_le_mono_r; lia). split; [apply Z.div_pos; lia|]. apply Z.div_le_upper_bound; nia. }
  destruct (Z.testbit u 31); lia.
Qed.
Lemma duplicate_len l : len (duplicate l) = 2 * len l.
Proof.
  assert (G : forall n l, (length l <= n)%nat -> len (duplicate l) = 2 * len l); [|by apply (G (length l))].
  clear l. induction n as [|n IH]; intros [|a [|b l]] Hl; cbn [length duplicate] in *; try done; try lia. rewrite !len_cons, IH by lia. lia.
Qed.
Lemma bytes_le_bytes n v : bytes_ok (le_bytes n v).
Proof. revert v. induction n as [|n IH]; intros v; cbn [le_bytes]; [constructor|]. constructor; [|apply IH]. unfold byte_ok. apply Z.mod_pos_bound. lia. Qed.
Lemma sample_twice v : bytes_ok (le_bytes 2 v ++ le_bytes 2 v).
Proof. unfold bytes_ok. apply Forall_app. split; apply bytes_le_bytes. Qed.
Lemma duplicate_ok l : bytes_ok l -> bytes_ok (duplicate l).
Proof.
  assert (G : forall n l, (length l <= n)%nat -> bytes_ok l -> bytes_ok (duplicate l)); [|by apply (G (length l))].
  clear l. unfold bytes_ok. induction n as [|n IH]; intros [|a [|b l]] Hl Hb; cbn [length duplicate] in *; try done; try lia.
  - repeat constructor; unfold byte_ok; lia.
  - apply Forall_cons in Hb as [Ha Hb]. apply Forall_cons in Hb as [Hb Hl']. repeat (constructor; [done|]). apply IH; [lia|done].
Qed.
Lemma stereo_ok samples channels fmt pcm : bytes_ok samples -> _to_int16_stereo samples channels fmt = Ok pcm -> bytes_ok pcm.
Proof.
  intros Hb. unfold _to_int16_stereo. destruct (beq fmt int16 && (channels =? 2)); [by intros [= <-]|].
  destruct (beq fmt int16 && (channels =? 1)); [intros [= <-]; by apply duplicate_ok|]. destruct (beq fmt float32); [|done].
  destruct (floats samples) as [fs|]; [|done]. cbn [rbind]. destruct (channels =? 1); intros [= <-]; apply Forall_concat, Forall_forall; intros x Hx;
    apply list_elem_of_In, in_map_iff in Hx as (v & <- & _); [exact (sample_twice (float_sample v))|exact (bytes_le_bytes 2 (float_sample v))].
Qed.

(** ** A device that keeps a record *)

(** Any device, with what it took. *)
Definition recorded (B : Type) : Type := B * bytes.
#[global] Instance recorded_backend {B} `{Backend B} : Backend (recorded B) := {
  write_pcm pcm s := match write_pcm pcm (fst s) with (Ok n, b) => (Ok n, (b, snd s ++ take (Z.to_nat n) pcm)) | (Err e, b) => (Err e, (b, snd s)) end;
  audio_metrics reset s := let (d, b) := audio_metrics reset (fst s) in (d, (b, snd s));
}.

(** ** Delivery *)

Section stream.
Context {B P : Type} `{TakesPeriods B} (produce : nat -> P -> result bytes * P).
Abbreviation mixer := (@Mixer (recorded B) P).

(** The first [n] periods of a producer, when it does not raise. *)
Fixpoint periods (i : nat) (n : nat) (p : P) : option (list bytes * P) :=
  match n with
  | O => Some ([], p)
  | S n => match periods i n p with
           | Some (l, p) => match produce i p with (Ok data, p) => Some (l ++ [data], p) | (Err _, _) => None end
           | None => None
           end
  end.
(** Time for the device between two calls. *)
Definition let_run (f : B -> B) : M mixer unit :=
  modify (fun w => set_backend (match mx_backend w with Some (b, l) => Some (f b, l) | None => None end) w).
Fixpoint pumps (i : nat) (fs : list (B -> B)) : M mixer (list bool) :=
  match fs with
  | [] => ret []
  | f :: fs => let_run f ;;; let! ok := pump produce i in let! oks := pumps i fs in ret (ok :: oks)
  end.

Definition converted (s : PCMStream) (data : bytes) : bytes :=
  match _to_int16_stereo data (st_channels s) (st_fmt s) with Ok pcm => pcm | Err _ => [] end.
(** A period fits the device. *)
Definition fits_device (s : PCMStream) (data : bytes) : Prop :=
  bytes_ok data /\ exists pcm, _to_int16_stereo data (st_channels s) (st_fmt s) = Ok pcm /\ 0 < len pcm <= max_period.
Lemma fits_converted s data : fits_device s data -> _to_int16_stereo data (st_channels s) (st_fmt s) = Ok (converted s data) /\
  bytes_ok (converted s data) /\ 0 < len (converted s data) <= max_period.
Proof.
  intros (Hb & pcm & E & Hl). unfold converted. rewrite E. split_and!; [done| |lia|lia]. by apply (stereo_ok data (st_channels s) (st_fmt s)).
Qed.

(** The stream and the device after [ds] were produced: the device has all of
    them but the pending one. *)
Record ledger (s0 s : PCMStream) (ds : list bytes) (log : bytes) : Prop := {
  lg_channels : st_channels s = st_channels s0;
  lg_fmt : st_fmt s = st_fmt s0;
  lg_running : st_running s = true;
  lg_produced : st_produced_periods s = len ds;
  lg_log : match st_pending s with
    | None => log = concat (map (converted s0) ds) /\ st_accepted_periods s = len ds
    | Some d => exists ds', ds = ds' ++ [d] /\ log = concat (map (converted s0) ds') /\ st_accepted_periods s = len ds'
    end;
  lg_bytes : st_accepted_bytes s = len log;
}.
Definition delivered (i : nat) (s0 : PCMStream) (p0 : P) (base : bytes) (ds : list bytes) (w : mixer) : Prop :=
  periods i (length ds) p0 = Some (ds, mx_prod w) /\ Forall (fits_device s0) ds /\
  exists s log b, mx_streams w !! i = Some s /\ mx_backend w = Some (b, base ++ log) /\ bk_ok b /\ ledger s0 s ds log.

Lemma stream_at i s (w : mixer) : mx_streams w !! i = Some s -> stream i w = (Ok s, w).
Proof. intros E. unfold stream. by rewrite E. Qed.
Lemma play_fits d s0 s l b (w : mixer) : st_channels s = st_channels s0 -> st_fmt s = st_fmt s0 -> fits_device s0 d -> mx_backend w = Some (b, l) -> bk_ok b ->
  exists n b', (n = len (converted s0 d) \/ n = 0) /\ bk_ok b' /\
    play_pcm d (st_channels s) (st_rate s) (st_fmt s) (lit "stream") w =
      (Ok n, set_consumed (mx_bytes_consumed w + n) (set_backend (Some (b', l ++ (if n =? 0 then [] else converted s0 d))) w)).
Proof.
  intros Ec Ef Hfit Eb Hb. destruct (fits_converted s0 d Hfit) as (E1 & E2 & E3). destruct (write_period (converted s0 d) b Hb E2 E3) as (n & b' & E & Hb' & Hn).
  exists n, b'. split; [done|]. split; [done|]. unfold play_pcm. erewrite bind_step by reflexivity. rewrite Eb. erewrite bind_step by reflexivity.
  change (beq (lit "stream") (lit "chipset")) with false. cbn [andb]. rewrite Ec, Ef, E1. erewrite bind_step by reflexivity.
  unfold write_backend at 1. erewrite bind_step.
  2:{ rewrite Eb. cbn [write_pcm recorded_backend fst snd]. rewrite E. reflexivity. }
  erewrite bind_step by reflexivity. unfold ret. cbn [mx_bytes_consumed set_backend]. do 4 f_equal.
  destruct Hn as [->| ->]; [|done]. destruct (Z.eqb_spec (len (converted s0 d)) 0); [lia|]. f_equal. unfold len. rewrite Nat2Z.id, take_ge by lia. done.
Qed.
Lemma streams_alter i f (w : mixer) s : mx_streams w !! i = Some s -> alter f i (mx_streams w) !! i = Some (f s).
Proof. intros E. by rewrite list_lookup_alter_eq, E. Qed.
(** A pending period is offered, and gone or still there. *)
Lemma offer_ok i s0 s ds d log b base (w : mixer) : mx_streams w !! i = Some s -> mx_backend w = Some (b, base ++ log) -> bk_ok b ->
  Forall (fits_device s0) ds -> ledger s0 s ds log -> st_pending s = Some d ->
  exists ok w', offer i w = (Ok ok, w') /\ mx_prod w' = mx_prod w /\
    exists s' log' b', mx_streams w' !! i = Some s' /\ mx_backend w' = Some (b', base ++ log') /\ bk_ok b' /\ ledger s0 s' ds log'.
Proof.
  intros Es Eb Hb HF [L1 L2 L3 L4 L5 L6] Ep. rewrite Ep in L5. destruct L5 as (ds' & -> & -> & L5).
  assert (Hd : fits_device s0 d) by (by apply Forall_app in HF as [_ [Hd _]%Forall_cons]).
  destruct (play_fits d s0 s _ b w L1 L2 Hd Eb Hb) as (n & b' & Hn & Hb' & Epl). destruct (fits_converted s0 d Hd) as (_ & _ & Hl).
  unfold offer. rewrite (bind_step _ _ _ _ _ (stream_at i s w Es)), Ep. cbn [default]. rewrite (bind_step _ _ _ _ _ Epl).
  destruct (Z.eqb_spec n 0) as [->|Hne]; cbn [negb].
  - eexists _, _. split; [reflexivity|]. split; [done|]. eexists _, _, b'. cbn [mx_streams set_streams set_consumed set_backend mx_backend]. split; [by apply streams_alter|].
    split; [by rewrite app_nil_r|]. split; [done|]. split; cbn [st_channels st_fmt st_running st_produced_periods st_pending st_accepted_periods st_accepted_bytes set_counts]; try done.
    rewrite Ep. by exists ds'.
  - eexists _, _. split; [reflexivity|]. split; [done|]. eexists _, (concat (map (converted s0) (ds' ++ [d]))), b'. cbn [mx_streams set_streams set_consumed set_backend mx_backend].
    split; [by apply streams_alter|]. split; [by rewrite map_app, concat_app; cbn [map concat]; rewrite app_nil_r, app_assoc|]. split; [done|].
    split; cbn [st_channels st_fmt st_running st_produced_periods st_pending st_accepted_periods st_accepted_bytes set_counts set_pending set_run]; try done.
    + split; [done|]. rewrite L5, len_snoc. done.
    + rewrite L6, map_app, concat_app, len_app. cbn [map concat]. rewrite app_nil_r. destruct Hn; lia.
Qed.

Context (i : nat) (s0 : PCMStream) (p0 : P) (base : bytes).
Context (producer : forall p, exists data p', produce i p = (Ok data, p') /\ fits_device s0 data).

Lemma pump_ok ds w : delivered i s0 p0 base ds w -> exists ok ds' w', pump produce i w = (Ok ok, w') /\ delivered i s0 p0 base ds' w'.
Proof.
  intros (Hp & HF & s & log & b & Es & Eb & Hb & Hl). unfold pump. rewrite (bind_step _ _ _ _ _ (stream_at i s w Es)), (lg_running _ _ _ _ Hl).
  unfold _submit. rewrite (bind_step _ _ _ _ _ (stream_at i s w Es)). destruct (st_pending s) as [d|] eqn:Ep.
  - erewrite bind_step by reflexivity. cbn [negb]. destruct (offer_ok i s0 s ds d log b base w Es Eb Hb HF Hl Ep) as (ok & w' & -> & Epr & H').
    exists ok, ds, w'. split; [done|]. split; [by rewrite Epr|]. by split.
  - destruct (producer (mx_prod w)) as (data & p' & Epd & Hfit). destruct Hl as [L1 L2 L3 L4 L5 L6]. rewrite Ep in L5. destruct L5 as [-> L5].
    set (g := fun s => set_pending (Some data) (set_counts (st_produced_periods s + 1) (st_accepted_periods s) (st_backpressure s) (st_produced_bytes s + len data) (st_accepted_bytes s) s)).
    set (s1 := g s). set (w1 := set_streams (alter g i (mx_streams w)) (set_prod p' w)).
    assert (Ef : fetch produce i w = (Ok true, w1)).
    { unfold fetch. erewrite bind_step by (rewrite Epd; reflexivity). reflexivity. }
    rewrite (bind_step _ _ _ _ _ Ef). cbn [negb].
    assert (HF' : Forall (fits_device s0) (ds ++ [data])) by (apply Forall_app; split; [done|by constructor]).
    assert (Hl' : ledger s0 s1 (ds ++ [data]) (concat (map (converted s0) ds))).
    { split; unfold s1, g; cbn [st_channels st_fmt st_running st_produced_periods st_pending st_accepted_periods st_accepted_bytes set_counts set_pending set_run]; try done; [by rewrite len_snoc, L4|by exists ds]. }
    destruct (offer_ok i s0 s1 (ds ++ [data]) data (concat (map (converted s0) ds)) b base w1) as (ok & w' & -> & Epr & H'); [exact (streams_alter i g w s Es)|done..|].
    exists ok, (ds ++ [data]), w'. split; [done|]. split; [|by split].
    rewrite Epr. unfold w1. cbn [mx_prod set_streams set_prod]. replace (length (ds ++ [data])) with (S (length ds)) by (rewrite length_app; cbn; lia).
    cbn [periods]. by rewrite Hp, Epd.
Qed.
Lemma pumps_ok fs ds w : Forall (fun f => forall b, bk_ok b -> bk_ok (f b)) fs -> delivered i s0 p0 base ds w ->
  exists oks ds' w', pumps i fs w = (Ok oks, w') /\ length oks = length fs /\ delivered i s0 p0 base ds' w'.
Proof.
  intros Hf. revert ds w. induction Hf as [|f fs Hf Hfs IH]; intros ds w Hd; cbn [pumps]; [by exists [], ds, w|].
  assert (Hd1 : exists w1, let_run f w = (Ok tt, w1) /\ delivered i s0 p0 base ds w1).
  { destruct Hd as (Hp & HF & s & log & b & Es & Eb & Hb & Hl). exists (set_backend (Some (f b, base ++ log)) w). split; [unfold let_run, modify; unfold recorded in Eb; by rewrite Eb|].
    split; [done|]. split; [done|]. exists s, log, (f b). split_and!; [done|done|by apply Hf|done]. }
  destruct Hd1 as (w1 & E1 & Hd1). rewrite (bind_step _ _ _ _ _ E1). destruct (pump_ok ds w1 Hd1) as (ok & ds2 & w2 & E2 & Hd2).
  rewrite (bind_step _ _ _ _ _ E2). destruct (IH ds2 w2 Hd2) as (oks & ds3 & w3 & E3 & Hlen & Hd3). rewrite (bind_step _ _ _ _ _ E3).
  eexists _, ds3, w3. split; [reflexivity|]. split; [cbn [length]; by rewrite Hlen|done].
Qed.
End stream.

(** C19: a stream loses no sound.  On a device that takes periods whole or not
    at all, whatever it does between the calls and however often it refuses,
    pumping a stream never raises, and the device is handed exactly the
    periods of the producer, converted, in the order they were produced, each
    once; at most the last one is still pending, and the stream's counters
    are the numbers of periods and bytes that arrived. *)
Theorem stream_delivers_in_order {B P : Type} `{TakesPeriods B} (produce : nat -> P -> result bytes * P) (i : nat) (s : PCMStream)
    (w : @Mixer (recorded B) P) (b : B) (fs : list (B -> B))
    (Hs : mx_streams w !! i = Some s) (Hrun : st_running s = true) (Hnew : st_pending s = None)
    (Hcounts : st_produced_periods s = 0 /\ st_accepted_periods s = 0 /\ st_accepted_bytes s = 0)
    (Hb : mx_backend w = Some (b, [])) (Hok : bk_ok b)
    (Hproducer : forall p, exists data p', produce i p = (Ok data, p') /\ fits_device s data)
    (Hfs : Forall (fun f => forall b, bk_ok b -> bk_ok (f b)) fs) :
  exists oks w' s' b' log ds pending, pumps produce i fs w = (Ok oks, w') /\ length oks = length fs /\
    periods produce i (length (ds ++ pending)) (mx_prod w) = Some (ds ++ pending, mx_prod w') /\ (length pending <= 1)%nat /\
    mx_backend w' = Some (b', log) /\ log = concat (map (converted s) ds) /\
    mx_streams w' !! i = Some s' /\ st_pending s' = head pending /\
    st_produced_periods s' = len (ds ++ pending) /\ st_accepted_periods s' = len ds /\ st_accepted_bytes s' = len log.
Proof.
  assert (Hd : delivered produce i s (mx_prod w) [] [] w).
  { split; [done|]. split; [constructor|]. exists s, [], b. split_and!; [done..|]. destruct Hcounts as (C1 & C2 & C3). split; try done. by rewrite Hnew. }
  destruct (pumps_ok produce i s (mx_prod w) [] Hproducer fs [] w Hfs Hd) as (oks & ds' & w' & E & Hlen & Hp & _ & s' & log & b' & Es & Eb & _ & [_ _ _ L4 L5 L6]).
  destruct (st_pending s') as [d|] eqn:Ep.
  - destruct L5 as (ds & -> & -> & L5). exists oks, w', s', b', (concat (map (converted s) ds)), ds, [d]. split_and!; done.
  - destruct L5 as [-> L5]. exists oks, w', s', b', (concat (map (converted s) ds')), ds', []. rewrite app_nil_r. split_and!; cbn [length]; done || lia.
Qed.

(** ** Witness: the sound driver under the mixer *)

Definition demo_device : Type := VirtioMmioSound * Hw unit.
#[local] Instance demo_machine : Machine unit := idle_machine.
#[local] Instance demo_takes : TakesPeriods demo_device := snd_takes_periods demo_setup demo_q demo_hdr demo_stat demo_buf demo_fit.
Definition demo_produce (_ : nat) (p : Z) : result bytes * Z := (Ok [p mod 256; 0], p + 1).
Definition demo_stream : PCMStream := PCMStream_init 1 None int16 20000 4 false 0 1000.
Definition demo_mixer : @Mixer (recorded demo_device) Z := mkMixer (Some (demo_snd, [])) 0 (Some 0%nat) [] [demo_stream] 5.

Lemma demo_device_ok : bk_ok demo_snd.
Proof. exists (mkDevice 0 [] 0), ([], []). apply fresh_rel. done. Qed.
Lemma demo_fits p : exists data p', demo_produce 0 p = (Ok data, p') /\ fits_device (B := demo_device) demo_stream data.
Proof.
  eexists _, _. split; [reflexivity|]. pose proof (Z.mod_pos_bound p 256 ltac:(lia)). split; [unfold bytes_ok, byte_ok; apply Forall_cons; split; [lia|]; apply Forall_cons; split; [lia|]; apply Forall_nil; done|].
  exists [p mod 256; 0; p mod 256; 0]. split; [reflexivity|]. change (0 < 4 <= TX_PERIOD_BYTES). unfold TX_PERIOD_BYTES. lia.
Qed.
Lemma stream_delivers_in_order_witness :
  exists oks w' s' b' log ds pending, pumps demo_produce 0 [id; id; id] demo_mixer = (Ok oks, w') /\ length oks = 3%nat /\
    periods demo_produce 0 (length (ds ++ pending)) 5 = Some (ds ++ pending, mx_prod w') /\ (length pending <= 1)%nat /\
    mx_backend w' = Some (b', log) /\ log = concat (map (converted demo_stream) ds) /\
    mx_streams w' !! 0%nat = Some s' /\ st_pending s' = head pending /\
    st_produced_periods s' = len (ds ++ pending) /\ st_accepted_periods s' = len ds /\ st_accepted_bytes s' = len log.
Proof.
  assert (Hid : Forall (fun f : demo_device -> demo_device => forall b, bk_ok b -> bk_ok (f b)) [id; id; id]) by (repeat constructor; intros b Hb; exact Hb).
  exact (stream_delivers_in_order demo_produce 0 demo_stream demo_mixer demo_snd [id; id; id] eq_refl eq_refl eq_refl (conj eq_refl (conj eq_refl eq_refl))
    eq_refl demo_device_ok demo_fits Hid).
Defined.

(** ** Without the contract, and without one thread *)

(** A device that takes two bytes at a time. *)
Definition two_bytes : Type := bytes.
#[local] Instance two_backend : Backend two_bytes := {
  write_pcm pcm b := (Ok (Z.min 2 (len pcm)), b ++ take 2 pcm);
  audio_metrics _ b := ([], b);
}.
Definition count_up (_ : nat) (p : Z) : result bytes * Z := (Ok [p; p + 1; p + 2; p + 3], p + 4).
Definition stereo_stream : PCMStream := PCMStream_init 2 None int16 20000 1 true 0 1000.
Definition two_mixer : @Mixer two_bytes Z := mkMixer (Some []) 0 (Some 0%nat) [] [stereo_stream] 1.
(** A partially accepted period counts as delivered: its rest is dropped. *)
Example partial_period_lost :
  fst ((let! _ := pump count_up 0 in let! _ := pump count_up 0 in gets mx_backend) two_mixer) = Ok (Some [1; 2; 5; 6]).
Proof. reflexivity. Qed.
(** A stream stopped while its worker waits submits one more period. *)
Example stopped_stream_plays_on :
  fst ((let! k := _run count_up 0 AtLoop in stop 7 ;;; let! _ := _run count_up 0 k in gets (fun w => (mx_stream w, mx_backend w))) two_mixer) = Ok (None, Some [1; 2]).
Proof. reflexivity. Qed.
(** The bytes produced are counted before the conversion, those accepted
    after it. *)
Example bytes_before_and_after :
  fst ((let! _ := pump demo_produce 0 in gets (fun w => map (fun s => (st_produced_bytes s, st_accepted_bytes s)) (mx_streams w))) demo_mixer) = Ok [(2, 4)].
Proof. vm_compute. reflexivity. Qed.
