(* ===== verification/Input.v ===== *)
(** * Input devices (kernel/drivers/mouse.py, kernel/drivers/keyboard.py, kernel/gui/input.py)

    The PS/2 mouse and keyboard drivers, which run in interrupt context and
    call their subscribers, and the bridges that subscribe to them and post
    events for the GUI.  Port accesses are the class [Ports]; a subscriber is a
    value of [C] and calling it is [call]; what it raises is swallowed. *)

From Stdlib Require Import ZArith Lia.
From stdpp Require Import base list numbers strings.
From S2P Require Import Prelude Bytes Pystr Dict.

Local Open Scope Z_scope.

Class Ports (W : Type) : Type := {
  inb : Z -> M W Z;
  outb : Z -> Z -> M W unit;
}.

Definition PS2_DATA : Z := 0x60.
Definition PS2_STATUS : Z := 0x64.
Definition PS2_CMD : Z := 0x64.
Definition PIC_MASTER_MASK : Z := 0x21.
Definition PIC_SLAVE_MASK : Z := 0xA1.
Definition CMD_ENABLE_AUX : Z := 0xA8.
Definition CMD_READ_CONFIG : Z := 0x20.
Definition CMD_WRITE_CONFIG : Z := 0x60.
Definition CMD_WRITE_TO_MOUSE : Z := 0xD4.
Definition MOUSE_CMD_SET_DEFAULTS : Z := 0xF6.
Definition MOUSE_CMD_ENABLE_REPORT : Z := 0xF4.
Definition STATUS_OUTPUT_FULL : Z := 0x01.
Definition STATUS_INPUT_FULL : Z := 0x02.
Definition STATUS_FROM_AUX : Z := 0x20.
Definition PKT_LBTN : Z := 0x01.
Definition PKT_RBTN : Z := 0x02.
Definition PKT_MBTN : Z := 0x04.
Definition PKT_X_SIGN : Z := 0x10.
Definition PKT_Y_SIGN : Z := 0x20.

(** [bool(x & mask)] *)
Definition has (x mask : Z) : bool := negb (Z.land x mask =? 0).

(** Calling every subscriber, whatever the others do. *)
Section notify.
Context {W C E : Type} (call : C -> E -> M W unit).
Definition notify (subs : list C) (ev : E) : M W unit :=
  for_each subs (fun cb => try_except (call cb ev) (fun _ => ret tt)).
End notify.

(** ** The mouse *)

Record MouseEvent : Type := mkMouseEvent {
  me_dx : Z; me_dy : Z; me_lbtn : bool; me_rbtn : bool; me_mbtn : bool; me_button_changed : Z; me_pressed : bool;
}.

Record MouseDriver (C : Type) : Type := mkMouse {
  ms_initialized : bool; ms_buf : list Z; ms_lbtn : bool; ms_rbtn : bool; ms_mbtn : bool; ms_subscribers : list C;
}.
Arguments mkMouse {C}.
Arguments ms_initialized {C} _. Arguments ms_buf {C} _. Arguments ms_lbtn {C} _. Arguments ms_rbtn {C} _.
Arguments ms_mbtn {C} _. Arguments ms_subscribers {C} _.
Definition MouseDriver_init {C} : MouseDriver C := mkMouse false [] false false false [].
Definition mouse_subscribe {C} (cb : C) (d : MouseDriver C) : MouseDriver C :=
  mkMouse (ms_initialized d) (ms_buf d) (ms_lbtn d) (ms_rbtn d) (ms_mbtn d) (ms_subscribers d ++ [cb]).
Definition set_buf {C} (b : list Z) (d : MouseDriver C) : MouseDriver C :=
  mkMouse (ms_initialized d) b (ms_lbtn d) (ms_rbtn d) (ms_mbtn d) (ms_subscribers d).
Definition set_buttons {C} (l r m : bool) (d : MouseDriver C) : MouseDriver C :=
  mkMouse (ms_initialized d) (ms_buf d) l r m (ms_subscribers d).
Definition set_initialized {C} (d : MouseDriver C) : MouseDriver C :=
  mkMouse true (ms_buf d) (ms_lbtn d) (ms_rbtn d) (ms_mbtn d) (ms_subscribers d).

Section controller.
Context {W : Type} `{Ports W}.

(** [for _ in range(timeout): if the bit has the value: return True] *)
Fixpoint wait_status (timeout : nat) (mask : Z) (want : bool) : M W bool :=
  match timeout with
  | O => ret false
  | S t => let! st := inb PS2_STATUS in if Bool.eqb (has st mask) want then ret true else wait_status t mask want
  end.
Definition timeout_default : nat := Z.to_nat 100000.
Definition _wait_writable : M W bool := wait_status timeout_default STATUS_INPUT_FULL false.
Definition _wait_readable : M W bool := wait_status timeout_default STATUS_OUTPUT_FULL true.

Definition _ctrl_send (cmd : Z) : M W unit :=
  let! ok := _wait_writable in if ok : bool then outb PS2_CMD cmd else ret tt.
Definition _data_send (value : Z) : M W unit :=
  let! ok := _wait_writable in if ok : bool then outb PS2_DATA value else ret tt.
Definition _data_recv (dflt : Z) : M W Z :=
  let! ok := _wait_readable in if ok : bool then inb PS2_DATA else ret dflt.
Definition _mouse_send (value : Z) : M W Z :=
  _ctrl_send CMD_WRITE_TO_MOUSE ;;; _data_send value ;;; _data_recv 0.
Definition _unmask_irq12 : M W unit :=
  let! s := inb PIC_SLAVE_MASK in outb PIC_SLAVE_MASK (Z.land s (Z.lnot 0x10)) ;;;
  let! m := inb PIC_MASTER_MASK in outb PIC_MASTER_MASK (Z.land m (Z.lnot 0x04)).

Fixpoint drain (n : nat) : M W unit :=
  match n with
  | O => ret tt
  | S n => let! st := inb PS2_STATUS in
           if has st STATUS_OUTPUT_FULL then (let! _ := inb PS2_DATA in drain n) else ret tt
  end.
End controller.

Section mouse.
Context {W C : Type} `{Ports W} (call : C -> MouseEvent -> M W unit).
Abbreviation io := (M (MouseDriver C * W)).
Definition on_w {A} (m : M W A) : io A := zoom snd (fun w s => (fst s, w)) m.
Definition mouse_set (f : MouseDriver C -> MouseDriver C) : io unit := modify (fun s => (f (fst s), snd s)).

Definition mouse_init : io bool :=
  let! d := gets fst in
  if ms_initialized d then ret true else
  on_w (drain 16) ;;;
  on_w (_ctrl_send CMD_ENABLE_AUX) ;;;
  on_w (_ctrl_send CMD_READ_CONFIG) ;;;
  let! cfg := on_w (_data_recv 0) in
  let cfg := Z.land (Z.lor cfg (Z.shiftl 1 1)) (Z.lnot (Z.shiftl 1 5)) in
  on_w (_ctrl_send CMD_WRITE_CONFIG) ;;;
  on_w (_data_send cfg) ;;;
  let! _ := on_w (_mouse_send MOUSE_CMD_SET_DEFAULTS) in
  let! _ := on_w (_mouse_send MOUSE_CMD_ENABLE_REPORT) in
  on_w _unmask_irq12 ;;;
  mouse_set set_initialized ;;;
  ret true.

(** A complete packet. *)
Definition packet (b0 b1 b2 : Z) : io unit :=
  mouse_set (set_buf []) ;;;
  if negb (has b0 0x08) then ret tt else
  let dx := if has b0 PKT_X_SIGN then b1 - 256 else b1 in
  let dy := if has b0 PKT_Y_SIGN then b2 - 256 else b2 in
  let dy := - dy in
  let '(new_l, new_r, new_m) := (has b0 PKT_LBTN, has b0 PKT_RBTN, has b0 PKT_MBTN) in
  let! d := gets fst in
  (if negb (dx =? 0) || negb (dy =? 0)
   then on_w (notify call (ms_subscribers d) (mkMouseEvent dx dy new_l new_r new_m 0 false)) else ret tt) ;;;
  for_each [(PKT_LBTN, ms_lbtn d, new_l); (PKT_RBTN, ms_rbtn d, new_r); (PKT_MBTN, ms_mbtn d, new_m)]
    (fun '(mask, was, now) =>
       if negb (Bool.eqb was now)
       then on_w (notify call (ms_subscribers d) (mkMouseEvent 0 0 new_l new_r new_m mask now)) else ret tt) ;;;
  mouse_set (set_buttons new_l new_r new_m).

Definition mouse_handle_irq : io unit :=
  let! st := on_w (inb PS2_STATUS) in
  if negb (has st STATUS_OUTPUT_FULL) || negb (has st STATUS_FROM_AUX) then ret tt else
  let! b := on_w (inb PS2_DATA) in
  let! d := gets fst in
  let buf := ms_buf d ++ [b] in
  mouse_set (set_buf buf) ;;;
  if len buf <? 3 then ret tt else
  match buf with
  | [b0; b1; b2] => packet b0 b1 b2
  | _ => raise ValueError
  end.
End mouse.

(** ** The keyboard *)

(** [_SCANCODE_MAP]: the unshifted and the shifted name. *)
Definition plain_row (first : Z) (keys shifted : string) (sc : Z) : option (str * str) :=
  match lit keys !! Z.to_nat (sc - first), lit shifted !! Z.to_nat (sc - first) with
  | Some k, Some s => if sc <? first then None else Some ([k], [s])
  | _, _ => None
  end.
Definition named (sc : Z) : option str :=
  if sc =? 0x01 then Some (lit "esc") else if sc =? 0x0E then Some (lit "backspace") else if sc =? 0x0F then Some (lit "tab")
  else if sc =? 0x1C then Some [10] else if sc =? 0x1D then Some (lit "lctrl") else if sc =? 0x2A then Some (lit "lshift")
  else if sc =? 0x36 then Some (lit "rshift") else if sc =? 0x37 then Some (lit "*") else if sc =? 0x38 then Some (lit "lalt")
  else if sc =? 0x39 then Some (lit " ") else if sc =? 0x3A then Some (lit "capslock") else if sc =? 0x48 then Some (lit "up")
  else if sc =? 0x50 then Some (lit "down") else if sc =? 0x4B then Some (lit "left") else if sc =? 0x4D then Some (lit "right")
  else if sc =? 0x53 then Some (lit "delete") else None.
Definition scancode (sc : Z) : option (str * str) :=
  match named sc with
  | Some k => Some (k, k)
  | None =>
      if (0x02 <=? sc) && (sc <=? 0x0D) then plain_row 0x02 "1234567890-=" "!@#$%^&*()_+" sc
      else if (0x10 <=? sc) && (sc <=? 0x1B) then plain_row 0x10 "qwertyuiop[]" "QWERTYUIOP{}" sc
      else if (0x1E <=? sc) && (sc <=? 0x29) then
        (if sc =? 0x28 then Some ([39], [34]) else plain_row 0x1E "asdfghjkl;'`" "ASDFGHJKL:'~" sc)
      else if (0x2B <=? sc) && (sc <=? 0x35) then plain_row 0x2B "\zxcvbnm,./" "|ZXCVBNM<>?" sc
      else None
  end.

Record KeyEvent : Type := mkKeyEvent {
  ke_scancode : Z; ke_key : str; ke_char : str; ke_pressed : bool; ke_shift : bool; ke_ctrl : bool; ke_alt : bool;
}.

Record KeyboardDriver (C : Type) : Type := mkKeyboard {
  kb_queue : list KeyEvent; kb_shift : bool; kb_ctrl : bool; kb_alt : bool; kb_capslock : bool; kb_subscribers : list C;
}.
Arguments mkKeyboard {C}.
Arguments kb_queue {C} _. Arguments kb_shift {C} _. Arguments kb_ctrl {C} _. Arguments kb_alt {C} _.
Arguments kb_capslock {C} _. Arguments kb_subscribers {C} _.
Definition KeyboardDriver_init {C} : KeyboardDriver C := mkKeyboard [] false false false false [].
Definition set_mods {C} (sh ct al ca : bool) (k : KeyboardDriver C) : KeyboardDriver C :=
  mkKeyboard (kb_queue k) sh ct al ca (kb_subscribers k).
Definition set_queue {C} (q : list KeyEvent) (k : KeyboardDriver C) : KeyboardDriver C :=
  mkKeyboard q (kb_shift k) (kb_ctrl k) (kb_alt k) (kb_capslock k) (kb_subscribers k).
Definition key_subscribe {C} (cb : C) (k : KeyboardDriver C) : KeyboardDriver C :=
  mkKeyboard (kb_queue k) (kb_shift k) (kb_ctrl k) (kb_alt k) (kb_capslock k) (kb_subscribers k ++ [cb]).

(** The queue is [asyncio.Queue(maxsize=256)]: [put_nowait] of a full one
    raises [QueueFull], which the driver drops. *)
Definition queue_max : Z := 256.

(** The scan code's effect on the modifiers, or the event it makes. *)
Definition key_step {C} (sc : Z) (k : KeyboardDriver C) : KeyboardDriver C * option KeyEvent :=
  let released := has sc 0x80 in
  let make_code := Z.land sc 0x7F in
  match scancode make_code with
  | None => (k, None)
  | Some (key_unshifted, key_shifted) =>
      let key := key_unshifted in
      if beq key (lit "lshift") || beq key (lit "rshift") then (set_mods (negb released) (kb_ctrl k) (kb_alt k) (kb_capslock k) k, None)
      else if beq key (lit "lctrl") then (set_mods (kb_shift k) (negb released) (kb_alt k) (kb_capslock k) k, None)
      else if beq key (lit "lalt") then (set_mods (kb_shift k) (kb_ctrl k) (negb released) (kb_capslock k) k, None)
      else if beq key (lit "capslock") && negb released
      then (set_mods (kb_shift k) (kb_ctrl k) (kb_alt k) (negb (kb_capslock k)) k, None)
      else
        let shifted := xorb (kb_shift k) (kb_capslock k) in
        let char_str := if shifted then key_shifted else key_unshifted in
        let char := if len char_str =? 1 then char_str else [] in
        let event := mkKeyEvent make_code key_unshifted char (negb released) (kb_shift k) (kb_ctrl k) (kb_alt k) in
        (set_queue (if queue_max <=? len (kb_queue k) then kb_queue k else kb_queue k ++ [event]) k, Some event)
  end.

Section keyboard.
Context {W C : Type} `{Ports W} (call : C -> KeyEvent -> M W unit).
Abbreviation io := (M (KeyboardDriver C * W)).

Definition key_init : io unit :=
  zoom snd (fun w s => (fst s, w)) (let! mask := inb PIC_MASTER_MASK in outb PIC_MASTER_MASK (Z.land mask (Z.lnot 0x02))).

Definition key_handle_irq : io unit := fun s =>
  match inb PS2_DATA (snd s) with
  | (Err e, w) => (Err e, (fst s, w))
  | (Ok sc, w) =>
      let (k, ev) := key_step sc (fst s) in
      match ev with
      | None => (Ok tt, (k, w))
      | Some ev => let (r, w') := notify call (kb_subscribers k) ev w in (r, (k, w'))
      end
  end.
End keyboard.

(** [read] of a non-empty queue, and [read_char]: the events up to the first
    typed character are consumed; [None] is a reader that waits. *)
Fixpoint read_char (q : list KeyEvent) : option str * list KeyEvent :=
  match q with
  | [] => (None, [])
  | ev :: q' => if ke_pressed ev && negb (beq (ke_char ev) []) then (Some (ke_char ev), q') else read_char q'
  end.

(** ** The GUI's events *)

Definition EVENT_KEY_DOWN : Z := 1.
Definition EVENT_KEY_UP : Z := 2.
Definition MOUSE_MOVE : Z := 3.
Definition MOUSE_DOWN : Z := 4.
Definition MOUSE_UP : Z := 5.
Definition MOUSE_WHEEL : Z := 6.
Definition HOST_FILE_DROP : Z := 7.
Definition QUIT : Z := 100.
Definition MOD_SHIFT : Z := 1.
Definition MOD_CTRL : Z := 2.
Definition MOD_ALT : Z := 4.
Definition MOD_META : Z := 8.
Definition MOD_CAPS : Z := 16.
Definition KEY_BACKSPACE : Z := 8.
Definition KEY_TAB : Z := 9.
Definition KEY_ENTER : Z := 13.
Definition KEY_ESC : Z := 27.
Definition KEY_SPACE : Z := 32.
Definition KEY_LSHIFT : Z := 0xA0.
Definition KEY_RSHIFT : Z := 0xA1.
Definition KEY_LCTRL : Z := 0xA2.
Definition KEY_RCTRL : Z := 0xA3.
Definition KEY_LALT : Z := 0xA4.
Definition KEY_RALT : Z := 0xA5.
Definition KEY_CAPS_LOCK : Z := 0xA6.
(** [KEY_F1] to [KEY_F12] *)
Definition KEY_F (n : Z) : Z := 0xB0 + n.
Definition KEY_UP : Z := 0xC0.
Definition KEY_DOWN : Z := 0xC1.
Definition KEY_LEFT : Z := 0xC2.
Definition KEY_RIGHT : Z := 0xC3.
Definition KEY_HOME : Z := 0xC4.
Definition KEY_END : Z := 0xC5.
Definition KEY_PAGE_UP : Z := 0xC6.
Definition KEY_PAGE_DOWN : Z := 0xC7.
Definition KEY_DELETE : Z := 0xC8.

Record Event : Type := mkEvent {
  ev_kind : Z; ev_code : Z; ev_text : str; ev_mods : Z; ev_x : Z; ev_y : Z; ev_dx : Z; ev_dy : Z;
  ev_name : str; ev_token : Z; ev_size : Z;
}.
(** An event with no file. *)
Definition plain_event (kind code : Z) (text : str) (mods x y dx dy : Z) : Event :=
  mkEvent kind code text mods x y dx dy [] 0 0.

(** The module's state: the queue, which is unbounded, and the pointer. *)
Record Gui : Type := mkGui { g_queue : list Event; g_pointer_x : Z; g_pointer_y : Z }.
(** [poll] of the queue. *)
Definition poll : M Gui (option Event) := fun g =>
  match g_queue g with
  | [] => (Ok None, g)
  | ev :: q => (Ok (Some ev), mkGui q (g_pointer_x g) (g_pointer_y g))
  end.
Definition post (ev : Event) : M Gui unit := modify (fun g => mkGui (g_queue g ++ [ev]) (g_pointer_x g) (g_pointer_y g)).

Definition _KEY_NAME_TO_CODE : list (str * Z) :=
  [(lit "esc", KEY_ESC); (lit "tab", KEY_TAB); ([10], KEY_ENTER); (lit "backspace", KEY_BACKSPACE); (lit "lshift", KEY_LSHIFT);
   (lit "rshift", KEY_RSHIFT); (lit "lctrl", KEY_LCTRL); (lit "lalt", KEY_LALT); (lit "capslock", KEY_CAPS_LOCK);
   (lit "up", KEY_UP); (lit "down", KEY_DOWN); (lit "left", KEY_LEFT); (lit "right", KEY_RIGHT); (lit "delete", KEY_DELETE)].
Definition _key_name_to_code (key_name char : str) : Z :=
  match dget key_name _KEY_NAME_TO_CODE with
  | Some c => c
  | None =>
      match key_name, char with
      | [k], _ => k
      | _, [c] => c
      | _, _ => 0
      end
  end.

Definition key_forward (ke : KeyEvent) : M Gui unit :=
  let kind := if ke_pressed ke then EVENT_KEY_DOWN else EVENT_KEY_UP in
  let mods := 0 in
  let mods := if ke_shift ke then Z.lor mods MOD_SHIFT else mods in
  let mods := if ke_ctrl ke then Z.lor mods MOD_CTRL else mods in
  let mods := if ke_alt ke then Z.lor mods MOD_ALT else mods in
  post (plain_event kind (_key_name_to_code (ke_key ke) (ke_char ke)) (ke_char ke) mods 0 0 0 0).

Definition _MOUSE_BTN_TO_INDEX (mask : Z) : Z :=
  if mask =? 0x01 then 1 else if mask =? 0x02 then 3 else if mask =? 0x04 then 2 else 0.

Definition mouse_bridge_init (width height : Z) (g : Gui) : Gui := mkGui (g_queue g) (width / 2) (height / 2).

Definition mouse_forward (width height : Z) (me : MouseEvent) : M Gui unit :=
  (if negb (me_dx me =? 0) || negb (me_dy me =? 0)
   then
     modify (fun g => mkGui (g_queue g) (Z.max 0 (Z.min (width - 1) (g_pointer_x g + me_dx me)))
                        (Z.max 0 (Z.min (height - 1) (g_pointer_y g + me_dy me)))) ;;;
     let! g := get in
     post (plain_event MOUSE_MOVE 0 [] 0 (g_pointer_x g) (g_pointer_y g) (me_dx me) (me_dy me))
   else ret tt) ;;;
  if negb (me_button_changed me =? 0)
  then
    let! g := get in
    post (plain_event (if me_pressed me then MOUSE_DOWN else MOUSE_UP) (_MOUSE_BTN_TO_INDEX (me_button_changed me)) [] 0
            (g_pointer_x g) (g_pointer_y g) 0 0)
  else ret tt.
