(* ===== verification/InputProps.v ===== *)
(** * Packets, keys and pointers

    Every packet a mouse sends reaches every subscriber as the events it
    stands for; the keyboard's modifiers are those the history of scan codes
    says; the pointer stays on the screen. *)

From Stdlib Require Import ZArith Lia.
From stdpp Require Import base list numbers strings.
From S2P Require Import Prelude Bytes Pystr Dict Input.

Local Open Scope Z_scope.

(** ** What a mouse sends *)

Record Pkt : Type := mkPkt { pk_dx : Z; pk_dy : Z; pk_l : bool; pk_r : bool; pk_m : bool }.
Definition pkt_ok (p : Pkt) : Prop := -256 <= pk_dx p <= 255 /\ -256 <= pk_dy p <= 255.
Definition encode (p : Pkt) : bytes :=
  [8 + Z.b2z (pk_l p) + 2 * Z.b2z (pk_r p) + 4 * Z.b2z (pk_m p)
     + 16 * Z.b2z (pk_dx p <? 0) + 32 * Z.b2z (pk_dy p <? 0); pk_dx p mod 256; pk_dy p mod 256].

(** The events of a packet, after one with the buttons [(l, r, m)]; the
    device's y axis points up, the screen's down. *)
Definition changed (mask : Z) (was now : bool) (p : Pkt) : list MouseEvent :=
  if Bool.eqb was now then [] else [mkMouseEvent 0 0 (pk_l p) (pk_r p) (pk_m p) mask now].
Definition events_of (b : bool * bool * bool) (p : Pkt) : list MouseEvent :=
  let '(l, r, m) := b in
  (if (pk_dx p =? 0) && (pk_dy p =? 0) then []
   else [mkMouseEvent (pk_dx p) (- pk_dy p) (pk_l p) (pk_r p) (pk_m p) 0 false])
  ++ changed PKT_LBTN l (pk_l p) p ++ changed PKT_RBTN r (pk_r p) p ++ changed PKT_MBTN m (pk_m p) p.
Fixpoint all_events (b : bool * bool * bool) (ps : list Pkt) : list MouseEvent :=
  match ps with
  | [] => []
  | p :: ps' => events_of b p ++ all_events (pk_l p, pk_r p, pk_m p) ps'
  end.

(** ** Subscribers *)

(** [told subs evs]: every subscriber hears of each event in turn. *)
Definition told {C E : Type} (subs : list C) (evs : list E) : list (C * E) :=
  flat_map (fun ev => map (fun cb => (cb, ev)) subs) evs.

Lemma told_app {C E : Type} (subs : list C) (e1 e2 : list E) : told subs (e1 ++ e2) = told subs e1 ++ told subs e2.
Proof. apply flat_map_app. Qed.

Section told.
Context {W C E : Type} (call : C -> E -> M W unit) (pending : W -> bytes) (calls : W -> list (C * E)).
Context (call_law : forall cb ev w r w', call cb ev w = (r, w') -> pending w' = pending w /\ calls w' = calls w ++ [(cb, ev)]).

Lemma notify_told subs ev w : exists w', notify call subs ev w = (Ok tt, w') /\ pending w' = pending w /\
  calls w' = calls w ++ told subs [ev].
Proof.
  unfold told. cbn [flat_map]. rewrite app_nil_r. revert w. induction subs as [|cb subs IH]; intros w; cbn [notify for_each map].
  { exists w. by rewrite app_nil_r. }
  destruct (call cb ev w) as [r w1] eqn:Ec. destruct (call_law cb ev w r w1 Ec) as [P1 C1].
  assert (Et : try_except (call cb ev) (fun _ => ret tt) w = (Ok tt, w1)) by (unfold try_except; rewrite Ec; by destruct r as [[]|]).
  unfold notify in *. cbn [for_each]. rewrite (bind_step _ _ _ _ _ Et). destruct (IH w1) as (w' & E' & P' & C').
  exists w'. split_and!; [done|congruence|]. by rewrite C', C1, <- app_assoc.
Qed.
End told.

Section mouse.
Context {W C : Type} `{Ports W} (call : C -> MouseEvent -> M W unit).

(** The bytes the controller still holds and the calls made so far. *)
Context (pending : W -> bytes) (calls : W -> list (C * MouseEvent)).
Context (status_law : forall w b bs, pending w = b :: bs ->
  exists st, inb PS2_STATUS w = (Ok st, w) /\ has st STATUS_OUTPUT_FULL = true /\ has st STATUS_FROM_AUX = true).
Context (data_law : forall w b bs, pending w = b :: bs ->
  exists w', inb PS2_DATA w = (Ok b, w') /\ pending w' = bs /\ calls w' = calls w).
Context (call_law : forall cb ev w r w', call cb ev w = (r, w') -> pending w' = pending w /\ calls w' = calls w ++ [(cb, ev)]).
Implicit Types (w : W) (d : MouseDriver C).

(** A step of the driver that makes the events [evs] and leaves it as [d']. *)
Definition tells (m : M (MouseDriver C * W) unit) d (evs : list MouseEvent) d' : Prop :=
  forall w, exists w', m (d, w) = (Ok tt, (d', w')) /\ pending w' = pending w /\ calls w' = calls w ++ told (ms_subscribers d) evs.

Lemma tells_ret d : tells (ret tt) d [] d.
Proof. intros w. exists w. by rewrite app_nil_r. Qed.
Lemma tells_bind m1 m2 d d1 d2 e1 e2 : ms_subscribers d1 = ms_subscribers d ->
  tells m1 d e1 d1 -> tells m2 d1 e2 d2 -> tells (m1 ;;; m2) d (e1 ++ e2) d2.
Proof.
  intros Hs T1 T2 w. destruct (T1 w) as (w1 & E1 & P1 & C1). destruct (T2 w1) as (w2 & E2 & P2 & C2).
  exists w2. rewrite (bind_step _ _ _ _ _ E1). split_and!; [done|congruence|].
  by rewrite C2, C1, Hs, told_app, <- app_assoc.
Qed.
Lemma tells_notify d subs ev : subs = ms_subscribers d -> tells (on_w (notify call subs ev)) d [ev] d.
Proof.
  intros -> w. destruct (notify_told call pending calls call_law (ms_subscribers d) ev w) as (w' & E & P' & C').
  exists w'. split_and!; [|done|done]. unfold on_w, zoom. cbn [fst snd]. by rewrite E.
Qed.
Lemma tells_set f d : ms_subscribers (f d) = ms_subscribers d -> tells (mouse_set f) d [] (f d).
Proof. intros _ w. exists w. by rewrite app_nil_r. Qed.

Lemma pkt_bits p : pkt_ok p -> exists b0, encode p = [b0; pk_dx p mod 256; pk_dy p mod 256] /\
  has b0 0x08 = true /\ has b0 PKT_LBTN = pk_l p /\ has b0 PKT_RBTN = pk_r p /\ has b0 PKT_MBTN = pk_m p /\
  (if has b0 PKT_X_SIGN then pk_dx p mod 256 - 256 else pk_dx p mod 256) = pk_dx p /\
  (if has b0 PKT_Y_SIGN then pk_dy p mod 256 - 256 else pk_dy p mod 256) = pk_dy p.
Proof.
  destruct p as [dx dy l r m]. intros [Hx Hy]. cbn [pk_dx pk_dy pk_l pk_r pk_m] in *. unfold encode. cbn [pk_dx pk_dy pk_l pk_r pk_m].
  eexists. split; [done|].
  assert (Ex : (if dx <? 0 then dx mod 256 - 256 else dx mod 256) = dx) by (destruct (Z.ltb_spec dx 0); Z.div_mod_to_equations; lia).
  assert (Ey : (if dy <? 0 then dy mod 256 - 256 else dy mod 256) = dy) by (destruct (Z.ltb_spec dy 0); Z.div_mod_to_equations; lia).
  destruct (dx <? 0), (dy <? 0), l, r, m; (split_and!; [reflexivity..|exact Ex|exact Ey]).
Qed.

Lemma packet_tells p d b0 : pkt_ok p -> encode p = [b0; pk_dx p mod 256; pk_dy p mod 256] ->
  tells (packet call b0 (pk_dx p mod 256) (pk_dy p mod 256)) d (events_of (ms_lbtn d, ms_rbtn d, ms_mbtn d) p)
    (set_buttons (pk_l p) (pk_r p) (pk_m p) (set_buf [] d)).
Proof.
  intros Hp He. destruct (pkt_bits p Hp) as (b & He' & H8 & HL & HR & HM & HX & HY).
  rewrite He in He'. injection He' as <-. unfold packet, events_of.
  apply (tells_bind _ _ d (set_buf [] d) _ [] _ eq_refl); [by apply tells_set|].
  rewrite H8. cbn [negb]. rewrite HX, HY, HL, HR, HM. cbn zeta.
  intros w. rewrite (bind_step (gets fst) _ (set_buf [] d, w) (set_buf [] d) (set_buf [] d, w) eq_refl).
  revert w. set (d0 := set_buf [] d). change (ms_lbtn d0) with (ms_lbtn d). change (ms_rbtn d0) with (ms_rbtn d).
  change (ms_mbtn d0) with (ms_mbtn d).
  assert (Hch : forall mask was now, tells (if negb (Bool.eqb was now)
      then on_w (notify call (ms_subscribers d0) (mkMouseEvent 0 0 (pk_l p) (pk_r p) (pk_m p) mask now)) else ret tt)
      d0 (changed mask was now p) d0).
  { intros mask was now. unfold changed. destruct (Bool.eqb was now); cbn [negb]; [apply tells_ret|by apply tells_notify]. }
  assert (Hmv : tells (if negb (pk_dx p =? 0) || negb (- pk_dy p =? 0)
      then on_w (notify call (ms_subscribers d0) (mkMouseEvent (pk_dx p) (- pk_dy p) (pk_l p) (pk_r p) (pk_m p) 0 false)) else ret tt)
      d0 (if (pk_dx p =? 0) && (pk_dy p =? 0) then [] else [mkMouseEvent (pk_dx p) (- pk_dy p) (pk_l p) (pk_r p) (pk_m p) 0 false]) d0).
  { replace (- pk_dy p =? 0) with (pk_dy p =? 0) by lia. rewrite <- negb_andb.
    destruct ((pk_dx p =? 0) && (pk_dy p =? 0)); cbn [negb]; [apply tells_ret|by apply tells_notify]. }
  apply (tells_bind _ _ d0 d0 _ _ _ eq_refl Hmv). cbn [for_each].
  rewrite <- (app_nil_r (changed PKT_LBTN _ _ p ++ _)).
  apply (tells_bind _ _ d0 d0 _ _ _ eq_refl); [|by apply tells_set].
  apply (tells_bind _ _ d0 d0 _ _ _ eq_refl (Hch _ _ _)). apply (tells_bind _ _ d0 d0 _ _ _ eq_refl (Hch _ _ _)).
  rewrite <- (app_nil_r (changed PKT_MBTN _ _ p)).
  apply (tells_bind _ _ d0 d0 _ _ _ eq_refl (Hch _ _ _)). apply tells_ret.
Qed.
(** ** A stream of interrupts *)

Fixpoint irqs (n : nat) : M (MouseDriver C * W) unit :=
  match n with O => ret tt | S n => mouse_handle_irq call ;;; irqs n end.

Lemma irqs_app n m s : irqs (n + m) s = (irqs n ;;; irqs m) s.
Proof.
  revert s. induction n as [|n IH]; intros s; [done|]. cbn [Nat.add irqs]. rewrite bind_assoc. unfold bind.
  destruct (mouse_handle_irq call s) as [[u|e] s1]; [apply IH|done].
Qed.

(** One byte: the driver appends it and goes on with what it has. *)
Lemma irq_byte d w b bs : pending w = b :: bs -> exists w', pending w' = bs /\ calls w' = calls w /\
  mouse_handle_irq call (d, w) =
    (if len (ms_buf d ++ [b]) <? 3 then ret tt
     else match ms_buf d ++ [b] with [b0; b1; b2] => packet call b0 b1 b2 | _ => raise ValueError end)
    (set_buf (ms_buf d ++ [b]) d, w').
Proof.
  intros Hp. destruct (status_law w b bs Hp) as (st & Es & Hf & Ha). destruct (data_law w b bs Hp) as (w' & Ed & Hp' & Hc').
  exists w'. split_and!; [done|done|]. unfold mouse_handle_irq, on_w, zoom, bind. cbn [fst snd]. rewrite Es, Hf, Ha.
  cbn [negb orb fst snd]. by rewrite Ed.
Qed.

Lemma irq_short d w b bs : pending w = b :: bs -> len (ms_buf d ++ [b]) < 3 -> exists w', pending w' = bs /\ calls w' = calls w /\
  mouse_handle_irq call (d, w) = (Ok tt, (set_buf (ms_buf d ++ [b]) d, w')).
Proof.
  intros Hp Hl. destruct (irq_byte d w b bs Hp) as (w' & P' & C' & E). exists w'. split_and!; [done|done|].
  rewrite E. by replace (len (ms_buf d ++ [b]) <? 3) with true by lia.
Qed.

(** Three bytes from an empty buffer are one packet. *)
Lemma irq_packet d w b0 b1 b2 bs : ms_buf d = [] -> pending w = b0 :: b1 :: b2 :: bs -> exists w',
  pending w' = bs /\ calls w' = calls w /\ irqs 3 (d, w) = packet call b0 b1 b2 (set_buf [b0; b1; b2] d, w').
Proof.
  intros Hb Hp. cbn [irqs].
  destruct (irq_short d w b0 (b1 :: b2 :: bs) Hp) as (w1 & P1 & C1 & E1); [by rewrite Hb|]. rewrite Hb in E1. cbn [app] in E1.
  destruct (irq_short (set_buf [b0] d) w1 b1 (b2 :: bs) P1) as (w2 & P2 & C2 & E2); [done|].
  destruct (irq_byte (set_buf [b0; b1] d) w2 b2 bs P2) as (w3 & P3 & C3 & E3).
  exists w3. split_and!; [done|congruence|].
  rewrite (bind_step _ _ _ _ _ E1), (bind_step _ _ _ _ _ E2). unfold bind at 1.
  change (set_buf (ms_buf (set_buf [b0] d) ++ [b1]) (set_buf [b0] d)) with (set_buf [b0; b1] d). rewrite E3.
  change (ms_buf (set_buf [b0; b1] d) ++ [b2]) with [b0; b1; b2]. change (len [b0; b1; b2] <? 3) with false. cbn iota.
  change (set_buf [b0; b1; b2] (set_buf [b0; b1] d)) with (set_buf [b0; b1; b2] d).
  unfold ret. by destruct (packet call b0 b1 b2 _) as [[[]|e] s'].
Qed.

(** The bytes of any sequence of mouse packets, one per interrupt, reach
    every subscriber as the events of the packets: one movement event for a
    packet that moves, one event per button that changed, in order and with
    the deltas the packet encodes; no byte is left over. *)
Theorem mouse_stream ps d w : Forall pkt_ok ps -> ms_buf d = [] -> pending w = concat (map encode ps) ->
  exists d' w', irqs (3 * length ps) (d, w) = (Ok tt, (d', w')) /\ ms_buf d' = [] /\ pending w' = [] /\
    ms_subscribers d' = ms_subscribers d /\
    calls w' = calls w ++ told (ms_subscribers d) (all_events (ms_lbtn d, ms_rbtn d, ms_mbtn d) ps).
Proof.
  intros Hps. revert d w. induction Hps as [|p ps Hp Hps IH]; intros d w Hb Hw.
  { exists d, w. split_and!; try done. by rewrite app_nil_r. }
  destruct (pkt_bits p Hp) as (b0 & He & _). cbn [map concat] in Hw. rewrite He in Hw. cbn [app] in Hw.
  destruct (irq_packet d w _ _ _ _ Hb Hw) as (w1 & P1 & C1 & E1).
  destruct (packet_tells p (set_buf [b0; pk_dx p mod 256; pk_dy p mod 256] d) b0 Hp He w1) as (w2 & E2 & P2 & C2).
  rewrite E2 in E1. set (d2 := set_buttons _ _ _ _) in *.
  destruct (IH d2 w2 eq_refl ltac:(congruence)) as (d' & w' & E' & B' & P' & S' & C').
  exists d', w'. cbn [length]. replace (3 * S (length ps))%nat with (3 + 3 * length ps)%nat by lia.
  rewrite irqs_app, (bind_step _ _ _ _ _ E1). split_and!; try done. rewrite C', C2, C1, <- app_assoc. cbn [all_events].
  by rewrite told_app.
Qed.

(** When one byte is lost, the triples the driver takes apart are no packets
    any more.  A triple whose first byte has bit 3 clear is dropped whole, so
    the next one starts at the same place in its packet: of a steady movement
    nothing arrives any more. *)
Lemma mouse_lost_byte n d w rest : ms_buf d = [] -> pending w = concat (replicate n [1; 1; 8]) ++ rest ->
  exists w', irqs (3 * n) (d, w) = (Ok tt, (d, w')) /\ pending w' = rest /\ calls w' = calls w.
Proof.
  intros Hb. revert w. induction n as [|n IH]; intros w Hw; [by exists w|].
  cbn [replicate concat app] in Hw. destruct (irq_packet d w _ _ _ _ Hb Hw) as (w1 & P1 & C1 & E1).
  destruct (IH w1 P1) as (w' & E' & P' & C'). exists w'. replace (3 * S n)%nat with (3 + 3 * n)%nat by lia.
  rewrite irqs_app. split_and!; [|done|congruence].
  assert (E : packet call 1 1 8 (set_buf [1; 1; 8] d, w1) = (Ok tt, (d, w1))) by (by destruct d; cbn in Hb; subst).
  rewrite E in E1. by rewrite (bind_step _ _ _ _ _ E1).
Qed.
End mouse.

(** ** The keyboard *)

(** What the scan codes so far say of the modifiers: a modifier is down when
    the last code of its keys was a make code; caps lock is the parity of its
    presses. *)
Definition code_is (names : list str) (sc : Z) : bool :=
  match scancode (Z.land sc 0x7F) with Some (k, _) => existsb (beq k) names | None => false end.
Fixpoint held (names : list str) (hist : list Z) : bool :=     (* newest code first *)
  match hist with
  | [] => false
  | sc :: hist' => if code_is names sc then negb (has sc 0x80) else held names hist'
  end.
Definition shift_keys : list str := [lit "lshift"; lit "rshift"].
Fixpoint caps_on (hist : list Z) : bool :=
  match hist with
  | [] => false
  | sc :: hist' => xorb (code_is [lit "capslock"] sc && negb (has sc 0x80)) (caps_on hist')
  end.

(** The event of a scan code after a history, when it makes one. *)
Definition event_after (hist : list Z) (sc : Z) : option KeyEvent :=
  match scancode (Z.land sc 0x7F) with
  | None => None
  | Some (k, sh) =>
      if existsb (beq k) (shift_keys ++ [lit "lctrl"; lit "lalt"]) || (beq k (lit "capslock") && negb (has sc 0x80)) then None
      else
        let c := if xorb (held shift_keys hist) (caps_on hist) then sh else k in
        Some (mkKeyEvent (Z.land sc 0x7F) k (if len c =? 1 then c else []) (negb (has sc 0x80))
                (held shift_keys hist) (held [lit "lctrl"] hist) (held [lit "lalt"] hist))
  end.
Fixpoint events_after (hist : list Z) : list KeyEvent :=
  match hist with
  | [] => []
  | sc :: hist' => events_after hist' ++ option_list (event_after hist' sc)
  end.

Section keyboard.
Context {C : Type}.
Implicit Type k : KeyboardDriver C.

(** The driver's state after a history, oldest code handled first. *)
Fixpoint key_run (k : KeyboardDriver C) (hist : list Z) : KeyboardDriver C :=
  match hist with [] => k | sc :: hist' => fst (key_step sc (key_run k hist')) end.

Definition mods_of k : bool * bool * bool * bool := (kb_shift k, kb_ctrl k, kb_alt k, kb_capslock k).
Definition mods_after (hist : list Z) : bool * bool * bool * bool :=
  (held shift_keys hist, held [lit "lctrl"] hist, held [lit "lalt"] hist, caps_on hist).


(** A code is one key's: the groups of names exclude each other. *)
Lemma code_key sc key sh names : scancode (Z.land sc 0x7F) = Some (key, sh) -> code_is names sc = existsb (beq key) names.
Proof. unfold code_is. by intros ->. Qed.

Definition mod_names : list str := [lit "lshift"; lit "rshift"; lit "lctrl"; lit "lalt"; lit "capslock"].

Lemma key_step_mods sc k hist : mods_of k = mods_after hist -> mods_of (fst (key_step sc k)) = mods_after (sc :: hist).
Proof.
  intros E. unfold key_step, mods_after. cbn [held caps_on]. destruct (scancode (Z.land sc 127)) as [[key sh]|] eqn:Es.
  2:{ unfold code_is. rewrite Es. cbn [andb xorb]. cbn [fst]. by rewrite E. }
  rewrite !(code_key sc key sh _ Es). unfold mods_of, mods_after in E. injection E as E1 E2 E3 E4.
  destruct (beq key (lit "lshift")) eqn:B1; [apply beq_eq in B1 as ->|].
  { cbn. unfold mods_of. cbn. rewrite E2, E3, E4. by destruct (caps_on hist). }
  destruct (beq key (lit "rshift")) eqn:B2; [apply beq_eq in B2 as ->|].
  { cbn. unfold mods_of. cbn. rewrite E2, E3, E4. by destruct (caps_on hist). }
  destruct (beq key (lit "lctrl")) eqn:B3; [apply beq_eq in B3 as ->|].
  { cbn. unfold mods_of. cbn. rewrite E1, E3, E4. by destruct (caps_on hist). }
  destruct (beq key (lit "lalt")) eqn:B4; [apply beq_eq in B4 as ->|].
  { cbn. unfold mods_of. cbn. rewrite E1, E2, E4. by destruct (caps_on hist). }
  cbn [existsb shift_keys orb]. rewrite B1, B2, B3, B4. cbn [orb]. unfold mods_of.
  destruct (beq key (lit "capslock")), (has sc 128); cbn [andb orb negb fst set_mods set_queue kb_shift kb_ctrl kb_alt kb_capslock xorb];
    rewrite E1, E2, E3, E4; by destruct (caps_on hist).
Qed.

Lemma key_step_event sc k hist : mods_of k = mods_after hist -> snd (key_step sc k) = event_after hist sc.
Proof.
  intros E. unfold mods_of, mods_after in E. injection E as E1 E2 E3 E4. unfold key_step, event_after.
  destruct (scancode (Z.land sc 127)) as [[key sh]|]; [|done]. cbn [existsb shift_keys app]. rewrite orb_false_r, !orb_assoc.
  destruct (beq key (lit "lshift")), (beq key (lit "rshift")), (beq key (lit "lctrl")), (beq key (lit "lalt"));
    cbn [orb]; try done. destruct (beq key (lit "capslock") && negb (has sc 128)); [done|].
  cbn [snd]. by rewrite E1, E2, E3, E4.
Qed.

Lemma key_step_queue sc k : kb_queue (fst (key_step sc k)) =
  (if queue_max <=? len (kb_queue k) then kb_queue k else kb_queue k ++ option_list (snd (key_step sc k))).
Proof.
  unfold key_step.
  repeat case_match; cbn [fst snd option_list set_mods set_queue kb_queue]; rewrite ?app_nil_r; by try case_match.
Qed.

(** The driver as it starts, with its subscribers. *)
Definition fresh (subs : list C) : KeyboardDriver C := fold_right key_subscribe KeyboardDriver_init (rev subs).
Lemma fresh_eq subs : fresh subs = mkKeyboard [] false false false false subs.
Proof.
  unfold fresh. rewrite <- (rev_involutive subs) at 2. induction (rev subs) as [|cb l IH]; [done|]. cbn [fold_right rev]. by rewrite IH.
Qed.

Lemma key_run_mods subs hist : mods_of (key_run (fresh subs) hist) = mods_after hist.
Proof. induction hist as [|sc hist IH]; [by rewrite fresh_eq|]. cbn [key_run]. by apply key_step_mods. Qed.

Lemma key_run_queue subs hist : kb_queue (key_run (fresh subs) hist) = take 256 (events_after hist).
Proof.
  induction hist as [|sc hist IH]; [by rewrite fresh_eq|]. cbn [key_run events_after].
  rewrite key_step_queue, IH, (key_step_event sc _ hist (key_run_mods subs hist)). unfold queue_max, len. rewrite length_take.
  destruct (Z.leb_spec 256 (Z.of_nat (256 `min` length (events_after hist)))) as [Hf|Hf].
  { by rewrite take_app_le by lia. }
  assert (Hs : (length (events_after hist) < 256)%nat) by lia.
  rewrite (take_ge (events_after hist)) by lia. rewrite take_ge; [done|]. rewrite length_app.
  destruct (event_after hist sc); cbn; lia.
Qed.

Lemma key_step_subscribers sc k : kb_subscribers (fst (key_step sc k)) = kb_subscribers k.
Proof. unfold key_step. by repeat case_match. Qed.

(** Interrupts of the keyboard, as those of the mouse. *)
Context {W : Type} `{Ports W} (call : C -> KeyEvent -> M W unit).
Context (pending : W -> bytes) (calls : W -> list (C * KeyEvent)).
Context (data_law : forall w b bs, pending w = b :: bs ->
  exists w', inb PS2_DATA w = (Ok b, w') /\ pending w' = bs /\ calls w' = calls w).
Context (call_law : forall cb ev w r w', call cb ev w = (r, w') -> pending w' = pending w /\ calls w' = calls w ++ [(cb, ev)]).

Fixpoint key_irqs (n : nat) : M (KeyboardDriver C * W) unit :=
  match n with O => ret tt | S n => key_handle_irq call ;;; key_irqs n end.

Lemma key_irq_step k w sc bs : pending w = sc :: bs -> exists w', pending w' = bs /\
  key_handle_irq call (k, w) = (Ok tt, (fst (key_step sc k), w')) /\
  calls w' = calls w ++ told (kb_subscribers k) (option_list (snd (key_step sc k))).
Proof.
  intros Hp. destruct (data_law w sc bs Hp) as (w1 & E1 & P1 & C1). unfold key_handle_irq. cbn [fst snd]. rewrite E1.
  pose proof (key_step_subscribers sc k) as Hs. destruct (key_step sc k) as [k' [ev|]]; cbn [fst snd] in *.
  - destruct (notify_told call pending calls call_law (kb_subscribers k') ev w1) as (w' & E' & P' & C').
    exists w'. rewrite E'. split_and!; [congruence|done|]. by rewrite C', C1, Hs.
  - exists w1. cbn. rewrite app_nil_r. split_and!; congruence.
Qed.

Lemma key_run_subscribers subs hist : kb_subscribers (key_run (fresh subs) hist) = subs.
Proof. induction hist as [|sc hist IH]; [by rewrite fresh_eq|]. cbn [key_run]. by rewrite key_step_subscribers. Qed.

Lemma key_irqs_run subs codes : forall hist w, pending w = codes -> calls w = told subs (events_after hist) ->
  exists w', key_irqs (length codes) (key_run (fresh subs) hist, w) = (Ok tt, (key_run (fresh subs) (rev codes ++ hist), w')) /\
    pending w' = [] /\ calls w' = told subs (events_after (rev codes ++ hist)).
Proof.
  induction codes as [|sc codes IH]; intros hist w Hp Hc; [by exists w|].
  destruct (key_irq_step (key_run (fresh subs) hist) w sc codes Hp) as (w1 & P1 & E1 & C1).
  rewrite key_run_subscribers, (key_step_event sc _ hist (key_run_mods subs hist)) in C1.
  destruct (IH (sc :: hist) w1 P1) as (w' & E' & P' & C').
  { cbn [events_after]. by rewrite C1, Hc, told_app. }
  exists w'. cbn [length key_irqs rev]. rewrite (bind_step _ _ _ _ _ E1), <- !app_assoc. by split_and!.
Qed.

(** After any sequence of scan codes, one per interrupt, shift, control
    and alt are down exactly when the last code of their keys was a make code
    and caps lock is the parity of its presses; every subscriber has heard of
    every event of the history in order, and the queue a reader sees holds the
    first 256 of them: with no reader, later events are dropped and never an
    earlier one. *)
Theorem keyboard_history codes subs w : pending w = codes -> calls w = [] ->
  exists k w', key_irqs (length codes) (fresh subs, w) = (Ok tt, (k, w')) /\
    mods_of k = mods_after (rev codes) /\ kb_queue k = take 256 (events_after (rev codes)) /\
    pending w' = [] /\ calls w' = told subs (events_after (rev codes)).
Proof.
  intros Hp Hc. destruct (key_irqs_run subs codes [] w Hp Hc) as (w' & E' & P' & C'). rewrite app_nil_r in *.
  exists (key_run (fresh subs) (rev codes)), w'. split_and!; [done|apply key_run_mods|apply key_run_queue|done|done].
Qed.
End keyboard.

(** ** The pointer *)

Definition on_screen (width height : Z) (g : Gui) : Prop :=
  0 <= g_pointer_x g < width /\ 0 <= g_pointer_y g < height.
Definition ev_on_screen (width height : Z) (ev : Event) : Prop := 0 <= ev_x ev < width /\ 0 <= ev_y ev < height.

(** The events a sequence of mouse events posts: a movement carries the
    pointer it leads to, a button the pointer it happened at. *)
Fixpoint forward_all (width height : Z) (mes : list MouseEvent) : M Gui unit :=
  match mes with [] => ret tt | me :: mes => mouse_forward width height me ;;; forward_all width height mes end.

Lemma mouse_forward_spec width height me g : exists g' evs, mouse_forward width height me g = (Ok tt, g') /\
  g_queue g' = g_queue g ++ evs /\
  (0 < width -> 0 < height -> on_screen width height g -> on_screen width height g' /\ Forall (ev_on_screen width height) evs).
Proof.
  unfold mouse_forward, post, modify, get, bind, ret.
  destruct (negb (me_dx me =? 0) || negb (me_dy me =? 0)), (negb (me_button_changed me =? 0)); cbn;
    (eexists _, _; split; [reflexivity|]; split; [rewrite <- ?app_assoc; first [reflexivity|symmetry; apply app_nil_r]|]);
    unfold on_screen, ev_on_screen; cbn; intros; repeat (apply List.Forall_cons || apply Forall_nil_2 || split); cbn; try lia.
Qed.

(** Whatever the mouse sends, the pointer stays on the screen and every
    event the bridge posts lies on it; the events are appended in order. *)
Theorem pointer_stays_on_screen width height mes g : 0 < width -> 0 < height ->
  exists g' evs, forward_all width height mes (mouse_bridge_init width height g) = (Ok tt, g') /\
    g_queue g' = g_queue g ++ evs /\ on_screen width height g' /\ Forall (ev_on_screen width height) evs.
Proof.
  intros Hw Hh. assert (H0 : on_screen width height (mouse_bridge_init width height g)).
  { unfold on_screen. cbn. pose proof (Z.div_lt width 2). pose proof (Z.div_lt height 2).
    split; split; try (apply Z.div_pos; lia); lia. }
  change (g_queue g) with (g_queue (mouse_bridge_init width height g)). revert H0.
  generalize (mouse_bridge_init width height g). clear g. induction mes as [|me mes IH]; intros g H0.
  { exists g, []. split_and!; [done|by rewrite app_nil_r|done|constructor]. }
  cbn [forward_all]. destruct (mouse_forward_spec width height me g) as (g1 & e1 & E1 & Q1 & S1).
  destruct (S1 Hw Hh H0) as [H1 F1]. destruct (IH g1 H1) as (g2 & e2 & E2 & Q2 & H2 & F2).
  exists g2, (e1 ++ e2). rewrite (bind_step _ _ _ _ _ E1). split_and!; [done|by rewrite Q2, Q1, app_assoc|done|].
  by apply Forall_app.
Qed.
Lemma pointer_stays_on_screen_witness : 0 < 640 /\ 0 < 480 /\
  exists g' evs, forward_all 640 480 [mkMouseEvent 5000 (-5000) false false false 0 false; mkMouseEvent 0 0 true false false 1 true]
    (mouse_bridge_init 640 480 (mkGui [] 0 0)) = (Ok tt, g') /\ g_queue g' = [] ++ evs /\ on_screen 640 480 g' /\
    Forall (ev_on_screen 640 480) evs.
Proof. split_and!; [lia|lia|]. apply (pointer_stays_on_screen 640 480 _ (mkGui [] 0 0)); lia. Defined.

(** ** A controller with bytes to read *)

Definition ToyPs2 (E : Type) : Type := list Z * list (unit * E).
#[local] Instance toy_ports {E} : Ports (ToyPs2 E) := {|
  inb port := fun w =>
    if port =? PS2_STATUS then (Ok (match fst w with [] => 0 | _ => 0x21 end), w)
    else match fst w with [] => (Ok 0, w) | b :: bs => (Ok b, (bs, snd w)) end;
  outb _ _ := fun w => (Ok tt, w);
|}.
Definition toy_call {E} (cb : unit) (ev : E) : M (ToyPs2 E) unit := fun w => (Err ValueError, (fst w, snd w ++ [(cb, ev)])).
Definition toy_pkts : list Pkt := [mkPkt 5 (-3) false false false; mkPkt 0 0 true false false; mkPkt (-1) 0 false false true].

Lemma mouse_stream_witness : Forall pkt_ok toy_pkts /\
  exists d' w', irqs toy_call 9 (mouse_subscribe tt MouseDriver_init, (concat (map encode toy_pkts), [])) = (Ok tt, (d', w')) /\
    ms_buf d' = [] /\ fst w' = [] /\ ms_subscribers d' = [tt] /\
    snd w' = told [tt] (all_events (false, false, false) toy_pkts).
Proof.
  assert (Hp : Forall pkt_ok toy_pkts) by (repeat constructor; cbn; lia). split; [exact Hp|].
  apply (mouse_stream toy_call fst snd) with (ps := toy_pkts) (d := mouse_subscribe tt MouseDriver_init)
    (w := (concat (map encode toy_pkts), [])); [| | |exact Hp|reflexivity|reflexivity].
  - intros [bs0 cs] b bs [= ->]. exists 0x21. by repeat split.
  - intros [bs0 cs] b bs [= ->]. exists (bs, cs). by repeat split.
  - intros cb ev w r w' [= <- <-]. done.
Defined.

(** Shift down, [a], caps lock pressed and released, [b], shift up. *)
Definition toy_codes : list Z := [0x2A; 0x1E; 0x3A; 0xBA; 0x30; 0xAA].
Lemma keyboard_history_witness :
  exists k w', key_irqs toy_call 6 (fresh [tt], (toy_codes, [])) = (Ok tt, (k, w')) /\
    mods_of k = (false, false, false, true) /\ kb_queue k = take 256 (events_after (rev toy_codes)) /\
    fst w' = [] /\ snd w' = told [tt] (events_after (rev toy_codes)).
Proof.
  apply (keyboard_history toy_call fst snd) with (codes := toy_codes) (w := (toy_codes, [])); [| |reflexivity|reflexivity].
  - intros [bs0 cs] b bs [= ->]. exists (bs, cs). by repeat split.
  - intros cb ev w r w' [= <- <-]. done.
Defined.
