(* ===== verification/VirtioInput.v ===== *)
(** * VirtIO input devices (kernel/drivers/input/virtio_input.py)

    Keyboards, mice and tablets behind one virtqueue each: probing, the turn of
    the polling task, and the translation of Linux input events into the events
    of [kernel.gui.input].  The fields of the driver object that concern the
    queue are a [VirtQueue]; the scheduler's [spawn] is left to the caller of
    [install_virtio_input_bridge]. *)

From Stdlib Require Import ZArith Lia.
From stdpp Require Import base list gmap numbers strings.
From S2P Require Import Prelude Bytes Pystr Dict Hw Virtio Virtqueue Input.

Local Open Scope Z_scope.

Definition VIRTIO_DEV_INPUT : Z := 18.
Definition QUEUE_SIZE : Z := 32.
Definition EVENT_SIZE : Z := 8.
Definition EV_SYN : Z := 0.
Definition EV_KEY : Z := 1.
Definition EV_REL : Z := 2.
Definition EV_ABS : Z := 3.

Definition _signed32 (v : Z) : Z := if Z.land v 0x80000000 =? 0 then v else v - 0x100000000.

(** ** The tables *)

Definition KEY_NONE : Z := 0.
Definition KEY_INSERT : Z := 0xC9.
Definition _EV_TO_KEY : list (Z * Z) :=
  [(1, KEY_ESC); (14, KEY_BACKSPACE); (15, KEY_TAB); (28, KEY_ENTER); (29, KEY_LCTRL); (42, KEY_LSHIFT); (54, KEY_RSHIFT); (56, KEY_LALT);
   (57, KEY_SPACE); (58, KEY_CAPS_LOCK); (97, KEY_RCTRL); (100, KEY_RALT); (103, Input.KEY_UP); (105, KEY_LEFT); (106, KEY_RIGHT); (108, Input.KEY_DOWN);
   (102, KEY_HOME); (107, KEY_END); (104, KEY_PAGE_UP); (109, KEY_PAGE_DOWN); (110, KEY_INSERT); (111, KEY_DELETE);
   (59, KEY_F 1); (60, KEY_F 2); (61, KEY_F 3); (62, KEY_F 4); (63, KEY_F 5); (64, KEY_F 6); (65, KEY_F 7); (66, KEY_F 8); (67, KEY_F 9); (68, KEY_F 10);
   (87, KEY_F 11); (88, KEY_F 12)].
(** A row of keys: consecutive codes, the characters without and with shift. *)
Definition key_row (first : Z) (plain shifted : string) : list (Z * (Z * Z)) :=
  combine (range2 first (first + len (lit plain))) (combine (lit plain) (lit shifted)).
Definition _EV_TO_CHARS : list (Z * (Z * Z)) :=
  key_row 2 "1234567890-=" "!@#$%^&*()_+" ++ key_row 16 "qwertyuiop[]" "QWERTYUIOP{}" ++ key_row 30 "asdfghjkl;" "ASDFGHJKL:" ++
  [(40, (39, 34)); (41, (96, 126)); (43, (92, 124))] ++ key_row 44 "zxcvbnm,./" "ZXCVBNM<>?" ++ [(57, (32, 32))].
Definition _EV_LSHIFT : Z := 42.
Definition _EV_RSHIFT : Z := 54.
Definition _EV_LCTRL : Z := 29.
Definition _EV_RCTRL : Z := 97.
Definition _EV_LALT : Z := 56.
Definition _EV_RALT : Z := 100.
Definition _BTN_LEFT : Z := 0x110.
Definition _BTN_RIGHT : Z := 0x111.
Definition _BTN_MIDDLE : Z := 0x112.
Definition _BTN_TO_INDEX : list (Z * Z) := [(_BTN_LEFT, 1); (_BTN_MIDDLE, 2); (_BTN_RIGHT, 3)].
Definition _REL_X : Z := 0.
Definition _REL_Y : Z := 1.
Definition _ABS_X : Z := 0.
Definition _ABS_Y : Z := 1.
Definition _TABLET_RANGE : Z := 32768.

(** ** The device object *)

Record Mods : Type := mkMods { m_shift : bool; m_ctrl : bool; m_alt : bool }.
Record Pointer : Type := mkPointer {
  p_screen_w : Z; p_screen_h : Z; p_x : Z; p_y : Z; p_abs_x : option Z; p_abs_y : option Z; p_rel_dx : Z; p_rel_dy : Z;
}.
Record VirtioMmioInput : Type := mkVinput { v_q : VirtQueue; v_buf_phys : Z; v_mods : Mods; v_ptr : Pointer }.
Definition VirtioMmioInput_init (base screen_w screen_h : Z) : VirtioMmioInput :=
  mkVinput (mkVirtQueue base 0 0 0 0 0 0 0 0) 0 (mkMods false false false)
    (mkPointer screen_w screen_h (screen_w / 2) (screen_h / 2) None None 0 0).
Definition k_phys (version desc avail used : Z) (k : VirtQueue) : VirtQueue :=
  mkVirtQueue (k_dev_base k) (k_q_idx k) version (k_next_desc k) (k_avail_idx k) (k_last_used k) desc avail used.
Definition v_set_q q d := mkVinput q (v_buf_phys d) (v_mods d) (v_ptr d).
Definition v_set_buf b d := mkVinput (v_q d) b (v_mods d) (v_ptr d).
Definition v_set_mods m d := mkVinput (v_q d) (v_buf_phys d) m (v_ptr d).
Definition v_set_ptr p d := mkVinput (v_q d) (v_buf_phys d) (v_mods d) p.

(** ** Translation

    The module [kernel.gui.input]: whether its queue was created, and its
    state. *)

Definition gui_state : Type := bool * Gui.
Definition gui_init (g : gui_state) : gui_state := (true, snd g).
Abbreviation tr := (M (Mods * Pointer * gui_state)).
(** [if queue != None: queue.post(ev)] *)
Definition post_if (ev : Event) : tr unit := fun s =>
  let '(d, (ready, g)) := s in
  if ready : bool then let (r, g) := post ev g in (r, (d, (ready, g))) else (Ok tt, s).
Definition on_ptr (f : Pointer -> Pointer) : tr unit := modify (fun s => let '(m, p, g) := s in (m, f p, g)).
Definition set_mod (f : Mods -> Mods) : tr unit := modify (fun s => let '(m, p, g) := s in (f m, p, g)).
Definition mods_mask (m : Mods) : Z :=
  let mods := 0 in
  let mods := if m_shift m then Z.lor mods MOD_SHIFT else mods in
  let mods := if m_ctrl m then Z.lor mods MOD_CTRL else mods in
  if m_alt m then Z.lor mods MOD_ALT else mods.

Definition add_rel (code value : Z) (p : Pointer) : Pointer :=
  if code =? _REL_X then mkPointer (p_screen_w p) (p_screen_h p) (p_x p) (p_y p) (p_abs_x p) (p_abs_y p) (p_rel_dx p + _signed32 value) (p_rel_dy p)
  else if code =? _REL_Y then mkPointer (p_screen_w p) (p_screen_h p) (p_x p) (p_y p) (p_abs_x p) (p_abs_y p) (p_rel_dx p) (p_rel_dy p + _signed32 value)
  else p.
Definition set_abs (code value : Z) (p : Pointer) : Pointer :=
  if code =? _ABS_X then mkPointer (p_screen_w p) (p_screen_h p) (p_x p) (p_y p) (Some value) (p_abs_y p) (p_rel_dx p) (p_rel_dy p)
  else if code =? _ABS_Y then mkPointer (p_screen_w p) (p_screen_h p) (p_x p) (p_y p) (p_abs_x p) (Some value) (p_rel_dx p) (p_rel_dy p)
  else p.

Definition on_screen (size v : Z) : Z := Z.max 0 (Z.min (size - 1) v).
(** The two halves of [_flush_pointer]: the pointer, the change so far and
    whether it counts as a move. *)
Definition flush_abs (p : Pointer) : Pointer * Z * Z * bool :=
  match p_abs_x p, p_abs_y p with
  | None, None => (p, 0, 0, false)
  | ax, ay =>
      let new_x := match ax with Some v => (v * (p_screen_w p - 1)) / (_TABLET_RANGE - 1) | None => p_x p end in
      let new_y := match ay with Some v => (v * (p_screen_h p - 1)) / (_TABLET_RANGE - 1) | None => p_y p end in
      let dx := new_x - p_x p in
      let dy := new_y - p_y p in
      (mkPointer (p_screen_w p) (p_screen_h p) (on_screen (p_screen_w p) new_x) (on_screen (p_screen_h p) new_y) None None (p_rel_dx p) (p_rel_dy p),
       dx, dy, negb (dx =? 0) || negb (dy =? 0))
  end.
Definition flush_rel (r : Pointer * Z * Z * bool) : Pointer * Z * Z * bool :=
  let '(p, dx, dy, moved) := r in
  if negb (p_rel_dx p =? 0) || negb (p_rel_dy p =? 0) then
    (mkPointer (p_screen_w p) (p_screen_h p) (on_screen (p_screen_w p) (p_x p + p_rel_dx p)) (on_screen (p_screen_h p) (p_y p + p_rel_dy p))
       (p_abs_x p) (p_abs_y p) 0 0, dx + p_rel_dx p, dy + p_rel_dy p, true)
  else (p, dx, dy, moved).
Definition _flush_pointer : tr unit :=
  let! (_, p, (ready, _)) := get in
  if negb ready then ret tt else
  let '(p, dx, dy, moved) := flush_rel (flush_abs p) in
  on_ptr (fun _ => p) ;;;
  if moved : bool then post_if (plain_event MOUSE_MOVE 0 [] 0 (p_x p) (p_y p) dx dy) else ret tt.

Definition key_kind (is_press : bool) : Z := if is_press then EVENT_KEY_DOWN else EVENT_KEY_UP.
Definition _post_modifier (code : Z) (is_press : bool) : tr unit :=
  let keycode := match dget code _EV_TO_KEY with Some k => k | None => KEY_NONE end in
  if keycode =? KEY_NONE then ret tt else
  let! (m, _, _) := get in
  post_if (plain_event (key_kind is_press) keycode [] (mods_mask m) 0 0 0 0).

Definition _emit (type_ code value : Z) : tr unit :=
  if type_ =? EV_REL then on_ptr (add_rel code value)
  else if type_ =? EV_ABS then on_ptr (set_abs code value)
  else if type_ =? EV_SYN then _flush_pointer
  else if negb (type_ =? EV_KEY) then ret tt
  else
    let is_press := negb (value =? 0) in
    match dget code _BTN_TO_INDEX with
    | Some i =>
        let! (_, p, _) := get in
        post_if (plain_event (if is_press then MOUSE_DOWN else MOUSE_UP) i [] 0 (p_x p) (p_y p) 0 0)
    | None =>
        if (code =? _EV_LSHIFT) || (code =? _EV_RSHIFT) then set_mod (fun m => mkMods is_press (m_ctrl m) (m_alt m)) ;;; _post_modifier code is_press
        else if (code =? _EV_LCTRL) || (code =? _EV_RCTRL) then set_mod (fun m => mkMods (m_shift m) is_press (m_alt m)) ;;; _post_modifier code is_press
        else if (code =? _EV_LALT) || (code =? _EV_RALT) then set_mod (fun m => mkMods (m_shift m) (m_ctrl m) is_press) ;;; _post_modifier code is_press
        else
          let! (m, _, _) := get in
          match dget code _EV_TO_CHARS with
          | Some (unshifted, shifted) =>
              let ch := if m_shift m then shifted else unshifted in
              post_if (plain_event (key_kind is_press) ch [ch] (mods_mask m) 0 0 0 0)
          | None =>
              match dget code _EV_TO_KEY with
              | Some keycode => post_if (plain_event (key_kind is_press) keycode [] (mods_mask m) 0 0 0 0)
              | None => ret tt
              end
          end
    end.

(** ** The driver on its machine *)

Section driver.
Context {Dv : Type} `{Machine Dv}.
Abbreviation dio := (M (VirtioMmioInput * Hw Dv)).
Definition d_hw {A} (m : M (Hw Dv) A) : dio A := zoom snd (fun h s => (fst s, h)) m.
Definition d_self {A} (f : VirtioMmioInput -> A) : dio A := gets (fun s => f (fst s)).
Definition d_set (f : VirtioMmioInput -> VirtioMmioInput) : dio unit := modify (fun s => (f (fst s), snd s)).

Definition _write_desc (idx addr length flags nxt : Z) : dio unit :=
  let! q := d_self v_q in d_hw (write_desc q idx addr length flags nxt).
Definition _avail_push (head : Z) : dio unit :=
  let! q := d_self v_q in
  let! q := d_hw (avail_push QUEUE_SIZE q head) in
  d_set (v_set_q q).
Definition _used_idx : dio Z :=
  let! q := d_self v_q in
  let! w := d_hw (mmio_read32 (k_used q + 0)) in
  ret (Z.shiftr w 16).
Definition _used_pop : dio Z :=
  let! q := d_self v_q in
  let slot := k_last_used q mod QUEUE_SIZE in
  let ring := k_used q + 4 + slot * 8 in
  let! desc_id := d_hw (mmio_read32 ring) in
  d_set (v_set_q (k_pop (Z.land (k_last_used q + 1) 0xFFFF) q)) ;;;
  ret (Z.land desc_id 0xFFFFFFFF).
Definition word (l : bytes) (k n : nat) : Z :=
  fold_left (fun v i => Z.lor v (Z.shiftl (nth (k + i) l 0) (8 * Z.of_nat i))) (seq 1 (n - 1)) (nth k l 0).
Definition _decode_one (desc_id : Z) : dio (Z * Z * Z) :=
  let! buf := d_self v_buf_phys in
  let addr := buf + desc_id * EVENT_SIZE in
  let! b := map_m [0; 1; 2; 3; 4; 5; 6; 7] (fun i => d_hw (mmio_read8 (addr + i))) in
  ret (word b 0 2, word b 2 2, word b 4 4).

Definition probe : dio bool :=
  let! base := d_self (fun d => k_dev_base (v_q d)) in
  let r32 off := d_hw (mmio_read32 (base + off)) in
  let w32 off v := d_hw (mmio_write32 (base + off) v) in
  let! magic := r32 0x000 in
  if negb (magic =? VIRTIO_MAGIC) then ret false else
  let! version := r32 0x004 in
  if negb ((version =? 1) || (version =? 2)) then ret false else
  let! dev := r32 0x008 in
  if negb (dev =? VIRTIO_DEV_INPUT) then ret false else
  d_set (fun d => v_set_q (k_phys version 0 0 0 (v_q d)) d) ;;;
  w32 0x070 0 ;;;
  w32 0x070 STATUS_ACK ;;;
  w32 0x070 (Z.lor STATUS_ACK STATUS_DRIVER) ;;;
  (if version =? 1 then w32 0x028 PAGE_SIZE ;;; w32 0x020 0
   else w32 0x024 0 ;;; w32 0x020 0 ;;; w32 0x024 1 ;;; w32 0x020 0) ;;;
  w32 0x070 (Z.lor (Z.lor STATUS_ACK STATUS_DRIVER) STATUS_FEATURES) ;;;
  w32 0x030 0 ;;;
  w32 0x038 QUEUE_SIZE ;;;
  let desc_sz := QUEUE_SIZE * 16 in
  let avail_sz := 4 + QUEUE_SIZE * 2 + 2 in
  let avail_off := desc_sz in
  let used_off := Z.land (avail_off + avail_sz + PAGE_SIZE - 1) (Z.lnot (PAGE_SIZE - 1)) in
  let used_sz := 4 + QUEUE_SIZE * 8 + 2 in
  let total := used_off + used_sz in
  let! raw := d_hw (dma_alloc (total + PAGE_SIZE)) in
  let base_phys := Z.land (raw + PAGE_SIZE - 1) (Z.lnot (PAGE_SIZE - 1)) in
  let avail := base_phys + avail_off in
  let used := base_phys + used_off in
  d_set (fun d => v_set_q (k_phys version base_phys avail used (v_q d)) d) ;;;
  (if version =? 1 then w32 0x03C PAGE_SIZE ;;; w32 0x040 (Z.shiftr base_phys 12)
   else
     w32 0x080 (Z.land base_phys 0xFFFFFFFF) ;;;
     w32 0x084 (Z.land (Z.shiftr base_phys 32) 0xFFFFFFFF) ;;;
     w32 0x090 (Z.land avail 0xFFFFFFFF) ;;;
     w32 0x094 (Z.land (Z.shiftr avail 32) 0xFFFFFFFF) ;;;
     w32 0x0A0 (Z.land used 0xFFFFFFFF) ;;;
     w32 0x0A4 (Z.land (Z.shiftr used 32) 0xFFFFFFFF) ;;;
     w32 0x044 1) ;;;
  let! buf := d_hw (dma_alloc (QUEUE_SIZE * EVENT_SIZE)) in
  d_set (v_set_buf buf) ;;;
  for_each (range QUEUE_SIZE) (fun i => _write_desc i (buf + i * EVENT_SIZE) EVENT_SIZE VRING_DESC_F_WRITE 0 ;;; _avail_push i) ;;;
  w32 0x070 (Z.lor (Z.lor (Z.lor STATUS_ACK STATUS_DRIVER) STATUS_FEATURES) STATUS_DRIVER_OK) ;;;
  w32 0x050 0 ;;;
  ret true.

(** ** The polling task *)

Abbreviation io := (M (VirtioMmioInput * gui_state * Hw Dv)).
Definition on_dev {A} (m : dio A) : io A := zoom (fun s => (fst (fst s), snd s)) (fun d s => (fst d, snd (fst s), snd d)) m.
Definition on_tr {A} (m : tr A) : io A :=
  zoom (fun s => (v_mods (fst (fst s)), v_ptr (fst (fst s)), snd (fst s)))
       (fun t s => let '(md, p, g) := t in (v_set_ptr p (v_set_mods md (fst (fst s))), g, snd s)) m.

(** [while (self._last_used & 0xFFFF) != target]: the index has 16 bits, so
    [fuel] of that many turns is enough. *)
Fixpoint drain (fuel : nat) (target : Z) : io unit :=
  match fuel with
  | O => ret tt
  | S fuel =>
      let! q := on_dev (d_self v_q) in
      if Z.land (k_last_used q) 0xFFFF =? target then ret tt
      else
        let! desc_id := on_dev _used_pop in
        let! (t, c, v) := on_dev (_decode_one desc_id) in
        on_tr (_emit t c v) ;;;
        on_dev (_avail_push desc_id) ;;;
        drain fuel target
  end.
(** The task from one sleep to the next. *)
Definition run_turn : io unit :=
  let! w := on_dev _used_idx in
  let target := Z.land w 0xFFFF in
  drain (Z.to_nat 65536) target ;;;
  let! base := on_dev (d_self (fun d => k_dev_base (v_q d))) in
  on_dev (d_hw (mmio_write32 (base + 0x050) 0)).

(** ** Discovery *)

Fixpoint scan (slots : list Z) (screen_w screen_h : Z) : M (Hw Dv) (list VirtioMmioInput) :=
  match slots with
  | [] => ret []
  | i :: slots =>
      let base := VIRTIO_MMIO_BASE + i * VIRTIO_MMIO_STRIDE in
      let! magic := mmio_read32 (base + 0x000) in
      if negb (magic =? VIRTIO_MAGIC) then scan slots screen_w screen_h else
      let! dev := mmio_read32 (base + 0x008) in
      if negb (dev =? VIRTIO_DEV_INPUT) then scan slots screen_w screen_h else
      let! (ok, dev) := (fun h => let '(r, (d, h)) := probe (VirtioMmioInput_init base screen_w screen_h, h) in
                                  (match r with Ok b => Ok (b, d) | Err e => Err e end, h)) in
      let! devs := scan slots screen_w screen_h in
      ret (if ok : bool then dev :: devs else devs)
  end.
Definition find_all_virtio_input (screen_w screen_h : Z) : M (Hw Dv) (list VirtioMmioInput) := scan (range VIRTIO_MMIO_DEVS) screen_w screen_h.
Definition find_virtio_input : M (Hw Dv) (option VirtioMmioInput) :=
  let! devs := find_all_virtio_input 1024 768 in ret (head devs).
(** The devices whose polling task is to be spawned. *)
Definition install_virtio_input_bridge (screen_w screen_h : Z) : M (gui_state * Hw Dv) (list VirtioMmioInput) :=
  let! devs := zoom snd (fun h s => (fst s, h)) (find_all_virtio_input screen_w screen_h) in
  match devs with
  | [] => ret []
  | _ => modify (fun s => (gui_init (fst s), snd s)) ;;; ret devs
  end.
End driver.
