(* ===== verification/VirtioInputProps.v ===== *)
(** * What an input device reports is translated once, in order

    The driver, its memory and a device that fills the buffers it was offered
    and returns them at its own pace.  Then the translation: the pointer stays
    on the screen, a tablet's corners are those of the screen, and what is
    posted for a key. *)

From Stdlib Require Import ZArith Lia.
From stdpp Require Import base list gmap numbers strings.
From S2P Require Import Prelude Bytes Pystr Dict Hw Virtio VirtioSpec VirtioMem Virtqueue Vring Input VirtioInput.

Local Open Scope Z_scope.

(** ** The reference *)

(** An event of the device: type, code and value. *)
Definition report : Type := Z * Z * Z.
Definition report_ok (e : report) : Prop := 0 <= e.1.1 < 65536 /\ 0 <= e.1.2 < 65536 /\ 0 <= e.2 < 2 ^ 32.
Definition report_bytes (e : report) : bytes := le_bytes 2 e.1.1 ++ le_bytes 2 e.1.2 ++ le_bytes 4 e.2.

(** Reports not yet seen and seen by the driver; buffers offered to the device
    and held by it. *)
Record log : Type := mkLog { l_waiting : list report; l_seen : list report; l_offered : nat; l_held : nat }.
Inductive step : Type := Take | Report (k : nat) (e : report) | Turn.
Definition log_step (a : step) (l : log) : log :=
  match a with
  | Take => match l_offered l with S n => mkLog (l_waiting l) (l_seen l) n (S (l_held l)) | O => l end
  | Report k e => if (k <? l_held l)%nat then mkLog (l_waiting l ++ [e]) (l_seen l) (l_offered l) (pred (l_held l)) else l
  | Turn => mkLog [] (l_seen l ++ l_waiting l) (l_offered l + length (l_waiting l)) (l_held l)
  end.
Definition log_steps (l : list step) (s : log) : log := fold_left (fun s a => log_step a s) l s.
(** All 32 buffers are offered. *)
Definition log_init : log := mkLog [] [] 32 0.

Definition emits (l : list report) : M (Mods * Pointer * gui_state) unit := for_each l (fun e => _emit e.1.1 e.1.2 e.2).

(** ** The system *)

Section system.
Context {Dv : Type} `{Machine Dv} (q : Vq).
Record isys : Type := mkIsys { y_st : VirtioMmioInput * gui_state * Hw Dv; y_dev : Peer }.
Definition y_tr (y : isys) : Mods * Pointer * gui_state := (v_mods (fst (fst (y_st y))), v_ptr (fst (fst (y_st y))), snd (fst (y_st y))).
(** Returning the [k]-th buffer it holds, the device writes the event where the
    descriptor says. *)
Definition isys_step (a : step) (y : isys) : result unit * isys :=
  let '(mkIsys (d, g, h) p) := y in
  match a with
  | Take => (Ok tt, mkIsys (d, g, h) (peer_take q (h_mem h) p))
  | Report k e =>
      match pe_pending p !! k with
      | Some head =>
          let ds := desc_at (h_mem h) q head in
          (Ok tt, mkIsys (d, g, setm h (use_mem q (pe_used p) head 8 (mwrite (h_mem h) (d_addr ds) (take (Z.to_nat (d_len ds)) (report_bytes e))))) (peer_use k p))
      | None => (Ok tt, y)
      end
  | Turn => let (r, st) := run_turn (d, g, h) in (r, mkIsys st p)
  end.
Fixpoint isys_steps (l : list step) (y : isys) : result unit * isys :=
  match l with
  | [] => (Ok tt, y)
  | a :: l => match isys_step a y with (Ok _, y) => isys_steps l y | (Err e, y) => (Err e, y) end
  end.
End system.
Arguments mkIsys {Dv}. Arguments y_st {Dv}. Arguments y_dev {Dv}.

Section vinput.
Context {Dv : Type} `{Machine Dv} (base : Z) (q : Vq) (buf : Z).

(** What the probe leaves: a queue of 32 and the event buffers, apart, in
    memory, and a device that leaves memory alone while it is notified. *)
Record vi_fit : Prop := {
  vf_q : queue_fit q;
  vf_num : q_num q = QUEUE_SIZE;
  vf_ring_ram : ram (q_desc q) (q_end q - q_desc q);
  vf_buf_ram : ram buf 256;
  vf_apart : buf + 256 <= q_desc q \/ q_end q <= buf;
  vf_range : 0 <= buf < 2 ^ 64 - 256;
  vf_bell : dev_claims (base + 0x050) = true;
  vf_quiet v d m : snd (dev_write (base + 0x050) v d m) = m;
}.
Context (fit : vi_fit).
Definition slot (s : Z) : Prop := 0 <= s < 32.

Record vi_mem (x : heads) (m : mem) (waiting : list report) : Prop := {
  vm_ring : in_ring q x m;
  vm_offered : forall s, slot s -> mread m (q_desc q + s * 16) 16 = desc_bytes (buf + s * 8) 8 VRING_DESC_F_WRITE 0;
  vm_waiting : Forall2 (fun p e => report_ok e /\ mread m (buf + p.1 * 8) 8 = report_bytes e) (r_back x) waiting;
}.
Record vi_dev (x : heads) (d : VirtioMmioInput) : Prop := {
  vd_queue : queue_rel q x (v_q d);
  vd_base : k_dev_base (v_q d) = base;
  vd_buf : v_buf_phys d = buf;
}.
Definition all_slots (x : heads) : Prop := all_heads x ≡ₚ range 32.
Definition vi_rel (y : @isys Dv) (l : log) (s0 : Mods * Pointer * gui_state) : Prop :=
  exists x, vi_dev x (fst (fst (y_st y))) /\ vi_mem x (h_mem (snd (y_st y))) (l_waiting l) /\ peer_rel x (y_dev y) /\ all_slots x /\
    length (r_wait x) = l_offered l /\ length (r_play x) = l_held l /\ y_tr y = snd (emits (l_seen l) s0).

Lemma slot_of x s : all_slots x -> s ∈ all_heads x -> slot s.
Proof. intros Hp Hs. unfold all_slots in Hp. rewrite Hp in Hs. unfold range in Hs. by apply elem_of_range2 in Hs. Qed.
Lemma ends : q_desc q + 512 <= q_avail q /\ q_avail q + 70 <= q_used q /\ q_end q = q_used q + 260 /\ q_num q = 32.
Proof. pose proof (vf_num fit) as E. unfold QUEUE_SIZE in E. pose proof (qf_avail q (vf_q fit)). pose proof (qf_used q (vf_q fit)). unfold q_end. lia. Qed.

(** Writes to the rings, and into a buffer that has not been returned. *)
Lemma ring_part_write x m w a l : vi_mem x m w -> all_slots x -> in_ring q x (mwrite m a l) -> q_avail q <= a -> a + len l <= q_end q -> vi_mem x (mwrite m a l) w.
Proof.
  intros [M1 M2 M3] Hs Hr Ha He. destruct ends as (E1 & E2 & E3 & E4). pose proof (vf_apart fit). split; [done|..].
  - intros s Hs'. unfold slot in Hs'. rewrite mread_mwrite_out by lia. by apply M2.
  - apply (Forall2_elem _ _ _ _ M3). intros p e Hp [Ho He']. split; [done|]. assert (Hsl : slot p.1).
    { apply (slot_of x); [done|]. unfold all_heads. rewrite !elem_of_app. right. right. apply list_elem_of_In, in_map. by apply list_elem_of_In. }
    unfold slot in Hsl. rewrite mread_mwrite_out by lia. done.
Qed.

(** ** The device's moves *)

Lemma take_moves y l s0 : vi_rel y l s0 -> exists y', isys_step q Take y = (Ok tt, y') /\ vi_rel y' (log_step Take l) s0.
Proof.
  destruct y as [[[d g] h] p]. intros (x & [D1 D2 D3] & [M1 M2 M3] & Hp & Hs & C1 & C2 & Ht). cbn [y_st y_dev fst snd isys_step] in *.
  destruct (take_ring q (vf_q fit) x (h_mem h) p M1 Hp) as [Hr Hp']. eexists. split; [reflexivity|]. exists (take_head x). cbn [y_st y_dev fst snd log_step].
  assert (Eb : r_back (take_head x) = r_back x) by (unfold take_head; by destruct (r_wait x)).
  split; [|split; [|split; [exact Hp'|split]]].
  - split; try done. by apply take_queue.
  - split; try done; rewrite ?Eb; by destruct (l_offered l).
  - unfold all_slots. by rewrite take_perm.
  - unfold take_head in *. destruct (r_wait x) as [|a w] eqn:Ew; cbn [length] in C1; rewrite <- C1; cbn [r_wait r_play l_offered l_held l_seen]; [by rewrite Ew|].
    rewrite length_app. cbn [length]. split; [done|]. split; [lia|done].
Qed.
Lemma len_report e : len (report_bytes e) = 8.
Proof. unfold report_bytes. by autorewrite with len. Qed.
Lemma report_moves k e y l s0 : report_ok e -> vi_rel y l s0 -> exists y', isys_step q (Report k e) y = (Ok tt, y') /\ vi_rel y' (log_step (Report k e) l) s0.
Proof.
  destruct y as [[[d g] h] p]. intros Hok (x & [D1 D2 D3] & Hm & Hp & Hs & C1 & C2 & Ht). pose proof Hm as [M1 M2 M3]. cbn [y_st y_dev fst snd isys_step log_step] in *.
  pose proof Hp as (_ & Ep & _). rewrite Ep. destruct (r_play x !! k) as [s|] eqn:Ek.
  2:{ apply lookup_ge_None_1 in Ek. replace (k <? l_held l)%nat with false by (symmetry; apply Nat.ltb_ge; lia). eexists. split; [reflexivity|]. by exists x. }
  replace (k <? l_held l)%nat with true by (symmetry; apply Nat.ltb_lt; apply lookup_lt_Some in Ek; lia).
  assert (Hin : s ∈ all_heads x) by (unfold all_heads; rewrite !elem_of_app; right; left; by eapply list_elem_of_lookup_2).
  pose proof (slot_of x s Hs Hin) as Hsl. unfold slot in Hsl. pose proof (vf_range fit). destruct ends as (E1 & E2 & E3 & E4). pose proof (vf_apart fit).
  unfold VRING_DESC_F_WRITE in *. rewrite (desc_at_bytes _ _ _ _ _ _ _ (M2 s Hsl)) by lia. cbn [d_addr d_len].
  rewrite take_ge by (pose proof (len_report e); unfold len in *; lia). set (m1 := mwrite (h_mem h) (buf + s * 8) (report_bytes e)).
  assert (Hns : s ∉ map fst (r_back x)).
  { assert (HN : NoDup (all_heads x)) by (unfold all_slots in Hs; rewrite Hs; apply NoDup_range2). unfold all_heads in HN. apply list.NoDup_app in HN as (_ & _ & HN). apply list.NoDup_app in HN as (_ & HN & _).
    apply HN. by eapply list_elem_of_lookup_2. }
  assert (Hm1 : vi_mem x m1 (l_waiting l)).
  { unfold m1. split.
    - apply ring_elsewhere; [apply fit|done|]. rewrite len_report. lia.
    - intros j Hj. unfold slot in Hj. rewrite mread_mwrite_out by (rewrite len_report; lia). by apply M2.
    - apply (Forall2_elem _ _ _ _ M3). intros pr e' Hpr [Ho He']. split; [done|].
      assert (Hj : pr.1 ∈ map fst (r_back x)) by (apply list_elem_of_In, in_map; by apply list_elem_of_In).
      assert (Hjs : slot pr.1) by (apply (slot_of x); [done|]; unfold all_heads; rewrite !elem_of_app; auto). unfold slot in Hjs.
      assert (pr.1 <> s) by (intros Ee; by rewrite Ee in Hj). rewrite mread_mwrite_out by (rewrite len_report; lia). done. }
  rewrite <- Ep in Ek. pose proof Hm1 as [N1 N2 N3].
  destruct (use_ring q (vf_q fit) x m1 p k s 8 N1 Hp Ek ltac:(lia)) as (Ek' & Hr & Hp').
  eexists. split; [reflexivity|]. exists (return_head k s 8 x). cbn [y_st y_dev fst snd setm h_mem].
  split; [|split; [|split; [done|split]]].
  - split; try done.
  - split; cbn [return_head r_back l_waiting]; [done| |].
    + apply (use_mem_writes q _ _ _ _ (fun m => forall j, slot j -> mread m (q_desc q + j * 16) 16 = desc_bytes (buf + j * 8) 8 2 0) (vf_q fit) N2).
      intros m a w Hx Ha He j Hj. unfold slot in Hj. rewrite mread_mwrite_out by lia. by apply Hx.
    + apply Forall2_app.
      * apply (Forall2_elem _ _ _ _ N3). intros pr e' Hpr [Ho He']. split; [done|].
        assert (Hj : pr.1 ∈ map fst (r_back x)) by (apply list_elem_of_In, in_map; by apply list_elem_of_In).
        assert (Hjs : slot pr.1) by (apply (slot_of x); [done|]; unfold all_heads; rewrite !elem_of_app; auto). unfold slot in Hjs.
        apply (use_mem_writes q _ _ _ _ (fun m => mread m (buf + pr.1 * 8) 8 = report_bytes e') (vf_q fit) He').
        intros m a w Hx Ha He. rewrite mread_mwrite_out by lia. done.
      * constructor; [|constructor]. split; [done|]. cbn [fst].
        apply (use_mem_writes q _ _ _ _ (fun m => mread m (buf + s * 8) 8 = report_bytes e) (vf_q fit)); [unfold m1; apply mread_mwrite_same; pose proof (len_report e); unfold len in *; lia|].
        intros m a w Hx Ha He. rewrite mread_mwrite_out by lia. done.
  - unfold all_slots. by rewrite return_perm.
  - cbn [return_head r_wait r_play l_offered l_held l_seen]. split; [done|]. split; [|done]. rewrite length_delete by (by eexists). lia.
Qed.

(** ** The driver's turn *)

Lemma dev_step {A} (m : M (VirtioMmioInput * Hw Dv) A) d g h r d' h' : m (d, h) = (r, (d', h')) -> on_dev m (d, g, h) = (r, (d', g, h')).
Proof. intros E. unfold on_dev, zoom. cbn [fst snd]. by rewrite E. Qed.
Lemma hw_step {A} (m : M (Hw Dv) A) d h r h' : m h = (r, h') -> d_hw m (d, h) = (r, (d, h')).
Proof. intros E. unfold d_hw, zoom. cbn [fst snd]. by rewrite E. Qed.
Lemma hw_map {A B} (l : list A) (f : A -> M (Hw Dv) B) d h : map_m l (fun i => d_hw (f i)) (d, h) = d_hw (map_m l f) (d, h).
Proof.
  revert h. induction l as [|a l IH]; intros h; [done|]. cbn [map_m]. unfold d_hw, bind, zoom in *. cbn [fst snd] in *.
  destruct (f a h) as [[b|e] h1]; [|done]. rewrite IH. by destruct (map_m l f h1) as [[bs|e] h2].
Qed.

Lemma lor4 b0 b1 b2 b3 : byte_ok b0 -> byte_ok b1 -> byte_ok b2 -> byte_ok b3 ->
  Z.lor b0 (Z.shiftl b1 8) = le_val [b0; b1] /\ Z.lor (Z.lor (Z.lor b0 (Z.shiftl b1 8)) (Z.shiftl b2 16)) (Z.shiftl b3 24) = le_val [b0; b1; b2; b3].
Proof.
  unfold byte_ok. intros ????. assert (2 ^ 8 = 256 /\ 2 ^ 16 = 65536 /\ 2 ^ 24 = 16777216) as (P1 & P2 & P3) by done. cbn [le_val].
  rewrite (lor_shiftl b0 b1 8), (lor_shiftl _ b2 16), (lor_shiftl _ b3 24); lia.
Qed.
Lemma word_le n v l k : take n (drop k l) = le_bytes n v -> (n = 2%nat \/ n = 4%nat) -> 0 <= v < 256 ^ Z.of_nat n -> word l k n = v.
Proof.
  intros Hl Hn Hv. assert (Hnth : forall i, (i < n)%nat -> nth (k + i) l 0 = nth i (le_bytes n v) 0).
  { intros i Hi. rewrite <- Hl. rewrite !nth_lookup, lookup_take_lt, lookup_drop by done. done. }
  pose proof (Hnth 0%nat) as H0. rewrite Nat.add_0_r in H0. transitivity (le_val (le_bytes n v)); [|by apply le_val_le_bytes]. pose proof (le_bytes_ok n v) as Hb.
  destruct Hn as [->| ->]; unfold word; cbn [seq fold_left Nat.sub]; rewrite H0, ?(Hnth 1%nat), ?(Hnth 2%nat), ?(Hnth 3%nat) by lia;
    cbn [le_bytes nth]; cbn [le_bytes] in Hb; repeat (apply list.Forall_cons in Hb as [? Hb]); change (8 * Z.of_nat 1) with 8; change (8 * Z.of_nat 2) with 16; change (8 * Z.of_nat 3) with 24.
  - by apply (lor4 _ _ 0 0).
  - by apply lor4.
Qed.
Lemma decode_report d h s e : v_buf_phys d = buf -> slot s -> report_ok e -> mread (h_mem h) (buf + s * 8) 8 = report_bytes e ->
  _decode_one s (d, h) = (Ok e, (d, h)).
Proof.
  intros Eb Hs (H1 & H2 & H3) Hm. unfold slot in Hs. unfold _decode_one. erewrite bind_step by reflexivity. cbn [fst]. rewrite Eb. unfold EVENT_SIZE.
  assert (E : map_m [0; 1; 2; 3; 4; 5; 6; 7] (fun i => d_hw (mmio_read8 (buf + s * 8 + i))) (d, h) = (Ok (report_bytes e), (d, h))).
  { rewrite hw_map. apply hw_step. change [0; 1; 2; 3; 4; 5; 6; 7] with (range2 0 (0 + Z.of_nat 8)). rewrite copy_from_from; [|apply (ram_sub _ _ _ _ (vf_buf_ram fit)); lia|lia].
    by rewrite Z.add_0_r, Hm. }
  cbv zeta. rewrite (bind_step _ _ _ _ _ E). unfold ret. destruct e as [[t c] v]. unfold report_bytes in *. cbn [fst snd] in *.
  rewrite (word_le 2 t), (word_le 2 c), (word_le 4 v); auto; lia.
Qed.

(** What the translation does is a function of the report, and never fails. *)
Definition total (m : M (Mods * Pointer * gui_state) unit) : Prop := forall s, exists s', m s = (Ok tt, s').
Lemma total_ret : total (ret tt).
Proof. by eexists. Qed.
Lemma total_modify f : total (modify f).
Proof. by eexists. Qed.
Lemma total_post ev : total (post_if ev).
Proof. intros [[m p] [[] g]]; by eexists. Qed.
Lemma total_bind m k : total m -> total k -> total (m ;;; k).
Proof. intros Hm Hk s. destruct (Hm s) as [s1 E]. destruct (Hk s1) as [s2 E2]. exists s2. by rewrite (bind_step _ _ _ _ _ E). Qed.
Lemma total_get (f : Mods * Pointer * gui_state -> M _ unit) : (forall s, total (f s)) -> total (bind get f).
Proof. intros Hf s. apply Hf. Qed.
Lemma total_if (b : bool) m k : total m -> total k -> total (if b then m else k).
Proof. by destruct b. Qed.
Lemma total_modifier c b : total (_post_modifier c b).
Proof. unfold _post_modifier. cbv zeta. apply total_if; [apply total_ret|]. apply total_get. intros [[m p] g]. apply total_post. Qed.
Lemma total_flush : total _flush_pointer.
Proof.
  apply total_get. intros [[m p] [ready g]]. apply total_if; [apply total_ret|]. destruct (flush_rel _) as [[[p1 dx] dy] moved].
  apply total_bind; [apply total_modify|]. apply total_if; [apply total_post|apply total_ret].
Qed.
Lemma emit_total t c v : total (_emit t c v).
Proof.
  unfold _emit. repeat (apply total_if; [first [apply total_modify | apply total_flush | apply total_ret]|]).
  destruct (dget c _BTN_TO_INDEX); [apply total_get; intros [[m p] g]; apply total_post|].
  do 3 (apply total_if; [apply total_bind; [apply total_modify|apply total_modifier]|]). apply total_get. intros [[m p] g].
  destruct (dget c _EV_TO_CHARS) as [[u s]|]; [apply total_post|]. destruct (dget c _EV_TO_KEY); [apply total_post|apply total_ret].
Qed.
Lemma emits_cons (e : report) (l : list report) s s1 : _emit e.1.1 e.1.2 e.2 s = (Ok tt, s1) -> emits (e :: l) s = emits l s1.
Proof. intros E. unfold emits. cbn [for_each]. by rewrite (bind_step _ _ _ _ _ E). Qed.
Lemma emits_app (l1 l2 : list report) s : snd (emits (l1 ++ l2) s) = snd (emits l2 (snd (emits l1 s))).
Proof.
  revert s. induction l1 as [|e l1 IH]; intros s; [done|]. destruct (emit_total e.1.1 e.1.2 e.2 s) as [s1 E]. change ((e :: l1) ++ l2) with (e :: (l1 ++ l2)).
  by rewrite (emits_cons e (l1 ++ l2) s s1 E), (emits_cons e l1 s s1 E), IH.
Qed.

Lemma emit_step d g (h : Hw Dv) (e : report) md p g' : _emit e.1.1 e.1.2 e.2 (v_mods d, v_ptr d, g) = (Ok tt, (md, p, g')) ->
  on_tr (_emit e.1.1 e.1.2 e.2) (d, g, h) = (Ok tt, (v_set_ptr p (v_set_mods md d), g', h)).
Proof. intros E. unfold on_tr, zoom. cbn [fst snd]. by rewrite E. Qed.

Lemma drain_ok fuel x d g h w target : vi_dev x d -> vi_mem x (h_mem h) w -> all_slots x -> (length (r_back x) < fuel)%nat ->
  target = (r_seen x + len (r_back x)) mod 65536 ->
  exists x' d' g' h', drain fuel target (d, g, h) = (Ok tt, (d', g', h')) /\
    vi_dev x' d' /\ vi_mem x' (h_mem h') [] /\ all_slots x' /\ (forall pe, peer_rel x pe -> peer_rel x' pe) /\
    length (r_wait x') = (length (r_wait x) + length w)%nat /\ r_play x' = r_play x /\
    (v_mods d', v_ptr d', g') = snd (emits w (v_mods d, v_ptr d, g)).
Proof.
  revert x d g h w. induction fuel as [|fuel IH]; intros x d g h w Hd Hm Hs Hf Ht; [lia|]. pose proof Hd as [D1 D2 D3]. pose proof Hm as [M1 M2 M3].
  destruct ends as (E1 & E2 & E3 & E4). pose proof D1 as (_ & _ & _ & _ & Q5). cbn [drain]. erewrite bind_step by (apply dev_step; reflexivity). cbn [fst].
  change 0xFFFF with (2 ^ 16 - 1). rewrite land_mask, Q5 by lia. change (2 ^ 16) with 65536. rewrite Z.mod_mod by lia. subst target.
  destruct (r_back x) as [|p b] eqn:Eb.
  { change (len []) with 0. rewrite Z.add_0_r, Z.eqb_refl. assert (w = []) as -> by (by inversion M3). exists x, d, g, h. cbn [length]. rewrite Nat.add_0_r. split_and!; try done. }
  destruct w as [|e w]; [by inversion M3|]. pose proof M3 as M3'. apply list.Forall2_cons in M3' as [[He Hbytes] M4].
  pose proof (ir_room q _ _ M1) as Hr. rewrite all_heads_len, Eb, len_cons in Hr. pose proof (len_nonneg (r_wait x)). pose proof (len_nonneg (r_play x)). pose proof (len_nonneg b).
  rewrite len_cons. destruct (Z.eqb_spec (r_seen x mod 65536) ((r_seen x + (1 + len b)) mod 65536)) as [E|_].
  { apply (slots_differ (r_seen x) (r_seen x + (1 + len b)) 65536) in E; [done|lia..]. }
  assert (Hin : p.1 ∈ all_heads x) by (rewrite (drop_perm x p b Eb); by left). pose proof (slot_of x _ Hs Hin) as Hsl. unfold slot in Hsl.
  destruct (used_entry_ring q (vf_q fit) (vf_ring_ram fit) x (v_q d) p b h D1 M1 Eb) as (R1 & _ & Hp1 & _).
  set (k1 := k_pop ((k_last_used (v_q d) + 1) mod 65536) (v_q d)). set (d1 := v_set_q k1 d).
  assert (Ep : _used_pop (d, h) = (Ok p.1, (d1, h))).
  { unfold _used_pop. erewrite bind_step by reflexivity. cbn [fst]. change QUEUE_SIZE with 32. rewrite <- E4. cbv zeta. erewrite bind_step by (apply hw_step; exact R1).
    erewrite bind_step by reflexivity. unfold ret, d1, k1. cbn [fst snd]. change 0xFFFFFFFF with (2 ^ 32 - 1). change 0xFFFF with (2 ^ 16 - 1). rewrite !land_mask, Z.mod_small by lia. done. }
  rewrite (bind_step _ _ _ _ _ (dev_step _ _ g _ _ _ _ Ep)).
  rewrite (bind_step _ _ _ _ _ (dev_step _ _ g _ _ _ _ (decode_report d1 h p.1 e D3 Hsl He Hbytes))). destruct e as [[t c] v]. cbv beta iota.
  destruct (emit_total t c v (v_mods d, v_ptr d, g)) as [[[md pt] g1] Ee].
  rewrite (bind_step _ _ _ _ _ (emit_step d1 g h (t, c, v) md pt g1 Ee)). set (d2 := v_set_ptr pt (v_set_mods md d1)).
  assert (Hk1 : queue_rel q (drop_head x) k1) by (by apply drop_queue). set (k2 := k_push ((k_avail_idx k1 + 1) mod 65536) k1). set (h2 := setm h (pushed_mem q (k_avail_idx k1) p.1 (h_mem h))).
  assert (Ea : _avail_push p.1 (d2, h) = (Ok tt, (v_set_q k2 d2, h2))).
  { unfold _avail_push. erewrite bind_step by reflexivity. cbn [fst d2 v_set_ptr v_set_mods d1 v_set_q v_q]. change QUEUE_SIZE with 32. rewrite <- E4.
    erewrite bind_step by (apply hw_step, (avail_push_ring q (vf_q fit) (vf_ring_ram fit) (drop_head x)); done). done. }
  rewrite (bind_step _ _ _ _ _ (dev_step _ _ g1 _ _ _ _ Ea)).
  set (x2 := add_head p.1 (drop_head x)). assert (Eb2 : r_back x2 = b) by (unfold x2, add_head, drop_head; cbn [r_back]; by rewrite Eb).
  assert (Hs2 : all_slots x2) by (unfold all_slots, x2; rewrite add_perm, <- (drop_perm x p b Eb); exact Hs).
  assert (Hroom : len (all_heads (drop_head x)) < q_num q) by (rewrite all_heads_len; unfold drop_head; cbn [r_wait r_play r_back]; rewrite Eb; cbn [tail]; lia).
  assert (Hring : in_ring q (drop_head x) (h_mem h)) by (by eapply drop_ring).
  pose proof Hk1 as (_ & _ & _ & Ek & _).
  assert (Hm2 : vi_mem x2 (h_mem h2) w).
  { unfold h2. cbn [setm h_mem]. rewrite Ek. split.
    - apply push_ring; [apply fit|done|done|lia].
    - apply (pushed_mem_writes q _ _ _ (fun m => forall j, slot j -> mread m (q_desc q + j * 16) 16 = desc_bytes (buf + j * 8) 8 2 0) (vf_q fit) M2).
      intros m a l Hx Ha0 He0 j Hj. unfold slot in Hj. rewrite mread_mwrite_out by lia. by apply Hx.
    - rewrite Eb2. apply (Forall2_elem _ _ _ _ M4). intros pr e' Hpr [Ho He']. split; [done|].
      assert (Hjs : slot pr.1) by (apply (slot_of x); [done|]; unfold all_heads; rewrite !elem_of_app; right; right; rewrite Eb; right; apply list_elem_of_In, in_map; by apply list_elem_of_In). unfold slot in Hjs.
      pose proof (vf_apart fit). apply (pushed_mem_writes q _ _ _ (fun m => mread m (buf + pr.1 * 8) 8 = report_bytes e') (vf_q fit) He').
      intros m a l Hx Ha0 He0. rewrite mread_mwrite_out by lia. done. }
  assert (Hd2 : vi_dev x2 (v_set_q k2 d2)) by (split; cbn [v_set_q v_q v_buf_phys]; [by apply push_queue|done|done]).
  destruct (IH x2 (v_set_q k2 d2) g1 h2 w Hd2 Hm2 Hs2) as (x' & d' & g' & h' & E & A1 & A2 & A3 & A4 & A5 & A6 & A7).
  { rewrite Eb2. cbn [length] in Hf. lia. }
  { unfold x2, add_head, drop_head. cbn [r_seen r_back]. rewrite Eb. cbn [tail]. f_equal. rewrite ?len_cons. lia. }
  rewrite len_cons in E. exists x', d', g', h'. split; [exact E|]. split; [exact A1|]. split; [exact A2|]. split; [exact A3|]. split; [|split; [|split; [exact A6|]]].
  - intros pe Hpe. apply A4. apply push_peer. by eapply drop_peer.
  - rewrite A5. unfold x2, add_head, drop_head. cbn [r_wait]. rewrite length_app. cbn [length]. lia.
  - rewrite A7. symmetry. by rewrite (emits_cons (t, c, v) w _ (md, pt, g1) Ee).
Qed.

Lemma turn_moves y l s0 : vi_rel y l s0 -> exists y', isys_step q Turn y = (Ok tt, y') /\ vi_rel y' (log_step Turn l) s0.
Proof.
  destruct y as [[[d g] h] p]. intros (x & Hd & Hm & Hp & Hs & C1 & C2 & Ht). cbn [y_st y_dev fst snd isys_step log_step] in *. unfold run_turn.
  pose proof Hd as [D1 D2 D3]. pose proof Hm as [M1 M2 M3]. destruct ends as (E1 & E2 & E3 & E4).
  assert (Eu : _used_idx (d, h) = (Ok (Z.shiftr (mval (h_mem h) (q_used q) 4) 16), (d, h))).
  { unfold _used_idx. erewrite bind_step by reflexivity. cbn [fst]. destruct D1 as (_ & _ & -> & _). rewrite Z.add_0_r.
    erewrite bind_step by (apply hw_step, mmio_read_ram, (vring_ram q (vf_ring_ram fit) (q_used q) 4); lia). done. }
  rewrite (bind_step _ _ _ _ _ (dev_step _ _ g _ _ _ _ Eu)). cbv zeta. rewrite (used_index q _ _ (ir_used q _ _ M1)).
  assert (Hlt : (length (r_back x) < Z.to_nat 65536)%nat).
  { pose proof (ir_room q _ _ M1) as Hr. rewrite all_heads_len in Hr. pose proof (len_nonneg (r_wait x)). pose proof (len_nonneg (r_play x)). unfold len in *. lia. }
  destruct (drain_ok (Z.to_nat 65536) x d g h (l_waiting l) _ Hd Hm Hs Hlt eq_refl) as (x' & d' & g' & h' & E & A1 & A2 & A3 & A4 & A5 & A6 & A7).
  rewrite (bind_step _ _ _ _ _ E). erewrite bind_step by (apply dev_step; reflexivity). cbn [fst]. rewrite (vd_base _ _ A1).
  assert (Ebell : exists dv, mmio_write32 (base + 0x050) 0 h' = (Ok tt, mkHw (h_mem h') (h_heap h') dv)).
  { unfold mmio_write32, mmio_write. rewrite (vf_bell fit). pose proof (vf_quiet fit (0 mod 256 ^ Z.of_nat 4) (h_dev h') (h_mem h')) as Hq. destruct (dev_write _ _ _ _) as [dv m']. cbn [snd] in Hq. subst m'. by exists dv. }
  destruct Ebell as [dv Ebell]. rewrite (dev_step _ _ _ _ _ _ _ (hw_step _ _ _ _ _ Ebell)). eexists. split; [reflexivity|].
  exists x'. cbn [y_st y_dev fst snd h_mem l_waiting l_offered l_held l_seen]. split_and!; try done; [by apply A4|rewrite A5; lia|by rewrite A6|].
  unfold y_tr in *. cbn [y_st fst snd] in *. by rewrite emits_app, <- Ht.
Qed.

(** ** Runs *)

Definition step_ok (a : step) : Prop := match a with Report _ e => report_ok e | _ => True end.
Lemma log_moves es y l s0 : Forall step_ok es -> vi_rel y l s0 -> exists y', isys_steps q es y = (Ok tt, y') /\ vi_rel y' (log_steps es l) s0.
Proof.
  intros Hes. revert y l. induction Hes as [|a es Ha Hes IH]; intros y l Hy; cbn [isys_steps]; [by exists y|].
  assert (exists y1, isys_step q a y = (Ok tt, y1) /\ vi_rel y1 (log_step a l) s0) as (y1 & -> & Hy1) by (destruct a; [by apply take_moves|by apply report_moves|by apply turn_moves]).
  by apply IH.
Qed.

(** After the probe. *)
Record vi_fresh (y : @isys Dv) : Prop := {
  vr_queue : exists version, v_q (fst (fst (y_st y))) = mkVirtQueue base 0 version 0 32 0 (q_desc q) (q_avail q) (q_used q);
  vr_buf : v_buf_phys (fst (fst (y_st y))) = buf;
  vr_used : mread (h_mem (snd (y_st y))) (q_used q) 4 = [0; 0; 0; 0];
  vr_index : mread (h_mem (snd (y_st y))) (q_avail q + 2) 2 = [32; 0];
  vr_heads : forall i, slot i -> mread (h_mem (snd (y_st y))) (q_avail q + 4 + i * 2) 2 = le_bytes 2 i;
  vr_offered : forall i, slot i -> mread (h_mem (snd (y_st y))) (q_desc q + i * 16) 16 = desc_bytes (buf + i * 8) 8 VRING_DESC_F_WRITE 0;
  vr_peer : y_dev y = mkPeer 0 [] 0;
}.
Lemma vi_fresh_rel y : vi_fresh y -> vi_rel y log_init (y_tr y).
Proof.
  intros [[ver F1] F2 F3 F4 F5 F6 F7]. destruct ends as (E1 & E2 & E3 & E4). exists (mkHeads (range 32) [] [] 0 0). split_and!; try done.
  - split; [|by rewrite F1|done]. rewrite F1. by split_and!.
  - split; [|done|constructor]. split; unfold all_heads; cbn [r_wait r_play r_back r_taken r_seen map]; rewrite ?app_nil_r; try done.
    + unfold avail_index, mval. by rewrite F4.
    + intros i s Hi. unfold range, range2 in Hi. rewrite list_lookup_fmap in Hi. apply fmap_Some in Hi as (j & Hj & ->). apply lookup_seq in Hj as [-> Hj].
      rewrite E4. cbn [Nat.add] in *. rewrite !Z.add_0_l, Z.mod_small by lia. apply F5. unfold slot. lia.
    + by rewrite E4.
    + apply list.Forall_forall. intros s Hs. unfold range in Hs. apply elem_of_range2 in Hs. lia.
  - rewrite F7. by split_and!.
  - unfold all_slots, all_heads. cbn [r_wait r_play r_back map]. by rewrite !app_nil_r.
Qed.
End vinput.

(** The reports the device had a buffer for, in the order it returned them. *)
Definition accepted (es : list step) : list report := let l := log_steps es log_init in l_seen l ++ l_waiting l.

(** C22: input events are translated once each and in order.  Whatever buffers
    the device takes, fills and returns, and whenever the task runs, over the
    wrap-around of both rings, no step raises, every buffer is offered again,
    and after the task's next turn the modifiers, the pointer and the queue of
    the desktop are those of translating, from first to last, everything the
    device had a buffer for. *)
Theorem vinput_delivers {Dv : Type} `{Machine Dv} (base : Z) (q : Vq) (buf : Z) (y : @isys Dv) (es : list step)
    (fit : vi_fit base q buf) (Hfresh : vi_fresh base q buf y) (Hes : Forall step_ok es) :
  exists y', isys_steps q (es ++ [Turn]) y = (Ok tt, y') /\ y_tr y' = snd (emits (accepted es) (y_tr y)).
Proof.
  destruct (log_moves base q buf fit (es ++ [Turn]) y log_init (y_tr y)) as (y' & E & x & _ & _ & _ & _ & _ & _ & Ht).
  - apply Forall_app. split; [done|]. by repeat constructor.
  - by apply vi_fresh_rel.
  - exists y'. split; [done|]. rewrite Ht. unfold accepted, log_steps. by rewrite fold_left_app.
Qed.

(** ** A keyboard on a machine *)

Definition quiet_bus : Machine unit := {|
  dev_claims a := (0x1000 <=? a) && (a <? 0x1200);
  dev_read _ d := (0, d);
  dev_write _ _ d m := (d, m);
  dev_run d m := (d, m);
  calloc _ _ := None;
|}.
Definition demo_q : Vq := mkVq 32 0x10000 0x10200 0x11000.
Definition demo_input : VirtioMmioInput :=
  v_set_buf 0x20000 (v_set_q (mkVirtQueue 0x1000 0 1 0 32 0 0x10000 0x10200 0x11000) (VirtioMmioInput_init 0x1000 1024 768)).
Definition demo_input_mem : mem :=
  mwrite (fold_left (fun m i => mwrite (mwrite m (0x10000 + i * 16) (desc_bytes (0x20000 + i * 8) 8 VRING_DESC_F_WRITE 0)) (0x10204 + i * 2) (le_bytes 2 i)) (range 32) ∅) 0x10202 [32; 0].
Definition demo_isys : @isys unit := mkIsys (demo_input, (true, mkGui [] 0 0), mkHw demo_input_mem [] tt) (mkPeer 0 [] 0).
Lemma demo_vi_fit : @vi_fit unit quiet_bus 0x1000 demo_q 0x20000.
Proof.
  split; try done; try (cbn; lia).
  - split; cbn; try lia. exists 2048. done.
  - intros a Ha. unfold q_end, demo_q in Ha. cbn in Ha |- *. lia.
  - intros a Ha. cbn. lia.
  - right. by vm_compute.
Qed.
Lemma each_of_32 (P : Z -> bool) : forallb P (range 32) = true -> forall i, slot i -> P i = true.
Proof. intros Hf i Hi. rewrite forallb_forall in Hf. apply Hf. apply list_elem_of_In. unfold range. by apply elem_of_range2. Qed.
Lemma demo_vi_fresh : @vi_fresh unit 0x1000 demo_q 0x20000 demo_isys.
Proof.
  split.
  - by exists 1.
  - reflexivity.
  - by vm_compute.
  - by vm_compute.
  - intros i Hi. apply (each_of_32 (fun i => beq (mread demo_input_mem (q_avail demo_q + 4 + i * 2) 2) (le_bytes 2 i))) in Hi; [|by vm_compute]. by apply beq_eq in Hi.
  - intros i Hi. apply (each_of_32 (fun i => beq (mread demo_input_mem (q_desc demo_q + i * 16) 16) (desc_bytes (0x20000 + i * 8) 8 VRING_DESC_F_WRITE 0))) in Hi; [|by vm_compute]. by apply beq_eq in Hi.
  - reflexivity.
Qed.
(** A shifted key, typed while the task runs in between. *)
Definition typing : list step :=
  [Take; Take; Report 1 (EV_KEY, 42, 1); Turn; Report 0 (EV_KEY, 30, 1); Take; Take; Report 1 (EV_KEY, 42, 0); Report 0 (EV_KEY, 30, 0)].
Lemma vinput_delivers_witness :
  exists y', @isys_steps unit quiet_bus demo_q (typing ++ [Turn]) demo_isys = (Ok tt, y') /\ y_tr y' = snd (emits (accepted typing) (y_tr demo_isys)).
Proof. apply (@vinput_delivers unit quiet_bus 0x1000 demo_q 0x20000 demo_isys typing demo_vi_fit demo_vi_fresh). unfold typing. repeat (apply list.Forall_cons_2; [cbn; unfold report_ok; cbn; (lia || done)|]). apply list.Forall_nil_2. Defined.

Definition posted (s : Mods * Pointer * gui_state) : list (Z * Z * str * Z) := map (fun e => (ev_kind e, ev_code e, ev_text e, ev_mods e)) (g_queue (snd (snd s))).
(** The key goes down with one code and up with another when shift is let go
    first: 65, then 97. *)
Example key_up_of_another_key : posted (snd (emits (accepted typing) (y_tr demo_isys))) =
  [(EVENT_KEY_DOWN, KEY_LSHIFT, [], MOD_SHIFT); (EVENT_KEY_DOWN, 65, [65], MOD_SHIFT); (EVENT_KEY_UP, KEY_LSHIFT, [], 0); (EVENT_KEY_UP, 97, [97], 0)].
Proof. by vm_compute. Qed.
(** Both shift keys held and one let go: the next letter is not shifted. *)
Example shift_forgotten : posted (snd (emits [(EV_KEY, 42, 1); (EV_KEY, 54, 1); (EV_KEY, 54, 0); (EV_KEY, 30, 1)] (y_tr demo_isys))) =
  [(EVENT_KEY_DOWN, KEY_LSHIFT, [], MOD_SHIFT); (EVENT_KEY_DOWN, KEY_RSHIFT, [], MOD_SHIFT); (EVENT_KEY_UP, KEY_RSHIFT, [], 0); (EVENT_KEY_DOWN, 97, [97], 0)].
Proof. by vm_compute. Qed.

(** ** The pointer *)

Definition pointer_ok (p : Pointer) : Prop := 0 <= p_x p < p_screen_w p /\ 0 <= p_y p < p_screen_h p.
Definition on_display (p : Pointer) (ev : Event) : Prop :=
  ev_kind ev = MOUSE_MOVE \/ ev_kind ev = MOUSE_DOWN \/ ev_kind ev = MOUSE_UP -> 0 <= ev_x ev < p_screen_w p /\ 0 <= ev_y ev < p_screen_h p.
Definition same_screen (p p' : Pointer) : Prop := p_screen_w p' = p_screen_w p /\ p_screen_h p' = p_screen_h p.
(** A step of the translation: the pointer stays on the same screen, and what is
    posted carries a position on it. *)
Definition points (m : M (Mods * Pointer * gui_state) unit) : Prop := forall md p r g, pointer_ok p ->
  exists md' p' evs, m (md, p, (r, g)) = (Ok tt, (md', p', (r, mkGui (g_queue g ++ evs) (g_pointer_x g) (g_pointer_y g)))) /\
    pointer_ok p' /\ same_screen p p' /\ Forall (on_display p) evs.

Lemma on_screen_ok size v : 0 < size -> 0 <= on_screen size v < size.
Proof. unfold on_screen. lia. Qed.
Lemma flush_rel_ok p dx dy moved : pointer_ok p -> let '(p', _, _, _) := flush_rel (p, dx, dy, moved) in pointer_ok p' /\ same_screen p p'.
Proof.
  intros [Hx Hy]. unfold flush_rel. destruct (_ || _); [|by split; split]. split; [|done]. split; cbn; apply on_screen_ok; lia.
Qed.
Lemma flush_abs_ok p : pointer_ok p -> let '(p', _, _, _) := flush_abs p in pointer_ok p' /\ same_screen p p'.
Proof.
  intros [Hx Hy]. unfold flush_abs. assert (H : forall a b, pointer_ok (mkPointer (p_screen_w p) (p_screen_h p) (on_screen (p_screen_w p) a) (on_screen (p_screen_h p) b) None None (p_rel_dx p) (p_rel_dy p))).
  { intros a b. split; cbn; apply on_screen_ok; lia. }
  destruct (p_abs_x p), (p_abs_y p); (split; [|done]); try apply H; by split.
Qed.

Lemma points_ret : points (ret tt).
Proof. intros md p r g Hp. exists md, p, []. rewrite app_nil_r. destruct g. by split_and!. Qed.
Lemma points_ptr f : (forall p, pointer_ok p -> pointer_ok (f p) /\ same_screen p (f p)) -> points (on_ptr f).
Proof. intros Hf md p r g Hp. destruct (Hf p Hp). exists md, (f p), []. rewrite app_nil_r. destruct g. by split_and!. Qed.
Lemma points_mod f : points (set_mod f).
Proof. intros md p r g Hp. exists (f md), p, []. rewrite app_nil_r. destruct g. by split_and!. Qed.
Lemma points_post ev : (forall p, on_display p ev) -> points (post_if ev).
Proof.
  intros He md p r g Hp. destruct r; [exists md, p, [ev]|exists md, p, []; rewrite app_nil_r; destruct g; by split_and!].
  split_and!; try done. constructor; [apply He|constructor].
Qed.
Lemma points_bind m k : points m -> points k -> points (m ;;; k).
Proof.
  intros Hm Hk md p r g Hp. destruct (Hm md p r g Hp) as (md1 & p1 & e1 & E1 & H1 & [S1 S2] & F1). destruct (Hk md1 p1 r (mkGui (g_queue g ++ e1) (g_pointer_x g) (g_pointer_y g)) H1) as (md2 & p2 & e2 & E2 & H2 & [S3 S4] & F2).
  exists md2, p2, (e1 ++ e2). rewrite (bind_step _ _ _ _ _ E1), E2. cbn [g_queue g_pointer_x g_pointer_y]. rewrite <- app_assoc. split_and!; try done; [split; [by rewrite S3|by rewrite S4]|].
  apply Forall_app. split; [done|]. eapply Forall_impl; [exact F2|]. intros ev Hev. unfold on_display in *. by rewrite <- S1, <- S2.
Qed.
Lemma points_if (b : bool) m k : points m -> points k -> points (if b then m else k).
Proof. by destruct b. Qed.
(** A step that looks at the state first. *)
Lemma points_get (f : Mods * Pointer * gui_state -> M _ unit) : (forall s, points (f s)) -> points (bind get f).
Proof. intros Hf md p r g Hp. by apply Hf. Qed.
Lemma key_off_display kind code text mods p : kind = EVENT_KEY_DOWN \/ kind = EVENT_KEY_UP -> on_display p (plain_event kind code text mods 0 0 0 0).
Proof. intros [->| ->] [?|[?|?]]; done. Qed.
Lemma key_kind_off b : key_kind b = EVENT_KEY_DOWN \/ key_kind b = EVENT_KEY_UP.
Proof. destruct b; auto. Qed.
Lemma points_modifier c b : points (_post_modifier c b).
Proof. unfold _post_modifier. cbv zeta. apply points_if; [apply points_ret|]. apply points_get. intros [[m p] g]. apply points_post. intros. apply key_off_display, key_kind_off. Qed.
(** A mouse event at the pointer. *)
Lemma post_at p0 ev md r g : pointer_ok p0 -> ev_x ev = p_x p0 -> ev_y ev = p_y p0 -> exists evs,
  post_if ev (md, p0, (r, g)) = (Ok tt, (md, p0, (r, mkGui (g_queue g ++ evs) (g_pointer_x g) (g_pointer_y g)))) /\ Forall (on_display p0) evs.
Proof.
  intros [Hx Hy] Ex Ey. destruct r; [exists [ev]|exists []; rewrite app_nil_r; by destruct g]. split; [done|]. constructor; [|constructor]. intros _. by rewrite Ex, Ey.
Qed.
Lemma points_flush : points _flush_pointer.
Proof.
  intros md p r g Hp. unfold _flush_pointer. unfold bind at 1, get. cbv beta iota. destruct r; cbn [negb]; [|by apply (points_ret md p false g)].
  pose proof (flush_abs_ok p Hp) as Ha. destruct (flush_abs p) as [[[p1 dx] dy] moved]. destruct Ha as [Ha [S1 S2]].
  pose proof (flush_rel_ok p1 dx dy moved Ha) as Hr. destruct (flush_rel (p1, dx, dy, moved)) as [[[p2 dx2] dy2] moved2]. destruct Hr as [Hr [S3 S4]].
  erewrite bind_step by reflexivity. assert (Hs : same_screen p p2) by (split; [by rewrite S3|by rewrite S4]).
  destruct moved2.
  - cbv beta iota. destruct (post_at p2 (plain_event MOUSE_MOVE 0 [] 0 (p_x p2) (p_y p2) dx2 dy2) md true g Hr eq_refl eq_refl) as (evs & E & F). exists md, p2, evs. split; [exact E|]. split_and!; try done.
    eapply Forall_impl; [exact F|]. intros ev. unfold on_display. destruct Hs as [<- <-]. done.
  - exists md, p2, []. rewrite app_nil_r. destruct g. by split_and!.
Qed.
Lemma points_emit t c v : points (_emit t c v).
Proof.
  unfold _emit. apply points_if; [|apply points_if; [|apply points_if; [apply points_flush|apply points_if; [apply points_ret|]]]].
  1, 2: apply points_ptr; intros p Hp; unfold add_rel, set_abs; repeat case_match; by repeat split; apply Hp.
  destruct (dget c _BTN_TO_INDEX) as [i|].
  { intros md p r g Hp. unfold bind, get. cbv beta iota.
    destruct (post_at p (plain_event (if negb (v =? 0) then MOUSE_DOWN else MOUSE_UP) i [] 0 (p_x p) (p_y p) 0 0) md r g Hp eq_refl eq_refl) as (evs & E & F). exists md, p, evs. by split_and!. }
  do 3 (apply points_if; [apply points_bind; [apply points_mod|apply points_modifier]|]). apply points_get. intros [[m p] g].
  destruct (dget c _EV_TO_CHARS) as [[u s]|]; [apply points_post; intros; apply key_off_display, key_kind_off|].
  destruct (dget c _EV_TO_KEY); [apply points_post; intros; apply key_off_display, key_kind_off|apply points_ret].
Qed.

(** The pointer stays on the screen.  Whatever the device reports, any
    movement of a mouse and any coordinate of a tablet, the pointer is inside
    the screen, every mouse event posted carries a position inside it, nothing
    that was posted is lost; and a tablet that reports within its range moves
    the pointer to the scaled position, its corners to those of the screen. *)
Theorem vinput_pointer_on_screen (l : list report) (md : Mods) (p : Pointer) (g : Gui) (Hp : pointer_ok p) :
  (exists md' p' evs, emits l (md, p, (true, g)) = (Ok tt, (md', p', (true, mkGui (g_queue g ++ evs) (g_pointer_x g) (g_pointer_y g)))) /\
     pointer_ok p' /\ Forall (on_display p) evs) /\
  (forall ax ay, p_rel_dx p = 0 -> p_rel_dy p = 0 -> 0 <= ax < _TABLET_RANGE -> 0 <= ay < _TABLET_RANGE ->
     exists p' g', emits [(EV_ABS, _ABS_X, ax); (EV_ABS, _ABS_Y, ay); (EV_SYN, 0, 0)] (md, p, (true, g)) = (Ok tt, (md, p', (true, g'))) /\
       p_x p' = ax * (p_screen_w p - 1) / 32767 /\ p_y p' = ay * (p_screen_h p - 1) / 32767 /\
       (ax = 0 -> p_x p' = 0) /\ (ax = 32767 -> p_x p' = p_screen_w p - 1) /\ (ay = 0 -> p_y p' = 0) /\ (ay = 32767 -> p_y p' = p_screen_h p - 1)).
Proof.
  split.
  - assert (Hl : points (emits l)) by (induction l as [|e l IH]; [apply points_ret|apply points_bind; [apply points_emit|exact IH]]).
    destruct (Hl md p true g Hp) as (md' & p' & evs & E & H1 & _ & H2). by exists md', p', evs.
  - intros ax ay Ex Ey Hax Hay. unfold _TABLET_RANGE in *. destruct Hp as [Hx Hy].
    assert (Hin : forall a w, 0 <= a < 32768 -> 0 < w -> on_screen w (a * (w - 1) / 32767) = a * (w - 1) / 32767).
    { intros a w Ha Hw. unfold on_screen. assert (0 <= a * (w - 1) / 32767) by (apply Z.div_pos; nia). assert (a * (w - 1) / 32767 <= w - 1) by (apply Z.div_le_upper_bound; nia). lia. }
    set (nx := ax * (p_screen_w p - 1) / 32767). set (ny := ay * (p_screen_h p - 1) / 32767).
    set (p1 := mkPointer (p_screen_w p) (p_screen_h p) (p_x p) (p_y p) (Some ax) (Some ay) (p_rel_dx p) (p_rel_dy p)).
    assert (Ea : flush_rel (flush_abs p1) = (mkPointer (p_screen_w p) (p_screen_h p) nx ny None None 0 0, nx - p_x p, ny - p_y p, negb (nx - p_x p =? 0) || negb (ny - p_y p =? 0))).
    { unfold flush_abs, p1. cbn [p_abs_x p_abs_y p_screen_w p_screen_h p_x p_y p_rel_dx p_rel_dy]. change (_TABLET_RANGE - 1) with 32767. fold nx ny.
      unfold flush_rel. cbn [p_rel_dx p_rel_dy]. rewrite Ex, Ey. cbn [Z.eqb negb orb]. unfold nx, ny. by rewrite !Hin by lia. }
    assert (Hf : exists g', _flush_pointer (md, p1, (true, g)) = (Ok tt, (md, mkPointer (p_screen_w p) (p_screen_h p) nx ny None None 0 0, (true, g')))).
    { unfold _flush_pointer. unfold bind at 1, get. cbv beta iota. cbn [negb]. rewrite Ea. erewrite bind_step by reflexivity. destruct (_ || _); by eexists. }
    destruct Hf as [g' Ef]. exists (mkPointer (p_screen_w p) (p_screen_h p) nx ny None None 0 0), g'. unfold emits. cbn [for_each fst snd].
    erewrite bind_step by reflexivity. erewrite bind_step by reflexivity.
    change (_emit EV_SYN 0 0) with _flush_pointer. rewrite (bind_step _ _ _ _ _ Ef). split; [done|]. cbn [p_x p_y]. fold nx ny. split; [done|]. split; [done|]. unfold nx, ny.
    split_and!; intros ->; rewrite ?Z.mul_0_l; try done; by rewrite Z.mul_comm, Z.div_mul.
Qed.
Lemma vinput_pointer_on_screen_witness : exists md' p' evs,
  emits [(EV_REL, _REL_X, 0xFFFFFF00); (EV_SYN, 0, 0); (EV_KEY, _BTN_LEFT, 1)] (mkMods false false false, mkPointer 640 480 5 7 None None 0 0, (true, mkGui [] 0 0)) =
    (Ok tt, (md', p', (true, mkGui evs 0 0))) /\ pointer_ok p' /\ Forall (on_display (mkPointer 640 480 5 7 None None 0 0)) evs.
Proof.
  assert (Hp : pointer_ok (mkPointer 640 480 5 7 None None 0 0)) by (split; cbn; lia).
  destruct (vinput_pointer_on_screen [(EV_REL, _REL_X, 0xFFFFFF00); (EV_SYN, 0, 0); (EV_KEY, _BTN_LEFT, 1)] (mkMods false false false) _ (mkGui [] 0 0) Hp) as [(md' & p' & evs & E & H1 & H2) _].
  by exists md', p', evs.
Defined.
