(* ===== verification/Json.v ===== *)
(** * JSON

    [json.dumps] and [json.loads] of the Python library, for the values the
    bridge exchanges.  A float is kept as its literal.  What is printed is read
    back. *)

From Stdlib Require Import ZArith Lia Floats.SpecFloat.
From stdpp Require Import base list numbers strings.
From S2P Require Import Prelude Bytes Pystr Dict.

Local Open Scope Z_scope.

Inductive json : Type :=
| JNull | JBool (b : bool) | JInt (n : Z) | JFloat (text : str) | JStr (s : str) | JList (l : list json) | JDict (d : list (str * json)).

(** ** Printing, with [ensure_ascii] *)

Definition hex_digit (n : Z) : Z := if n <? 10 then 48 + n else 87 + n.
Definition hex4 (n : Z) : str := [hex_digit (n / 4096 mod 16); hex_digit (n / 256 mod 16); hex_digit (n / 16 mod 16); hex_digit (n mod 16)].
Definition u_escape (n : Z) : str := 92 :: 117 :: hex4 n.
Definition escape_char (c : Z) : str :=
  if c =? 34 then [92; 34]
  else if c =? 92 then [92; 92]
  else if c =? 10 then [92; 110]
  else if c =? 13 then [92; 114]
  else if c =? 9 then [92; 116]
  else if c =? 12 then [92; 102]
  else if c =? 8 then [92; 98]
  else if (32 <=? c) && (c <=? 126) then [c]
  else if c <? 0x10000 then u_escape c
  else u_escape (0xD800 + (c - 0x10000) / 1024) ++ u_escape (0xDC00 + (c - 0x10000) mod 1024).
Definition dump_str (s : str) : str := 34 :: concat (map escape_char s) ++ [34].

(** [separators=(item, key)] *)
Fixpoint dumps (item key : str) (v : json) : str :=
  match v with
  | JNull => lit "null"
  | JBool true => lit "true"
  | JBool false => lit "false"
  | JInt n => str_of_int n
  | JFloat t => t
  | JStr s => dump_str s
  | JList l => 91 :: join item (map (dumps item key) l) ++ [93]
  | JDict d => 123 :: join item (map (fun p => dump_str p.1 ++ key ++ dumps item key p.2) d) ++ [125]
  end.

(** ** Reading *)

Definition is_ws (c : Z) : bool := (c =? 32) || (c =? 9) || (c =? 10) || (c =? 13).
Definition skip_ws (s : str) : str := lstrip is_ws s.
Definition hex_val (c : Z) : option Z :=
  if (48 <=? c) && (c <=? 57) then Some (c - 48)
  else if (97 <=? c) && (c <=? 102) then Some (c - 87)
  else if (65 <=? c) && (c <=? 70) then Some (c - 55)
  else None.
Definition read_hex4 (a b c d : Z) : result Z :=
  match hex_val a, hex_val b, hex_val c, hex_val d with
  | Some a, Some b, Some c, Some d => Ok (a * 4096 + b * 256 + c * 16 + d)
  | _, _, _, _ => Err ValueError
  end.
Definition simple_escape (c : Z) : option Z :=
  if c =? 34 then Some 34 else if c =? 92 then Some 92 else if c =? 47 then Some 47 else if c =? 98 then Some 8
  else if c =? 102 then Some 12 else if c =? 110 then Some 10 else if c =? 114 then Some 13 else if c =? 116 then Some 9 else None.

(** A string after its opening quote, and the rest. *)
Fixpoint scan_string (s : str) : result (str * str) :=
  match s with
  | [] => Err ValueError
  | c :: s =>
      if c =? 34 then Ok ([], s)
      else if c =? 92 then
        match s with
        | [] => Err ValueError
        | e :: s =>
            if e =? 117 then
              match s with
              | h1 :: h2 :: h3 :: h4 :: s =>
                  let? u := read_hex4 h1 h2 h3 h4 in
                  let single := let? (t, r) := scan_string s in Ok (u :: t, r) in
                  if (0xD800 <=? u) && (u <=? 0xDBFF) then
                    match s with
                    | b :: e :: l1 :: l2 :: l3 :: l4 :: s =>
                        if (b =? 92) && (e =? 117) then
                          let? u2 := read_hex4 l1 l2 l3 l4 in
                          if (0xDC00 <=? u2) && (u2 <=? 0xDFFF) then
                            let? (t, r) := scan_string s in Ok (0x10000 + (u - 0xD800) * 1024 + (u2 - 0xDC00) :: t, r)
                          else single
                        else single
                    | _ => single
                    end
                  else single
              | _ => Err ValueError
              end
            else
              match simple_escape e with
              | Some c => let? (t, r) := scan_string s in Ok (c :: t, r)
              | None => Err ValueError
              end
        end
      else if c <? 32 then Err ValueError
      else let? (t, r) := scan_string s in Ok (c :: t, r)
  end.

(** The digits at the front, and the rest. *)
Fixpoint span_digits (s : str) : str * str :=
  match s with
  | c :: s' => if is_digit c then let (d, r) := span_digits s' in (c :: d, r) else ([], s)
  | [] => ([], [])
  end.
Definition scan_frac (s : str) : str * str :=
  match s with
  | c :: s' => if c =? 46 then match span_digits s' with ([], _) => ([], s) | (d, r) => (c :: d, r) end else ([], s)
  | [] => ([], s)
  end.
Definition scan_exp (s : str) : str * str :=
  match s with
  | c :: s' =>
      if (c =? 101) || (c =? 69) then
        let (sg, s2) := match s' with x :: s2 => if (x =? 43) || (x =? 45) then ([x], s2) else ([], s') | [] => ([], s') end in
        match span_digits s2 with ([], _) => ([], s) | (d, r) => (c :: sg ++ d, r) end
      else ([], s)
  | [] => ([], s)
  end.
(** A number, or [None] where there is none. *)
Definition scan_number (s : str) : option (json * str) :=
  let (neg, s1) := match s with c :: s' => if c =? 45 then (true, s') else (false, s) | [] => (false, s) end in
  let int := match s1 with
             | c :: s2 => if c =? 48 then Some ([48], s2) else if is_digit c then Some (span_digits s1) else None
             | [] => None
             end in
  match int with
  | None => None
  | Some (ds, r) =>
      let (fr, r1) := scan_frac r in
      let (ex, r2) := scan_exp r1 in
      match fr, ex with
      | [], [] => match int_digits 0 ds with Ok n => Some (JInt (if neg then - n else n), r2) | Err _ => None end
      | _, _ => Some (JFloat ((if neg then [45] else []) ++ ds ++ fr ++ ex), r2)
      end
  end.

(** [dict(pairs)] *)
Definition dict_of (l : list (str * json)) : list (str * json) := fold_left (fun d p => dset p.1 p.2 d) l [].
Definition constant (word : str) (v : json) (s : str) : option (json * str) :=
  if startswith s word then Some (v, drop (length word) s) else None.
Definition first_of {A} (a b : option A) : option A := match a with Some _ => a | None => b end.

(** A value; the elements of a list after [\[] or [,]; the members of an
    object at a key.  The fuel bounds the nesting and the elements. *)
Fixpoint scan_value (fuel : nat) (s : str) : result (json * str) :=
  match fuel with
  | O => Err ValueError
  | S fuel =>
      match s with
      | [] => Err ValueError
      | c :: s' =>
          if c =? 34 then let? (t, r) := scan_string s' in Ok (JStr t, r)
          else if c =? 123 then
            match skip_ws s' with
            | d :: r => if d =? 125 then Ok (JDict [], r) else let? (ms, r) := scan_members fuel (d :: r) in Ok (JDict (dict_of ms), r)
            | [] => Err ValueError
            end
          else if c =? 91 then
            match skip_ws s' with
            | d :: r => if d =? 93 then Ok (JList [], r) else let? (l, r) := scan_items fuel (d :: r) in Ok (JList l, r)
            | [] => Err ValueError
            end
          else
            match first_of (constant (lit "null") JNull s) (first_of (constant (lit "true") (JBool true) s) (first_of (constant (lit "false") (JBool false) s)
              (first_of (scan_number s) (first_of (constant (lit "NaN") (JFloat (lit "NaN")) s)
              (first_of (constant (lit "Infinity") (JFloat (lit "Infinity")) s) (constant (lit "-Infinity") (JFloat (lit "-Infinity")) s)))))) with
            | Some r => Ok r
            | None => Err ValueError
            end
      end
  end
with scan_items (fuel : nat) (s : str) : result (list json * str) :=
  match fuel with
  | O => Err ValueError
  | S fuel =>
      let? (v, r) := scan_value fuel s in
      match skip_ws r with
      | c :: r => if c =? 93 then Ok ([v], r) else if c =? 44 then let? (l, r) := scan_items fuel (skip_ws r) in Ok (v :: l, r) else Err ValueError
      | [] => Err ValueError
      end
  end
with scan_members (fuel : nat) (s : str) : result (list (str * json) * str) :=
  match fuel with
  | O => Err ValueError
  | S fuel =>
      match s with
      | q :: s =>
          if negb (q =? 34) then Err ValueError
          else
            let? (k, r) := scan_string s in
            match skip_ws r with
            | c :: r =>
                if negb (c =? 58) then Err ValueError
                else
                  let? (v, r) := scan_value fuel (skip_ws r) in
                  match skip_ws r with
                  | c :: r => if c =? 125 then Ok ([(k, v)], r) else if c =? 44 then let? (l, r) := scan_members fuel (skip_ws r) in Ok ((k, v) :: l, r) else Err ValueError
                  | [] => Err ValueError
                  end
            | [] => Err ValueError
            end
      | [] => Err ValueError
      end
  end.
Definition loads (s : str) : result json :=
  let s := skip_ws s in
  let? (v, r) := scan_value (S (length s)) s in
  match skip_ws r with [] => Ok v | _ => Err ValueError end.

(** [b.decode("utf-8")]: what encodes to [b], if anything does. *)
Definition decode_strict (b : bytes) : result str :=
  match encode (decode b) with
  | Ok b' => if beq b' b then Ok (decode b) else Err UnicodeError
  | Err _ => Err UnicodeError
  end.

Definition json_dumps : json -> str := dumps (lit ", ") (lit ": ").

(** ** What the sources do with a parsed value *)

(** The double a literal denotes: correctly rounded, zero and infinity
    included. *)
Definition lit_value (m : positive) (e : Z) : spec_float :=
  if 0 <=? e then binary_normalize 53 1024 (Z.pos m * 10 ^ e) 0 false
  else let '(q, e', l) := SFdiv_core_binary 53 1024 (Z.pos m) 0 (10 ^ (- e)) 0 in binary_round_aux 53 1024 false q e' l.
Definition digits_value (s : str) : Z := fold_left (fun a c => a * 10 + (c - 48)) s 0.
Definition float_value (text : str) : spec_float :=
  let (neg, s) := match text with c :: s' => if c =? 45 then (true, s') else (false, text) | [] => (false, text) end in
  if beq s (lit "NaN") then S754_nan
  else if beq s (lit "Infinity") then S754_infinity neg
  else
    let (ds, r) := span_digits s in
    let (fr, r) := scan_frac r in
    let ex := match r with
              | _ :: 45 :: d => - digits_value d
              | _ :: 43 :: d => digits_value d
              | _ :: d => digits_value d
              | [] => 0
              end in
    let fd := drop 1 fr in
    match digits_value (ds ++ fd) with
    | Zpos m => let f := lit_value m (ex - len fd) in if neg then SFopp f else f
    | _ => S754_zero neg
    end.

(** [value == z] for an integer [z]. *)
Definition float_is (f : spec_float) (z : Z) : bool :=
  match f with
  | S754_zero _ => z =? 0
  | S754_finite s m e =>
      let m := if s then Z.neg m else Z.pos m in
      if 0 <=? e then m * 2 ^ e =? z else m =? z * 2 ^ (- e)
  | _ => false
  end.
Definition json_is (v : json) (z : Z) : bool :=
  match v with
  | JInt n => n =? z
  | JBool b => (if b then 1 else 0) =? z
  | JFloat t => float_is (float_value t) z
  | _ => false
  end.

(** [bool(value)] *)
Definition truthy (v : json) : bool :=
  match v with
  | JNull | JStr [] | JList [] | JDict [] => false
  | JBool b => b
  | JInt n => negb (n =? 0)
  | JFloat t => negb (float_is (float_value t) 0)
  | _ => true
  end.
(** [value.get(key, default)]: only a dict has it. *)
Definition json_get (v : json) (k : str) (default : json) : result json :=
  match v with
  | JDict d => Ok (match dget k d with Some x => x | None => default end)
  | _ => Err AttributeError
  end.
(** [int(value)] *)
Definition json_int (v : json) : result Z :=
  match v with
  | JInt n => Ok n
  | JBool b => Ok (if b then 1 else 0)
  | JStr s => py_int s
  | JFloat t =>
      match float_value t with
      | S754_zero _ => Ok 0
      | S754_finite s m e => let a := if 0 <=? e then Z.pos m * 2 ^ e else Z.pos m / 2 ^ (- e) in Ok (if s then - a else a)
      | S754_infinity _ => Err OverflowError
      | S754_nan => Err ValueError
      end
  | _ => Err TypeError
  end.
(** [for x in value] *)
Definition json_iter (v : json) : result (list json) :=
  match v with
  | JList l => Ok l
  | JDict d => Ok (map JStr d.*1)
  | JStr s => Ok (map (fun c => JStr [c]) s)
  | _ => Err TypeError
  end.

Example json_text : loads (map (fun c => if c =? 64 then 34 else c) (lit "{ @a@ : [1, -20,true ,null], @b@:@x@ }")) =
  Ok (JDict [(lit "a", JList [JInt 1; JInt (-20); JBool true; JNull]); (lit "b", JStr (lit "x"))]).
Proof. vm_compute. reflexivity. Qed.

Example json_floats : json_is (JFloat (lit "2.0")) 2 = true /\ json_is (JFloat (lit "2e0")) 2 = true /\ json_is (JFloat (lit "20E-1")) 2 = true /\
  json_is (JFloat (lit "2.0000000000000001")) 2 = true /\ json_is (JFloat (lit "2.5")) 2 = false /\ truthy (JFloat (lit "1e-400")) = false /\
  json_int (JFloat (lit "-2.75e1")) = Ok (-27).
Proof. by vm_compute. Qed.

(** A value the exchange can carry: no surrogates, no float, no key twice. *)
Definition char_okb (c : Z) : bool := (0 <=? c) && (c <? 0x110000) && negb ((0xD800 <=? c) && (c <? 0xE000)).
Fixpoint json_ok (v : json) : bool :=
  match v with
  | JNull | JBool _ | JInt _ => true
  | JFloat _ => false
  | JStr s => forallb char_okb s
  | JList l => forallb json_ok l
  | JDict d => forallb (fun p => forallb char_okb p.1 && json_ok p.2) d && bool_decide (NoDup d.*1)
  end.

Lemma forallb_Forall_true {A} (f : A -> bool) l : forallb f l = true <-> Forall (fun x => f x = true) l.
Proof. induction l as [|x l IH]; cbn [forallb]; [by split|]. by rewrite andb_true_iff, Forall_cons, IH. Qed.
Lemma json_nested (P : json -> Prop) :
  P JNull -> (forall b, P (JBool b)) -> (forall n, P (JInt n)) -> (forall t, P (JFloat t)) -> (forall s, P (JStr s)) ->
  (forall l, Forall P l -> P (JList l)) -> (forall d, Forall (fun p => P p.2) d -> P (JDict d)) -> forall v, P v.
Proof.
  intros Hn Hb Hi Hf Hs Hl Hd. fix IH 1. intros [| b | n | t | s | l | d]; [apply Hn|apply Hb|apply Hi|apply Hf|apply Hs| |].
  - apply Hl. induction l as [|v l IHl]; constructor; [apply IH|exact IHl].
  - apply Hd. induction d as [|[k v] d IHd]; constructor; [apply IH|exact IHd].
Qed.

(** ** Strings *)

Lemma hex_val_digit d : 0 <= d < 16 -> hex_val (hex_digit d) = Some d.
Proof.
  intros Hd. unfold hex_digit, hex_val. destruct (Z.ltb_spec d 10).
  - replace ((48 <=? 48 + d) && (48 + d <=? 57)) with true by lia. f_equal. lia.
  - replace ((48 <=? 87 + d) && (87 + d <=? 57)) with false by lia. replace ((97 <=? 87 + d) && (87 + d <=? 102)) with true by lia. f_equal. lia.
Qed.
Lemma read_hex4_digits n : 0 <= n < 65536 ->
  read_hex4 (hex_digit (n / 4096 mod 16)) (hex_digit (n / 256 mod 16)) (hex_digit (n / 16 mod 16)) (hex_digit (n mod 16)) = Ok n.
Proof.
  intros Hn. unfold read_hex4. rewrite !hex_val_digit by (apply Z.mod_pos_bound; lia). f_equal.
  pose proof (Z.div_mod n 16 ltac:(lia)). pose proof (Z.div_mod (n / 16) 16 ltac:(lia)) as H1. pose proof (Z.div_mod (n / 16 / 16) 16 ltac:(lia)) as H2.
  rewrite !Z.div_div in H1, H2 by lia. rewrite Z.div_div in H2 by lia. change (16 * 16) with 256 in *. change (256 * 16) with 4096 in *. change (16 * 256) with 4096 in *.
  assert (n / 4096 < 16) by (apply Z.div_lt_upper_bound; lia). assert (0 <= n / 4096) by (apply Z.div_pos; lia).
  rewrite (Z.mod_small (n / 4096)) by lia. lia.
Qed.

(** One character of a string, and what follows. *)
Lemma scan_escape c t : char_okb c = true ->
  scan_string (escape_char c ++ t) = (let? (u, r) := scan_string t in Ok (c :: u, r)).
Proof.
  unfold char_okb. intros Hc. unfold escape_char.
  repeat match goal with |- context [c =? ?k] => destruct (Z.eqb_spec c k) as [->|?]; [reflexivity|] end.
  case_match eqn:Hp.
  - cbn [app scan_string]. replace (c =? 34) with false by lia. replace (c =? 92) with false by lia. replace (c <? 32) with false by lia. done.
  - destruct (Z.ltb_spec c 0x10000) as [Hs|Hs].
    + unfold u_escape, hex4. cbn [app scan_string]. replace (92 =? 34) with false by lia. replace (92 =? 92) with true by lia.
      replace (117 =? 117) with true by lia. rewrite read_hex4_digits by lia. cbn [rbind].
      replace ((0xD800 <=? c) && (c <=? 0xDBFF)) with false by lia. done.
    + set (k := c - 0x10000). assert (Hk : 0 <= k < 0x100000) by (subst k; lia).
      assert (Hh : 0 <= k / 1024 < 1024) by (split; [apply Z.div_pos; lia|apply Z.div_lt_upper_bound; lia]).
      pose proof (Z.mod_pos_bound k 1024 ltac:(lia)) as Hl. pose proof (Z.div_mod k 1024 ltac:(lia)) as Hdm.
      unfold u_escape, hex4. cbn [app scan_string]. replace (92 =? 34) with false by lia. replace (92 =? 92) with true by lia.
      replace (117 =? 117) with true by lia. rewrite !read_hex4_digits by lia. cbn [rbind andb].
      replace ((0xD800 <=? 0xD800 + k / 1024) && (0xD800 + k / 1024 <=? 0xDBFF)) with true by lia.
      replace ((0xDC00 <=? 0xDC00 + k mod 1024) && (0xDC00 + k mod 1024 <=? 0xDFFF)) with true by lia.
      replace (0x10000 + (0xD800 + k / 1024 - 0xD800) * 1024 + (0xDC00 + k mod 1024 - 0xDC00)) with c by (unfold k in *; lia). done.
Qed.
Lemma scan_string_dumped s r : forallb char_okb s = true -> scan_string (concat (map escape_char s) ++ 34 :: r) = Ok (s, r).
Proof.
  induction s as [|c s IH]; cbn [forallb map concat]; intros Hs; [reflexivity|]. apply andb_prop in Hs as [Hc Hs].
  rewrite <- app_assoc, (scan_escape _ _ Hc), (IH Hs). done.
Qed.

(** ** Numbers *)

Definition ends (r : str) : Prop := match r with [] => True | c :: _ => is_digit c = false /\ c <> 46 /\ c <> 101 /\ c <> 69 end.
Lemma span_digits_app ds r : Forall (fun c => is_digit c = true) ds -> ends r -> span_digits (ds ++ r) = (ds, r).
Proof.
  intros Hd Hr. induction Hd as [|c ds Hc Hd IH]; cbn [app].
  - destruct r as [|c r]; [done|]. destruct Hr as (Hr & _). cbn [span_digits]. by rewrite Hr.
  - cbn [span_digits]. by rewrite Hc, IH.
Qed.
Lemma frac_exp_none r : ends r -> scan_frac r = ([], r) /\ scan_exp r = ([], r).
Proof.
  destruct r as [|c r]; [done|]. intros (_ & H1 & H2 & H3). unfold scan_frac, scan_exp.
  replace (c =? 46) with false by lia. replace ((c =? 101) || (c =? 69)) with false by lia. done.
Qed.
Lemma dec_digits_lead fuel n : (0 < fuel)%nat -> 0 < n < 10 ^ Z.of_nat fuel -> exists c t, dec_digits fuel n = c :: t /\ is_digit c = true /\ c <> 48.
Proof.
  revert n. induction fuel as [|fuel IH]; intros n Hf Hn; [lia|]. cbn [dec_digits]. destruct (Z.ltb_spec n 10).
  - exists (48 + n), []. unfold is_digit. split; [done|]. split; lia.
  - assert (Hq : 1 <= n / 10) by (apply Z.div_le_lower_bound; lia).
    assert (Hu : n / 10 < 10 ^ Z.of_nat fuel) by (apply Z.div_lt_upper_bound; [lia|]; rewrite Nat2Z.inj_succ, Z.pow_succ_r in Hn by lia; lia).
    destruct fuel as [|fuel]; [change (10 ^ Z.of_nat 0) with 1 in Hu; lia|].
    destruct (IH (n / 10)) as (c & t & -> & Hc & H48); [lia|lia|]. by exists c, (t ++ [48 + n mod 10]).
Qed.
Lemma str_of_nat_lead n : 0 < n -> exists c t, str_of_nat n = c :: t /\ is_digit c = true /\ c <> 48.
Proof. intros Hn. apply dec_digits_lead; [lia|]. split; [done|]. apply str_of_nat_fuel. lia. Qed.
Lemma scan_nat n r : 0 <= n -> ends r ->
  exists c t, str_of_nat n = c :: t /\ is_digit c = true /\
  (if c =? 48 then Some ([48], t ++ r) else if is_digit c then Some (span_digits (c :: t ++ r)) else None) = Some (str_of_nat n, r).
Proof.
  intros Hn Hr. destruct (decide (n = 0)) as [->|Hz].
  - exists 48, []. done.
  - destruct (str_of_nat_lead n) as (c & t & E & Hc & H48); [lia|]. exists c, t. split; [done|]. split; [done|].
    replace (c =? 48) with false by lia. rewrite Hc. f_equal. change (c :: t ++ r) with ((c :: t) ++ r). rewrite <- E.
    apply span_digits_app; [|done]. by apply str_of_nat_spec.
Qed.
Lemma scan_number_dumped n r : ends r -> scan_number (str_of_int n ++ r) = Some (JInt n, r).
Proof.
  intros Hr. destruct (frac_exp_none r Hr) as [Hfr Hex]. unfold str_of_int. destruct (Z.ltb_spec n 0) as [Hn|Hn].
  - destruct (scan_nat (- n) r) as (c & t & E & Hc & Hs); [lia|done|]. destruct (str_of_nat_spec (- n)) as (_ & _ & Hv); [lia|].
    unfold scan_number. cbn [app]. replace (45 =? 45) with true by lia. cbv iota beta zeta. rewrite E. cbn [app].
    cbv iota beta. rewrite Hs, Hfr, Hex, Hv. by rewrite Z.opp_involutive.
  - destruct (scan_nat n r) as (c & t & E & Hc & Hs); [lia|done|]. destruct (str_of_nat_spec n) as (_ & _ & Hv); [lia|].
    assert (c <> 45) by (intros ->; discriminate Hc). unfold scan_number. rewrite E. cbn [app]. replace (c =? 45) with false by lia.
    cbv iota beta zeta. by rewrite Hs, Hfr, Hex, Hv.
Qed.

(** ** Values *)

Lemma skip_ws_to w c s : Forall (fun c => is_ws c = true) w -> is_ws c = false -> skip_ws (w ++ c :: s) = c :: s.
Proof. intros Hw Hc. unfold skip_ws. induction Hw as [|x w Hx Hw IH]; cbn [app lstrip]; [by rewrite Hc|by rewrite Hx]. Qed.
Lemma constant_other h w v c s : c <> h -> constant (h :: w) v (c :: s) = None.
Proof. intros H. unfold constant, startswith. cbn [length take beq]. by replace (c =? h) with false by lia. Qed.
Lemma dict_of_distinct d : NoDup d.*1 -> dict_of d = d.
Proof.
  enough (H : forall acc : list (str * json), NoDup (acc ++ d).*1 -> fold_left (fun d p => dset p.1 p.2 d) d acc = acc ++ d) by apply (H []).
  induction d as [|[k v] d IH]; intros acc Hd; [by rewrite app_nil_r|]. cbn [fold_left fst snd].
  rewrite dset_fresh.
  - rewrite IH; by rewrite <- app_assoc.
  - rewrite fmap_app in Hd. apply list.NoDup_app in Hd as (_ & Hd & _). apply dget_None. intros Hk. apply (Hd k Hk). by left.
Qed.

Section printed.
Context (wi wk : str) (Hwi : Forall (fun c => is_ws c = true) wi) (Hwk : Forall (fun c => is_ws c = true) wk).
Local Abbreviation item := (44 :: wi).
Local Abbreviation key := (58 :: wk).
Local Abbreviation print := (dumps item key).

Lemma dumps_head v : json_ok v = true -> exists c t, print v = c :: t /\ is_ws c = false /\ c <> 93 /\ c <> 125.
Proof.
  destruct v as [| [] | n | t | s | l | d]; intros Hv; try discriminate Hv; try (eexists _, _; split; [reflexivity|repeat split; vm_compute; congruence]).
  cbn [dumps]. pose proof (str_of_int_chars n) as Hc. unfold str_of_int in *. destruct (Z.ltb_spec n 0).
  - eexists _, _. split; [reflexivity|split; [done|lia]].
  - destruct (str_of_nat_spec n) as (HF & Hne & _); [lia|]. destruct (str_of_nat n) as [|c t]; [done|].
    exists c, t. split; [done|]. apply Forall_cons in HF as [Hd _]. unfold is_digit in Hd. unfold is_ws. lia.
Qed.
Lemma skip_ws_print w v r : Forall (fun c => is_ws c = true) w -> json_ok v = true -> skip_ws (w ++ print v ++ r) = print v ++ r.
Proof. intros Hw Hv. destruct (dumps_head v Hv) as (c & t & -> & Hc & _). by apply skip_ws_to. Qed.

Definition reads (v : json) : Prop :=
  forall fuel r, (length (print v) <= fuel)%nat -> ends r -> scan_value fuel (print v ++ r) = Ok (v, r).

Lemma reads_atom v : json_ok v = true -> match v with JNull | JBool _ | JInt _ => True | _ => False end -> reads v.
Proof.
  intros Hv Hat fuel r Hf Hr. destruct (dumps_head v Hv) as (c0 & t0 & E0 & _). rewrite E0 in Hf. cbn [length] in Hf. clear E0.
  destruct fuel as [|fuel]; [lia|]. clear Hf.
  destruct v as [| [] | n | t | s | l | d]; try done. cbn [dumps]. pose proof (scan_number_dumped n r Hr) as Hs.
  assert (Hh : exists c t, str_of_int n = c :: t /\ (is_digit c = true \/ c = 45)).
  { pose proof (str_of_int_chars n) as HF. destruct (str_of_int n) as [|c t] eqn:E; [|exists c, t; split; [done|]; by apply Forall_cons in HF as [HF _]].
    exfalso. unfold str_of_int in E. destruct (Z.ltb_spec n 0); [done|]. destruct (str_of_nat_spec n) as (_ & Hz & _); [lia|done]. }
  destruct Hh as (c & t & E & Hc). rewrite E in *. cbn [app] in *. cbn [scan_value].
  assert (Hn : c <> 34 /\ c <> 123 /\ c <> 91 /\ c <> 110 /\ c <> 116 /\ c <> 102) by (unfold is_digit in Hc; lia). destruct Hn as (? & ? & ? & ? & ? & ?).
  replace (c =? 34) with false by lia. replace (c =? 123) with false by lia. replace (c =? 91) with false by lia.
  change (lit "null") with (110 :: lit "ull"). change (lit "true") with (116 :: lit "rue"). change (lit "false") with (102 :: lit "alse").
  rewrite !constant_other, Hs by done. done.
Qed.
Lemma reads_str s : json_ok (JStr s) = true -> reads (JStr s).
Proof.
  intros Hs fuel r Hf Hr. destruct fuel as [|fuel]; [cbn [dumps dump_str length] in Hf; lia|]. cbn [dumps dump_str app scan_value].
  rewrite <- app_assoc. cbn [app]. replace (34 =? 34) with true by lia. by rewrite scan_string_dumped.
Qed.

(** The elements up to the closing bracket. *)
Lemma items_read l : l <> [] -> Forall (fun v => json_ok v = true) l -> Forall reads l ->
  forall fuel r, (length (join item (map print l)) < fuel)%nat -> scan_items fuel (join item (map print l) ++ 93 :: r) = Ok (l, r).
Proof.
  intros Hne Hok Hl. induction Hl as [|v l Hv Hl IH]; [done|]. apply Forall_cons in Hok as [Hvok Hok]. intros [|fuel] r Hf; [lia|]. clear Hne.
  destruct l as [|w l].
  - cbn [map join] in Hf |- *. cbn [scan_items]. rewrite (Hv fuel) by (lia || by repeat split). reflexivity.
  - cbn [map] in IH, Hf |- *. rewrite join_cons in Hf by done. rewrite join_cons by done. rewrite !length_app in Hf. cbn [length] in Hf.
    rewrite <- !app_assoc. cbn [scan_items]. rewrite (Hv fuel) by (lia || by repeat split). cbn [rbind app].
    change (skip_ws (44 :: ?x)) with (44 :: x). cbv iota beta. replace (44 =? 93) with false by lia. replace (44 =? 44) with true by lia.
    assert (Hsk : skip_ws (wi ++ join item (print w :: map print l) ++ 93 :: r) = join item (print w :: map print l) ++ 93 :: r).
    { apply Forall_cons in Hok as [Hw _]. destruct (dumps_head w Hw) as (c & t & Ew & Hc & _).
      rewrite Ew. destruct l; cbn [map join]; rewrite <- ?app_assoc; cbn [app]; by apply skip_ws_to. }
    rewrite Hsk, IH by (done || lia). done.
Qed.
Lemma reads_list l : json_ok (JList l) = true -> Forall reads l -> reads (JList l).
Proof.
  intros Hok Hl fuel r Hf Hr. cbn [json_ok] in Hok.
  pose proof (proj1 (forallb_Forall_true _ _) Hok) as HF.
  cbn [dumps length] in Hf |- *. destruct fuel as [|fuel]; [lia|]. rewrite length_app in Hf. cbn [length] in Hf. cbn [app scan_value].
  replace (91 =? 34) with false by lia. replace (91 =? 123) with false by lia. replace (91 =? 91) with true by lia. rewrite <- app_assoc. cbn [app].
  destruct l as [|v l]; [done|]. destruct (dumps_head v) as (c & t & E & Hc & Hc93 & _); [by apply Forall_cons in HF as [HF _]|].
  assert (Hsk : skip_ws (join item (map print (v :: l)) ++ 93 :: r) = join item (map print (v :: l)) ++ 93 :: r /\
    exists t', join item (map print (v :: l)) ++ 93 :: r = c :: t').
  { cbn [map]. rewrite E. destruct l; cbn [map join]; rewrite <- ?app_assoc; cbn [app]; (split; [by apply (skip_ws_to [])|by eexists]). }
  destruct Hsk as [-> [t' Et]]. rewrite Et. replace (c =? 93) with false by lia. rewrite <- Et.
  rewrite (items_read (v :: l)) by (done || lia). done.
Qed.

(** The members up to the closing brace. *)
Definition member (p : str * json) : str := dump_str p.1 ++ key ++ print p.2.
Lemma dumps_dict d : print (JDict d) = 123 :: join item (map member d) ++ [125].
Proof. reflexivity. Qed.
Lemma member_head p : exists t, member p = 34 :: t.
Proof. by eexists. Qed.
Lemma members_read d : d <> [] -> Forall (fun p => forallb char_okb p.1 && json_ok p.2 = true) d -> Forall (fun p => reads p.2) d ->
  forall fuel r, (length (join item (map member d)) < fuel)%nat -> scan_members fuel (join item (map member d) ++ 125 :: r) = Ok (d, r).
Proof.
  intros Hne Hok Hd. induction Hd as [|[k v] d Hv Hd IH]; [done|]. apply Forall_cons in Hok as [[Hk Hvok]%andb_prop Hok]. cbn [fst snd] in *.
  intros [|fuel] r Hf; [lia|]. clear Hne.
  assert (Hkey : forall x, scan_members (S fuel) (member (k, v) ++ x) = (let? (v, r) := scan_value fuel (print v ++ x) in
    match skip_ws r with
    | c :: r => if c =? 125 then Ok ([(k, v)], r) else if c =? 44 then let? (l, r) := scan_members fuel (skip_ws r) in Ok ((k, v) :: l, r) else Err ValueError
    | [] => Err ValueError
    end)).
  { intros x. unfold member, dump_str. cbn [fst snd app scan_members]. replace (34 =? 34) with true by lia. cbn [negb].
    rewrite <- !app_assoc. cbn [app]. rewrite scan_string_dumped by done. cbn [rbind].
    change (skip_ws (58 :: ?x)) with (58 :: x). cbv iota beta. replace (58 =? 58) with true by lia. cbn [negb].
    rewrite <- app_assoc, skip_ws_print by done. done. }
  destruct d as [|[k2 w] d].
  - cbn [map join] in Hf |- *. rewrite Hkey, (Hv fuel); [reflexivity| |by repeat split].
    unfold member, dump_str in Hf. repeat (first [rewrite length_app in Hf | progress cbn [length fst snd app] in Hf]). lia.
  - set (ms := map member ((k2, w) :: d)) in *. change (map member ((k, v) :: (k2, w) :: d)) with (member (k, v) :: ms) in *.
    rewrite join_cons in Hf by done. rewrite join_cons by done. rewrite <- app_assoc, Hkey. 
    unfold member, dump_str in Hf. repeat (first [rewrite length_app in Hf | progress cbn [length fst snd app] in Hf]).
    rewrite <- app_assoc. rewrite (Hv fuel) by (lia || by repeat split). cbn [rbind app].
    change (skip_ws (44 :: ?x)) with (44 :: x). cbv iota beta. replace (44 =? 125) with false by lia. replace (44 =? 44) with true by lia.
    assert (Hsk : skip_ws (wi ++ join item ms ++ 125 :: r) = join item ms ++ 125 :: r).
    { subst ms. destruct (member_head (k2, w)) as [t Et]. destruct d; cbn [map join]; rewrite Et, <- ?app_assoc; cbn [app]; by apply skip_ws_to. }
    rewrite Hsk, IH by (done || lia). done.
Qed.
Lemma reads_dict d : json_ok (JDict d) = true -> Forall (fun p => reads p.2) d -> reads (JDict d).
Proof.
  intros Hok Hd fuel r Hf Hr. cbn [json_ok] in Hok. apply andb_prop in Hok as [Hok Hnd]. apply bool_decide_eq_true in Hnd.
  pose proof (proj1 (forallb_Forall_true _ _) Hok) as HF.
  rewrite dumps_dict in *. cbn [length] in Hf. destruct fuel as [|fuel]; [lia|]. rewrite length_app in Hf. cbn [length] in Hf. cbn [app scan_value].
  replace (123 =? 34) with false by lia. replace (123 =? 123) with true by lia. rewrite <- app_assoc. cbn [app].
  destruct d as [|p d]; [done|].
  assert (Hsk : skip_ws (join item (map member (p :: d)) ++ 125 :: r) = join item (map member (p :: d)) ++ 125 :: r /\
    exists t', join item (map member (p :: d)) ++ 125 :: r = 34 :: t').
  { destruct (member_head p) as [t Et]. destruct d; cbn [map join]; rewrite Et, <- ?app_assoc; cbn [app]; (split; [by apply (skip_ws_to [])|by eexists]). }
  destruct Hsk as [-> [t' Et]]. rewrite Et. replace (34 =? 125) with false by lia. rewrite <- Et.
  rewrite (members_read (p :: d)) by (done || lia). cbn [rbind]. by rewrite dict_of_distinct.
Qed.
Lemma dumps_read v : json_ok v = true -> reads v.
Proof.
  induction v as [| b | n | t | s | l IH | d IH] using json_nested; intros Hv; try discriminate Hv; try (by apply reads_atom); [by apply reads_str| |].
  - apply reads_list; [done|]. cbn [json_ok] in Hv. apply forallb_Forall_true in Hv. revert IH Hv. rewrite !Forall_lookup. intros IH Hv i x Hi. exact (IH i x Hi (Hv i x Hi)).
  - apply reads_dict; [done|]. cbn [json_ok] in Hv. apply andb_prop in Hv as [Hv _]. apply forallb_Forall_true in Hv.
    revert IH Hv. rewrite !Forall_lookup. intros IH Hv i p Hi. apply (IH i p Hi). by destruct (andb_prop _ _ (Hv i p Hi)).
Qed.
End printed.

(** What [json.dumps] prints, [json.loads] reads back, for every value
    without floats, lone surrogates or repeated keys and for any separators of
    the usual shape. *)
Theorem json_roundtrip wi wk v :
  forallb is_ws wi = true -> forallb is_ws wk = true -> json_ok v = true -> loads (dumps (44 :: wi) (58 :: wk) v) = Ok v.
Proof.
  intros Hwi Hwk Hv. apply forallb_Forall_true in Hwi, Hwk. unfold loads.
  pose proof (skip_ws_print wi wk [] v [] ltac:(constructor) Hv) as Hs. rewrite app_nil_r in Hs. cbn [app] in Hs. rewrite Hs.
  rewrite <- (app_nil_r (dumps _ _ v)) at 2.
  rewrite dumps_read by (done || lia). done.
Qed.
Definition sample : json := JDict [(lit "op", JStr (34 :: 0x1F600 :: lit "x")); (lit "args", JList [JInt (-12); JNull; JBool true; JDict []])].
Lemma json_roundtrip_witness : loads (dumps [44; 32] [58; 32] sample) = Ok sample.
Proof. apply (json_roundtrip [32] [32]); reflexivity. Defined.

(** What is printed is ASCII, so encoding it changes nothing. *)
Definition ascii (c : Z) : Prop := 0 <= c < 128.

Lemma hex_digit_ascii n : 0 <= n < 16 -> ascii (hex_digit n).
Proof. unfold hex_digit, ascii. intros Hn. destruct (n <? 10); lia. Qed.
Lemma u_escape_ascii n : Forall ascii (u_escape n).
Proof. unfold u_escape, hex4. repeat constructor; try lia; apply hex_digit_ascii; apply Z.mod_pos_bound; lia. Qed.
Lemma escape_ascii c : Forall ascii (escape_char c).
Proof.
  unfold escape_char. repeat case_match; repeat apply Forall_app_2; try apply u_escape_ascii; try (repeat constructor; lia). 
Qed.
Lemma dump_str_ascii s : Forall ascii (dump_str s).
Proof.
  unfold dump_str. constructor; [unfold ascii; lia|]. apply Forall_app. split; [|repeat constructor; lia].
  induction s as [|c s IH]; cbn [map concat]; [constructor|]. apply Forall_app_2; [apply escape_ascii|done].
Qed.
Lemma join_Forall (P : Z -> Prop) sep l : Forall P sep -> Forall (Forall P) l -> Forall P (join sep l).
Proof.
  intros Hs Hl. induction Hl as [|w l Hw Hl IH]; [constructor|]. destruct l as [|w2 l]; [done|].
  rewrite join_cons by done. by repeat apply Forall_app_2.
Qed.
Lemma dumps_ascii item key v : Forall ascii item -> Forall ascii key -> json_ok v = true -> Forall ascii (dumps item key v).
Proof.
  intros Hi Hk. induction v as [| b | n | t | s | l IH | d IH] using json_nested; intros Hv; try discriminate Hv; cbn [dumps].
  - repeat constructor; by vm_compute.
  - destruct b; repeat constructor; by vm_compute.
  - eapply Forall_impl; [apply str_of_int_chars|]. unfold is_digit, ascii. intros c Hc. lia.
  - apply dump_str_ascii.
  - constructor; [unfold ascii; lia|]. apply Forall_app_2; [|repeat constructor; lia]. apply join_Forall; [done|].
    apply forallb_Forall_true in Hv. induction IH as [|v l Hv1 IH1 IH2]; [constructor|]. apply Forall_cons in Hv as [Hv Hl]. constructor; auto.
  - constructor; [unfold ascii; lia|]. apply Forall_app_2; [|repeat constructor; lia]. apply join_Forall; [done|].
    cbn [json_ok] in Hv. apply andb_prop in Hv as [Hv _]. apply forallb_Forall_true in Hv.
    induction IH as [|p d Hv1 IH1 IH2]; [constructor|]. apply Forall_cons in Hv as [[_ Hp]%andb_prop Hd]. constructor; [|by apply IH2].
    repeat apply Forall_app_2; auto using dump_str_ascii.
Qed.
Lemma encode_ascii s : Forall ascii s -> encode s = Ok s.
Proof.
  unfold encode. intros Hs. assert (H : rmap utf8_char s = Ok (map (fun c => [c]) s)).
  { induction Hs as [|c s Hc Hs IH]; [done|]. cbn [rmap map]. unfold ascii in Hc. unfold utf8_char at 1. replace (c <? 0x80) with true by lia.
    cbn [rbind]. by rewrite IH. }
  rewrite H. cbn [rbind]. f_equal. clear. induction s as [|c s IH]; cbn [map concat app]; [done|]. by rewrite IH.
Qed.
Lemma decode_ascii s : Forall ascii s -> decode_strict s = Ok s.
Proof.
  intros Hs. assert (Hd : decode s = s).
  { destruct (decode_encode s) as (b & Hb & Hd); [|rewrite encode_ascii in Hb by done; by injection Hb as <-].
    eapply Forall_impl; [exact Hs|]. unfold ascii, code_point. intros c Hc. lia. }
  unfold decode_strict. by rewrite Hd, encode_ascii, beq_refl.
Qed.
Lemma json_dumps_ascii v : json_ok v = true -> Forall ascii (json_dumps v).
Proof. apply dumps_ascii; repeat constructor; by vm_compute. Qed.
Lemma ascii_bytes_ok s : Forall ascii s -> bytes_ok s.
Proof. intros Hs. eapply Forall_impl; [exact Hs|]. unfold ascii, byte_ok. intros c Hc. lia. Qed.

(** A body as it travels: encoded, decoded and read. *)
Lemma body_travels v : json_ok v = true -> encode (json_dumps v) = Ok (json_dumps v) /\ (let? t := decode_strict (json_dumps v) in loads t) = Ok v.
Proof.
  intros Hv. pose proof (json_dumps_ascii v Hv) as Ha. split; [by apply encode_ascii|]. rewrite decode_ascii by done. cbn [rbind].
  unfold json_dumps. change (lit ", ") with [44; 32]. change (lit ": ") with [58; 32]. unfold loads.
  pose proof (skip_ws_print [32] [32] [] v [] ltac:(constructor) Hv) as Hs. rewrite app_nil_r in Hs. cbn [app] in Hs. rewrite Hs.
  pose proof (dumps_read [32] [32] ltac:(by repeat constructor) ltac:(by repeat constructor) v Hv (S (length (dumps [44; 32] [58; 32] v))) []) as Hr.
  rewrite app_nil_r in Hr. by rewrite Hr by (done || lia).
Qed.
