(* ===== verification/Bridge.v ===== *)
(** * The host bridge

    [kernel/bridge/__init__.py]: the client of the host service.  Requests are
    frames (a length, a JSON envelope, perhaps a binary trailer) on a byte
    stream given by the class [Transport]; queued operations travel together
    before the next call.  [kernel/gui/sdl2/dispatch.py] are its two senders and
    [kernel/bridge/input.py] turns the host's events into the kernel's.  A
    frame is sent under a lock, so a send is one step; what is logged is left
    out. *)

From Stdlib Require Import ZArith Lia.
From stdpp Require Import base list numbers strings.
From S2P Require Import Prelude Bytes Pystr Dict Json Input.

Local Open Scope Z_scope.

Definition PROTOCOL_VERSION : Z := 2.

(** The byte stream ([kernel/bridge/uart.py]), the processor's counter with its
    frequency, and the uptime of the scheduler.  A read gives [None] where the
    Python one does: on a timeout, or when the connection is gone. *)
Class Transport (W : Type) := {
  write_bytes : bytes -> M W unit;
  read_bytes : Z -> M W (option bytes);
  read_bytes_timeout : Z -> Z -> M W (option bytes);
  hal_counter : M W (Z * Z);
  uptime_ms : W -> Z;
}.

Definition _counter {W} `{Transport W} : M W (Z * Z) := try_except hal_counter (fun _ => gets (fun w => (uptime_ms w, 1000))).

(** One row of the metrics. *)
Record row : Type := mkRow { count : Z; total_ticks : Z; max_ticks : Z; row_tx : Z; row_rx : Z; frequency_hz : Z }.

(** The client.  [features] is the list the set is made of. *)
Record Bridge : Type := mkBridge {
  next_id : Z; opened : bool; hello_result : list (str * json); pending : list json;
  metrics_ : list (str * row); features : list json;
}.
Definition Bridge_init : Bridge := mkBridge 1 false [] [] [] [].
Definition br_id i b := mkBridge i (opened b) (hello_result b) (pending b) (metrics_ b) (features b).
Definition br_opened o b := mkBridge (next_id b) o (hello_result b) (pending b) (metrics_ b) (features b).
Definition br_hello r b := mkBridge (next_id b) (opened b) r (pending b) (metrics_ b) (features b).
Definition br_pending p b := mkBridge (next_id b) (opened b) (hello_result b) p (metrics_ b) (features b).
Definition br_metrics m b := mkBridge (next_id b) (opened b) (hello_result b) (pending b) m (features b).
Definition br_features f b := mkBridge (next_id b) (opened b) (hello_result b) (pending b) (metrics_ b) f.

(** ** Metrics *)

Definition _record_metric (op : str) (elapsed frequency tx_bytes rx_bytes : Z) (b : Bridge) : Bridge :=
  let r := match dget op (metrics_ b) with Some r => r | None => mkRow 0 0 0 0 0 frequency end in
  br_metrics (dset op
    (mkRow (count r + 1) (total_ticks r + Z.max 0 elapsed) (Z.max (max_ticks r) (Z.max 0 elapsed)) (row_tx r + tx_bytes) (row_rx r + rx_bytes)
       (if frequency =? 0 then frequency_hz r else frequency)) (metrics_ b)) b.

(** A row as reported: [mean_us] and [max_us] where the frequency is known. *)
Record report : Type := mkReport { rep_row : row; mean_ticks : Z; rep_us : option (Z * Z) }.
Definition report_row (r : row) : report :=
  let n := if count r =? 0 then 1 else count r in
  let mean := total_ticks r / n in
  let freq := frequency_hz r in
  mkReport r mean (if freq =? 0 then None else Some (mean * 1000000 / freq, max_ticks r * 1000000 / freq)).
Definition metrics (reset : bool) (b : Bridge) : list (str * report) * Bridge :=
  (map (fun p => (p.1, report_row p.2)) (metrics_ b), if reset then br_metrics [] b else b).

(** ** Frames *)

Definition frame_params (params : list (str * json)) (payload : bytes) : list (str * json) :=
  match payload with [] => params | _ => dset (lit "payload_len") (JInt (len payload)) params end.
Definition envelope (id : Z) (op : str) (params : list (str * json)) (payload : bytes) : json :=
  JDict [(lit "v", JInt PROTOCOL_VERSION); (lit "id", JInt id); (lit "op", JStr op); (lit "params", JDict (frame_params params payload))].
Definition frame_body (id : Z) (op : str) (params : list (str * json)) (payload : bytes) : result bytes :=
  encode (json_dumps (envelope id op params payload)).

Definition code_of (v : json) : option Z := match v with JInt n => Some n | _ => None end.
Definition or_empty (v : json) : json := if truthy v then v else JDict [].

(** What a reply means to the request [frame_id]. *)
Definition read_reply (frame_id : Z) (env : json) : result json :=
  let? v := json_get env (lit "v") JNull in
  if negb (json_is v PROTOCOL_VERSION) then Err (BridgeError (Some (-5)))
  else
    let? i := json_get env (lit "id") JNull in
    if negb (json_is i frame_id) then Err (BridgeError (Some (-2)))
    else
      let? ok := json_get env (lit "ok") JNull in
      if negb (truthy ok) then
        let? e := json_get env (lit "error") JNull in
        let? code := json_get (or_empty e) (lit "code") (JInt (-3)) in
        Err (BridgeError (code_of code))
      else
        let? r := json_get env (lit "result") JNull in Ok (or_empty r).

Section bridge.
Context {W : Type} `{Transport W}.

Record St : Type := mkSt { bridge : Bridge; wire : W }.
Definition on_wire {A} (m : M W A) : M St A := zoom wire (fun w s => mkSt (bridge s) w) m.
Definition set_bridge (f : Bridge -> Bridge) : M St unit := modify (fun s => mkSt (f (bridge s)) (wire s)).
(** The same with a local variable [rx_bytes] beside the state. *)
Definition with_rx {A} (m : M W A) : M (W * Z) A := zoom fst (fun w s => (w, s.2)) m.

Definition write_frame (body payload : bytes) : M W unit :=
  let! n := lift (pack_be 4 (len body)) in
  write_bytes (n ++ body) ;;;
  match payload with [] => ret tt | _ => write_bytes payload end.

Definition read_reply_bytes (n : Z) (timeout_ms : option Z) : M W (option bytes) :=
  match timeout_ms with
  | None => read_bytes n
  | Some t => let! b := read_bytes_timeout n t in match b with Some _ => ret b | None => raise (BridgeError (Some (-4))) end
  end.
Definition some_or {A} (e : exn) (o : option A) : result A := match o with Some a => Ok a | None => Err e end.

(** The [try] block of [_send_locked]. *)
Definition exchange (frame_id : Z) (body payload : bytes) (timeout_ms : option Z) : M (W * Z) json :=
  with_rx (write_frame body payload) ;;;
  let! hdr := with_rx (read_reply_bytes 4 timeout_ms) in
  let! length := lift (let? hdr := some_or TypeError hdr in unpack_be 4 hdr) in
  if (length =? 0) || (16 * 1024 * 1024 <? length) then raise (BridgeError (Some (-1)))
  else
    let! body := with_rx (read_reply_bytes length timeout_ms) in
    modify (fun s => (s.1, 4 + length)) ;;;
    let! env := lift (let? body := some_or AttributeError body in let? t := decode_strict body in loads t) in
    lift (read_reply frame_id env).

(** Its [finally] clause. *)
Definition record (op : str) (started frequency tx_bytes rx_bytes : Z) : M St unit :=
  let! (ended, end_frequency) := on_wire _counter in
  set_bridge (_record_metric op (ended - started) (if end_frequency =? 0 then frequency else end_frequency) tx_bytes rx_bytes).

Definition _send_locked (op : str) (params : list (str * json)) (payload : bytes) (timeout_ms : option Z) : M St json :=
  let! frame_id := gets (fun s => next_id (bridge s)) in
  set_bridge (br_id (frame_id + 1)) ;;;
  let! body := lift (frame_body frame_id op params payload) in
  let! (started, frequency) := on_wire _counter in
  let tx_bytes := 4 + len body + len payload in
  fun s =>
    let '(r, (w, rx_bytes)) := exchange frame_id body payload timeout_ms (wire s, 0) in
    try_finally (lift r) (record op started frequency tx_bytes rx_bytes) (mkSt (bridge s) w).
Definition _send := _send_locked.

(** ** Operations *)

Definition cast_item (op : str) (params : list (str * json)) : json := JDict [(lit "op", JStr op); (lit "params", JDict params)].
Definition cast (op : str) (params : list (str * json)) : M St unit := set_bridge (fun b => br_pending (pending b ++ [cast_item op params]) b).

(** The queue as one batch. *)
Definition send_pending (timeout_ms : option Z) : M St unit :=
  let! ops := gets (fun s => pending (bridge s)) in
  match ops with
  | [] => ret tt
  | _ => set_bridge (br_pending []) ;;; let! _ := _send (lit "render.batch") [(lit "ops", JList ops)] [] timeout_ms in ret tt
  end.
Definition flush : M St unit := send_pending None.
Definition call (op : str) (params : list (str * json)) (payload : bytes) (timeout_ms : option Z) : M St json :=
  send_pending timeout_ms ;;; _send op params payload timeout_ms.
Definition notify (op : str) (params : list (str * json)) (payload : bytes) : M St unit :=
  flush ;;;
  let! body := lift (frame_body 0 op params payload) in
  let! (started, frequency) := on_wire _counter in
  let tx_bytes := 4 + len body + len payload in
  try_finally (on_wire (write_frame body payload)) (record (op ++ lit ".notify") started frequency tx_bytes 0).

(** [set(features or ())]: lists and dicts cannot be in a set. *)
Definition hashable (v : json) : bool := match v with JList _ | JDict _ => false | _ => true end.
Definition json_set (v : json) : result (list json) :=
  if truthy v then let? l := json_iter v in if forallb hashable l then Ok l else Err TypeError else Ok [].
Definition as_dict (v : json) : result (list (str * json)) := match v with JDict d => Ok d | _ => Err AttributeError end.

Definition hello_params : list (str * json) := [(lit "protocol", JInt PROTOCOL_VERSION); (lit "client", JStr (lit "pythonos"))].
Definition hello (timeout_ms : option Z) : M St json :=
  let! b := gets bridge in
  if opened b then ret (JDict (hello_result b))
  else
    let! r := call (lit "hello") hello_params [] timeout_ms in
    set_bridge (br_opened true) ;;;
    let! f := lift (json_get r (lit "features") JNull) in
    let! f := lift (json_set f) in
    set_bridge (br_features f) ;;;
    let! d := lift (as_dict r) in
    set_bridge (br_hello d) ;;;
    ret r.
Definition open_bridge : M St bool :=
  try_except (let! r := hello (Some 2000) in
              let! _ := lift (json_get r (lit "service") JNull) in
              let! _ := lift (json_get r (lit "sdl_ver") JNull) in ret true)
    (fun _ => ret false).

(** [str(e)] is a parameter. *)
Definition performance_snapshot (exn_text : exn -> str) (reset : bool) : M St (list (str * report) * json) :=
  let! guest := fun s => let (g, b) := metrics reset (bridge s) in (Ok g, mkSt b (wire s)) in
  let! host := try_except (call (lit "telemetry.snapshot") [(lit "reset", JBool reset)] [] None) (fun e => ret (JDict [(lit "error", JStr (exn_text e))])) in
  ret (guest, host).

(** [kernel.gui.sdl2.dispatch] *)
Definition sdl_params (name : str) (args : list json) : list (str * json) := [(lit "name", JStr name); (lit "args", JList args)].
Definition sdl_call (name : str) (args : list json) : M St json := call (lit "sdl.call") (sdl_params name args) [] None.
Definition sdl_cast (name : str) (args : list json) : M St unit := cast (lit "sdl.call") (sdl_params name args).
End bridge.
Arguments St W : clear implicits.

(** ** The host's events *)

Definition BR_KEY_DOWN : Z := 1.
Definition BR_KEY_UP : Z := 2.
Definition BR_MOUSE_MOVE : Z := 3.
Definition BR_MOUSE_DOWN : Z := 4.
Definition BR_MOUSE_UP : Z := 5.
Definition BR_QUIT : Z := 6.
Definition BR_FILE_DROP : Z := 7.

Definition SDLK_TO_KERNEL : list (Z * Z) :=
  [(27, KEY_ESC); (9, KEY_TAB); (13, KEY_ENTER); (8, KEY_BACKSPACE); (32, KEY_SPACE); (0x4000007F, KEY_DELETE);
   (0x40000050, KEY_LEFT); (0x4000004F, KEY_RIGHT); (0x40000052, KEY_UP); (0x40000051, KEY_DOWN);
   (0x400000E1, KEY_LSHIFT); (0x400000E5, KEY_RSHIFT); (0x400000E0, KEY_LCTRL); (0x400000E4, KEY_RCTRL);
   (0x400000E2, KEY_LALT); (0x400000E6, KEY_RALT); (0x40000039, KEY_CAPS_LOCK);
   (0x4000003A, KEY_F 1); (0x4000003B, KEY_F 2); (0x4000003C, KEY_F 3); (0x4000003D, KEY_F 4);
   (0x4000003E, KEY_F 5); (0x4000003F, KEY_F 6); (0x40000040, KEY_F 7); (0x40000041, KEY_F 8)].
Definition _translate_keycode (sym : Z) : Z :=
  match dget sym SDLK_TO_KERNEL with
  | Some k => k
  | None => if sym <? 0x80 then sym else 0
  end.
Definition _translate_modifiers (value : Z) : Z :=
  let bit mask m mods := if Z.land value mask =? 0 then mods else Z.lor mods m in
  bit 0x2000 MOD_CAPS (bit 0x0C00 MOD_META (bit 0x0300 MOD_ALT (bit 0x00C0 MOD_CTRL (bit 0x0003 MOD_SHIFT 0)))).

Section events.
(** [str(v)] of a value that is not a string, and such a value where the
    event's text is expected. *)
Context (py_str as_text : json -> str).

Definition get_int (ev : json) (k : str) : result Z := let? v := json_get ev k (JInt 0) in json_int v.
Definition text_or (f : json -> str) (v : json) : str := match v with JStr s => s | v => f v end.
Definition _translate (ev : json) : result (option Event) :=
  let? kind := json_get ev (lit "kind") (JInt 0) in
  let? x := get_int ev (lit "x") in
  let? y := get_int ev (lit "y") in
  let? dx := get_int ev (lit "dx") in
  let? dy := get_int ev (lit "dy") in
  if json_is kind BR_MOUSE_MOVE then Ok (Some (plain_event MOUSE_MOVE 0 [] 0 x y dx dy))
  else if json_is kind BR_MOUSE_DOWN then let? b := get_int ev (lit "button") in Ok (Some (plain_event MOUSE_DOWN b [] 0 x y 0 0))
  else if json_is kind BR_MOUSE_UP then let? b := get_int ev (lit "button") in Ok (Some (plain_event MOUSE_UP b [] 0 x y 0 0))
  else if json_is kind BR_KEY_DOWN then
    let? code := get_int ev (lit "code") in
    let? text := json_get ev (lit "text") (JStr []) in
    let? m := get_int ev (lit "mod") in
    Ok (Some (plain_event EVENT_KEY_DOWN (_translate_keycode code) (text_or as_text text) (_translate_modifiers m) 0 0 0 0))
  else if json_is kind BR_KEY_UP then
    let? code := get_int ev (lit "code") in
    let? m := get_int ev (lit "mod") in
    Ok (Some (plain_event EVENT_KEY_UP (_translate_keycode code) [] (_translate_modifiers m) 0 0 0 0))
  else if json_is kind BR_QUIT then Ok (Some (plain_event QUIT 0 [] 0 0 0 0 0))
  else if json_is kind BR_FILE_DROP then
    let? name := json_get ev (lit "name") (JStr []) in
    let? token := get_int ev (lit "token") in
    let? size := get_int ev (lit "size") in
    Ok (Some (mkEvent HOST_FILE_DROP 0 [] 0 x y 0 0 (text_or py_str name) token size))
  else Ok None.

(** One turn of [_pump] up to its sleep: the events are posted as they are
    translated, [queue] is the queue with what this turn appends.  A
    [BridgeError] sleeps half a second, any other exception ends the task. *)
Inductive pump_state : Type := Sleeping (half_second : bool) | Ended (e : exn).
Definition post_events (raws : list json) : M (list Event) unit :=
  for_each raws (fun raw =>
    let! ev := lift (_translate raw) in
    match ev with Some ev => modify (fun q => q ++ [ev]) | None => ret tt end).
Definition pump_turn {W} `{Transport W} (queue : list Event) : St W -> pump_state * list Event * St W :=
  fun s =>
    match call (lit "event.poll") [] [] None s with
    | (Err (BridgeError _), s) => (Sleeping true, queue, s)
    | (Err e, s) => (Ended e, queue, s)
    | (Ok r, s) =>
        match (let? l := json_get r (lit "events") (JList []) in json_iter l) with
        | Err e => (Ended e, queue, s)
        | Ok raws =>
            match post_events raws queue with
            | (Ok _, queue) => (Sleeping false, queue, s)
            | (Err e, queue) => (Ended e, queue, s)
            end
        end
    end.
End events.
