(* ===== verification/BridgeProps.v ===== *)
(** * The bridge against a host

    A host is what executes operations; a stream with a host behind it is a
    transport: it parses the frames as they arrive and queues its replies.
    Whatever the client queues, batches, notifies or calls, the host executes
    every operation at its place in the program, and a call gives the host's
    answer.  One reply that is read late spoils every call after it. *)

From Stdlib Require Import ZArith Lia.
From stdpp Require Import base list numbers strings.
From S2P Require Import Prelude Bytes Pystr Dict Json Input Bridge.

Local Open Scope Z_scope.

Definition params := list (str * json).

(** ** The host *)

(** Executing an operation gives a result, or a code and a message. *)
Class Host (H : Type) := exec : str -> params -> bytes -> H -> (json + (Z * str)) * H.

Definition reply (id : Z) (r : json + (Z * str)) : json :=
  match r with
  | inl v => JDict [(lit "v", JInt PROTOCOL_VERSION); (lit "id", JInt id); (lit "ok", JBool true); (lit "result", v)]
  | inr (c, m) => JDict [(lit "v", JInt PROTOCOL_VERSION); (lit "id", JInt id); (lit "ok", JBool false); (lit "error", JDict [(lit "code", JInt c); (lit "msg", JStr m)])]
  end.
Definition framed (v : json) : bytes := be_bytes 4 (len (json_dumps v)) ++ json_dumps v.

(** What executing queued operations one by one leaves. *)
Definition exec_all {H} `{Host H} (casts : list (str * params)) (h : H) : H := fold_left (fun h c => (exec c.1 c.2 [] h).2) casts h.

(** A batch executes its operations in order; answers are sendable. *)
Definition batch_op : str := lit "render.batch".
Definition item_of (c : str * params) : json := cast_item c.1 c.2.
Class HostLaws (H : Type) `{Host H} := {
  exec_batch : forall casts h, Forall (fun c => c.1 <> batch_op) casts ->
    exists v, exec batch_op [(lit "ops", JList (map item_of casts))] [] h = (inl v, exec_all casts h);
  exec_sendable : forall op ps payload h id, 0 <= id < 2 ^ 64 ->
    let r := reply id (exec op ps payload h).1 in json_ok r = true /\ len (json_dumps r) <= 16 * 1024 * 1024;
}.

(** ** The stream *)

Record Stream (H : Type) : Type := mkStream { s_in : bytes; s_out : bytes; s_host : H; s_clock : Z }.
Arguments mkStream {H}. Arguments s_in {H}. Arguments s_out {H}. Arguments s_host {H}. Arguments s_clock {H}.

Section stream.
Context {H : Type} `{Host H}.
Implicit Types s : Stream H.

Definition field (v : json) (k : str) : json := match json_get v k JNull with Ok x => x | Err _ => JNull end.
Definition as_int (v : json) : Z := match v with JInt n => n | _ => 0 end.

(** One frame off the input, if all of it is there. *)
Definition serve_one s : option (Stream H) :=
  if len (s_in s) <? 4 then None
  else
    let n := Z.to_nat (be_val (take 4 (s_in s))) in
    let rest := drop 4 (s_in s) in
    if (length rest <? n)%nat then None
    else
      match (let? t := decode_strict (take n rest) in loads t) with
      | Ok env =>
          let ps := match field env (lit "params") with JDict d => d | _ => [] end in
          let rest := drop n rest in
          let k := Z.to_nat (as_int (field (JDict ps) (lit "payload_len"))) in
          if (length rest <? k)%nat then None
          else
            let op := match field env (lit "op") with JStr o => o | _ => [] end in
            let id := as_int (field env (lit "id")) in
            let (r, h) := exec op ps (take k rest) (s_host s) in
            Some (mkStream (drop k rest) (s_out s ++ if id =? 0 then [] else framed (reply id r)) h (s_clock s))
      | Err _ => Some (mkStream (drop n rest) (s_out s) (s_host s) (s_clock s))
      end.
Fixpoint serve (fuel : nat) s : Stream H :=
  match fuel with
  | O => s
  | S fuel => match serve_one s with Some s => serve fuel s | None => s end
  end.
Definition arrive (b : bytes) s : Stream H :=
  serve (length (s_in s ++ b)) (mkStream (s_in s ++ b) (s_out s) (s_host s) (s_clock s)).
Definition take_out (n : Z) s : result (option bytes) * Stream H :=
  if len (s_out s) <? n then (Ok None, s)
  else (Ok (Some (slice_to (s_out s) n)), mkStream (s_in s) (slice_from (s_out s) n) (s_host s) (s_clock s)).

#[export] Instance stream_transport : Transport (Stream H) := {
  write_bytes b := modify (arrive b);
  read_bytes := take_out;
  read_bytes_timeout n _ := take_out n;
  hal_counter s := (Ok (s_clock s, 1000), mkStream (s_in s) (s_out s) (s_host s) (s_clock s + 1));
  uptime_ms := s_clock;
}.

(** ** One frame *)

Definition sendable (id : Z) (op : str) (ps : params) (payload : bytes) : Prop :=
  json_ok (envelope id op ps payload) = true /\ len (json_dumps (envelope id op ps payload)) < 2 ^ 32 /\ dget (lit "payload_len") ps = None.

Lemma payload_field ps payload : dget (lit "payload_len") ps = None ->
  Z.to_nat (as_int (field (JDict (frame_params ps payload)) (lit "payload_len"))) = length payload.
Proof.
  intros Hp. unfold frame_params, field, json_get. destruct payload as [|b payload]; [by rewrite Hp|].
  rewrite dget_dset. cbn [as_int]. unfold len. lia.
Qed.

Definition answered (id : Z) (r : json + (Z * str)) : bytes := if id =? 0 then [] else framed (reply id r).
Definition after_frame (id : Z) op ps payload (out : bytes) (h : H) (t : Z) : Stream H :=
  let (r, h') := exec op (frame_params ps payload) payload h in mkStream [] (out ++ answered id r) h' t.

Lemma frame_served id op ps payload out h t : sendable id op ps payload ->
  let body := json_dumps (envelope id op ps payload) in
  serve_one (mkStream (be_bytes 4 (len body) ++ body ++ payload) out h t) = Some (after_frame id op ps payload out h t) /\
  (payload <> [] -> serve_one (mkStream (be_bytes 4 (len body) ++ body) out h t) = None).
Proof.
  intros (Hok & Hlen & Hp) body. pose proof (len_nonneg body) as Hnn. destruct (body_travels _ Hok) as [_ Hbody].
  assert (Hpre : forall x, serve_one (mkStream (be_bytes 4 (len body) ++ body ++ x) out h t) =
    (if (length x <? length payload)%nat then None
     else let (r, h') := exec op (frame_params ps payload) (take (length payload) x) h in
          Some (mkStream (drop (length payload) x) (out ++ answered id r) h' t))).
  { intros x. unfold serve_one. cbn [s_in s_out s_host s_clock]. rewrite len_app, len_be_bytes.
    pose proof (len_nonneg (body ++ x)) as Hbx. rewrite (proj2 (Z.ltb_ge _ _)) by (change (Z.of_nat 4) with 4; lia).
    rewrite take_app_length', drop_app_length' by (symmetry; apply length_be_bytes).
    rewrite be_val_be_bytes by (change (256 ^ Z.of_nat 4) with (2 ^ 32); unfold body in *; lia).
    replace (Z.to_nat (len body)) with (length body) by (unfold len; lia).
    replace (length (body ++ x) <? length body)%nat with false by (rewrite length_app; symmetry; apply Nat.ltb_ge; lia).
    rewrite take_app_length, drop_app_length. fold body in Hbody. rewrite Hbody.
    change (field (envelope id op ps payload) (lit "params")) with (JDict (frame_params ps payload)). cbv iota beta zeta.
    rewrite payload_field by done. reflexivity. }
  split.
  - rewrite Hpre. replace (length payload <? length payload)%nat with false by (symmetry; apply Nat.ltb_irrefl).
    rewrite firstn_all, drop_all. unfold after_frame. by destruct (exec _ _ _ _).
  - intros Hne. pose proof (Hpre []) as Hn. rewrite app_nil_r in Hn. rewrite Hn.
    destruct payload as [|b p]; [done|]. done.
Qed.

Lemma serve_idle fuel s : s_in s = [] -> serve fuel s = s.
Proof. intros Hs. destruct fuel; cbn [serve]; [done|]. unfold serve_one. by rewrite Hs. Qed.
Lemma serve_step fuel s s' : (0 < fuel)%nat -> serve_one s = Some s' -> s_in s' = [] -> serve fuel s = s'.
Proof. intros Hf E Hs. destruct fuel; [lia|]. cbn [serve]. by rewrite E, serve_idle. Qed.

Lemma write_frame_served id op ps payload out h t : sendable id op ps payload ->
  write_frame (json_dumps (envelope id op ps payload)) payload (mkStream [] out h t) = (Ok tt, after_frame id op ps payload out h t).
Proof.
  intros Hs. destruct (frame_served id op ps payload out h t Hs) as [Hall Hpart]. destruct Hs as (Hok & Hlen & Hp).
  set (body := json_dumps _) in *. pose proof (len_nonneg body).
  assert (Hin : s_in (after_frame id op ps payload out h t) = []) by (unfold after_frame; by destruct (exec _ _ _ _)).
  unfold write_frame. rewrite pack_be_Ok by (change (256 ^ Z.of_nat 4) with (2 ^ 32); lia).
  cbn [bind lift write_bytes stream_transport modify]. destruct payload as [|b p].
  - rewrite app_nil_r in Hall. unfold ret. f_equal. unfold arrive. cbn [s_in s_out s_host s_clock app].
    erewrite serve_step; [reflexivity| |exact Hall|exact Hin]. rewrite length_app, length_be_bytes. lia.
  - assert (Hw : arrive (be_bytes 4 (len body) ++ body) (mkStream [] out h t) = mkStream (be_bytes 4 (len body) ++ body) out h t).
    { unfold arrive. cbn [s_in s_out s_host s_clock app]. rewrite length_app, length_be_bytes. cbn [serve Nat.add]. by rewrite (Hpart ltac:(done)). }
    rewrite Hw. unfold modify. f_equal. unfold arrive. cbn [s_in s_out s_host s_clock]. rewrite <- app_assoc.
    erewrite serve_step; [reflexivity| |exact Hall|exact Hin]. rewrite !length_app, length_be_bytes. lia.
Qed.

(** ** One request *)

Lemma json_dumps_len v : json_ok v = true -> 0 < len (json_dumps v).
Proof.
  intros Hv. destruct (dumps_head (lit " ") (lit " ") v Hv) as (c & t & E & _).
  change (json_dumps v) with (dumps (44 :: lit " ") (58 :: lit " ") v). rewrite E, len_cons. pose proof (len_nonneg t). lia.
Qed.
Lemma take_out_app a b inp h t : take_out (len a) (mkStream inp (a ++ b) h t) = (Ok (Some a), mkStream inp b h t).
Proof.
  unfold take_out. cbn [s_out s_in s_host s_clock]. rewrite len_app. rewrite (proj2 (Z.ltb_ge _ _)) by (pose proof (len_nonneg b); lia).
  by rewrite slice_to_app, slice_from_app.
Qed.
Lemma reply_bytes_app n tmo a b inp h t : len a = n -> read_reply_bytes n tmo (mkStream inp (a ++ b) h t) = (Ok (Some a), mkStream inp b h t).
Proof.
  intros <-. unfold read_reply_bytes. destruct tmo; cbn [read_bytes read_bytes_timeout stream_transport]; [|apply take_out_app].
  unfold bind. by rewrite take_out_app.
Qed.

Lemma exchange_stream id op ps payload tmo out h t j rest : sendable id op ps payload ->
  json_ok j = true -> len (json_dumps j) <= 16 * 1024 * 1024 -> s_out (after_frame id op ps payload out h t) = framed j ++ rest ->
  exchange id (json_dumps (envelope id op ps payload)) payload tmo (mkStream [] out h t, 0) =
  (read_reply id j, (mkStream [] rest (exec op (frame_params ps payload) payload h).2 t, 4 + len (json_dumps j))).
Proof.
  intros Hs Hj Hlen Hout. pose proof (json_dumps_len j Hj) as Hpos. destruct (body_travels j Hj) as [_ Hb].
  unfold exchange. unfold with_rx, zoom, bind at 1. cbn [fst snd]. rewrite write_frame_served by done.
  revert Hout. unfold after_frame. destruct (exec op _ payload h) as [r h'] eqn:Ex. cbn [s_out snd]. intros ->. unfold framed.
  rewrite <- app_assoc. unfold bind at 1. cbn [fst snd].
  rewrite reply_bytes_app by (rewrite len_be_bytes; done). cbn [some_or rbind]. rewrite unpack_be_Ok by (change (256 ^ Z.of_nat 4) with (2 ^ 32); lia).
  unfold lift at 1. unfold bind at 1. replace (len (json_dumps j) =? 0) with false by lia. replace (16 * 1024 * 1024 <? len (json_dumps j)) with false by lia.
  cbn [orb]. unfold bind at 1. cbn [fst snd]. rewrite reply_bytes_app by done. unfold bind, modify, lift. cbn [fst snd some_or rbind]. by rewrite Hb.
Qed.

Lemma send_stream op ps payload tmo b out h t j rest : sendable (next_id b) op ps payload ->
  json_ok j = true -> len (json_dumps j) <= 16 * 1024 * 1024 -> s_out (after_frame (next_id b) op ps payload out h t) = framed j ++ rest ->
  exists m t', _send op ps payload tmo (mkSt b (mkStream [] out h t)) =
    (read_reply (next_id b) j, mkSt (br_metrics m (br_id (next_id b + 1) b)) (mkStream [] rest (exec op (frame_params ps payload) payload h).2 t')).
Proof.
  intros Hs Hj Hlen Hout. unfold _send, _send_locked. unfold gets, bind at 1. cbn [bridge]. unfold set_bridge at 1, modify, bind at 1. cbn [bridge wire].
  unfold frame_body. destruct (body_travels _ (proj1 Hs)) as [-> _]. unfold lift at 1, bind at 1.
  unfold on_wire at 1, zoom at 1, bind at 1. cbn [wire bridge]. unfold _counter at 1, try_except at 1. cbn [hal_counter stream_transport s_in s_out s_host s_clock].
  cbn [wire]. rewrite (exchange_stream (next_id b) op ps payload tmo out h (t + 1) j rest Hs Hj Hlen).
  2:{ revert Hout. unfold after_frame. by destruct (exec op _ payload h). }
  unfold try_finally, lift. destruct (read_reply (next_id b) j) as [v|e]; eexists _, _; reflexivity.
Qed.
End stream.

(** ** Programs *)

Inductive bridge_op : Type :=
| OCast (op : str) (ps : params)
| OCall (op : str) (ps : params) (payload : bytes) (timeout_ms : option Z)
| ONotify (op : str) (ps : params) (payload : bytes)
| OFlush.
Definition run_op {W} `{Transport W} (o : bridge_op) : M (St W) (option json) :=
  match o with
  | OCast op ps => cast op ps ;;; ret None
  | OCall op ps payload t => let! r := call op ps payload t in ret (Some r)
  | ONotify op ps payload => notify op ps payload ;;; ret None
  | OFlush => flush ;;; ret None
  end.
Fixpoint run_ops {W} `{Transport W} (l : list bridge_op) (s : St W) : list (result (option json)) * St W :=
  match l with
  | [] => ([], s)
  | o :: l => let (r, s) := run_op o s in let (rs, s) := run_ops l s in (r :: rs, s)
  end.

(** The same program, executed by the host at once. *)
Definition answer (r : json + (Z * str)) : result (option json) :=
  match r with inl v => Ok (Some (or_empty v)) | inr (c, _) => Err (BridgeError (Some c)) end.
Definition spec_op {H} `{Host H} (o : bridge_op) (h : H) : result (option json) * H :=
  match o with
  | OCast op ps => (Ok None, (exec op ps [] h).2)
  | OCall op ps payload _ => let (r, h) := exec op (frame_params ps payload) payload h in (answer r, h)
  | ONotify op ps payload => (Ok None, (exec op (frame_params ps payload) payload h).2)
  | OFlush => (Ok None, h)
  end.
Fixpoint spec_ops {H} `{Host H} (l : list bridge_op) (h : H) : list (result (option json)) * H :=
  match l with
  | [] => ([], h)
  | o :: l => let (r, h) := spec_op o h in let (rs, h) := spec_ops l h in (r :: rs, h)
  end.

(** Every frame the program sends is a frame: sizes fit, identifiers too. *)
Definition request_fits (id : Z) (op : str) (ps : params) (payload : bytes) : Prop := 0 < id < 2 ^ 64 /\ sendable id op ps payload.
Definition batch_params (casts : list (str * params)) : params := [(lit "ops", JList (map item_of casts))].
Definition flush_fits (id : Z) (casts : list (str * params)) : Prop := match casts with [] => True | _ => request_fits id batch_op (batch_params casts) [] end.
Definition flush_id (id : Z) (casts : list (str * params)) : Z := match casts with [] => id | _ => id + 1 end.
Fixpoint fits_from (id : Z) (casts : list (str * params)) (l : list bridge_op) : Prop :=
  match l with
  | [] => True
  | OCast op ps :: l => op <> batch_op /\ fits_from id (casts ++ [(op, ps)]) l
  | OCall op ps payload _ :: l =>
      flush_fits id casts /\ request_fits (flush_id id casts) op ps payload /\ fits_from (flush_id id casts + 1) [] l
  | ONotify op ps payload :: l => flush_fits id casts /\ sendable 0 op ps payload /\ fits_from (flush_id id casts) [] l
  | OFlush :: l => flush_fits id casts /\ fits_from (flush_id id casts) [] l
  end.

Section programs.
Context {H : Type} `{HostLaws H}.

Lemma read_reply_own id r : read_reply id (reply id r) = match r with inl v => Ok (or_empty v) | inr (c, _) => Err (BridgeError (Some c)) end.
Proof.
  assert (Hid : json_is (JInt id) id = true) by (cbn [json_is]; lia). unfold read_reply.
  destruct r as [v|[c m]]; cbn [reply].
  - change (json_get _ (lit "v") JNull) with (Ok (JInt 2)). change (json_get _ (lit "id") JNull) with (Ok (JInt id)).
    change (json_get _ (lit "ok") JNull) with (Ok (JBool true)). change (json_get _ (lit "result") JNull) with (Ok v).
    cbn [rbind]. rewrite Hid. reflexivity.
  - change (json_get _ (lit "v") JNull) with (Ok (JInt 2)). change (json_get _ (lit "id") JNull) with (Ok (JInt id)).
    change (json_get _ (lit "ok") JNull) with (Ok (JBool false)). cbn [rbind]. rewrite Hid. reflexivity.
Qed.

(** The client [b], with [casts] queued, in front of a host that waits. *)
Definition waiting (id : Z) (casts : list (str * params)) (h : H) (s : St (Stream H)) : Prop :=
  next_id (bridge s) = id /\ pending (bridge s) = map item_of casts /\ Forall (fun c => c.1 <> batch_op) casts /\
  exists t, wire s = mkStream [] [] h t.

Lemma request id op ps payload tmo casts h s : waiting id casts h s -> request_fits id op ps payload ->
  let (r, h') := exec op (frame_params ps payload) payload h in
  exists s', _send op ps payload tmo s = (match r with inl v => Ok (or_empty v) | inr (c, _) => Err (BridgeError (Some c)) end, s') /\ waiting (id + 1) casts h' s'.
Proof.
  intros (Hid & Hp & Hc & t & Hw) (Hb & Hs). destruct s as [b w]. cbn [bridge wire] in *. subst id w.
  destruct (exec_sendable op (frame_params ps payload) payload h (next_id b)) as [Hok Hlen]; [lia|].
  destruct (send_stream op ps payload tmo b [] h t (reply (next_id b) (exec op (frame_params ps payload) payload h).1) [] Hs Hok Hlen) as (m & t' & E).
  { unfold after_frame. destruct (exec op _ payload h) as [r h']. cbn [s_out app fst]. unfold answered. replace (next_id b =? 0) with false by lia. by rewrite app_nil_r. }
  destruct (exec op (frame_params ps payload) payload h) as [r h'] eqn:Ex. cbn [fst snd] in *. rewrite read_reply_own in E.
  eexists. split; [exact E|]. repeat split; try done. by eexists.
Qed.
Lemma flushed id casts tmo h s : waiting id casts h s -> flush_fits id casts ->
  exists s', send_pending tmo s = (Ok tt, s') /\ waiting (flush_id id casts) [] (exec_all casts h) s'.
Proof.
  intros (Hid & Hp & Hc & t & Hw) Hf. unfold send_pending, gets, bind at 1. rewrite Hp. destruct casts as [|c casts]; cbn [map].
  - exists s. split; [done|]. repeat split; try done. by exists t.
  - unfold set_bridge at 1, modify, bind at 1. cbn [flush_fits] in Hf. set (s1 := mkSt _ _).
    assert (Hw1 : waiting id [] h s1) by (subst s1; repeat split; [done|constructor|by exists t]).
    pose proof (request id batch_op (batch_params (c :: casts)) [] tmo [] h s1 Hw1 Hf) as Hr.
    destruct (exec_batch (c :: casts) h Hc) as (v & Ev). unfold batch_params in Hr. cbn [frame_params] in Hr. rewrite Ev in Hr.
    destruct Hr as (s' & E & Hw'). exists s'. split; [|exact Hw']. unfold bind. cbn [map] in E. unfold batch_op in E. by rewrite E.
Qed.

Lemma op_follows o l id casts h s : waiting id casts h s -> fits_from id casts (o :: l) ->
  exists id' casts' h' s', run_op o s = ((spec_op o (exec_all casts h)).1, s') /\ waiting id' casts' h' s' /\
    exec_all casts' h' = (spec_op o (exec_all casts h)).2 /\ fits_from id' casts' l.
Proof.
  intros Hw Hfit. destruct o as [op ps|op ps payload tmo|op ps payload|]; cbn [fits_from run_op spec_op] in *.
  - destruct Hfit as [Hne Hfit]. exists id, (casts ++ [(op, ps)]), h. eexists. split; [reflexivity|].
    destruct Hw as (Hid & Hp & Hc & t & Hw). split; [|split; [|exact Hfit]].
    + repeat split; [done| | |by exists t].
      * cbn [bridge pending br_pending]. by rewrite Hp, map_app.
      * apply Forall_app. by repeat constructor.
    + unfold exec_all. by rewrite fold_left_app.
  - destruct Hfit as (Hf & Hr & Hfit). destruct (flushed id casts tmo h s Hw Hf) as (s1 & E1 & Hw1).
    pose proof (request _ op ps payload tmo [] _ s1 Hw1 Hr) as Hq. unfold call, bind. rewrite E1.
    destruct (exec op _ payload (exec_all casts h)) as [r h']. destruct Hq as (s2 & E2 & Hw2). rewrite E2.
    eexists _, [], h', s2. split; [|by split]. by destruct r as [v|[c m]].
  - destruct Hfit as (Hf & Hs & Hfit). destruct (flushed id casts None h s Hw Hf) as (s1 & E1 & Hw1).
    destruct Hw1 as (Hid & Hp & Hc & t & Ew). destruct s1 as [b w]. cbn [bridge wire] in *. subst w.
    unfold notify, flush, bind. rewrite E1. unfold frame_body. destruct (body_travels _ (proj1 Hs)) as [-> _].
    unfold lift at 1, on_wire at 1, zoom at 1. cbn [wire bridge]. unfold _counter at 1, try_except at 1. cbn [hal_counter stream_transport s_in s_out s_host s_clock].
    unfold try_finally, on_wire at 1, zoom at 1. cbn [wire bridge]. rewrite write_frame_served by done.
    unfold after_frame. destruct (exec op _ payload (exec_all casts h)) as [r h']. cbn [answered Z.eqb app].
    eexists (flush_id id casts), [], h', _. split; [reflexivity|]. split; [|by split].
    repeat split; [done|done|constructor|by eexists].
  - destruct Hfit as (Hf & Hfit). destruct (flushed id casts None h s Hw Hf) as (s1 & E1 & Hw1).
    unfold flush, bind. rewrite E1. by eexists _, [], _, s1.
Qed.

Lemma program_follows l id casts h s : waiting id casts h s -> fits_from id casts l ->
  exists id' casts' h', (run_ops l s).1 = (spec_ops l (exec_all casts h)).1 /\ waiting id' casts' h' (run_ops l s).2 /\
    exec_all casts' h' = (spec_ops l (exec_all casts h)).2.
Proof.
  revert id casts h s. induction l as [|o l IH]; intros id casts h s Hw Hf; [by exists id, casts, h|].
  destruct (op_follows o l id casts h s Hw Hf) as (id1 & casts1 & h1 & s1 & E1 & Hw1 & Hh1 & Hf1).
  destruct (IH id1 casts1 h1 s1 Hw1 Hf1) as (id2 & casts2 & h2 & E2 & Hw2 & Hh2).
  exists id2, casts2, h2. cbn [run_ops spec_ops]. rewrite E1. destruct (spec_op o (exec_all casts h)) as [r h'] eqn:Eo. cbn [fst snd] in *.
  rewrite Hh1 in E2, Hh2. destruct (run_ops l s1) as [rs s2]. destruct (spec_ops l h') as [rs' h2']. cbn [fst snd] in *. by subst rs' h2'.
Qed.
End programs.

(** ** A concrete host: it writes down what it executes *)

Definition Journal : Type := list str.
Fixpoint ops_of (items : list json) : list str :=
  match items with
  | JDict [(_, JStr op); _] :: l => op :: ops_of l
  | _ => []
  end.
#[export] Instance journal_host : Host Journal := fun op ps _ h =>
  if beq op batch_op then (inl JNull, h ++ match ps with [(_, JList items)] => ops_of items | _ => [] end)
  else if beq op (lit "bad") then (inr (7, lit "no"), h ++ [op])
  else (inl (JBool (Z.even (len h))), h ++ [op]).
Lemma length_dec_digits fuel n : (length (dec_digits fuel n) <= fuel)%nat.
Proof. revert n. induction fuel as [|fuel IH]; intros n; cbn [dec_digits length]; [lia|]. case_match; cbn [length]; [lia|]. rewrite length_app. specialize (IH (n / 10)). cbn [length]. lia. Qed.
Lemma len_small_id id : 0 <= id < 2 ^ 64 -> len (str_of_int id) <= 65.
Proof.
  intros Hid. unfold str_of_int. replace (id <? 0) with false by lia. unfold str_of_nat, len.
  pose proof (length_dec_digits (S (Z.to_nat (Z.log2 id))) id). assert (Z.log2 id <= 63); [|lia].
  destruct (decide (id = 0)) as [->|]; [by vm_compute|]. assert (Z.log2 id < 64); [|lia]. apply Z.log2_lt_pow2; lia.
Qed.
Definition quoted (s : string) : str := map (fun c => if c =? 64 then 34 else c) (lit s).
Definition braced (id : Z) (rest : string) : str := 123 :: (quoted "@v@: 2, @id@: " ++ str_of_int id ++ quoted rest) ++ [125].
Lemma len_braced id rest : 0 <= id < 2 ^ 64 -> len (quoted rest) <= 100 -> len (braced id rest) <= 16 * 1024 * 1024.
Proof.
  intros Hid Hr. pose proof (len_small_id id Hid). unfold braced. rewrite len_cons, !len_app. change (len (quoted "@v@: 2, @id@: ")) with 14. change (len [125]) with 1. lia.
Qed.
#[export] Instance journal_laws : HostLaws Journal.
Proof.
  split.
  - intros casts h Hc. unfold exec, journal_host at 1. cbn [beq]. exists JNull. f_equal.
    revert h. induction Hc as [|c casts Hc Hcs IH]; intros h; cbn [map ops_of item_of cast_item exec_all fold_left]; [by rewrite app_nil_r|].
    unfold exec_all in IH. cbn [exec_all fold_left]. rewrite <- IH.
    unfold exec, journal_host. destruct (beq_spec c.1 batch_op) as [e|_]; [by destruct (Hc e)|]. by destruct (beq c.1 (lit "bad")); cbn [snd]; rewrite <- app_assoc.
  - intros op ps payload h id Hid r. subst r. pose proof (len_small_id id Hid) as Hl. unfold exec, journal_host.
    destruct (beq op batch_op); [|destruct (beq op (lit "bad"))]; cbn [fst]; (split; [by vm_compute|]).
    + change (json_dumps _) with (braced id ", @ok@: true, @result@: null"). by apply len_braced.
    + change (json_dumps _) with (braced id ", @ok@: false, @error@: {@code@: 7, @msg@: @no@}"). by apply len_braced.
    + destruct (Z.even (len h)).
      * change (json_dumps _) with (braced id ", @ok@: true, @result@: true"). by apply len_braced.
      * change (json_dumps _) with (braced id ", @ok@: true, @result@: false"). by apply len_braced.
Qed.

(** C26: batching is invisible.  Against any host that executes a batch in
    order, a program of queued, one-way and synchronous operations gets from
    its calls what it would get if each operation were executed at its place
    at once, errors included; and when it ends the host is where it would then
    be, up to executing what is still queued. *)
Theorem bridge_batching_invisible {H} `{HostLaws H} (l : list bridge_op) (b : Bridge) (h : H) (t : Z) :
  pending b = [] -> fits_from (next_id b) [] l ->
  let '(rs, s) := run_ops l (mkSt b (mkStream [] [] h t)) in
  rs = (spec_ops l h).1 /\ s_in (wire s) = [] /\ s_out (wire s) = [] /\
  exists casts, pending (bridge s) = map item_of casts /\ exec_all casts (s_host (wire s)) = (spec_ops l h).2.
Proof.
  intros Hp Hf. destruct (program_follows l (next_id b) [] h (mkSt b (mkStream [] [] h t))) as (id & casts & h' & E & Hw & Hh); [|done|].
  { repeat split; [done|constructor|by eexists]. }
  destruct (run_ops l _) as [rs s]. destruct Hw as (_ & Hq & _ & t' & Hw). cbn [fst snd] in *. rewrite Hw.
  split; [done|]. split; [done|]. split; [done|]. by exists casts.
Qed.
Definition session : list bridge_op :=
  [OCall (lit "hello") [] [] (Some 2000); OCast (lit "draw") [(lit "x", JInt 1)]; OCast (lit "bad") [];
   OCall (lit "upload") [(lit "id", JInt 3)] [1; 2; 255] None; OCast (lit "draw") []; ONotify (lit "tick") [] []; OCall (lit "bad") [] [] None].
Ltac fits_now := repeat match goal with |- _ /\ _ => split | |- _ <> _ => discriminate | |- True => exact I | |- _ => first [reflexivity | vm_compute; reflexivity] end.
Lemma bridge_batching_invisible_witness :
  let '(rs, s) := run_ops session (mkSt Bridge_init (mkStream [] [] ([] : Journal) 0)) in
  rs = (spec_ops session ([] : Journal)).1 /\ s_in (wire s) = [] /\ s_out (wire s) = [] /\
  exists casts, pending (bridge s) = map item_of casts /\ exec_all casts (s_host (wire s)) = (spec_ops session ([] : Journal)).2.
Proof. apply (bridge_batching_invisible session Bridge_init ([] : Journal) 0); [reflexivity|]. cbn [fits_from session flush_fits flush_id app next_id Bridge_init]. unfold request_fits, sendable. fits_now. Defined.
Example session_answers : (spec_ops session ([] : Journal)).1 =
  [Ok (Some (JBool true)); Ok None; Ok None; Ok (Some (JDict [])); Ok None; Ok None; Err (BridgeError (Some 7))] .
Proof. by vm_compute. Qed.

(** ** A reply that comes late *)

(** The answer to an earlier request waits in the stream. *)
Definition stale {H} (id : Z) (s : St (Stream H)) : Prop :=
  next_id (bridge s) = id /\ pending (bridge s) = [] /\
  exists old r h t, old < id /\ json_ok (reply old r) = true /\ len (json_dumps (reply old r)) <= 16 * 1024 * 1024 /\
  wire s = mkStream [] (framed (reply old r)) h t.

Lemma read_reply_stale id old r : old <> id -> read_reply id (reply old r) = Err (BridgeError (Some (-2))).
Proof.
  intros Hne. assert (Hid : json_is (JInt old) id = false) by (cbn [json_is]; lia). unfold read_reply.
  destruct r as [v|[c m]]; cbn [reply]; change (json_get _ (lit "v") JNull) with (Ok (JInt 2)); change (json_get _ (lit "id") JNull) with (Ok (JInt old));
    cbn [rbind]; rewrite Hid; reflexivity.
Qed.

(** The frames of calls that are made one after the other. *)
Fixpoint calls_fit (id : Z) (l : list (str * params * bytes * option Z)) : Prop :=
  match l with
  | [] => True
  | (op, ps, payload, _) :: l => request_fits id op ps payload /\ calls_fit (id + 1) l
  end.
Definition as_call (c : str * params * bytes * option Z) : bridge_op := let '(op, ps, payload, t) := c in OCall op ps payload t.

Lemma stale_call {H} `{HostLaws H} op ps payload tmo id (s : St (Stream H)) : stale id s -> request_fits id op ps payload ->
  exists s', run_op (OCall op ps payload tmo) s = (Err (BridgeError (Some (-2))), s') /\ stale (id + 1) s' /\
    s_host (wire s') = (exec op (frame_params ps payload) payload (s_host (wire s))).2.
Proof.
  intros (Hid & Hp & old & r & h & t & Hlt & Hok & Hlen & Hw) (Hb & Hs). destruct s as [b w]. cbn [bridge wire] in *. subst id w.
  set (r' := (exec op (frame_params ps payload) payload h).1).
  destruct (exec_sendable op (frame_params ps payload) payload h (next_id b)) as [Hok' Hlen']; [lia|].
  destruct (send_stream op ps payload tmo b (framed (reply old r)) h t (reply old r) (framed (reply (next_id b) r')) Hs Hok Hlen) as (m & t' & E).
  { unfold after_frame, r'. destruct (exec op _ payload h) as [x h']. cbn [s_out fst]. unfold answered. by replace (next_id b =? 0) with false by lia. }
  rewrite read_reply_stale in E by lia. eexists. cbn [run_op]. unfold call, send_pending, bind at 1 2, gets at 1. unfold bind at 1. cbn [bridge]. rewrite Hp.
  unfold ret at 1, bind. rewrite E. split; [reflexivity|]. split; [|done].
  repeat split; [done|]. exists (next_id b), r', (exec op (frame_params ps payload) payload h).2, t'. by repeat split; [lia|..].
Qed.

(** C36: after one reply that is read late (a call that timed out, then its
    answer arrives) the client never recovers: every later call fails with the
    mismatch of identifiers, although the host executes each of them. *)
Theorem bridge_never_resynchronises {H} `{HostLaws H} (l : list (str * params * bytes * option Z)) (id : Z) (s : St (Stream H)) :
  stale id s -> calls_fit id l ->
  let '(rs, s') := run_ops (map as_call l) s in
  Forall (fun r => r = Err (BridgeError (Some (-2)))) rs /\ length rs = length l /\
  s_host (wire s') = (spec_ops (map as_call l) (s_host (wire s))).2.
Proof.
  revert id s. induction l as [|[[[op ps] payload] tmo] l IH]; intros id s Hs Hf; cbn [map as_call run_ops spec_ops spec_op]; [done|].
  destruct Hf as [Hr Hf]. destruct (stale_call op ps payload tmo id s Hs Hr) as (s1 & E & Hs1 & Hh). rewrite E.
  pose proof (IH (id + 1) s1 Hs1 Hf) as Hl. destruct (run_ops (map as_call l) s1) as [rs s2]. destruct Hl as (HF & Hlen & Hhost).
  split; [by constructor|]. cbn [length]. split; [by rewrite Hlen|]. rewrite Hhost, Hh.
  destruct (exec op (frame_params ps payload) payload (s_host (wire s))) as [r h']. cbn [snd]. by destruct (spec_ops (map as_call l) h').
Qed.
Definition late : St (Stream Journal) :=
  (run_op (OCall (lit "draw") [] [] None) (mkSt (br_id 2 Bridge_init) (mkStream [] (framed (reply 1 (inl JNull))) [lit "hello"] 0))).2.
Definition two_calls : list (str * params * bytes * option Z) := [(lit "draw", [], [], Some 5); (lit "upload", [], [1], None)].
Lemma bridge_never_resynchronises_witness :
  let '(rs, s') := run_ops (map as_call two_calls) late in
  Forall (fun r => r = Err (BridgeError (Some (-2)))) rs /\ length rs = length two_calls /\
  s_host (wire s') = (spec_ops (map as_call two_calls) (s_host (wire late))).2.
Proof.
  apply (bridge_never_resynchronises two_calls 3 late).
  - split; [reflexivity|]. split; [reflexivity|]. exists 2, (inl (JBool false)), [lit "hello"; lit "draw"], 2.
    repeat split; by vm_compute.
  - cbn [calls_fit two_calls]. unfold request_fits, sendable. fits_now.
Defined.

(** ** Metrics *)

Definition row_ok (r : row) : Prop := 0 < count r /\ 0 <= max_ticks r /\ 0 <= total_ticks r <= count r * max_ticks r.
Definition metrics_ok (b : Bridge) : Prop := Forall (fun p => row_ok p.2) (metrics_ b).
Definition sound_metrics {W} (s : St W) : Prop := metrics_ok (bridge s).

Lemma record_metric_ok op elapsed frequency tx rx b : metrics_ok b -> metrics_ok (_record_metric op elapsed frequency tx rx b).
Proof.
  unfold metrics_ok, _record_metric, br_metrics. cbn [metrics_]. intros Hb. apply Forall_forall. intros p Hp.
  apply dset_elem in Hp as [->|Hp]; [|by revert p Hp; apply Forall_forall]. cbn [snd]. destruct (dget op (metrics_ b)) as [r|] eqn:E.
  - apply dget_elem in E. destruct (proj1 (Forall_forall _ _) Hb _ E) as (H1 & H2 & H3). cbn [snd] in *. unfold row_ok. cbn [count max_ticks total_ticks]. nia.
  - unfold row_ok. cbn [count max_ticks total_ticks]. nia.
Qed.

Section metrics.
Context {W : Type} `{Transport W}.

Lemma keeps_on_wire {A} (m : M W A) : keeps sound_metrics (on_wire m).
Proof. intros s r s' Hs. unfold on_wire, zoom. destruct (m (wire s)) as [x w]. intros [= <- <-]. exact Hs. Qed.
Lemma keeps_set_bridge f : (forall b, metrics_ok b -> metrics_ok (f b)) -> keeps (@sound_metrics W) (set_bridge f).
Proof. intros Hf. apply keeps_modify. intros s. apply Hf. Qed.
Lemma keeps_record op a f tx rx : keeps sound_metrics (record op a f tx rx).
Proof. apply keeps_bind; [apply keeps_on_wire|]. intros [e f']. apply keeps_set_bridge. intros b. apply record_metric_ok. Qed.
Lemma keeps_send op ps payload t : keeps sound_metrics (_send op ps payload t).
Proof.
  unfold _send, _send_locked. repeat (apply keeps_bind; [eauto using keeps_gets, keeps_set_bridge, keeps_lift, keeps_on_wire with py|intros ?]).
  match goal with x : Z * Z |- _ => destruct x as [started frequency] end. intros s r s' Hs. destruct (exchange _ _ _ _ _) as [x [w rx]].
  intros E. eapply keeps_finally; [apply keeps_lift|apply keeps_record| |exact E]. exact Hs.
Qed.
Lemma keeps_send_pending t : keeps sound_metrics (send_pending t).
Proof.
  unfold send_pending. apply keeps_bind; [apply keeps_gets|]. intros [|o l]; [apply keeps_ret|]. apply keeps_bind; [by apply keeps_set_bridge|]. intros _.
  apply keeps_bind; [apply keeps_send|]. intros _. apply keeps_ret.
Qed.
Lemma keeps_op o : keeps sound_metrics (run_op o).
Proof.
  destruct o; (apply keeps_bind; [|intros ?; apply keeps_ret]).
  - by apply keeps_set_bridge.
  - apply keeps_bind; [apply keeps_send_pending|]. intros _. apply keeps_send.
  - unfold notify. apply keeps_bind; [apply keeps_send_pending|]. intros _.
    apply keeps_bind; [apply keeps_lift|]. intros body. apply keeps_bind; [apply keeps_on_wire|]. intros [a f].
    apply keeps_finally; [apply keeps_on_wire|apply keeps_record].
  - apply keeps_send_pending.
Qed.
Lemma run_ops_keeps l : forall s, sound_metrics s -> sound_metrics (run_ops l s).2.
Proof.
  induction l as [|o l IH]; intros s Hs; cbn [run_ops]; [done|]. destruct (run_op o s) as [r s1] eqn:E.
  apply keeps_op in E; [|done]. specialize (IH s1 E). by destruct (run_ops l s1).
Qed.
End metrics.

(** The metrics add up over any transport, whatever fails: in every report
    the mean is between zero and the maximum, in ticks and in microseconds. *)
Theorem bridge_metrics_sound {W} `{Transport W} (l : list bridge_op) (w : W) (reset : bool) :
  Forall (fun p => 0 <= mean_ticks p.2 <= max_ticks (rep_row p.2) /\
                   match rep_us p.2 with Some (mean, max) => 0 < frequency_hz (rep_row p.2) -> 0 <= mean <= max | None => frequency_hz (rep_row p.2) = 0 end)
    (metrics reset (bridge (run_ops l (mkSt Bridge_init w)).2)).1.
Proof.
  pose proof (run_ops_keeps l (mkSt Bridge_init w) ltac:(constructor)) as Hm. unfold sound_metrics, metrics_ok in Hm. cbn [metrics fst].
  apply Forall_map. eapply Forall_impl; [exact Hm|]. intros [op r] (Hc & Hx & Ht). cbn [fst snd report_row rep_row mean_ticks rep_us] in *.
  replace (count r =? 0) with false by lia. assert (Hmean : 0 <= total_ticks r / count r <= max_ticks r).
  { split; [apply Z.div_pos; lia|]. apply Z.div_le_upper_bound; lia. }
  split; [done|]. destruct (Z.eqb_spec (frequency_hz r) 0) as [Hf|Hf]; [done|]. intros Hpos.
  split; [apply Z.div_pos; nia|]. apply Z.div_le_mono; nia.
Qed.

(** ** Events *)

(** One event the host might send wrong ends the pump: only [BridgeError] is
    caught, and the events before it are posted, those after it lost. *)
Example pump_dies : post_events (fun _ => []) (fun _ => [])
  [JDict [(lit "kind", JInt 6)]; JDict [(lit "kind", JInt 1); (lit "code", JNull)]; JDict [(lit "kind", JInt 6)]] [] =
  (Err TypeError, [plain_event QUIT 0 [] 0 0 0 0 0]).
Proof. by vm_compute. Qed.

(** The last four function keys have codes in the kernel, and no host key gives
    them. *)
Example function_keys_lost : map _translate_keycode [0x40000041; 0x40000042; 0x40000043; 0x40000044; 0x40000045] = [KEY_F 8; 0; 0; 0; 0].
Proof. by vm_compute. Qed.
