(* ===== verification/Edwin.v ===== *)
(** * The screen editor (apps/editor/edwin.py)

    [EditorView]: a buffer of lines, a cursor, a viewport, and the key bindings.
    A coroutine the editor starts is a task added to [e_tasks]; [load], [save]
    and [reload] are cut where they await the filesystem or the reload action.
    Drawing is the flag that asks the window to repaint.  [isalnum] is Python's
    table of letters and digits, [exn_text] the text of an exception; both are
    parameters. *)

From Stdlib Require Import ZArith Lia.
From stdpp Require Import base list numbers strings.
From S2P Require Import Prelude Bytes Pystr Vfs Input.

Local Open Scope Z_scope.

Inductive prompt : Type := POpen | PSaveAs.
Inductive etask : Type := TSave | TReload | TChooseOpen | TChooseSaveAs | TCommit.

Record EditorView : Type := mkView {
  e_path : option str;
  e_lines : list str;
  e_cy : Z;
  e_cx : Z;
  e_scroll : Z;
  e_dirty : bool;
  e_message : str;
  e_cols : Z;
  e_rows : Z;
  e_ctrl_x : bool;
  e_prompt_mode : option prompt;
  e_prompt_buf : str;
  e_initial : option str;
  e_saved : str;
  e_can_reload : bool;
  e_middle : option Z;        (* [_middle_scroll_y] *)
  e_title : str;              (* [win.title] *)
  e_win_dirty : bool;         (* [win.dirty] *)
  e_tasks : list etask;
}.

Definition GLYPH_W : Z := 8.
Definition GLYPH_H : Z := 8.
Definition _HEADER_H : Z := GLYPH_H + 4.
Definition _FOOTER_H : Z := GLYPH_H + 4.

Definition EditorView_init (w h : Z) (title : str) (path initial : option str) (reload : bool) : EditorView :=
  mkView path [[]] 0 0 0 false [] (Z.max 1 (w / GLYPH_W)) (Z.max 1 ((h - _HEADER_H - _FOOTER_H) / GLYPH_H))
    false None [] initial (default [] initial) reload None title true [].

Definition set_path x (s : EditorView) := mkView x (e_lines s) (e_cy s) (e_cx s) (e_scroll s) (e_dirty s) (e_message s) (e_cols s) (e_rows s) (e_ctrl_x s) (e_prompt_mode s) (e_prompt_buf s) (e_initial s) (e_saved s) (e_can_reload s) (e_middle s) (e_title s) (e_win_dirty s) (e_tasks s).
Definition set_lines x (s : EditorView) := mkView (e_path s) x (e_cy s) (e_cx s) (e_scroll s) (e_dirty s) (e_message s) (e_cols s) (e_rows s) (e_ctrl_x s) (e_prompt_mode s) (e_prompt_buf s) (e_initial s) (e_saved s) (e_can_reload s) (e_middle s) (e_title s) (e_win_dirty s) (e_tasks s).
Definition set_cursor cy cx (s : EditorView) := mkView (e_path s) (e_lines s) cy cx (e_scroll s) (e_dirty s) (e_message s) (e_cols s) (e_rows s) (e_ctrl_x s) (e_prompt_mode s) (e_prompt_buf s) (e_initial s) (e_saved s) (e_can_reload s) (e_middle s) (e_title s) (e_win_dirty s) (e_tasks s).
Definition set_scroll x (s : EditorView) := mkView (e_path s) (e_lines s) (e_cy s) (e_cx s) x (e_dirty s) (e_message s) (e_cols s) (e_rows s) (e_ctrl_x s) (e_prompt_mode s) (e_prompt_buf s) (e_initial s) (e_saved s) (e_can_reload s) (e_middle s) (e_title s) (e_win_dirty s) (e_tasks s).
Definition set_dirty x (s : EditorView) := mkView (e_path s) (e_lines s) (e_cy s) (e_cx s) (e_scroll s) x (e_message s) (e_cols s) (e_rows s) (e_ctrl_x s) (e_prompt_mode s) (e_prompt_buf s) (e_initial s) (e_saved s) (e_can_reload s) (e_middle s) (e_title s) (e_win_dirty s) (e_tasks s).
Definition set_message x (s : EditorView) := mkView (e_path s) (e_lines s) (e_cy s) (e_cx s) (e_scroll s) (e_dirty s) x (e_cols s) (e_rows s) (e_ctrl_x s) (e_prompt_mode s) (e_prompt_buf s) (e_initial s) (e_saved s) (e_can_reload s) (e_middle s) (e_title s) (e_win_dirty s) (e_tasks s).
Definition set_ctrl_x x (s : EditorView) := mkView (e_path s) (e_lines s) (e_cy s) (e_cx s) (e_scroll s) (e_dirty s) (e_message s) (e_cols s) (e_rows s) x (e_prompt_mode s) (e_prompt_buf s) (e_initial s) (e_saved s) (e_can_reload s) (e_middle s) (e_title s) (e_win_dirty s) (e_tasks s).
Definition set_prompt m b (s : EditorView) := mkView (e_path s) (e_lines s) (e_cy s) (e_cx s) (e_scroll s) (e_dirty s) (e_message s) (e_cols s) (e_rows s) (e_ctrl_x s) m b (e_initial s) (e_saved s) (e_can_reload s) (e_middle s) (e_title s) (e_win_dirty s) (e_tasks s).
Definition set_saved x (s : EditorView) := mkView (e_path s) (e_lines s) (e_cy s) (e_cx s) (e_scroll s) (e_dirty s) (e_message s) (e_cols s) (e_rows s) (e_ctrl_x s) (e_prompt_mode s) (e_prompt_buf s) (e_initial s) x (e_can_reload s) (e_middle s) (e_title s) (e_win_dirty s) (e_tasks s).
Definition set_middle x (s : EditorView) := mkView (e_path s) (e_lines s) (e_cy s) (e_cx s) (e_scroll s) (e_dirty s) (e_message s) (e_cols s) (e_rows s) (e_ctrl_x s) (e_prompt_mode s) (e_prompt_buf s) (e_initial s) (e_saved s) (e_can_reload s) x (e_title s) (e_win_dirty s) (e_tasks s).
Definition set_win t d (s : EditorView) := mkView (e_path s) (e_lines s) (e_cy s) (e_cx s) (e_scroll s) (e_dirty s) (e_message s) (e_cols s) (e_rows s) (e_ctrl_x s) (e_prompt_mode s) (e_prompt_buf s) (e_initial s) (e_saved s) (e_can_reload s) (e_middle s) t d (e_tasks s).
Definition set_tasks x (s : EditorView) := mkView (e_path s) (e_lines s) (e_cy s) (e_cx s) (e_scroll s) (e_dirty s) (e_message s) (e_cols s) (e_rows s) (e_ctrl_x s) (e_prompt_mode s) (e_prompt_buf s) (e_initial s) (e_saved s) (e_can_reload s) (e_middle s) (e_title s) (e_win_dirty s) x.

Abbreviation ed := (M EditorView).

(** [asyncio.get_event_loop().create_task(...)] *)
Definition spawn (t : etask) : ed unit := modify (fun s => set_tasks (e_tasks s ++ [t]) s).
Definition say (m : str) : ed unit := modify (set_message m).

(** What drawing changes besides pixels. *)
Definition redraw : ed unit := modify (fun s => set_win (e_title s) true s).

Definition prompt_open : ed unit := spawn TChooseOpen.
Definition prompt_save_as : ed unit := spawn TChooseSaveAs.
Definition start_save : ed unit := spawn TSave.
Definition start_reload : ed unit := spawn TReload.
Definition no_file (p : option str) : str := match p with Some (c :: p') => c :: p' | _ => lit "(no file)" end.
Definition _refresh_title : ed unit := modify (fun s => set_win (lit "Editor: " ++ no_file (e_path s)) (e_win_dirty s) s).

(** ** Lines *)

(** [lines[i]], [lines[i] = x], [lines.insert(i, x)], [del lines[i]] *)
Definition line_at (i : Z) : ed str := let! s := get in lift (index (e_lines s) i).
Definition put_line (i : Z) (x : str) : ed unit :=
  let! s := get in let! l := lift (set_index (e_lines s) i x) in modify (set_lines l).
Definition insert_at {A} (l : list A) (i : Z) (x : A) : list A := slice_to l i ++ [x] ++ slice_from l i.
Definition del_at {A} (l : list A) (i : Z) : result (list A) :=
  let? _ := index l i in
  let i := if i <? 0 then i + len l else i in
  Ok (slice_to l i ++ slice_from l (i + 1)).
Definition del_line (i : Z) : ed unit :=
  let! s := get in let! l := lift (del_at (e_lines s) i) in modify (set_lines l).

Definition _insert_char (ch : Z) : ed unit :=
  let! s := get in
  let! line := line_at (e_cy s) in
  put_line (e_cy s) (slice_to line (e_cx s) ++ [ch] ++ slice_from line (e_cx s)) ;;;
  modify (fun s => set_dirty true (set_cursor (e_cy s) (e_cx s + 1) s)).

Definition _newline : ed unit :=
  let! s := get in
  let! line := line_at (e_cy s) in
  put_line (e_cy s) (slice_to line (e_cx s)) ;;;
  modify (fun s => set_lines (insert_at (e_lines s) (e_cy s + 1) (slice_from line (e_cx s))) s) ;;;
  modify (fun s => set_dirty true (set_cursor (e_cy s + 1) 0 s)).

Definition _backspace : ed unit :=
  let! s := get in
  if 0 <? e_cx s then
    let! line := line_at (e_cy s) in
    put_line (e_cy s) (slice_to line (e_cx s - 1) ++ slice_from line (e_cx s)) ;;;
    modify (fun s => set_dirty true (set_cursor (e_cy s) (e_cx s - 1) s))
  else if 0 <? e_cy s then
    let! prev := line_at (e_cy s - 1) in
    let! cur := line_at (e_cy s) in
    modify (fun s => set_cursor (e_cy s) (len prev) s) ;;;
    put_line (e_cy s - 1) (prev ++ cur) ;;;
    del_line (e_cy s) ;;;
    modify (fun s => set_dirty true (set_cursor (e_cy s - 1) (e_cx s) s))
  else ret tt.

Definition _delete : ed unit :=
  let! s := get in
  let! line := line_at (e_cy s) in
  if e_cx s <? len line then
    put_line (e_cy s) (slice_to line (e_cx s) ++ slice_from line (e_cx s + 1)) ;;;
    modify (set_dirty true)
  else if e_cy s + 1 <? len (e_lines s) then
    let! next := line_at (e_cy s + 1) in
    put_line (e_cy s) (line ++ next) ;;;
    del_line (e_cy s + 1) ;;;
    modify (set_dirty true)
  else ret tt.

Definition _clamp_x : ed unit :=
  let! s := get in
  let! line := line_at (e_cy s) in
  modify (fun s => set_cursor (e_cy s) (Z.min (e_cx s) (len line)) s).

(** ** The buffer as one text *)

Definition _buffer_text (s : EditorView) : str := join [newline] (e_lines s).
Definition line_sum (ls : list str) : Z := fold_right (fun l n => len l + 1 + n) 0 ls.
Definition _cursor_offset (s : EditorView) : Z := line_sum (slice_to (e_lines s) (e_cy s)) + e_cx s.

(** [for row, line in enumerate(self.lines)] *)
Fixpoint seek_row (row offset : Z) (ls : list str) : option (Z * Z) :=
  match ls with
  | [] => None
  | line :: ls => if offset <=? len line then Some (row, offset) else seek_row (row + 1) (offset - (len line + 1)) ls
  end.
Definition _set_cursor_offset (offset : Z) : ed unit :=
  let! s := get in
  let offset := Z.max 0 (Z.min (len (_buffer_text s)) offset) in
  match seek_row 0 offset (e_lines s) with
  | Some (cy, cx) => modify (set_cursor cy cx)
  | None =>
      let cy := len (e_lines s) - 1 in
      let! line := line_at cy in
      modify (set_cursor cy (len line))
  end.

(** [while pos < len(text) and p(text[pos]): pos += 1], and backwards. *)
Fixpoint run_of {A} (p : A -> bool) (l : list A) : Z :=
  match l with
  | x :: l' => if p x then 1 + run_of p l' else 0
  | [] => 0
  end.
Definition skip {A} (p : A -> bool) (text : list A) (pos : Z) : Z := pos + run_of p (drop (Z.to_nat pos) text).
Definition skip_back {A} (p : A -> bool) (text : list A) (pos : Z) : Z := pos - run_of p (rev (take (Z.to_nat pos) text)).

Section editor.
Context (isalnum : Z -> bool) (exn_text : exn -> str).

Definition _word_char (ch : Z) : bool := isalnum ch || (ch =? 95).
Definition ends_sentence (ch : Z) : bool := (ch =? 46) || (ch =? 33) || (ch =? 63).

(** The new offset of each motion in the text. *)
Definition word_forward_pos (text : str) (pos : Z) : Z :=
  skip _word_char text (skip (fun c => negb (_word_char c)) text pos).
Definition word_backward_pos (text : str) (pos : Z) : Z :=
  skip_back _word_char text (skip_back (fun c => negb (_word_char c)) text pos).
Definition sentence_forward_pos (text : str) (pos : Z) : Z :=
  let pos := skip (fun c => negb (ends_sentence c)) text pos in
  let pos := if pos <? len text then pos + 1 else pos in
  skip is_space text pos.
Definition sentence_backward_pos (text : str) (pos : Z) : Z :=
  let pos := skip_back is_space text pos in
  let pos := skip_back (fun c => negb (ends_sentence c)) text pos in
  skip is_space text pos.
Definition by_offset (f : str -> Z -> Z) : ed unit :=
  let! s := get in _set_cursor_offset (f (_buffer_text s) (_cursor_offset s)).
Definition _word_forward : ed unit := by_offset word_forward_pos.
Definition _word_backward : ed unit := by_offset word_backward_pos.
Definition _sentence_forward : ed unit := by_offset sentence_forward_pos.
Definition _sentence_backward : ed unit := by_offset sentence_backward_pos.

Definition blank (line : str) : bool := beq (strip is_space line) [].

(** [cy = len(lines) - 1; cx = len(lines[cy])] *)
Definition to_end : ed unit :=
  let! s := get in
  let cy := len (e_lines s) - 1 in
  modify (set_cursor cy (e_cx s)) ;;;
  let! line := line_at cy in
  modify (set_cursor cy (len line)).

Definition _paragraph_forward : ed unit :=
  let! s := get in
  let row := skip (fun l => negb (blank l)) (e_lines s) (e_cy s) in
  let row := skip blank (e_lines s) row in
  if len (e_lines s) <=? row then to_end else modify (set_cursor row 0).

(** [while row > 0 and blank(lines[row]): row -= 1], then
    [while row > 0 and not blank(lines[row - 1]): row -= 1]; the list holds the
    lines of the rows above 0, or above and including [row], downwards. *)
Definition _paragraph_backward : ed unit :=
  let! s := get in
  let row := if (e_cx s =? 0) && (0 <? e_cy s) then e_cy s - 1 else e_cy s in
  if (0 <? row) && (len (e_lines s) <=? row) then raise IndexError else
  let row := row - run_of blank (rev (drop 1 (take (Z.to_nat (row + 1)) (e_lines s)))) in
  let row := skip_back (fun l => negb (blank l)) (e_lines s) row in
  modify (set_cursor row 0).

Definition _page (direction : Z) : ed unit :=
  modify (fun s => set_cursor (Z.max 0 (Z.min (len (e_lines s) - 1) (e_cy s + direction * e_rows s))) (e_cx s) s) ;;;
  _clamp_x.

(** ** The viewport *)

Definition _ensure_visible : ed unit := modify (fun s =>
  if e_cy s <? e_scroll s then set_scroll (e_cy s) s
  else if e_scroll s + e_rows s <=? e_cy s then set_scroll (e_cy s - e_rows s + 1) s
  else s).
Definition _recenter : ed unit :=
  modify (fun s => set_scroll (Z.max 0 (e_cy s - e_rows s / 2)) s) ;;; say (lit "Recenter").
Definition scroll_by (lines : Z) : ed bool :=
  let! s := get in
  let maximum := Z.max 0 (len (e_lines s) - e_rows s) in
  let scroll := Z.max 0 (Z.min maximum (e_scroll s + lines)) in
  modify (set_scroll scroll) ;;;
  ret (negb (scroll =? e_scroll s)).

(** [TextView.on_event]: the wheel and dragging with the middle button. *)
Definition text_view_event (ev : Event) : ed bool :=
  let! s := get in
  if ev_kind ev =? MOUSE_WHEEL then
    let delta := if ev_dy ev =? 0 then ev_dx ev else ev_dy ev in
    scroll_by (if 0 <? delta then -3 else 3)
  else if (ev_kind ev =? MOUSE_DOWN) && (ev_code ev =? 2) then
    modify (set_middle (Some (ev_y ev))) ;;; ret true
  else
    match (if ev_kind ev =? MOUSE_MOVE then e_middle s else None) with
    | Some y0 =>
        let lines := Z.quot (y0 - ev_y ev) 8 in
        (if negb (lines =? 0) then modify (set_middle (Some (ev_y ev))) ;;; let! _ := scroll_by lines in ret tt else ret tt) ;;;
        ret true
    | None =>
        if (ev_kind ev =? MOUSE_UP) && (ev_code ev =? 2) then modify (set_middle None) ;;; ret true
        else ret false
    end.

(** ** Keys *)

Definition printable (ch : Z) : bool := (32 <=? ch) && (ch <? 0x7F).

(** Keys of the minibuffer. *)
Definition prompt_key (ev : Event) : ed unit :=
  if ev_code ev =? KEY_ESC then modify (set_prompt None []) ;;; say (lit "Cancel")
  else if ev_code ev =? KEY_ENTER then spawn TCommit
  else if ev_code ev =? KEY_BACKSPACE then modify (fun s => set_prompt (e_prompt_mode s) (slice_to (e_prompt_buf s) (-1)) s)
  else modify (fun s => set_prompt (e_prompt_mode s) (e_prompt_buf s ++ List.filter printable (ev_text ev)) s).

(** [chr(c).lower() if ord("A") <= c <= ord("z") else ""] *)
Definition letter_of (c : Z) : option Z :=
  if (65 <=? c) && (c <=? 122) then Some (if c <=? 90 then c + 32 else c) else None.
Definition is_letter (l : option Z) (c : Z) : bool := match l with Some x => x =? c | None => false end.

(** Meta keys: whether the key was bound. *)
Definition meta_key (ev : Event) : ed bool :=
  let c := ev_code ev in
  let letter := letter_of c in
  let shifted := has (ev_mods ev) MOD_SHIFT in
  if is_letter letter 98 then _word_backward ;;; ret true
  else if is_letter letter 102 then _word_forward ;;; ret true
  else if is_letter letter 97 then _sentence_backward ;;; ret true
  else if is_letter letter 101 then _sentence_forward ;;; ret true
  else if is_letter letter 118 then _page (-1) ;;; ret true
  else if is_letter letter 109 then
    (let! s := get in let! line := line_at (e_cy s) in
     modify (set_cursor (e_cy s) (len line - len (lstrip is_space line))) ;;; ret true)
  else if beq (ev_text ev) (lit "<") || ((c =? 44) && shifted) then modify (set_cursor 0 0) ;;; ret true
  else if beq (ev_text ev) (lit ">") || ((c =? 46) && shifted) then to_end ;;; ret true
  else if beq (ev_text ev) (lit "{") || ((c =? 91) && shifted) then _paragraph_backward ;;; ret true
  else if beq (ev_text ev) (lit "}") || ((c =? 93) && shifted) then _paragraph_forward ;;; ret true
  else ret false.

(** Control keys: the editor's answer, or the code to go on with. *)
Definition ctrl_key (ev : Event) : ed (bool + Z) :=
  let c := ev_code ev in
  let byte := match ev_text ev with b :: _ => b | [] => 0 end in
  let key b l := (byte =? b) || is_letter (letter_of c) l in
  let! s := get in
  if key 24 120 then modify (set_ctrl_x true) ;;; ret (inl true)
  else if key 19 115 then start_save ;;; ret (inl true)
  else if key 17 113 then ret (inl false)
  else if key 7 103 then say (lit "Cancel") ;;; ret (inl true)
  else if key 1 97 then modify (set_cursor (e_cy s) 0) ;;; ret (inl true)
  else if key 5 101 then (let! line := line_at (e_cy s) in modify (set_cursor (e_cy s) (len line)) ;;; ret (inl true))
  else if key 12 108 then _recenter ;;; ret (inl true)
  else if key 2 98 then ret (inr KEY_LEFT)
  else if key 6 102 then ret (inr KEY_RIGHT)
  else if key 16 112 then ret (inr KEY_UP)
  else if key 14 110 then ret (inr KEY_DOWN)
  else if key 22 118 then ret (inr KEY_PAGE_DOWN)
  else if key 4 100 then _delete ;;; ret (inl true)
  else if key 11 107 then
    (let! line := line_at (e_cy s) in
     (if e_cx s <? len line then put_line (e_cy s) (slice_to line (e_cx s)) ;;; modify (set_dirty true)
      else if e_cy s + 1 <? len (e_lines s) then _delete else ret tt) ;;;
     ret (inl true))
  else ret (inr c).

(** Movement, editing and text. *)
Definition plain_key (c : Z) (text : str) : ed unit :=
  let! s := get in
  if c =? KEY_LEFT then
    (if 0 <? e_cx s then modify (set_cursor (e_cy s) (e_cx s - 1))
     else if 0 <? e_cy s then
       (modify (set_cursor (e_cy s - 1) (e_cx s)) ;;;
        let! line := line_at (e_cy s - 1) in modify (set_cursor (e_cy s - 1) (len line)))
     else ret tt)
  else if c =? KEY_RIGHT then
    (let! line := line_at (e_cy s) in
     if e_cx s <? len line then modify (set_cursor (e_cy s) (e_cx s + 1))
     else if e_cy s + 1 <? len (e_lines s) then modify (set_cursor (e_cy s + 1) 0)
     else ret tt)
  else if c =? KEY_UP then
    (if 0 <? e_cy s then modify (set_cursor (e_cy s - 1) (e_cx s)) ;;; _clamp_x else ret tt)
  else if c =? KEY_DOWN then
    (if e_cy s + 1 <? len (e_lines s) then modify (set_cursor (e_cy s + 1) (e_cx s)) ;;; _clamp_x else ret tt)
  else if c =? KEY_HOME then modify (set_cursor (e_cy s) 0)
  else if c =? KEY_END then (let! line := line_at (e_cy s) in modify (set_cursor (e_cy s) (len line)))
  else if c =? KEY_PAGE_UP then _page (-1)
  else if c =? KEY_PAGE_DOWN then _page 1
  else if c =? KEY_ENTER then _newline
  else if c =? KEY_BACKSPACE then _backspace
  else if c =? KEY_DELETE then _delete
  else if c =? KEY_TAB then _insert_char 9
  else for_each text (fun ch => if printable ch then _insert_char ch else ret tt).

(** [True] while the editor goes on. *)
Definition on_event (ev : Event) : ed bool :=
  let! scrolled := text_view_event ev in
  if scrolled : bool then redraw ;;; ret true else
  if negb (ev_kind ev =? EVENT_KEY_DOWN) then ret true else
  let! s := get in
  match e_prompt_mode s with
  | Some _ => prompt_key ev ;;; ret true
  | None =>
      say [] ;;;
      let ctrl := has (ev_mods ev) MOD_CTRL in
      let meta := has (ev_mods ev) (Z.lor MOD_ALT MOD_META) in
      if e_ctrl_x s then
        modify (set_ctrl_x false) ;;;
        if ctrl && beq (ev_text ev) [3] then ret false
        else if ctrl && beq (ev_text ev) [19] then start_save ;;; ret true
        else say (lit "Quit") ;;; ret true
      else if meta && negb ctrl then
        (let! bound := meta_key ev in
         if bound : bool then _ensure_visible ;;; ret true else ret true)
      else
        let! r := (if ctrl then ctrl_key ev else ret (inr (ev_code ev))) in
        match r with
        | inl b => ret b
        | inr c => plain_key c (ev_text ev) ;;; _ensure_visible ;;; ret true
        end
  end.

(** ** Files *)

(** [split("\n")] never gives an empty list. *)
Definition load_text (text : str) : list str := match text with [] => [[]] | _ => split newline text end.

(** [load] up to reading: the path to read. *)
Definition load_request : ed (option str) :=
  let! s := get in
  match e_path s with
  | Some (c :: p) => ret (Some (c :: p))
  | _ => say (lit "(new file)") ;;; ret None
  end.
(** [load] from the answer on. *)
Definition load_finish (path : str) (r : result bytes) : ed unit :=
  match r with
  | Ok data =>
      let text := decode data in
      modify (fun s => set_saved text (set_lines (load_text text) s)) ;;;
      say (lit "loaded " ++ path ++ lit " (" ++ str_of_int (len text) ++ lit " bytes)")
  | Err FileNotFoundError =>
      let! s := get in
      match e_initial s with
      | Some t => modify (fun s => set_saved t (set_lines (split newline t) s)) ;;; say (lit "built-in source; Save writes " ++ path)
      | None => say (lit "(new file: " ++ path ++ lit ")")
      end
  | Err e => say (lit "load failed: " ++ exn_text e)
  end.

(** [save] up to writing: the path and the bytes to write. *)
Definition save_request : ed (option (str * bytes)) :=
  let! s := get in
  match e_path s with
  | Some (c :: p) =>
      match encode (_buffer_text s) with
      | Ok data => ret (Some (c :: p, data))
      | Err e => say (lit "save failed: " ++ exn_text e) ;;; redraw ;;; ret None
      end
  | _ => prompt_save_as ;;; ret None
  end.
Definition save_finish (path : str) (data : bytes) (r : result unit) : ed unit :=
  match r with
  | Ok _ =>
      modify (fun s => set_saved (decode data) (set_dirty false s)) ;;;
      say (lit "saved " ++ path ++ lit " (" ++ str_of_int (len data) ++ lit " bytes)") ;;;
      _refresh_title
  | Err e => say (lit "save failed: " ++ exn_text e)
  end ;;;
  redraw.

Definition cancel_edits : ed unit :=
  modify (fun s => set_message (lit "changes cancelled") (set_dirty false (set_scroll 0 (set_cursor 0 0
            (set_lines (split newline (e_saved s)) s))))) ;;;
  redraw.

(** [reload] up to the action, which gets the text, and after it. *)
Definition reload_request : ed (option str) :=
  let! s := get in
  if e_can_reload s then ret (Some (_buffer_text s))
  else say (lit "reload is unavailable for this buffer") ;;; ret None.
Definition reload_finish (text : str) (r : result str) : ed unit :=
  match r with
  | Ok m =>
      modify (fun s => set_message (match m with [] => lit "reloaded" | _ => m end) (set_dirty false (set_saved text s))) ;;;
      _refresh_title
  | Err e => say (lit "reload failed: " ++ exn_text e)
  end ;;;
  redraw.

(** The chooser's answer: [_choose_open] up to its load, [_choose_save_as] up
    to its save. *)
Definition chosen_open (path : str) : ed unit :=
  modify (fun s => set_scroll 0 (set_cursor 0 0 (set_path (Some path) s))) ;;; _refresh_title.
Definition chosen_save_as (path : str) : ed unit :=
  modify (set_path (Some path)) ;;; _refresh_title.

(** [_commit_prompt] up to the load or the save it ends with. *)
Definition commit_prompt : ed (option prompt) :=
  let! s := get in
  let path := strip is_space (e_prompt_buf s) in
  modify (set_prompt None []) ;;;
  match path, e_prompt_mode s with
  | _ :: _, Some m => modify (set_path (Some path)) ;;; _refresh_title ;;; ret (Some m)
  | _, _ => ret None
  end.

(** [load] and [save] with nothing in between. *)
Section files.
Context {W Node : Type} `{FSNode W Node}.
Abbreviation fed := (M (EditorView * VFS W Node)).
Definition on_ed {A} (m : ed A) : fed A := zoom fst (fun e s => (e, snd s)) m.
(** An await of the switch: its answer, also when it is an exception. *)
Definition answer {A} (m : M (VFS W Node) A) : fed (result A) := fun s =>
  let (r, v) := m (snd s) in (Ok r, (fst s, v)).

Fixpoint read_loop (fuel : nat) (fd : Z) (chunks : bytes) : M (VFS W Node) bytes :=
  match fuel with
  | O => raise RuntimeError
  | S fuel' =>
      let! chunk := read fd 4096 in
      match chunk with
      | [] => ret chunks
      | _ => read_loop fuel' fd (chunks ++ chunk)
      end
  end.
Definition _read_all (fuel : nat) (path : str) : M (VFS W Node) bytes :=
  let! fd := open path 0 in
  try_finally (read_loop fuel fd []) (close fd).

Fixpoint write_loop (fuel : nat) (fd off : Z) (data : bytes) : M (VFS W Node) unit :=
  match fuel with
  | O => raise RuntimeError
  | S fuel' =>
      if off <? len data then
        let! n := write fd (slice_from data off) in
        if n <=? 0 then ret tt else write_loop fuel' fd (off + n) data
      else ret tt
  end.
(** Every turn but the last writes at least one byte. *)
Definition _write_all (path : str) (data : bytes) : M (VFS W Node) unit :=
  let! fd := open path (Z.lor (Z.lor 1 O_CREAT) O_TRUNC) in
  try_finally (write_loop (S (length data)) fd 0 data) (close fd).

Definition load (fuel : nat) : fed unit :=
  let! p := on_ed load_request in
  match p with
  | None => ret tt
  | Some path => let! r := answer (_read_all fuel path) in on_ed (load_finish path r)
  end.
Definition save : fed unit :=
  let! p := on_ed save_request in
  match p with
  | None => ret tt
  | Some (path, data) => let! r := answer (_write_all path data) in on_ed (save_finish path data r)
  end.
End files.
End editor.
