(* ===== verification/EdwinProps.v ===== *)
(** * The screen editor keeps a text with a point

    Whatever happens to it, the editor's cursor stays in its buffer and no key
    raises; its keys act on the buffer as on one text cut in two at the point;
    a buffer that is not marked dirty is the text last saved or loaded. *)

From Stdlib Require Import ZArith Lia.
From stdpp Require Import base list numbers strings.
From S2P Require Import Prelude Bytes Pystr Vfs VfsProps Input Edwin.

Local Open Scope Z_scope.

(** ** Insertion and deletion at an index *)

Section around.
Context {A : Type}.
Implicit Types (pre post : list A) (x y : A).

Lemma insert_at_next pre x y post : insert_at (pre ++ x :: post) (len pre + 1) y = pre ++ x :: y :: post.
Proof. unfold insert_at. rewrite slice_from_next, slice_to_next. by rewrite <- app_assoc. Qed.
Lemma del_at_mid pre x post : del_at (pre ++ x :: post) (len pre) = Ok (pre ++ post).
Proof.
  unfold del_at. rewrite index_mid. cbn [rbind]. pose proof (len_nonneg pre).
  replace (len pre <? 0) with false by lia. by rewrite slice_to_mid, slice_from_next.
Qed.
End around.

(** ** The text and the point *)

Implicit Types (s : EditorView) (pre post : list str) (a b : str).

(** The cursor stands between [a] and [b] in the line after [pre]. *)
Definition zip s pre a b post : Prop := e_lines s = pre ++ (a ++ b) :: post /\ e_cy s = len pre /\ e_cx s = len a.
(** Characters of Python strings; lines hold no line break. *)
Definition py_char (c : Z) : Prop := 0 <= c < 0x110000.
Definition line_char (c : Z) : Prop := c <> newline /\ py_char c.
Definition line_ok (l : str) : Prop := Forall line_char l.
Definition view_ok s : Prop := Forall line_ok (e_lines s) /\ exists pre a b post, zip s pre a b post.

Definition unl (ls : list str) : str := flat_map (fun l => l ++ [newline]) ls.
Definition nll (ls : list str) : str := flat_map (fun l => newline :: l) ls.

(** What is before the point and what is after it. *)
Definition gap : Type := str * str.
Definition gap_of s : gap :=
  (take (Z.to_nat (_cursor_offset s)) (_buffer_text s), drop (Z.to_nat (_cursor_offset s)) (_buffer_text s)).

Lemma unl_cons l ls : unl (l :: ls) = l ++ newline :: unl ls.
Proof. cbn. by rewrite <- app_assoc. Qed.
Lemma unl_snoc ls l : unl (ls ++ [l]) = (unl ls ++ l) ++ [newline].
Proof. unfold unl. rewrite flat_map_app. cbn. by rewrite app_nil_r, app_assoc. Qed.
Lemma nll_cons l ls : nll (l :: ls) = newline :: l ++ nll ls.
Proof. done. Qed.

Lemma join_nll l ls : join [newline] (l :: ls) = l ++ nll ls.
Proof.
  revert l. induction ls as [|m ls IH]; intros l; [cbn; by rewrite app_nil_r|].
  rewrite join_cons by done. rewrite IH. cbn [nll flat_map app]. done.
Qed.
Lemma join_zip pre l post : join [newline] (pre ++ l :: post) = unl pre ++ l ++ nll post.
Proof.
  induction pre as [|m pre IH]; [apply join_nll|]. cbn [app unl flat_map].
  rewrite join_cons by (by destruct pre). rewrite IH, <- !app_assoc. done.
Qed.
Lemma line_sum_unl ls : line_sum ls = len (unl ls).
Proof.
  induction ls as [|l ls IH]; [done|]. unfold line_sum in *. cbn [fold_right unl flat_map]. rewrite IH, !len_app, len_cons, len_nil.
  unfold unl. lia.
Qed.

Lemma zip_text s pre a b post : zip s pre a b post -> _buffer_text s = (unl pre ++ a) ++ (b ++ nll post).
Proof. intros (Hl & _). unfold _buffer_text. rewrite Hl, join_zip, <- !app_assoc. done. Qed.
Lemma zip_offset s pre a b post : zip s pre a b post -> _cursor_offset s = len (unl pre ++ a).
Proof.
  intros (Hl & Hy & Hx). unfold _cursor_offset. rewrite Hl, Hy, Hx, slice_to_mid, line_sum_unl, len_app. done.
Qed.
Lemma zip_gap s pre a b post : zip s pre a b post -> gap_of s = (unl pre ++ a, b ++ nll post).
Proof.
  intros Hz. unfold gap_of. rewrite (zip_text _ _ _ _ _ Hz), (zip_offset _ _ _ _ _ Hz). unfold len. rewrite Nat2Z.id.
  by rewrite take_app_length, drop_app_length.
Qed.
Lemma gap_text s : fst (gap_of s) ++ snd (gap_of s) = _buffer_text s.
Proof. apply take_drop. Qed.

(** Moving to an offset finds the line it falls in. *)
Lemma seek_row_spec row off ls : ls <> [] -> 0 <= off <= len (join [newline] ls) ->
  exists pre a b post, ls = pre ++ (a ++ b) :: post /\ seek_row row off ls = Some (row + len pre, len a) /\ len (unl pre ++ a) = off.
Proof.
  revert row off. induction ls as [|l ls IH]; intros row off Hne Ho; [done|]. cbn [seek_row].
  destruct (Z.leb_spec off (len l)) as [Hle|Hlt].
  - destruct (cut_at l off) as (a & b & -> & Ha); [lia|]. exists [], a, b, ls. cbn [app]. rewrite Ha.
    split_and!; [done| |done]. by rewrite len_nil, Z.add_0_r.
  - destruct ls as [|m ls]. { exfalso. change (join [newline] [l]) with l in Ho. lia. }
    rewrite join_cons in Ho by done. rewrite !len_app in Ho. change (len [newline]) with 1 in Ho.
    destruct (IH (row + 1) (off - (len l + 1))) as (pre & a & b & post & E & S & O); [done|lia|].
    exists (l :: pre), a, b, post. rewrite S, E. split_and!; [done| |].
    + rewrite len_cons. by replace (row + (1 + len pre)) with (row + 1 + len pre) by lia.
    + rewrite unl_cons, <- app_assoc, len_app. cbn [app]. rewrite len_cons, O. lia.
Qed.

(** ** The primitives *)

Definition moved_to pre a s : EditorView := set_cursor (len pre) (len a) s.
Definition edited pre a b post s : EditorView := set_dirty true (moved_to pre a (set_lines (pre ++ (a ++ b) :: post) s)).
Definition text_set pre a b post s : EditorView := set_dirty true (set_lines (pre ++ (a ++ b) :: post) s).

Lemma zip_moved s pre a b post : e_lines s = pre ++ (a ++ b) :: post -> zip (moved_to pre a s) pre a b post.
Proof. done. Qed.
Lemma zip_edited s pre a b post : zip (edited pre a b post s) pre a b post.
Proof. done. Qed.

(** Running an operation on a buffer cut at the cursor. *)
Ltac run_ed := unfold line_at, put_line, del_line, bind, get, gets, lift, modify, ret;
  cbn [e_lines e_cy e_cx]; cbn beta iota zeta.
Ltac ed_go := unfold edited, text_set, moved_to; repeat progress (
  rewrite ?index_mid, ?slice_to_mid, ?slice_from_mid, ?set_index_mid, ?slice_from_next, ?insert_at_next, ?del_at_mid;
  cbn [e_lines e_cy e_cx set_lines set_cursor set_dirty]; cbn beta iota zeta).
Ltac ed_run Hl Hy Hx := run_ed; repeat progress (rewrite ?Hl, ?Hy, ?Hx; ed_go; run_ed).
Ltac at_zip Hl Hy Hx := intros (Hl & Hy & Hx).

Lemma insert_char_spec s pre a b post c : zip s pre a b post ->
  _insert_char c s = (Ok tt, edited pre (a ++ [c]) b post s).
Proof.
  at_zip Hl Hy Hx. unfold _insert_char. ed_run Hl Hy Hx. rewrite len_app, <- app_assoc. done.
Qed.

Lemma newline_spec s pre a b post : zip s pre a b post ->
  _newline s = (Ok tt, edited (pre ++ [a]) [] b post s).
Proof.
  at_zip Hl Hy Hx. unfold _newline. ed_run Hl Hy Hx. rewrite len_app, <- app_assoc. done.
Qed.

Lemma backspace_char s pre a c b post : zip s pre (a ++ [c]) b post ->
  _backspace s = (Ok tt, edited pre a b post s).
Proof.
  at_zip Hl Hy Hx. pose proof (len_nonneg a). rewrite len_app in Hx. change (len [c]) with 1 in Hx. rewrite <- app_assoc in Hl.
  cbn [app] in Hl. assert (H0 : (0 <? e_cx s) = true) by lia. assert (H1 : e_cx s - 1 = len a) by lia.
  unfold _backspace. run_ed. rewrite H0. ed_run Hl Hy H1. rewrite Hx, slice_from_next. ed_run Hl Hy H1.
  by replace (len a + 1 - 1) with (len a) by lia.
Qed.

Lemma index_next {A} (l : list A) x y l' : index (l ++ x :: y :: l') (len l + 1) = Ok y.
Proof.
  change (x :: y :: l') with ([x] ++ y :: l'). rewrite app_assoc.
  replace (len l + 1) with (len (l ++ [x])) by (by rewrite len_app). apply index_mid.
Qed.
Lemma del_next {A} (l : list A) x y l' : del_at (l ++ x :: y :: l') (len l + 1) = Ok (l ++ x :: l').
Proof.
  change (x :: y :: l') with ([x] ++ y :: l'). rewrite app_assoc.
  replace (len l + 1) with (len (l ++ [x])) by (by rewrite len_app). by rewrite del_at_mid, <- app_assoc.
Qed.

Lemma backspace_join s pre l b post : zip s (pre ++ [l]) [] b post ->
  _backspace s = (Ok tt, edited pre l b post s).
Proof.
  at_zip Hl Hy Hx. pose proof (len_nonneg pre). rewrite len_app in Hy. change (len [l]) with 1 in Hy. change (len []) with 0 in Hx.
  rewrite <- app_assoc in Hl. cbn [app] in Hl. assert (H1 : e_cy s - 1 = len pre) by lia.
  unfold _backspace. run_ed. rewrite Hx. change (0 <? 0) with false. replace (0 <? e_cy s) with true by lia.
  run_ed. rewrite H1, Hl. ed_go. rewrite Hy, index_next. ed_go. rewrite Hl. ed_go. rewrite del_next. ed_go. by replace (len pre + 1 - 1) with (len pre) by lia.
Qed.

Lemma backspace_start s b post : zip s [] [] b post -> _backspace s = (Ok tt, s).
Proof. at_zip Hl Hy Hx. unfold _backspace. run_ed. by rewrite Hx, Hy. Qed.

Lemma delete_char s pre a c b post : zip s pre a (c :: b) post -> _delete s = (Ok tt, text_set pre a b post s).
Proof.
  at_zip Hl Hy Hx. pose proof (len_nonneg b). unfold _delete. run_ed. rewrite Hl, Hy, index_mid. cbn beta iota.
  replace (e_cx s <? len (a ++ c :: b)) with true by (rewrite len_app, len_cons; lia). ed_run Hl Hy Hx. done.
Qed.

Lemma delete_join s pre a l post : zip s pre a [] (l :: post) -> _delete s = (Ok tt, text_set pre a l post s).
Proof.
  at_zip Hl Hy Hx. pose proof (len_nonneg post). unfold _delete. run_ed. rewrite app_nil_r in Hl. rewrite Hl, Hy, index_mid. cbn beta iota.
  replace (e_cx s <? len a) with false by lia.
  replace (len pre + 1 <? len (pre ++ a :: l :: post)) with true by (rewrite len_app, !len_cons; lia).
  ed_run Hl Hy Hx. rewrite index_next. ed_run Hl Hy Hx. rewrite del_next. by ed_go.
Qed.

Lemma delete_end s pre a : zip s pre a [] [] -> _delete s = (Ok tt, s).
Proof.
  at_zip Hl Hy Hx. unfold _delete. run_ed. rewrite app_nil_r in Hl. rewrite Hl, Hy, Hx, index_mid. cbn beta iota.
  replace (len a <? len a) with false by lia. rewrite len_app. change (len [a]) with 1. by replace (len pre + 1 <? len pre + 1) with false by lia.
Qed.

(** An offset of the text is a place of the cursor. *)
Lemma set_offset_spec s off : e_lines s <> [] ->
  exists pre a b post, e_lines s = pre ++ (a ++ b) :: post /\ _set_cursor_offset off s = (Ok tt, moved_to pre a s) /\
    len (unl pre ++ a) = Z.max 0 (Z.min (len (_buffer_text s)) off).
Proof.
  intros Hne. pose proof (len_nonneg (_buffer_text s)).
  destruct (seek_row_spec 0 (Z.max 0 (Z.min (len (_buffer_text s)) off)) (e_lines s) Hne) as (pre & a & b & post & E & S & O).
  { unfold _buffer_text in *. lia. }
  exists pre, a, b, post. split_and!; [done| |done]. unfold _set_cursor_offset. run_ed. by rewrite S.
Qed.

(** ** The invariant *)

Definition texts_ok s : Prop := Forall py_char (e_saved s) /\ from_option (Forall py_char) True (e_initial s).
Definition ed_inv s : Prop := view_ok s /\ (e_dirty s = false -> _buffer_text s = e_saved s) /\ texts_ok s.

(** An operation returns and keeps the invariant. *)
Definition ok_at {A} (m : M EditorView A) s : Prop := exists x s', m s = (Ok x, s') /\ ed_inv s'.
Definition safe {A} (m : M EditorView A) : Prop := forall s, ed_inv s -> ok_at m s.

Lemma ok_at_bind {A B} (m : M EditorView A) (f : A -> M EditorView B) s :
  ok_at m s -> (forall x, safe (f x)) -> ok_at (bind m f) s.
Proof. intros (x & s1 & E & I1) Hf. destruct (Hf x s1 I1) as (y & s2 & E2 & I2). exists y, s2. by rewrite (bind_step _ _ _ _ _ E). Qed.
Lemma safe_bind {A B} (m : M EditorView A) (f : A -> M EditorView B) : safe m -> (forall x, safe (f x)) -> safe (bind m f).
Proof. intros Hm Hf s I. by apply ok_at_bind; [apply Hm|]. Qed.
Lemma safe_get {B} (f : EditorView -> M EditorView B) : (forall s, ed_inv s -> ok_at (f s) s) -> safe (bind get f).
Proof. intros Hf s I. exact (Hf s I). Qed.
Lemma edwin_safe_ret {A} (x : A) : safe (ret x).
Proof. intros s I. by exists x, s. Qed.
Lemma safe_if {A} (c : bool) (m1 m2 : M EditorView A) : safe m1 -> safe m2 -> safe (if c then m1 else m2).
Proof. by destruct c. Qed.

(** What the invariant does not look at. *)
Definition core s := (e_lines s, e_cy s, e_cx s, e_dirty s, e_saved s, e_initial s).
Lemma ed_inv_core s s' : core s' = core s -> ed_inv s -> ed_inv s'.
Proof.
  unfold core. intros [= El Ey Ex Ed Es Ei] [[Hn (pre & a & b & post & Hl & Hy & Hx)] [Hd Ht]]. split_and!.
  - split; [by rewrite El|]. exists pre, a, b, post. unfold zip. by rewrite El, Ey, Ex.
  - unfold _buffer_text. by rewrite Ed, El, Es.
  - unfold texts_ok. by rewrite Es, Ei.
Qed.
Lemma safe_modify (f : EditorView -> EditorView) : (forall s, core (f s) = core s) -> safe (modify f).
Proof. intros Hf s I. exists tt, (f s). split; [done|]. exact (ed_inv_core s (f s) (Hf s) I). Qed.
Create HintDb edwin discriminated.
#[export] Hint Resolve safe_bind edwin_safe_ret safe_if : edwin.
#[export] Hint Extern 2 (safe (modify _)) => (apply safe_modify; intros; unfold core; repeat case_match; reflexivity) : edwin.

Lemma view_line s : view_ok s -> exists line, index (e_lines s) (e_cy s) = Ok line /\ 0 <= e_cy s < len (e_lines s) /\ 0 <= e_cx s <= len line.
Proof.
  intros [_ (pre & a & b & post & Hl & Hy & Hx)]. exists (a ++ b). rewrite Hl, Hy, Hx, index_mid, !len_app, len_cons.
  pose proof (len_nonneg pre). pose proof (len_nonneg post). pose proof (len_nonneg a). pose proof (len_nonneg b). split; [done|lia].
Qed.
Lemma index_cut {A} (l : list A) i x : 0 <= i -> index l i = Ok x -> exists l1 l2, l = l1 ++ x :: l2 /\ len l1 = i.
Proof.
  intros Hi Hx. apply index_Ok in Hx; [|done]. apply take_drop_middle in Hx as Hl. pose proof (lookup_lt_Some _ _ _ Hx).
  exists (take (Z.to_nat i) l), (drop (S (Z.to_nat i)) l). split; [done|]. unfold len. rewrite length_take. lia.
Qed.
Lemma cursor_ok s cy cx line : ed_inv s -> 0 <= cy -> index (e_lines s) cy = Ok line -> 0 <= cx <= len line -> ed_inv (set_cursor cy cx s).
Proof.
  intros [[Hn _] Hd] Hy Hi Hx. destruct (index_cut _ _ _ Hy Hi) as (pre & post & Hl & Hp).
  destruct (cut_at line cx Hx) as (a & b & -> & Ha). split; [|exact Hd]. split; [exact Hn|].
  exists pre, a, b, post. unfold zip. cbn [e_lines e_cy e_cx set_cursor]. by rewrite Hp, Ha.
Qed.
Lemma cursor_row s cy : ed_inv s -> 0 <= cy < len (e_lines s) -> exists line, index (e_lines s) cy = Ok line /\ 0 <= len line.
Proof. intros _ Hy. destruct (index_total _ _ Hy) as [line Hi]. exists line. split; [done|apply len_nonneg]. Qed.

Lemma moved_ok s pre a b post : ed_inv s -> e_lines s = pre ++ (a ++ b) :: post -> ed_inv (moved_to pre a s).
Proof. intros [[Hn _] Hd] Hl. split; [|exact Hd]. split; [exact Hn|]. by exists pre, a, b, post. Qed.
Lemma edited_ok s pre a b post : ed_inv s -> Forall line_ok (pre ++ (a ++ b) :: post) -> ed_inv (edited pre a b post s).
Proof. intros [_ [_ Ht]] Hn. split_and!; [|done|exact Ht]. split; [exact Hn|]. by exists pre, a, b, post. Qed.
Lemma text_set_ok s pre a b b' post post' : ed_inv s -> zip s pre a b' post' -> Forall line_ok (pre ++ (a ++ b) :: post) ->
  ed_inv (text_set pre a b post s).
Proof.
  intros [_ [_ Ht]] (_ & Hy & Hx) Hn. split_and!; [|done|exact Ht]. split; [exact Hn|]. by exists pre, a, b, post.
Qed.

(** Splits of the lines, for the side conditions. *)
Ltac no_nl := unfold line_ok in *; repeat match goal with
  | H : Forall _ (_ ++ _) |- _ => apply Forall_app in H as [? ?]
  | H : Forall _ (_ :: _) |- _ => apply list.Forall_cons in H as [? ?]
  | |- Forall _ (_ ++ _) => apply Forall_app; split
  | |- Forall _ (_ :: _) => apply list.Forall_cons; split
  | |- Forall _ [] => constructor
  end; try done.

Lemma safe_insert c : line_char c -> safe (_insert_char c).
Proof.
  intros Hc s I. pose proof I as [[Hn (pre & a & b & post & Hz)] _]. exists tt. eexists. split; [by apply insert_char_spec|].
  apply edited_ok; [done|]. destruct Hz as (Hl & _). rewrite Hl in Hn. no_nl.
Qed.
Lemma safe_newline : safe _newline.
Proof.
  intros s I. pose proof I as [[Hn (pre & a & b & post & Hz)] _]. exists tt. eexists. split; [by apply newline_spec|].
  apply edited_ok; [done|]. destruct Hz as (Hl & _). rewrite Hl in Hn. no_nl.
Qed.
Lemma safe_backspace : safe _backspace.
Proof.
  intros s I. pose proof I as [[Hn (pre & a & b & post & Hz)] _]. exists tt. pose proof Hz as (Hl & _). rewrite Hl in Hn.
  destruct a as [|c a _] using rev_ind; [destruct pre as [|l pre _] using rev_ind|].
  - exists s. split; [by eapply backspace_start|exact I].
  - eexists. split; [by apply backspace_join|]. apply edited_ok; [done|]. no_nl.
  - eexists. split; [by eapply backspace_char|]. apply edited_ok; [done|]. no_nl.
Qed.
Lemma safe_delete : safe _delete.
Proof.
  intros s I. pose proof I as [[Hn (pre & a & b & post & Hz)] _]. exists tt. pose proof Hz as (Hl & _). rewrite Hl in Hn.
  destruct b as [|c b]; [destruct post as [|l post]|].
  - exists s. split; [by eapply delete_end|exact I].
  - eexists. split; [by apply delete_join|]. eapply text_set_ok; [done|exact Hz|]. no_nl.
  - eexists. split; [by eapply delete_char|]. eapply text_set_ok; [done|exact Hz|]. no_nl.
Qed.
Lemma safe_set_offset off : safe (_set_cursor_offset off).
Proof.
  intros s I. pose proof I as [[Hn (pre0 & a0 & b0 & post0 & Hl0 & _)] _].
  destruct (set_offset_spec s off) as (pre & a & b & post & Hl & E & _); [rewrite Hl0; by destruct pre0|].
  exists tt, (moved_to pre a s). split; [done|]. by eapply moved_ok.
Qed.
#[export] Hint Resolve safe_newline safe_backspace safe_delete safe_set_offset : edwin.

(** ** Motions *)

Lemma run_of_bounds {A} (p : A -> bool) l : 0 <= run_of p l <= len l.
Proof. unfold len. induction l as [|x l IH]; cbn [run_of length]; [lia|]. destruct (p x); lia. Qed.
Lemma skip_bounds {A} (p : A -> bool) l pos : 0 <= pos <= len l -> pos <= skip p l pos <= len l.
Proof.
  intros Hp. unfold skip. pose proof (run_of_bounds p (drop (Z.to_nat pos) l)) as H. unfold len in *. rewrite length_drop in H. lia.
Qed.
Lemma skip_back_bounds {A} (p : A -> bool) l pos : 0 <= pos -> 0 <= skip_back p l pos <= pos.
Proof.
  intros Hp. unfold skip_back. pose proof (run_of_bounds p (rev (take (Z.to_nat pos) l))) as H. unfold len in *.
  rewrite length_rev, length_take in H. lia.
Qed.

(** Setting the cursor to a place of the buffer. *)
Lemma ok_cursor s cy cx line : ed_inv s -> 0 <= cy -> index (e_lines s) cy = Ok line -> 0 <= cx <= len line ->
  ok_at (modify (set_cursor cy cx)) s.
Proof. intros I Hy Hi Hx. exists tt. eexists. split; [done|]. by eapply cursor_ok. Qed.

(** To the end of a row, after the row was set. *)
Lemma ok_row_end s cy cx : ed_inv s -> 0 <= cy < len (e_lines s) ->
  ok_at (modify (set_cursor cy cx) ;;; let! line := line_at cy in modify (set_cursor cy (len line))) s.
Proof.
  intros I Hy. destruct (cursor_row s cy I Hy) as (line & Hi & Hn). exists tt, (set_cursor cy (len line) s). split.
  - run_ed. cbn [e_lines set_cursor]. by rewrite Hi.
  - eapply cursor_ok; [done|lia|done|lia].
Qed.
(** To the same column of a row, or its end. *)
Lemma ok_row_clamp s cy : ed_inv s -> 0 <= cy < len (e_lines s) -> ok_at (modify (set_cursor cy (e_cx s)) ;;; _clamp_x) s.
Proof.
  intros I Hy. destruct (cursor_row s cy I Hy) as (line & Hi & Hn). pose proof I as [Hv _].
  apply view_line in Hv as (cur & _ & _ & Hx). exists tt, (set_cursor cy (Z.min (e_cx s) (len line)) s). split.
  - unfold _clamp_x. run_ed. cbn [e_lines e_cy set_cursor]. by rewrite Hi.
  - eapply cursor_ok; [done|lia|done|lia].
Qed.
(** To a column of the cursor's line. *)
Lemma ok_column s (f : str -> Z) : ed_inv s -> (forall line, 0 <= f line <= len line) ->
  ok_at (let! line := line_at (e_cy s) in modify (set_cursor (e_cy s) (f line))) s.
Proof.
  intros I Hf. pose proof I as [Hv _]. apply view_line in Hv as (line & Hi & Hy & _).
  exists tt, (set_cursor (e_cy s) (f line) s). split; [run_ed; by rewrite Hi|]. eapply cursor_ok; [done|lia|done|apply Hf].
Qed.

Lemma lstrip_len p (l : str) : 0 <= len l - len (lstrip p l) <= len l.
Proof.
  unfold len. induction l as [|c l IH]; cbn [lstrip length]; [lia|]. destruct (p c); cbn [length]; lia.
Qed.

Section motions.
Context (isalnum : Z -> bool).

Lemma safe_by_offset f : safe (by_offset f).
Proof. apply safe_get. intros s I. by apply safe_set_offset. Qed.
Lemma safe_page d : safe (_page d).
Proof.
  intros s I. pose proof I as [Hv _]. apply view_line in Hv as (line & Hi & Hy & Hx).
  destruct (ok_row_clamp s (Z.max 0 (Z.min (len (e_lines s) - 1) (e_cy s + d * e_rows s))) I) as (x & s' & E & I'); [lia|].
  by exists x, s'.
Qed.
Lemma safe_to_end : safe to_end.
Proof.
  apply safe_get. intros s I. pose proof I as [Hv _]. apply view_line in Hv as (line & Hi & Hy & Hx). apply ok_row_end; [done|lia].
Qed.
Lemma safe_paragraph_forward : safe _paragraph_forward.
Proof.
  apply safe_get. intros s I. cbv zeta. pose proof I as [Hv _]. apply view_line in Hv as (line & Hi & Hy & Hx).
  set (row := skip (fun l => negb (blank l)) (e_lines s) (e_cy s)).
  assert (Hr : 0 <= row <= len (e_lines s)) by (pose proof (skip_bounds (fun l => negb (blank l)) (e_lines s) (e_cy s)); lia).
  pose proof (skip_bounds blank (e_lines s) row Hr) as Hr2. destruct (Z.leb_spec (len (e_lines s)) (skip blank (e_lines s) row)) as [Hl|Hl].
  - by apply safe_to_end.
  - destruct (cursor_row s (skip blank (e_lines s) row) I) as (l2 & Hi2 & Hn); [lia|]. eapply ok_cursor; [done|lia|done|lia].
Qed.
Lemma safe_paragraph_backward : safe _paragraph_backward.
Proof.
  apply safe_get. intros s I. cbv zeta. pose proof I as [Hv _]. apply view_line in Hv as (line & Hi & Hy & Hx).
  set (row := if (e_cx s =? 0) && (0 <? e_cy s) then e_cy s - 1 else e_cy s).
  assert (Hr : 0 <= row < len (e_lines s)) by (unfold row; case_match; lia).
  replace ((0 <? row) && (len (e_lines s) <=? row)) with false by lia.
  pose proof (run_of_bounds blank (rev (drop 1 (take (Z.to_nat (row + 1)) (e_lines s))))) as Hb.
  set (r1 := row - run_of blank _) in *.
  assert (Hr1 : 0 <= r1 <= row). { unfold len in Hb, Hr. rewrite length_rev, length_drop, length_take in Hb. lia. }
  pose proof (skip_back_bounds (fun l => negb (blank l)) (e_lines s) r1) as Hr2.
  destruct (cursor_row s (skip_back (fun l => negb (blank l)) (e_lines s) r1) I) as (l2 & Hi2 & Hn); [lia|].
  eapply ok_cursor; [done|lia|done|lia].
Qed.

Lemma safe_scroll_by n : safe (scroll_by n).
Proof.
  apply safe_get. intros s I. cbv zeta. eexists _, _. split; [reflexivity|]. by apply (ed_inv_core s).
Qed.
Lemma ok_then {A} (f : EditorView -> EditorView) (m : M EditorView A) s : (forall s, core (f s) = core s) -> ed_inv s -> safe m ->
  ok_at (modify f ;;; m) s.
Proof. intros Hf I Hm. apply ok_at_bind; [by apply safe_modify|done]. Qed.
Lemma safe_text_view ev : safe (text_view_event ev).
Proof.
  apply safe_get. intros s I. cbv zeta. destruct (ev_kind ev =? MOUSE_WHEEL); [by apply safe_scroll_by|].
  destruct ((ev_kind ev =? MOUSE_DOWN) && (ev_code ev =? 2)); [apply ok_then; [done|done|apply edwin_safe_ret]|].
  destruct (if ev_kind ev =? MOUSE_MOVE then e_middle s else None) as [y0|].
  - apply ok_at_bind; [|intros; apply edwin_safe_ret]. destruct (negb _); [|by apply edwin_safe_ret].
    apply ok_then; [done|done|]. apply safe_bind; [apply safe_scroll_by|intros; apply edwin_safe_ret].
  - destruct (_ && _); [apply ok_then; [done|done|apply edwin_safe_ret]|by apply edwin_safe_ret].
Qed.
End motions.

(** ** Every event *)

Section events.
Context (isalnum : Z -> bool) (exn_text : exn -> str).

Lemma safe_spawn t : safe (spawn t).
Proof. by apply safe_modify. Qed.
Lemma safe_say m : safe (say m).
Proof. by apply safe_modify. Qed.
Lemma safe_redraw : safe redraw.
Proof. by apply safe_modify. Qed.
Lemma safe_ensure_visible : safe _ensure_visible.
Proof. apply safe_modify. intros s. by repeat case_match. Qed.
Lemma safe_recenter : safe _recenter.
Proof. apply safe_bind; [by apply safe_modify|intros; apply safe_say]. Qed.

Lemma safe_prompt_key ev : safe (prompt_key ev).
Proof.
  unfold prompt_key. repeat case_match; try (by apply safe_modify); try (apply safe_spawn).
Qed.
Lemma safe_true (m : M EditorView unit) : safe m -> safe (m ;;; ret true).
Proof. intros Hm. apply safe_bind; [done|intros; apply edwin_safe_ret]. Qed.

Lemma safe_origin : safe (modify (set_cursor 0 0)).
Proof.
  intros s I. pose proof I as [Hv _]. apply view_line in Hv as (line & Hi & Hy & Hx).
  destruct (cursor_row s 0 I) as (l & Hl & Hn); [lia|]. eapply ok_cursor; [done|lia|done|lia].
Qed.

Lemma safe_meta_key ev : safe (meta_key isalnum ev).
Proof.
  unfold meta_key. cbv zeta. repeat (apply safe_if; [first [apply safe_true; first
    [apply safe_by_offset|apply safe_page|apply safe_origin|apply safe_to_end|apply safe_paragraph_backward|apply safe_paragraph_forward]
    |idtac]|]); [|apply edwin_safe_ret].
  apply safe_get. intros s I. destruct (ok_column s (fun l => len l - len (lstrip is_space l)) I) as (x & s' & E & I').
  { intros l. apply lstrip_len. }
  exists true, s'. split; [|done]. revert E. run_ed. by destruct (index _ _); intros [= <- <-].
Qed.

Lemma safe_kill s line : ed_inv s -> index (e_lines s) (e_cy s) = Ok line -> ok_at
  (if e_cx s <? len line then put_line (e_cy s) (slice_to line (e_cx s)) ;;; modify (set_dirty true)
   else if e_cy s + 1 <? len (e_lines s) then _delete else ret tt) s.
Proof.
  intros I Hi. destruct (Z.ltb_spec (e_cx s) (len line)); [|destruct (_ <? _); [by apply safe_delete|by apply edwin_safe_ret]].
  pose proof I as [[Hn (pre & a & b & post & Hl & Hy & Hx)] _]. rewrite Hl, Hy, index_mid in Hi. injection Hi as <-.
  exists tt, (text_set pre a [] post s). split.
  - run_ed. rewrite Hl, Hy, Hx. ed_go. by rewrite app_nil_r.
  - eapply text_set_ok; [done|by repeat split|]. rewrite Hl in Hn. rewrite app_nil_r. no_nl.
Qed.

Lemma safe_ctrl_key ev : safe (ctrl_key ev).
Proof.
  unfold ctrl_key. cbv zeta. generalize (match ev_text ev with b :: _ => b | [] => 0 end). intros byte. apply safe_get. intros s I. pose proof I as [Hv _]. apply view_line in Hv as (line & Hi & Hy & Hx).
  pose proof (len_nonneg line).
  repeat match goal with
  | |- ok_at (if _ then _ else _) _ => case_match
  | |- ok_at (ret _) _ => by apply edwin_safe_ret
  | |- ok_at (bind _ (fun _ => ret _)) _ => apply ok_at_bind; [|intros; apply edwin_safe_ret]
  end.
  - by apply safe_modify.
  - by apply safe_spawn.
  - by apply safe_say.
  - eapply ok_cursor; [done|lia|done|lia].
  - destruct (ok_column s len I) as (x & s' & E & I'); [intros; pose proof (len_nonneg line0); lia|].
    exists (inl true), s'. split; [|done]. revert E. run_ed. rewrite Hi. by intros [= <- <-].
  - by apply safe_recenter.
  - by apply safe_delete.
  - destruct (safe_kill s line I Hi) as (x & s' & E & I'). exists (inl true), s'. split; [|done].
    rewrite (bind_step _ _ s line s); [|run_ed; by rewrite Hi]. by rewrite (bind_step _ _ _ _ _ E).
Qed.

Lemma safe_type text : safe (for_each text (fun ch => if printable ch then _insert_char ch else ret tt)).
Proof.
  induction text as [|c text IH]; cbn [for_each]; [apply edwin_safe_ret|]. apply safe_bind; [|intros; apply IH].
  destruct (printable c) eqn:Ep; [|apply edwin_safe_ret]. apply safe_insert. unfold printable, line_char, py_char, newline in *. lia.
Qed.

Lemma safe_plain_key c text : safe (plain_key c text).
Proof.
  unfold plain_key. apply safe_get. intros s I. pose proof I as [Hv _]. apply view_line in Hv as (line & Hi & Hy & Hx).
  pose proof (len_nonneg line). repeat match goal with |- ok_at (if _ then _ else _) _ => case_match end;
    try (by apply edwin_safe_ret); try (by apply safe_page); try (by apply safe_newline); try (by apply safe_backspace);
    try (by apply safe_delete); try (by apply safe_type); try (by apply safe_insert; unfold line_char, py_char, newline in *; try lia).
  - eapply ok_cursor; [done|lia|done|lia].
  - apply ok_row_end; [done|lia].
  - assert (E : line_at (e_cy s) s = (Ok line, s)) by (run_ed; by rewrite Hi).
    unfold ok_at. rewrite (bind_step _ _ _ _ _ E). destruct (Z.ltb_spec (e_cx s) (len line)).
    { apply (ok_cursor s (e_cy s) (e_cx s + 1) line I); [lia|done|lia]. }
    destruct (Z.ltb_spec (e_cy s + 1) (len (e_lines s))); [|by apply edwin_safe_ret].
    destruct (cursor_row s (e_cy s + 1) I) as (l2 & Hi2 & Hn); [lia|]. apply (ok_cursor s (e_cy s + 1) 0 l2 I); [lia|done|lia].
  - apply ok_row_clamp; [done|lia].
  - apply ok_row_clamp; [done|lia].
  - eapply ok_cursor; [done|lia|done|lia].
  - apply (ok_column s len I). intros l. pose proof (len_nonneg l). lia.
Qed.
Lemma safe_on_event ev : safe (on_event isalnum ev).
Proof.
  unfold on_event. apply safe_bind; [apply safe_text_view|intros scrolled]. apply safe_if.
  { apply safe_true, safe_redraw. }
  apply safe_if; [apply edwin_safe_ret|]. apply safe_get. intros s I. destruct (e_prompt_mode s).
  { apply safe_true; [apply safe_prompt_key|done]. }
  revert s I. enough (H : forall x, safe (say [] ;;; (if x : bool then modify (set_ctrl_x false) ;;;
        (if has (ev_mods ev) MOD_CTRL && beq (ev_text ev) [3] then ret false
         else if has (ev_mods ev) MOD_CTRL && beq (ev_text ev) [19] then start_save ;;; ret true else say (lit "Quit") ;;; ret true)
      else if has (ev_mods ev) (Z.lor MOD_ALT MOD_META) && negb (has (ev_mods ev) MOD_CTRL) then
        (let! bound := meta_key isalnum ev in if bound : bool then _ensure_visible ;;; ret true else ret true)
      else (let! r := (if has (ev_mods ev) MOD_CTRL then ctrl_key ev else ret (inr (ev_code ev))) in
        match r with inl b => ret b | inr c => plain_key c (ev_text ev) ;;; _ensure_visible ;;; ret true end)))).
  { intros s I. exact (H (e_ctrl_x s) s I). }
  intros pend. apply safe_bind; [apply safe_say|intros _]. apply safe_if.
  { apply safe_bind; [by apply safe_modify|intros _].
    repeat apply safe_if; first [apply edwin_safe_ret|apply safe_true, safe_spawn|apply safe_true, safe_say]. }
  apply safe_if.
  { apply safe_bind; [apply safe_meta_key|intros bound]. apply safe_if; [apply safe_true, safe_ensure_visible|apply edwin_safe_ret]. }
  apply safe_bind; [apply safe_if; [apply safe_ctrl_key|apply edwin_safe_ret]|]. intros [b|c]; [apply edwin_safe_ret|].
  apply safe_bind; [apply safe_plain_key|intros _]. apply safe_true, safe_ensure_visible.
Qed.
End events.

(** ** Files *)

Lemma decode_chars l : bytes_ok l -> Forall py_char (decode l).
Proof.
  remember (length l) as n eqn:Hn. revert l Hn. induction (lt_wf n) as [n _ IH]. intros l -> Hb.
  assert (Hrec : forall l', (length l' < length l)%nat -> bytes_ok l' -> Forall py_char (decode l')) by (intros l' Hl; by apply (IH _ Hl)).
  clear IH. assert (HF : py_char FFFD) by (unfold py_char, FFFD; lia).
  destruct l as [|b l1]; [constructor|]. apply list.Forall_cons in Hb as [H1 Hb]. cbn [decode].
  destruct l1 as [|c l2]; [destruct (b <? 128) eqn:E; repeat constructor; unfold byte_ok, FFFD in *; lia|].
  pose proof Hb as Hb1. apply list.Forall_cons in Hb as [H2 Hb].
  destruct (b <? 128) eqn:E; [constructor; [unfold py_char, byte_ok in *; lia|by apply Hrec; [cbn; lia|]]|].
  assert (Hf1 : Forall py_char (FFFD :: decode (c :: l2))) by (constructor; [done|by apply Hrec; [cbn; lia|]]).
  destruct l2 as [|d l3].
  { repeat case_match; try done; repeat constructor; unfold py_char, byte_ok, is_cont, in_range, FFFD in *; lia. }
  pose proof Hb as Hb2. apply list.Forall_cons in Hb as [H3 Hb].
  assert (Hf2 : Forall py_char (FFFD :: decode (d :: l3))) by (constructor; [done|by apply Hrec; [cbn; lia|]]).
  assert (Hr2 : Forall py_char (decode (d :: l3))) by (by apply Hrec; [cbn; lia|]).
  destruct l3 as [|e l4].
  { repeat case_match; try done; (constructor; [|first [done|cbn; constructor]]); unfold py_char, byte_ok, second3, is_cont, in_range, FFFD in *;
      repeat case_match; lia. }
  apply list.Forall_cons in Hb as [H4 Hb]. 
  assert (Hr3 : Forall py_char (decode (e :: l4))) by (apply Hrec; [cbn; lia|by constructor]).
  assert (Hr4 : Forall py_char (decode l4)) by (by apply Hrec; [cbn; lia|]).
  repeat case_match; try done; (constructor; [|done]); unfold py_char, byte_ok, second3, second4, is_cont, in_range, FFFD in *; repeat case_match; lia.
Qed.

Lemma split_lines_ok t : Forall py_char t -> Forall line_ok (split newline t).
Proof.
  intros Ht. pose proof (split_no_char newline t) as Hn. rewrite <- (join_split newline t) in Ht.
  pose proof (split_nonempty newline t) as Hne. revert Hne Ht Hn. generalize (split newline t). intros ls.
  induction ls as [|l ls IH]; intros Hne Ht Hn; [constructor|]. apply list.Forall_cons in Hn as [Hl Hn].
  assert (Hlok : Forall py_char l -> line_ok l).
  { intros Hc. apply list.Forall_forall. intros c Hin. split; [by intros ->|]. by eapply list.Forall_forall in Hc. }
  destruct ls as [|m ls]; [constructor; [by apply Hlok|constructor]|].
  rewrite join_cons in Ht by done. apply Forall_app in Ht as [Ht1 Ht]. apply Forall_app in Ht as [_ Ht].
  constructor; [by apply Hlok|by apply IH].
Qed.

(** A buffer just filled, with the cursor at its start. *)
Lemma filled_ok s t : Forall py_char t -> texts_ok s -> e_lines s = split newline t -> e_cy s = 0 -> e_cx s = 0 ->
  (e_dirty s = false -> t = e_saved s) -> ed_inv s.
Proof.
  intros Ht Hx Hl Hy Hc Hd. split_and!; [|unfold _buffer_text; by rewrite Hl, join_split|done].
  split; [rewrite Hl; by apply split_lines_ok|]. pose proof (split_nonempty newline t) as Hne.
  destruct (split newline t) as [|l ls]; [done|]. exists [], [], l, ls. by repeat split.
Qed.

Lemma load_text_split t : load_text t = split newline t.
Proof. by destruct t. Qed.

Lemma encode_decode t data : Forall py_char t -> encode t = Ok data -> decode data = t.
Proof.
  intros Ht He. destruct (decode_encode t) as (d & Hd & Hdd); [|congruence].
  unfold encode in He. apply rbind_Ok in He as (bs & He & _). revert bs He.
  induction Ht as [|c t Hc Ht IH]; intros bs He; [constructor|]. cbn [rmap] in He.
  apply rbind_Ok in He as (b & Hb & He). apply rbind_Ok in He as (bs' & Hbs & _).
  constructor; [|by eapply IH]. split; [exact Hc|]. intros Hs. unfold utf8_char in Hb.
  by replace (c <? 128) with false in Hb by lia; replace (c <? 2048) with false in Hb by lia;
    replace ((55296 <=? c) && (c <? 57344)) with true in Hb by lia.
Qed.

Section life.
Context (isalnum : Z -> bool) (exn_text : exn -> str).

(** What happens to an editor: key and mouse events, and the commands of its
    menus, each with the filesystem's or the reloader's answer. *)
Inductive ed_op : Type :=
| OpEvent (ev : Event) | OpSave (r : result unit) | OpCancel | OpOpen (path : str) (r : result bytes)
| OpSaveAs (path : str) (r : result unit) | OpReload (r : result str).

Definition save_with (r : result unit) : M EditorView unit :=
  let! q := save_request exn_text in
  match q with Some (path, data) => save_finish exn_text path data r | None => ret tt end.
Definition load_with (r : result bytes) : M EditorView unit :=
  let! q := load_request in match q with Some path => load_finish exn_text path r | None => ret tt end.
Definition run_op (op : ed_op) : M EditorView unit :=
  match op with
  | OpEvent ev => let! _ := on_event isalnum ev in ret tt
  | OpSave r => save_with r
  | OpCancel => cancel_edits
  | OpOpen path r => chosen_open path ;;; load_with r ;;; redraw
  | OpSaveAs path r => chosen_save_as path ;;; save_with r
  | OpReload r => let! q := reload_request in match q with Some text => reload_finish exn_text text r | None => ret tt end
  end.
Definition op_ok (op : ed_op) : Prop := match op with OpOpen _ (Ok data) => bytes_ok data | _ => True end.

Lemma safe_refresh_title : safe _refresh_title.
Proof. by apply safe_modify. Qed.
Lemma text_chars s : ed_inv s -> Forall py_char (_buffer_text s).
Proof.
  intros [[Hn _] _]. unfold _buffer_text. induction (e_lines s) as [|l ls IH]; [constructor|]. apply list.Forall_cons in Hn as [Hl Hn].
  assert (Hc : Forall py_char l) by (eapply list.Forall_impl; [exact Hl|]; by intros c []).
  destruct ls as [|m ls]; [done|]. rewrite join_cons by done. apply Forall_app. split; [done|]. apply Forall_app. split; [|by apply IH].
  repeat constructor; unfold newline; lia.
Qed.
Lemma save_note_ok path (data : bytes) : safe (say (lit "saved " ++ path ++ lit " (" ++ str_of_int (len data) ++ lit " bytes)") ;;; _refresh_title).
Proof. apply safe_bind; [apply safe_say|intros; apply safe_refresh_title]. Qed.

(** Marking the buffer's own text as saved. *)
Lemma mark_saved s t : ed_inv s -> t = _buffer_text s -> ed_inv (set_saved t (set_dirty false s)).
Proof.
  intros I ->. pose proof (text_chars s I) as Hc. destruct I as [Hv [_ [_ Hi]]]. split_and!; [exact Hv|done|]. by split.
Qed.

Lemma save_finish_ok s path data r : ed_inv s -> encode (_buffer_text s) = Ok data -> ok_at (save_finish exn_text path data r) s.
Proof.
  intros I He. unfold save_finish. apply ok_at_bind; [|intros; apply safe_redraw]. destruct r as [[]|e]; [|by apply safe_say].
  pose proof (mark_saved s _ I (encode_decode _ _ (text_chars s I) He)) as I1. by apply (save_note_ok path data).
Qed.
Lemma safe_save r : safe (save_with r).
Proof.
  intros s I.
  assert (Hask : ok_at (prompt_save_as ;;; ret tt) s) by (by apply safe_bind; [apply safe_spawn|intros; apply edwin_safe_ret|]).
  assert (Hfail : forall m, ok_at (say m ;;; redraw) s) by (intros m; by apply safe_bind; [apply safe_say|intros; apply safe_redraw|]).
  unfold ok_at, save_with, save_request, bind, get. destruct (e_path s) as [[|c p]|]; [exact Hask| |exact Hask].
  destruct (encode (_buffer_text s)) as [data|e] eqn:He; [by apply save_finish_ok|apply (Hfail (lit "save failed: " ++ exn_text e))].
Qed.

Lemma load_ok s r : ed_inv s -> e_cy s = 0 -> e_cx s = 0 -> match r with Ok data => bytes_ok data | _ => True end ->
  ok_at (load_with r) s.
Proof.
  intros I Hy Hx Hr. unfold ok_at, load_with, load_request, bind, get. pose proof I as [_ [_ Ht]].
  destruct (e_path s) as [[|c p]|]; [by apply (safe_say (lit "(new file)"))| |by apply (safe_say (lit "(new file)"))].
  assert (Hfill : forall t m, Forall py_char t -> ok_at (modify (fun s => set_saved t (set_lines (split newline t) s)) ;;; say m) s).
  { intros t m Htc. apply ok_at_bind; [|intros; apply safe_say]. exists tt. eexists. split; [done|].
    apply (filled_ok _ t); try done. by split; [|apply Ht]. }
  destruct r as [data|e]; [cbn; rewrite load_text_split; by apply Hfill, decode_chars|].
  destruct e; try (by apply safe_say). cbn. unfold bind at 1, get. cbn. destruct (e_initial s) as [t|] eqn:Ei; [|by apply safe_say].
  apply Hfill. destruct Ht as [_ Ht]. by rewrite Ei in Ht.
Qed.

Lemma safe_run_op op : op_ok op -> safe (run_op op).
Proof.
  intros Hop s I. destruct op as [ev|r| |path r|path r|r]; cbn [run_op].
  - by apply safe_bind; [apply safe_on_event|intros; apply edwin_safe_ret|].
  - by apply safe_save.
  - apply ok_at_bind; [|intros; apply safe_redraw]. exists tt. eexists. split; [done|]. destruct I as [_ [_ [Hs Hi]]].
    apply (filled_ok _ (e_saved s)); try done.
  - assert (I0 : ed_inv (set_scroll 0 (set_cursor 0 0 (set_path (Some path) s)))).
    { apply (ed_inv_core (set_cursor 0 0 s)); [done|]. pose proof I as [Hv _]. apply view_line in Hv as (line & _ & Hy & _).
      destruct (cursor_row s 0 I) as (l & Hl & Hn); [lia|]. eapply cursor_ok; [done|lia|done|lia]. }
    unfold chosen_open. set (s1 := set_scroll 0 (set_cursor 0 0 (set_path (Some path) s))) in *.
    unfold ok_at. rewrite (bind_step _ _ s tt (set_win (lit "Editor: " ++ no_file (e_path s1)) (e_win_dirty s1) s1)) by done.
    apply ok_at_bind; [|intros; apply safe_redraw]. apply load_ok; [by apply (ed_inv_core s1)|done|done|by destruct r].
  - apply ok_at_bind; [|intros; apply safe_save]. apply ok_then; [done|done|apply safe_refresh_title].
  - assert (Hno : ok_at (say (lit "reload is unavailable for this buffer") ;;; ret tt) s)
      by (by apply safe_bind; [apply safe_say|intros; apply edwin_safe_ret|]).
    unfold ok_at, reload_request, bind, get. destruct (e_can_reload s); [|exact Hno]. cbn. unfold reload_finish.
    apply ok_at_bind; [|intros; apply safe_redraw]. destruct r as [m|e]; [|by apply safe_say].
    apply ok_at_bind; [|intros; apply safe_refresh_title]. exists tt. eexists. split; [done|].
    apply (ed_inv_core (set_saved (_buffer_text s) (set_dirty false s))); [done|]. by apply mark_saved.
Qed.

Fixpoint run_ops (ops : list ed_op) : M EditorView unit :=
  match ops with [] => ret tt | op :: ops => run_op op ;;; run_ops ops end.

End life.
