(* ===== verification/EdwinGap.v ===== *)
(** * The screen editor's keys as commands on one text

    The buffer of lines with its cursor is a text cut in two at the point, and
    the keys of [on_event] act on that.  The motions are specified by searches
    in the text: the first or last position with a property of the characters
    around it.  Then runs of the editor where a coroutine that awaits the
    filesystem meets keys typed meanwhile. *)

From Stdlib Require Import ZArith Lia.
From stdpp Require Import base list numbers strings.
From S2P Require Import Prelude Bytes Pystr Dict Input InputProps Edwin EdwinProps.

Local Open Scope Z_scope.

Implicit Types (s : EditorView) (g : gap).

(** ** Searches *)

(** The element at [i] has the property; no element does outside the list. *)
Definition has_at {A} (p : A -> bool) (t : list A) (i : Z) : bool :=
  match (if i <? 0 then None else t !! Z.to_nat i) with Some c => p c | None => false end.
(** The first position of [i, n) with [P], or [n]. *)
Definition first_from (P : Z -> bool) (i n : Z) : Z := match List.find P (range2 i n) with Some j => j | None => n end.
(** The last position below [n] with [P], or 0; and the position after it. *)
Definition last_before (P : Z -> bool) (n : Z) : Z := match List.find P (rev (range2 0 n)) with Some j => j | None => 0 end.
Definition past_last (P : Z -> bool) (n : Z) : Z := match List.find P (rev (range2 0 n)) with Some j => j + 1 | None => 0 end.

(** ** The specification *)

Inductive motion : Type :=
| MLeft | MRight | MUp | MDown | MPageUp | MPageDown | MHome | MEnd | MIndentation
| MWordForward | MWordBackward | MSentenceForward | MSentenceBackward | MParagraphForward | MParagraphBackward
| MStart | MFinish.
Inductive ecmd : Type :=
| EInsert (c : Z) | ETab | EEnter | EBackspace | EDelete | EKill | EMove (m : motion).

Definition cut (p : Z) (g : gap) : gap := let t := fst g ++ snd g in (take (Z.to_nat p) t, drop (Z.to_nat p) t).

Definition is_nl (c : Z) : bool := c =? newline.
Definition not_space (c : Z) : bool := negb (is_space c).
Definition ender (c : Z) : bool := existsb (Z.eqb c) (lit ".!?").

(** The line a position is in. *)
Definition line_start (t : str) (p : Z) : Z := past_last (has_at is_nl t) p.
Definition line_end (t : str) (p : Z) : Z := first_from (has_at is_nl t) p (len t).

(** Rows are the lines counted from 0. *)
Definition row_of (t : str) (p : Z) : Z := len (List.filter is_nl (take (Z.to_nat p) t)).
Definition last_row (t : str) : Z := len (List.filter is_nl t).
Fixpoint row_start (t : str) (row : nat) : Z :=
  match t, row with
  | c :: t', S r => 1 + row_start t' (if is_nl c then r else row)
  | _, _ => 0
  end.
Definition row_place (t : str) (row column : Z) : Z :=
  let start := row_start t (Z.to_nat row) in Z.min (start + column) (line_end t start).
Definition blank_row (t : str) (row : Z) : bool :=
  let start := row_start t (Z.to_nat row) in
  first_from (has_at not_space t) start (line_end t start) =? line_end t start.

(** The same column some rows away, or the end of a shorter line. *)
Definition vertical (n : Z) (t : str) (p : Z) : Z :=
  row_place t (Z.max 0 (Z.min (last_row t) (row_of t p + n))) (p - line_start t p).

Section spec.
Context (isalnum : Z -> bool) (page : Z).
Definition word (c : Z) : bool := isalnum c || (c =? 95).
Definition word_end (t : str) (q : Z) : bool := has_at word t (q - 1) && negb (has_at word t q).
Definition word_start (t : str) (q : Z) : bool := has_at word t q && negb (has_at word t (q - 1)).

(** Where a motion takes the point. *)
Definition target (m : motion) (t : str) (p : Z) : Z :=
  match m with
  | MLeft => Z.max 0 (p - 1)
  | MRight => Z.min (len t) (p + 1)
  | MUp => vertical (-1) t p
  | MDown => vertical 1 t p
  | MPageUp => vertical (- page) t p
  | MPageDown => vertical page t p
  | MHome => line_start t p
  | MEnd => line_end t p
  | MIndentation => first_from (has_at not_space t) (line_start t p) (line_end t p)
  | MWordForward => first_from (word_end t) (p + 1) (len t)
  | MWordBackward => last_before (word_start t) p
  | MSentenceForward => first_from (has_at not_space t) (first_from (has_at ender t) p (len t) + 1) (len t)
  | MSentenceBackward =>
      first_from (has_at not_space t) (past_last (has_at ender t) (past_last (has_at not_space t) p)) (len t)
  | MParagraphForward =>
      let n := last_row t + 1 in
      let row := first_from (fun r => negb (blank_row t r)) (first_from (blank_row t) (row_of t p) n) n in
      if row =? n then len t else row_place t row 0
  | MParagraphBackward =>
      let row := if p =? line_start t p then Z.max 0 (row_of t p - 1) else row_of t p in
      row_place t (past_last (blank_row t) (last_before (fun r => negb (blank_row t r)) (row + 1))) 0
  | MStart => 0
  | MFinish => len t
  end.

Definition spec_cmd (k : ecmd) (g : gap) : gap :=
  let '(L, R) := g in
  match k with
  | EInsert c => (L ++ [c], R)
  | ETab => (L ++ [9], R)
  | EEnter => (L ++ [newline], R)
  | EBackspace => (removelast L, R)
  | EDelete => (L, drop 1 R)
  | EKill => (L, drop (Z.to_nat (Z.max 1 (line_end (L ++ R) (len L) - len L))) R)
  | EMove m => cut (target m (L ++ R) (len L)) g
  end.

(** The keys bound to it. *)
Definition key (code : Z) (text : str) (mods : Z) : Event := plain_event EVENT_KEY_DOWN code text mods 0 0 0 0.
Definition ctrl (c : Z) : Event := key c [c] MOD_CTRL.
Definition meta (c : Z) : list Event := [key c [c] MOD_ALT; key c [c] MOD_META].
Definition meta_shift (c : Z) (text : str) : list Event := [key c text (Z.lor MOD_ALT MOD_SHIFT); key c text (Z.lor MOD_META MOD_SHIFT)].
Definition keys_of_motion (m : motion) : list Event :=
  match m with
  | MLeft => [key KEY_LEFT [] 0; ctrl 98]
  | MRight => [key KEY_RIGHT [] 0; ctrl 102]
  | MUp => [key KEY_UP [] 0; ctrl 112]
  | MDown => [key KEY_DOWN [] 0; ctrl 110]
  | MPageUp => key KEY_PAGE_UP [] 0 :: meta 118
  | MPageDown => [key KEY_PAGE_DOWN [] 0; ctrl 118]
  | MHome => [key KEY_HOME [] 0; ctrl 97]
  | MEnd => [key KEY_END [] 0; ctrl 101]
  | MIndentation => meta 109
  | MWordForward => meta 102
  | MWordBackward => meta 98
  | MSentenceForward => meta 101
  | MSentenceBackward => meta 97
  | MParagraphForward => meta_shift 93 (lit "}")
  | MParagraphBackward => meta_shift 91 (lit "{")
  | MStart => meta_shift 44 (lit "<")
  | MFinish => meta_shift 46 (lit ">")
  end.
Definition keys_of (k : ecmd) : list Event :=
  match k with
  | EInsert c => [key c [c] 0; key c [c] MOD_SHIFT]
  | ETab => [key KEY_TAB [9] 0]
  | EEnter => [key KEY_ENTER [10] 0]
  | EBackspace => [key KEY_BACKSPACE [] 0]
  | EDelete => [key KEY_DELETE [] 0; ctrl 100]
  | EKill => [ctrl 107]
  | EMove m => keys_of_motion m
  end.
(** A key of the command; characters are the printable ones. *)
Definition bound (k : ecmd) (ev : Event) : Prop := In ev (keys_of k) /\ match k with EInsert c => printable c = true | _ => True end.
End spec.

(** ** Facts on searches *)

Lemma find_app (P : Z -> bool) l1 l2 : List.find P (l1 ++ l2) = match List.find P l1 with Some x => Some x | None => List.find P l2 end.
Proof. induction l1 as [|x l1 IH]; [done|]. cbn. by destruct (P x). Qed.
Lemma first_from_eq P i n r : i <= r <= n -> (forall j, i <= j < r -> P j = false) -> (r < n -> P r = true) -> first_from P i n = r.
Proof.
  intros Hr Hn Hy. unfold first_from. rewrite (range2_app i r n) by lia. rewrite find_app.
  destruct (List.find P (range2 i r)) as [j|] eqn:E.
  - apply find_some in E as [Hj Pj]. apply list_elem_of_In, elem_of_range2 in Hj. rewrite Hn in Pj by lia. done.
  - destruct (decide (r < n)); [rewrite range2_cons by lia; cbn; by rewrite Hy|]. rewrite range2_nil by lia. cbn. lia.
Qed.
Lemma first_from_end P i n : n <= i -> first_from P i n = n.
Proof. intros Hi. unfold first_from. by rewrite range2_nil. Qed.

Lemma find_below P r n : 0 <= r < n -> (forall j, r < j < n -> P j = false) -> P r = true -> List.find P (rev (range2 0 n)) = Some r.
Proof.
  intros Hr Hn Hy. rewrite (range2_app 0 (r + 1) n), rev_app_distr, find_app by lia.
  destruct (List.find P (rev (range2 (r + 1) n))) as [j|] eqn:E.
  - apply find_some in E as [Hj Pj]. apply in_rev, list_elem_of_In, elem_of_range2 in Hj. rewrite Hn in Pj by lia. done.
  - rewrite range2_snoc, rev_app_distr by lia. cbn. by rewrite Hy.
Qed.
Lemma find_none_below P n : (forall j, 0 <= j < n -> P j = false) -> List.find P (rev (range2 0 n)) = None.
Proof.
  intros Hn. destruct (List.find P (rev (range2 0 n))) as [j|] eqn:E; [|done].
  apply find_some in E as [Hj Pj]. apply in_rev, list_elem_of_In, elem_of_range2 in Hj. by rewrite Hn in Pj.
Qed.
Lemma past_last_eq P n r : 0 <= r <= n -> (forall j, r <= j < n -> P j = false) -> (0 < r -> P (r - 1) = true) -> past_last P n = r.
Proof.
  intros Hr Hn Hy. unfold past_last. destruct (decide (r = 0)) as [->|Hne]; [by rewrite find_none_below|].
  rewrite (find_below P (r - 1)); [lia|lia|intros j Hj; apply Hn; lia|apply Hy; lia].
Qed.
Lemma last_before_eq P n r : 0 <= r -> (forall j, r < j < n -> P j = false) -> (0 < r -> r < n /\ P r = true) -> last_before P n = r.
Proof.
  intros Hr Hn Hy. unfold last_before. destruct (decide (r = 0)) as [->|Hne].
  - destruct (List.find P (rev (range2 0 n))) as [j|] eqn:E; [|done].
    apply find_some in E as [Hj Pj]. apply in_rev, list_elem_of_In, elem_of_range2 in Hj.
    destruct (decide (j = 0)) as [->|]; [done|]. rewrite Hn in Pj by lia. done.
  - destruct Hy as [Hrn Hp]; [lia|]. by rewrite (find_below P r).
Qed.
Lemma first_from_ext P Q i n : 0 <= i -> (forall j, 0 <= j < n -> P j = Q j) -> first_from P i n = first_from Q i n.
Proof.
  intros Hi E. unfold first_from. assert (H : forall l, (forall j, In j l -> P j = Q j) -> List.find P l = List.find Q l).
  { induction l as [|x l IH]; [done|]. intros Hl. cbn. rewrite (Hl x) by (by left). case_match; [done|]. apply IH. intros j Hj. apply Hl. by right. }
  rewrite H; [done|]. intros j Hj. apply list_elem_of_In, elem_of_range2 in Hj. apply E. lia.
Qed.

Section at_list.
Context {A : Type}.
Implicit Types (p : A -> bool) (t : list A).

Lemma has_at_out p t i : i < 0 \/ len t <= i -> has_at p t i = false.
Proof.
  intros Hi. unfold has_at. destruct (Z.ltb_spec i 0); [done|]. rewrite lookup_ge_None_2; [done|]. unfold len in Hi. lia.
Qed.
Lemma has_at_neg p t i : 0 <= i < len t -> has_at (fun c => negb (p c)) t i = negb (has_at p t i).
Proof.
  intros Hi. unfold has_at, len in *. destruct (Z.ltb_spec i 0); [lia|].
  destruct (lookup_lt_is_Some_2 t (Z.to_nat i)) as [c ->]; [lia|done].
Qed.
Lemma has_at_app p x t y i : 0 <= i < len t -> has_at p (x ++ t ++ y) (len x + i) = has_at p t i.
Proof.
  intros Hi. unfold has_at, len in *. destruct (Z.ltb_spec i 0), (Z.ltb_spec (Z.of_nat (length x) + i) 0); try lia.
  rewrite lookup_app_r by lia. replace (Z.to_nat (Z.of_nat (length x) + i) - length x)%nat with (Z.to_nat i) by lia.
  by rewrite lookup_app_l by lia.
Qed.
Lemma has_at_mid p x c y : has_at p (x ++ c :: y) (len x) = p c.
Proof. rewrite <- (Z.add_0_r (len x)). by apply (has_at_app p x [c] y 0). Qed.
Lemma has_at_all p t i : Forall (fun c => p c = false) t -> has_at p t i = false.
Proof.
  intros Hf. unfold has_at. destruct (if i <? 0 then None else t !! Z.to_nat i) as [c|] eqn:E; [|done].
  destruct (i <? 0); [done|]. by apply (Forall_lookup_1 _ _ _ _ Hf E).
Qed.
Lemma has_at_drop p t k i : 0 <= i -> has_at p (drop k t) i = has_at p t (Z.of_nat k + i).
Proof.
  intros Hi. unfold has_at. destruct (Z.ltb_spec i 0), (Z.ltb_spec (Z.of_nat k + i) 0); try lia.
  rewrite lookup_drop. by replace (k + Z.to_nat i)%nat with (Z.to_nat (Z.of_nat k + i)) by lia.
Qed.
Lemma has_at_rev_take p t (n : nat) i : 0 <= i < Z.of_nat n -> (n <= length t)%nat -> has_at p (rev (take n t)) i = has_at p t (Z.of_nat n - 1 - i).
Proof.
  intros Hi Hn. unfold has_at. destruct (Z.ltb_spec i 0), (Z.ltb_spec (Z.of_nat n - 1 - i) 0); try lia.
  rewrite rev_alt. change (rev_append (take n t) []) with (reverse (take n t)). rewrite reverse_lookup by (rewrite length_take; lia). rewrite length_take, lookup_take_lt by lia.
  by replace (n `min` length t - S (Z.to_nat i))%nat with (Z.to_nat (Z.of_nat n - 1 - i)) by lia.
Qed.

Lemma run_of_spec p t : (forall i, 0 <= i < run_of p t -> has_at p t i = true) /\ has_at p t (run_of p t) = false.
Proof.
  induction t as [|c t [IH1 IH2]]; [split; [cbn; lia|done]|]. cbn [run_of]. pose proof (run_of_bounds p t) as Hb.
  assert (Hs : forall i, 0 <= i -> has_at p (c :: t) (1 + i) = has_at p t i).
  { intros i Hi. symmetry. exact (has_at_drop p (c :: t) 1 i Hi). }
  assert (H0 : has_at p (c :: t) 0 = p c) by done.
  destruct (p c) eqn:Ec; [|split; [lia|done]]. split; [|by rewrite Hs by lia].
  intros i Hi. destruct (decide (i = 0)) as [->|]; [done|]. replace i with (1 + (i - 1)) by lia. rewrite Hs by lia. apply IH1. lia.
Qed.
Lemma skip_spec p t pos : 0 <= pos <= len t -> let r := skip p t pos in
  pos <= r <= len t /\ (forall j, pos <= j < r -> has_at p t j = true) /\ has_at p t r = false.
Proof.
  intros Hp. cbv zeta. pose proof (skip_bounds p t pos Hp) as Hb. destruct (run_of_spec p (drop (Z.to_nat pos) t)) as [H1 H2].
  unfold skip in *. set (n := run_of p (drop (Z.to_nat pos) t)) in *. split; [done|]. split.
  - intros j Hj. specialize (H1 (j - pos) ltac:(lia)). rewrite has_at_drop in H1 by lia. by replace (Z.of_nat (Z.to_nat pos) + (j - pos)) with j in H1 by lia.
  - rewrite has_at_drop in H2 by lia. by replace (Z.of_nat (Z.to_nat pos) + n) with (pos + n) in H2 by lia.
Qed.
Lemma skip_back_spec p t pos : 0 <= pos <= len t -> let r := skip_back p t pos in
  0 <= r <= pos /\ (forall j, r <= j < pos -> has_at p t j = true) /\ (0 < r -> has_at p t (r - 1) = false).
Proof.
  intros Hp. cbv zeta. pose proof (skip_back_bounds p t pos ltac:(lia)) as Hb. destruct (run_of_spec p (rev (take (Z.to_nat pos) t))) as [H1 H2].
  unfold skip_back in *. set (n := run_of p (rev (take (Z.to_nat pos) t))) in *. unfold len in Hp. split; [done|]. split.
  - intros j Hj. specialize (H1 (pos - 1 - j) ltac:(lia)). rewrite has_at_rev_take in H1 by lia.
    by replace (Z.of_nat (Z.to_nat pos) - 1 - (pos - 1 - j)) with j in H1 by lia.
  - intros Hr. rewrite has_at_rev_take in H2 by lia. by replace (Z.of_nat (Z.to_nat pos) - 1 - n) with (pos - n - 1) in H2 by lia.
Qed.
(** The loops of the motions are such searches. *)
Lemma skip_first p t pos Q : 0 <= pos <= len t -> (forall j, 0 <= j < len t -> Q j = negb (has_at p t j)) -> skip p t pos = first_from Q pos (len t).
Proof.
  intros Hp HQ. destruct (skip_spec p t pos Hp) as (Hb & H1 & H2). symmetry. apply first_from_eq; [done| |].
  - intros j Hj. rewrite HQ, H1 by lia. done.
  - intros Hr. rewrite HQ, H2 by lia. done.
Qed.
Lemma skip_back_last p t pos Q : 0 <= pos <= len t -> (forall j, 0 <= j < len t -> Q j = negb (has_at p t j)) -> skip_back p t pos = past_last Q pos.
Proof.
  intros Hp HQ. destruct (skip_back_spec p t pos Hp) as (Hb & H1 & H2). symmetry. apply past_last_eq; [done| |].
  - intros j Hj. rewrite HQ, H1 by lia. done.
  - intros Hr. rewrite HQ, H2 by lia. done.
Qed.
End at_list.

(** ** The lines of the text *)

Lemma has_nl_line (l : str) i : Forall line_char l -> has_at is_nl l i = false.
Proof. intros Hl. apply has_at_all. eapply Forall_impl; [exact Hl|]. intros c [Hc _]. unfold is_nl. lia. Qed.
Lemma no_breaks (l : str) : Forall line_char l -> List.filter is_nl l = [].
Proof. induction 1 as [|c l [Hc _] Hl IH]; [done|]. cbn. unfold is_nl at 1. by replace (c =? newline) with false by lia. Qed.
Lemma breaks_unl ls : Forall line_ok ls -> len (List.filter is_nl (unl ls)) = len ls.
Proof.
  induction 1 as [|l ls Hl Hls IH]; [done|]. rewrite unl_cons, List.filter_app, no_breaks by done. cbn [app List.filter is_nl].
  change (is_nl newline) with true. cbn iota. rewrite !len_cons, IH. done.
Qed.
Lemma breaks_nll ls : Forall line_ok ls -> len (List.filter is_nl (nll ls)) = len ls.
Proof.
  induction 1 as [|l ls Hl Hls IH]; [done|]. rewrite nll_cons. cbn [List.filter]. change (is_nl newline) with true. cbn iota.
  rewrite List.filter_app, no_breaks by done. cbn [app]. rewrite !len_cons, IH. done.
Qed.

Section text.
Context (pre post : list str) (l : str).
Context (Hok : Forall line_ok (pre ++ l :: post)).
Let t : str := unl pre ++ l ++ nll post.

Lemma line_parts : Forall line_ok pre /\ Forall line_char l /\ Forall line_ok post.
Proof using Hok. apply Forall_app in Hok as [H1 H2]. apply list.Forall_cons in H2 as [H2 H3]. done. Qed.

Lemma len_text : len t = len (unl pre) + len l + len (nll post).
Proof using. unfold t. rewrite !len_app. lia. Qed.

Lemma line_start_mid i : 0 <= i <= len l -> line_start t (len (unl pre) + i) = len (unl pre).
Proof using Hok.
  intros Hi. destruct line_parts as (Hp & Hl & _). pose proof (len_nonneg (unl pre)). apply past_last_eq; [lia| |].
  - intros j Hj. replace j with (len (unl pre) + (j - len (unl pre))) by lia. unfold t. rewrite has_at_app by lia. by apply has_nl_line.
  - intros H0. unfold t. clear - H0. destruct pre as [|m ms _] using rev_ind; [by change (len (unl [])) with 0 in H0|]. rewrite unl_snoc, len_app, len_cons, len_nil.
    replace (len (unl ms ++ m) + (1 + 0) - 1) with (len (unl ms ++ m)) by lia. rewrite <- app_assoc. cbn [app]. by rewrite has_at_mid.
Qed.
Lemma line_end_mid i : 0 <= i <= len l -> line_end t (len (unl pre) + i) = len (unl pre) + len l.
Proof using Hok.
  intros Hi. destruct line_parts as (_ & Hl & _). pose proof len_text as Ht. pose proof (len_nonneg (nll post)). apply first_from_eq; [lia| |].
  - intros j Hj. replace j with (len (unl pre) + (j - len (unl pre))) by lia. unfold t. rewrite has_at_app by lia. by apply has_nl_line.
  - intros Hlt. rewrite Ht in Hlt. unfold t. clear - Hlt. destruct post as [|m ms]; [change (len (nll [])) with 0 in Hlt; lia|]. rewrite nll_cons, app_assoc, <- len_app. by rewrite has_at_mid.
Qed.
Lemma row_of_mid i : 0 <= i <= len l -> row_of t (len (unl pre) + i) = len pre.
Proof using Hok.
  intros Hi. destruct line_parts as (Hp & Hl & _). pose proof (len_nonneg (unl pre)). unfold row_of, t. rewrite take_app.
  rewrite (take_ge (unl pre)) by (unfold len in *; lia). rewrite take_app_le by (unfold len in *; lia).
  rewrite List.filter_app, len_app, breaks_unl by done. rewrite no_breaks by (by apply Forall_take). change (len []) with 0. lia.
Qed.
Lemma last_row_mid : last_row t = len pre + len post.
Proof using Hok.
  destruct line_parts as (Hp & Hl & Hq). unfold last_row, t. rewrite !List.filter_app, !len_app, (no_breaks l) by done.
  rewrite breaks_unl, breaks_nll by done. change (len []) with 0. lia.
Qed.
Lemma row_start_mid : row_start t (length pre) = len (unl pre).
Proof using Hok.
  destruct line_parts as (Hp & _). unfold t. clear t. generalize (l ++ nll post) as u. clear Hok. intros u. induction Hp as [|m ms Hm Hms IH].
  { by destruct u. }
  rewrite unl_cons, <- app_assoc. cbn [app length]. rewrite len_app, len_cons. induction Hm as [|c m [Hc _] Hm IHm].
  - cbn [app row_start]. change (is_nl newline) with true. cbn iota. rewrite IH. change (len []) with 0. lia.
  - cbn [app row_start]. unfold is_nl at 1. replace (c =? newline) with false by lia. rewrite IHm, len_cons. lia.
Qed.

Lemma row_place_mid c : 0 <= c -> row_place t (len pre) c = len (unl pre) + Z.min c (len l).
Proof using Hok.
  intros Hc. unfold row_place. cbv zeta. replace (Z.to_nat (len pre)) with (length pre) by (unfold len; lia). rewrite row_start_mid.
  pose proof (line_end_mid 0) as He. rewrite Z.add_0_r in He. pose proof (len_nonneg l). rewrite He by lia. lia.
Qed.

Lemma first_not_space i : 0 <= i <= len l ->
  first_from (has_at not_space t) (len (unl pre) + i) (len (unl pre) + len l) = len (unl pre) + skip is_space l i.
Proof using Hok.
  intros Hi. destruct (skip_spec is_space l i Hi) as (Hb & H1 & H2). apply first_from_eq; [lia| |].
  - intros j Hj. replace j with (len (unl pre) + (j - len (unl pre))) by lia. unfold t. rewrite has_at_app by lia.
    unfold not_space. rewrite has_at_neg, H1 by lia. done.
  - intros Hr. unfold t. rewrite has_at_app by lia. unfold not_space. by rewrite has_at_neg, H2 by lia.
Qed.
Lemma lstrip_run p (u : str) : len u - len (lstrip p u) = run_of p u.
Proof using. induction u as [|c u IH]; [done|]. cbn. destruct (p c); [rewrite len_cons|]; lia. Qed.
Lemma blank_run (u : str) : blank u = (run_of is_space u =? len u).
Proof using.
  unfold blank, strip, rstrip. assert (Hn : forall p (v : str), lstrip p v = [] <-> run_of p v = len v).
  { intros p v. pose proof (lstrip_run p v). split; [intros E; rewrite E in *; change (len []) with 0 in *; lia|].
    intros E. destruct (lstrip p v) as [|c w]; [done|]. rewrite len_cons in *. pose proof (len_nonneg w). lia. }
  destruct (Z.eqb_spec (run_of is_space u) (len u)) as [E|E].
  - apply Hn in E. by rewrite E.
  - destruct (lstrip is_space u) as [|c w] eqn:Ew; [by apply Hn in Ew|]. destruct (beq_spec (rev (lstrip is_space (rev (c :: w)))) []) as [F|F]; [|done].
    exfalso. apply (f_equal (@rev Z)) in F. rewrite rev_involutive in F. cbn [rev] in F. assert (Hc : is_space c = false).
    { clear - Ew. induction u as [|d u IH]; [done|]. cbn in Ew. destruct (is_space d) eqn:Ed; [auto|by injection Ew as <- _]. }
    apply Hn in F. assert (Hin : has_at is_space (rev w ++ [c]) (len (rev w)) = true).
    { apply (proj1 (run_of_spec is_space (rev w ++ [c]))). rewrite F, len_app. change (len [c]) with 1. pose proof (len_nonneg (rev w)). lia. }
    rewrite has_at_mid in Hin. congruence.
Qed.
Lemma blank_row_mid : blank_row t (len pre) = blank l.
Proof using Hok.
  unfold blank_row. cbv zeta. replace (Z.to_nat (len pre)) with (length pre) by (unfold len; lia). rewrite row_start_mid.
  pose proof (line_end_mid 0) as He. rewrite Z.add_0_r in He. pose proof (len_nonneg l). rewrite He by lia.
  pose proof (first_not_space 0) as Hf. rewrite Z.add_0_r in Hf. rewrite Hf by lia. rewrite blank_run. unfold skip.
  change (drop (Z.to_nat 0) l) with l. destruct (Z.eqb_spec (run_of is_space l) (len l)); destruct (Z.eqb_spec (len (unl pre) + (0 + run_of is_space l)) (len (unl pre) + len l)); done || lia.
Qed.
End text.

(** The rows of a buffer. *)
Lemma has_row (ls : list str) row : Forall line_ok ls -> 0 <= row < len ls -> blank_row (join [newline] ls) row = has_at blank ls row.
Proof.
  intros Hok Hr. destruct (index_total ls row Hr) as [l Hi]. destruct (index_cut ls row l ltac:(lia) Hi) as (pre & post & -> & <-).
  rewrite join_zip, has_at_mid. by apply blank_row_mid.
Qed.
(** ** The operations on the gap *)

(** What no command changes. *)
Definition modes s := (e_prompt_mode s, e_ctrl_x s, e_rows s).
Definition acts {A} (m : M EditorView A) (f : gap -> gap) : Prop := forall s, ed_inv s ->
  exists x s', m s = (Ok x, s') /\ gap_of s' = f (gap_of s) /\ modes s' = modes s.

Lemma acts_ret {A} (x : A) : acts (ret x) (fun g => g).
Proof. intros s I. by exists x, s. Qed.
Lemma acts_then {A B} (m : M EditorView A) (n : A -> M EditorView B) f : safe m -> acts m f -> (forall x, acts (n x) (fun g => g)) -> acts (bind m n) f.
Proof.
  intros Hs Hm Hn s I. destruct (Hm s I) as (x & s1 & E & G & Md). destruct (Hs s I) as (x' & s1' & E' & I1).
  rewrite E in E'. injection E' as <- <-. destruct (Hn x s1 I1) as (y & s2 & E2 & G2 & M2).
  exists y, s2. rewrite (bind_step _ _ _ _ _ E). split_and!; [done|congruence|congruence].
Qed.
Lemma acts_modify (h : EditorView -> EditorView) : (forall s, gap_of (h s) = gap_of s /\ modes (h s) = modes s) -> acts (modify h) (fun g => g).
Proof. intros Hh s I. exists tt, (h s). split; [done|]. apply Hh. Qed.

Lemma zip_of s : ed_inv s -> exists pre a b post, zip s pre a b post /\ Forall line_ok (pre ++ (a ++ b) :: post).
Proof. intros [[Hn (pre & a & b & post & Hz)] _]. exists pre, a, b, post. split; [done|]. pose proof Hz as (Hl & _). by rewrite <- Hl. Qed.

(** Cursor moves: where it ends decides. *)
Lemma moved_gap s pre a b post p : e_lines s = pre ++ (a ++ b) :: post -> len (unl pre ++ a) = p ->
  gap_of (moved_to pre a s) = cut p (gap_of s).
Proof.
  intros Hl Hp. pose proof (zip_moved s pre a b post Hl) as Hz. unfold cut. rewrite gap_text. unfold gap_of at 1.
  rewrite (zip_offset _ _ _ _ _ Hz), Hp. done.
Qed.

Lemma gap_offset s : ed_inv s -> _cursor_offset s = len (fst (gap_of s)).
Proof.
  intros I. destruct (zip_of s I) as (pre & a & b & post & Hz & _). by rewrite (zip_gap _ _ _ _ _ Hz), (zip_offset _ _ _ _ _ Hz).
Qed.

(** ** Motions on the gap *)

Ltac at_place I := let Hz := fresh "Hz" in
  destruct (zip_of _ I) as (pre & a & b & post & Hz & Hok); pose proof (zip_gap _ _ _ _ _ Hz) as Hg; pose proof Hz as (Hl & Hy & Hx).

Definition moves {A} (m : M EditorView A) (f : str -> Z -> Z) : Prop := acts m (fun g => cut (f (fst g ++ snd g) (len (fst g))) g).

(** A motion goes to a place of the buffer. *)
Lemma moves_intro {A} (m : M EditorView A) (f : str -> Z -> Z) :
  (forall s pre a b post, zip s pre a b post -> Forall line_ok (pre ++ (a ++ b) :: post) ->
     let t := unl pre ++ (a ++ b) ++ nll post in
     exists x pre' a' b' post', pre ++ (a ++ b) :: post = pre' ++ (a' ++ b') :: post' /\ m s = (Ok x, moved_to pre' a' s) /\
       f t (len (unl pre) + len a) = len (unl pre') + len a') -> moves m f.
Proof.
  intros H s I. at_place I. destruct (H s pre a b post Hz Hok) as (x & pre' & a' & b' & post' & E & Em & Ef).
  exists x, (moved_to pre' a' s). split_and!; [done| |done]. apply (moved_gap s pre' a' b' post'); [by rewrite Hl|].
  rewrite Hg. cbn [fst snd]. rewrite !len_app, <- Ef, <- !app_assoc. done.
Qed.

Lemma moves_ext {A} (m : M EditorView A) f f' : (forall t p, 0 <= p <= len t -> f t p = f' t p) -> moves m f -> moves m f'.
Proof.
  intros Hf Hm s I. destruct (Hm s I) as (x & s' & E & G & Md). exists x, s'. rewrite Hf in G; [done|].
  rewrite len_app. pose proof (len_nonneg (fst (gap_of s))). pose proof (len_nonneg (snd (gap_of s))). lia.
Qed.

Lemma moves_offset (f : str -> Z -> Z) : (forall t p, 0 <= p <= len t -> 0 <= f t p <= len t) -> moves (by_offset f) f.
Proof.
  intros Hf s I. destruct (zip_of s I) as (pre0 & a0 & b0 & post0 & Hz & _).
  destruct (set_offset_spec s (f (_buffer_text s) (_cursor_offset s))) as (pre & a & b & post & Hl & E & O).
  { destruct Hz as (-> & _). by destruct pre0. }
  exists tt, (moved_to pre a s). split_and!; [exact E| |done]. rewrite gap_text, <- gap_offset by done.
  apply (moved_gap s pre a b post); [done|]. rewrite O.
  assert (Hp : 0 <= _cursor_offset s <= len (_buffer_text s)).
  { rewrite (zip_offset _ _ _ _ _ Hz), (zip_text _ _ _ _ _ Hz), (len_app (unl pre0 ++ a0)).
    pose proof (len_nonneg (unl pre0 ++ a0)). pose proof (len_nonneg (b0 ++ nll post0)). lia. }
  specialize (Hf _ _ Hp). lia.
Qed.

(** Words. *)
Section words.
Context (isalnum : Z -> bool).

Lemma word_forward_target t p : 0 <= p <= len t -> word_forward_pos isalnum t p = first_from (word_end isalnum t) (p + 1) (len t).
Proof.
  intros Hp. unfold word_forward_pos. destruct (skip_spec (fun c => negb (word isalnum c)) t p Hp) as (Hb & H1 & H2).
  change (_word_char isalnum) with (word isalnum). set (q := skip (fun c => negb (word isalnum c)) t p) in *.
  destruct (skip_spec (word isalnum) t q ltac:(lia)) as (Hb' & H3 & H4). set (r := skip (word isalnum) t q) in *. symmetry.
  assert (H1' : forall j, p <= j < q -> has_at (word isalnum) t j = false).
  { intros j Hj. specialize (H1 j Hj). rewrite has_at_neg in H1 by lia. by apply negb_true_iff. }
  destruct (decide (q = len t)) as [Hq|Hq].
  - destruct (decide (p = len t)) as [->|Hn]; [rewrite first_from_end by lia; lia|]. apply first_from_eq; [lia| |lia].
    intros j Hj. unfold word_end. by rewrite H1' by lia.
  - rewrite has_at_neg in H2 by lia. apply negb_false_iff in H2.
    assert (Hqr : q < r). { destruct (decide (q = r)) as [Hqr|]; [|lia]. rewrite Hqr in H2. congruence. }
    apply first_from_eq; [lia| |].
    + intros j Hj. unfold word_end. destruct (decide (j <= q)); [by rewrite H1' by lia|].
      rewrite (H3 j) by lia. apply andb_false_r.
    + intros _. unfold word_end. by rewrite (H3 (r - 1)), H4 by lia.
Qed.
Lemma word_backward_target t p : 0 <= p <= len t -> word_backward_pos isalnum t p = last_before (word_start isalnum t) p.
Proof.
  intros Hp. unfold word_backward_pos. destruct (skip_back_spec (fun c => negb (word isalnum c)) t p Hp) as (Hb & H1 & H2).
  change (_word_char isalnum) with (word isalnum). set (q := skip_back (fun c => negb (word isalnum c)) t p) in *.
  destruct (skip_back_spec (word isalnum) t q ltac:(lia)) as (Hb' & H3 & H4). set (r := skip_back (word isalnum) t q) in *. symmetry.
  assert (H1' : forall j, q <= j < p -> has_at (word isalnum) t j = false).
  { intros j Hj. specialize (H1 j Hj). rewrite has_at_neg in H1 by lia. by apply negb_true_iff. }
  apply last_before_eq; [lia| |].
  - intros j Hj. unfold word_start. destruct (decide (q <= j)); [by rewrite H1' by lia|].
    rewrite (H3 (j - 1)) by lia. apply andb_false_r.
  - intros Hr. assert (Hq : has_at (word isalnum) t (q - 1) = true).
    { specialize (H2 ltac:(lia)). rewrite has_at_neg in H2 by lia. by apply negb_false_iff. }
    assert (Hqr : r < q). { destruct (decide (q = r)) as [Hqr|]; [|lia]. rewrite Hqr, H4 in Hq by lia. done. }
    split; [lia|]. unfold word_start. by rewrite (H3 r), H4 by lia.
Qed.
End words.

(** Sentences. *)
Lemma enders c : ends_sentence c = ender c.
Proof. unfold ends_sentence, ender. cbn. by rewrite orb_false_r, orb_assoc. Qed.
Lemma has_at_ext {A} (p q : A -> bool) t i : (forall c, p c = q c) -> has_at p t i = has_at q t i.
Proof. intros E. unfold has_at. by case_match. Qed.
Lemma is_not_space t j : 0 <= j < len t -> has_at not_space t j = negb (has_at is_space t j).
Proof. apply has_at_neg. Qed.
Lemma is_ender t j : 0 <= j < len t -> has_at ender t j = negb (has_at (fun c => negb (ends_sentence c)) t j).
Proof. intros Hj. rewrite (has_at_neg ends_sentence) by done. rewrite negb_involutive. apply has_at_ext. intros c. by rewrite enders. Qed.

Lemma sentence_forward_target t p : 0 <= p <= len t ->
  sentence_forward_pos t p = first_from (has_at not_space t) (first_from (has_at ender t) p (len t) + 1) (len t).
Proof.
  intros Hp. unfold sentence_forward_pos. cbv zeta. rewrite (skip_first _ t p (has_at ender t)); [|done|apply is_ender].
  assert (He : p <= first_from (has_at ender t) p (len t) <= len t).
  { rewrite <- (skip_first (fun c => negb (ends_sentence c)) t p); [by apply skip_bounds|done|apply is_ender]. }
  set (e := first_from (has_at ender t) p (len t)) in *. destruct (Z.ltb_spec e (len t)).
  - apply skip_first; [lia|apply is_not_space].
  - replace e with (len t) by lia. rewrite first_from_end by lia. rewrite (skip_first _ _ _ (has_at not_space t)); [|lia|apply is_not_space].
    by rewrite first_from_end by lia.
Qed.
Lemma sentence_backward_target t p : 0 <= p <= len t -> sentence_backward_pos t p =
  first_from (has_at not_space t) (past_last (has_at ender t) (past_last (has_at not_space t) p)) (len t).
Proof.
  intros Hp. unfold sentence_backward_pos. cbv zeta. pose proof (skip_back_bounds is_space t p ltac:(lia)) as H1.
  rewrite <- (skip_back_last is_space t p (has_at not_space t)) by (done || apply is_not_space). set (q := skip_back is_space t p) in *.
  pose proof (skip_back_bounds (fun c => negb (ends_sentence c)) t q ltac:(lia)) as H2.
  rewrite <- (skip_back_last (fun c => negb (ends_sentence c)) t q (has_at ender t)); [|lia|apply is_ender].
  apply skip_first; [lia|apply is_not_space].
Qed.
Lemma word_forward_bounds isalnum t p : 0 <= p <= len t -> 0 <= word_forward_pos isalnum t p <= len t.
Proof.
  intros Hp. unfold word_forward_pos. pose proof (skip_bounds (fun c => negb (_word_char isalnum c)) t p Hp).
  pose proof (skip_bounds (_word_char isalnum) t (skip (fun c => negb (_word_char isalnum c)) t p)). lia.
Qed.
Lemma word_backward_bounds isalnum t p : 0 <= p <= len t -> 0 <= word_backward_pos isalnum t p <= len t.
Proof.
  intros Hp. unfold word_backward_pos. pose proof (skip_back_bounds (fun c => negb (_word_char isalnum c)) t p).
  pose proof (skip_back_bounds (_word_char isalnum) t (skip_back (fun c => negb (_word_char isalnum c)) t p)). lia.
Qed.
Lemma sentence_forward_bounds t p : 0 <= p <= len t -> 0 <= sentence_forward_pos t p <= len t.
Proof.
  intros Hp. unfold sentence_forward_pos. cbv zeta. pose proof (skip_bounds (fun c => negb (ends_sentence c)) t p Hp) as H1.
  set (q := skip (fun c => negb (ends_sentence c)) t p) in *.
  pose proof (skip_bounds is_space t (if q <? len t then q + 1 else q)) as H2. destruct (Z.ltb_spec q (len t)); lia.
Qed.
Lemma sentence_backward_bounds t p : 0 <= p <= len t -> 0 <= sentence_backward_pos t p <= len t.
Proof.
  intros Hp. unfold sentence_backward_pos. cbv zeta. pose proof (skip_back_bounds is_space t p) as H1.
  set (q := skip_back is_space t p) in *. pose proof (skip_back_bounds (fun c => negb (ends_sentence c)) t q) as H2.
  pose proof (skip_bounds is_space t (skip_back (fun c => negb (ends_sentence c)) t q)). lia.
Qed.

(** Edits. *)
Lemma edited_gap s pre a b post : gap_of (edited pre a b post s) = (unl pre ++ a, b ++ nll post).
Proof. apply zip_gap, zip_edited. Qed.
Lemma text_set_gap s pre a b b' post post' : zip s pre a b' post' -> gap_of (text_set pre a b post s) = (unl pre ++ a, b ++ nll post).
Proof. intros (_ & Hy & Hx). apply zip_gap. by repeat split. Qed.

Lemma acts_insert c : acts (_insert_char c) (fun '(L, R) => (L ++ [c], R)).
Proof.
  intros s I. destruct (zip_of s I) as (pre & a & b & post & Hz & _). exists tt. eexists. split; [by apply insert_char_spec|].
  split; [|done]. by rewrite edited_gap, (zip_gap _ _ _ _ _ Hz), app_assoc.
Qed.
Lemma acts_newline : acts _newline (fun '(L, R) => (L ++ [newline], R)).
Proof.
  intros s I. destruct (zip_of s I) as (pre & a & b & post & Hz & _). exists tt. eexists. split; [by apply newline_spec|].
  split; [|done]. by rewrite edited_gap, (zip_gap _ _ _ _ _ Hz), app_nil_r, unl_snoc.
Qed.
Lemma acts_backspace : acts _backspace (fun '(L, R) => (removelast L, R)).
Proof.
  intros s I. destruct (zip_of s I) as (pre & a & b & post & Hz & _). exists tt.
  rewrite (zip_gap _ _ _ _ _ Hz). destruct a as [|c a _] using rev_ind; [destruct pre as [|l pre _] using rev_ind|].
  - exists s. split_and!; [by eapply backspace_start|apply (zip_gap _ _ _ _ _ Hz)|done].
  - eexists. split; [by apply backspace_join|]. split; [|done]. by rewrite edited_gap, app_nil_r, unl_snoc, removelast_last.
  - eexists. split; [by eapply backspace_char|]. split; [|done]. by rewrite edited_gap, app_assoc, removelast_last.
Qed.
Lemma acts_delete : acts _delete (fun '(L, R) => (L, drop 1 R)).
Proof.
  intros s I. destruct (zip_of s I) as (pre & a & b & post & Hz & _). exists tt. rewrite (zip_gap _ _ _ _ _ Hz).
  destruct b as [|c b]; [destruct post as [|l post]|].
  - exists s. split_and!; [by eapply delete_end|apply (zip_gap _ _ _ _ _ Hz)|done].
  - eexists. split; [by apply delete_join|]. split; [|done]. by rewrite (text_set_gap _ _ _ _ _ _ _ Hz).
  - eexists. split; [by eapply delete_char|]. split; [|done]. by rewrite (text_set_gap _ _ _ _ _ _ _ Hz).
Qed.

(** ** The motion keys *)

Ltac place := intros s pre a b post Hz Hok t; pose proof Hz as (Hl & Hy & Hx).
Ltac at_key k := unfold plain_key; run_ed; cbn [Z.eqb KEY_LEFT KEY_RIGHT KEY_UP KEY_DOWN KEY_HOME KEY_END KEY_PAGE_UP KEY_PAGE_DOWN Pos.eqb]; run_ed.

Lemma len_mid pre l post : len (unl pre ++ l ++ nll post) = len (unl pre) + len l + len (nll post).
Proof. rewrite !len_app. lia. Qed.
Lemma len_unl_snoc pre l : len (unl (pre ++ [l])) = len (unl pre) + len l + 1.
Proof. by rewrite unl_snoc, !len_app. Qed.
Lemma len_nll_cons l post : len (nll (l :: post)) = 1 + len l + len (nll post).
Proof. rewrite nll_cons, len_cons, len_app. lia. Qed.

Lemma moves_left text : moves (plain_key KEY_LEFT text) (fun t p => Z.max 0 (p - 1)).
Proof.
  apply moves_intro. place. exists tt. destruct a as [|c a _] using rev_ind; [destruct pre as [|l pre _] using rev_ind|].
  - exists [], [], b, post. split_and!; [done| |done]. at_key tt. rewrite Hx, Hy. destruct s; cbn in *; by subst.
  - exists pre, l, [], (b :: post). pose proof (len_nonneg pre). pose proof (len_nonneg (unl pre)). pose proof (len_nonneg l).
    rewrite len_app in Hy. change (len [l]) with 1 in Hy. rewrite <- app_assoc in Hl. cbn [app] in Hl.
    split_and!; [by rewrite app_nil_r, <- app_assoc| |rewrite len_unl_snoc; rewrite (@len_nil Z); lia].
    at_key tt. rewrite Hx. change (0 <? len (@nil Z)) with false. replace (0 <? e_cy s) with true by lia.
    replace (e_cy s - 1) with (len pre) by lia. run_ed. cbn [e_lines set_cursor]. by rewrite Hl, index_mid.
  - exists pre, a, (c :: b), post. pose proof (len_nonneg a). pose proof (len_nonneg (unl pre)).
    rewrite len_app in *. change (len [c]) with 1 in *. split_and!; [by rewrite <- app_assoc| |lia].
    at_key tt. replace (0 <? e_cx s) with true by lia. unfold moved_to. do 3 f_equal; lia.
Qed.

Lemma moves_right text : moves (plain_key KEY_RIGHT text) (fun t p => Z.min (len t) (p + 1)).
Proof.
  apply moves_intro. place. exists tt. subst t. rewrite len_mid.
  destruct b as [|c b]; [destruct post as [|l post]|]; rewrite ?app_nil_r in *.
  - exists pre, a, [], []. rewrite app_nil_r. split_and!; [done| |change (len (nll [])) with 0; lia]. at_key tt.
    rewrite Hl, Hy, index_mid. replace (e_cx s <? len a) with false by lia. rewrite len_app. change (len [a]) with 1.
    replace (len pre + 1 <? len pre + 1) with false by lia. destruct s; cbn in *; by subst.
  - exists (pre ++ [a]), [], l, post. pose proof (len_nonneg post). pose proof (len_nonneg l). pose proof (len_nonneg (nll post)).
    split_and!; [by rewrite <- app_assoc| |rewrite len_unl_snoc, len_nll_cons; rewrite (@len_nil Z); lia].
    at_key tt. rewrite Hl, Hy, index_mid. replace (e_cx s <? len a) with false by lia.
    replace (len pre + 1 <? len (pre ++ a :: l :: post)) with true by (rewrite len_app, !len_cons; lia).
    unfold moved_to. by rewrite len_app.
  - exists pre, (a ++ [c]), b, post. pose proof (len_nonneg b). pose proof (len_nonneg (nll post)).
    split_and!; [by rewrite <- !app_assoc| |rewrite !len_app, len_cons; change (len [c]) with 1; lia].
    at_key tt. rewrite Hl, Hy, index_mid. replace (e_cx s <? len (a ++ c :: b)) with true by (rewrite len_app, len_cons; lia).
    unfold moved_to. by rewrite Hx, len_app.
Qed.

(** The line the point is in. *)
Lemma column_bounds (a b : str) : 0 <= len a <= len (a ++ b).
Proof. rewrite len_app. pose proof (len_nonneg a). pose proof (len_nonneg b). lia. Qed.
#[local] Hint Resolve column_bounds : core.

Lemma moves_line_start : moves (modify (fun s => set_cursor (e_cy s) 0 s)) line_start.
Proof.
  apply moves_intro. place. exists tt, pre, [], (a ++ b), post. split_and!; [done|by unfold modify, moved_to; rewrite Hy|].
  unfold t. rewrite line_start_mid by done. rewrite (@len_nil Z). lia.
Qed.
Lemma moves_line_end : moves (let! s := get in let! line := line_at (e_cy s) in modify (set_cursor (e_cy s) (len line))) line_end.
Proof.
  apply moves_intro. place. exists tt, pre, (a ++ b), [], post. split_and!; [by rewrite app_nil_r| |].
  - run_ed. by rewrite Hl, Hy, index_mid.
  - unfold t. by rewrite line_end_mid.
Qed.
Lemma moves_indentation : moves (let! s := get in let! line := line_at (e_cy s) in
    modify (set_cursor (e_cy s) (len line - len (lstrip is_space line)))) (target (fun _ => false) 0 MIndentation).
Proof.
  apply moves_intro. place. pose proof (column_bounds a b) as Hc. set (l := a ++ b) in *. pose proof (run_of_bounds is_space l) as Hb.
  destruct (cut_at l (run_of is_space l) Hb) as (a' & b' & El & Ha). exists tt, pre, a', b', post.
  split_and!; [by rewrite <- El| |].
  - run_ed. rewrite Hl, Hy, index_mid, lstrip_run, <- Ha. done.
  - unfold t. cbn [target]. rewrite line_start_mid, line_end_mid by done. pose proof (first_not_space pre post l Hok 0) as Hf.
    rewrite Z.add_0_r in Hf. rewrite Hf by lia. unfold skip. change (drop (Z.to_nat 0) l) with l. lia.
Qed.

(** Some rows away. *)
Lemma moves_rows d : moves (let! s := get in modify (set_cursor (Z.max 0 (Z.min (len (e_lines s) - 1) (e_cy s + d))) (e_cx s)) ;;; _clamp_x) (vertical d).
Proof.
  apply moves_intro. place. set (row := Z.max 0 (Z.min (len (e_lines s) - 1) (e_cy s + d))).
  assert (Hr : 0 <= row < len (e_lines s)). { unfold row. rewrite Hl, len_app, len_cons. pose proof (len_nonneg pre). pose proof (len_nonneg post). lia. }
  destruct (index_total _ _ Hr) as [m Hm]. destruct (index_cut _ _ _ (proj1 Hr) Hm) as (pre' & post' & El & Ep).
  destruct (cut_at m (Z.min (len a) (len m))) as (a' & b' & Em & Ea). { pose proof (len_nonneg a). pose proof (len_nonneg m). lia. }
  exists tt, pre', a', b', post'. split_and!; [by rewrite <- Em, <- El|..].
  - unfold _clamp_x. run_ed. cbn [e_lines e_cy e_cx set_cursor]. fold row. rewrite Hm. unfold moved_to. by rewrite Ep, Ea, Hx.
  - unfold vertical, t. rewrite row_of_mid, line_start_mid, last_row_mid by done.
    replace (Z.max 0 (Z.min (len pre + len post) (len pre + d))) with (len pre') by (rewrite Ep; unfold row; rewrite Hl, Hy, len_app, len_cons; lia).
    rewrite <- join_zip, <- Hl, El, join_zip, row_place_mid; [lia| |pose proof (len_nonneg a); lia]. by rewrite <- El, Hl.
Qed.

Lemma rows_stay s : ed_inv s -> (modify (set_cursor (e_cy s) (e_cx s)) ;;; _clamp_x) s = (Ok tt, s).
Proof.
  intros I. destruct (view_line s (proj1 I)) as (line & Hi & _ & Hx). unfold _clamp_x. run_ed. cbn [e_lines e_cy e_cx set_cursor].
  rewrite Hi. replace (Z.min (e_cx s) (len line)) with (e_cx s) by lia. by destruct s.
Qed.
(** The keys up and down, and the pages, are moves by rows. *)
Definition by_rows (d : Z) : M EditorView unit :=
  let! s := get in modify (set_cursor (Z.max 0 (Z.min (len (e_lines s) - 1) (e_cy s + d))) (e_cx s)) ;;; _clamp_x.
Lemma safe_by_rows d : safe (by_rows d).
Proof. apply safe_get. intros s I. destruct (view_line s (proj1 I)) as (line & _ & Hy & _). apply ok_row_clamp; [done|lia]. Qed.
Lemma by_rows_at d s : by_rows d s = (modify (set_cursor (Z.max 0 (Z.min (len (e_lines s) - 1) (e_cy s + d))) (e_cx s)) ;;; _clamp_x) s.
Proof. done. Qed.
Lemma up_rows text s : ed_inv s -> plain_key KEY_UP text s = by_rows (-1) s.
Proof.
  intros I. destruct (view_line s (proj1 I)) as (line & _ & Hy & _). rewrite by_rows_at. unfold plain_key, bind at 1, get.
  cbn [Z.eqb KEY_LEFT KEY_RIGHT KEY_UP Pos.eqb]. destruct (Z.ltb_spec 0 (e_cy s)).
  - by replace (Z.max 0 (Z.min (len (e_lines s) - 1) (e_cy s + -1))) with (e_cy s - 1) by lia.
  - replace (Z.max 0 (Z.min (len (e_lines s) - 1) (e_cy s + -1))) with (e_cy s) by lia. by rewrite rows_stay.
Qed.
Lemma down_rows text s : ed_inv s -> plain_key KEY_DOWN text s = by_rows 1 s.
Proof.
  intros I. destruct (view_line s (proj1 I)) as (line & _ & Hy & _). rewrite by_rows_at. unfold plain_key, bind at 1, get.
  cbn [Z.eqb KEY_LEFT KEY_RIGHT KEY_UP KEY_DOWN Pos.eqb]. destruct (Z.ltb_spec (e_cy s + 1) (len (e_lines s))).
  - by replace (Z.max 0 (Z.min (len (e_lines s) - 1) (e_cy s + 1))) with (e_cy s + 1) by lia.
  - replace (Z.max 0 (Z.min (len (e_lines s) - 1) (e_cy s + 1))) with (e_cy s) by lia. by rewrite rows_stay.
Qed.
Lemma page_rows d n s : e_rows s = n -> _page d s = by_rows (d * n) s.
Proof. by intros <-. Qed.

Lemma moves_start : moves (modify (set_cursor 0 0)) (fun _ _ => 0).
Proof.
  apply moves_intro. place. exists tt, []. destruct (pre ++ (a ++ b) :: post) as [|l ls] eqn:El; [by destruct pre|]. by exists [], l, ls.
Qed.
Lemma to_end_place s pre a b post : zip s pre a b post -> exists pre' a', pre ++ (a ++ b) :: post = pre' ++ (a' ++ []) :: [] /\
  to_end s = (Ok tt, moved_to pre' a' s) /\ len (unl pre ++ (a ++ b) ++ nll post) = len (unl pre') + len a'.
Proof.
  intros (Hl & Hy & Hx). rewrite <- join_zip, <- Hl. destruct (e_lines s) as [|l pre' _] eqn:E using rev_ind; [by destruct pre|].
  exists pre', l. rewrite app_nil_r. split_and!; [done| |].
  - unfold to_end. run_ed. rewrite E, len_app. change (len [l]) with 1. rewrite Z.add_simpl_r. run_ed. cbn [e_lines set_cursor].
    by rewrite E, index_mid.
  - rewrite join_zip, len_mid. change (len (nll [])) with 0. lia.
Qed.
Lemma moves_finish : moves to_end (fun t _ => len t).
Proof. apply moves_intro. place. destruct (to_end_place s pre a b post Hz) as (pre' & a' & E & Em & Ef). by exists tt, pre', a', [], []. Qed.

(** To the beginning of a row. *)
Lemma row_begin s pre l post row : e_lines s = pre ++ l :: post -> Forall line_ok (pre ++ l :: post) -> 0 <= row < len (pre ++ l :: post) ->
  exists pre' b' post', pre ++ l :: post = pre' ++ ([] ++ b') :: post' /\
    modify (set_cursor row 0) s = (Ok tt, moved_to pre' [] s) /\ row_place (unl pre ++ l ++ nll post) row 0 = len (unl pre') + len (@nil Z).
Proof.
  intros Hl Hok Hr. destruct (index_total _ _ Hr) as [m Hm]. destruct (index_cut _ _ _ (proj1 Hr) Hm) as (pre' & post' & El & <-).
  exists pre', m, post'. split_and!; [done|done|]. rewrite <- join_zip, El, join_zip, row_place_mid by (lia || by rewrite <- El).
  pose proof (len_nonneg m). rewrite (@len_nil Z). lia.
Qed.

Section paragraphs.
Context (ls : list str) (Hok : Forall line_ok ls).
Let t : str := join [newline] ls.
Lemma row_blank j : 0 <= j < len ls -> blank_row t j = negb (has_at (fun l => negb (blank l)) ls j).
Proof using Hok. intros Hj. rewrite has_at_neg, negb_involutive by done. by apply has_row. Qed.
Lemma row_not_blank j : 0 <= j < len ls -> negb (blank_row t j) = negb (has_at blank ls j).
Proof using Hok. intros Hj. f_equal. by apply has_row. Qed.
(** [while row > 0 and blank: row -= 1] *)
Lemma blank_rows_up row : 0 <= row < len ls ->
  row - run_of blank (rev (drop 1 (take (Z.to_nat (row + 1)) ls))) = last_before (fun r => negb (blank_row t r)) (row + 1).
Proof using Hok.
  intros Hr. replace (Z.to_nat (row + 1)) with (1 + Z.to_nat row)%nat by lia. rewrite <- take_drop_commute.
  change (row - run_of blank (rev (take (Z.to_nat row) (drop 1 ls)))) with (skip_back blank (drop 1 ls) row).
  assert (Hd : len (drop 1 ls) = len ls - 1) by (unfold len in *; rewrite length_drop; lia).
  destruct (skip_back_spec blank (drop 1 ls) row ltac:(lia)) as (Hb & H1 & H2). set (r := skip_back blank (drop 1 ls) row) in *.
  symmetry. apply last_before_eq; [lia| |].
  - intros j Hj. rewrite row_not_blank by lia. specialize (H1 (j - 1) ltac:(lia)). rewrite has_at_drop in H1 by lia.
    replace (Z.of_nat 1 + (j - 1)) with j in H1 by lia. by rewrite H1.
  - intros H0. specialize (H2 H0). split; [lia|]. rewrite row_not_blank by lia. rewrite has_at_drop in H2 by lia.
    replace (Z.of_nat 1 + (r - 1)) with r in H2 by lia. by rewrite H2.
Qed.
End paragraphs.

Lemma moves_paragraph_forward isalnum page : moves _paragraph_forward (target isalnum page MParagraphForward).
Proof.
  apply moves_intro. place. set (ls := pre ++ (a ++ b) :: post) in *. cbv beta iota delta [target]. cbv zeta.
  assert (Ht : t = join [newline] ls) by (unfold t, ls; by rewrite join_zip).
  assert (Hn : last_row t + 1 = len ls) by (unfold t, ls; rewrite last_row_mid, len_app, len_cons by done; lia). rewrite Hn.
  assert (Hrow : row_of t (len (unl pre) + len a) = len pre) by (unfold t; by apply row_of_mid). rewrite Hrow.
  assert (Hp : 0 <= len pre <= len ls). { unfold ls. rewrite len_app, len_cons. pose proof (len_nonneg pre). pose proof (len_nonneg post). lia. }
  pose proof (skip_bounds (fun l => negb (blank l)) ls (len pre) Hp) as H1.
  assert (E1 : first_from (blank_row t) (len pre) (len ls) = skip (fun l => negb (blank l)) ls (len pre)).
  { symmetry. apply skip_first; [done|]. rewrite Ht. by apply row_blank. }
  rewrite E1. set (r1 := skip _ ls (len pre)) in *. pose proof (skip_bounds blank ls r1 ltac:(lia)) as H2.
  assert (E2 : first_from (fun r => negb (blank_row t r)) r1 (len ls) = skip blank ls r1).
  { symmetry. apply (skip_first blank ls r1 (fun r => negb (blank_row t r))); [lia|]. rewrite Ht. by apply row_not_blank. }
  rewrite E2. unfold _paragraph_forward, bind at 1, get. cbv zeta. rewrite Hl, Hy. fold r1.
  destruct (Z.leb_spec (len ls) (skip blank ls r1)), (Z.eqb_spec (skip blank ls r1) (len ls)); try lia.
  - destruct (to_end_place s pre a b post Hz) as (pre' & a' & E & Em & Ef). by exists tt, pre', a', [], [].
  - destruct (row_begin s pre (a ++ b) post (skip blank ls r1) Hl Hok) as (pre' & b' & post' & E & Em & Ef); [fold ls; lia|].
    by exists tt, pre', [], b', post'.
Qed.

Lemma moves_paragraph_backward isalnum page : moves _paragraph_backward (target isalnum page MParagraphBackward).
Proof.
  apply moves_intro. place. set (ls := pre ++ (a ++ b) :: post) in *. cbv beta iota delta [target]. cbv zeta.
  assert (Ht : t = join [newline] ls) by (unfold t, ls; by rewrite join_zip).
  assert (Hrow : row_of t (len (unl pre) + len a) = len pre) by (unfold t; by apply row_of_mid).
  assert (Hst : line_start t (len (unl pre) + len a) = len (unl pre)) by (unfold t; by apply line_start_mid). rewrite Hrow, Hst.
  assert (Hp : 0 <= len pre < len ls). { unfold ls. rewrite len_app, len_cons. pose proof (len_nonneg pre). pose proof (len_nonneg post). lia. }
  unfold _paragraph_backward, bind at 1, get. cbv zeta. rewrite Hl, Hy, Hx. pose proof (len_nonneg a).
  set (row := if len (unl pre) + len a =? len (unl pre) then Z.max 0 (len pre - 1) else len pre).
  replace (if (len a =? 0) && (0 <? len pre) then len pre - 1 else len pre) with row.
  2:{ unfold row. destruct (Z.eqb_spec (len a) 0), (Z.eqb_spec (len (unl pre) + len a) (len (unl pre))), (Z.ltb_spec 0 (len pre)); cbn [andb]; lia. }
  assert (Hr : 0 <= row < len ls) by (unfold row; case_match; lia).
  replace ((0 <? row) && (len ls <=? row)) with false by lia.
  pose proof (run_of_bounds blank (rev (drop 1 (take (Z.to_nat (row + 1)) ls)))) as Hb.
  assert (Hr1 : 0 <= row - run_of blank (rev (drop 1 (take (Z.to_nat (row + 1)) ls))) <= row).
  { unfold len in Hb, Hr. rewrite length_rev, length_drop, length_take in Hb. lia. }
  pose proof (blank_rows_up ls Hok row Hr) as E1. rewrite <- Ht in E1. rewrite E1 in Hr1 |- *.
  set (r1 := last_before _ (row + 1)) in *. pose proof (skip_back_bounds (fun l => negb (blank l)) ls r1 ltac:(lia)) as H2.
  assert (E2 : past_last (blank_row t) r1 = skip_back (fun l => negb (blank l)) ls r1).
  { symmetry. apply skip_back_last; [lia|]. rewrite Ht. by apply row_blank. }
  rewrite E2. destruct (row_begin s pre (a ++ b) post (skip_back (fun l => negb (blank l)) ls r1) Hl Hok) as (pre' & b' & post' & E & Em & Ef); [fold ls; lia|].
  by exists tt, pre', [], b', post'.
Qed.

(** Killing to the end of the line, or the line break. *)
Definition kill_line : M EditorView unit :=
  let! s := get in let! line := line_at (e_cy s) in
  if e_cx s <? len line then put_line (e_cy s) (slice_to line (e_cx s)) ;;; modify (set_dirty true)
  else if e_cy s + 1 <? len (e_lines s) then _delete else ret tt.
Lemma acts_kill : acts kill_line (fun g => (fst g, drop (Z.to_nat (Z.max 1 (line_end (fst g ++ snd g) (len (fst g)) - len (fst g)))) (snd g))).
Proof.
  intros s I. at_place I. exists tt. rewrite Hg. cbn [fst snd]. replace ((unl pre ++ a) ++ b ++ nll post) with (unl pre ++ (a ++ b) ++ nll post) by (by rewrite <- !app_assoc).
  rewrite (len_app (unl pre) a), line_end_mid by done. pose proof (len_nonneg b) as Hb. unfold kill_line.
  replace (len (unl pre) + len (a ++ b) - (len (unl pre) + len a)) with (len b) by (rewrite len_app; lia).
  destruct b as [|c b].
  - rewrite app_nil_r in *. cbn [app] in *. change (Z.to_nat (Z.max 1 (len []))) with 1%nat.
    run_ed. rewrite Hl, Hy, index_mid. replace (e_cx s <? len a) with false by lia. rewrite len_app, len_cons.
    destruct (acts_delete s I) as ([] & s' & E & G & Md). destruct post as [|l post].
    + exists s. replace (len pre + 1 <? len pre + (1 + len [])) with false by (change (len []) with 0; lia). split_and!; [done|by rewrite Hg|done].
    + pose proof (len_nonneg post). replace (len pre + 1 <? len pre + (1 + len (l :: post))) with true by (rewrite len_cons; lia).
      exists s'. split_and!; [done|by rewrite G, Hg|done].
  - rewrite len_cons in *. pose proof (len_nonneg b).
    exists (text_set pre a [] post s). split_and!; [|rewrite (text_set_gap _ _ _ _ _ _ _ Hz); f_equal|done].
    + run_ed. rewrite Hl, Hy, index_mid. replace (e_cx s <? len (a ++ c :: b)) with true by (rewrite len_app, len_cons; lia).
      run_ed. rewrite Hx. ed_go. rewrite Hl. ed_go. by rewrite app_nil_r.
    + replace (Z.to_nat (Z.max 1 (1 + len b))) with (length (c :: b)) by (cbn [length]; unfold len; lia). by rewrite drop_app_length.
Qed.
(** ** From the key to the operation *)

Section keys.
Context (isalnum : Z -> bool) (page : Z).

Lemma on_event_key ev s : ev_kind ev = EVENT_KEY_DOWN -> modes s = (None, false, page) ->
  on_event isalnum ev s =
  (if has (ev_mods ev) (Z.lor MOD_ALT MOD_META) && negb (has (ev_mods ev) MOD_CTRL) then
     (let! bound := meta_key isalnum ev in if bound : bool then _ensure_visible ;;; ret true else ret true)
   else
     (let! r := (if has (ev_mods ev) MOD_CTRL then ctrl_key ev else ret (inr (ev_code ev))) in
      match r with inl b => ret b | inr c => plain_key c (ev_text ev) ;;; _ensure_visible ;;; ret true end)) (set_message [] s).
Proof.
  intros Hk Hm. injection Hm as Hp Hx _. unfold on_event.
  rewrite (bind_step _ _ s false s).
  2:{ unfold text_view_event. run_ed. by rewrite Hk. }
  rewrite Hk. change (negb (EVENT_KEY_DOWN =? EVENT_KEY_DOWN)) with false. cbn iota. unfold bind at 1, get. cbn beta iota. rewrite Hp, Hx. done.
Qed.

Lemma acts_shown (m : M EditorView unit) f : safe m -> acts m f -> acts (m ;;; _ensure_visible ;;; ret true) f.
Proof.
  intros Hs Hm. apply acts_then; [done|done|]. intros _. apply acts_then; [apply safe_ensure_visible| |intros; apply acts_ret].
  apply acts_modify. intros s. by repeat case_match.
Qed.

(** What a key does. *)
Definition does (ev : Event) (f : gap -> gap) : Prop := forall s, ed_inv s -> modes s = (None, false, page) ->
  exists s', on_event isalnum ev s = (Ok true, s') /\ gap_of s' = f (gap_of s) /\ modes s' = modes s.

(** It runs an operation after the message was cleared, and shows the cursor or not. *)
Definition runs (ev : Event) (show : bool) (m : M EditorView unit) : Prop := forall s, modes s = (None, false, page) ->
  on_event isalnum ev s = (m ;;; (if show then _ensure_visible else ret tt) ;;; ret true) (set_message [] s).

Lemma runs_does ev show (m m' : M EditorView unit) f : runs ev show m -> (forall s, ed_inv s -> e_rows s = page -> m s = m' s) ->
  safe m' -> acts m' f -> does ev f.
Proof.
  intros Hr Hm Hs Ha s I Hmd. assert (I1 : ed_inv (set_message [] s)) by (by apply (ed_inv_core s)).
  assert (Hshow : acts (m' ;;; (if show then _ensure_visible else ret tt) ;;; ret true) f).
  { destruct show; [by apply acts_shown|]. apply acts_then; [done|done|]. intros _. by apply (acts_ret true). }
  destruct (Hshow _ I1) as (x & s' & E & G & Md). exists s'. rewrite (Hr s Hmd). unfold bind at 1. rewrite Hm by (done || by injection Hmd).
  assert (x = true) as ->.
  { unfold bind, ret in E. destruct (m' (set_message [] s)) as [[u|e] s1]; [|done]. destruct show.
    - destruct (_ensure_visible s1) as [[u1|e] s2]; [by injection E|done].
    - by injection E. }
  unfold bind at 1 in E. rewrite E. done.
Qed.
Lemma runs_as ev show (m : M EditorView unit) f : runs ev show m -> safe m -> acts m f -> does ev f.
Proof. intros Hr. by apply (runs_does ev show m m). Qed.

Lemma runs_plain code text mods : has mods (Z.lor MOD_ALT MOD_META) = false -> has mods MOD_CTRL = false ->
  runs (key code text mods) true (plain_key code text).
Proof. intros H1 H2 s Hm. rewrite on_event_key by done. cbn [ev_mods key plain_event]. by rewrite H1, H2. Qed.
Lemma runs_ctrl_plain c code : ctrl_key (ctrl c) = (let! s := get in ret (inr code)) -> runs (ctrl c) true (plain_key code [c]).
Proof. intros Hc s Hm. rewrite on_event_key by done. change (has (ev_mods (ctrl c)) (Z.lor MOD_ALT MOD_META)) with false. cbn [andb].
  change (has (ev_mods (ctrl c)) MOD_CTRL) with true. cbn iota. by rewrite Hc. Qed.
Lemma runs_ctrl c (m : M EditorView unit) : (forall s, ctrl_key (ctrl c) s = (m ;;; ret (inl true)) s) -> runs (ctrl c) false m.
Proof.
  intros Hc s Hm. rewrite on_event_key by done. change (has (ev_mods (ctrl c)) (Z.lor MOD_ALT MOD_META)) with false. cbn [andb].
  change (has (ev_mods (ctrl c)) MOD_CTRL) with true. cbn iota. unfold bind at 1. rewrite Hc. unfold bind, ret.
  by destruct (m _) as [[u|e] s1].
Qed.
Lemma runs_meta ev (m : M EditorView unit) : ev_kind ev = EVENT_KEY_DOWN -> has (ev_mods ev) (Z.lor MOD_ALT MOD_META) && negb (has (ev_mods ev) MOD_CTRL) = true ->
  (forall s, meta_key isalnum ev s = (m ;;; ret true) s) -> runs ev true m.
Proof.
  intros Hk Hmod Hc s Hm. rewrite on_event_key, Hmod by done. unfold bind at 1. rewrite Hc. unfold bind, ret.
  by destruct (m _) as [[u|e] s1].
Qed.

(** Every key of a list. *)
Lemma each_nil (P : Event -> Prop) ev : In ev [] -> P ev.
Proof. intros []. Qed.
Lemma each_cons (P : Event -> Prop) x l : P x -> (forall ev, In ev l -> P ev) -> forall ev, In ev (x :: l) -> P ev.
Proof. intros Hx Hl ev [<-|H]; auto. Qed.
Ltac each_key := repeat (apply each_cons || apply each_nil).
Ltac by_plain := eapply runs_as; [by apply runs_plain|apply safe_plain_key|].
Ltac by_ctrl_plain := eapply runs_as; [by apply runs_ctrl_plain|apply safe_plain_key|].
Ltac by_meta m := eapply runs_as; [by apply (runs_meta _ m)|..].

Lemma plain_printable c : printable c = true -> forall s, plain_key c [c] s = (_insert_char c ;;; ret tt) s.
Proof.
  intros Hp s. unfold plain_key, bind at 1, get. unfold printable in Hp.
  unfold KEY_LEFT, KEY_RIGHT, KEY_UP, KEY_DOWN, KEY_HOME, KEY_END, KEY_PAGE_UP, KEY_PAGE_DOWN, KEY_ENTER, KEY_BACKSPACE, KEY_DELETE, KEY_TAB.
  repeat (rewrite (proj2 (Z.eqb_neq c _)) by lia). cbn [for_each]. unfold printable. by rewrite Hp.
Qed.
Lemma acts_type c : printable c = true -> acts (plain_key c [c]) (fun '(L, R) => (L ++ [c], R)).
Proof.
  intros Hp s I. destruct (acts_insert c s I) as ([] & s' & E & G & Md). exists tt, s'. split_and!; [|done|done].
  rewrite plain_printable by done. by rewrite (bind_step _ _ _ _ _ E).
Qed.

Lemma does_vertical ev text d : runs ev true (plain_key (if d <? 0 then KEY_UP else KEY_DOWN) text) -> d = 1 \/ d = -1 ->
  does ev (fun g => cut (vertical d (fst g ++ snd g) (len (fst g))) g).
Proof.
  intros Hr Hd. eapply (runs_does _ _ _ (by_rows d)); [exact Hr| |apply safe_by_rows|apply moves_rows].
  intros s I _. destruct Hd as [-> | ->]; [by apply down_rows|by apply up_rows].
Qed.
Lemma does_page ev (m : M EditorView unit) d : runs ev true m -> m = _page d ->
  does ev (fun g => cut (vertical (d * page) (fst g ++ snd g) (len (fst g))) g).
Proof.
  intros Hr ->. eapply (runs_does _ _ _ (by_rows (d * page))); [exact Hr| |apply safe_by_rows|apply moves_rows].
  intros s I Hn. by apply page_rows.
Qed.
Lemma does_up ev (m : M EditorView unit) : runs ev true m -> m = _page (-1) -> does ev (fun g => cut (vertical (- page) (fst g ++ snd g) (len (fst g))) g).
Proof. intros Hr Hm. replace (- page) with (-1 * page) by lia. by apply (does_page ev m). Qed.
Lemma does_down ev (m : M EditorView unit) : runs ev true m -> m = _page 1 -> does ev (fun g => cut (vertical page (fst g ++ snd g) (len (fst g))) g).
Proof. intros Hr Hm. replace page with (1 * page) by lia. by apply (does_page ev m). Qed.

Lemma moves_word_forward : moves (_word_forward isalnum) (target isalnum page MWordForward).
Proof. eapply moves_ext; [|apply moves_offset, word_forward_bounds]. apply word_forward_target. Qed.
Lemma moves_word_backward : moves (_word_backward isalnum) (target isalnum page MWordBackward).
Proof. eapply moves_ext; [|apply moves_offset, word_backward_bounds]. apply word_backward_target. Qed.
Lemma moves_sentence_forward : moves _sentence_forward (target isalnum page MSentenceForward).
Proof. eapply moves_ext; [|apply moves_offset, sentence_forward_bounds]. apply sentence_forward_target. Qed.
Lemma moves_sentence_backward : moves _sentence_backward (target isalnum page MSentenceBackward).
Proof. eapply moves_ext; [|apply moves_offset, sentence_backward_bounds]. apply sentence_backward_target. Qed.

Definition line_begin : M EditorView unit := modify (fun s => set_cursor (e_cy s) 0 s).
Definition line_finish : M EditorView unit := let! s := get in let! line := line_at (e_cy s) in modify (set_cursor (e_cy s) (len line)).
Definition indentation : M EditorView unit :=
  let! s := get in let! line := line_at (e_cy s) in modify (set_cursor (e_cy s) (len line - len (lstrip is_space line))).
Lemma safe_line_begin : safe line_begin.
Proof.
  intros s I. destruct (view_line s (proj1 I)) as (line & Hi & Hy & Hx). apply (ok_cursor s (e_cy s) 0 line I); [lia|done|]. pose proof (len_nonneg line). lia.
Qed.
Lemma safe_line_finish : safe line_finish.
Proof. apply safe_get. intros s I. apply (ok_column s (fun line => len line)); [done|]. intros line. pose proof (len_nonneg line). lia. Qed.
Lemma safe_indentation : safe indentation.
Proof. apply safe_get. intros s I. apply (ok_column s (fun line => len line - len (lstrip is_space line))); [done|]. intros line. apply lstrip_len. Qed.
Lemma safe_kill_line : safe kill_line.
Proof.
  apply safe_get. intros s I. destruct (view_line s (proj1 I)) as (line & Hi & Hy & Hx).
  destruct (safe_kill s line I Hi) as (x & s' & E & I'). exists x, s'. split; [|exact I']. run_ed. by rewrite Hi.
Qed.

Lemma does_motion m ev : In ev (keys_of_motion m) -> does ev (fun g => cut (target isalnum page m (fst g ++ snd g) (len (fst g))) g).
Proof.
  revert ev. destruct m; cbn [keys_of_motion meta meta_shift]; each_key.
  - by_plain. apply moves_left.
  - by_ctrl_plain. apply moves_left.
  - by_plain. apply moves_right.
  - by_ctrl_plain. apply moves_right.
  - by apply (does_vertical _ [] (-1)); [by apply runs_plain|right].
  - by apply (does_vertical _ [112] (-1)); [by apply runs_ctrl_plain|right].
  - by apply (does_vertical _ [] 1); [by apply runs_plain|left].
  - by apply (does_vertical _ [110] 1); [by apply runs_ctrl_plain|left].
  - by eapply does_up; [by apply runs_plain|].
  - by eapply does_up; [by apply runs_meta|].
  - by eapply does_up; [by apply runs_meta|].
  - by eapply does_down; [by apply runs_plain|].
  - by eapply does_down; [by apply runs_ctrl_plain|].
  - by apply (runs_as _ true line_begin); [by apply runs_plain|apply safe_line_begin|apply moves_line_start].
  - by apply (runs_as _ false line_begin); [by apply runs_ctrl|apply safe_line_begin|apply moves_line_start].
  - by apply (runs_as _ true line_finish); [by apply runs_plain|apply safe_line_finish|apply moves_line_end].
  - apply (runs_as _ false line_finish); [|apply safe_line_finish|apply moves_line_end]. apply runs_ctrl. intros s.
    change (ctrl_key (ctrl 101) s) with ((let! line := line_at (e_cy s) in modify (set_cursor (e_cy s) (len line)) ;;; ret (inl true : bool + Z)) s).
    unfold line_finish. run_ed. by destruct (index (e_lines s) (e_cy s)).
  - apply (runs_as _ true indentation); [|apply safe_indentation|apply moves_indentation]. apply runs_meta; [done|done|]. intros s.
    unfold indentation. change (meta_key isalnum (key 109 [109] MOD_ALT) s) with ((let! s := get in let! line := line_at (e_cy s) in
     modify (set_cursor (e_cy s) (len line - len (lstrip is_space line))) ;;; ret true) s). run_ed. by destruct (index (e_lines s) (e_cy s)).
  - apply (runs_as _ true indentation); [|apply safe_indentation|apply moves_indentation]. apply runs_meta; [done|done|]. intros s.
    unfold indentation. change (meta_key isalnum (key 109 [109] MOD_META) s) with ((let! s := get in let! line := line_at (e_cy s) in
     modify (set_cursor (e_cy s) (len line - len (lstrip is_space line))) ;;; ret true) s). run_ed. by destruct (index (e_lines s) (e_cy s)).
  - eapply runs_as; [by apply runs_meta|apply safe_by_offset|apply moves_word_forward].
  - eapply runs_as; [by apply runs_meta|apply safe_by_offset|apply moves_word_forward].
  - eapply runs_as; [by apply runs_meta|apply safe_by_offset|apply moves_word_backward].
  - eapply runs_as; [by apply runs_meta|apply safe_by_offset|apply moves_word_backward].
  - eapply runs_as; [by apply runs_meta|apply safe_by_offset|apply moves_sentence_forward].
  - eapply runs_as; [by apply runs_meta|apply safe_by_offset|apply moves_sentence_forward].
  - eapply runs_as; [by apply runs_meta|apply safe_by_offset|apply moves_sentence_backward].
  - eapply runs_as; [by apply runs_meta|apply safe_by_offset|apply moves_sentence_backward].
  - eapply runs_as; [by apply runs_meta|apply safe_paragraph_forward|apply moves_paragraph_forward].
  - eapply runs_as; [by apply runs_meta|apply safe_paragraph_forward|apply moves_paragraph_forward].
  - eapply runs_as; [by apply runs_meta|apply safe_paragraph_backward|apply moves_paragraph_backward].
  - eapply runs_as; [by apply runs_meta|apply safe_paragraph_backward|apply moves_paragraph_backward].
  - eapply runs_as; [by apply runs_meta|apply safe_origin|apply moves_start].
  - eapply runs_as; [by apply runs_meta|apply safe_origin|apply moves_start].
  - eapply runs_as; [by apply runs_meta|apply safe_to_end|apply moves_finish].
  - eapply runs_as; [by apply runs_meta|apply safe_to_end|apply moves_finish].
Qed.

Lemma does_ext ev f f' : (forall g, f g = f' g) -> does ev f -> does ev f'.
Proof. intros Hf Hd s I Hm. destruct (Hd s I Hm) as (s' & E & G & Md). exists s'. by rewrite <- Hf. Qed.

Lemma does_cmd k ev : bound k ev -> does ev (spec_cmd isalnum page k).
Proof.
  intros [Hin Hok]. revert ev Hin. destruct k; cbn [keys_of]; each_key.
  - apply (does_ext _ (fun '(L, R) => (L ++ [c], R))); [by intros []|]. by_plain. by apply acts_type.
  - apply (does_ext _ (fun '(L, R) => (L ++ [c], R))); [by intros []|]. by_plain. by apply acts_type.
  - apply (does_ext _ (fun '(L, R) => (L ++ [9], R))); [by intros []|]. by_plain. exact (acts_insert 9).
  - apply (does_ext _ (fun '(L, R) => (L ++ [newline], R))); [by intros []|]. by_plain. exact acts_newline.
  - apply (does_ext _ (fun '(L, R) => (removelast L, R))); [by intros []|]. by_plain. exact acts_backspace.
  - apply (does_ext _ (fun '(L, R) => (L, drop 1 R))); [by intros []|]. by_plain. exact acts_delete.
  - apply (does_ext _ (fun '(L, R) => (L, drop 1 R))); [by intros []|]. by apply (runs_as _ false _delete); [by apply runs_ctrl|apply safe_delete|apply acts_delete].
  - eapply does_ext; [|apply (runs_as _ false kill_line); [|apply safe_kill_line|apply acts_kill]]; [by intros []|].
    apply runs_ctrl. intros s. change (ctrl_key (ctrl 107) s) with ((let! line := line_at (e_cy s) in
     (if e_cx s <? len line then put_line (e_cy s) (slice_to line (e_cx s)) ;;; modify (set_dirty true)
      else if e_cy s + 1 <? len (e_lines s) then _delete else ret tt) ;;; ret (inl true : bool + Z)) s).
    change ((kill_line ;;; ret (inl true : bool + Z)) s) with (((let! line := line_at (e_cy s) in
      (if e_cx s <? len line then put_line (e_cy s) (slice_to line (e_cx s)) ;;; modify (set_dirty true)
       else if e_cy s + 1 <? len (e_lines s) then _delete else ret tt)) ;;; ret (inl true : bool + Z)) s).
    unfold bind. by destruct (line_at (e_cy s) s) as [[x|e] s1].
  - intros ev Hin. eapply does_ext; [|by apply does_motion]. by intros [].
Qed.

Fixpoint type_keys (evs : list Event) : M EditorView unit :=
  match evs with [] => ret tt | ev :: evs => let! _ := on_event isalnum ev in type_keys evs end.

End keys.
(** ** Runs *)

Definition ascii_alnum (c : Z) : bool := is_digit c || is_alpha c.
Definition no_text (e : exn) : str := [].
Definition fresh_view : EditorView := EditorView_init 720 480 (lit "Editor: /n") (Some (lit "/n")) None false.
Definition type_op (c : Z) : ed_op := OpEvent (key c [c] 0).


Definition some_keys : list (ecmd * Event) :=
  map (fun c => (EInsert c, key c [c] 0)) (lit "One. Two") ++
  [(EEnter, key KEY_ENTER [10] 0); (EInsert 51, key 51 [51] 0); (EMove MUp, ctrl 112); (EMove MWordForward, key 102 [102] MOD_ALT);
   (EMove MSentenceForward, key 101 [101] MOD_META); (EKill, ctrl 107); (EMove MPageUp, key KEY_PAGE_UP [] 0); (EMove MRight, ctrl 102);
   (EDelete, key KEY_DELETE [] 0)].

(** The loops of Meta-a: at the beginning of a sentence, where they leave
    the cursor, they no longer move it; from the space before they move forward. *)
Example sentence_backward_stays : map (target ascii_alnum 57 MSentenceBackward (lit "One. Two. Three")) [15; 12; 10; 9] = [10; 10; 10; 10].
Proof. vm_compute. reflexivity. Qed.

(** A file chosen while the buffer has three lines: keys pressed while the new
    file is being read move the cursor to a row the new file does not have,
    and the next character raises. *)
Definition three_lines : EditorView := snd (load_finish no_text (lit "/n") (Ok (lit "a" ++ [10] ++ lit "b" ++ [10] ++ lit "c")) fresh_view).
Example load_while_typing :
  fst ((chosen_open (lit "/m") ;;; let! _ := on_event ascii_alnum (key KEY_DOWN [] 0) in
        load_finish no_text (lit "/m") (Ok (lit "one")) ;;; on_event ascii_alnum (key 120 [120] 0)) three_lines) = Err IndexError.
Proof. vm_compute. reflexivity. Qed.

(** A character typed while the text is being written: the buffer is then
    marked as saved, and the character is not in the file. *)
Example save_while_typing :
  let (r, s) := (let! q := save_request no_text in let! _ := on_event ascii_alnum (key 120 [120] 0) in
                 match q with Some (path, data) => save_finish no_text path data (Ok tt) | None => ret tt end) three_lines in
  r = Ok tt /\ e_dirty s = false /\ _buffer_text s <> e_saved s.
Proof. vm_compute. split_and!; [done|done|discriminate]. Qed.

(** ** Control-X Control-C on a PS/2 keyboard *)

(** No key of the scan-code table has a control character for its text. *)
Lemma scancode_plain sc : 0 <= sc < 128 ->
  match scancode sc with Some (k, sh) => k <> [3] /\ sh <> [3] | None => True end.
Proof.
  intros Hsc. assert (Hall : forallb (fun sc => match scancode sc with Some (k, sh) => negb (beq k [3]) && negb (beq sh [3]) | None => true end) (range 128) = true)
    by (vm_compute; reflexivity).
  rewrite forallb_forall in Hall. specialize (Hall sc). destruct (scancode sc) as [[k sh]|]; [|done].
  rewrite andb_true_iff, !negb_true_iff in Hall. destruct Hall as [H1 H2]; [by apply list_elem_of_In, elem_of_range2|].
  split; intros ->; [by rewrite beq_refl in H1|by rewrite beq_refl in H2].
Qed.

Lemma event_text hist sc ke : event_after hist sc = Some ke -> ke_char ke <> [3].
Proof.
  unfold event_after. pose proof (scancode_plain (Z.land sc 0x7F)) as Hp. destruct (scancode (Z.land sc 127)) as [[k sh]|]; [|done].
  assert (Hb : 0 <= Z.land sc 127 < 128) by (change 127 with (2 ^ 7 - 1); rewrite land_mask by lia; by apply Z.mod_pos_bound).
  destruct (Hp Hb) as [H1 H2]. destruct (existsb _ _ || _); [done|]. intros [= <-]. cbn [ke_char]. repeat case_match; done.
Qed.

(** After Control-X no key of a PS/2 keyboard ends the editor, whatever was
    typed before: the driver's text for Control-C is the letter, while the
    editor compares with the control character. *)
Theorem ctrl_x_ctrl_c_stays isalnum hist sc ke (gui : Gui) ev s : event_after hist sc = Some ke -> g_queue gui = [] ->
  g_queue (snd (key_forward ke gui)) = [ev] -> e_prompt_mode s = None -> e_ctrl_x s = true ->
  exists s', on_event isalnum ev s = (Ok true, s').
Proof.
  intros He Hg Hq Hp Hx. apply event_text in He. unfold key_forward, Input.post, modify in Hq. cbn in Hq. rewrite Hg in Hq.
  injection Hq as <-. set (ev := plain_event _ _ _ _ _ _ _ _). 
  assert (Hk : ev_kind ev = 1 \/ ev_kind ev = 2) by (unfold ev; cbn; destruct (ke_pressed ke); auto).
  assert (Ht : text_view_event ev s = (Ok false, s)).
  { unfold text_view_event. run_ed. by destruct Hk as [-> | ->]. }
  unfold on_event. rewrite (bind_step _ _ _ _ _ Ht). destruct Hk as [Hk|Hk]; rewrite Hk; [|by eexists].
  change (negb (1 =? EVENT_KEY_DOWN)) with false. cbn iota. unfold bind at 1, get. cbn beta iota. rewrite Hp, Hx.
  assert (Hb : beq (ev_text ev) [3] = false) by (unfold ev; cbn [ev_text plain_event]; by destruct (beq_spec (ke_char ke) [3])).
  rewrite Hb, andb_false_r. run_ed. by destruct (has (ev_mods ev) MOD_CTRL && beq (ev_text ev) [19]); eexists.
Qed.
