(* ===== verification/Dock.v ===== *)
(** * Dock, pop-up menus and shortcuts (kernel/gui/dock.py, kernel/gui/keybindings.py)

    Which applications the dock shows, the pop-up menu with its rows and hit
    test, and the table of desktop-wide shortcuts.  [F] are the callables the
    dock keeps (entries and icon factories), [A] the actions of menu rows. *)

From Stdlib Require Import ZArith Lia.
From stdpp Require Import base list numbers strings.
From S2P Require Import Prelude Bytes Pystr Dict Input.

Local Open Scope Z_scope.

Definition MENU_BAR_H : Z := 22.
Definition DOCK_H : Z := 72.
Definition POPUP_ITEM_H : Z := 22.
Definition POPUP_SEPARATOR_H : Z := 8.
Definition POPUP_PAD_X : Z := 14.
Definition POPUP_PAD_Y : Z := 6.
Definition POPUP_MIN_W : Z := 120.
Definition GLYPH_W : Z := 8.
Definition MOUSE_LEFT : Z := 1.
Definition MOUSE_RIGHT : Z := 3.

(** [l.remove(x)] of an element that is there, [x in l]. *)
Fixpoint remove1 (x : str) (l : list str) : list str :=
  match l with
  | [] => []
  | y :: l' => if beq y x then l' else y :: remove1 x l'
  end.
Definition mem (x : str) (l : list str) : bool := existsb (fun y => beq y x) l.
Definition add1 (x : str) (l : list str) : list str := if mem x l then l else l ++ [x].

Section dock.
Context {F : Type}.

Record DockItem : Type := mkItem {
  di_name : str; di_entry : option F; di_icon : option F; di_pinned : bool; di_running : bool;
}.
Record Dock : Type := mkDock {
  dk_items : list (str * DockItem); dk_pin_order : list str; dk_transient_order : list str;
}.
Definition Dock_init : Dock := mkDock [] [] [].

Definition set_item (it : DockItem) (d : Dock) : Dock := mkDock (dset (di_name it) it (dk_items d)) (dk_pin_order d) (dk_transient_order d).
Definition set_orders (p t : list str) (d : Dock) : Dock := mkDock (dk_items d) p t.
Definition or_else (x y : option F) : option F := match x with Some _ => x | None => y end.
Definition with_pinned (b : bool) (it : DockItem) : DockItem := mkItem (di_name it) (di_entry it) (di_icon it) b (di_running it).
Definition with_running (b : bool) (it : DockItem) : DockItem := mkItem (di_name it) (di_entry it) (di_icon it) (di_pinned it) b.

(** The item of a name, made or completed. *)
Definition _item (name : str) (entry icon : option F) (d : Dock) : DockItem :=
  match dget name (dk_items d) with
  | None => mkItem name entry icon false false
  | Some it => mkItem (di_name it) (or_else entry (di_entry it)) (or_else icon (di_icon it)) (di_pinned it) (di_running it)
  end.
Definition ensure (name : str) (entry icon : option F) (d : Dock) : Dock := set_item (_item name entry icon d) d.

Definition pin (name : str) (entry icon : option F) (d : Dock) : Dock :=
  let d := set_item (with_pinned true (_item name entry icon d)) d in
  set_orders (add1 name (dk_pin_order d)) (remove1 name (dk_transient_order d)) d.

Definition unpin (name : str) (d : Dock) : Dock :=
  match dget name (dk_items d) with
  | None => d
  | Some it =>
      let d := set_item (with_pinned false it) d in
      set_orders (remove1 name (dk_pin_order d))
        (if di_running it then add1 name (dk_transient_order d) else dk_transient_order d) d
  end.

Definition set_running (name : str) (running : bool) (d : Dock) : Dock :=
  match dget name (dk_items d), running with
  | None, false => d
  | _, _ =>
      let it := with_running running (_item name None None d) in
      let d := set_item it d in
      if di_pinned it then d
      else set_orders (dk_pin_order d)
             (if running then add1 name (dk_transient_order d) else remove1 name (dk_transient_order d)) d
  end.

Definition is_pinned (name : str) (d : Dock) : bool :=
  match dget name (dk_items d) with Some it => di_pinned it | None => false end.

Definition visible (d : Dock) : list DockItem :=
  let names := fold_left (fun names n => if mem n names then names else names ++ [n]) (dk_transient_order d) (dk_pin_order d) in
  omap (fun n => dget n (dk_items d)) names.
Definition visible_names (d : Dock) : list str := map di_name (visible d).
End dock.
Arguments DockItem : clear implicits.
Arguments Dock : clear implicits.

Definition is_context_click (button mods : Z) : bool :=
  (button =? MOUSE_RIGHT) || ((button =? MOUSE_LEFT) && has mods MOD_CTRL).

Definition rect : Type := Z * Z * Z * Z.
Definition inside (x y : Z) (r : rect) : bool :=
  let '(rx, ry, rw, rh) := r in (rx <=? x) && (x <? rx + rw) && (ry <=? y) && (y <? ry + rh).

Definition desktop_background_hit (x y desk_w desk_h : Z) (window_rects : list rect) : bool :=
  if y <? MENU_BAR_H then false
  else if desk_h - DOCK_H <=? y then false
  else if (x <? 0) || (y <? 0) || (desk_w <=? x) || (desk_h <=? y) then false
  else negb (existsb (inside x y) window_rects).

(** ** Pop-up menus *)

Section popup.
Context {A : Type}.

Record PopupItem : Type := mkRow { pi_label : str; pi_action : option A; pi_separator : bool; pi_enabled : bool }.
Record Popup : Type := mkPopup {
  pp_items : list PopupItem; pp_rects : list rect; pp_anchor : option rect; pp_hot : Z;
  pp_scroll : Z; pp_above : bool; pp_below : bool; pp_open : bool;
}.
Definition Popup_init : Popup := mkPopup [] [] None (-1) 0 false false false.
Definition hide (p : Popup) : Popup := Popup_init.

Definition row_h (it : PopupItem) : Z := if pi_separator it then POPUP_SEPARATOR_H else POPUP_ITEM_H.

(** The rows from index [i] on, the next one at [cy]. *)
Fixpoint layout_rows (x w bottom scroll : Z) (i cy : Z) (items : list PopupItem) : list rect :=
  match items with
  | [] => []
  | it :: items =>
      if (i <? scroll) || (bottom <? cy + row_h it)
      then (-1, -1, 0, 0) :: layout_rows x w bottom scroll (i + 1) cy items
      else (x, cy, w, row_h it) :: layout_rows x w bottom scroll (i + 1) (cy + row_h it) items
  end.
Definition hidden_row (r : rect) : bool := let '(_, _, w, _) := r in w =? 0.
Definition _layout_visible_rows (p : Popup) : Popup :=
  match pp_anchor p with
  | None => p
  | Some (x, y, w, h) =>
      let rects := layout_rows x w (y + h - POPUP_PAD_Y) (pp_scroll p) 0 (y + POPUP_PAD_Y) (pp_items p) in
      mkPopup (pp_items p) rects (pp_anchor p) (pp_hot p) (pp_scroll p) (0 <? pp_scroll p)
        (existsb hidden_row (slice_from rects (pp_scroll p))) (pp_open p)
  end.

Definition text_width (items : list PopupItem) : Z :=
  fold_left (fun w it => if pi_separator it then w else Z.max w (Z.max 1 (len (pi_label it)) * GLYPH_W)) items 0.
Definition rows_height (items : list PopupItem) : Z := fold_left (fun h it => h + row_h it) items (POPUP_PAD_Y * 2).

Definition show (x y : Z) (items : list PopupItem) (total_w total_h : Z) (p : Popup) : Popup :=
  let w := Z.max POPUP_MIN_W (text_width items + POPUP_PAD_X * 2) in
  let h := rows_height items in
  let x := if total_w <? x + w then Z.max 0 (total_w - w - 4) else x in
  let h := Z.min h (Z.max (POPUP_ITEM_H + POPUP_PAD_Y * 2) (total_h - 8)) in
  let y := Z.min y (total_h - h - 4) in
  let y := Z.max 4 y in
  let p := _layout_visible_rows (mkPopup items (pp_rects p) (Some (x, y, w, h)) (-1) 0 (pp_above p) (pp_below p) (pp_open p)) in
  mkPopup (pp_items p) (pp_rects p) (pp_anchor p) (pp_hot p) (pp_scroll p) (pp_above p) (pp_below p) true.

Definition scroll (rows : Z) (p : Popup) : bool * Popup :=
  if negb (pp_open p) || (len (pp_items p) =? 0) || (rows =? 0) then (false, p)
  else
    let new := Z.max 0 (Z.min (len (pp_items p) - 1) (pp_scroll p + rows)) in
    if new =? pp_scroll p then (false, p)
    else (true, _layout_visible_rows (mkPopup (pp_items p) (pp_rects p) (pp_anchor p) (-1) new (pp_above p) (pp_below p) (pp_open p))).

Definition contains (x y : Z) (p : Popup) : bool :=
  pp_open p && match pp_anchor p with Some r => inside x y r | None => false end.

Fixpoint first_inside (i : Z) (x y : Z) (rects : list rect) : Z :=
  match rects with
  | [] => -1
  | r :: rects => if inside x y r then i else first_inside (i + 1) x y rects
  end.
Definition item_index_at (x y : Z) (p : Popup) : Z := if contains x y p then first_inside 0 x y (pp_rects p) else -1.

Definition active (it : PopupItem) : bool := negb (pi_separator it) && pi_enabled it.
Definition on_move (x y : Z) (p : Popup) : result (bool * Popup) :=
  if negb (pp_open p) then Ok (false, p)
  else
    let idx := item_index_at x y p in
    let? new_hot := (if 0 <=? idx then let? it := index (pp_items p) idx in Ok (if active it then idx else -1) else Ok (-1)) in
    if new_hot =? pp_hot p then Ok (false, p)
    else Ok (true, mkPopup (pp_items p) (pp_rects p) (pp_anchor p) new_hot (pp_scroll p) (pp_above p) (pp_below p) (pp_open p)).

(** The action a click runs, and the menu after it. *)
Definition click (x y : Z) (p : Popup) : result (option A * Popup) :=
  if negb (pp_open p) then Ok (None, p)
  else
    let idx := item_index_at x y p in
    if idx <? 0 then Ok (None, hide p)
    else
      let? it := index (pp_items p) idx in
      Ok (if active it then pi_action it else None, hide p).
End popup.
Arguments PopupItem : clear implicits.
Arguments Popup : clear implicits.

Definition dock_popup_items {A} (pinned : bool) (on_keep on_remove : A) : list (PopupItem A) :=
  if pinned then [mkRow (lit "Remove from Dock") (Some on_remove) false true]
  else [mkRow (lit "Keep in Dock") (Some on_keep) false true].

(** ** The launcher's groups *)

(** [apps/registry.py]: what is registered of an application, besides its
    menus, which the desktop reads through [M]. *)
Record AppInfo (F Mn : Type) : Type := mkApp {
  ai_name : str; ai_description : str; ai_entry : F; ai_icon : option F; ai_category : str; ai_menus : list Mn;
}.
Arguments mkApp {F Mn}. Arguments ai_name {F Mn} _. Arguments ai_description {F Mn} _. Arguments ai_entry {F Mn} _.
Arguments ai_icon {F Mn} _. Arguments ai_category {F Mn} _. Arguments ai_menus {F Mn} _.
Definition register {F Mn} (a : AppInfo F Mn) (apps : list (str * AppInfo F Mn)) : list (str * AppInfo F Mn) := dset (ai_name a) a apps.
Definition list_apps {F Mn} (apps : list (str * AppInfo F Mn)) : list (AppInfo F Mn) := map snd apps.

(** Python's order of strings, and its stable sort. *)
Fixpoint str_leb (a b : str) : bool :=
  match a, b with
  | [], _ => true
  | _ :: _, [] => false
  | x :: a, y :: b => if x =? y then str_leb a b else x <? y
  end.
Fixpoint sort_insert {T} (key : T -> str) (x : T) (l : list T) : list T :=
  match l with
  | [] => [x]
  | y :: l' => if str_leb (key x) (key y) then x :: l else y :: sort_insert key x l'
  end.
Definition sort_by {T} (key : T -> str) (l : list T) : list T := fold_right (sort_insert key) [] l.

Definition category {F Mn} (a : AppInfo F Mn) : str := match ai_category a with [] => lit "app" | c => c end.
(** One of the three groups. *)
Definition launcher_group {F Mn} (cat : str) (apps : list (AppInfo F Mn)) : list (AppInfo F Mn) :=
  sort_by ai_name (List.filter (fun a => beq (category a) cat) apps).

Definition app_label {F Mn} (a : AppInfo F Mn) : str := match ai_description a with [] => ai_name a | d => d end.
Definition app_rows {F Mn A} (launch : str -> A) (apps : list (AppInfo F Mn)) : list (PopupItem A) :=
  match apps with
  | [] => [mkRow (lit "(none)") None false false]
  | _ => map (fun a => mkRow (app_label a) (Some (launch (ai_name a))) false true) apps
  end.
Definition desktop_popup_items {F Mn A} (launch : str -> A) (apps : list (AppInfo F Mn)) : list (PopupItem A) :=
  [mkRow (lit "Demos") None false false] ++ app_rows launch (launcher_group (lit "demo") apps)
  ++ [mkRow [] None true true; mkRow (lit "Games") None false false] ++ app_rows launch (launcher_group (lit "game") apps).

Definition seed_pinned_from_registry {F Mn} (apps : list (AppInfo F Mn)) (d : Dock F) : Dock F :=
  fold_left (fun d a => if beq (ai_category a) (lit "app") then pin (ai_name a) (Some (ai_entry a)) (ai_icon a) d else d) apps d.

(** ** Shortcuts *)

Record Binding : Type := mkBinding { bd_action : str; bd_label : str; bd_code : Z; bd_mods : Z }.
Definition RELEVANT_MODS : Z := Z.lor (Z.lor (Z.lor MOD_SHIFT MOD_CTRL) MOD_ALT) MOD_META.
Definition _DEFAULTS : list Binding :=
  [mkBinding (lit "keybindings") (lit "Open Keybindings") (KEY_F 1) 0;
   mkBinding (lit "source") (lit "View window's source") (KEY_F 2) 0;
   mkBinding (lit "next_window") (lit "Next window") KEY_TAB 0;
   mkBinding (lit "previous_window") (lit "Previous window") KEY_TAB MOD_SHIFT].
(** The module's table, in its order. *)
Definition bindings : Type := list (str * Binding).
Definition _bindings : bindings := map (fun b => (bd_action b, b)) _DEFAULTS.
Definition all_bindings (t : bindings) : list Binding := map snd t.
Definition with_combo (code mods : Z) (b : Binding) : Binding := mkBinding (bd_action b) (bd_label b) code mods.
Definition has_combo (code mods : Z) (b : Binding) : bool := (bd_code b =? code) && (bd_mods b =? mods).

(** The first other action with the combination takes the old one. *)
Fixpoint swap_other (action : str) (row : Binding) (code mods : Z) (t : bindings) : bindings :=
  match t with
  | [] => []
  | (a, b) :: t' =>
      if negb (beq a action) && has_combo code mods b then (a, with_combo (bd_code row) (bd_mods row) b) :: t'
      else (a, b) :: swap_other action row code mods t'
  end.
Definition set_binding (action : str) (code mods : Z) (t : bindings) : result bindings :=
  match dget action t with
  | None => Err KeyError
  | Some row =>
      let mods := Z.land mods RELEVANT_MODS in
      Ok (dset action (with_combo code mods row) (swap_other action row code mods t))
  end.

(** [set_binding] for each row of a list. *)
Fixpoint set_all (rows : list (str * Z * Z)) (t : bindings) : result bindings :=
  match rows with
  | [] => Ok t
  | (a, c, m) :: rows => let? t := set_binding a c m t in set_all rows t
  end.
Definition reset (action : option str) (t : bindings) : result bindings :=
  set_all (map (fun b => (bd_action b, bd_code b, bd_mods b))
    (List.filter (fun b => match action with None => true | Some a => beq a (bd_action b) end) _DEFAULTS)) t.

Definition action_for (t : bindings) (ev : Event) : option str :=
  if negb (ev_kind ev =? EVENT_KEY_DOWN) then None
  else
    let mods := Z.land (ev_mods ev) RELEVANT_MODS in
    match List.find (fun b => has_combo (ev_code ev) mods b) (all_bindings t) with
    | Some b => Some (bd_action b)
    | None => None
    end.

(** The text [save] writes, and what [load] makes of a text. *)
Definition colon : Z := 58.
Definition binding_line (b : Binding) : str :=
  bd_action b ++ [colon] ++ str_of_int (bd_code b) ++ [colon] ++ str_of_int (bd_mods b) ++ [newline].
Definition save_text (t : bindings) : str := concat (map binding_line (all_bindings t)).

(** [line.split(":", 2)] in three parts, or [ValueError]. *)
Fixpoint until_colon (s : str) : option (str * str) :=
  match s with
  | [] => None
  | c :: s' => if c =? colon then Some ([], s') else match until_colon s' with Some (a, b) => Some (c :: a, b) | None => None end
  end.
Definition split3 (line : str) : result (str * str * str) :=
  match until_colon line with
  | Some (a, rest) => match until_colon rest with Some (b, c) => Ok (a, b, c) | None => Err ValueError end
  | None => Err ValueError
  end.
Fixpoint load_lines (lines : list str) (t : bindings) : result bindings * bindings :=
  match lines with
  | [] => (Ok t, t)
  | line :: lines =>
      match (let? (action, code, mods) := split3 line in
             if dmem action t then let? c := py_int code in let? m := py_int mods in set_binding action c m t else Ok t) with
      | Ok t' => load_lines lines t'
      | Err e => (Err e, t)
      end
  end.
(** [splitlines] of an ASCII text; [cur] is the line so far, reversed. *)
Definition line_break (c : Z) : bool := ((10 <=? c) && (c <=? 13)) || ((28 <=? c) && (c <=? 30)).
Fixpoint splitlines (cur : str) (s : str) : list str :=
  match s with
  | [] => match cur with [] => [] | _ => [rev cur] end
  | c :: s' =>
      if line_break c then
        match c =? 13, s' with
        | true, d :: s'' => if d =? 10 then rev cur :: splitlines [] s'' else rev cur :: splitlines [] s'
        | _, _ => rev cur :: splitlines [] s'
        end
      else splitlines (c :: cur) s'
  end.
Definition ascii_only (s : str) : bool := forallb (fun c => c <? 128) s.
(** [load] once the file is read: a bad line undoes everything. *)
Definition load_settings (data : bytes) (t : bindings) : result bindings :=
  if 8192 <? len data then Ok t
  else if negb (ascii_only data) then reset None t
  else match load_lines (splitlines [] data) t with
       | (Ok t', _) => Ok t'
       | (Err ValueError, t') => reset None t'
       | (Err e, _) => Err e
       end.

(** [describe] *)
Definition key_names : list (Z * str) :=
  [(KEY_TAB, lit "Tab"); (KEY_ENTER, lit "Enter"); (KEY_ESC, lit "Esc"); (KEY_SPACE, lit "Space"); (KEY_LEFT, lit "Left");
   (KEY_RIGHT, lit "Right"); (KEY_UP, lit "Up"); (KEY_DOWN, lit "Down"); (KEY_HOME, lit "Home"); (KEY_END, lit "End");
   (KEY_PAGE_UP, lit "PageUp"); (KEY_PAGE_DOWN, lit "PageDown")]
  ++ map (fun n => (KEY_F n, lit "F" ++ str_of_int n)) (range2 1 13).
Definition upper (c : Z) : Z := if (97 <=? c) && (c <=? 122) then c - 32 else c.
Definition describe (b : Binding) : str :=
  let part m name := if has (bd_mods b) m then [lit name] else [] in
  let key := match dget (bd_code b) key_names with
             | Some k => k
             | None => if (32 <=? bd_code b) && (bd_code b <? 127) then [upper (bd_code b)] else str_of_int (bd_code b)
             end in
  join (lit "+") (part MOD_CTRL "Ctrl" ++ part MOD_ALT "Alt" ++ part MOD_META "Meta" ++ part MOD_SHIFT "Shift" ++ [key]).
