(* ===== verification/KeyProps.v ===== *)
(** * Every action keeps a key of its own (kernel/gui/keybindings.py)

    Whatever the user sets, resets or loads from a settings file, no two
    actions share a combination, so each can still be called; resetting gives
    the defaults, and the saved settings load back. *)

From Stdlib Require Import ZArith Lia.
From stdpp Require Import base list numbers strings.
From S2P Require Import Prelude Bytes Pystr Dict Input Dock.

Local Open Scope Z_scope.

Implicit Types (t T : bindings) (b row : Binding).

(** ** The table as a map from actions to combinations *)

Definition combo b : Z * Z := (bd_code b, bd_mods b).
Definition combo_of t (a : str) : option (Z * Z) := match dget a t with Some b => Some (combo b) | None => None end.

Record kb_ok t : Prop := {
  kb_keys : t.*1 = _bindings.*1;
  kb_labels a b : dget a t = Some b -> exists b0, dget a _bindings = Some b0 /\ bd_action b = a /\ bd_label b = bd_label b0;
  kb_distinct a1 a2 k : combo_of t a1 = Some k -> combo_of t a2 = Some k -> a1 = a2;
  kb_mods a b : dget a t = Some b -> Z.land (bd_mods b) RELEVANT_MODS = bd_mods b;
}.

Lemma has_combo_spec c m b : has_combo c m b = true <-> combo b = (c, m).
Proof. unfold has_combo, combo. rewrite andb_true_iff, !Z.eqb_eq. split; [by intros [-> ->]|by intros [= -> ->]]. Qed.

Lemma kb_dict t : kb_ok t -> dict_ok t.
Proof. intros H. unfold dict_ok. rewrite (kb_keys _ H). apply (bool_decide_unpack _). by vm_compute. Qed.
Lemma kb_get t a : kb_ok t -> a ∈ _bindings.*1 -> exists b, dget a t = Some b.
Proof.
  intros H Ha. destruct (dget a t) as [b|] eqn:E; [by exists b|]. apply dget_None in E. by rewrite (kb_keys _ H) in E.
Qed.
Lemma kb_init : kb_ok _bindings.
Proof.
  split; [done| | |].
  - intros a b E. exists b. split_and!; [done| |done]. apply dget_elem in E. unfold _bindings in E.
    apply list_elem_of_fmap in E as (b' & [= -> ->] & _). done.
  - assert (N : NoDup (combo <$> _bindings.*2)) by (apply (bool_decide_unpack _); by vm_compute).
    intros a1 a2 k. unfold combo_of. destruct (dget a1 _bindings) as [b1|] eqn:E1; [|done].
    destruct (dget a2 _bindings) as [b2|] eqn:E2; [|done]. intros [= <-] E. apply (inj Some) in E.
    apply dget_elem in E1. apply dget_elem in E2.
    apply list_elem_of_lookup in E1 as [i E1]. apply list_elem_of_lookup in E2 as [j E2].
    assert (i = j) as <-.
    { apply (NoDup_lookup _ i j (combo b1) N); rewrite !list_lookup_fmap.
      - by rewrite E1.
      - rewrite E2. cbn. by rewrite E. }
    rewrite E1 in E2. by injection E2.
  - intros a b E. apply dget_elem in E. unfold _bindings in E. cbn in E.
    repeat (apply elem_of_cons in E as [[= -> ->]|E]; [done|]). by apply elem_of_nil in E.
Qed.

Lemma dict_eq {V} (d1 d2 : list (str * V)) : dict_ok d1 -> d1.*1 = d2.*1 -> (forall k, dget k d1 = dget k d2) -> d1 = d2.
Proof.
  revert d2. induction d1 as [|[k v] d1 IH]; intros [|[k' v'] d2] H E Hg; try done. cbn [fmap list_fmap fst] in E.
  injection E as -> E. inversion_clear H as [|? ? Hn Hd]. pose proof (Hg k') as Hk. cbn [dget] in Hk. rewrite decide_True in Hk by done.
  rewrite decide_True in Hk by done. injection Hk as ->. f_equal. apply IH; [done..|]. intros a.
  destruct (decide (a = k')) as [->|Hne]; [|by specialize (Hg a); cbn [dget] in Hg; rewrite !decide_False in Hg by congruence].
  assert (dget k' d1 = None) as -> by by apply dget_None. symmetry. apply dget_None. by rewrite <- E.
Qed.

(** ** [set_binding] *)

Lemma swap_keys a row c m t : (swap_other a row c m t).*1 = t.*1.
Proof. induction t as [|[a0 b0] t IH]; [done|]. cbn [swap_other]. case_match; [done|]. cbn. by f_equal. Qed.

Lemma combo_of_cons a0 b0 t a : a <> a0 -> combo_of ((a0, b0) :: t) a = combo_of t a.
Proof. intros Hne. unfold combo_of. cbn [dget]. by rewrite decide_False by congruence. Qed.
Lemma combo_of_head a0 b0 t : combo_of ((a0, b0) :: t) a0 = Some (combo b0).
Proof. unfold combo_of. cbn [dget]. by rewrite decide_True. Qed.

Definition distinct t : Prop := forall a1 a2 k, combo_of t a1 = Some k -> combo_of t a2 = Some k -> a1 = a2.
Lemma combo_of_tail a0 b0 t a k : dict_ok ((a0, b0) :: t) -> combo_of t a = Some k -> a <> a0 /\ combo_of ((a0, b0) :: t) a = Some k.
Proof.
  intros Hd E. assert (a <> a0) as Hne.
  { intros ->. inversion_clear Hd as [|? ? Hn _]. apply dget_None in Hn. unfold combo_of in E. by rewrite Hn in E. }
  by rewrite combo_of_cons.
Qed.
Lemma distinct_tail a0 b0 t : dict_ok ((a0, b0) :: t) -> distinct ((a0, b0) :: t) -> distinct t.
Proof. intros Hd H a1 a2 k E1 E2. eapply combo_of_tail in E1 as [_ E1], E2 as [_ E2]; [|done..]. eauto. Qed.

(** The one action that had the combination gets the old one. *)
Lemma swap_get a row c m t a' : dict_ok t -> distinct t -> a' <> a ->
  dget a' (swap_other a row c m t) =
  match dget a' t with Some b => Some (if has_combo c m b then with_combo (bd_code row) (bd_mods row) b else b) | None => None end.
Proof.
  intros Hd Hi Hne. induction t as [|[a0 b0] t IH]; [done|]. cbn [swap_other].
  destruct (beq_spec a0 a) as [->|Hn]; cbn [negb andb].
  { cbn [dget]. rewrite !decide_False by congruence. apply IH; [by inversion_clear Hd|by eapply distinct_tail]. }
  destruct (has_combo c m b0) eqn:Eb; cbn [dget]; destruct (decide (a0 = a')) as [->|Hn'].
  - by rewrite Eb.
  - destruct (dget a' t) as [b|] eqn:E; [|done]. destruct (has_combo c m b) eqn:Eb'; [|done].
    apply has_combo_spec in Eb, Eb'. destruct Hn'. apply (Hi _ _ (c, m)).
    + rewrite combo_of_head. by rewrite Eb.
    + rewrite combo_of_cons; [unfold combo_of; by rewrite E, Eb'|]. intros ->. inversion_clear Hd as [|? ? Hn' _].
      apply dget_None in Hn'. congruence.
  - by rewrite Eb.
  - apply IH; [by inversion_clear Hd|by eapply distinct_tail].
Qed.
Lemma swap_get_same a row c m t : dget a (swap_other a row c m t) = dget a t.
Proof.
  induction t as [|[a0 b0] t IH]; [done|]. cbn [swap_other]. destruct (beq_spec a0 a) as [->|Hn]; cbn [negb andb].
  - cbn [dget]. by rewrite !decide_True.
  - case_match; cbn [dget]; rewrite !decide_False by done; [done|apply IH].
Qed.

Lemma set_binding_spec t a c m : kb_ok t -> a ∈ _bindings.*1 ->
  let k := (c, Z.land m RELEVANT_MODS) in
  exists t', set_binding a c m t = Ok t' /\ kb_ok t' /\ combo_of t' a = Some k /\
  forall a', a' <> a -> combo_of t' a' = if decide (combo_of t a' = Some k) then combo_of t a else combo_of t a'.
Proof.
  intros H Ha k. destruct (kb_get _ _ H Ha) as [row Er]. unfold set_binding. rewrite Er. subst k.
  set (m' := Z.land m RELEVANT_MODS). set (t1 := swap_other a row c m' t). eexists. split; [reflexivity|].
  assert (G : forall a', dget a' (dset a (with_combo c m' row) t1) =
    if decide (a' = a) then Some (with_combo c m' row)
    else match dget a' t with Some b => Some (if has_combo c m' b then with_combo (bd_code row) (bd_mods row) b else b) | None => None end).
  { intros a'. case_decide as E; [subst; apply dget_dset|]. rewrite dget_dset_ne by done.
    apply swap_get; [by apply kb_dict|exact (kb_distinct _ H)|done]. }
  assert (Ca : combo_of (dset a (with_combo c m' row) t1) a = Some (c, m')) by (unfold combo_of; by rewrite G, decide_True).
  assert (Co : forall a', a' <> a -> combo_of (dset a (with_combo c m' row) t1) a' =
    if decide (combo_of t a' = Some (c, m')) then combo_of t a else combo_of t a').
  { intros a' Hne. unfold combo_of. rewrite G, decide_False, Er by done. destruct (dget a' t) as [b|]; [|done].
    destruct (has_combo c m' b) eqn:Eb.
    - apply has_combo_spec in Eb. by rewrite decide_True by by f_equal.
    - rewrite decide_False; [done|]. intros E%(inj Some)%has_combo_spec. congruence. }
  split_and!; [|done..]. split.
  - rewrite dset_keys, decide_True; unfold t1; rewrite swap_keys; [apply (kb_keys _ H)|]. by rewrite (kb_keys _ H).
  - intros a' b. rewrite G. case_decide as E; [subst|].
    + intros [= <-]. cbn. by apply (kb_labels _ H).
    + destruct (dget a' t) as [b'|] eqn:E'; [|done]. intros [= <-]. destruct (kb_labels _ H _ _ E') as (b0 & ? & ? & ?).
      exists b0. by case_match.
  - intros a1 a2 k. destruct (decide (a1 = a)) as [->|N1], (decide (a2 = a)) as [->|N2]; rewrite ?Ca, ?(Co _ N1), ?(Co _ N2); [done|..].
    + intros [= <-]. case_decide as E; [|done]. intros E'. destruct N2. by apply (kb_distinct _ H _ _ (c, m')).
    + intros Hk [= <-]. revert Hk. case_decide as E; [|done]. intros E'. by apply (kb_distinct _ H _ _ (c, m')).
    + do 2 case_decide; intros E1 E2; try (by apply (kb_distinct _ H _ _ k)).
      * by apply (kb_distinct _ H _ _ (c, m')).
      * destruct N2. symmetry. by apply (kb_distinct _ H _ _ k).
      * destruct N1. by apply (kb_distinct _ H _ _ k).
  - intros a' b. rewrite G. case_decide as E.
    + intros [= <-]. cbn. unfold m'. by rewrite <- Z.land_assoc, Z.land_diag.
    + destruct (dget a' t) as [b'|] eqn:E'; [|done]. intros [= <-]. case_match; cbn; [by apply (kb_mods _ H a)|by apply (kb_mods _ H a')].
Qed.

(** ** Setting all the combinations of a table gives that table *)

Definition row_of T (a : str) : str * Z * Z := match combo_of T a with Some (c, m) => (a, c, m) | None => (a, 0, 0) end.
Lemma set_all_spec T l t D : kb_ok T -> kb_ok t -> l ⊆ _bindings.*1 -> (forall a, a ∈ D -> combo_of t a = combo_of T a) ->
  exists t', set_all (map (row_of T) l) t = Ok t' /\ kb_ok t' /\ forall a, a ∈ D ++ l -> combo_of t' a = combo_of T a.
Proof.
  intros HT. revert t D. induction l as [|a l IH]; intros t D Ht Hl HD.
  { exists t. rewrite app_nil_r. done. }
  assert (Ha : a ∈ _bindings.*1) by (apply Hl; by left). destruct (kb_get _ _ HT Ha) as [b Eb].
  assert (Ec : combo_of T a = Some (combo b)) by (unfold combo_of; by rewrite Eb).
  cbn [map set_all]. unfold row_of at 1. rewrite Ec. unfold combo at 1.
  destruct (set_binding_spec t a (bd_code b) (bd_mods b) Ht Ha) as (t1 & E1 & Ht1 & C1 & Co). rewrite E1. cbn [rbind].
  rewrite (kb_mods _ HT _ _ Eb) in C1, Co. fold (combo b) in C1, Co.
  destruct (IH t1 (D ++ [a])) as (t' & E' & Ht' & H'); [done|intros x Hx; apply Hl; by right| |].
  - intros a' [Hin|Hin%list_elem_of_singleton]%elem_of_app; [|subst; congruence].
    destruct (decide (a' = a)) as [->|Hne]; [congruence|]. rewrite (Co _ Hne), HD by done.
    rewrite decide_False; [done|]. intros E. destruct Hne. by apply (kb_distinct _ HT _ _ (combo b)).
  - exists t'. split_and!; [done..|]. intros a'. rewrite cons_middle, app_assoc. apply H'.
Qed.

Lemma set_all_restore T t : kb_ok T -> kb_ok t -> set_all (map (row_of T) (_bindings.*1)) t = Ok T.
Proof.
  intros HT Ht. destruct (set_all_spec T (_bindings.*1) t [] HT Ht) as (t' & -> & Ht' & H'); [done|by intros ? ?%elem_of_nil|].
  f_equal. apply dict_eq; [by apply kb_dict|by rewrite (kb_keys _ HT), (kb_keys _ Ht')|]. intros a.
  destruct (decide (a ∈ _bindings.*1)) as [Ha|Ha].
  - destruct (kb_get _ _ HT Ha) as [b E], (kb_get _ _ Ht' Ha) as [b' E']. specialize (H' a Ha). unfold combo_of in H'. rewrite E, E' in *.
    injection H' as H1 H2. destruct (kb_labels _ HT _ _ E) as (b0 & G & A1 & L1), (kb_labels _ Ht' _ _ E') as (b1 & G' & A2 & L2).
    destruct b, b'; cbn in *. congruence.
  - rewrite <- (kb_keys _ HT) in Ha. pose proof Ha as Ha'. rewrite (kb_keys _ HT), <- (kb_keys _ Ht') in Ha'.
    apply dget_None in Ha, Ha'. congruence.
Qed.

(** ** Resetting and loading keep the table well formed *)

Lemma set_all_ok rows t : kb_ok t -> Forall (fun r => r.1.1 ∈ _bindings.*1) rows -> exists t', set_all rows t = Ok t' /\ kb_ok t'.
Proof.
  intros Ht HF. revert t Ht. induction HF as [|[[a c] m] rows Ha HF IH]; intros t Ht; [by exists t|]. cbn [set_all].
  destruct (set_binding_spec t a c m Ht Ha) as (t1 & -> & Ht1 & _). by apply IH.
Qed.
Lemma reset_ok o t : kb_ok t -> exists t', reset o t = Ok t' /\ kb_ok t'.
Proof.
  intros Ht. apply set_all_ok; [done|]. apply Forall_forall. intros r Hr. apply list_elem_of_fmap in Hr as (b & -> & Hb).
  apply list_elem_of_In, filter_In in Hb as [Hb _]. cbn [fst snd]. apply list_elem_of_fmap. exists (bd_action b, b). split; [done|].
  apply list_elem_of_fmap. exists b. split; [done|]. by apply list_elem_of_In.
Qed.
Lemma reset_all t : kb_ok t -> reset None t = Ok _bindings.
Proof. intros Ht. exact (set_all_restore _bindings t kb_init Ht). Qed.

Lemma split3_error s e : split3 s = Err e -> e = ValueError.
Proof. unfold split3. repeat case_match; congruence. Qed.
Lemma load_line_ok t line : kb_ok t ->
  match (let? (action, code, mods) := split3 line in
         if dmem action t then let? c := py_int code in let? m := py_int mods in set_binding action c m t else Ok t) with
  | Ok t' => kb_ok t'
  | Err e => e = ValueError
  end.
Proof.
  intros Ht. destruct (split3 line) as [[[a c] m]|e] eqn:Es; cbn [rbind]; [|by eapply split3_error].
  unfold dmem. destruct (dget a t) as [row|] eqn:Ea; [|done].
  destruct (py_int c) as [c'|e] eqn:Ec; cbn [rbind]; [|by eapply py_int_error].
  destruct (py_int m) as [m'|e] eqn:Em; cbn [rbind]; [|by eapply py_int_error].
  destruct (set_binding_spec t a c' m' Ht) as (t' & -> & ? & _); [|done].
  rewrite <- (kb_keys _ Ht). apply dget_elem in Ea. by apply (list_elem_of_fmap_2 fst) in Ea.
Qed.
Lemma load_lines_ok lines t : kb_ok t ->
  match load_lines lines t with (Ok t', _) => kb_ok t' | (Err e, t') => e = ValueError /\ kb_ok t' end.
Proof.
  revert t. induction lines as [|line lines IH]; intros t Ht; cbn [load_lines]; [done|].
  pose proof (load_line_ok t line Ht) as H. destruct (let? _ := split3 line in _) as [t'|e]; [by apply IH|by subst].
Qed.
(** Loading never raises, whatever the file holds. *)
Lemma load_settings_ok data t : kb_ok t -> exists t', load_settings data t = Ok t' /\ kb_ok t'.
Proof.
  intros Ht. unfold load_settings. case_match; [by exists t|]. case_match; [by apply reset_ok|].
  pose proof (load_lines_ok (splitlines [] data) t Ht) as Hl. destruct (load_lines _ t) as [[t'|e] t0]; [by exists t'|].
  destruct Hl as [-> Hl]. by apply reset_ok.
Qed.

Inductive kb_op : Type := KSet (action : str) (code mods : Z) | KReset (action : option str) | KLoad (data : bytes).
Definition kb_run t (op : kb_op) : result bindings :=
  match op with KSet a c m => set_binding a c m t | KReset o => reset o t | KLoad data => load_settings data t end.
(** A [KeyError] for an action there is none of leaves the table as it was. *)
Definition kb_step t (op : kb_op) : bindings := match kb_run t op with Ok t' => t' | Err _ => t end.

Lemma kb_step_ok op t : kb_ok t -> kb_ok (kb_step t op).
Proof.
  intros Ht. unfold kb_step. destruct op as [a c m|o|data]; cbn [kb_run].
  - destruct (dget a t) as [row|] eqn:E; [|unfold set_binding; by rewrite E].
    destruct (set_binding_spec t a c m Ht) as (t' & -> & ? & _); [|done].
    rewrite <- (kb_keys _ Ht). apply dget_elem in E. by apply (list_elem_of_fmap_2 fst) in E.
  - by destruct (reset_ok o t Ht) as (t' & -> & ?).
  - by destruct (load_settings_ok data t Ht) as (t' & -> & ?).
Qed.
Lemma kb_steps_ok ops t : kb_ok t -> kb_ok (fold_left kb_step ops t).
Proof. revert t. induction ops as [|op ops IH]; intros t Ht; [done|]. cbn. by apply IH, kb_step_ok. Qed.

Lemma action_for_spec t ev a : kb_ok t -> ev_kind ev = EVENT_KEY_DOWN ->
  action_for t ev = Some a <-> combo_of t a = Some (ev_code ev, Z.land (ev_mods ev) RELEVANT_MODS).
Proof.
  intros Ht Ek. unfold action_for. rewrite Ek, Z.eqb_refl. cbn [negb]. set (m := Z.land _ _).
  assert (F : forall b, b ∈ all_bindings t -> dget (bd_action b) t = Some b).
  { intros b Hb. apply list_elem_of_fmap in Hb as ([a' b'] & -> & Hb). apply elem_dget in Hb as E; [|by apply kb_dict].
    cbn [snd]. destruct (kb_labels _ Ht _ _ E) as (_ & _ & -> & _). done. }
  destruct (List.find _ (all_bindings t)) as [b|] eqn:E.
  - apply find_some in E as [Hb Hc]. apply list_elem_of_In in Hb. apply has_combo_spec in Hc. apply F in Hb.
    assert (Hcb : combo_of t (bd_action b) = Some (ev_code ev, m)) by (unfold combo_of; by rewrite Hb, Hc). split.
    + by intros [= <-].
    + intros Ha. f_equal. by apply (kb_distinct _ Ht _ _ (ev_code ev, m)).
  - split; [done|]. unfold combo_of. destruct (dget a t) as [b|] eqn:Eb; [|done]. intros [= Hc1 Hc2].
    assert (Hb : In b (all_bindings t)).
    { apply list_elem_of_In, list_elem_of_fmap. exists (a, b). split; [done|]. by apply dget_elem. }
    pose proof (find_none _ _ E b Hb) as Hn. cbn in Hn. unfold has_combo in Hn. by rewrite Hc1, Hc2, !Z.eqb_refl in Hn.
Qed.

(** C35: whatever the user sets and resets and whatever settings files are
    loaded, every action of the shortcut table keeps a combination that calls
    it and no other action, setting one gives it the combination asked for, and
    resetting restores the defaults exactly. *)
Theorem shortcuts_stay_reachable ops a :
  let t := fold_left kb_step ops _bindings in
  a ∈ map bd_action _DEFAULTS ->
  (exists code mods, Z.land mods RELEVANT_MODS = mods /\
     forall ev, ev_kind ev = EVENT_KEY_DOWN ->
       action_for t ev = Some a <-> ev_code ev = code /\ Z.land (ev_mods ev) RELEVANT_MODS = mods) /\
  (forall code mods, exists t', set_binding a code mods t = Ok t' /\
     forall ev, ev_kind ev = EVENT_KEY_DOWN -> ev_code ev = code -> ev_mods ev = mods -> action_for t' ev = Some a) /\
  reset None t = Ok _bindings.
Proof.
  intros t Ha. assert (Ht : kb_ok t) by apply kb_steps_ok, kb_init.
  assert (Ha' : a ∈ _bindings.*1) by exact Ha. destruct (kb_get _ _ Ht Ha') as [b Eb]. split_and!.
  - exists (bd_code b), (bd_mods b). split; [by apply (kb_mods _ Ht a)|]. intros ev Ek. rewrite action_for_spec by done.
    unfold combo_of, combo. rewrite Eb. split; [by intros [= -> ->]|by intros [-> ->]].
  - intros c m. destruct (set_binding_spec t a c m Ht Ha') as (t' & E & Ht' & Hc & _). exists t'. split; [done|].
    intros ev Ek <- <-. by apply action_for_spec.
  - by apply reset_all.
Qed.
Lemma shortcuts_stay_reachable_witness :
  let t := fold_left kb_step [KSet (lit "next_window") (KEY_F 1) 0; KLoad (lit "source:bad")] _bindings in
  reset None t = Ok _bindings.
Proof.
  apply (shortcuts_stay_reachable [KSet (lit "next_window") (KEY_F 1) 0; KLoad (lit "source:bad")] (lit "source")).
  apply (bool_decide_unpack _). by vm_compute.
Defined.

(** ** Saved settings load back *)

Lemma until_colon_app a s : colon ∉ a -> until_colon (a ++ colon :: s) = Some (a, s).
Proof.
  induction a as [|c a IH]; intros Ha; cbn [app until_colon]; [by rewrite Z.eqb_refl|]. apply not_elem_of_cons in Ha as [Hc Ha].
  destruct (Z.eqb_spec c colon) as [->|]; [done|]. by rewrite IH.
Qed.
Lemma splitlines_line cur l s : Forall (fun c => line_break c = false) l ->
  splitlines cur (l ++ newline :: s) = (rev cur ++ l) :: splitlines [] s.
Proof.
  intros Hl. revert cur. induction Hl as [|c l Hc Hl IH]; intros cur; cbn [app splitlines]; [by rewrite app_nil_r|].
  rewrite Hc, IH. cbn [rev]. by rewrite <- app_assoc.
Qed.
Lemma splitlines_lines ls : Forall (Forall (fun c => line_break c = false)) ls ->
  splitlines [] (concat (map (fun l => l ++ [newline]) ls)) = ls.
Proof.
  induction 1 as [|l ls Hl Hls IH]; [done|]. cbn [map concat]. rewrite <- app_assoc. cbn [app]. by rewrite splitlines_line, IH.
Qed.

Definition plain_char (c : Z) : bool := (32 <=? c) && (c <? 128) && negb (c =? colon).
Lemma plain_char_spec c : plain_char c = true -> 32 <= c < 128 /\ c <> colon.
Proof. unfold plain_char. rewrite !andb_true_iff, negb_true_iff, Z.leb_le, Z.ltb_lt, Z.eqb_neq. tauto. Qed.
Lemma plain_no_colon s : Forall (fun c => plain_char c = true) s -> colon ∉ s.
Proof. intros HF Hin. rewrite Forall_forall in HF. by apply HF, plain_char_spec in Hin as [_ ?]. Qed.
Lemma str_of_int_plain n : Forall (fun c => plain_char c = true) (str_of_int n).
Proof.
  eapply Forall_impl; [apply str_of_int_chars|]. intros c [Hc| ->]; [|done]. unfold is_digit in Hc. unfold plain_char, colon. lia.
Qed.

(** The text of a row without its newline. *)
Definition row_text b : str := bd_action b ++ colon :: str_of_int (bd_code b) ++ colon :: str_of_int (bd_mods b).
Lemma row_text_plain b : Forall (fun c => plain_char c = true) (bd_action b) -> Forall (fun c => 32 <= c < 128) (row_text b).
Proof.
  intros Ha. assert (P : forall s, Forall (fun c => plain_char c = true) s -> Forall (fun c => 32 <= c < 128) s).
  { intros s HF. eapply Forall_impl; [exact HF|]. intros c Hc. by apply plain_char_spec in Hc as [? _]. }
  unfold row_text. apply Forall_app; split; [by apply P|]. constructor; [done|].
  apply Forall_app; split; [apply P, str_of_int_plain|]. constructor; [done|]. apply P, str_of_int_plain.
Qed.
Lemma split3_row b : Forall (fun c => plain_char c = true) (bd_action b) ->
  split3 (row_text b) = Ok (bd_action b, str_of_int (bd_code b), str_of_int (bd_mods b)).
Proof.
  intros Ha. unfold split3, row_text. rewrite until_colon_app by by apply plain_no_colon.
  by rewrite until_colon_app by apply plain_no_colon, str_of_int_plain.
Qed.
Lemma load_lines_rows bs t : kb_ok t ->
  Forall (fun b => bd_action b ∈ _bindings.*1 /\ Forall (fun c => plain_char c = true) (bd_action b)) bs ->
  fst (load_lines (map row_text bs) t) = set_all (map (fun b => (bd_action b, bd_code b, bd_mods b)) bs) t.
Proof.
  intros Ht HF. revert t Ht. induction HF as [|b bs [Hk Hp] HF IH]; intros t Ht; [done|]. cbn [map load_lines set_all].
  rewrite split3_row by done. cbn [rbind]. unfold dmem. destruct (kb_get _ _ Ht Hk) as [row ->].
  rewrite !py_int_str_of_int. cbn [rbind].
  destruct (set_binding_spec t (bd_action b) (bd_code b) (bd_mods b) Ht Hk) as (t' & -> & Ht' & _). by apply IH.
Qed.

Lemma actions_plain : Forall (Forall (fun c => plain_char c = true)) (_bindings.*1).
Proof. apply (bool_decide_unpack _). by vm_compute. Qed.
Lemma kb_rows_ok t : kb_ok t ->
  Forall (fun b => bd_action b ∈ _bindings.*1 /\ Forall (fun c => plain_char c = true) (bd_action b)) (all_bindings t).
Proof.
  intros Ht. apply Forall_forall. intros b Hb. apply list_elem_of_fmap in Hb as ([a b'] & -> & Hb). cbn [snd].
  apply elem_dget in Hb as E; [|by apply kb_dict]. destruct (kb_labels _ Ht _ _ E) as (_ & _ & -> & _).
  assert (Ha : a ∈ _bindings.*1) by (rewrite <- (kb_keys _ Ht); by apply (list_elem_of_fmap_2 fst) in Hb).
  split; [done|]. pose proof actions_plain as HF. rewrite Forall_forall in HF. by apply HF.
Qed.
Lemma kb_rows t : kb_ok t -> map (fun b => (bd_action b, bd_code b, bd_mods b)) (all_bindings t) = map (row_of t) (_bindings.*1).
Proof.
  intros Ht. rewrite <- (kb_keys _ Ht). unfold all_bindings. rewrite map_map. unfold fmap, list_fmap.
  change ((fix go l := match l with [] => [] | x :: l => fst x :: go l end) t) with (map (@fst str Binding) t).
  rewrite map_map. apply map_ext_in. intros [a b] Hb. apply list_elem_of_In in Hb. apply elem_dget in Hb; [|by apply kb_dict].
  cbn [fst snd]. unfold row_of, combo_of. rewrite Hb. cbn. by destruct (kb_labels _ Ht _ _ Hb) as (_ & _ & -> & _).
Qed.

(** The settings the desktop saves load back: from whatever table the next
    start has, reading the saved text gives the saved table. *)
Theorem saved_shortcuts_load_back ops ops' :
  let t := fold_left kb_step ops _bindings in
  len (save_text t) <= 8192 ->
  load_settings (save_text t) (fold_left kb_step ops' _bindings) = Ok t.
Proof.
  intros t Hlen. assert (Ht : kb_ok t) by apply kb_steps_ok, kb_init. set (t0 := fold_left kb_step ops' _bindings).
  assert (Ht0 : kb_ok t0) by apply kb_steps_ok, kb_init. pose proof (kb_rows_ok t Ht) as Hr. unfold load_settings.
  assert (Es : save_text t = concat (map (fun l => l ++ [newline]) (map row_text (all_bindings t)))).
  { unfold save_text. rewrite map_map. f_equal. apply map_ext. intros b. unfold binding_line, row_text.
    by rewrite <- !app_assoc; cbn [app]; rewrite <- !app_assoc. }
  destruct (Z.ltb_spec 8192 (len (save_text t))) as [?|_]; [lia|].
  assert (Hc : Forall (Forall (fun c => 32 <= c < 128)) (map row_text (all_bindings t))).
  { apply List.Forall_map. eapply Forall_impl; [exact Hr|]. intros b [_ Hb]. by apply row_text_plain. }
  assert (Ea : ascii_only (save_text t) = true).
  { unfold ascii_only. rewrite Es. apply forallb_forall. intros c Hin. apply Z.ltb_lt. apply in_concat in Hin as (l & Hl & Hin).
    apply in_map_iff in Hl as (l' & <- & Hl'). rewrite Forall_forall in Hc. apply list_elem_of_In in Hl'. apply Hc in Hl'.
    rewrite Forall_forall in Hl'. apply in_app_iff in Hin as [Hin|[<-|[]]]; [|done]. apply list_elem_of_In, Hl' in Hin. lia. }
  rewrite Ea. cbn [negb]. rewrite Es, splitlines_lines.
  - pose proof (load_lines_rows (all_bindings t) t0 Ht0 Hr) as El. rewrite kb_rows, set_all_restore in El by done.
    destruct (load_lines _ t0) as [r t1]. cbn in El. by subst.
  - eapply Forall_impl; [exact Hc|]. intros l Hl. eapply Forall_impl; [exact Hl|]. intros c Hcc. cbv beta in Hcc. unfold line_break. lia.
Qed.
Lemma saved_shortcuts_load_back_witness :
  load_settings (save_text (fold_left kb_step [KSet (lit "source") KEY_TAB MOD_SHIFT] _bindings)) _bindings
  = Ok (fold_left kb_step [KSet (lit "source") KEY_TAB MOD_SHIFT] _bindings).
Proof. apply (saved_shortcuts_load_back [KSet (lit "source") KEY_TAB MOD_SHIFT] []). vm_compute. discriminate. Defined.
