(* ===== verification/Menubar.v ===== *)
(** * The menu bar (kernel/gui/menubar.py)

    The titles of the bar, the open drop-down and what a click does.  Drawing
    is kept to the geometry it leaves behind for the hit tests.  [A] are the
    callables of the items; [measure] gives the size of a rendered text, from
    the host's font or from the bitmap font.  After a frame is drawn every
    click is answered by the title or the row that was drawn there, and no
    later event of that frame fails; replacing the menus before the next frame
    breaks this. *)

From Stdlib Require Import ZArith Lia.
From stdpp Require Import base list numbers strings.
From S2P Require Import Prelude Bytes Pystr Dict Input Dock DockProps.

Local Open Scope Z_scope.

Definition GLYPH_H : Z := 8.
Definition MENU_TITLE_PAD_X : Z := 12.
Definition MENU_TITLE_GAP : Z := 8.
Definition DROPDOWN_PAD_X : Z := 14.
Definition DROPDOWN_PAD_Y : Z := 6.
Definition ITEM_H : Z := 22.
Definition SEPARATOR_H : Z := 8.

(** The bitmap font's answer of [_measure_text]. *)
Definition bitmap_measure (text : str) : Z * Z := (Z.max 1 (len text) * GLYPH_W, GLYPH_H).

Section menubar.
Context {A : Type} (measure : str -> Z * Z).

Record MenuItem : Type := mkMenuItem { mi_label : str; mi_action : option A; mi_separator : bool; mi_enabled : bool }.
Definition MenuItem_sep : MenuItem := mkMenuItem [] None true true.
Record Menu : Type := mkMenu { mn_title : str; mn_items : list MenuItem }.

Record MenuBar : Type := mkBar {
  mb_system : list Menu; mb_app : list Menu; mb_open_idx : Z; mb_hot : Z; mb_titles : list rect;
  mb_anchor : option rect; mb_rows : list rect; mb_right_text : str;
}.
Definition MenuBar_init : MenuBar := mkBar [] [] (-1) (-1) [] None [] [].

Definition set_open (o h : Z) (b : MenuBar) : MenuBar :=
  mkBar (mb_system b) (mb_app b) o h (mb_titles b) (mb_anchor b) (mb_rows b) (mb_right_text b).
Definition set_system_menus (menus : list Menu) (b : MenuBar) : MenuBar :=
  mkBar menus (mb_app b) (-1) (-1) (mb_titles b) (mb_anchor b) (mb_rows b) (mb_right_text b).
Definition set_app_menus (menus : list Menu) (b : MenuBar) : MenuBar :=
  mkBar (mb_system b) menus (-1) (-1) (mb_titles b) (mb_anchor b) (mb_rows b) (mb_right_text b).
Definition set_right_text (text : str) (b : MenuBar) : MenuBar :=
  mkBar (mb_system b) (mb_app b) (mb_open_idx b) (mb_hot b) (mb_titles b) (mb_anchor b) (mb_rows b) text.
Definition all_menus (b : MenuBar) : list Menu := mb_system b ++ mb_app b.
Definition is_open (b : MenuBar) : bool := 0 <=? mb_open_idx b.
Definition close_menu (b : MenuBar) : MenuBar := set_open (-1) (-1) b.

(** ** Layout *)

Fixpoint title_rects (x : Z) (menus : list Menu) : list rect :=
  match menus with
  | [] => []
  | m :: menus =>
      let box_w := fst (measure (mn_title m)) + MENU_TITLE_PAD_X in
      (x - MENU_TITLE_PAD_X / 2, 0, box_w, MENU_BAR_H) :: title_rects (x + (box_w + MENU_TITLE_GAP)) menus
  end.

Definition item_h (it : MenuItem) : Z := if mi_separator it then SEPARATOR_H else ITEM_H.
Definition _measure_dropdown (m : Menu) : Z * Z :=
  let text_w := fold_left (fun w it => if mi_separator it then w else Z.max w (fst (measure (mi_label it)))) (mn_items m) 0 in
  (Z.max (text_w + DROPDOWN_PAD_X * 2) 120, fold_left (fun h it => h + item_h it) (mn_items m) (DROPDOWN_PAD_Y * 2)).

Fixpoint item_rects (x w cy : Z) (items : list MenuItem) : list rect :=
  match items with
  | [] => []
  | it :: items => (x, cy, w, item_h it) :: item_rects x w (cy + item_h it) items
  end.

(** [_render_dropdown]: the panel and its rows. *)
Definition _render_dropdown (m : Menu) (anchor_x anchor_y total_w : Z) (b : MenuBar) : MenuBar :=
  let (w, h) := _measure_dropdown m in
  let x := if total_w <? anchor_x + w then Z.max 0 (total_w - w - 4) else anchor_x in
  let y := anchor_y in
  mkBar (mb_system b) (mb_app b) (mb_open_idx b) (mb_hot b) (mb_titles b) (Some (x, y, w, h))
    (mb_rows b ++ item_rects x w (y + DROPDOWN_PAD_Y) (mn_items m)) (mb_right_text b).

Definition rect_x (r : rect) : Z := let '(x, _, _, _) := r in x.
Definition render (total_w : Z) (b : MenuBar) : result MenuBar :=
  let menus := all_menus b in
  let titles := title_rects MENU_TITLE_GAP menus in
  let b := mkBar (mb_system b) (mb_app b) (mb_open_idx b) (mb_hot b) titles None [] (mb_right_text b) in
  if (0 <=? mb_open_idx b) && (mb_open_idx b <? len menus) then
    let? m := index menus (mb_open_idx b) in
    let? r := index titles (mb_open_idx b) in
    Ok (_render_dropdown m (rect_x r) MENU_BAR_H total_w b)
  else Ok b.

(** Where the right-aligned text goes in the bitmap font. *)
Definition right_text_pos (total_w : Z) (b : MenuBar) : option (Z * Z) :=
  match mb_right_text b with
  | [] => None
  | t => Some (total_w - len t * GLYPH_W - MENU_TITLE_GAP, Z.max 0 ((MENU_BAR_H - GLYPH_H) / 2))
  end.

(** ** Events *)

Inductive zone : Type := ZTitle | ZItem | ZOutside.
Definition hit_zone (x y : Z) (b : MenuBar) : zone :=
  if y <? MENU_BAR_H then ZTitle
  else if is_open b && match mb_anchor b with Some r => inside x y r | None => false end then ZItem
  else ZOutside.

Definition _all_menus_items_for_open (b : MenuBar) : result (list MenuItem) :=
  if mb_open_idx b <? 0 then Ok []
  else let? m := index (all_menus b) (mb_open_idx b) in Ok (mn_items m).

Definition item_active (it : MenuItem) : bool := negb (mi_separator it) && mi_enabled it.
Definition on_mouse_move (x y : Z) (b : MenuBar) : result (bool * MenuBar) :=
  if mb_open_idx b <? 0 then Ok (false, b)
  else
    let? new_hot :=
      match hit_zone x y b with
      | ZItem =>
          let i := first_inside 0 x y (mb_rows b) in
          if i <? 0 then Ok (-1)
          else
            let? items := _all_menus_items_for_open b in
            if i <? len items then let? it := index items i in Ok (if item_active it then i else -1) else Ok (-1)
      | _ => Ok (-1)
      end in
    if new_hot =? mb_hot b then Ok (false, b) else Ok (true, set_open (mb_open_idx b) new_hot b).

(** The first title whose columns hold [x]. *)
Fixpoint title_at (i x : Z) (titles : list rect) : Z :=
  match titles with
  | [] => -1
  | (tx, _, tw, _) :: titles => if (tx <=? x) && (x <? tx + tw) then i else title_at (i + 1) x titles
  end.

(** Whether the bar takes the click, and the callable it runs. *)
Definition on_mouse_down (x y : Z) (b : MenuBar) : result (bool * option A * MenuBar) :=
  match hit_zone x y b with
  | ZTitle =>
      let i := title_at 0 x (mb_titles b) in
      if 0 <=? i then Ok (true, None, if mb_open_idx b =? i then close_menu b else set_open i (-1) b)
      else if is_open b then Ok (true, None, close_menu b)
      else Ok (false, None, b)
  | ZItem =>
      let i := first_inside 0 x y (mb_rows b) in
      if i <? 0 then Ok (true, None, b)
      else
        let? items := _all_menus_items_for_open b in
        if len items <=? i then Ok (true, None, b)
        else let? it := index items i in Ok (true, if item_active it then mi_action it else None, close_menu b)
  | ZOutside => if is_open b then Ok (true, None, close_menu b) else Ok (false, None, b)
  end.
End menubar.
Arguments MenuItem : clear implicits.
Arguments Menu : clear implicits.
Arguments MenuBar : clear implicits.

Section props.
Context {A : Type} (measure : str -> Z * Z).
Implicit Types (b : MenuBar A) (it : MenuItem A) (items : list (MenuItem A)) (m : Menu A).

Lemma item_h_pos it : 8 <= item_h it.
Proof. unfold item_h, SEPARATOR_H, ITEM_H. case_match; lia. Qed.

(** *** Rows *)
Definition heights items : Z := fold_right (fun it h => item_h it + h) 0 items.
Lemma heights_nonneg items : 0 <= heights items.
Proof. unfold heights. induction items as [|it items IH]; cbn; [done|]. pose proof (item_h_pos it). lia. Qed.
Lemma heights_fold items a : fold_left (fun h it => h + item_h it) items a = a + heights items.
Proof. unfold heights. revert a. induction items as [|it items IH]; intros a; cbn; [lia|]. rewrite IH. lia. Qed.

Lemma item_rects_length x w cy items : length (item_rects x w cy items) = length items.
Proof. revert cy. induction items as [|it items IH]; intros cy; cbn; [done|]. by rewrite IH. Qed.
Lemma item_rects_in x w cy items r px py : r ∈ item_rects x w cy items -> inside px py r = true ->
  x <= px < x + w /\ cy <= py < cy + heights items.
Proof.
  revert cy. induction items as [|it items IH]; intros cy; cbn [item_rects heights fold_right]; [by intros ?%elem_of_nil|].
  pose proof (heights_nonneg items). pose proof (item_h_pos it). fold (heights items).
  intros [->|Hr]%elem_of_cons Hi; [rewrite inside_spec in Hi; lia|]. apply IH in Hr; [lia|done].
Qed.
Lemma item_rects_disjoint x w cy items j k r r' px py : item_rects x w cy items !! j = Some r -> item_rects x w cy items !! k = Some r' ->
  inside px py r = true -> inside px py r' = true -> j = k.
Proof.
  revert cy j k. induction items as [|it items IH]; intros cy j k; [done|]. cbn [item_rects].
  destruct j as [|j], k as [|k]; cbn; intros Ej Ek Hj Hk; try done.
  - injection Ej as <-. rewrite inside_spec in Hj. apply list_elem_of_lookup_2 in Ek. eapply item_rects_in in Ek; [|exact Hk]. lia.
  - injection Ek as <-. rewrite inside_spec in Hk. apply list_elem_of_lookup_2 in Ej. eapply item_rects_in in Ej; [|exact Hj]. lia.
  - f_equal. by eapply IH.
Qed.

(** *** Titles *)
Definition in_title (x : Z) (r : rect) : bool := let '(tx, _, tw, _) := r in (tx <=? x) && (x <? tx + tw).
Lemma title_rects_length x menus : length (title_rects (A := A) measure x menus) = length menus.
Proof. revert x. induction menus as [|m menus IH]; intros x; cbn; [done|]. by rewrite IH. Qed.
Lemma title_at_spec i x titles :
  (title_at i x titles = -1 /\ forall j r, titles !! j = Some r -> in_title x r = false) \/
  exists j r, titles !! j = Some r /\ in_title x r = true /\ title_at i x titles = i + Z.of_nat j.
Proof.
  revert i. induction titles as [|[[[tx ty] tw] th] titles IH]; intros i; cbn [title_at]; [left; split; [done|]; by intros j r Hj|].
  fold (in_title x (tx, ty, tw, th)). destruct (in_title x (tx, ty, tw, th)) eqn:E.
  - right. exists 0%nat, (tx, ty, tw, th). split_and!; [done..|lia].
  - destruct (IH (i + 1)) as [[-> Hn]|(j & r & Ej & Er & ->)].
    + left. split; [done|]. intros [|j] r; cbn; [by intros [= <-]|apply Hn].
    + right. exists (S j), r. split_and!; [done..|lia].
Qed.
Lemma titles_disjoint (Hm : forall s, 0 <= fst (measure s)) x0 menus x j k r r' :
  title_rects (A := A) measure x0 menus !! j = Some r -> title_rects measure x0 menus !! k = Some r' ->
  in_title x r = true -> in_title x r' = true -> j = k.
Proof.
  assert (G : forall menus x0 r, r ∈ title_rects (A := A) measure x0 menus -> in_title x r = true -> x0 - 6 <= x).
  { clear menus x0 r. induction menus as [|m menus IH]; intros x0 r; cbn [title_rects]; [by intros ?%elem_of_nil|].
    intros [->|Hr]%elem_of_cons Hi; [unfold in_title in Hi; change (MENU_TITLE_PAD_X / 2) with 6 in Hi; lia|].
    apply IH in Hr; [|done]. pose proof (Hm (mn_title m)). unfold MENU_TITLE_PAD_X, MENU_TITLE_GAP in Hr. lia. }
  revert x0 j k. induction menus as [|m menus IH]; intros x0 j k; [done|]. cbn [title_rects].
  pose proof (Hm (mn_title m)) as Hw.
  destruct j as [|j], k as [|k]; cbn [lookup list_lookup]; intros Ej Ek Hj Hk; try done.
  - injection Ej as <-. apply list_elem_of_lookup_2, G in Ek; [|done]. unfold in_title, MENU_TITLE_PAD_X, MENU_TITLE_GAP in *.
    change (12 / 2) with 6 in Hj. lia.
  - injection Ek as <-. apply list_elem_of_lookup_2, G in Ej; [|done]. unfold in_title, MENU_TITLE_PAD_X, MENU_TITLE_GAP in *.
    change (12 / 2) with 6 in Hk. lia.
  - f_equal. by eapply IH.
Qed.

(** ** After a frame *)

Definition opened b : option (Menu A) := if 0 <=? mb_open_idx b then all_menus b !! Z.to_nat (mb_open_idx b) else None.
Record drawn b b1 : Prop := {
  dw_menus : mb_system b1 = mb_system b /\ mb_app b1 = mb_app b /\ mb_open_idx b1 = mb_open_idx b;
  dw_titles : mb_titles b1 = title_rects measure MENU_TITLE_GAP (all_menus b);
  dw_panel : match opened b with
             | None => mb_anchor b1 = None
             | Some m => exists x w h, mb_anchor b1 = Some (x, MENU_BAR_H, w, h) /\ h = 12 + heights (mn_items m) /\
                           mb_rows b1 = item_rects x w (MENU_BAR_H + 6) (mn_items m)
             end;
}.
Lemma render_drawn tw b : exists b1, render measure tw b = Ok b1 /\ drawn b b1.
Proof.
  unfold render. cbn [mb_open_idx]. unfold opened. destruct ((0 <=? mb_open_idx b) && (mb_open_idx b <? len (all_menus b))) eqn:E.
  - rewrite andb_true_iff, Z.leb_le, Z.ltb_lt in E. destruct E as [E0 E1].
    destruct (index_total (all_menus b) (mb_open_idx b)) as [m Em]; [lia|].
    destruct (index_total (title_rects measure MENU_TITLE_GAP (all_menus b)) (mb_open_idx b)) as [r Er].
    { unfold len in *. rewrite title_rects_length. lia. }
    rewrite Em, Er. cbn [rbind]. eexists. split; [reflexivity|]. unfold _render_dropdown, _measure_dropdown. split; cbn; try done.
    unfold opened. apply index_Ok in Em; [|done]. assert (0 <=? mb_open_idx b = true) as -> by lia. rewrite Em.
    eexists _, _, _. split; [done|]. by rewrite heights_fold.
  - eexists. split; [reflexivity|]. split; cbn; try done. unfold opened. destruct (Z.leb_spec 0 (mb_open_idx b)); [|done].
    destruct (all_menus b !! Z.to_nat (mb_open_idx b)) as [m|] eqn:Em; [|done]. apply lookup_lt_Some in Em. unfold len in E. lia.
Qed.

Lemma drawn_items b b1 m : drawn b b1 -> opened b = Some m -> _all_menus_items_for_open b1 = Ok (mn_items m).
Proof.
  intros [(Es & Ea & Eo) _ _] Em. unfold _all_menus_items_for_open, all_menus. rewrite Es, Ea, Eo. fold (all_menus b).
  unfold opened in Em. destruct (Z.leb_spec 0 (mb_open_idx b)) as [H0|]; [|done]. destruct (Z.ltb_spec (mb_open_idx b) 0); [lia|].
  apply index_Ok in Em; [|done]. by rewrite Em.
Qed.

(** A row is only hit in the zone of the panel. *)
Lemma drawn_zone b b1 m j r x y : drawn b b1 -> opened b = Some m -> mb_rows b1 !! j = Some r -> inside x y r = true ->
  hit_zone x y b1 = ZItem.
Proof.
  intros [(_ & _ & Eo) _ Hp] Em Ej Hr. rewrite Em in Hp. destruct Hp as (px & w & h & Ea & Eh & El). rewrite El in Ej.
  apply list_elem_of_lookup_2 in Ej. eapply item_rects_in in Ej; [|exact Hr]. unfold hit_zone, is_open. rewrite Ea, Eo.
  unfold MENU_BAR_H in *. destruct (Z.ltb_spec y 22); [lia|]. unfold opened in Em. destruct (Z.leb_spec 0 (mb_open_idx b)); [|done].
  assert (inside x y (px, 22, w, h) = true) as -> by (apply inside_spec; lia). done.
Qed.

Definition runs b b1 (x y : Z) (a : A) : Prop :=
  exists m j it r, opened b = Some m /\ mn_items m !! j = Some it /\ mb_rows b1 !! j = Some r /\ inside x y r = true /\
    item_active it = true /\ mi_action it = Some a.
Lemma runs_zone b b1 x y a : drawn b b1 -> runs b b1 x y a -> hit_zone x y b1 = ZItem.
Proof. intros Hd (m & j & it & r & Em & _ & Ej & Hr & _). by eapply drawn_zone. Qed.

(** The click in the panel. *)
Lemma click_item b b1 x y : drawn b b1 -> hit_zone x y b1 = ZItem ->
  exists act b2, on_mouse_down x y b1 = Ok (true, act, b2) /\ (forall a, act = Some a <-> runs b b1 x y a).
Proof.
  intros Hd Ez. unfold on_mouse_down. rewrite Ez. pose proof (dw_panel _ _ Hd) as Hp.
  destruct (opened b) as [m|] eqn:Em.
  2:{ unfold hit_zone in Ez. rewrite Hp, andb_false_r in Ez. by destruct (y <? MENU_BAR_H). }
  destruct Hp as (px & w & h & Ea & Eh & El). rewrite (drawn_items _ _ _ Hd Em). cbn [rbind].
  destruct (first_inside_spec 0 x y (mb_rows b1)) as [[-> HF]|(j & r & Ej & Er & ->)].
  - exists None, b1. split; [done|]. intros a. split; [done|]. intros (m' & j & it & r & _ & _ & Ej & Hr & _).
    rewrite Forall_lookup in HF. apply HF in Ej. congruence.
  - destruct (Z.ltb_spec (0 + Z.of_nat j) 0); [lia|]. pose proof Ej as Hl. rewrite El in Hl. apply lookup_lt_Some in Hl.
    rewrite item_rects_length in Hl. destruct (Z.leb_spec (len (mn_items m)) (0 + Z.of_nat j)); [unfold len in *; lia|].
    destruct (lookup_lt_is_Some_2 _ _ Hl) as [it Ei].
    assert (index (mn_items m) (0 + Z.of_nat j) = Ok it) as -> by (apply index_Ok; [lia|]; by rewrite Z.add_0_l, Nat2Z.id).
    cbn [rbind]. eexists _, _. split; [reflexivity|]. intros a. split.
    + intros Hact. exists m, j, it, r. destruct (item_active it) eqn:E; [|done]. split_and!; done.
    + intros (m' & k & it' & r' & [= <-]%(eq_trans (eq_sym Em)) & Ei' & Ek & Hr' & Hact & Ha).
      rewrite El in Ek, Ej. assert (k = j) as -> by by eapply item_rects_disjoint.
      rewrite Ei in Ei'. injection Ei' as <-. by rewrite Hact.
Qed.

(** ** Events between frames *)

Definition bar_sync b : Prop :=
  (length (mb_titles b) <= length (all_menus b))%nat /\ (mb_anchor b = None \/ mb_open_idx b < len (all_menus b)).
Inductive bar_ev : Type := BMove (x y : Z) | BDown (x y : Z) | BRender (tw : Z).
Definition bar_step b (e : bar_ev) : result (MenuBar A) :=
  match e with
  | BMove x y => let? (_, b) := on_mouse_move x y b in Ok b
  | BDown x y => let? (_, _, b) := on_mouse_down x y b in Ok b
  | BRender tw => render measure tw b
  end.
Fixpoint bar_run (evs : list bar_ev) b : result (MenuBar A) :=
  match evs with [] => Ok b | e :: evs => let? b := bar_step b e in bar_run evs b end.

Lemma drawn_sync b b1 : drawn b b1 -> bar_sync b1.
Proof.
  intros [(Es & Ea & Eo) Et Hp]. unfold bar_sync, all_menus. rewrite Es, Ea, Eo, Et, title_rects_length. fold (all_menus b).
  split; [done|]. unfold opened in Hp. destruct (Z.leb_spec 0 (mb_open_idx b)) as [H0|H0]; [|right; unfold len; lia].
  destruct (all_menus b !! Z.to_nat (mb_open_idx b)) as [m|] eqn:E; [|by left]. right. apply lookup_lt_Some in E. unfold len. lia.
Qed.
Lemma sync_items b x y : bar_sync b -> hit_zone x y b = ZItem -> exists items, _all_menus_items_for_open b = Ok items.
Proof.
  intros [_ Hs] Ez. unfold hit_zone in Ez. destruct (y <? MENU_BAR_H); [done|]. destruct (is_open b) eqn:Eo; [|done]. cbn in Ez.
  destruct Hs as [Hn|Hs]; [by rewrite Hn in Ez|]. unfold is_open in Eo. unfold _all_menus_items_for_open.
  destruct (Z.ltb_spec (mb_open_idx b) 0); [lia|]. destruct (index_total (all_menus b) (mb_open_idx b)) as [m ->]; [lia|]. by eexists.
Qed.
Lemma sync_open b o h : bar_sync b -> o < len (all_menus b) -> bar_sync (set_open o h b).
Proof. intros [H1 _] Ho. split; [done|by right]. Qed.
Lemma sync_close b : bar_sync b -> bar_sync (close_menu b).
Proof. intros H. apply sync_open; [done|]. unfold len. lia. Qed.

Lemma bar_step_ok b e : bar_sync b -> exists b', bar_step b e = Ok b' /\ bar_sync b'.
Proof.
  intros Hs. destruct e as [x y|x y|tw]; cbn [bar_step].
  - unfold on_mouse_move. destruct (Z.ltb_spec (mb_open_idx b) 0); [by exists b|].
    set (nh := match hit_zone x y b with ZItem => _ | _ => _ end). assert (exists h, nh = Ok h) as [h ->].
    { subst nh. destruct (hit_zone x y b) eqn:Ez; eauto. destruct (Z.ltb_spec (first_inside 0 x y (mb_rows b)) 0); [eauto|].
      destruct (sync_items b x y Hs Ez) as [items ->]. cbn [rbind]. destruct (Z.ltb_spec (first_inside 0 x y (mb_rows b)) (len items)); [|eauto].
      destruct (index_total items (first_inside 0 x y (mb_rows b))) as [it ->]; [lia|]. cbn. eauto. }
    cbn [rbind]. destruct (h =? mb_hot b); cbn [rbind]; eexists; (split; [reflexivity|]); [done|]. destruct Hs as [H1 H2]. by split.
  - unfold on_mouse_down. destruct (hit_zone x y b) eqn:Ez.
    + destruct (title_at_spec 0 x (mb_titles b)) as [[-> _]|(j & r & Ej & _ & ->)].
      * cbn. destruct (is_open b); cbn; eexists; (split; [reflexivity|]); [by apply sync_close|done].
      * destruct (Z.leb_spec 0 (0 + Z.of_nat j)); [|lia]. cbn [rbind]. eexists. split; [reflexivity|].
        case_match; [by apply sync_close|]. apply sync_open; [done|]. apply lookup_lt_Some in Ej. destruct Hs as [Hl _]. unfold len. lia.
    + destruct (Z.ltb_spec (first_inside 0 x y (mb_rows b)) 0); cbn [rbind]; [by exists b|].
      destruct (sync_items b x y Hs Ez) as [items ->]. cbn [rbind].
      destruct (Z.leb_spec (len items) (first_inside 0 x y (mb_rows b))); cbn [rbind]; [by exists b|].
      destruct (index_total items (first_inside 0 x y (mb_rows b))) as [it ->]; [lia|]. cbn [rbind].
      eexists. split; [reflexivity|]. by apply sync_close.
    + destruct (is_open b); cbn [rbind]; eexists; (split; [reflexivity|]); [by apply sync_close|done].
  - destruct (render_drawn tw b) as (b1 & -> & Hd). exists b1. split; [done|]. by eapply drawn_sync.
Qed.
Lemma bar_run_ok evs b : bar_sync b -> exists b', bar_run evs b = Ok b'.
Proof.
  revert b. induction evs as [|e evs IH]; intros b Hs; cbn [bar_run]; [by exists b|].
  destruct (bar_step_ok b e Hs) as (b1 & -> & H1). cbn [rbind]. by apply IH.
Qed.

(** After the menu bar is drawn, a click runs the action of the enabled
    row drawn under it and nothing else, a click on a title opens that title's
    menu or closes it, a click the bar does not take finds no menu open, no two
    rows and no two titles overlap, and no sequence of moves, clicks and
    redraws that follows raises. *)
Theorem menubar_click_hits_what_is_drawn (Hm : forall s, 0 <= fst (measure s)) tw b :
  exists b1, render measure tw b = Ok b1 /\
  (forall i k r r' x, mb_titles b1 !! i = Some r -> mb_titles b1 !! k = Some r' -> in_title x r = true -> in_title x r' = true -> i = k) /\
  (forall x y, exists taken act b2, on_mouse_down x y b1 = Ok (taken, act, b2) /\
     (forall a, act = Some a <-> runs b b1 x y a) /\
     (forall i r, y < MENU_BAR_H -> mb_titles b1 !! i = Some r -> in_title x r = true ->
        taken = true /\ mb_open_idx b2 = if mb_open_idx b =? Z.of_nat i then -1 else Z.of_nat i) /\
     (taken = false -> is_open b = false)) /\
  (forall evs, exists b', bar_run evs b1 = Ok b').
Proof.
  destruct (render_drawn tw b) as (b1 & E & Hd). exists b1. pose proof (dw_titles _ _ Hd) as Et.
  assert (Dt : forall i k r r' x, mb_titles b1 !! i = Some r -> mb_titles b1 !! k = Some r' -> in_title x r = true ->
    in_title x r' = true -> i = k) by (intros i k r r' x; rewrite Et; by apply titles_disjoint).
  assert (Eo : is_open b1 = is_open b) by (unfold is_open; by destruct (dw_menus _ _ Hd) as (_ & _ & ->)).
  split_and!; [done|done| |intros evs; by eapply bar_run_ok, drawn_sync]. intros x y. destruct (hit_zone x y b1) eqn:Ez.
  - assert (Hn : forall a, @None A = Some a <-> runs b b1 x y a).
    { intros a. split; [done|]. intros Hr. eapply runs_zone in Hr; [|done]. congruence. }
    unfold on_mouse_down. rewrite Ez. destruct (title_at_spec 0 x (mb_titles b1)) as [[-> HF]|(j & r & Ej & Er & ->)].
    + cbn. rewrite Eo. destruct (is_open b) eqn:Eb; eexists _, _, _; (split; [reflexivity|]); split_and!; try done.
      * intros i r _ Ei Hr. apply HF in Ei. congruence.
      * intros i r _ Ei Hr. apply HF in Ei. congruence.
    + destruct (Z.leb_spec 0 (0 + Z.of_nat j)); [|lia]. eexists _, _, _. split; [reflexivity|]. split_and!; [done| |done].
      intros i r' _ Ei Hr'. assert (i = j) as -> by by eapply Dt. split; [done|].
      destruct (dw_menus _ _ Hd) as (_ & _ & ->). rewrite Z.add_0_l. by destruct (mb_open_idx b =? Z.of_nat j).
  - destruct (click_item b b1 x y Hd Ez) as (act & b2 & -> & Ha). exists true, act, b2. split_and!; try done.
    intros i r Hy. unfold hit_zone in Ez. assert (y <? MENU_BAR_H = true) as Hy' by lia. by rewrite Hy' in Ez.
  - assert (Hn : forall a, @None A = Some a <-> runs b b1 x y a).
    { intros a. split; [done|]. intros Hr. eapply runs_zone in Hr; [|done]. congruence. }
    unfold on_mouse_down. rewrite Ez, Eo.
    assert (Hy : MENU_BAR_H <= y) by (unfold hit_zone in Ez; destruct (Z.ltb_spec y MENU_BAR_H); [done|lia]).
    destruct (is_open b) eqn:Eb; eexists _, _, _; (split; [reflexivity|]); split_and!; try done; intros; lia.
Qed.
End props.

Definition demo_bar : MenuBar Z :=
  set_open 1 (-1) (set_app_menus [mkMenu (lit "File") [mkMenuItem (lit "Save") (Some 7) false true; MenuItem_sep; mkMenuItem (lit "Quit") (Some 8) false true]]
    (set_system_menus [mkMenu (lit "PythonOS") [mkMenuItem (lit "About") (Some 1) false true]] MenuBar_init)).
Lemma menubar_click_hits_what_is_drawn_witness :
  exists b1 taken b2, render bitmap_measure 640 demo_bar = Ok b1 /\ on_mouse_down 120 70 b1 = Ok (taken, Some 8, b2).
Proof.
  destruct (menubar_click_hits_what_is_drawn (A := Z) bitmap_measure) with (tw := 640) (b := demo_bar) as (b1 & E & _ & Hc & _).
  { intros s. unfold bitmap_measure, GLYPH_W. cbn. pose proof (len_nonneg s). lia. }
  destruct (Hc 120 70) as (taken & act & b2 & Ec & Ha & _). exists b1, taken, b2. split; [done|]. rewrite Ec.
  assert (act = Some 8) as ->; [|done]. apply Ha. vm_compute in E. injection E as <-.
  eexists _, 2%nat, _, _. by vm_compute.
Defined.

(** Menus replaced between two frames: the titles drawn last still open a
    menu, the panel drawn last is still hit, and moving the pointer over it
    asks for a menu that is gone. *)
Example menubar_stale_layout :
  (let? b := render bitmap_measure 640 demo_bar in
   let? (_, _, b) := on_mouse_down 110 5 (set_app_menus [] b) in
   on_mouse_move 120 70 b) = Err IndexError.
Proof. by vm_compute. Qed.
