(* ===== verification/Compositor.v ===== *)
(** * The compositor (kernel/gui/compositor.py, kernel/gui/desktop.py)

    The stack of windows, the focus, and where every input event goes.
    Windows are objects the applications share with the compositor: [co_heap]
    holds them by reference, [co_windows] is the stack of references, rear
    first.  Callbacks of applications are parameters: each answers with the
    operations of the compositor it calls, and may look at everything that
    was delivered so far.  Drawing is kept to which window paints what. *)

From Stdlib Require Import ZArith Lia.
From stdpp Require Import base list numbers strings.
From S2P Require Import Prelude Bytes Pystr Dict Input Dock Menubar.

Local Open Scope Z_scope.

Definition TITLE_BAR_H : Z := 22.
Definition CLOSE_BOX_W : Z := 14.
Definition CLOSE_BOX_PAD : Z := 4.
Definition DOCK_ICON_SIZE : Z := 48.
Definition DOCK_ICON_GAP : Z := 12.

(** [l.index(x)] of an element that is there, and [l.remove(x)]. *)
Fixpoint index_of (x : Z) (l : list Z) : Z := match l with [] => 0 | y :: l' => if y =? x then 0 else 1 + index_of x l' end.
Fixpoint remove_id (x : Z) (l : list Z) : list Z := match l with [] => [] | y :: l' => if y =? x then l' else y :: remove_id x l' end.
Definition has_id (x : Z) (l : list Z) : bool := existsb (Z.eqb x) l.

Section compositor.
Context {F : Type}.

(** The callables of menus: those of the dock, of the launchers and of the
    system menu, and the applications' own. *)
Inductive call : Type := CKeep (name : str) | CRemove (name : str) | CLaunch (name : str) | CAbout | CSource | CApp (f : F).

Record Window : Type := mkWin {
  cw_title : str; cw_x : Z; cw_y : Z; cw_w : Z; cw_h : Z; cw_chrome : bool; cw_dirty : bool; cw_focused : bool;
  cw_closed : bool; cw_app : str; cw_menus : list (Menu call); cw_accepts_drop : bool;
}.
Definition CompositorWindow (title : str) (x y w h : Z) (chrome : bool) : Window := mkWin title x y w h chrome true false false [] [] false.
Definition win_at (x y : Z) (w : Window) : Window :=
  mkWin (cw_title w) x y (cw_w w) (cw_h w) (cw_chrome w) (cw_dirty w) (cw_focused w) (cw_closed w) (cw_app w) (cw_menus w) (cw_accepts_drop w).
Definition win_dirty (d : bool) (w : Window) : Window :=
  mkWin (cw_title w) (cw_x w) (cw_y w) (cw_w w) (cw_h w) (cw_chrome w) d (cw_focused w) (cw_closed w) (cw_app w) (cw_menus w) (cw_accepts_drop w).
Definition win_focused (f : bool) (w : Window) : Window :=
  mkWin (cw_title w) (cw_x w) (cw_y w) (cw_w w) (cw_h w) (cw_chrome w) (cw_dirty w) f (cw_closed w) (cw_app w) (cw_menus w) (cw_accepts_drop w).
Definition win_closed (w : Window) : Window :=
  mkWin (cw_title w) (cw_x w) (cw_y w) (cw_w w) (cw_h w) (cw_chrome w) (cw_dirty w) (cw_focused w) true (cw_app w) (cw_menus w) (cw_accepts_drop w).
Definition win_app (a : str) (w : Window) : Window :=
  mkWin (cw_title w) (cw_x w) (cw_y w) (cw_w w) (cw_h w) (cw_chrome w) (cw_dirty w) (cw_focused w) (cw_closed w) a (cw_menus w) (cw_accepts_drop w).
Definition win_menus (m : list (Menu call)) (w : Window) : Window :=
  mkWin (cw_title w) (cw_x w) (cw_y w) (cw_w w) (cw_h w) (cw_chrome w) (cw_dirty w) (cw_focused w) (cw_closed w) (cw_app w) m (cw_accepts_drop w).

(** The tasks the compositor hands to the event loop. *)
Inductive task : Type :=
| TLaunch (name : str) (entry : F) (args : list (list str)) | TSource (name : str) (win : Z) | TStop | TImport (ev : Event).

(** [co_next] is the next object, [co_live] the launches in progress with the
    name each found on entry, [co_full] says that the chipset shows another
    screen than the desktop's, [co_exit] that its exit was asked for, and
    [co_out] are the events delivered so far. *)
Record Compositor : Type := mkComp {
  co_windows : list Z; co_heap : Z -> Window; co_next : Z; co_focus : Z; co_drag : option Z; co_off_x : Z; co_off_y : Z;
  co_redraw : bool; co_size : Z * Z; co_dock : Dock F; co_popup : Popup call; co_mods : Z; co_active : list str; co_hot : Z;
  co_bar : MenuBar call; co_launching : str; co_live : list (str * str); co_tasks : list task; co_bindings : bindings;
  co_full : bool; co_exit : bool; co_running : bool; co_uptime : str; co_out : list (Z * Event);
}.
Definition put_windows (x : list Z) (c : Compositor) : Compositor :=
  mkComp x (co_heap c) (co_next c) (co_focus c) (co_drag c) (co_off_x c) (co_off_y c) (co_redraw c) (co_size c) (co_dock c) (co_popup c) (co_mods c) (co_active c) (co_hot c) (co_bar c) (co_launching c) (co_live c) (co_tasks c) (co_bindings c) (co_full c) (co_exit c) (co_running c) (co_uptime c) (co_out c).
Definition put_heap (x : Z -> Window) (c : Compositor) : Compositor :=
  mkComp (co_windows c) x (co_next c) (co_focus c) (co_drag c) (co_off_x c) (co_off_y c) (co_redraw c) (co_size c) (co_dock c) (co_popup c) (co_mods c) (co_active c) (co_hot c) (co_bar c) (co_launching c) (co_live c) (co_tasks c) (co_bindings c) (co_full c) (co_exit c) (co_running c) (co_uptime c) (co_out c).
Definition put_next (x : Z) (c : Compositor) : Compositor :=
  mkComp (co_windows c) (co_heap c) x (co_focus c) (co_drag c) (co_off_x c) (co_off_y c) (co_redraw c) (co_size c) (co_dock c) (co_popup c) (co_mods c) (co_active c) (co_hot c) (co_bar c) (co_launching c) (co_live c) (co_tasks c) (co_bindings c) (co_full c) (co_exit c) (co_running c) (co_uptime c) (co_out c).
Definition put_focus (x : Z) (c : Compositor) : Compositor :=
  mkComp (co_windows c) (co_heap c) (co_next c) x (co_drag c) (co_off_x c) (co_off_y c) (co_redraw c) (co_size c) (co_dock c) (co_popup c) (co_mods c) (co_active c) (co_hot c) (co_bar c) (co_launching c) (co_live c) (co_tasks c) (co_bindings c) (co_full c) (co_exit c) (co_running c) (co_uptime c) (co_out c).
Definition put_drag (x : option Z) (c : Compositor) : Compositor :=
  mkComp (co_windows c) (co_heap c) (co_next c) (co_focus c) x (co_off_x c) (co_off_y c) (co_redraw c) (co_size c) (co_dock c) (co_popup c) (co_mods c) (co_active c) (co_hot c) (co_bar c) (co_launching c) (co_live c) (co_tasks c) (co_bindings c) (co_full c) (co_exit c) (co_running c) (co_uptime c) (co_out c).
Definition put_off_x (x : Z) (c : Compositor) : Compositor :=
  mkComp (co_windows c) (co_heap c) (co_next c) (co_focus c) (co_drag c) x (co_off_y c) (co_redraw c) (co_size c) (co_dock c) (co_popup c) (co_mods c) (co_active c) (co_hot c) (co_bar c) (co_launching c) (co_live c) (co_tasks c) (co_bindings c) (co_full c) (co_exit c) (co_running c) (co_uptime c) (co_out c).
Definition put_off_y (x : Z) (c : Compositor) : Compositor :=
  mkComp (co_windows c) (co_heap c) (co_next c) (co_focus c) (co_drag c) (co_off_x c) x (co_redraw c) (co_size c) (co_dock c) (co_popup c) (co_mods c) (co_active c) (co_hot c) (co_bar c) (co_launching c) (co_live c) (co_tasks c) (co_bindings c) (co_full c) (co_exit c) (co_running c) (co_uptime c) (co_out c).
Definition put_redraw (x : bool) (c : Compositor) : Compositor :=
  mkComp (co_windows c) (co_heap c) (co_next c) (co_focus c) (co_drag c) (co_off_x c) (co_off_y c) x (co_size c) (co_dock c) (co_popup c) (co_mods c) (co_active c) (co_hot c) (co_bar c) (co_launching c) (co_live c) (co_tasks c) (co_bindings c) (co_full c) (co_exit c) (co_running c) (co_uptime c) (co_out c).
Definition put_size (x : Z * Z) (c : Compositor) : Compositor :=
  mkComp (co_windows c) (co_heap c) (co_next c) (co_focus c) (co_drag c) (co_off_x c) (co_off_y c) (co_redraw c) x (co_dock c) (co_popup c) (co_mods c) (co_active c) (co_hot c) (co_bar c) (co_launching c) (co_live c) (co_tasks c) (co_bindings c) (co_full c) (co_exit c) (co_running c) (co_uptime c) (co_out c).
Definition put_dock (x : Dock F) (c : Compositor) : Compositor :=
  mkComp (co_windows c) (co_heap c) (co_next c) (co_focus c) (co_drag c) (co_off_x c) (co_off_y c) (co_redraw c) (co_size c) x (co_popup c) (co_mods c) (co_active c) (co_hot c) (co_bar c) (co_launching c) (co_live c) (co_tasks c) (co_bindings c) (co_full c) (co_exit c) (co_running c) (co_uptime c) (co_out c).
Definition put_popup (x : Popup call) (c : Compositor) : Compositor :=
  mkComp (co_windows c) (co_heap c) (co_next c) (co_focus c) (co_drag c) (co_off_x c) (co_off_y c) (co_redraw c) (co_size c) (co_dock c) x (co_mods c) (co_active c) (co_hot c) (co_bar c) (co_launching c) (co_live c) (co_tasks c) (co_bindings c) (co_full c) (co_exit c) (co_running c) (co_uptime c) (co_out c).
Definition put_mods (x : Z) (c : Compositor) : Compositor :=
  mkComp (co_windows c) (co_heap c) (co_next c) (co_focus c) (co_drag c) (co_off_x c) (co_off_y c) (co_redraw c) (co_size c) (co_dock c) (co_popup c) x (co_active c) (co_hot c) (co_bar c) (co_launching c) (co_live c) (co_tasks c) (co_bindings c) (co_full c) (co_exit c) (co_running c) (co_uptime c) (co_out c).
Definition put_active (x : list str) (c : Compositor) : Compositor :=
  mkComp (co_windows c) (co_heap c) (co_next c) (co_focus c) (co_drag c) (co_off_x c) (co_off_y c) (co_redraw c) (co_size c) (co_dock c) (co_popup c) (co_mods c) x (co_hot c) (co_bar c) (co_launching c) (co_live c) (co_tasks c) (co_bindings c) (co_full c) (co_exit c) (co_running c) (co_uptime c) (co_out c).
Definition put_hot (x : Z) (c : Compositor) : Compositor :=
  mkComp (co_windows c) (co_heap c) (co_next c) (co_focus c) (co_drag c) (co_off_x c) (co_off_y c) (co_redraw c) (co_size c) (co_dock c) (co_popup c) (co_mods c) (co_active c) x (co_bar c) (co_launching c) (co_live c) (co_tasks c) (co_bindings c) (co_full c) (co_exit c) (co_running c) (co_uptime c) (co_out c).
Definition put_bar (x : MenuBar call) (c : Compositor) : Compositor :=
  mkComp (co_windows c) (co_heap c) (co_next c) (co_focus c) (co_drag c) (co_off_x c) (co_off_y c) (co_redraw c) (co_size c) (co_dock c) (co_popup c) (co_mods c) (co_active c) (co_hot c) x (co_launching c) (co_live c) (co_tasks c) (co_bindings c) (co_full c) (co_exit c) (co_running c) (co_uptime c) (co_out c).
Definition put_launching (x : str) (c : Compositor) : Compositor :=
  mkComp (co_windows c) (co_heap c) (co_next c) (co_focus c) (co_drag c) (co_off_x c) (co_off_y c) (co_redraw c) (co_size c) (co_dock c) (co_popup c) (co_mods c) (co_active c) (co_hot c) (co_bar c) x (co_live c) (co_tasks c) (co_bindings c) (co_full c) (co_exit c) (co_running c) (co_uptime c) (co_out c).
Definition put_live (x : list (str * str)) (c : Compositor) : Compositor :=
  mkComp (co_windows c) (co_heap c) (co_next c) (co_focus c) (co_drag c) (co_off_x c) (co_off_y c) (co_redraw c) (co_size c) (co_dock c) (co_popup c) (co_mods c) (co_active c) (co_hot c) (co_bar c) (co_launching c) x (co_tasks c) (co_bindings c) (co_full c) (co_exit c) (co_running c) (co_uptime c) (co_out c).
Definition put_tasks (x : list task) (c : Compositor) : Compositor :=
  mkComp (co_windows c) (co_heap c) (co_next c) (co_focus c) (co_drag c) (co_off_x c) (co_off_y c) (co_redraw c) (co_size c) (co_dock c) (co_popup c) (co_mods c) (co_active c) (co_hot c) (co_bar c) (co_launching c) (co_live c) x (co_bindings c) (co_full c) (co_exit c) (co_running c) (co_uptime c) (co_out c).
Definition put_bindings (x : bindings) (c : Compositor) : Compositor :=
  mkComp (co_windows c) (co_heap c) (co_next c) (co_focus c) (co_drag c) (co_off_x c) (co_off_y c) (co_redraw c) (co_size c) (co_dock c) (co_popup c) (co_mods c) (co_active c) (co_hot c) (co_bar c) (co_launching c) (co_live c) (co_tasks c) x (co_full c) (co_exit c) (co_running c) (co_uptime c) (co_out c).
Definition put_full (x : bool) (c : Compositor) : Compositor :=
  mkComp (co_windows c) (co_heap c) (co_next c) (co_focus c) (co_drag c) (co_off_x c) (co_off_y c) (co_redraw c) (co_size c) (co_dock c) (co_popup c) (co_mods c) (co_active c) (co_hot c) (co_bar c) (co_launching c) (co_live c) (co_tasks c) (co_bindings c) x (co_exit c) (co_running c) (co_uptime c) (co_out c).
Definition put_exit (x : bool) (c : Compositor) : Compositor :=
  mkComp (co_windows c) (co_heap c) (co_next c) (co_focus c) (co_drag c) (co_off_x c) (co_off_y c) (co_redraw c) (co_size c) (co_dock c) (co_popup c) (co_mods c) (co_active c) (co_hot c) (co_bar c) (co_launching c) (co_live c) (co_tasks c) (co_bindings c) (co_full c) x (co_running c) (co_uptime c) (co_out c).
Definition put_running (x : bool) (c : Compositor) : Compositor :=
  mkComp (co_windows c) (co_heap c) (co_next c) (co_focus c) (co_drag c) (co_off_x c) (co_off_y c) (co_redraw c) (co_size c) (co_dock c) (co_popup c) (co_mods c) (co_active c) (co_hot c) (co_bar c) (co_launching c) (co_live c) (co_tasks c) (co_bindings c) (co_full c) (co_exit c) x (co_uptime c) (co_out c).
Definition put_uptime (x : str) (c : Compositor) : Compositor :=
  mkComp (co_windows c) (co_heap c) (co_next c) (co_focus c) (co_drag c) (co_off_x c) (co_off_y c) (co_redraw c) (co_size c) (co_dock c) (co_popup c) (co_mods c) (co_active c) (co_hot c) (co_bar c) (co_launching c) (co_live c) (co_tasks c) (co_bindings c) (co_full c) (co_exit c) (co_running c) x (co_out c).
Definition put_out (x : list (Z * Event)) (c : Compositor) : Compositor :=
  mkComp (co_windows c) (co_heap c) (co_next c) (co_focus c) (co_drag c) (co_off_x c) (co_off_y c) (co_redraw c) (co_size c) (co_dock c) (co_popup c) (co_mods c) (co_active c) (co_hot c) (co_bar c) (co_launching c) (co_live c) (co_tasks c) (co_bindings c) (co_full c) (co_exit c) (co_running c) (co_uptime c) x.

Definition C (X : Type) : Type := M Compositor X.
Definition upd_win (id : Z) (f : Window -> Window) : C unit :=
  modify (fun c => put_heap (fun j => if j =? id then f (co_heap c j) else co_heap c j) c).
Definition win (id : Z) : C Window := gets (fun c => co_heap c id).
Definition when (b : bool) (m : C unit) : C unit := if b then m else ret tt.
Definition create_task (t : task) : C unit := modify (fun c => put_tasks (co_tasks c ++ [t]) c).
Definition needs_redraw : C unit := modify (put_redraw true).

(** The applications registered, and the callbacks of windows, of menus and
    of the chipset's other screens; the framebuffer, if there is one. *)
Context (registry : list (str * AppInfo F (Menu call))).
Inductive app_op : Type :=
| OAdd (w : Window) | ORemove (id : Z) | OClose (id : Z) | OMenus (id : Z) (m : list (Menu call)) | ODirty (id : Z)
| OLaunch (name : str) (args : list (list str)).
Context (on_event : Z -> Event -> Compositor -> list app_op) (menu_call : F -> Compositor -> list app_op).
Context (screen_event : Event -> Compositor -> result (list app_op)) (fb : option (Z * Z)).

(** ** Windows *)

Definition focused_window (c : Compositor) : option Z :=
  if (0 <=? co_focus c) && (co_focus c <? len (co_windows c)) then co_windows c !! Z.to_nat (co_focus c) else None.

Definition app_menus (w : option Z) (c : Compositor) : list (Menu call) :=
  match w with
  | None => []
  | Some id =>
      match cw_menus (co_heap c id), cw_app (co_heap c id) with
      | (_ :: _) as ms, _ => ms
      | [], [] => []
      | [], name => match dget name registry with Some info => ai_menus info | None => [] end
      end
  end.
Definition _refresh_app_menus (w : option Z) : C unit := modify (fun c => put_bar (set_app_menus (app_menus w c) (co_bar c)) c).

Definition _refresh_dock_running (name : str) : C unit :=
  modify (fun c =>
    let launching := mem name (co_active c) in
    let has_win := existsb (fun id => beq (cw_app (co_heap c id)) name) (co_windows c) in
    put_dock (set_running name (launching || has_win) (co_dock c)) c) ;;;
  modify (fun c => if len (visible (co_dock c)) <=? co_hot c then put_hot (-1) c else c) ;;;
  needs_redraw.

Definition add_window (id : Z) : C unit :=
  modify (fun c =>
    match cw_app (co_heap c id), co_launching c with
    | [], (_ :: _) as name => put_heap (fun j => if j =? id then win_app name (co_heap c j) else co_heap c j) c
    | _, _ => c
    end) ;;;
  let! old := gets focused_window in
  match old with Some o => upd_win o (win_focused false) ;;; upd_win o (win_dirty true) | None => ret tt end ;;;
  modify (fun c => put_windows (co_windows c ++ [id]) c) ;;;
  modify (fun c => put_focus (len (co_windows c) - 1) c) ;;;
  upd_win id (win_focused true) ;;;
  _refresh_app_menus (Some id) ;;;
  let! w := win id in
  match cw_app w with [] => ret tt | name => _refresh_dock_running name end ;;;
  needs_redraw ;;;
  upd_win id (win_dirty true).

(** [self._windows[self._focus_idx]] with a focus in range. *)
Definition focus_here : C unit :=
  let! o := gets (fun c => co_windows c !! Z.to_nat (co_focus c)) in
  match o with
  | Some id => upd_win id (win_focused true) ;;; _refresh_app_menus (Some id)
  | None => raise IndexError
  end.

Definition remove_window (id : Z) : C unit :=
  let! c := get in
  if negb (has_id id (co_windows c)) then ret tt
  else
    let idx := index_of id (co_windows c) in
    let name := cw_app (co_heap c id) in
    let left := remove_id id (co_windows c) in
    modify (put_windows left) ;;;
    (if (idx =? co_focus c) && negb (len left =? 0) then
       modify (fun c => put_focus (Z.min (co_focus c) (len (co_windows c) - 1)) c) ;;; focus_here
     else if len left =? 0 then modify (put_focus (-1)) ;;; _refresh_app_menus None
     else ret tt) ;;;
    match name with [] => ret tt | _ => _refresh_dock_running name end ;;;
    needs_redraw.

Definition all_dirty : C unit := let! ws := gets co_windows in for_each ws (fun id => upd_win id (win_dirty true)).

Definition cycle_focus (direction : Z) : C unit :=
  let! c := get in
  if len (co_windows c) =? 0 then ret tt
  else
    match focused_window c with Some o => upd_win o (win_focused false) | None => ret tt end ;;;
    modify (fun c => put_focus ((co_focus c + direction) mod len (co_windows c)) c) ;;;
    focus_here ;;;
    needs_redraw ;;;
    all_dirty.

Definition body_y (w : Window) : Z := cw_y w + (if cw_chrome w then TITLE_BAR_H else 0).
Definition win_h (w : Window) : Z := cw_h w + (if cw_chrome w then TITLE_BAR_H else 0).
Definition covers (x y : Z) (w : Window) : bool := inside x y (cw_x w, cw_y w, cw_w w, win_h w).
Definition _window_at (x y : Z) (c : Compositor) : option Z := List.find (fun id => covers x y (co_heap c id)) (rev (co_windows c)).
Definition _window_rects (c : Compositor) : list rect :=
  map (fun id => let w := co_heap c id in (cw_x w, cw_y w, cw_w w, win_h w)) (co_windows c).

(** Giving a window the focus and raising it. *)
Definition raise_window (id : Z) : C unit :=
  modify (fun c => put_focus (index_of id (co_windows c)) c) ;;;
  upd_win id (win_focused true) ;;;
  upd_win id (win_dirty true) ;;;
  _refresh_app_menus (Some id) ;;;
  modify (fun c => put_windows (remove_id id (co_windows c) ++ [id]) c) ;;;
  modify (fun c => put_focus (len (co_windows c) - 1) c) ;;;
  needs_redraw.
Definition _focus (id : Z) : C unit :=
  let! c := get in
  if negb (has_id id (co_windows c)) then ret tt
  else
    match focused_window c with
    | Some o => if o =? id then ret tt else upd_win o (win_focused false) ;;; upd_win o (win_dirty true) ;;; raise_window id
    | None => raise_window id
    end.

Definition _close_box_rect (w : Window) : rect :=
  (cw_x w + cw_w w - CLOSE_BOX_W - CLOSE_BOX_PAD, cw_y w + (TITLE_BAR_H - CLOSE_BOX_W) / 2, CLOSE_BOX_W, CLOSE_BOX_W).
Definition _close_box_hit (w : Window) (x y : Z) : bool := cw_chrome w && inside x y (_close_box_rect w).

(** ** Dock *)

Definition _desktop_size (c : Compositor) : Z * Z :=
  if negb (fst (co_size c) =? 0) && negb (snd (co_size c) =? 0) then co_size c
  else match fb with Some s => s | None => (1024, 768) end.
Definition _dock_total_w (c : Compositor) : Z :=
  let n := len (visible (co_dock c)) in if n =? 0 then 0 else n * DOCK_ICON_SIZE + (n - 1) * DOCK_ICON_GAP.
Definition _dock_first_x (c : Compositor) : Z := (fst (_desktop_size c) - _dock_total_w c) / 2.
Fixpoint slot_from (n : nat) (i x first_x : Z) : Z :=
  match n with
  | O => -1
  | S n =>
      let slot_x := first_x + i * (DOCK_ICON_SIZE + DOCK_ICON_GAP) in
      if (slot_x <=? x) && (x <? slot_x + DOCK_ICON_SIZE) then i else slot_from n (i + 1) x first_x
  end.
Definition _dock_slot_at (x y : Z) (c : Compositor) : Z :=
  let n := length (visible (co_dock c)) in
  if (n =? 0)%nat then -1
  else
    let desk_h := snd (_desktop_size c) in
    if (desk_h - DOCK_H <=? y) && (y <? desk_h) then slot_from n 0 x (_dock_first_x c) else -1.

Definition register_dock_app (name : str) (entry : F) (icon : option F) : C unit :=
  modify (fun c => put_dock (pin name (Some entry) icon (co_dock c)) c).
Definition top_dirty : C unit :=
  let! ws := gets co_windows in match last ws with Some id => upd_win id (win_dirty true) | None => ret tt end.
Definition _mark_chrome_dirty : C unit := top_dirty ;;; needs_redraw.

(** ** Launching: [_launch_dock_app] up to its [await] and from there on *)

Definition launch_begin (name : str) : C unit :=
  modify (fun c => put_live (co_live c ++ [(name, co_launching c)]) c) ;;;
  modify (put_launching name) ;;;
  modify (fun c => put_active (add1 name (co_active c)) c) ;;;
  _refresh_dock_running name.
(** The [k]-th launch in progress ends. *)
Definition launch_end (k : nat) : C unit :=
  let! c := get in
  match co_live c !! k with
  | None => ret tt
  | Some (name, prev) =>
      modify (fun c => put_live (delete k (co_live c)) c) ;;;
      modify (put_launching prev) ;;;
      modify (fun c => put_active (remove1 name (co_active c)) c) ;;;
      _refresh_dock_running name
  end.

Definition launch_app (name : str) (args : list (list str)) : C unit :=
  match dget name registry with
  | None => ret tt
  | Some info =>
      modify (fun c => put_dock (ensure name (Some (ai_entry info)) (ai_icon info) (co_dock c)) c) ;;;
      create_task (TLaunch name (ai_entry info) args)
  end.
Definition open_window_source : C unit :=
  let! c := get in
  match focused_window c with
  | None => ret tt
  | Some id => match cw_app (co_heap c id) with [] => ret tt | name => create_task (TSource name id) end
  end.

(** ** Callbacks *)

Definition run_op (o : app_op) : C unit :=
  match o with
  | OAdd w =>
      let! id := gets co_next in
      modify (fun c => put_next (id + 1) (put_heap (fun j => if j =? id then w else co_heap c j) c)) ;;; add_window id
  | ORemove id => remove_window id
  | OClose id => upd_win id win_closed
  | OMenus id m => upd_win id (win_menus m)
  | ODirty id => upd_win id (win_dirty true)
  | OLaunch name args => launch_app name args
  end.

Definition is_pointer (kind : Z) : bool :=
  (kind =? MOUSE_MOVE) || (kind =? MOUSE_DOWN) || (kind =? MOUSE_UP) || (kind =? MOUSE_WHEEL) || (kind =? HOST_FILE_DROP).
(** The event as a window's application sees it. *)
Definition body_event (w : Window) (ev : Event) : Event :=
  if is_pointer (ev_kind ev) then
    mkEvent (ev_kind ev) (ev_code ev) (ev_text ev) (ev_mods ev) (ev_x ev - cw_x w) (ev_y ev - cw_y w - (if cw_chrome w then TITLE_BAR_H else 0))
      (ev_dx ev) (ev_dy ev) (ev_name ev) (ev_token ev) (ev_size ev)
  else ev.
Definition deliver (id : Z) (ev : Event) : C unit :=
  let! w := win id in
  modify (fun c => put_out (co_out c ++ [(id, body_event w ev)]) c) ;;;
  let! c := get in
  for_each (on_event id (body_event w ev) c) run_op.

Definition run_call (a : call) : C unit :=
  match a with
  | CKeep n => modify (fun c => put_dock (pin n None None (co_dock c)) c) ;;; _mark_chrome_dirty
  | CRemove n =>
      modify (fun c => put_dock (unpin n (co_dock c)) c) ;;;
      modify (fun c => if len (visible (co_dock c)) <=? co_hot c then put_hot (-1) c else c) ;;;
      _mark_chrome_dirty
  | CLaunch n => launch_app n []
  | CAbout => if dmem (lit "about") registry then launch_app (lit "about") [] else ret tt
  | CSource => open_window_source
  | CApp f => let! c := get in for_each (menu_call f c) run_op
  end.

(** ** Events *)

Definition _handle_context_click (x y : Z) : C bool :=
  modify (fun c => put_bar (close_menu (co_bar c)) c) ;;;
  let! c := get in
  let (desk_w, desk_h) := _desktop_size c in
  let slot := _dock_slot_at x y c in
  if 0 <=? slot then
    let! it := lift (index (visible (co_dock c)) slot) in
    let name := di_name it in
    let items := dock_popup_items (is_pinned name (co_dock c)) (CKeep name) (CRemove name) in
    modify (fun c => put_popup (show x y items desk_w desk_h (co_popup c)) c) ;;; _mark_chrome_dirty ;;; ret true
  else if desktop_background_hit x y desk_w desk_h (_window_rects c) then
    let items := desktop_popup_items CLaunch (list_apps registry) in
    modify (fun c => put_popup (show x y items desk_w desk_h (co_popup c)) c) ;;; _mark_chrome_dirty ;;; ret true
  else ret false.

Definition track_ctrl (ev : Event) : C unit :=
  if ((ev_kind ev =? 1) || (ev_kind ev =? 2)) && ((ev_code ev =? KEY_LCTRL) || (ev_code ev =? KEY_RCTRL)) then
    if ev_kind ev =? 1 then modify (fun c => put_mods (Z.lor (co_mods c) MOD_CTRL) c)
    else modify (fun c => put_mods (Z.land (co_mods c) (Z.lnot MOD_CTRL)) c)
  else ret tt.

Definition popup_scroll (amount : Z) : C unit :=
  let! c := get in
  let (changed, p) := scroll amount (co_popup c) in
  modify (put_popup p) ;;; when changed _mark_chrome_dirty.

(** A left click outside menus and pop-ups. *)
Definition left_down (ev : Event) : C unit :=
  let! c := get in
  let slot := _dock_slot_at (ev_x ev) (ev_y ev) c in
  if 0 <=? slot then
    let! it := lift (index (visible (co_dock c)) slot) in
    match di_entry it with None => ret tt | Some entry => create_task (TLaunch (di_name it) entry []) end
  else
    match _window_at (ev_x ev) (ev_y ev) c with
    | None => ret tt
    | Some id =>
        if _close_box_hit (co_heap c id) (ev_x ev) (ev_y ev) then upd_win id win_closed ;;; remove_window id
        else
          _focus id ;;;
          let! w := win id in
          if cw_chrome w && (ev_y ev <? cw_y w + TITLE_BAR_H) then
            modify (put_drag (Some id)) ;;; modify (put_off_x (ev_x ev - cw_x w)) ;;; modify (put_off_y (ev_y ev - cw_y w))
          else deliver id ev
    end.
Definition to_focused (ev : Event) : C unit :=
  let! o := gets focused_window in match o with Some id => deliver id ev | None => ret tt end.
Definition pointer_move (ev : Event) : C unit :=
  let! c := get in
  match co_drag c with
  | Some id => upd_win id (win_at (ev_x ev - co_off_x c) (ev_y ev - co_off_y c)) ;;; all_dirty
  | None =>
      let new_hot := _dock_slot_at (ev_x ev) (ev_y ev) c in
      when (negb (new_hot =? co_hot c)) (modify (put_hot new_hot) ;;; top_dirty ;;; needs_redraw) ;;;
      to_focused ev
  end.
Definition left_up (ev : Event) : C unit :=
  let! c := get in
  match co_drag c with Some _ => modify (put_drag None) | None => to_focused ev end.

(** Past pop-up and menu bar. *)
Definition route_windows (ev : Event) : C unit :=
  if ev_kind ev =? HOST_FILE_DROP then
    let! c := get in
    match focused_window c with
    | Some id => if cw_accepts_drop (co_heap c id) then deliver id ev else create_task (TImport ev)
    | None => create_task (TImport ev)
    end
  else if (ev_kind ev =? MOUSE_DOWN) && (ev_code ev =? 1) then left_down ev
  else if ev_kind ev =? MOUSE_MOVE then pointer_move ev
  else if (ev_kind ev =? MOUSE_UP) && (ev_code ev =? 1) then left_up ev
  else to_focused ev.
Definition route_context (ev : Event) : C unit :=
  if ev_kind ev =? MOUSE_DOWN then
    let! c := get in
    if is_context_click (ev_code ev) (Z.lor (ev_mods ev) (co_mods c)) then
      let! shown := _handle_context_click (ev_x ev) (ev_y ev) in
      if shown then ret tt else route_windows ev
    else route_windows ev
  else route_windows ev.
Definition route_menubar_down (ev : Event) : C unit :=
  if (ev_kind ev =? MOUSE_DOWN) && (ev_code ev =? 1) then
    let! c := get in
    let! (taken, act, b) := lift (on_mouse_down (ev_x ev) (ev_y ev) (co_bar c)) in
    modify (put_bar b) ;;;
    match act with Some a => run_call a | None => ret tt end ;;;
    if taken then modify (fun c => put_popup (hide (co_popup c)) c) ;;; _mark_chrome_dirty else route_context ev
  else route_context ev.
Definition route_menubar (ev : Event) : C unit :=
  let! c := get in
  if (ev_kind ev =? MOUSE_MOVE) && is_open (co_bar c) then
    let! (changed, b) := lift (on_mouse_move (ev_x ev) (ev_y ev) (co_bar c)) in
    modify (put_bar b) ;;;
    if changed then _mark_chrome_dirty else route_menubar_down ev
  else route_menubar_down ev.

(** While a pop-up is open. *)
Definition route_popup (ev : Event) : C unit :=
  let! c := get in
  if negb (pp_open (co_popup c)) then route_menubar ev
  else if ev_kind ev =? MOUSE_MOVE then
    let! (changed, p) := lift (on_move (ev_x ev) (ev_y ev) (co_popup c)) in
    modify (put_popup p) ;;; when changed _mark_chrome_dirty
  else if ev_kind ev =? MOUSE_WHEEL then popup_scroll (if 0 <? ev_dy ev then -1 else 1)
  else if ev_kind ev =? EVENT_KEY_DOWN then
    if (ev_code ev =? KEY_UP) || (ev_code ev =? KEY_PAGE_UP) then popup_scroll (if ev_code ev =? KEY_PAGE_UP then -5 else -1)
    else if (ev_code ev =? KEY_DOWN) || (ev_code ev =? KEY_PAGE_DOWN) then popup_scroll (if ev_code ev =? KEY_PAGE_DOWN then 5 else 1)
    else if ev_code ev =? KEY_ESC then modify (fun c => put_popup (hide (co_popup c)) c) ;;; _mark_chrome_dirty
    else route_menubar ev
  else if ev_kind ev =? MOUSE_DOWN then
    let! (act, p) := lift (click (ev_x ev) (ev_y ev) (co_popup c)) in
    modify (put_popup p) ;;;
    match act with Some a => run_call a | None => ret tt end ;;;
    _mark_chrome_dirty
  else route_menubar ev.

(** On the desktop, or on another screen of the chipset. *)
Definition route_rest (ev : Event) : C unit :=
  track_ctrl ev ;;;
  let! c := get in
  if co_full c then
    when ((ev_kind ev =? EVENT_KEY_DOWN) && (ev_code ev =? KEY_ESC)) (modify (put_exit true)) ;;;
    let! c := get in
    match screen_event ev c with
    | Ok ops => for_each ops run_op
    | Err _ => route_popup ev
    end
  else route_popup ev.

Definition _route_event (ev : Event) : C unit :=
  if ev_kind ev =? QUIT then create_task TStop
  else
    let! c := get in
    match action_for (co_bindings c) ev with
    | Some a =>
        if beq a (lit "keybindings") then launch_app (lit "keybindings") []
        else if beq a (lit "source") then open_window_source
        else if beq a (lit "next_window") then cycle_focus 1
        else if beq a (lit "previous_window") then cycle_focus (-1)
        else route_rest ev
    | None => route_rest ev
    end.

(** One round of [_input_loop]. *)
Definition reap : C unit :=
  let! ws := gets co_windows in
  for_each ws (fun id => let! w := win id in when (cw_closed w) (remove_window id)).
Definition input_step (ev : Event) : C unit := _route_event ev ;;; reap.

(** [seed_desktop] *)
Definition launch_items (apps : list (AppInfo F (Menu call))) : list (MenuItem call) :=
  match apps with
  | [] => [mkMenuItem (lit "(none)") None false false]
  | _ => map (fun a => mkMenuItem (app_label a) (Some (CLaunch (ai_name a))) false true) apps
  end.
Definition seed_system_menus : C unit :=
  let apps := list_apps registry in
  modify (fun c => put_bar (set_system_menus
    [mkMenu (lit "PythonOS")
       [mkMenuItem (lit "About PythonOS") (Some CAbout) false true;
        mkMenuItem (lit "View Window's Source (F2)") (Some CSource) false true;
        mkMenuItem (lit "Keybindings" ++ [8230] ++ lit " (F1)") (Some (CLaunch (lit "keybindings"))) false true;
        MenuItem_sep; mkMenuItem (lit "Version: 3.14.0a0") None false false];
     mkMenu (lit "Apps") (launch_items (launcher_group (lit "app") apps));
     mkMenu (lit "Demos") (launch_items (launcher_group (lit "demo") apps));
     mkMenu (lit "Games") (launch_items (launcher_group (lit "game") apps))] (co_bar c)) c).
Definition seed_desktop : C unit :=
  modify (fun c => put_dock (seed_pinned_from_registry (list_apps registry) (co_dock c)) c) ;;; seed_system_menus.

(** ** Frames: who paints what, in the order of painting *)

Inductive paint : Type :=
| PDesktop | PChrome (id : Z) (r : rect) | PClose (id : Z) (r : rect) | PBody (id : Z) (r : rect) | PDock (r : rect) | PLabel (r : rect)
| PMenuBar (r : rect) | PPanel (r : rect).

(** A window's surface, as the presenters look at it: its size, whether the
    guest has its pixels, and the host's handle that [_sync_to_host] gives, 0
    for none.  The applications own the surfaces. *)
Record Surface : Type := mkSurf { sf_w : Z; sf_h : Z; sf_pixels : bool; sf_handle : Z }.

(** [host] is the host's presenter, which draws close boxes and copies the
    surfaces the host has a handle of; the local one copies those whose pixels
    are in the guest. *)
Definition paint_body (host : bool) (id : Z) (w : Window) (s : Surface) : list paint :=
  if (if host then negb (sf_handle s =? 0) else sf_pixels s) then [PBody id (cw_x w, body_y w, sf_w s, sf_h s)] else [].
Definition paint_window (host : bool) (id : Z) (w : Window) (s : Surface) : list paint :=
  (if cw_chrome w then [PChrome id (cw_x w, cw_y w, cw_w w, TITLE_BAR_H)] ++ (if host then [PClose id (_close_box_rect w)] else []) else [])
  ++ paint_body host id w s.

(** The dock on a screen of [w] by [h]: the band, and above it the name of the
    item under the pointer.  [measure] is the size of a text; icons begin
    inside the band and texts stay on what they are drawn on. *)
Definition label_rect (host : bool) (measure : str -> Z * Z) (w h : Z) (label : str) (c : Compositor) : rect :=
  let first_x := if host then _dock_first_x c else (w - _dock_total_w c) / 2 in
  let (tw, th) := measure label in
  let label_w := tw + 12 in
  let label_h := th + 6 in
  let label_x := first_x + co_hot c * (DOCK_ICON_SIZE + DOCK_ICON_GAP) + (DOCK_ICON_SIZE - label_w) / 2 in
  (Z.max 4 (Z.min (w - 4 - label_w) label_x), h - DOCK_H - label_h - 4, label_w, label_h).
Definition local_measure (label : str) : Z * Z := (len label * GLYPH_W, GLYPH_H).
Definition paint_dock (host : bool) (measure : str -> Z * Z) (w h : Z) (c : Compositor) : result (list paint) :=
  match visible (co_dock c) with
  | [] => Ok []
  | items =>
      if 0 <=? co_hot c then
        let? it := index items (co_hot c) in
        Ok [PDock (0, h - DOCK_H, w, DOCK_H); PLabel (label_rect host (if host then measure else local_measure) w h (di_name it) c)]
      else Ok [PDock (0, h - DOCK_H, w, DOCK_H)]
  end.
Definition panel (r : option rect) : list paint := match r with Some r => [PPanel r] | None => [] end.
(** The frame, once the menu bar has been laid out; [dock] is what painting
    the dock gave. *)
Definition frame (host : bool) (surface : Z -> Surface) (w h : Z) (dock : list paint) (c : Compositor) : list paint :=
  [PDesktop] ++ concat (map (fun id => paint_window host id (co_heap c id) (surface id)) (co_windows c))
  ++ dock
  ++ [PMenuBar (0, 0, w, MENU_BAR_H)] ++ panel (mb_anchor (co_bar c))
  ++ (if pp_open (co_popup c) then panel (pp_anchor (co_popup c)) else []).

(** [_redraw]: under the chipset, on the host's display, or on the local
    framebuffer.  [measure] is the text size of the menu bar, [measure11] that
    of the dock's label, [uptime] the clock.  Under the chipset nothing is
    drawn while it shows another screen than the desktop's.  A host that fails
    leaves the rest of the frames to the local presenter. *)
Inductive presenter : Type := ByChipset (has_back : bool) | ByBridge | Local.
Definition any_dirty (c : Compositor) : bool := existsb (fun id => cw_dirty (co_heap c id)) (co_windows c).
Definition draws (by_ : presenter) (uptime : str) (c : Compositor) : bool :=
  match by_ with
  | ByChipset has_back => negb (has_back && beq uptime (co_uptime c) && negb (co_redraw c) && negb (any_dirty c) && negb (is_open (co_bar c)))
  | ByBridge => negb (negb (co_redraw c) && beq uptime (co_uptime c) && negb (any_dirty c))
  | Local => any_dirty c
  end.
Definition windows_drawn : C unit := let! ws := gets co_windows in for_each ws (fun id => upd_win id (win_dirty false)).
Definition _redraw (measure measure11 : str -> Z * Z) (surface : Z -> Surface) (by_ : presenter) (uptime : str) : C (option (list paint)) :=
  let! c := get in
  if negb (draws by_ uptime c) then ret None
  else
    match by_ with Local => ret tt | _ => modify (put_uptime uptime) ;;; modify (put_redraw false) end ;;;
    let host := match by_ with ByBridge => true | _ => false end in
    match (match by_ with ByBridge => Some (co_size c) | ByChipset _ => if co_full c then None else fb | Local => fb end) with
    | None => ret None
    | Some (w, h) =>
        when (negb host) windows_drawn ;;;
        let! c := get in
        let! dock := lift (paint_dock host measure11 w h c) in
        let! b := lift (render measure w (set_right_text uptime (co_bar c))) in
        modify (put_bar b) ;;;
        when host windows_drawn ;;;
        let! c := get in
        ret (Some (frame host surface w h dock c))
    end.

(** [_uptime_str] from the timer's ticks, of which there are 100 a second. *)
Definition two_digits (n : Z) : str := if n <? 10 then lit "0" ++ str_of_int n else str_of_int n.
Definition _uptime_str (ticks boot_tick0 : Z) : str :=
  let elapsed := Z.max 0 ((ticks - boot_tick0) / 100) in
  two_digits (elapsed / 3600) ++ lit ":" ++ two_digits ((elapsed / 60) mod 60) ++ lit ":" ++ two_digits (elapsed mod 60).

Definition Compositor_init : Compositor :=
  mkComp [] (fun _ => CompositorWindow [] 0 0 0 0 true) 0 (-1) None 0 0 true (0, 0) Dock_init Popup_init 0 [] (-1) MenuBar_init [] [] []
    _bindings false false false [] [].
End compositor.
Arguments call : clear implicits.
Arguments Window : clear implicits.
Arguments task : clear implicits.
Arguments Compositor : clear implicits.
Arguments app_op : clear implicits.
