(* ===== verification/CompositorProps.v ===== *)
(** * The dock follows the windows

    Across any history of the desktop - applications opening, closing and
    launching, callbacks doing any of these, input events, launches beginning
    and ending in any order, frames - the dock shows exactly what is pinned,
    being launched or has a window. *)

From Stdlib Require Import ZArith Lia.
From stdpp Require Import base list numbers strings.
From S2P Require Import Prelude Bytes Pystr Dict Input Dock DockProps Menubar Compositor.

Local Open Scope Z_scope.

(** ** Stacks of references *)

Lemma has_id_spec x l : has_id x l = true <-> x ∈ l.
Proof.
  unfold has_id. rewrite existsb_exists. split.
  - intros (y & Hy & ->%Z.eqb_eq). by apply list_elem_of_In.
  - intros Hx. exists x. split; [by apply list_elem_of_In|apply Z.eqb_refl].
Qed.
Lemma remove_id_elem x l y : y ∈ remove_id x l -> y ∈ l.
Proof. induction l as [|z l IH]; cbn; [done|]. case_match; rewrite !elem_of_cons; [by right|]. intros [->|?]; auto. Qed.
Lemma remove_id_spec x l y : NoDup l -> y ∈ remove_id x l <-> y ∈ l /\ y <> x.
Proof.
  induction 1 as [|z l Hz Hl IH]; cbn; [split; [by intros ?%elem_of_nil|by intros [?%elem_of_nil _]]|].
  destruct (Z.eqb_spec z x) as [->|Hne]; rewrite !elem_of_cons; [|rewrite IH]; naive_solver.
Qed.
Lemma remove_id_NoDup x l : NoDup l -> NoDup (remove_id x l).
Proof.
  induction 1 as [|z l Hz Hl IH]; cbn; [constructor|]. case_match; [done|]. constructor; [|done]. by intros ?%remove_id_elem.
Qed.
Lemma index_of_spec x l : x ∈ l -> 0 <= index_of x l < len l /\ l !! Z.to_nat (index_of x l) = Some x.
Proof.
  induction l as [|y l IH]; [by intros ?%elem_of_nil|]. intros Hx. cbn [index_of]. unfold len in *. cbn [length].
  destruct (Z.eqb_spec y x) as [->|Hne]; [split; [lia|done]|]. apply elem_of_cons in Hx as [->|Hx]; [done|].
  destruct (IH Hx) as [H1 H2]. split; [lia|]. by replace (Z.to_nat (1 + index_of x l)) with (S (Z.to_nat (index_of x l))) by lia.
Qed.
Lemma remove_id_len x l : x ∈ l -> len (remove_id x l) = len l - 1.
Proof.
  induction l as [|y l IH]; [by intros ?%elem_of_nil|]. intros Hx. unfold len in *. cbn [remove_id length].
  destruct (Z.eqb_spec y x) as [->|Hne]; [lia|]. apply elem_of_cons in Hx as [->|Hx]; [done|]. cbn [length]. specialize (IH Hx). lia.
Qed.
Lemma remove_id_same id l j : NoDup l -> id ∈ l -> j ∈ remove_id id l ++ [id] <-> j ∈ l.
Proof. intros Hl Hid. rewrite elem_of_app, list_elem_of_singleton, remove_id_spec by done. destruct (decide (j = id)); naive_solver. Qed.

Section props.
Context {F : Type}.
Implicit Types (c : Compositor F).

(** ** Total steps *)

Definition ok {X} (P : Compositor F -> Prop) (m : M (Compositor F) X) (Q : Compositor F -> Prop) : Prop :=
  forall c, P c -> exists a c', m c = (Ok a, c') /\ Q c'.
Lemma ok_bind {X Y} P Q R (m : M (Compositor F) X) (f : X -> M (Compositor F) Y) :
  ok P m Q -> (forall a, ok Q (f a) R) -> ok P (bind m f) R.
Proof.
  intros Hm Hf c Hc. destruct (Hm c Hc) as (a & c1 & E & H1). destruct (Hf a c1 H1) as (b & c2 & E2 & H2).
  exists b, c2. by rewrite (bind_step m f c a c1 E).
Qed.
Lemma ok_get {X} P R (k : Compositor F -> M (Compositor F) X) : (forall c, P c -> ok (eq c) (k c) R) -> ok P (bind get k) R.
Proof. intros H c Hc. destruct (H c Hc c eq_refl) as (a & c' & E & Hr). exists a, c'. done. Qed.
Lemma ok_gets {X Y} P R (f : Compositor F -> X) (k : X -> M (Compositor F) Y) : (forall c, P c -> ok (eq c) (k (f c)) R) -> ok P (bind (gets f) k) R.
Proof. intros H c Hc. destruct (H c Hc c eq_refl) as (a & c' & E & Hr). exists a, c'. done. Qed.
Lemma ok_modify (P Q : Compositor F -> Prop) f : (forall c, P c -> Q (f c)) -> ok P (modify f) Q.
Proof. intros H c Hc. exists tt, (f c). by split; [|apply H]. Qed.
Lemma ok_ret {X} (P : Compositor F -> Prop) (x : X) : ok P (ret x) P.
Proof. intros c Hc. by exists x, c. Qed.
Lemma ok_weaken {X} (P P' Q Q' : Compositor F -> Prop) (m : M (Compositor F) X) :
  ok P m Q -> (forall c, P' c -> P c) -> (forall c, Q c -> Q' c) -> ok P' m Q'.
Proof. intros H HP HQ c Hc. destruct (H c (HP c Hc)) as (a & c' & E & Hq). exists a, c'. auto. Qed.
Lemma ok_keeps {X} (P : Compositor F -> Prop) (m : M (Compositor F) X) : ok P m P -> keeps P m.
Proof. intros H c r c' Hc E. destruct (H c Hc) as (a & c1 & E1 & H1). congruence. Qed.
Lemma ok_for_each {X} (P : Compositor F -> Prop) (l : list X) body : (forall x, ok P (body x) P) -> ok P (for_each l body) P.
Proof. intros H. induction l as [|x l IH]; cbn [for_each]; [apply ok_ret|]. by eapply ok_bind. Qed.

(** ** Steps that leave windows, names and dock alone *)

Record same c c' : Prop := {
  sm_windows : co_windows c' = co_windows c;
  sm_next : co_next c' = co_next c;
  sm_active : co_active c' = co_active c;
  sm_dock : co_dock c' = co_dock c;
  sm_app id : cw_app (co_heap c' id) = cw_app (co_heap c id);
}.
Lemma same_refl c : same c c.
Proof. by split. Qed.
Lemma same_trans c1 c2 c3 : same c1 c2 -> same c2 c3 -> same c1 c3.
Proof. intros [] []. split; congruence. Qed.
Definition stable (P : Compositor F -> Prop) : Prop := forall c c', same c c' -> P c -> P c'.

Definition silent {X} (m : M (Compositor F) X) : Prop := forall P, stable P -> ok P m P.
Lemma silent_modify f : (forall c, same c (f c)) -> silent (modify f).
Proof. intros H P HP. apply ok_modify. intros c Hc. by eapply HP. Qed.
Lemma silent_bind {X Y} (m : M (Compositor F) X) (f : X -> M (Compositor F) Y) : silent m -> (forall a, silent (f a)) -> silent (bind m f).
Proof. intros Hm Hf P HP. eapply ok_bind; [by apply Hm|]. intros a. by apply Hf. Qed.
Lemma silent_ret {X} (x : X) : silent (ret x).
Proof. intros P _. apply ok_ret. Qed.
Lemma silent_gets {X} (f : Compositor F -> X) : silent (gets f).
Proof. intros P _ c Hc. by exists (f c), c. Qed.
Lemma silent_get : silent get.
Proof. intros P _ c Hc. by exists c, c. Qed.
Lemma silent_for_each {X} (l : list X) body : (forall x, silent (body x)) -> silent (for_each l body).
Proof. intros H P HP. apply ok_for_each. intros x. by apply H. Qed.
Lemma silent_upd id f : (forall w, cw_app (f w) = cw_app w) -> silent (upd_win id f).
Proof. intros Hf. apply silent_modify. intros c. split; try done. intros j. cbn. by case_match; rewrite ?Hf. Qed.

Ltac silent_step := match goal with
  | |- silent (bind _ _) => apply silent_bind; [|intros ?]
  | |- silent (ret _) => apply silent_ret
  | |- silent (gets _) => apply silent_gets
  | |- silent get => apply silent_get
  | |- silent (upd_win _ _) => by apply silent_upd
  | |- silent (for_each _ _) => apply silent_for_each; intros ?
  | |- silent (modify _) => apply silent_modify; intros ?; by split
  | |- silent (match ?x with _ => _ end) => destruct x
  end.
Ltac silent_solve := repeat silent_step.

Lemma silent_redraw : silent needs_redraw.
Proof. unfold needs_redraw. silent_solve. Qed.
Lemma silent_menus reg w : silent (_refresh_app_menus reg w).
Proof. unfold _refresh_app_menus. silent_solve. Qed.
Lemma silent_top : silent top_dirty.
Proof. unfold top_dirty. silent_solve. Qed.
Lemma silent_chrome : silent _mark_chrome_dirty.
Proof. unfold _mark_chrome_dirty. apply silent_bind; [apply silent_top|intros _; apply silent_redraw]. Qed.
Lemma silent_all_dirty : silent all_dirty.
Proof. unfold all_dirty. silent_solve. Qed.
Lemma silent_when b m : silent m -> silent (when b m).
Proof. intros H. unfold when. destruct b; [done|apply silent_ret]. Qed.
Lemma silent_task t : silent (create_task t).
Proof. unfold create_task. silent_solve. Qed.
Lemma silent_source : silent open_window_source.
Proof. unfold open_window_source. silent_solve; try apply silent_task; apply silent_ret. Qed.

(** ** The invariant, up to the one name whose dock item is about to be
    refreshed *)

Definition runs (n : str) c : bool := mem n (co_active c) || existsb (fun id => beq (cw_app (co_heap c id)) n) (co_windows c).
Record desk_inv (x : option str) c : Prop := {
  dv_ids : Forall (fun id => id < co_next c) (co_windows c);
  dv_nodup : NoDup (co_windows c);
  dv_active : NoDup (co_active c);
  dv_dock : exists P R, dock_rel (co_dock c) P R /\ forall n, n <> [] -> Some n <> x -> R n = runs n c;
}.

Lemma runs_ext n c c' : co_active c' = co_active c -> co_windows c' = co_windows c ->
  (forall id, id ∈ co_windows c -> cw_app (co_heap c' id) = cw_app (co_heap c id)) -> runs n c' = runs n c.
Proof.
  intros Ea Ew Eh. unfold runs. rewrite Ea, Ew. f_equal. revert Eh. generalize (co_windows c). intros l Eh.
  induction l as [|id l IH]; [done|]. cbn [existsb]. rewrite Eh by by left. f_equal. apply IH. intros j Hj. apply Eh. by right.
Qed.
Lemma inv_ext x c c' : co_active c' = co_active c -> co_windows c' = co_windows c -> co_dock c' = co_dock c -> co_next c <= co_next c' ->
  (forall id, id ∈ co_windows c -> cw_app (co_heap c' id) = cw_app (co_heap c id)) -> desk_inv x c -> desk_inv x c'.
Proof.
  intros Ea Ew Ed En Eh [H1 H2 H3 (P & R & H4 & H5)]. split; rewrite ?Ea, ?Ew, ?Ed; try done.
  - eapply Forall_impl; [exact H1|]. cbn. lia.
  - exists P, R. split; [done|]. intros n Hn Hx. by rewrite (runs_ext n c c'), H5.
Qed.
Lemma inv_stable x : stable (desk_inv x).
Proof. intros c c' [] H. eapply inv_ext; try done. lia. Qed.

(** A name is refreshed. *)
Lemma refresh_running_ok n : ok (desk_inv (Some n)) (_refresh_dock_running n) (desk_inv None).
Proof.
  unfold _refresh_dock_running. eapply ok_bind; [|intros _; eapply ok_bind; [|intros _; apply silent_redraw, inv_stable]].
  - apply (ok_modify _ (desk_inv None)). intros c [H1 H2 H3 (P & R & H4 & H5)]. split; try done.
    exists P, (upd R n (runs n c)). split; [exact (dock_step_rel _ _ _ (DRunning n (runs n c)) H4)|].
    intros m Hm _. change (runs m (put_dock _ c)) with (runs m c). unfold upd. destruct (beq_spec m n) as [->|Hne]; [done|].
    apply H5; [done|congruence].
  - apply ok_modify. intros c H. case_match; [|done]. eapply inv_stable; [|exact H]. by split.
Qed.
Lemma inv_nil c : desk_inv (Some []) c -> desk_inv None c.
Proof. intros [H1 H2 H3 (P & R & H4 & H5)]. split; try done. exists P, R. split; [done|]. intros n Hn _. apply H5; congruence. Qed.
Lemma inv_weaken x c : desk_inv None c -> desk_inv x c.
Proof. intros [H1 H2 H3 (P & R & H4 & H5)]. split; try done. exists P, R. split; [done|]. intros n Hn _. by apply H5. Qed.
Lemma refresh_name_ok n : ok (desk_inv (Some n)) (match n with [] => ret tt | _ => _refresh_dock_running n end) (desk_inv None).
Proof. destruct n as [|a n]; [|apply refresh_running_ok]. eapply ok_weaken; [apply (ok_ret (desk_inv (Some [])))|done|apply inv_nil]. Qed.

Lemma refresh_name_ok' n : ok (desk_inv (Some n)) (match n with [] => ret tt | a :: n' => _refresh_dock_running (a :: n') end) (desk_inv None).
Proof. pose proof (refresh_name_ok n) as H. by destruct n. Qed.

Lemma dock_op_ok op : (forall n b, op <> DRunning n b) -> ok (desk_inv None) (modify (fun c => put_dock (dock_step (co_dock c) op) c)) (desk_inv None).
Proof.
  intros Hop. apply ok_modify. intros c [H1 H2 H3 (P & R & H4 & H5)]. split; try done.
  exists (fst (spec_dock (P, R) op)), (snd (spec_dock (P, R) op)). split; [by apply dock_step_rel|].
  intros n Hn Hx. change (runs n (put_dock _ c)) with (runs n c). rewrite <- H5 by done. destruct op; try done. by destruct (Hop name b).
Qed.

(** ** Opening and closing *)

Context (registry : list (str * AppInfo F (Menu (call F)))).

Lemma add_window_ok id :
  ok (fun c => desk_inv None c /\ id ∉ co_windows c /\ id < co_next c) (add_window registry id) (desk_inv None).
Proof.
  set (Q1 := fun c => desk_inv None c /\ id ∉ co_windows c /\ id < co_next c).
  assert (S1 : stable Q1).
  { intros c c' Hs (H1 & H2 & H3). pose proof (inv_stable _ _ _ Hs H1). destruct Hs. unfold Q1. by rewrite sm_windows0, sm_next0. }
  set (Q2 := fun c => desk_inv (Some (cw_app (co_heap c id))) c).
  assert (S2 : stable Q2).
  { intros c c' Hs H. unfold Q2 in *. rewrite (sm_app _ _ Hs). by eapply inv_stable. }
  unfold add_window. apply (ok_bind _ Q1); [|intros _].
  { apply ok_modify. intros c (H1 & H2 & H3). repeat case_match; try done. split_and!; [|done..]. eapply inv_ext; [..|exact H1]; try done.
    intros j Hj. cbn. destruct (Z.eqb_spec j id) as [->|]; done. }
  apply (ok_bind _ Q1); [by apply silent_gets|intros old].
  apply (ok_bind _ Q1); [|intros _].
  { destruct old as [o|]; [|apply ok_ret]. eapply ok_bind; [|intros _]; by apply silent_upd. }
  apply (ok_bind _ Q2); [|intros _].
  { apply ok_modify. intros c ([H1 H2 H3 (P & R & H4 & H5)] & Hn & Hlt). split; cbn.
    - apply Forall_app. split; [done|]. by constructor.
    - apply list.NoDup_app. split_and!; [done| |by apply NoDup_singleton]. by intros y Hy ->%list_elem_of_singleton.
    - done.
    - exists P, R. split; [done|]. intros n Hne Hx. rewrite H5 by done. unfold runs. cbn. rewrite existsb_app. cbn.
      assert (beq (cw_app (co_heap c id)) n = false) as ->; [|by rewrite !orb_false_r].
      destruct (beq_spec (cw_app (co_heap c id)) n); [congruence|done]. }
  apply (ok_bind _ Q2); [apply silent_modify; [intros c; by split|done]|intros _].
  apply (ok_bind _ Q2); [by apply silent_upd|intros _].
  apply (ok_bind _ Q2); [by apply silent_menus|intros _].
  unfold win. apply ok_gets. intros c Hc. eapply ok_bind.
  - eapply ok_weaken; [apply (refresh_name_ok' (cw_app (co_heap c id)))|by intros ? <-|done].
  - intros _. eapply ok_bind; [apply silent_redraw, inv_stable|intros _]. apply silent_upd; [done|apply inv_stable].
Qed.

Lemma focus_here_ok (P : Compositor F -> Prop) : stable P ->
  ok (fun c => P c /\ 0 <= co_focus c < len (co_windows c)) (focus_here registry) P.
Proof.
  intros HP. apply ok_gets. intros c [Hc Hf]. destruct (lookup_lt_is_Some_2 (co_windows c) (Z.to_nat (co_focus c))) as [id Ei]; [unfold len in Hf; lia|].
  rewrite Ei. eapply ok_weaken; [|by intros ? <-; exact Hc|done].
  eapply ok_bind; [by apply silent_upd|intros _; by apply silent_menus].
Qed.

Lemma remove_window_ok id : ok (desk_inv None) (remove_window registry id) (desk_inv None).
Proof.
  unfold remove_window. apply ok_get. intros c Hc. destruct (has_id id (co_windows c)) eqn:Eh; cbn [negb].
  2:{ eapply ok_weaken; [apply (ok_ret (desk_inv None))|by intros ? <-|done]. }
  apply has_id_spec in Eh. destruct (index_of_spec _ _ Eh) as [Hi _]. pose proof (remove_id_len _ _ Eh) as Hl.
  cbv zeta. set (left := remove_id id (co_windows c)) in *.
  set (P1 := fun c1 => desk_inv (Some (cw_app (co_heap c id))) c1).
  assert (S1 : stable P1) by apply inv_stable.
  apply (ok_bind _ (fun c1 => P1 c1 /\ co_windows c1 = left /\ co_focus c1 = co_focus c)); [|intros _].
  { apply ok_modify. intros ? <-. destruct Hc as [H1 H2 H3 (P & R & H4 & H5)]. split; [|done]. split; cbn; try done.
    - apply Forall_forall. intros j Hj. apply remove_id_elem in Hj. rewrite Forall_forall in H1. by apply H1.
    - by apply remove_id_NoDup.
    - exists P, R. split; [done|]. intros n Hn Hx. rewrite H5 by done. unfold runs. cbn. f_equal. apply eq_true_iff_eq.
      rewrite !existsb_exists. setoid_rewrite <- list_elem_of_In. split.
      + intros (j & Hj & Ej%beq_eq). exists j. split; [|by apply beq_eq]. apply remove_id_spec; [done|]. split; [done|]. intros ->. congruence.
      + intros (j & Hj & Ej). exists j. split; [|done]. by apply remove_id_elem in Hj. }
  apply (ok_bind _ P1); [|intros _; eapply ok_bind; [apply refresh_name_ok|intros _; apply silent_redraw, inv_stable]].
  destruct ((index_of id (co_windows c) =? co_focus c) && negb (len left =? 0)) eqn:Eb; [|destruct (len left =? 0)].
  - apply andb_true_iff in Eb as [Ef%Z.eqb_eq El%negb_true_iff%Z.eqb_neq]. eapply ok_bind; [|intros _; by apply focus_here_ok].
    apply ok_modify. intros c1 (H1 & Ew & Efo). cbn. rewrite Ew, Efo. split; [|lia]. eapply S1; [|exact H1]. by split.
  - eapply ok_bind; [|intros _; by apply silent_menus]. apply ok_modify. intros c1 (H1 & _). eapply S1; [|exact H1]. by split.
  - eapply ok_weaken; [apply ok_ret|by intros c1 (H1 & _); exact H1|done].
Qed.

(** ** Every step keeps it *)

Lemma silent_keeps {X} (m : M (Compositor F) X) : silent m -> keeps (desk_inv None) m.
Proof. intros H. apply ok_keeps, H, inv_stable. Qed.

Lemma active_ok n (f : list str -> list str) : (forall l, NoDup l -> NoDup (f l)) -> (forall l m, NoDup l -> m <> n -> mem m (f l) = mem m l) ->
  ok (desk_inv None) (modify (fun c => put_active (f (co_active c)) c)) (desk_inv (Some n)).
Proof.
  intros Hf Hm. apply ok_modify. intros c [H1 H2 H3 (P & R & H4 & H5)]. split; cbn; try done; [by apply Hf|].
  exists P, R. split; [done|]. intros m Hne Hx. rewrite H5 by done. unfold runs. cbn [co_active co_windows co_heap put_active].
  rewrite Hm; [done|done|congruence].
Qed.
Lemma launch_begin_ok n : ok (desk_inv None) (launch_begin n) (desk_inv None).
Proof.
  unfold launch_begin. eapply ok_bind; [apply silent_modify; [intros c; by split|apply inv_stable]|intros _].
  eapply ok_bind; [apply silent_modify; [intros c; by split|apply inv_stable]|intros _].
  eapply ok_bind; [|intros _; apply refresh_running_ok]. apply active_ok; [intros l; apply add1_NoDup|].
  intros l m _ Hne. apply eq_true_iff_eq. rewrite !mem_spec, add1_spec. naive_solver.
Qed.
Lemma launch_end_ok k : ok (desk_inv None) (launch_end k) (desk_inv None).
Proof.
  unfold launch_end. apply ok_get. intros c Hc. eapply ok_weaken; [|by intros ? <-; exact Hc|done].
  destruct (co_live c !! k) as [[n prev]|]; [|apply ok_ret].
  eapply ok_bind; [apply silent_modify; [intros c1; by split|apply inv_stable]|intros _].
  eapply ok_bind; [apply silent_modify; [intros c1; by split|apply inv_stable]|intros _].
  eapply ok_bind; [|intros _; apply refresh_running_ok]. apply active_ok; [intros l; apply remove1_NoDup|].
  intros l m Hl Hne. apply eq_true_iff_eq. rewrite !mem_spec, remove1_spec by done. naive_solver.
Qed.
Lemma launch_app_ok n args : ok (desk_inv None) (launch_app registry n args) (desk_inv None).
Proof.
  unfold launch_app. destruct (dget n registry) as [info|]; [|apply ok_ret].
  eapply ok_bind; [by apply (dock_op_ok (DEnsure n (Some (ai_entry info)) (ai_icon info)))|intros _]. apply silent_task, inv_stable.
Qed.

Lemma run_op_ok o : ok (desk_inv None) (run_op registry o) (desk_inv None).
Proof.
  destruct o as [w|id|id|id m|id|n args]; cbn [run_op]; try (by apply silent_upd, inv_stable).
  - apply ok_gets. intros c Hc. eapply ok_bind; [|intros _; apply add_window_ok]. apply ok_modify. intros ? <-. cbn.
    pose proof (dv_ids _ _ Hc) as Hi. assert (Hn : co_next c ∉ co_windows c).
    { intros Hin. rewrite Forall_forall in Hi. apply Hi in Hin. lia. }
    split_and!; [|done|lia]. eapply inv_ext; [..|exact Hc]; try done; cbn; [lia|].
    intros j Hj. destruct (Z.eqb_spec j (co_next c)) as [->|]; done.
  - apply remove_window_ok.
  - apply launch_app_ok.
Qed.
Lemma run_ops_ok l : ok (desk_inv None) (for_each l (run_op registry)) (desk_inv None).
Proof. apply ok_for_each, run_op_ok. Qed.

Context (on_event : Z -> Event -> Compositor F -> list (app_op F)) (menu_call : F -> Compositor F -> list (app_op F)).
Context (screen_event : Event -> Compositor F -> result (list (app_op F))) (fb : option (Z * Z)).

Lemma deliver_ok id ev : ok (desk_inv None) (deliver registry on_event id ev) (desk_inv None).
Proof.
  unfold deliver, win. apply ok_gets. intros c Hc. eapply ok_bind.
  - eapply ok_weaken; [apply silent_modify; [intros c1; by split|apply (inv_stable None)]|by intros ? <-; exact Hc|done].
  - intros _. apply ok_get. intros c1 Hc1. eapply ok_weaken; [apply run_ops_ok|by intros ? <-|done].
Qed.

(** [keeps] over a routine that branches on the state it reads. *)
Ltac keep_step := match goal with
  | |- keeps _ (bind _ _) => apply keeps_bind; [|intros ?]
  | |- keeps _ (ret _) => apply keeps_ret
  | |- keeps _ (get) => apply keeps_get
  | |- keeps _ (gets _) => apply keeps_gets
  | |- keeps _ (lift _) => apply keeps_lift
  | |- keeps _ (upd_win _ _) => by apply silent_keeps, silent_upd
  | |- keeps _ (needs_redraw) => apply silent_keeps, silent_redraw
  | |- keeps _ (top_dirty) => apply silent_keeps, silent_top
  | |- keeps _ (all_dirty) => apply silent_keeps, silent_all_dirty
  | |- keeps _ (_mark_chrome_dirty) => apply silent_keeps, silent_chrome
  | |- keeps _ (create_task _) => apply silent_keeps, silent_task
  | |- keeps _ (open_window_source) => apply silent_keeps, silent_source
  | |- keeps _ (_refresh_app_menus _ _) => apply silent_keeps, silent_menus
  | |- keeps _ (deliver _ _ _ _) => apply ok_keeps, deliver_ok
  | |- keeps _ (remove_window _ _) => apply ok_keeps, remove_window_ok
  | |- keeps _ (launch_app _ _ _) => apply ok_keeps, launch_app_ok
  | |- keeps _ (for_each _ (run_op _)) => apply ok_keeps, run_ops_ok
  | |- keeps _ (for_each _ _) => apply keeps_for_each; intros ?
  | |- keeps _ (when _ _) => unfold when
  | |- keeps _ (match ?x with _ => _ end) => destruct x
  | |- keeps _ (modify _) => apply silent_keeps, silent_modify; intros ?; try case_match; by split
  end.
Ltac keep_solve := repeat keep_step.

Lemma focus_here_keeps : keeps (desk_inv None) (focus_here registry).
Proof. unfold focus_here. apply keeps_bind; [apply keeps_gets|]. intros o. destruct o; keep_solve. apply keeps_raise. Qed.
Lemma cycle_focus_keeps d : keeps (desk_inv None) (cycle_focus registry d).
Proof. unfold cycle_focus. keep_solve. apply focus_here_keeps. Qed.
Lemma restack_keeps id : ok (fun c => desk_inv None c /\ id ∈ co_windows c)
  (modify (fun c => put_windows (remove_id id (co_windows c) ++ [id]) c)) (desk_inv None).
Proof.
  apply ok_modify. intros c [[H1 H2 H3 (P & R & H4 & H5)] Hin]. split; cbn; try done.
  - rewrite Forall_forall in *. intros j. rewrite remove_id_same by done. apply H1.
  - apply list.NoDup_app. split_and!; [by apply remove_id_NoDup| |by apply NoDup_singleton].
    intros y Hy ->%list_elem_of_singleton. apply remove_id_spec in Hy as [_ ?]; done.
  - exists P, R. split; [done|]. intros n Hn Hx. rewrite H5 by done. unfold runs. cbn. f_equal. apply eq_true_iff_eq.
    rewrite !existsb_exists. setoid_rewrite <- list_elem_of_In. by setoid_rewrite (remove_id_same id _ _ H2 Hin).
Qed.
Lemma raise_window_ok id : ok (fun c => desk_inv None c /\ id ∈ co_windows c) (raise_window registry id) (desk_inv None).
Proof.
  set (Q := fun c => desk_inv None c /\ id ∈ co_windows c). assert (S : stable Q).
  { intros c c' Hs [H1 H2]. split; [by eapply inv_stable|]. by rewrite (sm_windows _ _ Hs). }
  unfold raise_window. apply (ok_bind _ Q); [apply silent_modify; [intros c; by split|done]|intros _].
  apply (ok_bind _ Q); [by apply silent_upd|intros _]. apply (ok_bind _ Q); [by apply silent_upd|intros _].
  apply (ok_bind _ Q); [by apply silent_menus|intros _]. eapply ok_bind; [apply restack_keeps|intros _].
  eapply ok_bind; [apply silent_modify; [intros c; by split|apply inv_stable]|intros _]. apply silent_redraw, inv_stable.
Qed.
Lemma focus_ok' id : ok (desk_inv None) (_focus registry id) (desk_inv None).
Proof.
  unfold _focus. apply ok_get. intros c Hc. destruct (has_id id (co_windows c)) eqn:E; cbn [negb].
  2:{ eapply ok_weaken; [apply (ok_ret (desk_inv None))|by intros ? <-|done]. }
  apply has_id_spec in E. assert (Q : stable (fun c => desk_inv None c /\ id ∈ co_windows c)).
  { intros c1 c' Hs [H1 H2]. split; [by eapply inv_stable|]. by rewrite (sm_windows _ _ Hs). }
  destruct (focused_window c) as [o|].
  - destruct (o =? id); [eapply ok_weaken; [apply (ok_ret (desk_inv None))|by intros ? <-|done]|].
    eapply ok_bind; [eapply ok_weaken; [by apply silent_upd|by intros ? <-|done]|intros _].
    eapply ok_bind; [by apply silent_upd|intros _]. apply raise_window_ok.
  - eapply ok_weaken; [apply raise_window_ok|by intros ? <-|done].
Qed.

Lemma run_call_keeps a : keeps (desk_inv None) (run_call registry menu_call a).
Proof.
  destruct a as [n|n|n| | |f]; cbn [run_call]; keep_solve.
  - by apply ok_keeps, (dock_op_ok (DPin n None None)).
  - by apply ok_keeps, (dock_op_ok (DUnpin n)).
Qed.
Lemma context_click_keeps x y : keeps (desk_inv None) (_handle_context_click registry fb x y).
Proof. unfold _handle_context_click. keep_solve. Qed.
Lemma to_focused_keeps ev : keeps (desk_inv None) (to_focused registry on_event ev).
Proof. unfold to_focused. keep_solve. Qed.
Lemma left_down_keeps ev : keeps (desk_inv None) (left_down registry on_event fb ev).
Proof. unfold left_down, win. keep_solve; apply ok_keeps, focus_ok'. Qed.
Lemma route_windows_keeps ev : keeps (desk_inv None) (route_windows registry on_event fb ev).
Proof.
  unfold route_windows, pointer_move, left_up. keep_solve; try apply left_down_keeps; apply to_focused_keeps.
Qed.
Lemma route_context_keeps ev : keeps (desk_inv None) (route_context registry on_event fb ev).
Proof. unfold route_context. keep_solve; try apply context_click_keeps; apply route_windows_keeps. Qed.
Lemma route_menubar_keeps ev : keeps (desk_inv None) (route_menubar registry on_event menu_call fb ev).
Proof.
  unfold route_menubar, route_menubar_down. keep_solve; try apply run_call_keeps; apply route_context_keeps.
Qed.
Lemma route_popup_keeps ev : keeps (desk_inv None) (route_popup registry on_event menu_call fb ev).
Proof. unfold route_popup, popup_scroll. keep_solve; try apply run_call_keeps; apply route_menubar_keeps. Qed.
Lemma route_event_keeps ev : keeps (desk_inv None) (_route_event registry on_event menu_call screen_event fb ev).
Proof.
  unfold _route_event, route_rest, track_ctrl. keep_solve; try apply cycle_focus_keeps; apply route_popup_keeps.
Qed.
Lemma input_step_keeps ev : keeps (desk_inv None) (input_step registry on_event menu_call screen_event fb ev).
Proof. unfold input_step, reap, win. apply keeps_bind; [apply route_event_keeps|intros _]. keep_solve. Qed.
Lemma redraw_keeps me me11 sf by_ t : keeps (desk_inv None) (_redraw fb me me11 sf by_ t).
Proof. unfold _redraw, windows_drawn. keep_solve. Qed.
Lemma seed_keeps : keeps (desk_inv None) (seed_desktop registry).
Proof.
  unfold seed_desktop, seed_system_menus. apply keeps_bind; [|intros _; keep_solve].
  apply keeps_modify. intros c Hc. unfold seed_pinned_from_registry. generalize (list_apps registry). intros l.
  revert c Hc. induction l as [|a l IH]; intros c Hc; cbn [fold_left]; [by destruct Hc; split|].
  set (op := DPin (ai_name a) (Some (ai_entry a)) (ai_icon a)).
  assert (Hp : desk_inv None (put_dock (dock_step (co_dock c) op) c)).
  { assert (Hop : forall n b, op <> DRunning n b) by done. by destruct (dock_op_ok op Hop c Hc) as (u & c' & [= _ <-] & H'). }
  destruct (beq (ai_category a) (lit "app")); [exact (IH _ Hp)|by apply IH].
Qed.

(** ** Histories *)

Inductive comp_step : Type :=
| SApp (o : app_op F) | SInput (ev : Event) | SBegin (name : str) | SEnd (k : nat) | SPin (name : str) (entry : F) (icon : option F)
| SFrame (measure measure11 : str -> Z * Z) (surface : Z -> Surface) (by_ : presenter) (uptime : str) | SSeed.
Definition after {X} (m : M (Compositor F) X) c : Compositor F := snd (m c).
Definition comp_do c (s : comp_step) : Compositor F :=
  match s with
  | SApp o => after (run_op registry o) c
  | SInput ev => after (input_step registry on_event menu_call screen_event fb ev) c
  | SBegin n => after (launch_begin n) c
  | SEnd k => after (launch_end k) c
  | SPin n e i => after (register_dock_app n e i) c
  | SFrame me me11 sf by_ t => after (_redraw fb me me11 sf by_ t) c
  | SSeed => after (seed_desktop registry) c
  end.
Lemma keeps_after {X} (m : M (Compositor F) X) c : keeps (desk_inv None) m -> desk_inv None c -> desk_inv None (after m c).
Proof. intros H Hc. unfold after. destruct (m c) as [r c'] eqn:E. by eapply H. Qed.
Lemma comp_do_inv s c : desk_inv None c -> desk_inv None (comp_do c s).
Proof.
  intros Hc. destruct s as [o|ev|n|k|n e i|me by_ t|]; cbn [comp_do]; apply keeps_after; try done.
  - apply ok_keeps, run_op_ok.
  - apply input_step_keeps.
  - apply ok_keeps, launch_begin_ok.
  - apply ok_keeps, launch_end_ok.
  - by apply ok_keeps, (dock_op_ok (DPin n (Some e) i)).
  - apply redraw_keeps.
  - apply seed_keeps.
Qed.
Lemma comp_run_inv steps c : desk_inv None c -> desk_inv None (fold_left comp_do steps c).
Proof. revert c. induction steps as [|s steps IH]; intros c Hc; [done|]. cbn. by apply IH, comp_do_inv. Qed.
Lemma Compositor_init_inv : desk_inv None Compositor_init.
Proof. split; cbn; try constructor. exists (fun _ => false), (fun _ => false). split; [apply Dock_init_rel|done]. Qed.

(** C25: whatever applications, callbacks, input, launches that overlap in any
    way and frames do, the dock shows an application exactly when it is pinned,
    a launch of it counts as in progress, or a window on the desktop belongs
    to it; each once. *)
Theorem dock_follows_windows steps n : let c := fold_left comp_do steps Compositor_init in
  n <> [] -> NoDup (visible_names (co_dock c)) /\
  (n ∈ visible_names (co_dock c) <->
   is_pinned n (co_dock c) = true \/ n ∈ co_active c \/ exists id, id ∈ co_windows c /\ cw_app (co_heap c id) = n).
Proof.
  intros c Hn. pose proof (comp_run_inv steps _ Compositor_init_inv) as [_ _ _ (P & R & Hd & Hr)]. fold c in Hd, Hr.
  rewrite (visible_names_eq _ _ _ Hd). split; [by eapply dock_rel_nodup|].
  rewrite elem_of_app, (dr_pin _ _ _ Hd), (dr_tra _ _ _ Hd), (dock_rel_pinned _ _ _ n Hd), (Hr n Hn) by done. unfold runs.
  rewrite orb_true_iff, mem_spec, existsb_exists. setoid_rewrite <- list_elem_of_In. setoid_rewrite beq_eq.
  destruct (P n); naive_solver.
Qed.
End props.
