(* ===== verification/CompositorFocus.v ===== *)
(** * Who gets the input

    Removing a window, cycling the focus, clicking and dragging: which window
    has the focus afterwards, which one gets the event and what is seen under
    the pointer. *)

From Stdlib Require Import ZArith Lia.
From stdpp Require Import base list numbers strings.
From S2P Require Import Prelude Bytes Pystr Dict Input Dock DockProps Menubar Compositor CompositorProps.

Local Open Scope Z_scope.

Section focus.
Context {F : Type}.
Implicit Types (c : Compositor F) (ws : list Z) (w : Window F).

(** ** The stack, the focus and the windows' shapes *)

Record shape : Type := mkShape { sh_rect : rect; sh_chrome : bool; sh_focused : bool; sh_app : str }.
Definition shape_of w : shape := mkShape (cw_x w, cw_y w, cw_w w, cw_h w) (cw_chrome w) (cw_focused w) (cw_app w).
Implicit Types (g : Z -> shape).
Record looks ws (f : Z) g c : Prop := {
  lk_windows : co_windows c = ws;
  lk_focus : co_focus c = f;
  lk_shape id : shape_of (co_heap c id) = g id;
}.
Definition set_flag (id : Z) (b : bool) g : Z -> shape :=
  fun j => if j =? id then mkShape (sh_rect (g j)) (sh_chrome (g j)) b (sh_app (g j)) else g j.

Definition calm {X} (m : M (Compositor F) X) : Prop := forall ws f g, ok (looks ws f g) m (looks ws f g).
Lemma calm_modify f : (forall c, co_windows (f c) = co_windows c /\ co_focus (f c) = co_focus c /\
  forall id, shape_of (co_heap (f c) id) = shape_of (co_heap c id)) -> calm (modify f).
Proof. intros H ws fo g. apply ok_modify. intros c []. destruct (H c) as (? & ? & Hs). split; [congruence..|]. intros id. by rewrite Hs. Qed.
Lemma calm_bind {X Y} (m : M (Compositor F) X) (k : X -> M (Compositor F) Y) : calm m -> (forall a, calm (k a)) -> calm (bind m k).
Proof. intros Hm Hk ws f g. eapply ok_bind; [apply Hm|]. intros a. apply Hk. Qed.
Lemma calm_ret {X} (x : X) : calm (ret x).
Proof. intros ws f g. apply ok_ret. Qed.
Lemma calm_gets {X} (h : Compositor F -> X) : calm (gets h).
Proof. intros ws f g c Hc. by exists (h c), c. Qed.
Lemma calm_dirty id b : calm (upd_win id (win_dirty b)).
Proof. apply calm_modify. intros c. split_and!; [done..|]. intros j. cbn. by case_match. Qed.
Lemma calm_redraw : calm needs_redraw.
Proof. apply calm_modify. by intros c. Qed.
Lemma calm_menus reg o : calm (_refresh_app_menus reg o).
Proof. apply calm_modify. by intros c. Qed.
Lemma calm_running n : calm (_refresh_dock_running n).
Proof.
  unfold _refresh_dock_running. apply calm_bind; [apply calm_modify; by intros c|intros _].
  apply calm_bind; [apply calm_modify; intros c; by case_match|intros _; apply calm_redraw].
Qed.
Lemma calm_for_each {X} (l : list X) body : (forall x, calm (body x)) -> calm (for_each l body).
Proof. intros H ws f g. apply ok_for_each. intros x. apply H. Qed.
Lemma calm_all_dirty : calm all_dirty.
Proof. unfold all_dirty. apply calm_bind; [apply calm_gets|intros ws]. apply calm_for_each. intros id. apply calm_dirty. Qed.

Lemma flag_ok id b ws f g : ok (looks ws f g) (upd_win id (win_focused b)) (looks ws f (set_flag id b g)).
Proof.
  apply ok_modify. intros c []. split; [done..|]. intros j. cbn. unfold set_flag. rewrite <- lk_shape0. by destruct (j =? id).
Qed.
Lemma put_windows_ok ws' ws f g : ok (looks ws f g) (modify (put_windows ws')) (looks ws' f g).
Proof. apply ok_modify. by intros c []. Qed.
Lemma put_focus_ok (h : Compositor F -> Z) f' ws f g : (forall c, looks ws f g c -> h c = f') ->
  ok (looks ws f g) (modify (fun c => put_focus (h c) c)) (looks ws f' g).
Proof. intros Hh. apply ok_modify. intros c Hc. pose proof (Hh c Hc). destruct Hc. split; done. Qed.

Lemma focus_at registry ws f g id : 0 <= f -> ws !! Z.to_nat f = Some id ->
  ok (looks ws f g) (focus_here registry) (looks ws f (set_flag id true g)).
Proof.
  intros Hf Hi. apply ok_gets. intros c [Ew Ef Es]. rewrite Ew, Ef, Hi.
  eapply ok_bind; [eapply ok_weaken; [apply (flag_ok id true ws f g)|by intros ? <-|done]|intros _; apply calm_menus].
Qed.

(** ** What is focused *)

(** The focus is on a window, and that window alone is marked. *)
Definition focused ws (f : Z) g : Prop :=
  0 <= f < len ws /\ forall i id, ws !! i = Some id -> sh_focused (g id) = (Z.of_nat i =? f).
Definition focus_ok c : Prop := focused (co_windows c) (co_focus c) (fun id => shape_of (co_heap c id)).
Lemma looks_self c : looks (co_windows c) (co_focus c) (fun id => shape_of (co_heap c id)) c.
Proof. by split. Qed.
Lemma looks_focused ws f g c : looks ws f g c -> focused ws f g -> focus_ok c.
Proof. intros [Ew Ef Es] [H1 H2]. unfold focus_ok. rewrite Ew, Ef. split; [done|]. intros i id Hi. by rewrite Es, (H2 i id Hi). Qed.
Lemma looks_window ws f g c : looks ws f g c -> 0 <= f -> focused_window c = ws !! Z.to_nat f.
Proof.
  intros [Ew Ef _] Hf. unfold focused_window. rewrite Ew, Ef. destruct (Z.leb_spec 0 f); [|lia]. cbn. destruct (Z.ltb_spec f (len ws)); [done|].
  symmetry. apply lookup_ge_None. unfold len in *. lia.
Qed.

Lemma remove_id_delete ws i id : NoDup ws -> ws !! i = Some id -> remove_id id ws = delete i ws /\ index_of id ws = Z.of_nat i.
Proof.
  intros H. revert i. induction H as [|x ws Hx Hws IH]; intros i; [done|]. destruct i as [|i]; cbn [lookup list_lookup]; intros E.
  - injection E as ->. cbn [remove_id index_of]. by rewrite Z.eqb_refl.
  - cbn [remove_id index_of]. destruct (Z.eqb_spec x id) as [->|Hne]; [apply list_elem_of_lookup_2 in E; done|].
    destruct (IH i E) as [-> ->]. split; [done|lia].
Qed.

Context (registry : list (str * AppInfo F (Menu (call F)))).

(** The steps of [remove_window] as the stack sees them. *)
Definition flag_after (i : nat) ws (f : Z) g : Z -> shape :=
  if (Z.of_nat i =? f) && negb (len (delete i ws) =? 0) then
    match delete i ws !! Z.to_nat (Z.min f (len (delete i ws) - 1)) with Some id => set_flag id true g | None => g end
  else g.
Definition focus_after (i : nat) ws (f : Z) : Z :=
  if (Z.of_nat i =? f) && negb (len (delete i ws) =? 0) then Z.min f (len (delete i ws) - 1)
  else if len (delete i ws) =? 0 then -1 else f.
Lemma remove_looks ws f g i id : NoDup ws -> ws !! i = Some id ->
  ok (looks ws f g) (remove_window registry id) (looks (delete i ws) (focus_after i ws f) (flag_after i ws f g)).
Proof.
  intros Hn Hi. unfold remove_window. apply ok_get. intros c Hc. pose proof Hc as [Ew Ef _]. rewrite Ew, Ef.
  assert (Hin : has_id id ws = true) by (apply has_id_spec; by eapply list_elem_of_lookup_2). rewrite Hin. cbn [negb].
  destruct (remove_id_delete ws i id Hn Hi) as [-> ->]. cbv zeta. unfold focus_after, flag_after. set (l := delete i ws).
  eapply ok_bind; [eapply ok_weaken; [apply (put_windows_ok l ws f g)|by intros ? <-|done]|intros _].
  eapply ok_bind; [|intros _; apply calm_bind; [destruct (cw_app (co_heap c id)); [apply calm_ret|apply calm_running]|intros _; apply calm_redraw]].
  destruct ((Z.of_nat i =? f) && negb (len l =? 0)) eqn:Eb; [|destruct (len l =? 0)].
  - apply andb_true_iff in Eb as [Ei%Z.eqb_eq El%negb_true_iff%Z.eqb_neq]. pose proof (len_nonneg l).
    eapply ok_bind; [apply (put_focus_ok _ (Z.min f (len l - 1)))|intros _].
    { intros c1 [E1 E2 _]. by rewrite E1, E2. }
    destruct (lookup_lt_is_Some_2 l (Z.to_nat (Z.min f (len l - 1)))) as [j Ej]; [unfold len in *; lia|]. rewrite Ej.
    apply focus_at; [lia|done].
  - eapply ok_bind; [apply (put_focus_ok (fun _ => -1) (-1)); done|intros _; apply calm_menus].
  - apply ok_ret.
Qed.

Lemma delete_len ws i : (i < length ws)%nat -> len (delete i ws) = len ws - 1.
Proof. intros Hi. unfold len. rewrite length_delete by (by apply lookup_lt_is_Some_2). lia. Qed.

(** What closing a window does to the focus, exactly.  Closing the focused
    window passes the focus to the one that takes its place, or to the top
    one; closing one above it leaves the focus alone; in both cases one window
    is marked and it gets the keyboard.  Closing one below the focused window
    moves the keyboard to the window above the focused one, or to none when
    the focused one was on top, while the old one stays marked. *)
Theorem remove_window_focus c i id : NoDup (co_windows c) -> focus_ok c -> co_windows c !! i = Some id ->
  exists c', remove_window registry id c = (Ok tt, c') /\ co_windows c' = delete i (co_windows c) /\
  let f := Z.to_nat (co_focus c) in
  (i = f -> (co_windows c' = [] /\ focused_window c' = None) \/
            (focus_ok c' /\ focused_window c' = co_windows c' !! Nat.min f (length (co_windows c') - 1))) /\
  ((f < i)%nat -> focus_ok c' /\ focused_window c' = focused_window c) /\
  ((i < f)%nat -> focused_window c' = co_windows c !! S f /\
                  forall o, focused_window c = Some o -> o ∈ co_windows c' /\ cw_focused (co_heap c' o) = true).
Proof.
  intros Hn [Hf Hflag] Hi. set (ws := co_windows c) in *. set (f := co_focus c) in *. set (g := fun id => shape_of (co_heap c id)) in *.
  change (forall i id, ws !! i = Some id -> sh_focused (g id) = (Z.of_nat i =? f)) in Hflag.
  destruct (remove_looks ws f g i id Hn Hi c (looks_self c)) as ([] & c' & E & Hl). exists c'. split; [done|].
  pose proof (lookup_lt_Some _ _ _ Hi) as Hil. pose proof (delete_len ws i Hil) as Hd.
  pose proof (looks_window _ _ _ _ (looks_self c)) as Ho. fold ws f in Ho. cbv zeta.
  split; [apply (lk_windows _ _ _ _ Hl)|]. unfold focus_after, flag_after in Hl. split_and!.
  - intros ->. rewrite Z2Nat.id in Hl by lia. rewrite Z.eqb_refl in Hl. cbn [andb] in Hl.
    destruct (Z.eqb_spec (len (delete (Z.to_nat f) ws)) 0) as [E0|E0]; cbn [negb] in Hl; [left|right].
    + assert (co_windows c' = []) as E1. { rewrite (lk_windows _ _ _ _ Hl). unfold len in E0. apply length_zero_iff_nil. lia. }
      split; [done|]. unfold focused_window. rewrite E1, (lk_focus _ _ _ _ Hl). done.
    + set (l := delete (Z.to_nat f) ws) in *. pose proof (len_nonneg l).
      destruct (lookup_lt_is_Some_2 l (Z.to_nat (Z.min f (len l - 1)))) as [j Ej]; [unfold len in *; lia|]. rewrite Ej in Hl.
      split.
      * eapply looks_focused; [exact Hl|]. split; [lia|]. intros k x Hk. unfold set_flag.
        assert (Nl : NoDup l) by (eapply sublist_NoDup; [exact Hn|apply sublist_delete]).
        destruct (Z.eqb_spec x j) as [->|Hne].
        { assert (k = Z.to_nat (Z.min f (len l - 1))) by (by eapply NoDup_lookup). cbn. lia. }
        destruct (Z.eqb_spec (Z.of_nat k) (Z.min f (len l - 1))) as [Ek|Ek]; [rewrite <- Ek, Nat2Z.id in Ej; congruence|].
        pose proof Hk as Hk'. unfold l in Hk'. apply lookup_lt_Some in Hk as Hkl.
        destruct (decide (k < Z.to_nat f)%nat) as [Hlt|Hge].
        { rewrite list_lookup_delete_lt in Hk' by done. rewrite (Hflag _ _ Hk'). lia. }
        { rewrite list_lookup_delete_ge in Hk' by lia. rewrite (Hflag _ _ Hk'). apply Z.eqb_neq. clear -Hge Hf. lia. }
      * rewrite (looks_window _ _ _ _ Hl) by lia. rewrite (lk_windows _ _ _ _ Hl). f_equal. unfold len in *. lia.
  - intros Hlt. destruct (Z.eqb_spec (Z.of_nat i) f); [lia|]. cbn [andb] in Hl.
    destruct (Z.eqb_spec (len (delete i ws)) 0); [unfold len in *; lia|]. split.
    + eapply looks_focused; [exact Hl|]. split; [unfold len in *; lia|]. intros k x Hk. destruct (decide (k < i)%nat) as [Hlt'|Hge].
      * rewrite list_lookup_delete_lt in Hk by done. apply (Hflag _ _ Hk).
      * rewrite list_lookup_delete_ge in Hk by lia. rewrite (Hflag _ _ Hk), !(proj2 (Z.eqb_neq _ _)); [done|lia..].
    + rewrite (looks_window _ _ _ _ Hl), Ho by lia. apply list_lookup_delete_lt. lia.
  - intros Hlt. destruct (Z.eqb_spec (Z.of_nat i) f); [lia|]. cbn [andb] in Hl.
    destruct (Z.eqb_spec (len (delete i ws)) 0); [lia|]. split.
    + rewrite (looks_window _ _ _ _ Hl) by lia. apply list_lookup_delete_ge. lia.
    + intros o. rewrite Ho by lia. intros Eo. split.
      * rewrite (lk_windows _ _ _ _ Hl). apply (list_elem_of_lookup_2 _ (Z.to_nat f - 1)).
        rewrite list_lookup_delete_ge by lia. by replace (S (Z.to_nat f - 1)) with (Z.to_nat f) by lia.
      * pose proof (lk_shape _ _ _ _ Hl o) as Es. apply (f_equal sh_focused) in Es. rewrite (Hflag _ _ Eo) in Es. cbn in Es. rewrite Es. apply Z.eqb_eq. lia.
Qed.

(** ** What focus changes do not touch *)

Record inert (E : Compositor F -> Prop) : Prop := {
  it_heap x c : E c -> E (put_heap x c);
  it_bar x c : E c -> E (put_bar x c);
  it_redraw x c : E c -> E (put_redraw x c);
  it_windows x c : E c -> E (put_windows x c);
  it_focus x c : E c -> E (put_focus x c);
}.
Definition tame {X} (m : M (Compositor F) X) : Prop := forall E, inert E -> keeps E m.
Lemma tame_modify f : (forall E c, inert E -> E c -> E (f c)) -> tame (modify f).
Proof. intros H E HE. apply keeps_modify. intros c. by apply H. Qed.
Lemma tame_upd id h : tame (upd_win id h).
Proof. apply tame_modify. intros E c HE Hc. by apply (it_heap _ HE). Qed.
Lemma tame_redraw : tame needs_redraw.
Proof. apply tame_modify. intros E c HE Hc. by apply (it_redraw _ HE). Qed.
Lemma tame_menus o : tame (_refresh_app_menus registry o).
Proof. apply tame_modify. intros E c HE Hc. by apply (it_bar _ HE). Qed.
Ltac tame_step := match goal with
  | |- keeps _ (bind _ _) => apply keeps_bind; [|intros ?]
  | |- keeps _ (ret _) => apply keeps_ret
  | |- keeps _ (raise _) => apply keeps_raise
  | |- keeps _ get => apply keeps_get
  | |- keeps _ (gets _) => apply keeps_gets
  | |- keeps _ (for_each _ _) => apply keeps_for_each; intros ?
  | |- keeps _ (upd_win _ _) => by apply tame_upd
  | |- keeps _ needs_redraw => by apply tame_redraw
  | |- keeps _ (_refresh_app_menus _ _) => by apply tame_menus
  | HE : inert _ |- keeps _ (modify _) => apply keeps_modify; intros ? ?; first [by apply (it_focus _ HE)|by apply (it_windows _ HE)]
  | |- keeps _ (match ?x with _ => _ end) => destruct x
  end.
Lemma tame_all_dirty : tame all_dirty.
Proof. intros E HE. unfold all_dirty. repeat tame_step. Qed.
Lemma tame_cycle d : tame (cycle_focus registry d).
Proof. intros E HE. unfold cycle_focus, focus_here. repeat tame_step. by apply tame_all_dirty. Qed.
Lemma tame_focus id : tame (_focus registry id).
Proof. intros E HE. unfold _focus, raise_window. repeat tame_step. Qed.
Lemma ok_with {X} P Q E (m : M (Compositor F) X) : ok P m Q -> keeps E m -> ok (fun c => P c /\ E c) m (fun c => Q c /\ E c).
Proof. intros H HE c [Hc Hc']. destruct (H c Hc) as (a & c1 & Ec & Hq). exists a, c1. split_and!; [done..|]. by eapply HE. Qed.

(** ** Cycling *)

Definition cycled ws (f d : Z) g : Z -> shape :=
  match ws !! Z.to_nat f, ws !! Z.to_nat ((f + d) mod len ws) with
  | Some o, Some n => set_flag n true (set_flag o false g)
  | _, _ => g
  end.
Lemma cycle_looks d ws f g : 0 <= f < len ws -> ok (looks ws f g) (cycle_focus registry d) (looks ws ((f + d) mod len ws) (cycled ws f d g)).
Proof.
  intros Hf. assert (Hm : 0 <= (f + d) mod len ws < len ws) by (apply Z.mod_pos_bound; lia).
  destruct (lookup_lt_is_Some_2 ws (Z.to_nat f)) as [o Eo]; [unfold len in *; lia|].
  destruct (lookup_lt_is_Some_2 ws (Z.to_nat ((f + d) mod len ws))) as [n En]; [unfold len in *; lia|].
  unfold cycled. rewrite Eo, En. unfold cycle_focus. apply ok_get. intros c Hc.
  rewrite (lk_windows _ _ _ _ Hc), (looks_window _ _ _ _ Hc) by lia. destruct (Z.eqb_spec (len ws) 0); [lia|]. rewrite Eo.
  eapply ok_bind; [eapply ok_weaken; [apply (flag_ok o false ws f g)|by intros ? <-|done]|intros _].
  eapply ok_bind; [apply (put_focus_ok _ ((f + d) mod len ws))|intros _].
  { intros c1 [-> -> _]. done. }
  eapply ok_bind; [apply (focus_at registry _ _ _ n); [lia|done]|intros _].
  eapply ok_bind; [apply calm_redraw|intros _]. apply calm_all_dirty.
Qed.
Lemma cycled_focused d ws f g : NoDup ws -> focused ws f g -> focused ws ((f + d) mod len ws) (cycled ws f d g).
Proof.
  intros Hn [Hf Hg]. assert (Hm : 0 <= (f + d) mod len ws < len ws) by (apply Z.mod_pos_bound; lia). split; [done|].
  destruct (lookup_lt_is_Some_2 ws (Z.to_nat f)) as [o Eo]; [unfold len in *; lia|].
  destruct (lookup_lt_is_Some_2 ws (Z.to_nat ((f + d) mod len ws))) as [n En]; [unfold len in *; lia|].
  unfold cycled. rewrite Eo, En. intros i id Hi. unfold set_flag.
  destruct (Z.eqb_spec id n) as [->|Hne]; cbn [sh_focused].
  - assert (i = Z.to_nat ((f + d) mod len ws)) as -> by (by eapply NoDup_lookup). symmetry. apply Z.eqb_eq. lia.
  - assert (Z.of_nat i <> (f + d) mod len ws) as Hne'.
    { intros E. rewrite <- E, Nat2Z.id in En. congruence. }
    rewrite (proj2 (Z.eqb_neq _ _) Hne'). destruct (Z.eqb_spec id o) as [->|Hno]; cbn [sh_focused]; [done|].
    rewrite (Hg _ _ Hi). apply Z.eqb_neq. intros E. rewrite <- E, Nat2Z.id in Eo. congruence.
Qed.

Context (on_event : Z -> Event -> Compositor F -> list (app_op F)) (menu_call : F -> Compositor F -> list (app_op F)).
Context (screen_event : Event -> Compositor F -> result (list (app_op F))) (fb : option (Z * Z)).
Abbreviation route := (_route_event registry on_event menu_call screen_event fb).

Lemma action_key_down t ev a : action_for t ev = Some a -> (ev_kind ev =? QUIT) = false.
Proof. unfold action_for. destruct (Z.eqb_spec (ev_kind ev) EVENT_KEY_DOWN) as [->|]; [done|]. done. Qed.
Lemma route_next ev c : action_for (co_bindings c) ev = Some (lit "next_window") -> route ev c = cycle_focus registry 1 c.
Proof. intros E. unfold _route_event. rewrite (action_key_down _ _ _ E). unfold bind, get. by rewrite E. Qed.

Lemma next_runs ev ws f g B k c : NoDup ws -> focused ws f g -> action_for B ev = Some (lit "next_window") -> looks ws f g c -> co_bindings c = B ->
  exists g', looks ws ((f + Z.of_nat k) mod len ws) g' (Nat.iter k (after (route ev)) c) /\ focused ws ((f + Z.of_nat k) mod len ws) g' /\
  co_bindings (Nat.iter k (after (route ev)) c) = B.
Proof.
  intros Hn Hf HB Hc Eb. induction k as [|k IH].
  - exists g. rewrite Z.add_0_r, Z.mod_small by apply Hf. done.
  - destruct IH as (g' & Hl & Hf' & HB'). cbn [Nat.iter nat_rect]. set (c1 := Nat.iter k (after (route ev)) c) in *.
    change (nat_rect _ c _ k) with c1. assert (HI : inert (fun c => co_bindings c = B)) by (by split).
    destruct (ok_with _ _ _ _ (cycle_looks 1 _ _ _ (proj1 Hf')) (tame_cycle 1 _ HI) c1 (conj Hl HB')) as (u & c2 & E2 & Hl2 & HB2).
    assert (after (route ev) c1 = c2) as -> by (unfold after; by rewrite route_next, E2 by by rewrite HB').
    exists (cycled ws ((f + Z.of_nat k) mod len ws) 1 g').
    replace ((f + Z.of_nat (S k)) mod len ws) with (((f + Z.of_nat k) mod len ws + 1) mod len ws).
    2:{ rewrite Zplus_mod_idemp_l. f_equal. lia. }
    split_and!; [done|by apply cycled_focused|done].
Qed.

(** Pressing the next-window shortcut moves the focus to every window in
    turn and round again: the stack stays as it is, after each press exactly
    one window is marked and has the focus, and each window is reached with
    fewer presses than there are windows. *)
Theorem next_window_visits_all ev c : NoDup (co_windows c) -> focus_ok c -> action_for (co_bindings c) ev = Some (lit "next_window") ->
  (forall k, let c' := Nat.iter k (after (route ev)) c in
     co_windows c' = co_windows c /\ focus_ok c' /\
     focused_window c' = co_windows c !! Z.to_nat ((co_focus c + Z.of_nat k) mod len (co_windows c))) /\
  (forall id, id ∈ co_windows c -> exists k, (k < length (co_windows c))%nat /\
     focused_window (Nat.iter k (after (route ev)) c) = Some id).
Proof.
  intros Hn Hf HB. assert (H1 : forall k, let c' := Nat.iter k (after (route ev)) c in
     co_windows c' = co_windows c /\ focus_ok c' /\
     focused_window c' = co_windows c !! Z.to_nat ((co_focus c + Z.of_nat k) mod len (co_windows c))).
  { intros k. destruct (next_runs ev _ _ _ _ k c Hn Hf HB (looks_self c) eq_refl) as (g' & Hl & Hf' & _). cbv zeta.
    split_and!; [apply (lk_windows _ _ _ _ Hl)|by eapply looks_focused|]. apply (looks_window _ _ _ _ Hl). destruct Hf as [Hf _].
    apply Z.mod_pos_bound. lia. }
  split; [exact H1|]. intros id Hid. destruct (index_of_spec _ _ Hid) as [Hi Ei]. set (ws := co_windows c) in *.
  exists (Z.to_nat ((index_of id ws - co_focus c) mod len ws)). destruct Hf as [Hf _]. fold ws in Hf.
  assert (Hm : 0 <= (index_of id ws - co_focus c) mod len ws < len ws) by (apply Z.mod_pos_bound; lia).
  split; [unfold len in *; lia|]. destruct (H1 (Z.to_nat ((index_of id ws - co_focus c) mod len ws))) as (_ & _ & ->).
  rewrite Z2Nat.id, Zplus_mod_idemp_r by lia. replace (co_focus c + (index_of id ws - co_focus c)) with (index_of id ws) by lia.
  rewrite Z.mod_small by lia. exact Ei.
Qed.
End focus.
