(* ===== verification/CompositorInput.v ===== *)
(** * Clicks, drags and what is seen

    A click goes to the window that is painted under the pointer, raises it
    and gives it the focus; a drag moves a window by exactly what the pointer
    moves.  At the end, the theorems on the compositor at a small desktop, and
    the histories in which it loses the focus, misnames a window or leaves a
    closed window on the screen. *)

From Stdlib Require Import ZArith Lia.
From stdpp Require Import base list numbers strings.
From S2P Require Import Prelude Bytes Pystr Dict Input Dock DockProps Menubar Compositor CompositorProps CompositorFocus.

Local Open Scope Z_scope.

Section input.
Context {F : Type}.
Implicit Types (c : Compositor F) (ws : list Z) (w : Window F) (g : Z -> shape).
Context (registry : list (str * AppInfo F (Menu (call F)))).
Context (on_event : Z -> Event -> Compositor F -> list (app_op F)) (menu_call : F -> Compositor F -> list (app_op F)).
Context (screen_event : Event -> Compositor F -> result (list (app_op F))) (fb : option (Z * Z)).
Abbreviation route := (_route_event registry on_event menu_call screen_event fb).

(** ** Giving the focus *)

Definition raised ws (f id : Z) : list Z := if decide (0 <= f < len ws /\ ws !! Z.to_nat f = Some id) then ws else remove_id id ws ++ [id].
Definition raised_focus ws (f id : Z) : Z := if decide (0 <= f < len ws /\ ws !! Z.to_nat f = Some id) then f else len ws - 1.
Definition raised_flags ws (f id : Z) g : Z -> shape :=
  if decide (0 <= f < len ws) then
    match ws !! Z.to_nat f with
    | Some o => if o =? id then g else set_flag id true (set_flag o false g)
    | None => set_flag id true g
    end
  else set_flag id true g.

Lemma raise_looks ws f g id : id ∈ ws ->
  ok (looks ws f g) (raise_window registry id) (looks (remove_id id ws ++ [id]) (len ws - 1) (set_flag id true g)).
Proof.
  intros Hin. unfold raise_window. eapply ok_bind; [apply (put_focus_ok _ (index_of id ws)); by intros c [-> _ _]|intros _].
  eapply ok_bind; [apply flag_ok|intros _]. eapply ok_bind; [apply calm_dirty|intros _]. eapply ok_bind; [apply calm_menus|intros _].
  eapply (ok_bind _ (looks (remove_id id ws ++ [id]) (index_of id ws) (set_flag id true g))); [|intros _].
  { apply ok_modify. intros c [E1 E2 E3]. split; cbn; [by rewrite E1|done|done]. }
  eapply ok_bind; [apply (put_focus_ok _ (len ws - 1))|intros _; apply calm_redraw].
  intros c [-> _ _]. rewrite len_app, remove_id_len by done. change (len [id]) with 1. lia.
Qed.
Lemma focus_looks ws f g id : id ∈ ws ->
  ok (looks ws f g) (_focus registry id) (looks (raised ws f id) (raised_focus ws f id) (raised_flags ws f id g)).
Proof.
  intros Hin. unfold _focus. apply ok_get. intros c Hc. rewrite (lk_windows _ _ _ _ Hc), (proj2 (has_id_spec _ _) Hin). cbn [negb].
  unfold focused_window. rewrite (lk_windows _ _ _ _ Hc), (lk_focus _ _ _ _ Hc). unfold raised, raised_focus, raised_flags.
  destruct ((0 <=? f) && (f <? len ws)) eqn:Ef.
  - apply andb_true_iff in Ef as [H1%Z.leb_le H2%Z.ltb_lt]. rewrite (decide_True (P := 0 <= f < len ws)) by lia.
    destruct (ws !! Z.to_nat f) as [o|] eqn:Eo.
    + destruct (Z.eqb_spec o id) as [->|Hne].
      * rewrite !decide_True by (split; [lia|done]). eapply ok_weaken; [apply ok_ret|by intros ? <-|done].
      * rewrite !decide_False by (intros [_ [= ->]]; done).
        eapply ok_bind; [eapply ok_weaken; [apply (flag_ok o false ws f g)|by intros ? <-|done]|intros _].
        eapply ok_bind; [apply calm_dirty|intros _]. by apply raise_looks.
    + rewrite !decide_False by (by intros [_ ?]). eapply ok_weaken; [by apply raise_looks|by intros ? <-|done].
  - rewrite !decide_False by lia. eapply ok_weaken; [by apply raise_looks|by intros ? <-|done].
Qed.
Lemma raised_elem ws f id j : NoDup ws -> id ∈ ws -> j ∈ raised ws f id <-> j ∈ ws.
Proof. intros Hn Hin. unfold raised. case_decide; [done|]. by apply remove_id_same. Qed.
Lemma raised_shape ws f id g j : sh_rect (raised_flags ws f id g j) = sh_rect (g j) /\ sh_chrome (raised_flags ws f id g j) = sh_chrome (g j).
Proof.
  unfold raised_flags, set_flag. repeat case_match; try done; cbn; repeat case_match; done.
Qed.
Lemma raised_window ws f id : id ∈ ws -> 0 <= raised_focus ws f id /\ raised ws f id !! Z.to_nat (raised_focus ws f id) = Some id.
Proof.
  intros Hin. unfold raised, raised_focus. case_decide as H; [destruct H as [H1 H2]; split; [lia|done]|].
  pose proof (remove_id_len _ _ Hin) as Hl. pose proof (len_nonneg (remove_id id ws)). split; [lia|].
  rewrite lookup_app_r; unfold len in *; [|lia]. by replace (Z.to_nat (Z.of_nat (length ws) - 1) - length (remove_id id ws))%nat with 0%nat by lia.
Qed.
(** The mark follows the focus. *)
Lemma raised_focused ws f id g : NoDup ws -> id ∈ ws -> focused ws f g ->
  focused (raised ws f id) (raised_focus ws f id) (raised_flags ws f id g).
Proof.
  intros Hn Hin [Hf Hg]. pose proof (raised_window ws f id Hin) as [H1 H2].
  split; [split; [done|]; apply lookup_lt_Some in H2; unfold len; lia|]. intros i j Hi.
  assert (Hj : j ∈ ws) by (apply (raised_elem ws f id j Hn Hin); by eapply list_elem_of_lookup_2).
  destruct (lookup_lt_is_Some_2 ws (Z.to_nat f)) as [o Eo]; [unfold len in *; lia|].
  unfold raised, raised_focus, raised_flags in *. rewrite (decide_True (P := 0 <= f < len ws)), Eo by lia.
  destruct (Z.eqb_spec o id) as [->|Hne].
  { rewrite decide_True in Hi by done. rewrite decide_True by done. by apply Hg. }
  rewrite decide_False in H1 by (intros [_ ?]; congruence). rewrite !decide_False in H2 by (intros [_ ?]; congruence).
  rewrite decide_False in Hi by (intros [_ ?]; congruence). rewrite decide_False by (intros [_ ?]; congruence).
  assert (N : NoDup (remove_id id ws ++ [id])).
  { apply list.NoDup_app. split_and!; [by apply remove_id_NoDup| |by apply NoDup_singleton].
    intros y Hy ->%list_elem_of_singleton. apply remove_id_spec in Hy as [_ ?]; done. }
  unfold set_flag. destruct (Z.eqb_spec j id) as [->|Hji]; cbn [sh_focused].
  - assert (i = Z.to_nat (len ws - 1)) as -> by (by eapply NoDup_lookup). symmetry. apply Z.eqb_eq. lia.
  - rewrite (proj2 (Z.eqb_neq (Z.of_nat i) _)).
    2:{ intros E. rewrite <- E, Nat2Z.id in H2. congruence. }
    destruct (Z.eqb_spec j o) as [->|Hjo]; cbn [sh_focused]; [done|].
    apply list_elem_of_lookup_1 in Hj as [k Ek]. rewrite (Hg _ _ Ek). apply Z.eqb_neq. intros E. rewrite <- E, Nat2Z.id in Eo. congruence.
Qed.

(** ** Pressing the left button *)

(** Nothing is open over the windows, and the event is about them. *)
Definition bare c : Prop := co_full c = false /\ pp_open (co_popup c) = false /\ is_open (co_bar c) = false.
Record plain_press (ev : Event) c : Prop := {
  pr_kind : ev_kind ev = MOUSE_DOWN /\ ev_code ev = 1;
  pr_ctrl : has (Z.lor (ev_mods ev) (co_mods c)) MOD_CTRL = false;
  pr_bare : bare c;
  pr_below : MENU_BAR_H <= ev_y ev;
  pr_dock : _dock_slot_at fb (ev_x ev) (ev_y ev) c = -1;
}.
Lemma put_bar_id c : put_bar (co_bar c) c = c.
Proof. by destruct c. Qed.
(** A pointer event reaches the menu bar's part of the routing. *)
Lemma route_pointer ev c : bare c -> 3 <= ev_kind ev <= 6 -> route ev c = route_menubar registry on_event menu_call fb ev c.
Proof.
  intros (Hf & Hp & _) Hk. unfold _route_event. unfold QUIT. destruct (Z.eqb_spec (ev_kind ev) 100); [lia|]. unfold bind at 1, get at 1.
  assert (action_for (co_bindings c) ev = None) as ->.
  { unfold action_for, EVENT_KEY_DOWN. destruct (Z.eqb_spec (ev_kind ev) 1); [lia|done]. }
  unfold route_rest, track_ctrl. destruct (Z.eqb_spec (ev_kind ev) 1); [lia|]. destruct (Z.eqb_spec (ev_kind ev) 2); [lia|].
  cbn [orb andb]. rewrite (bind_step (ret tt) _ c tt c eq_refl), (bind_step get _ c c c eq_refl), Hf. unfold route_popup.
  by rewrite (bind_step get _ c c c eq_refl), Hp.
Qed.
Lemma route_press ev c : plain_press ev c -> route ev c = left_down registry on_event fb ev c.
Proof.
  intros [[Hk Hc] Hm Hb Hy Hd]. rewrite route_pointer by (try done; rewrite Hk; done).
  destruct Hb as (_ & _ & Hb). unfold route_menubar. rewrite (bind_step get _ c c c eq_refl), Hk. cbn [Z.eqb MOUSE_DOWN MOUSE_MOVE Pos.eqb andb].
  unfold route_menubar_down. rewrite Hk, Hc, !Z.eqb_refl. cbn [andb]. rewrite (bind_step get _ c c c eq_refl).
  assert (on_mouse_down (ev_x ev) (ev_y ev) (co_bar c) = Ok (false, None, co_bar c)) as ->.
  { unfold on_mouse_down, hit_zone. rewrite Hb. destruct (Z.ltb_spec (ev_y ev) MENU_BAR_H); [lia|]. done. }
  unfold lift at 1. unfold bind at 1. unfold modify at 1. unfold bind at 1. rewrite put_bar_id. rewrite (bind_step (ret tt) _ c tt c eq_refl).
  unfold route_context. rewrite Hk, Z.eqb_refl, (bind_step get _ c c c eq_refl). unfold is_context_click. rewrite Hc, Hm.
  cbn [Z.eqb MOUSE_RIGHT MOUSE_LEFT Pos.eqb orb andb]. unfold route_windows. rewrite Hk, Hc, Z.eqb_refl. done.
Qed.

Lemma window_at_elem x y c id : _window_at x y c = Some id -> id ∈ co_windows c /\ covers x y (co_heap c id) = true.
Proof. intros H. apply find_some in H as [H1 H2]. split; [|done]. apply list_elem_of_In. by apply in_rev. Qed.

Lemma shape_fields w w' : sh_rect (shape_of w) = sh_rect (shape_of w') -> sh_chrome (shape_of w) = sh_chrome (shape_of w') ->
  cw_x w = cw_x w' /\ cw_y w = cw_y w' /\ cw_w w = cw_w w' /\ cw_h w = cw_h w' /\ cw_chrome w = cw_chrome w'.
Proof. intros [= -> -> -> ->] [= ->]. done. Qed.

(** C32: a left click on a window goes to the topmost window under the
    pointer, when no menu, pop-up or other screen is open, Control is not held,
    and the point is not in the menu bar, on a dock item or on the window's
    close box.  The window gets the focus; unless it had it already, it is
    raised above the others, which keep their order; no window moves.  On its
    title bar a drag of it starts and nobody sees the click, elsewhere its
    application, and no other, gets the click in its own coordinates. *)
Theorem press_goes_to_topmost ev c id : NoDup (co_windows c) -> plain_press ev c ->
  _window_at (ev_x ev) (ev_y ev) c = Some id -> _close_box_hit (co_heap c id) (ev_x ev) (ev_y ev) = false ->
  let w := co_heap c id in
  exists c1, co_windows c1 = raised (co_windows c) (co_focus c) id /\ focused_window c1 = Some id /\ (focus_ok c -> focus_ok c1) /\
  (forall j, sh_rect (shape_of (co_heap c1 j)) = sh_rect (shape_of (co_heap c j))) /\
  if cw_chrome w && (ev_y ev <? cw_y w + TITLE_BAR_H)
  then route ev c = (Ok tt, c1) /\ co_drag c1 = Some id /\ co_off_x c1 = ev_x ev - cw_x w /\ co_off_y c1 = ev_y ev - cw_y w /\ co_out c1 = co_out c
  else co_out c1 = co_out c ++ [(id, body_event w ev)] /\
       route ev c = for_each (on_event id (body_event w ev) c1) (run_op registry) c1.
Proof.
  intros Hn Hp Hw Hbox w. rewrite (route_press ev c Hp). unfold left_down. rewrite (bind_step get _ c c c eq_refl), (pr_dock _ _ Hp), Hw, Hbox.
  change (0 <=? -1) with false. cbv iota. destruct (window_at_elem _ _ _ _ Hw) as [Hin _].
  assert (HI : inert (fun c1 : Compositor F => co_out c1 = co_out c)) by (by split).
  destruct (ok_with _ _ _ _ (focus_looks _ _ _ id Hin) (tame_focus registry id _ HI) c (conj (looks_self c) eq_refl))
    as ([] & c0 & E0 & Hl & Ho).
  rewrite (bind_step (_focus registry id) _ c tt c0 E0). unfold win. rewrite (bind_step (gets _) _ c0 (co_heap c0 id) c0 eq_refl).
  pose proof (raised_window (co_windows c) (co_focus c) id Hin) as [R1 R2].
  assert (Hs : forall j, sh_rect (shape_of (co_heap c0 j)) = sh_rect (shape_of (co_heap c j)) /\ sh_chrome (shape_of (co_heap c0 j)) = sh_chrome (shape_of (co_heap c j))).
  { intros j. rewrite (lk_shape _ _ _ _ Hl). apply raised_shape. }
  destruct (shape_fields _ _ (proj1 (Hs id)) (proj2 (Hs id))) as (Ex & Ey & Ew & Eh & Ec). rewrite Ec, Ey, Ex. fold w.
  assert (Hfo : focus_ok c -> focus_ok c0). { intros H. eapply looks_focused; [exact Hl|]. by apply raised_focused. }
  destruct (cw_chrome w && (ev_y ev <? cw_y w + TITLE_BAR_H)) eqn:Eb.
  - eexists. split_and!; [..|reflexivity|reflexivity|reflexivity|reflexivity|exact Ho].
    + apply (lk_windows _ _ _ _ Hl).
    + rewrite <- R2. exact (looks_window _ _ _ _ Hl R1).
    + exact Hfo.
    + intros j. apply Hs.
  - unfold deliver, win. rewrite (bind_step (gets _) _ c0 (co_heap c0 id) c0 eq_refl).
    assert (body_event (co_heap c0 id) ev = body_event w ev) as ->.
    { unfold body_event. fold w in Ex, Ey, Ec. by rewrite Ex, Ey, Ec. }
    exists (put_out (co_out c0 ++ [(id, body_event w ev)]) c0). split_and!.
    + apply (lk_windows _ _ _ _ Hl).
    + rewrite <- R2. exact (looks_window _ _ _ _ Hl R1).
    + exact Hfo.
    + intros j. apply Hs.
    + cbn. by rewrite Ho.
    + reflexivity.
Qed.

(** ** Dragging *)

Definition set_pos (id x y : Z) g : Z -> shape :=
  fun j => if j =? id then let '(_, _, w, h) := sh_rect (g j) in mkShape (x, y, w, h) (sh_chrome (g j)) (sh_focused (g j)) (sh_app (g j)) else g j.
Lemma pos_ok id x y ws f g : ok (looks ws f g) (upd_win (F := F) id (win_at x y)) (looks ws f (set_pos id x y g)).
Proof. apply ok_modify. intros c [E1 E2 E3]. split; [done..|]. intros j. cbn. unfold set_pos. rewrite <- E3. by destruct (j =? id). Qed.

(** While a window is dragged and nothing is open. *)
Definition dragging (id ox oy : Z) (out : list (Z * Event)) c : Prop :=
  bare c /\ co_drag c = Some id /\ co_off_x c = ox /\ co_off_y c = oy /\ co_out c = out.
Lemma drag_keeps_heap id ox oy out j h : keeps (dragging id ox oy out) (upd_win (F := F) j h).
Proof. apply keeps_modify. intros c H. exact H. Qed.
Lemma drag_move ev id ox oy out ws f g : ev_kind ev = MOUSE_MOVE ->
  ok (fun c => looks ws f g c /\ dragging id ox oy out c) (route ev)
     (fun c => looks ws f (set_pos id (ev_x ev - ox) (ev_y ev - oy) g) c /\ dragging id ox oy out c).
Proof.
  intros Hk c [Hl Hd]. pose proof Hd as (Hb & Hdr & Hox & Hoy & _). rewrite route_pointer by (try done; rewrite Hk; done).
  unfold route_menubar. rewrite (bind_step get _ c c c eq_refl). destruct Hb as (_ & _ & Hb). rewrite Hb, andb_false_r.
  unfold route_menubar_down, route_context, route_windows. rewrite Hk. cbn [Z.eqb MOUSE_DOWN MOUSE_MOVE HOST_FILE_DROP Pos.eqb andb].
  unfold pointer_move. rewrite (bind_step get _ c c c eq_refl), Hdr, Hox, Hoy.
  apply (ok_with (looks ws f g) (looks ws f (set_pos id (ev_x ev - ox) (ev_y ev - oy) g)) (dragging id ox oy out)); [| |done].
  - eapply ok_bind; [apply pos_ok|intros _; apply calm_all_dirty].
  - apply keeps_bind; [apply drag_keeps_heap|intros _]. unfold all_dirty. apply keeps_bind; [apply keeps_gets|intros l].
    apply keeps_for_each. intros j. apply drag_keeps_heap.
Qed.

Fixpoint route_all (evs : list Event) : M (Compositor F) unit :=
  match evs with [] => ret tt | ev :: evs => route ev ;;; route_all evs end.
Definition drop_pos (id ox oy : Z) (evs : list Event) g : Z -> shape :=
  fold_left (fun g ev => set_pos id (ev_x ev - ox) (ev_y ev - oy) g) evs g.
Lemma drag_moves evs id ox oy out ws f g : Forall (fun ev => ev_kind ev = MOUSE_MOVE) evs ->
  ok (fun c => looks ws f g c /\ dragging id ox oy out c) (route_all evs) (fun c => looks ws f (drop_pos id ox oy evs g) c /\ dragging id ox oy out c).
Proof.
  intros HF. revert g. induction HF as [|ev evs Hk HF IH]; intros g; [apply ok_ret|]. cbn [route_all drop_pos fold_left].
  eapply ok_bind; [by apply drag_move|intros _]. apply IH.
Qed.
Lemma drop_pos_other id ox oy evs g j : j <> id -> drop_pos id ox oy evs g j = g j.
Proof.
  intros Hne. revert g. induction evs as [|ev evs IH]; intros g; [done|]. cbn [drop_pos fold_left]. unfold drop_pos in IH. rewrite IH.
  unfold set_pos. by rewrite (proj2 (Z.eqb_neq _ _) Hne).
Qed.
Lemma drop_pos_last id ox oy evs ev g : let '(_, _, w, h) := sh_rect (g id) in
  sh_rect (drop_pos id ox oy (evs ++ [ev]) g id) = (ev_x ev - ox, ev_y ev - oy, w, h).
Proof.
  revert g. induction evs as [|e evs IH]; intros g.
  - cbn. unfold set_pos. rewrite Z.eqb_refl. by destruct (sh_rect (g id)) as [[[? ?] ?] ?].
  - specialize (IH (set_pos id (ev_x e - ox) (ev_y e - oy) g)). unfold set_pos in IH at 1. rewrite Z.eqb_refl in IH.
    destruct (sh_rect (g id)) as [[[? ?] ?] ?]. exact IH.
Qed.

(** Once a drag has begun, the window follows the pointer: after any
    moves it is where it was relative to the pointer when the button went
    down, its size and every other window are unchanged, no application sees
    the moves, and releasing the button ends the drag. *)
Theorem drag_follows_pointer evs ev up c id : bare c -> co_drag c = Some id ->
  Forall (fun ev => ev_kind ev = MOUSE_MOVE) (evs ++ [ev]) -> ev_kind up = MOUSE_UP -> ev_code up = 1 ->
  exists c' c'', route_all (evs ++ [ev]) c = (Ok tt, c') /\ route up c' = (Ok tt, c'') /\
  co_drag c'' = None /\ co_out c'' = co_out c /\ co_windows c'' = co_windows c /\ focused_window c'' = focused_window c /\
  sh_rect (shape_of (co_heap c'' id)) =
    (ev_x ev - co_off_x c, ev_y ev - co_off_y c, cw_w (co_heap c id), cw_h (co_heap c id)) /\
  (forall j, j <> id -> shape_of (co_heap c'' j) = shape_of (co_heap c j)).
Proof.
  intros Hb Hd HF Hk Hc.
  destruct (drag_moves (evs ++ [ev]) id (co_off_x c) (co_off_y c) (co_out c) _ _ _ HF c (conj (looks_self c) (conj Hb (conj Hd (conj eq_refl (conj eq_refl eq_refl))))))
    as ([] & c' & E & Hl & (Hb' & Hd' & _ & _ & Ho)).
  exists c', (put_drag None c'). split; [done|]. split.
  { rewrite route_pointer by (try done; rewrite Hk; done). unfold route_menubar. rewrite (bind_step get _ c' c' c' eq_refl), Hk.
    cbn [Z.eqb MOUSE_UP MOUSE_MOVE Pos.eqb andb]. unfold route_menubar_down, route_context, route_windows. rewrite Hk, Hc.
    cbn [Z.eqb MOUSE_UP MOUSE_DOWN MOUSE_MOVE HOST_FILE_DROP Pos.eqb andb]. unfold left_up. by rewrite (bind_step get _ c' c' c' eq_refl), Hd'. }
  split_and!; [done|done|apply (lk_windows _ _ _ _ Hl)| | |].
  - unfold focused_window. cbn [co_focus co_windows put_drag]. by rewrite (lk_windows _ _ _ _ Hl), (lk_focus _ _ _ _ Hl).
  - cbn [co_heap put_drag]. rewrite (lk_shape _ _ _ _ Hl). exact (drop_pos_last id (co_off_x c) (co_off_y c) evs ev (fun j => shape_of (co_heap c j))).
  - intros j Hj. cbn [co_heap put_drag]. rewrite (lk_shape _ _ _ _ Hl). by apply drop_pos_other.
Qed.

(** ** What is seen under the pointer *)

Definition paint_covers (x y : Z) (p : paint) : bool :=
  match p with
  | PDesktop => true
  | PChrome _ r | PClose _ r | PBody _ r | PDock r | PLabel r | PMenuBar r | PPanel r => inside x y r
  end.
Definition painter (p : paint) : option Z := match p with PChrome id _ | PClose id _ | PBody id _ => Some id | _ => None end.
(** What was painted last at a point. *)
Definition seen (x y : Z) (ps : list paint) : option paint := List.find (paint_covers x y) (rev ps).
Lemma seen_app x y l l' : seen x y (l ++ l') = match seen x y l' with Some p => Some p | None => seen x y l end.
Proof.
  unfold seen. rewrite rev_app_distr. induction (rev l') as [|p ps IH]; [done|]. cbn [app List.find]. by destruct (paint_covers x y p).
Qed.

(** A window whose surface has its size and is there for the presenter. *)
Definition win_ok (host : bool) w (sf : Surface) : Prop :=
  0 <= cw_h w /\ (cw_chrome w = true -> 18 <= cw_w w) /\ sf_w sf = cw_w w /\ sf_h sf = cw_h w /\
  (if host then sf_handle sf <> 0 else sf_pixels sf = true).
Lemma paint_body_ok host id w sf : win_ok host w sf -> paint_body host id w sf = [PBody id (cw_x w, body_y w, cw_w w, cw_h w)].
Proof.
  intros (_ & _ & Ew & Eh & Hs). unfold paint_body. rewrite Ew, Eh. destruct host; [by destruct (Z.eqb_spec (sf_handle sf) 0)|by rewrite Hs].
Qed.
Lemma close_box_inside x y w : 18 <= cw_w w -> inside x y (cw_x w, cw_y w, cw_w w, TITLE_BAR_H) = false ->
  inside x y (cw_x w + cw_w w - CLOSE_BOX_W - CLOSE_BOX_PAD, cw_y w + (TITLE_BAR_H - CLOSE_BOX_W) / 2, CLOSE_BOX_W, CLOSE_BOX_W) = false.
Proof.
  intros Hw Hn. apply not_true_iff_false in Hn. apply not_true_iff_false. rewrite !inside_spec in *.
  change ((TITLE_BAR_H - CLOSE_BOX_W) / 2) with 4. unfold TITLE_BAR_H, CLOSE_BOX_W, CLOSE_BOX_PAD in *. lia.
Qed.
Lemma seen_window x y close id w sf : win_ok close w sf ->
  if covers x y w then exists p, seen x y (paint_window close id w sf) = Some p /\ painter p = Some id
  else seen x y (paint_window close id w sf) = None.
Proof.
  intros Hok. unfold paint_window, covers, win_h. rewrite (paint_body_ok close id w sf Hok). unfold body_y, _close_box_rect. rewrite seen_app. destruct Hok as (Hh & Hw & _).
  set (o := if cw_chrome w then TITLE_BAR_H else 0). set (top := if cw_chrome w then _ else []).
  assert (Sb : seen x y [PBody id (cw_x w, cw_y w + o, cw_w w, cw_h w)] =
    if inside x y (cw_x w, cw_y w + o, cw_w w, cw_h w) then Some (PBody id (cw_x w, cw_y w + o, cw_w w, cw_h w)) else None) by done.
  rewrite Sb. clear Sb.
  assert (St : if cw_chrome w && inside x y (cw_x w, cw_y w, cw_w w, TITLE_BAR_H)
               then exists p, seen x y top = Some p /\ painter p = Some id else seen x y top = None).
  { subst top. destruct (cw_chrome w) eqn:Ech; [|done]. specialize (Hw eq_refl). cbn [andb]. unfold seen.
    destruct (inside x y (cw_x w, cw_y w, cw_w w, TITLE_BAR_H)) eqn:Et; destruct close; cbn [rev app List.find paint_covers]; rewrite ?Et; try done; try by eexists.
    - match goal with |- context [if ?b then Some (PClose _ _) else _] => destruct b end; by eexists.
    - rewrite close_box_inside; done. }
  destruct (inside x y (cw_x w, cw_y w + o, cw_w w, cw_h w)) eqn:Eb.
  - rewrite inside_spec in Eb. assert (inside x y (cw_x w, cw_y w, cw_w w, cw_h w + o) = true) as ->; [|by eexists].
    apply inside_spec. unfold o, TITLE_BAR_H in *. destruct (cw_chrome w); lia.
  - apply not_true_iff_false in Eb. rewrite inside_spec in Eb.
    assert (inside x y (cw_x w, cw_y w, cw_w w, cw_h w + o) = cw_chrome w && inside x y (cw_x w, cw_y w, cw_w w, TITLE_BAR_H)) as ->; [|done].
    apply eq_true_iff_eq. rewrite andb_true_iff, !inside_spec. unfold o, TITLE_BAR_H in *. destruct (cw_chrome w); lia.
Qed.
Lemma seen_windows x y close (heap : Z -> Window F) (surface : Z -> Surface) ws : (forall id, id ∈ ws -> win_ok close (heap id) (surface id)) ->
  match List.find (fun id => covers x y (heap id)) (rev ws) with
  | Some id => exists p, seen x y (concat (map (fun id => paint_window close id (heap id) (surface id)) ws)) = Some p /\ painter p = Some id
  | None => seen x y (concat (map (fun id => paint_window close id (heap id) (surface id)) ws)) = None
  end.
Proof.
  induction ws as [|id ws IH] using rev_ind; intros Hw; [done|]. rewrite rev_app_distr, map_app, concat_app. cbn [rev app List.find map concat].
  rewrite app_nil_r, seen_app. pose proof (seen_window x y close id (heap id) (surface id)) as Hs.
  destruct (covers x y (heap id)) eqn:E.
  - destruct Hs as (p & -> & Hp); [apply Hw, elem_of_app; right; by left|]. by exists p.
  - rewrite Hs by (apply Hw, elem_of_app; right; by left). apply IH. intros j Hj. apply Hw, elem_of_app. by left.
Qed.

(** The dock paints its band and the name of the item under the pointer. *)
Lemma paint_dock_ok host measure sw sh c : co_hot c < len (visible (co_dock c)) -> exists dock, paint_dock fb host measure sw sh c = Ok dock.
Proof.
  intros Hh. unfold paint_dock. destruct (visible (co_dock c)) as [|it items]; [by eexists|].
  destruct (Z.leb_spec 0 (co_hot c)); [|by eexists]. destruct (index_total (it :: items) (co_hot c)) as [x Hx]; [lia|].
  rewrite Hx. by eexists.
Qed.
Lemma paint_dock_seen host measure sw sh c dock x y : paint_dock fb host measure sw sh c = Ok dock -> y < sh - DOCK_H ->
  (forall r, PLabel r ∈ dock -> inside x y r = false) -> seen x y dock = None.
Proof.
  intros E Hy Hl. unfold paint_dock in E. assert (Hd : inside x y (0, sh - DOCK_H, sw, DOCK_H) = false).
  { unfold inside. destruct (Z.leb_spec (sh - DOCK_H) y); [lia|]. by rewrite !andb_false_r. }
  destruct (visible (co_dock c)) as [|it items]; [by injection E as <-|]. destruct (0 <=? co_hot c).
  - destruct (index (it :: items) (co_hot c)) as [i|]; [|done]. injection E as <-. unfold seen. cbn [rev app List.find paint_covers].
    rewrite Hd, Hl; [done|]. right. by left.
  - injection E as <-. unfold seen. cbn [rev app List.find paint_covers]. by rewrite Hd.
Qed.

End input.

Definition demo_apps : list (str * AppInfo Z (Menu (call Z))) :=
  [(lit "paint", mkApp (lit "paint") (lit "Paint") 1 None (lit "app") []); (lit "life", mkApp (lit "life") (lit "Life") 2 None (lit "demo") [])].
Definition no_event (id : Z) (ev : Event) (c : Compositor Z) : list (app_op Z) := [].
Definition no_call (f : Z) (c : Compositor Z) : list (app_op Z) := [].
Definition no_screen (ev : Event) (c : Compositor Z) : result (list (app_op Z)) := Ok [].
Abbreviation demo_do := (comp_do demo_apps no_event no_call no_screen None).
Abbreviation demo_route := (_route_event demo_apps no_event no_call no_screen None).

Definition demo_history : list (comp_step (F := Z)) :=
  [SSeed; SBegin (lit "paint"); SApp (OAdd (CompositorWindow (lit "Paint") 100 100 200 150 true)); SEnd 0;
   SBegin (lit "life"); SApp (OAdd (CompositorWindow (lit "Life") 150 180 200 150 true)); SEnd 0].
Definition demo_desk : Compositor Z := fold_left demo_do demo_history Compositor_init.

Lemma demo_stack : co_windows demo_desk = [0; 1] /\ co_focus demo_desk = 1.
Proof. by vm_compute. Qed.
Lemma demo_nodup : NoDup (co_windows demo_desk).
Proof. apply (bool_decide_unpack _). by vm_compute. Qed.
Lemma demo_focus : focus_ok demo_desk.
Proof.
  split; [by vm_compute|]. intros [|[|i]] id H; vm_compute in H; [injection H as <-; by vm_compute..|done].
Qed.

Lemma dock_follows_windows_witness :
  NoDup (visible_names (co_dock demo_desk)) /\
  (lit "life" ∈ visible_names (co_dock demo_desk) <->
   is_pinned (lit "life") (co_dock demo_desk) = true \/ lit "life" ∈ co_active demo_desk \/
   exists id, id ∈ co_windows demo_desk /\ cw_app (co_heap demo_desk id) = lit "life").
Proof. exact (dock_follows_windows demo_apps no_event no_call no_screen None demo_history (lit "life") ltac:(discriminate)). Defined.

Lemma remove_window_focus_witness :
  exists c', remove_window demo_apps 1 demo_desk = (Ok tt, c') /\ co_windows c' = [0] /\ focused_window c' = Some 0.
Proof.
  destruct demo_stack as [Es Ef].
  destruct (remove_window_focus demo_apps demo_desk 1 1 demo_nodup demo_focus) as (c' & E & Ew & H & _); [by rewrite Es|].
  rewrite Es in Ew. exists c'. split; [exact E|]. split; [exact Ew|]. rewrite Ef, Ew in H.
  destruct (H eq_refl) as [[E0 _]|[_ Hf]]; [discriminate E0|exact Hf].
Defined.

Lemma next_window_visits_all_witness :
  let tab := plain_event EVENT_KEY_DOWN KEY_TAB [] 0 0 0 0 0 in
  exists k, (k < 2)%nat /\ focused_window (Nat.iter k (after (demo_route tab)) demo_desk) = Some 0.
Proof.
  destruct (next_window_visits_all demo_apps no_event no_call no_screen None (plain_event EVENT_KEY_DOWN KEY_TAB [] 0 0 0 0 0)
    demo_desk demo_nodup demo_focus) as [_ H]; [by vm_compute|].
  destruct (H 0) as (k & Hk & E); rewrite (proj1 demo_stack) in *; [by left|]. exists k. split; [exact Hk|exact E].
Defined.

(** A click on the rear window's title bar, and a drag of it. *)
Definition title_press : Event := plain_event MOUSE_DOWN 1 [] 0 120 110 0 0.
Lemma press_goes_to_topmost_witness : exists c1, demo_route title_press demo_desk = (Ok tt, c1) /\ co_windows c1 = [1; 0] /\ co_drag c1 = Some 0.
Proof.
  destruct (press_goes_to_topmost demo_apps no_event no_call no_screen None title_press demo_desk 0 demo_nodup) as (c1 & Ew & _ & _ & _ & H).
  - by split; vm_compute.
  - by vm_compute.
  - by vm_compute.
  - exists c1. assert (Eb : cw_chrome (co_heap demo_desk 0) && (ev_y title_press <? cw_y (co_heap demo_desk 0) + TITLE_BAR_H) = true) by (by vm_compute).
    rewrite Eb in H. destruct H as (E & Hd & _). split; [exact E|]. split; [|exact Hd].
    rewrite Ew, (proj1 demo_stack), (proj2 demo_stack). by vm_compute.
Defined.

Definition dragged : Compositor Z := after (demo_route title_press) demo_desk.
Lemma drag_follows_pointer_witness :
  exists c' c'', route_all demo_apps no_event no_call no_screen None [plain_event MOUSE_MOVE 0 [] 0 300 210 0 0] dragged = (Ok tt, c') /\
  demo_route (plain_event MOUSE_UP 1 [] 0 300 210 0 0) c' = (Ok tt, c'') /\ sh_rect (shape_of (co_heap c'' 0)) = (280, 200, 200, 150).
Proof.
  destruct (drag_follows_pointer demo_apps no_event no_call no_screen None [] (plain_event MOUSE_MOVE 0 [] 0 300 210 0 0)
    (plain_event MOUSE_UP 1 [] 0 300 210 0 0) dragged 0) as (c' & c'' & E & E' & _ & _ & _ & _ & Hr & _).
  - by vm_compute.
  - by vm_compute.
  - by repeat constructor.
  - done.
  - done.
  - exists c', c''. split; [exact E|]. split; [exact E'|]. rewrite Hr. by vm_compute.
Defined.

(** The host has a surface of 200 by 150 for each window; the pointer was over
    the second item of the dock, whose name is shown. *)
Definition demo_surface (id : Z) : Surface := mkSurf 200 150 false (7 + id).
Definition hovered : Compositor Z := put_hot 1 demo_desk.
Lemma hovered_stack : co_windows hovered = [0; 1].
Proof. by vm_compute. Qed.
Lemma hovered_dock : paint_dock None true bitmap_measure 1024 768 hovered = Ok [PDock (0, 696, 1024, 72); PLabel (520, 678, 44, 14)].
Proof. by vm_compute. Qed.
(** The label is over the windows: the name of the dock's item is seen where a
    click goes to a window. *)
Example label_hides_window :
  let c := after (upd_win 1 (win_at 500 600)) hovered in
  exists dock, paint_dock None true bitmap_measure 1024 768 c = Ok dock /\
  option_map painter (seen 540 685 (frame true demo_surface 1024 768 dock c)) = Some None /\ _window_at 540 685 c = Some 1.
Proof. eexists. by vm_compute. Qed.

(** ** Where the desktop goes wrong *)

(** Closing a window behind the focused one with its close box: the focused
    window is still marked as such, and the keyboard goes nowhere. *)
Example close_behind_loses_focus :
  let c := after (demo_route (plain_event MOUSE_DOWN 1 [] 0 290 110 0 0)) demo_desk in
  let key := plain_event EVENT_KEY_DOWN 97 [97] 0 0 0 0 0 in
  co_windows c = [1] /\ cw_focused (co_heap c 1) = true /\ focused_window c = None /\ co_out (after (demo_route key) c) = co_out c.
Proof. by vm_compute. Qed.

(** A window that got the focus by the keyboard is not raised, and a click on
    it does not raise it either. *)
Example focused_window_stays_behind :
  let c := after (cycle_focus demo_apps 1) demo_desk in
  let c' := after (demo_route (plain_event MOUSE_DOWN 1 [] 0 120 110 0 0)) c in
  focused_window c = Some 0 /\ co_windows c' = [0; 1] /\ _window_at 160 190 c' = Some 1.
Proof. by vm_compute. Qed.

(** Two launches that overlap: the window of the one that is still running
    belongs to no application, and once it ends windows opened by anyone are
    put down to the one that ended first. *)
Example overlapping_launches :
  let w := CompositorWindow (lit "w") 0 0 100 100 true in
  let c := fold_left demo_do [SBegin (lit "paint"); SBegin (lit "life"); SEnd 0; SApp (OAdd w); SEnd 0; SApp (OAdd w)] Compositor_init in
  cw_app (co_heap c 0) = [] /\ cw_app (co_heap c 1) = lit "paint" /\ co_live c = [].
Proof. by vm_compute. Qed.
(** Two launches of one application: when the first ends the dock takes it for
    not running. *)
Example launched_twice :
  let c := fold_left demo_do [SBegin (lit "life"); SBegin (lit "life"); SEnd 0] Compositor_init in
  visible_names (co_dock c) = [] /\ map fst (co_live c) = [lit "life"].
Proof. by vm_compute. Qed.

(** On the local framebuffer a frame is only drawn for a dirty window: after
    the last frame, closing a window draws none, and the window stays on the
    screen; the host's presenter draws one. *)
Example closed_window_stays_on_screen :
  let c := after (_redraw (F := Z) (Some (1024, 768)) bitmap_measure bitmap_measure demo_surface Local []) demo_desk in
  let c' := after (remove_window demo_apps 1) c in
  co_windows c' = [0] /\ draws Local [] c' = false /\ draws ByBridge [] c' = true.
Proof. by vm_compute. Qed.
