(* ===== verification/Display.v ===== *)
(** * Pixels and the text console (kernel/display/framebuffer.py, font.py,
    console.py)

    Surfaces are byte arrays, the framebuffer is memory.  Both are written
    through the primitives of the C extension, which are defined here as
    [hal.c] has them. *)

From Stdlib Require Import ZArith Lia.
From stdpp Require Import base list numbers strings.
From S2P Require Import Prelude Bytes Pystr Dict Log.

Local Open Scope Z_scope.

(** ** Memory and the primitives *)

(** The [k]-th byte of a 32-bit word. *)
Definition byte_of (v k : Z) : Z := Z.shiftr v (8 * k) mod 256.
Definition word_bytes (v : Z) : bytes := [byte_of v 0; byte_of v 1; byte_of v 2; byte_of v 3].
Definition words (n : nat) (v : Z) : bytes := concat (repeat (word_bytes v) n).
(** A byte of an array, and 0 outside it. *)
Definition bget (buf : bytes) (o : Z) : Z := if o <? 0 then 0 else nth (Z.to_nat o) buf 0.

(** [buf_fill32], [buf_fill32_at] *)
Definition buf_fill32 (buf : bytes) (v : Z) : result bytes :=
  if negb (len buf mod 4 =? 0) then Err ValueError else Ok (words (Z.to_nat (len buf / 4)) v).
Definition buf_fill32_at (buf : bytes) (off count v : Z) : result bytes :=
  if (off <? 0) || (count <? 0) || (len buf <? off + count * 4) then Err ValueError
  else Ok (slice_assign buf off (off + count * 4) (words (Z.to_nat count) v)).

(** Physical memory, a byte per address. *)
Definition mem : Type := Z -> Z.
Definition mmio_fill32 (a n v : Z) (m : mem) : mem := fun o => if (a <=? o) && (o <? a + 4 * n) then byte_of v ((o - a) mod 4) else m o.
Definition mmio_write32 (a v : Z) (m : mem) : mem := mmio_fill32 a 1 v m.
Definition mmio_write_buf32 (a : Z) (buf : bytes) (m : mem) : result mem :=
  if negb (len buf mod 4 =? 0) then Err ValueError
  else Ok (fun o => if (a <=? o) && (o <? a + len buf) then bget buf (o - a) else m o).

(** ** Colours *)

Definition rgb (r g b : Z) : Z := Z.lor (Z.lor (Z.shiftl r 16) (Z.shiftl g 8)) b.
Definition BLACK : Z := rgb 0 0 0.
Definition WHITE : Z := rgb 255 255 255.
Definition GREEN : Z := rgb 0 255 0.
Definition DARK : Z := rgb 20 20 20.
(** The word of a pixel of a surface. *)
Definition pixel_word (colour : Z) : Z := Z.lor (Z.land colour 0xFFFFFF) 0xFF000000.

(** ** The font *)

(** [_GLYPHS], as the source has it. *)
Definition _GLYPHS : list (Z * bytes) :=
  [(0x20, [0x0; 0x0; 0x0; 0x0; 0x0; 0x0; 0x0; 0x0]); (0x21, [0x18; 0x18; 0x18; 0x18; 0x0; 0x0; 0x18; 0x0]);
   (0x22, [0x66; 0x66; 0x24; 0x0; 0x0; 0x0; 0x0; 0x0]); (0x23, [0x6c; 0x6c; 0xfe; 0x6c; 0xfe; 0x6c; 0x6c; 0x0]);
   (0x24, [0x18; 0x3e; 0x60; 0x3c; 0x6; 0x7c; 0x18; 0x0]); (0x25, [0x0; 0x63; 0x66; 0xc; 0x18; 0x33; 0x63; 0x0]);
   (0x26, [0x1c; 0x36; 0x1c; 0x3b; 0x6e; 0x66; 0x3b; 0x0]); (0x27, [0x18; 0x18; 0x18; 0x0; 0x0; 0x0; 0x0; 0x0]);
   (0x28, [0xc; 0x18; 0x30; 0x30; 0x30; 0x18; 0xc; 0x0]); (0x29, [0x30; 0x18; 0xc; 0xc; 0xc; 0x18; 0x30; 0x0]);
   (0x2a, [0x0; 0x66; 0x3c; 0xff; 0x3c; 0x66; 0x0; 0x0]); (0x2b, [0x0; 0x18; 0x18; 0x7e; 0x18; 0x18; 0x0; 0x0]);
   (0x2c, [0x0; 0x0; 0x0; 0x0; 0x0; 0x18; 0x18; 0x30]); (0x2d, [0x0; 0x0; 0x0; 0x7e; 0x0; 0x0; 0x0; 0x0]);
   (0x2e, [0x0; 0x0; 0x0; 0x0; 0x0; 0x18; 0x18; 0x0]); (0x2f, [0x3; 0x6; 0xc; 0x18; 0x30; 0x60; 0x40; 0x0]);
   (0x30, [0x3e; 0x63; 0x67; 0x6f; 0x7b; 0x73; 0x3e; 0x0]); (0x31, [0x18; 0x38; 0x18; 0x18; 0x18; 0x18; 0x7e; 0x0]);
   (0x32, [0x3c; 0x66; 0x6; 0x1c; 0x30; 0x66; 0x7e; 0x0]); (0x33, [0x3c; 0x66; 0x6; 0x1c; 0x6; 0x66; 0x3c; 0x0]);
   (0x34, [0xe; 0x1e; 0x36; 0x66; 0x7f; 0x6; 0xf; 0x0]); (0x35, [0x7e; 0x60; 0x7c; 0x6; 0x6; 0x66; 0x3c; 0x0]);
   (0x36, [0x1c; 0x30; 0x60; 0x7c; 0x66; 0x66; 0x3c; 0x0]); (0x37, [0x7e; 0x66; 0x6; 0xc; 0x18; 0x18; 0x18; 0x0]);
   (0x38, [0x3c; 0x66; 0x66; 0x3c; 0x66; 0x66; 0x3c; 0x0]); (0x39, [0x3c; 0x66; 0x66; 0x3e; 0x6; 0xc; 0x38; 0x0]);
   (0x3a, [0x0; 0x18; 0x18; 0x0; 0x0; 0x18; 0x18; 0x0]); (0x3b, [0x0; 0x18; 0x18; 0x0; 0x0; 0x18; 0x18; 0x30]);
   (0x3c, [0x6; 0xc; 0x18; 0x30; 0x18; 0xc; 0x6; 0x0]); (0x3d, [0x0; 0x0; 0x7e; 0x0; 0x7e; 0x0; 0x0; 0x0]);
   (0x3e, [0x60; 0x30; 0x18; 0xc; 0x18; 0x30; 0x60; 0x0]); (0x3f, [0x3c; 0x66; 0x6; 0xc; 0x18; 0x0; 0x18; 0x0]);
   (0x40, [0x3e; 0x63; 0x6f; 0x69; 0x6f; 0x60; 0x3e; 0x0]); (0x41, [0x18; 0x3c; 0x66; 0x66; 0x7e; 0x66; 0x66; 0x0]);
   (0x42, [0x7c; 0x66; 0x66; 0x7c; 0x66; 0x66; 0x7c; 0x0]); (0x43, [0x3c; 0x66; 0x60; 0x60; 0x60; 0x66; 0x3c; 0x0]);
   (0x44, [0x78; 0x6c; 0x66; 0x66; 0x66; 0x6c; 0x78; 0x0]); (0x45, [0x7e; 0x60; 0x60; 0x78; 0x60; 0x60; 0x7e; 0x0]);
   (0x46, [0x7e; 0x60; 0x60; 0x78; 0x60; 0x60; 0x60; 0x0]); (0x47, [0x3c; 0x66; 0x60; 0x6e; 0x66; 0x66; 0x3c; 0x0]);
   (0x48, [0x66; 0x66; 0x66; 0x7e; 0x66; 0x66; 0x66; 0x0]); (0x49, [0x7e; 0x18; 0x18; 0x18; 0x18; 0x18; 0x7e; 0x0]);
   (0x4a, [0x1e; 0xc; 0xc; 0xc; 0xc; 0x6c; 0x38; 0x0]); (0x4b, [0x66; 0x6c; 0x78; 0x70; 0x78; 0x6c; 0x66; 0x0]);
   (0x4c, [0x60; 0x60; 0x60; 0x60; 0x60; 0x60; 0x7e; 0x0]); (0x4d, [0x63; 0x77; 0x7f; 0x6b; 0x63; 0x63; 0x63; 0x0]);
   (0x4e, [0x63; 0x73; 0x7b; 0x6f; 0x67; 0x63; 0x63; 0x0]); (0x4f, [0x3c; 0x66; 0x66; 0x66; 0x66; 0x66; 0x3c; 0x0]);
   (0x50, [0x7c; 0x66; 0x66; 0x7c; 0x60; 0x60; 0x60; 0x0]); (0x51, [0x3c; 0x66; 0x66; 0x66; 0x66; 0x3c; 0xe; 0x0]);
   (0x52, [0x7c; 0x66; 0x66; 0x7c; 0x78; 0x6c; 0x66; 0x0]); (0x53, [0x3c; 0x66; 0x60; 0x3c; 0x6; 0x66; 0x3c; 0x0]);
   (0x54, [0x7e; 0x18; 0x18; 0x18; 0x18; 0x18; 0x18; 0x0]); (0x55, [0x66; 0x66; 0x66; 0x66; 0x66; 0x66; 0x3c; 0x0]);
   (0x56, [0x66; 0x66; 0x66; 0x66; 0x66; 0x3c; 0x18; 0x0]); (0x57, [0x63; 0x63; 0x63; 0x6b; 0x7f; 0x77; 0x63; 0x0]);
   (0x58, [0x66; 0x66; 0x3c; 0x18; 0x3c; 0x66; 0x66; 0x0]); (0x59, [0x66; 0x66; 0x66; 0x3c; 0x18; 0x18; 0x18; 0x0]);
   (0x5a, [0x7e; 0x6; 0xc; 0x18; 0x30; 0x60; 0x7e; 0x0]); (0x5b, [0x3c; 0x30; 0x30; 0x30; 0x30; 0x30; 0x3c; 0x0]);
   (0x5c, [0x60; 0x30; 0x18; 0xc; 0x6; 0x3; 0x1; 0x0]); (0x5d, [0x3c; 0xc; 0xc; 0xc; 0xc; 0xc; 0x3c; 0x0]);
   (0x5e, [0x18; 0x3c; 0x66; 0x0; 0x0; 0x0; 0x0; 0x0]); (0x5f, [0x0; 0x0; 0x0; 0x0; 0x0; 0x0; 0x0; 0xff]);
   (0x60, [0x18; 0x18; 0xc; 0x0; 0x0; 0x0; 0x0; 0x0]); (0x61, [0x0; 0x0; 0x3c; 0x6; 0x3e; 0x66; 0x3b; 0x0]);
   (0x62, [0x60; 0x60; 0x7c; 0x66; 0x66; 0x66; 0x7c; 0x0]); (0x63, [0x0; 0x0; 0x3c; 0x60; 0x60; 0x66; 0x3c; 0x0]);
   (0x64, [0x6; 0x6; 0x3e; 0x66; 0x66; 0x66; 0x3b; 0x0]); (0x65, [0x0; 0x0; 0x3c; 0x66; 0x7e; 0x60; 0x3c; 0x0]);
   (0x66, [0x1c; 0x30; 0x30; 0x7c; 0x30; 0x30; 0x30; 0x0]); (0x67, [0x0; 0x0; 0x3b; 0x66; 0x66; 0x3e; 0x6; 0x3c]);
   (0x68, [0x60; 0x60; 0x7c; 0x66; 0x66; 0x66; 0x66; 0x0]); (0x69, [0x18; 0x0; 0x38; 0x18; 0x18; 0x18; 0x3c; 0x0]);
   (0x6a, [0x6; 0x0; 0x6; 0x6; 0x6; 0x66; 0x66; 0x3c]); (0x6b, [0x60; 0x60; 0x66; 0x6c; 0x78; 0x6c; 0x66; 0x0]);
   (0x6c, [0x38; 0x18; 0x18; 0x18; 0x18; 0x18; 0x3c; 0x0]); (0x6d, [0x0; 0x0; 0x63; 0x77; 0x7f; 0x6b; 0x63; 0x0]);
   (0x6e, [0x0; 0x0; 0x7c; 0x66; 0x66; 0x66; 0x66; 0x0]); (0x6f, [0x0; 0x0; 0x3c; 0x66; 0x66; 0x66; 0x3c; 0x0]);
   (0x70, [0x0; 0x0; 0x7c; 0x66; 0x66; 0x7c; 0x60; 0x60]); (0x71, [0x0; 0x0; 0x3b; 0x66; 0x66; 0x3e; 0x6; 0x6]);
   (0x72, [0x0; 0x0; 0x6c; 0x76; 0x60; 0x60; 0x60; 0x0]); (0x73, [0x0; 0x0; 0x3e; 0x60; 0x3c; 0x6; 0x7c; 0x0]);
   (0x74, [0x30; 0x30; 0x7c; 0x30; 0x30; 0x36; 0x1c; 0x0]); (0x75, [0x0; 0x0; 0x66; 0x66; 0x66; 0x66; 0x3b; 0x0]);
   (0x76, [0x0; 0x0; 0x66; 0x66; 0x66; 0x3c; 0x18; 0x0]); (0x77, [0x0; 0x0; 0x63; 0x6b; 0x7f; 0x77; 0x63; 0x0]);
   (0x78, [0x0; 0x0; 0x66; 0x3c; 0x18; 0x3c; 0x66; 0x0]); (0x79, [0x0; 0x0; 0x66; 0x66; 0x66; 0x3e; 0x6; 0x3c]);
   (0x7a, [0x0; 0x0; 0x7e; 0xc; 0x18; 0x30; 0x7e; 0x0]); (0x7b, [0xe; 0x18; 0x18; 0x70; 0x18; 0x18; 0xe; 0x0]);
   (0x7c, [0x18; 0x18; 0x18; 0x18; 0x18; 0x18; 0x18; 0x0]); (0x7d, [0x70; 0x18; 0x18; 0xe; 0x18; 0x18; 0x70; 0x0]);
   (0x7e, [0x3b; 0x6e; 0x0; 0x0; 0x0; 0x0; 0x0; 0x0])].

Definition GLYPH_W : Z := 8.
Definition GLYPH_H : Z := 8.
Definition _MISSING : bytes := [0x7E; 0x42; 0x42; 0x42; 0x42; 0x42; 0x7E; 0x00].
Definition get_glyph (char : Z) : bytes := match dget char _GLYPHS with Some g => g | None => _MISSING end.
(** Whether a glyph has ink at a column and row. *)
Definition ink (g : bytes) (col row : Z) : bool := negb (Z.land (nth (Z.to_nat row) g 0) (Z.shiftr 0x80 col) =? 0).

(** ** Surfaces *)

Record Surface : Type := mkSurface { sf_w : Z; sf_h : Z; sf_buf : bytes }.
Definition set_buf (b : bytes) (s : Surface) : Surface := mkSurface (sf_w s) (sf_h s) b.
Definition _offset (x y : Z) (s : Surface) : Z := (y * sf_w s + x) * 4.

Definition put_pixel (x y colour : Z) (s : Surface) : result Surface :=
  if (0 <=? x) && (x <? sf_w s) && (0 <=? y) && (y <? sf_h s) then
    let o := _offset x y s in
    let? b := set_index (sf_buf s) o (Z.land colour 0xFF) in
    let? b := set_index b (o + 1) (Z.land (Z.shiftr colour 8) 0xFF) in
    let? b := set_index b (o + 2) (Z.land (Z.shiftr colour 16) 0xFF) in
    let? b := set_index b (o + 3) 0xFF in
    Ok (set_buf b s)
  else Ok s.
Definition get_pixel (x y : Z) (s : Surface) : result Z :=
  let o := _offset x y s in
  let? r := index (sf_buf s) (o + 2) in
  let? g := index (sf_buf s) (o + 1) in
  let? b := index (sf_buf s) o in
  Ok (Z.lor (Z.lor (Z.shiftl r 16) (Z.shiftl g 8)) b).

Definition fill (colour : Z) (s : Surface) : result Surface :=
  let? b := buf_fill32 (sf_buf s) (pixel_word colour) in Ok (set_buf b s).
Definition Surface_init (width height bg : Z) : result Surface :=
  let s := mkSurface width height (repeat 0 (Z.to_nat (width * height * 4))) in
  if bg =? 0 then Ok s else fill bg s.

(** [for row in rows: body row] over something that may fail. *)
Fixpoint each {A S} (l : list A) (body : A -> S -> result S) (s : S) : result S :=
  match l with
  | [] => Ok s
  | x :: l => let? s := body x s in each l body s
  end.

Definition fill_rect (x y w h colour : Z) (s : Surface) : result Surface :=
  let x1 := Z.max 0 x in
  let y1 := Z.max 0 y in
  let x2 := Z.min (sf_w s) (x + w) in
  let y2 := Z.min (sf_h s) (y + h) in
  if (x2 <=? x1) || (y2 <=? y1) then Ok s
  else
    let word := pixel_word colour in
    each (range2 y1 y2) (fun row s => let? b := buf_fill32_at (sf_buf s) ((row * sf_w s + x1) * 4) (x2 - x1) word in Ok (set_buf b s)) s.

Definition blit_buffer (buf : bytes) (src_w src_h dst_x dst_y : Z) (s : Surface) : result Surface :=
  let sy0 := Z.max 0 (- dst_y) in
  let sy1 := Z.min src_h (sf_h s - dst_y) in
  if sy1 <=? sy0 then Ok s
  else
    let sx0 := Z.max 0 (- dst_x) in
    let sx1 := Z.min src_w (sf_w s - dst_x) in
    if sx1 <=? sx0 then Ok s
    else
      let row_bytes := (sx1 - sx0) * 4 in
      each (range2 sy0 sy1) (fun sy s =>
        let dy := dst_y + sy in
        let src_off := (sy * src_w + sx0) * 4 in
        let dst_off := (dy * sf_w s + dst_x + sx0) * 4 in
        Ok (set_buf (slice_assign (sf_buf s) dst_off (dst_off + row_bytes) (slice buf src_off (src_off + row_bytes))) s)) s.

(** One pixel of a glyph: ink, background, or nothing. *)
Definition glyph_pixel {S} (put : Z -> Z -> Z -> S -> result S) (g : bytes) (x y fg : Z) (bg : option Z) (row col : Z) (s : S) : result S :=
  if ink g col row then put (x + col) (y + row) fg s
  else match bg with Some bg => put (x + col) (y + row) bg s | None => Ok s end.
Definition draw_glyph {S} (put : Z -> Z -> Z -> S -> result S) (g : bytes) (x y fg : Z) (bg : option Z) : S -> result S :=
  each (range2 0 (len g)) (fun row => each (range2 0 8) (fun col => glyph_pixel put g x y fg bg row col)).
Definition draw_char (x y char fg : Z) (bg : option Z) : Surface -> result Surface := draw_glyph put_pixel (get_glyph char) x y fg bg.
(** [draw_text]: the surface and the column after the last character. *)
Fixpoint draw_from {S} (draw : Z -> Z -> Z -> S -> result S) (x cx cy : Z) (text : str) (s : S) : result (Z * Z * S) :=
  match text with
  | [] => Ok (cx, cy, s)
  | ch :: text => if ch =? newline then draw_from draw x x (cy + GLYPH_H) text s else let? s := draw cx cy ch s in draw_from draw x (cx + GLYPH_W) cy text s
  end.
Definition draw_text (x y : Z) (text : str) (fg : Z) (bg : option Z) (s : Surface) : result (Z * Surface) :=
  let? (cx, _, s) := draw_from (fun x y ch => draw_char x y ch fg bg) x x y text s in Ok (cx, s).

(** ** The framebuffer: its geometry, and the memory it writes *)

Record Framebuffer : Type := mkFb { fb_phys : Z; fb_pitch : Z; fb_w : Z; fb_h : Z; fb_bpp : Z }.
Section framebuffer.
Context (fb : Framebuffer).
Definition _bytes_per_pixel : Z := fb_bpp fb / 8.
Definition _pixel_addr (x y : Z) : Z := fb_phys fb + y * fb_pitch fb + x * _bytes_per_pixel.
Definition fb_put_pixel (x y colour : Z) (m : mem) : result mem :=
  Ok (if (0 <=? x) && (x <? fb_w fb) && (0 <=? y) && (y <? fb_h fb) then mmio_write32 (_pixel_addr x y) colour m else m).
Definition fb_fill (colour : Z) (m : mem) : mem :=
  if fb_pitch fb =? fb_w fb * _bytes_per_pixel then mmio_fill32 (fb_phys fb) (fb_w fb * fb_h fb) colour m
  else fold_left (fun m y => mmio_fill32 (fb_phys fb + y * fb_pitch fb) (fb_w fb) colour m) (range2 0 (fb_h fb)) m.
Definition present (buf : bytes) (m : mem) : result mem :=
  if fb_pitch fb =? fb_w fb * _bytes_per_pixel then mmio_write_buf32 (fb_phys fb) buf m
  else
    let row_bytes := fb_w fb * 4 in
    each (range2 0 (fb_h fb)) (fun y => mmio_write_buf32 (fb_phys fb + y * fb_pitch fb) (slice buf (y * row_bytes) (y * row_bytes + row_bytes))) m.
Definition fb_fill_rect (x y w h colour : Z) (m : mem) : mem :=
  let x1 := Z.max 0 x in
  let y1 := Z.max 0 y in
  let x2 := Z.min (fb_w fb) (x + w) in
  let y2 := Z.min (fb_h fb) (y + h) in
  if (x2 <=? x1) || (y2 <=? y1) then m
  else fold_left (fun m row => mmio_fill32 (fb_phys fb + row * fb_pitch fb + x1 * _bytes_per_pixel) (x2 - x1) colour m) (range2 y1 y2) m.

(** The per-pixel blit; reading past the end of [buf] raises. *)
Definition _blit_buffer_slow (buf : bytes) (src_w src_h dst_x dst_y : Z) : mem -> result mem :=
  each (range2 0 src_h) (fun sy m =>
    let dy := dst_y + sy in
    if (dy <? 0) || (fb_h fb <=? dy) then Ok m
    else
      let fb_row := fb_phys fb + dy * fb_pitch fb in
      let src_off := sy * src_w * 4 in
      each (range2 0 src_w) (fun sx m =>
        let dx := dst_x + sx in
        if (dx <? 0) || (fb_w fb <=? dx) then Ok m
        else
          let so := src_off + sx * 4 in
          let? r := index buf (so + 2) in
          let? g := index buf (so + 1) in
          let? b := index buf so in
          Ok (mmio_write32 (fb_row + dx * _bytes_per_pixel) (Z.lor (Z.lor (Z.shiftl r 16) (Z.shiftl g 8)) b) m)) m).
Definition fb_blit_buffer (buf : bytes) (src_w src_h dst_x dst_y : Z) (m : mem) : result mem :=
  let sy0 := Z.max 0 (- dst_y) in
  let sy1 := Z.min src_h (fb_h fb - dst_y) in
  if sy1 <=? sy0 then Ok m
  else if dst_x <? 0 then _blit_buffer_slow buf src_w src_h dst_x dst_y m
  else
    let sx_count := Z.min src_w (fb_w fb - dst_x) in
    if sx_count <=? 0 then Ok m
    else
      let row_bytes := sx_count * 4 in
      each (range2 sy0 sy1) (fun sy m =>
        let dy := dst_y + sy in
        let src_off := sy * src_w * 4 in
        mmio_write_buf32 (fb_phys fb + dy * fb_pitch fb + dst_x * _bytes_per_pixel) (slice buf src_off (src_off + row_bytes)) m) m.
Definition blit (s : Surface) (dst_x dst_y : Z) : mem -> result mem := fb_blit_buffer (sf_buf s) (sf_w s) (sf_h s) dst_x dst_y.
Definition fb_draw_char (x y char fg : Z) (bg : option Z) : mem -> result mem := draw_glyph fb_put_pixel (get_glyph char) x y fg bg.
Definition fb_draw_text (x y : Z) (text : str) (fg : Z) (bg : option Z) (m : mem) : result (Z * Z * mem) :=
  draw_from (fun x y ch => fb_draw_char x y ch fg bg) x x y text m.

(** ** The console *)

Definition MARGIN : Z := 4.
Record Console : Type := mkCon { cn_fg : Z; cn_bg : Z; cn_cx : Z; cn_cy : Z; cn_lines : list str; cn_mem : mem; cn_log : Log.console }.
Definition cols : Z := (fb_w fb - MARGIN * 2) / GLYPH_W.
Definition rows : Z := (fb_h fb - MARGIN * 2) / GLYPH_H.
Definition Console_init (fg bg : Z) (m : mem) (l : Log.console) : Console :=
  mkCon fg bg 0 0 (repeat [] (Z.to_nat rows)) (fb_fill bg m) l.
Definition set_mem (m : mem) (c : Console) : Console := mkCon (cn_fg c) (cn_bg c) (cn_cx c) (cn_cy c) (cn_lines c) m (cn_log c).
Definition set_cursor (x y : Z) (c : Console) : Console := mkCon (cn_fg c) (cn_bg c) x y (cn_lines c) (cn_mem c) (cn_log c).
Definition set_lines (l : list str) (c : Console) : Console := mkCon (cn_fg c) (cn_bg c) (cn_cx c) (cn_cy c) l (cn_mem c) (cn_log c).
Definition set_log (l : Log.console) (c : Console) : Console := mkCon (cn_fg c) (cn_bg c) (cn_cx c) (cn_cy c) (cn_lines c) (cn_mem c) l.

Definition _draw_char (col row ch : Z) (c : Console) : result Console :=
  let? m := fb_draw_char (MARGIN + col * GLYPH_W) (MARGIN + row * GLYPH_H) ch (cn_fg c) (Some (cn_bg c)) (cn_mem c) in Ok (set_mem m c).
Fixpoint draw_line (col row : Z) (line : str) (c : Console) : result Console :=
  match line with
  | [] => Ok c
  | ch :: line => let? c := _draw_char col row ch c in draw_line (col + 1) row line c
  end.
Fixpoint draw_lines (row : Z) (lines : list str) (c : Console) : result Console :=
  match lines with
  | [] => Ok c
  | line :: lines => let? c := draw_line 0 row line c in draw_lines (row + 1) lines c
  end.
Definition _redraw (c : Console) : result Console := draw_lines 0 (cn_lines c) (set_mem (fb_fill (cn_bg c) (cn_mem c)) c).
Definition _scroll (c : Console) : result Console := _redraw (set_lines (drop 1 (cn_lines c) ++ [[]]) c).
Definition _newline (c : Console) : result Console :=
  let c := set_cursor 0 (cn_cy c + 1) c in
  if rows <=? cn_cy c then let? c := _scroll c in Ok (set_cursor (cn_cx c) (rows - 1) c) else Ok c.
Definition clear (c : Console) : Console := set_mem (fb_fill (cn_bg c) (cn_mem c)) (set_cursor 0 0 (set_lines (repeat [] (Z.to_nat rows)) c)).

Definition put_char (ch : Z) (c : Console) : result Console :=
  let? c := _draw_char (cn_cx c) (cn_cy c) ch c in
  let? line := index (cn_lines c) (cn_cy c) in
  let line' := if cn_cx c <? len line then slice_to line (cn_cx c) ++ [ch] ++ slice_from line (cn_cx c + 1) else line ++ [ch] in
  let? ls := set_index (cn_lines c) (cn_cy c) line' in
  let c := set_cursor (cn_cx c + 1) (cn_cy c) (set_lines ls c) in
  if cols <=? cn_cx c then _newline c else Ok c.
Definition backspace (c : Console) : result Console :=
  if 0 <? cn_cx c then
    let c := set_cursor (cn_cx c - 1) (cn_cy c) c in
    let? c := _draw_char (cn_cx c) (cn_cy c) 32 c in
    let? line := index (cn_lines c) (cn_cy c) in
    let? ls := set_index (cn_lines c) (cn_cy c) (slice_to line (-1)) in
    Ok (set_lines ls c)
  else Ok c.
(** One character of [write]. *)
Definition write_char (ch : Z) (c : Console) : result Console :=
  if ch =? 10 then _newline c
  else if ch =? 13 then Ok (set_cursor 0 (cn_cy c) c)
  else if ch =? 8 then backspace c
  else put_char ch c.
Definition write (text : str) (c : Console) : result Console :=
  match Log.serial_raw text (cn_log c) with
  | (Ok _, l) => each text write_char (set_log l c)
  | (Err e, _) => Err e
  end.
Definition writeln (text : str) (c : Console) : result Console := write (text ++ [10]) c.
End framebuffer.
