(* ===== verification/DisplayProps.v ===== *)
(** * What drawing leaves on the screen

    Filling, blitting and glyphs, pixel by pixel, on surfaces and on the
    framebuffer, through the bulk primitives and the per-pixel path.  A
    surface is treated as a framebuffer at address 0 without padding. *)

From Stdlib Require Import ZArith Lia.
From stdpp Require Import base list numbers strings.
From S2P Require Import Prelude Bytes Pystr Dict Log Display.

Local Open Scope Z_scope.

(** ** Loops *)

Lemma each_app {X S} (l l' : list X) (body : X -> S -> result S) s : each (l ++ l') body s = (let? s := each l body s in each l' body s).
Proof. revert s. induction l as [|x l IH]; intros s; [done|]. cbn [each app]. destruct (body x s) as [s1|]; [apply IH|done]. Qed.
(** A loop over a range, with an invariant. *)
Lemma each_range {S} (P : Z -> S -> Prop) a b (body : Z -> S -> result S) s : a <= b -> P a s ->
  (forall i s, a <= i < b -> P i s -> exists s', body i s = Ok s' /\ P (i + 1) s') -> exists s', each (range2 a b) body s = Ok s' /\ P b s'.
Proof.
  intros Hab Ha Hb. remember (Z.to_nat (b - a)) as n eqn:En. revert a s Hab Ha Hb En. induction n as [|n IH]; intros a s Hab Ha Hb En.
  - assert (a = b) as -> by lia. exists s. by rewrite range2_nil by lia.
  - rewrite range2_cons by lia. cbn [each]. destruct (Hb a s) as (s1 & -> & H1); [lia|done|]. cbn [rbind].
    apply IH; [lia|done| |lia]. intros i t Hi. apply Hb. lia.
Qed.
Lemma fold_range {S} (P : Z -> S -> Prop) a b (body : S -> Z -> S) s : a <= b -> P a s ->
  (forall i s, a <= i < b -> P i s -> P (i + 1) (body s i)) -> P b (fold_left body (range2 a b) s).
Proof.
  intros Hab Ha Hb. destruct (each_range P a b (fun i s => Ok (body s i)) s Hab Ha) as (s' & E & H').
  { intros i t Hi Ht. exists (body t i). auto. }
  assert (G : forall l s, each l (fun i s => Ok (body s i)) s = Ok (fold_left body l s)) by (induction l as [|x l IH]; intros t; [done|apply IH]).
  rewrite G in E. congruence.
Qed.

(** ** Bytes of words *)

Definition colour24 (v : Z) : Z := v mod 2 ^ 24.
Lemma byte_of_bits v k i : 0 <= k -> 0 <= i -> Z.testbit (byte_of v k) i = (i <? 8) && Z.testbit v (i + 8 * k).
Proof.
  intros Hk Hi. unfold byte_of. change 256 with (2 ^ 8). destruct (Z.ltb_spec i 8).
  - rewrite Z.mod_pow2_bits_low by lia. rewrite Z.shiftr_spec by lia. done.
  - by rewrite Z.mod_pow2_bits_high by lia.
Qed.
Lemma byte_of_range v k : 0 <= byte_of v k < 256.
Proof. apply Z.mod_pos_bound. lia. Qed.
Lemma colour_bytes v : byte_of v 0 + 256 * byte_of v 1 + 65536 * byte_of v 2 = colour24 v.
Proof.
  unfold byte_of, colour24. rewrite !Z.shiftr_div_pow2 by lia. change (2 ^ (8 * 0)) with 1. change (2 ^ (8 * 1)) with 256.
  change (2 ^ (8 * 2)) with 65536. change (2 ^ 24) with 16777216. rewrite Z.div_1_r.
  replace (v / 65536) with (v / 256 / 256) by (by rewrite Z.div_div by lia).
  pose proof (Z.div_mod v 256 ltac:(lia)). pose proof (Z.div_mod (v / 256) 256 ltac:(lia)). pose proof (Z.div_mod (v / 256 / 256) 256 ltac:(lia)).
  pose proof (Z.mod_pos_bound v 256 ltac:(lia)). pose proof (Z.mod_pos_bound (v / 256) 256 ltac:(lia)).
  pose proof (Z.mod_pos_bound (v / 256 / 256) 256 ltac:(lia)).
  apply (Z.mod_unique_pos _ _ (v / 256 / 256 / 256)); lia.
Qed.
Lemma byte_of_pixel c k : 0 <= k < 3 -> byte_of (pixel_word c) k = byte_of c k.
Proof.
  intros Hk. apply Z.bits_inj'. intros i Hi. rewrite !byte_of_bits by lia. unfold pixel_word. destruct (Z.ltb_spec i 8); [|done]. cbn [andb].
  rewrite Z.lor_spec, Z.land_spec. change 0xFFFFFF with (Z.ones 24). rewrite Z.ones_spec_low by lia. rewrite andb_true_r.
  change 0xFF000000 with (Z.shiftl 0xFF 24). rewrite Z.shiftl_spec, (Z.testbit_neg_r 0xFF) by lia. by rewrite orb_false_r.
Qed.
Lemma byte_of_small v : 0 <= v < 256 -> byte_of v 0 = v.
Proof. intros Hv. unfold byte_of. rewrite Z.shiftr_0_r. by apply Z.mod_small. Qed.
Lemma byte_of_land v k : 0 <= k -> Z.land (Z.shiftr v (8 * k)) 0xFF = byte_of v k.
Proof. intros Hk. unfold byte_of. change 0xFF with (Z.ones 8). by rewrite Z.land_ones by lia. Qed.

Lemma rgb_value r g b : 0 <= r < 256 -> 0 <= g < 256 -> 0 <= b < 256 ->
  Z.lor (Z.lor (Z.shiftl r 16) (Z.shiftl g 8)) b = b + 256 * g + 65536 * r.
Proof.
  intros Hr Hg Hb. rewrite (Z.lor_comm _ b), (Z.lor_comm (Z.shiftl r 16)), Z.lor_assoc. rewrite (lor_shiftl b g 8) by lia.
  rewrite lor_shiftl by lia. lia.
Qed.

(** ** Reading buffers *)

Lemma bget_lookup buf o : 0 <= o -> bget buf o = default 0 (buf !! Z.to_nat o).
Proof.
  intros Ho. unfold bget. destruct (Z.ltb_spec o 0); [lia|]. generalize (Z.to_nat o). intros n.
  revert n. induction buf as [|b buf IH]; intros [|n]; cbn; try done.
Qed.
Lemma bget_index buf o : 0 <= o < len buf -> index buf o = Ok (bget buf o).
Proof.
  intros Ho. destruct (index_total buf o Ho) as [x E]. rewrite E. f_equal. apply index_Ok in E; [|lia]. by rewrite bget_lookup, E by lia.
Qed.
Lemma bget_range buf o : Forall (fun b => 0 <= b < 256) buf -> 0 <= bget buf o < 256.
Proof.
  intros HF. unfold bget. destruct (o <? 0); [lia|]. generalize (Z.to_nat o). intros n. revert n.
  induction HF as [|b buf Hb HF IH]; intros [|n]; cbn; try lia. apply IH.
Qed.
Lemma bget_slice buf i j o : 0 <= i -> i <= j -> j <= len buf -> 0 <= o < j - i -> bget (slice buf i j) o = bget buf (i + o).
Proof.
  intros Hi Hij Hj Ho. rewrite !bget_lookup by lia. rewrite slice_inside by lia.
  rewrite lookup_take_lt by lia. rewrite lookup_drop. by replace (Z.to_nat (i + o)) with (Z.to_nat i + Z.to_nat o)%nat by lia.
Qed.

(** ** Pixels in memory *)

Section geometry.
Context (fb : Framebuffer) (H32 : fb_bpp fb = 32) (Hpitch : fb_w fb * 4 <= fb_pitch fb).
Definition pix (m : mem) (x y : Z) : Z :=
  let a := _pixel_addr fb x y in m a + 256 * m (a + 1) + 65536 * m (a + 2).
Definition onscreen (x y : Z) : Prop := 0 <= x < fb_w fb /\ 0 <= y < fb_h fb.

Lemma bpp4 : _bytes_per_pixel fb = 4.
Proof. unfold _bytes_per_pixel. by rewrite H32. Qed.
(** Bytes of one row's run of pixels. *)
Lemma in_run r x1 n x y b : 0 <= x < fb_w fb -> 0 <= x1 -> x1 + n <= fb_w fb -> 0 <= b < 4 ->
  let o := _pixel_addr fb x y + b in let a := fb_phys fb + r * fb_pitch fb + x1 * 4 in
  (a <=? o) && (o <? a + 4 * n) = (y =? r) && (x1 <=? x) && (x <? x1 + n) /\ (y = r -> o - a = 4 * (x - x1) + b).
Proof.
  intros Hx Hx1 Hn Hb o a. unfold o, a, _pixel_addr. rewrite bpp4. split; [|intros ->; lia].
  destruct (Z.eqb_spec y r) as [->|Hne]; cbn [andb]; [lia|].
  assert (y * fb_pitch fb + fb_pitch fb <= r * fb_pitch fb \/ r * fb_pitch fb + fb_pitch fb <= y * fb_pitch fb) by nia. lia.
Qed.
Lemma fill_byte r x1 n v m x y b : 0 <= x < fb_w fb -> 0 <= x1 -> x1 + n <= fb_w fb -> 0 <= b < 4 ->
  mmio_fill32 (fb_phys fb + r * fb_pitch fb + x1 * 4) n v m (_pixel_addr fb x y + b) =
  if (y =? r) && (x1 <=? x) && (x <? x1 + n) then byte_of v b else m (_pixel_addr fb x y + b).
Proof.
  intros Hx Hx1 Hn Hb. unfold mmio_fill32. destruct (in_run r x1 n x y b Hx Hx1 Hn Hb) as [-> E].
  destruct ((y =? r) && (x1 <=? x) && (x <? x1 + n)) eqn:Eb; [|done].
  apply andb_true_iff in Eb as [[->%Z.eqb_eq _]%andb_true_iff _]. rewrite E by done. f_equal.
  rewrite (Z.add_comm (4 * (x - x1))), (Z.mul_comm 4), Z.mod_add by lia. by apply Z.mod_small.
Qed.
Lemma fill_run r x1 n v m x y : 0 <= x < fb_w fb -> 0 <= x1 -> x1 + n <= fb_w fb ->
  pix (mmio_fill32 (fb_phys fb + r * fb_pitch fb + x1 * 4) n v m) x y =
  if (y =? r) && (x1 <=? x) && (x <? x1 + n) then colour24 v else pix m x y.
Proof.
  intros Hx Hx1 Hn. unfold pix. pose proof (fill_byte r x1 n v m x y 0 Hx Hx1 Hn ltac:(lia)) as E0. rewrite !Z.add_0_r in E0.
  rewrite E0, !fill_byte by (done || lia). case_match; [apply colour_bytes|done].
Qed.
(** A run of pixels copied from a buffer. *)
Definition buf_pix (buf : bytes) (o : Z) : Z := bget buf o + 256 * bget buf (o + 1) + 65536 * bget buf (o + 2).
Lemma copy_byte r x1 n buf m m' x y b : 0 <= x < fb_w fb -> 0 <= x1 -> x1 + n <= fb_w fb -> len buf = 4 * n -> 0 <= b < 4 ->
  mmio_write_buf32 (fb_phys fb + r * fb_pitch fb + x1 * 4) buf m = Ok m' ->
  m' (_pixel_addr fb x y + b) = if (y =? r) && (x1 <=? x) && (x <? x1 + n) then bget buf (4 * (x - x1) + b) else m (_pixel_addr fb x y + b).
Proof.
  intros Hx Hx1 Hn Hl Hb. unfold mmio_write_buf32. case_match; [done|]. intros [= <-]. rewrite Hl.
  destruct (in_run r x1 n x y b Hx Hx1 Hn Hb) as [-> E].
  destruct ((y =? r) && (x1 <=? x) && (x <? x1 + n)) eqn:Eb; [|done].
  apply andb_true_iff in Eb as [[->%Z.eqb_eq _]%andb_true_iff _]. by rewrite E.
Qed.
Lemma copy_run r x1 n buf m : 0 <= x1 -> x1 + n <= fb_w fb -> len buf = 4 * n ->
  exists m', mmio_write_buf32 (fb_phys fb + r * fb_pitch fb + x1 * 4) buf m = Ok m' /\
  forall x y, 0 <= x < fb_w fb -> pix m' x y = if (y =? r) && (x1 <=? x) && (x <? x1 + n) then buf_pix buf (4 * (x - x1)) else pix m x y.
Proof.
  intros Hx1 Hn Hl. destruct (mmio_write_buf32 (fb_phys fb + r * fb_pitch fb + x1 * 4) buf m) as [m'|e] eqn:E.
  - exists m'. split; [done|]. intros x y Hx. unfold pix, buf_pix.
    pose proof (copy_byte r x1 n buf m m' x y 0 Hx Hx1 Hn Hl ltac:(lia) E) as E0. rewrite !Z.add_0_r in E0.
    rewrite E0, !(copy_byte r x1 n buf m m') by (done || lia). by case_match.
  - unfold mmio_write_buf32 in E. rewrite Hl, (Z.mul_comm 4), Z.mod_mul in E by lia. done.
Qed.

(** ** Operations, as pixels *)

(** [m'] is [m] with the pixels of [dom] painted. *)
Definition painted (m m' : mem) (dom : Z -> Z -> bool) (col : Z -> Z -> Z) : Prop :=
  forall x y, onscreen x y -> pix m' x y = if dom x y then col x y else pix m x y.

Lemma put_painted x y c m : exists m', fb_put_pixel fb x y c m = Ok m' /\
  painted m m' (fun x' y' => (x' =? x) && (y' =? y)) (fun _ _ => colour24 c).
Proof.
  unfold fb_put_pixel. eexists. split; [reflexivity|]. intros x' y' [Hx Hy].
  destruct ((0 <=? x) && (x <? fb_w fb) && (0 <=? y) && (y <? fb_h fb)) eqn:E.
  - unfold mmio_write32, _pixel_addr at 1. rewrite bpp4, fill_run by lia.
    assert ((y' =? y) && (x <=? x') && (x' <? x + 1) = (x' =? x) && (y' =? y)) as -> by lia. done.
  - assert ((x' =? x) && (y' =? y) = false) as -> by lia. done.
Qed.
(** A loop that paints the part of [dom] with key [i] at step [i]. *)
Lemma each_painted a b (F : Z -> mem -> result mem) (key : Z -> Z -> Z) (dom : Z -> Z -> bool) (col : Z -> Z -> Z) m : a <= b ->
  (forall i m, a <= i < b -> exists m', F i m = Ok m' /\ painted m m' (fun x y => (key x y =? i) && dom x y) col) ->
  exists m', each (range2 a b) F m = Ok m' /\ painted m m' (fun x y => (a <=? key x y) && (key x y <? b) && dom x y) col.
Proof.
  intros Hab HF. apply (each_range (fun k m' => painted m m' (fun x y => (a <=? key x y) && (key x y <? k) && dom x y) col)); [done| |].
  - intros x y _. assert ((a <=? key x y) && (key x y <? a) = false) as -> by lia. done.
  - intros i m1 Hi H1. destruct (HF i m1 Hi) as (m2 & E & H2). exists m2. split; [done|]. intros x y Ho.
    rewrite (H2 x y Ho), (H1 x y Ho). destruct (Z.eqb_spec (key x y) i) as [->|Hne]; cbn [andb].
    + assert ((a <=? i) && (i <? i + 1) = true) as -> by lia. cbn [andb]. assert ((a <=? i) && (i <? i) = false) as -> by lia. done.
    + assert ((key x y <? i + 1) = (key x y <? i)) as -> by lia. done.
Qed.
Lemma each_fold {S} (f : S -> Z -> S) l s : each l (fun i s => Ok (f s i)) s = Ok (fold_left f l s).
Proof. revert s. induction l as [|x l IH]; intros s; [done|apply IH]. Qed.
Lemma fold_painted a b (f : mem -> Z -> mem) key dom col m : a <= b ->
  (forall i m, a <= i < b -> painted m (f m i) (fun x y => (key x y =? i) && dom x y) col) ->
  painted m (fold_left f (range2 a b) m) (fun x y => (a <=? key x y) && (key x y <? b) && dom x y) col.
Proof.
  intros Hab HF. destruct (each_painted a b (fun i m => Ok (f m i)) key dom col m Hab) as (m' & E & H).
  { intros i m1 Hi. exists (f m1 i). auto. }
  rewrite each_fold in E. injection E as <-. done.
Qed.
Lemma painted_dom m m' dom dom' col : painted m m' dom col -> (forall x y, onscreen x y -> dom x y = dom' x y) -> painted m m' dom' col.
Proof. intros H Hd x y Ho. by rewrite (H x y Ho), Hd. Qed.

Lemma run_painted row x1 n c m : 0 <= x1 -> x1 + n <= fb_w fb ->
  painted m (mmio_fill32 (fb_phys fb + row * fb_pitch fb + x1 * 4) n c m) (fun x y => (y =? row) && ((x1 <=? x) && (x <? x1 + n))) (fun _ _ => colour24 c).
Proof. intros Hx Hn x y [Ho _]. by rewrite fill_run, andb_assoc. Qed.

Lemma fill_painted c m : 0 <= fb_w fb -> 0 <= fb_h fb -> painted m (fb_fill fb c m) (fun _ _ => true) (fun _ _ => colour24 c).
Proof.
  intros Hw Hh. unfold fb_fill. rewrite bpp4. destruct (Z.eqb_spec (fb_pitch fb) (fb_w fb * 4)) as [Ep|Ep].
  - intros x y [Hx Hy]. assert (B : forall b, 0 <= b < 4 -> mmio_fill32 (fb_phys fb) (fb_w fb * fb_h fb) c m (_pixel_addr fb x y + b) = byte_of c b).
    { intros b Hb. unfold mmio_fill32, _pixel_addr. rewrite bpp4, Ep.
      assert ((fb_phys fb <=? fb_phys fb + y * (fb_w fb * 4) + x * 4 + b) && (fb_phys fb + y * (fb_w fb * 4) + x * 4 + b <? fb_phys fb + 4 * (fb_w fb * fb_h fb)) = true) as ->.
      { assert (y * fb_w fb + x < fb_w fb * fb_h fb) by nia. assert (0 <= y * fb_w fb) by nia. lia. }
      f_equal. replace (fb_phys fb + y * (fb_w fb * 4) + x * 4 + b - fb_phys fb) with (b + (y * fb_w fb + x) * 4) by lia.
      rewrite Z.mod_add by lia. by apply Z.mod_small. }
    unfold pix. pose proof (B 0 ltac:(lia)) as B0. rewrite Z.add_0_r in B0. rewrite B0, !B by lia. apply colour_bytes.
  - eapply painted_dom; [apply (fold_painted 0 (fb_h fb) _ (fun x y => y) (fun x y => (0 <=? x) && (x <? 0 + fb_w fb))); [lia|]|].
    + intros i m1 _. replace (fb_phys fb + i * fb_pitch fb) with (fb_phys fb + i * fb_pitch fb + 0 * 4) by lia. apply run_painted; lia.
    + intros x y [Hx Hy]. lia.
Qed.
Definition in_rect (x y w h x' y' : Z) : bool := (x <=? x') && (x' <? x + w) && (y <=? y') && (y' <? y + h).
Lemma fill_rect_painted x y w h c m : painted m (fb_fill_rect fb x y w h c m) (in_rect x y w h) (fun _ _ => colour24 c).
Proof.
  unfold fb_fill_rect. rewrite bpp4. destruct ((_ <=? _) || _) eqn:E.
  - intros x' y' [Hx Hy]. unfold in_rect. assert ((x <=? x') && (x' <? x + w) && (y <=? y') && (y' <? y + h) = false) as -> by lia. done.
  - eapply painted_dom; [apply (fold_painted _ _ _ (fun x y => y) (fun x' y' => (Z.max 0 x <=? x') && (x' <? Z.max 0 x + (Z.min (fb_w fb) (x + w) - Z.max 0 x)))); [lia|]|].
    + intros i m1 _. apply run_painted; lia.
    + intros x' y' [Hx Hy]. unfold in_rect. lia.
Qed.

(** ** Blits *)

Definition src_pix (buf : bytes) (src_w sx sy : Z) : Z := buf_pix buf ((sy * src_w + sx) * 4).
Lemma src_bound src_w src_h sx sy : 0 <= sx < src_w -> 0 <= sy < src_h -> 0 <= (sy * src_w + sx) * 4 /\ (sy * src_w + sx) * 4 + 4 <= src_w * src_h * 4.
Proof. intros Hx Hy. assert (sy * src_w + sx < src_w * src_h) by nia. assert (0 <= sy * src_w) by nia. lia. Qed.

Lemma blit_slow_painted buf src_w src_h dx dy m : 0 <= src_w -> 0 <= src_h -> len buf = src_w * src_h * 4 -> Forall (fun b => 0 <= b < 256) buf ->
  exists m', _blit_buffer_slow fb buf src_w src_h dx dy m = Ok m' /\
  painted m m' (in_rect dx dy src_w src_h) (fun x y => src_pix buf src_w (x - dx) (y - dy)).
Proof.
  intros Hw Hh Hl HB. unfold _blit_buffer_slow.
  destruct (each_painted 0 src_h (fun sy m =>
    let dy0 := dy + sy in
    if (dy0 <? 0) || (fb_h fb <=? dy0) then Ok m
    else each (range2 0 src_w) (fun sx m =>
        let dx0 := dx + sx in
        if (dx0 <? 0) || (fb_w fb <=? dx0) then Ok m
        else let so := sy * src_w * 4 + sx * 4 in
          let? r := index buf (so + 2) in let? g := index buf (so + 1) in let? b := index buf so in
          Ok (mmio_write32 (fb_phys fb + dy0 * fb_pitch fb + dx0 * _bytes_per_pixel fb) (Z.lor (Z.lor (Z.shiftl r 16) (Z.shiftl g 8)) b) m)) m)
    (fun x y => y - dy) (fun x y => (0 <=? x - dx) && (x - dx <? src_w)) (fun x y => src_pix buf src_w (x - dx) (y - dy)) m Hh) as (m' & E & H).
  2:{ exists m'. split; [exact E|]. eapply painted_dom; [exact H|]. intros x y _. unfold in_rect. lia. }
  intros sy m1 Hsy. cbv zeta. destruct ((dy + sy <? 0) || (fb_h fb <=? dy + sy)) eqn:Ey.
  { exists m1. split; [done|]. intros x y [Hx Hy]. assert ((y - dy =? sy) = false) as -> by lia. done. }
  destruct (each_painted 0 src_w (fun sx m =>
        if (dx + sx <? 0) || (fb_w fb <=? dx + sx) then Ok m
        else let? r := index buf (sy * src_w * 4 + sx * 4 + 2) in let? g := index buf (sy * src_w * 4 + sx * 4 + 1) in
          let? b := index buf (sy * src_w * 4 + sx * 4) in
          Ok (mmio_write32 (fb_phys fb + (dy + sy) * fb_pitch fb + (dx + sx) * _bytes_per_pixel fb) (Z.lor (Z.lor (Z.shiftl r 16) (Z.shiftl g 8)) b) m))
    (fun x y => x - dx) (fun x y => y - dy =? sy) (fun x y => src_pix buf src_w (x - dx) (y - dy)) m1 Hw) as (m2 & E2 & H2).
  2:{ exists m2. split; [exact E2|]. eapply painted_dom; [exact H2|]. intros x y _. cbv beta. lia. }
  intros sx m2 Hsx. destruct ((dx + sx <? 0) || (fb_w fb <=? dx + sx)) eqn:Ex.
  { exists m2. split; [done|]. intros x y [Hx Hy]. assert ((x - dx =? sx) = false) as -> by lia. done. }
  pose proof (src_bound src_w src_h sx sy Hsx Hsy). rewrite !bget_index by lia. cbn [rbind]. eexists. split; [reflexivity|].
  rewrite bpp4. unfold mmio_write32. intros x y Ho.
  rewrite (run_painted (dy + sy) (dx + sx) 1 _ m2 ltac:(lia) ltac:(lia) x y Ho).
  assert ((y =? dy + sy) && ((dx + sx <=? x) && (x <? dx + sx + 1)) = (x - dx =? sx) && (y - dy =? sy)) as -> by lia.
  destruct ((x - dx =? sx) && (y - dy =? sy)) eqn:Eq; [|done]. assert (x - dx = sx) as -> by lia. assert (y - dy = sy) as -> by lia.
  unfold src_pix, buf_pix. rewrite rgb_value by (by apply bget_range). unfold colour24.
  rewrite Z.mod_small by (pose proof (bget_range buf (sy * src_w * 4 + sx * 4) HB); pose proof (bget_range buf (sy * src_w * 4 + sx * 4 + 1) HB);
    pose proof (bget_range buf (sy * src_w * 4 + sx * 4 + 2) HB); lia).
  by replace ((sy * src_w + sx) * 4) with (sy * src_w * 4 + sx * 4) by lia.
Qed.

Lemma blit_painted buf src_w src_h dx dy m : 0 <= src_w -> 0 <= src_h -> len buf = src_w * src_h * 4 -> Forall (fun b => 0 <= b < 256) buf ->
  exists m', fb_blit_buffer fb buf src_w src_h dx dy m = Ok m' /\
  painted m m' (in_rect dx dy src_w src_h) (fun x y => src_pix buf src_w (x - dx) (y - dy)).
Proof.
  intros Hw Hh Hl HB. unfold fb_blit_buffer. destruct (Z.leb_spec (Z.min src_h (fb_h fb - dy)) (Z.max 0 (- dy))) as [Hc|Hc].
  { exists m. split; [done|]. intros x y [Hx Hy]. unfold in_rect. assert ((dx <=? x) && (x <? dx + src_w) && (dy <=? y) && (y <? dy + src_h) = false) as -> by lia. done. }
  destruct (Z.ltb_spec dx 0) as [Hd|Hd]; [by apply blit_slow_painted|].
  destruct (Z.leb_spec (Z.min src_w (fb_w fb - dx)) 0) as [Hn|Hn].
  { exists m. split; [done|]. intros x y [Hx Hy]. unfold in_rect. assert ((dx <=? x) && (x <? dx + src_w) && (dy <=? y) && (y <? dy + src_h) = false) as -> by lia. done. }
  cbv zeta. set (n := Z.min src_w (fb_w fb - dx)) in *.
  destruct (each_painted (Z.max 0 (- dy)) (Z.min src_h (fb_h fb - dy)) (fun sy m =>
      mmio_write_buf32 (fb_phys fb + (dy + sy) * fb_pitch fb + dx * _bytes_per_pixel fb) (slice buf (sy * src_w * 4) (sy * src_w * 4 + n * 4)) m)
    (fun x y => y - dy) (fun x y => (dx <=? x) && (x <? dx + n)) (fun x y => src_pix buf src_w (x - dx) (y - dy)) m ltac:(lia)) as (m' & E & H).
  2:{ exists m'. split; [exact E|]. eapply painted_dom; [exact H|]. intros x y [Hx Hy]. unfold in_rect. lia. }
  intros sy m1 Hsy. rewrite bpp4. pose proof (src_bound src_w src_h 0 sy ltac:(lia) ltac:(lia)). pose proof (src_bound src_w src_h (n - 1) sy ltac:(lia) ltac:(lia)).
  destruct (copy_run (dy + sy) dx n (slice buf (sy * src_w * 4) (sy * src_w * 4 + n * 4)) m1) as (m2 & E2 & H2); [lia|lia|rewrite len_slice by lia; lia|].
  exists m2. split; [done|]. intros x y [Hx Hy]. rewrite H2 by done.
  assert ((y =? dy + sy) && (dx <=? x) && (x <? dx + n) = (y - dy =? sy) && ((dx <=? x) && (x <? dx + n))) as -> by lia.
  destruct ((y - dy =? sy) && ((dx <=? x) && (x <? dx + n))) eqn:Eq; [|done]. assert (y - dy = sy) as -> by lia.
  unfold src_pix, buf_pix. rewrite !bget_slice by lia. f_equal; [f_equal|]; f_equal; try f_equal; lia.
Qed.

(** The whole back buffer: one copy when rows are not padded, else one a row. *)
Lemma present_painted buf m : 0 <= fb_w fb -> 0 <= fb_h fb -> len buf = fb_w fb * fb_h fb * 4 ->
  exists m', present fb buf m = Ok m' /\ painted m m' (fun _ _ => true) (fun x y => src_pix buf (fb_w fb) x y).
Proof.
  intros Hw Hh Hl. unfold present. rewrite bpp4. destruct (Z.eqb_spec (fb_pitch fb) (fb_w fb * 4)) as [Ep|Ep].
  - unfold mmio_write_buf32. rewrite Hl, Z.mod_mul by lia. cbn [negb Z.eqb]. eexists. split; [reflexivity|]. intros x y [Hx Hy].
    pose proof (src_bound (fb_w fb) (fb_h fb) x y Hx Hy) as [B1 B2].
    assert (B : forall b, 0 <= b < 4 -> (if (fb_phys fb <=? _pixel_addr fb x y + b) && (_pixel_addr fb x y + b <? fb_phys fb + fb_w fb * fb_h fb * 4)
      then bget buf (_pixel_addr fb x y + b - fb_phys fb) else m (_pixel_addr fb x y + b)) = bget buf ((y * fb_w fb + x) * 4 + b)).
    { intros b Hb. unfold _pixel_addr. rewrite bpp4, Ep.
      assert ((fb_phys fb <=? fb_phys fb + y * (fb_w fb * 4) + x * 4 + b) && (fb_phys fb + y * (fb_w fb * 4) + x * 4 + b <? fb_phys fb + fb_w fb * fb_h fb * 4) = true) as -> by lia.
      f_equal. lia. }
    pose proof (B 0 ltac:(lia)) as B0. rewrite !Z.add_0_r in B0. unfold pix, src_pix, buf_pix. by rewrite B0, !B by lia.
  - destruct (each_painted 0 (fb_h fb) (fun y => mmio_write_buf32 (fb_phys fb + y * fb_pitch fb) (slice buf (y * (fb_w fb * 4)) (y * (fb_w fb * 4) + fb_w fb * 4)))
      (fun x y => y) (fun x y => (0 <=? x) && (x <? 0 + fb_w fb)) (fun x y => src_pix buf (fb_w fb) x y) m Hh) as (m' & E & H).
    2:{ exists m'. split; [exact E|]. eapply painted_dom; [exact H|]. intros x y [Hx Hy]. cbv beta. lia. }
    intros r m1 Hr. assert (0 <= r * (fb_w fb * 4) /\ r * (fb_w fb * 4) + fb_w fb * 4 <= len buf) as [B1 B2] by (rewrite Hl; nia).
    destruct (copy_run r 0 (fb_w fb) (slice buf (r * (fb_w fb * 4)) (r * (fb_w fb * 4) + fb_w fb * 4)) m1) as (m2 & E2 & H2); [lia|lia|rewrite len_slice by lia; lia|].
    rewrite Z.add_0_r in E2. exists m2. split; [exact E2|]. intros x y [Hx Hy]. rewrite H2, andb_assoc by done.
    destruct ((y =? r) && (0 <=? x) && (x <? 0 + fb_w fb)) eqn:Eq; [|done]. assert (y = r) as -> by lia.
    unfold src_pix, buf_pix. rewrite !bget_slice by lia. f_equal; [f_equal|]; f_equal; try f_equal; lia.
Qed.

(** ** Glyphs *)

(** Where a glyph leaves a colour, and which. *)
Definition glyph_dom (g : bytes) (x y : Z) (bg : option Z) (x' y' : Z) : bool :=
  in_rect x y 8 (len g) x' y' && match bg with Some _ => true | None => ink g (x' - x) (y' - y) end.
Definition glyph_paint (g : bytes) (x y fg : Z) (bg : option Z) (x' y' : Z) : Z :=
  if ink g (x' - x) (y' - y) then colour24 fg else match bg with Some b => colour24 b | None => 0 end.
Lemma glyph_painted g x y fg bg m : exists m', draw_glyph (fb_put_pixel fb) g x y fg bg m = Ok m' /\
  painted m m' (glyph_dom g x y bg) (glyph_paint g x y fg bg).
Proof.
  unfold draw_glyph. pose proof (len_nonneg g).
  destruct (each_painted 0 (len g) (fun row => each (range2 0 8) (fun col => glyph_pixel (fb_put_pixel fb) g x y fg bg row col))
    (fun x' y' => y' - y) (fun x' y' => (0 <=? x' - x) && (x' - x <? 8) && match bg with Some _ => true | None => ink g (x' - x) (y' - y) end)
    (glyph_paint g x y fg bg) m ltac:(lia)) as (m' & E & Hm).
  2:{ exists m'. split; [exact E|]. eapply painted_dom; [exact Hm|]. intros x' y' _. unfold glyph_dom, in_rect.
      destruct (match bg with Some _ => true | None => _ end); rewrite ?andb_true_r, ?andb_false_r; lia. }
  intros row m1 Hr. destruct (each_painted 0 8 (fun col => glyph_pixel (fb_put_pixel fb) g x y fg bg row col)
    (fun x' y' => x' - x) (fun x' y' => (y' - y =? row) && match bg with Some _ => true | None => ink g (x' - x) (y' - y) end)
    (glyph_paint g x y fg bg) m1 ltac:(lia)) as (m2 & E2 & H2).
  2:{ exists m2. split; [exact E2|]. eapply painted_dom; [exact H2|]. intros x' y' _. cbv beta.
      destruct (match bg with Some _ => true | None => _ end); rewrite ?andb_true_r, ?andb_false_r; lia. }
  intros col m2 Hc. unfold glyph_pixel.
  assert (P : forall c, exists m', fb_put_pixel fb (x + col) (y + row) c m2 = Ok m' /\
    painted m2 m' (fun x' y' => (x' - x =? col) && (y' - y =? row)) (fun _ _ => colour24 c)).
  { intros c. destruct (put_painted (x + col) (y + row) c m2) as (m3 & E3 & H3). exists m3. split; [done|].
    eapply painted_dom; [exact H3|]. intros x' y' _. cbv beta. lia. }
  destruct (ink g col row) eqn:Ei; [|destruct bg as [b|]].
  - destruct (P fg) as (m3 & -> & H3). exists m3. split; [done|]. intros x' y' Ho. rewrite (H3 x' y' Ho). cbv beta.
    destruct ((x' - x =? col) && (y' - y =? row)) eqn:Eq.
    + apply andb_true_iff in Eq as [E1%Z.eqb_eq E4%Z.eqb_eq]. unfold glyph_paint. rewrite E1, E4, !Z.eqb_refl, Ei. by destruct bg.
    + assert ((x' - x =? col) && ((y' - y =? row) && match bg with Some _ => true | None => ink g (x' - x) (y' - y) end) = false) as ->; [|done].
      by rewrite andb_assoc, Eq.
  - destruct (P b) as (m3 & -> & H3). exists m3. split; [done|]. intros x' y' Ho. rewrite (H3 x' y' Ho). cbv beta. rewrite andb_true_r.
    destruct ((x' - x =? col) && (y' - y =? row)) eqn:Eq; [|done].
    apply andb_true_iff in Eq as [E1%Z.eqb_eq E4%Z.eqb_eq]. unfold glyph_paint. by rewrite E1, E4, Ei.
  - exists m2. split; [done|]. intros x' y' Ho. cbv beta. destruct (Z.eqb_spec (x' - x) col) as [->|]; [|done].
    destruct (Z.eqb_spec (y' - y) row) as [->|]; [|done]. by rewrite Ei.
Qed.
End geometry.

(** A blit copies the part of the source that is on the screen, by either
    path.  Whatever the position (off any edge, or all of it), the row copies
    and the per-pixel fallback both succeed, leave the same picture, and that
    picture is the source's pixels inside the rectangle and the old ones
    outside; [present] shows a full-size back buffer exactly, with and without
    padded rows. *)
Theorem blit_paths_agree (fb : Framebuffer) (buf : bytes) (src_w src_h dx dy : Z) (m : mem)
    (H32 : fb_bpp fb = 32) (Hpitch : fb_w fb * 4 <= fb_pitch fb) (Hw : 0 <= src_w) (Hh : 0 <= src_h)
    (Hlen : len buf = src_w * src_h * 4) (Hbytes : Forall (fun b => 0 <= b < 256) buf) :
  (exists fast slow, fb_blit_buffer fb buf src_w src_h dx dy m = Ok fast /\ _blit_buffer_slow fb buf src_w src_h dx dy m = Ok slow /\
    forall x y, onscreen fb x y ->
      pix fb fast x y = (if in_rect dx dy src_w src_h x y then src_pix buf src_w (x - dx) (y - dy) else pix fb m x y) /\
      pix fb slow x y = pix fb fast x y) /\
  (src_w = fb_w fb -> src_h = fb_h fb ->
    exists m', present fb buf m = Ok m' /\ forall x y, onscreen fb x y -> pix fb m' x y = src_pix buf src_w x y).
Proof.
  split.
  - destruct (blit_painted fb H32 Hpitch buf src_w src_h dx dy m Hw Hh Hlen Hbytes) as (fast & E1 & H1).
    destruct (blit_slow_painted fb H32 Hpitch buf src_w src_h dx dy m Hw Hh Hlen Hbytes) as (slow & E2 & H2).
    exists fast, slow. split_and!; [done..|]. intros x y Ho. split; [exact (H1 x y Ho)|]. by rewrite (H1 x y Ho), (H2 x y Ho).
  - intros -> ->. destruct (present_painted fb H32 Hpitch buf m Hw Hh Hlen) as (m' & E & H). exists m'. split; [done|]. exact H.
Qed.

Lemma blit_paths_agree_witness :
  let fb := mkFb 0 40 8 4 32 in
  let buf := words 6 0x112233 in
  exists fast slow, fb_blit_buffer fb buf 3 2 (-1) 1 (fun _ => 7) = Ok fast /\ _blit_buffer_slow fb buf 3 2 (-1) 1 (fun _ => 7) = Ok slow /\
    pix fb fast 0 1 = 0x112233 /\ pix fb fast 2 1 = 0x070707 /\ pix fb slow 1 2 = pix fb fast 1 2.
Proof.
  intros fb buf. assert (HB : Forall (fun b => 0 <= b < 256) buf) by (apply (bool_decide_unpack _); by vm_compute).
  destruct (blit_paths_agree fb buf 3 2 (-1) 1 (fun _ => 7) eq_refl ltac:(by vm_compute) ltac:(lia) ltac:(lia) eq_refl HB) as [(fast & slow & E1 & E2 & H) _].
  exists fast, slow. split; [exact E1|]. split; [exact E2|]. split; [|split].
  - destruct (H 0 1) as [-> _]; [by vm_compute|]. by vm_compute.
  - destruct (H 2 1) as [-> _]; [by vm_compute|]. by vm_compute.
  - destruct (H 1 2) as [_ ->]; [by vm_compute|]. reflexivity.
Defined.
