(* ===== verification/ConsoleText.v ===== *)
(** * The console is a typewriter with the last lines in view

    Writing draws one character at a time; the screen is always what drawing
    all the lines afresh would give.  The reference is a document: all the
    lines ever written, broken at line feeds and at the right margin.  The
    screen is the last of them. *)

From Stdlib Require Import ZArith Lia.
From stdpp Require Import base list numbers strings.
From S2P Require Import Prelude Bytes Pystr Dict Log Display DisplayProps.

Local Open Scope Z_scope.

Lemma glyph_size ch : len (get_glyph ch) = 8.
Proof.
  unfold get_glyph. destruct (dget ch _GLYPHS) as [g|] eqn:E; [|done]. apply dget_elem in E.
  assert (HF : Forall (fun p : Z * bytes => len p.2 = 8) _GLYPHS) by (apply (bool_decide_unpack _); by vm_compute).
  rewrite Forall_forall in HF. exact (HF _ E).
Qed.
Lemma blank_ink col row : ink (get_glyph 32) col row = false.
Proof.
  unfold ink. assert (forall n, nth n (get_glyph 32) 0 = 0) as ->; [|done].
  change (get_glyph 32) with (repeat 0 8). intros n. do 9 (destruct n as [|n]; [done|]). done.
Qed.

Section console.
Context (fb : Framebuffer) (H32 : fb_bpp fb = 32) (Hpitch : fb_w fb * 4 <= fb_pitch fb) (Hw : 0 <= fb_w fb) (Hh : 0 <= fb_h fb).
Implicit Types (c : Console) (f : Z -> Z -> Z).

Lemma grid_w : cols fb * 8 + 8 <= fb_w fb \/ cols fb <= 0.
Proof. unfold cols, MARGIN, GLYPH_W. pose proof (Z.mul_div_le (fb_w fb - 4 * 2) 8). lia. Qed.
Lemma grid_h : rows fb * 8 + 8 <= fb_h fb \/ rows fb <= 0.
Proof. unfold rows, MARGIN, GLYPH_H. pose proof (Z.mul_div_le (fb_h fb - 4 * 2) 8). lia. Qed.

(** ** What a grid of characters looks like *)

Definition on_grid (col row : Z) : Prop := 0 <= col < cols fb /\ 0 <= row < rows fb.
Definition picture (fg bg : Z) f (x y : Z) : Z :=
  let col := (x - MARGIN) / 8 in
  let row := (y - MARGIN) / 8 in
  if (MARGIN <=? x) && (col <? cols fb) && (MARGIN <=? y) && (row <? rows fb) && ink (get_glyph (f col row)) ((x - MARGIN) mod 8) ((y - MARGIN) mod 8)
  then colour24 fg else colour24 bg.
Definition shows f c : Prop := forall x y, onscreen fb x y -> pix fb (cn_mem c) x y = picture (cn_fg c) (cn_bg c) f x y.
Definition put_cell (col row ch : Z) f : Z -> Z -> Z := fun i j => if (i =? col) && (j =? row) then ch else f i j.

Lemma shows_ext f g c : shows f c -> (forall col row, on_grid col row -> f col row = g col row) -> shows g c.
Proof.
  intros H E x y Ho. rewrite (H x y Ho). unfold picture. cbv zeta.
  destruct ((MARGIN <=? x) && ((x - MARGIN) / 8 <? cols fb) && (MARGIN <=? y) && ((y - MARGIN) / 8 <? rows fb)) eqn:Eg; [|done].
  rewrite E; [done|]. unfold on_grid, MARGIN in *.
  assert (0 <= (x - 4) / 8) by (apply Z.div_pos; lia). assert (0 <= (y - 4) / 8) by (apply Z.div_pos; lia). lia.
Qed.
Lemma draw_char_shows col row ch f c : shows f c -> on_grid col row ->
  exists m, _draw_char fb col row ch c = Ok (set_mem m c) /\ shows (put_cell col row ch f) (set_mem m c).
Proof.
  intros H [Hc Hr]. unfold _draw_char, fb_draw_char.
  destruct (glyph_painted fb H32 Hpitch (get_glyph ch) (MARGIN + col * GLYPH_W) (MARGIN + row * GLYPH_H) (cn_fg c) (Some (cn_bg c)) (cn_mem c)) as (m & -> & Hm).
  exists m. split; [done|]. intros x y Ho. cbn [cn_mem cn_fg cn_bg set_mem]. rewrite (Hm x y Ho), (H x y Ho).
  unfold glyph_dom, glyph_paint, in_rect, picture, put_cell, MARGIN, GLYPH_W, GLYPH_H. rewrite glyph_size, andb_true_r. cbv zeta.
  pose proof (Z.div_mod (x - 4) 8 ltac:(lia)). pose proof (Z.mod_pos_bound (x - 4) 8 ltac:(lia)).
  pose proof (Z.div_mod (y - 4) 8 ltac:(lia)). pose proof (Z.mod_pos_bound (y - 4) 8 ltac:(lia)).
  destruct (Z.eqb_spec ((x - 4) / 8) col) as [Ec|Ec]; destruct (Z.eqb_spec ((y - 4) / 8) row) as [Er|Er]; cbn [andb].
  - assert ((4 + col * 8 <=? x) && (x <? 4 + col * 8 + 8) && (4 + row * 8 <=? y) && (y <? 4 + row * 8 + 8) = true) as -> by lia.
    assert ((4 <=? x) && ((x - 4) / 8 <? cols fb) && (4 <=? y) && ((y - 4) / 8 <? rows fb) = true) as -> by lia. cbn [andb].
    replace (x - (4 + col * 8)) with ((x - 4) mod 8) by lia. replace (y - (4 + row * 8)) with ((y - 4) mod 8) by lia. done.
  - assert ((4 + col * 8 <=? x) && (x <? 4 + col * 8 + 8) && (4 + row * 8 <=? y) && (y <? 4 + row * 8 + 8) = false) as -> by lia. done.
  - assert ((4 + col * 8 <=? x) && (x <? 4 + col * 8 + 8) && (4 + row * 8 <=? y) && (y <? 4 + row * 8 + 8) = false) as -> by lia. done.
  - assert ((4 + col * 8 <=? x) && (x <? 4 + col * 8 + 8) && (4 + row * 8 <=? y) && (y <? 4 + row * 8 + 8) = false) as -> by lia. done.
Qed.
Lemma fill_shows c : shows (fun _ _ => 32) (set_mem (fb_fill fb (cn_bg c) (cn_mem c)) c).
Proof.
  intros x y Ho. cbn [cn_mem cn_fg cn_bg set_mem]. rewrite (fill_painted fb H32 Hpitch (cn_bg c) (cn_mem c) Hw Hh x y Ho).
  unfold picture. cbv zeta. by rewrite blank_ink, andb_false_r.
Qed.

(** ** Lines as a grid *)

Definition cell (lines : list str) (col row : Z) : Z :=
  match lines !! Z.to_nat row with Some line => default 32 (line !! Z.to_nat col) | None => 32 end.

Lemma draw_line_shows line col row f c : shows f c -> 0 <= col -> col + len line <= cols fb -> 0 <= row < rows fb ->
  exists m, draw_line fb col row line c = Ok (set_mem m c) /\
  shows (fun i j => if (j =? row) && (col <=? i) && (i <? col + len line) then default 32 (line !! Z.to_nat (i - col)) else f i j) (set_mem m c).
Proof.
  revert col f c. induction line as [|ch line IH]; intros col f c H Hc Hl Hr; cbn [draw_line].
  - exists (cn_mem c). split; [by destruct c|]. eapply shows_ext; [by destruct c; exact H|]. intros i j _.
    change (len (@nil Z)) with 0. assert ((j =? row) && (col <=? i) && (i <? col + 0) = false) as -> by lia. done.
  - rewrite len_cons in Hl. pose proof (len_nonneg line). destruct (draw_char_shows col row ch f c H) as (m & -> & H1); [by split; lia|]. cbn [rbind].
    destruct (IH (col + 1) _ _ H1) as (m' & -> & H2); [lia|lia|done|]. exists m'. split; [done|].
    eapply shows_ext; [exact H2|]. intros i j [Hi Hj]. cbv beta. unfold put_cell. rewrite len_cons.
    destruct (Z.eqb_spec j row) as [->|]; cbn [andb]; [|by rewrite andb_false_r].
    destruct (Z.eqb_spec i col) as [->|Hne]; cbn [andb].
    + assert ((col + 1 <=? col) && (col <? col + 1 + len line) = false) as -> by lia.
      rewrite Z.leb_refl, (proj2 (Z.ltb_lt col (col + (1 + len line)))) by lia. cbn [andb]. by rewrite Z.sub_diag.
    + destruct ((col + 1 <=? i) && (i <? col + 1 + len line)) eqn:E.
      * assert ((col <=? i) && (i <? col + (1 + len line)) = true) as -> by lia.
        by replace (Z.to_nat (i - col)) with (S (Z.to_nat (i - (col + 1)))) by lia.
      * assert ((col <=? i) && (i <? col + (1 + len line)) = false) as -> by lia. done.
Qed.
Lemma draw_lines_shows lines row f c : shows f c -> 0 <= row -> row + len lines <= rows fb -> Forall (fun l => len l <= cols fb) lines ->
  (forall i j, on_grid i j -> row <= j < row + len lines -> f i j = 32) ->
  exists m, draw_lines fb row lines c = Ok (set_mem m c) /\
  shows (fun i j => if (row <=? j) && (j <? row + len lines) then cell lines i (j - row) else f i j) (set_mem m c).
Proof.
  intros H Hr Hl HF. revert row f c H Hr Hl. induction HF as [|line lines Hline HF IH]; intros row f c H Hr Hl Hb; cbn [draw_lines].
  - exists (cn_mem c). split; [by destruct c|]. eapply shows_ext; [by destruct c; exact H|]. intros i j _.
    change (len (@nil str)) with 0. assert ((row <=? j) && (j <? row + 0) = false) as -> by lia. done.
  - rewrite len_cons in Hl, Hb. pose proof (len_nonneg lines).
    destruct (draw_line_shows line 0 row f c H) as (m & -> & H1); [lia|lia|lia|]. cbn [rbind].
    destruct (IH (row + 1) _ _ H1) as (m' & -> & H2); [lia|lia| |].
    { intros i j Hg Hj. assert ((j =? row) = false) as -> by lia. apply Hb; [done|lia]. }
    exists m'. split; [done|]. eapply shows_ext; [exact H2|]. intros i j Hg. cbv beta. rewrite len_cons.
    destruct (Z.eqb_spec j row) as [->|Hne]; cbn [andb].
    + assert ((row + 1 <=? row) && (row <? row + 1 + len lines) = false) as -> by lia.
      rewrite Z.leb_refl, (proj2 (Z.ltb_lt row (row + (1 + len lines)))) by lia. cbn [andb]. unfold cell. rewrite Z.sub_diag. cbn [Z.to_nat lookup list_lookup].
      pose proof Hg as [Hi _]. assert ((0 <=? i) = true) as -> by lia. cbn [andb]. rewrite Z.sub_0_r.
      destruct (Z.ltb_spec i (0 + len line)); [done|]. rewrite Hb by (done || lia).
      change (32 = default 32 (line !! Z.to_nat i)). by rewrite (proj2 (list.lookup_ge_None line (Z.to_nat i))) by (unfold len in *; lia).
    + destruct ((row + 1 <=? j) && (j <? row + 1 + len lines)) eqn:E.
      * assert ((row <=? j) && (j <? row + (1 + len lines)) = true) as -> by lia.
        unfold cell. by replace (Z.to_nat (j - row)) with (S (Z.to_nat (j - (row + 1)))) by lia.
      * assert ((row <=? j) && (j <? row + (1 + len lines)) = false) as -> by lia. done.
Qed.

(** ** The shape of the console *)

Record con_frame c : Prop := {
  cf_rows : len (cn_lines c) = rows fb;
  cf_cols : Forall (fun l => len l <= cols fb) (cn_lines c);
  cf_some : 0 < cols fb;
  cf_cy : 0 <= cn_cy c < rows fb;
  cf_below : forall j line, cn_cy c < Z.of_nat j -> cn_lines c !! j = Some line -> line = [];
}.
(** [strict]: the cursor is at the end of its line, which holds as long as
    nothing writes a carriage return. *)
Record con_ok (strict : bool) c : Prop := {
  co_frame : con_frame c;
  co_cx : 0 <= cn_cx c < cols fb;
  co_line : exists line, cn_lines c !! Z.to_nat (cn_cy c) = Some line /\ cn_cx c <= len line /\ (strict = true -> cn_cx c = len line);
}.
Definition con_shows c : Prop := shows (cell (cn_lines c)) c.

Lemma redraw_shows c : len (cn_lines c) = rows fb -> Forall (fun l => len l <= cols fb) (cn_lines c) ->
  exists m, _redraw fb c = Ok (set_mem m c) /\ con_shows (set_mem m c).
Proof.
  intros Hl HF. unfold _redraw.
  destruct (draw_lines_shows (cn_lines c) 0 _ _ (fill_shows c)) as (m & E & H); [lia|lia|done|done|].
  exists m. split; [exact E|]. eapply shows_ext; [exact H|]. intros i j [_ Hj]. cbv beta. cbn [cn_lines set_mem].
  rewrite (proj2 (Z.leb_le 0 j)), (proj2 (Z.ltb_lt j (0 + len (cn_lines c)))) by lia. cbn [andb]. by rewrite Z.sub_0_r.
Qed.
Lemma newline_ok strict c : con_frame c -> con_shows c -> exists c', _newline fb c = Ok c' /\ con_ok strict c' /\ con_shows c'.
Proof.
  intros [H1 H2 H3 H4 H6] Hs. unfold _newline. cbn [cn_cy set_cursor]. destruct (Z.leb_spec (rows fb) (cn_cy c + 1)) as [Hc|Hc].
  - unfold _scroll. cbn [cn_lines set_cursor]. destruct (cn_lines c) as [|line0 ls] eqn:El; [rewrite len_nil in H1; lia|]. rewrite len_cons in H1. change (drop 1 (line0 :: ls)) with ls.
    apply Forall_cons in H2 as [_ H2].
    destruct (redraw_shows (set_lines (ls ++ [[]]) (set_cursor 0 (cn_cy c + 1) c))) as (m & -> & Hm).
    { cbn [cn_lines set_lines]. rewrite len_app, len_cons. change (len (@nil str)) with 0. lia. }
    { cbn [cn_lines set_lines]. apply Forall_app. split; [done|]. apply Forall_singleton. change (len (@nil Z)) with 0. lia. }
    cbn [rbind]. eexists. split; [reflexivity|]. split; [|exact Hm].
    assert (Hn : Z.to_nat (rows fb - 1) = length ls) by (unfold len in H1; lia).
    split; cbn [cn_lines cn_cx cn_cy set_cursor set_lines set_mem]; [split; cbn [cn_lines cn_cx cn_cy set_cursor set_lines set_mem]| |].
    + rewrite len_snoc. lia.
    + apply Forall_app. split; [done|]. apply Forall_singleton. change (len (@nil Z)) with 0. lia.
    + done.
    + lia.
    + intros j line Hj Hl. apply lookup_lt_Some in Hl. assert (Z.of_nat j < len (ls ++ [[]])) by (unfold len; lia).
      rewrite len_snoc in *. lia.
    + lia.
    + exists []. rewrite Hn, lookup_app_r, Nat.sub_diag by lia. change (len (@nil Z)) with 0. split_and!; [done|lia|done].
  - eexists. split; [reflexivity|]. split; [|exact Hs].
    split; cbn [cn_lines cn_cx cn_cy set_cursor]; [split; cbn [cn_lines cn_cx cn_cy set_cursor]; [done|done|done|lia|]|lia|].
    + intros j line Hj. apply H6. lia.
    + destruct (lookup_lt_is_Some_2 (cn_lines c) (Z.to_nat (cn_cy c + 1))) as [line El]; [unfold len in H1; lia|].
      assert (line = []) as -> by (eapply H6; [|exact El]; lia). exists []. change (len (@nil Z)) with 0. split_and!; [done|lia|done].
Qed.
(** The cells after the current line is replaced. *)
Lemma cell_insert lines r line' i j : 0 <= r < len lines -> 0 <= j ->
  cell (<[Z.to_nat r:=line']> lines) i j = if j =? r then default 32 (line' !! Z.to_nat i) else cell lines i j.
Proof.
  intros Hr Hj. unfold cell. destruct (Z.eqb_spec j r) as [->|Hne].
  - rewrite list_lookup_insert_eq by (unfold len in Hr; lia). done.
  - by rewrite list_lookup_insert_ne by lia.
Qed.
Lemma set_line_ok c line line' : len (cn_lines c) = rows fb -> 0 <= cn_cy c < rows fb -> cn_lines c !! Z.to_nat (cn_cy c) = Some line ->
  index (cn_lines c) (cn_cy c) = Ok line /\ set_index (cn_lines c) (cn_cy c) line' = Ok (<[Z.to_nat (cn_cy c):=line']> (cn_lines c)).
Proof. intros H1 H4 El. split; [apply index_Ok; [lia|done]|apply set_index_Ok; lia]. Qed.

Lemma list_snoc_cell (line : str) ch i : 0 <= i -> default 32 ((line ++ [ch]) !! Z.to_nat i) = if i =? len line then ch else default 32 (line !! Z.to_nat i).
Proof.
  intros Hi. destruct (Z.ltb_spec i (len line)) as [Hl|Hl].
  - rewrite lookup_app_l by (unfold len in Hl; lia). by assert ((i =? len line) = false) as -> by lia.
  - rewrite lookup_app_r by (unfold len in Hl; lia). destruct (Z.eqb_spec i (len line)) as [->|Hne].
    + unfold len. by rewrite Nat2Z.id, Nat.sub_diag.
    + rewrite !(proj2 (list.lookup_ge_None _ _)); [done|unfold len in *; lia|unfold len in *; cbn; lia].
Qed.

(** ** One character *)

Lemma put_char_ok strict ch c : con_ok strict c -> con_shows c -> exists c', put_char fb ch c = Ok c' /\ con_ok strict c' /\ con_shows c'.
Proof.
  intros [[H1 H2 Hp H4 H6] H3 (line & El & Hx & Hs)] Hsh. unfold put_char.
  destruct (draw_char_shows (cn_cx c) (cn_cy c) ch _ c Hsh) as (m & -> & Hm); [by split|]. cbn [rbind cn_lines cn_cx cn_cy set_mem].
  rewrite (proj1 (set_line_ok c line [] H1 H4 El)). cbn [rbind].
  set (line' := if cn_cx c <? len line then _ else _).
  assert (HL : len line' = Z.max (len line) (cn_cx c + 1) /\ (forall i, 0 <= i -> default 32 (line' !! Z.to_nat i) = if i =? cn_cx c then ch else default 32 (line !! Z.to_nat i))).
  { unfold line'. destruct (Z.ltb_spec (cn_cx c) (len line)) as [Hc|Hc].
    - destruct (cut_at line (cn_cx c) ltac:(lia)) as (pre & post & -> & Epre). rewrite <- Epre in *. destruct post as [|y post]; [rewrite app_nil_r in Hc; lia|].
      rewrite slice_to_mid, slice_from_next. split.
      + rewrite !len_app, !len_cons in *. change (len (@nil Z)) with 0. pose proof (len_nonneg post). lia.
      + intros i Hi. cbn [app]. destruct (Z.eqb_spec i (len pre)) as [->|Hne]; [unfold len; rewrite Nat2Z.id; by rewrite list_lookup_middle|].
        destruct (Z.ltb_spec i (len pre)); [by rewrite !lookup_app_l by (unfold len in *; lia)|]. rewrite !lookup_app_r by (unfold len in *; lia).
        by replace (Z.to_nat i - length pre)%nat with (S (Z.to_nat i - length pre - 1)) by (unfold len in *; lia).
    - rewrite len_snoc. split; [lia|]. intros i Hi. rewrite list_snoc_cell by done. by replace (cn_cx c) with (len line) by lia. }
  destruct HL as [HL Hcell]. rewrite (proj2 (set_line_ok c line line' H1 H4 El)). cbn [rbind].
  pose proof (Forall_lookup_1 _ _ _ _ H2 El) as Hcl. cbv beta in Hcl.
  set (ls := <[Z.to_nat (cn_cy c):=line']> (cn_lines c)).
  assert (K : con_shows (set_cursor (cn_cx c + 1) (cn_cy c) (set_lines ls (set_mem m c)))).
  { refine (shows_ext _ _ _ Hm _). intros i j [Hi Hj]. cbn [cn_lines set_cursor set_lines set_mem]. unfold ls. rewrite cell_insert by (rewrite ?H1; lia). unfold put_cell.
    destruct (Z.eqb_spec j (cn_cy c)) as [->|]; [|by rewrite andb_false_r]. rewrite andb_true_r, Hcell by lia. unfold cell. by rewrite El. }
  assert (Hlen : len ls = rows fb) by (unfold ls, len in *; rewrite length_insert; exact H1).
  assert (Hcols : Forall (fun l => len l <= cols fb) ls) by (apply Forall_insert; [done|lia]).
  assert (Hat : ls !! Z.to_nat (cn_cy c) = Some line') by (apply list_lookup_insert_eq; unfold len in *; lia).
  assert (Hbel : forall j l, cn_cy c < Z.of_nat j -> ls !! j = Some l -> l = []).
  { intros j l Hj. unfold ls. rewrite list_lookup_insert_ne by lia. by apply H6. }
  assert (HF : con_frame (set_cursor (cn_cx c + 1) (cn_cy c) (set_lines ls (set_mem m c)))) by (split; done).
  cbn [cn_cx set_cursor set_lines]. destruct (Z.leb_spec (cols fb) (cn_cx c + 1)) as [Hc|Hc]; [by apply newline_ok|].
  eexists. split; [reflexivity|]. split; [|exact K]. split; [done|cbn [cn_cx set_cursor]; lia|].
  exists line'. cbn [cn_cx cn_lines cn_cy set_cursor set_lines set_mem]. split_and!; [done|lia|]. intros Hst. specialize (Hs Hst). lia.
Qed.

Lemma backspace_ok c : con_ok true c -> con_shows c -> exists c', backspace fb c = Ok c' /\ con_ok true c' /\ con_shows c'.
Proof.
  intros [[H1 H2 Hp H4 H6] H3 (line & El & Hx & Hs)] Hsh. specialize (Hs eq_refl). unfold backspace.
  destruct (Z.ltb_spec 0 (cn_cx c)) as [Hc|Hc]; [|exists c; split; [done|split; [|done]]; split; [split; done|done|by exists line]].
  cbn [cn_cx cn_cy set_cursor].
  destruct (draw_char_shows (cn_cx c - 1) (cn_cy c) 32 (cell (cn_lines c)) (set_cursor (cn_cx c - 1) (cn_cy c) c) Hsh) as (m & -> & Hm); [by split; lia|].
  cbn [rbind cn_lines cn_cx cn_cy set_mem set_cursor].
  destruct line as [|x line' _] using rev_ind; [rewrite Hs in Hc; done|]. rewrite len_snoc in Hs, Hx.
  destruct (set_line_ok c (line' ++ [x]) line' H1 H4 El) as [-> E2]. cbn [rbind]. rewrite slice_to_last, E2. cbn [rbind].
  pose proof (Forall_lookup_1 _ _ _ _ H2 El) as Hcl. cbv beta in Hcl. rewrite len_snoc in Hcl.
  eexists. split; [reflexivity|]. split; [split; [split|..]|]; cbn [cn_lines cn_cx cn_cy set_cursor set_lines set_mem].
  - unfold len in *. by rewrite length_insert.
  - apply Forall_insert; [done|lia].
  - done.
  - done.
  - intros j l Hj. rewrite list_lookup_insert_ne by lia. by apply H6.
  - lia.
  - exists line'. split_and!; [apply list_lookup_insert_eq; unfold len in *; lia|lia|lia].
  - refine (shows_ext _ _ _ Hm _). intros i j [Hi Hj]. cbn [cn_lines set_cursor set_lines set_mem]. rewrite cell_insert by (rewrite ?H1; lia). unfold put_cell.
    destruct (Z.eqb_spec j (cn_cy c)) as [->|]; [|by rewrite andb_false_r]. rewrite andb_true_r. unfold cell. rewrite El.
    rewrite list_snoc_cell by lia. replace (cn_cx c - 1) with (len line') by lia. destruct (Z.eqb_spec i (len line')) as [->|]; [|done].
    by rewrite (proj2 (list.lookup_ge_None _ _)) by (unfold len; lia).
Qed.

Definition quiet (strict : bool) : str -> Prop := Forall (fun ch => if strict then ch <> 13 else ch <> 8).
Lemma write_char_ok (strict : bool) ch c : (if strict then ch <> 13 else ch <> 8) -> con_ok strict c -> con_shows c ->
  exists c', write_char fb ch c = Ok c' /\ con_ok strict c' /\ con_shows c'.
Proof.
  intros Hq Hok Hs. unfold write_char. destruct (Z.eqb_spec ch 10) as [->|]; [apply newline_ok; [apply Hok|done]|].
  destruct (Z.eqb_spec ch 13) as [->|].
  - eexists. split; [reflexivity|]. split; [|exact Hs]. destruct strict; [done|]. destruct Hok as [[H1 H2 Hp H4 H6] H3 (line & El & Hx & _)].
    split; cbn [cn_lines cn_cx cn_cy set_cursor]; [by split|lia|]. exists line. split_and!; [done|apply len_nonneg|done].
  - destruct (Z.eqb_spec ch 8) as [->|]; [|by apply put_char_ok]. destruct strict; [by apply backspace_ok|done].
Qed.
Lemma write_chars_ok strict text c : quiet strict text -> con_ok strict c -> con_shows c ->
  exists c', each text (write_char fb) c = Ok c' /\ con_ok strict c' /\ con_shows c'.
Proof.
  intros Hq. revert c. induction Hq as [|ch text Hch Hq IH]; intros c Hok Hs; cbn [each]; [by exists c|].
  destruct (write_char_ok strict ch c Hch Hok Hs) as (c' & -> & Hok' & Hs'). cbn [rbind]. by apply IH.
Qed.

Definition runs (m : M Log.console unit) : Prop := forall l, exists l', m l = (Ok tt, l').
Lemma runs_then m k : runs m -> runs k -> runs (m ;;; k).
Proof. intros Hm Hk l. destruct (Hm l) as [l1 E]. rewrite (bind_step m _ l tt l1 E). apply Hk. Qed.
Lemma serial_char_runs ch : runs (Log.serial_char ch).
Proof.
  intros l. unfold Log.serial_char, Log.serial_newline, Log.putc, Log.set_col, bind, gets, modify, ret.
  repeat case_match; simplify_eq; by eexists.
Qed.
Lemma serial_raw_runs text : runs (Log.serial_raw text).
Proof. induction text as [|ch text IH]; [intros l; by eexists|]. apply runs_then; [apply serial_char_runs|exact IH]. Qed.
Lemma write_ok (strict : bool) text c : quiet strict text -> con_ok strict c -> con_shows c ->
  exists c', write fb text c = Ok c' /\ con_ok strict c' /\ con_shows c'.
Proof.
  intros Hq [[H1 H2 Hp H4 H6] H3 H5] Hs. unfold write. destruct (serial_raw_runs text (cn_log c)) as [l ->].
  apply (write_chars_ok strict); [done| |exact Hs]. split; [split|..]; done.
Qed.
Lemma init_ok strict fg bg m l : 0 < cols fb -> 0 < rows fb -> con_ok strict (Console_init fb fg bg m l) /\ con_shows (Console_init fb fg bg m l).
Proof.
  intros Hc Hr. split; [split; [split|..]|]; cbn [Console_init cn_lines cn_cx cn_cy].
  - unfold len. rewrite repeat_length. lia.
  - apply Forall_forall. intros x Hx%list_elem_of_In%repeat_spec. subst x. change (len (@nil Z)) with 0. lia.
  - done.
  - lia.
  - intros j line _ Hl. apply list_elem_of_lookup_2, list_elem_of_In, repeat_spec in Hl. done.
  - lia.
  - destruct (Z.to_nat (rows fb)) eqn:E; [lia|]. exists []. by change (len (@nil Z)) with 0.
  - unfold con_shows. eapply shows_ext; [apply (fill_shows (mkCon fg bg 0 0 (repeat [] (Z.to_nat (rows fb))) m l))|].
    intros i j _. cbn [cn_lines Console_init]. unfold cell. destruct (repeat [] (Z.to_nat (rows fb)) !! Z.to_nat j) as [line|] eqn:E; [|done].
    apply list_elem_of_lookup_2, list_elem_of_In, repeat_spec in E. by subst line.
Qed.
End console.

(** ** The document *)

(** The finished lines, and the one being written. *)
Definition doc : Type := list str * str.
Definition doc_lines (d : doc) : list str := d.1 ++ [d.2].
Definition type_char (width : Z) (d : doc) (ch : Z) : doc :=
  let '(hist, cur) := d in
  if ch =? 10 then (hist ++ [cur], [])
  else if ch =? 8 then (hist, take (length cur - 1) cur)
  else if width <=? len (cur ++ [ch]) then (hist ++ [cur ++ [ch]], []) else (hist, cur ++ [ch]).
Definition type_text (width : Z) (text : str) : doc := fold_left (type_char width) text ([], []).
(** The last [n] lines, on a page of [n]. *)
Definition page (n : nat) (ls : list str) : list str := drop (length ls - n) ls ++ repeat [] (n - length ls).

Lemma page_snoc n hist cur : (1 <= n)%nat ->
  page n (hist ++ [cur]) = drop (length hist - (n - 1)) hist ++ cur :: repeat [] (n - 1 - length hist).
Proof.
  intros Hn. unfold page. rewrite length_app. cbn [length].
  replace (length hist + 1 - n)%nat with (length hist - (n - 1))%nat by lia. rewrite drop_app_le by lia.
  rewrite <- app_assoc. cbn [app]. by replace (n - (length hist + 1))%nat with (n - 1 - length hist)%nat by lia.
Qed.
Lemma page_next n hist : (1 <= n)%nat -> (length hist < n)%nat -> page n hist = page n (hist ++ [[]]).
Proof.
  intros Hn Hl. rewrite page_snoc by done. unfold page. replace (length hist - n)%nat with 0%nat by lia.
  replace (length hist - (n - 1))%nat with 0%nat by lia. rewrite !drop_0.
  by replace (n - length hist)%nat with (S (n - 1 - length hist)) by lia.
Qed.
Lemma page_scroll n hist : (1 <= n)%nat -> (n <= length hist)%nat -> drop 1 (page n hist) ++ [[]] = page n (hist ++ [[]]).
Proof.
  intros Hn Hl. rewrite page_snoc by done. unfold page. replace (n - length hist)%nat with 0%nat by lia.
  replace (n - 1 - length hist)%nat with 0%nat by lia. cbn [repeat]. rewrite app_nil_r, drop_drop.
  by replace (length hist - n + 1)%nat with (length hist - (n - 1))%nat by lia.
Qed.

Section console.
Context (fb : Framebuffer).
Implicit Types (c : Console) (d : doc).

(** ** Drawing changes nothing but memory *)

Lemma draw_char_mem col row ch c c' : _draw_char fb col row ch c = Ok c' -> exists m, c' = set_mem m c.
Proof. unfold _draw_char. destruct (fb_draw_char _ _ _ _ _ _ _) as [m|]; [|done]. intros [= <-]. by exists m. Qed.
Lemma set_mem_twice m m' c : set_mem m (set_mem m' c) = set_mem m c.
Proof. done. Qed.
Lemma draw_line_mem line col row c c' : draw_line fb col row line c = Ok c' -> exists m, c' = set_mem m c.
Proof.
  revert col c. induction line as [|ch line IH]; intros col c; cbn [draw_line]; [intros [= <-]; by exists (cn_mem c); destruct c|].
  destruct (_draw_char fb col row ch c) as [c1|] eqn:E; [|done]. apply draw_char_mem in E as [m ->]. intros H. apply IH in H as [m' ->]. by exists m'.
Qed.
Lemma draw_lines_mem lines row c c' : draw_lines fb row lines c = Ok c' -> exists m, c' = set_mem m c.
Proof.
  revert row c. induction lines as [|line lines IH]; intros row c; cbn [draw_lines]; [intros [= <-]; by exists (cn_mem c); destruct c|].
  destruct (draw_line fb 0 row line c) as [c1|] eqn:E; [|done]. apply draw_line_mem in E as [m ->]. intros H. apply IH in H as [m' ->]. by exists m'.
Qed.

(** ** The console follows the document *)

Record follows (fg bg : Z) d c : Prop := {
  fo_lines : cn_lines c = page (Z.to_nat (rows fb)) (doc_lines d);
  fo_cy : cn_cy c = Z.min (len d.1) (rows fb - 1);
  fo_cx : cn_cx c = len d.2;
  fo_fg : cn_fg c = fg;
  fo_bg : cn_bg c = bg;
}.
Lemma newline_follows fg bg hist cur c c' x : 0 < rows fb -> follows fg bg (hist, cur) (set_cursor x (cn_cy c) c) ->
  _newline fb c = Ok c' -> follows fg bg (hist ++ [cur], []) c'.
Proof.
  intros Hr [H1 H2 H3 H4 H5]. cbn [cn_lines cn_cy cn_cx cn_fg cn_bg set_cursor fst snd doc_lines] in *. unfold _newline. cbn [cn_cy set_cursor].
  pose proof (len_nonneg hist). assert (Hn : (1 <= Z.to_nat (rows fb))%nat) by lia.
  destruct (Z.leb_spec (rows fb) (cn_cy c + 1)) as [Hc|Hc].
  - unfold _scroll, _redraw. destruct (draw_lines _ _ _ _) as [c1|] eqn:E; [|done]. apply draw_lines_mem in E as [m ->]. intros [= <-].
    split; cbn [cn_lines cn_cy cn_cx cn_fg cn_bg set_cursor set_lines set_mem fst snd doc_lines]; [|rewrite len_snoc; lia|done..].
    rewrite H1. apply (page_scroll _ (hist ++ [cur])); [done|]. rewrite length_app. cbn [length]. unfold len in *. lia.
  - intros [= <-]. split; cbn [cn_lines cn_cy cn_cx cn_fg cn_bg set_cursor set_lines set_mem fst snd doc_lines]; [|rewrite len_snoc; lia|done..].
    rewrite H1. apply (page_next _ (hist ++ [cur])); [done|]. rewrite length_app. cbn [length]. unfold len in *. lia.
Qed.
(** The current line, in place. *)
Lemma page_line (hist : list str) : 0 < rows fb -> exists pre post, len pre = Z.min (len hist) (rows fb - 1) /\
  forall cur', page (Z.to_nat (rows fb)) (hist ++ [cur']) = pre ++ cur' :: post.
Proof.
  intros Hr. exists (drop (length hist - (Z.to_nat (rows fb) - 1)) hist), (repeat [] (Z.to_nat (rows fb) - 1 - length hist)).
  split; [unfold len; rewrite length_drop; lia|]. intros cur'. apply page_snoc. lia.
Qed.
Lemma put_char_follows fg bg hist cur ch c c' : 0 < rows fb -> follows fg bg (hist, cur) c -> put_char fb ch c = Ok c' ->
  follows fg bg (if cols fb <=? len (cur ++ [ch]) then (hist ++ [cur ++ [ch]], []) else (hist, cur ++ [ch])) c'.
Proof.
  intros Hr [H1 H2 H3 H4 H5]. cbn [fst snd doc_lines] in *. unfold put_char.
  destruct (_draw_char _ _ _ _ _) as [c1|] eqn:E; [|done]. apply draw_char_mem in E as [m ->]. cbn [rbind cn_lines cn_cx cn_cy set_mem].
  destruct (page_line hist Hr) as (pre & post & Hpre & Hpage). change (doc_lines (hist, cur)) with (hist ++ [cur]) in H1.
  rewrite H1, H2, H3, Hpage, <- Hpre, index_mid. cbn [rbind]. rewrite Z.ltb_irrefl, set_index_mid. cbn [rbind cn_cx set_cursor set_lines].
  rewrite <- Hpage, len_snoc.
  assert (HF : follows fg bg (hist, cur ++ [ch]) (set_cursor (len cur + 1) (len pre) (set_lines (page (Z.to_nat (rows fb)) (hist ++ [cur ++ [ch]])) (set_mem m c)))).
  { split; cbn [cn_lines cn_cy cn_cx cn_fg cn_bg set_cursor set_lines set_mem fst snd doc_lines]; [done|done|by rewrite len_snoc|done..]. }
  destruct (cols fb <=? len cur + 1); [|by intros [= <-]]. by apply (newline_follows fg bg hist (cur ++ [ch]) _ _ (len cur + 1)).
Qed.
Lemma backspace_follows fg bg hist cur c c' : 0 < rows fb -> follows fg bg (hist, cur) c -> backspace fb c = Ok c' ->
  follows fg bg (hist, take (length cur - 1) cur) c'.
Proof.
  intros Hr HF. pose proof HF as [H1 H2 H3 H4 H5]. cbn [fst snd] in *. unfold backspace. destruct (Z.ltb_spec 0 (cn_cx c)) as [Hc|Hc].
  2:{ intros [= <-]. pose proof (len_nonneg cur). by rewrite (len_0_nil cur) in HF |- * by lia. }
  destruct cur as [|x cur _] using rev_ind; [change (len (@nil Z)) with 0 in H3; lia|]. rewrite length_app. cbn [length]. rewrite Nat.add_sub, take_app_length.
  destruct (_draw_char _ _ _ _ _) as [c1|] eqn:E; [|done]. apply draw_char_mem in E as [m ->]. cbn [rbind cn_lines cn_cx cn_cy set_mem set_cursor].
  destruct (page_line hist Hr) as (pre & post & Hpre & Hpage). change (doc_lines (hist, cur ++ [x])) with (hist ++ [cur ++ [x]]) in H1.
  rewrite H1, H2, Hpage, <- Hpre, index_mid. cbn [rbind]. rewrite slice_to_last, set_index_mid. cbn [rbind]. rewrite <- Hpage. intros [= <-].
  split; cbn [cn_lines cn_cy cn_cx cn_fg cn_bg set_cursor set_lines set_mem fst snd doc_lines]; [done|done| |done..].
  rewrite H3, len_snoc. lia.
Qed.
Lemma write_char_follows fg bg d ch c c' : 0 < rows fb -> ch <> 13 -> follows fg bg d c -> write_char fb ch c = Ok c' ->
  follows fg bg (type_char (cols fb) d ch) c'.
Proof.
  intros Hr Hch HF. destruct d as [hist cur]. unfold write_char, type_char. destruct (Z.eqb_spec ch 10) as [->|].
  - apply (newline_follows fg bg hist cur c c' (len cur)); [done|]. by destruct c, HF.
  - destruct (Z.eqb_spec ch 13); [done|]. destruct (Z.eqb_spec ch 8); [by apply backspace_follows|by apply put_char_follows].
Qed.
Lemma write_follows fg bg d text c c' : 0 < rows fb -> Forall (fun ch => ch <> 13) text -> follows fg bg d c -> write fb text c = Ok c' ->
  follows fg bg (fold_left (type_char (cols fb)) text d) c'.
Proof.
  intros Hr Hq HF. unfold write. destruct (Log.serial_raw text (cn_log c)) as [[u|e] l]; [|done].
  assert (HF' : follows fg bg d (set_log l c)) by (destruct HF; by split). clear HF. revert d HF'. generalize (set_log l c). clear c.
  induction Hq as [|ch text Hch Hq IH]; intros c d HF; cbn [each fold_left]; [by intros [= <-]|].
  destruct (write_char fb ch c) as [c1|] eqn:E; [|done]. cbn [rbind]. apply IH. by apply (write_char_follows fg bg d ch c).
Qed.
Lemma init_follows fg bg m l : 0 < rows fb -> follows fg bg ([], []) (Console_init fb fg bg m l).
Proof.
  intros Hr. split; cbn [Console_init cn_lines cn_cx cn_cy cn_fg cn_bg fst snd doc_lines app]; [|change (len (@nil str)) with 0; lia|done..].
  unfold page. cbn [length]. replace (1 - Z.to_nat (rows fb))%nat with 0%nat by lia. rewrite drop_0.
  by replace (Z.to_nat (rows fb)) with (S (Z.to_nat (rows fb) - 1)) at 1 by lia.
Qed.
End console.

(** C30: the console is a typewriter with its last lines in view. On a
    framebuffer of 32 bits a pixel, whose lines hold at least its width and
    which has room for a character, text written to a fresh console (any text
    without carriage returns, any number of [write]s' worth of it) never
    raises, whatever its length; and every pixel of the screen is then what a
    page with the last lines of the document shows, the document being the text
    broken at line feeds and at the right margin, with a backspace taking back
    a character of the line it is in. The cursor is behind the last character.
    *)
Theorem console_shows_last_lines (fb : Framebuffer) (fg bg : Z) (m : mem) (l : Log.console) (text : str)
    (H32 : fb_bpp fb = 32) (Hpitch : fb_w fb * 4 <= fb_pitch fb) (Hc : 0 < cols fb) (Hr : 0 < rows fb) (Hq : Forall (fun ch => ch <> 13) text) :
  let d := type_text (cols fb) text in
  let lines := page (Z.to_nat (rows fb)) (doc_lines d) in
  exists c, write fb text (Console_init fb fg bg m l) = Ok c /\
    (forall x y, onscreen fb x y -> pix fb (cn_mem c) x y = picture fb fg bg (cell lines) x y) /\
    cn_lines c = lines /\ cn_cx c = len d.2 /\ cn_cy c = Z.min (len d.1) (rows fb - 1).
Proof.
  assert (0 <= fb_w fb /\ 0 <= fb_h fb) as [Hw Hh].
  { unfold cols, rows, MARGIN, GLYPH_W, GLYPH_H in *. pose proof (Z.mul_div_le (fb_w fb - 4 * 2) 8). pose proof (Z.mul_div_le (fb_h fb - 4 * 2) 8). lia. }
  destruct (init_ok fb H32 Hpitch Hw Hh true fg bg m l Hc Hr) as [Hok Hs].
  destruct (write_ok fb H32 Hpitch Hw Hh true text _ Hq Hok Hs) as (c & E & Hok' & Hs').
  destruct (write_follows fb fg bg ([], []) text _ _ Hr Hq (init_follows fb fg bg m l Hr) E) as [H1 H2 H3 H4 H5].
  exists c. split_and!; [done| |done..]. intros x y Ho. rewrite (Hs' x y Ho), H4, H5, H1. done.
Qed.

(** ** Witness, and what a carriage return does *)

(** A screen of 7 columns and 5 rows, with padded lines. *)
Definition small_fb : Framebuffer := mkFb 4096 300 64 48 32.
Definition small_console : Console := Console_init small_fb GREEN DARK (fun _ => 0) (Log.mkConsole 0 []).
Definition long_text : str := lit "hello, world" ++ [8; 8] ++ lit "LD" ++ [10; 10] ++ lit "one" ++ [10] ++ lit "two" ++ [10] ++ lit "three" ++ [10].

Lemma console_shows_last_lines_witness :
  fb_bpp small_fb = 32 /\ 0 < cols small_fb /\ Forall (fun ch => ch <> 13) long_text /\
  page (Z.to_nat (rows small_fb)) (doc_lines (type_text (cols small_fb) long_text)) = [[]; lit "one"; lit "two"; lit "three"; []] /\
  exists c, write small_fb long_text small_console = Ok c /\
    (forall x y, onscreen small_fb x y -> pix small_fb (cn_mem c) x y = picture small_fb GREEN DARK (cell [[]; lit "one"; lit "two"; lit "three"; []]) x y) /\
    cn_cx c = 0 /\ cn_cy c = 4.
Proof.
  split; [done|]. split; [done|]. assert (Hq : Forall (fun ch => ch <> 13) long_text) by (apply (bool_decide_unpack _); by vm_compute). split; [exact Hq|].
  assert (Ed : type_text (cols small_fb) long_text = ([lit "hello, "; lit "worLD"; []; lit "one"; lit "two"; lit "three"], [])) by (by vm_compute).
  rewrite Ed. split; [by vm_compute|].
  pose proof (console_shows_last_lines small_fb GREEN DARK (fun _ => 0) (Log.mkConsole 0 []) long_text eq_refl ltac:(by vm_compute) ltac:(done) ltac:(done) Hq) as H.
  rewrite Ed in H. destruct H as (c & E & Hp & _ & H1 & H2). exists c. split; [exact E|]. split; [exact Hp|]. split; [exact H1|exact H2].
Defined.

(** After a carriage return, a backspace blanks the character at the cursor
    but forgets the last one of the line: the screen shows [ bc], the stored
    line is [xb], and the next redraw shows that instead (a pixel of the [c]
    before and after). *)
Example backspace_after_cr :
  (let? c := write small_fb (lit "abc" ++ [13] ++ lit "x" ++ [8]) small_console in
   let? c' := _redraw small_fb c in
   Ok (cn_lines c !! 0%nat, pix small_fb (cn_mem c) 23 6, pix small_fb (cn_mem c') 23 6)) = Ok (Some (lit "xb"), GREEN, DARK).
Proof. vm_compute. reflexivity. Qed.

(** With 24 bits per pixel a pixel is three bytes, but the primitive writes
    four: putting a pixel clears a byte of the one to its right. *)
Definition fb24 : Framebuffer := mkFb 0 30 10 4 24.
Example put_pixel_24 :
  (let? m := fb_put_pixel fb24 1 0 WHITE (fun _ => 0) in
   let? m := fb_put_pixel fb24 0 0 WHITE m in Ok (map m [0; 1; 2; 3; 4; 5; 6])) = Ok [255; 255; 255; 0; 255; 255; 0].
Proof. vm_compute. reflexivity. Qed.
