(* ===== verification/Chipset.v ===== *)
(** * The chipset (kernel/chipset/)

    A software display in the manner of an old home computer: two playfields
    (bitmaps), sprites, a display list that changes registers from line to line
    (the copper), a blitter, and the raster that composes a frame from them, by
    itself or through the extension's [chipset_raster32] ([src/hal/hal.c]).
    Register names are ASCII strings; the sound mixer, which computes in floats,
    is not here.

    After the definitions: frame by frame, line by line, [chipset_raster32]
    composes what the loops of raster.py compose, for any view whose bitmaps
    have the size they say, except for plain views, which a shortcut of
    raster.py copies. *)

From Stdlib Require Import ZArith Lia.
From stdpp Require Import base list numbers strings.
From S2P Require Import Prelude Bytes Pystr.

Local Open Scope Z_scope.

(** ** Playfields (playfield.py) *)

Definition pack_bgrx (color : Z) : bytes :=
  let r := Z.land (Z.shiftr color 16) 0xFF in
  let g := Z.land (Z.shiftr color 8) 0xFF in
  let b := Z.land color 0xFF in
  [b; g; r; 0xFF].
Definition unpack_bgrx (buf : bytes) (offset : Z) : result Z :=
  let? b := index buf offset in
  let? g := index buf (offset + 1) in
  let? r := index buf (offset + 2) in
  Ok (Z.lor (Z.lor (Z.shiftl r 16) (Z.shiftl g 8)) b).

(** [pf_indexed]: the mode is [MODE_INDEXED]. *)
Record Playfield : Type := mkPlayfield {
  pf_width : Z; pf_height : Z; pf_indexed : bool; pf_scroll_x : Z; pf_scroll_y : Z; pf_pixels : bytes;
}.
Definition pf_put (px : bytes) (p : Playfield) : Playfield :=
  mkPlayfield (pf_width p) (pf_height p) (pf_indexed p) (pf_scroll_x p) (pf_scroll_y p) px.
Definition Playfield_init (width height : Z) (indexed : bool) : result Playfield :=
  if (width <=? 0) || (height <=? 0) then Err ValueError
  else Ok (mkPlayfield width height indexed 0 0 (zeros (if indexed then width * height else width * height * 4))).
Definition _bounded (p : Playfield) (x y : Z) : bool := (0 <=? x) && (x <? pf_width p) && (0 <=? y) && (y <? pf_height p).
Definition put (x y color : Z) (p : Playfield) : result Playfield :=
  if negb (_bounded p x y) then Ok p
  else if pf_indexed p then let? px := set_index (pf_pixels p) (y * pf_width p + x) (Z.land color 0xFF) in Ok (pf_put px p)
  else let o := (y * pf_width p + x) * 4 in Ok (pf_put (slice_assign (pf_pixels p) o (o + 4) (pack_bgrx color)) p).
Definition pget (p : Playfield) (x y : Z) : result Z :=
  if negb (_bounded p x y) then Ok 0
  else if pf_indexed p then index (pf_pixels p) (y * pf_width p + x)
  else unpack_bgrx (pf_pixels p) ((y * pf_width p + x) * 4).
Definition sample (p : Playfield) (x y : Z) : result Z :=
  if (pf_width p =? 0) || (pf_height p =? 0) then Err ZeroDivisionError
  else pget p ((x + pf_scroll_x p) mod pf_width p) ((y + pf_scroll_y p) mod pf_height p).
Definition pfill (color : Z) (p : Playfield) : Playfield :=
  if pf_indexed p then pf_put (replicate (Z.to_nat (pf_width p * pf_height p)) (Z.land color 0xFF)) p
  else pf_put (concat (replicate (Z.to_nat (pf_width p * pf_height p)) (pack_bgrx color))) p.

(** ** Sprites (sprite.py) *)

Record Sprite : Type := mkSprite {
  sp_x : Z; sp_y : Z; sp_w : Z; sp_h : Z; sp_enabled : bool; sp_key_color : Z; sp_pixels : bytes; sp_indexed : bool;
}.
Definition Sprite_init : Sprite := mkSprite 0 0 0 0 false 0 [] true.
(** The geometry is set also when the pixels are refused. *)
Definition place (data : bytes) (w h x y key_color : Z) (s : Sprite) : result unit * Sprite :=
  if len data =? w * h then (Ok tt, mkSprite x y w h true key_color data true)
  else if len data =? w * h * 4 then (Ok tt, mkSprite x y w h true key_color data false)
  else (Err ValueError, mkSprite x y w h true key_color (sp_pixels s) (sp_indexed s)).
Definition pixel_at (s : Sprite) (px py : Z) (palette : option (list Z)) : result (option Z) :=
  if negb (sp_enabled s) || (sp_w s <=? 0) then Ok None
  else
    let lx := px - sp_x s in
    let ly := py - sp_y s in
    if (lx <? 0) || (ly <? 0) || (sp_w s <=? lx) || (sp_h s <=? ly) then Ok None
    else if sp_indexed s then
      let? idx := index (sp_pixels s) (ly * sp_w s + lx) in
      if idx =? Z.land (sp_key_color s) 0xFF then Ok None
      else match palette with
           | None => Ok (Some idx)
           | Some pal => if (0 <=? idx) && (idx <? len pal) then let? c := index pal idx in Ok (Some (Z.land c 0xFFFFFF)) else Ok (Some 0)
           end
    else
      let? color := unpack_bgrx (sp_pixels s) ((ly * sp_w s + lx) * 4) in
      if color =? Z.land (sp_key_color s) 0xFFFFFF then Ok None else Ok (Some color).

(** ** The copper and the view (copper.py, view.py) *)

(** [c_warnings]: the register each warning names. *)
Inductive instruction : Type := Wait (line : Z) | Move (reg : str) (value : Z).
Record Copper : Type := mkCopper { c_instructions : list instruction; c_warnings : list str; c_pc : Z }.
Definition Copper_init : Copper := mkCopper [] [] 0.

Record View : Type := mkView {
  w_width : Z; w_height : Z; w_indexed : bool; w_scale : Z; w_pf0 : Playfield; w_pf1 : Playfield; w_sprites : list Sprite;
  w_copper : Copper; w_palette : list Z; w_bplcon : Z; w_key_color : Z; w_diw_start : Z; w_diw_stop : Z;
}.
Definition View_init (width height : Z) (indexed : bool) (scale : Z) : result View :=
  if (width <=? 0) || (height <=? 0) then Err ValueError
  else
    let? pf0 := Playfield_init width height indexed in
    let? pf1 := Playfield_init width height indexed in
    Ok (mkView width height indexed (Z.max 1 scale) pf0 pf1 (replicate 8 Sprite_init) Copper_init (zeros 32) 0 0 0 (height - 1)).
Definition set_copper (c : Copper) (v : View) : View :=
  mkView (w_width v) (w_height v) (w_indexed v) (w_scale v) (w_pf0 v) (w_pf1 v) (w_sprites v) c (w_palette v) (w_bplcon v) (w_key_color v) (w_diw_start v) (w_diw_stop v).
Definition set_palette (l : list Z) (v : View) : View :=
  mkView (w_width v) (w_height v) (w_indexed v) (w_scale v) (w_pf0 v) (w_pf1 v) (w_sprites v) (w_copper v) l (w_bplcon v) (w_key_color v) (w_diw_start v) (w_diw_stop v).
Definition set_regs (bplcon key start stop : Z) (v : View) : View :=
  mkView (w_width v) (w_height v) (w_indexed v) (w_scale v) (w_pf0 v) (w_pf1 v) (w_sprites v) (w_copper v) (w_palette v) bplcon key start stop.

Definition upper (s : str) : str := map (fun c => if (97 <=? c) && (c <=? 122) then c - 32 else c) s.
Definition all_digits (s : str) : bool := match s with [] => false | _ => forallb is_digit s end.
(** [int] of digits. *)
Definition digits_val (s : str) : Z := match int_digits 0 s with Ok n => n | Err _ => 0 end.
Definition color_index (name : str) : option Z :=
  if startswith name (lit "COLOR") && all_digits (slice_from name 5) then
    let idx := digits_val (slice_from name 5) in if (0 <=? idx) && (idx <? 32) then Some idx else None
  else None.
Definition _apply_move (reg : str) (value : Z) (v : View) : result View :=
  let name := upper reg in
  match color_index name with
  | Some idx => let? l := set_index (w_palette v) idx (Z.land value 0xFFFFFF) in Ok (set_palette l v)
  | None =>
      if beq name (lit "BPLCON") then Ok (set_regs value (w_key_color v) (w_diw_start v) (w_diw_stop v) v)
      else if beq name (lit "KEY_COLOR") then Ok (set_regs (w_bplcon v) value (w_diw_start v) (w_diw_stop v) v)
      else if beq name (lit "DIWSTART") then Ok (set_regs (w_bplcon v) (w_key_color v) value (w_diw_stop v) v)
      else if beq name (lit "DIWSTOP") then Ok (set_regs (w_bplcon v) (w_key_color v) (w_diw_start v) value v)
      else Ok (set_copper (mkCopper (c_instructions (w_copper v)) (c_warnings (w_copper v) ++ [reg]) (c_pc (w_copper v))) v)
  end.
Definition reset_pc (v : View) : View := set_copper (mkCopper (c_instructions (w_copper v)) (c_warnings (w_copper v)) 0) v.
(** The instructions from the program counter on, up to a wait for a later
    line; the view and how many were passed. *)
Fixpoint run_copper (ins : list instruction) (y : Z) (v : View) (n : Z) : result (View * Z) :=
  match ins with
  | [] => Ok (v, n)
  | Wait line :: ins' => if y <? line then Ok (v, n) else run_copper ins' y v (n + 1)
  | Move reg value :: ins' => let? v := _apply_move reg value v in run_copper ins' y v (n + 1)
  end.
Definition apply_line (y : Z) (v : View) : result View :=
  let? (v', n) := run_copper (slice_from (c_instructions (w_copper v)) (c_pc (w_copper v))) y v (c_pc (w_copper v)) in
  Ok (set_copper (mkCopper (c_instructions (w_copper v')) (c_warnings (w_copper v')) n) v').

(** ** The blitter (blitter.py)

    Pixels in rows, as the loops of the code visit them; the destination of
    [copy] and [cookie] may be their source. *)

Fixpoint each_pixel (l : list (Z * Z)) (f : Z -> Z -> Playfield -> result Playfield) (p : Playfield) : result Playfield :=
  match l with
  | [] => Ok p
  | (x, y) :: l => let? p := f x y p in each_pixel l f p
  end.
Definition pixels_of (x1 x2 y1 y2 : Z) : list (Z * Z) := concat (map (fun y => map (fun x => (x, y)) (range2 x1 x2)) (range2 y1 y2)).
Definition fill (x y w h color : Z) (dest : Playfield) : result Playfield :=
  let x1 := Z.max 0 x in
  let y1 := Z.max 0 y in
  let x2 := Z.min (pf_width dest) (x + w) in
  let y2 := Z.min (pf_height dest) (y + h) in
  each_pixel (pixels_of x1 x2 y1 y2) (fun px py => put px py color) dest.
(** [None]: the source is the destination. *)
Definition source (src : option Playfield) (dest : Playfield) : Playfield := match src with Some p => p | None => dest end.
Definition copy (src : option Playfield) (sx sy dx dy w h : Z) (dest : Playfield) : result Playfield :=
  each_pixel (pixels_of 0 w 0 h) (fun i j dest => let? c := pget (source src dest) (sx + i) (sy + j) in put (dx + i) (dy + j) c dest) dest.
Definition cookie (src mask : option Playfield) (sx sy dx dy w h : Z) (dest : Playfield) : result Playfield :=
  each_pixel (pixels_of 0 w 0 h)
    (fun i j dest =>
       let? m := pget (source mask dest) (sx + i) (sy + j) in
       if m =? 0 then Ok dest
       else let? c := pget (source src dest) (sx + i) (sy + j) in put (dx + i) (dy + j) c dest) dest.

(** ** The raster (raster.py) *)

Definition BPLCON_PF1_KEY : Z := 1.
Definition _palette (v : View) (i : Z) : result Z :=
  if (0 <=? i) && (i <? 32) then let? c := index (w_palette v) i in Ok (Z.land c 0xFFFFFF) else Ok 0.
Definition _fill_dest (dest : bytes) (color : Z) : bytes := concat (replicate (length dest / 4) (pack_bgrx color)).
Definition layer (v : View) (p : Playfield) (c : Z) : result Z := if pf_indexed p then _palette v c else Ok c.
(** The first sprite that has a colour at the pixel. *)
Fixpoint first_sprite (l : list Sprite) (px py : Z) (palette : option (list Z)) : result (option Z) :=
  match l with
  | [] => Ok None
  | s :: l => let? o := pixel_at s px py palette in match o with Some c => Ok (Some c) | None => first_sprite l px py palette end
  end.
Definition _sample (v : View) (px py : Z) : result Z :=
  let? c0 := sample (w_pf0 v) px py in
  let? color := layer v (w_pf0 v) c0 in
  let? c1 := sample (w_pf1 v) px py in
  let hidden :=
    if negb (Z.land (w_bplcon v) BPLCON_PF1_KEY =? 0)
    then c1 =? (if pf_indexed (w_pf1 v) then Z.land (w_key_color v) 0xFF else Z.land (w_key_color v) 0xFFFFFF)
    else c1 =? 0 in
  let? color := (if hidden then Ok color else layer v (w_pf1 v) c1) in
  let? s := first_sprite (w_sprites v) px py (if w_indexed v then Some (w_palette v) else None) in
  Ok (match s with Some c => c | None => color end).

(** [_put_block]: a square of [scale] pixels, clipped. *)
Definition _put_block (dest_w dest_h x y scale color : Z) (dest : bytes) : bytes :=
  fold_left (fun dest dy =>
    if (dy <? 0) || (dest_h <=? dy) then dest
    else fold_left (fun dest dx =>
           if (0 <=? dx) && (dx <? dest_w) then let o := (dy * dest_w + dx) * 4 in slice_assign dest o (o + 4) (pack_bgrx color) else dest)
           (range2 x (x + scale)) dest)
    (range2 y (y + scale)) dest.

(** What the extension gets of a line: palette, registers, and whether it is
    inside the display window. *)
Definition row_state : Type := list Z * Z * Z * bool.
Definition window_stop (v : View) : Z := if 0 <=? w_diw_stop v then w_diw_stop v else w_height v - 1.
Fixpoint collect_rows (lines : list Z) (diw0 diw1 : Z) (v : View) : result (View * list row_state) :=
  match lines with
  | [] => Ok (v, [])
  | py :: lines =>
      let? v := apply_line py v in
      let? (v', rows) := collect_rows lines diw0 diw1 v in
      Ok (v', (w_palette v, w_bplcon v, w_key_color v, (diw0 <=? py) && (py <=? diw1)) :: rows)
  end.

(** [chipset_raster32] of hal.c.  A C [int] from a Python integer; sums and
    differences of two of them are not cut to 32 bits here, as an overflow of
    theirs is undefined in C. *)
Definition c_int (v : Z) : Z :=
  if (- 2 ^ 63 <=? v) && (v <? 2 ^ 63) then (v + 2 ^ 31) mod 2 ^ 32 - 2 ^ 31 else 0.
Definition c_color (v : Z) : Z := if (0 <=? v) && (v <? 2 ^ 64) then v mod 2 ^ 24 else 0xFFFFFF.
(** [(x + scroll) % n], made positive. *)
Definition c_wrap (x n : Z) : Z := let r := Z.rem x n in if r <? 0 then r + n else r.
Definition c_word (l : bytes) (i : Z) : Z := Z.land (le_val (take 4 (drop (Z.to_nat (i * 4)) l))) 0xFFFFFF.
Definition c_raw (indexed : bool) (l : bytes) (i : Z) : Z := if indexed then nth (Z.to_nat i) l 0 else c_word l i.
Definition c_palette (pal : list Z) (i : Z) : Z := if i <? 32 then nth (Z.to_nat i) (map c_color pal) 0 else 0.
Definition c_field (p : Playfield) (width height x y : Z) : Z :=
  c_raw (pf_indexed p) (pf_pixels p) (c_wrap (y + c_int (pf_scroll_y p)) height * width + c_wrap (x + c_int (pf_scroll_x p)) width).
Definition c_layer (p : Playfield) (pal : list Z) (raw : Z) : Z := if pf_indexed p then c_palette pal raw else raw.
Definition c_enabled (s : Sprite) : bool :=
  sp_enabled s && negb (len (sp_pixels s) <? c_int (sp_w s) * c_int (sp_h s) * (if sp_indexed s then 1 else 4)).
Fixpoint c_sprites (l : list Sprite) (view_indexed : bool) (pal : list Z) (x y color : Z) : Z :=
  match l with
  | [] => color
  | s :: l =>
      let sx := x - c_int (sp_x s) in
      let sy := y - c_int (sp_y s) in
      if negb (c_enabled s) || (sx <? 0) || (sy <? 0) || (c_int (sp_w s) <=? sx) || (c_int (sp_h s) <=? sy) then c_sprites l view_indexed pal x y color
      else
        let raw := c_raw (sp_indexed s) (sp_pixels s) (sy * c_int (sp_w s) + sx) in
        if raw =? Z.land (c_int (sp_key_color s)) (if sp_indexed s then 0xFF else 0xFFFFFF) then c_sprites l view_indexed pal x y color
        else if sp_indexed s && view_indexed then c_palette pal raw else raw
  end.
Definition c_pixel (pf0 pf1 : Playfield) (width height : Z) (row : row_state) (sprites : list Sprite) (view_indexed : bool) (x y : Z) : Z :=
  let '(pal, bplcon, key, visible) := row in
  if negb visible then 0
  else
    let color := c_layer pf0 pal (c_field pf0 width height x y) in
    let p1raw := c_field pf1 width height x y in
    let hidden :=
      if negb (Z.land (c_int bplcon) 1 =? 0) then p1raw =? Z.land (c_int key) (if pf_indexed pf1 then 0xFF else 0xFFFFFF) else p1raw =? 0 in
    let color := if hidden then color else c_layer pf1 pal p1raw in
    c_sprites (take 8 sprites) view_indexed pal x y color.
Definition chipset_raster32 (dest : bytes) (pf0 pf1 : Playfield) (rows : list row_state) (sprites : list Sprite) (view_indexed : bool) : result bytes :=
  let width := c_int (pf_width pf0) in
  let height := c_int (pf_height pf0) in
  if (width <=? 0) || (height <=? 0) || (len dest <? width * height * 4) then Err ValueError
  else if (len (pf_pixels pf0) <? width * height * (if pf_indexed pf0 then 1 else 4))
          || (len (pf_pixels pf1) <? width * height * (if pf_indexed pf1 then 1 else 4)) || (len rows <? height) then Err ValueError
  else
    Ok (concat (map (fun '(y, row) =>
                  concat (map (fun x => le_bytes 4 (Z.lor (c_pixel pf0 pf1 width height row sprites view_indexed x y) 0xFF000000)) (range width)))
                  (combine (range height) rows))
        ++ drop (Z.to_nat (width * height * 4)) dest).

(** The lines of the software raster. *)
Fixpoint draw_row (v : View) (dest_w dest_h ox oy scale py : Z) (xs : list Z) (dest : bytes) : result bytes :=
  match xs with
  | [] => Ok dest
  | px :: xs =>
      let? color := _sample v px py in
      draw_row v dest_w dest_h ox oy scale py xs (_put_block dest_w dest_h (ox + px * scale) (oy + py * scale) scale color dest)
  end.
Fixpoint draw_rows (lines : list Z) (dest_w dest_h ox oy scale diw0 diw1 : Z) (v : View) (dest : bytes) : result (View * bytes) :=
  match lines with
  | [] => Ok (v, dest)
  | py :: lines =>
      let? v := apply_line py v in
      let? dest := (if (py <? diw0) || (diw1 <? py) then Ok dest else draw_row v dest_w dest_h ox oy scale py (range (w_width v)) dest) in
      draw_rows lines dest_w dest_h ox oy scale diw0 diw1 v dest
  end.
Definition soft_raster (dest_w dest_h scale : Z) (v : View) (dest : bytes) : result (View * bytes) :=
  let dest := _fill_dest dest 0 in
  let ox := (dest_w - w_width v * scale) / 2 in
  let oy := (dest_h - w_height v * scale) / 2 in
  let v := reset_pc v in
  draw_rows (range (w_height v)) dest_w dest_h ox oy scale (w_diw_start v) (if w_diw_stop v <? 0 then w_height v - 1 else w_diw_stop v) v dest.
Definition fast_path (dest_w dest_h scale : Z) (v : View) (dest : bytes) : bool :=
  negb (w_indexed v) && (scale =? 1) && (dest_w =? w_width v) && (dest_h =? w_height v) && negb (existsb sp_enabled (w_sprites v))
  && (len (c_instructions (w_copper v)) =? 0) && (w_bplcon v =? 0) && (w_diw_start v <=? 0) && (w_height v - 1 <=? w_diw_stop v)
  && (len (pf_pixels (w_pf0 v)) =? len dest).
(** [native]: the extension has [chipset_raster32]. *)
Definition raster_view (native : bool) (dest_w dest_h : Z) (scale_override : option Z) (v : option View) (dest : bytes) : result (option View * bytes) :=
  match v with
  | None => Ok (None, _fill_dest dest 0)
  | Some v =>
      let scale := Z.max 1 (match scale_override with None => w_scale v | Some s => s end) in
      if native && (scale =? 1) && (dest_w =? w_width v) && (dest_h =? w_height v) then
        let? (v', rows) := collect_rows (range (w_height v)) (w_diw_start v) (window_stop v) (reset_pc v) in
        let? dest := chipset_raster32 dest (w_pf0 v') (w_pf1 v') rows (w_sprites v') (w_indexed v') in
        Ok (Some v', dest)
      else if fast_path dest_w dest_h scale v dest then Ok (Some v, pf_pixels (w_pf0 v))
      else let? (v, dest) := soft_raster dest_w dest_h scale v dest in Ok (Some v, dest)
  end.

(** ** Views whose parts fit together *)

Definition small (v : Z) : Prop := - 2 ^ 30 <= v <= 2 ^ 30.
Definition word64 (v : Z) : Prop := - 2 ^ 63 <= v < 2 ^ 63.
Definition depth (indexed : bool) : Z := if indexed then 1 else 4.

Record field_ok (w h : Z) (p : Playfield) : Prop := {
  fk_width : pf_width p = w;
  fk_height : pf_height p = h;
  fk_scroll : small (pf_scroll_x p) /\ small (pf_scroll_y p);
  fk_len : len (pf_pixels p) = w * h * depth (pf_indexed p);
  fk_bytes : bytes_ok (pf_pixels p);
}.
Record sprite_ok (s : Sprite) : Prop := {
  sk_pos : small (sp_x s) /\ small (sp_y s);
  sk_size : 0 <= sp_w s <= 16384 /\ 0 <= sp_h s <= 16384;
  sk_key : word64 (sp_key_color s);
  sk_len : sp_w s * sp_h s * depth (sp_indexed s) <= len (sp_pixels s);
  sk_bytes : bytes_ok (sp_pixels s);
}.
Definition instruction_ok (i : instruction) : Prop := match i with Wait _ => True | Move _ value => word64 value end.
(** The registers, which the copper writes, and the rest, which it does not. *)
Record regs_ok (v : View) : Prop := {
  rk_palette : length (w_palette v) = 32%nat;
  rk_colors : Forall (fun c => 0 <= c < 2 ^ 64) (w_palette v);
  rk_regs : word64 (w_bplcon v) /\ word64 (w_key_color v);
  rk_copper : Forall instruction_ok (c_instructions (w_copper v)) /\ 0 <= c_pc (w_copper v);
}.
Record view_ok (v : View) : Prop := {
  vk_size : 0 < w_width v <= 16384 /\ 0 < w_height v <= 16384;
  vk_pf0 : field_ok (w_width v) (w_height v) (w_pf0 v);
  vk_pf1 : field_ok (w_width v) (w_height v) (w_pf1 v);
  vk_sprites : (length (w_sprites v) <= 8)%nat /\ Forall sprite_ok (w_sprites v);
  vk_regs : regs_ok v;
}.
(** What no line changes. *)
Definition bitmaps (v : View) : Z * Z * bool * Playfield * Playfield * list Sprite :=
  (w_width v, w_height v, w_indexed v, w_pf0 v, w_pf1 v, w_sprites v).
Lemma view_ok_same v v' : view_ok v -> bitmaps v' = bitmaps v -> regs_ok v' -> view_ok v'.
Proof. intros [H1 H2 H3 H4 H5] E Hr. unfold bitmaps in E. injection E as E1 E2 E3 E4 E5 E6. split; rewrite ?E1, ?E2, ?E4, ?E5, ?E6; done. Qed.

(** ** Integers *)

Lemma c_int_small v : - 2 ^ 31 <= v < 2 ^ 31 -> c_int v = v.
Proof. intros Hv. unfold c_int. replace ((- 2 ^ 63 <=? v) && (v <? 2 ^ 63)) with true by lia. rewrite Z.mod_small by lia. lia. Qed.
(** The masks look at the low bits, which the conversion keeps. *)
Lemma c_int_land v k : word64 v -> 0 <= k <= 32 -> Z.land (c_int v) (2 ^ k - 1) = Z.land v (2 ^ k - 1).
Proof.
  intros Hv Hk. unfold word64 in Hv. unfold c_int. replace ((- 2 ^ 63 <=? v) && (v <? 2 ^ 63)) with true by lia.
  rewrite !land_mask by lia. assert (E : 2 ^ 32 = 2 ^ (32 - k) * 2 ^ k) by (rewrite <- Z.pow_add_r by lia; f_equal; lia).
  pose proof (Z.div_mod (v + 2 ^ 31) (2 ^ 32) ltac:(lia)). assert (0 < 2 ^ k) by lia.
  replace ((v + 2 ^ 31) mod 2 ^ 32 - 2 ^ 31) with (v + - ((v + 2 ^ 31) / 2 ^ 32 * 2 ^ (32 - k)) * 2 ^ k) by (rewrite E in *; lia).
  apply Z.mod_add. lia.
Qed.
Lemma c_wrap_mod x n : 0 < n -> c_wrap x n = x mod n.
Proof.
  intros Hn. unfold c_wrap. pose proof (Z.quot_rem x n ltac:(lia)) as Hq. pose proof (Z.rem_bound_abs x n ltac:(lia)). pose proof (Z.div_mod x n ltac:(lia)). pose proof (Z.mod_pos_bound x n Hn).
  destruct (Z.ltb_spec (Z.rem x n) 0).
  - apply (Z.mod_unique x n (Z.quot x n - 1)); lia.
  - apply (Z.mod_unique x n (Z.quot x n)); lia.
Qed.
Lemma c_color_land c : 0 <= c < 2 ^ 64 -> c_color c = Z.land c 0xFFFFFF.
Proof. intros Hc. unfold c_color. replace ((0 <=? c) && (c <? 2 ^ 64)) with true by lia. change 0xFFFFFF with (2 ^ 24 - 1). by rewrite land_mask by lia. Qed.

(** ** Colours in memory *)

Lemma index_nth (l : bytes) i : 0 <= i < len l -> index l i = Ok (nth (Z.to_nat i) l 0).
Proof. intros Hi. apply index_Ok; [lia|]. rewrite nth_lookup. destruct (lookup_lt_is_Some_2 l (Z.to_nat i)) as [b Hb]; [unfold len in *; lia|]. by rewrite Hb. Qed.
Lemma nth_byte_ok (l : bytes) i : bytes_ok l -> 0 <= nth i l 0 < 256.
Proof. intros Hl. rewrite nth_lookup. destruct (l !! i) as [b|] eqn:E; [|done]. cbn. eapply list.Forall_lookup in Hl; [|exact E]. exact Hl. Qed.
Lemma word_bytes (l : bytes) i : bytes_ok l -> 0 <= i -> i * 4 + 4 <= len l ->
  c_word l i = nth (Z.to_nat (i * 4)) l 0 + 256 * nth (Z.to_nat (i * 4 + 1)) l 0 + 65536 * nth (Z.to_nat (i * 4 + 2)) l 0.
Proof.
  intros Hl Hi Hn. unfold c_word. set (k := Z.to_nat (i * 4)). assert (Hk : (k + 4 <= length l)%nat) by (unfold k, len in *; lia).
  replace (Z.to_nat (i * 4 + 1)) with (k + 1)%nat by lia. replace (Z.to_nat (i * 4 + 2)) with (k + 2)%nat by lia.
  rewrite <- (Nat.add_0_r k) at 2. assert (Hd : forall j, nth (k + j) l 0 = nth j (drop k l) 0) by (intros j; rewrite !nth_lookup, lookup_drop; done).
  rewrite !Hd. assert (Hb : bytes_ok (drop k l)) by (by apply bytes_ok_drop). assert (Hlen : (4 <= length (drop k l))%nat) by (rewrite length_drop; lia).
  destruct (drop k l) as [|b0 [|b1 [|b2 [|b3 m]]]]; cbn [length] in Hlen; try lia. cbn [take le_val nth].
  repeat (apply list.Forall_cons in Hb as [? Hb]). unfold byte_ok in *. change 0xFFFFFF with (2 ^ 24 - 1). rewrite land_mask by lia.
  change (le_val (take 0 m)) with 0.
  replace (b0 + 256 * (b1 + 256 * (b2 + 256 * (b3 + 256 * 0)))) with (b0 + 256 * b1 + 65536 * b2 + b3 * 2 ^ 24) by lia.
  rewrite Z.mod_add by lia. apply Z.mod_small. lia.
Qed.
Lemma unpack_word (l : bytes) i : bytes_ok l -> 0 <= i -> i * 4 + 4 <= len l -> unpack_bgrx l (i * 4) = Ok (c_word l i) /\ 0 <= c_word l i < 2 ^ 24.
Proof.
  intros Hl Hi Hn. rewrite word_bytes by done. pose proof (nth_byte_ok l (Z.to_nat (i * 4)) Hl). pose proof (nth_byte_ok l (Z.to_nat (i * 4 + 1)) Hl). pose proof (nth_byte_ok l (Z.to_nat (i * 4 + 2)) Hl).
  split; [|lia]. unfold unpack_bgrx. rewrite !index_nth by lia. cbn [rbind]. f_equal.
  set (b := nth _ _ _) in *. set (g := nth (Z.to_nat (i * 4 + 1)) l 0) in *. set (r := nth (Z.to_nat (i * 4 + 2)) l 0) in *.
  rewrite (Z.lor_comm (Z.shiftl r 16)), <- Z.lor_assoc, (Z.lor_comm (Z.shiftl r 16)), Z.lor_assoc, (Z.lor_comm _ b).
  rewrite (lor_shiftl b g 8), (lor_shiftl _ r 16); lia.
Qed.

(** ** One pixel *)

Definition color24 (c : Z) : Prop := 0 <= c < 2 ^ 24.
Lemma raw_value indexed l i : bytes_ok l -> 0 <= i -> i * depth indexed + depth indexed <= len l ->
  (if indexed then index l i else unpack_bgrx l (i * 4)) = Ok (c_raw indexed l i) /\ color24 (c_raw indexed l i) /\ (indexed = true -> c_raw indexed l i < 256).
Proof.
  intros Hl Hi Hn. destruct indexed; cbn [depth c_raw] in *.
  - rewrite index_nth by lia. pose proof (nth_byte_ok l (Z.to_nat i) Hl). unfold color24. split_and!; [done|lia..].
  - destruct (unpack_word l i Hl Hi) as [E Hc]; [lia|]. by split_and!.
Qed.
Lemma sample_raw w h p x y : 0 < w <= 16384 -> 0 < h <= 16384 -> field_ok w h p -> 0 <= x < w -> 0 <= y < h ->
  sample p x y = Ok (c_field p w h x y) /\ color24 (c_field p w h x y) /\ (pf_indexed p = true -> c_field p w h x y < 256).
Proof.
  intros Hw Hh [F1 F2 [F3 F4] F5 F6] Hx Hy. unfold small in *. unfold sample, c_field. rewrite F1, F2, !c_int_small, !c_wrap_mod by lia.
  replace ((w =? 0) || (h =? 0)) with false by lia.
  pose proof (Z.mod_pos_bound (x + pf_scroll_x p) w ltac:(lia)). pose proof (Z.mod_pos_bound (y + pf_scroll_y p) h ltac:(lia)).
  set (sx := (x + pf_scroll_x p) mod w) in *. set (sy := (y + pf_scroll_y p) mod h) in *.
  assert (Hi : 0 <= sy * w + sx < w * h) by nia.
  destruct (raw_value (pf_indexed p) (pf_pixels p) (sy * w + sx) F6) as (E & Hc & Hb); [lia|rewrite F5; unfold depth; destruct (pf_indexed p); lia|].
  split; [|done]. rewrite <- E. unfold pget, _bounded. rewrite F1, F2. replace (negb _) with false by lia. by destruct (pf_indexed p).
Qed.
Lemma palette_value v i : regs_ok v -> 0 <= i -> _palette v i = Ok (c_palette (w_palette v) i) /\ color24 (c_palette (w_palette v) i).
Proof.
  intros [R1 R2 _ _] Hi. unfold _palette, c_palette. destruct (Z.ltb_spec i 32) as [Hlt|Hge]; [|replace ((0 <=? i) && false) with false by lia; by split].
  replace ((0 <=? i) && true) with true by lia. assert (Hl : (Z.to_nat i < length (w_palette v))%nat) by lia. destruct (lookup_lt_is_Some_2 _ _ Hl) as [c Hc].
  rewrite (proj2 (index_Ok (w_palette v) i c Hi) Hc). cbn [rbind]. rewrite nth_lookup, list_lookup_fmap, Hc. cbn [fmap option_fmap option_map default].
  rewrite list.Forall_lookup in R2. specialize (R2 _ _ Hc). rewrite c_color_land by done. split; [done|]. change 0xFFFFFF with (2 ^ 24 - 1). unfold color24. rewrite land_mask by lia. apply Z.mod_pos_bound. lia.
Qed.
Lemma layer_value v p raw : regs_ok v -> color24 raw -> layer v p raw = Ok (c_layer p (w_palette v) raw) /\ color24 (c_layer p (w_palette v) raw).
Proof. intros Hr Hc. unfold layer, c_layer. destruct (pf_indexed p); [|done]. apply palette_value; [done|]. unfold color24 in Hc. lia. Qed.

(** A sprite's pixel: the index or the colour, unless it is the key. *)
Lemma sprite_agrees v s l x y color : regs_ok v -> sprite_ok s -> 0 <= x < 16384 -> 0 <= y < 16384 -> color24 color ->
  exists o, pixel_at s x y (if w_indexed v then Some (w_palette v) else None) = Ok o /\
    c_sprites (s :: l) (w_indexed v) (w_palette v) x y color = match o with Some c => c | None => c_sprites l (w_indexed v) (w_palette v) x y color end /\
    (forall c, o = Some c -> color24 c).
Proof.
  intros Hr [[S1 S2] [S3 S4] S5 S6 S7] Hx Hy Hc. unfold small in *. cbn [c_sprites]. unfold c_enabled, pixel_at. rewrite !c_int_small by lia.
  fold (depth (sp_indexed s)). replace (len (sp_pixels s) <? sp_w s * sp_h s * depth (sp_indexed s)) with false by lia. cbn [negb]. rewrite andb_true_r.
  set (lx := x - sp_x s). set (ly := y - sp_y s). destruct (sp_enabled s) eqn:Ee; cbn [negb orb]; [|exists None; by split_and!].
  destruct (Z.leb_spec (sp_w s) 0) as [Hw0|Hw0].
  { exists None. split_and!; try done. replace (sp_w s <=? lx) with (negb (lx <? 0) || (sp_w s <=? lx)) by lia. by destruct (lx <? 0), (ly <? 0), (sp_w s <=? lx). }
  destruct ((lx <? 0) || (ly <? 0) || (sp_w s <=? lx) || (sp_h s <=? ly)) eqn:Eb; [exists None; by split_and!|].
  apply orb_false_iff in Eb as [Eb E4]. apply orb_false_iff in Eb as [Eb E3]. apply orb_false_iff in Eb as [E1 E2].
  assert (Hi : 0 <= ly * sp_w s + lx < sp_w s * sp_h s) by nia.
  destruct (raw_value (sp_indexed s) (sp_pixels s) (ly * sp_w s + lx) S7) as (E & Hraw & Hb); [lia|unfold depth in *; destruct (sp_indexed s); lia|].
  set (raw := c_raw _ _ _) in *. destruct (sp_indexed s); cbn [andb].
  - rewrite E. cbn [rbind]. pose proof (c_int_land _ 8 S5 ltac:(lia)) as Ek. change (2 ^ 8 - 1) with 0xFF in Ek. rewrite <- Ek. destruct (raw =? Z.land (c_int (sp_key_color s)) 0xFF); [exists None; by split_and!|].
    specialize (Hb eq_refl). unfold color24 in *. destruct (w_indexed v); [|exists (Some raw); split_and!; try done; intros c [= <-]; lia].
    destruct (palette_value v raw Hr) as [Ep Hp]; [lia|]. unfold _palette in Ep. assert (El : len (w_palette v) = 32) by (unfold len; by rewrite (rk_palette v Hr)). rewrite El.
    exists (Some (c_palette (w_palette v) raw)). split_and!; [|done|by intros c [= <-]]. destruct ((0 <=? raw) && (raw <? 32)).
    + destruct (index (w_palette v) raw) as [cc|]; [|done]. cbn [rbind] in *. by injection Ep as ->.
    + by injection Ep as ->.
  - rewrite E. cbn [rbind]. pose proof (c_int_land _ 24 S5 ltac:(lia)) as Ek. change (2 ^ 24 - 1) with 0xFFFFFF in Ek. rewrite <- Ek. destruct (raw =? Z.land (c_int (sp_key_color s)) 0xFFFFFF); [exists None; by split_and!|].
    exists (Some raw). split_and!; try done. by intros c [= <-].
Qed.
Lemma sprites_agree v l x y color : regs_ok v -> Forall sprite_ok l -> 0 <= x < 16384 -> 0 <= y < 16384 -> color24 color ->
  exists o, first_sprite l x y (if w_indexed v then Some (w_palette v) else None) = Ok o /\
    c_sprites l (w_indexed v) (w_palette v) x y color = match o with Some c => c | None => color end /\ (forall c, o = Some c -> color24 c).
Proof.
  intros Hr Hl Hx Hy Hc. induction Hl as [|s l Hs Hl (o & IH1 & IH2 & IH3)]; [by exists None|].
  destruct (sprite_agrees v s l x y color Hr Hs Hx Hy Hc) as (o1 & E1 & E2 & E3). cbn [first_sprite]. rewrite E1, E2. cbn [rbind].
  destruct o1 as [c|]; [exists (Some c); by split_and!|]. exists o. by split_and!.
Qed.

(** The colour of a pixel of the view. *)
Definition pixel (v : View) (x y : Z) : Z :=
  c_pixel (w_pf0 v) (w_pf1 v) (w_width v) (w_height v) (w_palette v, w_bplcon v, w_key_color v, true) (w_sprites v) (w_indexed v) x y.
Lemma sample_agrees v x y : view_ok v -> 0 <= x < w_width v -> 0 <= y < w_height v -> _sample v x y = Ok (pixel v x y) /\ color24 (pixel v x y).
Proof.
  intros [[V1 V2] V3 V4 [V5 V6] V7] Hx Hy. unfold _sample, pixel, c_pixel. cbn [negb].
  destruct (sample_raw _ _ _ x y V1 V2 V3 Hx Hy) as (E0 & C0 & _). destruct (sample_raw _ _ _ x y V1 V2 V4 Hx Hy) as (E1 & C1 & B1).
  set (c0 := c_field (w_pf0 v) _ _ _ _) in *. set (c1 := c_field (w_pf1 v) _ _ _ _) in *.
  destruct (layer_value v (w_pf0 v) c0 V7 C0) as [L0 D0]. destruct (layer_value v (w_pf1 v) c1 V7 C1) as [L1 D1].
  rewrite E0. cbn [rbind]. rewrite L0. cbn [rbind]. rewrite E1. cbn [rbind]. destruct (rk_regs v V7) as [R1 R2].
  pose proof (c_int_land _ 1 R1 ltac:(lia)) as Eb. change (2 ^ 1 - 1) with 1 in Eb. rewrite Eb. change BPLCON_PF1_KEY with 1.
  assert (Ek : Z.land (c_int (w_key_color v)) (if pf_indexed (w_pf1 v) then 255 else 16777215) = if pf_indexed (w_pf1 v) then Z.land (w_key_color v) 255 else Z.land (w_key_color v) 16777215).
  { destruct (pf_indexed (w_pf1 v)); [change 255 with (2 ^ 8 - 1)|change 16777215 with (2 ^ 24 - 1)]; by rewrite (c_int_land _ _ R2) by lia. }
  rewrite Ek. set (hidden := if negb _ then _ else _). set (col := if hidden then _ else c_layer (w_pf1 v) _ _).
  assert (Ecol : (if hidden then Ok (c_layer (w_pf0 v) (w_palette v) c0) else layer v (w_pf1 v) c1) = Ok col /\ color24 col) by (unfold col; by destruct hidden).
  destruct Ecol as [Ecol Dcol]. rewrite Ecol. cbn [rbind]. rewrite take_ge by done.
  destruct (sprites_agree v (w_sprites v) x y col V7 V6 ltac:(lia) ltac:(lia) Dcol) as (o & Eo & Es & Do). rewrite Eo, Es. cbn [rbind]. split; [done|]. destruct o; [by apply Do|done].
Qed.
(** The bytes of a colour. *)
Lemma pixel_bytes c : color24 c -> le_bytes 4 (Z.lor c 0xFF000000) = pack_bgrx c.
Proof.
  intros Hc. unfold color24 in Hc. change 0xFF000000 with (Z.shiftl 255 24). rewrite lor_shiftl by lia. unfold pack_bgrx. cbn [le_bytes].
  change 0xFF with (2 ^ 8 - 1). rewrite !land_mask, !Z.shiftr_div_pow2 by lia. change (2 ^ 8) with 256. change (2 ^ 16) with 65536. change (2 ^ 24) with 16777216 in *.
  assert (E : forall k, 0 < k -> 256 * k <= 16777216 -> (16777216 mod (256 * k)) = 0 -> ((c + 16777216 * 255) / k) mod 256 = (c / k) mod 256).
  { intros k Hk Hk2 Hd. apply Z.mod_divide in Hd as [m Hm]; [|lia]. rewrite Hm. replace (c + m * (256 * k) * 255) with (c + (m * 255 * 256) * k) by lia.
    rewrite Z.div_add by lia. replace (m * 255 * 256) with ((m * 255) * 256) by lia. by rewrite Z.mod_add by lia. }
  rewrite !Z.div_div by lia. change (256 * 256) with 65536. change (65536 * 256) with 16777216.
  change (256 - 1) with 255. pose proof (E 1 ltac:(lia) ltac:(lia) eq_refl) as E1. rewrite !Z.div_1_r in E1. rewrite E1, (E 256), (E 65536) by (done || lia).
  rewrite (Z.mul_comm 16777216), Z.div_add, (Z.div_small c 16777216) by lia. done.
Qed.

(** ** The copper *)

Lemma color_index_bound name idx : color_index name = Some idx -> 0 <= idx < 32.
Proof. unfold color_index. destruct (_ && _); [|done]. destruct ((0 <=? digits_val _) && _) eqn:E; [|done]. intros [= <-]. lia. Qed.
Lemma move_ok reg value v : regs_ok v -> word64 value -> exists v', _apply_move reg value v = Ok v' /\ bitmaps v' = bitmaps v /\ regs_ok v' /\
  c_instructions (w_copper v') = c_instructions (w_copper v).
Proof.
  intros [R1 R2 [R3 R4] [R5 R6]] Hv. unfold _apply_move. destruct (color_index (upper reg)) as [idx|] eqn:E.
  - apply color_index_bound in E. assert (Hl : (Z.to_nat idx < length (w_palette v))%nat) by lia.
    rewrite set_index_Ok by (unfold len; lia). cbn [rbind]. eexists. split; [reflexivity|]. split; [done|]. split; [|done]. split; cbn [set_palette w_palette w_bplcon w_key_color w_copper]; try done.
    + by rewrite length_insert.
    + apply Forall_insert; [done|]. change 0xFFFFFF with (2 ^ 24 - 1). rewrite land_mask by lia. pose proof (Z.mod_pos_bound value (2 ^ 24) ltac:(lia)). lia.
  - repeat (destruct (beq _ _); [eexists; split; [reflexivity|]; split; [done|]; split; [|done]; by split|]).
    eexists. split; [reflexivity|]. split; [done|]. split; [|done]. by split.
Qed.
Lemma run_copper_ok ins y v n : regs_ok v -> Forall instruction_ok ins -> 0 <= n -> exists v' n', run_copper ins y v n = Ok (v', n') /\ bitmaps v' = bitmaps v /\ regs_ok v' /\ 0 <= n' /\
  c_instructions (w_copper v') = c_instructions (w_copper v).
Proof.
  intros Hr Hi. revert v n Hr. induction Hi as [|i ins Hi His IH]; intros v n Hr Hn; cbn [run_copper]; [by exists v, n|]. destruct i as [line|reg value].
  - destruct (y <? line); [by exists v, n|]. apply IH; [done|lia].
  - destruct (move_ok reg value v Hr Hi) as (v1 & -> & E1 & H1 & I1). cbn [rbind]. destruct (IH v1 (n + 1) H1) as (v' & n' & -> & E2 & H2 & H3 & I2); [lia|].
    exists v', n'. split_and!; try done; [by rewrite E2|by rewrite I2].
Qed.
Lemma slice_from_Forall {A} (P : A -> Prop) (l : list A) i : Forall P l -> Forall P (slice_from l i).
Proof. intros Hl. unfold slice_from, slice. by apply Forall_take, Forall_drop. Qed.
Lemma apply_line_ok y v : view_ok v -> exists v', apply_line y v = Ok v' /\ bitmaps v' = bitmaps v /\ view_ok v'.
Proof.
  intros Hv. pose proof (vk_regs v Hv) as Hr. destruct (rk_copper v Hr) as [Hi Hpc]. unfold apply_line.
  destruct (run_copper_ok (slice_from (c_instructions (w_copper v)) (c_pc (w_copper v))) y v (c_pc (w_copper v)) Hr ltac:(by apply slice_from_Forall) Hpc) as (v' & n' & -> & E & H1 & H2 & I).
  cbn [rbind]. eexists. split; [reflexivity|]. split; [exact E|]. apply (view_ok_same v); [done|exact E|]. destruct H1 as [K1 K2 K3 [K4 K5]]. split; try done.
Qed.

(** ** Lines and frames *)

Lemma put_block_one w h x y color dest : 0 <= x < w -> 0 <= y < h -> _put_block w h x y 1 color dest = slice_assign dest ((y * w + x) * 4) ((y * w + x) * 4 + 4) (pack_bgrx color).
Proof.
  intros Hx Hy. unfold _put_block. assert (E : forall a, range2 a (a + 1) = [a]) by (intros a; rewrite range2_cons, range2_nil by lia; done).
  rewrite !E. cbn [fold_left]. replace ((y <? 0) || (h <=? y)) with false by lia. replace ((0 <=? x) && (x <? w)) with true by lia. done.
Qed.
Definition row_bytes (v : View) (visible : bool) (y x0 : Z) : bytes :=
  concat (map (fun x => pack_bgrx (if visible then pixel v x y else 0)) (range2 x0 (w_width v))).
Definition black (n : nat) : bytes := concat (replicate n (pack_bgrx 0)).
Lemma len_black n : len (black n) = Z.of_nat n * 4.
Proof. unfold black. induction n as [|n IH]; [done|]. cbn [replicate concat]. rewrite len_app, IH. change (len (pack_bgrx 0)) with 4. lia. Qed.
Lemma black_app a b : black (a + b) = black a ++ black b.
Proof. unfold black. by rewrite replicate_add, concat_app. Qed.
Lemma len_row v b y x0 : len (row_bytes v b y x0) = Z.max 0 (w_width v - x0) * 4.
Proof.
  unfold row_bytes. assert (E : forall l : list Z, len (concat (map (fun x => pack_bgrx (if b then pixel v x y else 0)) l)) = len l * 4).
  { induction l as [|x l IH]; [done|]. cbn [map concat]. rewrite len_app, len_cons, IH. change (len (pack_bgrx _)) with 4. lia. }
  rewrite E. unfold len. rewrite length_range2. lia.
Qed.

Lemma draw_row_spec v py n x0 D B C : view_ok v -> 0 <= py < w_height v -> 0 <= x0 -> x0 + Z.of_nat n = w_width v ->
  len D = (py * w_width v + x0) * 4 -> len B = Z.of_nat n * 4 ->
  draw_row v (w_width v) (w_height v) 0 0 1 py (range2 x0 (w_width v)) (D ++ B ++ C) = Ok (D ++ row_bytes v true py x0 ++ C).
Proof.
  intros Hv Hpy. revert x0 D B. unfold row_bytes. induction n as [|n IH]; intros x0 D B Hx Hn HD HB.
  - rewrite range2_nil by lia. assert (B = []) as -> by (apply len_0_nil; lia). done.
  - rewrite range2_cons by lia. cbn [draw_row map concat]. destruct (sample_agrees v x0 py Hv ltac:(lia) Hpy) as [-> _]. cbn [rbind].
    rewrite !Z.mul_1_r, !Z.add_0_l, put_block_one by lia.
    destruct (cut_at B 4) as (B1 & B2 & -> & HB1); [lia|]. rewrite len_app in HB. rewrite <- HD. replace (len D + 4) with (len D + len B1) by lia.
    rewrite <- (app_assoc B1), slice_assign_mid, <- (app_assoc (pack_bgrx _)), (app_assoc D).
    rewrite IH; [by rewrite <- app_assoc|lia|lia|rewrite len_app; change (len (pack_bgrx _)) with 4; lia|lia].
Qed.

Definition native_row (v : View) (y : Z) (row : row_state) : bytes :=
  concat (map (fun x => le_bytes 4 (Z.lor (c_pixel (w_pf0 v) (w_pf1 v) (w_width v) (w_height v) row (w_sprites v) (w_indexed v) x y) 0xFF000000)) (range (w_width v))).
Lemma native_row_spec v y visible : view_ok v -> 0 <= y < w_height v -> native_row v y (w_palette v, w_bplcon v, w_key_color v, visible) = row_bytes v visible y 0.
Proof.
  intros Hv Hy. unfold native_row, row_bytes, range. f_equal. apply map_ext_in. intros x Hx. apply list_elem_of_In, elem_of_range2 in Hx.
  destruct visible; [|reflexivity]. apply pixel_bytes. by apply sample_agrees.
Qed.
Lemma native_row_same v v' y row : bitmaps v' = bitmaps v -> native_row v' y row = native_row v y row.
Proof. intros E. unfold bitmaps in E. injection E as E1 E2 E3 E4 E5 E6. unfold native_row. by rewrite E1, E2, E3, E4, E5, E6. Qed.
Lemma hidden_row v y : row_bytes v false y 0 = black (Z.to_nat (w_width v)).
Proof.
  unfold row_bytes, black. f_equal. assert (E : forall l : list Z, map (fun _ : Z => pack_bgrx 0) l = replicate (length l) (pack_bgrx 0)) by (induction l; cbn; congruence).
  rewrite E, length_range2. do 2 f_equal. lia.
Qed.

Lemma rows_agree n y v d0 d1 D : view_ok v -> 0 <= y -> y + Z.of_nat n = w_height v -> len D = y * w_width v * 4 ->
  exists v' rows, collect_rows (range2 y (w_height v)) d0 d1 v = Ok (v', rows) /\ length rows = n /\ bitmaps v' = bitmaps v /\ view_ok v' /\
    draw_rows (range2 y (w_height v)) (w_width v) (w_height v) 0 0 1 d0 d1 v (D ++ black (n * Z.to_nat (w_width v))) =
      Ok (v', D ++ concat (map (fun p => native_row v p.1 p.2) (combine (range2 y (w_height v)) rows))) /\
    len (concat (map (fun p => native_row v p.1 p.2) (combine (range2 y (w_height v)) rows))) = Z.of_nat n * w_width v * 4.
Proof.
  revert y v D. induction n as [|n IH]; intros y v D Hv Hy Hn HD.
  - rewrite range2_nil by lia. exists v, []. cbn. by split_and!.
  - rewrite range2_cons by lia. cbn [collect_rows draw_rows]. destruct (apply_line_ok y v Hv) as (v1 & -> & E1 & H1). cbn [rbind].
    pose proof E1 as Eb. unfold bitmaps in Eb. injection Eb as Ew Eh Ei Ep0 Ep1 Es. pose proof (vk_size v Hv) as [Hsw Hsh].
    set (vis := (d0 <=? y) && (y <=? d1)).
    assert (Edraw : (if (y <? d0) || (d1 <? y) then Ok (D ++ black (S n * Z.to_nat (w_width v)))
      else draw_row v1 (w_width v) (w_height v) 0 0 1 y (range (w_width v1)) (D ++ black (S n * Z.to_nat (w_width v))))
      = Ok ((D ++ row_bytes v1 vis y 0) ++ black (n * Z.to_nat (w_width v)))).
    { cbn [Nat.mul]. rewrite black_app. replace ((y <? d0) || (d1 <? y)) with (negb vis) by (unfold vis; lia). destruct vis; cbn [negb].
      - rewrite <- Ew, <- Eh, <- app_assoc. apply (draw_row_spec v1 y (Z.to_nat (w_width v1)) 0); try done; rewrite ?Ew, ?Eh, ?len_black; lia.
      - by rewrite hidden_row, Ew, <- app_assoc. }
    rewrite Edraw. cbn [rbind].
    destruct (IH (y + 1) v1 (D ++ row_bytes v1 vis y 0) H1) as (v' & rows & Ec & El & E2 & H2 & Ed & Elen); [lia|rewrite Eh; lia|rewrite len_app, len_row, Ew; lia|].
    rewrite Eh, Ew in *. rewrite Ec, Ed. cbn [rbind]. exists v', ((w_palette v1, w_bplcon v1, w_key_color v1, vis) :: rows).
    split; [done|]. split; [cbn [length]; by rewrite El|]. split; [by rewrite E2|]. split; [done|]. cbn [combine map concat fst snd].
    assert (Em : forall l, map (fun p : Z * row_state => native_row v p.1 p.2) l = map (fun p => native_row v1 p.1 p.2) l) by (intros l; apply map_ext; intros p; symmetry; by apply native_row_same).
    rewrite Em, <- (native_row_same v v1 y _ E1), native_row_spec by (done || rewrite Eh; lia). split; [by rewrite <- app_assoc|].
    rewrite len_app, len_row, Elen, Ew. lia.
Qed.

(** C27: the raster of the extension is the raster of the code. For every view
    whose bitmaps, sprites and palette have the sizes they say, whatever its
    scrolling, display window, sprites, keyed playfield and display list, drawn
    at its own size (scale 1) and where the shortcut for plain views, which
    ignores scrolling and the second playfield, is not taken, [raster_view]
    with the native routine and without it raise nothing, leave the view in the
    same state and produce the same frame, byte for byte. *)
Theorem raster_native_agrees (v : View) (dest : bytes) (scale : option Z) (Hv : view_ok v) (Hdest : len dest = w_width v * w_height v * 4)
    (Hscale : Z.max 1 (match scale with None => w_scale v | Some s => s end) = 1) (Hslow : fast_path (w_width v) (w_height v) 1 v dest = false) :
  exists v' dest', raster_view true (w_width v) (w_height v) scale (Some v) dest = Ok (Some v', dest') /\
    raster_view false (w_width v) (w_height v) scale (Some v) dest = Ok (Some v', dest') /\ len dest' = len dest.
Proof.
  unfold raster_view. rewrite Hscale, !Z.eqb_refl, Hslow. cbn [andb]. unfold soft_raster. pose proof (vk_size v Hv) as [Hw Hh].
  assert (Hv0 : view_ok (reset_pc v)) by (apply (view_ok_same v); [done|done|]; destruct (vk_regs v Hv) as [K1 K2 K3 [K4 K5]]; by split).
  replace ((w_width v - w_width v * 1) / 2) with 0 by (replace (w_width v - w_width v * 1) with 0 by lia; done).
  replace ((w_height v - w_height v * 1) / 2) with 0 by (replace (w_height v - w_height v * 1) with 0 by lia; done).
  assert (Ed : (if w_diw_stop v <? 0 then w_height v - 1 else w_diw_stop v) = window_stop v) by (unfold window_stop; destruct (Z.ltb_spec (w_diw_stop v) 0), (Z.leb_spec 0 (w_diw_stop v)); done || lia).
  change (w_diw_stop (reset_pc v)) with (w_diw_stop v). change (w_diw_start (reset_pc v)) with (w_diw_start v). change (w_height (reset_pc v)) with (w_height v). rewrite Ed.
  assert (Ef : _fill_dest dest 0 = [] ++ black (Z.to_nat (w_height v) * Z.to_nat (w_width v))).
  { unfold _fill_dest, black. cbn [app]. do 2 f_equal. replace (length dest) with (Z.to_nat (w_height v) * Z.to_nat (w_width v) * 4)%nat by (unfold len in Hdest; lia). apply Nat.div_mul. lia. }
  destruct (rows_agree (Z.to_nat (w_height v)) 0 (reset_pc v) (w_diw_start v) (window_stop v) [] Hv0) as (v' & rows & Ec & El & E2 & H2 & Edr & Elen); [lia|cbn; lia|done|].
  change (w_width (reset_pc v)) with (w_width v) in *. change (w_height (reset_pc v)) with (w_height v) in *. change (range2 0 (w_height v)) with (range (w_height v)) in *.
  rewrite Ec, Ef, Edr. cbn [rbind].
  pose proof E2 as Eb. unfold bitmaps in Eb. injection Eb as Ew Eh Ei Ep0 Ep1 Es. pose proof (vk_pf0 v Hv) as [P1 P2 P3 P4 P5]. pose proof (vk_pf1 v Hv) as [Q1 Q2 Q3 Q4 Q5].
  change (w_pf0 (reset_pc v)) with (w_pf0 v) in *. change (w_pf1 (reset_pc v)) with (w_pf1 v) in *. change (w_sprites (reset_pc v)) with (w_sprites v) in *. change (w_indexed (reset_pc v)) with (w_indexed v) in *.
  unfold chipset_raster32. rewrite Ep0, Ep1, Es, Ei, P1, P2, !c_int_small by lia. unfold depth in *.
  replace ((w_width v <=? 0) || (w_height v <=? 0) || (len dest <? w_width v * w_height v * 4)) with false by lia.
  replace ((len (pf_pixels (w_pf0 v)) <? _) || _ || _) with false
    by (rewrite P4, Q4; assert (len rows = w_height v) by (unfold len; rewrite El; lia); destruct (pf_indexed (w_pf0 v)), (pf_indexed (w_pf1 v)); lia). cbn [rbind].
  rewrite drop_ge by (unfold len in Hdest; lia). rewrite app_nil_r.
  exists v', (concat (map (fun p => native_row (reset_pc v) p.1 p.2) (combine (range (w_height v)) rows))).
  split; [|split; [done|]].
  - match goal with |- context [concat (map ?f (combine (range _) rows))] =>
      assert (Em : map f (combine (range (w_height v)) rows) = map (fun p => native_row (reset_pc v) p.1 p.2) (combine (range (w_height v)) rows)) end.
    { apply map_ext. by intros [yy row]. }
    by rewrite Em.
  - rewrite Elen. lia.
Qed.

(** Two by two pixels of 24 bits, the first playfield scrolled by one, a keyed
    indexed second playfield, a sprite of one pixel in the corner, and a display
    list that changes a colour and the key between the lines. *)
Definition demo : View :=
  mkView 2 2 false 1 (mkPlayfield 2 2 false 1 0 (concat (map pack_bgrx [0x112233; 0x445566; 0x778899; 0xAABBCC])))
    (mkPlayfield 2 2 true 0 0 [0; 1; 1; 0]) [mkSprite 1 1 1 1 true 0 [7] true]
    (mkCopper [Move (lit "color1") 0xABCDEF; Wait 1; Move (lit "KEY_COLOR") 1; Move (lit "nosuch") 5] [] 0) (zeros 32) 1 0 0 (-1).
Lemma demo_ok : view_ok demo.
Proof. split; [split; cbn; lia| | |split; [cbn; lia|]|]; cbn; [split|split|constructor; [split|constructor]|split]; cbn; unfold small, word64, bytes_ok, byte_ok; repeat constructor; cbn; try done; try lia; apply (bool_decide_unpack _); vm_compute; done. Qed.
Lemma raster_native_agrees_witness : view_ok demo /\ exists v' dest', raster_view true 2 2 None (Some demo) (zeros 16) = Ok (Some v', dest') /\
  raster_view false 2 2 None (Some demo) (zeros 16) = Ok (Some v', dest') /\ len dest' = 16.
Proof. split; [exact demo_ok|]. apply (raster_native_agrees demo (zeros 16) None demo_ok); vm_compute; reflexivity. Defined.

(** The frame: the second playfield's colour on the first line, where the key
    is 0; on the second, where it is 1, black and the sprite's index as a
    colour.  The name no register has is a warning. *)
Example demo_frame : raster_view true 2 2 None (Some demo) (zeros 16) =
  Ok (Some (set_regs 1 1 0 (-1) (set_copper (mkCopper (c_instructions (w_copper demo)) [lit "nosuch"] 4) (set_palette (<[1%nat := 0xABCDEF]> (zeros 32)) demo))),
      concat (map pack_bgrx [0x445566; 0xABCDEF; 0xAABBCC; 7])).
Proof. vm_compute. reflexivity. Qed.

(** A view the shortcut takes: one line, the first playfield scrolled by one
    and a pixel in the second. *)
Definition plain : View :=
  mkView 2 1 false 1 (mkPlayfield 2 1 false 1 0 (concat (map pack_bgrx [0x112233; 0x445566]))) (mkPlayfield 2 1 false 0 0 (concat (map pack_bgrx [0; 0xABCDEF])))
    (replicate 8 Sprite_init) Copper_init (zeros 32) 0 0 0 0.
(** Without the extension the shortcut copies the first playfield: neither its
    scrolling nor the second playfield is on the screen, as with the extension
    they are. *)
Example shortcut_skips_scroll_and_second_field :
  fast_path 2 1 1 plain (zeros 8) = true
  /\ (let? (_, dest) := raster_view true 2 1 None (Some plain) (zeros 8) in Ok dest) = Ok (concat (map pack_bgrx [0x445566; 0xABCDEF]))
  /\ (let? (_, dest) := raster_view false 2 1 None (Some plain) (zeros 8) in Ok dest) = Ok (concat (map pack_bgrx [0x112233; 0x445566])).
Proof. vm_compute. done. Qed.
