(* ===== verification/Ed.v ===== *)
(** * The line editor ([kernel/ed.py])

    The editor keeps its buffer as a list of lines and talks to a terminal
    ([write], [read_char]) and to the filesystem switch.  Here the terminal is
    the characters still to come, [ed_in], and those written, [ed_out]; a
    [read_char] with none left raises [EOFError].  The switch is part of the
    state, over any filesystem.

    [isdigit] and [isalpha] know the ASCII characters only. *)

From Stdlib Require Import ZArith Lia Ascii.
From stdpp Require Import base list gmap numbers strings.
From S2P Require Import Prelude Bytes Pystr Vfs.

Local Open Scope Z_scope.

(** A character literal. *)
Definition ord (c : ascii) : Z := Z.of_nat (nat_of_ascii c).

(** ** Paths and text *)

(** The loop over the segments. *)
Fixpoint norm_segs (parts : list str) (segs : list str) : list str :=
  match segs with
  | [] => parts
  | seg :: segs' =>
      norm_segs (if beq seg (lit "..") then removelast parts
                 else if negb (beq seg []) && negb (beq seg (lit ".")) then parts ++ [seg]
                 else parts) segs'
  end.

Definition abspath (path cwd : str) : str :=
  let target := if startswith path [slash] then path else rstrip is_slash cwd ++ [slash] ++ path in
  [slash] ++ join [slash] (norm_segs [] (split slash target)).

Definition lines_from_text (text : str) : list str :=
  if beq text [] then []
  else
    let lines := split newline text in
    if beq (List.last lines []) [] then removelast lines else lines.

Definition text_from_lines (lines : list str) : result bytes :=
  match lines with
  | [] => Ok []
  | _ => encode (join [newline] lines ++ [newline])
  end.

(** ** Positions in a command *)

Fixpoint count_while (p : Z -> bool) (s : str) : Z :=
  match s with
  | c :: s' => if p c then 1 + count_while p s' else 0
  | [] => 0
  end.

(** [while pos < n and p(command[pos]): pos += 1] *)
Definition skip_while (p : Z -> bool) (command : str) (pos : Z) : Z :=
  pos + count_while p (drop (Z.to_nat pos) command).

Definition is_blank (c : Z) : bool := c =? space.

(** [command[pos]] when [pos < n]. *)
Definition char_at (command : str) (pos : Z) : option Z := command !! Z.to_nat pos.

Definition parse_number (command : str) (pos : Z) : result (Z * Z) :=
  let pos' := skip_while is_digit command pos in
  let? n := py_int (slice command pos pos') in
  Ok (n, pos').

Definition is_sign (c : Z) : bool := (c =? ord "+"%char) || (c =? ord "-"%char).

(** The [while True] loop over the offsets of an address; each turn takes at
    least a sign. *)
Fixpoint parse_offsets (fuel : nat) (command : str) (pos value : Z) : result (Z * Z) :=
  match fuel with
  | O => Err RuntimeError
  | S fuel' =>
      let pos := skip_while is_blank command pos in
      match char_at command pos with
      | None => Ok (value, pos)
      | Some c =>
          if negb (is_sign c) then Ok (value, pos)
          else
            let sign := if c =? ord "+"%char then 1 else -1 in
            let pos := skip_while is_blank command (pos + 1) in
            match char_at command pos with
            | Some d =>
                if is_digit d then
                  let? (offset, pos) := parse_number command pos in
                  parse_offsets fuel' command pos (value + sign * offset)
                else parse_offsets fuel' command pos (value + sign * 1)
            | None => parse_offsets fuel' command pos (value + sign * 1)
            end
      end
  end.

Section ed.
Context {W Node : Type} `{FSNode W Node}.

(** ** State *)

Record Editor : Type := mkEd {
  ed_cwd : str;
  ed_prompting : bool;
  ed_prompt : str;
  ed_silent : bool;
  ed_verbose : bool;
  ed_file : str;
  ed_lines : list str;
  ed_saved : list str;
  ed_undo : list str;
  ed_dot : Z;
  ed_marks : gmap Z Z;
  ed_cut : list str;
  ed_running : bool;
  ed_last_error : string;
  ed_in : str;
  ed_out : str;
  ed_vfs : VFS W Node;
}.

Definition Editor_init (cwd input : str) (v : VFS W Node) : Editor :=
  mkEd cwd false (lit "*") false false [] [] [] [] 0 ∅ [] true EmptyString input [] v.

Definition set_prompting x (s : Editor) := mkEd (ed_cwd s) x (ed_prompt s) (ed_silent s) (ed_verbose s) (ed_file s) (ed_lines s) (ed_saved s) (ed_undo s) (ed_dot s) (ed_marks s) (ed_cut s) (ed_running s) (ed_last_error s) (ed_in s) (ed_out s) (ed_vfs s).
Definition set_prompt x (s : Editor) := mkEd (ed_cwd s) (ed_prompting s) x (ed_silent s) (ed_verbose s) (ed_file s) (ed_lines s) (ed_saved s) (ed_undo s) (ed_dot s) (ed_marks s) (ed_cut s) (ed_running s) (ed_last_error s) (ed_in s) (ed_out s) (ed_vfs s).
Definition set_silent x (s : Editor) := mkEd (ed_cwd s) (ed_prompting s) (ed_prompt s) x (ed_verbose s) (ed_file s) (ed_lines s) (ed_saved s) (ed_undo s) (ed_dot s) (ed_marks s) (ed_cut s) (ed_running s) (ed_last_error s) (ed_in s) (ed_out s) (ed_vfs s).
Definition set_verbose x (s : Editor) := mkEd (ed_cwd s) (ed_prompting s) (ed_prompt s) (ed_silent s) x (ed_file s) (ed_lines s) (ed_saved s) (ed_undo s) (ed_dot s) (ed_marks s) (ed_cut s) (ed_running s) (ed_last_error s) (ed_in s) (ed_out s) (ed_vfs s).
Definition set_file x (s : Editor) := mkEd (ed_cwd s) (ed_prompting s) (ed_prompt s) (ed_silent s) (ed_verbose s) x (ed_lines s) (ed_saved s) (ed_undo s) (ed_dot s) (ed_marks s) (ed_cut s) (ed_running s) (ed_last_error s) (ed_in s) (ed_out s) (ed_vfs s).
Definition set_lines x (s : Editor) := mkEd (ed_cwd s) (ed_prompting s) (ed_prompt s) (ed_silent s) (ed_verbose s) (ed_file s) x (ed_saved s) (ed_undo s) (ed_dot s) (ed_marks s) (ed_cut s) (ed_running s) (ed_last_error s) (ed_in s) (ed_out s) (ed_vfs s).
Definition set_saved x (s : Editor) := mkEd (ed_cwd s) (ed_prompting s) (ed_prompt s) (ed_silent s) (ed_verbose s) (ed_file s) (ed_lines s) x (ed_undo s) (ed_dot s) (ed_marks s) (ed_cut s) (ed_running s) (ed_last_error s) (ed_in s) (ed_out s) (ed_vfs s).
Definition set_undo x (s : Editor) := mkEd (ed_cwd s) (ed_prompting s) (ed_prompt s) (ed_silent s) (ed_verbose s) (ed_file s) (ed_lines s) (ed_saved s) x (ed_dot s) (ed_marks s) (ed_cut s) (ed_running s) (ed_last_error s) (ed_in s) (ed_out s) (ed_vfs s).
Definition put_dot x (s : Editor) := mkEd (ed_cwd s) (ed_prompting s) (ed_prompt s) (ed_silent s) (ed_verbose s) (ed_file s) (ed_lines s) (ed_saved s) (ed_undo s) x (ed_marks s) (ed_cut s) (ed_running s) (ed_last_error s) (ed_in s) (ed_out s) (ed_vfs s).
Definition set_marks x (s : Editor) := mkEd (ed_cwd s) (ed_prompting s) (ed_prompt s) (ed_silent s) (ed_verbose s) (ed_file s) (ed_lines s) (ed_saved s) (ed_undo s) (ed_dot s) x (ed_cut s) (ed_running s) (ed_last_error s) (ed_in s) (ed_out s) (ed_vfs s).
Definition set_cut x (s : Editor) := mkEd (ed_cwd s) (ed_prompting s) (ed_prompt s) (ed_silent s) (ed_verbose s) (ed_file s) (ed_lines s) (ed_saved s) (ed_undo s) (ed_dot s) (ed_marks s) x (ed_running s) (ed_last_error s) (ed_in s) (ed_out s) (ed_vfs s).
Definition set_running x (s : Editor) := mkEd (ed_cwd s) (ed_prompting s) (ed_prompt s) (ed_silent s) (ed_verbose s) (ed_file s) (ed_lines s) (ed_saved s) (ed_undo s) (ed_dot s) (ed_marks s) (ed_cut s) x (ed_last_error s) (ed_in s) (ed_out s) (ed_vfs s).
Definition set_last_error x (s : Editor) := mkEd (ed_cwd s) (ed_prompting s) (ed_prompt s) (ed_silent s) (ed_verbose s) (ed_file s) (ed_lines s) (ed_saved s) (ed_undo s) (ed_dot s) (ed_marks s) (ed_cut s) (ed_running s) x (ed_in s) (ed_out s) (ed_vfs s).
Definition set_term i o (s : Editor) := mkEd (ed_cwd s) (ed_prompting s) (ed_prompt s) (ed_silent s) (ed_verbose s) (ed_file s) (ed_lines s) (ed_saved s) (ed_undo s) (ed_dot s) (ed_marks s) (ed_cut s) (ed_running s) (ed_last_error s) i o (ed_vfs s).
Definition set_vfs x (s : Editor) := mkEd (ed_cwd s) (ed_prompting s) (ed_prompt s) (ed_silent s) (ed_verbose s) (ed_file s) (ed_lines s) (ed_saved s) (ed_undo s) (ed_dot s) (ed_marks s) (ed_cut s) (ed_running s) (ed_last_error s) (ed_in s) (ed_out s) x.

(** ** Terminal *)

Definition term_write (t : str) : M Editor unit := modify (fun s => set_term (ed_in s) (ed_out s ++ t) s).
Definition out (text : str) : M Editor unit := term_write (text ++ [newline]).

Definition ed_error (message : string) : M Editor unit :=
  modify (set_last_error message) ;;;
  let! s := get in
  if ed_verbose s then out (lit message)
  else if negb (ed_silent s) then out (lit "?")
  else ret tt.

Definition is_erase (c : Z) : bool := (c =? 8) || (c =? 127).

(** The loop of [read_line]: the line, what is left of the input, and what the
    terminal got. *)
Fixpoint read_chars (input buf output : str) : result str * str * str :=
  match input with
  | [] => (Err EOFError, [], output)
  | c :: input' =>
      if c =? newline then (Ok buf, input', output ++ [newline])
      else if is_erase c then
        match buf with
        | [] => read_chars input' buf output
        | _ => read_chars input' (slice_to buf (-1)) (output ++ [8; 32; 8])
        end
      else read_chars input' (buf ++ [c]) (output ++ [c])
  end.

Definition read_line (prompt : str) : M Editor str :=
  (if negb (beq prompt []) then term_write prompt else ret tt) ;;;
  fun s => let '(r, i, o) := read_chars (ed_in s) [] (ed_out s) in (r, set_term i o s).

(** The loop of [read_text]: every line read takes a character of the input. *)
Fixpoint read_text_loop (fuel : nat) (acc : list str) : M Editor (list str) :=
  match fuel with
  | O => raise RuntimeError
  | S fuel' =>
      let! line := read_line [] in
      if beq line (lit ".") then ret acc else read_text_loop fuel' (acc ++ [line])
  end.
Definition read_text : M Editor (list str) :=
  let! input := gets ed_in in read_text_loop (S (length input)) [].

(** ** Files *)

Definition on_vfs {A} (m : M (VFS W Node) A) : M Editor A := zoom ed_vfs set_vfs m.

(** [_read_all]: [fuel] bounds the turns of its loop. *)
Fixpoint read_chunks (fuel : nat) (fd : Z) (chunks : bytes) : M (VFS W Node) bytes :=
  match fuel with
  | O => raise RuntimeError
  | S fuel' =>
      let! chunk := read fd 4096 in
      match chunk with
      | [] => ret chunks
      | _ => read_chunks fuel' fd (chunks ++ chunk)
      end
  end.
Definition read_all (fuel : nat) (path : str) : M (VFS W Node) bytes :=
  let! fd := open path 0 in
  try_finally (read_chunks fuel fd []) (close fd).

Definition O_WRONLY : Z := 1.

Definition write_all (path : str) (data : bytes) (append : bool) : M (VFS W Node) unit :=
  let flags := Z.lor O_WRONLY O_CREAT in
  let flags := if append then Z.lor flags O_APPEND else Z.lor flags O_TRUNC in
  let! fd := open path flags in
  try_finally (let! _ := write fd data in ret tt) (close fd).

(** ** Buffer *)

Fixpoint lines_eqb (a b : list str) : bool :=
  match a, b with
  | [], [] => true
  | x :: a', y :: b' => beq x y && lines_eqb a' b'
  | _, _ => false
  end.
Definition changed (s : Editor) : bool := negb (lines_eqb (ed_lines s) (ed_saved s)).
Definition snapshot : M Editor unit := modify (fun s => set_undo (ed_lines s) s).

Definition dot_to (lines : list str) (value : Z) : Z :=
  match lines with [] => 0 | _ => Z.max 1 (Z.min (len lines) value) end.
Definition set_dot (value : Z) : M Editor unit := modify (fun s => put_dot (dot_to (ed_lines s) value) s).

Definition print_line (numbered literal : bool) (idx : Z) : M Editor unit :=
  let! s := get in
  let! line := lift (index (ed_lines s) (idx - 1)) in
  if numbered then out (str_of_int idx ++ [9] ++ line)
  else if literal then
    out (concat (map (fun c => if c =? ord "$"%char then lit "\$" else [c]) line) ++ lit "$")
  else out line.

Definition print_range (start end_ : Z) (numbered literal : bool) : M Editor unit :=
  if (start =? 0) && (end_ =? 0) then ret tt
  else
    for_each (range2 start (end_ + 1)) (print_line numbered literal) ;;;
    set_dot end_.

Definition insert_after (address : Z) (new_lines : list str) : M Editor unit :=
  match new_lines with
  | [] => ret tt
  | _ =>
      snapshot ;;;
      let! s := get in
      let index := Z.max 0 (Z.min (len (ed_lines s)) address) in
      modify (fun s => set_lines (slice_assign (ed_lines s) index index new_lines) s) ;;;
      modify (put_dot (index + len new_lines))
  end.

(** [del l[i:j]] *)
Definition del_slice (i j : Z) (l : list str) : list str := slice_assign l i j [].

Definition delete_range (start end_ : Z) : M Editor unit :=
  if (start =? 0) && (end_ =? 0) then ret tt
  else
    snapshot ;;;
    modify (fun s => set_cut (slice (ed_lines s) (start - 1) end_) s) ;;;
    modify (fun s => set_lines (del_slice (start - 1) end_ (ed_lines s)) s) ;;;
    modify (fun s => put_dot (match ed_lines s with [] => 0 | l => Z.min start (len l) end) s).

Definition command_append (address : Z) : M Editor unit :=
  let! text := read_text in insert_after address text.

Definition command_insert (address : Z) : M Editor unit :=
  if address <=? 0 then command_append 0 else command_append (address - 1).

Definition command_change (start end_ : Z) : M Editor unit :=
  let! text := read_text in
  snapshot ;;;
  if (start =? 0) && (end_ =? 0) then
    modify (fun s => put_dot (len text) (set_lines (text ++ ed_lines s) s))
  else
    modify (fun s => set_lines (del_slice (start - 1) end_ (ed_lines s)) s) ;;;
    modify (fun s => set_lines (slice_assign (ed_lines s) (start - 1) (start - 1) text) s) ;;;
    modify (fun s => put_dot (match text with [] => Z.min start (len (ed_lines s)) | _ => start + len text - 1 end) s).

Definition command_join (start end_ : Z) : M Editor unit :=
  if (start =? 0) || (start =? end_) then ret tt
  else
    snapshot ;;;
    modify (fun s => set_lines (slice_assign (ed_lines s) (start - 1) end_
                                  [concat (slice (ed_lines s) (start - 1) end_)]) s) ;;;
    modify (put_dot start).

Definition command_move (start end_ target : Z) : M Editor unit :=
  if (start <=? target) && (target <=? end_) then raise (EdError "invalid address")
  else
    snapshot ;;;
    let! s := get in
    let block := slice (ed_lines s) (start - 1) end_ in
    modify (fun s => set_lines (del_slice (start - 1) end_ (ed_lines s)) s) ;;;
    let target := if end_ <? target then target - (end_ - start + 1) else target in
    let! s := get in
    let index := Z.max 0 (Z.min (len (ed_lines s)) target) in
    modify (fun s => set_lines (slice_assign (ed_lines s) index index block) s) ;;;
    modify (put_dot (index + len block)).

Definition command_copy (start end_ target : Z) : M Editor unit :=
  let! s := get in
  let block := slice (ed_lines s) (start - 1) end_ in
  snapshot ;;;
  let index := Z.max 0 (Z.min (len (ed_lines s)) target) in
  modify (fun s => set_lines (slice_assign (ed_lines s) index index block) s) ;;;
  modify (put_dot (index + len block)).

(** ** Addresses *)

(** The base of an address, and the position after it; [None] when there is
    no address. *)
Definition address_base (command : str) (pos ch : Z) : M Editor (option (Z * Z)) :=
  let! s := get in
  if ch =? ord "."%char then ret (Some (ed_dot s, pos + 1))
  else if ch =? ord "$"%char then ret (Some (len (ed_lines s), pos + 1))
  else if ch =? ord "'"%char then
    match char_at command (pos + 1) with
    | None => raise (EdError "missing mark key")
    | Some key =>
        match ed_marks s !! key with
        | None => raise (EdError "mark not set")
        | Some v => ret (Some (v, pos + 2))
        end
    end
  else if is_digit ch then let! p := lift (parse_number command pos) in ret (Some p)
  else if is_sign ch then ret (Some (ed_dot s, pos))
  else ret None.

Definition parse_address (command : str) (pos : Z) : M Editor (option Z * Z) :=
  let pos := skip_while is_blank command pos in
  match char_at command pos with
  | None => ret (None, pos)
  | Some ch =>
      let! b := address_base command pos ch in
      match b with
      | None => ret (None, pos)
      | Some (value, pos) =>
          let! (value, pos) := lift (parse_offsets (S (length command)) command pos value) in
          ret (Some value, pos)
      end
  end.

Definition whole_range (s : Editor) : Z * Z :=
  match ed_lines s with [] => (0, 0) | l => (1, len l) end.

(** An address, or a pair of addresses, from [pos] on; [;] moves the current
    line to the first before the second is read. *)
Definition range_end (command : str) (first pos : Z) : M Editor (Z * Z * Z) :=
  let! s := get in
  match char_at command pos with
  | Some sep =>
      if (sep =? 44) || (sep =? 59) then
        (if sep =? 59 then modify (put_dot first) else ret tt) ;;;
        let! (second, pos) := parse_address command (pos + 1) in
        ret (first, match second with Some x => x | None => len (ed_lines s) end, pos)
      else ret (first, first, pos)
  | None => ret (first, first, pos)
  end.

Definition range_from (command : str) (pos : Z) : M Editor (option (Z * Z) * Z) :=
  let! s := get in
  let! (first, pos2) := parse_address command pos in
  match first with
  | None => ret (None, pos)
  | Some first =>
      let! (start, end_, pos) := range_end command first (skip_while is_blank command pos2) in
      if (start <? 0) || (end_ <? 0) || (len (ed_lines s) <? start) || (len (ed_lines s) <? end_) || (end_ <? start)
      then raise (EdError "invalid address")
      else ret (Some (start, end_), pos)
  end.

(** The range of a command, [None] when it has no address, and the position
    after it. *)
Definition parse_range (command : str) : M Editor (option (Z * Z) * Z) :=
  let! s := get in
  let pos := skip_while is_blank command 0 in
  match char_at command pos with
  | Some 44 => ret (Some (whole_range s), pos + 1)
  | Some 59 => ret (Some (ed_dot s, len (ed_lines s)), pos + 1)
  | _ => range_from command pos
  end.

Definition default_range (command : Z) (addr : option (Z * Z)) (s : Editor) : Z * Z :=
  match addr with
  | Some r => r
  | None =>
      if (command =? ord "w"%char) || (command =? ord "W"%char) then whole_range s
      else if command =? ord "r"%char then (len (ed_lines s), len (ed_lines s))
      else if command =? ord "j"%char then
        if ed_dot s <? len (ed_lines s) then (ed_dot s, ed_dot s + 1) else (ed_dot s, ed_dot s)
      else if ed_dot s =? 0 then (0, 0)
      else (ed_dot s, ed_dot s)
  end.

(** ** Files of the editor *)

Section run.
(** [fuel]: how many chunks of 4096 bytes the file read last may have. *)
Context (fuel : nat).

Definition load_file (path : str) (force : bool) : M Editor unit :=
  let! s := get in
  let path := abspath path (ed_cwd s) in
  if changed s && negb force then raise (EdError "unsaved changes")
  else
    let! data :=
      try_except (let! d := on_vfs (read_all fuel path) in ret (Some d))
        (fun e => match e with
                  | FileNotFoundError =>
                      modify (fun s => put_dot 0 (set_undo [] (set_saved [] (set_lines [] (set_file path s))))) ;;;
                      ret None
                  | _ => raise e
                  end) in
    match data with
    | None => ret tt
    | Some data =>
        let lines := lines_from_text (decode data) in
        modify (fun s => put_dot (len lines) (set_undo lines (set_saved lines (set_lines lines (set_file path s))))) ;;;
        if negb (ed_silent s) then out (str_of_int (len data)) else ret tt
    end.

Definition write_file (path : str) (start end_ : Z) (append : bool) : M Editor unit :=
  let! s := get in
  let path := match path with [] => ed_file s | _ => path end in
  match path with
  | [] => raise (EdError "no current filename")
  | _ =>
      let path := abspath path (ed_cwd s) in
      let! data := lift (text_from_lines (if 0 <? start then slice (ed_lines s) (start - 1) end_ else [])) in
      on_vfs (write_all path data append) ;;;
      (if negb append && (start =? 1) && (end_ =? len (ed_lines s)) then
         modify (fun s => set_saved (ed_lines s) (set_file path s))
       else ret tt) ;;;
      if negb (ed_silent s) then out (str_of_int (len data)) else ret tt
  end.

Definition command_read (address : Z) (path : str) : M Editor unit :=
  let! s := get in
  let path := match path with [] => ed_file s | _ => path end in
  match path with
  | [] => raise (EdError "missing filename")
  | _ =>
      let! data := on_vfs (read_all fuel (abspath path (ed_cwd s))) in
      insert_after address (lines_from_text (decode data)) ;;;
      if negb (ed_silent s) then out (str_of_int (len data)) else ret tt
  end.

(** ** Commands *)

(** The target of [m] and [t]. *)
Definition parse_target (arg : str) : M Editor Z :=
  let! (target, idx) := parse_address arg 0 in
  match target with
  | Some t => if idx =? len arg then ret t else raise (EdError "invalid address")
  | None => raise (EdError "invalid address")
  end.

(** The commands with a range. *)
Definition ranged (command : Z) (arg : str) (addressed : bool) (start end_ : Z) : M Editor unit :=
  if command =? ord "a"%char then command_append end_
  else if command =? ord "i"%char then command_insert end_
  else if command =? ord "c"%char then command_change start end_
  else if command =? ord "d"%char then delete_range start end_
  else if command =? ord "j"%char then command_join start end_
  else if command =? ord "p"%char then print_range start end_ false false
  else if command =? ord "n"%char then print_range start end_ true false
  else if command =? ord "l"%char then print_range start end_ false true
  else if command =? ord "="%char then
    let! s := get in out (str_of_int (if addressed then end_ else len (ed_lines s)))
  else if command =? ord "k"%char then
    match arg with
    | [c] => if is_alpha c then modify (fun s => set_marks (<[c := end_]> (ed_marks s)) s)
             else raise (EdError "invalid mark")
    | _ => raise (EdError "invalid mark")
    end
  else if command =? ord "m"%char then
    let! target := parse_target arg in command_move start end_ target
  else if command =? ord "t"%char then
    let! target := parse_target arg in command_copy start end_ target
  else if command =? ord "r"%char then command_read end_ arg
  else if command =? ord "w"%char then
    let quit_after := startswith arg (lit "q") in
    let arg := if quit_after then strip is_space (slice_from arg 1) else arg in
    write_file arg start end_ false ;;;
    if quit_after then modify (set_running false) else ret tt
  else if command =? ord "W"%char then write_file arg start end_ true
  else if command =? ord "y"%char then
    modify (fun s => set_cut (if start =? 0 then [] else slice (ed_lines s) (start - 1) end_) s)
  else if command =? ord "x"%char then
    let! s := get in insert_after end_ (ed_cut s)
  else raise (EdError "unknown command").

Definition execute (raw : str) : M Editor unit :=
  let! (addr, pos) := parse_range raw in
  let rest := strip is_space (slice_from raw pos) in
  match rest with
  | [] =>
      match addr with
      | Some (start, end_) => print_range start end_ false false
      | None =>
          let! s := get in
          let target := ed_dot s + 1 in
          if len (ed_lines s) <? target then raise (EdError "invalid address")
          else print_range target target false false
      end
  | command :: rest' =>
      let arg := strip is_space rest' in
      let! s := get in
      if command =? ord "#"%char then ret tt
      else if command =? ord "!"%char then raise (EdError "shell escapes are not available")
      else if command =? ord "P"%char then modify (set_prompting (negb (ed_prompting s)))
      else if command =? ord "h"%char then
        match ed_last_error s with EmptyString => ret tt | e => out (lit e) end
      else if command =? ord "H"%char then modify (set_verbose (negb (ed_verbose s)))
      else if command =? ord "u"%char then
        modify (fun s => set_undo (ed_lines s) (set_lines (ed_undo s) s)) ;;;
        let! s := get in
        set_dot (Z.min (ed_dot s) (len (ed_lines s)))
      else if command =? ord "f"%char then
        match arg with [] => ret tt | _ => modify (set_file (abspath arg (ed_cwd s))) end ;;;
        let! s := get in out (ed_file s)
      else if command =? ord "q"%char then
        if changed s then raise (EdError "unsaved changes") else modify (set_running false)
      else if command =? ord "Q"%char then modify (set_running false)
      else if command =? ord "e"%char then
        match arg with [] => raise (EdError "missing filename") | _ => load_file arg false end
      else if command =? ord "E"%char then
        match arg with [] => raise (EdError "missing filename") | _ => load_file arg true end
      else
        let (start, end_) := default_range command addr s in
        ranged command arg (match addr with Some _ => true | None => false end) start end_
  end.

(** ** The session *)

Fixpoint parse_options (argv : list str) : M Editor (option str) :=
  match argv with
  | [] => ret None
  | arg :: rest =>
      if beq arg (lit "-s") || beq arg (lit "--quiet") || beq arg (lit "--silent") then
        modify (set_silent true) ;;; parse_options rest
      else if beq arg (lit "-v") || beq arg (lit "--verbose") then
        modify (set_verbose true) ;;; parse_options rest
      else if beq arg (lit "-p") then
        match rest with
        | [] => raise (EdError "missing prompt")
        | p :: rest' => modify (fun s => set_prompting true (set_prompt p s)) ;;; parse_options rest'
        end
      else if startswith arg (lit "--prompt=") then
        modify (fun s => set_prompting true (set_prompt (slice_from arg (len (lit "--prompt="))) s)) ;;;
        parse_options rest
      else if beq arg (lit "-V") || beq arg (lit "--version") then
        out (lit "PythonOS ed 0.1") ;;; modify (set_running false) ;;; parse_options rest
      else if beq arg (lit "-h") || beq arg (lit "--help") then
        out (lit "usage: ed [-s] [-v] [-p prompt] [file]") ;;; modify (set_running false) ;;; parse_options rest
      else if startswith arg (lit "-") then raise (EdError "unknown option")
      else ret (Some (join [space] argv))
  end.

Definition parse_args (argv : list str) : M Editor unit :=
  let! filename := parse_options argv in
  match filename with
  | Some f => load_file f true
  | None => ret tt
  end.

(** One turn of the loop of [run]. *)
Definition ed_turn : M Editor unit :=
  let! s := get in
  try_except
    (let! raw := read_line (if ed_prompting s then ed_prompt s else []) in execute raw)
    (fun e => match e with
              | EdError msg => ed_error msg
              | EOFError => modify (set_running false)
              | _ => raise e
              end).

Fixpoint ed_loop (turns : nat) : M Editor unit :=
  let! running := gets ed_running in
  if running then
    match turns with
    | O => raise RuntimeError
    | S turns' => ed_turn ;;; ed_loop turns'
    end
  else ret tt.

(** [Editor.run]: a turn takes a character of the input or stops at its end. *)
Definition ed_run (argv : list str) : M Editor unit :=
  parse_args argv ;;;
  let! input := gets ed_in in
  ed_loop (S (length input)).
End run.
End ed.
Arguments Editor : clear implicits.

(** ** Sessions *)
