(* ===== verification/EdProps.v ===== *)
(** * Properties of the line editor *)

From Stdlib Require Import ZArith Lia Ascii.
From stdpp Require Import base list gmap numbers strings.
From S2P Require Import Prelude Bytes Pystr Vfs VfsProps Ed.

Local Open Scope Z_scope.

(** ** Paths *)

(** A segment that stays in a normal path. *)
Definition plain (p : str) : Prop := good_part p /\ p <> lit "." /\ p <> lit "..".

Lemma removelast_Forall {A} (P : A -> Prop) l : Forall P l -> Forall P (removelast l).
Proof. induction 1 as [|x l Hx Hl IH]; [constructor|]. simpl. destruct l; [constructor|]. by constructor. Qed.

Lemma norm_segs_plain segs parts :
  Forall (no_char slash) segs -> Forall plain parts -> Forall plain (norm_segs parts segs).
Proof.
  intros Hs. revert parts. induction Hs as [|seg segs Hseg Hs IH]; intros parts Hp; [done|].
  cbn [norm_segs]. apply IH. destruct (beq_spec seg (lit "..")); [by apply removelast_Forall|].
  destruct (beq_spec seg []); [done|]. destruct (beq_spec seg (lit ".")); [done|].
  apply Forall_app. split; [done|]. by repeat constructor.
Qed.

Lemma norm_segs_id ps parts : Forall plain ps -> norm_segs parts ps = parts ++ ps.
Proof.
  intros Hp. revert parts. induction Hp as [|p ps ((Hne & _) & Hd & Hdd) Hp IH]; intros parts; [by rewrite app_nil_r|].
  cbn [norm_segs]. destruct (beq_spec p (lit "..")); [done|]. destruct (beq_spec p []); [done|].
  destruct (beq_spec p (lit ".")); [done|]. cbn [negb andb]. by rewrite IH, <- (assoc_L (++)).
Qed.

Lemma split_npath ps : Forall plain ps -> norm_segs [] (split slash (npath ps)) = ps.
Proof.
  intros Hp. unfold npath. change (slash :: ?l) with ([] ++ slash :: l).
  rewrite split_app_sep by (by intros ?%elem_of_nil). destruct ps as [|p ps]; [done|].
  rewrite split_join; [|done|]; [|eapply list.Forall_impl; [exact Hp|]; by intros q ((_ & ?) & _)].
  change (norm_segs [] ([] :: p :: ps)) with (norm_segs [] (p :: ps)). by rewrite norm_segs_id.
Qed.

(** The editor's paths are absolute and normal: whatever is typed, the
    result is a slash and the segments joined by slashes, none of them empty,
    a dot or a double dot; it means the same from any directory, and the
    filesystem switch takes it as it is. *)
Theorem ed_abspath path cwd cwd' :
  exists ps, abspath path cwd = npath ps /\ Forall plain ps /\
    abspath (abspath path cwd) cwd' = abspath path cwd /\
    parts_of (abs_path (abspath path cwd)) = ps.
Proof.
  set (target := if startswith path [slash] then path else rstrip is_slash cwd ++ [slash] ++ path).
  exists (norm_segs [] (split slash target)).
  assert (Hp : Forall plain (norm_segs [] (split slash target))) by (apply norm_segs_plain; [apply split_no_char|constructor]).
  assert (E : abspath path cwd = npath (norm_segs [] (split slash target))) by done.
  rewrite E. split_and!; [done|done| |].
  - unfold abspath at 1. change (startswith (npath ?q) [slash]) with true. cbv iota. by rewrite split_npath.
  - assert (Hg : Forall good_part (norm_segs [] (split slash target))).
    { eapply list.Forall_impl; [exact Hp|]. by intros q (? & _). }
    by rewrite abs_path_npath, parts_of_npath.
Qed.

(** ** The buffer *)

Section buffer.
Context {W Node : Type} `{FSNode W Node}.
Abbreviation Editor := (Ed.Editor W Node).

(** What a command leaves alone when it does not edit. *)
Definition buffer (s : Editor) : list str * list str * Z := (ed_lines s, ed_undo s, ed_dot s).
Definition quiet {A} (m : M Editor A) : Prop := forall b, keeps (fun s => buffer s = b) m.

Lemma quiet_ret {A} (a : A) : quiet (ret a).
Proof. intros b. apply keeps_ret. Qed.
Lemma quiet_raise {A} e : quiet (raise (A := A) e).
Proof. intros b. apply keeps_raise. Qed.
Lemma quiet_lift {A} (r : result A) : quiet (lift r).
Proof. intros b. apply keeps_lift. Qed.
Lemma quiet_get : quiet get.
Proof. intros b. apply keeps_get. Qed.
Lemma quiet_gets {A} (f : Editor -> A) : quiet (gets f).
Proof. intros b. apply keeps_gets. Qed.
Lemma quiet_bind {A B} (m : M Editor A) (f : A -> M Editor B) : quiet m -> (forall a, quiet (f a)) -> quiet (bind m f).
Proof. intros Hm Hf b. apply keeps_bind; [apply Hm|]. intros a. apply Hf. Qed.
Lemma quiet_try {A} (m : M Editor A) h : quiet m -> (forall e, quiet (h e)) -> quiet (try_except m h).
Proof. intros Hm Hf b. apply keeps_try; [apply Hm|]. intros e. apply Hf. Qed.
Lemma quiet_modify f : (forall s, buffer (f s) = buffer s) -> quiet (modify f).
Proof. intros Hf b. apply keeps_modify. intros s <-. apply Hf. Qed.
Lemma quiet_on_vfs {A} (m : M (VFS W Node) A) : quiet (on_vfs m).
Proof. intros b s r s' <-. unfold on_vfs, zoom. destruct (m (ed_vfs s)). by intros [= _ <-]. Qed.
Lemma quiet_term_write t : quiet (term_write t).
Proof. by apply quiet_modify. Qed.
Lemma quiet_out t : quiet (out t).
Proof. apply quiet_term_write. Qed.
End buffer.

Create HintDb ed discriminated.
#[export] Hint Resolve quiet_ret quiet_raise quiet_lift quiet_get quiet_gets quiet_on_vfs quiet_term_write quiet_out : ed.

(** Splits a program into its steps and branches. *)
Ltac quiet_tac :=
  repeat first
    [ solve [auto with ed]
    | apply quiet_bind; [|intros ?]
    | apply quiet_try; [|intros ?]
    | apply quiet_modify; by intros ?
    | case_match ].

Section edits.
Context {W Node : Type} `{FSNode W Node}.
Abbreviation Editor := (Ed.Editor W Node).
Implicit Types s : Editor.

Lemma quiet_read_line p : quiet (W := W) (Node := Node) (read_line p).
Proof.
  apply quiet_bind; [quiet_tac|]. intros ? b s r s' <-. destruct (read_chars _ _ _) as [[r' i] o]. by intros [= _ <-].
Qed.
Lemma quiet_read_text_loop n acc : quiet (W := W) (Node := Node) (read_text_loop n acc).
Proof.
  revert acc. induction n as [|n IH]; intros acc; cbn [read_text_loop]; [auto with ed|].
  apply quiet_bind; [apply quiet_read_line|]. intros line. case_match; [auto with ed|apply IH].
Qed.
Lemma quiet_read_text : quiet (W := W) (Node := Node) read_text.
Proof. apply quiet_bind; [auto with ed|]. intros i. apply quiet_read_text_loop. Qed.
Lemma quiet_address_base c p ch : quiet (W := W) (Node := Node) (address_base c p ch).
Proof. unfold address_base. quiet_tac. Qed.
Lemma quiet_parse_address c p : quiet (W := W) (Node := Node) (parse_address c p).
Proof.
  unfold parse_address. case_match; [|auto with ed]. apply quiet_bind; [apply quiet_address_base|].
  intros [[v q]|]; quiet_tac.
Qed.
Lemma quiet_parse_target a : quiet (W := W) (Node := Node) (parse_target a).
Proof. unfold parse_target. apply quiet_bind; [apply quiet_parse_address|]. intros [t i]. quiet_tac. Qed.
Lemma quiet_write_file p a b c : quiet (W := W) (Node := Node) (write_file p a b c).
Proof. unfold write_file. quiet_tac. Qed.
End edits.
#[export] Hint Resolve quiet_read_line quiet_read_text quiet_parse_address quiet_parse_target quiet_write_file : ed.

Section undo.
Context {W Node : Type} `{FSNode W Node}.
Abbreviation Editor := (Ed.Editor W Node).
Implicit Types s : Editor.

Definition dot_ok s : Prop := 0 <= ed_dot s <= len (ed_lines s).
Definition range_ok (a b : Z) s : Prop := 0 <= a <= b /\ b <= len (ed_lines s).

(** The buffer after a command: as it was, or kept for undo. *)
Definition kept_for_undo s s' : Prop := ed_lines s' = ed_lines s \/ ed_undo s' = ed_lines s.

(** A command on the lines [a] to [b]: the text is kept, and the current line
    stays in the buffer when the range is in it. *)
Definition edits (a b : Z) {A} (m : M Editor A) : Prop :=
  forall s r s', m s = (r, s') -> kept_for_undo s s' /\ (dot_ok s -> range_ok a b s -> dot_ok s').

Lemma edits_same s s' a b : buffer s' = buffer s -> kept_for_undo s s' /\ (dot_ok s -> range_ok a b s -> dot_ok s').
Proof. intros [= E1 E2 E3]. split; [by left|]. unfold dot_ok. by rewrite E1, E3. Qed.
Lemma edits_quiet {A} a b (m : M Editor A) : quiet m -> edits a b m.
Proof. intros Hm s r s' E. apply edits_same. by apply (Hm (buffer s) s r s'). Qed.

Lemma edits_after {A B} a b (m : M Editor A) (f : A -> M Editor B) :
  quiet m -> (forall x, edits a b (f x)) -> edits a b (bind m f).
Proof.
  intros Hm Hf s r s'. unfold bind. destruct (m s) as [[x|e] s1] eqn:E; intros E';
    pose proof (Hm (buffer s) s _ s1 eq_refl E) as [= E1 E2 E3].
  - destruct (Hf x _ _ _ E') as [Hk Hd]. unfold kept_for_undo, dot_ok, range_ok in *.
    rewrite E1 in Hk. rewrite E1, E3 in Hd. done.
  - injection E' as _ <-. apply edits_same. unfold buffer. by rewrite E1, E2, E3.
Qed.

Lemma edits_then {A B} a b (m : M Editor A) (f : A -> M Editor B) :
  edits a b m -> (forall x, quiet (f x)) -> edits a b (bind m f).
Proof.
  intros Hm Hf s r s'. unfold bind. destruct (m s) as [[x|e] s1] eqn:E; intros E'; [|simplify_eq; by eapply Hm].
  destruct (Hm _ _ _ E) as [Hk Hd]. pose proof (Hf x (buffer s1) s1 _ s' eq_refl E') as [= E1 E2 E3].
  unfold kept_for_undo, dot_ok in *. by rewrite E1, E2, E3.
Qed.

Lemma edits_insert_after a b at_ new : edits a b (insert_after at_ new).
Proof.
  intros s r s'. destruct new as [|x new']; [intros [= _ <-]; by apply edits_same|].
  set (new := x :: new'). change (match new with [] => _ | _ => ?m end) with m.
  intros [= _ <-]. simpl. set (i := Z.max 0 (Z.min (len (ed_lines s)) at_)).
  split; [by right|]. intros _ _. unfold dot_ok. simpl.
  pose proof (len_nonneg (ed_lines s)). pose proof (len_nonneg new).
  rewrite len_slice_assign by lia. change (len (x :: new')) with (len new). lia.
Qed.

(** A slice assignment that starts inside the list and takes a part of it. *)
Lemma len_assign_any (l v : list str) i j :
  len (slice_assign l i j v) = len l - (Z.max (clamp (len l) i) (clamp (len l) j) - clamp (len l) i) + len v.
Proof.
  pose proof (clamp_bounds (len l) i (len_nonneg l)). pose proof (clamp_bounds (len l) j (len_nonneg l)).
  unfold slice_assign, len in *. rewrite !length_app, length_take, length_drop. lia.
Qed.
Lemma edits_delete a b : edits a b (delete_range a b).
Proof.
  intros s r s'. unfold delete_range. destruct ((a =? 0) && (b =? 0)); [intros [= _ <-]; by apply edits_same|].
  intros [= _ <-]. simpl. split; [by right|]. intros _ [Ha Hb]. unfold dot_ok. simpl.
  set (l := del_slice (a - 1) b (ed_lines s)). pose proof (len_nonneg l).
  destruct l as [|x l']; [change (len (A := str) []) with 0|]; lia.
Qed.

Lemma edits_append a b at_ : edits a b (command_append at_).
Proof. apply edits_after; [apply quiet_read_text|]. intros text. apply edits_insert_after. Qed.
Lemma edits_insert a b at_ : edits a b (command_insert at_).
Proof. unfold command_insert. case_match; apply edits_append. Qed.

Lemma edits_change a b : edits a b (command_change a b).
Proof.
  apply edits_after; [apply quiet_read_text|]. intros text s r s'.
  pose proof (len_nonneg text) as Ht. pose proof (len_nonneg (ed_lines s)) as Hl.
  destruct ((a =? 0) && (b =? 0)) eqn:Hz; unfold bind, snapshot, modify; simpl; intros [= _ <-];
    (split; [by right|]); intros _ [Ha Hb]; unfold dot_ok; simpl.
  { rewrite len_app. lia. }
  set (l1 := del_slice (a - 1) b (ed_lines s)). rewrite len_assign_any.
  pose proof (len_nonneg l1). pose proof (clamp_bounds (len l1) (a - 1) (len_nonneg l1)).
  destruct text as [|t text']; [change (len (A := str) []) with 0 in *; lia|]. rewrite len_cons in *. pose proof (len_nonneg text').
  assert (a - 1 <= len l1); [|lia].
  unfold l1, del_slice. rewrite len_assign_any, len_nil. destruct (Z.eq_dec a 0) as [->|Hne].
  - pose proof (clamp_bounds (len (ed_lines s)) (0 - 1) Hl). pose proof (clamp_bounds (len (ed_lines s)) b Hl). lia.
  - rewrite (clamp_id _ (a - 1)), (clamp_id _ b) by lia. lia.
Qed.

Lemma edits_join a b : edits a b (command_join a b).
Proof.
  intros s r s'. unfold command_join. destruct (Z.eqb_spec a 0) as [->|Ha]; simpl; [intros [= _ <-]; by apply edits_same|].
  destruct (Z.eqb_spec a b) as [->|Hab]; [intros [= _ <-]; by apply edits_same|].
  intros [= _ <-]. simpl. split; [by right|]. intros _ [Hr Hb]. unfold dot_ok. simpl.
  rewrite len_slice_assign by lia. match goal with |- context [len [?x]] => change (len [x]) with 1 end. lia.
Qed.

Lemma clamped_insert (l block : list str) t :
  let i := Z.max 0 (Z.min (len l) t) in 0 <= i + len block <= len (slice_assign l i i block).
Proof.
  intros i. pose proof (len_nonneg l). pose proof (len_nonneg block). rewrite len_slice_assign by lia. lia.
Qed.

Lemma edits_move a b t : edits a b (command_move a b t).
Proof.
  intros s r s'. unfold command_move. destruct ((a <=? t) && (t <=? b)); [intros [= _ <-]; by apply edits_same|].
  intros [= _ <-]. simpl. split; [by right|]. intros _ _. unfold dot_ok. simpl. apply clamped_insert.
Qed.
Lemma edits_copy a b t : edits a b (command_copy a b t).
Proof.
  intros s r s'. intros [= _ <-]. simpl. split; [by right|]. intros _ _. unfold dot_ok. simpl. apply clamped_insert.
Qed.

Lemma dot_to_ok (l : list str) v : 0 <= dot_to l v <= len l.
Proof. destruct l as [|x l]; simpl; [change (len (A := str) []) with 0; lia|]. rewrite len_cons. pose proof (len_nonneg l). lia. Qed.

Lemma quiet_print_line n l i : quiet (W := W) (Node := Node) (print_line n l i).
Proof. unfold print_line. quiet_tac. Qed.
Lemma quiet_for_each {A} (l : list A) (body : A -> M Editor unit) : (forall x, quiet (body x)) -> quiet (for_each l body).
Proof. intros Hb c. apply keeps_for_each. intros x. apply Hb. Qed.
Lemma edits_print a b x y n l : edits a b (print_range x y n l).
Proof.
  unfold print_range. case_match; [apply edits_quiet, quiet_ret|].
  apply edits_after; [apply quiet_for_each; intros ?; apply quiet_print_line|].
  intros ? s r s' [= _ <-]. split; [by left|]. intros _ _. apply dot_to_ok.
Qed.

Lemma edits_command_read fuel a b at_ p : edits a b (command_read fuel at_ p).
Proof.
  unfold command_read. apply edits_after; [auto with ed|]. intros s.
  destruct (match p with [] => ed_file s | _ => p end) as [|c path]; [apply edits_quiet; auto with ed|].
  apply edits_after; [auto with ed|]. intros data. apply edits_then; [apply edits_insert_after|].
  intros ?. case_match; auto with ed.
Qed.

Lemma edits_ranged fuel c arg ad a b : edits a b (ranged fuel c arg ad a b).
Proof.
  unfold ranged.
  repeat (case_match; [first [apply edits_append | apply edits_insert | apply edits_change | apply edits_delete
    | apply edits_join | apply edits_print | apply edits_command_read | (apply edits_quiet; solve [quiet_tac])
    | (apply edits_after; [auto with ed|intros ?; first [apply edits_move|apply edits_copy|apply edits_insert_after]]) ]|]).
  apply edits_quiet. auto with ed.
Qed.

(** [load_file] replaces the buffer as a whole. *)
Lemma load_file_spec fuel p f s r s' : load_file fuel p f s = (r, s') ->
  buffer s' = buffer s \/ (ed_undo s' = ed_lines s' /\ ed_saved s' = ed_lines s' /\ dot_ok s').
Proof.
  unfold load_file. unfold bind at 1, get. destruct (changed s && negb f); [intros [= _ <-]; by left|].
  unfold bind at 1. destruct (try_except _ _ s) as [[d|e] s1] eqn:E; unfold try_except in E.
  - destruct ((let! d := on_vfs (read_all fuel (abspath p (ed_cwd s))) in ret (Some d)) s) as [[d'|e'] s2] eqn:E2.
    + injection E as <- <-. assert (Hb : buffer s2 = buffer s).
      { refine (quiet_bind _ _ _ _ (buffer s) _ _ _ eq_refl E2); auto with ed. }
      destruct d' as [data|]; [|intros [= _ <-]; by left]. intros E'. right.
      unfold bind, modify in E'. destruct (negb (ed_silent s)); injection E' as _ <-; simpl;
        (split_and!; [done..|]); unfold dot_ok; simpl; pose proof (len_nonneg (lines_from_text (decode data))); lia.
    + destruct e'; try discriminate E. injection E as <- <-. intros [= _ <-]. right. split_and!; [done..|].
      unfold dot_ok. simpl. done.
  - destruct ((let! d := on_vfs (read_all fuel (abspath p (ed_cwd s))) in ret (Some d)) s) as [[d'|e'] s2] eqn:E2; [done|].
    intros [= _ <-]. left.
    assert (Hb : buffer s2 = buffer s) by (refine (quiet_bind _ _ _ _ (buffer s) _ _ _ eq_refl E2); auto with ed).
    destruct e'; first [discriminate E | by injection E as _ <-].
Qed.

(** Reading the addresses changes nothing but the current line. *)
Definition text_of (s : Editor) : list str * list str := (ed_lines s, ed_undo s).
Lemma quiet_text {A} (m : M Editor A) b : quiet m -> keeps (fun s => text_of s = b) m.
Proof. intros Hm t r t' <- E. unfold text_of. by pose proof (Hm (buffer t) t _ t' eq_refl E) as [= -> -> _]. Qed.

Lemma text_range_end c f p b : keeps (fun s : Editor => text_of s = b) (range_end c f p).
Proof.
  unfold range_end. apply keeps_bind; [auto with py|]. intros s0. case_match; [|auto with py]. case_match; [|auto with py].
  apply keeps_bind; [case_match; auto with py|]. intros ?. apply keeps_bind; [apply quiet_text; auto with ed|].
  intros [? ?]. auto with py.
Qed.
Lemma text_parse_range raw b : keeps (fun s : Editor => text_of s = b) (parse_range raw).
Proof.
  assert (Hf : forall pos, keeps (fun s : Editor => text_of s = b) (range_from raw pos)).
  { intros pos. apply keeps_bind; [auto with py|]. intros s0. apply keeps_bind; [apply quiet_text; auto with ed|].
    intros [[first|] pos2]; [|auto with py]. apply keeps_bind; [apply text_range_end|].
    intros [[st en] ps]. case_match; auto with py. }
  unfold parse_range. apply keeps_bind; [auto with py|]. intros s0. repeat (case_match; auto with py).
Qed.

Lemma range_end_dot c f p s a e q s1 : range_end c f p s = (Ok (a, e, q), s1) ->
  a = f /\ (dot_ok s -> 0 <= f <= len (ed_lines s) -> dot_ok s1).
Proof.
  unfold range_end. unfold bind at 1, get. destruct (char_at c p) as [sep|]; [|by intros [= <- _ _ <-]].
  destruct ((sep =? 44) || (sep =? 59)); [|by intros [= <- _ _ <-]].
  unfold bind at 1. destruct (sep =? 59); unfold modify, ret at 1; cbv iota beta;
    (unfold bind; match goal with |- context [parse_address c ?p' ?s2] =>
       destruct (parse_address c p' s2) as [[[x y]|err] s3] eqn:E end; [|done]; intros [= <- _ _ <-];
     pose proof (quiet_parse_address _ _ (buffer _) _ _ _ eq_refl E) as [= E1 E2 E3];
     (split; [done|]); intros Hd Hf; unfold dot_ok in *; rewrite E1, E3; simpl; done).
Qed.

Lemma parse_range_ok raw s addr pos s1 : parse_range raw s = (Ok (addr, pos), s1) ->
  (dot_ok s -> dot_ok s1) /\ (dot_ok s1 -> match addr with Some (a, b) => range_ok a b s1 | None => True end).
Proof.
  intros E. pose proof (text_parse_range raw _ _ _ _ eq_refl E) as [= El _]. unfold range_ok. rewrite El. revert E.
  unfold parse_range. unfold bind at 1, get. pose proof (len_nonneg (ed_lines s)) as Hn.
  assert (Hfrom : range_from raw (skip_while is_blank raw 0) s = (Ok (addr, pos), s1) ->
    (dot_ok s -> dot_ok s1) /\
    (dot_ok s1 -> match addr with Some (a, b) => 0 <= a <= b /\ b <= len (ed_lines s) | None => True end)).
  { unfold range_from. unfold bind at 1, get. unfold bind at 1.
    destruct (parse_address _ _ s) as [[[first p2]|e] s2] eqn:Ep; [|done].
    pose proof (quiet_parse_address _ _ (buffer s) _ _ _ eq_refl Ep) as [= E1 E2 E3].
    assert (Hd2 : dot_ok s -> dot_ok s2) by (unfold dot_ok; by rewrite E1, E3).
    destruct first as [f|]; [|intros [= <- _ <-]; done]. unfold bind.
    destruct (range_end _ f _ s2) as [[[[st en] ps]|e] s3] eqn:Er; [|done].
    destruct (range_end_dot _ _ _ _ _ _ _ _ Er) as [-> Hd3]. rewrite E1 in Hd3.
    destruct (Z.ltb_spec f 0), (Z.ltb_spec en 0), (Z.ltb_spec (len (ed_lines s)) f), (Z.ltb_spec (len (ed_lines s)) en),
      (Z.ltb_spec en f); simpl; try done. intros [= <- _ <-]. split; [|lia]. intros Hd. apply Hd3; [auto|lia]. }
  destruct (char_at raw _) as [c|] eqn:Ec; [|by apply Hfrom].
  destruct (Z.eq_dec c 44) as [->|Hne1].
  { intros [= <- _ <-]. split; [done|]. intros _. unfold whole_range. destruct (ed_lines s) as [|x l] eqn:El'; [done|].
    rewrite len_cons in *. pose proof (len_nonneg l). lia. }
  destruct (Z.eq_dec c 59) as [->|Hne2].
  { intros [= <- _ <-]. split; [done|]. unfold dot_ok. lia. }
  intros E. apply Hfrom. revert E. destruct c as [|q|q]; try done. repeat (destruct q as [q|q|]; try done).
Qed.

Lemma default_range_ok c addr s a b :
  dot_ok s -> match addr with Some (a, b) => range_ok a b s | None => True end ->
  default_range c addr s = (a, b) -> range_ok a b s.
Proof.
  unfold dot_ok, range_ok, default_range, whole_range. intros Hd Ha. destruct addr as [[a' b']|]; [by intros [= <- <-]|].
  pose proof (len_nonneg (ed_lines s)). case_match.
  { destruct (ed_lines s) as [|x l]; intros [= <- <-]; [done|]. rewrite len_cons in *. pose proof (len_nonneg l). lia. }
  case_match; [intros [= <- <-]; lia|]. case_match.
  { destruct (Z.ltb_spec (ed_dot s) (len (ed_lines s))); intros [= <- <-]; lia. }
  case_match; intros [= <- <-]; lia.
Qed.

(** A command after its addresses: the text is kept or freshly loaded, and the
    current line stays in the buffer. *)
Definition command_ok s s' : Prop :=
  (kept_for_undo s s' \/ (ed_undo s' = ed_lines s' /\ ed_saved s' = ed_lines s')) /\ (dot_ok s -> dot_ok s').

Lemma edits_command {A} a b (m : M Editor A) s r s' :
  (dot_ok s -> range_ok a b s) -> edits a b m -> m s = (r, s') -> command_ok s s'.
Proof. intros Hr Hm E. destruct (Hm _ _ _ E) as [Hk Hd]. split; [by left|auto]. Qed.
Lemma quiet_command {A} (m : M Editor A) s r s' : quiet m -> m s = (r, s') -> command_ok s s'.
Proof.
  intros Hm E. destruct (edits_quiet 0 0 m Hm _ _ _ E) as [Hk Hd]. split; [by left|]. intros Hs. apply Hd; [done|].
  split; [lia|apply len_nonneg].
Qed.
Lemma load_command fuel p f s r s' : load_file fuel p f s = (r, s') -> command_ok s s'.
Proof.
  intros E. destruct (load_file_spec _ _ _ _ _ _ E) as [[= E1 E2 E3]|(H1 & H2 & H3)].
  - split; [left; by left|]. unfold dot_ok. by rewrite E1, E3.
  - split; [by right|done].
Qed.

Lemma execute_command fuel raw s r s' addr pos s1 :
  parse_range raw s = (Ok (addr, pos), s1) ->
  (dot_ok s1 -> match addr with Some (a, b) => range_ok a b s1 | None => True end) ->
  execute fuel raw s = (r, s') -> command_ok s1 s'.
Proof.
  intros Ep Ha. unfold execute. rewrite (bind_step _ _ _ _ _ Ep). cbv beta iota zeta.
  destruct (strip is_space (slice_from raw pos)) as [|command rest].
  { destruct addr as [[a b]|]; [by apply (edits_command a b), edits_print|].
    unfold bind at 1, get. destruct (len (ed_lines s1) <? ed_dot s1 + 1); [intros E; by eapply quiet_command; [apply quiet_raise|exact E]|].
    apply (edits_command 0 0); [|apply edits_print]. intros _. split; [lia|apply len_nonneg]. }
  unfold bind at 1, get. set (arg := strip is_space rest).
  repeat (match goal with |- (if ?c =? ?k then _ else _) _ = _ -> _ => destruct (c =? k) end;
    [intros E; first [ (eapply quiet_command; [|exact E]; solve [quiet_tac]) | (destruct arg;
       [by eapply quiet_command; [apply quiet_raise|exact E]|by eapply load_command])
     | (injection E as _ <-; split; [left; by right|]; intros _; apply dot_to_ok) ]|]).
  destruct (default_range command addr s1) as [a b] eqn:Ed. apply (edits_command a b), edits_ranged.
  intros Hd. by eapply default_range_ok; [|apply Ha|].
Qed.

Lemma execute_u fuel s : exists s', execute fuel (lit "u") s = (Ok tt, s') /\ ed_lines s' = ed_undo s.
Proof.
  by exists (put_dot (dot_to (ed_undo s) (Z.min (ed_dot s) (len (ed_undo s)))) (set_undo (ed_lines s) (set_lines (ed_undo s) s))).
Qed.

(** C11: no command loses text: after any command line, accepted or rejected,
    the lines are those of before, or [u] brings them back, or the command has
    replaced the buffer by a file's content. *)
Theorem ed_undo_restores fuel raw s r s' :
  execute fuel raw s = (r, s') ->
  ed_lines s' = ed_lines s \/
  (exists s'', execute fuel (lit "u") s' = (Ok tt, s'') /\ ed_lines s'' = ed_lines s) \/
  (ed_undo s' = ed_lines s' /\ ed_saved s' = ed_lines s').
Proof.
  intros E. destruct (parse_range raw s) as [[[addr pos]|e] s1] eqn:Ep;
    pose proof (text_parse_range raw _ _ _ _ eq_refl Ep) as [= El _].
  - destruct (execute_command _ _ _ _ _ _ _ _ Ep (proj2 (parse_range_ok _ _ _ _ _ Ep)) E) as [[[Hk|Hk]|Hk] _].
    + left. by rewrite Hk.
    + right; left. destruct (execute_u fuel s') as (s'' & Eu & Hu). exists s''. split; [done|]. by rewrite Hu, Hk.
    + by right; right.
  - left. unfold execute in E. rewrite (bind_fail _ _ _ _ _ Ep) in E. by injection E as _ <-.
Qed.

(** C39: the current line stays inside the buffer through every command whose
    addresses are accepted; when it is in the buffer, an accepted address
    range is in it too. *)
Theorem ed_dot_in_buffer fuel raw s r s' addr pos s1 :
  dot_ok s -> parse_range raw s = (Ok (addr, pos), s1) -> execute fuel raw s = (r, s') ->
  dot_ok s' /\ ed_lines s1 = ed_lines s /\
  match addr with Some (a, b) => 0 <= a <= b /\ b <= len (ed_lines s) | None => True end.
Proof.
  intros Hd Ep E. destruct (parse_range_ok _ _ _ _ _ Ep) as [H1 H2].
  pose proof (text_parse_range raw _ _ _ _ eq_refl Ep) as [= El _].
  destruct (execute_command _ _ _ _ _ _ _ _ Ep H2 E) as [_ Hdot]. split; [auto|]. split; [done|].
  specialize (H2 (H1 Hd)). unfold range_ok in H2. by rewrite El in H2.
Qed.
End undo.

(** ** Moving lines *)

Section move.
Context {W Node : Type} `{FSNode W Node}.
Abbreviation Editor := (Ed.Editor W Node).

(** [m] moves a block of lines behind the target line and changes
    nothing else: down past [q], up past [q], or not at all when the target is
    inside the block, which is an error; the current line is the last one
    moved. *)
Theorem ed_move (s : Editor) p b q r :
  b <> [] -> q <> [] ->
  (ed_lines s = p ++ b ++ q ++ r ->
   exists s', command_move (len p + 1) (len p + len b) (len p + len b + len q) s = (Ok tt, s') /\
     ed_lines s' = p ++ q ++ b ++ r /\ ed_dot s' = len p + len q + len b /\ ed_undo s' = ed_lines s) /\
  (ed_lines s = p ++ q ++ b ++ r ->
   exists s', command_move (len p + len q + 1) (len p + len q + len b) (len p) s = (Ok tt, s') /\
     ed_lines s' = p ++ b ++ q ++ r /\ ed_dot s' = len p + len b /\ ed_undo s' = ed_lines s) /\
  (forall a e t, a <= t <= e -> command_move a e t s = (Err (EdError "invalid address"), s)).
Proof.
  intros Hb Hq. assert (Lb : 0 < len b) by (destruct b; [done|]; rewrite len_cons; pose proof (len_nonneg b); lia).
  assert (Lq : 0 < len q) by (destruct q; [done|]; rewrite len_cons; pose proof (len_nonneg q); lia).
  pose proof (len_nonneg p) as Lp. pose proof (len_nonneg r) as Lr. split_and!.
  - intros Hl. unfold command_move. destruct (Z.leb_spec (len p + len b + len q) (len p + len b)); [lia|].
    rewrite andb_false_r. destruct (Z.ltb_spec (len p + len b) (len p + len b + len q)); [|lia].
    unfold bind, snapshot, get, modify. simpl. rewrite !Z.add_simpl_r, Hl. unfold del_slice.
    rewrite slice_middle, slice_assign_mid. simpl. eexists. split; [reflexivity|]. simpl.
    replace (Z.max _ _) with (len (p ++ q)) by (rewrite !len_app; lia).
    rewrite (assoc_L (++) p), slice_assign_at, len_app. rewrite <- (assoc_L (++)). done.
  - intros Hl. unfold command_move. destruct (Z.leb_spec (len p + len q + 1) (len p)); [lia|]. simpl.
    destruct (Z.ltb_spec (len p + len q + len b) (len p)); [lia|].
    unfold bind, snapshot, get, modify. simpl. rewrite !Z.add_simpl_r, Hl. unfold del_slice.
    rewrite (assoc_L (++) p q), <- len_app, slice_middle, slice_assign_mid. simpl. eexists. split; [reflexivity|]. simpl.
    replace (Z.max _ _) with (len p) by (rewrite !len_app; lia).
    rewrite <- (assoc_L (++) p), slice_assign_at. rewrite <- (assoc_L (++)). done.
  - intros a e t [Ha He]. unfold command_move. apply Z.leb_le in Ha, He. by rewrite Ha, He.
Qed.
End move.

(** ** Typed text *)

Definition typed_char (c : Z) : Prop := c <> newline /\ is_erase c = false.
Definition typed_line (l : str) : Prop := Forall typed_char l /\ l <> lit ".".
Definition keystrokes (ls : list str) : str := concat (map (fun l => l ++ [newline]) ls).

Lemma read_chars_line l rest buf o : Forall typed_char l ->
  read_chars (l ++ newline :: rest) buf o = (Ok (buf ++ l), rest, o ++ l ++ [newline]).
Proof.
  intros Hl. revert buf o. induction Hl as [|c l [Hn He] Hl IH]; intros buf o; simpl.
  - by rewrite app_nil_r.
  - destruct (Z.eqb_spec c newline); [done|]. rewrite He, IH. by rewrite <- !(assoc_L (++)).
Qed.
Lemma read_chars_shorter i buf o r i' o' :
  read_chars i buf o = (r, i', o') -> (length i' <= length i)%nat /\ (is_ok r = true -> (length i' < length i)%nat).
Proof.
  revert buf o. induction i as [|c i IH]; intros buf o; simpl; [by intros [= <- <- _]|].
  destruct (c =? newline); [intros [= <- <- _]; simpl; lia|]. destruct (is_erase c); [destruct buf|];
    intros E; apply IH in E as [H1 H2]; (split; [lia|]); intros Hr; specialize (H2 Hr); lia.
Qed.

Section typing.
Context {W Node : Type} `{FSNode W Node}.
Abbreviation Editor := (Ed.Editor W Node).

Lemma read_line_typed l rest (s : Editor) : Forall typed_char l -> ed_in s = l ++ newline :: rest ->
  exists o, read_line [] s = (Ok l, set_term rest o s).
Proof. intros Hl Hi. eexists. unfold read_line. unfold bind, ret. simpl. by rewrite Hi, read_chars_line. Qed.

Lemma read_text_typed ls rest fuel acc (s : Editor) :
  Forall typed_line ls -> ed_in s = keystrokes ls ++ lit "." ++ newline :: rest -> (length ls < fuel)%nat ->
  exists o, read_text_loop fuel acc s = (Ok (acc ++ ls), set_term rest o s).
Proof.
  intros Hls. revert fuel acc s. induction Hls as [|l ls [Hl Hd] Hls IH]; intros fuel acc s Hi Hf;
    (destruct fuel as [|fuel]; [simpl in Hf; lia|]); cbn [read_text_loop].
  - destruct (read_line_typed (lit ".") rest s) as (o & E); [by repeat constructor|done|]. exists o.
    rewrite (bind_step _ _ _ _ _ E). by rewrite beq_refl, app_nil_r.
  - destruct (read_line_typed l (keystrokes ls ++ lit "." ++ newline :: rest) s) as (o & E); [done| |].
    { rewrite Hi. unfold keystrokes. cbn [map concat]. by rewrite <- !(assoc_L (++)). }
    rewrite (bind_step _ _ _ _ _ E). destruct (beq_spec l (lit ".")); [done|].
    destruct (IH fuel (acc ++ [l]) (set_term (keystrokes ls ++ lit "." ++ newline :: rest) o s)) as (o' & E'); [done|simpl in Hf; lia|].
    exists o'. rewrite E'. by rewrite <- (assoc_L (++)).
Qed.

Lemma keystrokes_length ls : (length ls <= length (keystrokes ls))%nat.
Proof. unfold keystrokes. induction ls as [|l ls IH]; simpl; [lia|]. rewrite !length_app. simpl. lia. Qed.

(** Typed text arrives: after [a] at the line behind [p], the lines typed
    up to the closing dot stand in the buffer behind [p], the last of them is
    the current line, and the terminal is left at what follows the dot. *)
Theorem ed_append_text (s : Editor) p q ls rest :
  ed_lines s = p ++ q -> ls <> [] -> Forall typed_line ls ->
  ed_in s = keystrokes ls ++ lit "." ++ newline :: rest ->
  exists s', command_append (len p) s = (Ok tt, s') /\
    ed_lines s' = p ++ ls ++ q /\ ed_dot s' = len p + len ls /\ ed_in s' = rest /\ ed_undo s' = ed_lines s.
Proof.
  intros Hl Hne Hls Hi. destruct (read_text_typed ls rest (S (length (ed_in s))) [] s) as (o & E); [done..| |].
  { rewrite Hi, length_app. pose proof (keystrokes_length ls). lia. }
  unfold command_append. rewrite (bind_step read_text _ s ls (set_term rest o s)) by exact E.
  destruct ls as [|l ls']; [done|]. set (ls := l :: ls') in *.
  unfold insert_after. change (match ls with [] => _ | _ => ?m end) with m.
  unfold bind, snapshot, get, modify. simpl. eexists. split; [reflexivity|]. simpl. rewrite Hl, len_app.
  pose proof (len_nonneg p). pose proof (len_nonneg q).
  replace (Z.max _ _) with (len p) by lia. by rewrite slice_assign_at.
Qed.

(** ** The loops end *)

Lemma count_while_nonneg f (l : str) : 0 <= count_while f l.
Proof. induction l as [|c l IH]; simpl; [done|]. case_match; lia. Qed.
Lemma skip_while_ge f c pos : pos <= skip_while f c pos.
Proof. unfold skip_while. pose proof (count_while_nonneg f (drop (Z.to_nat pos) c)). lia. Qed.
Lemma char_at_lt c pos x : 0 <= pos -> char_at c pos = Some x -> pos < len c.
Proof. unfold char_at, len. intros Hp Hx. apply lookup_lt_Some in Hx. lia. Qed.

Lemma parse_offsets_ends fuel c pos v :
  0 <= pos -> len c < pos + Z.of_nat fuel -> (0 < fuel)%nat -> parse_offsets fuel c pos v <> Err RuntimeError.
Proof.
  revert pos v. induction fuel as [|fuel IH]; intros pos v Hp Hf H0; [lia|]. cbn [parse_offsets].
  pose proof (skip_while_ge is_blank c pos) as H1. set (p1 := skip_while is_blank c pos) in *.
  destruct (char_at c p1) as [x|] eqn:Ex; [|done]. apply char_at_lt in Ex; [|lia].
  destruct (negb (is_sign x)); [done|]. cbv zeta.
  pose proof (skip_while_ge is_blank c (p1 + 1)) as H2. set (p2 := skip_while is_blank c (p1 + 1)) in *.
  destruct (char_at c p2) as [d|]; [|apply IH; lia]. destruct (is_digit d); [|apply IH; lia].
  unfold parse_number. pose proof (skip_while_ge is_digit c p2). destruct (py_int _) as [n|e] eqn:En; simpl.
  - apply IH; lia.
  - apply py_int_error in En as ->. done.
Qed.

Lemma read_line_shorter p (s : Editor) r s' : read_line p s = (r, s') ->
  (length (ed_in s') <= length (ed_in s))%nat /\
  match r with Ok _ => (length (ed_in s') < length (ed_in s))%nat | Err e => e = EOFError end.
Proof.
  unfold read_line. unfold bind at 1. intros E.
  assert (E' : exists s1 : Editor, ed_in s1 = ed_in s /\
    (let '(r, i, o) := read_chars (ed_in s1) [] (ed_out s1) in (r, set_term i o s1)) = (r, s')).
  { revert E. destruct (negb (beq p [])); [|exists s; done]. exists (set_term (ed_in s) (ed_out s ++ p) s). done. }
  clear E. destruct E' as (s1 & Hi & E). rewrite Hi in E. destruct (read_chars (ed_in s) [] (ed_out s1)) as [[r' i] o] eqn:Er.
  injection E as <- <-. simpl. destruct (read_chars_shorter _ _ _ _ _ _ Er) as [H1 H2]. split; [done|].
  destruct r' as [l|e]; [by apply H2|]. clear - Er. revert Er. generalize (@nil Z) as buf, (ed_out s1) as o1.
  induction (ed_in s) as [|c l IH]; intros buf o1; simpl; [by intros [= <- _ _]|].
  destruct (c =? newline); [done|]. destruct (is_erase c); [destruct buf|]; eauto.
Qed.

Lemma read_text_ends fuel acc (s : Editor) :
  (length (ed_in s) < fuel)%nat -> fst (read_text_loop fuel acc s) <> Err RuntimeError.
Proof.
  revert acc s. induction fuel as [|fuel IH]; intros acc s Hf; [lia|]. cbn [read_text_loop]. unfold bind.
  destruct (read_line [] s) as [[l|e] s1] eqn:E; apply read_line_shorter in E as [_ H1]; [|by subst].
  destruct (beq l (lit ".")); [done|]. apply IH. lia.
Qed.
End typing.

Section termination.
Context {W Node : Type} `{FSNode W Node}.
Abbreviation Editor := (Ed.Editor W Node).

(** No command gives input back. *)
Definition takes (k : nat) (s : Editor) : Prop := (length (ed_in s) <= k)%nat.
Implicit Types s : Editor.

Ltac takes_tac :=
  repeat first
    [ solve [auto with py]
    | apply keeps_bind; [|intros ?]
    | apply keeps_try; [|intros ?]
    | apply keeps_for_each; intros ?
    | (apply keeps_modify; by intros ?)
    | case_match ].

Lemma takes_on_vfs {A} k (m : M (VFS W Node) A) : keeps (takes k) (on_vfs m).
Proof. intros s r s' Hs. unfold on_vfs, zoom. destruct (m (ed_vfs s)). by intros [= _ <-]. Qed.
Lemma takes_write k t : keeps (takes k) (term_write t).
Proof. by apply keeps_modify. Qed.
Lemma takes_out k t : keeps (takes k) (out t).
Proof. apply takes_write. Qed.
Lemma takes_read_line k p : keeps (takes k) (read_line p).
Proof. intros s r s' Hs E. apply read_line_shorter in E as [Hl _]. unfold takes in *. lia. Qed.
Lemma takes_read_text k : keeps (takes k) read_text.
Proof.
  apply keeps_bind; [auto with py|]. intros i. generalize (@nil str) as acc. induction (S (length i)) as [|n IH]; intros acc; cbn [read_text_loop]; [apply keeps_raise|].
  apply keeps_bind; [apply takes_read_line|]. intros l. case_match; [apply keeps_ret|apply IH].
Qed.
Lemma takes_parse_address k c p : keeps (takes k) (parse_address c p).
Proof. unfold parse_address, address_base. takes_tac. Qed.
#[local] Hint Resolve takes_on_vfs takes_write takes_out takes_read_line takes_read_text takes_parse_address : py.

Lemma takes_parse_range k raw : keeps (takes k) (parse_range raw).
Proof.
  assert (Hf : forall p, keeps (takes k) (range_from raw p)) by (intros p; unfold range_from, range_end; takes_tac).
  unfold parse_range. takes_tac.
Qed.
Lemma takes_print k a b n l : keeps (takes k) (print_range a b n l).
Proof. unfold print_range, print_line, set_dot. takes_tac. Qed.
Lemma takes_insert_after k a l : keeps (takes k) (insert_after a l).
Proof. unfold insert_after, snapshot. takes_tac. Qed.
#[local] Hint Resolve takes_parse_range takes_print takes_insert_after : py.
Lemma takes_ranged fuel k c a ad x y : keeps (takes k) (ranged fuel c a ad x y).
Proof.
  unfold ranged, command_insert, command_append, command_change, delete_range, command_join, parse_target, command_move,
    command_copy, command_read, write_file, snapshot. takes_tac.
Qed.
Lemma takes_load fuel k p f : keeps (takes k) (load_file fuel p f).
Proof. unfold load_file. takes_tac. Qed.
#[local] Hint Resolve takes_ranged takes_load : py.
Lemma takes_execute fuel k raw : keeps (takes k) (execute fuel raw).
Proof. unfold execute, set_dot. takes_tac. Qed.

Lemma ed_turn_takes fuel s s1 : ed_turn fuel s = (Ok tt, s1) ->
  ed_running s1 = false \/ (length (ed_in s1) < length (ed_in s))%nat.
Proof.
  unfold ed_turn. unfold bind at 1, get. set (p := if ed_prompting s then ed_prompt s else []). clearbody p.
  unfold try_except, bind at 1. destruct (read_line p s) as [[raw|e] s2] eqn:Er; apply read_line_shorter in Er as [_ Hl].
  - destruct (execute fuel raw s2) as [[u|e] s3] eqn:Ex; apply (takes_execute _ (length (ed_in s2))) in Ex; try (unfold takes; lia);
      unfold takes in Ex; [intros [= _ <-]; right; lia|].
    destruct e; try done; [intros [= <-]; by left|]. unfold ed_error, bind, modify, get. simpl.
    intros E. right. revert E. destruct (ed_verbose s3), (ed_silent s3); simpl; intros [= <-]; simpl; lia.
  - subst e. intros [= <-]. by left.
Qed.

Lemma ed_loop_stopped fuel n s : ed_running s = false -> ed_loop fuel n s = (Ok tt, s).
Proof. intros Hr. destruct n; cbn [ed_loop]; unfold bind at 1, gets; by rewrite Hr. Qed.

Lemma ed_loop_enough fuel n k s : (length (ed_in s) < n)%nat -> ed_loop fuel (n + k) s = ed_loop fuel n s.
Proof.
  revert s. induction n as [|n IH]; intros s Hn; [lia|]. simpl Nat.add. cbn [ed_loop]. unfold bind at 1 3, gets.
  destruct (ed_running s); [|done]. unfold bind. destruct (ed_turn fuel s) as [[[]|e] s1] eqn:Et; [|done].
  destruct (ed_turn_takes _ _ _ Et) as [Hr|Hl]; [by rewrite !ed_loop_stopped|]. apply IH. lia.
Qed.

(** C38: the editor's loops end with its input: reading an address or a text
    never runs out of turns, and a session takes no more turns than there are
    characters to read, and one. *)
Theorem ed_terminates fuel s c pos v k :
  0 <= pos ->
  parse_offsets (S (length c)) c pos v <> Err RuntimeError /\
  fst (read_text s) <> Err RuntimeError /\
  ed_loop fuel (S (length (ed_in s)) + k) s = ed_loop fuel (S (length (ed_in s))) s.
Proof.
  intros Hp. split_and!.
  - apply parse_offsets_ends; [done| |lia]. unfold len. lia.
  - apply read_text_ends. lia.
  - apply ed_loop_enough. lia.
Qed.
End termination.
