(* ===== verification/EdFiles.v ===== *)
(** * The editor and its files

    Text written by the editor is read back the same, over any filesystem that
    keeps the laws of files and whose directories do not change when a file's
    data does; tmpfs is one.  Then the witnesses of the editor's properties,
    and sessions that show where it goes wrong. *)

From Stdlib Require Import ZArith Lia Ascii.
From stdpp Require Import base list gmap numbers strings.
From S2P Require Import Prelude Bytes Pystr Vfs VfsProps Tmpfs Ed EdProps.

Local Open Scope Z_scope.

(** ** Lines and text *)

Definition line_ok (l : str) : Prop := no_char newline l /\ Forall code_point l.
#[global] Instance line_ok_dec l : Decision (line_ok l).
Proof. unfold line_ok, no_char, code_point. apply _. Defined.

Lemma split_lines ls : ls <> [] -> Forall (no_char newline) ls ->
  split newline (join [newline] ls ++ [newline]) = ls ++ [[]].
Proof. intros Hne Hl. rewrite split_app, split_join by done. done. Qed.

Lemma join_code_points ls : Forall line_ok ls -> Forall code_point (join [newline] ls).
Proof.
  assert (Hn : code_point newline) by (unfold code_point, newline; lia).
  induction 1 as [|l ls [_ Hl] Hls IH]; [constructor|]. destruct ls as [|l2 ls]; [done|].
  rewrite join_cons by done. rewrite !Forall_app. auto.
Qed.

Lemma text_roundtrip ls : Forall line_ok ls ->
  exists data, text_from_lines ls = Ok data /\ lines_from_text (decode data) = ls.
Proof.
  intros Hls. destruct ls as [|l ls']; [by exists []|]. set (ls := l :: ls') in *.
  assert (Hn : Forall (no_char newline) ls) by (eapply list.Forall_impl; [exact Hls|]; by intros x [? _]).
  destruct (decode_encode (join [newline] ls ++ [newline])) as (data & E & D).
  { rewrite Forall_app. split; [by apply join_code_points|]. repeat constructor; unfold newline; lia. }
  exists data. split; [exact E|]. rewrite D. unfold lines_from_text.
  destruct (beq_spec (join [newline] ls ++ [newline]) []) as [Hnil|_]; [by apply app_eq_nil in Hnil as [_ ?]|].
  rewrite split_lines by done. rewrite List.last_last, beq_refl. apply removelast_last.
Qed.

(** ** What the editor needs of a filesystem *)

Class DataLaws (W Node : Type) `{FileLaws W Node} : Prop := {
  truncate_law w n d : content w n = Some d ->
    exists w', n_truncate n 0 w = (Ok tt, w') /\ content w' n = Some [];
  truncate_lookup w n d r w' m nm x : content w n = Some d -> n_truncate n 0 w = (r, w') ->
    n_lookup m nm w = (Ok x, w) -> n_lookup m nm w' = (Ok x, w');
  write_lookup w n d off data r w' m nm x : content w n = Some d -> n_write n off data w = (r, w') ->
    n_lookup m nm w = (Ok x, w) -> n_lookup m nm w' = (Ok x, w');
  lookup_pure w m nm r w' : n_lookup m nm w = (r, w') -> w' = w;
}.

Section files.
Context {W Node : Type} `{DataLaws W Node}.
Abbreviation Editor := (Ed.Editor W Node).

Lemma walk_same w w' n ps m :
  (forall k nm x, n_lookup k nm w = (Ok x, w) -> n_lookup k nm w' = (Ok x, w')) ->
  walk n ps w = (Ok m, w) -> walk n ps w' = (Ok m, w').
Proof.
  intros Hl. revert n. induction ps as [|p ps IH]; intros n; simpl; [by intros [= ->]|].
  unfold bind. destruct (n_lookup n p w) as [[x|e] w1] eqn:E; [|done]. pose proof (lookup_pure _ _ _ _ _ E) as ->.
  rewrite (Hl _ _ _ E). apply IH.
Qed.

Lemma resolve_same path (v v' : VFS W Node) n :
  v_mounts v' = v_mounts v ->
  (forall k nm x, n_lookup k nm (v_world v) = (Ok x, v_world v) -> n_lookup k nm (v_world v') = (Ok x, v_world v')) ->
  resolve path v = (Ok n, v) -> resolve path v' = (Ok n, v').
Proof.
  intros Hm Hl. unfold resolve, bind, gets. rewrite Hm. destruct (find_mount _ _) as [[fs rel]|]; [|done].
  unfold node, zoom. destruct (walk _ _ (v_world v)) as [r w] eqn:E. intros [= -> Hw].
  assert (w = v_world v) as -> by (by rewrite <- Hw).
  rewrite (walk_same _ _ _ _ _ Hl E). by destruct v'.
Qed.

(** [write_all] over an existing file. *)
Lemma write_all_spec path (v : VFS W Node) n d data :
  resolve path v = (Ok n, v) -> content (v_world v) n = Some d ->
  exists v', write_all path data false v = (Ok tt, v') /\ content (v_world v') n = Some data /\
    resolve path v' = (Ok n, v').
Proof.
  intros Hr Hc. destruct (truncate_law _ _ _ Hc) as (w1 & Ht & Hc1).
  destruct (write_law _ _ _ 0 data Hc1 (Z.le_refl 0)) as (w2 & Hw & Hc2 & _).
  set (flags := Z.lor (Z.lor O_WRONLY O_CREAT) O_TRUNC). set (fd := v_next_fd v).
  set (v1 := set_fds (<[fd := mkFD n flags 0]> (v_fds v)) (set_next_fd (fd + 1) (set_world w1 v))).
  assert (Ho : open path flags v = (Ok fd, v1)).
  { unfold open. rewrite (bind_step _ _ v n v).
    2:{ unfold open_node. change (has_flag flags O_CREAT) with true. cbv iota. unfold try_except. by rewrite Hr. }
    change (has_flag flags O_TRUNC) with true. cbv iota. unfold node, zoom. unfold bind at 1. by rewrite Ht. }
  assert (Hfd : get_fd fd v1 = (Ok (mkFD n flags 0), v1)).
  { apply get_fd_Some. simpl. by rewrite lookup_insert_eq. }
  eexists. split_and!.
  - unfold write_all. cbv zeta. change (if false then _ else ?x) with x. fold flags. rewrite (bind_step _ _ _ _ _ Ho).
    unfold try_finally. unfold write. unfold bind at 1 2. rewrite Hfd.
    change (has_flag (fd_flags (mkFD n flags 0)) O_APPEND) with false. cbv iota. simpl fd_offset. simpl fd_node.
    unfold node, zoom. unfold bind at 1, ret at 1. unfold bind at 1. change (v_world v1) with w1. rewrite Hw. reflexivity.
  - simpl. rewrite Hc2. f_equal. unfold splice, slice_to, slice_from. simpl.
    unfold slice. by rewrite drop_nil, take_nil, app_nil_r.
  - eapply (resolve_same path v); [done| |done]. simpl. intros k nm x Hx.
    eapply write_lookup; [exact Hc1|exact Hw|]. by eapply truncate_lookup; [exact Hc|exact Ht|].
Qed.

(** [read_chunks] from an offset. *)
Lemma read_chunks_spec fuel fd n flags off acc d (v : VFS W Node) :
  v_fds v !! fd = Some (mkFD n flags off) -> content (v_world v) n = Some d -> 0 <= off <= len d ->
  len d - off <= 4096 * (Z.of_nat fuel - 1) ->
  exists v', read_chunks fuel fd acc v = (Ok (acc ++ slice d off (len d)), v') /\
    v_world v' = v_world v /\ v_mounts v' = v_mounts v.
Proof.
  revert off acc v. induction fuel as [|fuel IH]; intros off acc v Hfd Hc Hoff Hf; [simpl in Hf; lia|].
  cbn [read_chunks]. set (chunk := slice d off (off + 4096)).
  set (v1 := set_fds (<[fd := mkFD n flags (off + len chunk)]> (v_fds v)) v).
  assert (Hread : read fd 4096 v = (Ok chunk, v1)).
  { unfold read. unfold bind at 1. rewrite (get_fd_Some _ _ _ Hfd). simpl fd_node. simpl fd_offset.
    unfold node, zoom, bind. rewrite (read_law _ _ _ _ _ Hc) by lia. fold chunk.
    replace (set_world (v_world v) v) with v by (by destruct v). by rewrite (set_offset_Some _ _ _ _ Hfd). }
  rewrite (bind_step _ _ _ _ _ Hread).
  assert (Hlen : len chunk = Z.min (len d) (off + 4096) - off).
  { unfold chunk, slice. rewrite (clamp_id _ off) by lia. unfold clamp. destruct (Z.ltb_spec (off + 4096) 0); [lia|].
    unfold len in *. rewrite length_take, length_drop. lia. }
  destruct chunk as [|b chunk'] eqn:Ech.
  - change (len []) with 0 in Hlen. exists v1. split_and!; [|done..]. unfold ret.
    replace (slice d off (len d)) with (@nil Z); [by rewrite app_nil_r|].
    unfold slice. rewrite !clamp_id by lia. by replace (Z.to_nat (len d - off)) with O by lia.
  - assert (1 <= len (b :: chunk')) by (rewrite len_cons; pose proof (len_nonneg chunk'); lia).
    destruct (IH (off + len (b :: chunk')) (acc ++ b :: chunk') v1) as (v' & E & Hw & Hm); [|done|lia|lia|].
    { unfold v1. simpl. by rewrite lookup_insert_eq. }
    exists v'. split_and!; [|done..]. rewrite E, <- (assoc_L (++)). do 3 f_equal.
    rewrite Hlen. change ((b :: chunk') ++ ?t) with ((b :: chunk') ++ t). rewrite <- Ech. unfold chunk, slice.
    rewrite (clamp_id _ off), (clamp_id _ (len d)) by lia. replace (off + (_ - _)) with (Z.min (len d) (off + 4096)) by lia. rewrite (clamp_id _ (Z.min _ _)) by lia.
    unfold clamp. destruct (Z.ltb_spec (off + 4096) 0); [lia|].
    set (m := Z.min (len d) (off + 4096)). replace (Z.max 0 m) with m by lia.
    replace (drop (Z.to_nat m) d) with (drop (Z.to_nat (m - off)) (drop (Z.to_nat off) d)) by (rewrite drop_drop; f_equal; lia).
    replace (Z.to_nat (len d - off)) with (Z.to_nat (m - off) + Z.to_nat (len d - m))%nat by lia.
    by rewrite take_take_drop.
Qed.

(** [read_all] of a file. *)
Lemma read_all_spec fuel path (v : VFS W Node) n d :
  resolve path v = (Ok n, v) -> content (v_world v) n = Some d -> len d <= 4096 * (Z.of_nat fuel - 1) ->
  exists v', read_all fuel path v = (Ok d, v') /\ v_world v' = v_world v /\ v_mounts v' = v_mounts v.
Proof.
  intros Hr Hc Hf. set (fd := v_next_fd v).
  set (v1 := set_fds (<[fd := mkFD n 0 0]> (v_fds v)) (set_next_fd (fd + 1) v)).
  assert (Ho : open path 0 v = (Ok fd, v1)).
  { unfold open. rewrite (bind_step _ _ v n v) by exact Hr. reflexivity. }
  destruct (read_chunks_spec fuel fd n 0 0 [] d v1) as (v2 & E & Hw & Hm);
    [by unfold v1; simpl; rewrite lookup_insert_eq|done|pose proof (len_nonneg d); lia|lia|].
  exists (set_fds (delete fd (v_fds v2)) v2). split_and!; [|done..].
  unfold read_all. rewrite (bind_step _ _ _ _ _ Ho). unfold try_finally. rewrite E. simpl. by rewrite slice_full.
Qed.

(** C29: what the editor writes it reads back: a whole buffer written to an
    existing file and loaded again gives the same lines, which are then the
    saved ones, with the last line current, given fuel for the file's
    length. *)
Theorem ed_write_read fuel path (s : Editor) n d :
  path <> [] -> Forall line_ok (ed_lines s) ->
  resolve (abspath path (ed_cwd s)) (ed_vfs s) = (Ok n, ed_vfs s) ->
  content (v_world (ed_vfs s)) n = Some d ->
  (forall data, text_from_lines (ed_lines s) = Ok data -> len data <= 4096 * (Z.of_nat fuel - 1)) ->
  exists s', (write_file path (fst (whole_range s)) (snd (whole_range s)) false ;;; load_file fuel path true) s = (Ok tt, s') /\
    ed_lines s' = ed_lines s /\ ed_saved s' = ed_lines s /\ ed_dot s' = len (ed_lines s) /\
    ed_file s' = abspath path (ed_cwd s).
Proof.
  intros Hp Hls Hr Hc Hfuel. destruct (text_roundtrip _ Hls) as (data & Et & Ed). specialize (Hfuel data Et).
  set (ap := abspath path (ed_cwd s)). destruct (write_all_spec ap (ed_vfs s) n d data Hr Hc) as (v1 & Ew & Hc1 & Hr1).
  destruct (read_all_spec fuel ap v1 n data Hr1 Hc1 Hfuel) as (v2 & Er & _).
  assert (Htext : text_from_lines (if 0 <? fst (whole_range s) then slice (ed_lines s) (fst (whole_range s) - 1) (snd (whole_range s)) else []) = Ok data).
  { rewrite <- Et. unfold whole_range. destruct (ed_lines s) as [|l ls] eqn:El; [done|]. cbn [fst snd].
    change (0 <? 1) with true. cbv iota. change (1 - 1) with 0. by rewrite slice_full. }
  assert (Hw : exists s1, write_file path (fst (whole_range s)) (snd (whole_range s)) false s = (Ok tt, s1) /\
    ed_vfs s1 = v1 /\ ed_cwd s1 = ed_cwd s).
  { unfold write_file. unfold bind at 1, get. destruct path as [|c path']; [done|]. cbv zeta. cbv iota.
    unfold bind at 1, lift. rewrite Htext. unfold bind at 1, on_vfs, zoom. fold ap. rewrite Ew.
    destruct (negb false && (fst (whole_range s) =? 1) && (snd (whole_range s) =? len (ed_lines s)));
      destruct (ed_silent s); eexists; (split; [reflexivity|]); done. }
  destruct Hw as (s1 & Ew1 & Hv1 & Hcwd). rewrite (bind_step _ _ _ _ _ Ew1).
  unfold load_file. unfold bind at 1, get. rewrite andb_false_r, Hcwd. fold ap. cbv zeta.
  unfold bind at 1, try_except, bind at 1, on_vfs, zoom. rewrite Hv1, Er. cbn [ret]. rewrite Ed.
  destruct (negb (ed_silent s1)); eexists; (split; [reflexivity|]); done.
Qed.
End files.

(** ** tmpfs *)

Lemma lookup_data f n h k m nm x : (forall y, t_children (f y) = t_children y) ->
  tmpfs_lookup m nm h = (Ok x, h) ->
  tmpfs_lookup m nm (mkHeap (alter f n (h_nodes h)) k) = (Ok x, mkHeap (alter f n (h_nodes h)) k).
Proof.
  intros Hf. unfold tmpfs_lookup, bind, deref. simpl. destruct (h_nodes h !! m) as [y|] eqn:Hy; [|done].
  destruct (decide (m = n)) as [->|Hne].
  - rewrite lookup_alter_eq, Hy. simpl. rewrite Hf. destruct (_ || _); [by intros [= ->]|].
    destruct (dict_get nm (t_children y)); by intros [= ->].
  - rewrite lookup_alter_ne, Hy by done. destruct (_ || _); [by intros [= ->]|].
    destruct (dict_get nm (t_children y)); by intros [= ->].
Qed.

#[global] Instance tmpfs_data_laws : DataLaws heap Z.
Proof.
  split; cbn [content tmpfs_file_laws n_truncate n_lookup n_write tmpfs_node].
  - intros h n d (x & Hx & Hty & <-)%tmpfs_content_Some. eexists.
    unfold tmpfs_truncate, bind, deref. rewrite Hx, Hty. simpl. split; [reflexivity|].
    unfold tmpfs_content. simpl. rewrite lookup_alter_eq, Hx. simpl. rewrite Hty. simpl. f_equal.
    unfold slice_to, slice. by rewrite Z.sub_diag.
  - intros h n d r h' m nm x (y & Hy & Hty & _)%tmpfs_content_Some.
    unfold tmpfs_truncate, bind, deref. rewrite Hy, Hty. intros [= _ <-]. by apply lookup_data.
  - intros h n d off data r h' m nm x (y & Hy & Hty & _)%tmpfs_content_Some.
    unfold tmpfs_write. unfold bind at 1, deref. rewrite Hy, Hty. cbv zeta. simpl.
    destruct (_ <? _); intros [= _ <-] Hl; [|by apply lookup_data].
    pose proof (lookup_data (fun x => set_data (t_data x ++ zeros (off + len data - len (t_data x))) x) n h (h_next h) m nm x
                  (fun _ => eq_refl) Hl) as Hl'.
    by apply (lookup_data (fun x => set_data (slice_assign (t_data x) off (off + len data) data) x) n _ (h_next h)) in Hl'.
  - intros h m nm r h'. unfold tmpfs_lookup, bind, deref. destruct (h_nodes h !! m); [|by intros [= _ <-]].
    destruct (_ || _); [by intros [= _ <-]|]. destruct (dict_get _ _); by intros [= _ <-].
Qed.

(** ** Sessions *)

(** What a user types, line by line. *)
Definition keys (l : list string) : str := concat (map (fun x => lit x ++ [newline]) l).
Definition session (l : list string) : result unit * Editor heap Z :=
  ed_run 10 [] (Editor_init (lit "/home") (keys l) wit_vfs).

(** Write, delete, undo, load. *)
Example session_edit :
  let '(r, s) := session ["a"; "one"; "two"; "three"; "."; "2m0"; "w /etc/motd"; "1d"; "u"; "E /etc/motd"; "q"]%string in
  r = Ok tt /\ ed_lines s = [lit "two"; lit "one"; lit "three"] /\ ed_running s = false /\ changed s = false.
Proof. by vm_compute. Qed.

(** A rejected address moves the current line out of the buffer; the next
    command fails with an IndexError that nothing catches, and the unsaved
    text is lost. *)
Example session_crash :
  let '(r, s) := session ["a"; "one"; "two"; "."; "9;"; "p"]%string in
  r = Err IndexError /\ ed_dot s = 9 /\ changed s = true.
Proof. by vm_compute. Qed.

(** A range that starts at line 0 counts from the end: line 3 goes, not lines
    1 to 3. *)
Example session_zero :
  let '(r, s) := session ["a"; "one"; "two"; "three"; "."; "0,3d"; "Q"]%string in
  r = Ok tt /\ ed_lines s = [lit "one"; lit "two"] /\ ed_cut s = [lit "three"].
Proof. by vm_compute. Qed.

(** ** Witnesses *)

Definition three : Editor heap Z :=
  set_lines [lit "one"; lit "two"; lit "three"] (Editor_init (lit "/home") [] wit_vfs).

Lemma ed_undo_restores_witness :
  exists s', execute 1 (lit "1,2d") three = (Ok tt, s') /\ ed_lines s' = [lit "three"] /\
  exists s'', execute 1 (lit "u") s' = (Ok tt, s'') /\ ed_lines s'' = ed_lines three.
Proof.
  exists (snd (execute 1 (lit "1,2d") three)). split; [by vm_compute|]. split; [by vm_compute|].
  destruct (ed_undo_restores 1 (lit "1,2d") three (Ok tt) (snd (execute 1 (lit "1,2d") three))) as [Hl|[Hu|[Hl _]]].
  - by vm_compute.
  - vm_compute in Hl. discriminate Hl.
  - exact Hu.
  - vm_compute in Hl. discriminate Hl.
Defined.

Lemma ed_dot_in_buffer_witness : dot_ok (snd (execute 1 (lit "1;2d") three)).
Proof.
  apply (ed_dot_in_buffer 1 (lit "1;2d") three (Ok tt) (snd (execute 1 (lit "1;2d") three)) (Some (1, 2)) 3
           (snd (parse_range (lit "1;2d") three))).
  - unfold dot_ok. vm_compute. split; discriminate.
  - by vm_compute.
  - by vm_compute.
Defined.

Lemma ed_move_witness :
  exists s', command_move 1 1 3 three = (Ok tt, s') /\ ed_lines s' = [lit "two"; lit "three"; lit "one"].
Proof.
  destruct (ed_move three [] [lit "one"] [lit "two"; lit "three"] []) as [H1 _]; [discriminate..|].
  destruct (H1 eq_refl) as (s' & E & Hl & _). exists s'. split; [exact E|exact Hl].
Defined.

Lemma ed_append_text_witness :
  exists s', command_append 1 (set_term (keys ["new"; "."; "p"]%string) [] three) = (Ok tt, s') /\
    ed_lines s' = [lit "one"; lit "new"; lit "two"; lit "three"].
Proof.
  destruct (ed_append_text (set_term (keys ["new"; "."; "p"]%string) [] three) [lit "one"] [lit "two"; lit "three"]
              [lit "new"] (keys ["p"]%string)) as (s' & E & Hl & _).
  - reflexivity.
  - discriminate.
  - repeat constructor; discriminate.
  - reflexivity.
  - exists s'. split; [exact E|exact Hl].
Defined.

Lemma ed_terminates_witness : parse_offsets 4 (lit "1+2") 1 1 <> Err RuntimeError.
Proof. apply (ed_terminates 1 three (lit "1+2") 1 1 0). lia. Defined.

Lemma ed_write_read_witness :
  exists s', (write_file (lit "/etc/motd") 1 3 false ;;; load_file 2 (lit "/etc/motd") true) three = (Ok tt, s') /\
    ed_lines s' = ed_lines three.
Proof.
  destruct (ed_write_read 2 (lit "/etc/motd") three 3 (lit "hello")) as (s' & E & Hl & _).
  - discriminate.
  - refine (bool_decide_unpack _ _). by vm_compute.
  - by vm_compute.
  - by vm_compute.
  - intros data E. vm_compute in E. injection E as <-. vm_compute. discriminate.
  - exists s'. split; [exact E|exact Hl].
Defined.
