(* ===== verification/Commands.v ===== *)
(** * The commands of /bin ([kernel/commands.py])

    The commands that work on files and connections, as routines over what they
    print, the filesystem switch and the network.  The network is the interface
    [Streams]: what [tcp.py] and [stack.py] offer a task, each call from its
    start to its return.  Texts of exceptions and the table of processes are
    parameters.

    After the definitions: what [cp] and [mv] do over any filesystem that keeps
    the laws of files and entries, what [cat] prints, what [ftp] saves, with
    tmpfs as the instance. *)

From Stdlib Require Import ZArith Lia Ascii.
From stdpp Require Import base list gmap numbers strings.
From S2P Require Import Prelude Bytes Pystr Vfs VfsProps Tmpfs Ed EdProps EdFiles.

Local Open Scope Z_scope.

(** ** Strings *)

Definition _abspath (path cwd : str) : str :=
  let target := if startswith path [slash] then path else rstrip is_slash cwd ++ [slash] ++ path in
  [slash] ++ join [slash] (norm_segs [] (split slash target)).

Definition rjust (n : Z) (s : str) : str := replicate (Z.to_nat (n - len s)) space ++ s.
Definition ljust (n : Z) (s : str) : str := s ++ replicate (Z.to_nat (n - len s)) space.

(** Code points in order, as Python compares strings, and [sorted]. *)
Fixpoint str_leb (a b : str) : bool :=
  match a, b with
  | [], _ => true
  | _, [] => false
  | x :: a', y :: b' => (x <? y) || ((x =? y) && str_leb a' b')
  end.
Fixpoint insert_str (x : str) (l : list str) : list str :=
  match l with
  | [] => [x]
  | y :: l' => if str_leb x y then x :: l else y :: insert_str x l'
  end.
Definition sorted_strs (l : list str) : list str := fold_right insert_str [] l.

Definition is_oserror (e : exn) : bool :=
  match e with
  | OSError | FileNotFoundError | FileExistsError | IsADirectoryError | NotADirectoryError
  | ConnectionRefusedError | TimeoutError => true
  | _ => false
  end.

(** ** The network, to a command *)

Class Streams (T : Type) : Type := {
  tcp_listen : Z -> M T Z;
  tcp_accept : Z -> M T Z;
  listener_close : Z -> M T unit;
  tcp_connect : str -> Z -> M T Z;
  conn_recv : Z -> Z -> M T bytes;
  conn_send : Z -> bytes -> M T unit;
  conn_close : Z -> M T unit;
  remove_connection : Z -> M T unit;
  local_ip_str : T -> str;
}.

(** ** Commands *)

Section commands.
Context {W Node T : Type} `{FSNode W Node} `{Streams T} (estr : exn -> str).

Record Host : Type := mkHost { k_out : str; k_vfs : VFS W Node; k_net : T }.
Definition set_out o (k : Host) : Host := mkHost o (k_vfs k) (k_net k).
Definition on_fs {A} (m : M (VFS W Node) A) : M Host A := zoom k_vfs (fun v k => mkHost (k_out k) v (k_net k)) m.
Definition on_net {A} (m : M T A) : M Host A := zoom k_net (fun t k => mkHost (k_out k) (k_vfs k) t) m.
Definition k_write (t : str) : M Host unit := modify (fun k => set_out (k_out k ++ t) k).
Definition _line (text : str) : M Host unit := k_write (text ++ [newline]).

Definition ls (argv : list str) (cwd : str) : M Host unit :=
  let path := match argv with a :: _ => _abspath a cwd | [] => cwd end in
  let! entries := on_fs (readdir path) in
  _line (join (lit "  ") entries).

(** A process: its number, its name, the name of its state. *)
Definition ps (procs : list (Z * str * str)) : M Host unit :=
  for_each procs (fun '(pid, name, state) => _line (rjust 4 (str_of_int pid) ++ lit "  " ++ ljust 22 name ++ lit "  " ++ state)).
Definition pwd (cwd : str) : M Host unit := _line cwd.
Definition cd (argv : list str) (cwd : str) : M Host str :=
  let target := match argv with a :: _ => _abspath a cwd | [] => lit "/" end in
  let! _ := on_fs (readdir target) in ret target.

(** [cat]: [fuel] bounds the chunks of a file. *)
Fixpoint cat_chunks (fuel : nat) (fd : Z) : M Host unit :=
  match fuel with
  | O => raise RuntimeError
  | S fuel' =>
      let! chunk := on_fs (read fd 1024) in
      match chunk with
      | [] => ret tt
      | _ => k_write (decode chunk) ;;; cat_chunks fuel' fd
      end
  end.
Definition cat_error (path : str) (e : exn) : M Host unit :=
  match e with
  | FileNotFoundError => _line (lit "cat: " ++ path ++ lit ": not found")
  | IsADirectoryError => _line (lit "cat: " ++ path ++ lit ": is a directory")
  | e => _line (lit "cat: " ++ path ++ lit ": " ++ estr e)
  end.
Definition cat_file (fuel : nat) (path : str) : M Host unit :=
  let! fd := try_except (let! fd := on_fs (open path 0) in ret (Some fd)) (fun e => cat_error path e ;;; ret None) in
  match fd with
  | None => ret tt
  | Some fd => try_finally (try_except (cat_chunks fuel fd) (cat_error path)) (on_fs (close fd))
  end.
Definition cat (fuel : nat) (argv : list str) (cwd : str) : M Host unit :=
  match argv with
  | [] => _line (lit "usage: cat FILE [...]")
  | _ => for_each argv (fun arg => cat_file fuel (_abspath arg cwd))
  end.

(** The descriptor is closed only when nothing is raised. *)
Definition _read_all (fuel : nat) (path : str) : M (VFS W Node) bytes :=
  let! fd := open path 0 in
  let! data := read_chunks fuel fd [] in
  close fd ;;;
  ret data.
Definition _write_all (path : str) (data : bytes) : M (VFS W Node) unit :=
  let! fd := open path (Z.lor (Z.lor O_WRONLY O_CREAT) O_TRUNC) in
  let! _ := write fd data in
  close fd.
Definition cp (fuel : nat) (argv : list str) (cwd : str) : M Host unit :=
  match argv with
  | a :: b :: _ =>
      let src := _abspath a cwd in
      let dst := _abspath b cwd in
      let! data := on_fs (_read_all fuel src) in
      on_fs (_write_all dst data)
  | _ => _line (lit "usage: cp SRC DST")
  end.
Definition mv (fuel : nat) (argv : list str) (cwd : str) : M Host unit :=
  match argv with
  | a :: b :: _ =>
      let src := _abspath a cwd in
      let dst := _abspath b cwd in
      if beq src dst then ret tt
      else
        let! data := on_fs (_read_all fuel src) in
        on_fs (_write_all dst data) ;;;
        on_fs (unlink src)
  | _ => _line (lit "usage: mv SRC DST")
  end.

(** *** [ftp] *)

Definition _ftp_usage : M Host unit :=
  _line (lit "usage: ftp get DST [PORT]") ;;;
  _line (lit "       ftp put SRC [HOST] [PORT]") ;;;
  _line (lit "       ftp recv DST [PORT]") ;;;
  _line (lit "       ftp send SRC [HOST] [PORT]") ;;;
  _line (lit "get/recv: listen for one TCP stream and save it to DST") ;;;
  _line (lit "put/send: connect to HOST:PORT and send SRC") ;;;
  _line (lit "defaults: PORT=7000 for get, HOST=10.0.2.2 PORT=7001 for put").
Definition _parse_port (value : str) : M Host (option Z) :=
  match py_int value with
  | Err ValueError => _line (lit "ftp: invalid port: " ++ value) ;;; ret None
  | Err e => raise e
  | Ok port =>
      if (port <? 1) || (65535 <? port) then _line (lit "ftp: port out of range: " ++ value) ;;; ret None
      else ret (Some port)
  end.

(** The [finally] of the transfers, for the locals that are set, in its order;
    [on_error]: it runs when a step raises. *)
Definition end_conn (conn : Z) : M Host unit := on_net (conn_close conn) ;;; on_net (remove_connection conn).
Definition when {A} (o : option A) (f : A -> M Host unit) : M Host unit := match o with Some x => f x | None => ret tt end.
Definition cleanup (fd conn listener : option Z) : M Host unit :=
  when fd (fun fd => on_fs (close fd)) ;;; when conn end_conn ;;; when listener (fun l => on_net (listener_close l)).
Definition on_error {A} (m : M Host A) (fin : M Host unit) : M Host A := try_except m (fun e => fin ;;; raise e).
Fixpoint receive (fuel : nat) (conn fd total : Z) : M Host Z :=
  match fuel with
  | O => raise RuntimeError
  | S fuel' =>
      let! chunk := on_net (conn_recv conn 1024) in
      match chunk with
      | [] => ret total
      | _ => on_fs (write fd chunk) ;;; receive fuel' conn fd (total + len chunk)
      end
  end.
Definition _ftp_get (fuel : nat) (path : str) (port : Z) : M Host unit :=
  let! listener := on_net (tcp_listen port) in
  let! ip := gets (fun k => local_ip_str (k_net k)) in
  _line (lit "ftp: listening on " ++ ip ++ lit ":" ++ str_of_int port) ;;;
  _line (lit "ftp: waiting for one incoming file stream") ;;;
  let! conn := on_error (on_net (tcp_accept listener)) (cleanup None None (Some listener)) in
  on_error (on_net (listener_close listener)) (cleanup None (Some conn) (Some listener)) ;;;
  let! fd := on_error (on_fs (open path (Z.lor (Z.lor O_WRONLY O_CREAT) O_TRUNC))) (cleanup None (Some conn) None) in
  let! total := try_finally (receive fuel conn fd 0) (cleanup (Some fd) (Some conn) None) in
  _line (lit "ftp: saved " ++ str_of_int total ++ lit " bytes to " ++ path).
Fixpoint transmit (fuel : nat) (conn fd total : Z) : M Host Z :=
  match fuel with
  | O => raise RuntimeError
  | S fuel' =>
      let! chunk := on_fs (read fd 1024) in
      match chunk with
      | [] => ret total
      | _ => on_net (conn_send conn chunk) ;;; transmit fuel' conn fd (total + len chunk)
      end
  end.
Definition _ftp_put (fuel : nat) (path host : str) (port : Z) : M Host unit :=
  let! fd := on_fs (open path 0) in
  _line (lit "ftp: connecting to " ++ host ++ lit ":" ++ str_of_int port) ;;;
  let! conn := on_error (on_net (tcp_connect host port)) (cleanup (Some fd) None None) in
  let! total := try_finally (transmit fuel conn fd 0) (cleanup (Some fd) (Some conn) None) in
  _line (lit "ftp: sent " ++ str_of_int total ++ lit " bytes from " ++ path).
(** [_run_ftp_get] and [_run_ftp_put]. *)
Definition report (m : M Host unit) : M Host unit :=
  try_except m (fun e => if is_oserror e then _line (lit "ftp: " ++ estr e) else raise e).
Definition _run_ftp_get (fuel : nat) (path : str) (port : Z) : M Host unit := report (_ftp_get fuel path port).
Definition _run_ftp_put (fuel : nat) (path host : str) (port : Z) : M Host unit := report (_ftp_put fuel path host port).

Definition one_of (s : str) (l : list string) : bool := existsb (fun x => beq s (lit x)) l.
(** The port argument, when it is the last one that is allowed. *)
Definition with_port (o : option str) (dflt : Z) (run : Z -> M Host unit) : M Host unit :=
  match o with
  | None => run dflt
  | Some a => let! parsed := _parse_port a in match parsed with None => ret tt | Some port => run port end
  end.
Definition ftp (fuel : nat) (argv : list str) (cwd : str) : M Host unit :=
  match argv with
  | [] => _ftp_usage
  | op :: args =>
      if one_of op ["help"; "-h"; "--help"]%string then _ftp_usage
      else if one_of op ["get"; "recv"]%string then
        if (len argv <? 2) || (3 <? len argv) then _ftp_usage
        else with_port (args !! 1%nat) 7000 (_run_ftp_get fuel (_abspath (nth 0 args []) cwd))
      else if one_of op ["put"; "send"]%string then
        if (len argv <? 2) || (4 <? len argv) then _ftp_usage
        else
          let host := match args !! 1%nat with Some h => h | None => lit "10.0.2.2" end in
          with_port (args !! 2%nat) 7001 (_run_ftp_put fuel (_abspath (nth 0 args []) cwd) host)
      else _line (lit "ftp: unknown operation: " ++ op) ;;; _ftp_usage
  end.

(** *** [examples] *)

Definition examples (argv : list str) : M Host unit :=
  match argv with
  | [] =>
      _line (lit "PythonOS learning tracks in /examples:") ;;;
      _line (lit "  start_here   storage       concurrency") ;;;
      _line (lit "  graphics     images        audio") ;;;
      _line (lit "  networking   demos         games") ;;;
      _line (lit "  internals") ;;;
      _line (lit "Start: run('/examples/start_here/hello_kernel.py')") ;;;
      _line (lit "Browse: examples graphics  or  cat /examples/README.txt")
  | [a] =>
      let track := strip is_slash a in
      if beq track [] || existsb (beq (lit "..")) (split slash track) then _line (lit "examples: invalid track")
      else
        let path := lit "/examples/" ++ track in
        let! names := try_except (let! l := on_fs (readdir path) in ret (Some l))
          (fun e => match e with
                    | FileNotFoundError | NotADirectoryError => _line (lit "examples: no such track: " ++ track) ;;; ret None
                    | e => raise e
                    end) in
        match names with
        | None => ret tt
        | Some l =>
            let names := sorted_strs (List.filter (fun n => negb (one_of n ["."; ".."; "__init__.py"]%string)) l) in
            _line (lit "Examples in " ++ path ++ lit ":") ;;;
            _line (lit "  " ++ join (lit "  ") names) ;;;
            _line (lit "Guide: cat " ++ path ++ lit "/README.txt")
        end
  | _ => _line (lit "usage: examples [track]")
  end.
End commands.
Arguments Host : clear implicits.

(** ** Entries of a filesystem *)

(** Files as directory entries: what creating, writing and removing one leaves
    alone.  A file has no entries of its own; a file that has another entry
    survives the removal of one. *)
Class EntryLaws (W Node : Type) `{HF : FileLaws W Node} `{!DirLaws W Node} `{!DataLaws W Node} : Type := {
  tidy : W -> Prop;
  create_file w n name n' w' : tidy w -> is_dir w n -> dir_name_ok name -> n_create n name FILE w = (Ok n', w') ->
    tidy w' /\ forall m d, content w m = Some d -> m <> n' /\ content w' m = Some d;
  truncate_file w n d r w' : tidy w -> content w n = Some d -> n_truncate n 0 w = (r, w') ->
    tidy w' /\ forall m, m <> n -> content w' m = content w m;
  write_tidy w n d off data r w' : tidy w -> content w n = Some d -> n_write n off data w = (r, w') -> tidy w';
  leaf_law w n d nm k : tidy w -> content w n = Some d -> plain nm -> n_lookup n nm w <> (Ok k, w);
  unlink_law w d name n c : tidy w -> plain name -> n_lookup d name w = (Ok n, w) -> content w n = Some c ->
    exists w', n_unlink d name w = (Ok tt, w') /\ n_lookup d name w' = (Err FileNotFoundError, w') /\
      forall m nm k, n_lookup m nm w = (Ok k, w) -> (m, nm) <> (d, name) -> n_lookup m nm w' = (Ok k, w') /\ content w' k = content w k;
}.

Section laws.
Context {W Node T : Type} `{!EqDecision Node} `{HF : FileLaws W Node} `{!DirLaws W Node} `{!DataLaws W Node} `{!EntryLaws W Node} `{HT : Streams T} (estr : exn -> str).
Implicit Types (v : VFS W Node) (h : Host W Node T).

(** [path] is the entry [x] of the directory [d]. *)
Record entry v (path : str) (d : Node) (x : str) : Prop := {
  en_parent : exists ps, path = npath (ps ++ [x]) /\ Forall plain ps /\ resolve (npath ps) v = (Ok d, v);
  en_name : plain x;
  en_mount : path ∉ (v_mounts v).*1;
}.
(** It can be written to: it is a file, or nothing yet in a directory. *)
Definition writable v (d : Node) (x : str) : Prop :=
  (exists n c, n_lookup d x (v_world v) = (Ok n, v_world v) /\ content (v_world v) n = Some c)
  \/ (n_lookup d x (v_world v) = (Err FileNotFoundError, v_world v) /\ is_dir (v_world v) d /\ dir_name_ok x).

Lemma plain_good ps : Forall plain ps -> Forall good_part ps.
Proof. intros Hp. eapply list.Forall_impl; [exact Hp|]. by intros q (? & _). Qed.
(** The parts below the mount point are parts of the path. *)
Lemma rel_plain (ms : list (str * Filesystem W Node)) ps fs rel : Forall plain ps -> find_mount (npath ps) ms = Some (fs, rel) -> Forall plain (parts_of rel).
Proof.
  intros Hp Hf. assert (Hg := plain_good _ Hp). assert (Hrel : exists a, parts_of (npath ps) = a ++ parts_of rel).
  { induction ms as [|[mp f] ms IH]; [done|]. cbn [find_mount] in Hf. destruct (mount_rel mp (npath ps)) as [r|] eqn:E; [|by apply IH].
    injection Hf as -> ->. unfold mount_rel in E. destruct (beq mp (lit "/")); [injection E as <-; exists []; unfold npath; rewrite slice_from_head; by apply (parts_of_app [])|].
    destruct (beq (npath ps) mp); [injection E as <-; exists (parts_of (npath ps)); by rewrite app_nil_r|].
    destruct (startswith (npath ps) (mp ++ [slash])) eqn:Es; [|done]. apply startswith_true in Es as [t Et]. injection E as <-.
    exists (parts_of mp). rewrite Et. replace (len mp + 1) with (len (mp ++ [slash])) by (by rewrite len_app). rewrite slice_from_app, <- (assoc_L (++)). apply parts_of_app. }
  destruct Hrel as [a Ea]. rewrite parts_of_npath in Ea by done. rewrite Ea in Hp. by apply Forall_app in Hp as [_ Hp].
Qed.

(** An entry resolves to what its directory looks up. *)
Lemma resolve_walk ps v n : Forall plain ps -> resolve (npath ps) v = (Ok n, v) ->
  exists fs rel, find_mount (npath ps) (v_mounts v) = Some (fs, rel) /\ walk (fs_root fs) (parts_of rel) (v_world v) = (Ok n, v_world v).
Proof.
  intros Hp. rewrite resolve_npath by (by apply plain_good). destruct (find_mount _ _) as [[fs rel]|]; [|done]. unfold node, zoom. intros E. exists fs, rel. split; [done|].
  destruct (walk _ _ _) as [r w1] eqn:Ew. pose proof Ew as ->%walk_pure. by injection E as ->.
Qed.
Lemma entry_resolve v path d x : entry v path d x -> resolve path v = (fst (n_lookup d x (v_world v)), v).
Proof.
  intros [(ps & -> & Hp & Hpar) Hx Hm]. pose proof (plain_good _ Hp) as Hg. assert (Hgx : good_part x) by apply Hx.
  assert (Hpsx : Forall good_part (ps ++ [x])) by (apply Forall_app; split; [done|by constructor]).
  destruct (resolve_walk _ _ _ Hp Hpar) as (fs & rel' & Ep & Ew).
  destruct (find_mount (npath (ps ++ [x])) (v_mounts v)) as [[fs1 rel]|] eqn:Ec.
  2:{ exfalso. pose proof (proj1 (find_mount_None _ _) Ec) as Hno.
      assert (find_mount (npath ps) (v_mounts v) = None) as E'; [|congruence].
      apply find_mount_None. intros mp f Hin Hc. by apply (Hno mp f Hin), covers_child. }
  destruct (find_mount_parent _ _ _ _ _ Hg Hgx Hm Ec) as (rel'' & Ep' & Hparts). rewrite Ep in Ep'. injection Ep' as <- <-.
  rewrite resolve_npath, Ec, Hparts by done. unfold node, zoom. rewrite walk_app, (bind_step _ _ _ _ _ Ew). simpl. unfold bind.
  destruct (n_lookup d x (v_world v)) as [[n|e] w1] eqn:El; pose proof El as ->%lookup_law; cbn; by rewrite set_world_id.
Qed.

(** Lookups that survive keep paths, parents and entries. *)
Definition lookups_kept (w w' : W) : Prop := forall m nm k, n_lookup m nm w = (Ok k, w) -> n_lookup m nm w' = (Ok k, w').
Lemma kept_entry v v' path d x : v_mounts v' = v_mounts v -> lookups_kept (v_world v) (v_world v') -> entry v path d x -> entry v' path d x.
Proof. intros Hm Hl [(ps & -> & Hp & Hpar) Hx Hn]. split; [|done|by rewrite Hm]. exists ps. split_and!; [done..|]. by apply (resolve_same _ v). Qed.

(** The removal of a file's entry is not noticed by the paths of directories
    that have entries. *)
Lemma walk_unlink w w' d name n c root ps m y z :
  tidy w -> n_lookup d name w = (Ok n, w) -> content w n = Some c ->
  (forall a nm k, n_lookup a nm w = (Ok k, w) -> (a, nm) <> (d, name) -> n_lookup a nm w' = (Ok k, w') /\ content w' k = content w k) ->
  Forall plain ps -> plain y -> n_lookup m y w = (Ok z, w) -> walk root ps w = (Ok m, w) -> walk root ps w' = (Ok m, w').
Proof.
  intros Ht Hn Hc Hk Hps Hy Hz. revert root. induction Hps as [|p ps Hp Hps IH]; intros root; cbn [walk]; [by intros [= ->]|]. unfold bind.
  destruct (n_lookup root p w) as [[q|e] w1] eqn:E; pose proof E as ->%lookup_law; [|done]. intros Hw.
  destruct (decide ((root, p) = (d, name))) as [[= -> ->]|Hne].
  - exfalso. rewrite Hn in E. injection E as <-. destruct Hps as [|p2 ps Hp2 Hps]; cbn [walk] in Hw.
    + injection Hw as <-. by apply (leaf_law _ _ _ _ _ Ht Hc Hy) in Hz.
    + unfold bind in Hw. destruct (n_lookup n p2 w) as [[q|e] w1] eqn:E2; pose proof E2 as ->%lookup_law; [|done]. by apply (leaf_law _ _ _ _ _ Ht Hc Hp2) in E2.
  - destruct (Hk _ _ _ E Hne) as [-> _]. by apply IH.
Qed.

(** *** Reading and writing whole files *)

Lemma read_all_run fuel path v n d : resolve path v = (Ok n, v) -> content (v_world v) n = Some d -> len d <= 4096 * (Z.of_nat fuel - 1) ->
  exists v', _read_all fuel path v = (Ok d, v') /\ v_world v' = v_world v /\ v_mounts v' = v_mounts v.
Proof.
  intros Hr Hc Hf. set (fd := v_next_fd v). set (v1 := set_fds (<[fd := mkFD n 0 0]> (v_fds v)) (set_next_fd (fd + 1) v)).
  assert (Ho : open path 0 v = (Ok fd, v1)) by (unfold open; rewrite (bind_step _ _ v n v) by exact Hr; reflexivity).
  destruct (read_chunks_spec fuel fd n 0 0 [] d v1) as (v2 & E & Hw & Hm); [by unfold v1; simpl; rewrite lookup_insert_eq|done|pose proof (len_nonneg d); lia|lia|].
  exists (set_fds (delete fd (v_fds v2)) v2). split_and!; [|done..]. unfold _read_all. rewrite (bind_step _ _ _ _ _ Ho), (bind_step _ _ _ _ _ E). cbn. by rewrite slice_full.
Qed.

Definition wflags : Z := Z.lor (Z.lor O_WRONLY O_CREAT) O_TRUNC.
(** What a step over the file [n] leaves of the rest. *)
Record rest_kept (n : Node) (w w' : W) : Prop := {
  rk_lookups : lookups_kept w w';
  rk_tidy : tidy w';
  rk_files : forall m e, m <> n -> content w m = Some e -> content w' m = Some e;
}.
Lemma rest_kept_trans n w1 w2 w3 : rest_kept n w1 w2 -> rest_kept n w2 w3 -> rest_kept n w1 w3.
Proof. intros [L1 T1 F1] [L2 T2 F2]. split; [|done|]; [intros m nm q Hq; by apply L2, L1|intros m e Hm He; auto]. Qed.
Lemma open_trunc path v v1 n c : open_node path wflags v = (Ok n, v1) -> content (v_world v1) n = Some c -> tidy (v_world v1) ->
  exists v2 fd, open path wflags v = (Ok fd, v2) /\ v_fds v2 !! fd = Some (mkFD n wflags 0) /\ v_mounts v2 = v_mounts v1 /\
    content (v_world v2) n = Some [] /\ rest_kept n (v_world v1) (v_world v2).
Proof.
  intros Hon Hc Ht. destruct (truncate_law _ _ _ Hc) as (w1 & Htr & Hc1). destruct (truncate_file _ _ _ _ _ Ht Hc Htr) as [Ht1 Hk1].
  set (fd := v_next_fd v1). exists (set_fds (<[fd := mkFD n wflags 0]> (v_fds v1)) (set_next_fd (fd + 1) (set_world w1 v1))), fd. split_and!.
  - unfold open. rewrite (bind_step _ _ _ _ _ Hon). change (has_flag wflags O_TRUNC) with true. cbv iota. unfold node, zoom. unfold bind at 1. by rewrite Htr.
  - cbn. by rewrite lookup_insert_eq.
  - done.
  - done.
  - split; [|done|]; cbn.
    + intros m nm q Hl. by eapply truncate_lookup; [exact Hc|exact Htr|].
    + intros m e Hne. by rewrite Hk1.
Qed.
(** The node an entry opens with [CREAT]: the file that is there, or a new one. *)
Lemma node_entry flags v path d x : has_flag flags O_CREAT = true -> tidy (v_world v) -> entry v path d x -> writable v d x ->
  exists w n c, open_node path flags v = (Ok n, set_world w v) /\ n_lookup d x w = (Ok n, w) /\ content w n = Some c /\ rest_kept n (v_world v) w /\
    match fst (n_lookup d x (v_world v)) with Ok m => m = n /\ content (v_world v) n = Some c | Err _ => c = [] end.
Proof.
  intros Hflag Ht He [(n & c & Hl & Hc)|(Hmiss & Hdir & Hname)]; pose proof (entry_resolve _ _ _ _ He) as Hr.
  - rewrite Hl in Hr. exists (v_world v), n, c. rewrite set_world_id. split_and!; try done; [|by split; [intros ??|done|]|by rewrite Hl].
    unfold open_node. rewrite Hflag. unfold try_except. by rewrite Hr.
  - rewrite Hmiss in Hr. destruct (create_law _ _ x FILE Hdir Hname (or_introl eq_refl)) as (n & w' & Hcr & Hf & Hempty & _ & Hkeep).
    destruct (create_file _ _ _ _ _ Ht Hdir Hname Hcr) as [Ht1 Hold]. pose proof He as [(ps & -> & Hp & Hpar) Hx Hmt].
    assert (Hgx : Forall good_part (ps ++ [x])) by (apply plain_good, Forall_app; split; [done|by constructor]).
    exists w', n, []. split_and!; [|done|by apply Hempty| |by rewrite Hmiss].
    + unfold open_node. rewrite Hflag. unfold try_except at 1. rewrite Hr. cbn [fst].
      rewrite abs_path_npath, parts_of_npath by done. rewrite open_parent, last_last. destruct (ps ++ [x]) eqn:Eps; [by destruct ps|].
      unfold bind at 1. rewrite Hpar. unfold node, zoom. by rewrite Hcr.
    + split; [|done|]; [|by intros m e Hne Hme; apply Hold]. intros m nm q Hq. apply Hkeep; [done|]. intros [= -> ->]. congruence.
Qed.
Lemma open_entry v path d x : tidy (v_world v) -> entry v path d x -> writable v d x ->
  exists v' fd n, open path wflags v = (Ok fd, v') /\ v_fds v' !! fd = Some (mkFD n wflags 0) /\ v_mounts v' = v_mounts v /\
    n_lookup d x (v_world v') = (Ok n, v_world v') /\ content (v_world v') n = Some [] /\ rest_kept n (v_world v) (v_world v').
Proof.
  intros Ht He Hw. destruct (node_entry wflags v path d x eq_refl Ht He Hw) as (w & n & c & Hon & Hl & Hc & Hk & _).
  destruct (open_trunc path v _ n c Hon Hc (rk_tidy _ _ _ Hk)) as (v' & fd & E & Hfd & Hm & Hd & Hk2).
  exists v', fd, n. split_and!; try done; [by apply (rk_lookups _ _ _ Hk2)|by apply (rest_kept_trans _ _ w)].
Qed.
(** Writing at the end of a file. *)
Lemma write_end v fd n d data : v_fds v !! fd = Some (mkFD n wflags (len d)) -> content (v_world v) n = Some d -> tidy (v_world v) ->
  exists v', write fd data v = (Ok (len data), v') /\ v_fds v' !! fd = Some (mkFD n wflags (len (d ++ data))) /\ v_mounts v' = v_mounts v /\
    content (v_world v') n = Some (d ++ data) /\ rest_kept n (v_world v) (v_world v').
Proof.
  intros Hfd Hc Ht. destruct (write_law _ _ _ (len d) data Hc (len_nonneg d)) as (w2 & Hw & Hc2 & Hk2).
  exists (set_fds (<[fd := mkFD n wflags (len d + len data)]> (v_fds v)) (set_world w2 v)). split_and!.
  - unfold write. unfold bind at 1. rewrite (get_fd_Some _ _ _ Hfd). change (has_flag (fd_flags (mkFD n wflags (len d))) O_APPEND) with false. cbv iota. cbn [fd_offset fd_node].
    unfold bind at 1, ret at 1. unfold bind at 1, node, zoom. rewrite Hw. unfold bind. by rewrite (set_offset_Some fd (mkFD n wflags (len d))).
  - cbn. by rewrite lookup_insert_eq, len_app.
  - done.
  - cbn. rewrite Hc2. f_equal. unfold splice. rewrite Z.sub_diag. change (zeros 0) with (@nil Z). rewrite app_nil_r. unfold slice_to. rewrite slice_full. f_equal.
    unfold slice_from, slice. rewrite (clamp_big _ (len d + len data)) by (pose proof (len_nonneg d); pose proof (len_nonneg data); lia). rewrite clamp_id by (pose proof (len_nonneg d); lia).
    replace (Z.to_nat (len d - len d)) with O by lia. by rewrite app_nil_r.
  - split; [|by eapply write_tidy|]; cbn; [intros m nm q Hl; eapply write_lookup; [exact Hc|exact Hw|exact Hl]|]. intros m e Hne. by rewrite Hk2.
Qed.

(** Writing to an entry: it is a file with the data afterwards, and nothing
    else has changed. *)
Lemma write_at_entry v path d x data : tidy (v_world v) -> entry v path d x -> writable v d x ->
  exists v' n, _write_all path data v = (Ok tt, v') /\ v_mounts v' = v_mounts v /\
    n_lookup d x (v_world v') = (Ok n, v_world v') /\ content (v_world v') n = Some data /\ rest_kept n (v_world v) (v_world v').
Proof.
  intros Ht He Hw. destruct (open_entry v path d x Ht He Hw) as (v1 & fd & n & E1 & Hfd & Hm1 & Hl1 & Hc1 & Hk1).
  destruct (write_end v1 fd n [] data Hfd Hc1 (rk_tidy _ _ _ Hk1)) as (v2 & E2 & _ & Hm2 & Hc2 & Hk2).
  exists (set_fds (delete fd (v_fds v2)) v2), n. split_and!.
  - unfold _write_all. fold wflags. by rewrite (bind_step _ _ _ _ _ E1), (bind_step _ _ _ _ _ E2).
  - cbn. by rewrite Hm2.
  - by apply (rk_lookups _ _ _ Hk2).
  - done.
  - by apply (rest_kept_trans _ _ (v_world v1)).
Qed.

(** ** [cp] and [mv] *)

Lemma on_fs_Ok {A} (m : M (VFS W Node) A) h a v' : m (k_vfs h) = (Ok a, v') -> on_fs m h = (Ok a, mkHost (k_out h) v' (k_net h)).
Proof. intros E. unfold on_fs, zoom. by rewrite E. Qed.

(** [cp] copies.  When the source is a file and the destination is a file
    or a new entry of a directory, the command prints nothing and raises
    nothing; both paths then resolve to files with the content of the source,
    also when they are the same file, whatever the destination held. *)
Theorem cp_copies (fuel : nat) (a b : str) (rest : list str) (cwd : str) (h : Host W Node T) (ns d : Node) (c x : str)
    (Ht : tidy (v_world (k_vfs h))) (Hsrc : resolve (_abspath a cwd) (k_vfs h) = (Ok ns, k_vfs h)) (Hc : content (v_world (k_vfs h)) ns = Some c)
    (Hfuel : len c <= 4096 * (Z.of_nat fuel - 1)) (He : entry (k_vfs h) (_abspath b cwd) d x) (Hw : writable (k_vfs h) d x) :
  exists v' nd, cp fuel (a :: b :: rest) cwd h = (Ok tt, mkHost (k_out h) v' (k_net h)) /\
    resolve (_abspath b cwd) v' = (Ok nd, v') /\ content (v_world v') nd = Some c /\
    resolve (_abspath a cwd) v' = (Ok ns, v') /\ content (v_world v') ns = Some c.
Proof.
  destruct (read_all_run fuel _ _ _ _ Hsrc Hc Hfuel) as (v1 & E1 & Hw1 & Hm1).
  assert (Hkr : lookups_kept (v_world (k_vfs h)) (v_world v1)) by (unfold lookups_kept; by rewrite Hw1).
  assert (He1 : entry v1 (_abspath b cwd) d x) by (by apply (kept_entry (k_vfs h))).
  destruct (write_at_entry v1 (_abspath b cwd) d x c) as (v2 & nd & E2 & Hm2 & Hl2 & Hc2 & [Hk2 Ht2 Ho2]); [by rewrite Hw1|done|unfold writable; by rewrite Hw1|].
  exists v2, nd. split_and!.
  - cbn [cp]. rewrite (bind_step _ _ _ _ _ (on_fs_Ok _ h _ _ E1)). apply (on_fs_Ok _ (mkHost _ v1 _)), E2.
  - assert (He2 : entry v2 (_abspath b cwd) d x) by (by apply (kept_entry v1)). rewrite (entry_resolve _ _ _ _ He2), Hl2. done.
  - done.
  - apply (resolve_same _ (k_vfs h)); [by rewrite Hm2|by rewrite Hw1 in Hk2|done].
  - destruct (decide (ns = nd)) as [->|Hne]; [done|]. apply Ho2; [done|by rewrite Hw1].
Qed.

(** [mv] moves.  When the source is a file's entry and the destination is a
    file or a new entry of a directory, and not the same entry under another
    name, the destination resolves to a file with the content of the source
    afterwards and the source no longer resolves; when both paths are the same
    nothing happens. *)
Theorem mv_moves (fuel : nat) (a b : str) (rest : list str) (cwd : str) (h : Host W Node T) (sd ns d : Node) (y c x : str)
    (Ht : tidy (v_world (k_vfs h))) (Hsrc : entry (k_vfs h) (_abspath a cwd) sd y) (Hl : n_lookup sd y (v_world (k_vfs h)) = (Ok ns, v_world (k_vfs h)))
    (Hc : content (v_world (k_vfs h)) ns = Some c) (Hfuel : len c <= 4096 * (Z.of_nat fuel - 1))
    (He : entry (k_vfs h) (_abspath b cwd) d x) (Hw : writable (k_vfs h) d x) (Hsame : (d, x) = (sd, y) -> _abspath a cwd = _abspath b cwd) :
  (_abspath a cwd = _abspath b cwd -> mv fuel (a :: b :: rest) cwd h = (Ok tt, h)) /\
  (_abspath a cwd <> _abspath b cwd -> exists v' nd, mv fuel (a :: b :: rest) cwd h = (Ok tt, mkHost (k_out h) v' (k_net h)) /\
    resolve (_abspath b cwd) v' = (Ok nd, v') /\ content (v_world v') nd = Some c /\
    resolve (_abspath a cwd) v' = (Err FileNotFoundError, v')).
Proof.
  split; intros Hne; cbn [mv].
  { destruct (beq_spec (_abspath a cwd) (_abspath b cwd)); [done|contradiction]. }
  destruct (beq_spec (_abspath a cwd) (_abspath b cwd)); [contradiction|].
  pose proof (entry_resolve _ _ _ _ Hsrc) as Hrs. rewrite Hl in Hrs. cbn [fst] in Hrs.
  destruct (read_all_run fuel _ _ _ _ Hrs Hc Hfuel) as (v1 & E1 & Hw1 & Hm1).
  assert (Hkr : lookups_kept (v_world (k_vfs h)) (v_world v1)) by (unfold lookups_kept; by rewrite Hw1).
  assert (He1 : entry v1 (_abspath b cwd) d x) by (by apply (kept_entry (k_vfs h))).
  destruct (write_at_entry v1 (_abspath b cwd) d x c) as (v2 & nd & E2 & Hm2 & Hl2 & Hc2 & [Hk2 Ht2 Ho2]); [by rewrite Hw1|done|unfold writable; by rewrite Hw1|].
  assert (Hs2 : entry v2 (_abspath a cwd) sd y) by (apply (kept_entry v1); [done|done|]; by apply (kept_entry (k_vfs h))).
  assert (Hd2 : entry v2 (_abspath b cwd) d x) by (by apply (kept_entry v1)).
  assert (Hls : n_lookup sd y (v_world v2) = (Ok ns, v_world v2)) by (by apply Hk2, Hkr).
  assert (Hcs : content (v_world v2) ns = Some c) by (destruct (decide (ns = nd)) as [->|]; [done|]; apply Ho2; [done|by rewrite Hw1]).
  destruct (unlink_law _ _ _ _ _ Ht2 (en_name _ _ _ _ Hs2) Hls Hcs) as (w3 & Eu & Hgone & Hk3).
  assert (Hent : forall p q z, entry v2 p q z -> n_lookup q z (v_world v2) = (Ok (if decide ((q, z) = (sd, y)) then ns else nd), v_world v2) -> entry (set_world w3 v2) p q z).
  { intros p q z [(ps & -> & Hp & Hpar) Hz Hmt] Hq. split; [|done|done]. exists ps. split_and!; [done..|].
    destruct (resolve_walk _ _ _ Hp Hpar) as (fs & rel & Ef & Ew). rewrite resolve_npath by (by apply plain_good). cbn [set_world v_mounts v_world]. rewrite Ef. unfold node, zoom. cbn [v_world set_world].
    by rewrite (walk_unlink _ w3 _ _ _ _ _ _ _ _ _ Ht2 Hls Hcs Hk3 (rel_plain _ _ _ _ Hp Ef) Hz Hq Ew). }
  assert (Hned : (d, x) <> (sd, y)) by (intros E; by apply Hne, Hsame).
  exists (set_world w3 v2), nd. split_and!.
  - rewrite (bind_step _ _ _ _ _ (on_fs_Ok _ h _ _ E1)). rewrite (bind_step _ _ _ _ _ (on_fs_Ok _ (mkHost _ v1 _) _ _ E2)).
    apply (on_fs_Ok _ (mkHost _ v2 _)). pose proof Hs2 as [(ps & Ep & Hp & Hpar) Hy _]. cbn [k_vfs]. unfold unlink. rewrite Ep.
    rewrite path_parent_npath, path_name_npath by (by apply plain_good || apply Hy). rewrite (bind_step _ _ _ _ _ Hpar). unfold node, zoom. by rewrite Eu.
  - rewrite (entry_resolve (set_world w3 v2) _ d x); [cbn; by rewrite (proj1 (Hk3 _ _ _ Hl2 Hned))|]. apply Hent; [done|]. by rewrite decide_False.
  - cbn. by rewrite (proj2 (Hk3 _ _ _ Hl2 Hned)).
  - rewrite (entry_resolve (set_world w3 v2) _ sd y); [cbn; by rewrite Hgone|]. apply Hent; [done|]. by rewrite decide_True.
Qed.

(** ** [cat] *)

Definition ascii_bytes (d : bytes) : Prop := Forall (fun b => 0 <= b < 128) d.
Lemma decode_plain_ascii d : ascii_bytes d -> decode d = d.
Proof. induction 1 as [|b d Hb Hd IH]; [done|]. cbn [decode]. replace (b <? 0x80) with true by lia. by rewrite IH. Qed.

(** What [resolve] gives depends on the mounts and the store alone. *)
Lemma walk_fst n ps w : walk n ps w = (fst (walk n ps w), w).
Proof. destruct (walk n ps w) as [r w'] eqn:E. by rewrite (walk_pure _ _ _ _ _ E). Qed.
Lemma resolve_fst p v v' : v_mounts v' = v_mounts v -> v_world v' = v_world v -> resolve p v' = (fst (resolve p v), v').
Proof.
  intros Hm Hw. unfold resolve, bind, gets. rewrite Hm. destruct (find_mount _ _) as [[fs rel]|]; [|done]. unfold node, zoom. rewrite Hw, walk_fst. cbn.
  by rewrite <- Hw, set_world_id.
Qed.

Lemma cat_chunks_run fuel fd n flags off d h : v_fds (k_vfs h) !! fd = Some (mkFD n flags off) -> content (v_world (k_vfs h)) n = Some d -> ascii_bytes d ->
  0 <= off <= len d -> len d - off <= 1024 * (Z.of_nat fuel - 1) ->
  exists v', cat_chunks fuel fd h = (Ok tt, mkHost (k_out h ++ slice d off (len d)) v' (k_net h)) /\ v_world v' = v_world (k_vfs h) /\ v_mounts v' = v_mounts (k_vfs h).
Proof.
  revert off h. induction fuel as [|fuel IH]; intros off h Hfd Hc Ha Hoff Hf; [simpl in Hf; lia|]. cbn [cat_chunks]. set (v := k_vfs h) in *.
  destruct (cut_at d off Hoff) as (d0 & d1 & -> & Hd0). rewrite len_app in *.
  destruct (cut_at d1 (Z.min 1024 (len d1))) as (c & d2 & -> & Hlc); [pose proof (len_nonneg d1); lia|]. rewrite len_app in *. pose proof (len_nonneg c). pose proof (len_nonneg d2).
  assert (Hchunk : slice (d0 ++ c ++ d2) off (off + 1024) = c).
  { destruct (Z.leb_spec 1024 (len c + len d2)).
    - replace (off + 1024) with (len d0 + len c) by lia. rewrite <- Hd0. apply slice_middle.
    - assert (d2 = []) as -> by (apply len_0_nil; lia). rewrite app_nil_r in *. unfold slice. rewrite (clamp_big _ (off + 1024)), (clamp_id _ off) by (rewrite ?len_app; lia).
      rewrite drop_app_length' by (unfold len in *; lia). apply take_ge. rewrite len_app. unfold len in *. lia. }
  assert (Hrest : slice (d0 ++ c ++ d2) off (len d0 + (len c + len d2)) = c ++ d2).
  { rewrite <- Hd0, <- len_app. pose proof (slice_middle d0 (c ++ d2) []) as E. by rewrite app_nil_r in E. }
  rewrite Hrest. set (v1 := set_fds (<[fd := mkFD n flags (off + len c)]> (v_fds v)) v).
  assert (Hread : read fd 1024 v = (Ok c, v1)).
  { unfold read. unfold bind at 1. rewrite (get_fd_Some _ _ _ Hfd). simpl fd_node. simpl fd_offset. unfold node, zoom, bind. rewrite (read_law _ _ _ _ _ Hc), Hchunk by lia.
    rewrite set_world_id. by rewrite (set_offset_Some _ _ _ _ Hfd). }
  rewrite (bind_step _ _ _ _ _ (on_fs_Ok _ h _ _ Hread)). destruct c as [|b c'].
  - change (len (@nil Z)) with 0 in *. assert (d2 = []) as -> by (apply len_0_nil; lia). exists v1. cbn. by rewrite app_nil_r.
  - set (c := b :: c') in *. assert (1 <= len c) by (unfold c; rewrite len_cons; pose proof (len_nonneg c'); lia).
    assert (Hac : ascii_bytes c) by (unfold ascii_bytes in Ha; rewrite !Forall_app in Ha; apply Ha).
    destruct (IH (off + len c) (mkHost (k_out h ++ c) v1 (k_net h))) as (v2 & E2 & Hw2 & Hm2); cbn [k_vfs]; [unfold v1; cbn; by rewrite lookup_insert_eq|exact Hc|done|lia|lia|].
    exists v2. split_and!; [|done..]. unfold k_write, modify. unfold bind. rewrite decode_plain_ascii by done. unfold set_out. cbn [k_vfs k_net k_out].
    rewrite E2. cbn [k_out k_net]. do 2 f_equal. rewrite <- (assoc_L (++)). f_equal. f_equal.
    rewrite (assoc_L (++)). replace (off + len c) with (len (d0 ++ c)) by (rewrite len_app; lia). replace (len d0 + (len c + len d2)) with (len (d0 ++ c) + len d2) by (rewrite len_app; lia).
    pose proof (slice_middle (d0 ++ c) d2 []) as E. by rewrite app_nil_r in E.
Qed.

(** What [cat] prints for a path: the file, or why there is none. *)
Definition cat_text v (path : str) : str :=
  match fst (resolve path v) with
  | Ok n => default [] (content (v_world v) n)
  | Err FileNotFoundError => lit "cat: " ++ path ++ lit ": not found" ++ [newline]
  | Err IsADirectoryError => lit "cat: " ++ path ++ lit ": is a directory" ++ [newline]
  | Err e => lit "cat: " ++ path ++ lit ": " ++ estr e ++ [newline]
  end.
Definition cat_ok fuel v (path : str) : Prop :=
  match fst (resolve path v) with
  | Ok n => exists d, content (v_world v) n = Some d /\ ascii_bytes d /\ len d <= 1024 * (Z.of_nat fuel - 1)
  | Err _ => True
  end.
Lemma cat_file_run fuel path h : cat_ok fuel (k_vfs h) path ->
  exists v', cat_file estr fuel path h = (Ok tt, mkHost (k_out h ++ cat_text (k_vfs h) path) v' (k_net h)) /\
    v_world v' = v_world (k_vfs h) /\ v_mounts v' = v_mounts (k_vfs h).
Proof.
  unfold cat_ok, cat_text, cat_file. set (v := k_vfs h). pose proof (resolve_fst path v v eq_refl eq_refl) as Hr. destruct (fst (resolve path v)) as [n|e].
  - intros (d & Hc & Ha & Hf). set (fd := v_next_fd v). set (v1 := set_fds (<[fd := mkFD n 0 0]> (v_fds v)) (set_next_fd (fd + 1) v)).
    assert (Ho : open path 0 v = (Ok fd, v1)) by (unfold open; rewrite (bind_step _ _ v n v) by exact Hr; reflexivity).
    destruct (cat_chunks_run fuel fd n 0 0 d (mkHost (k_out h) v1 (k_net h))) as (v2 & E2 & Hw2 & Hm2); cbn [k_vfs]; [by unfold v1; cbn; rewrite lookup_insert_eq|done|done|pose proof (len_nonneg d); lia|lia|].
    exists (set_fds (delete fd (v_fds v2)) v2). split_and!; [|done..]. rewrite Hc. cbn [default].
    unfold bind at 1, try_except at 1, bind at 1. rewrite (on_fs_Ok _ h _ _ Ho). cbn [ret]. unfold try_finally, try_except. rewrite E2. cbn. by rewrite slice_full.
  - intros _. exists v. split_and!; [|done..]. assert (Ho : on_fs (open path 0) h = (Err e, h)).
    { unfold on_fs, zoom, open. fold v. unfold bind. change (open_node path 0 v) with (resolve path v). rewrite Hr. by destruct h. }
    unfold bind at 1, try_except at 1, bind at 1. rewrite Ho. destruct e; cbn; by rewrite <- ?(assoc_L (++)).
Qed.

(** [cat] prints its files.  For arguments that are ASCII files of any
    length or do not resolve, in any mixture, it prints the contents one after
    the other, in place of the missing ones a line that says so, raises
    nothing, and leaves files and mounts as they are. *)
Theorem cat_prints (fuel : nat) (argv : list str) (cwd : str) (h : Host W Node T)
    (Hargs : argv <> []) (Hok : Forall (fun a => cat_ok fuel (k_vfs h) (_abspath a cwd)) argv) :
  exists v', cat estr fuel argv cwd h = (Ok tt, mkHost (k_out h ++ concat (map (fun a => cat_text (k_vfs h) (_abspath a cwd)) argv)) v' (k_net h)) /\
    v_world v' = v_world (k_vfs h) /\ v_mounts v' = v_mounts (k_vfs h).
Proof.
  unfold cat. destruct argv as [|a0 argv0]; [done|]. clear Hargs. generalize dependent (a0 :: argv0). clear a0 argv0. intros argv Hok.
  revert h Hok. induction argv as [|a argv IH]; intros h Hok; [exists (k_vfs h); rewrite app_nil_r; by destruct h|].
  apply list.Forall_cons in Hok as [Ha Hok]. cbn [for_each map concat]. destruct (cat_file_run fuel _ h Ha) as (v1 & E1 & Hw1 & Hm1). rewrite (bind_step _ _ _ _ _ E1).
  destruct (IH (mkHost (k_out h ++ cat_text (k_vfs h) (_abspath a cwd)) v1 (k_net h))) as (v2 & E2 & Hw2 & Hm2).
  { eapply list.Forall_impl; [exact Hok|]. intros b. unfold cat_ok. cbn [k_vfs]. by rewrite (resolve_fst _ (k_vfs h) v1), Hw1. }
  exists v2. cbn [k_vfs] in *. split_and!; [|by rewrite Hw2|by rewrite Hm2]. rewrite E2. cbn [k_out k_net]. rewrite <- (assoc_L (++)). do 5 f_equal.
  apply map_ext. intros b. unfold cat_text. by rewrite (resolve_fst _ (k_vfs h) v1), Hw1.
Qed.

(** ** [ftp get] *)

(** The connection hands over [chunks], one per [recv], and ends. *)
Inductive delivers (conn : Z) : T -> list bytes -> T -> Prop :=
| delivers_end t t' : conn_recv conn 1024 t = (Ok [], t') -> delivers conn t [] t'
| delivers_chunk t c t1 cs t' : c <> [] -> conn_recv conn 1024 t = (Ok c, t1) -> delivers conn t1 cs t' -> delivers conn t (c :: cs) t'.

Lemma on_net_Ok {A} (m : M T A) h a t' : m (k_net h) = (Ok a, t') -> on_net m h = (Ok a, mkHost (k_out h) (k_vfs h) t').
Proof. intros E. unfold on_net, zoom. by rewrite E. Qed.
Lemma receive_run conn chunks t' fuel fd n d total h : delivers conn (k_net h) chunks t' -> (length chunks < fuel)%nat ->
  v_fds (k_vfs h) !! fd = Some (mkFD n wflags (len d)) -> content (v_world (k_vfs h)) n = Some d -> tidy (v_world (k_vfs h)) ->
  exists v', receive fuel conn fd total h = (Ok (total + len (concat chunks)), mkHost (k_out h) v' t') /\ v_mounts v' = v_mounts (k_vfs h) /\
    content (v_world v') n = Some (d ++ concat chunks) /\ rest_kept n (v_world (k_vfs h)) (v_world v').
Proof.
  revert fuel d total h. induction chunks as [|c cs IH]; intros fuel d total h Hd; inversion Hd as [t0 t1 Hr|t0 c0 t1 cs0 t2 Hne Hr Hd']; subst; intros Hf Hfd Hc Ht; destruct fuel as [|fuel]; try (cbn in Hf; lia);
    cbn [receive]; rewrite (bind_step _ _ _ _ _ (on_net_Ok _ h _ _ Hr)).
  - exists (k_vfs h). change (len (concat (@nil bytes))) with 0. rewrite Z.add_0_r, app_nil_r. split_and!; [done..|]. by split; [intros ??|done|].
  - destruct c as [|b c]; [done|]. set (ch := b :: c) in *. destruct (write_end (k_vfs h) fd n d ch Hfd Hc Ht) as (v1 & E1 & Hfd1 & Hm1 & Hc1 & Hk1).
    rewrite (bind_step _ _ _ _ _ (on_fs_Ok _ (mkHost (k_out h) (k_vfs h) t1) _ _ E1)). cbn [k_out k_net].
    destruct (IH fuel (d ++ ch) (total + len ch) (mkHost (k_out h) v1 t1) Hd') as (v2 & E2 & Hm2 & Hc2 & Hk2); cbn [k_vfs]; [cbn in Hf; lia|done|done|by apply (rk_tidy _ _ _ Hk1)|].
    exists v2. rewrite E2. cbn [k_out k_vfs] in *. change (concat (ch :: cs)) with (ch ++ concat cs). rewrite len_app, Z.add_assoc. split_and!; [done|by rewrite Hm2|by rewrite Hc2, <- (assoc_L (++))|by apply (rest_kept_trans _ _ (v_world v1))].
Qed.

(** What [ftp get] prints. *)
Definition get_text (t : T) (path : str) (port n : Z) : str :=
  lit "ftp: listening on " ++ local_ip_str t ++ lit ":" ++ str_of_int port ++ [newline] ++
  lit "ftp: waiting for one incoming file stream" ++ [newline] ++
  lit "ftp: saved " ++ str_of_int n ++ lit " bytes to " ++ path ++ [newline].

Lemma ftp_get_run fuel path port h listener conn t1 t2 t3 t4 t5 t6 chunks d x :
  tcp_listen port (k_net h) = (Ok listener, t1) -> tcp_accept listener t1 = (Ok conn, t2) -> listener_close listener t2 = (Ok tt, t3) ->
  delivers conn t3 chunks t4 -> conn_close conn t4 = (Ok tt, t5) -> remove_connection conn t5 = (Ok tt, t6) -> (length chunks < fuel)%nat ->
  tidy (v_world (k_vfs h)) -> entry (k_vfs h) path d x -> writable (k_vfs h) d x ->
  exists v' n, _ftp_get fuel path port h = (Ok tt, mkHost (k_out h ++ get_text t1 path port (len (concat chunks))) v' t6) /\
    resolve path v' = (Ok n, v') /\ content (v_world v') n = Some (concat chunks).
Proof.
  intros Hlisten Haccept Hlclose Hrecv Hclose Hremove Hfuel Ht He Hw.
  destruct (open_entry _ _ _ _ Ht He Hw) as (v1 & fd & n & E1 & Hfd & Hm1 & Hl1 & Hc1 & Hk1).
  set (o := k_out h ++ lit "ftp: listening on " ++ local_ip_str t1 ++ lit ":" ++ str_of_int port ++ [newline] ++ lit "ftp: waiting for one incoming file stream" ++ [newline]).
  destruct (receive_run conn chunks t4 fuel fd n [] 0 (mkHost o v1 t3) Hrecv Hfuel Hfd Hc1 (rk_tidy _ _ _ Hk1)) as (v2 & E2 & Hm2 & Hc2 & Hk2). cbn [k_vfs k_out] in *.
  pose proof (rest_kept_trans _ _ _ _ Hk1 Hk2) as Hk. set (v3 := set_fds (delete fd (v_fds v2)) v2). exists v3, n. split_and!.
  - unfold _ftp_get. rewrite (bind_step _ _ _ _ _ (on_net_Ok _ h _ _ Hlisten)). unfold bind at 1, gets. unfold bind at 1, _line at 1, k_write, modify. unfold bind at 1, _line at 1, k_write, modify.
    cbn [set_out k_out k_vfs k_net]. unfold bind at 1, on_error at 1, try_except.
    match goal with |- context [on_net (tcp_accept listener) ?s] => replace s with (mkHost o (k_vfs h) t1) by (unfold set_out, o; cbn [k_out k_vfs k_net]; by rewrite <- !(assoc_L (++))) end.
    rewrite (on_net_Ok _ (mkHost o (k_vfs h) t1) _ _ Haccept). cbn [k_out k_vfs]. unfold bind at 1, on_error at 1, try_except. rewrite (on_net_Ok _ (mkHost o (k_vfs h) t2) _ _ Hlclose). cbn [k_out k_vfs].
    unfold bind at 1, on_error at 1, try_except. cbn [k_out k_vfs]. fold wflags. rewrite (on_fs_Ok _ (mkHost o (k_vfs h) t3) _ _ E1). cbn [k_out k_net].
    unfold bind at 1, try_finally at 1. rewrite E2. unfold cleanup, when, end_conn. unfold bind at 1 2. rewrite (on_fs_Ok _ (mkHost o v2 t4) tt v3) by done. cbn [k_out k_net].
    unfold bind at 1 2. rewrite (on_net_Ok _ (mkHost o v3 t4) _ _ Hclose). cbn [k_out k_vfs]. rewrite (on_net_Ok _ (mkHost o v3 t5) _ _ Hremove).
    unfold bind, ret, _line, k_write, modify, set_out. cbn [k_out k_vfs k_net]. rewrite Z.add_0_l. do 2 f_equal. unfold o, get_text. by rewrite <- !(assoc_L (++)).
  - assert (He3 : entry v3 path d x) by (apply (kept_entry (k_vfs h)); [by cbn; rewrite Hm2|exact (rk_lookups _ _ _ Hk)|done]).
    rewrite (entry_resolve _ _ _ _ He3). cbn. by rewrite (rk_lookups _ _ _ Hk2 _ _ _ Hl1).
  - done.
Qed.

(** [ftp get] saves the stream.  On a network that listens, accepts and
    hands over a stream in any chunks, with a destination that can be written
    to, the file holds exactly the bytes of the stream afterwards, whatever it
    held, the byte count that is printed is their number, and listener and
    connection have been closed once. *)
Theorem ftp_get_saves (fuel : nat) (a : str) (port : Z) (cwd : str) (h : Host W Node T) (listener conn : Z) (t1 t2 t3 t4 t5 t6 : T) (chunks : list bytes) (d : Node) (x : str)
    (Hport : 1 <= port <= 65535) (Hlisten : tcp_listen port (k_net h) = (Ok listener, t1)) (Haccept : tcp_accept listener t1 = (Ok conn, t2))
    (Hlclose : listener_close listener t2 = (Ok tt, t3)) (Hrecv : delivers conn t3 chunks t4) (Hclose : conn_close conn t4 = (Ok tt, t5))
    (Hremove : remove_connection conn t5 = (Ok tt, t6)) (Hfuel : (length chunks < fuel)%nat)
    (Ht : tidy (v_world (k_vfs h))) (He : entry (k_vfs h) (_abspath a cwd) d x) (Hw : writable (k_vfs h) d x) :
  exists v' n, ftp estr fuel [lit "get"; a; str_of_int port] cwd h = (Ok tt, mkHost (k_out h ++ get_text t1 (_abspath a cwd) port (len (concat chunks))) v' t6) /\
    resolve (_abspath a cwd) v' = (Ok n, v') /\ content (v_world v') n = Some (concat chunks).
Proof.
  destruct (ftp_get_run fuel _ port h listener conn t1 t2 t3 t4 t5 t6 chunks d x Hlisten Haccept Hlclose Hrecv Hclose Hremove Hfuel Ht He Hw) as (v' & n & E & H1 & H2).
  exists v', n. split; [|done]. unfold ftp. change (one_of (lit "get") ["help"; "-h"; "--help"]%string) with false. change (one_of (lit "get") ["get"; "recv"]%string) with true.
  change ((len [lit "get"; a; str_of_int port] <? 2) || (3 <? len [lit "get"; a; str_of_int port])) with false. cbv iota. cbn [list_lookup lookup nth].
  unfold with_port, _parse_port. rewrite py_int_str_of_int. replace ((port <? 1) || (65535 <? port)) with false by lia. unfold bind, ret, _run_ftp_get, report, try_except. by rewrite E.
Qed.
End laws.

(** ** tmpfs *)

Definition tmpfs_tidy (h : heap) : Prop := heap_wf h /\ forall n x, h_nodes h !! n = Some x -> base.NoDup (t_children x).*1.

Section dict_keys.
Context {V : Type}.
Implicit Types d : list (str * V).

Lemma dict_set_keys k v d j : j ∈ (dict_set k v d).*1 -> j = k \/ j ∈ d.*1.
Proof.
  induction d as [|[k' v'] d IH]; simpl; [set_solver|]. destruct (beq k' k); csimpl; rewrite ?elem_of_cons; [by right|]. intros [->|Hj]; [by right; left|]. destruct (IH Hj); auto.
Qed.
Lemma dict_set_NoDup k v d : base.NoDup d.*1 -> base.NoDup (dict_set k v d).*1.
Proof.
  induction d as [|[k' v'] d IH]; csimpl; intros Hd; [repeat constructor; by intros ?%elem_of_nil|].
  apply NoDup_cons in Hd as [Hn Hd]. destruct (beq_spec k' k) as [->|Hne]; csimpl; constructor; try done; [|by apply IH].
  intros Hin. apply dict_set_keys in Hin as [->|]; done.
Qed.
Lemma dict_get_key k d v : dict_get k d = Some v -> k ∈ d.*1.
Proof. induction d as [|[k' v'] d IH]; simpl; [done|]. destruct (beq_spec k' k) as [->|]; csimpl; rewrite elem_of_cons; naive_solver. Qed.
Lemma dict_del_keys k d j : j ∈ (dict_del k d).*1 -> j ∈ d.*1.
Proof. induction d as [|[k' v'] d IH]; simpl; [done|]. destruct (beq k' k); csimpl; rewrite ?elem_of_cons; [by right|]. intros [->|Hj]; auto. Qed.
Lemma dict_del_NoDup k d : base.NoDup d.*1 -> base.NoDup (dict_del k d).*1.
Proof.
  induction d as [|[k' v'] d IH]; csimpl; [done|]. intros [Hn Hd]%NoDup_cons. destruct (beq k' k); [done|]. csimpl. constructor; [|by apply IH]. intros Hin%dict_del_keys. done.
Qed.
Lemma dict_get_del k d : base.NoDup d.*1 -> dict_get k (dict_del k d) = None.
Proof.
  induction d as [|[k' v'] d IH]; csimpl; [done|]. intros [Hn Hd]%NoDup_cons. destruct (beq_spec k' k) as [->|Hne]; cbn.
  - destruct (dict_get k d) as [v|] eqn:E; [by apply dict_get_key in E|done].
  - destruct (beq_spec k' k); [done|]. by apply IH.
Qed.
Lemma dict_get_del_ne k j d : j <> k -> dict_get j (dict_del k d) = dict_get j d.
Proof.
  intros Hne. induction d as [|[k' v'] d IH]; cbn; [done|]. destruct (beq_spec k' k) as [->|]; cbn; [|by rewrite IH]. by destruct (beq_spec k j); [congruence|].
Qed.
End dict_keys.

Lemma tidy_update f n h : (forall x, inode_type (f x) = inode_type x) -> (forall x, t_children (f x) = t_children x) -> tmpfs_tidy h -> tmpfs_tidy (mkHeap (alter f n (h_nodes h)) (h_next h)).
Proof.
  intros Hty Hch [Hw Hn]. split; [apply heap_wf_update; [done|intros x c; by rewrite Hch|done]|]. intros m x. cbn. rewrite lookup_alter. case_match; [|apply Hn]. subst.
  intros (y & Hy & ->)%fmap_Some. rewrite Hch. by eapply Hn.
Qed.
Lemma content_alter f n h k m : m <> n -> tmpfs_content (mkHeap (alter f n (h_nodes h)) k) m = tmpfs_content h m.
Proof. intros Hne. unfold tmpfs_content. cbn. by rewrite lookup_alter_ne. Qed.

Lemma tmpfs_write_tidy h n d off data r h' : tmpfs_tidy h -> tmpfs_content h n = Some d -> tmpfs_write n off data h = (r, h') -> tmpfs_tidy h'.
Proof.
  intros Ht (y & Hy & Hty & _)%tmpfs_content_Some. unfold tmpfs_write. unfold bind at 1, deref. rewrite Hy, Hty. cbv zeta. simpl.
  destruct (_ <? _); intros [= _ <-]; [|by apply tidy_update]. apply (tidy_update _ n (mkHeap _ _)); [done|done|]. by apply tidy_update.
Qed.
Lemma tmpfs_unlink_law h d name n c : tmpfs_tidy h -> plain name -> tmpfs_lookup d name h = (Ok n, h) -> tmpfs_content h n = Some c ->
  exists h', tmpfs_unlink d name h = (Ok tt, h') /\ tmpfs_lookup d name h' = (Err FileNotFoundError, h') /\
    forall m nm k, tmpfs_lookup m nm h = (Ok k, h) -> (m, nm) <> (d, name) -> tmpfs_lookup m nm h' = (Ok k, h') /\ tmpfs_content h' k = tmpfs_content h k.
Proof.
  intros [Hw Hn] ((Hne & _) & Hdot & _) Hl Hc. unfold tmpfs_lookup, bind, deref in Hl. destruct (h_nodes h !! d) as [y|] eqn:Hy; [|done].
  assert (Hb : beq name (lit ".") || beq name [] = false) by (destruct (beq_spec name (lit ".")), (beq_spec name []); done).
  rewrite Hb in Hl. destruct (dict_get name (t_children y)) as [q|] eqn:Eg; [|done]. injection Hl as ->.
  assert (Hcont : forall k, tmpfs_content (mkHeap (alter (fun x => set_children (dict_del name (t_children x)) x) d (h_nodes h)) (h_next h)) k = tmpfs_content h k).
  { intros k. unfold tmpfs_content. cbn. destruct (decide (k = d)) as [->|]; [by rewrite lookup_alter_eq, Hy|by rewrite lookup_alter_ne]. }
  eexists. split; [|split].
  - unfold tmpfs_unlink, bind, deref. rewrite Hy, Eg. reflexivity.
  - unfold tmpfs_lookup, bind, deref. cbn [h_nodes]. rewrite lookup_alter_eq, Hy. cbn [fmap option_fmap option_map]. rewrite Hb. cbn [t_children set_children]. rewrite dict_get_del by (by eapply Hn). done.
  - intros m nm k Hm Hmn. split; [|apply Hcont]. revert Hm. unfold tmpfs_lookup, bind, deref. cbn [h_nodes]. destruct (decide (m = d)) as [->|Hmd].
    + rewrite lookup_alter_eq, Hy. cbn [fmap option_fmap option_map]. destruct (beq nm (lit ".") || beq nm []); [by intros [= ->]|]. cbn [t_children set_children].
      rewrite dict_get_del_ne by congruence. destruct (dict_get nm (t_children y)); by intros [= ->].
    + rewrite lookup_alter_ne by done. destruct (h_nodes h !! m) as [z|]; [|done]. destruct (beq nm (lit ".") || beq nm []); [by intros [= ->]|]. destruct (dict_get nm (t_children z)); by intros [= ->].
Qed.
Lemma tmpfs_create_keeps h n name n' h' : tmpfs_tidy h -> tmpfs_is_dir h n -> tmpfs_create n name FILE h = (Ok n', h') ->
  tmpfs_tidy h' /\ forall m d, tmpfs_content h m = Some d -> m <> n' /\ tmpfs_content h' m = Some d.
Proof.
  intros [Hw Hn] [_ (x & Hx & Hty)] Hcr. assert (Hne : h_next h <> n) by (pose proof (hw_fresh _ Hw _ (mk_is_Some _ _ Hx)); lia).
  pose proof (create_wf n name FILE h Hw) as Hw'. rewrite Hcr in Hw'. cbn [snd] in Hw'. rewrite (tmpfs_create_run _ _ x) in Hcr by done. injection Hcr as <- <-. split; [split; [done|]|].
  - intros m y. cbn. intros [[<- <-]|[_ [[<- <-]|[_ Hy]]%lookup_insert_Some]]%lookup_insert_Some; cbn; [apply dict_set_NoDup; by eapply Hn|constructor|by eapply Hn].
  - intros m d (y & Hy & Hty' & Hd)%tmpfs_content_Some. pose proof (hw_fresh _ Hw _ (mk_is_Some _ _ Hy)). split; [lia|]. unfold tmpfs_content. cbn.
    destruct (decide (m = n)) as [->|Hmn]; [congruence|]. rewrite !lookup_insert_ne, Hy, Hty' by lia. cbn. by rewrite Hd.
Qed.

#[global] Instance tmpfs_entry_laws : EntryLaws heap Z.
Proof.
  refine {| tidy := tmpfs_tidy |}.
  - intros h n name n' h' Ht Hd _. by apply tmpfs_create_keeps.
  - intros h n d r h' Ht (y & Hy & Hty & _)%tmpfs_content_Some. cbn. unfold tmpfs_truncate, bind, deref. rewrite Hy, Hty. intros [= _ <-]. split; [by apply tidy_update|]. intros m Hm. by apply content_alter.
  - apply tmpfs_write_tidy.
  - intros h n d nm k [Hw _] (y & Hy & Hty & _)%tmpfs_content_Some ((Hne & _) & Hdot & _). cbn. unfold tmpfs_lookup, bind, deref. rewrite Hy.
    destruct (beq_spec nm (lit ".")), (beq_spec nm []); try done. cbn. rewrite (hw_leaf _ Hw _ _ Hy) by congruence. done.
  - apply tmpfs_unlink_law.
Defined.

(** ** Concrete runs *)

(** A network of one connection: the chunks it still hands over. *)
#[global] Instance pipe : Streams (list bytes) := {
  tcp_listen port := ret port;
  tcp_accept l := ret 1;
  listener_close l := ret tt;
  tcp_connect host port := ret 1;
  conn_recv c n := fun t => match t with [] => (Ok [], []) | b :: t' => (Ok b, t') end;
  conn_send c data := modify (fun t => t ++ [data]);
  conn_close c := ret tt;
  remove_connection c := ret tt;
  local_ip_str t := lit "10.0.2.15";
}.
Definition shell_host (t : list bytes) : Host heap Z (list bytes) := mkHost [] wit_vfs t.
Lemma wit_tidy : tmpfs_tidy wit_heap.
Proof.
  split; [eapply (steps_invariant tmpfs_step heap_wf tmpfs_step_wf); [apply heap_wf_init|apply wit_heap_reachable]|].
  assert (Hm : map_Forall (fun _ x => base.NoDup (t_children x).*1) (h_nodes wit_heap)) by (apply (bool_decide_unpack _); vm_compute; exact I). exact Hm.
Qed.
Lemma plain_dec p : negb (beq p []) && forallb (fun c => negb (is_slash c)) p && negb (beq p (lit ".")) && negb (beq p (lit "..")) = true -> plain p.
Proof. rewrite !andb_true_iff. intros (((H1 & H2) & H3) & H4). split; [apply good_part_dec; by rewrite H1, H2|]. destruct (beq_spec p (lit ".")), (beq_spec p (lit "..")); done. Qed.
Lemma wit_entry ps x d path : path = npath (ps ++ [x]) -> Forall plain ps -> plain x -> resolve (npath ps) wit_vfs = (Ok d, wit_vfs) ->
  path ∉ (v_mounts wit_vfs).*1 -> entry wit_vfs path d x.
Proof. intros -> Hp Hx Hr Hm. split; [|done|done]. by exists ps. Qed.
Ltac wit_entry_tac := first [reflexivity | (repeat constructor; apply plain_dec; reflexivity) | (apply plain_dec; reflexivity) | (vm_compute; set_solver)].
Lemma motd_entry : entry wit_vfs (_abspath (lit "motd") (lit "/etc")) 2 (lit "motd").
Proof. apply (wit_entry [lit "etc"]); wit_entry_tac. Qed.
Lemma copy_entry : entry wit_vfs (_abspath (lit "../home/copy") (lit "/etc")) 1 (lit "copy").
Proof. apply (wit_entry [lit "home"]); wit_entry_tac. Qed.
Lemma copy_writable : writable wit_vfs 1 (lit "copy").
Proof. right. split; [reflexivity|]. split; [eapply wit_dir; reflexivity|split; discriminate]. Qed.

Lemma cp_copies_witness : exists v' nd, cp 2 [lit "motd"; lit "../home/copy"] (lit "/etc") (shell_host []) = (Ok tt, mkHost [] v' []) /\
  resolve (lit "/home/copy") v' = (Ok nd, v') /\ tmpfs_content (v_world v') nd = Some (lit "hello").
Proof.
  destruct (cp_copies 2 (lit "motd") (lit "../home/copy") [] (lit "/etc") (shell_host []) 3 1 (lit "hello") (lit "copy")) as (v' & nd & H1 & H2 & H3 & _).
  - exact wit_tidy.
  - reflexivity.
  - reflexivity.
  - vm_compute; discriminate.
  - exact copy_entry.
  - exact copy_writable.
  - exists v', nd. split; [exact H1|split; [exact H2|exact H3]].
Defined.
Lemma mv_moves_witness : exists v' nd, mv 2 [lit "motd"; lit "../home/copy"] (lit "/etc") (shell_host []) = (Ok tt, mkHost [] v' []) /\
  resolve (lit "/home/copy") v' = (Ok nd, v') /\ tmpfs_content (v_world v') nd = Some (lit "hello") /\ resolve (lit "/etc/motd") v' = (Err FileNotFoundError, v').
Proof.
  destruct (mv_moves 2 (lit "motd") (lit "../home/copy") [] (lit "/etc") (shell_host []) 2 3 1 (lit "motd") (lit "hello") (lit "copy")) as (_ & Hmv).
  - exact wit_tidy.
  - exact motd_entry.
  - reflexivity.
  - reflexivity.
  - vm_compute; discriminate.
  - exact copy_entry.
  - exact copy_writable.
  - intros E. discriminate E.
  - destruct Hmv as (v' & nd & H1 & H2 & H3 & H4); [discriminate|]. exists v', nd. split; [exact H1|split; [exact H2|split; [exact H3|exact H4]]].
Defined.
Lemma cat_prints_witness : exists v', cat (fun _ => lit "error") 2 [lit "motd"; lit "none"; lit "/etc/raw"] (lit "/etc") (shell_host []) =
  (Ok tt, mkHost (lit "hello" ++ lit "cat: /etc/none: not found" ++ [newline; 1; 2; 3]) v' []) /\ v_world v' = wit_heap.
Proof.
  destruct (cat_prints (fun _ => lit "error") 2 [lit "motd"; lit "none"; lit "/etc/raw"] (lit "/etc") (shell_host [])) as (v' & H1 & H2 & _).
  - discriminate.
  - repeat constructor; unfold cat_ok; vm_compute; try exact I; eexists; (split; [reflexivity|]); split; try discriminate; repeat constructor; discriminate.
  - exists v'. split; [exact H1|exact H2].
Defined.
Lemma ftp_get_saves_witness : exists v' n, ftp (fun _ => lit "error") 5 [lit "get"; lit "../home/copy"; lit "7000"] (lit "/etc") (shell_host [lit "one "; lit "two"]) =
  (Ok tt, mkHost (get_text [] (lit "/home/copy") 7000 7) v' []) /\
  resolve (lit "/home/copy") v' = (Ok n, v') /\ tmpfs_content (v_world v') n = Some (lit "one two").
Proof.
  destruct (ftp_get_saves (fun _ => lit "error") 5 (lit "../home/copy") 7000 (lit "/etc") (shell_host [lit "one "; lit "two"]) 7000 1
    [lit "one "; lit "two"] [lit "one "; lit "two"] [lit "one "; lit "two"] [] [] [] [lit "one "; lit "two"] 1 (lit "copy")) as (v' & n & H1 & H2 & H3).
  - lia.
  - reflexivity.
  - reflexivity.
  - reflexivity.
  - eapply delivers_chunk; [discriminate|reflexivity|]. eapply delivers_chunk; [discriminate|reflexivity|]. apply delivers_end. reflexivity.
  - reflexivity.
  - reflexivity.
  - cbn; lia.
  - exact wit_tidy.
  - exact copy_entry.
  - exact copy_writable.
  - exists v', n. split; [exact H1|split; [exact H2|exact H3]].
Defined.

(** [cat] decodes a file chunk by chunk: a character that lies across the 1024th
    byte comes out as two replacement characters. *)
Definition accent_vfs : VFS heap Z := snd (_write_all (lit "/home/text") (replicate 1023 97 ++ [0xC3; 0xA9]) wit_vfs).
Example cat_splits_characters : decode [0xC3; 0xA9] = [233] /\
  k_out (snd (cat (fun _ => []) 9 [lit "text"] (lit "/home") (mkHost [] accent_vfs ([] : list bytes)))) = replicate 1023 97 ++ [FFFD; FFFD].
Proof. vm_compute. done. Qed.

(** [cp] of a directory raises, and the descriptor it opened stays open. *)
Example cp_leaks_descriptor :
  let '(r, k) := cp 9 [lit "/etc"; lit "/home/x"] (lit "/") (shell_host []) in
  r = Err IsADirectoryError /\ v_fds wit_vfs !! 3 = None /\ v_fds (k_vfs k) !! 3 = Some (mkFD 2 0 0).
Proof. vm_compute. done. Qed.
