(* ===== verification/Shell.v ===== *)
(** * The shell ([kernel/shell.py])

    The interactive shell of the kernel: reading a line, completing names,
    telling commands from Python, running scripts of the filesystem, the
    sub-shell and the history file.  What runs Python is a parameter: the
    evaluation of a block, the execution of a script, the objects its
    namespace leads to, whether a block is complete.  Input that has ended
    raises [EOFError]; names are ASCII.

    After the definitions: what the terminal shows is the line the shell got,
    completion keeps what was typed and adds no more than all candidates
    agree on, and the history read at the next start is the lines entered. *)

From Stdlib Require Import ZArith Lia Ascii.
From stdpp Require Import base list gmap numbers strings.
From S2P Require Import Prelude Bytes Pystr Vfs VfsProps Tmpfs Ed EdProps EdFiles Commands.

Local Open Scope Z_scope.

(** ** Strings *)

Definition tab : Z := 9.
Definition backspace : Z := 8.
Definition DEL : Z := 127.

(** [line.split()]. *)
Fixpoint split_ws_from (word : str) (s : str) : list str :=
  match s with
  | [] => match word with [] => [] | _ => [word] end
  | c :: s' =>
      if is_space c then match word with [] => split_ws_from [] s' | _ => word :: split_ws_from [] s' end
      else split_ws_from (word ++ [c]) s'
  end.
Definition split_ws (s : str) : list str := split_ws_from [] s.

Definition is_word (c : Z) : bool := is_alpha c || (c =? 95) || is_digit c.
Definition isidentifier (s : str) : bool :=
  match s with [] => false | c :: s' => (is_alpha c || (c =? 95)) && forallb is_word s' end.

(** [s.replace(old, new)] for a non-empty [old]: from the left, not
    overlapping; [skip] counts the characters of a match still to pass. *)
Fixpoint replace_from (old new : str) (skip : nat) (s : str) : str :=
  match s with
  | [] => []
  | c :: s' =>
      match skip with
      | S k => replace_from old new k s'
      | O => if startswith s old then new ++ replace_from old new (length old - 1) s' else c :: replace_from old new O s'
      end
  end.
Definition replace (old new s : str) : str := replace_from old new O s.

(** [text.splitlines()]. *)
Definition is_break (c : Z) : bool :=
  ((10 <=? c) && (c <=? 13)) || ((28 <=? c) && (c <=? 30)) || (c =? 133) || (c =? 8232) || (c =? 8233).
Fixpoint splitlines_from (line : str) (s : str) : list str :=
  match s with
  | [] => match line with [] => [] | _ => [line] end
  | c :: s' =>
      if is_break c then
        match s' with
        | d :: s'' => if (c =? 13) && (d =? 10) then line :: splitlines_from [] s'' else line :: splitlines_from [] s'
        | [] => [line]
        end
      else splitlines_from (line ++ [c]) s'
  end.
Definition splitlines (s : str) : list str := splitlines_from [] s.

Definition endswith (s suf : str) : bool := beq (drop (length s - length suf) s) suf && (length suf <=? length s)%nat.

(** ** Completion *)

(** The text before the token under the cursor, and the token. *)
Fixpoint count_back (stop : Z -> bool) (rs : str) : nat := match rs with c :: rs' => if stop c then O else S (count_back stop rs') | [] => O end.
Definition token_start (delimiters : str) (line : str) : nat := length line - count_back (fun c => existsb (Z.eqb c) delimiters) (rev line).
Definition python_delimiters : str := lit " " ++ [9; 13; 10] ++ lit "'" ++ [34] ++ lit "`({[=,:;+-*/%&|^~<>!".
Definition file_delimiters : str := lit " " ++ [9; 13; 10] ++ lit "'" ++ [34] ++ lit "`({[=,:;".

(** The common prefix of two strings, and of all. *)
Fixpoint common2 (a b : str) : str :=
  match a, b with
  | x :: a', y :: b' => if x =? y then x :: common2 a' b' else []
  | _, _ => []
  end.
Definition _common_prefix (items : list str) : str := match items with [] => [] | x :: l => fold_left common2 l x end.

Definition _filename_completion_candidates (line : str) (entries : list str) : list str :=
  let start := token_start file_delimiters line in
  let token := drop start line in
  let leading := if startswith token (lit "./") then lit "./" else [] in
  let prefix := if startswith token (lit "./") then drop 2 token else token in
  if existsb is_slash prefix then []
  else map (fun entry => take start line ++ leading ++ entry) (List.filter (fun entry => startswith entry prefix) entries).

(** [dir_of]: the attribute names of what a dotted path leads to from the
    namespace, [None] when a lookup fails. *)
Definition dot : Z := 46.
Definition _complete_python (dir_of : list str -> option (list str)) (line : str) : list str :=
  let start := token_start python_delimiters line in
  let token := drop start line in
  let pieces := split dot token in
  match pieces with
  | [] | [_] => []
  | _ =>
      let parts := removelast pieces in
      let partial := List.last pieces [] in
      if negb (forallb isidentifier parts) then []
      else match dir_of parts with
           | None => []
           | Some attrs =>
               let head := take start line ++ join [dot] parts ++ [dot] in
               let hidden a := startswith a (lit "_") && negb (startswith partial (lit "_")) in
               sorted_strs (map (fun a => head ++ a) (List.filter (fun a => negb (hidden a) && startswith a partial) attrs))
           end
  end.
Definition _complete_filename (dir_of : list str -> option (list str)) (entries : list str) (line : str) : list str :=
  match _complete_python dir_of line with
  | [] => _filename_completion_candidates line entries
  | py => py
  end.

(** ** Paths and sources *)

Definition _join_path (base path : str) : str :=
  if startswith path [slash] then path
  else match rstrip is_slash base with [] => slash :: path | b => b ++ slash :: path end.
Definition _normalize_path (path : str) : str := slash :: join [slash] (norm_segs [] (split slash path)).
Definition _sh_script_path (cwd name : str) : option str :=
  if negb (endswith name (lit ".py")) then None
  else
    let target := if startswith name [slash] then name else _join_path cwd name in
    Some (_normalize_path target).
Definition _fixup_source (src : str) : str :=
  fold_left (fun src kw => replace (lit "is " ++ kw) (lit "== " ++ kw) (replace (lit "is not " ++ kw) (lit "!= " ++ kw) src))
    [lit "None"; lit "True"; lit "False"] src.

(** ** The seeded scripts (kernel/commands.py) *)

Definition SCRIPTS : list (str * str) :=
  map (fun name =>
    let name := lit name in
    (name ++ lit ".py",
     lit "from kernel import commands" ++ [newline] ++ (if beq name (lit "cd") then lit "cwd = " else []) ++ lit "await commands." ++ name ++ lit "(argv, cwd, _write)" ++ [newline]))
    ["sysinfo"; "netstat"; "ls"; "ps"; "pwd"; "cd"; "cat"; "cp"; "mv"; "ftp"; "ed"; "desktop"; "examples"; "pythonos_gui"; "bridge_ping"]%string.

(** [decode("utf-8")]: bytes that are not UTF-8 raise. *)
Definition decode_strict (l : bytes) : result str :=
  match encode (decode l) with Ok b => if beq b l then Ok (decode l) else Err UnicodeError | Err _ => Err UnicodeError end.

(** ** The shell *)

Section shell.
Context {W Node T : Type} `{FSNode W Node} `{Streams T} (estr : exn -> str).

(** [s_history]: the lines handed to linenoise's history. *)
Record Shell : Type := mkShell {
  s_cwd : str; s_block : str; s_exit : bool; s_can_exit : bool; s_ready : bool; s_entries : list str; s_history : list str; s_in : str;
  s_host : Host W Node T;
}.
Definition Shell_init (can_exit ready : bool) (input : str) (h : Host W Node T) : Shell := mkShell [slash] [] false can_exit ready [] [] input h.
Definition set_cwd x (s : Shell) := mkShell x (s_block s) (s_exit s) (s_can_exit s) (s_ready s) (s_entries s) (s_history s) (s_in s) (s_host s).
Definition set_block x (s : Shell) := mkShell (s_cwd s) x (s_exit s) (s_can_exit s) (s_ready s) (s_entries s) (s_history s) (s_in s) (s_host s).
Definition set_exit x (s : Shell) := mkShell (s_cwd s) (s_block s) x (s_can_exit s) (s_ready s) (s_entries s) (s_history s) (s_in s) (s_host s).
Definition set_entries x (s : Shell) := mkShell (s_cwd s) (s_block s) (s_exit s) (s_can_exit s) (s_ready s) x (s_history s) (s_in s) (s_host s).
Definition set_history x (s : Shell) := mkShell (s_cwd s) (s_block s) (s_exit s) (s_can_exit s) (s_ready s) (s_entries s) x (s_in s) (s_host s).
Definition set_in x (s : Shell) := mkShell (s_cwd s) (s_block s) (s_exit s) (s_can_exit s) (s_ready s) (s_entries s) (s_history s) x (s_host s).
Definition set_host x (s : Shell) := mkShell (s_cwd s) (s_block s) (s_exit s) (s_can_exit s) (s_ready s) (s_entries s) (s_history s) (s_in s) x.
Definition on_host {A} (m : M (Host W Node T) A) : M Shell A := zoom s_host set_host m.
Definition on_files {A} (m : M (VFS W Node) A) : M Shell A := on_host (on_fs m).
Definition sh_write (t : str) : M Shell unit := on_host (k_write t).
Definition read_char : M Shell Z :=
  let! s := get in
  match s_in s with [] => raise EOFError | c :: i => modify (set_in i) ;;; ret c end.

(** What runs Python. *)
Context (dir_of : Shell -> list str -> option (list str)).
Context (in_ns iskeyword : str -> bool).
Context (is_incomplete : str -> bool).
Context (eval_python : str -> M Shell unit) (is_exit : exn -> bool) (traceback : exn -> str).
(** A script that is compiled: what it raised, and its [cwd] at the end. *)
Context (exec_script : str -> str -> list str -> M Shell (option exn * option str)).
(** The commands not modelled, the examples that are frozen, the line editor. *)
Context (other_command : str -> option (list str -> M Shell (option str))).
Context (frozen_source : str -> option str) (frozen_main : str -> M Shell (option (list str -> M Shell (option str)))).
Context (linenoise_edit : str -> M Shell (option str)).
Context (procs : Shell -> list (Z * str * str)).
Context (help_text : str).

(** *** Exit and help *)

Definition native_note : str := lit "The native kernel console stays active. Press Ctrl-A X in the QEMU terminal to stop the VM." ++ [newline].
Definition _request_exit : M Shell unit :=
  let! s := get in
  if s_can_exit s then modify (set_exit true) else sh_write native_note.
Definition _halt_help : M Shell unit :=
  sh_write (lit "PythonOS has no guest halt command. Press Ctrl-A X in the QEMU terminal (or stop QEMU from the host)." ++ [newline]).
Definition _help : M Shell unit := sh_write help_text.

(** *** Reading a line *)

Definition _read_completion_entries : M Shell (list str) :=
  let! s := get in
  let! names := try_except (let! l := on_files (readdir (s_cwd s)) in ret (Some l)) (fun _ => ret None) in
  match names with
  | None => ret []
  | Some names =>
      let! entries := map_m (List.filter (fun n => negb (beq n (lit ".") || beq n (lit ".."))) names) (fun name =>
        try_except
          (let! st := on_files (stat (_join_path (s_cwd s) name)) in
           ret (match st_type st with DIR => name ++ [slash] | _ => name end))
          (fun _ => ret name)) in
      ret (sorted_strs entries)
  end.
Definition _completion_matches (line : str) : M Shell (list str) :=
  let! s := get in
  match _complete_python (dir_of s) line with
  | [] =>
      let! entries := _read_completion_entries in
      modify (set_entries entries) ;;;
      let! s := get in
      ret (_complete_filename (dir_of s) entries line)
  | py => ret py
  end.
(** The completion of a line: [None] when there is nothing to add. *)
Definition completed (buf : str) (matches : list str) : option str :=
  match matches with
  | [] => None
  | m :: rest =>
      let c := match rest with [] => m | _ => _common_prefix matches end in
      if (length buf <? length c)%nat then Some c else None
  end.
(** [fuel]: more than the characters there are. *)
Fixpoint read_loop (fuel : nat) (buf : str) : M Shell str :=
  match fuel with
  | O => raise RuntimeError
  | S fuel' =>
      let! ch := read_char in
      if ch =? newline then sh_write [newline] ;;; ret buf
      else if ch =? tab then
        let! matches := _completion_matches buf in
        match completed buf matches with
        | Some c => sh_write (slice_from c (len buf)) ;;; read_loop fuel' c
        | None => read_loop fuel' buf
        end
      else if (ch =? backspace) || (ch =? DEL) then
        match buf with
        | [] => read_loop fuel' buf
        | _ => sh_write [backspace; space; backspace] ;;; read_loop fuel' (slice_to buf (-1))
        end
      else sh_write [ch] ;;; read_loop fuel' (buf ++ [ch])
  end.
Definition _read_line_fallback (prompt : str) : M Shell str :=
  sh_write prompt ;;;
  let! s := get in
  read_loop (S (length (s_in s))) [].
Definition _read_line (prompt : str) : M Shell (option str) :=
  let! s := get in
  let fallback := let! l := _read_line_fallback prompt in ret (Some l) in
  if s_ready s then
    try_except
      (let! entries := _read_completion_entries in
       modify (set_entries entries) ;;;
       linenoise_edit prompt)
      (fun _ => fallback)
  else fallback.

(** *** The history *)

Definition HISTORY_FILE : str := lit "/home/.repl_history".
Definition blank (line : str) : bool := beq (strip is_space line) [].
Definition _history_add (line : str) : M Shell unit :=
  let! s := get in
  if negb (s_ready s) || blank line then ret tt else modify (set_history (s_history s ++ [line])).
Definition history_flags : Z := Z.lor (Z.lor O_WRONLY O_CREAT) O_APPEND.
Definition _history_persist (line : str) : M Shell unit :=
  let! s := get in
  if negb (s_ready s) || blank line then ret tt
  else
    try_except
      (let! fd := on_files (open HISTORY_FILE history_flags) in
       try_finally
         (let! data := lift (encode (line ++ [newline])) in
          let! _ := on_files (write fd data) in ret tt)
         (on_files (close fd)))
      (fun _ => ret tt).
Definition _history_load (fuel : nat) : M Shell unit :=
  let! s := get in
  if negb (s_ready s) then ret tt
  else
    try_except
      (let! fd := try_except (let! fd := on_files (open HISTORY_FILE 0) in ret (Some fd))
         (fun e => match e with FileNotFoundError => ret None | e => raise e end) in
       match fd with
       | None => ret tt
       | Some fd =>
           let! data := try_finally (on_files (read_chunks fuel fd [])) (on_files (close fd)) in
           for_each (splitlines (decode data)) (fun entry =>
             if blank entry then ret tt else modify (fun s => set_history (s_history s ++ [entry]) s))
       end)
      (fun _ => ret tt).

Definition beq_nil {A} (l : list A) : bool := match l with [] => true | _ => false end.

(** *** Scripts and commands *)

Definition _update_cwd (new_cwd : option str) : M Shell unit :=
  match new_cwd with Some d => modify (set_cwd d) | None => ret tt end.

(** [getattr(commands, name, None)], called with the arguments. *)
Definition no_cwd (m : M (Host W Node T) unit) : M Shell (option str) := on_host m ;;; ret None.
Definition command (fuel : nat) (name : str) : option (list str -> M Shell (option str)) :=
  let at_cwd f := Some (fun args => let! s := get in f args (s_cwd s)) in
  if beq name (lit "ls") then at_cwd (fun args cwd => no_cwd (ls args cwd))
  else if beq name (lit "ps") then Some (fun _ => let! s := get in no_cwd (ps (procs s)))
  else if beq name (lit "pwd") then at_cwd (fun _ cwd => no_cwd (pwd cwd))
  else if beq name (lit "cd") then at_cwd (fun args cwd => let! d := on_host (cd args cwd) in ret (Some d))
  else if beq name (lit "cat") then at_cwd (fun args cwd => no_cwd (cat estr fuel args cwd))
  else if beq name (lit "cp") then at_cwd (fun args cwd => no_cwd (cp fuel args cwd))
  else if beq name (lit "mv") then at_cwd (fun args cwd => no_cwd (mv fuel args cwd))
  else if beq name (lit "ftp") then at_cwd (fun args cwd => no_cwd (ftp estr fuel args cwd))
  else if beq name (lit "examples") then Some (fun args => no_cwd (examples args))
  else other_command name.

(** A step whose exception is printed; [true] after both. *)
Definition traced (m : M Shell bool) : M Shell bool := try_except m (fun e => sh_write (traceback e) ;;; ret true).
Definition _try_precompiled_script (fuel : nat) (path : str) (args : list str) (src : str) : M Shell bool :=
  let name := slice_from path 5 in
  if startswith path (lit "/bin/") && endswith path (lit ".py") && negb (existsb is_slash name) then
    traced
      (if negb (match find (fun e => beq (fst e) name) SCRIPTS with Some (_, text) => beq text src | None => false end) then ret false
       else match command fuel (slice_to name (-3)) with
            | None => ret false
            | Some func => let! result := func args in _update_cwd result ;;; ret true
            end)
  else if startswith path (lit "/examples/") && endswith path (lit ".py") then
    traced
      (if negb (match frozen_source path with Some text => beq text src | None => false end) then ret false
       else
         let mod_name := lit "examples." ++ replace [slash] [dot] (slice path 10 (-3)) in
         let! main := frozen_main mod_name in
         match main with
         | None => sh_write (lit "run: " ++ path ++ lit ": no main() in frozen example" ++ [newline]) ;;; ret true
         | Some main => let! result := main args in _update_cwd result ;;; ret true
         end)
  else ret false.
Definition _run_script (fuel : nat) (path : str) (args : list str) : M Shell bool :=
  let! fd := try_except (let! fd := on_files (open path 0) in ret (Some fd)) (fun _ => ret None) in
  match fd with
  | None => ret false
  | Some fd =>
      let! data := on_files (read_chunks fuel fd []) in
      on_files (close fd) ;;;
      let! src := lift (decode_strict data) in
      let! precompiled := _try_precompiled_script fuel path args src in
      if precompiled : bool then ret true
      else
        let! (raised, cwd) := exec_script path (_fixup_source src) args in
        match raised with Some e => sh_write (traceback e) | None => ret tt end ;;;
        _update_cwd cwd ;;;
        ret true
  end.
Definition bin (name : str) : str := lit "/bin/" ++ name ++ lit ".py".
Definition _try_shell_dispatch (fuel : nat) (src : str) : M Shell bool :=
  let line := strip is_space src in
  if beq line [] || existsb (Z.eqb newline) line then ret false
  else match split_ws line with
       | [] => raise IndexError
       | name :: args =>
           if negb (isidentifier name) then ret false
           else if beq name (lit "help") && beq_nil args then _help ;;; ret true
           else if one_of name ["desktop"; "examples"]%string then _run_script fuel (bin name) args
           else if one_of name ["exit"; "quit"]%string && beq_nil args then _request_exit ;;; ret true
           else if beq name (lit "halt") && beq_nil args then _halt_help ;;; ret true
           else if iskeyword name then ret false
           else if in_ns name then ret false
           else _run_script fuel (bin name) args
       end.

(** *** The sub-shell *)

Definition _run_sh_parts (fuel : nat) (name : str) (args : list str) : M Shell unit :=
  if one_of name ["help"; "?"]%string && beq_nil args then _help
  else
    let! s := get in
    match _sh_script_path (s_cwd s) name with
    | Some path =>
        let! found := _run_script fuel path args in
        if found : bool then ret tt else sh_write (lit "sh: " ++ name ++ lit ": not found" ++ [newline])
    | None =>
        let! found := _run_script fuel (bin name) args in
        if found : bool then ret tt else sh_write (lit "sh: " ++ name ++ lit ": command not found" ++ [newline])
    end.
(** [turns] bounds the lines that are read. *)
Fixpoint _sh_repl_loop (fuel turns : nat) : M Shell unit :=
  match turns with
  | O => raise RuntimeError
  | S turns' =>
      let! line := _read_line (lit "$ ") in
      match line with
      | None => ret tt
      | Some line =>
          let line := strip is_space line in
          if beq line (lit "exit") then ret tt
          else
            match split_ws line with
            | [] => ret tt
            | name :: args => _history_add line ;;; _run_sh_parts fuel name args
            end ;;;
            _sh_repl_loop fuel turns'
      end
  end.
Definition _sh_repl (fuel turns : nat) : M Shell unit :=
  sh_write (lit "PythonOS shell: help | examples | desktop [APP] | exit" ++ [newline]) ;;;
  _sh_repl_loop fuel turns.
Definition _sh (fuel turns : nat) (cmd : option str) : M Shell unit :=
  match cmd with
  | None => _sh_repl fuel turns
  | Some cmd => match split_ws (strip is_space cmd) with [] => ret tt | name :: args => _run_sh_parts fuel name args end
  end.
Definition _run (fuel : nat) (path : str) : M Shell unit :=
  let! found := _run_script fuel path [] in
  if found : bool then ret tt else sh_write (lit "run: " ++ path ++ lit ": not found" ++ [newline]).

(** *** The prompt *)

Definition _process_line (fuel : nat) (line : str) : M Shell unit :=
  let! s := get in
  if blank line && beq (s_block s) [] then ret tt
  else
    let block := s_block s ++ line ++ [newline] in
    modify (set_block block) ;;;
    if is_incomplete block then ret tt
    else
      modify (set_block []) ;;;
      let! handled := _try_shell_dispatch fuel block in
      if handled : bool then ret tt
      else try_except (eval_python (_fixup_source block)) (fun e => if is_exit e then _request_exit else sh_write (traceback e)).
Definition banner (version : str) : str :=
  [newline] ++ lit "PythonOS kernel shell" ++ [newline] ++ lit "Python " ++ version ++ [newline] ++
  lit "Type help or help() for commands, demos, and examples." ++ [newline] ++
  lit "Commands: ls ps pwd cd cat cp mv ftp ed sysinfo netstat" ++ [newline] ++
  lit "Desktop: desktop()  desktop('pacmaze')  desktop('help')" ++ [newline] ++
  lit "Examples: examples()  run('/examples/start_here/hello_kernel.py')" ++ [newline] ++
  lit "Helpers: sh()  sh('cmd args')  run('/path')  clear()" ++ [newline; newline].
Fixpoint run_loop (fuel turns : nat) : M Shell unit :=
  match turns with
  | O => raise RuntimeError
  | S turns' =>
      let! s := get in
      let! line := _read_line (match s_block s with [] => lit ">>> " | _ => lit "... " end) in
      match line with
      | None => if s_can_exit s then ret tt else sh_write ([newline] ++ native_note) ;;; run_loop fuel turns'
      | Some line =>
          _history_add line ;;;
          _history_persist line ;;;
          _process_line fuel line ;;;
          let! s := get in
          if s_exit s then ret tt else run_loop fuel turns'
      end
  end.
Definition run (fuel turns : nat) (version : str) : M Shell unit :=
  sh_write (banner version) ;;;
  _history_load fuel ;;;
  run_loop fuel turns.
End shell.
Arguments Shell : clear implicits.

(** ** Completion keeps what was typed *)

Lemma startswith_split s pre : startswith s pre = true -> s = pre ++ drop (length pre) s.
Proof. unfold startswith. intros H%beq_eq. by rewrite <- H at 1; rewrite take_drop. Qed.
Lemma common2_prefix a b : common2 a b `prefix_of` a /\ common2 a b `prefix_of` b.
Proof.
  revert b. induction a as [|x a IH]; intros b; [split; apply prefix_nil|]. destruct b as [|y b]; [split; apply prefix_nil|]. cbn [common2]. destruct (Z.eqb_spec x y) as [->|]; [|split; apply prefix_nil].
  destruct (IH b). split; by apply prefix_cons.
Qed.
Lemma common2_longest a b p : p `prefix_of` a -> p `prefix_of` b -> p `prefix_of` common2 a b.
Proof.
  revert b p. induction a as [|x a IH]; intros b p Ha Hb; [done|]. destruct p as [|z p]; [apply prefix_nil|]. destruct b as [|y b]; [done|].
  pose proof (prefix_cons_inv_1 _ _ _ _ Ha) as ->. pose proof (prefix_cons_inv_1 _ _ _ _ Hb) as ->. cbn [common2]. rewrite Z.eqb_refl. apply prefix_cons, IH; by eapply prefix_cons_inv_2.
Qed.
Lemma common_fold l x : fold_left common2 l x `prefix_of` x /\ Forall (fun y => fold_left common2 l x `prefix_of` y) l /\
  forall p, p `prefix_of` x -> Forall (fun y => p `prefix_of` y) l -> p `prefix_of` fold_left common2 l x.
Proof.
  revert x. induction l as [|y l IH]; intros x; cbn [fold_left]; [by split_and!|]. destruct (IH (common2 x y)) as (H1 & H2 & H3). destruct (common2_prefix x y) as [Hx Hy]. split_and!.
  - by etrans.
  - constructor; [by etrans|done].
  - intros p Hp [Hpy Hl]%list.Forall_cons. apply H3; [by apply common2_longest|done].
Qed.
Lemma common_prefix_spec l : l <> [] -> Forall (fun y => _common_prefix l `prefix_of` y) l /\ forall p, Forall (fun y => p `prefix_of` y) l -> p `prefix_of` _common_prefix l.
Proof.
  destruct l as [|x l]; [done|]. intros _. destruct (common_fold l x) as (H1 & H2 & H3). split; [by constructor|]. intros p [Hx Hl]%list.Forall_cons. by apply H3.
Qed.

Lemma filter_Forall {A} (f : A -> bool) (P : A -> Prop) l : Forall P l -> Forall (fun x => f x = true /\ P x) (List.filter f l).
Proof. induction 1 as [|x l Hx Hl IH]; [constructor|]. cbn. destruct (f x) eqn:E; [by constructor|done]. Qed.
Lemma sorted_strs_elem x l : x ∈ sorted_strs l -> x ∈ l.
Proof.
  induction l as [|y l IH]; [done|]. cbn. assert (Hi : forall m, x ∈ insert_str y m -> x = y \/ x ∈ m).
  { induction m as [|z m IHm]; cbn; [intros [->|?]%elem_of_cons; auto|]. destruct (str_leb y z); rewrite !elem_of_cons; [tauto|]. intros [->|Hm]; [auto|]. destruct (IHm Hm); auto. }
  intros [->|Hx]%Hi; rewrite elem_of_cons; auto.
Qed.
(** The text a candidate adds is the end of the name it offers. *)
Definition adds (names : list str) (line c : str) : Prop := exists t name, c = line ++ t /\ name ∈ names /\ t `suffix_of` name.
Lemma token_split stop line : line = take (token_start stop line) line ++ drop (token_start stop line) line.
Proof. by rewrite take_drop. Qed.
Lemma file_candidates line entries : Forall (adds entries line) (_filename_completion_candidates line entries).
Proof.
  unfold _filename_completion_candidates. set (st := token_start file_delimiters line). set (token := drop st line). set (prefix := if startswith token (lit "./") then _ else _). destruct (existsb is_slash prefix); [constructor|].
  apply list.Forall_fmap. assert (Hl : line = take st line ++ (if startswith token (lit "./") then lit "./" else []) ++ prefix).
  { unfold prefix. rewrite <- (take_drop st line) at 1. fold token. f_equal. destruct (startswith token (lit "./")) eqn:E; [|done]. by rewrite (startswith_split _ _ E) at 1. }
  eapply list.Forall_impl; [apply (filter_Forall _ (fun e => e ∈ entries)); by apply list.Forall_forall|]. intros e [Hp%startswith_split He]. cbn. exists (drop (length prefix) e), e.
  split_and!; [|done|exists (take (length prefix) e); by rewrite take_drop]. rewrite Hl at 2. rewrite Hp at 1. by rewrite !(assoc_L (++)).
Qed.
Lemma join_snoc sep r p : r <> [] -> join sep (r ++ [p]) = join sep r ++ sep ++ p.
Proof.
  induction r as [|a r IH]; [done|]. intros _. destruct r as [|b r]; [done|]. change ((a :: b :: r) ++ [p]) with (a :: (b :: r) ++ [p]).
  rewrite join_cons by done. rewrite IH by done. rewrite (join_cons sep a (b :: r)) by done. by rewrite <- !(assoc_L (++)).
Qed.
Lemma python_candidates dir_of line : Forall (fun c => exists attrs parts, dir_of parts = Some attrs /\ adds attrs line c) (_complete_python dir_of line).
Proof.
  unfold _complete_python. set (st := token_start python_delimiters line). set (token := drop st line). destruct (split dot token) as [|p0 [|p1 pieces]] eqn:E; [constructor|constructor|]. set (l := p0 :: p1 :: pieces) in *.
  destruct (negb (forallb isidentifier (removelast l))); [constructor|]. destruct (dir_of (removelast l)) as [attrs|] eqn:Ed; [|constructor]. apply list.Forall_forall. intros c Hc%sorted_strs_elem. exists attrs, (removelast l). split; [done|].
  revert c Hc. apply list.Forall_forall, list.Forall_fmap. set (partial := List.last l []).
  assert (Hl : line = (take st line ++ join [dot] (removelast l) ++ [dot]) ++ partial).
  { rewrite <- (take_drop st line) at 1. fold token. rewrite <- (assoc_L (++)). f_equal. rewrite <- (join_split dot token), E. assert (Hne : l <> []) by done. rewrite (app_removelast_last [] Hne) at 1. fold partial.
    rewrite join_snoc by done. by rewrite <- !(assoc_L (++)). }
  eapply list.Forall_impl; [apply (filter_Forall _ (fun e => e ∈ attrs)); by apply list.Forall_forall|]. intros a [Hp He]. apply andb_true_iff in Hp as [_ Hp%startswith_split]. cbn.
  exists (drop (length partial) a), a. split_and!; [|done|exists (take (length partial) a); by rewrite take_drop]. rewrite Hl at 2. rewrite Hp at 1. by rewrite !(assoc_L (++)).
Qed.
Lemma candidates_extend dir_of entries line : Forall (fun c => line `prefix_of` c) (_complete_filename dir_of entries line).
Proof.
  unfold _complete_filename. destruct (_complete_python dir_of line) as [|c l] eqn:E.
  - eapply list.Forall_impl; [apply file_candidates|]. intros c (t & n & -> & _). by exists t.
  - rewrite <- E. eapply list.Forall_impl; [apply python_candidates|]. intros d (attrs & parts & _ & t & n & -> & _). by exists t.
Qed.
Lemma completed_spec buf matches c : Forall (fun m => buf `prefix_of` m) matches -> completed buf matches = Some c ->
  exists t, t <> [] /\ c = buf ++ t /\ Forall (fun m => c `prefix_of` m) matches /\ forall p, Forall (fun m => p `prefix_of` m) matches -> p `prefix_of` c.
Proof.
  destruct matches as [|m rest]; [done|]. intros Hall. cbn [completed]. set (c' := match rest with [] => m | _ => _ end).
  assert (Hc' : c' = _common_prefix (m :: rest)) by (by destruct rest). destruct (Nat.ltb_spec (length buf) (length c')) as [Hlt|]; [|done]. intros [= <-]. rewrite Hc' in *.
  destruct (common_prefix_spec (m :: rest)) as [H1 H2]; [done|]. destruct (H2 buf Hall) as [t Et]. exists t. split_and!; [|done..]. intros ->. rewrite Et, app_nil_r in Hlt. lia.
Qed.

(** Completion keeps what was typed and is as long as it can be.  What a
    tab makes of a line is the line itself and more; every candidate, attribute
    or file name, begins with it, and with nothing longer do they all begin. *)
Theorem completion_longest_common (dir_of : list str -> option (list str)) (entries : list str) (line c : str)
    (Hc : completed line (_complete_filename dir_of entries line) = Some c) :
  (exists t, t <> [] /\ c = line ++ t) /\ Forall (fun m => c `prefix_of` m) (_complete_filename dir_of entries line) /\
  forall p, Forall (fun m => p `prefix_of` m) (_complete_filename dir_of entries line) -> p `prefix_of` c.
Proof. destruct (completed_spec _ _ _ (candidates_extend dir_of entries line) Hc) as (t & Ht & -> & H1 & H2). split; [by exists t|done]. Qed.
Definition demo_dir (parts : list str) : option (list str) := if beq (List.last parts []) (lit "vfs") then Some [lit "read"; lit "readdir"; lit "_fds"; lit "mkdir"] else None.
Lemma completion_longest_common_witness :
  completed (lit "await vfs.r") (_complete_filename demo_dir [] (lit "await vfs.r")) = Some (lit "await vfs.read") /\ lit "await vfs.read" `prefix_of` lit "await vfs.readdir".
Proof.
  assert (Hc : completed (lit "await vfs.r") (_complete_filename demo_dir [] (lit "await vfs.r")) = Some (lit "await vfs.read")) by (vm_compute; reflexivity).
  split; [exact Hc|]. destruct (completion_longest_common demo_dir [] (lit "await vfs.r") (lit "await vfs.read") Hc) as (_ & H1 & _). apply (proj1 (list.Forall_forall _ _) H1). vm_compute. set_solver.
Defined.

(** ** The terminal shows the line *)

Definition printable (c : Z) : Prop := 32 <= c /\ c <> DEL.
(** A line of a terminal: what is left of the cursor and what is under and
    right of it.  A character overwrites, a backspace only moves. *)
Definition term_char (t : str * str) (c : Z) : str * str :=
  let '(before, after) := t in
  if c =? backspace then match before with [] => t | _ => (removelast before, List.last before 0 :: after) end
  else (before ++ [c], tail after).
Definition render_from (t : str * str) (w : str) : str * str := fold_left term_char w t.
Definition render (w : str) : str * str := render_from ([], []) w.
Definition blanks (k : nat) : str := replicate k space.

Lemma render_app w1 w2 : render (w1 ++ w2) = render_from (render w1) w2.
Proof. apply fold_left_app. Qed.
Lemma render_printable t : Forall printable t -> forall b k, exists k', render_from (b, blanks k) t = (b ++ t, blanks k').
Proof.
  induction 1 as [|c t [Hc _] Ht IH]; intros b k; [exists k; by rewrite app_nil_r|]. unfold render_from in *. cbn [fold_left term_char]. replace (c =? backspace) with false by (unfold backspace; lia).
  destruct (IH (b ++ [c]) (pred k)) as [k' E]. exists k'. rewrite <- (assoc_L (++)) in E. cbn in E. rewrite <- E. f_equal. f_equal. by destruct k.
Qed.
Lemma term_back b c after : term_char (b ++ [c], after) backspace = (b, c :: after).
Proof. cbn. rewrite removelast_last, List.last_last. by destruct b. Qed.
Lemma render_erase b c k : render_from (b ++ [c], blanks k) [backspace; space; backspace] = (b, blanks (S k)).
Proof. unfold render_from. cbn [fold_left]. rewrite term_back. change (term_char (b, c :: blanks k) space) with (b ++ [space], blanks k). by rewrite term_back. Qed.

Section terminal.
Context {W Node T : Type} `{FSNode W Node} (dir_of : Shell W Node T -> list str -> option (list str)).
Implicit Types s : Shell W Node T.

Definition out s : str := k_out (s_host s).
Definition files s : VFS W Node := k_vfs (s_host s).
(** Listing the current directory changes nothing, and names are printable. *)
Record quiet_dir s : Prop := {
  qd_readdir : forall r v', readdir (s_cwd s) (files s) = (r, v') -> v' = files s /\ match r with Ok l => Forall (Forall printable) l | Err _ => True end;
  qd_stat : forall name r v', stat (_join_path (s_cwd s) name) (files s) = (r, v') -> v' = files s;
  qd_attrs : forall s' parts attrs, dir_of s' parts = Some attrs -> Forall (Forall printable) attrs;
}.
(** What a completion may change. *)
Definition same_session s s' : Prop := s_cwd s' = s_cwd s /\ s_in s' = s_in s /\ s_host s' = s_host s.

Lemma on_files_same {A} (m : M (VFS W Node) A) s r : m (files s) = (r, files s) -> on_files m s = (r, s).
Proof. intros E. unfold on_files, on_host, on_fs, zoom. fold (files s). rewrite E. by destruct s as [? ? ? ? ? ? ? ? []]. Qed.
Lemma entries_quiet s : quiet_dir s -> exists l, _read_completion_entries s = (Ok l, s) /\ Forall (Forall printable) l.
Proof.
  intros [Q1 Q2 _]. unfold _read_completion_entries. unfold bind at 1, get. unfold bind at 1, try_except at 1, bind at 1.
  destruct (readdir (s_cwd s) (files s)) as [r v'] eqn:E. destruct (Q1 _ _ eq_refl) as [-> Hp]. rewrite (on_files_same _ _ _ E). destruct r as [names|e]; [|exists []; by split; [|constructor]]. cbn [ret].
  assert (Hm : forall l, Forall (Forall printable) l -> exists l', map_m l (fun name => try_except
      (let! st := on_files (stat (_join_path (s_cwd s) name)) in ret (match st_type st with DIR => name ++ [slash] | _ => name end)) (fun _ => ret name)) s = (Ok l', s) /\ Forall (Forall printable) l').
  { induction 1 as [|name l Hn Hl (l' & IH1 & IH2)]; [by exists []|]. cbn [map_m]. unfold bind at 1, try_except at 1, bind at 1. destruct (stat (_join_path (s_cwd s) name) (files s)) as [r v'] eqn:Es.
    pose proof (Q2 _ _ _ Es) as ->. rewrite (on_files_same _ _ _ Es). assert (Hd : Forall printable (name ++ [slash])) by (apply Forall_app; split; [done|]; repeat constructor; unfold slash, DEL; lia).
    destruct r as [st|e]; cbn [ret]; rewrite (bind_step _ _ _ _ _ IH1); eexists; (split; [reflexivity|]); constructor; try done. by destruct (st_type st). }
  destruct (Hm (List.filter (fun n => negb (beq n (lit ".") || beq n (lit ".."))) names)) as (l' & E1 & E2).
  { eapply list.Forall_impl; [by apply filter_Forall|]. by intros x [_ ?]. }
  rewrite (bind_step _ _ _ _ _ E1). exists (sorted_strs l'). split; [done|]. apply list.Forall_forall. intros x Hx%sorted_strs_elem. by eapply (proj1 (list.Forall_forall _ _) E2).
Qed.
Lemma adds_printable names line c : Forall (Forall printable) names -> adds names line c -> exists t, c = line ++ t /\ Forall printable t.
Proof. intros Hn (t & name & -> & Hin & [p ->]). exists t. split; [done|]. apply (proj1 (list.Forall_forall _ _) Hn) in Hin. by apply Forall_app in Hin as [_ ?]. Qed.
Lemma matches_quiet s buf : quiet_dir s -> exists l s', _completion_matches dir_of buf s = (Ok l, s') /\ same_session s s' /\
  Forall (fun c => exists t, c = buf ++ t /\ Forall printable t) l.
Proof.
  intros Hq. unfold _completion_matches. unfold bind at 1, get.
  assert (Hpy : forall s1, Forall (fun c => exists t, c = buf ++ t /\ Forall printable t) (_complete_python (dir_of s1) buf)).
  { intros s1. eapply list.Forall_impl; [apply python_candidates|]. intros c (attrs & parts & Ha & Hc). eapply adds_printable; [|exact Hc]. by eapply (qd_attrs _ Hq). }
  destruct (_complete_python (dir_of s) buf) as [|c l] eqn:E; [|exists (c :: l), s; split; [done|]; split; [by split_and!|]; rewrite <- E; apply Hpy].
  destruct (entries_quiet s Hq) as (en & E1 & E2). rewrite (bind_step _ _ _ _ _ E1). unfold bind, modify, ret. eexists _, _. split; [reflexivity|]. split; [by split_and!|].
  unfold _complete_filename. destruct (_complete_python (dir_of (set_entries en s)) buf) eqn:E3; [|rewrite <- E3; apply Hpy].
  eapply list.Forall_impl; [apply file_candidates|]. intros c Hc. by eapply adds_printable.
Qed.

(** The keys of a line. *)
Definition typed (c : Z) : Prop := printable c \/ c = tab \/ c = backspace \/ c = DEL.
Lemma read_char_cons c i s : s_in s = c :: i -> read_char s = (Ok c, set_in i s).
Proof. intros E. unfold read_char, bind, get. by rewrite E. Qed.
Lemma sh_write_run t s : sh_write t s = (Ok tt, set_host (mkHost (out s ++ t) (files s) (k_net (s_host s))) s).
Proof. done. Qed.

Record on_screen s s' (w shown : str) : Prop := {
  os_cwd : s_cwd s' = s_cwd s;
  os_files : files s' = files s;
  os_out : out s' = out s ++ w;
  os_render : exists k, render w = (shown, blanks k);
}.
Lemma quiet_same s s' w shown : on_screen s s' w shown -> quiet_dir s -> quiet_dir s'.
Proof. intros [O1 O2 _ _] [Q1 Q2 Q3]. split; rewrite ?O1, ?O2; [exact Q1|exact Q2|exact Q3]. Qed.

Lemma screen_write s0 s w shown t : on_screen s0 s w shown -> Forall printable t ->
  exists s', sh_write t s = (Ok tt, s') /\ s_in s' = s_in s /\ on_screen s0 s' (w ++ t) (shown ++ t).
Proof.
  intros [O1 O2 O3 [k O4]] Ht. eexists. split; [apply sh_write_run|]. split; [done|]. split; [done|done|cbn; by rewrite O3, <- (assoc_L (++))|].
  rewrite render_app, O4. by apply render_printable.
Qed.
Lemma screen_erase s0 s w shown c : on_screen s0 s w (shown ++ [c]) ->
  exists s', sh_write [backspace; space; backspace] s = (Ok tt, s') /\ s_in s' = s_in s /\ on_screen s0 s' (w ++ [backspace; space; backspace]) shown.
Proof.
  intros [O1 O2 O3 [k O4]]. eexists. split; [apply sh_write_run|]. split; [done|]. split; [done|done|cbn; by rewrite O3, <- (assoc_L (++))|].
  exists (S k). by rewrite render_app, O4, render_erase.
Qed.
Lemma screen_same s0 s s' w shown : on_screen s0 s w shown -> same_session s s' -> on_screen s0 s' w shown.
Proof. intros [O1 O2 O3 O4] (E1 & _ & E3). unfold files, out in *. split; unfold files, out; rewrite ?E1, ?E3; done. Qed.

(** What the keys make of the line under way. *)
Definition typed_on (buf input : str) : str := fold_left (fun buf c => if (c =? backspace) || (c =? DEL) then removelast buf else buf ++ [c]) input buf.
Lemma completed_printable buf l c : Forall (fun c => exists t, c = buf ++ t /\ Forall printable t) l -> completed buf l = Some c -> exists t, c = buf ++ t /\ Forall printable t.
Proof.
  intros Hl Hc. assert (Hp : Forall (fun m => buf `prefix_of` m) l) by (eapply list.Forall_impl; [exact Hl|]; by intros m (t & -> & _); exists t).
  destruct (completed_spec _ _ _ Hp Hc) as (t & Ht & -> & H1 & _). exists t. split; [done|]. destruct l as [|m l]; [done|]. apply list.Forall_cons in H1 as [[u Hm] _]. apply list.Forall_cons in Hl as [(t' & E & Hp') _].
  rewrite E, <- (assoc_L (++)) in Hm. apply app_inv_head in Hm as ->. by apply Forall_app in Hp' as [? _].
Qed.
Lemma read_loop_shown prompt input rest s0 : quiet_dir s0 -> Forall typed input -> forall fuel buf s w, (length input < fuel)%nat -> s_in s = input ++ newline :: rest ->
  Forall printable buf -> on_screen s0 s w (prompt ++ buf) ->
  exists line s' w' k, read_loop dir_of fuel buf s = (Ok line, s') /\ s_in s' = rest /\ files s' = files s0 /\ out s' = out s0 ++ w' ++ [newline] /\ render w' = (prompt ++ line, blanks k) /\
    Forall printable line /\ (tab ∉ input -> line = typed_on buf input).
Proof.
  intros Hq Hin. induction Hin as [|c input Hc Hin IH]; intros fuel buf s w Hf Hs Hbuf Hsc; (destruct fuel as [|fuel]; [cbn in Hf; lia|]); cbn [read_loop]; rewrite (bind_step _ _ _ _ _ (read_char_cons _ _ _ Hs)).
  - change (newline =? newline) with true. cbv iota. destruct Hsc as [O1 O2 O3 [k O4]]. eexists buf, _, w, k. split; [reflexivity|]. split_and!; try done. cbn. unfold out in O3. cbn in O3. fold (out s0) in O3. unfold out in *. by rewrite O3, <- (assoc_L (++)).
  - set (s1 := set_in (input ++ newline :: rest) s). assert (Hsc1 : on_screen s0 s1 w (prompt ++ buf)) by (by destruct Hsc). cbn in Hf.
    assert (Hn : (c =? newline) = false) by (unfold typed, printable, tab, backspace, DEL, newline in *; lia). rewrite Hn. destruct (Z.eqb_spec c tab) as [->|Htab].
    + destruct (matches_quiet s1 buf (quiet_same _ _ _ _ Hsc1 Hq)) as (l & s2 & E & Hsame & Hl). rewrite (bind_step _ _ _ _ _ E). pose proof (screen_same _ _ _ _ _ Hsc1 Hsame) as Hsc2.
      assert (Hs2 : s_in s2 = input ++ newline :: rest) by (by destruct Hsame as (_ & -> & _)). destruct (completed buf l) as [d|] eqn:Ed.
      * destruct (completed_printable _ _ _ Hl Ed) as (t & -> & Ht). rewrite slice_from_app. destruct (screen_write _ _ _ _ t Hsc2 Ht) as (s3 & E3 & H3 & Hsc3). rewrite (bind_step _ _ _ _ _ E3). rewrite <- (assoc_L (++)) in Hsc3.
        destruct (IH fuel (buf ++ t) s3 _ ltac:(lia) ltac:(by rewrite H3) ltac:(by apply Forall_app) Hsc3) as (line & s' & w' & k & R1 & R2 & R3 & R4 & R5 & R6 & _). exists line, s', w', k. split_and!; try done. intros Hno. destruct Hno. apply list_elem_of_here.
      * destruct (IH fuel buf s2 _ ltac:(lia) Hs2 Hbuf Hsc2) as (line & s' & w' & k & R1 & R2 & R3 & R4 & R5 & R6 & _). exists line, s', w', k. split_and!; try done. intros Hno. destruct Hno. apply list_elem_of_here.
    + destruct ((c =? backspace) || (c =? DEL)) eqn:Eb.
      * destruct buf as [|b0 buf0] eqn:Ebuf; [|destruct (exists_last (l := b0 :: buf0) ltac:(done)) as (pre & x & Ex); rewrite Ex in *].
        -- destruct (IH fuel [] s1 _ ltac:(lia) eq_refl Hbuf Hsc1) as (line & s' & w' & k & R1 & R2 & R3 & R4 & R5 & R6 & R7). exists line, s', w', k. split_and!; try done.
           intros Hno. rewrite R7 by (intros ?; by apply Hno, list_elem_of_further). unfold typed_on. cbn [fold_left]. by rewrite Eb.
        -- rewrite (assoc_L (++)) in Hsc1. destruct (screen_erase _ _ _ _ _ Hsc1) as (s3 & E3 & H3 & Hsc3). rewrite (bind_step _ _ _ _ _ E3), slice_to_last. apply Forall_app in Hbuf as [Hbuf _].
           destruct (IH fuel pre s3 _ ltac:(lia) ltac:(by rewrite H3) Hbuf Hsc3) as (line & s' & w' & k & R1 & R2 & R3 & R4 & R5 & R6 & R7). exists line, s', w', k. split_and!; try done.
           intros Hno. rewrite R7 by (intros ?; by apply Hno, list_elem_of_further). unfold typed_on. cbn [fold_left]. by rewrite Eb, removelast_last.
      * assert (Hp : printable c) by (unfold typed, printable, tab, backspace, DEL in *; lia). assert (Hp1 : Forall printable [c]) by (by apply list.Forall_singleton). destruct (screen_write _ _ _ _ [c] Hsc1 Hp1) as (s3 & E3 & H3 & Hsc3). rewrite (bind_step _ _ _ _ _ E3). rewrite <- (assoc_L (++)) in Hsc3.
        destruct (IH fuel (buf ++ [c]) s3 _ ltac:(lia) ltac:(by rewrite H3) ltac:(by apply Forall_app) Hsc3) as (line & s' & w' & k & R1 & R2 & R3 & R4 & R5 & R6 & R7). exists line, s', w', k. split_and!; try done.
        intros Hno. rewrite R7 by (intros ?; by apply Hno, list_elem_of_further). unfold typed_on. cbn [fold_left]. by rewrite Eb.
Qed.

(** The terminal shows the line that is read.  Whatever is typed before
    the newline, characters, backspaces and tabs, reading a line returns and
    consumes it with its newline; the line of the terminal is the prompt and
    the line that is returned, with nothing but blanks right of it, whatever was
    erased and completed on the way; files are as they were, and without tabs
    the line is what the keys say. *)
Theorem terminal_shows_line (prompt input rest : str) (s : Shell W Node T) (Hprompt : Forall printable prompt) (Hin : s_in s = input ++ newline :: rest)
    (Htyped : Forall typed input) (Hq : quiet_dir s) :
  exists line s' w k, _read_line_fallback dir_of prompt s = (Ok line, s') /\ s_in s' = rest /\ files s' = files s /\
    out s' = out s ++ w ++ [newline] /\ render w = (prompt ++ line, blanks k) /\ (tab ∉ input -> line = typed_on [] input).
Proof.
  unfold _read_line_fallback. assert (H0 : on_screen s s [] []) by (split; [done|done|by rewrite app_nil_r|by exists O]).
  destruct (screen_write _ _ _ _ prompt H0 Hprompt) as (s1 & E1 & H1 & Hsc). rewrite (bind_step _ _ _ _ _ E1). unfold bind, get. rewrite H1, Hin. cbn [app] in Hsc.
  rewrite <- (app_nil_r prompt) in Hsc at 2. destruct (read_loop_shown prompt input rest s Hq Htyped (S (length (input ++ newline :: rest))) [] s1 prompt) as (line & s' & w & k & R1 & R2 & R3 & R4 & R5 & _ & R7);
    [rewrite length_app; lia|by rewrite H1|constructor|exact Hsc|]. exists line, s', w, k. by split_and!.
Qed.
End terminal.

(** ** The history file *)

Definition no_break (l : str) : Prop := Forall (fun c => is_break c = false) l.
Definition entered (l : str) : Prop := no_break l /\ Forall code_point l.
Definition history_text (ls : list str) : str := concat (map (fun l => l ++ [newline]) ls).
Lemma splitlines_entered l rest acc : no_break l -> splitlines_from acc (l ++ newline :: rest) = (acc ++ l) :: splitlines_from [] rest.
Proof.
  intros Hl. revert acc. induction Hl as [|c l Hc Hl IH]; intros acc.
  - rewrite app_nil_r. cbn [app splitlines_from]. change (is_break newline) with true. cbv iota. destruct rest as [|d rest]; [done|]. change (newline =? 13) with false. done.
  - cbn [app splitlines_from]. rewrite Hc, IH, <- (assoc_L (++)). done.
Qed.
Lemma splitlines_text ls : Forall no_break ls -> splitlines (history_text ls) = ls.
Proof.
  unfold splitlines, history_text. induction 1 as [|l ls Hl Hls IH]; [done|]. cbn [map concat]. rewrite <- (assoc_L (++)). cbn [app]. by rewrite splitlines_entered, IH.
Qed.
Lemma encode_app a b x y : encode a = Ok x -> encode b = Ok y -> encode (a ++ b) = Ok (x ++ y).
Proof.
  unfold encode. intros (us & Eu & [= <-])%rbind_Ok (vs & Ev & [= <-])%rbind_Ok. assert (E : rmap utf8_char (a ++ b) = Ok (us ++ vs)).
  { revert us Eu. induction a as [|c a IH]; intros us Eu; [by injection Eu as <-|]. cbn [rmap app] in *. apply rbind_Ok in Eu as (u & -> & Eu). apply rbind_Ok in Eu as (us' & Er & [= <-]). cbn [rbind]. by rewrite (IH _ Er). }
  rewrite E. cbn [rbind]. by rewrite concat_app.
Qed.
Lemma newline_code : code_point newline.
Proof. unfold code_point, newline. lia. Qed.
Lemma text_code_points ls : Forall entered ls -> Forall code_point (history_text ls).
Proof.
  unfold history_text. induction 1 as [|l ls [_ Hl] Hls IH]; [constructor|]. cbn [map concat]. apply Forall_app. split; [|done]. apply Forall_app. split; [done|]. apply list.Forall_singleton, newline_code.
Qed.
Lemma history_text_snoc ls l : history_text (ls ++ [l]) = history_text ls ++ l ++ [newline].
Proof. unfold history_text. by rewrite map_app, concat_app; cbn; rewrite app_nil_r. Qed.

Lemma filter_twice {A} (f : A -> bool) l : List.filter f (List.filter f l) = List.filter f l.
Proof. induction l as [|x l IH]; [done|]. cbn. destruct (f x) eqn:E; [|done]. cbn. by rewrite E, IH. Qed.

Section history.
Context {W Node T : Type} `{!EqDecision Node} `{HF : FileLaws W Node} `{!DirLaws W Node} `{!DataLaws W Node} `{!EntryLaws W Node}.
Implicit Types (s : Shell W Node T) (v : VFS W Node).

(** The file, the entry [x] of [d], holds the lines; there may be none yet. *)
Definition history_file v (d : Node) (x : str) (ls : list str) : Prop :=
  tidy (v_world v) /\ entry v HISTORY_FILE d x /\
  match n_lookup d x (v_world v) with
  | (Ok n, _) => exists c, content (v_world v) n = Some c /\ encode (history_text ls) = Ok c
  | (Err e, _) => e = FileNotFoundError /\ is_dir (v_world v) d /\ dir_name_ok x /\ ls = []
  end.
Lemma history_writable v d x ls : history_file v d x ls -> writable v d x.
Proof.
  intros (_ & _ & Hl). destruct (n_lookup d x (v_world v)) as [[n|e] w] eqn:E; pose proof E as ->%lookup_law.
  - destruct Hl as (c & Hc & _). left. by exists n, c.
  - destruct Hl as (-> & ? & ? & _). by right.
Qed.

(** Appending to the node of a descriptor opened for it. *)
Lemma write_append v fd n d data : v_fds v !! fd = Some (mkFD n history_flags 0) -> content (v_world v) n = Some d -> tidy (v_world v) ->
  exists v', write fd data v = (Ok (len data), v') /\ v_mounts v' = v_mounts v /\ content (v_world v') n = Some (d ++ data) /\ rest_kept n (v_world v) (v_world v').
Proof.
  intros Hfd Hc Ht. destruct (write_law _ _ _ (len d) data Hc (len_nonneg d)) as (w2 & Hw & Hc2 & Hk2). destruct (stat_law _ _ _ Hc) as (st & Hst & Hsz).
  eexists. split; [|split; [|split]].
  - unfold write. unfold bind at 1. rewrite (get_fd_Some _ _ _ Hfd). change (has_flag (fd_flags (mkFD n history_flags 0)) O_APPEND) with true. cbv iota. cbn [fd_offset fd_node].
    unfold bind at 1. unfold bind at 1, node, zoom. rewrite Hst, set_world_id, Hsz. unfold bind at 1. rewrite (set_offset_Some fd (mkFD n history_flags 0)) by done. unfold ret at 1.
    unfold bind at 1. cbn [set_fds v_world]. rewrite Hw. unfold bind, set_offset, modify. reflexivity.
  - done.
  - cbn. rewrite Hc2. f_equal. unfold splice. rewrite Z.sub_diag. change (zeros 0) with (@nil Z). rewrite app_nil_r. unfold slice_to. rewrite slice_full. f_equal.
    unfold slice_from, slice. rewrite (clamp_big _ (len d + len data)) by (pose proof (len_nonneg d); pose proof (len_nonneg data); lia). rewrite clamp_id by (pose proof (len_nonneg d); lia).
    replace (Z.to_nat (len d - len d)) with O by lia. by rewrite app_nil_r.
  - split; [|by eapply write_tidy|]; cbn; [intros m nm q Hl; eapply write_lookup; [exact Hc|exact Hw|exact Hl]|]. intros m e Hne. by rewrite Hk2.
Qed.

Lemma on_files_Ok {A} (m : M (VFS W Node) A) s a v' : m (k_vfs (s_host s)) = (Ok a, v') -> on_files m s = (Ok a, set_host (mkHost (k_out (s_host s)) v' (k_net (s_host s))) s).
Proof. intros E. unfold on_files, on_host, on_fs, zoom. by rewrite E. Qed.
(** What persisting leaves of the shell. *)
Definition but_files s : str * bool * list str * bool * T := (s_cwd s, s_ready s, s_history s, s_can_exit s, k_net (s_host s)).

Lemma persist_run s d x ls line : s_ready s = true -> history_file (k_vfs (s_host s)) d x ls -> Forall entered ls -> entered line ->
  exists s', _history_persist line s = (Ok tt, s') /\ but_files s' = but_files s /\
    history_file (k_vfs (s_host s')) d x (ls ++ (if blank line then [] else [line])).
Proof.
  intros Hr Hh Hls [_ Hcp]. unfold _history_persist. unfold bind at 1, get. rewrite Hr. cbn [negb orb]. destruct (blank line); [exists s; rewrite app_nil_r; by split_and!|].
  pose proof Hh as (Ht & He & Hl). set (v := k_vfs (s_host s)) in *. destruct (node_entry history_flags v HISTORY_FILE d x eq_refl Ht He (history_writable _ _ _ _ Hh)) as (w1 & n & c & Hon & Hl1 & Hc1 & Hk1 & Hold).
  destruct (decode_encode _ (text_code_points ls Hls)) as (old & Eold & _).
  assert (c = old) as ->.
  { destruct (n_lookup d x (v_world v)) as [[m|e] w] eqn:E; cbn [fst] in Hold; [destruct Hold as [-> Hc], Hl as (c' & Hc' & Ec'); congruence|]. destruct Hl as (_ & _ & _ & ->). injection Eold as <-. done. }
  set (fd := v_next_fd v). set (v1 := set_fds (<[fd := mkFD n history_flags 0]> (v_fds v)) (set_next_fd (fd + 1) (set_world w1 v))).
  assert (Ho : open HISTORY_FILE history_flags v = (Ok fd, v1)) by (unfold open; rewrite (bind_step _ _ _ _ _ Hon); reflexivity).
  destruct (decode_encode (line ++ [newline])) as (data & Ed & _); [apply Forall_app; split; [done|]; apply list.Forall_singleton, newline_code|].
  destruct (write_append v1 fd n old data) as (v2 & Ew & Hm2 & Hc2 & Hk2); [unfold v1; cbn; by rewrite lookup_insert_eq|done|by apply (rk_tidy _ _ _ Hk1)|].
  pose proof (rest_kept_trans _ _ _ _ Hk1 Hk2) as Hk. eexists. split; [|split].
  - unfold try_except. unfold bind at 1. fold v. rewrite (on_files_Ok _ s fd v1 Ho). unfold try_finally. unfold bind at 1, lift. rewrite Ed. unfold bind at 1.
    rewrite (on_files_Ok _ (set_host (mkHost (k_out (s_host s)) v1 (k_net (s_host s))) s) _ v2 Ew). cbn [ret]. unfold bind.
    rewrite (on_files_Ok (close fd) _ tt (set_fds (delete fd (v_fds v2)) v2)) by done. reflexivity.
  - done.
  - cbn [s_host set_host k_vfs]. split_and!; [by apply (rk_tidy _ _ _ Hk)|by apply (kept_entry v); [by cbn; rewrite Hm2|exact (rk_lookups _ _ _ Hk)|]|].
    cbn [v_world set_fds]. rewrite (rk_lookups _ _ _ Hk2 _ _ _ Hl1). exists (old ++ data). split; [done|]. rewrite history_text_snoc. by apply encode_app.
Qed.

Lemma persist_all lines s d x ls : s_ready s = true -> history_file (k_vfs (s_host s)) d x ls -> Forall entered ls -> Forall entered lines ->
  exists s', for_each lines _history_persist s = (Ok tt, s') /\ but_files s' = but_files s /\
    history_file (k_vfs (s_host s')) d x (ls ++ List.filter (fun l => negb (blank l)) lines).
Proof.
  intros Hr Hh Hls Hlines. revert s ls Hr Hh Hls. induction Hlines as [|line lines Hl Hlines IH]; intros s ls Hr Hh Hls; [exists s; rewrite app_nil_r; by split_and!|].
  cbn [for_each List.filter]. destruct (persist_run s d x ls line Hr Hh Hls Hl) as (s1 & E1 & B1 & H1). rewrite (bind_step _ _ _ _ _ E1).
  assert (Hr1 : s_ready s1 = true) by (unfold but_files in B1; congruence). assert (Hls1 : Forall entered (ls ++ (if blank line then [] else [line]))) by (apply Forall_app; split; [done|]; destruct (blank line); [constructor|by apply list.Forall_singleton]).
  destruct (IH s1 _ Hr1 H1 Hls1) as (s2 & E2 & B2 & H2). exists s2. split_and!; [done|by rewrite B2|]. rewrite <- (assoc_L (++)) in H2. by destruct (blank line).
Qed.

Lemma add_all l s : for_each l (fun entry => if blank entry then ret tt else modify (fun s => set_history (s_history s ++ [entry]) s)) s =
  (Ok tt, set_history (s_history s ++ List.filter (fun l => negb (blank l)) l) s).
Proof.
  revert s. induction l as [|x l IH]; intros s; cbn [for_each List.filter]; [rewrite app_nil_r; by destruct s|]. unfold bind, modify, ret in *. destruct (blank x); cbn [negb]; rewrite IH; [done|]. cbn. by rewrite <- (assoc_L (++)).
Qed.
Lemma load_run fuel s d x ls : s_ready s = true -> history_file (k_vfs (s_host s)) d x ls -> Forall entered ls ->
  (forall c, encode (history_text ls) = Ok c -> len c <= 4096 * (Z.of_nat fuel - 1)) ->
  exists s', _history_load fuel s = (Ok tt, s') /\ s_history s' = s_history s ++ List.filter (fun l => negb (blank l)) ls.
Proof.
  intros Hr (Ht & He & Hl) Hls Hf. unfold _history_load. unfold bind at 1, get. rewrite Hr. cbn [negb]. set (v := k_vfs (s_host s)) in *. pose proof (entry_resolve _ _ _ _ He) as Hres.
  destruct (n_lookup d x (v_world v)) as [[n|e] w] eqn:E; pose proof E as ->%lookup_law; cbn [fst] in Hres.
  - destruct Hl as (c & Hc & Ec). set (fd := v_next_fd v). set (v1 := set_fds (<[fd := mkFD n 0 0]> (v_fds v)) (set_next_fd (fd + 1) v)).
    assert (Ho : open HISTORY_FILE 0 v = (Ok fd, v1)) by (unfold open; rewrite (bind_step _ _ v n v) by exact Hres; reflexivity).
    destruct (read_chunks_spec fuel fd n 0 0 [] c v1) as (v2 & E2 & Hw2 & Hm2); [by unfold v1; simpl; rewrite lookup_insert_eq|done|pose proof (len_nonneg c); lia|rewrite Z.sub_0_r; by apply Hf|].
    rewrite slice_full in E2. cbn [app] in E2. unfold try_except at 1. unfold bind at 1, try_except at 1, bind at 1. fold v. rewrite (on_files_Ok _ s fd v1 Ho). cbn [ret].
    unfold bind at 1, try_finally. rewrite (on_files_Ok _ (set_host (mkHost (k_out (s_host s)) v1 (k_net (s_host s))) s) c v2 E2). unfold bind at 1. rewrite (on_files_Ok (close fd) _ tt (set_fds (delete fd (v_fds v2)) v2)) by done. cbn [ret].
    destruct (decode_encode _ (text_code_points ls Hls)) as (c' & Ec' & Ed). assert (c = c') as -> by congruence. rewrite Ed, splitlines_text by (eapply list.Forall_impl; [exact Hls|]; by intros l [? _]).
    rewrite add_all. eexists. split; [reflexivity|]. done.
  - destruct Hl as (-> & _ & _ & ->). assert (Ho : open HISTORY_FILE 0 v = (Err FileNotFoundError, v)) by (unfold open, bind; change (open_node HISTORY_FILE 0 v) with (resolve HISTORY_FILE v); by rewrite Hres).
    exists s. rewrite app_nil_r. split; [|done]. unfold try_except at 1. unfold bind at 1, try_except at 1, bind at 1. unfold on_files, on_host, on_fs, zoom. fold v. rewrite Ho. by destruct s as [? ? ? ? ? ? ? ? []].
Qed.

(** The history survives.  Lines that are entered one after the other are
    appended to the history file, which may hold older ones or not exist; the
    shell that starts next, over the same files, has in its history exactly
    the old and the new lines in order, without the blank ones. *)
Theorem history_roundtrip (fuel : nat) (lines old : list str) (s : Shell W Node T) (d : Node) (x : str) (can_exit : bool) (input : str)
    (Hready : s_ready s = true) (Hfile : history_file (k_vfs (s_host s)) d x old) (Hold : Forall entered old) (Hlines : Forall entered lines)
    (Hfuel : forall c, encode (history_text (old ++ List.filter (fun l => negb (blank l)) lines)) = Ok c -> len c <= 4096 * (Z.of_nat fuel - 1)) :
  exists s', for_each lines _history_persist s = (Ok tt, s') /\
    exists s2, _history_load fuel (Shell_init can_exit true input (s_host s')) = (Ok tt, s2) /\
      s_history s2 = List.filter (fun l => negb (blank l)) (old ++ lines).
Proof.
  destruct (persist_all lines s d x old Hready Hfile Hold Hlines) as (s' & E1 & _ & H1). exists s'. split; [done|].
  assert (Hall : Forall entered (old ++ List.filter (fun l => negb (blank l)) lines)).
  { apply Forall_app. split; [done|]. eapply list.Forall_impl; [by apply filter_Forall|]. by intros l [_ ?]. }
  destruct (load_run fuel (Shell_init can_exit true input (s_host s')) d x _ eq_refl H1 Hall Hfuel) as (s2 & E2 & H2). exists s2. split; [done|]. rewrite H2. cbn. by rewrite !List.filter_app, filter_twice.
Qed.
End history.

(** ** A command at the prompt *)

Lemma slice_to_end (a b : str) : b <> [] -> slice_to (a ++ b) (- len b) = a.
Proof.
  intros Hb. assert (0 < len b) by (destruct b; [done|rewrite len_cons; pose proof (len_nonneg b); lia]). pose proof (len_nonneg a). unfold slice_to, slice.
  assert (E : clamp (len (a ++ b)) (- len b) = len a) by (unfold clamp; rewrite len_app; replace (- len b <? 0) with true by lia; lia).
  rewrite E, clamp_id by (rewrite len_app; lia). rewrite Z.sub_0_r. change (drop (Z.to_nat 0) (a ++ b)) with (a ++ b). apply take_app_length'. unfold len. lia.
Qed.

Section dispatch.
Context {W Node T : Type} `{HF : FileLaws W Node} `{!DataLaws W Node} `{HS : Streams T} (estr : exn -> str) (in_ns iskeyword : str -> bool) (traceback : exn -> str).
Context (exec_script : str -> str -> list str -> M (Shell W Node T) (option exn * option str)) (other_command : str -> option (list str -> M (Shell W Node T) (option str))).
Context (frozen_source : str -> option str) (frozen_main : str -> M (Shell W Node T) (option (list str -> M (Shell W Node T) (option str)))) (procs : Shell W Node T -> list (Z * str * str)) (help_text : str).
Abbreviation dispatch := (_try_shell_dispatch estr in_ns iskeyword traceback exec_script other_command frozen_source frozen_main procs help_text).
Abbreviation runs := (_run_script estr traceback exec_script other_command frozen_source frozen_main procs).

(** The names the dispatch treats by themselves. *)
Definition own_word (name : str) : bool := one_of name ["help"; "exit"; "quit"; "halt"]%string.
(** What running a command makes of the shell: its new directory, or the
    report of its exception. *)
Definition after_command (r : result (option str) * Shell W Node T) : Shell W Node T :=
  match r with
  | (Ok (Some d), s) => set_cwd d s
  | (Ok None, s) => s
  | (Err e, s) => snd (sh_write (traceback e) s)
  end.
Lemma on_files_run {A} (m : M (VFS W Node) A) (s : Shell W Node T) a v' : m (k_vfs (s_host s)) = (Ok a, v') -> on_files m s = (Ok a, set_host (mkHost (k_out (s_host s)) v' (k_net (s_host s))) s).
Proof. intros E. unfold on_files, on_host, on_fs, zoom. by rewrite E. Qed.

Lemma run_seeded fuel name args text (s : Shell W Node T) n c func :
  find (fun e => beq (fst e) (name ++ lit ".py")) SCRIPTS = Some (name ++ lit ".py", text) -> no_char slash name ->
  resolve (bin name) (k_vfs (s_host s)) = (Ok n, k_vfs (s_host s)) -> content (v_world (k_vfs (s_host s))) n = Some c -> decode_strict c = Ok text -> len c <= 4096 * (Z.of_nat fuel - 1) ->
  command estr other_command procs fuel name = Some func ->
  exists v1, v_world v1 = v_world (k_vfs (s_host s)) /\ v_mounts v1 = v_mounts (k_vfs (s_host s)) /\
    runs fuel (bin name) args s = (Ok true, after_command (func args (set_host (mkHost (k_out (s_host s)) v1 (k_net (s_host s))) s))).
Proof.
  intros Hfind Hname Hres Hc Hd Hf Hcmd. set (v := k_vfs (s_host s)) in *. set (fd := v_next_fd v). set (v1 := set_fds (<[fd := mkFD n 0 0]> (v_fds v)) (set_next_fd (fd + 1) v)).
  assert (Ho : open (bin name) 0 v = (Ok fd, v1)) by (unfold open; rewrite (bind_step _ _ v n v) by exact Hres; reflexivity).
  destruct (read_chunks_spec fuel fd n 0 0 [] c v1) as (v2 & E2 & Hw2 & Hm2); [by unfold v1; simpl; rewrite lookup_insert_eq|done|pose proof (len_nonneg c); lia|lia|]. rewrite slice_full in E2. cbn [app] in E2.
  set (v3 := set_fds (delete fd (v_fds v2)) v2). exists v3. split_and!; [by cbn; rewrite Hw2|by cbn; rewrite Hm2|].
  unfold _run_script. unfold bind at 1, try_except at 1, bind at 1. fold v. rewrite (on_files_run _ s fd v1 Ho). cbn [ret].
  unfold bind at 1. rewrite (on_files_run _ (set_host (mkHost (k_out (s_host s)) v1 (k_net (s_host s))) s) c v2 E2). unfold bind at 1. rewrite (on_files_run (close fd) _ tt v3) by done.
  unfold bind at 1, lift. rewrite Hd. set (s1 := set_host (mkHost (k_out (s_host s)) v3 (k_net (s_host s))) s).
  assert (Hpre : _try_precompiled_script estr traceback other_command frozen_source frozen_main procs fuel (bin name) args text s1 = (Ok true, after_command (func args s1))).
  { unfold _try_precompiled_script. assert (Es : slice_from (bin name) 5 = name ++ lit ".py") by (unfold bin; apply (slice_from_app (lit "/bin/"))). rewrite Es.
    assert (E1 : startswith (bin name) (lit "/bin/") = true) by apply startswith_app. assert (E3 : endswith (bin name) (lit ".py") = true).
    { unfold endswith, bin. rewrite (assoc_L (++)). rewrite length_app. change (length (lit ".py")) with 3%nat. replace (length (lit "/bin/" ++ name) + 3 - 3)%nat with (length (lit "/bin/" ++ name)) by lia. rewrite drop_app_length, beq_refl.
      apply andb_true_intro. split; [done|]. apply Nat.leb_le. lia. }
    assert (E4 : existsb is_slash (name ++ lit ".py") = false).
    { rewrite existsb_app. change (existsb is_slash (lit ".py")) with false. rewrite orb_false_r. apply not_true_is_false. rewrite existsb_exists. intros (c0 & Hin & Hs). apply Hname. unfold is_slash in Hs. apply Z.eqb_eq in Hs as ->. by apply list_elem_of_In. }
    rewrite E1, E3, E4. cbn [andb negb]. unfold traced, try_except. rewrite Hfind, beq_refl. cbn [negb].
    replace (slice_to (name ++ lit ".py") (-3)) with name by (symmetry; by apply (slice_to_end name (lit ".py"))).
    rewrite Hcmd. unfold bind. destruct (func args s1) as [[[d|]|e] s2]; done. }
  unfold bind. match goal with |- context [_try_precompiled_script _ _ _ _ _ _ _ _ _ _ ?st] => change st with s1 end. by rewrite Hpre.
Qed.

(** A command at the prompt runs the command.  For a line whose first word
    is the name of a seeded script that is as it was seeded, and is neither a
    keyword nor a name of the Python namespace, the dispatch handles the line:
    it runs the command of that name, once, on the words of the line and the
    current directory, over files with the same content, adopts the directory
    the command returns and prints the report of the exception it raises. *)
Theorem prompt_runs_command (fuel : nat) (src name text : str) (args : list str) (s : Shell W Node T) (n : Node) (c : bytes) (func : list str -> M (Shell W Node T) (option str))
    (Hline : existsb (Z.eqb newline) (strip is_space src) = false) (Hwords : split_ws (strip is_space src) = name :: args)
    (Hid : isidentifier name = true) (Hown : own_word name = false) (Hkey : one_of name ["desktop"; "examples"]%string = true \/ iskeyword name = false /\ in_ns name = false)
    (Hscript : find (fun e => beq (fst e) (name ++ lit ".py")) SCRIPTS = Some (name ++ lit ".py", text)) (Hname : no_char slash name)
    (Hres : resolve (bin name) (k_vfs (s_host s)) = (Ok n, k_vfs (s_host s))) (Hc : content (v_world (k_vfs (s_host s))) n = Some c)
    (Htext : decode_strict c = Ok text) (Hfuel : len c <= 4096 * (Z.of_nat fuel - 1)) (Hcmd : command estr other_command procs fuel name = Some func) :
  exists v1, v_world v1 = v_world (k_vfs (s_host s)) /\ v_mounts v1 = v_mounts (k_vfs (s_host s)) /\
    dispatch fuel src s = (Ok true, after_command (func args (set_host (mkHost (k_out (s_host s)) v1 (k_net (s_host s))) s))).
Proof.
  destruct (run_seeded fuel name args text s n c func Hscript Hname Hres Hc Htext Hfuel Hcmd) as (v1 & H1 & H2 & E). exists v1. split_and!; [done..|].
  unfold _try_shell_dispatch. rewrite Hline, Hwords. replace (beq (strip is_space src) []) with false.
  2:{ symmetry. destruct (beq_spec (strip is_space src) []) as [E0|]; [|done]. by rewrite E0 in Hwords. }
  unfold own_word, one_of in Hown. cbn [existsb] in Hown. repeat (apply orb_false_iff in Hown as [? Hown]). cbn [orb]. rewrite Hid. cbn [negb].
  replace (beq name (lit "help")) with false by done. replace (beq name (lit "halt")) with false by done. unfold one_of at 2. cbn [existsb].
  replace (beq name (lit "exit")) with false by done. replace (beq name (lit "quit")) with false by done. cbn [andb orb].
  destruct (one_of name ["desktop"; "examples"]%string); [done|]. destruct Hkey as [|[-> ->]]; done.
Qed.
End dispatch.

(** ** Concrete runs *)

(** The seeded /bin beside the files of [wit_vfs]. *)
Definition boot_heap : heap := snd (seed 0 [(lit "bin", TDict (map (fun e => (fst e, TStr (snd e))) SCRIPTS))] wit_heap).
Definition boot_vfs : VFS heap Z := set_world boot_heap wit_vfs.
Definition demo_shell (input : str) (v : VFS heap Z) : Shell heap Z (list bytes) := Shell_init true false input (mkHost [] v []).
Definition demo_ns (name : str) : bool := one_of name ["vfs"; "kernel"; "print"; "cwd"; "sh"]%string.
Definition demo_eval (src : str) : M (Shell heap Z (list bytes)) unit := sh_write (lit "[python] " ++ src).
Definition demo_run (fuel turns : nat) (version : str) : M (Shell heap Z (list bytes)) unit :=
  run (fun _ => lit "error") (fun _ => demo_dir) demo_ns (fun _ => false) (fun _ => false) demo_eval (fun _ => false) (fun _ => lit "Traceback" ++ [newline])
    (fun _ _ _ => ret (None, None)) (fun _ => None) (fun _ => None) (fun _ => ret None) (fun _ => ret None) (fun _ => []) [] fuel turns version.
Definition typed_lines (l : list string) : str := concat (map (fun x => lit x ++ [newline]) l).

(** Commands at the prompt, a wrong one corrected with the backspace. *)
Example session_commands :
  let '(r, s) := demo_run 9 9 [] (demo_shell (typed_lines ["cd etc"; "cp motd ../home/copy"; "cat /home/copy"; "cat none"; "1 + 1"; "exit"]) boot_vfs) in
  r = Ok tt /\ s_cwd s = lit "/etc" /\
  k_out (s_host s) = banner [] ++ lit ">>> cd etc" ++ [newline] ++ lit ">>> cp motd ../home/copy" ++ [newline] ++ lit ">>> cat /home/copy" ++ [newline] ++ lit "hello" ++
    lit ">>> cat none" ++ [newline] ++ lit "cat: /etc/none: not found" ++ [newline] ++ lit ">>> 1 + 1" ++ [newline] ++ lit "[python] 1 + 1" ++ [newline] ++ lit ">>> exit" ++ [newline].
Proof. vm_compute. done. Qed.

(** An assignment to a name that is also a command's runs the command with the
    rest as its arguments; Python never sees it. *)
Example assignment_runs_command :
  let '(r, s) := demo_run 9 9 [] (demo_shell (typed_lines ["ls = 3"; "exit"]) boot_vfs) in
  r = Ok tt /\ k_out (s_host s) = banner [] ++ lit ">>> ls = 3" ++ [newline] ++ lit "Traceback" ++ [newline] ++ lit ">>> exit" ++ [newline].
Proof. vm_compute. done. Qed.

(** A directory of /bin whose name ends in .py ends the shell when its name is
    typed: the exception of the read is not caught. *)
Example unreadable_script_ends_shell :
  let v := snd (mkdir (lit "/bin/x.py") boot_vfs) in
  let '(r, s) := demo_run 9 9 [] (demo_shell (typed_lines ["x"; "exit"]) v) in
  r = Err IsADirectoryError /\ s_in s = typed_lines ["exit"].
Proof. vm_compute. done. Qed.

(** The rewriting of [is None] does not know strings or longer words. *)
Example fixup_rewrites_strings :
  _fixup_source (lit "print('there is None', x is not None)") = lit "print('there == None', x != None)" /\
  _fixup_source (lit "print('this None')") = lit "print('th== None')".
Proof. vm_compute. done. Qed.

(** ** Witnesses *)

#[global] Instance printable_dec c : Decision (printable c).
Proof. unfold printable. apply _. Defined.


Lemma tmpfs_stat_quiet path (v : VFS heap Z) : snd (stat path v) = v.
Proof.
  unfold stat, bind. rewrite (resolve_fst path v v) by done. destruct (fst (resolve path v)) as [n|e]; [|done]. unfold node, zoom. cbn [n_stat tmpfs_node].
  unfold tmpfs_stat, bind, deref. destruct (h_nodes (v_world v) !! n); apply set_world_id.
Qed.
Lemma boot_quiet input : quiet_dir (fun _ => demo_dir) (demo_shell input boot_vfs).
Proof.
  split.
  - change (s_cwd (demo_shell input boot_vfs)) with [slash]. change (files (demo_shell input boot_vfs)) with boot_vfs. intros r v' E.
    assert (Hv : snd (readdir [slash] boot_vfs) = boot_vfs) by (vm_compute; reflexivity). rewrite E in Hv. split; [exact Hv|].
    assert (Hr : fst (readdir [slash] boot_vfs) = Ok (map lit ["."; ".."; "etc"; "bin"; "home"]%string)) by (vm_compute; reflexivity).
    rewrite E in Hr. cbn [fst] in Hr. rewrite Hr. apply (bool_decide_unpack _). vm_compute. exact I.
  - intros name r v' E. change (files (demo_shell input boot_vfs)) with boot_vfs in *. pose proof (tmpfs_stat_quiet (_join_path [slash] name) boot_vfs) as Hv.
    change (s_cwd (demo_shell input boot_vfs)) with [slash] in E. by rewrite E in Hv.
  - intros s' parts attrs. unfold demo_dir. destruct (beq _ _); [|done]. intros [= <-]. apply (bool_decide_unpack _). vm_compute. exact I.
Qed.
#[global] Instance typed_dec c : Decision (typed c).
Proof. unfold typed. apply _. Defined.
#[global] Instance entered_dec l : Decision (entered l).
Proof. unfold entered, no_break, code_point. apply _. Defined.
Lemma terminal_shows_line_witness : exists line s' w k,
  _read_line_fallback (fun _ => demo_dir) (lit ">>> ") (demo_shell (lit "vfs.x" ++ [DEL; 114; tab; backspace; backspace; newline; 113]) boot_vfs) = (Ok line, s') /\
  s_in s' = [113] /\ render w = (lit ">>> " ++ line, blanks k) /\ line = lit "vfs.re".
Proof.
  destruct (terminal_shows_line (fun _ => demo_dir) (lit ">>> ") (lit "vfs.x" ++ [DEL; 114; tab; backspace; backspace]) [113]
    (demo_shell (lit "vfs.x" ++ [DEL; 114; tab; backspace; backspace; newline; 113]) boot_vfs)) as (line & s' & w & k & H1 & H2 & _ & _ & H5 & _).
  - apply (bool_decide_unpack _). vm_compute. exact I.
  - reflexivity.
  - apply (bool_decide_unpack _). vm_compute. exact I.
  - apply boot_quiet.
  - exists line, s', w, k. split; [exact H1|]. split; [exact H2|]. split; [exact H5|].
    apply (f_equal fst) in H1. vm_compute in H1. injection H1 as <-. reflexivity.
Defined.

Lemma boot_tidy : tmpfs_tidy boot_heap.
Proof.
  split.
  - eapply (steps_invariant tmpfs_step heap_wf tmpfs_step_wf); [apply heap_wf_init|]. eapply steps_trans; [apply wit_heap_reachable|].
    eapply steps_cons; [|apply steps_refl]. eapply (ts_seed 0); reflexivity.
  - assert (Hm : map_Forall (fun _ x => base.NoDup (t_children x).*1) (h_nodes boot_heap)) by (apply (bool_decide_unpack _); vm_compute; exact I). exact Hm.
Qed.
Definition ready_shell : Shell heap Z (list bytes) := Shell_init true true [] (mkHost [] boot_vfs []).
Lemma ready_history : history_file (k_vfs (s_host ready_shell)) 1 (lit ".repl_history") [].
Proof.
  split; [exact boot_tidy|]. split.
  - split; [|apply plain_dec; reflexivity|apply (bool_decide_unpack _); vm_compute; exact I]. exists [lit "home"]. split; [reflexivity|]. split; [repeat constructor; apply plain_dec; reflexivity|reflexivity].
  - assert (E : n_lookup 1 (lit ".repl_history") (v_world (k_vfs (s_host ready_shell))) = (Err FileNotFoundError, boot_heap)) by reflexivity. rewrite E.
    split; [reflexivity|]. split; [|split; [split; discriminate|reflexivity]]. split; [apply boot_tidy|]. exists (mkNode DIR 0x1ED [] []). split; [vm_compute; reflexivity|reflexivity].
Qed.
Lemma history_roundtrip_witness : exists s', for_each [lit "1 + 1"; lit "  "; lit "ls /tmp"] _history_persist ready_shell = (Ok tt, s') /\
  exists s2, _history_load 2 (Shell_init true true [] (s_host s')) = (Ok tt, s2) /\ s_history s2 = [lit "1 + 1"; lit "ls /tmp"].
Proof.
  destruct (history_roundtrip 2 [lit "1 + 1"; lit "  "; lit "ls /tmp"] [] ready_shell 1 (lit ".repl_history") true []) as (s' & H1 & s2 & H2 & H3).
  - reflexivity.
  - exact ready_history.
  - constructor.
  - apply (bool_decide_unpack _). vm_compute. exact I.
  - intros c Hc. vm_compute in Hc. injection Hc as <-. vm_compute. discriminate.
  - exists s'. split; [exact H1|]. exists s2. split; [exact H2|exact H3].
Defined.
Lemma prompt_runs_command_witness : exists v1, v_world v1 = boot_heap /\
  _try_shell_dispatch (fun _ => lit "error") demo_ns (fun _ => false) (fun _ => lit "Traceback") (fun _ _ _ => ret (None, None)) (fun _ => None) (fun _ => None) (fun _ => ret None) (fun _ => []) []
    2 (lit "cd etc" ++ [newline]) (demo_shell [] boot_vfs) = (Ok true, set_cwd (lit "/etc") (set_host (mkHost [] v1 []) (demo_shell [] boot_vfs))).
Proof.
  destruct (prompt_runs_command (fun _ => lit "error") demo_ns (fun _ => false) (fun _ => lit "Traceback") (fun _ _ _ => ret (None, None)) (fun _ => None) (fun _ => None) (fun _ => ret None) (fun _ => []) []
    2 (lit "cd etc" ++ [newline]) (lit "cd") (lit "from kernel import commands" ++ [newline] ++ lit "cwd = await commands.cd(argv, cwd, _write)" ++ [newline]) [lit "etc"] (demo_shell [] boot_vfs) 11
    (lit "from kernel import commands" ++ [newline] ++ lit "cwd = await commands.cd(argv, cwd, _write)" ++ [newline])
    (fun args => let! s := get in let! d := on_host (cd args (s_cwd s)) in ret (Some d))) as (v1 & H1 & H2 & H3).
  - reflexivity.
  - reflexivity.
  - reflexivity.
  - reflexivity.
  - right. split; reflexivity.
  - reflexivity.
  - apply (proj2 (good_part_dec (lit "cd") eq_refl)).
  - vm_compute. reflexivity.
  - vm_compute. reflexivity.
  - reflexivity.
  - vm_compute. discriminate.
  - reflexivity.
  - exists v1. split; [rewrite H1; vm_compute; reflexivity|]. etransitivity; [exact H3|]. clear H3.
    destruct v1 as [ms fds nx w]. cbn [v_world v_mounts] in H1, H2. rewrite H1, H2. vm_compute. reflexivity.
Defined.
