(* ===== verification/Inflate.v ===== *)
(** * DEFLATE decompression ([kernel/gui/image/_deflate.py])

    The bit reader is the state; the data it reads is fixed.  Every turn of the
    loops over blocks, code lengths and symbols reads at least one bit, so the
    number of bits, and one, bounds the turns of each. *)

From Stdlib Require Import ZArith Lia.
From stdpp Require Import base list gmap numbers strings.
From S2P Require Import Prelude Bytes.

Local Open Scope Z_scope.

Definition LENGTH_BASE : list Z :=
  [3; 4; 5; 6; 7; 8; 9; 10; 11; 13; 15; 17; 19; 23; 27; 31; 35; 43; 51; 59; 67; 83; 99; 115; 131; 163; 195; 227; 258].
Definition LENGTH_EXTRA : list Z :=
  [0; 0; 0; 0; 0; 0; 0; 0; 1; 1; 1; 1; 2; 2; 2; 2; 3; 3; 3; 3; 4; 4; 4; 4; 5; 5; 5; 5; 0].
Definition DIST_BASE : list Z :=
  [1; 2; 3; 4; 5; 7; 9; 13; 17; 25; 33; 49; 65; 97; 129; 193; 257; 385; 513; 769; 1025; 1537; 2049; 3073;
   4097; 6145; 8193; 12289; 16385; 24577].
Definition DIST_EXTRA : list Z :=
  [0; 0; 0; 0; 1; 1; 2; 2; 3; 3; 4; 4; 5; 5; 6; 6; 7; 7; 8; 8; 9; 9; 10; 10; 11; 11; 12; 12; 13; 13].
Definition CODE_LEN_ORDER : list Z := [16; 17; 18; 0; 8; 7; 9; 6; 10; 5; 11; 4; 12; 3; 13; 2; 14; 1; 15].

(** ** Bit reader *)

Record BitReader : Type := mkReader { br_data : bytes; br_pos : Z }.
Definition set_pos p (s : BitReader) : BitReader := mkReader (br_data s) p.

(** The loop of [read_bits], from bit [i] of the value on. *)
Fixpoint read_bits_loop (n : nat) (i v : Z) : M BitReader Z :=
  match n with
  | O => ret v
  | S n' =>
      let! s := get in
      let! byte := lift (index (br_data s) (Z.shiftr (br_pos s) 3)) in
      let v := Z.lor v (Z.shiftl (Z.land (Z.shiftr byte (Z.land (br_pos s) 7)) 1) i) in
      modify (set_pos (br_pos s + 1)) ;;;
      read_bits_loop n' (i + 1) v
  end.
Definition read_bits (n : Z) : M BitReader Z := read_bits_loop (Z.to_nat n) 0 0.

Definition align_to_byte : M BitReader unit :=
  modify (fun s => set_pos (Z.land (br_pos s + 7) (Z.lnot 7)) s).

Definition read_byte_aligned : M BitReader Z :=
  align_to_byte ;;;
  let! s := get in
  let! b := lift (index (br_data s) (Z.shiftr (br_pos s) 3)) in
  modify (set_pos (br_pos s + 8)) ;;;
  ret b.

Definition read_le16_aligned : M BitReader Z :=
  let! lo := read_byte_aligned in
  let! hi := read_byte_aligned in
  ret (Z.lor lo (Z.shiftl hi 8)).

(** ** Canonical Huffman codes *)

Definition codes : Type := gmap (Z * Z) Z.

Definition count_length (bl : list Z) (L : Z) : result (list Z) :=
  if 15 <? L then Err ValueError
  else let? c := index bl L in set_index bl L (c + 1).
Fixpoint count_lengths (bl lengths : list Z) : result (list Z) :=
  match lengths with
  | [] => Ok bl
  | L :: lengths' => let? bl := count_length bl L in count_lengths bl lengths'
  end.

(** [for bits in range(1, 16)] *)
Fixpoint next_codes (bl : list Z) (code : Z) (next : list Z) (bits : list Z) : result (list Z) :=
  match bits with
  | [] => Ok next
  | b :: bits' =>
      let? c := index bl (b - 1) in
      let code := Z.shiftl (code + c) 1 in
      let? next := set_index next b code in
      next_codes bl code next bits'
  end.

(** [for n, L in enumerate(lengths)] *)
Fixpoint assign_codes (n : Z) (lengths next : list Z) (cs : codes) : result codes :=
  match lengths with
  | [] => Ok cs
  | L :: lengths' =>
      if L =? 0 then assign_codes (n + 1) lengths' next cs
      else
        let? c := index next L in
        let? next := set_index next L (c + 1) in
        assign_codes (n + 1) lengths' next (<[(L, c) := n]> cs)
  end.

Definition Huffman (lengths : list Z) : result codes :=
  let? bl := count_lengths (zeros 16) lengths in
  let? bl := set_index bl 0 0 in
  let? next := next_codes bl 0 (zeros 16) (range2 1 16) in
  assign_codes 0 lengths next ∅.

(** [for L in range(1, 16)] of [decode], with [n] lengths to go. *)
Fixpoint decode_loop (cs : codes) (n : nat) (L code : Z) : M BitReader Z :=
  match n with
  | O => raise ValueError
  | S n' =>
      let! b := read_bits 1 in
      let code := Z.lor (Z.shiftl code 1) b in
      match cs !! (L, code) with
      | Some sym => ret sym
      | None => decode_loop cs n' (L + 1) code
      end
  end.
Definition huff_decode (cs : codes) : M BitReader Z := decode_loop cs 15 1 0.

Definition fixed_lit_lengths : list Z :=
  replicate 144 8 ++ replicate 112 9 ++ replicate 24 7 ++ replicate 8 8.
Definition fixed_dist_lengths : list Z := replicate 32 5.

(** ** Blocks *)

(** [for _ in range(length): out.append(reader.read_byte_aligned())] *)
Fixpoint read_stored (n : nat) (out : bytes) : M BitReader bytes :=
  match n with
  | O => ret out
  | S n' => let! b := read_byte_aligned in read_stored n' (out ++ [b])
  end.

(** [for k in range(length): out.append(out[src + k])] *)
Fixpoint copy_back (n : nat) (src : Z) (out : bytes) : result bytes :=
  match n with
  | O => Ok out
  | S n' => let? b := index out src in copy_back n' (src + 1) (out ++ [b])
  end.

Definition back_reference (dist_codes : codes) (li : Z) (out : bytes) : M BitReader bytes :=
  if len LENGTH_BASE <=? li then raise ValueError
  else
    let! base := lift (index LENGTH_BASE li) in
    let! ex := lift (index LENGTH_EXTRA li) in
    let! e := read_bits ex in
    let length := base + e in
    let! dsym := huff_decode dist_codes in
    if len DIST_BASE <=? dsym then raise ValueError
    else
      let! dbase := lift (index DIST_BASE dsym) in
      let! dex := lift (index DIST_EXTRA dsym) in
      let! de := read_bits dex in
      let dist := dbase + de in
      let src := len out - dist in
      if src <? 0 then raise ValueError
      else lift (copy_back (Z.to_nat length) src out).

(** The [while True] loop over the symbols of a block. *)
Fixpoint read_symbols (fuel : nat) (lit dist : codes) (out : bytes) : M BitReader bytes :=
  match fuel with
  | O => raise RuntimeError
  | S fuel' =>
      let! sym := huff_decode lit in
      if sym <? 256 then read_symbols fuel' lit dist (out ++ [sym])
      else if sym =? 256 then ret out
      else
        let! out := back_reference dist (sym - 257) out in
        read_symbols fuel' lit dist out
  end.

(** [for i in range(hclen): code_lens[_CODE_LEN_ORDER[i]] = reader.read_bits(3)] *)
Fixpoint read_code_lens (idx : list Z) (code_lens : list Z) : M BitReader (list Z) :=
  match idx with
  | [] => ret code_lens
  | i :: idx' =>
      let! j := lift (index CODE_LEN_ORDER i) in
      let! v := read_bits 3 in
      let! code_lens := lift (set_index code_lens j v) in
      read_code_lens idx' code_lens
  end.

(** Appending a length to the literal lengths while there is room, to the
    distance lengths after. *)
Definition push_len (hlit : Z) (lens : list Z * list Z) (v : Z) : list Z * list Z :=
  let (ll, dl) := lens in if len ll <? hlit then (ll ++ [v], dl) else (ll, dl ++ [v]).
Fixpoint push_n (n : nat) (hlit : Z) (lens : list Z * list Z) (v : Z) : list Z * list Z :=
  match n with
  | O => lens
  | S n' => push_n n' hlit (push_len hlit lens v) v
  end.

(** One code-length symbol. *)
Definition length_symbol (hlit sym : Z) (lens : list Z * list Z) : M BitReader (list Z * list Z) :=
  let (ll, dl) := lens in
  if sym <? 16 then ret (push_len hlit lens sym)
  else if sym =? 16 then
    let! b := read_bits 2 in
    if len ll + len dl =? 0 then raise ValueError
    else
      let! prev := lift (match dl with [] => index ll (-1) | _ => index dl (-1) end) in
      ret (push_n (Z.to_nat (b + 3)) hlit lens prev)
  else if sym =? 17 then
    let! b := read_bits 3 in ret (push_n (Z.to_nat (b + 3)) hlit lens 0)
  else if sym =? 18 then
    let! b := read_bits 7 in ret (push_n (Z.to_nat (b + 11)) hlit lens 0)
  else raise ValueError.

(** [while len(lit_lengths) + len(dist_lengths) < total] *)
Fixpoint read_lengths (fuel : nat) (cs : codes) (hlit total : Z) (lens : list Z * list Z) : M BitReader (list Z * list Z) :=
  if len (fst lens) + len (snd lens) <? total then
    match fuel with
    | O => raise RuntimeError
    | S fuel' =>
        let! sym := huff_decode cs in
        let! lens := length_symbol hlit sym lens in
        read_lengths fuel' cs hlit total lens
    end
  else ret lens.

Definition dynamic_lengths (fuel : nat) : M BitReader (list Z * list Z) :=
  let! a := read_bits 5 in
  let! b := read_bits 5 in
  let! c := read_bits 4 in
  let hlit := a + 257 in
  let hdist := b + 1 in
  let hclen := c + 4 in
  let! code_lens := read_code_lens (range hclen) (zeros 19) in
  let! cs := lift (Huffman code_lens) in
  read_lengths fuel cs hlit (hlit + hdist) ([], []).

Definition read_block (fuel : nat) (btype : Z) (out : bytes) : M BitReader bytes :=
  if btype =? 0 then
    let! length := read_le16_aligned in
    let! _ := read_le16_aligned in
    read_stored (Z.to_nat length) out
  else if (btype =? 1) || (btype =? 2) then
    let! (lit_lengths, dist_lengths) :=
      (if btype =? 1 then ret (fixed_lit_lengths, fixed_dist_lengths) else dynamic_lengths fuel) in
    let! lit := lift (Huffman lit_lengths) in
    let! dist := lift (Huffman dist_lengths) in
    read_symbols fuel lit dist out
  else raise ValueError.

(** The [while True] loop over the blocks. *)
Fixpoint read_blocks (blocks fuel : nat) (out : bytes) : M BitReader bytes :=
  match blocks with
  | O => raise RuntimeError
  | S blocks' =>
      let! bfinal := read_bits 1 in
      let! btype := read_bits 2 in
      let! out := read_block fuel btype out in
      if negb (bfinal =? 0) then ret out else read_blocks blocks' fuel out
  end.

Definition inflate (data : bytes) : result bytes :=
  let fuel := S (8 * length data) in
  fst (read_blocks fuel fuel [] (mkReader data 0)).

Definition zlib_inflate (data : bytes) : result bytes :=
  if len data <? 6 then Err ValueError
  else
    let? cmf := index data 0 in
    let? flg := index data 1 in
    if negb (Z.land cmf 0x0F =? 8) then Err ValueError
    else if negb ((Z.lor (Z.shiftl cmf 8) flg) mod 31 =? 0) then Err ValueError
    else if negb (Z.land flg 0x20 =? 0) then Err ValueError
    else inflate (slice data 2 (-4)).
