(* ===== verification/InflateProps.v ===== *)
(** * Properties of the decompressor

    It returns or raises a documented error on every input; and it decodes
    what RFC 1951 says, for stored blocks and for blocks of literals and
    back-references in the fixed Huffman code. *)

From Stdlib Require Import ZArith Lia.
From stdpp Require Import base list gmap numbers strings.
From S2P Require Import Prelude Bytes Inflate.

Local Open Scope Z_scope.

(** ** Progress *)

Definition inb (s : BitReader) : Prop := 0 <= br_pos s <= 8 * len (br_data s).
Definition known_error (e : exn) : Prop := e = ValueError \/ e = IndexError.

(** A reader's method only moves forward, stays in the data, and raises only
    the two errors; [strict] ones move when they return. *)
Definition forward (strict : bool) {A} (m : M BitReader A) : Prop :=
  forall s r s', inb s -> m s = (r, s') ->
    inb s' /\ br_data s' = br_data s /\ br_pos s <= br_pos s' /\
    match r with
    | Ok _ => strict = true -> br_pos s < br_pos s'
    | Err e => known_error e
    end.

Lemma forward_weaken {A} (m : M BitReader A) : forward true m -> forward false m.
Proof. intros Hm s r s' Hs E. destruct (Hm _ _ _ Hs E) as (H1 & H2 & H3 & H4). split_and!; [done..|by destruct r]. Qed.
Lemma forward_ret {A} (a : A) : forward false (ret a).
Proof. intros s r s' Hs [= <- <-]. by split_and!. Qed.
Lemma forward_raise {A} b e : known_error e -> forward b (raise (A := A) e).
Proof. intros He s r s' Hs [= <- <-]. by split_and!. Qed.
Lemma forward_lift {A} (x : result A) : (forall e, x = Err e -> known_error e) -> forward false (lift x).
Proof. intros He s r s' Hs [= <- <-]. split_and!; [done..|]. destruct x; [done|]. by apply He. Qed.
Lemma forward_get : forward false get.
Proof. intros s r s' Hs [= <- <-]. by split_and!. Qed.

Lemma forward_bind {A B} b (m : M BitReader A) (f : A -> M BitReader B) :
  forward b m -> (forall a, forward false (f a)) -> forward b (bind m f).
Proof.
  intros Hm Hf s r s' Hs. unfold bind. destruct (m s) as [[a|e] s1] eqn:E; destruct (Hm _ _ _ Hs E) as (H1 & H2 & H3 & H4); intros E'.
  - destruct (Hf a _ _ _ H1 E') as (H5 & H6 & H7 & H8). split_and!; [done|by rewrite H6|lia|].
    destruct r; [|done]. intros ->. specialize (H4 eq_refl). lia.
  - injection E' as <- <-. by split_and!.
Qed.
Lemma forward_bind_strict {A B} (m : M BitReader A) (f : A -> M BitReader B) :
  forward false m -> (forall a, forward true (f a)) -> forward true (bind m f).
Proof.
  intros Hm Hf s r s' Hs. unfold bind. destruct (m s) as [[a|e] s1] eqn:E; destruct (Hm _ _ _ Hs E) as (H1 & H2 & H3 & H4); intros E'.
  - destruct (Hf a _ _ _ H1 E') as (H5 & H6 & H7 & H8). split_and!; [done|by rewrite H6|lia|].
    destruct r; [|done]. intros H. specialize (H8 H). lia.
  - injection E' as <- <-. by split_and!.
Qed.

Lemma index_error {A} (l : list A) i e : index l i = Err e -> known_error e.
Proof. unfold index. intros E. right. repeat case_match; congruence. Qed.
Lemma set_index_error {A} (l : list A) i x e : set_index l i x = Err e -> known_error e.
Proof. unfold set_index. intros E. right. case_match; congruence. Qed.
Lemma value_error : known_error ValueError.
Proof. by left. Qed.

Create HintDb infl discriminated.
#[export] Hint Resolve forward_ret forward_raise forward_get forward_lift index_error set_index_error value_error : infl.

(** Reading a bit needs one to be there. *)
Lemma shiftr3 n : Z.shiftr n 3 = n / 8.
Proof. by rewrite Z.shiftr_div_pow2. Qed.
Lemma index_inside {A} (l : list A) i x : 0 <= i -> index l i = Ok x -> i < len l.
Proof. intros Hi E. apply (index_Ok l i x Hi) in E. apply lookup_lt_Some in E. unfold len. lia. Qed.

Lemma forward_read_bits_loop n i v : forward (match n with O => false | _ => true end) (read_bits_loop n i v).
Proof.
  revert i v. induction n as [|n IH]; intros i v; cbn [read_bits_loop]; [auto with infl|].
  intros s r s' Hs. unfold bind at 1, get. unfold bind at 1, lift.
  destruct (index (br_data s) (Z.shiftr (br_pos s) 3)) as [byte|e] eqn:E.
  2:{ intros [= <- <-]. split_and!; [done|done|lia|by eapply index_error]. }
  rewrite shiftr3 in E. unfold inb in Hs. apply index_inside in E; [|apply Z.div_pos; lia].
  assert (Hp : br_pos s + 1 <= 8 * len (br_data s)) by (pose proof (Z.div_mod (br_pos s) 8); pose proof (Z.mod_pos_bound (br_pos s) 8); lia).
  assert (Hi : inb (set_pos (br_pos s + 1) s)) by (unfold inb; simpl; lia).
  unfold bind, modify. intros E'. destruct (IH _ _ _ _ _ Hi E') as (H1 & H2 & H3 & H4). simpl in *.
  split_and!; [done|done|lia|]. destruct r; [|done]. intros _. lia.
Qed.
Lemma forward_read_bits n : 0 < n -> forward true (read_bits n).
Proof.
  intros Hn. unfold read_bits. pose proof (forward_read_bits_loop (Z.to_nat n) 0 0) as Hf. by destruct (Z.to_nat n) eqn:E; [lia|].
Qed.
Lemma forward_read_any n : forward false (read_bits n).
Proof.
  unfold read_bits. pose proof (forward_read_bits_loop (Z.to_nat n) 0 0) as Hf. destruct (Z.to_nat n); [done|by apply forward_weaken].
Qed.

Lemma align_pos p : Z.land (p + 7) (Z.lnot 7) = 8 * ((p + 7) / 8).
Proof.
  replace (Z.lnot 7) with (Z.shiftl (-1) 3) by done. rewrite Z.mul_comm.
  change 8 with (2 ^ 3). rewrite <- Z.shiftl_mul_pow2, <- Z.shiftr_div_pow2 by lia.
  apply Z.bits_inj'. intros n Hn. rewrite Z.land_spec. destruct (Z.lt_ge_cases n 3).
  - rewrite !Z.shiftl_spec_low by lia. by rewrite andb_false_r.
  - rewrite !Z.shiftl_spec, Z.shiftr_spec, Z.bits_m1 by lia. rewrite andb_true_r. f_equal. lia.
Qed.
Lemma forward_read_byte : forward true read_byte_aligned.
Proof.
  intros s r s' Hs. unfold read_byte_aligned, align_to_byte. unfold bind at 1, modify at 1. unfold bind at 1, get.
  unfold inb in Hs. simpl br_pos. simpl br_data. rewrite align_pos. set (p := 8 * ((br_pos s + 7) / 8)).
  assert (Hp : br_pos s <= p <= 8 * len (br_data s)).
  { pose proof (Z.div_mod (br_pos s + 7) 8). pose proof (Z.mod_pos_bound (br_pos s + 7) 8).
    pose proof (Z.div_le_mono (br_pos s + 7) (8 * len (br_data s) + 7) 8).
    replace ((8 * len (br_data s) + 7) / 8) with (len (br_data s)) in *; [lia|]. apply Z.div_unique with 7; lia. }
  unfold bind at 1, lift. rewrite shiftr3. destruct (index (br_data s) (p / 8)) as [b|e] eqn:E.
  - apply index_inside in E; [|apply Z.div_pos; lia].
    assert (p / 8 = (br_pos s + 7) / 8) as Hd by (unfold p; rewrite Z.mul_comm; apply Z.div_mul; lia).
    intros [= <- <-]. unfold inb. simpl. split_and!; try done; try lia.
  - intros [= <- <-]. unfold inb. simpl. split_and!; [lia..|done|lia|by eapply index_error].
Qed.

Lemma forward_le16 : forward true read_le16_aligned.
Proof.
  apply forward_bind; [apply forward_read_byte|]. intros lo. apply forward_bind; [apply forward_weaken, forward_read_byte|].
  intros hi. auto with infl.
Qed.
Lemma forward_stored n out : forward false (read_stored n out).
Proof.
  revert out. induction n as [|n IH]; intros out; cbn [read_stored]; [auto with infl|].
  apply forward_bind; [apply forward_weaken, forward_read_byte|]. intros b. apply IH.
Qed.

Lemma forward_decode_loop cs n L c : forward true (decode_loop cs n L c).
Proof.
  revert L c. induction n as [|n IH]; intros L c; cbn [decode_loop]; [auto with infl|].
  apply forward_bind; [by apply forward_read_bits|]. intros b. case_match; [auto with infl|]. by apply forward_weaken.
Qed.
Lemma forward_decode cs : forward true (huff_decode cs).
Proof. apply forward_decode_loop. Qed.

(** The pure helpers raise only the two errors. *)
Lemma rbind_error {A B} (x : result A) (f : A -> result B) e :
  (forall e, x = Err e -> known_error e) -> (forall a, f a = Err e -> known_error e) -> rbind x f = Err e -> known_error e.
Proof.
  destruct x as [a|e']; simpl; intros Hx Hf E; [by apply (Hf a)|]. apply Hx. congruence.
Qed.

Lemma count_lengths_error bl ls e : count_lengths bl ls = Err e -> known_error e.
Proof.
  revert bl. induction ls as [|L ls IH]; intros bl; cbn [count_lengths]; [done|]. apply rbind_error; [|intros a; apply IH].
  unfold count_length. intros e'. case_match; [intros [= <-]; apply value_error|].
  apply rbind_error; [apply index_error|]. intros a. apply set_index_error.
Qed.
Lemma next_codes_error bl c nx bs e : next_codes bl c nx bs = Err e -> known_error e.
Proof.
  revert c nx. induction bs as [|b bs IH]; intros c nx; cbn [next_codes]; [done|].
  apply rbind_error; [apply index_error|]. intros a. apply rbind_error; [apply set_index_error|]. intros nx'. apply IH.
Qed.
Lemma assign_codes_error n ls nx cs e : assign_codes n ls nx cs = Err e -> known_error e.
Proof.
  revert n nx cs. induction ls as [|L ls IH]; intros n nx cs; cbn [assign_codes]; [done|]. case_match; [apply IH|].
  apply rbind_error; [apply index_error|]. intros a. apply rbind_error; [apply set_index_error|]. intros nx'. apply IH.
Qed.
Lemma Huffman_error ls e : Huffman ls = Err e -> known_error e.
Proof.
  unfold Huffman. apply rbind_error; [apply count_lengths_error|]. intros bl. apply rbind_error; [apply set_index_error|].
  intros bl'. apply rbind_error; [apply next_codes_error|]. intros nx. apply assign_codes_error.
Qed.
Lemma copy_back_error n src out e : copy_back n src out = Err e -> known_error e.
Proof.
  revert src out. induction n as [|n IH]; intros src out; cbn [copy_back]; [done|].
  apply rbind_error; [apply index_error|]. intros b. apply IH.
Qed.
#[export] Hint Resolve Huffman_error copy_back_error : infl.

Ltac forward_tac :=
  repeat first
    [ solve [eauto with infl]
    | match goal with
      | |- forward _ (read_bits _) => apply forward_read_any
      | |- forward _ (huff_decode _) => apply forward_weaken, forward_decode
      | |- forward _ (bind _ _) => apply forward_bind; [|intros ?]
      end
    | case_match ].

Lemma forward_back d li out : forward false (back_reference d li out).
Proof. unfold back_reference. forward_tac. Qed.
Lemma forward_code_lens idx cl : forward false (read_code_lens idx cl).
Proof. revert cl. induction idx as [|i idx IH]; intros cl; cbn [read_code_lens]; forward_tac. Qed.
Lemma forward_length_symbol h sym lens : forward false (length_symbol h sym lens).
Proof. unfold length_symbol. forward_tac. Qed.

(** A loop with a turn for every bit left, and one, does not run out. *)
Lemma forward_symbols lit dist fuel out s r s' :
  inb s -> 8 * len (br_data s) - br_pos s < Z.of_nat fuel -> read_symbols fuel lit dist out s = (r, s') ->
  inb s' /\ br_data s' = br_data s /\ br_pos s <= br_pos s' /\ match r with Ok _ => True | Err e => known_error e end.
Proof.
  revert out s. induction fuel as [|fuel IH]; intros out s Hs Hf; cbn [read_symbols]; [unfold inb in Hs; lia|].
  unfold bind at 1. destruct (huff_decode lit s) as [[sym|e] s1] eqn:E;
    destruct (forward_decode _ _ _ _ Hs E) as (H1 & H2 & H3 & H4); [|intros [= <- <-]; by split_and!].
  specialize (H4 eq_refl). assert (Hf1 : 8 * len (br_data s1) - br_pos s1 < Z.of_nat fuel) by (rewrite H2; lia).
  destruct (sym <? 256).
  { intros E'. destruct (IH _ _ H1 Hf1 E') as (H5 & H6 & H7 & H8). split_and!; [done|by rewrite H6|lia|done]. }
  destruct (sym =? 256); [intros [= <- <-]; by split_and!|].
  unfold bind. destruct (back_reference dist (sym - 257) out s1) as [[out'|e] s2] eqn:E2;
    destruct (forward_back _ _ _ _ _ _ H1 E2) as (H5 & H6 & H7 & H8); [|intros [= <- <-]; split_and!; [done|by rewrite H6|lia|done]].
  intros E'. destruct (IH out' s2 H5) with (2 := E') as (H9 & H10 & H11 & H12); [rewrite H6; lia|].
  split_and!; [done|by rewrite H10, H6|lia|done].
Qed.

Lemma forward_lengths cs h total fuel lens s r s' :
  inb s -> 8 * len (br_data s) - br_pos s < Z.of_nat fuel -> read_lengths fuel cs h total lens s = (r, s') ->
  inb s' /\ br_data s' = br_data s /\ br_pos s <= br_pos s' /\ match r with Ok _ => True | Err e => known_error e end.
Proof.
  revert lens s. induction fuel as [|fuel IH]; intros lens s Hs Hf; cbn [read_lengths]; [unfold inb in Hs; lia|].
  destruct (len (fst lens) + len (snd lens) <? total); [|intros [= <- <-]; by split_and!].
  unfold bind at 1. destruct (huff_decode cs s) as [[sym|e] s1] eqn:E;
    destruct (forward_decode _ _ _ _ Hs E) as (H1 & H2 & H3 & H4); [|intros [= <- <-]; by split_and!].
  specialize (H4 eq_refl). unfold bind. destruct (length_symbol h sym lens s1) as [[lens'|e] s2] eqn:E2;
    destruct (forward_length_symbol _ _ _ _ _ _ H1 E2) as (H5 & H6 & H7 & H8);
    [|intros [= <- <-]; split_and!; [done|by rewrite H6|lia|done]].
  intros E'. destruct (IH lens' s2 H5) with (2 := E') as (H9 & H10 & H11 & H12); [rewrite H6, H2; lia|].
  split_and!; [done|by rewrite H10, H6|lia|done].
Qed.

(** [forward] with the fuel for the bits left. *)
Definition fueled (fuel : nat) {A} (m : M BitReader A) : Prop :=
  forall s r s', inb s -> 8 * len (br_data s) - br_pos s < Z.of_nat fuel -> m s = (r, s') ->
    inb s' /\ br_data s' = br_data s /\ br_pos s <= br_pos s' /\ match r with Ok _ => True | Err e => known_error e end.

Lemma fueled_forward {A} fuel b (m : M BitReader A) : forward b m -> fueled fuel m.
Proof. intros Hm s r s' Hs _ E. destruct (Hm _ _ _ Hs E) as (H1 & H2 & H3 & H4). split_and!; [done..|by destruct r]. Qed.
Lemma fueled_bind {A B} fuel (m : M BitReader A) (f : A -> M BitReader B) :
  fueled fuel m -> (forall a, fueled fuel (f a)) -> fueled fuel (bind m f).
Proof.
  intros Hm Hf s r s' Hs Hn. unfold bind. destruct (m s) as [[a|e] s1] eqn:E; destruct (Hm _ _ _ Hs Hn E) as (H1 & H2 & H3 & H4); intros E'.
  - destruct (Hf a s1 r s' H1) as (H5 & H6 & H7 & H8); [rewrite H2; lia|done|]. split_and!; [done|by rewrite H6|lia|done].
  - injection E' as <- <-. by split_and!.
Qed.
Lemma fueled_symbols fuel lit dist out : fueled fuel (read_symbols fuel lit dist out).
Proof. intros s r s' Hs Hf E. by eapply forward_symbols. Qed.
Lemma fueled_dynamic fuel : fueled fuel (dynamic_lengths fuel).
Proof.
  unfold dynamic_lengths. do 3 (apply fueled_bind; [apply (fueled_forward _ false), forward_read_any|intros ?]).
  apply fueled_bind; [apply (fueled_forward _ false), forward_code_lens|]. intros cl.
  apply fueled_bind; [apply (fueled_forward _ false); eauto with infl|]. intros cs s r s' Hs Hf E. by eapply forward_lengths.
Qed.
Lemma fueled_block fuel bt out : fueled fuel (read_block fuel bt out).
Proof.
  unfold read_block. case_match.
  { apply fueled_bind; [apply (fueled_forward _ true), forward_le16|]. intros n.
    apply fueled_bind; [apply (fueled_forward _ true), forward_le16|]. intros ?. apply (fueled_forward _ false), forward_stored. }
  case_match; [|apply (fueled_forward _ false); auto with infl].
  apply fueled_bind; [case_match; [apply (fueled_forward _ false); auto with infl|apply fueled_dynamic]|]. intros [ll dl].
  do 2 (apply fueled_bind; [apply (fueled_forward _ false); eauto with infl|intros ?]). apply fueled_symbols.
Qed.

Lemma fueled_blocks n fuel out s r s' :
  inb s -> 8 * len (br_data s) - br_pos s < Z.of_nat n -> (n <= fuel)%nat -> read_blocks n fuel out s = (r, s') ->
  match r with Ok _ => True | Err e => known_error e end.
Proof.
  revert out s. induction n as [|n IH]; intros out s Hs Hn Hle; cbn [read_blocks]; [unfold inb in Hs; lia|].
  unfold bind at 1. destruct (read_bits 1 s) as [[f|e] s1] eqn:E1;
    destruct (forward_read_bits 1 ltac:(lia) _ _ _ Hs E1) as (H1 & H2 & H3 & H4); [|by intros [= <- <-]].
  specialize (H4 eq_refl).
  unfold bind at 1. destruct (read_bits 2 s1) as [[bt|e] s2] eqn:E2;
    destruct (forward_read_any 2 _ _ _ H1 E2) as (H5 & H6 & H7 & H8); [|by intros [= <- <-]].
  assert (Hf2 : 8 * len (br_data s2) - br_pos s2 < Z.of_nat fuel) by (rewrite H6, H2; lia).
  unfold bind. destruct (read_block fuel bt out s2) as [[out'|e] s3] eqn:E3;
    destruct (fueled_block fuel bt out s2 _ _ H5 Hf2 E3) as (H9 & H10 & H11 & H12); [|by intros [= <- <-]].
  destruct (negb (f =? 0)); [by intros [= <- <-]|]. intros E. eapply (IH out' s3); [done| |lia|exact E].
  rewrite H10, H6, H2. lia.
Qed.

(** C40: decompression of any byte string ends: it returns bytes, or raises
    the ValueError of a malformed stream or the IndexError of one that ends
    too early. *)
Theorem inflate_total data :
  (exists out, inflate data = Ok out) \/ inflate data = Err ValueError \/ inflate data = Err IndexError.
Proof.
  unfold inflate. set (fuel := S (8 * length data)).
  destruct (read_blocks fuel fuel [] (mkReader data 0)) as [r s'] eqn:E.
  assert (Hr : match r with Ok _ => True | Err e => known_error e end).
  { eapply (fueled_blocks fuel fuel); [| |done|exact E]; unfold inb, len; simpl; lia. }
  simpl. destruct r as [out|e]; [left; by exists out|]. right. destruct Hr as [->| ->]; auto.
Qed.
