(* ===== verification/InflateSpec.v ===== *)
(** * What the decompressor decodes

    The bits of a byte string, least significant first in each byte, are what
    the reader delivers.  On top of it: stored blocks, and the fixed Huffman
    code of RFC 1951 with literals and back-references. *)

From Stdlib Require Import ZArith Lia.
From stdpp Require Import base list gmap numbers strings.
From S2P Require Import Prelude Bytes Inflate InflateProps.

Local Open Scope Z_scope.

(** ** Bits *)

Definition byte_bits (b : Z) : list Z := map (fun i => Z.land (Z.shiftr b i) 1) (range 8).
Definition bits (data : bytes) : list Z := concat (map byte_bits data).
Definition bit (b : Z) : Prop := b = 0 \/ b = 1.

Fixpoint bits_val (bs : list Z) : Z :=
  match bs with
  | [] => 0
  | b :: bs' => b + 2 * bits_val bs'
  end.

(** [n] bits of a value, least significant first. *)
Fixpoint val_bits (n : nat) (v : Z) : list Z :=
  match n with
  | O => []
  | S n' => v mod 2 :: val_bits n' (v / 2)
  end.

Lemma val_bits_bits n v : Forall bit (val_bits n v).
Proof.
  revert v. induction n as [|n IH]; intros v; simpl; constructor; [|done].
  pose proof (Z.mod_pos_bound v 2). unfold bit. lia.
Qed.
Lemma length_val_bits n v : length (val_bits n v) = n.
Proof. revert v. induction n; intros v; simpl; auto. Qed.
Lemma bits_val_val_bits n v : 0 <= v < 2 ^ Z.of_nat n -> bits_val (val_bits n v) = v.
Proof.
  revert v. induction n as [|n IH]; intros v Hv; [simpl in *; lia|]. cbn [val_bits bits_val].
  rewrite Nat2Z.inj_succ, Z.pow_succ_r in Hv by lia.
  rewrite IH by (pose proof (Z.div_mod v 2); pose proof (Z.mod_pos_bound v 2); lia).
  pose proof (Z.div_mod v 2). lia.
Qed.

Lemma length_bits data : length (bits data) = (8 * length data)%nat.
Proof. induction data as [|b data IH]; [done|]. unfold bits in *. cbn [map concat]. rewrite length_app, IH. simpl. lia. Qed.

Lemma lookup_bits data p :
  bits data !! p = option_map (fun b => Z.land (Z.shiftr b (Z.of_nat (p mod 8))) 1) (data !! (p / 8)%nat).
Proof.
  revert p. induction data as [|b data IH]; intros p; [by rewrite !lookup_nil|]. unfold bits in *. cbn [map concat].
  destruct (decide (p < 8)%nat) as [Hp|Hp].
  - rewrite lookup_app_l by (simpl; lia). rewrite Nat.div_small, Nat.mod_small by done.
    do 8 (destruct p as [|p]; [done|]). lia.
  - rewrite lookup_app_r by (simpl; lia). change (length (byte_bits b)) with 8%nat. rewrite IH.
    assert (Ep : p = (p - 8 + 1 * 8)%nat) by lia.
    assert (Hd : (p / 8)%nat = S ((p - 8) / 8)) by (rewrite Ep at 1; rewrite Nat.div_add by lia; lia).
    assert (Hm : (p mod 8)%nat = ((p - 8) mod 8)%nat) by (rewrite Ep at 1; by rewrite Nat.Div0.mod_add).
    by rewrite Hd, Hm.
Qed.

(** The reader stands before the bits [bs]. *)
Definition at_bits (s : BitReader) (bs : list Z) : Prop :=
  exists pre, bits (br_data s) = pre ++ bs /\ br_pos s = len pre.

Lemma at_bits_start data : at_bits (mkReader data 0) (bits data).
Proof. by exists []. Qed.
Lemma at_bits_next s b bs : at_bits s (b :: bs) -> at_bits (set_pos (br_pos s + 1) s) bs.
Proof. intros (pre & E & Hp). exists (pre ++ [b]). simpl. rewrite E, <- (assoc_L (++)), len_app, Hp. by split. Qed.

Lemma at_bits_index s b bs : at_bits s (b :: bs) ->
  exists byte, index (br_data s) (Z.shiftr (br_pos s) 3) = Ok byte /\
    Z.land (Z.shiftr byte (Z.land (br_pos s) 7)) 1 = b.
Proof.
  intros (pre & E & Hp). assert (Hl : bits (br_data s) !! length pre = Some b) by (by rewrite E, list_lookup_middle).
  rewrite lookup_bits in Hl. rewrite Hp, shiftr3. change 7 with (Z.ones 3). rewrite Z.land_ones by lia. change (2 ^ 3) with 8.
  destruct (br_data s !! (length pre / 8)%nat) as [byte|] eqn:Eb; [|done]. simpl in Hl. injection Hl as Hb. exists byte.
  unfold len. change 8 with (Z.of_nat 8). rewrite <- Nat2Z.inj_div, <- Nat2Z.inj_mod. split; [|done].
  apply index_Ok; [lia|]. by rewrite Nat2Z.id.
Qed.


Lemma read_bits_loop_spec bs rest i v s :
  at_bits s (bs ++ rest) -> Forall bit bs -> 0 <= i -> 0 <= v < 2 ^ i ->
  read_bits_loop (length bs) i v s = (Ok (v + 2 ^ i * bits_val bs), set_pos (br_pos s + len bs) s) /\
  at_bits (set_pos (br_pos s + len bs) s) rest.
Proof.
  intros Hat Hb. revert i v s Hat. induction Hb as [|b bs Hb Hbs IH]; intros i v s Hat Hi Hv.
  { change (len (@nil Z)) with 0. cbn [length read_bits_loop bits_val]. rewrite Z.mul_0_r, !Z.add_0_r. by destruct s. }
  cbn [length read_bits_loop]. destruct (at_bits_index _ _ _ Hat) as (byte & E & Eb).
  unfold bind at 1, get. unfold bind at 1, lift. rewrite E. unfold bind, modify. rewrite Eb, lor_shiftl by done.
  assert (Hp : 2 ^ (i + 1) = 2 * 2 ^ i) by (rewrite Z.pow_add_r by lia; lia).
  destruct (IH (i + 1) (v + 2 ^ i * b) (set_pos (br_pos s + 1) s)) as [E' Hat'];
    [by eapply at_bits_next|lia|destruct Hb as [-> | ->]; lia|].
  rewrite E'. rewrite len_cons. replace (br_pos s + (1 + len bs)) with (br_pos s + 1 + len bs) by lia.
  split; [|exact Hat']. f_equal. f_equal. cbn [bits_val]. rewrite Hp. lia.
Qed.

Lemma read_bits_spec bs rest s n :
  at_bits s (bs ++ rest) -> Forall bit bs -> n = len bs ->
  exists s', read_bits n s = (Ok (bits_val bs), s') /\ at_bits s' rest /\ br_data s' = br_data s /\ br_pos s' = br_pos s + len bs.
Proof.
  intros Hat Hb ->. destruct (read_bits_loop_spec bs rest 0 0 s Hat Hb) as [E Hat']; [lia..|].
  exists (set_pos (br_pos s + len bs) s). unfold read_bits, len at 1. rewrite Nat2Z.id, E. split_and!; [|done..].
  by rewrite Z.add_0_l, Z.mul_1_l.
Qed.

(** ** Decoding a symbol *)

(** [decode_loop] on a list of bits. *)
Fixpoint decode_bits (cs : codes) (n : nat) (L code : Z) (bs : list Z) : option (Z * list Z) :=
  match n, bs with
  | S n', b :: bs' =>
      let code := Z.lor (Z.shiftl code 1) b in
      match cs !! (L, code) with
      | Some sym => Some (sym, bs')
      | None => decode_bits cs n' (L + 1) code bs'
      end
  | _, _ => None
  end.

Lemma decode_bits_app cs n L c bs sym r rest :
  decode_bits cs n L c bs = Some (sym, r) -> decode_bits cs n L c (bs ++ rest) = Some (sym, r ++ rest).
Proof.
  revert L c bs. induction n as [|n IH]; intros L c [|b bs]; simpl; try done. case_match; [by intros [= <- <-]|]. apply IH.
Qed.

Lemma decode_loop_bits cs n L c bs sym r s :
  at_bits s bs -> Forall bit bs -> decode_bits cs n L c bs = Some (sym, r) ->
  exists s', decode_loop cs n L c s = (Ok sym, s') /\ at_bits s' r /\ br_data s' = br_data s.
Proof.
  revert L c bs s. induction n as [|n IH]; intros L c [|b bs] s Hat Hb; simpl; try done.
  apply list.Forall_cons in Hb as [Hb Hbs].
  destruct (read_bits_spec [b] bs s 1 Hat) as (s1 & E & Hat1 & Hd & _); [by apply Forall_singleton|done|].
  rewrite (bind_step _ _ _ _ _ E). cbn [bits_val]. rewrite Z.mul_0_r, Z.add_0_r. case_match.
  - intros [= <- <-]. by exists s1.
  - intros Hd'. destruct (IH _ _ _ _ Hat1 Hbs Hd') as (s2 & E2 & Hat2 & Hd2). exists s2. split_and!; [done..|by rewrite Hd2].
Qed.

(** ** The fixed code of RFC 1951, 3.2.6 *)

(** [n] bits of a code, most significant first. *)
Definition code_bits (n : nat) (v : Z) : list Z := rev (val_bits n v).

Definition lit_code (sym : Z) : list Z :=
  if sym <? 144 then code_bits 8 (0x30 + sym)
  else if sym <? 256 then code_bits 9 (0x190 + (sym - 144))
  else if sym <? 280 then code_bits 7 (sym - 256)
  else code_bits 8 (0xC0 + (sym - 280)).
Definition dist_code (d : Z) : list Z := code_bits 5 d.

Definition fixed_codes (lengths : list Z) : codes := match Huffman lengths with Ok cs => cs | Err _ => ∅ end.
Definition fixed_lit : codes := fixed_codes fixed_lit_lengths.
Definition fixed_dist : codes := fixed_codes fixed_dist_lengths.
Lemma fixed_codes_ok lengths : is_ok (Huffman lengths) = true -> Huffman lengths = Ok (fixed_codes lengths).
Proof. unfold fixed_codes. by destruct (Huffman lengths). Qed.
Lemma fixed_lit_ok : Huffman fixed_lit_lengths = Ok fixed_lit.
Proof. apply fixed_codes_ok. vm_compute. reflexivity. Qed.
Lemma fixed_dist_ok : Huffman fixed_dist_lengths = Ok fixed_dist.
Proof. apply fixed_codes_ok. vm_compute. reflexivity. Qed.

Definition decodes (cs : codes) (code : Z -> list Z) (sym : Z) : bool :=
  match decode_bits cs 15 1 0 (code sym) with Some (x, []) => x =? sym | _ => false end.
Lemma fixed_lit_decodes : forallb (decodes fixed_lit lit_code) (range 288) = true.
Proof. by vm_compute. Qed.
Lemma fixed_dist_decodes : forallb (decodes fixed_dist dist_code) (range 30) = true.
Proof. by vm_compute. Qed.

Lemma decodes_spec cs code n sym rest : forallb (decodes cs code) (range n) = true -> 0 <= sym < n ->
  decode_bits cs 15 1 0 (code sym ++ rest) = Some (sym, rest).
Proof.
  intros Hall Hs. rewrite forallb_forall in Hall. specialize (Hall sym). rewrite <- list_elem_of_In in Hall.
  specialize (Hall (proj2 (elem_of_range2 0 n sym) Hs)). unfold decodes in Hall.
  destruct (decode_bits cs 15 1 0 (code sym)) as [[x [|]]|] eqn:E; try done. apply Z.eqb_eq in Hall as ->.
  by apply (decode_bits_app _ _ _ _ _ _ _ rest) in E.
Qed.

(** ** Literals and back-references *)

Inductive token : Type :=
| TLit (b : Z)
| TRef (li e ds de : Z).

Definition nthz (l : list Z) (i : Z) : Z := default 0 (l !! Z.to_nat i).
Definition ref_length (li e : Z) : Z := nthz LENGTH_BASE li + e.
Definition ref_dist (ds de : Z) : Z := nthz DIST_BASE ds + de.

Definition token_bits (t : token) : list Z :=
  match t with
  | TLit b => lit_code b
  | TRef li e ds de =>
      lit_code (257 + li) ++ val_bits (Z.to_nat (nthz LENGTH_EXTRA li)) e ++
      dist_code ds ++ val_bits (Z.to_nat (nthz DIST_EXTRA ds)) de
  end.

(** Repeating the bytes [dist] back, also those just written. *)
Fixpoint repeat_back (n : nat) (dist : Z) (out : bytes) : bytes :=
  match n with
  | O => out
  | S n' => repeat_back n' dist (out ++ [nthz out (len out - dist)])
  end.

Definition expand (out : bytes) (t : token) : bytes :=
  match t with
  | TLit b => out ++ [b]
  | TRef li e ds de => repeat_back (Z.to_nat (ref_length li e)) (ref_dist ds de) out
  end.

Definition token_ok (out : bytes) (t : token) : Prop :=
  match t with
  | TLit b => 0 <= b < 256
  | TRef li e ds de =>
      0 <= li < 29 /\ 0 <= e < 2 ^ nthz LENGTH_EXTRA li /\
      0 <= ds < 30 /\ 0 <= de < 2 ^ nthz DIST_EXTRA ds /\
      ref_dist ds de <= len out
  end.
Fixpoint tokens_ok (out : bytes) (ts : list token) : Prop :=
  match ts with
  | [] => True
  | t :: ts' => token_ok out t /\ tokens_ok (expand out t) ts'
  end.

Lemma bits_bit data : Forall bit (bits data).
Proof.
  unfold bits. apply Forall_concat, list.Forall_forall. intros l Hl. apply list_elem_of_fmap in Hl as (b & -> & _).
  unfold byte_bits. apply list.Forall_forall. intros x Hx. apply list_elem_of_fmap in Hx as (i & -> & _).
  change 1 with (Z.ones 1). rewrite Z.land_ones by lia. pose proof (Z.mod_pos_bound (Z.shiftr b i) (2 ^ 1)).
  unfold bit. change (2 ^ 1) with 2 in *. lia.
Qed.
Lemma at_bits_bit s bs : at_bits s bs -> Forall bit bs.
Proof. intros (pre & E & _). pose proof (bits_bit (br_data s)) as Hb. rewrite E, Forall_app in Hb. by destruct Hb. Qed.

Lemma decode_at cs code n sym rest s :
  forallb (decodes cs code) (range n) = true -> 0 <= sym < n -> at_bits s (code sym ++ rest) ->
  exists s', huff_decode cs s = (Ok sym, s') /\ at_bits s' rest /\ br_data s' = br_data s.
Proof.
  intros Hall Hs Hat. eapply decode_loop_bits; [exact Hat|by eapply at_bits_bit|]. by eapply decodes_spec.
Qed.

Lemma index_nthz l i : 0 <= i < len l -> index l i = Ok (nthz l i).
Proof.
  intros Hi. apply index_Ok; [lia|]. unfold nthz. destruct (l !! Z.to_nat i) eqn:E; [done|].
  apply lookup_ge_None in E. unfold len in Hi. lia.
Qed.
Lemma nthz_Forall (P : Z -> Prop) l i : Forall P l -> P 0 \/ 0 <= i < len l -> P (nthz l i).
Proof.
  intros Hl Hi. unfold nthz. destruct (l !! Z.to_nat i) eqn:E; simpl.
  - by eapply (Forall_lookup_1 P l).
  - apply lookup_ge_None in E. unfold len in Hi. destruct Hi; [done|lia].
Qed.

Lemma copy_back_spec n dist out : 0 < dist <= len out -> copy_back n (len out - dist) out = Ok (repeat_back n dist out).
Proof.
  revert out. induction n as [|n IH]; intros out Hd; [done|]. cbn [copy_back repeat_back]. rewrite index_nthz by lia. cbn [rbind].
  set (out' := out ++ [nthz out (len out - dist)]).
  assert (Hl : len out' = len out + 1) by (unfold out'; by rewrite len_app).
  replace (len out - dist + 1) with (len out' - dist) by lia. apply IH. lia.
Qed.

Lemma read_val n v rest s : 0 <= n -> 0 <= v < 2 ^ n -> at_bits s (val_bits (Z.to_nat n) v ++ rest) ->
  exists s', read_bits n s = (Ok v, s') /\ at_bits s' rest /\ br_data s' = br_data s.
Proof.
  intros Hn Hv Hat. destruct (read_bits_spec _ _ s n Hat) as (s' & E & Hat' & Hd & _).
  - apply val_bits_bits.
  - unfold len. rewrite length_val_bits. lia.
  - exists s'. rewrite bits_val_val_bits in E by (rewrite Z2Nat.id; lia). done.
Qed.

Lemma back_reference_spec li e ds de out rest s :
  token_ok out (TRef li e ds de) ->
  at_bits s (val_bits (Z.to_nat (nthz LENGTH_EXTRA li)) e ++ dist_code ds ++ val_bits (Z.to_nat (nthz DIST_EXTRA ds)) de ++ rest) ->
  exists s', back_reference fixed_dist li out s = (Ok (expand out (TRef li e ds de)), s') /\ at_bits s' rest /\ br_data s' = br_data s.
Proof.
  intros (Hli & He & Hds & Hde & Hdist) Hat.
  assert (H1 : 0 <= nthz LENGTH_EXTRA li) by (apply (nthz_Forall (fun x => 0 <= x)); [repeat constructor; lia|lia]).
  assert (H2 : 0 <= nthz DIST_EXTRA ds) by (apply (nthz_Forall (fun x => 0 <= x)); [repeat constructor; lia|lia]).
  assert (H3 : 1 <= nthz DIST_BASE ds) by (apply (nthz_Forall (fun x => 1 <= x)); [repeat constructor; lia|right; done]).
  destruct (read_val _ e _ s H1 He Hat) as (s1 & E1 & Hat1 & D1).
  destruct (decode_at fixed_dist dist_code 30 ds _ s1 fixed_dist_decodes Hds Hat1) as (s2 & E2 & Hat2 & D2).
  destruct (read_val _ de _ s2 H2 Hde Hat2) as (s3 & E3 & Hat3 & D3).
  exists s3. split_and!; [|done|by rewrite D3, D2].
  unfold back_reference. change (len LENGTH_BASE) with 29. change (len DIST_BASE) with 30.
  destruct (Z.leb_spec 29 li); [lia|]. rewrite !index_nthz by done. unfold bind at 1, lift at 1. unfold bind at 1, lift at 1.
  rewrite (bind_step _ _ _ _ _ E1), (bind_step _ _ _ _ _ E2). destruct (Z.leb_spec 30 ds); [lia|].
  rewrite !index_nthz by done. unfold bind at 1, lift at 1. unfold bind at 1, lift at 1. rewrite (bind_step _ _ _ _ _ E3).
  unfold ref_dist in Hdist. destruct (Z.ltb_spec (len out - (nthz DIST_BASE ds + de)) 0); [lia|].
  unfold lift. by rewrite copy_back_spec by lia.
Qed.

Lemma read_symbols_spec ts out rest fuel s :
  tokens_ok out ts -> at_bits s (concat (map token_bits ts) ++ lit_code 256 ++ rest) -> (length ts < fuel)%nat ->
  exists s', read_symbols fuel fixed_lit fixed_dist out s = (Ok (foldl expand out ts), s') /\ at_bits s' rest /\
    br_data s' = br_data s.
Proof.
  revert out fuel s. induction ts as [|t ts IH]; intros out fuel s Hok Hat Hf;
    (destruct fuel as [|fuel]; [simpl in Hf; lia|]); cbn [read_symbols].
  { destruct (decode_at fixed_lit lit_code 288 256 rest s fixed_lit_decodes) as (s1 & E & Hat1 & D); [lia|done|].
    exists s1. by rewrite (bind_step _ _ _ _ _ E). }
  destruct Hok as [Ht Hok]. cbn [map concat] in Hat. rewrite <- (assoc_L (++)) in Hat. cbn [length] in Hf.
  destruct t as [b|li e ds de].
  - simpl in Ht. destruct (decode_at fixed_lit lit_code 288 b _ s fixed_lit_decodes ltac:(lia) Hat) as (s1 & E & Hat1 & D).
    rewrite (bind_step _ _ _ _ _ E). destruct (Z.ltb_spec b 256); [|lia].
    destruct (IH (out ++ [b]) fuel s1 Hok Hat1) as (s2 & E2 & Hat2 & D2); [lia|]. exists s2. by rewrite D2.
  - assert (Hsym : 257 <= 257 + li < 288) by (simpl in Ht; lia). cbn [token_bits] in Hat. rewrite <- !(assoc_L (++)) in Hat.
    destruct (decode_at fixed_lit lit_code 288 (257 + li) _ s fixed_lit_decodes ltac:(lia) Hat) as (s1 & E & Hat1 & D).
    rewrite (bind_step _ _ _ _ _ E). destruct (Z.ltb_spec (257 + li) 256); [lia|]. destruct (Z.eqb_spec (257 + li) 256); [lia|].
    replace (257 + li - 257) with li by lia.
    destruct (back_reference_spec li e ds de out _ s1 Ht Hat1) as (s2 & E2 & Hat2 & D2). rewrite (bind_step _ _ _ _ _ E2).
    destruct (IH _ fuel s2 Hok Hat2) as (s3 & E3 & Hat3 & D3); [lia|]. exists s3. by rewrite D3, D2.
Qed.

Lemma token_bits_length t : (1 <= length (token_bits t))%nat.
Proof.
  assert (Hl : forall sym, (1 <= length (lit_code sym))%nat).
  { intros sym. unfold lit_code, code_bits. repeat case_match; rewrite length_rev, length_val_bits; lia. }
  destruct t; simpl; [done|]. rewrite length_app. specialize (Hl (257 + li)). lia.
Qed.
Lemma tokens_length ts : (length ts <= length (concat (map token_bits ts)))%nat.
Proof. induction ts as [|t ts IH]; simpl; [lia|]. rewrite length_app. pose proof (token_bits_length t). lia. Qed.

(** C9: a stream of one block in the fixed Huffman code decompresses to what
    RFC 1951 says: literals stand for themselves, and a back-reference repeats
    the bytes at its distance, also those it has just produced; whatever
    follows the end-of-block code is ignored. *)
Theorem inflate_fixed data ts rest :
  bits data = [1; 1; 0] ++ concat (map token_bits ts) ++ lit_code 256 ++ rest -> tokens_ok [] ts ->
  inflate data = Ok (foldl expand [] ts).
Proof.
  intros Hb Hok. unfold inflate. set (fuel := S (8 * length data)).
  pose proof (at_bits_start data) as Hat. rewrite Hb in Hat. set (s := mkReader data 0) in *.
  unfold fuel at 1. cbn [read_blocks].
  destruct (read_bits_spec [1] _ s 1 Hat) as (s1 & E1 & Hat1 & D1 & _); [apply Forall_singleton; by right|done|].
  destruct (read_bits_spec [1; 0] _ s1 2 Hat1) as (s2 & E2 & Hat2 & D2 & _); [repeat constructor; by (left + right)|done|].
  destruct (read_symbols_spec ts [] rest fuel s2 Hok Hat2) as (s3 & E3 & Hat3 & D3).
  { unfold fuel. rewrite <- length_bits, Hb, !length_app. pose proof (tokens_length ts). lia. }
  rewrite (bind_step _ _ _ _ _ E1), (bind_step _ _ _ _ _ E2). cbn [bits_val].
  change (1 + 2 * 0) with 1. change (1 + 2 * (0 + 2 * 0)) with 1.
  rewrite (bind_step _ _ s2 (foldl expand [] ts) s3); [done|].
  unfold read_block. change (1 =? 0) with false. change ((1 =? 1) || (1 =? 2)) with true. change (1 =? 1) with true. cbv iota.
  unfold bind at 1, ret. cbv beta iota. unfold bind at 1, lift at 1. rewrite fixed_lit_ok.
  unfold bind, lift. by rewrite fixed_dist_ok.
Qed.

(** Witness: the letter a, repeated four times more by a back-reference. *)
Lemma inflate_fixed_witness : inflate [0x4B; 0x04; 0x01; 0x00] = Ok [97; 97; 97; 97; 97].
Proof.
  apply (inflate_fixed [0x4B; 0x04; 0x01; 0x00] [TLit 97; TRef 1 0 0 0] [0; 0]).
  - vm_compute. reflexivity.
  - simpl. unfold ref_dist, nthz. simpl. repeat split; unfold len; simpl; lia.
Defined.
