(* ===== verification/Png.v ===== *)
(** * The PNG decoder ([kernel/gui/image/png.py])

    Chunks, scanline filters and the conversion to the pixels of a guest-backed
    surface.  [_read_chunks] is a generator whose consumer stops where it
    stops, so its chunks are a list here.  The filters of the PNG
    specification, applied by an encoder to each scanline, are taken off again
    by the decoder. *)

From Stdlib Require Import ZArith Lia.
From stdpp Require Import base list gmap numbers strings.
From S2P Require Import Prelude Bytes Pystr Inflate InflateProps InflateSpec.

Local Open Scope Z_scope.

Definition PNG_SIG : bytes := [0x89; 0x50; 0x4E; 0x47; 0x0D; 0x0A; 0x1A; 0x0A].

Definition u32_be (data : bytes) (off : Z) : result Z :=
  let? a := index data off in
  let? b := index data (off + 1) in
  let? c := index data (off + 2) in
  let? d := index data (off + 3) in
  Ok (Z.lor (Z.lor (Z.lor (Z.shiftl a 24) (Z.shiftl b 16)) (Z.shiftl c 8)) d).

(** The loop of [_read_chunks]; every chunk takes at least 12 bytes. *)
Fixpoint chunks_from (fuel : nat) (data : bytes) (off : Z) : result (list (bytes * bytes)) :=
  match fuel with
  | O => Err RuntimeError
  | S fuel' =>
      if off + 12 <=? len data then
        let? length := u32_be data off in
        let ctype := slice data (off + 4) (off + 8) in
        let body := slice data (off + 8) (off + 8 + length) in
        if beq ctype (lit "IEND") then Ok [(ctype, body)]
        else let? cs := chunks_from fuel' data (off + (8 + length + 4)) in Ok ((ctype, body) :: cs)
      else Ok []
  end.
Definition read_chunks (data : bytes) : result (list (bytes * bytes)) :=
  if negb (startswith data PNG_SIG) then Err ValueError else chunks_from (S (length data)) data 8.

(** ** Filters *)

Definition paeth (a b c : Z) : Z :=
  let p := a + b - c in
  let pa := Z.abs (p - a) in
  let pb := Z.abs (p - b) in
  let pc := Z.abs (p - c) in
  if (pa <=? pb) && (pa <=? pc) then a else if pb <=? pc then b else c.

(** The prediction for byte [x] of a row, reading what its filter reads. *)
Definition predicted (ftype bpp row_start x : Z) (out prev : bytes) : result Z :=
  let left := if bpp <=? x then index out (row_start + x - bpp) else Ok 0 in
  if ftype =? 1 then left
  else if ftype =? 2 then index prev x
  else if ftype =? 3 then
    let? l := left in let? u := index prev x in Ok (Z.shiftr (l + u) 1)
  else
    let? l := left in
    let? u := index prev x in
    let? ul := (if bpp <=? x then index prev (x - bpp) else Ok 0) in
    Ok (paeth l u ul).

(** [for x in range(stride)] *)
Fixpoint unfilter_bytes (ftype bpp row_start src_off : Z) (raw prev : bytes) (xs : list Z) (out : bytes) : result bytes :=
  match xs with
  | [] => Ok out
  | x :: xs' =>
      let? p := predicted ftype bpp row_start x out prev in
      let? r := index raw (src_off + x) in
      let? out := set_index out (row_start + x) (Z.land (r + p) 0xFF) in
      unfilter_bytes ftype bpp row_start src_off raw prev xs' out
  end.

Definition unfilter_row (ftype bpp stride row_start src_off : Z) (raw prev out : bytes) : result bytes :=
  if ftype =? 0 then Ok (slice_assign out row_start (row_start + stride) (slice raw src_off (src_off + stride)))
  else if (1 <=? ftype) && (ftype <=? 4) then unfilter_bytes ftype bpp row_start src_off raw prev (range stride) out
  else Err ValueError.

(** [for y in range(height)] *)
Fixpoint unfilter_rows (ys : list Z) (bpp stride src_off : Z) (raw prev out : bytes) : result bytes :=
  match ys with
  | [] => Ok out
  | y :: ys' =>
      let? ftype := index raw src_off in
      let src_off := src_off + 1 in
      let row_start := y * stride in
      let? out := unfilter_row ftype bpp stride row_start src_off raw prev out in
      let prev := slice out row_start (row_start + stride) in
      unfilter_rows ys' bpp stride (src_off + stride) raw prev out
  end.

Definition unfilter (raw : bytes) (width height bpp : Z) : result bytes :=
  let stride := width * bpp in
  unfilter_rows (range height) bpp stride 0 raw (zeros stride) (zeros (stride * height)).

(** ** Images *)

(** The header fields as the loop over the chunks sets them. *)
Record Header : Type := mkHeader { width : Z; height : Z; bit_depth : Z; color_type : Z }.

Definition read_IHDR (body : bytes) : result Header :=
  if len body <? 13 then Err ValueError
  else
    let? w := u32_be body 0 in
    let? h := u32_be body 4 in
    let? bd := index body 8 in
    let? ct := index body 9 in
    let? compression := index body 10 in
    let? filter_meth := index body 11 in
    let? interlace := index body 12 in
    if negb (compression =? 0) then Err NotImplementedError
    else if negb (filter_meth =? 0) then Err NotImplementedError
    else if negb (interlace =? 0) then Err NotImplementedError
    else if negb (bd =? 8) then Err NotImplementedError
    else if negb ((ct =? 0) || (ct =? 2) || (ct =? 4) || (ct =? 6)) then Err NotImplementedError
    else Ok (mkHeader w h bd ct).

Fixpoint scan_chunks (cs : list (bytes * bytes)) (hd : Header) (idat : list bytes) : result (Header * list bytes) :=
  match cs with
  | [] => Ok (hd, idat)
  | (ctype, body) :: cs' =>
      if beq ctype (lit "IHDR") then let? hd := read_IHDR body in scan_chunks cs' hd idat
      else if beq ctype (lit "IDAT") then scan_chunks cs' hd (idat ++ [body])
      else if beq ctype (lit "IEND") then Ok (hd, idat)
      else scan_chunks cs' hd idat
  end.

Definition bytes_per_pixel (ct : Z) : result Z :=
  if ct =? 0 then Ok 1
  else if ct =? 2 then Ok 3
  else if ct =? 4 then Ok 2
  else if ct =? 6 then Ok 4
  else Err NotImplementedError.

(** [SDL_Surface(w, h, host_backed=False)] *)
Record SDL_Surface : Type := mkSurface { s_w : Z; s_h : Z; s_pixels : bytes }.
Definition SDL_Surface_guest (w h : Z) : SDL_Surface := mkSurface w h (zeros (w * h * 4)).

(** Blue, green, red and alpha of pixel [i]. *)
Definition pixel_of (ct : Z) (pixels : bytes) (i : Z) : result (Z * Z * Z * Z) :=
  if ct =? 2 then
    let? r := index pixels (i * 3) in let? g := index pixels (i * 3 + 1) in let? b := index pixels (i * 3 + 2) in
    Ok (b, g, r, 0xFF)
  else if ct =? 6 then
    let? r := index pixels (i * 4) in let? g := index pixels (i * 4 + 1) in let? b := index pixels (i * 4 + 2) in
    let? a := index pixels (i * 4 + 3) in
    Ok (b, g, r, a)
  else if ct =? 0 then
    let? v := index pixels i in Ok (v, v, v, 0xFF)
  else
    let? v := index pixels (i * 2) in let? a := index pixels (i * 2 + 1) in Ok (v, v, v, a).

Definition put_pixel (px : bytes) (i : Z) (p : Z * Z * Z * Z) : result bytes :=
  let '(b, g, r, a) := p in
  let? px := set_index px (i * 4) b in
  let? px := set_index px (i * 4 + 1) g in
  let? px := set_index px (i * 4 + 2) r in
  set_index px (i * 4 + 3) a.

(** [for i in range(width * height)] *)
Fixpoint fill_pixels (ct : Z) (pixels : bytes) (is_ : list Z) (px : bytes) : result bytes :=
  match is_ with
  | [] => Ok px
  | i :: is' =>
      let? p := pixel_of ct pixels i in
      let? px := put_pixel px i p in
      fill_pixels ct pixels is' px
  end.

Definition decode_png (data : bytes) : result SDL_Surface :=
  let? cs := read_chunks data in
  let? (hd, idat) := scan_chunks cs (mkHeader 0 0 0 0) [] in
  if (width hd =? 0) || (height hd =? 0) then Err ValueError
  else match idat with
  | [] => Err ValueError
  | _ =>
      let? raw := zlib_inflate (concat idat) in
      let? bpp := bytes_per_pixel (color_type hd) in
      let? pixels := unfilter raw (width hd) (height hd) bpp in
      let s := SDL_Surface_guest (width hd) (height hd) in
      let? px := fill_pixels (color_type hd) pixels (range (width hd * height hd)) (s_pixels s) in
      Ok (mkSurface (s_w s) (s_h s) px)
  end.

(** Paeth's predictor as the PNG specification words it: of the neighbours
    left, above and upper left, the one closest to left + above - upper left,
    the first of them when several are. *)
Fixpoint closest (p best : Z) (l : list Z) : Z :=
  match l with
  | [] => best
  | v :: l' => closest p (if Z.abs (v - p) <? Z.abs (best - p) then v else best) l'
  end.
Definition paeth_predictor (left up ul : Z) : Z := closest (left + up - ul) left [up; ul].
Lemma paeth_closest a b c : paeth a b c = paeth_predictor a b c.
Proof.
  unfold paeth, paeth_predictor. cbn [closest]. set (p := a + b - c). replace (Z.abs (p - a)) with (Z.abs (a - p)) by lia. replace (Z.abs (p - b)) with (Z.abs (b - p)) by lia. replace (Z.abs (p - c)) with (Z.abs (c - p)) by lia.
  destruct (Z.ltb_spec (Z.abs (b - p)) (Z.abs (a - p)));
    repeat match goal with
    | |- context [Z.ltb ?x ?y] => destruct (Z.ltb_spec x y)
    | |- context [Z.leb ?x ?y] => destruct (Z.leb_spec x y)
    end; cbn [andb]; reflexivity || lia.
Qed.

(** The predictor of a filter type from the row itself and the row above. *)
Definition predictor (ftype bpp : Z) (row prev : bytes) (x : Z) : Z :=
  let left := if bpp <=? x then nthz row (x - bpp) else 0 in
  let up := nthz prev x in
  let ul := if bpp <=? x then nthz prev (x - bpp) else 0 in
  if ftype =? 0 then 0
  else if ftype =? 1 then left
  else if ftype =? 2 then up
  else if ftype =? 3 then (left + up) / 2
  else paeth_predictor left up ul.

Definition filter_row (ftype bpp : Z) (row prev : bytes) : bytes :=
  map (fun x => (nthz row x - predictor ftype bpp row prev x) mod 256) (range (len row)).

(** Scanlines with their filter types, below the row [prev]. *)
Fixpoint filter_rows (bpp : Z) (prev : bytes) (rows : list (Z * bytes)) : bytes :=
  match rows with
  | [] => []
  | (ftype, row) :: rows' => ftype :: filter_row ftype bpp row prev ++ filter_rows bpp row rows'
  end.

Lemma index_app_mid {A} (p l r : list A) i x : 0 <= i < len l -> index l i = Ok x -> index (p ++ l ++ r) (len p + i) = Ok x.
Proof.
  intros Hi E. apply index_Ok in E; [|lia]. pose proof (len_nonneg p). apply index_Ok; [lia|]. unfold len in *.
  rewrite lookup_app_r by lia. replace (Z.to_nat (Z.of_nat (length p) + i) - length p)%nat with (Z.to_nat i) by lia.
  by rewrite lookup_app_l by lia.
Qed.
Lemma set_app_mid {A} (p : list A) y r x : set_index (p ++ y :: r) (len p) x = Ok (p ++ x :: r).
Proof.
  pose proof (len_nonneg p). rewrite set_index_Ok by (rewrite len_app, len_cons; pose proof (len_nonneg r); lia).
  unfold len. rewrite Nat2Z.id. rewrite <- (Nat.add_0_r (length p)), insert_app_r. done.
Qed.

Lemma len_filter_row ft bpp row prev : len (filter_row ft bpp row prev) = len row.
Proof. unfold filter_row, len. rewrite length_map. unfold range. rewrite length_range2. lia. Qed.
Lemma nth_range (f : Z -> Z) n i : 0 <= i < n -> index (map f (range n)) i = Ok (f i).
Proof.
  intros Hi. apply index_Ok; [lia|]. unfold range, range2. rewrite map_map, list_lookup_fmap, lookup_seq_lt by lia.
  simpl. f_equal. f_equal. lia.
Qed.

Lemma byte_restored v p : byte_ok v -> Z.land ((v - p) mod 256 + p) 0xFF = v.
Proof.
  intros Hv. change 0xFF with (Z.ones 8). rewrite Z.land_ones by lia. change (2 ^ 8) with 256.
  rewrite Z.add_mod_idemp_l by lia. replace (v - p + p) with v by lia. apply Z.mod_small. exact Hv.
Qed.

(** A part of a row that is done. *)
Lemma nth_done (d row tl : bytes) x i : 0 <= i < x -> x <= len row ->
  index (d ++ take (Z.to_nat x) row ++ tl) (len d + i) = Ok (nthz row i).
Proof.
  intros Hi Hx. apply index_app_mid.
  - unfold len in *. rewrite length_take. lia.
  - apply index_Ok; [lia|]. rewrite lookup_take_lt by lia. apply (index_Ok row i); [lia|]. apply index_nthz. lia.
Qed.

Section row.
Context (ftype bpp stride : Z) (raw prev row : bytes) (row_start src_off : Z) (d : bytes).
Context (Hft : 1 <= ftype <= 4) (Hbpp : 1 <= bpp).
Context (Hrow : len row = stride) (Hbytes : bytes_ok row) (Hprev : len prev = stride) (Hd : len d = row_start).
Context (Hraw : forall x, 0 <= x < stride ->
  index raw (src_off + x) = Ok ((nthz row x - predictor ftype bpp row prev x) mod 256)).

Lemma predicted_spec x tl : 0 <= x < stride ->
  predicted ftype bpp row_start x (d ++ take (Z.to_nat x) row ++ tl) prev = Ok (predictor ftype bpp row prev x).
Proof.
  intros Hx. unfold predicted, predictor.
  assert (Hleft : (if bpp <=? x then index (d ++ take (Z.to_nat x) row ++ tl) (row_start + x - bpp) else Ok 0) =
                  Ok (if bpp <=? x then nthz row (x - bpp) else 0)).
  { destruct (Z.leb_spec bpp x); [|done]. replace (row_start + x - bpp) with (len d + (x - bpp)) by lia. apply nth_done; lia. }
  assert (Hup : index prev x = Ok (nthz prev x)) by (apply index_nthz; lia).
  assert (Hul : (if bpp <=? x then index prev (x - bpp) else Ok 0) = Ok (if bpp <=? x then nthz prev (x - bpp) else 0)).
  { destruct (Z.leb_spec bpp x); [|done]. apply index_nthz. lia. }
  rewrite Hleft, Hup, Hul. destruct (Z.eqb_spec ftype 0); [lia|].
  destruct (ftype =? 1); [done|]. destruct (ftype =? 2); [done|]. destruct (ftype =? 3).
  - cbn [rbind]. by rewrite Z.shiftr_div_pow2.
  - cbn [rbind]. by rewrite paeth_closest.
Qed.

Lemma unfilter_bytes_spec n x tl : Z.of_nat n = stride - x -> 0 <= x ->
  len tl >= stride - x ->
  unfilter_bytes ftype bpp row_start src_off raw prev (range2 x stride) (d ++ take (Z.to_nat x) row ++ tl) =
    Ok (d ++ row ++ drop n tl).
Proof.
  revert x tl. induction n as [|n IH]; intros x tl Hn Hx Htl.
  { rewrite range2_nil by lia. simpl. rewrite drop_0, take_ge; [done|]. unfold len in *. lia. }
  rewrite range2_cons by lia. cbn [unfilter_bytes]. rewrite predicted_spec by lia. cbn [rbind].
  rewrite Hraw by lia. cbn [rbind]. assert (Hv : row !! Z.to_nat x = Some (nthz row x)).
  { apply (index_Ok row x); [lia|]. apply index_nthz. lia. }
  rewrite byte_restored by (by eapply (Forall_lookup_1 byte_ok row)).
  destruct tl as [|y tl]; [rewrite len_nil in Htl; lia|].
  rewrite (assoc_L (++)). replace (row_start + x) with (len (d ++ take (Z.to_nat x) row)).
  2:{ rewrite len_app. unfold len in *. rewrite length_take. lia. }
  rewrite set_app_mid. cbn [rbind]. rewrite <- (assoc_L (++)).
  replace (take (Z.to_nat x) row ++ nthz row x :: tl) with (take (Z.to_nat (x + 1)) row ++ tl).
  2:{ replace (Z.to_nat (x + 1)) with (S (Z.to_nat x)) by lia. rewrite (take_S_r _ _ _ Hv). by rewrite <- (assoc_L (++)). }
  rewrite len_cons in Htl. rewrite IH by lia. done.
Qed.
End row.

Lemma filter_row_none bpp row prev : bytes_ok row -> filter_row 0 bpp row prev = row.
Proof.
  intros Hb. apply list_eq. intros i. unfold filter_row. destruct (decide (i < length row)%nat) as [Hi|Hi].
  - pose proof (nth_range (fun x => (nthz row x - predictor 0 bpp row prev x) mod 256) (len row) (Z.of_nat i)) as E.
    specialize (E ltac:(unfold len; lia)). apply index_Ok in E; [|lia]. rewrite Nat2Z.id in E. rewrite E.
    unfold nthz. rewrite Nat2Z.id. destruct (row !! i) as [v|] eqn:Ev; [|apply lookup_ge_None in Ev; lia]. simpl.
    assert (Hv : byte_ok v) by (by eapply (Forall_lookup_1 byte_ok row)). unfold byte_ok in Hv. f_equal.
    unfold predictor. simpl. rewrite Z.sub_0_r. by apply Z.mod_small.
  - rewrite !lookup_ge_None_2; [done|lia|]. rewrite length_map. unfold range. rewrite length_range2. unfold len. lia.
Qed.

Lemma unfilter_row_spec ft bpp row prev pre post d tl :
  0 <= ft <= 4 -> 1 <= bpp -> bytes_ok row -> len prev = len row -> len tl >= len row ->
  unfilter_row ft bpp (len row) (len d) (len pre) (pre ++ filter_row ft bpp row prev ++ post) prev (d ++ tl) =
    Ok (d ++ row ++ drop (length row) tl).
Proof.
  intros Hft Hbpp Hb Hp Htl. pose proof (len_nonneg row) as Hr. unfold unfilter_row. destruct (Z.eqb_spec ft 0) as [->|Hne].
  - rewrite filter_row_none, slice_middle by done.
    rewrite <- (take_drop (length row) tl) at 1. set (t1 := take (length row) tl).
    assert (Ht1 : len t1 = len row) by (unfold t1, len in *; rewrite length_take; lia).
    rewrite <- Ht1, slice_assign_mid. done.
  - destruct (Z.leb_spec 1 ft); [|lia]. destruct (Z.leb_spec ft 4); [|lia]. cbn [andb].
    pose proof (unfilter_bytes_spec ft bpp (len row) (pre ++ filter_row ft bpp row prev ++ post) prev row (len d) (len pre) d) as Hu.
    specialize (Hu ltac:(lia) Hbpp eq_refl Hb Hp eq_refl).
    change (d ++ tl) with (d ++ take (Z.to_nat 0) row ++ tl).
    apply Hu; [|unfold len; lia|lia|lia]. intros x Hx. apply index_app_mid; [by rewrite len_filter_row|].
    exact (nth_range (fun x => (nthz row x - predictor ft bpp row prev x) mod 256) (len row) x Hx).
Qed.

Lemma unfilter_rows_spec bpp stride rows prev pre d y :
  1 <= bpp -> Forall (fun r => 0 <= fst r <= 4 /\ len (snd r) = stride /\ bytes_ok (snd r)) rows ->
  len prev = stride -> len d = y * stride -> 0 <= stride -> 0 <= y ->
  unfilter_rows (range2 y (y + len rows)) bpp stride (len pre) (pre ++ filter_rows bpp prev rows) prev
    (d ++ zeros (stride * len rows)) = Ok (d ++ concat (map snd rows)).
Proof.
  intros Hbpp Hrows. revert prev pre d y. induction Hrows as [|[ft row] rows (Hft & Hs & Hb) Hrows IH];
    intros prev pre d y Hp Hd Hst Hy.
  { change (len []) with 0. rewrite Z.add_0_r, range2_nil by lia. cbn [unfilter_rows map concat]. by rewrite Z.mul_0_r. }
  pose proof (len_nonneg rows) as Hn. rewrite len_cons. rewrite range2_cons by lia. cbn [unfilter_rows filter_rows fst snd map concat] in *.
  assert (Eft : index (pre ++ ft :: filter_row ft bpp row prev ++ filter_rows bpp row rows) (len pre) = Ok ft).
  { apply index_Ok; [apply len_nonneg|]. unfold len. rewrite Nat2Z.id. by apply list_lookup_middle. }
  rewrite Eft. cbn [rbind]. set (tl := zeros (stride * (1 + len rows))).
  assert (Htl : len tl = stride * (1 + len rows)) by (unfold tl; apply len_zeros; nia).
  replace (pre ++ ft :: filter_row ft bpp row prev ++ filter_rows bpp row rows)
    with ((pre ++ [ft]) ++ filter_row ft bpp row prev ++ filter_rows bpp row rows) by (by rewrite <- (assoc_L (++))).
  replace (len pre + 1) with (len (pre ++ [ft])) by (by rewrite len_app).
  rewrite <- Hd, <- Hs. rewrite unfilter_row_spec by (try done; try lia; nia). cbn [rbind].
  rewrite slice_middle. replace (drop (length row) tl) with (zeros (stride * len rows)).
  2:{ unfold tl, zeros. rewrite drop_replicate. f_equal. unfold len in *. nia. }
  rewrite (assoc_L (++) d row). rewrite Hs.
  rewrite (assoc_L (++) (pre ++ [ft])). replace (len (pre ++ [ft]) + stride) with (len ((pre ++ [ft]) ++ filter_row ft bpp row prev)).
  2:{ rewrite (len_app (pre ++ [ft])), len_filter_row. lia. }
  replace (y + (1 + len rows)) with (y + 1 + len rows) by lia.
  rewrite (IH row ((pre ++ [ft]) ++ filter_row ft bpp row prev) (d ++ row) (y + 1)); [|done|rewrite len_app; lia|lia|lia].
  by rewrite <- (assoc_L (++)).
Qed.

(** C33: every PNG filter is undone: whatever filter type (none, sub, up,
    average or Paeth) an encoder that works by the PNG specification chose for
    each scanline, unfiltering gives back the scanlines. *)
Theorem png_unfilter width bpp rows :
  1 <= bpp -> 0 <= width ->
  Forall (fun r => 0 <= fst r <= 4 /\ len (snd r) = width * bpp /\ bytes_ok (snd r)) rows ->
  unfilter (filter_rows bpp (zeros (width * bpp)) rows) width (len rows) bpp = Ok (concat (map snd rows)).
Proof.
  intros Hb Hw Hrows. unfold unfilter, range.
  pose proof (unfilter_rows_spec bpp (width * bpp) rows (zeros (width * bpp)) [] [] 0) as E.
  rewrite Z.add_0_l in E. apply E; try done; [apply len_zeros; nia|nia].
Qed.

(** Witness: a two-pixel image of four rows, one filter type each. *)
Lemma png_unfilter_witness :
  unfilter [0; 1; 2; 3; 4; 5; 6; 1; 9; 9; 9; 0; 0; 0; 2; 1; 0; 1; 0; 1; 0; 4; 1; 1; 1; 2; 2; 2] 2 4 3 =
    Ok [1; 2; 3; 4; 5; 6; 9; 9; 9; 9; 9; 9; 10; 9; 10; 9; 10; 9; 11; 10; 11; 12; 12; 12].
Proof.
  refine (png_unfilter 2 3 [(0, [1; 2; 3; 4; 5; 6]); (1, [9; 9; 9; 9; 9; 9]); (2, [10; 9; 10; 9; 10; 9]);
                            (4, [11; 10; 11; 12; 12; 12])] _ _ _).
  - lia.
  - lia.
  - repeat constructor; simpl; unfold byte_ok; try lia.
Defined.
