(* ===== verification/Desk.v ===== *)
(** * Desktop service: sessions ([tools/desktop_service/model.py])

    The state a client session owns (views, their nodes, the event queue) and
    [Session.commit], which runs a list of JSON commands on a copy of the views
    and installs the copy when all of them are valid.  [Session] objects are
    mutated in place by the desktop too ([DeskUi]).

    A JSON number is an integer or a float; floats are the IEEE doubles of
    [SpecFloat].  A view is a record with the keys the code gives it; [restore]
    is a key that is there or not. *)

From Stdlib Require Import ZArith Lia Floats.SpecFloat.
From stdpp Require Import base list numbers strings.
From S2P Require Import Prelude Bytes Pystr Dict.

Local Open Scope Z_scope.

(** ** JSON values *)

Inductive json : Type :=
| JNull
| JBool (b : bool)
| JInt (n : Z)
| JFloat (f : spec_float)
| JStr (s : str)
| JList (l : list json)
| JDict (d : list (str * json)).

Definition jget (key : string) (d : list (str * json)) : option json := dget (lit key) d.
(** [d.get(key)] and [d.get(key, default)] *)
Definition jget_or (key : string) (dflt : json) (d : list (str * json)) : json :=
  match jget key d with Some v => v | None => dflt end.
Definition jkey (key : string) (d : list (str * json)) : json := jget_or key JNull d.

Definition is_str (j : json) (s : string) : bool :=
  match j with JStr x => beq x (lit s) | _ => false end.

Definition require (b : bool) : result unit := if b then Ok tt else Err ValueError.

Definition asbool (j : json) : result bool := match j with JBool b => Ok b | _ => Err ValueError end.
Definition asint (j : json) : result Z := match j with JInt n => Ok n | _ => Err ValueError end.
Definition aslist (j : json) : result (list json) := match j with JList l => Ok l | _ => Err ValueError end.
Definition asdict (j : json) : result (list (str * json)) := match j with JDict d => Ok d | _ => Err ValueError end.

(** ** Numbers *)

Definition float_of (n : Z) : spec_float := binary_normalize 53 1024 n 0 false.

(** [number(value, lo, hi)] for integer bounds.  The comparisons are false of
    NaN, and of the infinities for these bounds. *)
Definition number (value : json) (lo hi : Z) : bool :=
  match value with
  | JInt n => (lo <=? n) && (n <=? hi)
  | JFloat f => SFleb (float_of lo) f && SFleb f (float_of hi)
  | _ => false
  end.

Definition num_lt (a b : json) : bool :=
  match a, b with
  | JInt m, JInt n => m <? n
  | JInt m, JFloat g => SFltb (float_of m) g
  | JFloat f, JInt n => SFltb f (float_of n)
  | JFloat f, JFloat g => SFltb f g
  | _, _ => false
  end.

Definition MILLION : Z := 1000000.
Definition BILLION : Z := 1000000000.

(** ** Limits and kinds *)

Definition WIDTH : Z := 1000.
Definition HEIGHT : Z := 720.
Definition LIM_views : Z := 4.
Definition LIM_nodes : Z := 24.
Definition LIM_samples : Z := 256.
Definition LIM_commands : Z := 64.
Definition LIM_events : Z := 64.

Inductive kind : Type := KText | KButton | KCheckbox | KEntry | KSlider | KPlot | KScene | KVideo.
#[global] Instance kind_eq_dec : EqDecision kind.
Proof. solve_decision. Defined.

Definition control (k : kind) : bool :=
  match k with KButton | KCheckbox | KEntry | KSlider => true | _ => false end.
Definition visual (k : kind) : bool :=
  match k with KPlot | KScene | KVideo => true | _ => false end.

Definition kind_of (j : json) : result kind :=
  if is_str j "text" then Ok KText else if is_str j "button" then Ok KButton
  else if is_str j "checkbox" then Ok KCheckbox else if is_str j "entry" then Ok KEntry
  else if is_str j "slider" then Ok KSlider else if is_str j "plot" then Ok KPlot
  else if is_str j "scene" then Ok KScene else if is_str j "video" then Ok KVideo
  else Err ValueError.

(** ** Nodes and views *)

(** The keys a node has depend on its kind; the others stay at [JNull], [[]]
    or [false]. *)
Record node : Type := mkNode {
  n_kind : kind;
  n_text : str;
  n_enabled : bool;
  n_value : json;
  n_min : json;
  n_max : json;
  n_values : list json;
  n_vertices : list json;
  n_resource : str;
}.
Definition set_text t (n : node) := mkNode (n_kind n) t (n_enabled n) (n_value n) (n_min n) (n_max n) (n_values n) (n_vertices n) (n_resource n).
Definition set_enabled b (n : node) := mkNode (n_kind n) (n_text n) b (n_value n) (n_min n) (n_max n) (n_values n) (n_vertices n) (n_resource n).
Definition set_value v (n : node) := mkNode (n_kind n) (n_text n) (n_enabled n) v (n_min n) (n_max n) (n_values n) (n_vertices n) (n_resource n).
Definition set_values l (n : node) := mkNode (n_kind n) (n_text n) (n_enabled n) (n_value n) (n_min n) (n_max n) l (n_vertices n) (n_resource n).
Definition set_vertices l (n : node) := mkNode (n_kind n) (n_text n) (n_enabled n) (n_value n) (n_min n) (n_max n) (n_values n) l (n_resource n).

Inductive wstate : Type := Normal | Minimized | Maximized.
#[global] Instance wstate_eq_dec : EqDecision wstate.
Proof. solve_decision. Defined.

Record geometry : Type := mkGeom { gx : Z; gy : Z; gw : Z; gh : Z }.

Record view : Type := mkView {
  v_title : str;
  v_geom : geometry;
  v_visible : bool;
  v_state : wstate;
  v_restore : option geometry;
  v_nodes : list (str * node);
}.
Definition set_title t (v : view) := mkView t (v_geom v) (v_visible v) (v_state v) (v_restore v) (v_nodes v).
Definition set_geom g (v : view) := mkView (v_title v) g (v_visible v) (v_state v) (v_restore v) (v_nodes v).
Definition set_visible b (v : view) := mkView (v_title v) (v_geom v) b (v_state v) (v_restore v) (v_nodes v).
Definition set_wstate x (v : view) := mkView (v_title v) (v_geom v) (v_visible v) x (v_restore v) (v_nodes v).
Definition set_restore g (v : view) := mkView (v_title v) (v_geom v) (v_visible v) (v_state v) g (v_nodes v).
Definition set_nodes l (v : view) := mkView (v_title v) (v_geom v) (v_visible v) (v_state v) (v_restore v) l.

Definition visible (v : view) : bool :=
  v_visible v && match v_state v with Minimized => false | _ => true end.

Definition node_height (n : node) : Z := if visual (n_kind n) then 184 else 38.
Definition content_height (v : view) : Z := foldr Z.add 0 (map (fun e => node_height e.2) (v_nodes v)).

(** ** Validation *)

Definition identifier (j : json) : result str :=
  match j with
  | JStr s => let? _ := require ((0 <? len s) && (len s <=? 64)) in Ok s
  | _ => Err ValueError
  end.

Definition printable (s : str) : bool := forallb (fun c => (32 <=? c) && (c <=? 126)) s.
Definition label (j : json) : result str :=
  match j with
  | JStr s =>
      let? _ := require (len s <=? 120) in
      let? _ := require (printable s) in
      Ok s
  | _ => Err ValueError
  end.

Definition vertex_ok (v : json) : bool :=
  match v with
  | JList l => (len l =? 7) && forallb (fun n => number n (- MILLION) MILLION) (take 4 l)
                            && forallb (fun n => number n 0 1) (drop 4 l)
  | _ => false
  end.
Definition scene (vertices : json) : result (list json) :=
  let? l := aslist vertices in
  let? _ := require ((len l <=? 768) && (len l mod 3 =? 0)) in
  let? _ := require (forallb vertex_ok l) in
  Ok l.

Definition wstate_of (j : json) : result wstate :=
  if is_str j "normal" then Ok Normal else if is_str j "minimized" then Ok Minimized
  else if is_str j "maximized" then Ok Maximized else Err ValueError.

Definition view_keys : list str := map lit ["title"; "x"; "y"; "w"; "h"; "visible"; "state"]%string.
Definition geom_keys : list str := map lit ["x"; "y"; "w"; "h"]%string.

(** A key of [changes], or the value the view has: an integer. *)
Definition geom_value (key : string) (old : Z) (changes : list (str * json)) : result Z :=
  match jget key changes with Some j => asint j | None => Ok old end.

Definition fits_desktop (g : geometry) : bool :=
  ((320 <=? gw g) && (gw g <=? WIDTH) && (180 <=? gh g) && (gh g <=? HEIGHT - 44)) &&
  ((0 <=? gx g) && (gx g <=? WIDTH - gw g) && (44 <=? gy g) && (gy g <=? HEIGHT - gh g)).

(** The part of [configure] that changes the window state. *)
Definition change_state (state : wstate) (v : view) : result view :=
  let? v :=
    match v_state v, state with
    | Maximized, Maximized => Ok v
    | Maximized, _ =>
        match v_restore v with
        | Some g => Ok (set_restore None (set_geom g v))
        | None => Err KeyError
        end
    | _, _ => Ok v
    end in
  let v :=
    match v_state v, state with
    | Maximized, Maximized => v
    | _, Maximized => set_geom (mkGeom 0 44 WIDTH (HEIGHT - 44)) (set_restore (Some (v_geom v)) v)
    | _, _ => v
    end in
  Ok (set_wstate state v).

Definition configure (v : view) (changes : list (str * json)) : result view :=
  let? _ := require (forallb (fun k => bool_decide (k ∈ view_keys)) changes.*1) in
  let? v := match jget "title" changes with
            | Some j => let? t := label j in Ok (set_title t v)
            | None => Ok v
            end in
  let? v := match jget "visible" changes with
            | Some j => let? b := asbool j in Ok (set_visible b v)
            | None => Ok v
            end in
  let? state := match jget "state" changes with Some j => wstate_of j | None => Ok (v_state v) end in
  let? v := change_state state v in
  let geometry := List.filter (fun e => bool_decide (e.1 ∈ geom_keys)) changes in
  let? _ := require ((len geometry =? 0) || negb (bool_decide (state = Maximized))) in
  let g := v_geom v in
  let? x := geom_value "x" (gx g) geometry in
  let? y := geom_value "y" (gy g) geometry in
  let? w := geom_value "w" (gw g) geometry in
  let? h := geom_value "h" (gh g) geometry in
  let g := mkGeom x y w h in
  let? _ := require (fits_desktop g) in
  Ok (set_geom g v).

(** ** Events and sessions *)

Inductive event : Type :=
| EvActivate (vid nid : str)
| EvChange (vid nid : str) (value : json)
| EvClosed (vid : str)
| EvConfigured (vid : str) (g : geometry)
| EvMediaEnded (rid : str).

(** What [commit] looks at in a media resource. *)
Record resource : Type := mkResource { rs_ready : bool; rs_kind : str }.

Record Session : Type := mkSession {
  s_views : list (str * view);
  s_revision : Z;
  s_events : list (event * Z);
  s_overflow : bool;
  s_resources : list (str * resource);
}.
Definition Session_init : Session := mkSession [] 0 [] false [].
Definition put_views x (s : Session) := mkSession x (s_revision s) (s_events s) (s_overflow s) (s_resources s).

Definition emit (e : event) : M Session unit :=
  modify (fun s =>
    if len (s_events s) =? LIM_events
    then mkSession (s_views s) (s_revision s) (s_events s) true (s_resources s)
    else mkSession (s_views s) (s_revision s) (s_events s ++ [(e, s_revision s)]) (s_overflow s) (s_resources s)).

(** [poll] hands the queued events out. *)
Definition poll : M Session (list (event * Z) * Z) := fun s =>
  (Ok (s_events s, s_revision s), mkSession (s_views s) (s_revision s) [] (s_overflow s) (s_resources s)).

(** ** Commands *)

Abbreviation views := (list (str * view)).

Inductive waction : Type := FocusView | LowerView.

Definition create_view (vid : str) (c : list (str * json)) (vs : views) : result views :=
  let? _ := require (negb (dmem vid vs) && (len vs <? LIM_views)) in
  let offset := len vs * 36 in
  let? title := label (jget_or "title" (JStr vid) c) in
  let v := mkView title (mkGeom (80 + offset) (76 + offset) 640 480) true Normal None [] in
  let? changes := asdict (jget_or "properties" (JDict []) c) in
  let? v := configure v changes in
  Ok (dset vid v vs).

(** The keys each kind of node adds. *)
Definition control_fields (c : list (str * json)) (n : node) : result node :=
  if control (n_kind n) then let? b := asbool (jget_or "enabled" (JBool true) c) in Ok (set_enabled b n) else Ok n.

Definition kind_fields (c : list (str * json)) (n : node) : result node :=
  match n_kind n with
  | KCheckbox => let? b := asbool (jget_or "value" (JBool false) c) in Ok (set_value (JBool b) n)
  | KEntry => let? t := label (jget_or "value" (JStr []) c) in Ok (set_value (JStr t) n)
  | KSlider =>
      let v := jget_or "value" (JInt 0) c in
      let? _ := require (number v 0 100) in Ok (set_value v n)
  | KScene => let? l := scene (jget_or "vertices" (JList []) c) in Ok (set_vertices l n)
  | KVideo =>
      let? r := identifier (jkey "resource" c) in
      Ok (mkNode KVideo (n_text n) (n_enabled n) (n_value n) (n_min n) (n_max n) (n_values n) (n_vertices n) r)
  | KPlot =>
      let lo := jget_or "min" (JInt 0) c in
      let hi := jget_or "max" (JInt 100) c in
      let? _ := require (number lo (- BILLION) BILLION && number hi (- BILLION) BILLION && num_lt lo hi) in
      Ok (mkNode KPlot (n_text n) (n_enabled n) (n_value n) lo hi [] (n_vertices n) (n_resource n))
  | KText | KButton => Ok n
  end.

Definition is_plot (e : str * node) : bool := bool_decide (n_kind e.2 = KPlot).

Definition create_node (nid : str) (c : list (str * json)) (nodes : list (str * node)) : result (list (str * node)) :=
  let? _ := require (negb (dmem nid nodes) && (len nodes <? LIM_nodes)) in
  let? k := kind_of (jkey "kind" c) in
  let? _ := require (negb (bool_decide (k = KPlot)) || negb (existsb is_plot nodes)) in
  let? t := label (jget_or "text" (JStr []) c) in
  let? n := control_fields c (mkNode k t false JNull JNull JNull [] [] []) in
  let? n := kind_fields c n in
  Ok (dset nid n nodes).

(** [(old + values)[-256:]] *)
Definition last_samples (l : list json) : list json := slice_from l (- LIM_samples).

Definition update_node (op : json) (nid : str) (c : list (str * json)) (nodes : list (str * node)) :
    result (list (str * node)) :=
  match dget nid nodes with
  | None => Err ValueError
  | Some n =>
      if is_str op "set_text" then let? t := label (jkey "text" c) in Ok (dset nid (set_text t n) nodes)
      else if is_str op "append_data" then
        let? _ := require (bool_decide (n_kind n = KPlot)) in
        let? values := aslist (jkey "values" c) in
        let? _ := require (len values <=? LIM_samples) in
        let? _ := require (forallb (fun v => number v (- BILLION) BILLION) values) in
        Ok (dset nid (set_values (last_samples (n_values n ++ values)) n) nodes)
      else if is_str op "destroy_node" then Ok (dpop nid nodes)
      else if is_str op "set_enabled" then
        let? _ := require (control (n_kind n)) in
        let? b := asbool (jkey "enabled" c) in
        Ok (dset nid (set_enabled b n) nodes)
      else if is_str op "set_value" then
        let value := jkey "value" c in
        match n_kind n with
        | KCheckbox => let? b := asbool value in Ok (dset nid (set_value (JBool b) n) nodes)
        | KSlider => let? _ := require (number value 0 100) in Ok (dset nid (set_value value n) nodes)
        | KEntry => let? t := label value in Ok (dset nid (set_value (JStr t) n) nodes)
        | _ => Err ValueError
        end
      else if is_str op "set_scene" then
        let? _ := require (bool_decide (n_kind n = KScene)) in
        let? l := scene (jkey "vertices" c) in
        Ok (dset nid (set_vertices l n) nodes)
      else Err ValueError
  end.

(** One iteration of the loop over the commands. *)
Definition exec_command (st : views * list (waction * str)) (c : json) : result (views * list (waction * str)) :=
  let '(vs, actions) := st in
  let? c := asdict c in
  let op := jkey "op" c in
  let? vid := identifier (jkey "view" c) in
  if is_str op "create_view" then let? vs := create_view vid c vs in Ok (vs, actions)
  else
    match dget vid vs with
    | None => Err ValueError
    | Some v =>
        if is_str op "destroy_view" then Ok (dpop vid vs, actions)
        else if is_str op "configure_view" then
          let? changes := asdict (jkey "properties" c) in
          let? v := configure v changes in
          Ok (dset vid v vs, actions)
        else if is_str op "focus_view" then
          let? _ := require (visible v) in Ok (vs, actions ++ [(FocusView, vid)])
        else if is_str op "lower_view" then
          let? _ := require (visible v) in Ok (vs, actions ++ [(LowerView, vid)])
        else
          let? nid := identifier (jkey "id" c) in
          let? nodes := (if is_str op "create_node" then create_node nid c (v_nodes v)
                         else update_node op nid c (v_nodes v)) in
          Ok (dset vid (set_nodes nodes v) vs, actions)
    end.

Fixpoint exec_commands (cs : list json) (st : views * list (waction * str)) : result (views * list (waction * str)) :=
  match cs with
  | [] => Ok st
  | c :: cs' => let? st := exec_command st c in exec_commands cs' st
  end.

(** The height the content of a view must fit into. *)
Definition frame_height (v : view) : Z :=
  match v_state v, v_restore v with
  | Maximized, Some g => gh g
  | _, _ => gh (v_geom v)
  end.

(** The checks over the nodes of a view: video resources are owned, ready and
    used once. *)
Fixpoint check_nodes (resources : option (list (str * resource))) (nodes : list (str * node)) (used : list str) :
    result (list str) :=
  match nodes with
  | [] => Ok used
  | (_, n) :: nodes' =>
      if bool_decide (n_kind n = KVideo) then
        let rid := n_resource n in
        let? _ := require (match resources with
                           | Some rs => match dget rid rs with
                                        | Some r => rs_ready r && beq (rs_kind r) (lit "video")
                                        | None => false
                                        end
                           | None => false
                           end) in
        let? _ := require (negb (bool_decide (rid ∈ used))) in
        check_nodes resources nodes' (rid :: used)
      else check_nodes resources nodes' used
  end.

Fixpoint check_views (resources : option (list (str * resource))) (vs : views) (used : list str) : result (list str) :=
  match vs with
  | [] => Ok used
  | (_, v) :: vs' =>
      let? _ := require (content_height v <=? frame_height v - 62) in
      let? used := check_nodes resources (v_nodes v) used in
      check_views resources vs' used
  end.

Definition action_ok (vs : views) (a : waction * str) : bool :=
  match dget a.2 vs with Some v => visible v | None => false end.

Definition commit (revision commands : json) (resources : option (list (str * resource))) :
    M Session (list (waction * str)) := fun s =>
  let r :=
    let? rev := asint revision in
    let? _ := require (rev =? s_revision s + 1) in
    let? cs := aslist commands in
    let? _ := require ((0 <? len cs) && (len cs <=? LIM_commands)) in
    let? (vs, actions) := exec_commands cs (s_views s, []) in
    let? _ := check_views resources vs [] in
    let? _ := require (forallb (action_ok vs) actions) in
    Ok (vs, rev, actions) in
  match r with
  | Ok (vs, rev, actions) => (Ok actions, mkSession vs rev (s_events s) (s_overflow s) (s_resources s))
  | Err e => (Err e, s)
  end.

(** ** Layout *)

Fixpoint layout_from (x w y : Z) (nodes : list (str * node)) : list (str * node * (Z * Z * Z * Z)) :=
  match nodes with
  | [] => []
  | (nid, n) :: nodes' =>
      let h := if visual (n_kind n) then 172 else 26 in
      (nid, n, (x + 20, y, w - 40, h)) :: layout_from x w (y + (h + 12)) nodes'
  end.
Definition layout (v : view) : list (str * node * (Z * Z * Z * Z)) :=
  layout_from (gx (v_geom v)) (gw (v_geom v)) (gy (v_geom v) + 50) (v_nodes v).

Definition inside (x y : Z) (rect : Z * Z * Z * Z) : bool :=
  let '(rx, ry, w, h) := rect in
  (rx <=? x) && (x <? rx + w) && (ry <=? y) && (y <? ry + h).
