(* ===== verification/DeskProps.v ===== *)
(** * Properties of desktop sessions

    [session_ok] is what the service promises of a session's views: they are
    typed (every node has the values its kind needs), bounded, their windows
    lie on the desktop and their content fits.  [commit] is atomic and keeps
    it. *)

From Stdlib Require Import ZArith Lia Floats.SpecFloat.
From stdpp Require Import base list numbers strings.
From S2P Require Import Prelude Bytes Pystr Dict Desk.

Local Open Scope Z_scope.

(** ** Well-formed sessions *)

Definition ident_ok (s : str) : Prop := 0 < len s <= 64.
Definition label_ok (s : str) : Prop := len s <= 120 /\ printable s = true.
Definition sample_ok (v : json) : bool := number v (- BILLION) BILLION.

(** The value a control of each kind holds. *)
Definition value_ok (k : kind) (v : json) : Prop :=
  match k with
  | KCheckbox => exists b, v = JBool b
  | KEntry => exists t, v = JStr t /\ label_ok t
  | KSlider => number v 0 100 = true
  | _ => True
  end.

Record node_ok (n : node) : Prop := {
  nk_text : label_ok (n_text n);
  nk_value : value_ok (n_kind n) (n_value n);
  nk_enabled : n_enabled n = true -> control (n_kind n) = true;
  nk_plot : n_kind n = KPlot -> forallb sample_ok (n_values n) = true /\ len (n_values n) <= LIM_samples /\
    num_lt (n_min n) (n_max n) = true;
  nk_scene : n_kind n = KScene -> forallb vertex_ok (n_vertices n) = true /\ len (n_vertices n) <= 768 /\
    len (n_vertices n) mod 3 = 0;
  nk_video : n_kind n = KVideo -> ident_ok (n_resource n);
}.

Record nodes_ok (l : list (str * node)) : Prop := {
  ns_dict : dict_ok l;
  ns_len : len l <= LIM_nodes;
  ns_all : forall nid n, (nid, n) ∈ l -> ident_ok nid /\ node_ok n;
  ns_plot : len (List.filter is_plot l) <= 1;
}.

(** A maximized window, and no other, remembers where it was. *)
Definition restore_ok (st : wstate) (re : option geometry) : Prop :=
  match st, re with
  | Maximized, Some g => fits_desktop g = true
  | Maximized, None => False
  | _, Some _ => False
  | _, None => True
  end.

(** A window without regard to its content. *)
Record view_wf (v : view) : Prop := {
  vw_title : label_ok (v_title v);
  vw_geom : fits_desktop (v_geom v) = true;
  vw_restore : restore_ok (v_state v) (v_restore v);
  vw_nodes : nodes_ok (v_nodes v);
}.

Definition content_fits (v : view) : Prop := content_height v <= frame_height v - 62.

Record views_wf (vs : views) : Prop := {
  vs_dict : dict_ok vs;
  vs_len : len vs <= LIM_views;
  vs_all : forall vid v, (vid, v) ∈ vs -> ident_ok vid /\ view_wf v;
}.

Record session_ok (s : Session) : Prop := {
  se_views : views_wf (s_views s);
  se_content : forall vid v, (vid, v) ∈ s_views s -> content_fits v;
  se_events : len (s_events s) <= LIM_events;
}.

(** ** Reading results *)

Lemma require_Ok b u : require b = Ok u -> b = true.
Proof. unfold require. by destruct b. Qed.

Ltac inv_res :=
  repeat match goal with
  | H : rbind _ _ = Ok _ |- _ => apply rbind_Ok in H as (? & ? & H)
  | H : require _ = Ok _ |- _ => apply require_Ok in H
  | H : Ok _ = Ok _ |- _ => injection H as H; subst
  | H : Err _ = Ok _ |- _ => discriminate H
  | H : asbool ?j = Ok _ |- _ => destruct j; [discriminate H| |discriminate H..]; simpl in H
  | H : _ && _ = true |- _ => apply andb_prop in H as [? ?]
  | x : unit |- _ => destruct x
  end.

Lemma identifier_Ok j s : identifier j = Ok s -> ident_ok s.
Proof. destruct j; simpl; intros H; inv_res; unfold ident_ok; lia. Qed.
Lemma label_Ok j s : label j = Ok s -> label_ok s.
Proof. destruct j; simpl; intros H; inv_res; unfold label_ok; split; [lia|done]. Qed.
Lemma scene_Ok j l : scene j = Ok l ->
  forallb vertex_ok l = true /\ len l <= 768 /\ len l mod 3 = 0.
Proof. unfold scene. destruct j; simpl; intros H; inv_res; split_and!; [done|lia|lia]. Qed.

Create HintDb desk discriminated.
#[export] Hint Resolve identifier_Ok label_Ok scene_Ok : desk.

(** ** Dicts of nodes and views *)

Lemma dset_len {V} (k : str) (v : V) d : len (dset k v d) = if dmem k d then len d else len d + 1.
Proof.
  unfold dmem. induction d as [|[k' v'] d IH]; simpl; [done|]. case_decide; [done|].
  rewrite !len_cons, IH. destruct (dget k d); lia.
Qed.
Lemma dpop_len {V} (k : str) (d : list (str * V)) : len (dpop k d) <= len d.
Proof. unfold len. pose proof (sublist_length _ _ (dpop_sublist k d)). lia. Qed.

Lemma filter_dset_le {V} (p : str * V -> bool) k v v0 d :
  dget k d = Some v0 -> (p (k, v) = true -> p (k, v0) = true) ->
  len (List.filter p (dset k v d)) <= len (List.filter p d).
Proof.
  intros Hg Hp. induction d as [|[k' v'] d IH]; simpl in *; [done|].
  case_decide as Hk; simpl.
  - subst k'. injection Hg as ->. destruct (p (k, v)) eqn:E; [rewrite Hp by done; rewrite !len_cons; lia|].
    destruct (p (k, v0)); rewrite ?len_cons; lia.
  - specialize (IH Hg). destruct (p (k', v')); rewrite ?len_cons; lia.
Qed.
Lemma filter_dpop_le {V} (p : str * V -> bool) k d :
  len (List.filter p (dpop k d)) <= len (List.filter p d).
Proof.
  induction d as [|[k' v'] d IH]; simpl; [done|]. case_decide; simpl; [|].
  - destruct (p (k', v')); rewrite ?len_cons; lia.
  - destruct (p (k', v')); rewrite ?len_cons; lia.
Qed.

Lemma nodes_set nid n n0 l :
  nodes_ok l -> dget nid l = Some n0 -> node_ok n -> n_kind n = n_kind n0 -> nodes_ok (dset nid n l).
Proof.
  intros [Hd Hl Ha Hp] Hg Hn Hk. split.
  - by apply dset_ok.
  - rewrite dset_len. unfold dmem. by rewrite Hg.
  - intros nid' n' [[= -> ->]|Hin]%dset_elem; [|eauto]. split; [|done]. by apply dget_elem, Ha in Hg as [? _].
  - etransitivity; [|exact Hp]. eapply filter_dset_le; [exact Hg|]. unfold is_plot. simpl. by rewrite Hk.
Qed.
Lemma nodes_pop nid l : nodes_ok l -> nodes_ok (dpop nid l).
Proof.
  intros [Hd Hl Ha Hp]. split.
  - by apply dpop_ok.
  - pose proof (dpop_len nid l). lia.
  - intros nid' n' Hin%dpop_elem. eauto.
  - pose proof (filter_dpop_le is_plot nid l). lia.
Qed.
Lemma nodes_add nid n l :
  nodes_ok l -> dmem nid l = false -> len l < LIM_nodes -> ident_ok nid -> node_ok n ->
  (n_kind n = KPlot -> existsb is_plot l = false) -> nodes_ok (dset nid n l).
Proof.
  intros [Hd Hl Ha Hp] Hg Hlt Hid Hn Hplot. split.
  - by apply dset_ok.
  - rewrite dset_len, Hg. lia.
  - intros nid' n' [[= -> ->]|Hin]%dset_elem; eauto.
  - rewrite dset_fresh by (unfold dmem in Hg; by destruct (dget nid l)). rewrite List.filter_app, len_app. simpl.
    destruct (is_plot (nid, n)) eqn:E; [|change (len (A := str * node) []) with 0; lia].
    apply bool_decide_eq_true in E. specialize (Hplot E).
    assert (List.filter is_plot l = []) as ->; [|by vm_compute].
    destruct (List.filter is_plot l) as [|x l'] eqn:Ef; [done|].
    assert (In x (List.filter is_plot l)) as [Hx Hpx]%List.filter_In by (rewrite Ef; by left).
    assert (existsb is_plot l = true) by (apply existsb_exists; eauto). congruence.
Qed.

(** ** Nodes *)

Lemma forallb_Forall {A} (f : A -> bool) l : forallb f l = true <-> Forall (fun x => f x = true) l.
Proof. rewrite forallb_forall, List.Forall_forall. done. Qed.

Lemma last_samples_ok l : forallb sample_ok l = true ->
  forallb sample_ok (last_samples l) = true /\ len (last_samples l) <= LIM_samples.
Proof.
  intros Hl. unfold last_samples, slice_from. split.
  - rewrite forallb_Forall in *. by apply Forall_take, Forall_drop.
  - pose proof (len_slice_le l (- LIM_samples) (len l)) as H. pose proof (len_nonneg l).
    unfold clamp, LIM_samples in *. repeat case_match; lia.
Qed.

Lemma forallb_app_true {A} (f : A -> bool) l1 l2 :
  forallb f l1 = true -> forallb f l2 = true -> forallb f (l1 ++ l2) = true.
Proof. intros H1 H2. by rewrite forallb_app, H1, H2. Qed.

Lemma control_fields_Ok c n n' :
  control_fields c n = Ok n' -> n_enabled n = false ->
  exists b, n' = set_enabled b n /\ (b = true -> control (n_kind n) = true).
Proof.
  unfold control_fields. destruct (control (n_kind n)) eqn:E; intros H He; inv_res.
  - by eexists.
  - exists false. split; [by destruct n'; simpl in *; subst|done].
Qed.

Lemma kind_fields_Ok c k t b n' :
  kind_fields c (mkNode k t b JNull JNull JNull [] [] []) = Ok n' -> label_ok t ->
  (b = true -> control k = true) -> node_ok n' /\ n_kind n' = k.
Proof.
  intros H Ht Hb. destruct k; unfold kind_fields in H; simpl in H; inv_res; (split; [|done]); split; simpl; try done;
    eauto using label_Ok, identifier_Ok, scene_Ok; intros; split_and!; done.
Qed.

Lemma create_node_ok nid c l l' :
  nodes_ok l -> ident_ok nid -> create_node nid c l = Ok l' -> nodes_ok l'.
Proof.
  intros Hl Hid H. unfold create_node in H. inv_res.
  match goal with E : control_fields _ _ = _ |- _ => apply control_fields_Ok in E as (b & -> & Hb); [|done] end.
  match goal with E : kind_fields _ _ = _ |- _ => apply kind_fields_Ok in E as [Hn Hk]; [|by eauto with desk|done] end.
  apply nodes_add; try done; [by apply negb_true_iff|lia|].
  simpl in Hk. rewrite Hk. intros Hp. match goal with E : negb _ || negb _ = true |- _ => rewrite bool_decide_true in E by done end.
  by apply negb_true_iff.
Qed.

(** A node that changes one of its values keeps the rest. *)
Lemma node_set_value n v : node_ok n -> value_ok (n_kind n) v -> node_ok (set_value v n).
Proof. intros [] Hv. by split. Qed.

Lemma update_node_ok op nid c l l' :
  nodes_ok l -> update_node op nid c l = Ok l' -> nodes_ok l'.
Proof.
  intros Hl. unfold update_node. destruct (dget nid l) as [n|] eqn:Hg; [|done].
  assert (node_ok n) as Hn by (by apply dget_elem, (ns_all _ Hl) in Hg as [_ ?]).
  repeat case_match; intros Hres; inv_res; try (by apply nodes_pop);
    (eapply nodes_set; [done|exact Hg| |done]).
  - destruct Hn. split; simpl; eauto with desk.
  - destruct Hn as [? ? ? Hp ? ?]. split; simpl; try done. intros Hk. destruct (Hp Hk) as (Hs1 & Hs2 & Hs3).
    match goal with |- context [last_samples ?l] => destruct (last_samples_ok l) end; [by apply forallb_app_true|done].
  - destruct Hn. by split.
  - apply node_set_value; [done|]. match goal with E : n_kind n = _ |- _ => rewrite E end. by eexists.
  - apply node_set_value; [done|]. match goal with E : n_kind n = _ |- _ => rewrite E end.
    eexists. split; [done|]. eauto with desk.
  - apply node_set_value; [done|]. match goal with E : n_kind n = _ |- _ => rewrite E end. done.
  - destruct Hn. split; simpl; try done. intros _. eauto with desk.
Qed.

(** ** Windows *)

Lemma change_state_wf state v v' :
  view_wf v -> change_state state v = Ok v' ->
  view_wf v' /\ v_state v' = state /\ v_nodes v' = v_nodes v /\ frame_height v' = frame_height v /\
  v_visible v' = v_visible v.
Proof.
  intros [Ht Hg Hr Hn]. unfold change_state, frame_height. destruct v as [t g vi st re ns]; simpl in *.
  destruct st, state, re; simpl in *; try done; intros H; inv_res; (split; [by split|]); by split_and!.
Qed.

Lemma configure_wf v changes v' :
  view_wf v -> configure v changes = Ok v' -> view_wf v' /\ v_nodes v' = v_nodes v.
Proof.
  intros Hv H. unfold configure in H. inv_res.
  assert (view_wf x0 /\ v_nodes x0 = v_nodes v) as [Hv0 Hn0].
  { destruct Hv. destruct (jget "title" changes); inv_res; [|by split]. split; [|done]. split; simpl; eauto with desk. }
  assert (view_wf x1 /\ v_nodes x1 = v_nodes v) as [Hv1 Hn1].
  { destruct Hv0. destruct (jget "visible" changes); inv_res; [|by split]. split; [|done]. by split. }
  match goal with E : change_state _ _ = _ |- _ => apply change_state_wf in E as ([] & Hst & Hn3 & _); [|done] end.
  split; [|simpl; congruence]. by split.
Qed.

(** ** Commands *)

Lemma views_set vid v v0 vs :
  views_wf vs -> dget vid vs = Some v0 -> view_wf v -> views_wf (dset vid v vs).
Proof.
  intros [Hd Hl Ha] Hg Hv. split.
  - by apply dset_ok.
  - rewrite dset_len. unfold dmem. by rewrite Hg.
  - intros vid' v' [[= -> ->]|Hin]%dset_elem; [|eauto]. split; [|done]. by apply dget_elem, Ha in Hg as [? _].
Qed.

Lemma fresh_view_wf title (vs : views) :
  label_ok title -> len vs < LIM_views ->
  view_wf (mkView title (mkGeom (80 + len vs * 36) (76 + len vs * 36) 640 480) true Normal None []).
Proof.
  intros Ht Hl. pose proof (len_nonneg vs). split; simpl; [done| |done|].
  - unfold fits_desktop, WIDTH, HEIGHT, LIM_views in *. simpl. lia.
  - split; [constructor|done|by intros ? ? ?%not_elem_of_nil|done].
Qed.

Lemma create_view_ok vid c vs vs' :
  views_wf vs -> ident_ok vid -> create_view vid c vs = Ok vs' -> views_wf vs'.
Proof.
  intros [Hd Hl Ha] Hid H. unfold create_view in H. inv_res.
  match goal with E : configure _ _ = _ |- _ => apply configure_wf in E as [Hv _] end.
  - split; [by apply dset_ok| |].
    + rewrite dset_len. destruct (dmem vid vs); lia.
    + intros vid' v' [[= -> ->]|Hin]%dset_elem; eauto.
  - apply fresh_view_wf; [eauto with desk|lia].
Qed.

Lemma exec_command_wf vs acts c vs' acts' :
  views_wf vs -> exec_command (vs, acts) c = Ok (vs', acts') -> views_wf vs'.
Proof.
  intros Hvs H. unfold exec_command in H. destruct c; try done. simpl in H. inv_res.
  match goal with E : identifier _ = _ |- _ => apply identifier_Ok in E as Hid end.
  case_match; [inv_res; by eapply create_view_ok|].
  destruct (dget x vs) as [v|] eqn:Hg; [|done].
  assert (view_wf v) as Hv by (by apply dget_elem, (vs_all _ Hvs) in Hg as [_ ?]).
  case_match.
  { inv_res. destruct Hvs as [Hd Hl Ha]. split; [by apply dpop_ok| |].
    - pose proof (dpop_len x vs). lia.
    - intros vid' v' Hin%dpop_elem. eauto. }
  case_match.
  { inv_res. match goal with E : configure _ _ = _ |- _ => apply configure_wf in E as [Hv' _]; [|done] end.
    by eapply views_set. }
  case_match; [by inv_res|]. case_match; [by inv_res|]. inv_res.
  eapply views_set; [done..|]. destruct Hv as [? ? ? Hn]. split; simpl; try done.
  case_match; [eapply create_node_ok; [exact Hn| |done]; eauto with desk|by eapply update_node_ok].
Qed.

Lemma exec_commands_wf cs vs acts vs' acts' :
  views_wf vs -> exec_commands cs (vs, acts) = Ok (vs', acts') -> views_wf vs'.
Proof.
  revert vs acts. induction cs as [|c cs IH]; intros vs acts Hvs H; cbn [exec_commands] in H.
  - by injection H as -> ->.
  - apply rbind_Ok in H as ([vs1 acts1] & E & H). eapply IH; [|exact H]. by eapply exec_command_wf.
Qed.

Lemma check_views_content rs vs used used' :
  check_views rs vs used = Ok used' -> forall vid v, (vid, v) ∈ vs -> content_fits v.
Proof.
  revert used. induction vs as [|[vid v] vs IH]; intros used H; simpl in H; inv_res.
  - intros ? ? Hin. by apply not_elem_of_nil in Hin.
  - intros vid' v' [[= -> ->]|Hin]%elem_of_cons; [|eauto]. unfold content_fits. lia.
Qed.

(** All the errors are [ValueError]s, as long as the views are well formed. *)
Definition only_value {A} (r : result A) : Prop := match r with Ok _ => True | Err e => e = ValueError end.

Lemma ov_bind {A B} (r : result A) (f : A -> result B) :
  only_value r -> (forall a, r = Ok a -> only_value (f a)) -> only_value (rbind r f).
Proof. destruct r; simpl; auto. Qed.
Lemma ov_require b : only_value (require b).
Proof. by destruct b. Qed.
Lemma ov_identifier j : only_value (identifier j).
Proof. destruct j; simpl; try done. by destruct (_ && _). Qed.
Lemma ov_label j : only_value (label j).
Proof. destruct j; simpl; try done. repeat (apply ov_bind; [apply ov_require|intros ? _]). done. Qed.
Lemma ov_asbool j : only_value (asbool j). Proof. by destruct j. Qed.
Lemma ov_asint j : only_value (asint j). Proof. by destruct j. Qed.
Lemma ov_aslist j : only_value (aslist j). Proof. by destruct j. Qed.
Lemma ov_asdict j : only_value (asdict j). Proof. by destruct j. Qed.
Lemma ov_kind j : only_value (kind_of j).
Proof. unfold kind_of. by repeat case_match. Qed.
Lemma ov_wstate j : only_value (wstate_of j).
Proof. unfold wstate_of. by repeat case_match. Qed.

#[export] Hint Resolve ov_require ov_identifier ov_label ov_asbool ov_asint ov_aslist ov_asdict ov_kind ov_wstate : desk.

(** Follow the code of a validation. *)
Ltac ov :=
  repeat match goal with
  | |- only_value (Ok _) => exact I
  | |- only_value (Err ValueError) => reflexivity
  | |- only_value (rbind _ _) => apply ov_bind; [|intros ? ?]
  | |- only_value (match ?x with _ => _ end) => destruct x eqn:?
  | |- only_value _ => solve [eauto with desk]
  end.

Lemma ov_scene j : only_value (scene j).
Proof. unfold scene. ov. Qed.
#[export] Hint Resolve ov_scene : desk.

Lemma ov_geom k o c : only_value (geom_value k o c).
Proof. unfold geom_value. ov. Qed.
#[export] Hint Resolve ov_geom : desk.

Lemma ov_change_state st v : view_wf v -> only_value (change_state st v).
Proof.
  intros [_ _ Hr _]. unfold change_state. destruct (v_state v) eqn:E, st; simpl; try done; rewrite ?E; try done.
  all: by destruct (v_restore v).
Qed.

Lemma ov_configure v changes : view_wf v -> only_value (configure v changes).
Proof.
  intros Hv. unfold configure. apply ov_bind; [auto with desk|]. intros _ _.
  apply ov_bind; [ov|]. intros v1 H1. apply ov_bind; [ov|]. intros v2 H2.
  assert (view_wf v2) as Hv2.
  { destruct Hv. destruct (jget "title" changes); inv_res; destruct (jget "visible" changes); inv_res; split; simpl; eauto with desk. }
  apply ov_bind; [ov|]. intros st _. apply ov_bind; [by apply ov_change_state|]. intros v3 _. cbv zeta. ov.
Qed.

Lemma ov_exec vs acts c : views_wf vs -> only_value (exec_command (vs, acts) c).
Proof.
  intros Hvs. unfold exec_command. apply ov_bind; [auto with desk|]. intros d _. cbv zeta.
  apply ov_bind; [auto with desk|]. intros vid Hid. case_match.
  { apply ov_bind; [|by intros]. unfold create_view. apply ov_bind; [auto with desk|]. intros _ Hlt%require_Ok. cbv zeta.
    apply ov_bind; [auto with desk|]. intros t Ht. apply ov_bind; [auto with desk|]. intros ch _.
    apply ov_bind; [|by intros]. apply ov_configure, fresh_view_wf; [eauto with desk|lia]. }
  destruct (dget vid vs) as [v|] eqn:Hg; [|done].
  assert (view_wf v) as Hv by (by apply dget_elem, (vs_all _ Hvs) in Hg as [_ ?]).
  case_match; [done|]. case_match.
  { apply ov_bind; [auto with desk|]. intros ch _. apply ov_bind; [by apply ov_configure|done]. }
  case_match; [ov|]. case_match; [ov|]. apply ov_bind; [auto with desk|]. intros nid _. apply ov_bind; [|done].
  unfold create_node, control_fields, kind_fields, update_node. ov.
Qed.

Lemma ov_execs cs vs acts : views_wf vs -> only_value (exec_commands cs (vs, acts)).
Proof.
  revert vs acts. induction cs as [|c cs IH]; intros vs acts Hvs; cbn [exec_commands]; [done|].
  apply ov_bind; [by apply ov_exec|]. intros [vs1 acts1] E. apply IH. by eapply exec_command_wf.
Qed.

Lemma ov_check_nodes rs ns used : only_value (check_nodes rs ns used).
Proof. revert used. induction ns as [|[nid n] ns IH]; intros used; cbn [check_nodes]; cbv zeta; ov. Qed.
#[export] Hint Resolve ov_check_nodes : desk.
Lemma ov_check_views rs vs used : only_value (check_views rs vs used).
Proof. revert used. induction vs as [|[vid v] vs IH]; intros used; cbn [check_views]; ov. Qed.

(** A commit that is accepted, and one that is refused. *)
Lemma commit_Ok revision commands resources s actions s' :
  session_ok s -> commit revision commands resources s = (Ok actions, s') ->
  session_ok s' /\ revision = JInt (s_revision s + 1) /\ s_revision s' = s_revision s + 1 /\
  s_events s' = s_events s /\ s_resources s' = s_resources s /\ forallb (action_ok (s_views s')) actions = true.
Proof.
  intros [Hvs Hcon Hev]. unfold commit. set (r := rbind (asint revision) _).
  destruct r as [[[vs rev] acts]|e] eqn:E; [|done]. intros [= <- <-]. subst r. inv_res.
  destruct x3 as [vs1 acts1]. inv_res. destruct revision; try done. simpl in *. inv_res.
  assert (rev = s_revision s + 1) as -> by lia. split_and!; try done.
  split; simpl; [|by eapply check_views_content|done]. by eapply exec_commands_wf.
Qed.

Lemma commit_Err revision commands resources s e s' :
  session_ok s -> commit revision commands resources s = (Err e, s') -> e = ValueError /\ s' = s.
Proof.
  intros [Hvs Hcon Hev]. unfold commit. set (r := rbind (asint revision) _).
  assert (only_value r) as Hov.
  { subst r. do 2 (apply ov_bind; [auto with desk|]; intros ? _). apply ov_bind; [auto with desk|]. intros cs _.
    apply ov_bind; [auto with desk|]. intros _ _. apply ov_bind; [by apply ov_execs|]. intros [vs acts] _.
    apply ov_bind; [apply ov_check_views|]. intros ? _. apply ov_bind; [auto with desk|]. by intros. }
  destruct r as [[[vs rev] acts]|e'] eqn:E; [done|]. by intros [= <- <-].
Qed.

(** ** Main property *)

(** C15: [commit] is atomic and typed: on a well-formed session it either raises
    ValueError and leaves the session exactly as it was, or installs new views
    under the next revision number, and these are well formed again (bounded
    numbers of views, nodes and samples, every node with the values its kind
    needs, every window on the desktop, all content inside its window); the
    window actions it returns are for views that exist and are visible. *)
Theorem desk_commit_typed revision commands resources s :
  session_ok s ->
  let '(r, s') := commit revision commands resources s in
  match r with
  | Ok actions => session_ok s' /\ revision = JInt (s_revision s + 1) /\ s_revision s' = s_revision s + 1 /\
      s_events s' = s_events s /\ s_resources s' = s_resources s /\
      Forall (fun a => exists v, dget a.2 (s_views s') = Some v /\ visible v = true) actions
  | Err e => e = ValueError /\ s' = s
  end.
Proof.
  intros Hs. destruct (commit revision commands resources s) as [[actions|e] s'] eqn:E; [|by eapply commit_Err].
  destruct (commit_Ok _ _ _ _ _ _ Hs E) as (H1 & H2 & H3 & H4 & H5 & H6). split_and!; try done.
  rewrite forallb_Forall in H6. eapply Forall_impl; [exact H6|]. intros a Ha. unfold action_ok in Ha.
  destruct (dget a.2 (s_views s')) as [v|]; [by exists v|done].
Qed.

Lemma Session_init_ok : session_ok Session_init.
Proof.
  split; simpl; [|by intros ? ? ?%not_elem_of_nil|done].
  split; [constructor|done|by intros ? ? ?%not_elem_of_nil].
Qed.

(** A window with a slider and a checkbox, then brought to the front. *)
Definition demo_commands : list json :=
  let op (name : string) rest := JDict ((lit "op", JStr (lit name)) :: (lit "view", JStr (lit "main")) :: rest) in
  [op "create_view"%string [(lit "title", JStr (lit "Demo")); (lit "properties", JDict [(lit "w", JInt 400)])];
   op "create_node"%string [(lit "id", JStr (lit "vol")); (lit "kind", JStr (lit "slider")); (lit "value", JInt 30)];
   op "create_node"%string [(lit "id", JStr (lit "on")); (lit "kind", JStr (lit "checkbox"))];
   op "focus_view"%string []].
Definition demo_session : Session := snd (commit (JInt 1) (JList demo_commands) None Session_init).

Lemma desk_commit_typed_witness :
  commit (JInt 1) (JList demo_commands) None Session_init = (Ok [(FocusView, lit "main")], demo_session) /\
  session_ok demo_session.
Proof.
  assert (commit (JInt 1) (JList demo_commands) None Session_init = (Ok [(FocusView, lit "main")], demo_session)) as E
    by (by vm_compute).
  split; [exact E|].
  pose proof (desk_commit_typed (JInt 1) (JList demo_commands) None Session_init Session_init_ok) as H.
  rewrite E in H. exact (proj1 H).
Defined.
