(* ===== verification/DeskUi.v ===== *)
(** * Desktop service: windows and input ([tools/desktop_service/model.py],
    [server.py])

    The desktop keeps the sessions of its clients, which are objects shared
    with the server ([d_objs], by reference), the stack of their windows, and
    the targets of the interaction in progress.  Input events come from the
    display backend. *)

From Stdlib Require Import ZArith Lia Floats.SpecFloat.
From stdpp Require Import base list numbers strings.
From S2P Require Import Prelude Bytes Pystr Dict Desk.

Local Open Scope Z_scope.

Abbreviation wref := (Z * str)%type.
Abbreviation nref := (Z * str * str)%type.

Record Desktop : Type := mkDesktop {
  d_objs : list (Z * Session);
  d_sessions : list Z;
  d_stack : list wref;
  d_hover : option nref;
  d_pressed : option nref;
  d_focus : option nref;
  d_drag : option (wref * Z * Z);
  d_resize : option wref;
  d_dirty : bool;
  d_running : bool;
}.
Definition Desktop_init : Desktop := mkDesktop [] [] [] None None None None None true true.
Definition put_objs x (d : Desktop) := mkDesktop x (d_sessions d) (d_stack d) (d_hover d) (d_pressed d) (d_focus d) (d_drag d) (d_resize d) (d_dirty d) (d_running d).
Definition put_sessions x (d : Desktop) := mkDesktop (d_objs d) x (d_stack d) (d_hover d) (d_pressed d) (d_focus d) (d_drag d) (d_resize d) (d_dirty d) (d_running d).
Definition put_stack x (d : Desktop) := mkDesktop (d_objs d) (d_sessions d) x (d_hover d) (d_pressed d) (d_focus d) (d_drag d) (d_resize d) (d_dirty d) (d_running d).
Definition put_hover x (d : Desktop) := mkDesktop (d_objs d) (d_sessions d) (d_stack d) x (d_pressed d) (d_focus d) (d_drag d) (d_resize d) (d_dirty d) (d_running d).
Definition put_pressed x (d : Desktop) := mkDesktop (d_objs d) (d_sessions d) (d_stack d) (d_hover d) x (d_focus d) (d_drag d) (d_resize d) (d_dirty d) (d_running d).
Definition put_focus x (d : Desktop) := mkDesktop (d_objs d) (d_sessions d) (d_stack d) (d_hover d) (d_pressed d) x (d_drag d) (d_resize d) (d_dirty d) (d_running d).
Definition put_drag x (d : Desktop) := mkDesktop (d_objs d) (d_sessions d) (d_stack d) (d_hover d) (d_pressed d) (d_focus d) x (d_resize d) (d_dirty d) (d_running d).
Definition put_resize x (d : Desktop) := mkDesktop (d_objs d) (d_sessions d) (d_stack d) (d_hover d) (d_pressed d) (d_focus d) (d_drag d) x (d_dirty d) (d_running d).
Definition put_dirty (d : Desktop) := mkDesktop (d_objs d) (d_sessions d) (d_stack d) (d_hover d) (d_pressed d) (d_focus d) (d_drag d) (d_resize d) true (d_running d).
Definition put_running x (d : Desktop) := mkDesktop (d_objs d) (d_sessions d) (d_stack d) (d_hover d) (d_pressed d) (d_focus d) (d_drag d) (d_resize d) (d_dirty d) x.

(** ** Access to the sessions *)

Definition view_of (d : Desktop) (r : wref) : option view :=
  match dget r.1 (d_objs d) with Some s => dget r.2 (s_views s) | None => None end.
Definition node_of (d : Desktop) (t : nref) : option node :=
  match view_of d t.1 with Some v => dget t.2 (v_nodes v) | None => None end.

(** [s.views[vid]] and [s.views[vid]["nodes"][nid]] *)
Definition get_view (r : wref) : M Desktop view := fun d =>
  match view_of d r with Some v => (Ok v, d) | None => (Err KeyError, d) end.
Definition get_node (t : nref) : M Desktop node := fun d =>
  match node_of d t with Some n => (Ok n, d) | None => (Err KeyError, d) end.

Definition on_session {A} (s : Z) (m : M Session A) : M Desktop A := fun d =>
  match dget s (d_objs d) with
  | Some se => let (a, se') := m se in (a, put_objs (dset s se' (d_objs d)) d)
  | None => (Err AttributeError, d)
  end.

(** Updates of a view and of a node in place. *)
Definition set_view (r : wref) (v : view) : M Desktop unit :=
  on_session r.1 (modify (fun se => put_views (dset r.2 v (s_views se)) se)).
Definition put_node (t : nref) (n : node) : M Desktop unit :=
  let! v := get_view t.1 in set_view t.1 (set_nodes (dset t.2 n (v_nodes v)) v).

Definition emit_to (s : Z) (e : event) : M Desktop unit := on_session s (emit e).
Definition make_dirty : M Desktop unit := modify put_dirty.

(** ** [sync] *)

Definition in_views (d : Desktop) (r : wref) : bool :=
  bool_decide (r.1 ∈ d_sessions d) && match view_of d r with Some _ => true | None => false end.

Definition add_missing (stack : list wref) (r : wref) : list wref :=
  if bool_decide (r ∈ stack) then stack else stack ++ [r].

Definition all_windows (d : Desktop) : list wref :=
  concat (map (fun s => match dget s (d_objs d) with
                        | Some se => map (pair s) (s_views se).*1
                        | None => []
                        end) (d_sessions d)).

(** A target survives [sync]: it is a window on the stack that is visible and,
    for a drag, in the normal state; for the others, an enabled node. *)
Definition window_ok (d : Desktop) (r : wref) : bool :=
  bool_decide (r ∈ d_stack d) && match view_of d r with Some v => visible v | None => false end.
Definition drag_ok (d : Desktop) (r : wref) : bool :=
  window_ok d r && match view_of d r with Some v => bool_decide (v_state v = Normal) | None => false end.
Definition target_ok (d : Desktop) (t : nref) : bool :=
  window_ok d t.1 && match node_of d t with Some n => n_enabled n | None => false end.

Definition keep_if {A} (p : A -> bool) (o : option A) : option A :=
  match o with Some x => if p x then Some x else None | None => None end.

Definition sync (d : Desktop) : Desktop :=
  let d := put_stack (fold_left add_missing (all_windows d) (List.filter (in_views d) (d_stack d))) d in
  let d := put_hover (keep_if (target_ok d) (d_hover d)) d in
  let d := put_pressed (keep_if (target_ok d) (d_pressed d)) d in
  let d := put_focus (keep_if (target_ok d) (d_focus d)) d in
  let d := put_drag (keep_if (fun t => drag_ok d t.1.1) (d_drag d)) d in
  let d := put_resize (keep_if (drag_ok d) (d_resize d)) d in
  put_dirty d.

(** ** Windows *)

(** [[(s, v) for s, v in self.stack if visible(s.views[v])]] *)
Fixpoint visible_of (d : Desktop) (l : list wref) : result (list wref) :=
  match l with
  | [] => Ok []
  | r :: l' =>
      match view_of d r with
      | None => Err KeyError
      | Some v => let? rest := visible_of d l' in Ok (if visible v then r :: rest else rest)
      end
  end.
Definition visible_stack : M Desktop (list wref) := fun d => (visible_of d (d_stack d), d).

(** [list.remove]: the first occurrence, or an error. *)
Fixpoint list_remove (r : wref) (l : list wref) : result (list wref) :=
  match l with
  | [] => Err ValueError
  | x :: l' => if decide (x = r) then Ok l' else let? l' := list_remove r l' in Ok (x :: l')
  end.

Definition window_action (session : Z) (action : waction) (vid : str) : M Desktop unit :=
  let! st := gets d_stack in
  let! st := lift (list_remove (session, vid) st) in
  modify (put_stack (match action with FocusView => st ++ [(session, vid)] | LowerView => (session, vid) :: st end)) ;;;
  modify (fun d => put_pressed None (put_focus None d)) ;;;
  make_dirty.

(** The first enabled control under the point. *)
Fixpoint node_at (x y : Z) (l : list (str * node * (Z * Z * Z * Z))) : option str :=
  match l with
  | [] => None
  | (nid, n, rect) :: l' =>
      if control (n_kind n) && n_enabled n && inside x y rect then Some nid else node_at x y l'
  end.

Definition frame (v : view) : Z * Z * Z * Z :=
  (gx (v_geom v), gy (v_geom v), gw (v_geom v), gh (v_geom v)).

Fixpoint hit_in (d : Desktop) (x y : Z) (l : list wref) : result (option (wref * option str)) :=
  match l with
  | [] => Ok None
  | r :: l' =>
      match view_of d r with
      | None => Err KeyError
      | Some v => if inside x y (frame v) then Ok (Some (r, node_at x y (layout v))) else hit_in d x y l'
      end
  end.
Definition hit (x y : Z) : M Desktop (option (wref * option str)) :=
  let! vs := visible_stack in
  fun d => (hit_in d x y (rev vs), d).

(** What a client sees of its session ([describe]). *)
Record described : Type := mkDescribed {
  ds_view : view;
  ds_focused : bool;
  ds_nodes : list (str * node * (Z * Z * Z * Z) * bool);
}.
Definition describe (session : Z) : M Desktop (Z * list (str * described) * list str) :=
  let! vs := visible_stack in
  let top := last vs in
  fun d =>
    match dget session (d_objs d) with
    | None => (Err AttributeError, d)
    | Some se =>
        let one (e : str * view) :=
          (e.1, mkDescribed e.2 (bool_decide (top = Some (session, e.1)))
                  (map (fun t => (t.1.1, set_vertices [] t.1.2, t.2,
                                  bool_decide (d_focus d = Some (session, e.1, t.1.1)))) (layout e.2))) in
        (Ok (s_revision se, map one (s_views se), map snd (List.filter (fun r => r.1 =? session) (d_stack d))), d)
    end.

(** ** Controls *)

Definition truthy (j : json) : bool :=
  match j with
  | JNull => false
  | JBool b => b
  | JInt n => negb (n =? 0)
  | JFloat f => negb (SFeqb f (float_of 0))
  | JStr s => negb (len s =? 0)
  | JList l => negb (len l =? 0)
  | JDict d => negb (len d =? 0)
  end.

Definition changed (t : nref) : M Desktop unit :=
  let! n := get_node t in
  emit_to t.1.1 (EvChange t.1.2 t.2 (n_value n)) ;;;
  make_dirty.

Definition activate (t : nref) : M Desktop unit :=
  let! n := get_node t in
  match n_kind n with
  | KCheckbox => put_node t (set_value (JBool (negb (truthy (n_value n)))) n) ;;; changed t
  | KButton => emit_to t.1.1 (EvActivate t.1.2 t.2)
  | _ => ret tt
  end.

(** [round(max(0, min(100, num / den)))], the quotient rounded half to even.
    The window is at most 1000 wide, so that the float quotient rounds like the
    exact one. *)
Definition round_half_even (num den : Z) : Z :=
  let q := num / den in
  let r := num mod den in
  if 2 * r <? den then q else if den <? 2 * r then q + 1 else if Z.even q then q else q + 1.
Definition percent (num den : Z) : Z :=
  if num <=? 0 then 0 else if 100 * den <=? num then 100 else round_half_even num den.

(** [value != node["value"]] for an integer [value]. *)
Definition same_number (value : Z) (j : json) : bool :=
  match j with
  | JInt n => value =? n
  | JBool b => value =? Z.b2z b
  | JFloat f => SFeqb (float_of value) f
  | _ => false
  end.

Definition slider (t : nref) (x : Z) : M Desktop unit :=
  let! v := get_view t.1 in
  let den := gw (v_geom v) - 40 in
  if den =? 0 then raise ZeroDivisionError
  else
    let num := (x - gx (v_geom v) - 20) * 100 in
    let value := if den <? 0 then percent (- num) (- den) else percent num den in
    let! n := get_node t in
    if same_number value (n_value n) then ret tt
    else put_node t (set_value (JInt value) n) ;;; make_dirty.

(** [max(0, min(100, n["value"] + d))] *)
Definition nudge (d : Z) (j : json) : result json :=
  match j with
  | JInt n => Ok (JInt (Z.max 0 (Z.min 100 (n + d))))
  | JBool b => Ok (JInt (Z.max 0 (Z.min 100 (Z.b2z b + d))))
  | JFloat f =>
      let g := SFadd 53 1024 f (float_of d) in
      Ok (if SFltb g (float_of 100) then (if SFltb (float_of 0) g then JFloat g else JInt 0) else JInt 100)
  | _ => Err TypeError
  end.

(** ** Input *)

(** An event of the display backend, with the defaults of its optional keys. *)
Record ievent : Type := mkEvent {
  e_kind : Z;
  e_x : Z;
  e_y : Z;
  e_button : option Z;
  e_code : option Z;
  e_mod : Z;
  e_text : str;
}.

Definition nref_of (h : wref * option str) : option nref :=
  match h.2 with Some nid => Some (h.1, nid) | None => None end.

Definition drag_to (r : wref) (dx dy x y : Z) : M Desktop unit :=
  let! v := get_view r in
  let g := v_geom v in
  set_view r (set_geom (mkGeom (Z.max 0 (Z.min (WIDTH - gw g) (x - dx)))
                               (Z.max 44 (Z.min (HEIGHT - gh g) (y - dy))) (gw g) (gh g)) v) ;;;
  make_dirty.

Definition resize_to (r : wref) (x y : Z) : M Desktop unit :=
  let! v := get_view r in
  let g := v_geom v in
  set_view r (set_geom (mkGeom (gx g) (gy g)
      (Z.max 320 (Z.min (WIDTH - gx g) (x - gx g + 1)))
      (Z.max 180 (Z.max (content_height v + 62) (Z.min (HEIGHT - gy g) (y - gy g + 1))))) v) ;;;
  make_dirty.

Definition drag_slider (t : nref) (x : Z) : M Desktop unit :=
  let! n := get_node t in
  if bool_decide (n_kind n = KSlider) then slider t x else ret tt.

Definition on_motion (x y : Z) : M Desktop unit :=
  let! drag := gets d_drag in
  match drag with Some (r, dx, dy) => drag_to r dx dy x y | None => ret tt end ;;;
  let! resize := gets d_resize in
  match resize with Some r => resize_to r x y | None => ret tt end ;;;
  let! pressed := gets d_pressed in
  match pressed with Some t => drag_slider t x | None => ret tt end ;;;
  let! h := hit x y in
  let hover := match h with Some h => nref_of h | None => None end in
  let! old := gets d_hover in
  if bool_decide (hover = old) then ret tt
  else modify (put_hover hover) ;;; make_dirty.

(** A press on a window: close box, title bar, resize corner or control. *)
Definition press_at (r : wref) (nid : option str) (x y : Z) : M Desktop unit :=
  let! v := get_view r in
  let g := v_geom v in
  if inside x y (gx g + gw g - 38, gy g, 38, 32) then
    on_session r.1 (modify (fun se => put_views (dpop r.2 (s_views se)) se)) ;;;
    emit_to r.1 (EvClosed r.2) ;;;
    modify sync
  else if (y <? gy g + 32) && bool_decide (v_state v = Normal) then
    modify (put_drag (Some (r, x - gx g, y - gy g)))
  else if (gx g + gw g - 14 <=? x) && (gy g + gh g - 14 <=? y) && bool_decide (v_state v = Normal) then
    modify (put_resize (Some r))
  else
    match nid with
    | None => ret tt
    | Some nid =>
        modify (fun d => put_pressed (Some (r, nid)) (put_focus (Some (r, nid)) d)) ;;;
        drag_slider (r, nid) x
    end.

Definition press_window (r : wref) (nid : option str) (x y : Z) : M Desktop unit :=
  let! st := gets d_stack in
  let! st := lift (list_remove r st) in
  modify (put_stack (st ++ [r])) ;;;
  press_at r nid x y.

Definition on_press (x y : Z) : M Desktop unit :=
  let! h := hit x y in
  modify (fun d => put_pressed None (put_focus None d)) ;;;
  match h with Some (r, nid) => press_window r nid x y | None => ret tt end ;;;
  make_dirty.

Definition on_release (x y : Z) : M Desktop unit :=
  let! d := get in
  let target := match d_drag d with Some (r, _, _) => Some r | None => d_resize d end in
  match target with
  | Some r => let! v := get_view r in emit_to r.1 (EvConfigured r.2 (v_geom v))
  | None => ret tt
  end ;;;
  match d_pressed d with
  | None => ret tt
  | Some t =>
      let! n := get_node t in
      (if bool_decide (n_kind n = KSlider) then changed t else ret tt) ;;;
      let! h := hit x y in
      if bool_decide (h = Some (t.1, Some t.2)) then activate t else ret tt
  end ;;;
  modify (fun d => put_pressed None (put_drag None (put_resize None d))) ;;;
  make_dirty.

Fixpoint position (t : nref) (l : list nref) : option Z :=
  match l with
  | [] => None
  | x :: l' => if decide (x = t) then Some 0 else match position t l' with Some i => Some (1 + i) | None => None end
  end.

Definition focusable (r : wref) (v : view) : list nref :=
  map (fun e => (r, e.1)) (List.filter (fun e => control (n_kind e.2) && n_enabled e.2) (v_nodes v)).

Definition key_entry (t : nref) (n : node) (code : option Z) (text : str) : M Desktop unit :=
  match n_value n with
  | JStr old =>
      let new := if bool_decide (code = Some 8) then slice old 0 (-1)
                 else if printable text then slice_to (old ++ text) 120 else old in
      if beq old new then ret tt
      else put_node t (set_value (JStr new) n) ;;; changed t
  | _ => raise TypeError
  end.

Definition key_slider (t : nref) (n : node) (d : Z) : M Desktop unit :=
  let! v := lift (nudge d (n_value n)) in
  put_node t (set_value v n) ;;; changed t.

Definition KEY_LEFT : Z := 0x40000050.
Definition KEY_RIGHT : Z := 0x4000004F.

Definition on_key (code : option Z) (mod_ : Z) (text : str) (r : wref) : M Desktop unit :=
  let! v := get_view r in
  let buttons := focusable r v in
  let! focus := gets d_focus in
  if bool_decide (code = Some 9) && negb (len buttons =? 0) then
    let step := if Z.land mod_ 3 =? 0 then 1 else -1 in
    let idx := match (match focus with Some t => position t buttons | None => None end) with
               | Some i => i
               | None => if step =? -1 then 0 else -1
               end in
    let! t := lift (index buttons ((idx + step) mod len buttons)) in
    modify (put_focus (Some t)) ;;;
    make_dirty
  else
    match focus with
    | Some t =>
        if bool_decide (t ∈ buttons) then
          let! n := get_node t in
          if bool_decide (n_kind n = KEntry) then key_entry t n code text
          else if bool_decide (n_kind n = KSlider) && bool_decide (code = Some KEY_LEFT) then key_slider t n (-1)
          else if bool_decide (n_kind n = KSlider) && bool_decide (code = Some KEY_RIGHT) then key_slider t n 1
          else if bool_decide (code = Some 13) || bool_decide (code = Some 32) then activate t
          else ret tt
        else ret tt
    | None => ret tt
    end.

Definition input (e : ievent) : M Desktop unit :=
  if e_kind e =? 6 then modify (put_running false)
  else if e_kind e =? 3 then on_motion (e_x e) (e_y e)
  else if (e_kind e =? 4) && bool_decide (e_button e = Some 1) then on_press (e_x e) (e_y e)
  else if (e_kind e =? 5) && bool_decide (e_button e = Some 1) then on_release (e_x e) (e_y e)
  else if e_kind e =? 1 then
    let! vs := visible_stack in
    match last vs with
    | Some r => on_key (e_code e) (e_mod e) (e_text e) r
    | None => ret tt
    end
  else ret tt.

(** ** The server's operations *)

(** A client's session joins the desktop ([hello]) and leaves it. *)
Definition join (s : Z) : M Desktop unit :=
  modify (fun d => put_sessions (d_sessions d ++ [s]) (put_objs (dset s Session_init (d_objs d)) d)).

Fixpoint remove_first (s : Z) (l : list Z) : list Z :=
  match l with [] => [] | x :: l' => if x =? s then l' else x :: remove_first s l' end.

Definition leave (s : Z) : M Desktop unit :=
  modify (fun d => put_sessions (remove_first s (d_sessions d)) d) ;;;
  modify sync.

(** [dispatch] of the [commit] request. *)
Definition commit_request (s : Z) (revision commands : json) : M Desktop Z :=
  let! actions := on_session s (fun se => commit revision commands (Some (s_resources se)) se) in
  modify sync ;;;
  for_each actions (fun a => window_action s a.1 a.2) ;;;
  on_session s (gets s_revision).

Definition poll_request (s : Z) : M Desktop (list (event * Z) * Z) := on_session s poll.
