(* ===== verification/DeskUiProps.v ===== *)
(** * Properties of the desktop

    [desk_ok] is the invariant of the desktop between two requests: the stack
    holds every window of every session exactly once, and the targets of the
    interaction in progress are still there.  Every request and every input
    event keeps it and, from it, input never raises. *)

From Stdlib Require Import ZArith Lia Floats.SpecFloat.
From stdpp Require Import base list sets numbers strings.
From S2P Require Import Prelude Bytes Pystr Dict Desk DeskProps DeskUi.

Local Open Scope Z_scope.

(** ** The invariant *)

Record base_ok (d : Desktop) : Prop := {
  bo_dict : dict_ok (d_objs d);
  bo_sess : forall s se, dget s (d_objs d) = Some se -> session_ok se;
  bo_nodup : NoDup (d_sessions d);
  bo_refs : forall s, s ∈ d_sessions d -> is_Some (dget s (d_objs d));
}.

Record stack_ok (d : Desktop) : Prop := {
  so_nodup : NoDup (d_stack d);
  so_exact : forall r, r ∈ d_stack d <-> in_views d r = true;
}.

Record targets_ok (d : Desktop) : Prop := {
  ta_hover : forall t, d_hover d = Some t -> target_ok d t = true;
  ta_pressed : forall t, d_pressed d = Some t -> target_ok d t = true;
  ta_focus : forall t, d_focus d = Some t -> target_ok d t = true;
  ta_drag : forall t, d_drag d = Some t -> drag_ok d t.1.1 = true;
  ta_resize : forall r, d_resize d = Some r -> drag_ok d r = true;
}.

Record desk_ok (d : Desktop) : Prop := {
  dk_base : base_ok d;
  dk_stack : stack_ok d;
  dk_targets : targets_ok d;
}.

(** ** Steps that keep the shape of the windows *)

Definition node_shape (e : str * node) : str * (bool * kind) := (e.1, (n_enabled e.2, n_kind e.2)).
Definition shape (v : view) : bool * wstate * list (str * (bool * kind)) :=
  (visible v, v_state v, map node_shape (v_nodes v)).

Record ext (d d' : Desktop) : Prop := {
  ex_sessions : d_sessions d' = d_sessions d;
  ex_stack : d_stack d' = d_stack d;
  ex_hover : d_hover d' = d_hover d;
  ex_pressed : d_pressed d' = d_pressed d;
  ex_focus : d_focus d' = d_focus d;
  ex_drag : d_drag d' = d_drag d;
  ex_resize : d_resize d' = d_resize d;
  ex_shape : forall r, shape <$> view_of d' r = shape <$> view_of d r;
}.

Lemma ext_refl d : ext d d.
Proof. by split. Qed.
Lemma ext_trans d1 d2 d3 : ext d1 d2 -> ext d2 d3 -> ext d1 d3.
Proof. intros [] []. split; congruence. Qed.

Lemma dget_shape nid l : dget nid (map node_shape l) = (fun n => (n_enabled n, n_kind n)) <$> dget nid l.
Proof. induction l as [|[k n] l IH]; simpl; [done|]. by case_decide. Qed.

Lemma shape_in_views d d' r : d_sessions d' = d_sessions d ->
  shape <$> view_of d' r = shape <$> view_of d r -> in_views d' r = in_views d r.
Proof. intros Es Er. unfold in_views. rewrite Es. by destruct (view_of d r), (view_of d' r). Qed.

Lemma ext_window d d' r : ext d d' -> window_ok d' r = window_ok d r.
Proof.
  intros []. unfold window_ok. rewrite ex_stack0. specialize (ex_shape0 r).
  destruct (view_of d r), (view_of d' r); try done. injection ex_shape0. intros. by f_equal.
Qed.
Lemma ext_drag_ok d d' r : ext d d' -> drag_ok d' r = drag_ok d r.
Proof.
  intros He. unfold drag_ok. rewrite (ext_window d d' r He). destruct He. specialize (ex_shape0 r).
  destruct (view_of d r), (view_of d' r); try done. injection ex_shape0. intros _ -> _. done.
Qed.
Lemma ext_target d d' t : ext d d' -> target_ok d' t = target_ok d t.
Proof.
  intros He. unfold target_ok. rewrite (ext_window d d' t.1 He). destruct He. specialize (ex_shape0 t.1). f_equal.
  unfold node_of. destruct (view_of d t.1) as [v|], (view_of d' t.1) as [v'|]; try done.
  injection ex_shape0. intros E _ _. apply (f_equal (dget t.2)) in E. rewrite !dget_shape in E.
  destruct (dget t.2 (v_nodes v)), (dget t.2 (v_nodes v')); try done. simpl in E. by injection E as -> _.
Qed.

Lemma ext_desk d d' : ext d d' -> base_ok d' -> desk_ok d -> desk_ok d'.
Proof.
  intros He Hb [_ [Hn Hx] [T1 T2 T3 T4 T5]]. split; [done| |].
  - split; [by rewrite (ex_stack _ _ He)|]. intros r. rewrite (ex_stack _ _ He), Hx.
    by rewrite (shape_in_views d d' r (ex_sessions _ _ He) (ex_shape _ _ He r)).
  - split.
    + intros t. rewrite (ex_hover _ _ He), (ext_target d d' t He). auto.
    + intros t. rewrite (ex_pressed _ _ He), (ext_target d d' t He). auto.
    + intros t. rewrite (ex_focus _ _ He), (ext_target d d' t He). auto.
    + intros t. rewrite (ex_drag _ _ He), (ext_drag_ok d d' _ He). auto.
    + intros t. rewrite (ex_resize _ _ He), (ext_drag_ok d d' _ He). auto.
Qed.

(** [m] runs without an exception and keeps the shape of everything. *)
Definition settles (m : M Desktop unit) (d : Desktop) : Prop :=
  exists d', m d = (Ok tt, d') /\ ext d d' /\ base_ok d'.

Lemma settles_ret d : base_ok d -> settles (ret tt) d.
Proof. intros Hb. exists d. split_and!; [done|apply ext_refl|done]. Qed.
Lemma settles_bind m k d :
  settles m d -> (forall d', ext d d' -> base_ok d' -> settles k d') -> settles (m ;;; k) d.
Proof.
  intros (d1 & E1 & He & Hb) Hk. destruct (Hk d1 He Hb) as (d2 & E2 & He2 & Hb2).
  exists d2. rewrite (bind_step _ _ _ _ _ E1). split_and!; [done|by eapply ext_trans|done].
Qed.
Lemma settles_dirty d : base_ok d -> settles make_dirty d.
Proof. intros []. eexists. split; [reflexivity|]. split; [by split|by split]. Qed.

Lemma view_of_objs d s se' r :
  is_Some (dget s (d_objs d)) ->
  view_of (put_objs (dset s se' (d_objs d)) d) r =
    if decide (r.1 = s) then dget r.2 (s_views se') else view_of d r.
Proof.
  intros _. unfold view_of. simpl. case_decide as Hr; [by rewrite Hr, dget_dset|by rewrite dget_dset_ne].
Qed.

(** Changing a session in place. *)
Lemma settles_session s m d se se' :
  base_ok d -> dget s (d_objs d) = Some se -> m se = (Ok tt, se') -> session_ok se' ->
  (forall vid, shape <$> dget vid (s_views se') = shape <$> dget vid (s_views se)) ->
  settles (on_session s m) d.
Proof.
  intros [Hd Hs Hn Hr] Hg Em Hse Hsh. eexists. split; [unfold on_session; by rewrite Hg, Em|]. split.
  - split; try done. intros r. rewrite view_of_objs by eauto. case_decide as Hrs; [|done].
    rewrite Hsh. unfold view_of. by rewrite Hrs, Hg.
  - split; simpl; [by apply dset_ok| |done|].
    + intros s' se0. destruct (decide (s' = s)) as [->|Hne].
      * rewrite dget_dset. by intros [= <-].
      * rewrite dget_dset_ne by done. apply Hs.
    + intros s' Hin. destruct (decide (s' = s)) as [->|Hne]; [rewrite dget_dset; eauto|].
      rewrite dget_dset_ne by done. auto.
Qed.

Lemma emit_ok e se : session_ok se -> session_ok (snd (emit e se)) /\ s_views (snd (emit e se)) = s_views se.
Proof.
  intros [Hv Hc He]. unfold emit, modify. simpl. destruct (Z.eqb_spec (len (s_events se)) LIM_events); simpl.
  - split; [by split|done].
  - split; [|done]. split; simpl; try done. rewrite len_app, len_cons, len_nil. lia.
Qed.

Lemma settles_emit s e d : base_ok d -> is_Some (dget s (d_objs d)) -> settles (emit_to s e) d.
Proof.
  intros Hb [se Hg]. destruct (emit_ok e se (bo_sess _ Hb _ _ Hg)) as [Hok Hv].
  eapply (settles_session s (emit e) d se); [done..|reflexivity|exact Hok|]. intros vid. exact (f_equal (fun l => shape <$> dget vid l) Hv).
Qed.

(** ** Changing a view or a node *)

Lemma view_of_Some d r v :
  view_of d r = Some v -> exists se, dget r.1 (d_objs d) = Some se /\ dget r.2 (s_views se) = Some v.
Proof. unfold view_of. destruct (dget r.1 (d_objs d)) as [se|]; [|done]. intros H. by exists se. Qed.

Lemma view_facts d r v : base_ok d -> view_of d r = Some v -> view_wf v /\ content_fits v.
Proof.
  intros Hb (se & Hs & Hv)%view_of_Some. pose proof (bo_sess _ Hb _ _ Hs) as [Hvs Hc _].
  apply dget_elem in Hv. split; [by apply (vs_all _ Hvs) in Hv as [_ ?]|by eapply Hc].
Qed.

Lemma settles_set_view d r v v' :
  base_ok d -> view_of d r = Some v -> view_wf v' -> content_fits v' -> shape v' = shape v -> settles (set_view r v') d.
Proof.
  intros Hb Hv Hwf Hc Hsh. apply view_of_Some in Hv as (se & Hs & Hv). pose proof (bo_sess _ Hb _ _ Hs) as [Hvs Hcs He].
  eapply (settles_session r.1 _ d se); [done..|reflexivity| |].
  - split; simpl; [by eapply views_set| |done]. intros vid' v0 [[= -> ->]|Hin]%dset_elem; eauto.
  - intros vid. simpl. destruct (decide (vid = r.2)) as [->|Hne].
    + rewrite dget_dset, Hv. simpl. by rewrite Hsh.
    + by rewrite dget_dset_ne.
Qed.

Lemma node_shapes nid n n0 l :
  dget nid l = Some n0 -> n_enabled n = n_enabled n0 -> n_kind n = n_kind n0 ->
  map node_shape (dset nid n l) = map node_shape l.
Proof.
  intros Hg He Hk. induction l as [|[k n'] l IH]; simpl in *; [done|]. case_decide; simpl.
  - subst. injection Hg as ->. unfold node_shape at 1 3. simpl. by rewrite He, Hk.
  - by rewrite IH.
Qed.

Lemma content_shape v v' : map node_shape (v_nodes v') = map node_shape (v_nodes v) -> content_height v' = content_height v.
Proof.
  unfold content_height. intros E. f_equal.
  assert (forall l, map (fun e : str * node => node_height e.2) l =
    map (fun x : str * (bool * kind) => if visual x.2.2 then 184 else 38) (map node_shape l)) as H.
  { intros l. rewrite map_map. done. }
  by rewrite !H, E.
Qed.

Lemma settles_put_node d t n0 n :
  base_ok d -> node_of d t = Some n0 -> node_ok n -> n_enabled n = n_enabled n0 -> n_kind n = n_kind n0 ->
  settles (put_node t n) d.
Proof.
  intros Hb Hn Hok He Hk. unfold node_of in Hn. destruct (view_of d t.1) as [v|] eqn:Hv; [|done].
  destruct (view_facts d t.1 v Hb Hv) as [[Ht Hg Hr Hns] Hc].
  assert (map node_shape (dset t.2 n (v_nodes v)) = map node_shape (v_nodes v)) as Hsh by (by eapply node_shapes).
  destruct (settles_set_view d t.1 v (set_nodes (dset t.2 n (v_nodes v)) v) Hb Hv) as (d' & E & ? & ?).
  - split; simpl; try done. by eapply nodes_set.
  - unfold content_fits in *. rewrite (content_shape v) by done. exact Hc.
  - unfold shape. simpl. by rewrite Hsh.
  - exists d'. split; [|done]. unfold put_node. unfold bind, get_view. by rewrite Hv.
Qed.

(** What a valid target refers to. *)
Lemma target_facts d t :
  base_ok d -> target_ok d t = true ->
  exists v n, view_of d t.1 = Some v /\ node_of d t = Some n /\ dget t.2 (v_nodes v) = Some n /\
    n_enabled n = true /\ node_ok n /\ control (n_kind n) = true /\ is_Some (dget t.1.1 (d_objs d)) /\ view_wf v.
Proof.
  intros Hb H. unfold target_ok in H. apply andb_prop in H as [_ H]. destruct (node_of d t) as [n|] eqn:Hn; [|done].
  unfold node_of in Hn. destruct (view_of d t.1) as [v|] eqn:Hv; [|done]. exists v, n.
  destruct (view_facts d t.1 v Hb Hv) as [Hwf _]. pose proof (vw_nodes _ Hwf) as Hns.
  apply dget_elem in Hn as Hin. apply (ns_all _ Hns) in Hin as [_ Hok].
  assert (control (n_kind n) = true) by (by apply (nk_enabled _ Hok)).
  assert (is_Some (dget t.1.1 (d_objs d))) by (apply view_of_Some in Hv as (se & Hs & _); by eexists).
  split_and!; done.
Qed.

Lemma drag_facts d r :
  base_ok d -> drag_ok d r = true ->
  exists v, view_of d r = Some v /\ v_state v = Normal /\ view_wf v /\ content_fits v /\ is_Some (dget r.1 (d_objs d)).
Proof.
  intros Hb H. unfold drag_ok in H. apply andb_prop in H as [_ H]. destruct (view_of d r) as [v|] eqn:Hv; [|done].
  apply bool_decide_eq_true in H. exists v. destruct (view_facts d r v Hb Hv).
  apply view_of_Some in Hv as Hs. destruct Hs as (se & Hs & _). by split_and!.
Qed.

(** Running [get_view] and [get_node] on what is there. *)
Lemma step_view {A} d r v (k : view -> M Desktop A) : view_of d r = Some v -> bind (get_view r) k d = k v d.
Proof. intros H. unfold bind, get_view. by rewrite H. Qed.
Lemma step_node {A} d t n (k : node -> M Desktop A) : node_of d t = Some n -> bind (get_node t) k d = k n d.
Proof. intros H. unfold bind, get_node. by rewrite H. Qed.
Lemma settles_eq m m' d : m' d = m d -> settles m d -> settles m' d.
Proof. intros E (d' & H). exists d'. by rewrite E. Qed.

(** ** Moving and resizing *)

Lemma settles_drag_to d r dx dy x y : base_ok d -> drag_ok d r = true -> settles (drag_to r dx dy x y) d.
Proof.
  intros Hb Hd. destruct (drag_facts d r Hb Hd) as (v & Hv & Hst & [Ht Hg Hr Hn] & Hc & _).
  eapply settles_eq; [unfold drag_to; by rewrite (step_view d r v)|].
  apply settles_bind; [|intros; by apply settles_dirty]. eapply settles_set_view; [done..| | |done].
  - split; simpl; try done. unfold fits_desktop, WIDTH, HEIGHT in *. simpl. lia.
  - unfold content_fits, frame_height in *. simpl. rewrite Hst in *. exact Hc.
Qed.

Lemma settles_resize_to d r x y : base_ok d -> drag_ok d r = true -> settles (resize_to r x y) d.
Proof.
  intros Hb Hd. destruct (drag_facts d r Hb Hd) as (v & Hv & Hst & [Ht Hg Hr Hn] & Hc & _).
  eapply settles_eq; [unfold resize_to; by rewrite (step_view d r v)|].
  apply settles_bind; [|intros; by apply settles_dirty].
  unfold content_fits, frame_height in Hc. rewrite Hst in Hc.
  eapply settles_set_view; [done..| | |done].
  - split; simpl; try done. unfold fits_desktop, WIDTH, HEIGHT in *. simpl. lia.
  - unfold content_fits, frame_height. simpl. rewrite Hst. change (content_height (set_geom _ v)) with (content_height v). lia.
Qed.

(** ** Controls *)

Lemma settles_changed d t : base_ok d -> target_ok d t = true -> settles (changed t) d.
Proof.
  intros Hb Ht. destruct (target_facts d t Hb Ht) as (v & n & Hv & Hn & _ & _ & _ & _ & Hs & _).
  eapply settles_eq; [unfold changed; by rewrite (step_node d t n)|].
  apply settles_bind; [by apply settles_emit|intros; by apply settles_dirty].
Qed.

Lemma settles_put_changed d t n n' :
  base_ok d -> target_ok d t = true -> node_of d t = Some n -> node_ok n' ->
  n_enabled n' = n_enabled n -> n_kind n' = n_kind n -> settles (put_node t n' ;;; changed t) d.
Proof.
  intros Hb Ht Hn Hok He Hk. apply settles_bind; [by eapply settles_put_node|]. intros d' Hx Hb'.
  apply settles_changed; [done|]. by rewrite (ext_target d d' t Hx).
Qed.

Lemma settles_activate d t : base_ok d -> target_ok d t = true -> settles (activate t) d.
Proof.
  intros Hb Ht. destruct (target_facts d t Hb Ht) as (v & n & Hv & Hn & _ & He & Hok & Hc & Hs & _).
  eapply settles_eq; [unfold activate; by rewrite (step_node d t n)|].
  destruct (n_kind n) eqn:Hk; try by apply settles_ret.
  - by apply settles_emit.
  - eapply settles_put_changed; [done..| |done|done]. apply node_set_value; [done|]. rewrite Hk. by eexists.
Qed.

Lemma percent_bounds num den : 0 < den -> 0 <= percent num den <= 100.
Proof.
  intros Hd. unfold percent. destruct (Z.leb_spec num 0); [lia|]. destruct (Z.leb_spec (100 * den) num); [lia|].
  unfold round_half_even. assert (0 <= num / den) by (apply Z.div_pos; lia).
  assert (num / den < 100) by (apply Z.div_lt_upper_bound; lia). repeat case_match; lia.
Qed.

Lemma number_int n : 0 <= n <= 100 -> number (JInt n) 0 100 = true.
Proof. simpl. lia. Qed.

Lemma settles_slider d t x : base_ok d -> target_ok d t = true -> (forall n, node_of d t = Some n -> n_kind n = KSlider) ->
  settles (slider t x) d.
Proof.
  intros Hb Ht Hk. destruct (target_facts d t Hb Ht) as (v & n & Hv & Hn & _ & He & Hok & _ & _ & Hwf).
  specialize (Hk n Hn). pose proof (vw_geom _ Hwf) as Hg. unfold fits_desktop in Hg.
  eapply settles_eq; [unfold slider; by rewrite (step_view d t.1 v)|].
  destruct (Z.eqb_spec (gw (v_geom v) - 40) 0); [lia|]. destruct (Z.ltb_spec (gw (v_geom v) - 40) 0); [lia|].
  eapply settles_eq; [by rewrite (step_node d t n)|]. case_match; [by apply settles_ret|].
  apply settles_bind; [|intros; by apply settles_dirty]. eapply settles_put_node; [done..| |done|done].
  apply node_set_value; [done|]. rewrite Hk. apply number_int, percent_bounds. lia.
Qed.

Lemma settles_drag_slider d t x : base_ok d -> target_ok d t = true -> settles (drag_slider t x) d.
Proof.
  intros Hb Ht. destruct (target_facts d t Hb Ht) as (v & n & Hv & Hn & _).
  eapply settles_eq; [unfold drag_slider; by rewrite (step_node d t n)|].
  case_bool_decide as Hk; [|by apply settles_ret]. apply settles_slider; try done. intros n' Hn'. congruence.
Qed.

Lemma SFlt_le f g : SFltb f g = true -> SFleb f g = true.
Proof. unfold SFltb, SFleb. by destruct (SFcompare f g) as [[]|]. Qed.

Lemma nudge_ok d0 j : number j 0 100 = true -> exists v, nudge d0 j = Ok v /\ number v 0 100 = true.
Proof.
  destruct j as [|b|n|f|s|l|d']; try done; intros H.
  - eexists. split; [done|]. simpl. lia.
  - unfold nudge. set (g := SFadd _ _ _ _). eexists. split; [done|].
    destruct (SFltb g (float_of 100)) eqn:E1; [|by vm_compute].
    destruct (SFltb (float_of 0) g) eqn:E2; [|by vm_compute].
    unfold number. by rewrite (SFlt_le _ _ E1), (SFlt_le _ _ E2).
Qed.

Lemma label_ok_slice s i j : label_ok s -> label_ok (slice s i j).
Proof.
  intros [Hl Hp]. split.
  - pose proof (len_slice_le s i j). pose proof (clamp_bounds (len s) i (len_nonneg s)).
    pose proof (clamp_bounds (len s) j (len_nonneg s)). lia.
  - unfold printable in *. rewrite forallb_Forall in *. by apply Forall_take, Forall_drop.
Qed.

Lemma label_ok_typed s t : label_ok s -> printable t = true -> label_ok (slice_to (s ++ t) 120).
Proof.
  intros [Hl Hp] Ht. split.
  - pose proof (len_slice_le (s ++ t) 0 120). pose proof (len_nonneg (s ++ t)). unfold slice_to, clamp in *. simpl in *. lia.
  - unfold printable in *. rewrite forallb_Forall in *. apply Forall_take, Forall_drop, Forall_app. done.
Qed.

Lemma settles_key_entry d t n code text :
  base_ok d -> target_ok d t = true -> node_of d t = Some n -> n_kind n = KEntry -> settles (key_entry t n code text) d.
Proof.
  intros Hb Ht Hn Hk. destruct (target_facts d t Hb Ht) as (v & n' & Hv & Hn' & _ & He & Hok & _).
  rewrite Hn in Hn'. injection Hn' as <-. pose proof (nk_value _ Hok) as Hval. rewrite Hk in Hval.
  destruct Hval as (old & Hold & Hl). unfold key_entry. rewrite Hold.
  match goal with |- context [beq old ?n] => assert (label_ok n) as Hnew; [|revert Hnew; generalize n; intros new Hnew] end.
  { repeat case_match; auto using label_ok_slice, label_ok_typed. }
  case_match; [by apply settles_ret|].
  eapply settles_put_changed; [done..| |done|done]. apply node_set_value; [done|]. rewrite Hk. by exists new.
Qed.

Lemma settles_key_slider d t n dv :
  base_ok d -> target_ok d t = true -> node_of d t = Some n -> n_kind n = KSlider -> settles (key_slider t n dv) d.
Proof.
  intros Hb Ht Hn Hk. destruct (target_facts d t Hb Ht) as (v & n' & Hv & Hn' & _ & He & Hok & _).
  rewrite Hn in Hn'. injection Hn' as <-. pose proof (nk_value _ Hok) as Hval. rewrite Hk in Hval.
  destruct (nudge_ok dv (n_value n) Hval) as (w & Ew & Hw). unfold key_slider. rewrite Ew.
  eapply settles_eq; [reflexivity|]. eapply settles_put_changed; [done..| |done|done]. apply node_set_value; [done|]. by rewrite Hk.
Qed.

(** ** Hit testing *)

Lemma stack_view d r : stack_ok d -> r ∈ d_stack d -> is_Some (view_of d r).
Proof.
  intros Hs Hr. apply (so_exact _ Hs) in Hr. unfold in_views in Hr. apply andb_prop in Hr as [_ Hr].
  destruct (view_of d r); [by eexists|done].
Qed.

Lemma visible_of_spec d l :
  (forall r, r ∈ l -> is_Some (view_of d r)) ->
  exists vs, visible_of d l = Ok vs /\ forall r, r ∈ vs <-> r ∈ l /\ exists v, view_of d r = Some v /\ visible v = true.
Proof.
  induction l as [|r l IH]; intros Hl; simpl.
  - exists []. split; [done|]. intros r. split; [by intros ?%not_elem_of_nil|by intros [?%not_elem_of_nil _]].
  - destruct (Hl r) as [v Hv]; [apply elem_of_cons; by left|]. destruct IH as (vs & E & Hvs).
    { intros r' Hr'. apply Hl, elem_of_cons. by right. }
    rewrite Hv, E. simpl. eexists. split; [done|]. intros r'. destruct (visible v) eqn:Hvis.
    + rewrite !elem_of_cons, Hvs. split; [|by intros [[->|?] ?]; auto]. intros [->|[? ?]]; [|by auto].
      split; [by left|]. by exists v.
    + rewrite elem_of_cons, Hvs. split; [by intros [? ?]; auto|]. intros [[->|?] (v' & Hv' & Hx)]; [congruence|].
      split; [done|]. by exists v'.
Qed.

Lemma visible_stack_spec d : desk_ok d ->
  exists vs, visible_stack d = (Ok vs, d) /\ forall r, r ∈ vs -> window_ok d r = true.
Proof.
  intros [_ Hs _]. destruct (visible_of_spec d (d_stack d)) as (vs & E & Hvs); [intros r; by apply stack_view|].
  exists vs. unfold visible_stack. rewrite E. split; [done|]. intros r (Hr & v & Hv & Hx)%Hvs.
  unfold window_ok. rewrite Hv, Hx. by rewrite bool_decide_true.
Qed.

Lemma node_at_spec x y w h nodes nid : forall y0,
  node_at x y (layout_from w h y0 nodes) = Some nid ->
  exists n, (nid, n) ∈ nodes /\ n_enabled n = true.
Proof.
  induction nodes as [|[k n] nodes IH]; intros y0; cbn [layout_from node_at]; [done|].
  destruct (control (n_kind n) && n_enabled n && _) eqn:E.
  - intros [= <-]. exists n. split; [apply elem_of_cons; by left|].
    apply andb_prop in E as [E _]. by apply andb_prop in E as [_ ?].
  - intros H. destruct (IH _ H) as (n' & Hin & He). exists n'. split; [apply elem_of_cons; by right|done].
Qed.

Definition hit_ok (d : Desktop) (h : option (wref * option str)) : Prop :=
  match h with
  | None => True
  | Some (r, nid) => window_ok d r = true /\ match nid with Some nid => target_ok d (r, nid) = true | None => True end
  end.

Lemma hit_spec d x y : desk_ok d -> exists h, hit x y d = (Ok h, d) /\ hit_ok d h.
Proof.
  intros Hd. destruct (visible_stack_spec d Hd) as (vs & E & Hvs).
  assert (forall l, (forall r, r ∈ l -> window_ok d r = true) -> exists h, hit_in d x y l = Ok h /\ hit_ok d h) as Hin.
  { induction l as [|r l IH]; intros Hl; cbn [hit_in]; [by exists None|].
    assert (window_ok d r = true) as Hr by (apply Hl, elem_of_cons; by left).
    destruct (view_of d r) as [v|] eqn:Hv; [|unfold window_ok in Hr; rewrite Hv in Hr; by destruct (bool_decide _)].
    destruct (inside x y (frame v)); [|apply IH; intros r' Hr'; apply Hl, elem_of_cons; by right].
    eexists. split; [done|]. simpl. split; [done|]. destruct (node_at x y (layout v)) as [nid|] eqn:Hn; [|done].
    apply node_at_spec in Hn as (n & Hn & He). unfold target_ok, node_of. simpl. rewrite Hr, Hv. simpl.
    destruct (view_facts d r v (dk_base _ Hd) Hv) as [[_ _ _ [Hdict _ _ _]] _].
    by rewrite (elem_dget _ _ _ Hdict Hn). }
  destruct (Hin (rev vs)) as (h & Eh & Hh).
  { intros r Hr. apply Hvs. rewrite list_elem_of_In, <- in_rev, <- list_elem_of_In in Hr. exact Hr. }
  exists h. split; [|done]. unfold hit. rewrite (bind_step _ _ _ _ _ E). by rewrite Eh.
Qed.

(** ** [sync] restores the invariant *)

Lemma all_windows_spec d r : base_ok d -> r ∈ all_windows d <-> in_views d r = true.
Proof.
  intros [Hd Hs Hn Hr]. unfold all_windows, in_views, view_of. rewrite list_elem_of_In, in_concat. split.
  - intros (l & (s & <- & Hin)%in_map_iff & Hx). apply list_elem_of_In in Hin, Hx.
    destruct (dget s (d_objs d)) as [se|] eqn:Hg; [|by apply not_elem_of_nil in Hx].
    apply list_elem_of_fmap in Hx as (vid & -> & Hvid). simpl. rewrite bool_decide_true by done. rewrite Hg.
    destruct (dget vid (s_views se)) eqn:Hv; [done|]. by apply dget_None in Hv.
  - intros [Hin Hx]%andb_prop. apply bool_decide_eq_true in Hin. destruct r as [s vid]. simpl in *.
    destruct (dget s (d_objs d)) as [se|] eqn:Hg; [|done]. destruct (dget vid (s_views se)) as [v|] eqn:Hv; [|done].
    exists (map (pair s) (s_views se).*1). rewrite <- !list_elem_of_In. split.
    + apply list_elem_of_fmap. exists s. by rewrite Hg.
    + apply list_elem_of_fmap. exists vid. split; [done|]. apply list_elem_of_fmap. exists (vid, v). split; [done|].
      by apply dget_elem.
Qed.

Lemma add_missing_spec l stack :
  NoDup stack -> NoDup (fold_left add_missing l stack) /\
  forall r, r ∈ fold_left add_missing l stack <-> r ∈ stack \/ r ∈ l.
Proof.
  revert stack. induction l as [|x l IH]; intros stack Hs; simpl.
  - split; [done|]. intros r. split; [by left|]. intros [?|?%not_elem_of_nil]; done.
  - assert (NoDup (add_missing stack x)) as Hs'.
    { unfold add_missing. case_bool_decide; [done|]. apply list.NoDup_app. split_and!; [done| |apply NoDup_singleton].
      by intros y Hy ->%list_elem_of_singleton. }
    destruct (IH _ Hs') as [H1 H2]. split; [done|]. intros r. rewrite H2, elem_of_cons. unfold add_missing.
    case_bool_decide; [|rewrite elem_of_app, list_elem_of_singleton; tauto]. split; [tauto|]. intros [?|[->|?]]; auto.
Qed.

Lemma keep_if_Some {A} (p : A -> bool) o x : keep_if p o = Some x -> p x = true.
Proof. destruct o as [y|]; simpl; [|done]. destruct (p y) eqn:E; [|done]. by intros [= <-]. Qed.

Lemma sync_ok d : base_ok d -> NoDup (d_stack d) -> desk_ok (sync d).
Proof.
  intros Hb Hn. set (st := fold_left add_missing (all_windows d) (List.filter (in_views d) (d_stack d))).
  destruct (add_missing_spec (all_windows d) (List.filter (in_views d) (d_stack d))) as [Hnd Hin].
  { by apply NoDup_ListNoDup, List.NoDup_filter, NoDup_ListNoDup. }
  split; [destruct Hb; by split| |].
  - split; [exact Hnd|]. intros r. change (in_views (sync d) r) with (in_views d r). fold st in Hin.
    change (d_stack (sync d)) with st. rewrite Hin, all_windows_spec by done.
    rewrite list_elem_of_In, List.filter_In. tauto.
  - split.
    + intros t Ht. exact (keep_if_Some (target_ok (put_stack st d)) (d_hover d) t Ht).
    + intros t Ht. exact (keep_if_Some (target_ok (put_stack st d)) (d_pressed d) t Ht).
    + intros t Ht. exact (keep_if_Some (target_ok (put_stack st d)) (d_focus d) t Ht).
    + intros t Ht. exact (keep_if_Some (fun t => drag_ok (put_stack st d) t.1.1) (d_drag d) t Ht).
    + intros t Ht. exact (keep_if_Some (drag_ok (put_stack st d)) (d_resize d) t Ht).
Qed.

(** ** Input *)

(** [m] runs without an exception and keeps the invariant. *)
Definition safe {A} (m : M Desktop A) (d : Desktop) : Prop :=
  exists a d', m d = (Ok a, d') /\ desk_ok d'.

Lemma safe_ret {A} (a : A) d : desk_ok d -> safe (ret a) d.
Proof. intros Hd. by exists a, d. Qed.
Lemma safe_settles m d : desk_ok d -> settles m d -> safe m d.
Proof. intros Hd (d' & E & He & Hb). exists tt, d'. split; [done|]. by eapply ext_desk. Qed.
Lemma safe_after {A} m (k : M Desktop A) d :
  desk_ok d -> settles m d -> (forall d', ext d d' -> desk_ok d' -> safe k d') -> safe (m ;;; k) d.
Proof.
  intros Hd (d1 & E & He & Hb) Hk. destruct (Hk d1 He (ext_desk _ _ He Hb Hd)) as (a & d2 & E2 & Hd2).
  exists a, d2. by rewrite (bind_step _ _ _ _ _ E).
Qed.
Lemma safe_then {A} (m : M Desktop unit) (k : M Desktop A) d :
  safe m d -> (forall d', desk_ok d' -> safe k d') -> safe (m ;;; k) d.
Proof.
  intros ([] & d1 & E & Hd) Hk. destruct (Hk d1 Hd) as (a & d2 & E2 & Hd2).
  exists a, d2. by rewrite (bind_step _ _ _ _ _ E).
Qed.
Lemma safe_gets {A B} (f : Desktop -> A) (k : A -> M Desktop B) d : safe (k (f d)) d -> safe (bind (gets f) k) d.
Proof. done. Qed.
Lemma safe_hit {A} x y (k : _ -> M Desktop A) d :
  desk_ok d -> (forall h, hit_ok d h -> safe (k h) d) -> safe (bind (hit x y) k) d.
Proof.
  intros Hd Hk. destruct (hit_spec d x y Hd) as (h & E & Hh). destruct (Hk h Hh) as (a & d' & E' & Hd').
  exists a, d'. by rewrite (bind_step _ _ _ _ _ E).
Qed.
Lemma safe_dirty d : desk_ok d -> safe make_dirty d.
Proof. intros Hd. apply safe_settles, settles_dirty; [done|apply Hd]. Qed.
Lemma settles_option {A} (o : option A) (m : A -> M Desktop unit) d :
  base_ok d -> (forall x, o = Some x -> settles (m x) d) -> settles (match o with Some x => m x | None => ret tt end) d.
Proof. intros Hb Hm. destruct o; [by apply Hm|by apply settles_ret]. Qed.

(** Setting the targets. *)
Lemma safe_targets (f : Desktop -> Desktop) d :
  desk_ok d -> d_objs (f d) = d_objs d -> d_sessions (f d) = d_sessions d -> d_stack (f d) = d_stack d ->
  targets_ok (f d) -> safe (modify f) d.
Proof.
  intros [[] [Hn Hx] _] E1 E2 E3 Ht. exists tt, (f d). split; [done|]. split; [|split|done].
  - split; by rewrite ?E1, ?E2.
  - by rewrite E3.
  - intros r. rewrite E3, Hx. unfold in_views, view_of. by rewrite E1, E2.
Qed.

Lemma safe_motion d x y : desk_ok d -> safe (on_motion x y) d.
Proof.
  intros Hd. unfold on_motion. apply safe_gets, safe_after; [done| |].
  { apply (settles_option _ (fun t => let '(r, dx, dy) := t in drag_to r dx dy x y)); [apply Hd|].
    intros [[r dx] dy] E. apply settles_drag_to; [apply Hd|]. exact (ta_drag _ (dk_targets _ Hd) _ E). }
  intros d1 _ Hd1. apply safe_gets, safe_after; [done| |].
  { apply settles_option; [apply Hd1|]. intros r E. apply settles_resize_to; [apply Hd1|]. exact (ta_resize _ (dk_targets _ Hd1) _ E). }
  intros d2 _ Hd2. apply safe_gets, safe_after; [done| |].
  { apply settles_option; [apply Hd2|]. intros t E. apply settles_drag_slider; [apply Hd2|]. exact (ta_pressed _ (dk_targets _ Hd2) _ E). }
  intros d3 _ Hd3. apply safe_hit; [done|]. intros h Hh. cbv zeta. apply safe_gets.
  case_bool_decide; [by apply safe_ret|]. apply safe_then; [|apply safe_dirty]. apply safe_targets; try done.
  destruct (dk_targets _ Hd3) as [T1 T2 T3 T4 T5]. split; try done.
  intros t Ht. change (d_hover (put_hover _ d3)) with (match h with Some h => nref_of h | None => None end) in Ht.
  destruct h as [[r [nid|]]|]; simpl in Ht; try done. injection Ht as <-. exact (proj2 Hh).
Qed.

(** Raising a window. *)
Lemma list_remove_spec r l :
  NoDup l -> r ∈ l -> exists l', list_remove r l = Ok l' /\ NoDup (l' ++ [r]) /\ forall x, x ∈ l' ++ [r] <-> x ∈ l.
Proof.
  induction l as [|x l IH]; intros Hn Hin; [by apply not_elem_of_nil in Hin|]. simpl.
  apply list.NoDup_cons in Hn as [Hx Hn]. case_decide as Hr.
  - subst x. exists l. split_and!; [done| |].
    + apply list.NoDup_app. split_and!; [done| |apply NoDup_singleton]. by intros y Hy ->%list_elem_of_singleton.
    + intros y. rewrite elem_of_app, list_elem_of_singleton, elem_of_cons. tauto.
  - apply elem_of_cons in Hin as [->|Hin]; [done|]. destruct (IH Hn Hin) as (l' & E & Hn' & Hl').
    rewrite E. exists (x :: l'). split_and!; [done| |].
    + simpl. apply list.NoDup_cons. split; [|done]. by rewrite Hl'.
    + intros y. simpl. by rewrite !elem_of_cons, Hl'.
Qed.

Lemma restack_ok d st : NoDup st -> (forall r, r ∈ st <-> r ∈ d_stack d) -> desk_ok d -> desk_ok (put_stack st d).
Proof.
  intros Hn Hst [[] [_ Hx] [T1 T2 T3 T4 T5]].
  assert (forall r, window_ok (put_stack st d) r = window_ok d r) as Hw.
  { intros r. unfold window_ok. f_equal. simpl. apply bool_decide_ext, Hst. }
  assert (forall t, target_ok (put_stack st d) t = target_ok d t) as Ht by (intros t; unfold target_ok; by rewrite Hw).
  assert (forall r, drag_ok (put_stack st d) r = drag_ok d r) as Hdr by (intros r; unfold drag_ok; by rewrite Hw).
  split; [by split| |].
  - split; [done|]. intros r. simpl. rewrite Hst. apply Hx.
  - split; intros t; rewrite ?Ht, ?Hdr; auto.
Qed.

Lemma no_targets_ok f d :
  desk_ok d -> d_objs (f d) = d_objs d -> d_sessions (f d) = d_sessions d -> d_stack (f d) = d_stack d ->
  (d_hover (f d) = d_hover d) -> (d_pressed (f d) = None \/ d_pressed (f d) = d_pressed d) ->
  (d_focus (f d) = None \/ d_focus (f d) = d_focus d) -> (d_drag (f d) = None \/ d_drag (f d) = d_drag d) ->
  (d_resize (f d) = None \/ d_resize (f d) = d_resize d) -> safe (modify f) d.
Proof.
  intros Hd E1 E2 E3 Eh Ep Ef Ed Er. apply safe_targets; try done.
  assert (forall r, window_ok (f d) r = window_ok d r) as Hw.
  { intros r. unfold window_ok, view_of. by rewrite E1, E3. }
  assert (forall t, target_ok (f d) t = target_ok d t) as Ht.
  { intros t. unfold target_ok, node_of. rewrite Hw. unfold view_of. by rewrite E1. }
  assert (forall r, drag_ok (f d) r = drag_ok d r) as Hdr.
  { intros r. unfold drag_ok. rewrite Hw. unfold view_of. by rewrite E1. }
  destruct (dk_targets _ Hd) as [T1 T2 T3 T4 T5]. split; intros t; rewrite ?Ht, ?Hdr.
  - rewrite Eh. auto.
  - destruct Ep as [->| ->]; [done|auto].
  - destruct Ef as [->| ->]; [done|auto].
  - destruct Ed as [->| ->]; [done|auto].
  - destruct Er as [->| ->]; [done|auto].
Qed.

(** The window under the pointer, after it was raised. *)
Lemma window_facts d r : base_ok d -> window_ok d r = true ->
  r ∈ d_stack d /\ exists v se, view_of d r = Some v /\ dget r.1 (d_objs d) = Some se.
Proof.
  intros Hb H. unfold window_ok in H. apply andb_prop in H as [Hin H]. apply bool_decide_eq_true in Hin.
  destruct (view_of d r) as [v|] eqn:Hv; [|done]. apply view_of_Some in Hv as Hs. destruct Hs as (se & Hs & _).
  split; [done|]. by exists v, se.
Qed.

Lemma session_drop vid se : session_ok se -> session_ok (put_views (dpop vid (s_views se)) se).
Proof.
  intros [[Hd Hl Ha] Hc He]. split; simpl; [|intros vid' v Hin%dpop_elem; eauto|done].
  split; [by apply dpop_ok| |intros vid' v Hin%dpop_elem; eauto]. pose proof (dpop_len vid (s_views se)). lia.
Qed.

(** A change of one session, whatever its windows become, keeps [base_ok]. *)
Lemma on_session_base {A} s (m : M Session A) d se :
  base_ok d -> dget s (d_objs d) = Some se -> session_ok (snd (m se)) ->
  exists d', on_session s m d = (fst (m se), d') /\ base_ok d' /\ d' = put_objs (dset s (snd (m se)) (d_objs d)) d.
Proof.
  intros [Hd Hs Hn Hr] Hg Hok. exists (put_objs (dset s (snd (m se)) (d_objs d)) d).
  split; [unfold on_session; rewrite Hg; by destruct (m se)|]. split; [|done].
  split; simpl; [by apply dset_ok| |done|].
  - intros s' se'. destruct (decide (s' = s)) as [->|Hne]; [rewrite dget_dset; by intros [= <-]|].
    rewrite dget_dset_ne by done. apply Hs.
  - intros s' Hin. destruct (decide (s' = s)) as [->|Hne]; [rewrite dget_dset; eauto|].
    rewrite dget_dset_ne by done. auto.
Qed.

Lemma safe_close d r : desk_ok d -> window_ok d r = true ->
  safe (on_session r.1 (modify (fun se => put_views (dpop r.2 (s_views se)) se)) ;;;
        emit_to r.1 (EvClosed r.2) ;;; modify sync) d.
Proof.
  intros Hd Hw. destruct (window_facts d r (dk_base _ Hd) Hw) as (_ & v & se & _ & Hg).
  set (m := modify (fun se => put_views (dpop r.2 (s_views se)) se)).
  destruct (on_session_base r.1 m d se (dk_base _ Hd) Hg) as (d1 & E1 & Hb1 & Ed1).
  { apply session_drop, (bo_sess _ (dk_base _ Hd) _ _ Hg). }
  destruct (settles_emit r.1 (EvClosed r.2) d1 Hb1) as (d2 & E2 & He2 & Hb2).
  { rewrite Ed1. simpl. rewrite dget_dset. by eexists. }
  exists tt, (sync d2). split.
  - rewrite (bind_step _ _ _ _ _ E1), (bind_step _ _ _ _ _ E2). done.
  - apply sync_ok; [done|]. rewrite (ex_stack _ _ He2), Ed1. apply (so_nodup _ (dk_stack _ Hd)).
Qed.

Lemma safe_press_at d r nid x y : desk_ok d -> hit_ok d (Some (r, nid)) -> safe (press_at r nid x y) d.
Proof.
  intros Hd [Hw Hnid]. destruct (window_facts d r (dk_base _ Hd) Hw) as (Hin & v & se & Hv & Hg).
  destruct (dk_targets _ Hd) as [T1 T2 T3 T4 T5].
  assert (v_state v = Normal -> drag_ok d r = true) as Hdrag.
  { intros Hst. unfold drag_ok. rewrite Hw, Hv. by rewrite bool_decide_true. }
  unfold safe, press_at. rewrite (step_view d r v) by done. cbv zeta.
  match goal with |- exists a d', ?m d = _ /\ _ => change (safe m d) end.
  destruct (inside x y _) eqn:E1; [by apply safe_close|].
  destruct ((y <? gy (v_geom v) + 32) && _) eqn:E2.
  { apply andb_prop in E2 as [_ E2]. apply bool_decide_eq_true in E2.
    apply safe_targets; try done. split; try done. intros t [= <-]. exact (Hdrag E2). }
  destruct ((gx (v_geom v) + gw (v_geom v) - 14 <=? x) && _ && _) eqn:E3.
  { apply andb_prop in E3 as [_ E3]. apply bool_decide_eq_true in E3.
    apply safe_targets; try done. split; try done. intros t [= <-]. exact (Hdrag E3). }
  destruct nid as [nid|]; [|by apply safe_ret].
  set (f := fun d => put_pressed (Some (r, nid)) (put_focus (Some (r, nid)) d)).
  destruct (safe_targets f d Hd) as ([] & d1 & E & Hd1); try done.
  { split; try done; intros t [= <-]; exact Hnid. }
  injection E as <-. destruct (safe_settles (drag_slider (r, nid) x) (f d) Hd1) as (a & d2 & E2' & Hd2).
  { apply settles_drag_slider; [apply Hd1|exact Hnid]. }
  exists a, d2. split; [exact E2'|done].
Qed.

Lemma safe_press_window d r nid x y :
  desk_ok d -> hit_ok d (Some (r, nid)) -> safe (press_window r nid x y) d.
Proof.
  intros Hd [Hw Hnid]. destruct (window_facts d r (dk_base _ Hd) Hw) as (Hin & _).
  destruct (list_remove_spec r (d_stack d) (so_nodup _ (dk_stack _ Hd)) Hin) as (st & E & Hn & Hst).
  set (d1 := put_stack (st ++ [r]) d). assert (desk_ok d1) as Hd1 by (by apply restack_ok).
  assert (window_ok d1 r = true) as Hw1.
  { unfold window_ok in *. apply andb_prop in Hw as [_ Hw]. rewrite bool_decide_true; [exact Hw|]. simpl. by apply Hst. }
  destruct (safe_press_at d1 r nid x y Hd1) as (a & d2 & E2 & Hd2).
  { split; [done|]. destruct nid as [nid|]; [|done]. unfold target_ok in *. simpl. rewrite Hw1. by apply andb_prop in Hnid as [_ ?]. }
  exists a, d2. split; [|done]. unfold press_window.
  rewrite (bind_step (gets d_stack) _ d (d_stack d) d eq_refl), E. exact E2.
Qed.

Lemma safe_press d x y : desk_ok d -> safe (on_press x y) d.
Proof.
  intros Hd. unfold on_press. apply safe_hit; [done|]. intros h Hh.
  set (f := fun d => put_pressed None (put_focus None d)).
  destruct (no_targets_ok f d Hd) as ([] & d1 & E & Hd1); auto. injection E as <-.
  enough (safe (match h with Some (r, nid) => press_window r nid x y | None => ret tt end ;;; make_dirty) (f d)) as H by exact H.
  apply safe_then; [|by intros; apply safe_dirty]. destruct h as [[r nid]|]; [|by apply safe_ret].
  apply safe_press_window; [done|exact Hh].
Qed.

Lemma safe_release d x y : desk_ok d -> safe (on_release x y) d.
Proof.
  intros Hd. unfold on_release. unfold safe. unfold bind at 1. cbn [get].
  match goal with |- exists a d', ?m d = _ /\ _ => change (safe m d) end.
  apply safe_after; [done| |].
  { apply settles_option; [apply Hd|]. intros r Hr.
    assert (drag_ok d r = true) as Hdr.
    { destruct (d_drag d) as [[[r' dx] dy]|] eqn:E; [injection Hr as ->; exact (ta_drag _ (dk_targets _ Hd) _ E)
        |exact (ta_resize _ (dk_targets _ Hd) _ Hr)]. }
    destruct (drag_facts d r (dk_base _ Hd) Hdr) as (v & Hv & _ & _ & _ & Hs).
    eapply settles_eq; [by rewrite (step_view d r v)|]. apply settles_emit; [apply Hd|done]. }
  intros d1 He1 Hd1. apply safe_then.
  - destruct (d_pressed d) as [t|] eqn:Hp; [|by apply safe_ret].
    assert (target_ok d1 t = true) as Ht.
    { rewrite (ext_target d d1 t He1). exact (ta_pressed _ (dk_targets _ Hd) _ Hp). }
    destruct (target_facts d1 t (dk_base _ Hd1) Ht) as (v & n & Hv & Hn & _).
    unfold safe. rewrite (step_node d1 t n) by done.
    match goal with |- exists a d', ?m d1 = _ /\ _ => change (safe m d1) end.
    apply safe_after; [done|case_bool_decide; [apply settles_changed; [apply Hd1|done]|apply settles_ret, Hd1]|].
    intros d2 He2 Hd2. apply safe_hit; [done|]. intros h _. case_bool_decide; [|by apply safe_ret].
    apply safe_settles; [done|]. apply settles_activate; [apply Hd2|]. by rewrite (ext_target d1 d2 t He2).
  - intros d2 Hd2. apply safe_then; [|by intros; apply safe_dirty]. apply no_targets_ok; auto.
Qed.

Lemma focusable_ok d r v t : base_ok d -> window_ok d r = true -> view_of d r = Some v ->
  t ∈ focusable r v -> target_ok d t = true.
Proof.
  intros Hb Hw Hv Ht. apply list_elem_of_fmap in Ht as ([nid n] & -> & Hin).
  rewrite list_elem_of_In, List.filter_In, <- list_elem_of_In in Hin. destruct Hin as [Hin Hc].
  apply andb_prop in Hc as [_ Hc]. unfold target_ok, node_of. simpl. rewrite Hw, Hv.
  destruct (view_facts d r v Hb Hv) as [[_ _ _ [Hd _ _ _]] _]. by rewrite (elem_dget _ _ _ Hd Hin).
Qed.

Lemma safe_key d code md text r : desk_ok d -> window_ok d r = true -> safe (on_key code md text r) d.
Proof.
  intros Hd Hw. destruct (window_facts d r (dk_base _ Hd) Hw) as (_ & v & se & Hv & _).
  unfold safe, on_key. rewrite (step_view d r v) by done. cbv zeta.
  match goal with |- exists a d', ?m d = _ /\ _ => change (safe m d) end.
  apply safe_gets. destruct (bool_decide (code = Some 9) && negb (len (focusable r v) =? 0)) eqn:E.
  - apply andb_prop in E as [_ E]. pose proof (len_nonneg (focusable r v)).
    assert (0 < len (focusable r v)) as Hpos by lia. match goal with |- context [index _ ?i] => set (i0 := i) end.
    assert (0 <= i0 < len (focusable r v)) as Hi by (apply Z.mod_pos_bound; lia).
    destruct (index_total _ _ Hi) as [t Et]. rewrite Et.
    assert (target_ok d t = true) as Ht.
    { eapply focusable_ok; [apply Hd|done|done|]. apply index_Ok in Et; [|lia]. by eapply list_elem_of_lookup_2. }
    destruct (safe_targets (put_focus (Some t)) d Hd) as ([] & d1 & E1 & Hd1); try done.
    { destruct (dk_targets _ Hd) as [T1 T2 T3 T4 T5]. split; try done. intros t' [= <-]. exact Ht. }
    destruct (safe_dirty d1 Hd1) as (a & d2 & E2 & Hd2). exists a, d2. split; [|done].
    injection E1 as <-. exact E2.
  - destruct (d_focus d) as [t|]; [|by apply safe_ret]. clear E.
    case_bool_decide as Hin; [|by apply safe_ret].
    assert (target_ok d t = true) as Ht by (eapply focusable_ok; [apply Hd|done..]).
    destruct (target_facts d t (dk_base _ Hd) Ht) as (v' & n & Hv' & Hn & _).
    unfold safe. rewrite (step_node d t n) by done.
    match goal with |- exists a d', ?m d = _ /\ _ => change (safe m d) end. apply safe_settles; [done|].
    pose proof (dk_base _ Hd) as Hb. case_bool_decide as Hk; [by apply settles_key_entry|].
    destruct (bool_decide (n_kind n = KSlider)) eqn:Hs; [apply bool_decide_eq_true in Hs|]; simpl.
    + repeat case_bool_decide; simpl; auto using settles_key_slider, settles_activate, settles_ret.
    + repeat case_bool_decide; simpl; auto using settles_activate, settles_ret.
Qed.

Lemma safe_input d e : desk_ok d -> safe (input e) d.
Proof.
  intros Hd. unfold input. case_match; [apply no_targets_ok; auto|]. case_match; [by apply safe_motion|].
  case_match; [by apply safe_press|]. case_match; [by apply safe_release|]. case_match; [|by apply safe_ret].
  destruct (visible_stack_spec d Hd) as (vs & Ev & Hvs). unfold safe. rewrite (bind_step _ _ _ _ _ Ev).
  match goal with |- exists a d', ?m d = _ /\ _ => change (safe m d) end.
  destruct (last vs) as [r|] eqn:El; [|by apply safe_ret]. apply safe_key; [done|]. apply Hvs.
  apply last_Some in El as [l' ->]. apply elem_of_app. right. by apply list_elem_of_singleton.
Qed.

(** ** Requests of the clients *)

Lemma window_action_safe d s a vid : desk_ok d -> (s, vid) ∈ d_stack d ->
  exists d', window_action s a vid d = (Ok tt, d') /\ desk_ok d' /\ d_objs d' = d_objs d /\ d_sessions d' = d_sessions d.
Proof.
  intros Hd Hin. destruct (list_remove_spec (s, vid) (d_stack d) (so_nodup _ (dk_stack _ Hd)) Hin) as (st & E & Hn & Hst).
  set (st' := match a with FocusView => st ++ [(s, vid)] | LowerView => (s, vid) :: st end).
  assert (st' ≡ₚ st ++ [(s, vid)]) as Hperm by (unfold st'; destruct a; [done|by rewrite <- Permutation_cons_append]).
  assert (desk_ok (put_stack st' d)) as Hd1.
  { apply restack_ok; [by rewrite Hperm| |done]. intros r. rewrite Hperm. apply Hst. }
  destruct (no_targets_ok (fun d => put_pressed None (put_focus None d)) _ Hd1) as ([] & d2 & E2 & Hd2); auto.
  destruct (settles_dirty d2 (dk_base _ Hd2)) as (d3 & E3 & He3 & Hb3). injection E2 as <-. injection E3 as <-.
  eexists. split; [unfold window_action; rewrite (bind_step (gets d_stack) _ d (d_stack d) d eq_refl), E; reflexivity|].
  split; [|done]. eapply ext_desk; [exact He3|done|done].
Qed.

Lemma actions_safe acts : forall d s, desk_ok d -> s ∈ d_sessions d ->
  (forall a, a ∈ acts -> is_Some (view_of d (s, a.2))) ->
  exists d', for_each acts (fun a => window_action s a.1 a.2) d = (Ok tt, d') /\ desk_ok d' /\ d_objs d' = d_objs d.
Proof.
  induction acts as [|a acts IH]; intros d s Hd Hs Hv; [by exists d|].
  destruct (window_action_safe d s a.1 a.2 Hd) as (d1 & E1 & Hd1 & Eo & Es).
  { apply (so_exact _ (dk_stack _ Hd)). unfold in_views. simpl. rewrite bool_decide_true by done.
    destruct (Hv a) as [v Hva]; [apply elem_of_cons; by left|]. by rewrite Hva. }
  destruct (IH d1 s Hd1) as (d2 & E2 & Hd2 & Eo2); [by rewrite Es| |].
  { intros a' Ha'. unfold view_of. rewrite Eo. apply Hv, elem_of_cons. by right. }
  exists d2. cbn [for_each]. rewrite (bind_step _ _ _ _ _ E1). split_and!; [done|done|congruence].
Qed.

(** A commit request is refused without a trace, or done. *)
Lemma commit_request_spec d s revision commands :
  desk_ok d -> s ∈ d_sessions d ->
  exists r d', commit_request s revision commands d = (r, d') /\ desk_ok d' /\
    match r with Ok _ => True | Err e => e = ValueError /\ d' = d end.
Proof.
  intros Hd Hs. pose proof (dk_base _ Hd) as Hb. destruct (bo_refs _ Hb s Hs) as [se Hg].
  pose proof (bo_sess _ Hb _ _ Hg) as Hse. unfold commit_request.
  set (m := fun se => commit revision commands (Some (s_resources se)) se).
  destruct (commit revision commands (Some (s_resources se)) se) as [[acts|e] se'] eqn:Ec.
  - destruct (commit_Ok _ _ _ _ _ _ Hse Ec) as (Hse' & _ & _ & _ & _ & Hacts).
    destruct (on_session_base s m d se Hb Hg) as (d1 & E1 & Hb1 & Ed1); [unfold m; by rewrite Ec|].
    unfold m in E1, Ed1. rewrite Ec in E1, Ed1. simpl in E1, Ed1.
    assert (desk_ok (sync d1)) as Hd2.
    { apply sync_ok; [done|]. rewrite Ed1. apply (so_nodup _ (dk_stack _ Hd)). }
    destruct (actions_safe acts (sync d1) s Hd2) as (d3 & E3 & Hd3 & Eo3).
    { rewrite Ed1. exact Hs. }
    { intros a Ha. change (view_of (sync d1) (s, a.2)) with (view_of d1 (s, a.2)).
      rewrite Ed1, view_of_objs by eauto. simpl. rewrite decide_True by done.
      rewrite forallb_forall in Hacts. specialize (Hacts a (proj1 (list_elem_of_In _ _) Ha)). unfold action_ok in Hacts.
      by destruct (dget a.2 (s_views se')). }
    assert (dget s (d_objs d3) = Some se') as Hg3 by (rewrite Eo3, Ed1; simpl; apply dget_dset).
    exists (Ok (s_revision se')), d3. split_and!; [|done|done].
    rewrite (bind_step _ _ _ _ _ E1), (bind_step (modify sync) _ d1 tt (sync d1) eq_refl), (bind_step _ _ _ _ _ E3).
    unfold on_session. rewrite Hg3. simpl. rewrite dset_same by done. by destruct d3.
  - destruct (commit_Err _ _ _ _ _ _ Hse Ec) as [-> ->]. exists (Err ValueError), d. split_and!; try done.
    apply bind_fail. unfold on_session, m. rewrite Hg, Ec. rewrite dset_same by done. by destruct d.
Qed.

(** Every change of the desktop between two points where the server's lock is
    free.  [ds_resources]: the media part changes a session's resources. *)
Inductive desk_step : Desktop -> Desktop -> Prop :=
| ds_join s d d' : dget s (d_objs d) = None -> join s d = (Ok tt, d') -> desk_step d d'
| ds_leave s d d' : leave s d = (Ok tt, d') -> desk_step d d'
| ds_commit s rv cmds r d d' :
    s ∈ d_sessions d -> commit_request s rv cmds d = (r, d') -> desk_step d d'
| ds_poll s r d d' : s ∈ d_sessions d -> poll_request s d = (r, d') -> desk_step d d'
| ds_resources s rs d d' : s ∈ d_sessions d ->
    on_session s (modify (fun se => mkSession (s_views se) (s_revision se) (s_events se) (s_overflow se) rs)) d
      = (Ok tt, d') -> desk_step d d'
| ds_input e r d d' : input e d = (r, d') -> desk_step d d'.

Lemma join_ok s d : dget s (d_objs d) = None -> desk_ok d -> desk_ok (snd (join s d)).
Proof.
  intros Hnone [Hb Hst Ht].
  assert (forall s', s' ∈ d_sessions d -> s' <> s) as Hnew.
  { intros s' Hs' ->. destruct (bo_refs _ Hb s Hs') as [se Hse]. congruence. }
  assert (forall r, view_of (snd (join s d)) r = view_of d r) as Hv.
  { intros r. unfold view_of. simpl. destruct (decide (r.1 = s)) as [->|Hne]; [by rewrite dget_dset, Hnone|by rewrite dget_dset_ne]. }
  assert (forall r, window_ok (snd (join s d)) r = window_ok d r) as Hw by (intros r; unfold window_ok; by rewrite Hv).
  split.
  - destruct Hb as [Hd Hs Hn Hr]. split; simpl; [by apply dset_ok| | |].
    + intros s' se. destruct (decide (s' = s)) as [->|Hne]; [rewrite dget_dset; intros [= <-]; apply Session_init_ok|].
      rewrite dget_dset_ne by done. apply Hs.
    + apply list.NoDup_app. split_and!; [done| |apply NoDup_singleton]. intros s' Hs' ->%list_elem_of_singleton. by apply (Hnew s).
    + intros s' [Hs'|Hs']%elem_of_app.
      * rewrite dget_dset_ne by auto. auto.
      * apply list_elem_of_singleton in Hs' as ->. rewrite dget_dset. by eexists.
  - destruct Hst as [Hn Hx]. split; [done|]. intros r. simpl. rewrite Hx. unfold in_views. rewrite Hv. simpl.
    destruct (view_of d r) as [v|] eqn:Hvr; [|by rewrite !andb_false_r]. rewrite !andb_true_r.
    rewrite !bool_decide_eq_true, elem_of_app, list_elem_of_singleton. split; [by left|]. intros [?|Hr]; [done|].
    apply view_of_Some in Hvr as (se & Hse & _). congruence.
  - destruct Ht as [T1 T2 T3 T4 T5]. split; intros t; unfold target_ok, drag_ok, node_of; rewrite Hw, Hv.
    + apply T1. + apply T2. + apply T3. + apply T4. + apply T5.
Qed.

Lemma remove_first_sub s l : remove_first s l `sublist_of` l.
Proof. induction l as [|x l IH]; simpl; [done|]. case_match; [by apply sublist_cons|by apply sublist_skip]. Qed.

(** A request that leaves the views of a session alone. *)
Lemma session_meta_ok {A} s (m : M Session A) d r d' :
  desk_ok d -> s ∈ d_sessions d ->
  (forall se, session_ok se -> session_ok (snd (m se)) /\ s_views (snd (m se)) = s_views se) ->
  on_session s m d = (r, d') -> desk_ok d'.
Proof.
  intros Hd Hs Hm E. pose proof (dk_base _ Hd) as Hb. destruct (bo_refs _ Hb s Hs) as [se Hg].
  destruct (Hm se (bo_sess _ Hb _ _ Hg)) as [Hok Hv].
  destruct (on_session_base s m d se Hb Hg Hok) as (d1 & E1 & Hb1 & Ed1). rewrite E in E1. injection E1 as -> ->.
  eapply ext_desk; [|exact Hb1|exact Hd]. subst d1. split; try done. intros r'. rewrite view_of_objs by eauto.
  case_decide as Hr; [|done]. rewrite Hv. unfold view_of. by rewrite Hr, Hg.
Qed.

Lemma desk_ok_step d d' : desk_ok d -> desk_step d d' -> desk_ok d'.
Proof.
  intros Hd Hs. revert Hd. destruct Hs as [s d d' Hn E|s d d' E|s rv cmds r d d' Hs E|s r d d' Hs E|s rs d d' Hs E|e r d d' E]; intros Hd.
  - injection E as <-. by apply join_ok.
  - injection E as <-. destruct Hd as [[Hd0 Hs Hn Hr] [Hst _] _]. apply sync_ok; [|done]. split; simpl; try done.
    + eapply sublist_NoDup; [exact Hn|apply remove_first_sub].
    + intros s' Hs'. apply Hr. eapply elem_of_submseteq; [exact Hs'|]. apply sublist_submseteq, remove_first_sub.
  - destruct (commit_request_spec d s rv cmds Hd Hs) as (r' & d1 & E' & Hd1 & _). congruence.
  - eapply session_meta_ok; [exact Hd|exact Hs| |exact E]. intros se [? ? ?]. split; [by split|done].
  - eapply session_meta_ok; [exact Hd|exact Hs| |exact E]. intros se [? ? ?]. split; [by split|done].
  - destruct (safe_input d e Hd) as (a & d1 & E1 & Hd1). congruence.
Qed.

Lemma Desktop_init_ok : desk_ok Desktop_init.
Proof.
  split; [split; simpl; try done; [constructor|constructor|by intros ? ?%not_elem_of_nil]| |by split].
  split; [constructor|]. intros r. split; [by intros ?%not_elem_of_nil|].
  unfold in_views. by rewrite andb_comm.
Qed.

(** ** Main properties *)

(** C16: whatever clients and input devices do, in any order, the desktop is
    sound: the stack holds every window of every session exactly once, every
    window lies on the screen and is large enough for its content, and every
    input event, of whatever kind and at whatever place, is handled without an
    exception. *)
Theorem desk_input_safe d :
  steps desk_step Desktop_init d ->
  NoDup (d_stack d) /\
  (forall r, r ∈ d_stack d <-> r.1 ∈ d_sessions d /\ is_Some (view_of d r)) /\
  (forall r v, view_of d r = Some v -> fits_desktop (v_geom v) = true /\ content_fits v) /\
  (forall e, exists d', input e d = (Ok tt, d')).
Proof.
  intros Hs. assert (desk_ok d) as Hd.
  { refine (steps_invariant _ desk_ok desk_ok_step _ _ Desktop_init_ok Hs). }
  split_and!.
  - apply (so_nodup _ (dk_stack _ Hd)).
  - intros r. rewrite (so_exact _ (dk_stack _ Hd)). unfold in_views. destruct (view_of d r) as [v|].
    + rewrite andb_true_r, bool_decide_eq_true. split; [intros; split; [done|by eexists]|by intros [? _]].
    + rewrite andb_false_r. split; [done|]. by intros [_ [? ?]].
  - intros r v Hv. destruct (view_facts d r v (dk_base _ Hd) Hv) as [Hwf Hc]. split; [apply Hwf|done].
  - intros e. destruct (safe_input d e Hd) as ([] & d' & E & _). by exists d'.
Qed.

Definition demo_desk : Desktop := snd ((join 1 ;;; commit_request 1 (JInt 1) (JList demo_commands)) Desktop_init).
Definition click (x y : Z) : ievent := mkEvent 4 x y (Some 1) None 0 [].

Lemma demo_steps : steps desk_step Desktop_init demo_desk.
Proof.
  eapply (steps_cons _ _ (snd (join 1 Desktop_init))); [by apply (ds_join 1)|].
  eapply (steps_cons _ _ demo_desk); [|apply steps_refl].
  eapply (ds_commit 1 (JInt 1) (JList demo_commands)); [by apply list_elem_of_singleton|apply surjective_pairing].
Qed.

Lemma desk_input_safe_witness :
  d_stack demo_desk = [(1, lit "main")] /\
  exists d', input (click 200 140) demo_desk = (Ok tt, d').
Proof.
  split; [by vm_compute|].
  exact (proj2 (proj2 (proj2 (desk_input_safe demo_desk demo_steps))) (click 200 140)).
Defined.

(** The window [r] is visible and under the point. *)
Definition covers (d : Desktop) (x y : Z) (r : wref) : bool :=
  match view_of d r with Some v => visible v && inside x y (frame v) | None => false end.
Definition close_box (v : view) : Z * Z * Z * Z := (gx (v_geom v) + gw (v_geom v) - 38, gy (v_geom v), 38, 32).

Lemma visible_of_app d l1 l2 vs :
  visible_of d (l1 ++ l2) = Ok vs -> exists v1 v2, visible_of d l1 = Ok v1 /\ visible_of d l2 = Ok v2 /\ vs = v1 ++ v2.
Proof.
  revert vs. induction l1 as [|r l1 IH]; intros vs E; simpl in *; [by exists [], vs|].
  destruct (view_of d r) as [v|]; [|done]. apply rbind_Ok in E as (rest & E & [= <-]).
  destruct (IH rest E) as (v1 & v2 & -> & E2 & ->). simpl. exists (if visible v then r :: v1 else v1), v2.
  split_and!; [done|done|]. by destruct (visible v).
Qed.

(** Hit testing finds the topmost window under the point. *)
Lemma hit_topmost d x y l vs h :
  visible_of d l = Ok vs -> hit_in d x y (rev vs) = Ok h ->
  match h with
  | None => Forall (fun r => covers d x y r = false) l
  | Some (r, _) => exists l1 l2, l = l1 ++ r :: l2 /\ covers d x y r = true /\ Forall (fun r => covers d x y r = false) l2
  end.
Proof.
  revert vs h. induction l as [|r l IH] using rev_ind; intros vs h Ev Eh.
  { injection Ev as <-. by injection Eh as <-. }
  apply visible_of_app in Ev as (v1 & v2 & E1 & E2 & ->). simpl in E2.
  destruct (view_of d r) as [v|] eqn:Hv; [|done]. injection E2 as <-.
  assert (covers d x y r = visible v && inside x y (frame v)) as Hc by (unfold covers; by rewrite Hv).
  rewrite rev_app_distr in Eh.
  assert (covers d x y r = true /\ (exists n, h = Some (r, n)) \/ covers d x y r = false /\ hit_in d x y (rev v1) = Ok h) as [[Hr [n ->]]|[Hr Eh']].
  { rewrite Hc. destruct (visible v); cbn [rev app hit_in] in Eh; [|by right]. rewrite Hv in Eh.
    destruct (inside x y (frame v)); [left; split; [done|]; injection Eh as <-; by eexists|by right]. }
  - exists l, []. by split_and!.
  - specialize (IH _ _ E1 Eh'). destruct h as [[r' n]|].
    + destruct IH as (l1 & l2 & -> & Hr' & Hl2). exists l1, (l2 ++ [r]). rewrite <- (assoc_L (++)). split_and!; [done|done|].
      apply Forall_app. split; [done|by apply Forall_singleton].
    + apply Forall_app. split; [done|by apply Forall_singleton].
Qed.

Lemma list_remove_middle r l1 l2 : r ∉ l1 -> list_remove r (l1 ++ r :: l2) = Ok (l1 ++ l2).
Proof.
  induction l1 as [|x l1 IH]; intros Hn; simpl; [by rewrite decide_True|].
  apply not_elem_of_cons in Hn as [Hx Hn]. rewrite decide_False by done. by rewrite IH.
Qed.

(** A press that is not on the close box leaves the stack alone. *)
Lemma press_at_stack d r nid x y v d' :
  desk_ok d -> hit_ok d (Some (r, nid)) -> view_of d r = Some v -> inside x y (close_box v) = false ->
  press_at r nid x y d = (Ok tt, d') -> d_stack d' = d_stack d.
Proof.
  intros Hd [Hw Hnid] Hv Hclose E. unfold press_at in E. rewrite (step_view d r v _ Hv) in E. cbv zeta in E.
  fold (close_box v) in E. rewrite Hclose in E. revert E.
  destruct (_ && bool_decide (v_state v = Normal)); [by intros [= <-]|].
  destruct (_ && bool_decide (v_state v = Normal)); [by intros [= <-]|].
  destruct nid as [nid|]; [|by intros [= <-]]. set (f := fun d => put_pressed (Some (r, nid)) (put_focus (Some (r, nid)) d)).
  rewrite (bind_step (modify f) _ d tt (f d) eq_refl). intros E.
  destruct (safe_targets f d Hd) as ([] & d1 & E1 & Hd1); try done.
  { destruct (dk_targets _ Hd) as [T1 T2 T3 T4 T5]. split; try done; intros t [= <-]; exact Hnid. }
  injection E1 as <-. destruct (settles_drag_slider (f d) (r, nid) x) as (d2 & E2 & He & _); [apply Hd1|exact Hnid|].
  rewrite E in E2. injection E2 as <-. by rewrite (ex_stack _ _ He).
Qed.

(** Closing removes the window. *)
Lemma press_at_close d r nid x y v d' :
  desk_ok d -> window_ok d r = true -> view_of d r = Some v -> inside x y (close_box v) = true ->
  press_at r nid x y d = (Ok tt, d') -> view_of d' r = None.
Proof.
  intros Hd Hw Hv Hclose E. unfold press_at in E. rewrite (step_view d r v _ Hv) in E. cbv zeta in E.
  fold (close_box v) in E. rewrite Hclose in E. revert E. destruct (window_facts d r (dk_base _ Hd) Hw) as (_ & _ & se & _ & Hg).
  set (m := modify (fun se => put_views (dpop r.2 (s_views se)) se)). pose proof (bo_sess _ (dk_base _ Hd) _ _ Hg) as Hse.
  destruct (on_session_base r.1 m d se (dk_base _ Hd) Hg) as (d1 & E1 & Hb1 & Ed1); [by apply session_drop|].
  destruct (settles_emit r.1 (EvClosed r.2) d1 Hb1) as (d2 & E2 & He2 & Hb2).
  { rewrite Ed1. simpl. rewrite dget_dset. by eexists. }
  rewrite (bind_step _ _ _ _ _ E1), (bind_step _ _ _ _ _ E2). intros [= <-].
  change (view_of (sync d2) r) with (view_of d2 r). pose proof (ex_shape _ _ He2 r) as Hsh.
  assert (view_of d1 r = None) as Hn; [|rewrite Hn in Hsh; by destruct (view_of d2 r)].
  rewrite Ed1, view_of_objs by eauto. rewrite decide_True by done. simpl. apply dget_dpop, (vs_dict _ (se_views _ Hse)).
Qed.

(** A mouse press acts on the topmost visible window under the pointer: if
    there is none the stack stays; otherwise that window goes to the top and
    the order of the others stays, or, when the press was in its close box, the
    window is gone. *)
Theorem desk_press_topmost d x y d' :
  steps desk_step Desktop_init d -> input (click x y) d = (Ok tt, d') ->
  (Forall (fun r => covers d x y r = false) (d_stack d) /\ d_stack d' = d_stack d) \/
  (exists l1 r l2 v, d_stack d = l1 ++ r :: l2 /\ covers d x y r = true /\
     Forall (fun r => covers d x y r = false) l2 /\ view_of d r = Some v /\
     if inside x y (close_box v) then view_of d' r = None else d_stack d' = l1 ++ l2 ++ [r]).
Proof.
  intros Hs E. assert (desk_ok d) as Hd by (refine (steps_invariant _ desk_ok desk_ok_step _ _ Desktop_init_ok Hs)).
  change (on_press x y d = (Ok tt, d')) in E. unfold on_press in E.
  destruct (hit_spec d x y Hd) as (h & Eh & Hh). rewrite (bind_step _ _ _ _ _ Eh) in E.
  destruct (visible_stack_spec d Hd) as (vs & Ev & _). unfold hit in Eh. rewrite (bind_step _ _ _ _ _ Ev) in Eh.
  injection Ev as Ev. injection Eh as Eh. pose proof (hit_topmost d x y (d_stack d) vs h Ev Eh) as Htop.
  set (f := fun d => put_pressed None (put_focus None d)) in E.
  destruct (no_targets_ok f d Hd) as ([] & d0 & E0 & Hd0); auto. injection E0 as <-.
  rewrite (bind_step (modify f) _ d tt (f d) eq_refl) in E.
  destruct h as [[r nid]|]; [right|left; split; [exact Htop|by injection E as <-]].
  destruct Htop as (l1 & l2 & El & Hr & Hl2).
  destruct (window_facts d r (dk_base _ Hd) (proj1 Hh)) as (Hin & v & se & Hv & Hg).
  exists l1, r, l2, v. split_and!; [done..|].
  assert (r ∉ l1) as Hn1.
  { pose proof (so_nodup _ (dk_stack _ Hd)) as Hnd. rewrite El in Hnd. apply list.NoDup_app in Hnd as (_ & Hnd & _).
    intros Hr1. apply (Hnd r Hr1), elem_of_cons. by left. }
  unfold press_window in E. rewrite bind_assoc in E. unfold bind at 1 in E. cbn [gets] in E.
  change (d_stack (f d)) with (d_stack d) in E. rewrite El, list_remove_middle in E by done.
  set (d1 := put_stack ((l1 ++ l2) ++ [r]) (f d)).
  assert ((l1 ++ l2) ++ [r] ≡ₚ d_stack d) as Hperm.
  { rewrite El, <- (assoc_L (++)). f_equiv. symmetry. apply Permutation_cons_append. }
  assert (desk_ok d1) as Hd1.
  { apply restack_ok; [rewrite Hperm; apply (so_nodup _ (dk_stack _ Hd))| |done]. intros r'. by rewrite Hperm. }
  assert (hit_ok d1 (Some (r, nid))) as Hh1.
  { destruct Hh as [Hw Hn]. assert (window_ok d1 r = true) as Hw1.
    { unfold window_ok in *. apply andb_prop in Hw as [_ Hw]. rewrite bool_decide_true; [exact Hw|]. simpl. by rewrite Hperm. }
    split; [done|]. destruct nid as [nid|]; [|done]. unfold target_ok in *. simpl. rewrite Hw1. by apply andb_prop in Hn as [_ ?]. }
  destruct (safe_press_at d1 r nid x y Hd1 Hh1) as ([] & d2 & E2 & Hd2).
  assert (d' = put_dirty d2) as ->.
  { change ((press_at r nid x y ;;; make_dirty) d1 = (Ok tt, d')) in E.
    rewrite (bind_step _ _ _ _ _ E2) in E. by injection E as <-. }
  destruct (inside x y (close_box v)) eqn:Hc.
  - exact (press_at_close d1 r nid x y v d2 Hd1 (proj1 Hh1) Hv Hc E2).
  - change (d_stack (put_dirty d2)) with (d_stack d2). rewrite (press_at_stack d1 r nid x y v d2 Hd1 Hh1 Hv Hc E2).
    simpl. by rewrite <- (assoc_L (++)).
Qed.

Lemma desk_press_topmost_witness :
  let d' := snd (input (click 470 80) demo_desk) in
  exists l1 r l2 v, d_stack demo_desk = l1 ++ r :: l2 /\ view_of demo_desk r = Some v /\
    if inside 470 80 (close_box v) then view_of d' r = None else d_stack d' = l1 ++ l2 ++ [r].
Proof.
  intros d'. destruct (desk_press_topmost demo_desk 470 80 d' demo_steps) as [[Hf _]|(l1 & r & l2 & v & H1 & _ & _ & H2 & H3)].
  - by vm_compute.
  - exfalso. apply Forall_inv in Hf. by vm_compute in Hf.
  - exists l1, r, l2, v. exact (conj H1 (conj H2 H3)).
Defined.
